(* ===== verification/_CoqProject ===== *)
-Q . S2P
Prelude.v
Crc32.v
Common.v
TsPacket.v
PesWriter.v
PesDemux.v
PsiParse.v
PsiAssembly.v
PsiWriter.v
Descriptors.v
AnnexB.v
NalUnits.v
MispTime.v
AuCell.v
AudioFrames.v
WireBytes.v
Klv.v
KlvPack.v
KlvRecords.v
Unicode.v
St0102.v
St0102Theorems.v
Muxer.v
MuxerConfig.v
ConfigTheorems.v
MuxerBuild.v
MuxerTheorems.v
MuxerHandlers.v
MuxerSession.v
MuxerWf.v
MuxerMisp.v
Reconfigure.v
ReconfigurePlan.v
ReconfigureApply.v
MuxerLife.v
Sync.v
Ingress.v
DemuxTime.v
AuReassemble.v
Latm.v
DemuxTypes.v
DemuxState.v
DemuxIngress.v
DemuxPsi.v
DemuxPayload.v
DemuxPes.v
Demuxer.v
DemuxLedger.v
DemuxTotal.v
DemuxSafe.v
DemuxMethods.v
DemuxEmit.v
DemuxerTheorems.v
DemuxTrace.v
DemuxReceive.v
DemuxAcquire.v
EndToEnd.v
ServiceTables.v
Broadcast.v
RtpPacket.v
RtpDepay.v
RtpBounds.v
RtpCarriage.v
RtpDelivery.v
