(* ===== verification/Prelude.v ===== *)
(** * The MPEG-TS multiplexer and demultiplexer of [tst-core], and RTP video

    The program turns elementary streams (video, KLV metadata, audio, subtitles,
    private data) into an MPEG transport stream and back, and carries H.264 and
    H.265 in RTP packets. All paths below are under [src/crates/tst-core/src]
    unless they start with [tst-rtp] ([src/crates/tst-rtp/src]).

    ** Parts and how they interact

    On the sending side the application calls a push handler of the muxer
    ([mpegts/mux/push_*.rs]). The handler looks the stream up by its packed
    handle, checks the payload, builds one PES packet in a scratch buffer,
    reserves queue capacity for it together with the PSI and PCR packets that
    are due ([mpegts/mux/scheduling.rs]), and cuts the PES into 188-byte TS
    packets with the per-PID continuity counters ([mpegts/mux/ts.rs]). [pull]
    hands queued packets out. On the receiving side every packet is parsed
    ([mpegts/demux/ts.rs]); packets of table PIDs feed the section assembler and
    the PAT and PMT parsers, packets of elementary PIDs feed the PES reassembler
    ([mpegts/demux/pes.rs]). [Demuxer::feed] ([mpegts/demux/demuxer.rs]) finds the
    packets in a byte stream, checks clocks and continuity counters
    ([sync_ingress.rs]), keeps the programs the tables announce
    ([psi_topology.rs]) and turns completed PES into events ([pes_emit.rs]),
    which [next_event] hands out.

    For RTP, a packetizer cuts the NAL units of an access unit into payloads of
    bounded size; a depacketizer puts access units together from packets as they
    arrive, drops those that lost a packet, and starts each one on a timestamp of
    its own clock.

    ** Files

    - [Prelude]: outcomes of Rust code ([res]: a value, an error or a panic) with
      their notation, machine-width arithmetic, byte buffers with bounds-checked
      reads and writes, the tactics and the lemmas every file uses.
    - [Crc32] ([mpegts/common/crc32.rs]): the table and the byte loop, and the
      bit-serial register they implement.
    - [Common] ([mpegts/common/mod.rs], [handle_pack.rs]): stream types, the 90 kHz
      and 27 MHz clocks, packed handles.
    - [TsPacket] ([mpegts/mux/ts.rs], [mpegts/demux/ts.rs]): Modules [TsWriter] and
      [TsParser] are the code; [TsLayout] is the byte layout both are proved
      against; [TsTheorems] the results.
    - [PesWriter] ([mpegts/mux/pes.rs]) and [PesDemux] ([mpegts/demux/pes.rs]):
      Modules [PesWriter], [PesParse] and [Reassembler] are the code. [by_pid] of
      the reassembler is a [gmap]; where the source walks its hash map in sorted
      order, so does the model.
    - [PsiParse] ([mpegts/demux/psi.rs]), [PsiAssembly]
      ([mpegts/demux/psi_assembler.rs], [pat_reassemble.rs]) and [PsiWriter]
      ([mpegts/mux/psi.rs], with the stream vocabulary of [mux/types.rs],
      [mux/config.rs] and [mux/state.rs]).
    - [AnnexB] ([codec/annexb.rs], [codec/util.rs], [codec/av1/decode/leb128.rs],
      the validator and AV1 wrapper of [mpegts/mux/state.rs], the unwrapper of
      [mpegts/demux/payload.rs]).
    - [NalUnits] ([codec/nal.rs], [codec/nal_framing.rs]): NAL header types, how the
      Annex-B scan acts on a concatenation ([NalSplit]), length-prefixed framing
      and the parameter-set filter. [MispTime] ([codec/misp_time.rs]): the SEI unit
      of an ST 0604 time stamp, its splice and its extraction.
    - [AuCell] ([mpegts/au_cell.rs]): the metadata access-unit cell.
    - [AudioFrames] ([codec/aac], [codec/mpegaudio], [codec/framing.rs]): the class
      [FrameSyntax] is what a codec gives the frame iterator, [FrameLaws] what the
      iterator's theorems need of it; both header parsers are instances.
    - [Klv] ([klv/length.rs]) and
      [KlvPack] ([klv/pack.rs], [klv/checksum.rs]): BER
      lengths, BER-OID tags, the local-set walk and its emitter, against a
      declarative description of both number formats.
    - [KlvRecords] ([klv/st0605], [klv/st1204], [klv/universal_label.rs]): the
      time-stamp pack and the core identifier with its check value and text form.
    - [Unicode]: UTF-8 and UTF-16 as the Rust library decodes and encodes them.
    - [St0102] ([klv/st0102]): the security local set, its tag table, decoder,
      both encoders and the text sanitiser; the class [WireCode] is what a field's
      code table promises the codec. [St0102Theorems] proves its laws.
    - [Muxer] ([mpegts/mux/mod.rs], [slot.rs], [scheduling.rs], [push_*.rs],
      [mpegts/stats.rs]): Module [MuxState] is the muxer's state, [MuxHandles] the
      handle lookups, [MuxSchedule] PSI and PCR scheduling, reservation,
      packetization and [pull], [MuxPush] the handlers. A handler returns its
      result and the muxer it leaves, also when it fails.
    - [WireBytes]: what the writers emit are bytes.
    - [MuxerTheorems]: packetization, the invariant [MuxInv.mux_ok], the preamble,
      the reservation and the part every handler shares. [Wire.item] is what the
      muxer puts on the wire (a table, a clock, a PES), [Wire.render] its packets.
    - [MuxerHandlers]: what each handler does, case by case.
    - [MuxerSession]: sequences of operations, the items they put on the wire and
      what a reassembler makes of them.
    - [MuxerMisp] ([push_video_misp_to] and its DTS variant in [push_video.rs]).
    - [RtpPacket] ([tst-rtp/packet.rs], [h264/packetizer.rs], [h265/packetizer.rs]):
      the header and the packetizers. [RtpDepay] ([tst-rtp/depay/core.rs], [mod.rs],
      [clock.rs], [h264/depacketizer.rs], [h265/depacketizer.rs]): the
      depacketizer; the class [Depay.Format] is the source's trait of payload
      rules, with both formats as instances.
    - [RtpBounds]: what the state machine needs of a format ([FormatLaws]) and its
      invariant. [RtpCarriage]: the payloads that carry a NAL unit, what the
      depacketizer makes of them, and the class [PacketizerLaws] that both
      packetizers satisfy. [RtpDelivery]: a session under any network
      ([Delivery]) and under one that loses nothing ([Lossless]).
    - [Descriptors] ([mpegts/descriptors], [mpegts/demux/pmt_classify.rs]): the
      descriptor builders and parsers and the classifier of PMT entries.
    - [MuxerConfig] ([MuxerConfig::validate] in [mux/config.rs], the automatic
      descriptors and PCR rules of [mux/state.rs], the size estimate of
      [mux/psi.rs]) and [ConfigTheorems]: a declarative description of valid
      configurations, proved equivalent to the code, and what a program's PMT
      tells a receiver.
    - [MuxerBuild] ([Muxer::new], [mux/slot.rs], [initialize_stats]): construction.
    - [MuxerWf]: the invariant [MuxWf.mux_wf] of a whole muxer, which implies
      [mux_ok]. A slot's five stream vectors are read through one view,
      [SlotView.entry]; [placed_pids] and the program agree with it.
    - [Reconfigure] ([mux/reconfigure.rs]): the plan and its application.
      [ReconfigurePlan] proves what an accepted plan promises: both program slots
      and stream indices are handed out from a [Pool], a permutation argument
      that gives distinct indices within the caps. [ReconfigureApply] proves that
      applying it gives a well-formed muxer.
    - [MuxerLife]: the results on reconfiguration, and the life of a muxer from
      [new] through any sequence of operations.
    - [Sync] ([mpegts/sync.rs]) and [Ingress] (the loop of [Demuxer::feed] and the
      sync-buffer fields): the packet handler is a parameter. [Abstract] is the
      loop without cursor and compaction, which the code refines.
    - [DemuxTime] ([demux/timestamp.rs]), [AuReassemble] ([demux/au_reassemble.rs])
      and [Latm] ([codec/aac/latm.rs], the framing check of [demux/pes_emit.rs]).
    - [DemuxTypes] ([demux/event.rs], [strict.rs], [types.rs], [pid_state.rs]): the
      data of the demuxer.
    - [DemuxState] ([demux/demuxer.rs], [stats_recorder.rs]): [Core] is the
      demuxer's state behind the sync buffer; its methods run in the state and
      error monad [Core.M]. A hash map is walked in an arbitrary order, the
      parameter [HashOrder]; the theorems hold for every order.
    - [DemuxIngress] ([sync_ingress.rs]), [DemuxPsi] ([psi_topology.rs]),
      [DemuxPayload] ([payload.rs]), [DemuxPes] ([pes_emit.rs]) and [Demuxer] (the
      public calls of [demuxer.rs]): one definition per method, the larger methods
      cut where the source branches.
    - [DemuxLedger]: what every method does to the event queue and its counters.
    - [DemuxTotal]: what the parts the demuxer calls promise it on any bytes.
      [DemuxSafe]: the invariant [CoreInv.core_ok] of the state and the rules that
      lift it through the monad ([Safe.safe]; [Frame] for what a method leaves
      alone). [DemuxMethods] and [DemuxEmit] prove every method safe;
      [DemuxerTheorems] draws the results on whole demuxers.
    - [DemuxTrace]: which methods are quiet (queue no sample or metadata, keep what
      the tables declared) and which event a completed PES is delivered as
      ([Deliver.delivery]). [DemuxReceive]: what a demuxer that has the tables
      ([Items.locked]) makes of one item of the wire. [DemuxAcquire]: how it gets
      the tables. [EndToEnd]: all items in a row, with the video PES that wait for
      their successor, and the flush. [ServiceTables]: the service a well-formed
      muxer announces. [Broadcast]: the whole way from pushes to events.

    ** Conventions

    Integers are [Z] with the width written out: [as_u8] and the like are casts,
    [chk_u16] and the like are arithmetic that panics on overflow, [usub] is
    unsigned subtraction. The model follows a build with overflow checks and debug
    assertions on, so a theorem that something never panics covers both
    profiles. A function of the source that cannot fail is polymorphic in its
    error type; theorems instantiate it with [Empty_set], so [Ok] is its only
    outcome besides a panic. A loop that is not structural takes fuel: the length
    of the buffer plus one or two, because every turn consumes at least one byte
    or ends the loop; running out of fuel is [Panic], so every theorem that
    excludes [Panic] proves the fuel enough. The event and statistics counters of
    the demuxer wrap at 64 bits (as in a release build) instead of panicking; the
    text of a strict rejection, a [Debug] rendering, is a parameter.

    ** What the theorems show

    - CRC: the table-driven loop is the bit-serial CRC-32/MPEG-2, a section with
      its trailer has residue zero, and any change inside four consecutive bytes is
      detected; hence an altered PAT or PMT section is rejected.
    - Packets: writing then parsing a TS packet, a PCR-only packet, a PES header, a
      PAT, a PMT, an AU cell or an AV1 access unit gives back what was written.
      Continuity counters are exact under any interleaving of PIDs.
    - Parsers: on any bytes the TS, PES, PSI, descriptor and AU-cell parsers return
      without a panic, and their errors are characterised.
    - Reassembly: sections and PES cut in any way come out whole, PATs in any
      section order; the reassemblers stay within their caps, with exact byte and
      entry counters, for any sequence of operations.
    - Scanners: the Annex-B scan reports exactly the start codes, the validator
      accepts exactly the tilings of non-empty NAL units, the audio iterators
      terminate and yield disjoint frames. Annex-B and length-prefixed framing
      convert into each other without losing a unit.
    - Time stamps: a stamped push sends the access unit with one SEI unit more,
      right before the first VCL unit, and a receiver extracts exactly that stamp;
      the extractor never panics.
    - RTP: on any packets the depacketizer neither panics nor exceeds its memory
      cap. Over a network that loses, repeats and reorders packets, every access
      unit it hands out is one the sender sent, undamaged; over one that loses
      nothing it hands out the session. The caller
      flushes between access units only. A packet must be closer than 65535 packets
      to the one that arrived before (sequence numbers have 16 bits), the first
      one must open an access unit, and one source is assumed; the bound of 2^30
      calls keeps the 64-bit timestamp arithmetic from overflowing.
    - KLV: lengths and tags are accepted exactly when they are encodings in the
      declared format, the walk of a local set is total and inverts the emitter,
      any single altered byte changes the checksum, the security set decodes on
      any bytes, comes back from its own encoder, and the strict encoder refuses
      exactly what it says.
    - Muxer: a push is all or nothing, stays within the queue capacity and never
      panics; [pull] is first in, first out; a PSI request is answered by the next
      push; shorthands resolve to the one live stream. For any sequence of
      pushes, pulls and PSI requests, the reassembler of each stream gets exactly
      the payloads pushed to it, in order.
    - End to end: the bytes of any session on a well-formed muxer, cut into [feed]
      calls that stay within the sync cap and flushed, come out of a new lenient
      demuxer as one sample or metadata event per successful push, per PID in
      order, with program, kind, timestamps and payload, and no other
      ([Broadcast.broadcast_delivers]). It assumes descriptors of the caller that
      are well formed ([ServiceTables.described]), caps with room for one PES per
      stream, no stream-kind overrides, and private-stream metadata that starts
      with a universal label.
    - Configuration: [validate] accepts exactly the valid configurations; the PMT
      of a valid program with well-formed descriptors fits one packet and lets the receiver's classifier find
      every stream's configured kind.
    - Life: [new] gives a well-formed muxer or [validate]'s error; pushes, pulls,
      PSI requests and reconfigurations keep it well formed and never panic. A
      refused reconfiguration changes nothing. An accepted one keeps handles and
      continuity counters of the streams that stay, never lets a handle reach
      another running stream, keeps queue and statistics but for the codec
      counters of the PIDs that go, and raises table versions exactly when table
      contents change.
    - Receiving: a byte stream cut into [feed] calls that stay within the sync
      cap gives the same packets and the same outcome, errors of the packet handler
      included; garbage is skipped and the packets behind it are all found; the
      timeline of a program is recovered from its 33-bit clocks; metadata units
      come out of their cells whole, within the caps; a stream of LOAS records is
      never reported and leaves exactly the carry it owes; the
      statistics count exactly the events produced. A demuxer fed any bytes in any
      calls never panics and stays within its memory caps; the strict verdict on a
      packet is exact; a lenient demuxer makes of a stream what it makes of its
      packets. These three assume [CoreInv.config_ok]: sizes are non-negative, the
      total cap of metadata units is below [usize::MAX], and timestamps are not
      unwrapped (the sum in [dts_with_pts] overflows after about 2^30 epochs).

    The packet-path results assume the invariant [MuxInv.mux_ok]: PIDs of 13 bits,
    elementary PIDs distinct from the PAT's and the PMTs', PMTs that fit one packet,
    at most 16 programs. Every well-formed muxer has it ([MuxWf.mux_wf_ok]), hence
    every constructed one and every one a reconfiguration leaves.

    ** Not modelled

    The fluent builders of the configurations and [from_program_map], the log
    lines of [warn_on_descriptor_conflicts], the wall clock of the statistics, the character sets of
    text labels, the [Display] texts of events, the NAL and OBU splitters the
    application calls on a delivered sample, the KLV sets whose values are
    floating point (ST 0601, 0806, 0903, 1010 and the IMAPB mapping) and the video
    parameter-set parsers. The RTP clock reads the system's; transports,
    RTSP and RTCP sessions, bindings and tools are I/O. *)
From Stdlib Require Import ZArith Lia Bool.
From stdpp Require Import base list list_numbers gmap.

#[global] Open Scope Z_scope.

(** * Results of Rust code *)

(** [res E A] is the outcome of a Rust computation: a value, an [Err] that the
    caller sees, or a [Panic] (an index out of range, a checked arithmetic
    overflow, a failed assertion). *)
Inductive res (E A : Type) : Type :=
| Ok (a : A)
| Err (e : E)
| Panic.
Arguments Ok {E A} a.
Arguments Err {E A} e.
Arguments Panic {E A}.

Definition rbind {E A B} (m : res E A) (k : A -> res E B) : res E B :=
  match m with
  | Ok a => k a
  | Err e => Err e
  | Panic => Panic
  end.

(** [Result::map_err], used where a caller rebases an inner error. *)
Definition map_err {E F A} (f : E -> F) (m : res E A) : res F A :=
  match m with
  | Ok a => Ok a
  | Err e => Err (f e)
  | Panic => Panic
  end.

Declare Scope rust_scope.
Delimit Scope rust_scope with rust.
Notation "'let!' x := m 'in' k" := (rbind m (fun x => k))
  (at level 10, x pattern, m at level 100, k at level 200) : rust_scope.
Notation "'assert!' b 'in' k" := (if (b : bool) then k else Panic)
  (at level 10, b at level 100, k at level 200) : rust_scope.
(** The [?] operator on [Option]. *)
Notation "'get!' x := m 'in' k" := (match m with Some x => k | None => None end)
  (at level 10, x pattern, m at level 100, k at level 200, only parsing) : rust_scope.
#[global] Open Scope rust_scope.

Definition no_panic {E A} (m : res E A) : Prop := m <> Panic.

Definition is_ok {E A} (m : res E A) : bool :=
  match m with Ok _ => true | _ => false end.

Lemma rbind_ok {E A B} (m : res E A) (k : A -> res E B) b :
  rbind m k = Ok b <-> exists a, m = Ok a /\ k a = Ok b.
Proof.
  destruct m as [a|e|]; simpl; split; naive_solver.
Qed.

Lemma no_panic_ok {E A} (a : A) : no_panic (Ok (E:=E) a).
Proof. discriminate. Qed.

Lemma no_panic_err {E A} (e : E) : no_panic (Err (A:=A) e).
Proof. discriminate. Qed.

Lemma no_panic_bind {E A B} (m : res E A) (k : A -> res E B) :
  no_panic m -> (forall a, m = Ok a -> no_panic (k a)) -> no_panic (rbind m k).
Proof. unfold no_panic; destruct m; simpl; auto; congruence. Qed.

Lemma no_panic_if {E A} (b : bool) (m1 m2 : res E A) :
  (b = true -> no_panic m1) -> (b = false -> no_panic m2) ->
  no_panic (if b then m1 else m2).
Proof. destruct b; auto. Qed.

(** ** Guards

    A validation routine is a chain of early returns: [throw_if] is one
    [if c { return Err(e) }], [check!] runs the next step when the previous
    ones returned [Ok(())], and the three loops run a check over a slice, over a
    slice with its index, and over every pair [i < j] of a slice. *)
Definition throw_if {E} (c : bool) (e : E) : res E unit := if c then Err e else Ok tt.

Notation "'check!' m 'in' k" := (rbind m (fun _ : unit => k))
  (at level 10, m at level 100, k at level 200) : rust_scope.

Fixpoint check_each {E A} (f : A -> res E unit) (l : list A) : res E unit :=
  match l with [] => Ok tt | x :: l => check! f x in check_each f l end.

Fixpoint check_each_i {E A} (f : Z -> A -> res E unit) (i : Z) (l : list A) : res E unit :=
  match l with [] => Ok tt | x :: l => check! f i x in check_each_i f (i + 1) l end.

Fixpoint check_pairs {E A} (f : A -> A -> res E unit) (l : list A) : res E unit :=
  match l with [] => Ok tt | x :: l => check! check_each (f x) l in check_pairs f l end.

Lemma throw_if_ok {E} c (e : E) u : throw_if c e = Ok u <-> c = false.
Proof. destruct c, u; done. Qed.

Lemma check_ok {E A} (m : res E unit) (k : res E A) x : (check! m in k) = Ok x <-> m = Ok tt /\ k = Ok x.
Proof. destruct m as [[]|e|]; cbn; naive_solver. Qed.

Lemma check_each_ok {E A} (f : A -> res E unit) l u : check_each f l = Ok u <-> Forall (fun x => f x = Ok tt) l.
Proof.
  destruct u. induction l as [|x l IH]; cbn [check_each]; [by split|]. by rewrite check_ok, Forall_cons, IH.
Qed.

Lemma check_each_i_ok {E A} (f : Z -> A -> res E unit) l u : forall i,
  check_each_i f i l = Ok u <-> forall n x, l !! n = Some x -> f (i + Z.of_nat n) x = Ok tt.
Proof.
  destruct u. induction l as [|x l IH]; intros i; cbn [check_each_i]; [by split|]. rewrite check_ok, IH. split.
  - intros [Hx Hl] [|n] y Hy; cbn in Hy.
    + injection Hy as <-. by rewrite Z.add_0_r.
    + specialize (Hl n y Hy). by replace (i + Z.of_nat (S n)) with (i + 1 + Z.of_nat n) by lia.
  - intros H. split; [specialize (H O x eq_refl); by rewrite Z.add_0_r in H|].
    intros n y Hy. specialize (H (S n) y Hy). by replace (i + 1 + Z.of_nat n) with (i + Z.of_nat (S n)) by lia.
Qed.

Lemma check_pairs_ok {E A} (f : A -> A -> res E unit) l u :
  check_pairs f l = Ok u <-> ForallOrdPairs (fun x y => f x y = Ok tt) l.
Proof.
  destruct u. induction l as [|x l IH]; cbn [check_pairs]; [split; [constructor|done]|].
  rewrite check_ok, check_each_ok, IH. split; [intros []; by constructor|]. by inversion 1.
Qed.

Lemma check_no_panic {E A} (m : res E unit) (k : res E A) :
  no_panic m -> (m = Ok tt -> no_panic k) -> no_panic (check! m in k).
Proof. intros Hm Hk. apply no_panic_bind; [done|]. intros [] H. by apply Hk. Qed.

Lemma throw_no_panic {E} c (e : E) : no_panic (throw_if c e).
Proof. by destruct c. Qed.

Lemma check_each_no_panic {E A} (f : A -> res E unit) l : Forall (fun x => no_panic (f x)) l -> no_panic (check_each f l).
Proof. induction 1; cbn [check_each]; [done|]. by apply check_no_panic. Qed.

Lemma check_each_i_no_panic {E A} (f : Z -> A -> res E unit) l : forall i,
  (forall n x, l !! n = Some x -> no_panic (f (i + Z.of_nat n) x)) -> no_panic (check_each_i f i l).
Proof.
  induction l as [|x l IH]; intros i H; cbn [check_each_i]; [done|].
  apply check_no_panic; [specialize (H O x eq_refl); by rewrite Z.add_0_r in H|]. intros _. apply IH. intros n y Hy.
  specialize (H (S n) y Hy). by replace (i + 1 + Z.of_nat n) with (i + Z.of_nat (S n)) by lia.
Qed.

Lemma check_pairs_no_panic {E A} (f : A -> A -> res E unit) l :
  (forall x y, no_panic (f x y)) -> no_panic (check_pairs f l).
Proof.
  intros H. induction l as [|x l IH]; cbn [check_pairs]; [done|].
  apply check_no_panic; [|done]. apply check_each_no_panic. apply Forall_forall. auto.
Qed.

(** * Machine integers

    A w-bit unsigned integer is a [Z] in [0, 2^w); [as uN] casts wrap, and
    [+], [-], [*] on machine types are the checked forms below. *)

Definition as_u8 (x : Z) : Z := x mod 256.
Definition as_u16 (x : Z) : Z := x mod 65536.
Definition as_u32 (x : Z) : Z := x mod 2 ^ 32.
Definition as_u64 (x : Z) : Z := x mod 2 ^ 64.
Definition as_i64 (x : Z) : Z :=
  let y := x mod 2 ^ 64 in if y <? 2 ^ 63 then y else y - 2 ^ 64.

Definition u16_max : Z := 65535.
Definition u32_max : Z := 2 ^ 32 - 1.
Definition u64_max : Z := 2 ^ 64 - 1.
Definition i64_max : Z := 2 ^ 63 - 1.
Definition i64_min : Z := - 2 ^ 63.

(** [x] if it fits below [lim], a panic (debug overflow check) otherwise. *)
Definition checked {E} (lim x : Z) : res E Z :=
  if (0 <=? x) && (x <? lim) then Ok x else Panic.
Definition chk_u8 {E} (x : Z) : res E Z := checked 256 x.
Definition chk_u16 {E} (x : Z) : res E Z := checked 65536 x.
Definition chk_u64 {E} (x : Z) : res E Z := checked (2 ^ 64) x.
(** [usize] subtraction. *)
Definition usub {E} (a b : Z) : res E Z := if b <=? a then Ok (a - b) else Panic.
(** Signed 64-bit checked arithmetic. *)
Definition chk_i64 {E} (x : Z) : res E Z :=
  if (i64_min <=? x) && (x <=? i64_max) then Ok x else Panic.
(** [i64::saturating_add] and [saturating_sub] clamp the exact result. *)
Definition sat_i64 (x : Z) : Z := Z.max i64_min (Z.min i64_max x).

Definition b2z (b : bool) : Z := if b then 1 else 0.
Definition nz (x : Z) : bool := negb (x =? 0).

Definition byte (b : Z) : Prop := 0 <= b < 256.
Definition bytes (l : list Z) : Prop := Forall byte l.
Definition byteb (b : Z) : bool := (0 <=? b) && (b <? 256).

#[global] Instance byte_dec b : Decision (byte b).
Proof. unfold byte. apply _. Defined.

(** * Slices *)

Definition zlen {A} (l : list A) : Z := Z.of_nat (length l).

(** [l.get(i)] *)
Definition get {A} (l : list A) (i : Z) : option A :=
  if i <? 0 then None else l !! Z.to_nat i.

(** [l[i]] *)
Definition idx {E A} (l : list A) (i : Z) : res E A :=
  match get l i with Some x => Ok x | None => Panic end.

Definition ztake {A} (n : Z) (l : list A) : list A := take (Z.to_nat n) l.
Definition zdrop {A} (n : Z) (l : list A) : list A := drop (Z.to_nat n) l.

(** [l[a..b]] *)
Definition slice {E A} (l : list A) (a b : Z) : res E (list A) :=
  if (0 <=? a) && (a <=? b) && (b <=? zlen l)
  then Ok (ztake (b - a) (zdrop a l)) else Panic.

(** [l.get(a..b)] *)
Definition get_range {A} (l : list A) (a b : Z) : option (list A) :=
  if (0 <=? a) && (a <=? b) && (b <=? zlen l)
  then Some (ztake (b - a) (zdrop a l)) else None.

(** [out[i..i + bs.len()].copy_from_slice(bs)]; a single store [out[i] = v] is
    [put out i [v]]. *)
Definition put {E A} (out : list A) (i : Z) (bs : list A) : res E (list A) :=
  if (0 <=? i) && (i + zlen bs <=? zlen out)
  then Ok (ztake i out ++ bs ++ zdrop (i + zlen bs) out) else Panic.

Definition zrep {A} (n : Z) (x : A) : list A := replicate (Z.to_nat n) x.

(** Big-endian conversions ([to_be_bytes], [from_be_bytes]). *)
Definition be16 (x : Z) : list Z := [Z.shiftr x 8 mod 256; x mod 256].
Definition be32 (x : Z) : list Z :=
  [Z.shiftr x 24 mod 256; Z.shiftr x 16 mod 256; Z.shiftr x 8 mod 256; x mod 256].
Definition from_be16 (a b : Z) : Z := a * 256 + b.
Definition from_be32 (a b c d : Z) : Z := ((a * 256 + b) * 256 + c) * 256 + d.

Lemma zlen_nil {A} : zlen (@nil A) = 0.
Proof. reflexivity. Qed.
Lemma zlen_cons {A} (x : A) l : zlen (x :: l) = 1 + zlen l.
Proof. unfold zlen; simpl length; lia. Qed.
Lemma zlen_app {A} (l k : list A) : zlen (l ++ k) = zlen l + zlen k.
Proof. unfold zlen; rewrite length_app; lia. Qed.
Lemma zlen_nonneg {A} (l : list A) : 0 <= zlen l.
Proof. unfold zlen; lia. Qed.
Lemma zlen_ztake {A} n (l : list A) : 0 <= n <= zlen l -> zlen (ztake n l) = n.
Proof. unfold zlen, ztake; intros; rewrite length_take; lia. Qed.
Lemma zlen_ztake_le {A} n (l : list A) : zlen (ztake n l) <= zlen l.
Proof. unfold zlen, ztake; rewrite length_take; lia. Qed.
Lemma zlen_zdrop {A} n (l : list A) : 0 <= n <= zlen l -> zlen (zdrop n l) = zlen l - n.
Proof. unfold zlen, zdrop; intros; rewrite length_drop; lia. Qed.
Lemma zlen_zrep {A} n (x : A) : 0 <= n -> zlen (zrep n x) = n.
Proof. unfold zlen, zrep; intros; rewrite length_replicate; lia. Qed.
Lemma zlen_be16 x : zlen (be16 x) = 2.
Proof. reflexivity. Qed.
Lemma zlen_be32 x : zlen (be32 x) = 4.
Proof. reflexivity. Qed.

Create HintDb zl discriminated.
Create Rewrite HintDb zlr.
#[export] Hint Rewrite @zlen_nil @zlen_cons @zlen_app zlen_be16 zlen_be32 : zlr.
#[export] Hint Rewrite @zlen_ztake @zlen_zdrop @zlen_zrep using lia : zlr.
#[export] Hint Resolve zlen_nonneg : zl.

(** Push [zlen] through list constructors, add the sign of what is left, and
    call [lia]. *)
Ltac zlen_facts :=
  repeat match goal with
  | |- context [zlen ?l] =>
      lazymatch goal with
      | _ : 0 <= zlen l |- _ => fail
      | _ => pose proof (zlen_nonneg l)
      end
  | _ : context [zlen ?l] |- _ =>
      lazymatch goal with
      | _ : 0 <= zlen l |- _ => fail
      | _ => pose proof (zlen_nonneg l)
      end
  end.
Ltac zlia := autorewrite with zlr in *; zlen_facts; lia.

(** Step through a bind whose head is known. *)
Ltac rb := cbn [rbind map_err andb orb negb].

(** Evaluate reads at literal offsets of a list with a literal prefix. *)
Ltac idxs :=
  repeat match goal with
  | |- context [@idx ?E ?A ?l ?i] =>
      let v := eval hnf in (@idx E A l i) in
      lazymatch v with Ok _ => change (@idx E A l i) with v; rb end
  end.

(** [lia] with division and remainder by constants. *)
Ltac dlia := Z.to_euclidean_division_equations; lia.

(** Boolean tests on [Z] as propositions, in every hypothesis. *)
Ltac b2p :=
  repeat match goal with
  | H : (_ && _) = true |- _ => apply andb_prop in H; destruct H
  | H : (_ && _) = false |- _ => apply andb_false_iff in H
  | H : (_ || _) = true |- _ => apply orb_prop in H
  | H : (_ || _) = false |- _ => apply orb_false_elim in H; destruct H
  | H : negb _ = true |- _ => apply negb_true_iff in H
  | H : negb _ = false |- _ => apply negb_false_iff in H
  | H : (_ <? _) = true |- _ => apply Z.ltb_lt in H
  | H : (_ <? _) = false |- _ => apply Z.ltb_ge in H
  | H : (_ <=? _) = true |- _ => apply Z.leb_le in H
  | H : (_ <=? _) = false |- _ => apply Z.leb_gt in H
  | H : (_ =? _) = true |- _ => apply Z.eqb_eq in H
  | H : (_ =? _) = false |- _ => apply Z.eqb_neq in H
  end.

(** A conjunction of facts about which error a known outcome is. *)
Ltac iff_err :=
  unfold no_panic in *; split_and?;
  match goal with
  | |- _ <> _ => congruence
  | |- _ <-> _ => split; intros; intuition (first [congruence | lia])
  end.

(** Split on the outermost [if] of the goal. *)
Ltac ifs :=
  match goal with
  | |- context [if ?b then _ else _] =>
      lazymatch b with
      | context [if _ then _ else _] => fail
      | _ => let E := fresh "Hif" in destruct b eqn:E
      end
  end.

Section list_lemmas.
Context {E A : Type}.
Implicit Types (l k : list A) (i n : Z).

Lemma get_lt l i : 0 <= i < zlen l -> is_Some (get l i).
Proof.
  intros Hi. unfold get, zlen in *. rewrite (proj2 (Z.ltb_ge i 0)) by lia.
  apply lookup_lt_is_Some. lia.
Qed.

Lemma get_Some l i x : get l i = Some x -> 0 <= i < zlen l.
Proof.
  unfold get, zlen. destruct (i <? 0) eqn:Hi; [done|]. b2p.
  intros H%lookup_lt_Some. lia.
Qed.

Lemma idx_ok l i : 0 <= i < zlen l -> exists x, get l i = Some x /\ idx (E:=E) l i = Ok x.
Proof. intros [x Hx]%get_lt. exists x. unfold idx. by rewrite Hx. Qed.

Lemma idx_Ok l i x : idx (E:=E) l i = Ok x <-> get l i = Some x.
Proof. unfold idx. destruct (get l i); naive_solver. Qed.

Lemma idx_not_err l i e : idx (E:=E) l i <> Err e.
Proof. unfold idx. by destruct (get l i). Qed.

Lemma idx_no_panic l i : 0 <= i < zlen l -> no_panic (idx (E:=E) l i).
Proof. intros (x & _ & ->)%idx_ok. done. Qed.

Lemma get_app_l l k i : i < zlen l -> get (l ++ k) i = get l i.
Proof.
  unfold get, zlen. intros Hi. destruct (i <? 0) eqn:Hn; [done|]. b2p.
  apply lookup_app_l. lia.
Qed.

Lemma get_app_r l k i : zlen l <= i -> get (l ++ k) i = get k (i - zlen l).
Proof.
  unfold get, zlen. intros Hi.
  rewrite !(proj2 (Z.ltb_ge _ 0)) by lia.
  rewrite lookup_app_r by lia. f_equal. lia.
Qed.

Lemma idx_app_l l k i : i < zlen l -> idx (E:=E) (l ++ k) i = idx l i.
Proof. intros. unfold idx. by rewrite get_app_l. Qed.

Lemma get_app_len l k x : get (l ++ x :: k) (zlen l) = Some x.
Proof. rewrite get_app_r by lia. by rewrite Z.sub_diag. Qed.

Lemma ztake_app l k : ztake (zlen l) (l ++ k) = l.
Proof. unfold ztake, zlen. rewrite Nat2Z.id. apply take_app_length. Qed.
Lemma ztake_app' l k n : n = zlen l -> ztake n (l ++ k) = l.
Proof. intros ->. apply ztake_app. Qed.
Lemma zdrop_app l k : zdrop (zlen l) (l ++ k) = k.
Proof. unfold zdrop, zlen. rewrite Nat2Z.id. apply drop_app_length. Qed.
Lemma zdrop_app' l k n : n = zlen l -> zdrop n (l ++ k) = k.
Proof. intros ->. apply zdrop_app. Qed.
Lemma ztake_all l n : zlen l <= n -> ztake n l = l.
Proof. unfold ztake, zlen. intros. apply take_ge. lia. Qed.
Lemma ztake_0 l : ztake 0 l = [].
Proof. done. Qed.
Lemma zdrop_0 l : zdrop 0 l = l.
Proof. done. Qed.
Lemma zdrop_all l n : zlen l <= n -> zdrop n l = [].
Proof. unfold zdrop, zlen. intros. apply drop_ge. lia. Qed.
Lemma ztake_zdrop l n : ztake n l ++ zdrop n l = l.
Proof. apply take_drop. Qed.
Lemma zdrop_zdrop l n i : 0 <= n -> 0 <= i -> zdrop n (zdrop i l) = zdrop (i + n) l.
Proof. intros. unfold zdrop. rewrite drop_drop. f_equal. lia. Qed.
Lemma get_zdrop l n i : 0 <= n -> 0 <= i -> get (zdrop n l) i = get l (n + i).
Proof.
  intros. unfold get, zdrop. rewrite !(proj2 (Z.ltb_ge _ 0)) by lia.
  rewrite lookup_drop. f_equal. lia.
Qed.
Lemma get_ztake l n i : i < n -> get (ztake n l) i = get l i.
Proof.
  intros. unfold get, ztake. destruct (i <? 0) eqn:?; [done|]. b2p.
  apply lookup_take_lt. lia.
Qed.

Lemma slice_ok l i n :
  0 <= i -> i <= n -> n <= zlen l -> slice (E:=E) l i n = Ok (ztake (n - i) (zdrop i l)).
Proof.
  intros. unfold slice.
  rewrite !(proj2 (Z.leb_le _ _)) by lia. done.
Qed.

Lemma slice_no_panic l i n :
  0 <= i -> i <= n -> n <= zlen l -> no_panic (slice (E:=E) l i n).
Proof. intros. by rewrite slice_ok. Qed.

(** The middle of a concatenation. *)
Lemma slice_app l k m i n :
  i = zlen l -> n = zlen l + zlen k -> slice (E:=E) (l ++ k ++ m) i n = Ok k.
Proof.
  intros -> ->. rewrite slice_ok by zlia.
  rewrite zdrop_app. f_equal. apply ztake_app'. lia.
Qed.

Lemma slice_end l k i n :
  i = zlen l -> n = zlen l + zlen k -> slice (E:=E) (l ++ k) i n = Ok k.
Proof.
  intros -> ->. rewrite <- (app_nil_r k) at 1. by apply slice_app.
Qed.

Lemma slice_window l i n :
  0 <= i -> i <= n -> n <= zlen l -> exists k, slice (E:=E) l i n = Ok k /\ zlen k = n - i.
Proof.
  intros. rewrite slice_ok by lia. eexists. split; [done|].
  rewrite zlen_ztake; [lia|]. rewrite zlen_zdrop; lia.
Qed.

Lemma slice_tail l k buf i n :
  buf = l ++ k -> i = zlen l -> n = zlen buf -> slice (E:=E) buf i n = Ok k.
Proof. intros -> -> ->. rewrite zlen_app. by apply slice_end. Qed.

Lemma slice_mid l k m buf i n :
  buf = l ++ k ++ m -> i = zlen l -> n = zlen l + zlen k -> slice (E:=E) buf i n = Ok k.
Proof. intros -> -> ->. by apply slice_app. Qed.

Lemma slice_Ok l i n k :
  slice (E:=E) l i n = Ok k <->
  0 <= i /\ i <= n /\ n <= zlen l /\ k = ztake (n - i) (zdrop i l).
Proof.
  unfold slice. ifs; b2p; split; intros Hs.
  - injection Hs as <-. auto.
  - by destruct Hs as (_ & _ & _ & ->).
  - done.
  - lia.
Qed.

(** A store at the cursor extends the written prefix. *)
Lemma put_app l k bs i :
  i = zlen l -> zlen bs <= zlen k ->
  put (E:=E) (l ++ k) i bs = Ok (l ++ bs ++ zdrop (zlen bs) k).
Proof.
  intros -> ?. unfold put. rewrite !(proj2 (Z.leb_le _ _)) by zlia. simpl.
  rewrite ztake_app, <- zdrop_zdrop by zlia. by rewrite zdrop_app.
Qed.

(** The same, hiding what is left of the buffer. *)
Lemma put_step l k bs i :
  i = zlen l -> zlen bs <= zlen k ->
  exists k', put (E:=E) (l ++ k) i bs = Ok ((l ++ bs) ++ k') /\ zlen k' = zlen k - zlen bs.
Proof.
  intros ? ?. exists (zdrop (zlen bs) k). rewrite put_app by done.
  rewrite <- app_assoc. split; [done|]. by rewrite zlen_zdrop by zlia.
Qed.

(** A single in-range store is stdpp's list update. *)
Lemma put_single l i x :
  0 <= i < zlen l -> put (E:=E) l i [x] = Ok (<[Z.to_nat i:=x]> l).
Proof.
  intros Hi. unfold put. rewrite !(proj2 (Z.leb_le _ _)) by zlia. simpl. f_equal.
  unfold zlen in Hi. rewrite insert_take_drop by lia. unfold ztake, zdrop.
  simpl. do 3 f_equal. unfold zlen. simpl. lia.
Qed.

Lemma put_no_panic l bs i :
  0 <= i -> i + zlen bs <= zlen l -> no_panic (put (E:=E) l i bs).
Proof. intros. unfold put. by rewrite !(proj2 (Z.leb_le _ _)) by lia. Qed.
End list_lemmas.

(** Advance over one store at the cursor; what is left of the buffer becomes a
    fresh list of known length. *)
Ltac put_next :=
  match goal with
  | |- context [@put ?E ?A (?w ++ ?k) ?i ?bs] =>
      let k' := fresh "k" in let Hk := fresh "Hk" in
      destruct (put_step (E:=E) w k bs i) as (k' & -> & Hk);
      [first [reflexivity | rewrite ?zlen_app, ?zlen_cons, ?zlen_nil; lia]
      |rewrite ?zlen_app, ?zlen_cons, ?zlen_nil; lia|];
      rewrite ?zlen_cons, ?zlen_nil in Hk; rb
  end.

Lemma get_insert {A} (l : list A) i j x :
  0 <= i < zlen l -> 0 <= j ->
  get (<[Z.to_nat i:=x]> l) j = if i =? j then Some x else get l j.
Proof.
  unfold get, zlen. intros Hi Hj. rewrite !(proj2 (Z.ltb_ge _ 0)) by lia.
  ifs; b2p.
  - subst. apply list_lookup_insert_eq. lia.
  - apply list_lookup_insert_ne. lia.
Qed.

Lemma zlen_0 {A} (l : list A) : zlen l = 0 -> l = [].
Proof. destruct l; [done|]. rewrite zlen_cons. zlia. Qed.

Lemma zlen_insert {A} (l : list A) i x : zlen (<[i:=x]> l) = zlen l.
Proof. unfold zlen. by rewrite length_insert. Qed.

Lemma get_zrep {A} n (x : A) i : 0 <= i < n -> get (zrep n x) i = Some x.
Proof.
  intros. unfold get, zrep. rewrite (proj2 (Z.ltb_ge _ 0)) by lia.
  apply lookup_replicate_2. lia.
Qed.

Lemma get_cons_S {A} (x : A) l i : 0 <= i -> get (x :: l) (1 + i) = get l i.
Proof.
  intros. unfold get. rewrite !(proj2 (Z.ltb_ge _ 0)) by lia.
  replace (Z.to_nat (1 + i)) with (S (Z.to_nat i)) by lia. done.
Qed.

Lemma bytes_get l i x : bytes l -> get l i = Some x -> byte x.
Proof.
  unfold get. destruct (i <? 0); [done|]. intros H Hx.
  by apply (Forall_lookup_1 _ _ _ _ H Hx).
Qed.

Lemma bytes_app l k : bytes (l ++ k) <-> bytes l /\ bytes k.
Proof. apply Forall_app. Qed.
Lemma bytes_take n l : bytes l -> bytes (ztake n l).
Proof. apply Forall_take. Qed.
Lemma bytes_drop n l : bytes l -> bytes (zdrop n l).
Proof. apply Forall_drop. Qed.
Lemma bytes_rep n b : byte b -> bytes (zrep n b).
Proof. apply Forall_replicate. Qed.
#[export] Hint Resolve bytes_take bytes_drop bytes_rep no_panic_ok no_panic_err : zl.

(** Split a [bytes] hypothesis on a concrete prefix. *)
Ltac bytes_inv :=
  repeat match goal with
  | H : bytes (_ :: _) |- _ => apply Forall_cons in H as [? H]; fold (bytes) in H
  | H : Forall byte (_ :: _) |- _ => apply Forall_cons in H as [? H]
  | H : bytes (_ ++ _) |- _ => apply bytes_app in H as [? H]
  end.

(** ** Bits *)

Lemma shiftr_div x k : 0 <= k -> Z.shiftr x k = x / 2 ^ k.
Proof. apply Z.shiftr_div_pow2. Qed.
Lemma shiftl_mul x k : 0 <= k -> Z.shiftl x k = x * 2 ^ k.
Proof. apply Z.shiftl_mul_pow2. Qed.
Lemma land_mask k x : 0 <= k -> Z.land x (2 ^ k - 1) = x mod 2 ^ k.
Proof. intros. rewrite <- Z.land_ones by done. by rewrite Z.ones_equiv. Qed.

Lemma land_1 x : Z.land x 1 = x mod 2.
Proof. exact (land_mask 1 x ltac:(lia)). Qed.
Lemma land_3 x : Z.land x 3 = x mod 4.
Proof. exact (land_mask 2 x ltac:(lia)). Qed.
Lemma land_7 x : Z.land x 7 = x mod 8.
Proof. exact (land_mask 3 x ltac:(lia)). Qed.
Lemma land_15 x : Z.land x 15 = x mod 16.
Proof. exact (land_mask 4 x ltac:(lia)). Qed.
Lemma land_31 x : Z.land x 31 = x mod 32.
Proof. exact (land_mask 5 x ltac:(lia)). Qed.
Lemma land_63 x : Z.land x 63 = x mod 64.
Proof. exact (land_mask 6 x ltac:(lia)). Qed.
Lemma land_127 x : Z.land x 127 = x mod 128.
Proof. exact (land_mask 7 x ltac:(lia)). Qed.
Lemma land_255 x : Z.land x 255 = x mod 256.
Proof. exact (land_mask 8 x ltac:(lia)). Qed.
Lemma land_32767 x : Z.land x 32767 = x mod 32768.
Proof. exact (land_mask 15 x ltac:(lia)). Qed.

Lemma lor_disjoint a b : Z.land a b = 0 -> Z.lor a b = a + b.
Proof. intros H. rewrite <- Z.lxor_lor by done. symmetry. by apply Z.add_nocarry_lxor. Qed.

Lemma land_disjoint k a b : 0 <= k -> 0 <= b < 2 ^ k -> Z.land (a * 2 ^ k) b = 0.
Proof.
  intros Hk Hb. apply Z.bits_inj'. intros n Hn.
  rewrite Z.land_spec, Z.bits_0.
  destruct (Z.lt_ge_cases n k).
  - rewrite <- Z.shiftl_mul_pow2 by done. by rewrite Z.shiftl_spec_low.
  - replace (Z.testbit b n) with false; [apply andb_false_r|].
    symmetry. rewrite <- (Z.mod_small b (2 ^ k)) by done.
    by apply Z.mod_pow2_bits_high.
Qed.

(** [lor] of a multiple of [2^k] and a value below [2^k] is a sum. *)
Lemma lor_add k a b : 0 <= k -> 0 <= b < 2 ^ k -> Z.lor (a * 2 ^ k) b = a * 2 ^ k + b.
Proof. intros. by apply lor_disjoint, land_disjoint. Qed.

Lemma lor_add' k a b : 0 <= k -> 0 <= b < 2 ^ k -> Z.lor b (a * 2 ^ k) = a * 2 ^ k + b.
Proof. intros. rewrite Z.lor_comm. by apply lor_add. Qed.

(** A decidable fact about one byte is checked on all 256 values. *)
Lemma below_all (n : nat) (P : Z -> bool) :
  forallb P (seqZ 0 (Z.of_nat n)) = true -> forall b, 0 <= b < Z.of_nat n -> P b = true.
Proof.
  intros H b Hb. rewrite forallb_forall in H. apply H.
  apply list_elem_of_In, elem_of_seqZ. lia.
Qed.

Lemma byte_all (P : Z -> bool) :
  forallb P (seqZ 0 256) = true -> forall b, byte b -> P b = true.
Proof. intros H b Hb. apply (below_all 256 P H b Hb). Qed.

Lemma as_u8_byte x : byte (as_u8 x).
Proof. unfold byte, as_u8. apply Z.mod_pos_bound. lia. Qed.

Lemma be16_bytes x : bytes (be16 x).
Proof. repeat constructor; apply Z.mod_pos_bound; lia. Qed.
Lemma be32_bytes x : bytes (be32 x).
Proof. repeat constructor; apply Z.mod_pos_bound; lia. Qed.
#[export] Hint Resolve as_u8_byte be16_bytes be32_bytes : zl.

Lemma from_be16_be16 x : 0 <= x < 65536 ->
  from_be16 (Z.shiftr x 8 mod 256) (x mod 256) = x.
Proof.
  intros. unfold from_be16. rewrite shiftr_div by lia. change (2 ^ 8) with 256.
  dlia.
Qed.

Lemma from_be32_be32 x : 0 <= x < 2 ^ 32 ->
  from_be32 (Z.shiftr x 24 mod 256) (Z.shiftr x 16 mod 256) (Z.shiftr x 8 mod 256) (x mod 256) = x.
Proof.
  intros. unfold from_be32. rewrite !shiftr_div by lia.
  change (2 ^ 8) with 256. change (2 ^ 16) with 65536. change (2 ^ 24) with 16777216.
  change (2 ^ 32) with 4294967296 in *. dlia.
Qed.

(** The same for decidable propositions, in one and two variables. *)
Lemma below_dec (n : Z) (P : Z -> Prop) `{forall b, Decision (P b)} :
  forallb (fun b => bool_decide (P b)) (seqZ 0 n) = true -> forall b, 0 <= b < n -> P b.
Proof.
  intros Hall b Hb. rewrite forallb_forall in Hall.
  apply (bool_decide_eq_true_1 _), Hall, list_elem_of_In, elem_of_seqZ. lia.
Qed.

Lemma below_dec2 (n m : Z) (P : Z -> Z -> Prop) `{forall a b, Decision (P a b)} :
  forallb (fun a => forallb (fun b => bool_decide (P a b)) (seqZ 0 m)) (seqZ 0 n) = true ->
  forall a b, 0 <= a < n -> 0 <= b < m -> P a b.
Proof.
  intros Hall a b Ha Hb. rewrite forallb_forall in Hall.
  apply (below_dec m (P a)); [|done]. apply Hall, list_elem_of_In, elem_of_seqZ. lia.
Qed.

(** * Outcomes

    [outcome ok er m]: [m] does not panic, its value satisfies [ok] and its
    error satisfies [er]. The rules below follow the shape of the code. *)
Definition outcome {E A} (ok : A -> Prop) (er : E -> Prop) (m : res E A) : Prop :=
  match m with Ok a => ok a | Err e => er e | Panic => False end.

Section outcome.
Context {E : Type} (er : E -> Prop).

Lemma outcome_bind {A B} (P : A -> Prop) (Q : B -> Prop) (m : res E A) (k : A -> res E B) :
  outcome P er m -> (forall a, P a -> outcome Q er (k a)) -> outcome Q er (rbind m k).
Proof. destruct m; simpl; auto. Qed.

Lemma outcome_mono {A} (P Q : A -> Prop) (m : res E A) :
  outcome P er m -> (forall a, P a -> Q a) -> outcome Q er m.
Proof. destruct m; simpl; auto. Qed.

Lemma outcome_idx {A} (l : list A) i (Q : A -> Prop) :
  0 <= i < zlen l -> (forall x, get l i = Some x -> Q x) -> outcome Q er (idx l i).
Proof. intros (x & Hx & ->)%(idx_ok (E:=E)) HQ. simpl. auto. Qed.

Lemma outcome_slice {A} (l : list A) i n (Q : list A -> Prop) :
  0 <= i -> i <= n -> n <= zlen l -> Q (ztake (n - i) (zdrop i l)) -> outcome Q er (slice l i n).
Proof. intros. by rewrite slice_ok. Qed.

Lemma outcome_no_panic {A} (P : A -> Prop) (m : res E A) : outcome P er m -> no_panic m.
Proof. destruct m; simpl; [done|done|tauto]. Qed.

Lemma outcome_ok {A} (P : A -> Prop) (m : res E A) a : outcome P er m -> m = Ok a -> P a.
Proof. by intros H ->. Qed.
End outcome.

Lemma outcome_err_mono {E A} (P : A -> Prop) (er er' : E -> Prop) (m : res E A) :
  outcome P er m -> (forall e, er e -> er' e) -> outcome P er' m.
Proof. destruct m; simpl; auto. Qed.

Lemma outcome_Ok {E A} (P : A -> Prop) (m : res E A) :
  outcome P (fun _ => False) m -> exists a, m = Ok a /\ P a.
Proof. destruct m; simpl; [eauto|tauto..]. Qed.

(** One step along a computation: a read in range (its value becomes a
    variable), a slice in range, a conditional, or a leaf. *)
Ltac wp_step :=
  cbv beta zeta;
  lazymatch goal with
  | |- outcome _ _ (rbind (idx ?l ?i) _) =>
      apply (outcome_bind _ (fun x => get l i = Some x));
      [apply outcome_idx; [try lia|done]
                           |cbv beta; let x := fresh "x" in let Hx := fresh "Hget" in intros x Hx]
  | |- outcome _ _ (rbind (slice _ _ _) _) =>
      rewrite slice_ok by lia; rb
  | |- outcome _ _ (rbind (Ok _) _) => rb
  | |- outcome _ _ (rbind (rbind _ _) _) => idtac
  | |- outcome _ _ (Ok _) => cbn [outcome]
  | |- outcome _ _ (Err _) => cbn [outcome]
  | |- outcome _ _ (if ?b then _ else _) =>
      let H := fresh "Hif" in destruct b eqn:H
  end.

Lemma zlen_window {A} (l : list A) i n : 0 <= i -> i <= n -> n <= zlen l ->
  zlen (ztake (n - i) (zdrop i l)) = n - i.
Proof. intros. rewrite zlen_ztake; [done|]. rewrite zlen_zdrop; lia. Qed.

Lemma be32_from_be32 a b c d : byte a -> byte b -> byte c -> byte d ->
  be32 (from_be32 a b c d) = [a; b; c; d].
Proof.
  unfold byte. intros. unfold be32, from_be32. rewrite !shiftr_div by lia.
  change (2 ^ 8) with 256. change (2 ^ 16) with 65536. change (2 ^ 24) with 16777216.
  repeat (f_equal; [dlia|]). f_equal. dlia.
Qed.

Lemma be16_from_be16 a b : byte a -> byte b -> be16 (from_be16 a b) = [a; b].
Proof.
  unfold byte. intros. unfold be16, from_be16. rewrite shiftr_div by lia. change (2 ^ 8) with 256.
  f_equal; [dlia|]. f_equal. dlia.
Qed.
