(* ===== verification/Crc32.v ===== *)
(** CRC-32/MPEG-2, from [crates/tst-core/src/mpegts/common/crc32.rs]: the
    256-entry table, the table-driven byte loop, the bit-serial shift register
    it implements, and what the PSI code relies on (zero residue over a section
    with its trailer, and detection of every change confined to four
    consecutive bytes). *)
From Stdlib Require Import ZArith Lia Bool.
From stdpp Require Import base list list_numbers.
From S2P Require Import Prelude.

Module Crc32.

(** ** Code *)

(** One turn of the inner [while j < 8] loop of [build_table]. *)
Definition table_bit (crc : Z) : Z :=
  if nz (Z.land crc 0x80000000)
  then Z.lxor (as_u32 (Z.shiftl crc 1)) 0x04C11DB7
  else as_u32 (Z.shiftl crc 1).

Definition table_entry (i : Z) : Z := Nat.iter 8 table_bit (as_u32 (Z.shiftl i 24)).

Definition build_table : list Z := map table_entry (seqZ 0 256).

Definition TABLE : list Z := Eval vm_compute in build_table.

(** The body of the [for &byte in data] loop. *)
Definition crc_step (crc byte : Z) : Z :=
  let idx := Z.land (Z.lxor (Z.shiftr crc 24) byte) 0xFF in
  Z.lxor (as_u32 (Z.shiftl crc 8)) (TABLE !!! Z.to_nat idx).

Definition crc32_mpeg2 (data : list Z) : Z := foldl crc_step 0xFFFFFFFF data.

(** ** Reference: the bit-serial register of H.222.0 Annex A *)

Definition crc_bit (crc : Z) (bit : bool) : Z :=
  Z.lxor (Z.land (Z.shiftl crc 1) (Z.ones 32))
         (if xorb (Z.testbit crc 31) bit then 0x04C11DB7 else 0).

Definition byte_bits (b : Z) : list bool :=
  map (Z.testbit b) [7; 6; 5; 4; 3; 2; 1; 0].

(** Eight register shifts, most significant bit first. *)
Definition F (c b : Z) : Z := foldl crc_bit c (byte_bits b).

Definition crc_serial (data : list Z) : Z := foldl F 0xFFFFFFFF data.

(** ** The register is linear *)

Definition reg (c : Z) : Prop := 0 <= c < 2 ^ 32.

Lemma lxor_if (b1 b2 : bool) (p : Z) :
  Z.lxor (if b1 then p else 0) (if b2 then p else 0) = if xorb b1 b2 then p else 0.
Proof.
  destruct b1, b2; simpl; rewrite ?Z.lxor_nilpotent, ?Z.lxor_0_r, ?Z.lxor_0_l; done.
Qed.

Lemma lxor_swap a b c d :
  Z.lxor (Z.lxor a b) (Z.lxor c d) = Z.lxor (Z.lxor a c) (Z.lxor b d).
Proof. by rewrite !Z.lxor_assoc, <- (Z.lxor_assoc b c d), (Z.lxor_comm b c), Z.lxor_assoc. Qed.

Lemma land_lxor_distr a b m : Z.land (Z.lxor a b) m = Z.lxor (Z.land a m) (Z.land b m).
Proof.
  apply Z.bits_inj'. intros n Hn. rewrite !Z.land_spec, !Z.lxor_spec, !Z.land_spec.
  destruct (Z.testbit a n), (Z.testbit b n), (Z.testbit m n); done.
Qed.

Lemma crc_bit_linear c1 c2 b1 b2 :
  crc_bit (Z.lxor c1 c2) (xorb b1 b2) = Z.lxor (crc_bit c1 b1) (crc_bit c2 b2).
Proof.
  unfold crc_bit. rewrite lxor_swap, lxor_if, Z.shiftl_lxor, land_lxor_distr, Z.lxor_spec.
  f_equal. destruct (Z.testbit c1 31), (Z.testbit c2 31), b1, b2; done.
Qed.

Lemma F_linear c1 c2 b1 b2 : F (Z.lxor c1 c2) (Z.lxor b1 b2) = Z.lxor (F c1 b1) (F c2 b2).
Proof. unfold F, byte_bits. cbn [map foldl]. by rewrite !Z.lxor_spec, !crc_bit_linear. Qed.

Lemma as_u32_land x : as_u32 x = Z.land x (Z.ones 32).
Proof. unfold as_u32. by rewrite Z.land_ones. Qed.

Lemma reg_lxor a b : reg a -> reg b -> reg (Z.lxor a b).
Proof.
  unfold reg. intros Ha Hb.
  assert (Z.lxor a b = as_u32 (Z.lxor a b)) as ->.
  { rewrite as_u32_land, land_lxor_distr, <- !as_u32_land. unfold as_u32.
    by rewrite !Z.mod_small. }
  unfold as_u32. by apply Z.mod_pos_bound.
Qed.

(** Below [2^31] a zero bit just shifts. *)
Lemma crc_bit_small c : 0 <= c < 2 ^ 31 -> crc_bit c false = 2 * c.
Proof.
  intros Hc. unfold crc_bit. rewrite xorb_false_r.
  replace (Z.testbit c 31) with false.
  2:{ symmetry. rewrite <- (Z.mod_small c (2 ^ 31)) by done. by apply Z.mod_pow2_bits_high. }
  rewrite Z.lxor_0_r, Z.land_ones, shiftl_mul by lia. rewrite Z.mod_small; lia.
Qed.

Lemma F_low c : 0 <= c < 2 ^ 24 -> F c 0 = c * 256.
Proof.
  intros Hc. unfold F. change (byte_bits 0) with (replicate 8 false). cbn [replicate foldl].
  do 8 match goal with
  | |- context [crc_bit ?x false] =>
      lazymatch x with
      | context [crc_bit] => fail
      | _ => rewrite (crc_bit_small x) by lia
      end
  end. lia.
Qed.

(** The table holds the register after eight zero bits, for each top byte. *)
Lemma TABLE_F i : byte i -> TABLE !!! Z.to_nat i = F (Z.shiftl i 24) 0.
Proof.
  intros Hi. apply Z.eqb_eq.
  apply (byte_all (fun i => TABLE !!! Z.to_nat i =? F (Z.shiftl i 24) 0)); [|done].
  by vm_compute.
Qed.

Lemma F_byte b : byte b -> F 0 b = F (Z.shiftl b 24) 0.
Proof.
  intros Hb. apply Z.eqb_eq.
  apply (byte_all (fun b => F 0 b =? F (Z.shiftl b 24) 0)); [|done].
  by vm_compute.
Qed.

Lemma TABLE_build : TABLE = build_table.
Proof. by vm_compute. Qed.

Lemma TABLE_reg i : byte i -> reg (TABLE !!! Z.to_nat i).
Proof.
  intros Hi.
  assert (H : (0 <=? TABLE !!! Z.to_nat i) && (TABLE !!! Z.to_nat i <? 2 ^ 32) = true).
  { apply (byte_all (fun i => (0 <=? TABLE !!! Z.to_nat i) && (TABLE !!! Z.to_nat i <? 2 ^ 32)));
      [by vm_compute|done]. }
  b2p. unfold reg. lia.
Qed.

Lemma byte_lxor a b : byte a -> byte b -> byte (Z.lxor a b).
Proof.
  unfold byte. intros Ha Hb.
  replace (Z.lxor a b) with (Z.lxor a b mod 2 ^ 8).
  - by apply Z.mod_pos_bound.
  - rewrite <- Z.land_ones by lia. rewrite land_lxor_distr, !Z.land_ones by lia.
    by rewrite !Z.mod_small.
Qed.

Lemma reg_top c : reg c -> byte (Z.shiftr c 24).
Proof.
  unfold reg, byte. intros. rewrite shiftr_div by lia.
  change (2 ^ 24) with 16777216. change (2 ^ 32) with 4294967296 in *. dlia.
Qed.

Lemma step_idx c b : reg c -> byte b ->
  Z.land (Z.lxor (Z.shiftr c 24) b) 0xFF = Z.lxor (Z.shiftr c 24) b.
Proof.
  intros Hc Hb. change 0xFF with (2 ^ 8 - 1). rewrite land_mask by lia.
  apply Z.mod_small. apply byte_lxor; [by apply reg_top|done].
Qed.

(** Register = top byte and low 24 bits. *)
Lemma reg_split c : reg c -> c = Z.lxor (Z.shiftl (Z.shiftr c 24) 24) (c mod 2 ^ 24).
Proof.
  unfold reg. intros Hc. rewrite shiftl_mul, shiftr_div by lia.
  rewrite <- Z.add_nocarry_lxor.
  - pose proof (Z.div_mod c (2 ^ 24)). lia.
  - apply Z.bits_inj'. intros n Hn. rewrite Z.land_spec, Z.bits_0.
    destruct (Z.lt_ge_cases n 24).
    + rewrite <- Z.shiftl_mul_pow2 by done. by rewrite Z.shiftl_spec_low.
    + rewrite Z.mod_pow2_bits_high by lia. apply andb_false_r.
Qed.

Lemma F_lin c1 c2 : F (Z.lxor c1 c2) 0 = Z.lxor (F c1 0) (F c2 0).
Proof. exact (F_linear c1 c2 0 0). Qed.

Lemma F_split c b : F c b = Z.lxor (F c 0) (F 0 b).
Proof. by rewrite <- F_linear, Z.lxor_0_r, Z.lxor_0_l. Qed.

Lemma shl8_low c : as_u32 (Z.shiftl c 8) = c mod 2 ^ 24 * 256.
Proof.
  unfold as_u32. rewrite shiftl_mul by lia.
  change (2 ^ 32) with (2 ^ 24 * 2 ^ 8). rewrite Z.mul_mod_distr_r; lia.
Qed.

(** One table step is eight serial steps. *)
Lemma crc_step_F c b : reg c -> byte b -> crc_step c b = F c b.
Proof.
  intros Hc Hb. unfold crc_step. rewrite step_idx by done.
  rewrite TABLE_F by (apply byte_lxor; [by apply reg_top|done]).
  rewrite Z.shiftl_lxor, F_lin, shl8_low, <- (F_byte b) by done.
  rewrite <- (F_low (c mod 2 ^ 24)) by (by apply Z.mod_pos_bound).
  rewrite <- Z.lxor_assoc, <- F_lin, (Z.lxor_comm (c mod 2 ^ 24)), <- reg_split by done.
  by rewrite <- F_split.
Qed.

Lemma crc_step_reg c b : reg c -> byte b -> reg (crc_step c b).
Proof.
  intros Hc Hb. unfold crc_step. rewrite step_idx by done. apply reg_lxor.
  - unfold reg, as_u32. by apply Z.mod_pos_bound.
  - apply TABLE_reg, byte_lxor; [by apply reg_top|done].
Qed.

Lemma foldl_reg data c : reg c -> bytes data -> reg (foldl crc_step c data).
Proof.
  intros Hc Hd. revert c Hc. induction Hd; simpl; [done|]. intros c Hc.
  apply IHHd. by apply crc_step_reg.
Qed.

Lemma crc_reg data : bytes data -> reg (crc32_mpeg2 data).
Proof. intros. apply foldl_reg; [unfold reg; lia|done]. Qed.

Lemma foldl_serial data c : reg c -> bytes data -> foldl crc_step c data = foldl F c data.
Proof.
  intros Hc Hd. revert c Hc. induction Hd as [|b data Hb Hd IH]; intros c Hc; [done|].
  cbn [foldl]. rewrite <- crc_step_F by done. by apply IH, crc_step_reg.
Qed.

(** ** Injectivity of the step *)

Lemma lxor_cancel_l a b c : Z.lxor a b = Z.lxor a c -> b = c.
Proof.
  intros H. rewrite <- (Z.lxor_0_l b), <- (Z.lxor_0_l c), <- (Z.lxor_nilpotent a).
  by rewrite !Z.lxor_assoc, H.
Qed.

Lemma lxor_cancel_r a b c : Z.lxor b a = Z.lxor c a -> b = c.
Proof. rewrite !(Z.lxor_comm _ a). apply lxor_cancel_l. Qed.

(** The low bytes of the table entries are a permutation: this list inverts it. *)
Definition low_inverse : list Z :=
  Eval vm_compute in
    map (fun y => match list_find (fun t => Z.land t 255 = y) TABLE with
                  | Some (i, _) => Z.of_nat i | None => 0 end) (seqZ 0 256).

Lemma TABLE_low_inverse i : byte i ->
  low_inverse !!! Z.to_nat (Z.land (TABLE !!! Z.to_nat i) 255) = i.
Proof.
  intros Hi. apply Z.eqb_eq.
  apply (byte_all (fun i => low_inverse !!! Z.to_nat (Z.land (TABLE !!! Z.to_nat i) 255) =? i));
    [by vm_compute|done].
Qed.

Lemma crc_step_low c b : reg c -> byte b ->
  Z.land (crc_step c b) 255 = Z.land (TABLE !!! Z.to_nat (Z.lxor (Z.shiftr c 24) b)) 255.
Proof.
  intros Hc Hb. unfold crc_step. rewrite step_idx by done.
  rewrite land_lxor_distr, shl8_low. change 255 with (2 ^ 8 - 1).
  rewrite (land_mask 8 (_ * _)) by lia. change (2 ^ 8) with 256 at 1.
  by rewrite Z.mod_mul, Z.lxor_0_l by lia.
Qed.

Lemma crc_step_idx c c' b b' : reg c -> reg c' -> byte b -> byte b' ->
  crc_step c b = crc_step c' b' -> Z.lxor (Z.shiftr c 24) b = Z.lxor (Z.shiftr c' 24) b'.
Proof.
  intros Hc Hc' Hb Hb' Heq.
  assert (byte (Z.lxor (Z.shiftr c 24) b)) as Hi by (apply byte_lxor; [by apply reg_top|done]).
  assert (byte (Z.lxor (Z.shiftr c' 24) b')) as Hi' by (apply byte_lxor; [by apply reg_top|done]).
  rewrite <- (TABLE_low_inverse _ Hi), <- (TABLE_low_inverse _ Hi').
  by rewrite <- !crc_step_low, Heq.
Qed.

Lemma crc_step_inj c c' b : reg c -> reg c' -> byte b ->
  crc_step c b = crc_step c' b -> c = c'.
Proof.
  intros Hc Hc' Hb Heq.
  pose proof (crc_step_idx c c' b b Hc Hc' Hb Hb Heq) as Hi.
  apply lxor_cancel_r in Hi.
  unfold crc_step in Heq. rewrite !step_idx, Hi, !shl8_low in Heq by done.
  apply lxor_cancel_r in Heq.
  rewrite (reg_split c), (reg_split c') by done. rewrite Hi. f_equal. lia.
Qed.

Lemma foldl_inj data c c' : reg c -> reg c' -> bytes data ->
  foldl crc_step c data = foldl crc_step c' data -> c = c'.
Proof.
  intros Hc Hc' Hd. revert c c' Hc Hc'.
  induction Hd as [|b data Hb Hd IH]; intros c c' Hc Hc' Heq; [done|].
  simpl in Heq. apply (crc_step_inj _ _ b); [done..|].
  apply IH; [by apply crc_step_reg..|done].
Qed.

(** Feeding a byte is xoring it into the top of the register first. *)
Lemma crc_step_top c b : reg c -> byte b -> crc_step c b = F (Z.lxor c (Z.shiftl b 24)) 0.
Proof. intros. by rewrite crc_step_F, F_split, F_byte, <- F_lin. Qed.

Lemma shl_as_F b k k' : byte b -> 0 <= k <= 16 -> k' = k + 8 ->
  Z.shiftl b k' = F (Z.shiftl b k) 0.
Proof.
  unfold byte. intros Hb Hk ->.
  rewrite F_low.
  - rewrite !shiftl_mul, Z.pow_add_r by lia. change (2 ^ 8) with 256. lia.
  - rewrite shiftl_mul by lia. pose proof (Z.pow_le_mono_r 2 k 16).
    assert (0 < 2 ^ k) by lia. change (2 ^ 16) with 65536 in *. change (2 ^ 24) with 16777216. nia.
Qed.

Definition word_of (w : list Z) : Z :=
  match w with
  | [b0; b1; b2; b3] =>
      Z.lxor (Z.lxor (Z.lxor (Z.shiftl b0 24) (Z.shiftl b1 16)) (Z.shiftl b2 8)) b3
  | _ => 0
  end.

Lemma shl_reg b k : byte b -> 0 <= k <= 24 -> reg (Z.shiftl b k).
Proof.
  unfold byte, reg. intros. rewrite shiftl_mul by lia.
  pose proof (Z.pow_le_mono_r 2 k 24). assert (0 < 2 ^ k) by lia.
  change (2 ^ 24) with 16777216 in *. change (2 ^ 32) with 4294967296. nia.
Qed.

Lemma word_of_bytes b0 b1 b2 b3 : bytes [b0; b1; b2; b3] ->
  word_of [b0; b1; b2; b3] = from_be32 b0 b1 b2 b3.
Proof.
  intros H. bytes_inv. unfold byte in *. unfold word_of, from_be32.
  rewrite !shiftl_mul by lia.
  rewrite <- (Z.add_nocarry_lxor (b0 * _)); [|apply (land_disjoint 24); lia].
  replace (b0 * 2 ^ 24 + b1 * 2 ^ 16) with ((b0 * 256 + b1) * 2 ^ 16) by lia.
  rewrite <- (Z.add_nocarry_lxor (_ * 2 ^ 16)); [|apply (land_disjoint 16); lia].
  replace ((b0 * 256 + b1) * 2 ^ 16 + b2 * 2 ^ 8) with (((b0 * 256 + b1) * 256 + b2) * 2 ^ 8) by lia.
  rewrite <- Z.add_nocarry_lxor; [lia|apply (land_disjoint 8); lia].
Qed.

Lemma word_of_reg w : bytes w -> length w = 4%nat -> reg (word_of w).
Proof.
  intros Hw Hl. destruct w as [|b0 [|b1 [|b2 [|b3 [|]]]]]; try done.
  rewrite word_of_bytes by done. bytes_inv. unfold byte, reg, from_be32 in *. lia.
Qed.

Lemma word_of_inj w w' : bytes w -> bytes w' -> length w = 4%nat -> length w' = 4%nat ->
  word_of w = word_of w' -> w = w'.
Proof.
  intros Hw Hw' Hl Hl'. destruct w as [|b0 [|b1 [|b2 [|b3 [|]]]]]; try done.
  destruct w' as [|c0 [|c1 [|c2 [|c3 [|]]]]]; try done.
  rewrite !word_of_bytes by done. bytes_inv. unfold byte, from_be32 in *.
  intros. repeat f_equal; lia.
Qed.

(** Four bytes are one word xored into the register, then 32 zero bits. *)
Lemma foldl_word c w : reg c -> bytes w -> length w = 4%nat ->
  foldl crc_step c w = F (F (F (F (Z.lxor c (word_of w)) 0) 0) 0) 0.
Proof.
  intros Hc Hw Hl. destruct w as [|b0 [|b1 [|b2 [|b3 [|]]]]]; try done.
  bytes_inv.
  cbn [foldl word_of].
  rewrite (crc_step_top _ b3), (crc_step_top _ b2), (crc_step_top _ b1), (crc_step_top c b0)
    by eauto using crc_step_reg.
  rewrite (shl_as_F b1 16 24), (shl_as_F b2 16 24), (shl_as_F b3 16 24) by lia || done.
  rewrite <- F_lin, <- F_lin.
  rewrite (shl_as_F b2 8 16), (shl_as_F b3 8 16) by lia || done.
  rewrite <- F_lin, (shl_as_F b3 0 8), Z.shiftl_0_r, <- !F_lin by lia || done.
  by rewrite !Z.lxor_assoc.
Qed.

Lemma foldl_word_inj c w w' : reg c -> bytes w -> bytes w' ->
  length w = 4%nat -> length w' = 4%nat ->
  foldl crc_step c w = foldl crc_step c w' -> w = w'.
Proof.
  intros Hc Hw Hw' Hl Hl' Heq.
  assert (Hz : foldl crc_step (Z.lxor c (word_of w)) [0; 0; 0; 0] =
               foldl crc_step (Z.lxor c (word_of w')) [0; 0; 0; 0]).
  { assert (Hz4 : bytes [0; 0; 0; 0]) by (repeat constructor; lia).
    rewrite !foldl_word in * by (done || by apply reg_lxor, word_of_reg).
    change (word_of [0; 0; 0; 0]) with 0. by rewrite !Z.lxor_0_r. }
  apply foldl_inj in Hz; [|by apply reg_lxor, word_of_reg..|repeat constructor; lia].
  apply lxor_cancel_l in Hz. by apply word_of_inj.
Qed.

(** Feeding the register its own top byte shifts it out. *)
Lemma crc_step_self c : reg c -> crc_step c (Z.shiftr c 24) = as_u32 (Z.shiftl c 8).
Proof.
  intros Hc. unfold crc_step. rewrite step_idx by (done || by apply reg_top).
  by rewrite Z.lxor_nilpotent, Z.lxor_0_r.
Qed.

Lemma foldl_self c : reg c -> foldl crc_step c (be32 c) = 0.
Proof.
  intros Hc. unfold be32. cbn [foldl].
  assert (Hs : forall x d, reg x -> d = Z.shiftr x 24 -> crc_step x d = as_u32 (Z.shiftl x 8))
    by (intros x d ? ->; by apply crc_step_self).
  assert (Hr : forall x, reg (as_u32 (Z.shiftl x 8)))
    by (intros; unfold reg, as_u32; by apply Z.mod_pos_bound).
  pose proof Hc as Hc'. unfold reg in Hc'.
  rewrite (Hs c), (Hs (as_u32 (Z.shiftl c 8))), (Hs (as_u32 (Z.shiftl (as_u32 (Z.shiftl c 8)) 8))),
    (Hs (as_u32 (Z.shiftl (as_u32 (Z.shiftl (as_u32 (Z.shiftl c 8)) 8)) 8))) by
    (done || apply Hr ||
     (rewrite ?shl8_low, ?shiftr_div by lia; change (2 ^ 24) with 16777216;
      change (2 ^ 16) with 65536; change (2 ^ 8) with 256; change (2 ^ 32) with 4294967296 in *; dlia)).
  rewrite !shl8_low. change (2 ^ 24) with 16777216. dlia.
Qed.

(** For every byte string the table-driven [crc32_mpeg2] computes the
    bit-serial CRC-32/MPEG-2 register (polynomial 0x04C11DB7, preset to all
    ones, most significant bit first, no final xor), so the 256-entry table is
    the right one and the byte loop uses it correctly. *)
Theorem crc32_table_is_serial (data : list Z) :
  bytes data -> crc32_mpeg2 data = crc_serial data.
Proof. intros. apply foldl_serial; [unfold reg; lia|done]. Qed.

Lemma crc32_table_is_serial_witness :
  bytes [0x31; 0x32; 0x33; 0x34; 0x35; 0x36; 0x37; 0x38; 0x39] /\
  0x0376E6E7 = crc_serial [0x31; 0x32; 0x33; 0x34; 0x35; 0x36; 0x37; 0x38; 0x39].
Proof.
  assert (H : bytes [0x31; 0x32; 0x33; 0x34; 0x35; 0x36; 0x37; 0x38; 0x39])
    by (repeat constructor; lia).
  split; [exact H|]. rewrite <- (crc32_table_is_serial _ H). vm_compute. reflexivity.
Defined.

Lemma crc_residue data : bytes data -> crc32_mpeg2 (data ++ be32 (crc32_mpeg2 data)) = 0.
Proof.
  intros Hd. unfold crc32_mpeg2 at 1. rewrite foldl_app. fold (crc32_mpeg2 data).
  by apply foldl_self, crc_reg.
Qed.

(** The CRC of a byte string followed by its own big-endian CRC trailer is
    zero, the residue rule a PSI receiver may check instead of comparing. *)
Theorem crc32_zero_residue (data : list Z) :
  bytes data -> crc32_mpeg2 (data ++ be32 (crc32_mpeg2 data)) = 0.
Proof. apply crc_residue. Qed.

Lemma crc32_zero_residue_witness :
  bytes [0x00; 0xB0; 0x0D; 0x00; 0x01] /\
  crc32_mpeg2 ([0x00; 0xB0; 0x0D; 0x00; 0x01] ++ be32 (crc32_mpeg2 [0x00; 0xB0; 0x0D; 0x00; 0x01])) = 0.
Proof.
  assert (H : bytes [0x00; 0xB0; 0x0D; 0x00; 0x01]) by (repeat constructor; lia).
  split; [exact H|]. exact (crc32_zero_residue _ H).
Defined.

Lemma crc_burst p w w' s : bytes p -> bytes w -> bytes w' -> bytes s ->
  length w = length w' -> (length w <= 4)%nat -> w <> w' ->
  crc32_mpeg2 (p ++ w ++ s) <> crc32_mpeg2 (p ++ w' ++ s).
Proof.
  intros Hp Hw Hw' Hs Hl Hle Hne Heq. apply Hne.
  unfold crc32_mpeg2 in Heq. rewrite !foldl_app in Heq.
  assert (reg (foldl crc_step 0xFFFFFFFF p)) as Hr by (apply foldl_reg; [unfold reg; lia|done]).
  apply foldl_inj in Heq; [|by apply foldl_reg..|done].
  pose (z := replicate (4 - length w) 0).
  assert (Hz : bytes z) by (apply Forall_replicate; unfold byte; lia).
  assert (w ++ z = w' ++ z) as Hc.
  { apply (foldl_word_inj (foldl crc_step 0xFFFFFFFF p)); [done|by apply bytes_app..| | |].
    - unfold z. rewrite length_app, length_replicate. lia.
    - unfold z. rewrite length_app, length_replicate. lia.
    - by rewrite !foldl_app, Heq. }
  by apply app_inj_1 in Hc as [? _].
Qed.

(** C38: two byte strings that differ only inside a window of at most four
    consecutive bytes (any error burst of up to 32 aligned bits) never have the
    same CRC-32/MPEG-2. *)
Theorem crc32_detects_burst (p w w' s : list Z) :
  bytes p -> bytes w -> bytes w' -> bytes s ->
  length w = length w' -> (length w <= 4)%nat -> w <> w' ->
  crc32_mpeg2 (p ++ w ++ s) <> crc32_mpeg2 (p ++ w' ++ s).
Proof. apply crc_burst. Qed.

Lemma crc32_detects_burst_witness :
  crc32_mpeg2 ([0x00; 0xB0] ++ [0x0D; 0x00] ++ [0x01]) <>
  crc32_mpeg2 ([0x00; 0xB0] ++ [0xFF; 0x01] ++ [0x01]).
Proof.
  apply (crc32_detects_burst [0x00; 0xB0] [0x0D; 0x00] [0xFF; 0x01] [0x01]);
    try (repeat constructor; lia); try discriminate; try reflexivity.
Defined.

End Crc32.
