(* ===== verification/Common.v ===== *)
(** Types and helpers shared by the muxer and the demuxer, from
    [crates/tst-core/src/mpegts/common/mod.rs]: the stream-type registry, PID
    classes, the 90 kHz and 27 MHz clocks and the wrap-aware differences on
    them. *)
From Stdlib Require Import ZArith Lia Bool.
From stdpp Require Import base list list_numbers.
From S2P Require Import Prelude.

Module Common.

(** ** Stream types *)

Inductive Av1CarriageMode : Type := Mpeg2TsBinding | InteropRawObu.

Inductive StreamType : Type :=
| H264 | H265 | H266 | KlvPrivate | KlvSyncMetadata
| AudioMp2 | AudioAac | AudioAacLatm | AudioAc3.

#[global] Instance Av1CarriageMode_eq_dec : EqDecision Av1CarriageMode.
Proof. solve_decision. Defined.
#[global] Instance StreamType_eq_dec : EqDecision StreamType.
Proof. solve_decision. Defined.

Definition StreamType_as_u8 (t : StreamType) : Z :=
  match t with
  | H264 => 0x1B | H265 => 0x24 | H266 => 0x33
  | KlvPrivate => 0x06 | KlvSyncMetadata => 0x15
  | AudioMp2 => 0x03 | AudioAac => 0x0F | AudioAacLatm => 0x11 | AudioAc3 => 0x81
  end.

Inductive StreamTypeCode : Type :=
| Known (t : StreamType)
| Unknown (b : Z).

#[global] Instance StreamTypeCode_eq_dec : EqDecision StreamTypeCode.
Proof. solve_decision. Defined.

Definition from_byte (byte : Z) : StreamTypeCode :=
  if byte =? 0x1B then Known H264
  else if byte =? 0x24 then Known H265
  else if byte =? 0x33 then Known H266
  else if byte =? 0x06 then Known KlvPrivate
  else if byte =? 0x15 then Known KlvSyncMetadata
  else if byte =? 0x03 then Known AudioMp2
  else if byte =? 0x0F then Known AudioAac
  else if byte =? 0x11 then Known AudioAacLatm
  else if byte =? 0x81 then Known AudioAc3
  else Unknown byte.

Definition as_byte (c : StreamTypeCode) : Z :=
  match c with
  | Known st => StreamType_as_u8 st
  | Unknown b => b
  end.

Definition known (c : StreamTypeCode) : option StreamType :=
  match c with
  | Known st => Some st
  | Unknown _ => None
  end.

(** [pid::PAT], [pid::NULL] and [pid::is_user_pid]. *)
Definition PID_PAT : Z := 0x0000.
Definition PID_NULL : Z := 0x1FFF.
Definition is_user_pid (pid : Z) : bool := (0x0010 <=? pid) && (pid <=? 0x1FFE).

Definition TS_PACKET_SIZE : Z := 188.
Definition TS_SYNC_BYTE : Z := 0x47.

(** ** Clocks

    [Pts90khz] wraps an [i64] and [Pcr27mhz] a [u64]; both are modelled by the
    number they wrap. *)

Definition masked_33bit (pts : Z) : Z := Z.land (as_u64 pts) (Z.shiftl 1 33 - 1).

Definition Pts_from_millis {E} (ms : Z) : res E Z := chk_i64 (ms * 90).

Definition Pcr_from_millis {E} (ms : Z) : res E Z := chk_u64 (ms * 27000).

Definition from_pts {E} (pts : Z) : res E Z := chk_u64 (masked_33bit pts * 300).

Definition base (pcr : Z) : Z := Z.land (pcr / 300) (Z.shiftl 1 33 - 1).

Definition extension (pcr : Z) : Z := as_u16 (pcr mod 300).

Definition pts_diff_33bit {E} (now last : Z) : res E Z :=
  let RANGE := Z.shiftl 1 33 in
  let HALF := Z.shiftl 1 32 in
  assert! now <? RANGE in
  assert! last <? RANGE in
  let! sum := chk_u64 (now + RANGE) in
  let! d := chk_u64 (sum - last) in
  let raw := d mod RANGE in
  if HALF <? raw then Ok (raw - RANGE) else Ok raw.

Definition pcr_diff_27mhz (now last : Z) : Z :=
  let WRAP := Z.shiftl 1 33 * 300 in
  let HALF := WRAP / 2 in
  let diff := now - last in
  let adjusted :=
    if HALF <? diff then diff - WRAP
    else if diff <? - HALF then diff + WRAP
    else diff in
  as_i64 adjusted.

(** ** Facts *)

Definition PTS_RANGE : Z := 2 ^ 33.
Definition PCR_WRAP : Z := 2 ^ 33 * 300.

Definition pts33 (x : Z) : Prop := 0 <= x < 2 ^ 33.

Lemma masked_33bit_mod pts : masked_33bit pts = pts mod 2 ^ 33.
Proof.
  unfold masked_33bit, as_u64. rewrite (land_mask 33) by lia.
  apply Z.mod_mod_divide. exists (2 ^ 31). lia.
Qed.

Lemma masked_33bit_range pts : pts33 (masked_33bit pts).
Proof. rewrite masked_33bit_mod. by apply Z.mod_pos_bound. Qed.

Lemma masked_33bit_id pts : pts33 pts -> masked_33bit pts = pts.
Proof. intros. rewrite masked_33bit_mod. by apply Z.mod_small. Qed.

Lemma base_mod pcr : base pcr = (pcr / 300) mod 2 ^ 33.
Proof. unfold base. by rewrite (land_mask 33). Qed.

Lemma extension_mod pcr : extension pcr = pcr mod 300.
Proof.
  unfold extension, as_u16. apply Z.mod_small.
  pose proof (Z.mod_pos_bound pcr 300). lia.
Qed.

(** The difference as a plain integer, where the assertions hold. *)
Lemma pts_diff_ok {E} now last : pts33 now -> pts33 last ->
  exists d, pts_diff_33bit (E:=E) now last = Ok d /\
            - 2 ^ 32 < d <= 2 ^ 32 /\ (last + d) mod 2 ^ 33 = now.
Proof.
  unfold pts33. intros Hn Hl. unfold pts_diff_33bit, chk_u64, checked.
  change (Z.shiftl 1 33) with (2 ^ 33). change (Z.shiftl 1 32) with (2 ^ 32).
  rewrite !(proj2 (Z.ltb_lt _ _)) by lia. rewrite !(proj2 (Z.leb_le _ _)) by lia. simpl rbind.
  rewrite !(proj2 (Z.ltb_lt _ _)) by lia. rewrite !(proj2 (Z.leb_le _ _)) by lia. simpl rbind.
  change (2 ^ 33) with 8589934592 in *. change (2 ^ 32) with 4294967296 in *.
  ifs; b2p; eexists; (split; [reflexivity|]); dlia.
Qed.

Lemma pts_diff_unique d d' last now :
  - 2 ^ 32 < d <= 2 ^ 32 -> - 2 ^ 32 < d' <= 2 ^ 32 ->
  (last + d) mod 2 ^ 33 = now -> (last + d') mod 2 ^ 33 = now -> d = d'.
Proof.
  change (2 ^ 33) with 8589934592 in *. change (2 ^ 32) with 4294967296 in *.
  intros. dlia.
Qed.

(** Decoding a PMT [stream_type] byte and writing it back gives the same
    byte, for every byte, and a code is reported as known exactly when it is
    one of the nine registered types. *)
Theorem stream_type_roundtrip (b : Z) (t : StreamType) :
  as_byte (from_byte b) = b /\ from_byte (StreamType_as_u8 t) = Known t /\
  (known (from_byte b) = Some t <-> b = StreamType_as_u8 t).
Proof.
  split; [|split].
  - unfold from_byte. repeat (ifs; [b2p; by subst|]). done.
  - by destruct t.
  - split.
    + unfold from_byte. repeat (ifs; [b2p; subst; intros [= <-]; done|]). done.
    + intros ->. by destruct t.
Qed.

(** On masked 33-bit timestamps the wrap-aware difference never trips an
    assertion or overflows; it is the unique delta in (-2^32, 2^32] that leads
    from [last] to [now] modulo 2^33. *)
Theorem pts_diff_33bit_spec (now last : Z) (d : Z) :
  pts33 now -> pts33 last ->
  (pts_diff_33bit (E:=Empty_set) now last = Ok d <->
   - 2 ^ 32 < d <= 2 ^ 32 /\ (last + d) mod 2 ^ 33 = now).
Proof.
  intros Hn Hl. destruct (pts_diff_ok (E:=Empty_set) now last Hn Hl) as (d0 & -> & Hr & Hm).
  split.
  - intros [= <-]. done.
  - intros [Hr' Hm']. f_equal. by apply (pts_diff_unique d0 d last now).
Qed.

Lemma pts_diff_33bit_spec_witness :
  pts_diff_33bit (E:=Empty_set) 5 (2 ^ 33 - 10) = Ok 15 /\
  (2 ^ 33 - 10 + 15) mod 2 ^ 33 = 5.
Proof.
  assert (H : pts_diff_33bit (E:=Empty_set) 5 (2 ^ 33 - 10) = Ok 15) by (vm_compute; reflexivity).
  split; [exact H|].
  apply (pts_diff_33bit_spec 5 (2 ^ 33 - 10) 15); [unfold pts33; lia|unfold pts33; lia|exact H].
Defined.

(** On 27 MHz clock values below the wrap the PCR difference has magnitude
    at most half the wrap and leads from [last] to [now] modulo 2^33 * 300. *)
Theorem pcr_diff_27mhz_spec (now last : Z) :
  0 <= now < PCR_WRAP -> 0 <= last < PCR_WRAP ->
  Z.abs (pcr_diff_27mhz now last) <= PCR_WRAP / 2 /\
  (last + pcr_diff_27mhz now last) mod PCR_WRAP = now.
Proof.
  unfold PCR_WRAP, pcr_diff_27mhz, as_i64. change (Z.shiftl 1 33) with (2 ^ 33).
  change (2 ^ 33 * 300) with 2576980377600. change (2576980377600 / 2) with 1288490188800.
  change (2 ^ 64) with 18446744073709551616. change (2 ^ 63) with 9223372036854775808.
  intros. repeat ifs; b2p; dlia.
Qed.

Lemma pcr_diff_27mhz_spec_witness :
  Z.abs (pcr_diff_27mhz 100 (PCR_WRAP - 100)) <= PCR_WRAP / 2 /\
  (PCR_WRAP - 100 + pcr_diff_27mhz 100 (PCR_WRAP - 100)) mod PCR_WRAP = 100.
Proof. apply (pcr_diff_27mhz_spec 100 (PCR_WRAP - 100)); unfold PCR_WRAP; lia. Defined.

(** The 33-bit base and the 27 MHz extension written on the wire recompose
    to the clock value modulo the wrap, the extension is below 300, and a PCR
    derived from a PTS has that PTS as its base and a zero extension. *)
Theorem pcr_split (pcr pts : Z) :
  base pcr * 300 + extension pcr = pcr mod PCR_WRAP /\
  0 <= extension pcr < 300 /\ pts33 (base pcr) /\
  exists p, from_pts (E:=Empty_set) pts = Ok p /\ base p = masked_33bit pts /\ extension p = 0.
Proof.
  rewrite base_mod, extension_mod. unfold PCR_WRAP, pts33.
  pose proof (masked_33bit_range pts) as Hm. unfold pts33 in Hm.
  change (2 ^ 33) with 8589934592 in *. split; [|split; [|split]].
  - dlia.
  - by apply Z.mod_pos_bound.
  - by apply Z.mod_pos_bound.
  - exists (masked_33bit pts * 300). unfold from_pts, chk_u64, checked.
    rewrite (proj2 (Z.ltb_lt _ _)), (proj2 (Z.leb_le _ _)) by lia.
    split; [done|]. rewrite base_mod, extension_mod. change (2 ^ 33) with 8589934592. dlia.
Qed.

End Common.

(** Opaque stream handles, from [mpegts/common/handle_pack.rs]. *)
Module HandlePack.

Definition pack {E} (program_index within_index : Z) : res E Z :=
  assert! program_index <? Z.shiftl 1 4 in
  assert! within_index <? Z.shiftl 1 4 in
  Ok (Z.lor (as_u32 (Z.shiftl (as_u32 program_index) 4)) (Z.land (as_u32 within_index) 0x0F)).

Definition unpack (packed : Z) : Z * Z :=
  (Z.land (Z.shiftr packed 4) 0x0F, Z.land packed 0x0F).

Definition try_unpack (packed : Z) : option (Z * Z) :=
  let CANONICAL_MASK := Z.lor (Z.shiftl 0x0F 4) 0x0F in
  if nz (Z.land packed (Z.lxor CANONICAL_MASK u32_max)) then None
  else Some (Z.land (Z.shiftr packed 4) 0x0F, Z.land packed 0x0F).

Lemma pack_val {E} p w : 0 <= p < 16 -> 0 <= w < 16 -> pack (E:=E) p w = Ok (p * 16 + w).
Proof.
  intros. unfold pack. change (Z.shiftl 1 4) with 16.
  rewrite !(proj2 (Z.ltb_lt _ _)) by lia. f_equal.
  unfold as_u32. rewrite (Z.mod_small p), (Z.mod_small w) by lia.
  change 0x0F with (2 ^ 4 - 1). rewrite land_mask by lia. rewrite (Z.mod_small w) by lia.
  rewrite shiftl_mul by lia. rewrite Z.mod_small by lia. rewrite (lor_add 4); lia.
Qed.

Lemma unpack_val x : 0 <= x -> Z.land (Z.shiftr x 4) 0x0F = x / 16 mod 16 /\ Z.land x 0x0F = x mod 16.
Proof.
  intros. change 0x0F with (2 ^ 4 - 1). rewrite !land_mask by lia.
  by rewrite shiftr_div by lia.
Qed.

(** The reserved bits are clear exactly when the value is below 256. *)
Lemma reserved_clear x : 0 <= x < 2 ^ 32 ->
  Z.land x (Z.lxor (Z.lor (Z.shiftl 0x0F 4) 0x0F) u32_max) = x / 256 * 256.
Proof.
  intros Hx. change (Z.lxor _ _) with (Z.shiftl (Z.ones 24) 8).
  rewrite <- (Z.shiftl_mul_pow2 _ 8) by lia. rewrite <- (Z.shiftr_div_pow2 _ 8) by lia.
  apply Z.bits_inj'. intros n Hn. rewrite Z.land_spec.
  destruct (Z.lt_ge_cases n 8) as [Hlt|Hge].
  - rewrite !(Z.shiftl_spec_low _ 8 n) by done. apply andb_false_r.
  - rewrite !Z.shiftl_spec by done. rewrite Z.shiftr_spec by lia.
    replace (n - 8 + 8) with n by lia.
    destruct (Z.lt_ge_cases n 32).
    + rewrite Z.ones_spec_low by lia. apply andb_true_r.
    + rewrite <- (Z.mod_small x (2 ^ 32)) by done.
      by rewrite Z.mod_pow2_bits_high by lia.
Qed.

(** At the trust boundary a raw handle is accepted exactly when it is what
    [pack] makes of two in-range indices, and it then unpacks to those indices;
    any value with a reserved bit set is refused, so a forged handle never
    aliases a valid stream. *)
Theorem try_unpack_exact (x p w : Z) :
  0 <= x < 2 ^ 32 ->
  (try_unpack x = Some (p, w) <->
   0 <= p < 16 /\ 0 <= w < 16 /\ pack (E:=Empty_set) p w = Ok x).
Proof.
  intros Hx. unfold try_unpack. cbv zeta. rewrite reserved_clear by done.
  destruct (unpack_val x ltac:(lia)) as [-> ->]. unfold nz. ifs; b2p; split.
  - done.
  - intros (Hp & Hw & Hk). rewrite pack_val in Hk by done. injection Hk as <-. dlia.
  - intros [= <- <-]. split; [|split]; [dlia..|]. rewrite pack_val by dlia. f_equal. dlia.
  - intros (Hp & Hw & Hk). rewrite pack_val in Hk by done. injection Hk as <-.
    repeat f_equal; dlia.
Qed.

Lemma try_unpack_exact_witness :
  0 <= 0x3A < 2 ^ 32 /\ try_unpack 0x3A = Some (3, 10).
Proof.
  split; [lia|]. apply (try_unpack_exact 0x3A 3 10 ltac:(lia)).
  split; [lia|split; [lia|vm_compute; reflexivity]].
Defined.

End HandlePack.
