(* ===== verification/TsPacket.v ===== *)
(** The 188-byte transport packet: the writer
    [crates/tst-core/src/mpegts/mux/ts.rs] (continuity counters, adaptation
    field, stuffing, PCR) and the parser
    [crates/tst-core/src/mpegts/demux/ts.rs], with the layout both agree on. *)
From Stdlib Require Import ZArith Lia Bool.
From stdpp Require Import base list list_numbers.
From S2P Require Import Prelude Common.

(** * Writer *)
Module TsWriter.
Import Common.

Record ContinuityCounters : Type := { counters : list Z }.

Definition new : ContinuityCounters := {| counters := zrep 8192 0 |}.

Definition next {E} (c : ContinuityCounters) (pid : Z) : res E (Z * ContinuityCounters) :=
  let i := Z.land pid 0x1FFF in
  let! cur := idx (counters c) i in
  let cc := Z.land cur 0x0F in
  let! inc := chk_u8 (cc + 1) in
  let! upd := put (counters c) i [Z.land inc 0x0F] in
  Ok (cc, {| counters := upd |}).

Definition reset {E} (c : ContinuityCounters) (pid : Z) : res E ContinuityCounters :=
  let! upd := put (counters c) (Z.land pid 0x1FFF) [0] in
  Ok {| counters := upd |}.

Record AdaptationField : Type := { random_access : bool; pcr : option Z }.

Definition AdaptationField_default : AdaptationField :=
  {| random_access := false; pcr := None |}.

Definition pcr_is_some (a : AdaptationField) : bool :=
  match pcr a with Some _ => true | None => false end.

Definition is_empty (a : AdaptationField) : bool :=
  negb (random_access a) && negb (pcr_is_some a).

Definition min_size (a : AdaptationField) : Z :=
  if is_empty a then 0 else 2 + (if pcr_is_some a then 6 else 0).

Record WriteResult : Type := { payload_consumed : Z }.

(** [write_pcr] stores into the six-byte window [out]. *)
Definition write_pcr {E} (out : list Z) (p : Z) : res E (list Z) :=
  assert! zlen out =? 6 in
  let b := base p in
  let ext := extension p in
  let! out := put out 0 [as_u8 (Z.shiftr b 25)] in
  let! out := put out 1 [as_u8 (Z.shiftr b 17)] in
  let! out := put out 2 [as_u8 (Z.shiftr b 9)] in
  let! out := put out 3 [as_u8 (Z.shiftr b 1)] in
  let! out := put out 4 [Z.lor (Z.lor (as_u8 (Z.shiftl (Z.land b 0x1) 7)) 0x7E)
                               (as_u8 (Z.land (Z.shiftr ext 8) 0x01))] in
  put out 5 [as_u8 (Z.land ext 0xFF)].

(** The [if afc == 0b11] block: length byte, flags, PCR, stuffing. *)
Definition write_af {E} (out : list Z) (cursor : Z) (adaptation : AdaptationField)
    (af_min af_overhead stuffing : Z) : res E (list Z * Z) :=
  let! structural := usub af_overhead 1 in
  let af_body_after_length := structural + stuffing in
  let! out := put out cursor [as_u8 af_body_after_length] in
  let cursor := cursor + 1 in
  let! (out, cursor) :=
    if 0 <? af_min then
      let flags := Z.lor (Z.shiftl (b2z (random_access adaptation)) 6)
                         (Z.shiftl (b2z (pcr_is_some adaptation)) 4) in
      let! out := put out cursor [flags] in
      let cursor := cursor + 1 in
      match pcr adaptation with
      | Some p =>
          let! window := slice out cursor (cursor + 6) in
          let! window := write_pcr window p in
          let! out := put out cursor window in
          Ok (out, cursor + 6)
      | None => Ok (out, cursor)
      end
    else if af_overhead =? 2 then
      let! out := put out cursor [0x00] in
      Ok (out, cursor + 1)
    else Ok (out, cursor) in
  let! out := put out cursor (zrep stuffing 0xFF) in
  Ok (out, cursor + stuffing).

Definition write_packet {E} (out : list Z) (pid : Z) (payload_unit_start : bool)
    (adaptation : AdaptationField) (payload : list Z) (c : ContinuityCounters)
    : res E (list Z * ContinuityCounters * WriteResult) :=
  assert! pid <=? 0x1FFF in
  let! out := put out 0 [TS_SYNC_BYTE] in
  let! out := put out 1 [Z.lor (Z.shiftl (b2z payload_unit_start) 6)
                               (Z.land (as_u8 (Z.shiftr pid 8)) 0x1F)] in
  let! out := put out 2 [as_u8 (Z.land pid 0xFF)] in
  let af_min := min_size adaptation in
  let no_af_payload_capacity := TS_PACKET_SIZE - 4 in
  let needs_padding_only_af := (af_min =? 0) && (zlen payload <? no_af_payload_capacity) in
  let af_overhead :=
    if 0 <? af_min then af_min
    else if needs_padding_only_af then
      if zlen payload =? no_af_payload_capacity - 1 then 1 else 2
    else 0 in
  let! payload_capacity := usub (TS_PACKET_SIZE - 4) af_overhead in
  let to_copy := Z.min payload_capacity (zlen payload) in
  let! stuffing := usub payload_capacity to_copy in
  let! (cc, c) := next c pid in
  let afc := if 0 <? af_overhead then 3 else 1 in
  let! out := put out 3 [Z.lor (Z.shiftl afc 4) (Z.land cc 0x0F)] in
  let cursor := 4 in
  let! (out, cursor) :=
    if afc =? 3 then write_af out cursor adaptation af_min af_overhead stuffing
    else Ok (out, cursor) in
  let! chunk := slice payload 0 to_copy in
  let! out := put out cursor chunk in
  let cursor := cursor + to_copy in
  assert! cursor =? TS_PACKET_SIZE in
  Ok (out, c, {| payload_consumed := to_copy |}).

Definition write_pcr_only_packet {E} (out : list Z) (pid : Z) (p : Z) (c : ContinuityCounters)
    : res E (list Z) :=
  assert! pid <=? 0x1FFF in
  let! out := put out 0 [TS_SYNC_BYTE] in
  let! out := put out 1 [Z.land (as_u8 (Z.shiftr pid 8)) 0x1F] in
  let! out := put out 2 [as_u8 (Z.land pid 0xFF)] in
  let! cur := idx (counters c) (Z.land pid 0x1FFF) in
  let cc := Z.land (as_u8 (cur - 1)) 0x0F in
  let! out := put out 3 [Z.lor (Z.shiftl 2 4) cc] in
  let! out := put out 4 [183] in
  let! out := put out 5 [0x10] in
  let! window := slice out 6 12 in
  let! window := write_pcr window p in
  let! out := put out 6 window in
  put out 12 (zrep 176 0xFF).

End TsWriter.

(** * Parser *)
Module TsParser.
Import Common.

Inductive AdaptationFieldKind : Type := ReservedControl | BadLengthForControl | ShortPcr.
Inductive PcrMalformedKind : Type := InvalidReservedBits | ExtensionOutOfRange.
Inductive TsParseError : Type := NoSyncByte | Truncated | BadAdaptationLength.

#[global] Instance AdaptationFieldKind_eq_dec : EqDecision AdaptationFieldKind.
Proof. solve_decision. Defined.
#[global] Instance PcrMalformedKind_eq_dec : EqDecision PcrMalformedKind.
Proof. solve_decision. Defined.
#[global] Instance TsParseError_eq_dec : EqDecision TsParseError.
Proof. solve_decision. Defined.

Record TsPacket : Type := {
  pid : Z;
  transport_error_indicator : bool;
  transport_scrambling_control : Z;
  payload_unit_start : bool;
  continuity_counter : Z;
  has_adaptation_field : bool;
  pcr_27mhz : option Z;
  pcr_malformed : option PcrMalformedKind;
  adaptation_malformed : option AdaptationFieldKind;
  discontinuity_indicator : bool;
  random_access_indicator : bool;
  payload : list Z;
  has_payload : bool;
  raw : list Z
}.

(** The PCR block of [parse_ts_packet]: [(pcr_27mhz, pcr_malformed)]. *)
Definition parse_pcr {E} (b : list Z) : res E (option Z * option PcrMalformedKind) :=
  let! b0 := idx b 0 in
  let! b1 := idx b 1 in
  let! b2 := idx b 2 in
  let! b3 := idx b 3 in
  let! b4 := idx b 4 in
  let! b5 := idx b 5 in
  let pcr_base :=
    Z.land
      (Z.lor (Z.lor (Z.lor (Z.lor (Z.shiftl b0 25) (Z.shiftl b1 17)) (Z.shiftl b2 9))
                    (Z.shiftl b3 1))
             (Z.land (Z.shiftr b4 7) 0x01))
      (Z.shiftl 1 33 - 1) in
  let ext := Z.lor (Z.shiftl (Z.land b4 0x01) 8) b5 in
  let reserved_bits := Z.land b4 0x7E in
  if negb (reserved_bits =? 0x7E) then Ok (None, Some InvalidReservedBits)
  else if 299 <? ext then Ok (None, Some ExtensionOutOfRange)
  else let! v := chk_u64 (pcr_base * 300 + ext) in Ok (Some v, None).

(** What the adaptation-field block leaves in the mutable locals. *)
Record AfState : Type := {
  af_pcr : option Z;
  af_pcr_malformed : option PcrMalformedKind;
  af_malformed : option AdaptationFieldKind;
  af_discontinuity : bool;
  af_random_access : bool;
  af_payload_off : Z
}.

Definition parse_af (buf : list Z) (adaptation_control : Z)
    (malformed0 : option AdaptationFieldKind) : res TsParseError AfState :=
  let! af_len := idx buf 4 in
  if TS_PACKET_SIZE <? 5 + af_len then Err BadAdaptationLength
  else
  let malformed :=
    if ((adaptation_control =? 2) && negb (af_len =? 183))
       || ((adaptation_control =? 3) && (182 <? af_len))
    then Some BadLengthForControl else malformed0 in
  if 1 <=? af_len then
    let! flags := idx buf 5 in
    let discontinuity := nz (Z.land flags 0x80) in
    let random_access := nz (Z.land flags 0x40) in
    let pcr_flag := nz (Z.land flags 0x10) in
    let malformed :=
      if pcr_flag && (af_len <? 7) && (match malformed with None => true | _ => false end)
      then Some ShortPcr else malformed in
    let! (p, pm) :=
      if pcr_flag && (7 <=? af_len)
      then let! b := slice buf 6 12 in parse_pcr b
      else Ok (None, None) in
    Ok {| af_pcr := p; af_pcr_malformed := pm; af_malformed := malformed;
          af_discontinuity := discontinuity; af_random_access := random_access;
          af_payload_off := 5 + af_len |}
  else
    Ok {| af_pcr := None; af_pcr_malformed := None; af_malformed := malformed;
          af_discontinuity := false; af_random_access := false;
          af_payload_off := 5 + af_len |}.

Definition parse_ts_packet (buf : list Z) : res TsParseError TsPacket :=
  if negb (zlen buf =? TS_PACKET_SIZE) then Err Truncated
  else
  let! b0 := idx buf 0 in
  if negb (b0 =? TS_SYNC_BYTE) then Err NoSyncByte
  else
  let! b1 := idx buf 1 in
  let! b2 := idx buf 2 in
  let! b3 := idx buf 3 in
  let tei := nz (Z.land b1 0x80) in
  let pusi := nz (Z.land b1 0x40) in
  let p := from_be16 (Z.land b1 0x1F) b2 in
  let tsc := Z.land (Z.shiftr b3 6) 0x03 in
  let adaptation_control := Z.land (Z.shiftr b3 4) 0x03 in
  let has_af := nz (Z.land adaptation_control 2) in
  let has_pl := nz (Z.land adaptation_control 1) in
  let cc := Z.land b3 0x0F in
  let malformed0 := if adaptation_control =? 0 then Some ReservedControl else None in
  let! af :=
    if has_af then parse_af buf adaptation_control malformed0
    else Ok {| af_pcr := None; af_pcr_malformed := None; af_malformed := malformed0;
               af_discontinuity := false; af_random_access := false; af_payload_off := 4 |} in
  let! pl :=
    if has_pl && (af_payload_off af <? TS_PACKET_SIZE)
    then slice buf (af_payload_off af) TS_PACKET_SIZE
    else Ok [] in
  Ok {| pid := p; transport_error_indicator := tei; transport_scrambling_control := tsc;
        payload_unit_start := pusi; continuity_counter := cc; has_adaptation_field := has_af;
        pcr_27mhz := af_pcr af; pcr_malformed := af_pcr_malformed af;
        adaptation_malformed := af_malformed af;
        discontinuity_indicator := af_discontinuity af;
        random_access_indicator := af_random_access af;
        payload := pl; has_payload := has_pl; raw := buf |}.

End TsParser.

(** * Continuity counters *)
Module TsCounters.
Import TsWriter.

Definition counters_ok (c : ContinuityCounters) : Prop :=
  zlen (counters c) = 8192 /\ Forall (fun x => 0 <= x < 16) (counters c).

(** The counter the next payload packet on [pid] carries. *)
Definition cc_of (c : ContinuityCounters) (pid : Z) : Z := default 0 (get (counters c) pid).

(** [c'] is [c] with the counter of [pid] advanced by one modulo 16. *)
Definition advanced (c c' : ContinuityCounters) (pid : Z) : Prop :=
  counters_ok c' /\ cc_of c' pid = (cc_of c pid + 1) mod 16 /\
  forall q, 0 <= q < 8192 -> q <> pid -> cc_of c' q = cc_of c q.

Lemma new_ok : counters_ok new.
Proof.
  unfold new, counters_ok; cbn [counters].
  split; [by rewrite zlen_zrep|]. apply Forall_replicate. lia.
Qed.

Lemma pid_mask pid : 0 <= pid <= 0x1FFF -> Z.land pid 0x1FFF = pid.
Proof.
  intros. change 0x1FFF with (2 ^ 13 - 1) in *. rewrite land_mask by lia.
  apply Z.mod_small. lia.
Qed.

Lemma cc_of_range c pid : counters_ok c -> 0 <= pid <= 0x1FFF ->
  get (counters c) pid = Some (cc_of c pid) /\ 0 <= cc_of c pid < 16.
Proof.
  intros [Hl Hf] Hp. destruct (get_lt (counters c) pid) as [x Hx]; [lia|].
  unfold cc_of. rewrite Hx. split; [done|]. simpl.
  unfold get in Hx. destruct (pid <? 0); [done|].
  apply (Forall_lookup_1 _ _ _ _ Hf Hx).
Qed.

Lemma insert_ok c i x : counters_ok c -> 0 <= i <= 0x1FFF -> 0 <= x < 16 ->
  counters_ok {| counters := <[Z.to_nat i:=x]> (counters c) |} /\
  cc_of {| counters := <[Z.to_nat i:=x]> (counters c) |} i = x /\
  forall q, 0 <= q < 8192 -> q <> i ->
    cc_of {| counters := <[Z.to_nat i:=x]> (counters c) |} q = cc_of c q.
Proof.
  intros [Hl Hf] Hi Hx. split; [split|split]; simpl.
  - by rewrite zlen_insert.
  - by apply Forall_insert.
  - unfold cc_of; simpl. rewrite get_insert, Z.eqb_refl by lia. done.
  - intros q Hq Hne. unfold cc_of; simpl. rewrite get_insert by lia.
    by rewrite (proj2 (Z.eqb_neq _ _)) by lia.
Qed.

Lemma next_ok {E} c pid : counters_ok c -> 0 <= pid <= 0x1FFF ->
  exists c', next (E:=E) c pid = Ok (cc_of c pid, c') /\ advanced c c' pid.
Proof.
  intros Hc Hp. pose proof Hc as [Hl _]. destruct (cc_of_range c pid Hc Hp) as [Hg Hr].
  unfold next. rewrite pid_mask by done. unfold idx. rewrite Hg. rb.
  rewrite land_15, (Z.mod_small (cc_of c pid)) by lia.
  unfold chk_u8, checked. rewrite (proj2 (Z.leb_le _ _)), (proj2 (Z.ltb_lt _ _)) by lia.
  rb. rewrite put_single, land_15 by lia. rb.
  eexists. split; [reflexivity|].
  destruct (insert_ok c pid ((cc_of c pid + 1) mod 16) Hc Hp) as (H1 & H2 & H3);
    [by apply Z.mod_pos_bound|]. by split_and!.
Qed.

Lemma reset_ok {E} c pid : counters_ok c -> 0 <= pid <= 0x1FFF ->
  exists c', reset (E:=E) c pid = Ok c' /\ counters_ok c' /\ cc_of c' pid = 0 /\
             forall q, 0 <= q < 8192 -> q <> pid -> cc_of c' q = cc_of c q.
Proof.
  intros Hc Hp. pose proof Hc as [Hl _]. unfold reset. rewrite pid_mask by done.
  rewrite put_single by lia. rb. eexists. split; [reflexivity|].
  by apply insert_ok.
Qed.

End TsCounters.

(** * Layout: the packet the writer produces, as one expression *)
Module TsLayout.
Import Common TsWriter TsCounters.

Definition header (pid : Z) (pusi : bool) (afc cc : Z) : list Z :=
  [TS_SYNC_BYTE;
   Z.lor (Z.shiftl (b2z pusi) 6) (Z.land (as_u8 (Z.shiftr pid 8)) 0x1F);
   as_u8 (Z.land pid 0xFF);
   Z.lor (Z.shiftl afc 4) cc].

Definition pcr_bytes (p : Z) : list Z :=
  [as_u8 (Z.shiftr (base p) 25); as_u8 (Z.shiftr (base p) 17); as_u8 (Z.shiftr (base p) 9);
   as_u8 (Z.shiftr (base p) 1);
   Z.lor (Z.lor (as_u8 (Z.shiftl (Z.land (base p) 0x1) 7)) 0x7E)
         (as_u8 (Z.land (Z.shiftr (extension p) 8) 0x01));
   as_u8 (Z.land (extension p) 0xFF)].

(** Bytes of adaptation field before stuffing, length byte included. *)
Definition overhead (a : AdaptationField) (n : Z) : Z :=
  if 0 <? min_size a then min_size a
  else if n <? 184 then (if n =? 183 then 1 else 2) else 0.

(** Payload bytes one packet carries when [n] are offered. *)
Definition consumed (a : AdaptationField) (n : Z) : Z := Z.min (184 - overhead a n) n.

Definition stuffing (a : AdaptationField) (n : Z) : Z := 184 - overhead a n - consumed a n.

Definition flags_byte (a : AdaptationField) : Z :=
  Z.lor (Z.shiftl (b2z (random_access a)) 6) (Z.shiftl (b2z (pcr_is_some a)) 4).

Definition af_fields (a : AdaptationField) (n : Z) : list Z :=
  if 0 <? min_size a then
    flags_byte a :: match pcr a with Some p => pcr_bytes p | None => [] end
  else if overhead a n =? 2 then [0] else [].

Definition af_bytes (a : AdaptationField) (n : Z) : list Z :=
  if 0 <? overhead a n then
    (overhead a n - 1 + stuffing a n) :: af_fields a n ++ zrep (stuffing a n) 0xFF
  else [].

Definition afc_of (a : AdaptationField) (n : Z) : Z := if 0 <? overhead a n then 3 else 1.

Definition layout (pid : Z) (pusi : bool) (a : AdaptationField) (payload : list Z) (cc : Z) : list Z :=
  header pid pusi (afc_of a (zlen payload)) cc ++ af_bytes a (zlen payload) ++
  ztake (consumed a (zlen payload)) payload.

Lemma min_size_cases a :
  (min_size a = 0 /\ pcr a = None /\ random_access a = false) \/
  (min_size a = 2 /\ pcr a = None /\ random_access a = true) \/
  (min_size a = 8 /\ exists p, pcr a = Some p).
Proof.
  destruct a as [[] [p|]]; unfold min_size, is_empty, pcr_is_some; simpl; eauto 6.
Qed.

Lemma overhead_range a n : 0 <= n -> 0 <= overhead a n <= 8.
Proof.
  intros Hn. unfold overhead.
  destruct (min_size_cases a) as [(-> & _)|[(-> & _)|(-> & _)]]; simpl; try lia.
  ifs; [ifs; lia|lia].
Qed.

Lemma consumed_range a n : 0 <= n -> 0 <= consumed a n <= n /\ consumed a n <= 184.
Proof. intros Hn. pose proof (overhead_range a n Hn). unfold consumed. lia. Qed.

Lemma stuffing_range a n : 0 <= n -> 0 <= stuffing a n <= 184.
Proof.
  intros Hn. pose proof (overhead_range a n Hn). unfold stuffing, consumed. lia.
Qed.

Lemma zlen_af_fields a n : 0 <= n -> 0 < overhead a n -> zlen (af_fields a n) = overhead a n - 1.
Proof.
  intros Hn Ho. unfold af_fields, overhead in *.
  destruct (min_size_cases a) as [(Hm & Hp & _)|[(Hm & Hp & _)|(Hm & p & Hp)]];
    rewrite Hm, Hp in *; simpl in *; [|unfold zlen; simpl; lia..].
  repeat ifs; b2p; zlia.
Qed.

Lemma zlen_af_bytes a n : 0 <= n -> zlen (af_bytes a n) = overhead a n + (if 0 <? overhead a n then stuffing a n else 0).
Proof.
  intros Hn. unfold af_bytes. pose proof (overhead_range a n Hn). pose proof (stuffing_range a n Hn).
  ifs; b2p; [|zlia].
  rewrite zlen_cons, zlen_app, zlen_af_fields, zlen_zrep by lia. lia.
Qed.

Lemma stuffing_no_af a n : 0 <= n -> overhead a n = 0 -> stuffing a n = 0.
Proof.
  intros Hn Ho. unfold stuffing, consumed. rewrite Ho. unfold overhead in Ho.
  destruct (min_size_cases a) as [(H & _)|[(H & _)|(H & _)]]; rewrite H in Ho; simpl in Ho; [|lia..].
  revert Ho. ifs; [ifs; lia|]. b2p. lia.
Qed.

Lemma write_pcr_ok {E} out p : zlen out = 6 -> write_pcr (E:=E) out p = Ok (pcr_bytes p).
Proof.
  intros Hl. destruct out as [|? [|? [|? [|? [|? [|? [|]]]]]]];
    try (exfalso; revert Hl; rewrite ?zlen_cons, ?zlen_nil; zlia).
  reflexivity.
Qed.

(** The flags and PCR of the adaptation field, behind the length byte. *)
Lemma write_fields_ok {E} w1 k1 a n :
  0 <= n -> 0 < overhead a n -> overhead a n - 1 <= zlen k1 ->
  exists k2,
    (if 0 <? min_size a then
       let! out := put (w1 ++ k1) (zlen w1) [flags_byte a] in
       match pcr a with
       | Some p =>
           let! window := slice out (zlen w1 + 1) (zlen w1 + 1 + 6) in
           let! window := write_pcr window p in
           let! out := put out (zlen w1 + 1) window in
           Ok (E:=E) (out, zlen w1 + 1 + 6)
       | None => Ok (out, zlen w1 + 1)
       end
     else if overhead a n =? 2 then
       let! out := put (w1 ++ k1) (zlen w1) [0] in
       Ok (out, zlen w1 + 1)
     else Ok (w1 ++ k1, zlen w1))
    = Ok ((w1 ++ af_fields a n) ++ k2, zlen w1 + (overhead a n - 1)) /\ zlen k2 = zlen k1 - (overhead a n - 1).
Proof.
  intros Hn Ho Hk. rewrite <- (zlen_af_fields a n Hn Ho) in *. unfold af_fields in *. ifs; [|ifs].
  - destruct (put_step (E:=E) w1 k1 [flags_byte a] (zlen w1)) as (k2 & -> & Hk2); [done|zlia|]. rb.
    autorewrite with zlr in Hk2. destruct (pcr a) as [p|].
    + change (zlen (flags_byte a :: pcr_bytes p)) with 7 in *. rewrite slice_ok by zlia. rb.
      rewrite write_pcr_ok by (rewrite zlen_ztake; [lia|rewrite zlen_zdrop; zlia]). rb.
      destruct (put_step (E:=E) (w1 ++ [flags_byte a]) k2 (pcr_bytes p) (zlen w1 + 1)) as (k3 & -> & Hk3);
        [zlia|change (zlen (pcr_bytes p)) with 6; lia|]. rb.
      exists k3. rewrite <- (app_assoc w1). change (zlen (pcr_bytes p)) with 6 in Hk3.
      split; [f_equal; f_equal; lia|lia].
    + exists k2. split; [done|]. by rewrite zlen_cons, zlen_nil, Hk2.
  - destruct (put_step (E:=E) w1 k1 [0] (zlen w1)) as (k2 & -> & Hk2); [done|zlia|].
    rb. exists k2. by autorewrite with zlr in *.
  - exists k1. rewrite app_nil_r, zlen_nil, Z.add_0_r. split; [done|lia].
Qed.

(** The adaptation-field block writes [af_bytes] at the cursor. *)
Lemma write_af_ok {E} w k a n :
  0 <= n -> 0 < overhead a n -> zlen (af_bytes a n) <= zlen k ->
  exists k', write_af (E:=E) (w ++ k) (zlen w) a (min_size a) (overhead a n) (stuffing a n)
             = Ok ((w ++ af_bytes a n) ++ k', zlen w + zlen (af_bytes a n)) /\
             zlen k' = zlen k - zlen (af_bytes a n).
Proof.
  intros Hn Ho Hk. pose proof (zlen_af_bytes a n Hn) as Hl.
  pose proof (overhead_range a n Hn). pose proof (stuffing_range a n Hn).
  rewrite (proj2 (Z.ltb_lt _ _)) in Hl by lia.
  unfold write_af, usub. rewrite (proj2 (Z.leb_le _ _)) by lia. rb.
  destruct (put_step (E:=E) w k [as_u8 (overhead a n - 1 + stuffing a n)] (zlen w)) as (k1 & -> & Hk1);
    [done|zlia|]. rb. autorewrite with zlr in Hk1.
  assert (as_u8 (overhead a n - 1 + stuffing a n) = overhead a n - 1 + stuffing a n) as ->.
  { apply Z.mod_small. unfold stuffing, consumed. lia. }
  set (w1 := w ++ [overhead a n - 1 + stuffing a n]).
  assert (Hw1 : zlen w + 1 = zlen w1) by (subst w1; zlia). rewrite Hw1.
  destruct (write_fields_ok (E:=E) w1 k1 a n Hn Ho) as (k2 & Hf & Hk2); [lia|].
  unfold flags_byte in Hf. rewrite Hf. clear Hf. rb.
  destruct (put_step (E:=E) (w1 ++ af_fields a n) k2 (zrep (stuffing a n) 0xFF) (zlen w1 + (overhead a n - 1)))
    as (k3 & -> & Hk3).
  { rewrite zlen_app, zlen_af_fields by done. lia. }
  { rewrite zlen_zrep by lia. lia. }
  rb. exists k3. rewrite zlen_zrep in Hk3 by lia.
  unfold af_bytes. rewrite (proj2 (Z.ltb_lt 0 _)) by done.
  rewrite zlen_cons, zlen_app, zlen_af_fields, zlen_zrep by lia.
  split; [|lia]. do 2 f_equal; [|lia]. subst w1. rewrite <- !app_assoc. cbn [app]. by rewrite <- ?app_assoc.
Qed.

(** The adaptation field of a packet, present or not, behind its four-byte header. *)
Lemma af_block_ok {E} hd k a n : 0 <= n -> zlen hd = 4 -> zlen (af_bytes a n) <= zlen k ->
  exists k',
    (if (if 0 <? overhead a n then 3 else 1) =? 3
     then write_af (E:=E) (hd ++ k) 4 a (min_size a) (overhead a n) (stuffing a n)
     else Ok (hd ++ k, 4)) =
    Ok ((hd ++ af_bytes a n) ++ k', 4 + zlen (af_bytes a n)) /\ zlen k' = zlen k - zlen (af_bytes a n).
Proof.
  intros Hn Hhd Hk. pose proof (overhead_range a n Hn). destruct (0 <? overhead a n) eqn:Ho; simpl; b2p.
  - rewrite <- Hhd. by apply write_af_ok.
  - exists k. unfold af_bytes. rewrite (proj2 (Z.ltb_ge _ _)) by lia.
    rewrite app_nil_r, zlen_nil. split; [done|lia].
Qed.

(** Adaptation field and payload fill the packet. *)
Lemma af_fills a n : 0 <= n -> zlen (af_bytes a n) + consumed a n = 184.
Proof.
  intros Hn. pose proof (overhead_range a n Hn). rewrite zlen_af_bytes by done.
  ifs; b2p; [unfold stuffing; lia|]. pose proof (stuffing_no_af a n Hn ltac:(lia)) as Hs. unfold stuffing in Hs. lia.
Qed.

(** The writer's choice of [af_overhead]. *)
Lemma overhead_choice a n :
  (if 0 <? min_size a then min_size a
   else if (min_size a =? 0) && (n <? 184) then if n =? 184 - 1 then 1 else 2 else 0) = overhead a n.
Proof.
  unfold overhead. ifs; [done|]. b2p.
  destruct (min_size_cases a) as [(Hm & _)|[(Hm & _)|(Hm & _)]]; [|lia..]. by rewrite Hm.
Qed.

Lemma layout_len pid pusi a pl cc : zlen (layout pid pusi a pl cc) = 188.
Proof.
  unfold layout. pose proof (zlen_nonneg pl) as Hn.
  pose proof (consumed_range a _ Hn). pose proof (overhead_range a _ Hn).
  rewrite !zlen_app, zlen_af_bytes, zlen_ztake by lia.
  change (zlen (header _ _ _ _)) with 4. ifs; b2p.
  - unfold stuffing. lia.
  - pose proof (stuffing_no_af a (zlen pl) Hn ltac:(lia)) as Hs. unfold stuffing in Hs. lia.
Qed.

(** One header byte stored at offset [i], [k] the rest of the buffer. *)
Ltac put_byte k i :=
  match goal with |- context [put (E:=?E) (?w ++ k) i [?b]] =>
    let k' := fresh "k" in let Hk := fresh "Hk" in
    destruct (put_step (E:=E) w k [b] i) as (k' & -> & Hk); [done|zlia|];
    rewrite zlen_cons, zlen_nil in Hk
  end; rb.

(** The whole writer: it never panics on a 188-byte buffer and a 13-bit PID,
    overwrites every byte of the buffer, and advances only that PID's counter. *)
Lemma write_packet_ok {E} out pid pusi a pl c :
  zlen out = 188 -> 0 <= pid <= 0x1FFF -> counters_ok c ->
  exists c', write_packet (E:=E) out pid pusi a pl c =
               Ok (layout pid pusi a pl (cc_of c pid), c',
                   {| payload_consumed := consumed a (zlen pl) |}) /\
             advanced c c' pid.
Proof.
  intros Hout Hpid Hc. pose proof (zlen_nonneg pl) as Hn.
  pose proof (consumed_range a _ Hn) as Hco. pose proof (overhead_range a _ Hn) as Hov.
  destruct (next_ok (E:=E) c pid Hc Hpid) as (c' & Hnext & Hadv).
  destruct (cc_of_range c pid Hc Hpid) as [_ Hcc].
  exists c'. split; [|done]. unfold write_packet.
  rewrite (proj2 (Z.leb_le pid _)) by lia.
  change out with ([] ++ out) at 1. put_byte out 0. put_byte k 1. put_byte k0 2.
  change (TS_PACKET_SIZE - 4) with 184. rewrite overhead_choice.
  unfold usub. rewrite (proj2 (Z.leb_le (overhead a (zlen pl)) _)) by lia. rb.
  rewrite (proj2 (Z.leb_le (Z.min _ _) _)) by lia. rb.
  rewrite Hnext. rb.
  change (Z.min (184 - overhead a (zlen pl)) (zlen pl)) with (consumed a (zlen pl)).
  rewrite land_15, (Z.mod_small (cc_of c pid)) by lia. put_byte k1 3.
  match goal with |- context [?w ++ k2] => set (hd := w) end.
  assert (Hhd : hd = header pid pusi (afc_of a (zlen pl)) (cc_of c pid)) by reflexivity.
  assert (Hhl : zlen hd = 4) by (rewrite Hhd; reflexivity). clearbody hd.
  pose proof (af_fills a (zlen pl) Hn) as Hend.
  destruct (af_block_ok (E:=E) hd k2 a (zlen pl) Hn Hhl) as (k4 & Haf & Hk4); [lia|].
  change (184 - overhead a (zlen pl) - consumed a (zlen pl)) with (stuffing a (zlen pl)). rewrite Haf. rb. clear Haf.
  rewrite slice_ok by lia. rb. rewrite zdrop_0, Z.sub_0_r.
  destruct (put_step (E:=E) (hd ++ af_bytes a (zlen pl)) k4 (ztake (consumed a (zlen pl)) pl)
              (4 + zlen (af_bytes a (zlen pl)))) as (k5 & -> & Hk5).
  { rewrite zlen_app. lia. }
  { rewrite zlen_ztake by lia. lia. }
  rb. rewrite zlen_ztake in Hk5 by lia.
  assert (k5 = []) as -> by (apply zlen_0; lia).
  rewrite (proj2 (Z.eqb_eq _ _)) by (change TS_PACKET_SIZE with 188; lia).
  rewrite app_nil_r, Hhd. unfold layout. by rewrite app_assoc.
Qed.

(** ** Reading the layout back *)
Import TsParser.

Lemma pcr_join b0 b1 b2 b3 x : byte b0 -> byte b1 -> byte b2 -> byte b3 -> 0 <= x < 2 ->
  Z.land (Z.lor (Z.lor (Z.lor (Z.lor (Z.shiftl b0 25) (Z.shiftl b1 17)) (Z.shiftl b2 9))
                       (Z.shiftl b3 1)) x) (Z.shiftl 1 33 - 1)
  = (((b0 * 256 + b1) * 256 + b2) * 256 + b3) * 2 + x.
Proof.
  unfold byte. intros. rewrite !shiftl_mul by lia.
  rewrite (lor_add 25) by lia.
  replace (b0 * 2 ^ 25 + b1 * 2 ^ 17) with ((b0 * 256 + b1) * 2 ^ 17) by lia.
  rewrite (lor_add 17) by lia.
  replace ((b0 * 256 + b1) * 2 ^ 17 + b2 * 2 ^ 9) with (((b0 * 256 + b1) * 256 + b2) * 2 ^ 9) by lia.
  rewrite (lor_add 9) by lia.
  replace (((b0 * 256 + b1) * 256 + b2) * 2 ^ 9 + b3 * 2 ^ 1)
    with ((((b0 * 256 + b1) * 256 + b2) * 256 + b3) * 2 ^ 1) by lia.
  rewrite (lor_add 1) by lia. rewrite (land_mask 33) by lia. apply Z.mod_small. lia.
Qed.

(** The byte that holds the last base bit, the reserved ones and the top
    extension bit. *)
Lemma pcr_byte4 x y : 0 <= x < 2 -> 0 <= y < 2 ->
  let b := Z.lor (Z.lor (as_u8 (Z.shiftl x 7)) 0x7E) (as_u8 y) in
  Z.land (Z.shiftr b 7) 1 = x /\ Z.land b 1 = y /\ Z.land b 0x7E = 0x7E /\ byte b.
Proof.
  intros. assert (x = 0 \/ x = 1) as [-> | ->] by lia; assert (y = 0 \/ y = 1) as [-> | ->] by lia;
    vm_compute; intuition congruence.
Qed.

Lemma parse_pcr_bytes {E} p : parse_pcr (E:=E) (pcr_bytes p) = Ok (Some (p mod PCR_WRAP), None).
Proof.
  unfold pcr_bytes.
  assert (Hb : 0 <= base p < 2 ^ 33) by (rewrite base_mod; by apply Z.mod_pos_bound).
  assert (He : 0 <= extension p < 300) by (rewrite extension_mod; by apply Z.mod_pos_bound).
  assert (Hrec : base p * 300 + extension p = p mod PCR_WRAP).
  { rewrite base_mod, extension_mod. unfold PCR_WRAP. change (2 ^ 33) with 8589934592. dlia. }
  set (B := base p) in *. set (e := extension p) in *. clearbody B e.
  change (2 ^ 33) with 8589934592 in *.
  pose proof (pcr_byte4 (Z.land B 1) (Z.land (Z.shiftr e 8) 1)) as H4. cbv zeta in H4.
  destruct H4 as (Hx & Hy & Hr & Hby); [rewrite land_1; dlia..|].
  set (b4 := Z.lor (Z.lor (as_u8 (Z.shiftl (Z.land B 1) 7)) 126) (as_u8 (Z.land (Z.shiftr e 8) 1))) in *.
  clearbody b4. unfold parse_pcr. idxs. cbv zeta.
  rewrite pcr_join by (apply as_u8_byte || (rewrite Hx, land_1; dlia)).
  rewrite Hx, Hy, Hr. cbn [Z.eqb negb Pos.eqb]. unfold as_u8.
  rewrite !shiftr_div, !shiftl_mul, !land_255, !land_1, (lor_add 8) by (lia || dlia).
  change (2 ^ 25) with 33554432. change (2 ^ 17) with 131072. change (2 ^ 9) with 512.
  change (2 ^ 1) with 2. change (2 ^ 8) with 256.
  replace ((((B / 33554432) mod 256 * 256 + (B / 131072) mod 256) * 256 + (B / 512) mod 256) * 256
           + (B / 2) mod 256) with (B / 2) by dlia.
  replace (B / 2 * 2 + B mod 2) with B by dlia.
  replace ((e / 256) mod 2 * 256 + (e mod 256) mod 256) with e by dlia.
  rewrite (proj2 (Z.ltb_ge 299 e)) by lia.
  unfold chk_u64, checked. rewrite (proj2 (Z.leb_le _ _)), (proj2 (Z.ltb_lt _ _)) by lia. rb.
  by rewrite Hrec.
Qed.

Lemma header_byte1 pid pusi : 0 <= pid <= 0x1FFF ->
  let b := Z.lor (Z.shiftl (b2z pusi) 6) (Z.land (as_u8 (Z.shiftr pid 8)) 0x1F) in
  nz (Z.land b 0x80) = false /\ nz (Z.land b 0x40) = pusi /\ Z.land b 0x1F = pid / 256 /\ byte b.
Proof.
  intros Hp. cbv zeta.
  assert (Z.land (as_u8 (Z.shiftr pid 8)) 0x1F = pid / 256) as ->.
  { rewrite land_31, shiftr_div by lia. change (2 ^ 8) with 256. unfold as_u8. dlia. }
  assert (Hx : 0 <= pid / 256 < Z.of_nat 32) by dlia.
  set (x := pid / 256) in *. clearbody x.
  pose (chk := fun x => let b := Z.lor (Z.shiftl (b2z pusi) 6) x in
    eqb (nz (Z.land b 0x80)) false && eqb (nz (Z.land b 0x40)) pusi && (Z.land b 0x1F =? x) && byteb b).
  assert (Hc : chk x = true).
  { apply (below_all 32 chk); [destruct pusi; by vm_compute|done]. }
  unfold chk, byteb in Hc. cbv zeta in Hc. b2p. unfold byte.
  repeat match goal with H : eqb _ _ = true |- _ => apply eqb_prop in H end. auto with lia.
Qed.

Lemma header_byte3 afc cc : afc = 1 \/ afc = 2 \/ afc = 3 -> 0 <= cc < 16 ->
  let b := Z.lor (Z.shiftl afc 4) cc in
  Z.land (Z.shiftr b 6) 3 = 0 /\ Z.land (Z.shiftr b 4) 3 = afc /\ Z.land b 15 = cc /\ byte b.
Proof.
  intros Ha Hcc. cbv zeta.
  pose (chk := fun afc x => let b := Z.lor (Z.shiftl afc 4) x in
    (Z.land (Z.shiftr b 6) 3 =? 0) && (Z.land (Z.shiftr b 4) 3 =? afc) && (Z.land b 15 =? x) && byteb b).
  assert (Hc : chk afc cc = true).
  { apply (below_all 16 (chk afc)); [destruct Ha as [->|[->| ->]]; by vm_compute|done]. }
  unfold chk, byteb in Hc. cbv zeta in Hc. b2p. unfold byte. auto with lia.
Qed.

Lemma header_pid pid : 0 <= pid <= 0x1FFF -> from_be16 (pid / 256) (as_u8 (Z.land pid 0xFF)) = pid.
Proof. intros. unfold from_be16, as_u8. rewrite land_255. dlia. Qed.


(** What the adaptation block of the parser finds behind a written header. *)
Lemma parse_af_layout b0 b1 b2 b3 a n rest :
  0 < n -> zlen rest = consumed a n -> 0 < overhead a n ->
  parse_af (b0 :: b1 :: b2 :: b3 :: af_bytes a n ++ rest) 3 None =
    Ok {| af_pcr := (fun p => p mod PCR_WRAP) <$> pcr a; af_pcr_malformed := None;
          af_malformed := None; af_discontinuity := false;
          af_random_access := random_access a; af_payload_off := 4 + zlen (af_bytes a n) |}.
Proof.
  intros Hn Hr Ho. pose proof (overhead_range a n ltac:(lia)) as Hov.
  pose proof (stuffing_range a n ltac:(lia)) as Hst.
  rewrite zlen_af_bytes by lia. unfold af_bytes. rewrite (proj2 (Z.ltb_lt _ _)) by done.
  assert (Hs : stuffing a n = 184 - overhead a n - consumed a n) by reflexivity.
  assert (0 < consumed a n) by (unfold consumed; lia).
  set (L := overhead a n - 1 + stuffing a n).
  cbn [app]. unfold parse_af. idxs. change TS_PACKET_SIZE with 188.
  rewrite (proj2 (Z.ltb_ge 188 _)) by lia.
  rewrite (proj2 (Z.ltb_ge 182 L)) by lia. cbn [Z.eqb Pos.eqb andb orb].
  assert (Hm : (overhead a n = 1 /\ af_fields a n = [] /\ stuffing a n = 0 /\ pcr a = None /\ random_access a = false) \/
               (2 <= overhead a n /\ af_fields a n = [0] /\ pcr a = None /\ random_access a = false) \/
               (2 <= overhead a n /\ af_fields a n = [0x40] /\ pcr a = None /\ random_access a = true) \/
               (overhead a n = 8 /\ exists p, pcr a = Some p /\
                  af_fields a n = Z.lor (Z.shiftl (b2z (random_access a)) 6) 16 :: pcr_bytes p)).
  { unfold af_fields, flags_byte, pcr_is_some. unfold stuffing, consumed in *. unfold overhead in *.
    destruct (min_size_cases a) as [(Hm & Hp & Hra)|[(Hm & Hp & Hra)|(Hm & p & Hp)]]; rewrite Hm, Hp in *; simpl in *.
    - rewrite Hra. revert Ho Hov Hst Hs. ifs; [|lia]. b2p. ifs; b2p; intros; [left|right; left]; split_and!; try done; lia.
    - rewrite Hra. right; right; left. split_and!; try done; lia.
    - right; right; right. split; [done|]. by exists p. }
  destruct Hm as [(Hov1 & -> & Hst0 & -> & ->)|[(Hov2 & -> & -> & ->)|[(Hov2 & -> & -> & ->)|(Hov8 & p & -> & ->)]]].
  - replace L with 0 by lia. cbn [Z.leb Z.compare]. do 2 f_equal; first [reflexivity | lia].
  - rewrite (proj2 (Z.leb_le 1 L)) by lia. cbn [app]. idxs.
    change (nz (Z.land 0 16)) with false. rb.
    do 2 f_equal; first [reflexivity | lia].
  - rewrite (proj2 (Z.leb_le 1 L)) by lia. cbn [app]. idxs.
    change (nz (Z.land 64 16)) with false. rb. do 2 f_equal; first [reflexivity | lia].
  - rewrite (proj2 (Z.leb_le 1 L)) by lia. cbn [app]. idxs.
    rewrite (proj2 (Z.ltb_ge L 7)), (proj2 (Z.leb_le 7 L)) by lia.
    set (fl := Z.lor (Z.shiftl (b2z (random_access a)) 6) 16).
    rewrite <- (app_assoc (pcr_bytes p)).
    pose proof (slice_app (E:=TsParseError) [b0; b1; b2; b3; L; fl] (pcr_bytes p)
      (zrep (stuffing a n) 0xFF ++ rest) 6 12 eq_refl eq_refl) as Hsl.
    cbn [app] in Hsl. rewrite Hsl. clear Hsl.
    assert (nz (Z.land fl 16) = true /\ nz (Z.land fl 128) = false /\ nz (Z.land fl 64) = random_access a)
      as (-> & -> & ->) by (subst fl; by destruct (random_access a)).
    rb. rewrite parse_pcr_bytes. rb. do 2 f_equal. lia.
Qed.

Lemma overhead_none a n : overhead a n <= 0 -> pcr a = None /\ random_access a = false.
Proof.
  unfold overhead. destruct (min_size_cases a) as [(Hm & Hp & Hr)|[(Hm & _)|(Hm & _)]];
    rewrite Hm; simpl; intros; first [lia | auto].
Qed.

(** The packet a parser must see for a written payload packet. *)
Definition expected (pid : Z) (pusi : bool) (a : AdaptationField) (pl : list Z) (cc : Z) : TsPacket :=
  {| TsParser.pid := pid; transport_error_indicator := false; transport_scrambling_control := 0;
     payload_unit_start := pusi; continuity_counter := cc;
     has_adaptation_field := 0 <? overhead a (zlen pl);
     pcr_27mhz := (fun p => p mod PCR_WRAP) <$> pcr a; pcr_malformed := None;
     adaptation_malformed := None; discontinuity_indicator := false;
     random_access_indicator := random_access a;
     payload := ztake (consumed a (zlen pl)) pl; has_payload := true;
     raw := layout pid pusi a pl cc |}.

Lemma parse_layout pid pusi a pl cc :
  0 <= pid <= 0x1FFF -> 0 <= cc < 16 -> pl <> [] ->
  parse_ts_packet (layout pid pusi a pl cc) = Ok (expected pid pusi a pl cc).
Proof.
  intros Hpid Hcc Hne. pose proof (layout_len pid pusi a pl cc) as Hlen.
  assert (Hn : 0 < zlen pl) by (destruct pl; [done|rewrite zlen_cons; zlia]).
  pose proof (consumed_range a (zlen pl) ltac:(lia)) as Hco.
  unfold parse_ts_packet. rewrite Hlen. change (negb (188 =? TS_PACKET_SIZE)) with false.
  unfold expected. remember (layout pid pusi a pl cc) as buf eqn:Hbuf.
  assert (Hb : exists b1 b3, buf = TS_SYNC_BYTE :: b1 :: as_u8 (Z.land pid 0xFF) :: b3 ::
                 af_bytes a (zlen pl) ++ ztake (consumed a (zlen pl)) pl /\
               nz (Z.land b1 0x80) = false /\ nz (Z.land b1 0x40) = pusi /\ Z.land b1 0x1F = pid / 256 /\
               Z.land (Z.shiftr b3 6) 3 = 0 /\ Z.land (Z.shiftr b3 4) 3 = afc_of a (zlen pl) /\ Z.land b3 15 = cc).
  { destruct (header_byte1 pid pusi Hpid) as (H1 & H2 & H3 & _).
    assert (Ha : afc_of a (zlen pl) = 1 \/ afc_of a (zlen pl) = 2 \/ afc_of a (zlen pl) = 3)
      by (unfold afc_of; ifs; auto).
    destruct (header_byte3 _ cc Ha Hcc) as (H4 & H5 & H6 & _).
    eexists _, _. split; [exact Hbuf|]. split_and!; done. }
  clear Hbuf. destruct Hb as (b1 & b3 & -> & H1 & H2 & H3 & H4 & H5 & H6).
  idxs. change (negb (TS_SYNC_BYTE =? TS_SYNC_BYTE)) with false. idxs.
  rewrite H1, H2, H3, H4, H5, H6, header_pid by done. unfold afc_of.
  pose proof (overhead_range a (zlen pl) ltac:(lia)) as Hov.
  assert (0 < consumed a (zlen pl)) by (unfold consumed; lia).
  rewrite !zlen_cons, zlen_app, zlen_ztake in Hlen by lia.
  destruct (0 <? overhead a (zlen pl)) eqn:Ho; b2p.
  - change (nz (Z.land 3 2)) with true. change (nz (Z.land 3 1)) with true.
    change (3 =? 0) with false. rb.
    rewrite parse_af_layout by (rewrite ?zlen_ztake; lia). rb.
    cbn [af_payload_off]. change TS_PACKET_SIZE with 188.
    rewrite (proj2 (Z.ltb_lt _ 188)) by lia.
    rewrite (slice_tail (TS_SYNC_BYTE :: b1 :: as_u8 (Z.land pid 0xFF) :: b3 :: af_bytes a (zlen pl))
               (ztake (consumed a (zlen pl)) pl));
      [reflexivity|done|rewrite !zlen_cons; lia|rewrite !zlen_cons, zlen_app, zlen_ztake; lia].
  - change (nz (Z.land 1 2)) with false. change (nz (Z.land 1 1)) with true.
    change (1 =? 0) with false. rb. cbn [af_payload_off]. change TS_PACKET_SIZE with 188.
    assert (zlen (af_bytes a (zlen pl)) = 0)
      by (unfold af_bytes; by rewrite (proj2 (Z.ltb_ge _ _)) by lia).
    change (4 <? 188) with true. destruct (overhead_none a (zlen pl) Ho) as [-> ->].
    rewrite (slice_tail (TS_SYNC_BYTE :: b1 :: as_u8 (Z.land pid 0xFF) :: b3 :: af_bytes a (zlen pl))
               (ztake (consumed a (zlen pl)) pl));
      [reflexivity|done|rewrite !zlen_cons; lia|rewrite !zlen_cons, zlen_app, zlen_ztake; lia].
Qed.

Lemma header_len pid pusi afc cc : zlen (header pid pusi afc cc) = 4.
Proof. done. Qed.

(** The adaptation-only packet. *)
Definition pcr_only_layout (pid p cc : Z) : list Z :=
  header pid false 2 cc ++ [183; 0x10] ++ pcr_bytes p ++ zrep 176 0xFF.

Lemma write_pcr_only_ok {E} out pid p c :
  zlen out = 188 -> 0 <= pid <= 0x1FFF -> counters_ok c ->
  write_pcr_only_packet (E:=E) out pid p c =
    Ok (pcr_only_layout pid p ((cc_of c pid - 1) mod 16)).
Proof.
  intros Hout Hpid Hc. destruct (cc_of_range c pid Hc Hpid) as [Hg Hr].
  unfold write_pcr_only_packet. rewrite (proj2 (Z.leb_le pid _)) by lia.
  change out with ([] ++ out) at 1.
  do 3 put_next. rewrite pid_mask by done. unfold idx at 1. rewrite Hg. rb.
  rewrite land_15.
  replace (as_u8 (cc_of c pid - 1) mod 16) with ((cc_of c pid - 1) mod 16) by (unfold as_u8; dlia).
  do 3 put_next.
  match goal with |- context [slice ?l 6 12] =>
    destruct (slice_window (E:=E) l 6 12) as (win & -> & Hwin);
      [lia|lia|rewrite ?zlen_app, ?zlen_cons, ?zlen_nil; lia|] end.
  rb. rewrite write_pcr_ok by done.
  assert (Hpb : zlen (pcr_bytes p) = 6) by done.
  rb. put_next.
  match goal with |- context [put (?w ++ ?k) 12 ?bs] =>
    destruct (put_step (E:=E) w k bs 12) as (k' & -> & Hk') end.
  { rewrite !zlen_app, Hpb. done. }
  { rewrite zlen_zrep; lia. }
  rewrite zlen_zrep in Hk' by lia. assert (k' = []) as -> by (apply zlen_0; lia).
  rewrite app_nil_r. unfold pcr_only_layout. by rewrite <- !app_assoc.
Qed.

Lemma parse_pcr_only pid p cc : 0 <= pid <= 0x1FFF -> 0 <= cc < 16 ->
  parse_ts_packet (pcr_only_layout pid p cc) =
    Ok {| TsParser.pid := pid; transport_error_indicator := false; transport_scrambling_control := 0;
          payload_unit_start := false; continuity_counter := cc; has_adaptation_field := true;
          pcr_27mhz := Some (p mod PCR_WRAP); pcr_malformed := None; adaptation_malformed := None;
          discontinuity_indicator := false; random_access_indicator := false;
          payload := []; has_payload := false; raw := pcr_only_layout pid p cc |}.
Proof.
  intros Hpid Hcc. unfold parse_ts_packet.
  assert (zlen (pcr_only_layout pid p cc) = 188) as Hlen.
  { unfold pcr_only_layout. rewrite !zlen_app, zlen_zrep by lia. done. }
  rewrite Hlen. change (negb (188 =? TS_PACKET_SIZE)) with false.
  destruct (header_byte1 pid false Hpid) as (H1 & H2 & H3 & _).
  destruct (header_byte3 2 cc ltac:(auto) Hcc) as (H4 & H5 & H6 & _).
  unfold pcr_only_layout at 1 2 3 4, header at 1 2 3 4. cbn [app]. idxs.
  change (negb (TS_SYNC_BYTE =? TS_SYNC_BYTE)) with false. cbv iota.
  rewrite H1, H2, H3, H4, H5, H6, header_pid by done.
  change (nz (Z.land 2 2)) with true. change (nz (Z.land 2 1)) with false. change (2 =? 0) with false.
  cbv iota. unfold parse_af, pcr_only_layout at 1 2 3, header at 1 2 3. cbn [app]. idxs.
  change (TS_PACKET_SIZE <? 5 + 183) with false. change ((2 =? 2) && negb (183 =? 183) || (2 =? 3) && (182 <? 183)) with false.
  change (1 <=? 183) with true. change (nz (Z.land 16 16)) with true. change (nz (Z.land 16 128)) with false.
  change (nz (Z.land 16 64)) with false. change (7 <=? 183) with true. change (183 <? 7) with false. rb.
  match goal with |- context [slice (E:=?E0) (?x0 :: ?x1 :: ?x2 :: ?x3 :: ?x4 :: ?x5 :: _) 6 12] =>
    rewrite (slice_mid (E:=E0) [x0; x1; x2; x3; x4; x5] (pcr_bytes p) (zrep 176 0xFF)) by done end.
  rb. rewrite parse_pcr_bytes. rb. reflexivity.
Qed.

End TsLayout.

(** * What the packet layer guarantees *)
Module TsTheorems.
Import Common TsWriter TsCounters TsParser TsLayout.

(** C35: writing a non-empty payload into a 188-byte buffer and parsing the
    packet gives back the PID, the start flag, the continuity counter, the
    random-access flag, the PCR (modulo its wrap) and exactly the payload bytes
    the writer reports as consumed, with no malformation flagged; at least one
    byte is consumed, every buffer byte is overwritten, and only that PID's
    counter advances (by one, modulo 16). *)
Theorem ts_write_parse_roundtrip (out : list Z) (p : Z) (pusi : bool) (a : AdaptationField)
    (pl : list Z) (c : ContinuityCounters) :
  zlen out = 188 -> 0 <= p <= 0x1FFF -> counters_ok c -> pl <> [] ->
  exists pkt c' n q,
    write_packet (E:=Empty_set) out p pusi a pl c = Ok (pkt, c', {| payload_consumed := n |}) /\
    advanced c c' p /\ 0 < n <= zlen pl /\ zlen pkt = 188 /\
    parse_ts_packet pkt = Ok q /\
    pid q = p /\ payload_unit_start q = pusi /\ continuity_counter q = cc_of c p /\
    random_access_indicator q = random_access a /\
    pcr_27mhz q = ((fun v => v mod PCR_WRAP) <$> pcr a) /\
    has_payload q = true /\ payload q = ztake n pl /\
    transport_error_indicator q = false /\ transport_scrambling_control q = 0 /\
    discontinuity_indicator q = false /\ pcr_malformed q = None /\ adaptation_malformed q = None.
Proof.
  intros Hout Hp Hc Hne. destruct (write_packet_ok (E:=Empty_set) out p pusi a pl c Hout Hp Hc) as (c' & Hw & Ha).
  destruct (cc_of_range c p Hc Hp) as [_ Hcc].
  assert (Hn : 0 < zlen pl) by (destruct pl; [done|rewrite zlen_cons; zlia]).
  pose proof (consumed_range a (zlen pl) ltac:(lia)).
  pose proof (overhead_range a (zlen pl) ltac:(lia)).
  eexists _, c', _, _. split; [exact Hw|]. split; [exact Ha|].
  split; [unfold consumed in *; lia|]. split; [apply layout_len|].
  split; [by apply parse_layout|]. by split_and!.
Qed.

Lemma ts_write_parse_roundtrip_witness :
  exists pkt c' n q,
    write_packet (E:=Empty_set) (zrep 188 0) 0x1011 true {| random_access := true; pcr := Some 12345 |}
      [1; 2; 3] new = Ok (pkt, c', {| payload_consumed := n |}) /\
    parse_ts_packet pkt = Ok q /\ payload q = ztake n [1; 2; 3].
Proof.
  destruct (ts_write_parse_roundtrip (zrep 188 0) 0x1011 true {| random_access := true; pcr := Some 12345 |}
    [1; 2; 3] new) as (pkt & c' & n & q & Hw & _ & _ & _ & Hq & _ & _ & _ & _ & _ & _ & Hpl & _);
    [reflexivity|lia|exact new_ok|discriminate|].
  exists pkt, c', n, q. split; [exact Hw|split; [exact Hq|exact Hpl]].
Defined.

(** The PCR-only packet parses to an adaptation-only packet with that PCR
    (modulo its wrap) and no payload, and repeats the last payload counter of
    the PID instead of advancing it. *)
Theorem pcr_only_packet_roundtrip (out : list Z) (p v : Z) (c : ContinuityCounters) :
  zlen out = 188 -> 0 <= p <= 0x1FFF -> counters_ok c ->
  exists pkt q,
    write_pcr_only_packet (E:=Empty_set) out p v c = Ok pkt /\ parse_ts_packet pkt = Ok q /\
    pid q = p /\ pcr_27mhz q = Some (v mod PCR_WRAP) /\ has_payload q = false /\ payload q = [] /\
    (continuity_counter q + 1) mod 16 = cc_of c p /\ adaptation_malformed q = None.
Proof.
  intros Hout Hp Hc. destruct (cc_of_range c p Hc Hp) as [_ Hcc].
  eexists _, _. split; [by apply write_pcr_only_ok|].
  split; [apply parse_pcr_only; [done|by apply Z.mod_pos_bound]|].
  split_and!; try done. cbn. dlia.
Qed.

Lemma pcr_only_packet_roundtrip_witness :
  exists pkt q,
    write_pcr_only_packet (E:=Empty_set) (zrep 188 7) 0x100 27000000 new = Ok pkt /\
    parse_ts_packet pkt = Ok q /\ pcr_27mhz q = Some (27000000 mod PCR_WRAP).
Proof.
  destruct (pcr_only_packet_roundtrip (zrep 188 7) 0x100 27000000 new)
    as (pkt & q & Hw & Hq & _ & Hp & _); [reflexivity|lia|exact new_ok|].
  exists pkt, q. split; [exact Hw|split; [exact Hq|exact Hp]].
Defined.

(** ** Totality of the parser *)

Lemma parse_pcr_total {E} b : zlen b = 6 -> bytes b -> exists r, parse_pcr (E:=E) b = Ok r.
Proof.
  intros Hl Hb. destruct b as [|b0 [|b1 [|b2 [|b3 [|b4 [|b5 [|]]]]]]];
    try (exfalso; revert Hl; rewrite ?zlen_cons, ?zlen_nil; zlia).
  bytes_inv. unfold parse_pcr. idxs. cbv zeta.
  rewrite pcr_join by (done || (rewrite land_1; dlia)).
  ifs; [eauto|]. ifs; [eauto|]. unfold chk_u64, checked.
  assert (0 <= Z.lor (Z.shiftl (Z.land b4 1) 8) b5).
  { apply Z.lor_nonneg. split; [|unfold byte in *; lia]. apply Z.shiftl_nonneg, Z.land_nonneg. lia. }
  b2p. change (2 ^ 64) with 18446744073709551616. unfold byte in *.
  match goal with |- context [?B * 300 + ?X] => set (bb := B); set (xx := X) in * end.
  assert (0 <= bb < 16777216 * 1024) by (unfold bb; rewrite ?land_1; dlia).
  rewrite (proj2 (Z.leb_le _ _)), (proj2 (Z.ltb_lt _ _)) by lia. rb. eauto.
Qed.

Lemma parse_af_total buf ctl m : zlen buf = 188 -> bytes buf ->
  (exists l, get buf 4 = Some l /\ 183 < l /\ parse_af buf ctl m = Err BadAdaptationLength) \/
  (exists l r, get buf 4 = Some l /\ 0 <= l <= 183 /\ parse_af buf ctl m = Ok r /\ af_payload_off r = 5 + l).
Proof.
  intros Hl Hb. destruct (idx_ok (E:=TsParseError) buf 4) as (l & Hg & Hi); [lia|].
  pose proof (bytes_get _ _ _ Hb Hg) as Hbl. unfold byte in Hbl.
  unfold parse_af. rewrite Hi. rb. change TS_PACKET_SIZE with 188.
  destruct (188 <? 5 + l) eqn:Hlim; b2p; [left; exists l; split_and!; auto with lia|].
  right. exists l. destruct (1 <=? l) eqn:H1; [|eexists; split_and!; [done|lia|lia|reflexivity|done]].
  destruct (idx_ok (E:=TsParseError) buf 5) as (f & _ & ->); [lia|]. rb.
  destruct (nz (Z.land f 16) && (7 <=? l)) eqn:Hp; b2p.
  - rewrite slice_ok by lia. rb.
    destruct (parse_pcr_total (E:=TsParseError) (ztake (12 - 6) (zdrop 6 buf))) as ([v m'] & ->).
    { rewrite zlen_ztake; [done|]. rewrite zlen_zdrop; lia. }
    { auto with zl. }
    rb. eexists. split_and!; [done|lia|lia|reflexivity|done].
  - rb. eexists. split_and!; [done|lia|lia|reflexivity|done].
Qed.

(** An adaptation field is signalled and its length byte exceeds 183. *)
Definition af_too_long (buf : list Z) : Prop :=
  exists b3 l, get buf 3 = Some b3 /\ nz (Z.land (Z.land (Z.shiftr b3 4) 3) 2) = true /\
               get buf 4 = Some l /\ 183 < l.

(** On any byte string the parser returns without panicking, and says
    exactly what is wrong: [Truncated] iff the length is not 188, [NoSyncByte]
    iff the length is 188 and the first byte is not 0x47, [BadAdaptationLength]
    iff those pass, an adaptation field is signalled and its length exceeds 183;
    in every other case it returns a packet. *)
Theorem parse_ts_packet_errors (buf : list Z) :
  bytes buf ->
  no_panic (parse_ts_packet buf) /\
  (parse_ts_packet buf = Err Truncated <-> zlen buf <> 188) /\
  (parse_ts_packet buf = Err NoSyncByte <-> zlen buf = 188 /\ get buf 0 <> Some 0x47) /\
  (parse_ts_packet buf = Err BadAdaptationLength <-> zlen buf = 188 /\ get buf 0 = Some 0x47 /\ af_too_long buf).
Proof.
  intros Hb. unfold parse_ts_packet. change TS_PACKET_SIZE with 188.
  destruct (zlen buf =? 188) eqn:Hlen; b2p; rb; [|iff_err].
  destruct (idx_ok (E:=TsParseError) buf 0) as (b0 & Hg0 & ->); [lia|]. rb.
  change TS_SYNC_BYTE with 0x47. rewrite Hg0.
  destruct (b0 =? 0x47) eqn:Hs; b2p; rb; [|iff_err].
  destruct (idx_ok (E:=TsParseError) buf 1) as (b1 & _ & ->); [lia|].
  destruct (idx_ok (E:=TsParseError) buf 2) as (b2 & _ & ->); [lia|].
  destruct (idx_ok (E:=TsParseError) buf 3) as (b3 & Hg3 & ->); [lia|]. rb.
  destruct (nz (Z.land (Z.land (Z.shiftr b3 4) 3) 2)) eqn:Haf.
  - destruct (parse_af_total buf (Z.land (Z.shiftr b3 4) 3)
      (if Z.land (Z.shiftr b3 4) 3 =? 0 then Some ReservedControl else None) Hlen Hb)
      as [(l & Hg4 & Hl & ->)|(l & r & Hg4 & Hl & -> & Hoff)]; rb.
    + assert (af_too_long buf) by (unfold af_too_long; eauto 8). iff_err.
    + assert (~ af_too_long buf) by (intros (? & l' & ? & ? & ? & ?); assert (l' = l) by congruence; lia).
      rewrite Hoff. ifs; b2p; [rewrite slice_ok by lia|]; rb; iff_err.
  - assert (~ af_too_long buf) by (intros (b3' & ? & ? & ? & ?); assert (b3' = b3) by congruence; congruence).
    rb. cbn [af_payload_off]. ifs; [rewrite slice_ok by lia|]; rb; iff_err.
Qed.

Lemma parse_ts_packet_errors_witness :
  bytes (zrep 188 0) /\ parse_ts_packet (zrep 188 0) = Err NoSyncByte.
Proof.
  assert (H : bytes (zrep 188 0)) by (apply bytes_rep; unfold byte; lia).
  split; [exact H|]. apply (parse_ts_packet_errors (zrep 188 0) H).
  split; [vm_compute; reflexivity|]. vm_compute. discriminate.
Defined.

(** ** Interleaved counters *)

(** The counters a sequence of payload packets on the given PIDs carries. *)
Fixpoint run_next {E} (c : ContinuityCounters) (pids : list Z) : res E (list Z) :=
  match pids with
  | [] => Ok []
  | p :: pids =>
      let! (cc, c) := next c p in
      let! ccs := run_next c pids in
      Ok (cc :: ccs)
  end.

Definition occurrences (p : Z) (pids : list Z) : Z :=
  Z.of_nat (length (filter (fun q => q = p) pids)).

Lemma run_next_spec {E} pids c : counters_ok c -> Forall (fun p => 0 <= p <= 0x1FFF) pids ->
  exists ccs, run_next (E:=E) c pids = Ok ccs /\ length ccs = length pids /\
    forall i p, pids !! i = Some p ->
      ccs !! i = Some ((cc_of c p + occurrences p (take i pids)) mod 16).
Proof.
  intros Hc Hp. revert c Hc. induction Hp as [|p pids Hp Hps IH]; intros c Hc.
  { exists []. split_and!; try done. }
  destruct (next_ok (E:=E) c p Hc Hp) as (c' & Hn & Hc' & Hcc & Hother).
  destruct (IH c' Hc') as (ccs & Hr & Hlen & Hspec).
  exists (cc_of c p :: ccs). simpl. rewrite Hn. rb. rewrite Hr. rb.
  split_and!; [done|simpl; lia|]. intros [|i] q Hq; simpl in *.
  - injection Hq as <-. f_equal. unfold occurrences. simpl.
    destruct (cc_of_range c p Hc Hp). rewrite Z.add_0_r. symmetry. by apply Z.mod_small.
  - rewrite (Hspec i q Hq). f_equal. unfold occurrences. rewrite filter_cons.
    assert (0 <= q <= 0x1FFF) by (by apply (Forall_lookup_1 _ _ i q Hps)).
    case_decide as Hpq.
    + subst. rewrite Hcc. simpl length. rewrite Nat2Z.inj_succ. dlia.
    + by rewrite Hother by lia.
Qed.

(** For any interleaving of payload packets on any PIDs, starting from
    fresh counters, no step panics and the i-th packet carries the number of
    earlier packets on its own PID modulo 16, so per-PID continuity is exact
    whatever the interleaving. *)
Theorem continuity_counters_interleaved (pids : list Z) :
  Forall (fun p => 0 <= p <= 0x1FFF) pids ->
  exists ccs, run_next (E:=Empty_set) new pids = Ok ccs /\ length ccs = length pids /\
    forall i p, pids !! i = Some p -> ccs !! i = Some (occurrences p (take i pids) mod 16).
Proof.
  intros Hp. destruct (run_next_spec (E:=Empty_set) pids new new_ok Hp) as (ccs & Hr & Hl & Hs).
  exists ccs. split_and!; [done..|]. intros i p Hi. rewrite (Hs i p Hi).
  assert (0 <= p <= 0x1FFF) by (by apply (Forall_lookup_1 _ _ i p Hp)).
  unfold cc_of, new; cbn [counters]. by rewrite get_zrep by lia.
Qed.

Lemma continuity_counters_interleaved_witness :
  exists ccs, run_next (E:=Empty_set) new [0x100; 0x101; 0x100; 0x100; 0x101] = Ok ccs /\
    length ccs = 5%nat.
Proof.
  destruct (continuity_counters_interleaved [0x100; 0x101; 0x100; 0x100; 0x101]) as (ccs & H & Hl & _).
  { repeat constructor; lia. }
  exists ccs. split; [exact H|exact Hl].
Defined.

End TsTheorems.
