(* ===== verification/PesWriter.v ===== *)
(** PES headers and packets as the muxer writes them
    ([crates/tst-core/src/mpegts/mux/pes.rs]): the 33-bit timestamp field, the
    general header, and the audio and subtitle envelopes. *)
From Stdlib Require Import ZArith Lia Bool.
From stdpp Require Import base list list_numbers.
From S2P Require Import Prelude Common.

Module PesWriter.
Import Common.

Definition STREAM_ID_VIDEO : Z := 0xE0.
Definition STREAM_ID_KLV : Z := 0xFC.
Definition STREAM_ID_AUDIO_BASE : Z := 0xC0.
Definition STREAM_ID_PRIVATE_STREAM_1 : Z := 0xBD.
Definition MAX_PES_HEADER_SIZE : Z := 19.

Inductive PesPtsField : Type :=
| PtsNone
| PtsOnly (pts : Z)
| PtsAndDts (pts dts : Z).

Record PesFlags : Type := { data_alignment_indicator : bool }.

Inductive AudioCodec : Type := Mp2 | Aac | AacLatm | Ac3.
Inductive SubtitlePesShape : Type := DvbSub | DvbTeletext | Passthrough.

#[global] Instance AudioCodec_eq_dec : EqDecision AudioCodec.
Proof. solve_decision. Defined.

(** [write_pts] stores into the window [out]. *)
Definition write_pts {E} (out : list Z) (pts marker_high : Z) : res E (list Z) :=
  assert! 5 <=? zlen out in
  let v := masked_33bit pts in
  let! out := put out 0 [Z.lor (Z.lor (as_u8 (Z.shiftl marker_high 4))
                                      (as_u8 (Z.shiftl (Z.land (Z.shiftr v 30) 0x07) 1))) 0x01] in
  let! out := put out 1 [as_u8 (Z.land (Z.shiftr v 22) 0xFF)] in
  let! out := put out 2 [Z.lor (as_u8 (Z.shiftl (Z.land (Z.shiftr v 15) 0x7F) 1)) 0x01] in
  let! out := put out 3 [as_u8 (Z.land (Z.shiftr v 7) 0xFF)] in
  put out 4 [Z.lor (as_u8 (Z.shiftl (Z.land v 0x7F) 1)) 0x01].

(** A call [write_pts(&mut out[i..i + 5], ...)]. *)
Definition write_pts_at {E} (out : list Z) (i pts marker_high : Z) : res E (list Z) :=
  let! window := slice out i (i + 5) in
  let! window := write_pts window pts marker_high in
  put out i window.

Definition pts_flags (f : PesPtsField) : Z * Z :=
  match f with
  | PtsNone => (0, 0)
  | PtsOnly _ => (2, 5)
  | PtsAndDts _ _ => (3, 10)
  end.

Definition write_pes_header {E} (out : list Z) (stream_id : Z) (pts_field : PesPtsField)
    (payload_length : option Z) (flags : PesFlags) : res E (list Z * Z) :=
  assert! MAX_PES_HEADER_SIZE <=? zlen out in
  let (pts_dts_flags, pts_size) := pts_flags pts_field in
  let header_data_length := pts_size in
  let! pes_packet_length :=
    match payload_length with
    | None => Ok 0
    | Some n => let! h := chk_u16 (3 + header_data_length) in chk_u16 (h + n)
    end in
  let! out := put out 0 [0x00] in
  let! out := put out 1 [0x00] in
  let! out := put out 2 [0x01] in
  let! out := put out 3 [stream_id] in
  let! out := put out 4 [as_u8 (Z.shiftr pes_packet_length 8)] in
  let! out := put out 5 [as_u8 (Z.land pes_packet_length 0xFF)] in
  let flags1 := if data_alignment_indicator flags then Z.lor 0x80 0x04 else 0x80 in
  let! out := put out 6 [flags1] in
  let! out := put out 7 [as_u8 (Z.shiftl pts_dts_flags 6)] in
  let! out := put out 8 [header_data_length] in
  match pts_field with
  | PtsNone => Ok (out, 9)
  | PtsOnly pts => let! out := write_pts_at out 9 pts 2 in Ok (out, 14)
  | PtsAndDts pts dts =>
      let! out := write_pts_at out 9 pts 3 in
      let! out := write_pts_at out 14 dts 1 in
      Ok (out, 19)
  end.

(** [out.extend_from_slice(&header[..header_len])] after a header was written
    into a fresh [MAX_PES_HEADER_SIZE] array. *)
Definition append_header {E} (out : list Z) (stream_id : Z) (pts_field : PesPtsField)
    (payload_length : option Z) (flags : PesFlags) : res E (list Z) :=
  let! (header, header_len) :=
    write_pes_header (zrep MAX_PES_HEADER_SIZE 0) stream_id pts_field payload_length flags in
  let! h := slice header 0 header_len in
  Ok (out ++ h).

Definition audio_stream_id {E} (codec : AudioCodec) (within_program_index : Z) : res E Z :=
  match codec with
  | Ac3 => Ok STREAM_ID_PRIVATE_STREAM_1
  | Mp2 | Aac | AacLatm => chk_u8 (STREAM_ID_AUDIO_BASE + within_program_index)
  end.

Definition write_audio_pes {E} (out : list Z) (codec : AudioCodec) (within_program_index : Z)
    (pts : PesPtsField) (frames : list Z) : res E (list Z) :=
  assert! within_program_index <? 16 in
  let! stream_id := audio_stream_id codec within_program_index in
  let flags := {| data_alignment_indicator := match codec with Ac3 => true | _ => false end |} in
  let! out := append_header out stream_id pts (Some (as_u16 (zlen frames))) flags in
  Ok (out ++ frames).

Definition wrap_dvb_sub_pes_data_field (segments : list Z) : list Z :=
  [0x20; 0x00] ++ segments ++ [0xFF].

Definition write_subtitle_pes_passthrough {E} (out : list Z) (pts_90khz : Z) (payload : list Z)
    : res E (list Z) :=
  let! out := append_header out STREAM_ID_PRIVATE_STREAM_1 (PtsOnly pts_90khz)
                (Some (as_u16 (zlen payload))) {| data_alignment_indicator := true |} in
  Ok (out ++ payload).

(** ** DVB teletext *)

Definition HEADER_TOTAL : Z := 45.
Definition TS_PAYLOAD_PER_PKT : Z := 184.

Definition div_ceil (a b : Z) : Z := (a + (b - 1)) / b.

Definition dvb_teletext_total_pes_bytes (payload_len : Z) (auto_prepend : bool) : option Z :=
  let auto_id_byte := b2z auto_prepend in
  let useful := HEADER_TOTAL + auto_id_byte + payload_len in
  let n := Z.max (div_ceil useful TS_PAYLOAD_PER_PKT) 1 in
  let total_pes_bytes := n * TS_PAYLOAD_PER_PKT in
  if (total_pes_bytes <? 6) || (u16_max <? total_pes_bytes - 6) then None
  else Some total_pes_bytes.

Definition dvb_teletext_will_auto_prepend (payload : list Z) : bool :=
  match payload with
  | b :: _ => negb ((0x10 <=? b) && (b <=? 0x1F))
  | [] => true
  end.

Definition STUFFING_DATA_UNIT : list Z := [0xFF; 0x2C] ++ zrep 44 0.

(** The [while out.len() + 46 <= total] loop; each turn adds 46 bytes, so
    [total] turns are more than enough. *)
Fixpoint stuff_units (fuel : nat) (out : list Z) (total : Z) : list Z :=
  match fuel with
  | O => out
  | S fuel =>
      if zlen out + zlen STUFFING_DATA_UNIT <=? total
      then stuff_units fuel (out ++ STUFFING_DATA_UNIT) total
      else out
  end.

(** [out.resize(n, x)] *)
Definition resize (out : list Z) (n x : Z) : list Z :=
  if n <=? zlen out then ztake n out else out ++ zrep (n - zlen out) x.

Definition stuff_tail {E} (out : list Z) (total_pes_bytes : Z) : res E (list Z) :=
  let out := stuff_units (Z.to_nat total_pes_bytes) out total_pes_bytes in
  let! remaining := usub total_pes_bytes (zlen out) in
  let out :=
    if 0 <? remaining then
      if 2 <=? remaining then
        let out := out ++ [0xFF; as_u8 (remaining - 2)] in
        resize out (zlen out + (remaining - 2)) 0x00
      else out ++ [0xFF]
    else out in
  assert! zlen out =? total_pes_bytes in Ok out.

Definition write_dvb_teletext_pes {E} (out : list Z) (pts_90khz : Z) (payload : list Z)
    : res E (list Z) :=
  let auto_prepend := dvb_teletext_will_auto_prepend payload in
  match dvb_teletext_total_pes_bytes (zlen payload) auto_prepend with
  | None => Panic
  | Some total_pes_bytes =>
      let! pes_packet_length := chk_u16 (total_pes_bytes - 6) in
      let out := out ++ [0x00; 0x00; 0x01] ++ [STREAM_ID_PRIVATE_STREAM_1]
                     ++ be16 pes_packet_length ++ [0x84] ++ [0x80] ++ [0x24] in
      let! pts_buf := write_pts (zrep 5 0) pts_90khz 2 in
      let out := out ++ pts_buf in
      assert! zlen out =? 14 in
      let out := resize out HEADER_TOTAL 0xFF in
      assert! zlen out =? HEADER_TOTAL in
      let out := if auto_prepend then out ++ [0x10] else out in
      let out := out ++ payload in
      stuff_tail out total_pes_bytes
  end.

Definition write_subtitle_pes {E} (out : list Z) (pts_90khz : Z) (codec : SubtitlePesShape)
    (payload : list Z) : res E (list Z) :=
  match codec with
  | DvbSub => write_subtitle_pes_passthrough out pts_90khz (wrap_dvb_sub_pes_data_field payload)
  | DvbTeletext => write_dvb_teletext_pes out pts_90khz payload
  | Passthrough => write_subtitle_pes_passthrough out pts_90khz payload
  end.

End PesWriter.

(** * Layout: what the writers produce, as expressions *)
Module PesLayout.
Import Common PesWriter.

Definition pts_bytes (pts marker_high : Z) : list Z :=
  let v := masked_33bit pts in
  [Z.lor (Z.lor (as_u8 (Z.shiftl marker_high 4))
                (as_u8 (Z.shiftl (Z.land (Z.shiftr v 30) 0x07) 1))) 0x01;
   as_u8 (Z.land (Z.shiftr v 22) 0xFF);
   Z.lor (as_u8 (Z.shiftl (Z.land (Z.shiftr v 15) 0x7F) 1)) 0x01;
   as_u8 (Z.land (Z.shiftr v 7) 0xFF);
   Z.lor (as_u8 (Z.shiftl (Z.land v 0x7F) 1)) 0x01].

Definition pts_field_bytes (f : PesPtsField) : list Z :=
  match f with
  | PtsNone => []
  | PtsOnly pts => pts_bytes pts 2
  | PtsAndDts pts dts => pts_bytes pts 3 ++ pts_bytes dts 1
  end.

(** [PES_packet_length] for a payload of [n] bytes ([None]: unbounded). *)
Definition packet_length (f : PesPtsField) (n : option Z) : Z :=
  match n with None => 0 | Some n => 3 + snd (pts_flags f) + n end.

Definition pes_header (stream_id : Z) (f : PesPtsField) (n : option Z) (flags : PesFlags) : list Z :=
  [0; 0; 1; stream_id;
   as_u8 (Z.shiftr (packet_length f n) 8); as_u8 (Z.land (packet_length f n) 0xFF);
   if data_alignment_indicator flags then Z.lor 0x80 0x04 else 0x80;
   as_u8 (Z.shiftl (fst (pts_flags f)) 6); snd (pts_flags f)] ++ pts_field_bytes f.

Lemma zlen_pts_bytes pts m : zlen (pts_bytes pts m) = 5.
Proof. reflexivity. Qed.
#[export] Hint Rewrite zlen_pts_bytes : zlr.

Lemma zlen_pts_field f : zlen (pts_field_bytes f) = snd (pts_flags f).
Proof. by destruct f. Qed.

Lemma zlen_pes_header sid f n flags : zlen (pes_header sid f n flags) = 9 + snd (pts_flags f).
Proof. unfold pes_header. rewrite zlen_app, zlen_pts_field. done. Qed.

Lemma pts_size_range f : 0 <= snd (pts_flags f) <= 10.
Proof. destruct f; simpl; lia. Qed.

Lemma write_pts_ok {E} out pts m : zlen out = 5 -> write_pts (E:=E) out pts m = Ok (pts_bytes pts m).
Proof.
  intros Hl. destruct out as [|o0 [|o1 [|o2 [|o3 [|o4 [|]]]]]];
    try (exfalso; revert Hl; rewrite ?zlen_cons, ?zlen_nil; zlia).
  reflexivity.
Qed.

(** Writing a timestamp at the cursor of a buffer. *)
Lemma write_pts_at_step {E} l k i pts m : i = zlen l -> 5 <= zlen k ->
  exists k', write_pts_at (E:=E) (l ++ k) i pts m = Ok ((l ++ pts_bytes pts m) ++ k') /\
             zlen k' = zlen k - 5.
Proof.
  intros -> Hk. unfold write_pts_at.
  rewrite slice_ok by zlia. rb. rewrite zdrop_app.
  replace (zlen l + 5 - zlen l) with 5 by lia.
  rewrite write_pts_ok by (rewrite zlen_ztake; lia). rb.
  destruct (put_step (E:=E) l k (pts_bytes pts m) (zlen l)) as (k' & -> & Hk');
    [done|by change (zlen (pts_bytes pts m)) with 5|].
  exists k'. by rewrite Hk'.
Qed.

Definition length_ok (f : PesPtsField) (n : option Z) : Prop :=
  match n with None => True | Some n => 0 <= n /\ 3 + snd (pts_flags f) + n <= 65535 end.

Lemma packet_length_ok {E} f n : length_ok f n ->
  match n with
  | None => Ok 0
  | Some n => let! h := chk_u16 (3 + snd (pts_flags f)) in chk_u16 (E:=E) (h + n)
  end = Ok (packet_length f n) /\ 0 <= packet_length f n <= 65535.
Proof.
  pose proof (pts_size_range f). destruct n as [n|]; [|done].
  intros [Hn Hl]. unfold chk_u16, checked, packet_length.
  rewrite (proj2 (Z.leb_le _ _)), (proj2 (Z.ltb_lt _ _)) by lia. rb.
  rewrite (proj2 (Z.leb_le _ _)), (proj2 (Z.ltb_lt _ _)) by lia. split; [done|lia].
Qed.

Lemma write_pes_header_ok {E} out sid f n flags : zlen out = 19 -> length_ok f n ->
  exists k, write_pes_header (E:=E) out sid f n flags
            = Ok (pes_header sid f n flags ++ k, 9 + snd (pts_flags f)).
Proof.
  intros Hl Hn. destruct (packet_length_ok (E:=E) f n Hn) as [Hp _].
  unfold write_pes_header. change MAX_PES_HEADER_SIZE with 19.
  rewrite (proj2 (Z.leb_le _ _)) by lia.
  destruct (pts_flags f) as [fl sz] eqn:Hf. cbn [snd] in Hp. rewrite Hp. rb.
  change out with ([] ++ out). do 9 put_next.
  unfold pes_header. rewrite Hf. cbn [fst snd].
  destruct f as [|p|p d]; injection Hf as <- <-.
  - eexists. reflexivity.
  - match goal with |- context [write_pts_at (?w ++ ?k) 9 p 2] =>
      destruct (write_pts_at_step (E:=E) w k 9 p 2) as (k' & -> & Hk'); [done|lia|] end.
    rb. eexists. reflexivity.
  - match goal with |- context [write_pts_at (?w ++ ?k) 9 p 3] =>
      destruct (write_pts_at_step (E:=E) w k 9 p 3) as (k' & -> & Hk'); [done|lia|] end.
    rb.
    match goal with |- context [write_pts_at (?w ++ ?k) 14 d 1] =>
      destruct (write_pts_at_step (E:=E) w k 14 d 1) as (k'' & -> & Hk''); [done|lia|] end.
    rb. eexists. reflexivity.
Qed.

Lemma append_header_ok {E} out sid f n flags : length_ok f n ->
  append_header (E:=E) out sid f n flags = Ok (out ++ pes_header sid f n flags).
Proof.
  intros Hn. unfold append_header.
  destruct (write_pes_header_ok (E:=E) (zrep MAX_PES_HEADER_SIZE 0) sid f n flags) as (k & ->);
    [done|done|]. rb.
  change (pes_header sid f n flags ++ k) with ([] ++ pes_header sid f n flags ++ k).
  rewrite slice_app; [done|done|]. by rewrite zlen_pes_header.
Qed.

End PesLayout.

(** * DVB teletext packets *)
Module Teletext.
Import Common PesWriter PesLayout.

(** [r] bytes of tail stuffing. *)
Definition partial_unit (k : Z) : list Z :=
  if k =? 0 then [] else if k =? 1 then [0xFF] else [0xFF; k - 2] ++ zrep (k - 2) 0.

Fixpoint units (n : nat) : list Z :=
  match n with O => [] | S n => STUFFING_DATA_UNIT ++ units n end.

Definition tail (r : Z) : list Z := units (Z.to_nat (r / 46)) ++ partial_unit (r mod 46).

Lemma zlen_unit : zlen STUFFING_DATA_UNIT = 46.
Proof. reflexivity. Qed.

Lemma zlen_units n : zlen (units n) = 46 * Z.of_nat n.
Proof. induction n; [done|]. cbn [units]. rewrite zlen_app, zlen_unit, IHn. lia. Qed.

Lemma units_snoc n : STUFFING_DATA_UNIT ++ units n = units n ++ STUFFING_DATA_UNIT.
Proof.
  induction n; [by rewrite app_nil_r|]. cbn [units]. by rewrite IHn at 1; rewrite app_assoc, IHn.
Qed.

Lemma zlen_partial k : 0 <= k -> zlen (partial_unit k) = k.
Proof. intros. unfold partial_unit. repeat ifs; b2p; subst; try done. zlia. Qed.

Lemma zlen_tail r : 0 <= r -> zlen (tail r) = r.
Proof.
  intros. unfold tail. rewrite zlen_app, zlen_units, zlen_partial by (apply Z.mod_pos_bound; lia).
  rewrite Z2Nat.id by (apply Z.div_pos; lia). dlia.
Qed.

Lemma stuff_units_ok fuel out total : zlen out <= total -> total - zlen out <= 46 * Z.of_nat fuel ->
  stuff_units fuel out total = out ++ units (Z.to_nat ((total - zlen out) / 46)).
Proof.
  revert out. induction fuel as [|fuel IH]; intros out Hle Hf.
  { replace (total - zlen out) with 0 by lia. cbn. by rewrite app_nil_r. }
  cbn [stuff_units]. rewrite zlen_unit. ifs; b2p.
  - rewrite IH by (rewrite zlen_app, zlen_unit; lia).
    rewrite zlen_app, zlen_unit, <- app_assoc. f_equal.
    replace (total - (zlen out + 46)) with (total - zlen out + (-1) * 46) by lia.
    rewrite Z.div_add by lia.
    replace (Z.to_nat ((total - zlen out) / 46)) with (S (Z.to_nat ((total - zlen out) / 46 + -1))).
    { done. }
    assert (1 <= (total - zlen out) / 46) by (apply Z.div_le_lower_bound; lia). lia.
  - rewrite Z.div_small by lia. cbn. by rewrite app_nil_r.
Qed.

Lemma resize_grow l k x : 0 <= k -> resize l (zlen l + k) x = l ++ zrep k x.
Proof.
  intros. unfold resize. ifs; b2p.
  - assert (k = 0) as -> by lia. rewrite Z.add_0_r, ztake_all by lia. by rewrite app_nil_r.
  - do 2 f_equal. lia.
Qed.

Lemma stuff_tail_ok {E} out total : zlen out <= total ->
  stuff_tail (E:=E) out total = Ok (out ++ tail (total - zlen out)).
Proof.
  intros Hle. unfold stuff_tail. cbv zeta. rewrite stuff_units_ok by zlia.
  set (r := total - zlen out). assert (Hr : 0 <= r) by (unfold r; lia).
  set (o := out ++ _). assert (Ho : zlen o = zlen out + 46 * (r / 46)).
  { unfold o. rewrite zlen_app, zlen_units, Z2Nat.id; [done|apply Z.div_pos; lia]. }
  unfold usub. rewrite Ho.
  replace (total - (zlen out + 46 * (r / 46))) with (r mod 46) by (unfold r in *; dlia).
  rewrite (proj2 (Z.leb_le _ _)) by (unfold r in *; dlia). rb.
  pose proof (Z.mod_pos_bound r 46 ltac:(lia)).
  assert (Hres : (if 0 <? r mod 46 then
      if 2 <=? r mod 46 then
        resize (o ++ [0xFF; as_u8 (r mod 46 - 2)]) (zlen (o ++ [0xFF; as_u8 (r mod 46 - 2)]) + (r mod 46 - 2)) 0
      else o ++ [0xFF]
    else o) = out ++ tail r).
  { unfold tail. rewrite app_assoc. fold o. unfold partial_unit, as_u8.
    repeat ifs; b2p; try lia; try done; [|by rewrite app_nil_r].
    rewrite (Z.mod_small (r mod 46 - 2) 256) by lia.
    rewrite (resize_grow (o ++ _)) by lia. by rewrite <- app_assoc. }
  rewrite Hres, zlen_app, zlen_tail by done.
  rewrite (proj2 (Z.eqb_eq _ _)) by (unfold r; lia). done.
Qed.

(** A run of data units: identifier, length, and that many bytes. *)
Inductive stuffing_units : list Z -> Prop :=
| stuffing_nil : stuffing_units []
| stuffing_cons n l : 0 <= n <= 44 -> stuffing_units l ->
    stuffing_units ([0xFF; n] ++ zrep n 0 ++ l).

Lemma units_stuffing n l : stuffing_units l -> stuffing_units (units n ++ l).
Proof.
  intros Hl. induction n as [|n IH]; [done|]. cbn [units]. unfold STUFFING_DATA_UNIT.
  rewrite <- !app_assoc. apply stuffing_cons; [lia|done].
Qed.

Lemma stuffing_units_not_1 : ~ stuffing_units [0xFF].
Proof. inversion 1. Qed.

Lemma stuffing_cons_inv m k : stuffing_units (0xFF :: m :: k) ->
  exists l, k = zrep m 0 ++ l /\ stuffing_units l.
Proof.
  remember (0xFF :: m :: k) as w eqn:Hw. destruct 1 as [|n l Hn Hl]; [done|].
  injection Hw as -> <-. eauto.
Qed.

Lemma stuffing_units_inv n l : stuffing_units (units n ++ l) -> stuffing_units l.
Proof.
  induction n as [|n IH]; [done|]. cbn [units]. unfold STUFFING_DATA_UNIT. rewrite <- !app_assoc.
  intros (l' & Heq & Hl')%stuffing_cons_inv. apply IH. by apply app_inv_head in Heq as ->.
Qed.

Lemma tail_stuffing r : 0 <= r -> (stuffing_units (tail r) <-> r mod 46 <> 1).
Proof.
  intros Hr. pose proof (Z.mod_pos_bound r 46 ltac:(lia)). unfold tail, partial_unit.
  repeat ifs; b2p.
  - split; [lia|]. intros _. apply units_stuffing. constructor.
  - split; [|lia]. intros Hu%stuffing_units_inv. by apply stuffing_units_not_1 in Hu.
  - split; [lia|]. intros _. apply units_stuffing.
    rewrite <- (app_nil_r (zrep _ 0)). apply stuffing_cons; [lia|constructor].
Qed.

Definition id_bytes (payload : list Z) : list Z :=
  if dvb_teletext_will_auto_prepend payload then [0x10] else [].

Definition teletext_header (pts total : Z) : list Z :=
  [0x00; 0x00; 0x01; STREAM_ID_PRIVATE_STREAM_1] ++ be16 (total - 6) ++ [0x84; 0x80; 0x24]
  ++ pts_bytes pts 2 ++ zrep 31 0xFF.

Lemma zlen_teletext_header pts total : zlen (teletext_header pts total) = 45.
Proof. reflexivity. Qed.

Lemma zlen_id_bytes payload : zlen (id_bytes payload) = b2z (dvb_teletext_will_auto_prepend payload).
Proof. unfold id_bytes. by destruct (dvb_teletext_will_auto_prepend payload). Qed.

Lemma total_spec n ap total : 0 <= n -> dvb_teletext_total_pes_bytes n ap = Some total ->
  total mod 184 = 0 /\ total - 184 < 45 + b2z ap + n <= total /\ 184 <= total <= 65541.
Proof.
  intros Hn. unfold dvb_teletext_total_pes_bytes, div_ceil, HEADER_TOTAL, TS_PAYLOAD_PER_PKT, u16_max.
  assert (0 <= b2z ap <= 1) by (destruct ap; simpl; lia).
  ifs; [done|]. b2p. intros [= <-].
  rewrite Z.max_l in * by (apply Z.div_le_lower_bound; lia).
  rewrite Z.mod_mul by lia. dlia.
Qed.

Lemma total_none n ap : 0 <= n -> dvb_teletext_total_pes_bytes n ap = None <-> 65504 < 45 + b2z ap + n.
Proof.
  intros Hn. unfold dvb_teletext_total_pes_bytes, div_ceil, HEADER_TOTAL, TS_PAYLOAD_PER_PKT, u16_max.
  assert (0 <= b2z ap <= 1) by (destruct ap; simpl; lia).
  rewrite Z.max_l by (apply Z.div_le_lower_bound; lia).
  ifs; b2p; (split; [intros|]; try done; dlia).
Qed.

Lemma write_teletext_ok {E} pts payload total :
  dvb_teletext_total_pes_bytes (zlen payload) (dvb_teletext_will_auto_prepend payload) = Some total ->
  write_dvb_teletext_pes (E:=E) [] pts payload
  = Ok (teletext_header pts total ++ id_bytes payload ++ payload ++
        tail (total - 45 - zlen (id_bytes payload) - zlen payload)).
Proof.
  intros Ht. destruct (total_spec _ _ _ (zlen_nonneg _) Ht) as (Hm & Hb & Hr).
  unfold write_dvb_teletext_pes. rewrite Ht. unfold chk_u16, checked.
  rewrite (proj2 (Z.leb_le _ _)), (proj2 (Z.ltb_lt _ _)) by lia. rb.
  rewrite write_pts_ok by done. rb. change (zlen (_ ++ pts_bytes pts 2) =? 14) with true. cbn match.
  change (resize (_ ++ pts_bytes pts 2) HEADER_TOTAL 0xFF) with (teletext_header pts total).
  rewrite zlen_teletext_header. change (45 =? HEADER_TOTAL) with true. cbn match.
  replace (if dvb_teletext_will_auto_prepend payload then teletext_header pts total ++ [0x10]
           else teletext_header pts total) with (teletext_header pts total ++ id_bytes payload)
    by (unfold id_bytes; destruct (dvb_teletext_will_auto_prepend payload); by rewrite ?app_nil_r).
  rewrite stuff_tail_ok by (rewrite !zlen_app, zlen_teletext_header, zlen_id_bytes; lia).
  rewrite <- !app_assoc. do 5 f_equal. rewrite !zlen_app, zlen_teletext_header. lia.
Qed.

End Teletext.
