(* ===== verification/PesDemux.v ===== *)
(** PES reassembly on the demux side
    ([crates/tst-core/src/mpegts/demux/pes.rs]): the PES header parser, the
    per-PID reassembler with its caps and damage marks, and the properties of
    both, including that they invert the writers of [PesWriter]. *)
From Stdlib Require Import ZArith Lia Bool String.
From stdpp Require Import base list list_numbers gmap sorting strings.
From S2P Require Import Prelude Common PesWriter.

(** * Parser *)
Module PesParse.
Import Common.

Inductive DemuxError : Type :=
| Unrecoverable (after_bytes : Z)
| StrictRejection (why : string)
| MalformedPes (pid : Z) (reason : string)
| SyncBufExhausted (observed max : Z).

Inductive PesHeaderMalformedKind : Type :=
| ForbiddenPtsDtsFlags | InvalidMarkerBits | InvalidPtsPrefix | InvalidDtsPrefix
| InvalidPtsDtsMarkerBits | HeaderDataLengthTooShort.

#[global] Instance PesHeaderMalformedKind_eq_dec : EqDecision PesHeaderMalformedKind.
Proof. solve_decision. Defined.

Record PesPayload : Type := {
  pid : Z;
  stream_id : Z;
  pts : option Z;
  dts : option Z;
  random_access_indicator : bool;
  data_alignment_indicator : bool;
  header_issues : list PesHeaderMalformedKind;
  payload : list Z
}.

Definition decode_pts_dts {E} (b : list Z) : res E Z :=
  let! b0 := idx b 0 in
  let! b1 := idx b 1 in
  let! b2 := idx b 2 in
  let! b3 := idx b 3 in
  let! b4 := idx b 4 in
  let p32_30 := Z.land (Z.shiftr b0 1) 0x07 in
  let p29_15 := Z.land (Z.lor (Z.shiftl b1 7) (Z.shiftr b2 1)) 0x7FFF in
  let p14_0 := Z.land (Z.lor (Z.shiftl b3 7) (Z.shiftr b4 1)) 0x7FFF in
  Ok (as_i64 (Z.lor (Z.lor (Z.shiftl p32_30 30) (Z.shiftl p29_15 15)) p14_0)).

Definition pts_dts_marker_bits_ok {E} (b : list Z) : res E bool :=
  let! b0 := idx b 0 in
  let! b2 := idx b 2 in
  let! b4 := idx b 4 in
  Ok ((Z.land b0 0x01 =? 1) && (Z.land b2 0x01 =? 1) && (Z.land b4 0x01 =? 1)).

Definition has_optional_header (stream_id : Z) : bool :=
  (0xBD <=? stream_id) && (stream_id <=? 0xFE)
  && negb ((stream_id =? 0xBE) || (stream_id =? 0xBF) || (stream_id =? 0xF0)
           || (stream_id =? 0xF1) || (stream_id =? 0xF2) || (stream_id =? 0xF8)).

(** [header_issues.push(k)] under a condition. *)
Definition issue_if (b : bool) (k : PesHeaderMalformedKind) (l : list PesHeaderMalformedKind)
    : list PesHeaderMalformedKind := if b then l ++ [k] else l.

(** One timestamp field: its prefix and marker checks and its value. The
    source writes this out twice, for the PTS at offset 9 and the DTS at 14. *)
Definition parse_timestamp {E} (buf : list Z) (off expected_prefix : Z)
    (bad_prefix : PesHeaderMalformedKind) (issues : list PesHeaderMalformedKind)
    : res E (Z * list PesHeaderMalformedKind) :=
  let! b := idx buf off in
  let prefix := Z.land (Z.shiftr b 4) 0x0F in
  let issues := issue_if (negb (prefix =? expected_prefix)) bad_prefix issues in
  let! field := slice buf off (off + 5) in
  let! ok := pts_dts_marker_bits_ok field in
  let issues := issue_if (negb ok) InvalidPtsDtsMarkerBits issues in
  let! v := decode_pts_dts field in
  Ok (v, issues).

(** What the [if has_optional_header] block leaves in the mutable locals. *)
Record OptHeader : Type := {
  oh_body_off : Z; oh_pts : option Z; oh_dts : option Z; oh_align : bool;
  oh_issues : list PesHeaderMalformedKind
}.

Definition parse_optional_header (pid : Z) (buf : list Z) : res DemuxError OptHeader :=
  if zlen buf <? 9 then Err (MalformedPes pid "PES too short for optional header")
  else
  let! b6 := idx buf 6 in
  let marker_bits := Z.land (Z.shiftr b6 6) 0x03 in
  let issues := issue_if (negb (marker_bits =? 2)) InvalidMarkerBits [] in
  let align := nz (Z.land b6 0x04) in
  let! b7 := idx buf 7 in
  let pts_dts_flags := Z.land (Z.shiftr b7 6) 0x03 in
  let issues := issue_if (pts_dts_flags =? 1) ForbiddenPtsDtsFlags issues in
  let! header_data_length := idx buf 8 in
  let body_off := 9 + header_data_length in
  if zlen buf <? body_off
  then Err (MalformedPes pid "PES too short for declared header_data_length")
  else
  let needed := if pts_dts_flags =? 2 then 5 else if pts_dts_flags =? 3 then 10 else 0 in
  let issues := issue_if (header_data_length <? needed) HeaderDataLengthTooShort issues in
  let! (pts, issues) :=
    if ((pts_dts_flags =? 2) || (pts_dts_flags =? 3)) && (5 <=? header_data_length) then
      if zlen buf <? 14 then Err (MalformedPes pid "PES too short for PTS")
      else
      let! (v, issues) := parse_timestamp buf 9 (if pts_dts_flags =? 3 then 3 else 2)
                            InvalidPtsPrefix issues in
      Ok (Some v, issues)
    else Ok (None, issues) in
  let! (dts, issues) :=
    if (pts_dts_flags =? 3) && (10 <=? header_data_length) then
      if zlen buf <? 19 then Err (MalformedPes pid "PES too short for DTS")
      else
      let! (v, issues) := parse_timestamp buf 14 1 InvalidDtsPrefix issues in
      Ok (Some v, issues)
    else Ok (None, issues) in
  Ok {| oh_body_off := body_off; oh_pts := pts; oh_dts := dts; oh_align := align;
        oh_issues := issues |}.

Definition parse_complete (pid : Z) (buf : list Z) (random_access_indicator : bool)
    : res DemuxError (option PesPayload) :=
  if zlen buf <? 6 then Ok None
  else
  let! b0 := idx buf 0 in
  let! b1 := idx buf 1 in
  let! b2 := idx buf 2 in
  if negb (b0 =? 0) || negb (b1 =? 0) || negb (b2 =? 1)
  then Err (MalformedPes pid "missing 0x000001 PES start code prefix")
  else
  let! sid := idx buf 3 in
  let! oh :=
    if has_optional_header sid then parse_optional_header pid buf
    else Ok {| oh_body_off := 6; oh_pts := None; oh_dts := None; oh_align := false;
               oh_issues := [] |} in
  let! body := slice buf (oh_body_off oh) (zlen buf) in
  Ok (Some {| pid := pid; stream_id := sid; pts := oh_pts oh; dts := oh_dts oh;
              random_access_indicator := random_access_indicator;
              data_alignment_indicator := oh_align oh; header_issues := oh_issues oh;
              payload := body |}).

End PesParse.

(** * Reassembler *)
Module Reassembler.
Import PesParse.

Record Partial : Type := {
  declared_total_len : option Z;
  buf : list Z;
  rai : bool;
  damage : option string;
  gap_at : option Z
}.

Inductive ReassemblyOutcome : Type :=
| Complete (pes : PesPayload)
| Overflow (pid : Z)
| OverflowTotal
| ZeroLengthNonVideo (pid stream_id : Z)
| Malformed (pid : Z) (reason : string).

Definition DAMAGE_CC_GAP : string :=
  "continuity_counter gap inside the PES; payload bytes are missing".
Definition DAMAGE_SHORT_PES : string := "PES ended before PES_packet_length bytes arrived".

Definition is_damage_reason (reason : string) : bool :=
  String.eqb reason DAMAGE_CC_GAP || String.eqb reason DAMAGE_SHORT_PES.

Definition malformed (pid : Z) (e : DemuxError) : ReassemblyOutcome :=
  match e with
  | MalformedPes pid reason => Malformed pid reason
  | _ => Malformed pid "unparseable PES"
  end.

Record Reassembler : Type := {
  by_pid : gmap Z Partial;
  dropped_on_total : list Z;
  finished_gaps : list (Z * Z);
  total_buffered : Z;
  cap_per_pid : Z;
  cap_total : Z
}.

Definition new (cap_per_pid cap_total : Z) : Reassembler :=
  {| by_pid := ∅; dropped_on_total := []; finished_gaps := []; total_buffered := 0;
     cap_per_pid := cap_per_pid; cap_total := cap_total |}.

(** Field updates. *)
Definition set_parts (r : Reassembler) (m : gmap Z Partial) (total : Z) : Reassembler :=
  {| by_pid := m; dropped_on_total := dropped_on_total r; finished_gaps := finished_gaps r;
     total_buffered := total; cap_per_pid := cap_per_pid r; cap_total := cap_total r |}.
Definition set_gaps (r : Reassembler) (g : list (Z * Z)) : Reassembler :=
  {| by_pid := by_pid r; dropped_on_total := dropped_on_total r; finished_gaps := g;
     total_buffered := total_buffered r; cap_per_pid := cap_per_pid r; cap_total := cap_total r |}.
Definition set_dropped (r : Reassembler) (d : list Z) : Reassembler :=
  {| by_pid := by_pid r; dropped_on_total := d; finished_gaps := finished_gaps r;
     total_buffered := total_buffered r; cap_per_pid := cap_per_pid r; cap_total := cap_total r |}.

Definition sat_sub (a b : Z) : Z := Z.max 0 (a - b).

Definition is_none {A} (o : option A) : bool := match o with None => true | _ => false end.

Definition short_of_declared (p : Partial) : bool :=
  match declared_total_len p with Some total => zlen (buf p) <? total | None => false end.

Definition finish {E} (r : Reassembler) (pid : Z) (part : Partial) (out : list ReassemblyOutcome)
    : res E (Reassembler * list ReassemblyOutcome) :=
  let dmg := if is_none (damage part) && short_of_declared part
             then Some DAMAGE_SHORT_PES else damage part in
  match parse_complete pid (buf part) (rai part) with
  | Ok (Some pes) =>
      let out := match dmg with Some reason => out ++ [Malformed pid reason] | None => out end in
      let! r :=
        match gap_at part with
        | Some gap =>
            let! header_len := usub (zlen (buf part)) (zlen (payload pes)) in
            Ok (set_gaps r (finished_gaps r ++ [(pid, sat_sub gap header_len)]))
        | None => Ok r
        end in
      Ok (r, out ++ [Complete pes])
  | Ok None => Ok (r, out)
  | Err e => Ok (r, out ++ [malformed pid e])
  | Panic => Panic
  end.

Definition sorted_keys (m : gmap Z Partial) : list Z := merge_sort Z.le (map_to_list m).*1.

(** The length-driven completion at the end of [push_split]. *)
Definition complete_if_full {E} (r : Reassembler) (pid : Z) (part : Partial)
    (out : list ReassemblyOutcome) : res E (Reassembler * list ReassemblyOutcome) :=
  match declared_total_len part with
  | Some total =>
      if total <=? zlen (buf part) then
        let r := set_parts r (delete pid (by_pid r)) (sat_sub (total_buffered r) (zlen (buf part))) in
        let done := {| declared_total_len := Some total; buf := ztake total (buf part);
                       rai := rai part; damage := damage part; gap_at := gap_at part |} in
        finish r pid done out
      else Ok (r, out)
  | None => Ok (r, out)
  end.

(** Everything from the per-PID lookup on: caps, declared length, completion. *)
Definition append_payload {E} (r : Reassembler) (pid : Z) (payload : list Z) (is_video : bool)
    (out : list ReassemblyOutcome) : res E (Reassembler * list ReassemblyOutcome) :=
  match by_pid r !! pid with
  | None => Ok (r, out)
  | Some part =>
      if cap_per_pid r <? zlen (buf part) + zlen payload then
        Ok (set_parts r (delete pid (by_pid r)) (sat_sub (total_buffered r) (zlen (buf part))),
            out ++ [Overflow pid])
      else
      let part := {| declared_total_len := declared_total_len part; buf := buf part ++ payload;
                     rai := rai part; damage := damage part; gap_at := gap_at part |} in
      let r := set_parts r (<[pid := part]> (by_pid r)) (total_buffered r + zlen payload) in
      let! (part, zero) :=
        if is_none (declared_total_len part) && (6 <=? zlen (buf part)) then
          let! sid := idx (buf part) 3 in
          let! hi := idx (buf part) 4 in
          let! lo := idx (buf part) 5 in
          let pkt_len_field := from_be16 hi lo in
          if nz pkt_len_field then
            Ok ({| declared_total_len := Some (6 + pkt_len_field); buf := buf part;
                   rai := rai part; damage := damage part; gap_at := gap_at part |}, None)
          else if negb is_video then Ok (part, Some sid)
          else Ok (part, None)
        else Ok (part, None) in
      match zero with
      | Some sid =>
          Ok (set_parts r (delete pid (by_pid r)) (sat_sub (total_buffered r) (zlen (buf part))),
              out ++ [ZeroLengthNonVideo pid sid])
      | None =>
          let r := set_parts r (<[pid := part]> (by_pid r)) (total_buffered r) in
          if cap_total r <? total_buffered r then
            Ok (set_dropped (set_parts r ∅ 0) (sorted_keys (by_pid r)), out ++ [OverflowTotal])
          else complete_if_full r pid part out
      end
  end.

Definition push_split {E} (r : Reassembler) (pid : Z) (payload : list Z)
    (pusi random_access_indicator is_video : bool)
    : res E (Reassembler * (list ReassemblyOutcome * Z)) :=
  let r := set_gaps r [] in
  let! (r, (out, old_count)) :=
    if pusi then
      let fresh := {| declared_total_len := None; buf := []; rai := random_access_indicator;
                      damage := None; gap_at := None |} in
      let prev := by_pid r !! pid in
      let r := set_parts r (<[pid := fresh]> (by_pid r)) (total_buffered r) in
      match prev with
      | Some prev =>
          let r := set_parts r (by_pid r) (sat_sub (total_buffered r) (zlen (buf prev))) in
          let! (r, out) := finish r pid prev [] in
          Ok (r, (out, zlen out))
      | None => Ok (r, ([], 0))
      end
    else Ok (r, ([], 0)) in
  let! (r, out) := append_payload r pid payload is_video out in
  Ok (r, (out, old_count)).

Definition push {E} (r : Reassembler) (pid : Z) (payload : list Z)
    (pusi random_access_indicator is_video : bool)
    : res E (Reassembler * list ReassemblyOutcome) :=
  let! (r, (out, _)) := push_split r pid payload pusi random_access_indicator is_video in
  Ok (r, out).

Fixpoint finish_all {E} (r : Reassembler) (parts : list (Z * Partial))
    (out : list ReassemblyOutcome) : res E (Reassembler * list ReassemblyOutcome) :=
  match parts with
  | [] => Ok (r, out)
  | (pid, p) :: parts =>
      let! (r, out) := finish r pid p out in
      finish_all r parts out
  end.

(** The order [sort_unstable_by_key] uses on [(pid, partial)] pairs. *)
Definition by_key (a b : Z * Partial) : Prop := a.1 <= b.1.
#[global] Instance by_key_dec a b : Decision (by_key a b).
Proof. unfold by_key. apply _. Defined.

Definition drain_partial_outcomes {E} (r : Reassembler)
    : res E (Reassembler * list ReassemblyOutcome) :=
  let partials := merge_sort by_key (map_to_list (by_pid r)) in
  let r := set_gaps (set_parts r ∅ 0) [] in
  finish_all r partials [].

Definition completed (o : ReassemblyOutcome) : option PesPayload :=
  match o with Complete pes => Some pes | _ => None end.

Definition drain_partial {E} (r : Reassembler) : res E (Reassembler * list PesPayload) :=
  let! (r, out) := drain_partial_outcomes r in
  Ok (r, omap completed out).

Definition mark_damaged (r : Reassembler) (pid : Z) : Reassembler :=
  match by_pid r !! pid with
  | Some part =>
      if is_none (damage part) then
        let part := {| declared_total_len := declared_total_len part; buf := buf part;
                       rai := rai part; damage := Some DAMAGE_CC_GAP;
                       gap_at := Some (zlen (buf part)) |} in
        set_parts r (<[pid := part]> (by_pid r)) (total_buffered r)
      else r
  | None => r
  end.

(** [Vec::swap_remove] at an index known to be in range. *)
Definition swap_remove {A} (l : list A) (i : nat) : list A :=
  match last l with
  | Some x => if decide (S i = length l) then take i l else <[i := x]> (take (length l - 1) l)
  | None => l
  end.

Definition take_gap (r : Reassembler) (pid : Z) : option Z * Reassembler :=
  match list_find (fun g => g.1 = pid) (finished_gaps r) with
  | Some (i, g) => (Some g.2, set_gaps r (swap_remove (finished_gaps r) i))
  | None => (None, r)
  end.

Definition take_total_overflow_pids (r : Reassembler) : list Z * Reassembler :=
  (dropped_on_total r, set_dropped r []).

Definition remove_pid (r : Reassembler) (pid : Z) : Reassembler :=
  match by_pid r !! pid with
  | Some p => set_parts r (delete pid (by_pid r)) (sat_sub (total_buffered r) (zlen (buf p)))
  | None => r
  end.

Definition has_pid (r : Reassembler) (pid : Z) : bool :=
  match by_pid r !! pid with Some _ => true | None => false end.

Definition in_flight_holds_header (r : Reassembler) (pid : Z) : bool :=
  match by_pid r !! pid with Some p => 6 <=? zlen (buf p) | None => false end.

Definition buffered_bytes (r : Reassembler) : Z := total_buffered r.

End Reassembler.

(** * The parser on written headers *)
Module PesRoundtrip.
Import Common PesWriter PesLayout PesParse.

Lemma field_head m x : 0 <= m < 4 -> 0 <= x < 8 ->
  let b := Z.lor (Z.lor (as_u8 (Z.shiftl m 4)) (as_u8 (Z.shiftl x 1))) 0x01 in
  Z.land (Z.shiftr b 1) 0x07 = x /\ Z.land (Z.shiftr b 4) 0x0F = m /\ Z.land b 0x01 = 1 /\ byte b.
Proof. cbv zeta. revert m x. refine (below_dec2 4 8 _ _). by vm_compute. Qed.

Lemma field_seven y : 0 <= y < 128 ->
  let b := Z.lor (as_u8 (Z.shiftl y 1)) 0x01 in
  Z.shiftr b 1 = y /\ Z.land b 0x01 = 1 /\ byte b.
Proof. cbv zeta. revert y. refine (below_dec 128 _ _). by vm_compute. Qed.

Lemma join_15 a y : 0 <= a < 256 -> 0 <= y < 128 ->
  Z.land (Z.lor (Z.shiftl a 7) y) 0x7FFF = a * 128 + y.
Proof.
  intros. rewrite shiftl_mul, (lor_add 7), land_32767 by lia. apply Z.mod_small. lia.
Qed.

Section field.
Context (pts m : Z) (Hm : 0 <= m < 4).

(** The three groups of value bits, and the bytes around them. *)
Lemma pts_bytes_fields : exists b0 b1 b2 b3 b4, pts_bytes pts m = [b0; b1; b2; b3; b4] /\
  bytes [b0; b1; b2; b3; b4] /\
  Z.land (Z.shiftr b0 1) 0x07 = (pts mod 2 ^ 33) / 2 ^ 30 /\ Z.land (Z.shiftr b0 4) 0x0F = m /\
  Z.land b0 0x01 = 1 /\ Z.land b2 0x01 = 1 /\ Z.land b4 0x01 = 1 /\
  b1 * 128 + Z.shiftr b2 1 = (pts mod 2 ^ 33) / 2 ^ 15 mod 2 ^ 15 /\
  b3 * 128 + Z.shiftr b4 1 = (pts mod 2 ^ 33) mod 2 ^ 15 /\
  0 <= Z.shiftr b2 1 < 128 /\ 0 <= Z.shiftr b4 1 < 128.
Proof.
  rewrite <- masked_33bit_mod. pose proof (masked_33bit_range pts) as Hv. unfold pts33 in Hv.
  unfold pts_bytes. cbv zeta. set (v := masked_33bit pts) in *. eexists _, _, _, _, _. split; [done|].
  rewrite !land_7, !land_127, !land_255, !(Z.shiftr_div_pow2 v) by lia.
  change (2 ^ 33) with 8589934592 in *.
  change (2 ^ 30) with 1073741824. change (2 ^ 22) with 4194304. change (2 ^ 15) with 32768.
  change (2 ^ 7) with 128.
  destruct (field_head m ((v / 1073741824) mod 8)) as (H0 & H0' & H0'' & H0b); [done|dlia|].
  destruct (field_seven ((v / 32768) mod 128)) as (H2 & H2' & H2b); [dlia|].
  destruct (field_seven (v mod 128)) as (H4 & H4' & H4b); [dlia|].
  cbv zeta in *. rewrite land_7 in H0. rewrite H0, H0', H0'', H2, H2', H4, H4'. unfold as_u8 in *.
  split; [unfold bytes; rewrite !Forall_cons; split_and!; try done; by apply Z.mod_pos_bound|].
  split_and!; try done; dlia.
Qed.

Lemma decode_pts_bytes {E} : decode_pts_dts (E:=E) (pts_bytes pts m) = Ok (pts mod 2 ^ 33).
Proof.
  destruct pts_bytes_fields as (b0 & b1 & b2 & b3 & b4 & -> & Hb & H0 & _ & _ & _ & _ & H1 & H3 & Hb2 & Hb4).
  pose proof (Z.mod_pos_bound pts (2 ^ 33) ltac:(lia)).
  bytes_inv. unfold byte in *. unfold decode_pts_dts. idxs.
  rewrite H0, !join_15, H1, H3 by lia. rewrite !shiftl_mul by lia.
  rewrite <- Z.lor_assoc, (lor_add 15), (lor_add 30) by dlia.
  change (2 ^ 33) with 8589934592 in *. change (2 ^ 30) with 1073741824. change (2 ^ 15) with 32768.
  set (v := pts mod _) in *.
  replace (v / 1073741824 * 1073741824 + (v / 32768 mod 32768 * 32768 + v mod 32768)) with v by dlia.
  unfold as_i64. rewrite Z.mod_small, (proj2 (Z.ltb_lt _ _)) by lia. done.
Qed.

Lemma marker_bits_pts_bytes {E} : pts_dts_marker_bits_ok (E:=E) (pts_bytes pts m) = Ok true.
Proof.
  destruct pts_bytes_fields as (b0 & b1 & b2 & b3 & b4 & -> & _ & _ & _ & H0 & H2 & H4 & _).
  unfold pts_dts_marker_bits_ok. idxs. by rewrite H0, H2, H4.
Qed.

(** A timestamp field written with prefix [m] parses to its value and adds
    no issue. *)
Lemma parse_written_timestamp {E} l k buf k0 issues off :
  buf = l ++ pts_bytes pts m ++ k -> off = zlen l ->
  parse_timestamp (E:=E) buf off m k0 issues = Ok (pts mod 2 ^ 33, issues).
Proof.
  intros -> ->. unfold parse_timestamp.
  rewrite slice_app by done. unfold idx. rewrite get_app_r, Z.sub_diag by lia.
  destruct pts_bytes_fields as (b0 & b1 & b2 & b3 & b4 & Heq & _ & _ & Hm0 & _).
  assert (get (pts_bytes pts m ++ k) 0 = Some b0) as -> by (by rewrite Heq). rb.
  rewrite Hm0, Z.eqb_refl, marker_bits_pts_bytes. rb. rewrite decode_pts_bytes. rb. done.
Qed.
End field.

(** What the parser reports for a written timestamp selector. *)
Definition field_pts (f : PesPtsField) : option Z :=
  match f with
  | PtsNone => None
  | PtsOnly p | PtsAndDts p _ => Some (p mod 2 ^ 33)
  end.
Definition field_dts (f : PesPtsField) : option Z :=
  match f with PtsAndDts _ d => Some (d mod 2 ^ 33) | _ => None end.

(** The optional header: nine fixed bytes, a written timestamp selector, and
    any number of further header bytes counted in [header_data_length]. *)
Lemma parse_optional_written pid sid h l al f extra body buf :
  buf = [0; 0; 1; sid; h; l; (if al : bool then 0x84 else 0x80); as_u8 (Z.shiftl (fst (pts_flags f)) 6);
         snd (pts_flags f) + zlen extra] ++ pts_field_bytes f ++ extra ++ body ->
  parse_optional_header pid buf
  = Ok {| oh_body_off := 9 + (snd (pts_flags f) + zlen extra); oh_pts := field_pts f;
          oh_dts := field_dts f; oh_align := al; oh_issues := [] |}.
Proof.
  intros ->. unfold parse_optional_header.
  pose proof (zlen_nonneg extra). pose proof (zlen_nonneg body).
  rewrite (proj2 (Z.ltb_ge _ _)) by (rewrite !zlen_app; change (zlen [0; 0; 1; sid; h; l; _; _; _]) with 9; zlia).
  cbn [app]. idxs.
  rewrite (proj2 (Z.ltb_ge _ _)) by (rewrite !zlen_cons, !zlen_app, zlen_pts_field; lia).
  set (b6 := if al then 0x84 else 0x80).
  replace (Z.land (Z.shiftr b6 6) 3 =? 2) with true by (by destruct al).
  replace (nz (Z.land b6 4)) with al by (by destruct al).
  destruct f as [|p|p d]; cbn [pts_flags fst snd pts_field_bytes field_pts field_dts app].
  - change (Z.land (Z.shiftr (as_u8 (Z.shiftl 0 6)) 6) 3) with 0.
    cbn [Z.eqb Pos.eqb orb andb negb issue_if]. rewrite (proj2 (Z.ltb_ge (0 + zlen extra) 0)) by lia. rb. done.
  - change (Z.land (Z.shiftr (as_u8 (Z.shiftl 2 6)) 6) 3) with 2.
    cbn [Z.eqb Pos.eqb orb andb negb issue_if]. rewrite (proj2 (Z.ltb_ge (5 + zlen extra) 5)) by lia.
    rewrite (proj2 (Z.leb_le _ _)) by lia. cbn [issue_if].
    rewrite (proj2 (Z.ltb_ge _ _)) by (rewrite !zlen_cons, !zlen_app; zlia).
    rewrite (parse_written_timestamp p 2 ltac:(lia)
      [0; 0; 1; sid; h; l; b6; as_u8 (Z.shiftl 2 6); 5 + zlen extra] (extra ++ body)) by done.
    rb. done.
  - change (Z.land (Z.shiftr (as_u8 (Z.shiftl 3 6)) 6) 3) with 3.
    cbn [Z.eqb Pos.eqb orb andb negb issue_if]. rewrite (proj2 (Z.ltb_ge (10 + zlen extra) 10)) by lia.
    rewrite !(proj2 (Z.leb_le _ _)) by lia. cbn [issue_if].
    rewrite !(proj2 (Z.ltb_ge _ _)) by (rewrite !zlen_cons, !zlen_app; zlia).
    rewrite (parse_written_timestamp p 3 ltac:(lia)
      [0; 0; 1; sid; h; l; b6; as_u8 (Z.shiftl 3 6); 10 + zlen extra] (pts_bytes d 1 ++ extra ++ body)) by done.
    rb.
    rewrite (parse_written_timestamp d 1 ltac:(lia)
      ([0; 0; 1; sid; h; l; b6; as_u8 (Z.shiftl 3 6); 10 + zlen extra] ++ pts_bytes p 3) (extra ++ body)) by done.
    rb. done.
Qed.

(** A whole packet: fixed start, optional header, body. *)
Lemma parse_complete_written pid sid h l al f extra body rai :
  has_optional_header sid = true ->
  parse_complete pid
    ([0; 0; 1; sid; h; l; (if al : bool then 0x84 else 0x80); as_u8 (Z.shiftl (fst (pts_flags f)) 6);
      snd (pts_flags f) + zlen extra] ++ pts_field_bytes f ++ extra ++ body) rai
  = Ok (Some {| pid := pid; stream_id := sid; pts := field_pts f; dts := field_dts f;
                random_access_indicator := rai; data_alignment_indicator := al;
                header_issues := []; payload := body |}).
Proof.
  intros Hsid. unfold parse_complete.
  rewrite (proj2 (Z.ltb_ge _ _)) by (rewrite !zlen_app, !zlen_cons; zlia).
  set (buf := _ ++ pts_field_bytes f ++ extra ++ body).
  change (idx buf 0) with (@Ok DemuxError Z 0). change (idx buf 1) with (@Ok DemuxError Z 0).
  change (idx buf 2) with (@Ok DemuxError Z 1). change (idx buf 3) with (@Ok DemuxError Z sid).
  rb. cbn [Z.eqb Pos.eqb negb orb]. rewrite Hsid, (parse_optional_written pid sid h l al f extra body buf eq_refl). rb.
  cbn [oh_body_off oh_pts oh_dts oh_align oh_issues].
  rewrite (slice_tail ([0; 0; 1; sid; h; l; (if al then 0x84 else 0x80);
      as_u8 (Z.shiftl (fst (pts_flags f)) 6); snd (pts_flags f) + zlen extra]
      ++ pts_field_bytes f ++ extra) body).
  - rb. done.
  - unfold buf. by rewrite <- !app_assoc.
  - rewrite !zlen_app, zlen_pts_field. reflexivity.
  - done.
Qed.

Lemma parse_complete_header pid sid f n flags body rai :
  has_optional_header sid = true ->
  parse_complete pid (pes_header sid f n flags ++ body) rai
  = Ok (Some {| pid := pid; stream_id := sid; pts := field_pts f; dts := field_dts f;
                random_access_indicator := rai;
                data_alignment_indicator := PesWriter.data_alignment_indicator flags;
                header_issues := []; payload := body |}).
Proof.
  intros Hsid.
  rewrite <- (parse_complete_written pid sid (as_u8 (Z.shiftr (packet_length f n) 8))
    (as_u8 (Z.land (packet_length f n) 0xFF)) (PesWriter.data_alignment_indicator flags) f []) by done.
  unfold pes_header. rewrite Z.add_0_r, <- app_assoc. done.
Qed.

End PesRoundtrip.

(** * The parser on arbitrary bytes *)
Module PesTotal.
Import Common PesParse.

Definition stamp (v : Z) : Prop := 0 <= v < 2 ^ 33.
Definition stamp_ok (t : option Z) : Prop := forall v, t = Some v -> stamp v.

(** The only error the parser constructs. *)
Definition is_malformed (pid : Z) (e : DemuxError) : Prop := exists reason, e = MalformedPes pid reason.

Lemma malformed_intro pid reason : is_malformed pid (MalformedPes pid reason).
Proof. by exists reason. Qed.
Lemma stamp_ok_none : stamp_ok None.
Proof. done. Qed.
Lemma stamp_ok_some v : stamp v -> stamp_ok (Some v).
Proof. by intros ? ? [= <-]. Qed.
Create HintDb pes discriminated.
#[local] Hint Resolve malformed_intro stamp_ok_none stamp_ok_some : pes.

Lemma decode_total {E} (er : E -> Prop) b : zlen b = 5 -> bytes b ->
  outcome stamp er (decode_pts_dts b).
Proof.
  intros Hl Hb. unfold decode_pts_dts. repeat wp_step.
  rewrite land_7, !land_32767, !shiftl_mul by lia.
  set (p := Z.shiftr _ 1 mod 8). set (q := _ mod 32768). set (t := Z.lor _ _ mod 32768).
  assert (0 <= p < 8) by (by apply Z.mod_pos_bound). assert (0 <= q < 32768) by (by apply Z.mod_pos_bound).
  assert (0 <= t < 32768) by (by apply Z.mod_pos_bound).
  rewrite <- Z.lor_assoc, (lor_add 15), (lor_add 30) by lia. unfold stamp.
  unfold as_i64. rewrite Z.mod_small, (proj2 (Z.ltb_lt _ _)) by lia. lia.
Qed.

Lemma marker_total {E} (er : E -> Prop) b : 5 <= zlen b ->
  outcome (fun _ => True) er (pts_dts_marker_bits_ok b).
Proof. intros Hl. unfold pts_dts_marker_bits_ok. by repeat wp_step. Qed.

Lemma parse_timestamp_total {E} (er : E -> Prop) buf off m k issues :
  bytes buf -> 0 <= off -> off + 5 <= zlen buf ->
  outcome (fun vi => stamp vi.1) er (parse_timestamp buf off m k issues).
Proof.
  intros Hb Ho Hl. unfold parse_timestamp. do 2 wp_step.
  pose proof (zlen_window buf off (off + 5)).
  eapply outcome_bind; [apply marker_total; lia|]. intros ok _.
  eapply outcome_bind; [apply decode_total; [lia|auto with zl]|]. done.
Qed.

Lemma parse_optional_total pid buf : bytes buf ->
  outcome (fun oh => 9 <= oh_body_off oh <= zlen buf /\ stamp_ok (oh_pts oh) /\ stamp_ok (oh_dts oh))
    (is_malformed pid) (parse_optional_header pid buf).
Proof.
  intros Hb. unfold parse_optional_header. wp_step; [cbn; auto with pes|]. b2p. do 3 wp_step.
  pose proof (bytes_get _ _ _ Hb Hget1) as H8. unfold byte in H8.
  wp_step; [cbn; auto with pes|]. b2p.
  eapply (outcome_bind _ (fun pi => stamp_ok pi.1)).
  { wp_step; [|cbn; auto with pes]. wp_step; [cbn; auto with pes|]. b2p.
    eapply outcome_bind; [apply parse_timestamp_total; [done|lia..]|]. intros [v i] Hv. cbn. auto with pes. }
  intros [t i] Ht. eapply (outcome_bind _ (fun pi => stamp_ok pi.1)).
  { wp_step; [|cbn; auto with pes]. wp_step; [cbn; auto with pes|]. b2p.
    eapply outcome_bind; [apply parse_timestamp_total; [done|lia..]|]. intros [v i'] Hv. cbn. auto with pes. }
  intros [d i'] Hd. cbn. by split_and!; try lia.
Qed.

(** Every outcome of [parse_complete] on bytes. *)
Definition parsed (pid0 : Z) (buf : list Z) (rai : bool) (o : option PesPayload) : Prop :=
  match o with
  | None => zlen buf < 6
  | Some pes =>
      exists header, buf = header ++ payload pes /\ 6 <= zlen header /\ pid pes = pid0 /\
        get buf 3 = Some (stream_id pes) /\ random_access_indicator pes = rai /\
        stamp_ok (pts pes) /\ stamp_ok (dts pes)
  end.

Lemma parse_complete_outcome pid0 buf rai : bytes buf ->
  outcome (parsed pid0 buf rai) (fun e => 6 <= zlen buf /\ is_malformed pid0 e)
    (parse_complete pid0 buf rai).
Proof.
  intros Hb. unfold parse_complete. wp_step; b2p; [done|]. do 3 wp_step.
  wp_step; [split; [done|apply malformed_intro]|]. wp_step.
  eapply (outcome_bind _ (fun oh => 6 <= oh_body_off oh <= zlen buf /\ stamp_ok (oh_pts oh) /\
    stamp_ok (oh_dts oh))).
  { wp_step; [|cbn; by split_and!; try lia].
    pose proof (parse_optional_total pid0 buf Hb) as Ho.
    destruct (parse_optional_header pid0 buf); cbn in *; [|done|done].
    destruct Ho as (? & ? & ?). by split_and!; try lia. }
  intros oh (Hoff & Hp & Hd). do 2 wp_step. exists (ztake (oh_body_off oh) buf).
  cbn [payload pid stream_id random_access_indicator pts dts].
  rewrite (ztake_all (zdrop (oh_body_off oh) buf)) by (rewrite zlen_zdrop by lia; lia).
  rewrite ztake_zdrop, zlen_ztake by lia. by split_and!; try lia.
Qed.

End PesTotal.

(** * Accounting and caps *)
Module ReassemblerInv.
Import PesParse PesTotal Reassembler.

(** Bytes held by the partials. *)
Definition held (m : gmap Z Partial) : Z := map_fold (fun _ p n => zlen (buf p) + n) 0 m.

Record part_ok (cap : Z) (p : Partial) : Prop := {
  part_bytes : bytes (buf p);
  part_cap : zlen (buf p) <= cap;
  part_gap : forall g, gap_at p = Some g -> 0 <= g <= zlen (buf p)
}.

Record inv (r : Reassembler) : Prop := {
  inv_total : total_buffered r = held (by_pid r);
  inv_cap_total : total_buffered r <= cap_total r;
  inv_parts : map_Forall (fun _ => part_ok (cap_per_pid r)) (by_pid r)
}.

Lemma held_empty : held ∅ = 0.
Proof. apply map_fold_empty. Qed.

Lemma held_delete m pid p : m !! pid = Some p -> held m = zlen (buf p) + held (delete pid m).
Proof.
  intros. unfold held.
  rewrite (map_fold_delete_L (fun _ p n => zlen (buf p) + n) 0 pid p m); [done|lia|done].
Qed.

Lemma held_insert m pid p : held (<[pid := p]> m) = zlen (buf p) + held (delete pid m).
Proof.
  rewrite (held_delete _ pid p) by apply lookup_insert_eq. by rewrite delete_insert_eq.
Qed.

Lemma held_delete_none m pid : m !! pid = None -> held (delete pid m) = held m.
Proof. intros. by rewrite delete_id. Qed.

Lemma held_nonneg m : 0 <= held m.
Proof.
  induction m as [|i p m Hm IH] using map_ind; [by rewrite held_empty|].
  rewrite held_insert, delete_id by done. pose proof (zlen_nonneg (buf p)). lia.
Qed.

Lemma held_delete_le m pid : held (delete pid m) <= held m.
Proof.
  destruct (m !! pid) as [p|] eqn:Hp.
  - rewrite (held_delete m pid p) by done. pose proof (zlen_nonneg (buf p)). lia.
  - by rewrite held_delete_none.
Qed.

Lemma inv_new cp ct : 0 <= ct -> inv (new cp ct).
Proof. intros. split; cbn; [by rewrite held_empty|done|apply map_Forall_empty]. Qed.

(** Dropping a partial and releasing its bytes. *)
Lemma inv_drop r pid p : by_pid r !! pid = Some p -> inv r ->
  inv (set_parts r (delete pid (by_pid r)) (sat_sub (total_buffered r) (zlen (buf p)))).
Proof.
  intros Hp [Ht Hc Hf]. pose proof (held_delete _ _ _ Hp). pose proof (held_nonneg (delete pid (by_pid r))).
  split; cbn; unfold sat_sub; [lia| |by apply map_Forall_delete].
  pose proof (zlen_nonneg (buf p)). lia.
Qed.

Lemma inv_gaps r g : inv r -> inv (set_gaps r g).
Proof. by intros [? ? ?]. Qed.
Lemma inv_dropped r d : inv r -> inv (set_dropped r d).
Proof. by intros [? ? ?]. Qed.

(** [finish] leaves the buffers alone and cannot fail. *)
Lemma finish_total {E} r pid p out : bytes (buf p) ->
  exists r' out', finish (E:=E) r pid p out = Ok (r', out') /\ (exists g, r' = set_gaps r g) /\
    (exists new, out' = out ++ new).
Proof.
  intros Hb. pose proof (parse_complete_outcome pid (buf p) (rai p) Hb) as Ho. unfold finish.
  destruct (parse_complete pid (buf p) (rai p)) as [[pes|]|e|]; cbn in Ho; [| | |done].
  - destruct Ho as (h & Hh & Hl & _). apply (f_equal zlen) in Hh. rewrite zlen_app in Hh.
    set (dmg := if _ && _ then _ else _).
    assert (exists new, match dmg with Some reason => out ++ [Malformed pid reason] | None => out end
                        = out ++ new) as (new & ->)
      by (destruct dmg; [eauto|exists []; by rewrite app_nil_r]).
    destruct (gap_at p) as [g|].
    + unfold usub. rewrite (proj2 (Z.leb_le _ _)) by lia. rb.
      eexists _, _. split_and!; [reflexivity|eauto|]. rewrite <- app_assoc. eauto.
    + rb. eexists _, _. split_and!; [reflexivity| |].
      { exists (finished_gaps r). by destruct r. }
      rewrite <- app_assoc. eauto.
  - eexists _, _. split_and!; [reflexivity| |exists []; by rewrite app_nil_r].
    exists (finished_gaps r). by destruct r.
  - eexists _, _. split_and!; [reflexivity| |eauto]. exists (finished_gaps r). by destruct r.
Qed.

Lemma finish_inv {E} r pid p out : bytes (buf p) -> inv r ->
  outcome (E:=E) (fun ro => inv ro.1 /\ by_pid ro.1 = by_pid r /\ cap_per_pid ro.1 = cap_per_pid r
                            /\ cap_total ro.1 = cap_total r) (fun _ => False) (finish r pid p out).
Proof.
  intros Hb Hr. destruct (finish_total (E:=E) r pid p out Hb) as (r' & out' & -> & (g & ->) & _).
  cbn. split_and!; try done. by apply inv_gaps.
Qed.

Definition keeps_caps (r r' : Reassembler) : Prop :=
  cap_per_pid r' = cap_per_pid r /\ cap_total r' = cap_total r.

Lemma complete_if_full_inv {E} r pid p out : inv r -> by_pid r !! pid = Some p ->
  outcome (E:=E) (fun ro => inv ro.1 /\ keeps_caps r ro.1) (fun _ => False)
    (complete_if_full r pid p out).
Proof.
  intros Hr Hp. unfold complete_if_full.
  destruct (declared_total_len p) as [total|]; [|done]. wp_step; [|done].
  destruct (inv_parts _ Hr pid p Hp) as [Hb Hcap _].
  eapply outcome_mono; [apply finish_inv; cbn; [auto with zl|by apply inv_drop]|].
  cbv beta. by intros [r' o] (? & _ & ? & ?).
Qed.

(** Replacing the partial of [pid] by one with [n] more bytes. *)
Lemma inv_replace r pid p q : by_pid r !! pid = Some p -> inv r ->
  part_ok (cap_per_pid r) q ->
  total_buffered r + (zlen (buf q) - zlen (buf p)) <= cap_total r ->
  inv (set_parts r (<[pid := q]> (by_pid r)) (total_buffered r + (zlen (buf q) - zlen (buf p)))).
Proof.
  intros Hp [Ht Hc Hf] Hq Hle. pose proof (held_delete _ _ _ Hp).
  split; cbn; [rewrite held_insert; lia|done|by apply map_Forall_insert_2].
Qed.

Lemma append_payload_inv {E} r pid pl v out : inv r -> bytes pl -> 0 <= cap_total r ->
  outcome (E:=E) (fun ro => inv ro.1 /\ keeps_caps r ro.1) (fun _ => False)
    (append_payload r pid pl v out).
Proof.
  intros Hr Hpl Hct. unfold append_payload.
  destruct (by_pid r !! pid) as [p|] eqn:Hp; [|done].
  pose proof (inv_parts _ Hr pid p Hp) as [Hb Hcap Hgap]. cbv beta in *.
  wp_step; [cbn; split; [by apply inv_drop|done]|]. b2p.
  cbn [declared_total_len buf rai damage gap_at].
  set (q0 := {| declared_total_len := declared_total_len p; buf := buf p ++ pl; rai := rai p;
                damage := damage p; gap_at := gap_at p |}).
  set (r0 := set_parts r _ _).
  pose proof (zlen_nonneg pl). pose proof (zlen_nonneg (buf p)).
  eapply (outcome_bind _ (fun qz => buf qz.1 = buf q0 /\ gap_at qz.1 = gap_at q0)).
  { wp_step; [|done]. b2p. do 3 wp_step. wp_step; [done|]. by wp_step. }
  intros [q zero] [Hbuf Hgq]. cbn [fst] in *.
  assert (Hq : part_ok (cap_per_pid r) q).
  { split; rewrite ?Hbuf, ?Hgq; cbn [q0 buf gap_at].
    - apply bytes_app. auto.
    - rewrite zlen_app. lia.
    - intros g Hg. specialize (Hgap g Hg). rewrite zlen_app. lia. }
  assert (Hlen : zlen (buf q) = zlen (buf p) + zlen pl) by (rewrite Hbuf; cbn; by rewrite zlen_app).
  pose proof (held_delete _ _ _ Hp) as Hh. destruct Hr as [Ht Hc Hf].
  destruct zero as [sid|].
  - cbn. split; [|done]. unfold r0; cbn. rewrite delete_insert_eq.
    split; cbn; unfold sat_sub; [|pose proof (held_nonneg (delete pid (by_pid r)))|by apply map_Forall_delete].
    + pose proof (held_nonneg (delete pid (by_pid r))). lia.
    + lia.
  - unfold r0; cbn [by_pid set_parts total_buffered cap_total]. rewrite insert_insert_eq.
    wp_step; b2p.
    + cbn. split; [|done]. split; cbn; [by rewrite held_empty|done|apply map_Forall_empty].
    + eapply outcome_mono; [apply complete_if_full_inv|].
      * split; cbn; [rewrite held_insert; lia|done|by apply map_Forall_insert_2].
      * cbn. apply lookup_insert_eq.
      * done.
Qed.

Lemma push_split_inv {E} r pid pl pusi ra v : inv r -> bytes pl -> 0 <= cap_total r -> 0 <= cap_per_pid r ->
  outcome (E:=E) (fun ro => inv ro.1 /\ keeps_caps r ro.1) (fun _ => False)
    (push_split r pid pl pusi ra v).
Proof.
  intros Hr Hpl Hct Hcp. unfold push_split.
  eapply (outcome_bind _ (fun ro => inv ro.1 /\ keeps_caps r ro.1)).
  { wp_step; [|cbn; split; [by apply inv_gaps|done]].
    cbn [by_pid set_gaps set_parts total_buffered].
    set (fresh := {| declared_total_len := None; buf := []; rai := ra; damage := None; gap_at := None |}).
    assert (Hfresh : part_ok (cap_per_pid r) fresh) by (by split; [constructor| |]).
    pose proof Hr as [Ht Hc Hf]. destruct (by_pid r !! pid) as [p|] eqn:Hp.
    - pose proof (held_delete _ _ _ Hp). pose proof (held_nonneg (delete pid (by_pid r))).
      pose proof (zlen_nonneg (buf p)).
      destruct (Hf pid p Hp) as [Hb _ _].
      eapply outcome_bind; [apply finish_inv; [done|]|].
      + split; cbn; [|unfold sat_sub; lia|by apply map_Forall_insert_2].
        rewrite held_insert. unfold sat_sub. change (zlen (buf fresh)) with 0. lia.
      + cbv beta. intros [r' o] (? & _ & ? & ?). by cbn.
    - cbn. split; [|done]. split; cbn; [|done|by apply map_Forall_insert_2].
      rewrite held_insert, held_delete_none by done. change (zlen (buf fresh)) with 0. lia. }
  intros [r' [o n]] [Hr' [Hk1 Hk2]]. cbn [fst] in *.
  eapply outcome_bind; [apply append_payload_inv; [done|done|congruence]|].
  cbv beta. intros [r'' o'] [Hr'' [Hk3 Hk4]]. cbn in *. split; [done|]. split; congruence.
Qed.

Lemma finish_all_inv {E} parts r out : inv r -> Forall (fun ip => bytes (buf ip.2)) parts ->
  outcome (E:=E) (fun ro => inv ro.1 /\ keeps_caps r ro.1) (fun _ => False) (finish_all r parts out).
Proof.
  intros Hr Hp. revert r out Hr. induction Hp as [|[pid p] parts Hp _ IH]; intros r out Hr; [done|].
  cbn [finish_all]. eapply outcome_bind; [by apply finish_inv|]. cbv beta.
  intros [r' out'] (Hr' & _ & Hk1 & Hk2). eapply outcome_mono; [by apply IH|].
  cbv beta. intros [r'' o] [H [H1 H2]]. cbn in *. split; [done|]. split; congruence.
Qed.

Lemma drain_inv {E} r : inv r -> 0 <= cap_total r ->
  outcome (E:=E) (fun ro => inv ro.1 /\ keeps_caps r ro.1) (fun _ => False) (drain_partial_outcomes r).
Proof.
  intros Hr Hct. unfold drain_partial_outcomes. eapply outcome_mono; [apply finish_all_inv|].
  - split; cbn; [by rewrite held_empty|done|apply map_Forall_empty].
  - rewrite merge_sort_Permutation. apply Forall_forall. intros [pid p] Hin.
    apply elem_of_map_to_list in Hin. by destruct (inv_parts _ Hr pid p Hin).
  - cbv beta. done.
Qed.

Lemma mark_damaged_inv r pid : inv r -> inv (mark_damaged r pid) /\ keeps_caps r (mark_damaged r pid).
Proof.
  intros Hr. unfold mark_damaged. destruct (by_pid r !! pid) as [p|] eqn:Hp; [|done].
  destruct (is_none (damage p)); [|done]. split; [|done].
  destruct (inv_parts _ Hr pid p Hp) as [Hb Hcap _]. destruct Hr as [Ht Hc Hf].
  pose proof (held_delete _ _ _ Hp).
  split; cbn; [rewrite held_insert; cbn; lia|done|apply map_Forall_insert_2; [|done]].
  split; cbn; [done|done|]. intros g [= <-]. pose proof (zlen_nonneg (buf p)). lia.
Qed.

Lemma take_gap_inv r pid : inv r -> inv (take_gap r pid).2 /\ keeps_caps r (take_gap r pid).2.
Proof. intros Hr. unfold take_gap. destruct (list_find _ _) as [[i g]|]; cbn; [|done]. by split; [apply inv_gaps|]. Qed.

Lemma remove_pid_inv r pid : inv r -> inv (remove_pid r pid) /\ keeps_caps r (remove_pid r pid).
Proof.
  intros Hr. unfold remove_pid. destruct (by_pid r !! pid) as [p|] eqn:Hp; [|done].
  by split; [apply inv_drop|].
Qed.

End ReassemblerInv.

(** * Reassembly of a packet cut into chunks *)
Module Chunks.
Import Common PesWriter PesParse Reassembler.

(** The length a PES announces: [Some] total when its length field is set,
    [None] for the unbounded form that only video may use. *)
Definition announces (pes : list Z) (v : bool) (decl : option Z) : Prop :=
  exists hi lo, get pes 4 = Some hi /\ get pes 5 = Some lo /\
    ((from_be16 hi lo <> 0 /\ decl = Some (6 + from_be16 hi lo)) \/
     (from_be16 hi lo = 0 /\ v = true /\ decl = None)).

(** The partial after the prefix [x] of a PES arrived undamaged. *)
Definition inflight (decl : option Z) (x : list Z) (ra : bool) : Partial :=
  {| declared_total_len := if 6 <=? zlen x then decl else None; buf := x; rai := ra;
     damage := None; gap_at := None |}.

Lemma prefix_get (x y : list Z) i b : get (x ++ y) i = Some b -> i < zlen x -> get x i = Some b.
Proof. intros. by rewrite <- (get_app_l x y). Qed.

(** One more chunk, no cap hit: either the packet is still short of its
    announced length, or completion is attempted on all of it. *)
Lemma append_chunk {E} r pid decl x y z ra v out :
  by_pid r !! pid = Some (inflight decl x ra) ->
  announces (x ++ y ++ z) v decl ->
  zlen (x ++ y) <= cap_per_pid r -> total_buffered r + zlen y <= cap_total r ->
  append_payload (E:=E) r pid y v out
  = complete_if_full (set_parts r (<[pid := inflight decl (x ++ y) ra]> (by_pid r))
                        (total_buffered r + zlen y)) pid (inflight decl (x ++ y) ra) out.
Proof.
  intros Hp (hi & lo & Hhi & Hlo & Hcase) Hc Ht. unfold append_payload. rewrite Hp.
  unfold inflight at 1; cbn [buf]. rewrite zlen_app in Hc.
  rewrite (proj2 (Z.ltb_ge _ _)) by lia. cbv zeta. cbn [inflight declared_total_len buf rai damage gap_at].
  rewrite app_assoc in Hhi, Hlo. pose proof (zlen_nonneg y).
  set (st := set_parts _ _ _). set (q0 := Build_Partial _ _ _ _ _).
  assert (Hstep : (if is_none (if 6 <=? zlen x then decl else None) && (6 <=? zlen (x ++ y)) then
      let! sid := idx (x ++ y) 3 in
      let! hi := idx (x ++ y) 4 in
      let! lo := idx (x ++ y) 5 in
      if nz (from_be16 hi lo) then
        Ok ({| declared_total_len := Some (6 + from_be16 hi lo); buf := x ++ y; rai := ra;
               damage := None; gap_at := None |}, None)
      else if negb v then Ok (q0, Some sid) else Ok (q0, None)
    else Ok (E:=E) (q0, None)) = Ok (inflight decl (x ++ y) ra, None)).
  { unfold q0, inflight. destruct (6 <=? zlen (x ++ y)) eqn:H6; b2p.
    - rewrite andb_true_r.
      destruct (idx_ok (E:=E) (x ++ y) 3) as (sid & _ & ->); [lia|].
      rewrite (proj2 (idx_Ok (E:=E) _ 4 hi)) by (apply (prefix_get _ z); [done|lia]).
      rewrite (proj2 (idx_Ok (E:=E) _ 5 lo)) by (apply (prefix_get _ z); [done|lia]). rb.
      destruct Hcase as [[Hn ->]|(Hn & -> & ->)].
      + unfold nz. rewrite (proj2 (Z.eqb_neq _ _)) by done. rb. by destruct (6 <=? zlen x).
      + rewrite Hn. destruct (6 <=? zlen x); by cbn.
    - rewrite andb_false_r. rewrite (proj2 (Z.leb_gt 6 (zlen x))) by (rewrite zlen_app in H6; lia). done. }
  rewrite Hstep. rb. unfold st; cbn [by_pid set_parts total_buffered cap_total].
  rewrite insert_insert_eq. rewrite (proj2 (Z.ltb_ge _ _)) by lia. done.
Qed.

(** Feeding chunks: the first one carries the unit-start flag. *)
Fixpoint feed {E} (r : Reassembler) (pid : Z) (chunks : list (list Z)) (v : bool)
    : res E (Reassembler * list ReassemblyOutcome) :=
  match chunks with
  | [] => Ok (r, [])
  | c :: chunks =>
      let! (r, o) := push r pid c false false v in
      let! (r, os) := feed r pid chunks v in
      Ok (r, o ++ os)
  end.

Definition feed_pes {E} (r : Reassembler) (pid : Z) (first : list Z) (rest : list (list Z)) (ra v : bool)
    : res E (Reassembler * list ReassemblyOutcome) :=
  let! (r, o) := push r pid first true ra v in
  let! (r, os) := feed r pid rest v in
  Ok (r, o ++ os).

(** [finish] on a packet that was written: its payload, and nothing else. *)
Lemma finish_complete {E} r pid decl pes ra out p :
  parse_complete pid pes ra = Ok (Some p) ->
  (forall n, decl = Some n -> n <= zlen pes) ->
  finish (E:=E) r pid (inflight decl pes ra) out = Ok (r, out ++ [Complete p]).
Proof.
  intros Hparse Hdecl. unfold finish. cbn [inflight buf rai damage gap_at is_none andb].
  replace (short_of_declared (inflight decl pes ra)) with false.
  2:{ unfold short_of_declared; cbn. destruct (6 <=? zlen pes); [|done]. destruct decl as [n|]; [|done].
      symmetry. apply Z.ltb_ge. by apply Hdecl. }
  by rewrite Hparse.
Qed.

(** The announced length has arrived. *)
Lemma complete_inflight {E} r pid pes ra out p : 6 <= zlen pes ->
  parse_complete pid pes ra = Ok (Some p) ->
  complete_if_full (E:=E) r pid (inflight (Some (zlen pes)) pes ra) out
  = Ok (set_parts r (delete pid (by_pid r)) (sat_sub (total_buffered r) (zlen pes)), out ++ [Complete p]).
Proof.
  intros H6 Hparse. unfold complete_if_full.
  assert (Hi : inflight (Some (zlen pes)) pes ra = {| declared_total_len := Some (zlen pes);
    buf := ztake (zlen pes) pes; rai := ra; damage := None; gap_at := None |}).
  { unfold inflight. by rewrite (proj2 (Z.leb_le _ _)), ztake_all by lia. }
  cbn [inflight declared_total_len buf rai damage gap_at].
  rewrite !(proj2 (Z.leb_le _ _)) by lia. rewrite <- Hi. apply finish_complete; [done|].
  by intros ? [= <-].
Qed.

(** A chunk that leaves the packet open, and the chunk that completes it. *)
Lemma append_more {E} r pid decl x y z ra v out :
  by_pid r !! pid = Some (inflight decl x ra) ->
  announces (x ++ y ++ z) v decl -> (forall n, decl = Some n -> n = zlen (x ++ y ++ z)) ->
  z <> [] \/ decl = None ->
  zlen (x ++ y) <= cap_per_pid r -> total_buffered r + zlen y <= cap_total r ->
  append_payload (E:=E) r pid y v out
  = Ok (set_parts r (<[pid := inflight decl (x ++ y) ra]> (by_pid r)) (total_buffered r + zlen y), out).
Proof.
  intros Hp Ha Hd Hz Hc Ht. rewrite (append_chunk _ _ decl x y z ra v) by done.
  unfold complete_if_full. cbn [inflight declared_total_len buf].
  destruct (6 <=? zlen (x ++ y)); [|done]. destruct decl as [n|]; [|done].
  destruct Hz as [Hz|Hz]; [|done]. rewrite (Hd n eq_refl), app_assoc.
  assert (0 < zlen z) by (destruct z; [done|rewrite zlen_cons; zlia]).
  rewrite (proj2 (Z.leb_gt _ _)) by (rewrite (zlen_app (x ++ y)); lia). done.
Qed.

Lemma append_last {E} r pid x y ra v p out :
  by_pid r !! pid = Some (inflight (Some (zlen (x ++ y))) x ra) ->
  announces (x ++ y) v (Some (zlen (x ++ y))) ->
  zlen (x ++ y) <= cap_per_pid r -> total_buffered r + zlen y <= cap_total r -> zlen x <= total_buffered r ->
  parse_complete pid (x ++ y) ra = Ok (Some p) ->
  append_payload (E:=E) r pid y v out
  = Ok (set_parts r (delete pid (by_pid r)) (total_buffered r - zlen x), out ++ [Complete p]).
Proof.
  intros Hp Ha Hc Ht Hx Hparse.
  rewrite (append_chunk _ _ (Some (zlen (x ++ y))) x y [] ra v) by (by rewrite ?app_nil_r).
  destruct Ha as (hi & lo & Hhi & Hlo & _). apply get_Some in Hlo.
  rewrite (complete_inflight _ _ _ _ _ p) by (done || lia).
  cbn [by_pid set_parts total_buffered]. rewrite delete_insert_eq.
  do 2 f_equal. unfold set_parts; cbn. f_equal. unfold sat_sub. rewrite zlen_app. lia.
Qed.

(** What one push does, by its unit-start flag. *)
Lemma push_continue {E} r pid y ra v :
  push (E:=E) r pid y false ra v = append_payload (set_gaps r []) pid y v [].
Proof. unfold push, push_split. rb. by destruct (append_payload _ _ _ _ _) as [[]| |]. Qed.

Lemma push_start {E} r pid y ra v : by_pid r !! pid = None ->
  push (E:=E) r pid y true ra v
  = append_payload (set_parts (set_gaps r []) (<[pid := inflight None [] ra]> (by_pid r))
                      (total_buffered r)) pid y v [].
Proof.
  intros Hp. unfold push, push_split. cbn [set_gaps by_pid]. rewrite Hp. rb.
  by destruct (append_payload _ _ _ _ _) as [[]| |].
Qed.

(** A unit start closes the unbounded packet that was in flight. *)
Lemma push_restart {E} r pid pes ra0 p y ra v :
  by_pid r !! pid = Some (inflight None pes ra0) ->
  parse_complete pid pes ra0 = Ok (Some p) -> zlen pes <= total_buffered r ->
  push (E:=E) r pid y true ra v
  = append_payload (set_parts (set_gaps r []) (<[pid := inflight None [] ra]> (by_pid r))
                      (total_buffered r - zlen pes)) pid y v [Complete p].
Proof.
  intros Hp Hparse Hle. unfold push, push_split. cbn [set_gaps by_pid set_parts total_buffered].
  rewrite Hp, (finish_complete _ _ None pes ra0 [] p) by done. rb.
  replace (sat_sub (total_buffered r) (zlen (buf (inflight None pes ra0)))) with (total_buffered r - zlen pes)
    by (unfold sat_sub; cbn; lia).
  unfold set_parts at 1; cbn. by destruct (append_payload _ _ _ _ _) as [[]| |].
Qed.

Lemma inflight_nil decl ra : inflight decl [] ra = inflight None [] ra.
Proof. done. Qed.

Section feeding.
Context {E : Type} (pid : Z) (ra v : bool).
Implicit Types (r : Reassembler) (pes x : list Z) (chunks : list (list Z)).

(** The remaining chunks of a bounded packet. *)
Lemma feed_bounded chunks r pes x p :
  chunks <> [] -> Forall (fun c => c <> []) chunks -> pes = x ++ concat chunks ->
  by_pid r !! pid = Some (inflight (Some (zlen pes)) x ra) ->
  announces pes v (Some (zlen pes)) ->
  zlen pes <= cap_per_pid r -> total_buffered r + zlen (concat chunks) <= cap_total r ->
  zlen x <= total_buffered r -> parse_complete pid pes ra = Ok (Some p) ->
  feed (E:=E) r pid chunks v
  = Ok (set_parts (set_gaps r []) (delete pid (by_pid r)) (total_buffered r - zlen x), [Complete p]).
Proof.
  intros Hne Hall -> Hp Ha Hc Ht Hx Hparse.
  revert r x Hp Ha Hc Ht Hx Hparse.
  induction Hall as [|c chunks Hcne Hall IH]; intros r x Hp Ha Hc Ht Hx Hparse; [done|].
  cbn [feed concat] in *. rewrite push_continue. rewrite !zlen_app in Ht.
  pose proof (zlen_nonneg (concat chunks)). destruct chunks as [|c' chunks].
  - cbn [concat feed] in *. rewrite app_nil_r in *.
    rewrite (append_last _ _ x c ra v p) by (done || (cbn; lia)). rb. done.
  - assert (Hz : concat (c' :: chunks) <> []).
    { apply Forall_cons in Hall as [Hc' _]. cbn. destruct c'; done. }
    rewrite (append_more _ _ (Some (zlen (x ++ c ++ concat (c' :: chunks)))) x c
      (concat (c' :: chunks)) ra v); [|done|done|by intros ? [= <-]|by left| |cbn; lia].
    2:{ rewrite app_assoc, zlen_app in Hc. cbn [cap_per_pid set_gaps]. lia. }
    rb. rewrite (IH ltac:(done) _ (x ++ c)); cbn [set_parts set_gaps by_pid total_buffered cap_per_pid cap_total].
    + rb. rewrite delete_insert_eq. do 2 f_equal. unfold set_parts; cbn. f_equal. rewrite zlen_app. lia.
    + rewrite lookup_insert_eq. by rewrite <- app_assoc.
    + by rewrite <- app_assoc.
    + by rewrite <- app_assoc.
    + lia.
    + rewrite zlen_app. pose proof (zlen_nonneg c). lia.
    + by rewrite <- app_assoc.
Qed.

(** The remaining chunks of an unbounded packet: nothing is emitted. *)
Lemma feed_unbounded chunks r x : 
  by_pid r !! pid = Some (inflight None x ra) ->
  announces (x ++ concat chunks) v None ->
  zlen (x ++ concat chunks) <= cap_per_pid r ->
  total_buffered r + zlen (concat chunks) <= cap_total r ->
  exists g, feed (E:=E) r pid chunks v
  = Ok (set_parts (set_gaps r g) (<[pid := inflight None (x ++ concat chunks) ra]> (by_pid r))
          (total_buffered r + zlen (concat chunks)), []).
Proof.
  revert r x. induction chunks as [|c chunks IH]; intros r x Hp Ha Hc Ht; cbn [feed concat] in *.
  { exists (finished_gaps r). rewrite app_nil_r, Z.add_0_r, insert_id by done. by destruct r. }
  rewrite push_continue. rewrite zlen_app in Ht. rewrite zlen_app, (zlen_app c) in Hc. pose proof (zlen_nonneg (concat chunks)).
  rewrite (append_more _ _ None x c (concat chunks) ra v);
    [|done|done|done|by right|cbn [set_gaps cap_per_pid]; rewrite zlen_app; lia|cbn [set_gaps total_buffered cap_total]; lia].
  rb. edestruct (IH (set_parts (set_gaps r []) (<[pid:=inflight None (x ++ c) ra]> (by_pid r))
    (total_buffered r + zlen c)) (x ++ c)) as (g & Hf);
    cbn [set_parts set_gaps by_pid total_buffered cap_per_pid cap_total].
  - apply lookup_insert_eq.
  - by rewrite <- app_assoc.
  - rewrite !zlen_app. lia.
  - lia.
  - cbn [set_gaps by_pid total_buffered]. exists g. rewrite Hf. rb.
    cbn [set_parts set_gaps by_pid total_buffered]. rewrite insert_insert_eq, <- app_assoc.
    do 2 f_equal. unfold set_parts, set_gaps; cbn. f_equal. rewrite zlen_app. lia.
Qed.
End feeding.

(** A whole bounded packet, from the unit start. *)
Lemma feed_pes_bounded {E} r pid0 first rest ra v p :
  let pes := first ++ concat rest in
  by_pid r !! pid0 = None -> 0 <= total_buffered r ->
  Forall (fun c => c <> []) rest -> announces pes v (Some (zlen pes)) ->
  zlen pes <= cap_per_pid r -> total_buffered r + zlen pes <= cap_total r ->
  parse_complete pid0 pes ra = Ok (Some p) ->
  exists r', feed_pes (E:=E) r pid0 first rest ra v = Ok (r', [Complete p]) /\
    by_pid r' = by_pid r /\ buffered_bytes r' = buffered_bytes r /\ ReassemblerInv.keeps_caps r r'.
Proof.
  intros pes Hp Ht0 Hall Ha Hc Ht Hparse. unfold feed_pes. rewrite push_start by done.
  pose proof (zlen_nonneg (concat rest)) as Hrest. pose proof (zlen_nonneg first) as Hfirst.
  unfold pes in *. set (r0 := set_parts _ _ _).
  assert (Hr0 : by_pid r0 !! pid0 = Some (inflight (Some (zlen (first ++ concat rest))) [] ra))
    by (cbn; by rewrite lookup_insert_eq).
  destruct rest as [|c rest].
  - cbn [concat] in *. rewrite app_nil_r in *. rewrite (append_last _ _ [] first ra v p) by done. rb.
    eexists. split; [reflexivity|]. unfold buffered_bytes, r0. cbn [set_parts set_gaps by_pid total_buffered].
    rewrite delete_insert_eq, delete_id, zlen_nil by done. split_and!; [done|lia|done].
  - rewrite zlen_app in Hc, Ht.
    assert (Hz : concat (c :: rest) <> []).
    { apply Forall_cons in Hall as [Hc' _]. cbn. destruct c; done. }
    rewrite (append_more _ _ (Some (zlen (first ++ concat (c :: rest)))) [] first (concat (c :: rest)) ra v);
      [|done|done|by intros ? [= <-]|by left|cbn [app cap_per_pid]; change (cap_per_pid r0) with (cap_per_pid r); lia
       |change (total_buffered r0) with (total_buffered r); change (cap_total r0) with (cap_total r); lia].
    rb. rewrite (feed_bounded pid0 ra v (c :: rest) _ (first ++ concat (c :: rest)) first p);
      [|done|done|done| |done| | | |done].
    + rb. eexists. split; [reflexivity|]. unfold buffered_bytes, r0. cbn [set_parts set_gaps by_pid total_buffered].
      rewrite !delete_insert_eq, delete_id by done. split_and!; [done|lia|done].
    + cbn [set_parts by_pid]. by rewrite lookup_insert_eq.
    + rewrite zlen_app. exact Hc.
    + cbn [set_parts total_buffered cap_total]. change (total_buffered r0) with (total_buffered r).
      change (cap_total r0) with (cap_total r). lia.
    + cbn [set_parts total_buffered]. change (total_buffered r0) with (total_buffered r). lia.
Qed.

(** The unbounded packet a PID's receiver holds open, with what it parses to. *)
Definition holds (r : Reassembler) (pid : Z) (o : option (list Z * bool * PesPayload)) : Prop :=
  match o with
  | None => by_pid r !! pid = None
  | Some (pes, ra, p) => by_pid r !! pid = Some (inflight None pes ra) /\
      parse_complete pid pes ra = Ok (Some p) /\ zlen pes <= total_buffered r
  end.

Definition held_len (o : option (list Z * bool * PesPayload)) : Z :=
  match o with None => 0 | Some (pes, _, _) => zlen pes end.

Definition released (o : option (list Z * bool * PesPayload)) : list ReassemblyOutcome :=
  match o with None => [] | Some (_, _, p) => [Complete p] end.

(** A whole unbounded packet: it closes the one before it and stays open. *)
Lemma feed_pes_unbounded {E} r pid0 o first rest ra :
  let pes := first ++ concat rest in
  holds r pid0 o -> held_len o <= total_buffered r -> announces pes true None ->
  zlen pes <= cap_per_pid r -> total_buffered r - held_len o + zlen pes <= cap_total r ->
  exists r', feed_pes (E:=E) r pid0 first rest ra true = Ok (r', released o) /\
    by_pid r' = <[pid0 := inflight None pes ra]> (by_pid r) /\
    total_buffered r' = total_buffered r - held_len o + zlen pes /\ ReassemblerInv.keeps_caps r r'.
Proof.
  intros pes Ho Hle Ha Hc Ht. unfold feed_pes.
  assert (Hpush : push (E:=E) r pid0 first true ra true
    = append_payload (set_parts (set_gaps r []) (<[pid0 := inflight None [] ra]> (by_pid r))
                        (total_buffered r - held_len o)) pid0 first true (released o)).
  { destruct o as [[[pes0 ra0] p0]|]; cbn [holds held_len released] in *.
    - destruct Ho as (Hp & Hparse & Hz). by apply (push_restart r pid0 pes0 ra0 p0).
    - rewrite push_start by done. by rewrite Z.sub_0_r. }
  rewrite Hpush. unfold pes in *. pose proof (zlen_nonneg (concat rest)). pose proof (zlen_nonneg first).
  rewrite zlen_app in Hc, Ht.
  rewrite (append_more _ _ None [] first (concat rest) ra true);
    [|cbn; by rewrite lookup_insert_eq|done|done|by right|cbn [cap_per_pid set_parts set_gaps app]; lia
     |cbn [total_buffered cap_total set_parts set_gaps]; lia].
  rb. cbn [set_parts set_gaps by_pid total_buffered app].
  edestruct (feed_unbounded (E:=E) pid0 ra true rest) as (g & ->);
    [cbn; apply lookup_insert_eq|exact Ha|rewrite zlen_app; cbn [cap_per_pid set_parts set_gaps]; lia
    |cbn [total_buffered cap_total set_parts set_gaps]; lia|].
  rb. rewrite app_nil_r. eexists. split; [reflexivity|]. cbn [set_parts set_gaps by_pid total_buffered].
  rewrite !insert_insert_eq, zlen_app. split_and!; [done|lia|done].
Qed.

End Chunks.

(** * What PES writing, parsing and reassembly guarantee *)
Module PesTheorems.
Import Common PesWriter PesLayout Teletext PesParse PesRoundtrip PesTotal Reassembler ReassemblerInv Chunks.

(** A PES header written for any stream id with an optional header, any
    timestamp selector and any length that fits, followed by any body, parses
    back to the same stream id, the timestamps modulo 2^33, the alignment flag,
    no header issue, and exactly the body. *)
Theorem pes_header_roundtrip (pid0 sid : Z) (f : PesPtsField) (n : option Z) (flags : PesFlags)
    (body : list Z) (ra : bool) :
  has_optional_header sid = true -> length_ok f n ->
  exists header,
    append_header (E:=Empty_set) [] sid f n flags = Ok header /\
    parse_complete pid0 (header ++ body) ra
    = Ok (Some {| pid := pid0; stream_id := sid; pts := field_pts f; dts := field_dts f;
                  random_access_indicator := ra;
                  data_alignment_indicator := PesWriter.data_alignment_indicator flags;
                  header_issues := []; payload := body |}).
Proof.
  intros Hsid Hn. exists (pes_header sid f n flags). split.
  - by rewrite append_header_ok.
  - by apply parse_complete_header.
Qed.

Lemma pes_header_roundtrip_witness :
  exists header p,
    append_header (E:=Empty_set) [] 0xE0 (PtsAndDts 900900 897897) None
      {| PesWriter.data_alignment_indicator := true |} = Ok header /\
    parse_complete 0x100 (header ++ [0; 0; 0; 1; 9]) true = Ok (Some p) /\
    pts p = Some 900900 /\ dts p = Some 897897.
Proof.
  destruct (pes_header_roundtrip 0x100 0xE0 (PtsAndDts 900900 897897) None
    {| PesWriter.data_alignment_indicator := true |} [0; 0; 0; 1; 9] true) as (h & Hw & Hp);
    [reflexivity|exact I|].
  exists h. eexists. split; [exact Hw|split; [exact Hp|split; reflexivity]].
Defined.

Lemma teletext_parsed {E} pid0 pts0 data ra v total :
  dvb_teletext_total_pes_bytes (zlen data) (dvb_teletext_will_auto_prepend data) = Some total ->
  exists pes r, write_dvb_teletext_pes (E:=E) [] pts0 data = Ok pes /\ zlen pes = total /\ 0 <= r < 184 /\
    announces pes v (Some (zlen pes)) /\
    parse_complete pid0 pes ra
    = Ok (Some {| pid := pid0; stream_id := STREAM_ID_PRIVATE_STREAM_1; pts := Some (pts0 mod 2 ^ 33);
                  dts := None; random_access_indicator := ra; data_alignment_indicator := true;
                  header_issues := []; payload := id_bytes data ++ data ++ tail r |}).
Proof.
  intros Ht. pose proof (write_teletext_ok (E:=E) pts0 data total Ht) as Hw.
  destruct (total_spec _ _ _ (zlen_nonneg _) Ht) as (Hm & Hb & Hr). rewrite <- zlen_id_bytes in Hb.
  set (r := total - 45 - zlen (id_bytes data) - zlen data) in *. eexists _, r. split; [exact Hw|].
  assert (Hz : zlen (teletext_header pts0 total ++ id_bytes data ++ data ++ tail r) = total).
  { rewrite !zlen_app, zlen_teletext_header, zlen_tail by lia. lia. }
  rewrite Hz. split_and!; try lia.
  - exists (Z.shiftr (total - 6) 8 mod 256), ((total - 6) mod 256). split_and!; [done|done|].
    left. rewrite from_be16_be16 by lia. split; [lia|]. f_equal. lia.
  - unfold teletext_header. rewrite <- !app_assoc.
    exact (parse_complete_written pid0 STREAM_ID_PRIVATE_STREAM_1 _ _ true (PtsOnly pts0) (zrep 31 0xFF)
             (id_bytes data ++ data ++ tail r) ra eq_refl).
Qed.

(** A header with a length announces the packet it starts. *)
Lemma header_announces sid f flags body v : length_ok f (Some (zlen body)) ->
  let pes := pes_header sid f (Some (zlen body)) flags ++ body in announces pes v (Some (zlen pes)).
Proof.
  intros [_ Hl] pes. pose proof (pts_size_range f). pose proof (zlen_nonneg body).
  exists (as_u8 (Z.shiftr (packet_length f (Some (zlen body))) 8)), (as_u8 (Z.land (packet_length f (Some (zlen body))) 0xFF)).
  split_and!; [done|done|]. left.
  assert (Hj : from_be16 (as_u8 (Z.shiftr (packet_length f (Some (zlen body))) 8))
    (as_u8 (Z.land (packet_length f (Some (zlen body))) 0xFF)) = packet_length f (Some (zlen body))).
  { unfold as_u8. rewrite land_255, Z.mod_mod by lia. apply from_be16_be16. cbn. lia. }
  rewrite Hj. unfold pes. rewrite zlen_app, zlen_pes_header. cbn [packet_length]. split; [lia|]. f_equal. lia.
Qed.

(** A teletext payload is rejected exactly when the padded packet would
    not fit the 16-bit length field; otherwise the writer emits a whole number
    of 184-byte packet payloads, with the length field equal to the rest of the
    packet, which parses to the caller's payload (with [0x10] in front unless it
    already starts with a data identifier) followed by stuffing; the stuffing
    is a run of well-formed stuffing data units unless exactly one byte is left
    over after the whole 46-byte units. *)
Theorem teletext_pes_layout (pid0 pts0 : Z) (data : list Z) (ra : bool) :
  (45 + zlen (id_bytes data) + zlen data <= 65504 ->
   exists pes r, write_dvb_teletext_pes (E:=Empty_set) [] pts0 data = Ok pes /\
     zlen pes mod 184 = 0 /\ announces pes false (Some (zlen pes)) /\ 0 <= r < 184 /\
     (stuffing_units (tail r) <-> r mod 46 <> 1) /\
     parse_complete pid0 pes ra
     = Ok (Some {| pid := pid0; stream_id := STREAM_ID_PRIVATE_STREAM_1; pts := Some (pts0 mod 2 ^ 33);
                   dts := None; random_access_indicator := ra; data_alignment_indicator := true;
                   header_issues := []; payload := id_bytes data ++ data ++ tail r |})) /\
  (65504 < 45 + zlen (id_bytes data) + zlen data ->
   write_dvb_teletext_pes (E:=Empty_set) [] pts0 data = Panic).
Proof.
  split; intros Hlen.
  - destruct (dvb_teletext_total_pes_bytes (zlen data) (dvb_teletext_will_auto_prepend data)) as [total|] eqn:Ht.
    2:{ apply total_none in Ht; [|apply zlen_nonneg]. rewrite zlen_id_bytes in Hlen. lia. }
    destruct (teletext_parsed (E:=Empty_set) pid0 pts0 data ra false total Ht) as (pes & r & Hw & Hz & Hr & Ha & Hp).
    destruct (total_spec _ _ _ (zlen_nonneg _) Ht) as (Hm & _).
    exists pes, r. rewrite Hz in *. split_and!; try done; try lia. by apply tail_stuffing; lia.
  - unfold write_dvb_teletext_pes. rewrite zlen_id_bytes in Hlen.
    rewrite (proj2 (total_none _ _ (zlen_nonneg _))) by lia. done.
Qed.

Lemma teletext_pes_layout_witness :
  exists pes r, write_dvb_teletext_pes (E:=Empty_set) [] 90000 (zrep 138 0x10) = Ok pes /\
    zlen pes mod 184 = 0 /\ (stuffing_units (tail r) <-> r mod 46 <> 1).
Proof.
  destruct (proj1 (teletext_pes_layout 0x44 90000 (zrep 138 0x10) false)) as (pes & r & Hw & Hm & _ & _ & Hs & _).
  { vm_compute. discriminate. }
  exists pes, r. split; [exact Hw|split; [exact Hm|exact Hs]].
Defined.

(** On any bytes the PES parser returns without panicking: nothing when
    fewer than six bytes are there, a [MalformedPes] for that PID, or a packet
    whose payload is a suffix of the buffer after at least six header bytes,
    with the stream id of byte 3 and timestamps of 33 bits. *)
Theorem parse_complete_total (pid0 : Z) (buf : list Z) (ra : bool) :
  bytes buf ->
  (parse_complete pid0 buf ra = Ok None /\ zlen buf < 6) \/
  (exists reason, parse_complete pid0 buf ra = Err (MalformedPes pid0 reason) /\ 6 <= zlen buf) \/
  (exists pes, parse_complete pid0 buf ra = Ok (Some pes) /\ parsed pid0 buf ra (Some pes)).
Proof.
  intros Hb. pose proof (parse_complete_outcome pid0 buf ra Hb) as Ho.
  destruct (parse_complete pid0 buf ra) as [[pes|]|e|]; cbn in Ho.
  - right. right. by exists pes.
  - by left.
  - right. left. destruct Ho as [Hl [reason ->]]. by exists reason.
  - done.
Qed.

Lemma parse_complete_total_witness :
  exists pes, parse_complete 1 [0; 0; 1; 0xBF; 0; 2; 7; 8] false = Ok (Some pes) /\
              parsed 1 [0; 0; 1; 0xBF; 0; 2; 7; 8] false (Some pes).
Proof.
  destruct (parse_complete_total 1 [0; 0; 1; 0xBF; 0; 2; 7; 8] false)
    as [[Hn _]|[(reason & Hr & _)|Hp]]; [| | |exact Hp].
  - repeat constructor; unfold byte; lia.
  - vm_compute in Hn. discriminate.
  - vm_compute in Hr. discriminate.
Defined.

(** ** Reachable states *)

Inductive op : Type :=
| OpPush (pid : Z) (payload : list Z) (pusi ra is_video : bool)
| OpDrain
| OpMarkDamaged (pid : Z)
| OpTakeGap (pid : Z)
| OpTakeTotal
| OpRemove (pid : Z).

Definition exec {E} (r : Reassembler) (o : op) : res E Reassembler :=
  match o with
  | OpPush pid pl pusi ra v => let! (r, _) := push_split r pid pl pusi ra v in Ok r
  | OpDrain => let! (r, _) := drain_partial_outcomes r in Ok r
  | OpMarkDamaged pid => Ok (mark_damaged r pid)
  | OpTakeGap pid => Ok (snd (take_gap r pid))
  | OpTakeTotal => Ok (snd (take_total_overflow_pids r))
  | OpRemove pid => Ok (remove_pid r pid)
  end.

Fixpoint execs {E} (r : Reassembler) (os : list op) : res E Reassembler :=
  match os with
  | [] => Ok r
  | o :: os => let! r := exec r o in execs r os
  end.

Definition op_bytes (o : op) : Prop := match o with OpPush _ pl _ _ _ => bytes pl | _ => True end.

Lemma exec_inv {E} r o : inv r -> 0 <= cap_total r -> 0 <= cap_per_pid r -> op_bytes o ->
  outcome (E:=E) (fun r' => inv r' /\ keeps_caps r r') (fun _ => False) (exec r o).
Proof.
  intros Hr Hct Hcp Ho. destruct o; cbn [exec].
  - eapply outcome_bind; [by apply push_split_inv|]. by intros [].
  - eapply outcome_bind; [by apply drain_inv|]. by intros [].
  - by apply mark_damaged_inv.
  - by apply take_gap_inv.
  - cbn. by split; [apply inv_dropped|].
  - by apply remove_pid_inv.
Qed.

Lemma execs_inv {E} os r : inv r -> 0 <= cap_total r -> 0 <= cap_per_pid r -> Forall op_bytes os ->
  outcome (E:=E) (fun r' => inv r' /\ keeps_caps r r') (fun _ => False) (execs r os).
Proof.
  intros Hr Hct Hcp Hos. revert r Hr Hct Hcp. induction Hos as [|o os Ho _ IH]; intros; [done|].
  cbn [execs]. eapply outcome_bind; [by apply exec_inv|]. cbv beta. intros r' [Hr' [Hk1 Hk2]].
  eapply outcome_mono; [apply IH; [done|congruence|congruence]|]. cbv beta.
  intros r'' [? [? ?]]. split; [done|]. split; congruence.
Qed.

(** C17: from a fresh reassembler, any sequence of pushes (any PIDs, any flags,
    any bytes), damage marks, removals, drains and queries runs without a
    panic; at the end the byte counter equals the bytes the partials hold, does
    not exceed the aggregate cap, and no partial exceeds the per-PID cap. *)
Theorem reassembler_bounded (cap_per_pid0 cap_total0 : Z) (os : list op) :
  0 <= cap_per_pid0 -> 0 <= cap_total0 -> Forall op_bytes os ->
  exists r, execs (E:=Empty_set) (new cap_per_pid0 cap_total0) os = Ok r /\
    buffered_bytes r = held (by_pid r) /\ buffered_bytes r <= cap_total0 /\
    forall pid p, by_pid r !! pid = Some p -> zlen (buf p) <= cap_per_pid0.
Proof.
  intros Hcp Hct Hos.
  destruct (outcome_Ok _ _ (execs_inv (E:=Empty_set) os (new cap_per_pid0 cap_total0)
    (inv_new _ _ Hct) Hct Hcp Hos)) as (r & Hr & [Ht Hc Hf] & [Hk1 Hk2]).
  exists r. cbn in Hk1, Hk2. rewrite Hk2 in Hc. split_and!; [done..|].
  intros pid p Hp. destruct (Hf pid p Hp) as [_ Hle _]. by rewrite Hk1 in Hle.
Qed.

Lemma reassembler_bounded_witness :
  exists r, execs (E:=Empty_set) (new 100 1000)
    [OpPush 5 [0; 0; 1; 0xE0; 0; 0] true false true; OpMarkDamaged 5; OpPush 5 [1; 2; 3] false false true;
     OpRemove 6; OpTakeGap 5] = Ok r /\ buffered_bytes r = held (by_pid r).
Proof.
  destruct (reassembler_bounded 100 1000
    [OpPush 5 [0; 0; 1; 0xE0; 0; 0] true false true; OpMarkDamaged 5; OpPush 5 [1; 2; 3] false false true;
     OpRemove 6; OpTakeGap 5]) as (r & Hr & Hb & _); [lia|lia| |].
  { repeat constructor; unfold byte; lia. }
  exists r. split; [exact Hr|exact Hb].
Defined.

(** ** Whole packets *)

(** A PES with a length field, cut into any non-empty chunks and pushed on
    a PID with nothing in flight, first chunk flagged as unit start, comes out
    as exactly one [Complete] carrying what the parser reads from the whole
    packet, in whatever way it was cut; the reassembler keeps nothing of it. *)
Theorem reassemble_bounded (r : Reassembler) (pid0 : Z) (first : list Z) (rest : list (list Z))
    (ra v : bool) (p : PesPayload) :
  let pes := first ++ concat rest in
  by_pid r !! pid0 = None -> 0 <= total_buffered r ->
  Forall (fun c => c <> []) rest -> announces pes v (Some (zlen pes)) ->
  zlen pes <= cap_per_pid r -> total_buffered r + zlen pes <= cap_total r ->
  parse_complete pid0 pes ra = Ok (Some p) ->
  exists r', feed_pes (E:=Empty_set) r pid0 first rest ra v = Ok (r', [Complete p]) /\
    by_pid r' = by_pid r /\ buffered_bytes r' = buffered_bytes r.
Proof.
  intros pes Hp Ht0 Hall Ha Hc Ht Hparse.
  destruct (feed_pes_bounded (E:=Empty_set) r pid0 first rest ra v p) as (r' & Hf & Hb & Hbb & _); try done. by exists r'.
Qed.

Lemma reassemble_bounded_witness :
  exists r' p, feed_pes (E:=Empty_set) (new 1000 1000) 0x44 [0; 0; 1; 0xBF; 0] [[4; 1]; [2; 3; 4]] false false
               = Ok (r', [Complete p]) /\ payload p = [1; 2; 3; 4].
Proof.
  edestruct (reassemble_bounded (new 1000 1000) 0x44 [0; 0; 1; 0xBF; 0] [[4; 1]; [2; 3; 4]] false false)
    as (r' & Hf & _); [reflexivity|cbn; lia| | |vm_compute; discriminate|vm_compute; discriminate| |].
  - repeat constructor; discriminate.
  - exists 0, 4. split; [reflexivity|split; [reflexivity|]]. left. split; [discriminate|reflexivity].
  - vm_compute. reflexivity.
  - exists r'. eexists. split; [exact Hf|reflexivity].
Defined.

(** An unbounded video PES (length field zero), cut in any way, emits
    nothing until the next unit start on its PID; that push emits exactly the
    [Complete] of the first packet ahead of anything about the second, and the
    bytes it held are released. *)
Theorem reassemble_unbounded (r : Reassembler) (pid0 : Z) (first : list Z) (rest : list (list Z))
    (ra : bool) (p : PesPayload) (next : list Z) (ra' : bool) :
  let pes := first ++ concat rest in
  by_pid r !! pid0 = None -> 0 <= total_buffered r ->
  announces pes true None -> zlen pes <= cap_per_pid r -> total_buffered r + zlen pes <= cap_total r ->
  parse_complete pid0 pes ra = Ok (Some p) -> announces next true None ->
  zlen next <= cap_per_pid r -> total_buffered r + zlen next <= cap_total r ->
  exists r1 r2, feed_pes (E:=Empty_set) r pid0 first rest ra true = Ok (r1, []) /\
    push (E:=Empty_set) r1 pid0 next true ra' true = Ok (r2, [Complete p]) /\
    buffered_bytes r2 = buffered_bytes r + zlen next /\
    by_pid r2 = <[pid0 := inflight None next ra']> (by_pid r).
Proof.
  intros pes Hp Ht0 Ha Hc Ht Hparse Hn Hcn Htn.
  destruct (feed_pes_unbounded (E:=Empty_set) r pid0 None first rest ra) as (r1 & Hf & Hb & Hz & Hk1 & Hk2);
    [done|done|done|done|cbn; fold pes; lia|]. cbn [held_len released] in *. fold pes in Hb, Hz.
  destruct (feed_pes_unbounded (E:=Empty_set) r1 pid0 (Some (pes, ra, p)) next [] ra') as (r2 & Hf2 & Hb2 & Hz2 & _);
    cbn [concat held_len holds]; rewrite ?app_nil_r, ?Hz, ?Hk1, ?Hk2; [|lia|done|done|lia|].
  { rewrite Hb, lookup_insert_eq. split_and!; [done|done|lia]. }
  exists r1, r2. cbn [concat held_len released] in *. rewrite app_nil_r in *.
  split; [done|]. unfold feed_pes in Hf2. cbn [feed] in Hf2.
  destruct (push r1 pid0 next true ra' true) as [[r' out]| |]; [|done..]. cbn [rbind] in Hf2.
  injection Hf2 as <- Hout. rewrite app_nil_r in Hout. subst out.
  split; [done|]. unfold buffered_bytes. split; [lia|]. by rewrite Hb2, Hb, insert_insert_eq.
Qed.

Lemma reassemble_unbounded_witness :
  exists r1 r2 p, feed_pes (E:=Empty_set) (new 1000 1000) 0x100 [0; 0; 1; 0xE0] [[0; 0]; [0x80; 0; 0; 7; 8]]
      true true = Ok (r1, []) /\
    push (E:=Empty_set) r1 0x100 [0; 0; 1; 0xE0; 0; 0] true false true = Ok (r2, [Complete p]) /\
    payload p = [7; 8].
Proof.
  edestruct (reassemble_unbounded (new 1000 1000) 0x100 [0; 0; 1; 0xE0] [[0; 0]; [0x80; 0; 0; 7; 8]] true
    {| pid := 0x100; stream_id := 0xE0; pts := None; dts := None; random_access_indicator := true;
       data_alignment_indicator := false; header_issues := []; payload := [7; 8] |}
    [0; 0; 1; 0xE0; 0; 0] false) as (r1 & r2 & Hf & Hp & _);
    [reflexivity|cbn; lia| |vm_compute; discriminate|vm_compute; discriminate|vm_compute; reflexivity
    | |vm_compute; discriminate|vm_compute; discriminate|].
  - exists 0, 0. split; [reflexivity|split; [reflexivity|]]. right. split; [reflexivity|split; reflexivity].
  - exists 0, 0. split; [reflexivity|split; [reflexivity|]]. right. split; [reflexivity|split; reflexivity].
  - exists r1, r2. eexists. split; [exact Hf|split; [exact Hp|reflexivity]].
Defined.

End PesTheorems.
