(* ===== verification/PsiParse.v ===== *)
(** PSI sections on the demux side ([crates/tst-core/src/mpegts/demux/psi.rs]):
    the PAT and PMT parsers with every error they return, the descriptor
    walker, the syntax checks and the descriptor readouts. *)
From Stdlib Require Import ZArith Lia Bool.
From stdpp Require Import base list list_numbers.
From S2P Require Import Prelude Crc32.

Module PsiParse.
Import Crc32.

Record PatEntry : Type := { program_number : Z; pat_pid : Z }.

Record Pat : Type := {
  transport_stream_id : Z;
  pat_version : Z;
  pat_current_next : bool;
  pat_programs : list PatEntry
}.

Inductive PsiParseError : Type :=
| Truncated (have need : Z)
| TableIdMismatch (got expected : Z)
| CrcMismatch (computed declared : Z)
| SectionTooLong (section_length : Z)
| MalformedProgramEntry (offset : Z)
| DescriptorLoopOverflow (declared remaining : Z)
| FuturePsiSection
| SectionTooShort (table_id section_length min_required : Z)
| MultiSectionUnsupported (table_id last_section_number : Z).

Record PatSection : Type := {
  ps_transport_stream_id : Z;
  ps_version : Z;
  ps_current_next : bool;
  ps_section_number : Z;
  ps_last_section_number : Z;
  ps_programs : list PatEntry
}.

#[global] Instance PatEntry_eq_dec : EqDecision PatEntry.
Proof. solve_decision. Defined.

(** The checks both table parsers open with, up to and including the CRC:
    minimum buffer, table id, length range, buffer against declared length,
    CRC over everything but the trailer. Returns [total_len]. *)
Definition check_section (section : list Z) (min_buf table_id min_section_length : Z)
    : res PsiParseError Z :=
  if zlen section <? min_buf then Err (Truncated (zlen section) min_buf)
  else
  let! b0 := idx section 0 in
  if negb (b0 =? table_id) then Err (TableIdMismatch b0 table_id)
  else
  let! b1 := idx section 1 in
  let! b2 := idx section 2 in
  let section_length := Z.lor (Z.shiftl (Z.land b1 0x0F) 8) b2 in
  if 1021 <? section_length then Err (SectionTooLong section_length)
  else if section_length <? min_section_length
  then Err (SectionTooShort table_id section_length min_section_length)
  else
  let total_len := 3 + section_length in
  if zlen section <? total_len then Err (Truncated (zlen section) total_len)
  else
  let! n := usub total_len 4 in
  let! body := slice section 0 n in
  let computed := crc32_mpeg2 body in
  let! c0 := idx section (total_len - 4) in
  let! c1 := idx section (total_len - 3) in
  let! c2 := idx section (total_len - 2) in
  let! c3 := idx section (total_len - 1) in
  let declared := from_be32 c0 c1 c2 c3 in
  if negb (computed =? declared) then Err (CrcMismatch computed declared)
  else Ok total_len.

(** The [while off + 4 <= total_len - 4] program loop; [off] grows by 4 each
    turn, so the section length is enough fuel. *)
Fixpoint program_loop (fuel : nat) (section : list Z) (off limit : Z) (programs : list PatEntry)
    : res PsiParseError (list PatEntry * Z) :=
  if off + 4 <=? limit then
    match fuel with
    | O => Panic
    | S fuel =>
        let! b0 := idx section off in
        let! b1 := idx section (off + 1) in
        let! b2 := idx section (off + 2) in
        let! b3 := idx section (off + 3) in
        let e := {| program_number := from_be16 b0 b1; pat_pid := from_be16 (Z.land b2 0x1F) b3 |} in
        program_loop fuel section (off + 4) limit (programs ++ [e])
    end
  else Ok (programs, off).

Definition parse_pat_section (section : list Z) : res PsiParseError PatSection :=
  let! total_len := check_section section 12 0x00 9 in
  let! b3 := idx section 3 in
  let! b4 := idx section 4 in
  let! b5 := idx section 5 in
  let version := Z.land (Z.shiftr b5 1) 0x1F in
  let current_next_indicator := nz (Z.land b5 0x01) in
  if negb current_next_indicator then Err FuturePsiSection
  else
  let! section_number := idx section 6 in
  let! last_section_number := idx section 7 in
  let! limit := usub total_len 4 in
  let! (programs, off) := program_loop (length section) section 8 limit [] in
  if negb (off =? limit) then Err (MalformedProgramEntry off)
  else Ok {| ps_transport_stream_id := from_be16 b3 b4; ps_version := version;
             ps_current_next := current_next_indicator; ps_section_number := section_number;
             ps_last_section_number := last_section_number; ps_programs := programs |}.

Definition parse_pat (section : list Z) : res PsiParseError Pat :=
  let! s := parse_pat_section section in
  if negb (ps_last_section_number s =? 0)
  then Err (MultiSectionUnsupported 0x00 (ps_last_section_number s))
  else Ok {| transport_stream_id := ps_transport_stream_id s; pat_version := ps_version s;
             pat_current_next := ps_current_next s; pat_programs := ps_programs s |}.

Inductive PsiSyntaxKind : Type :=
| SectionSyntaxIndicatorUnset
| SectionNumberNonZero (observed : Z)
| ReservedBits
| SectionNumberOutOfRange (observed : Z)
| Malformed.

(** [section.get(i).is_some_and(f)] *)
Definition byte_and (section : list Z) (i : Z) (f : Z -> bool) : bool :=
  match get section i with Some b => f b | None => false end.

Definition psi_section_syntax_issues (section : list Z) (check_reserved_bits : bool)
    : list PsiSyntaxKind :=
  let issues := if byte_and section 1 (fun b => Z.land b 0x80 =? 0)
                then [SectionSyntaxIndicatorUnset] else [] in
  let issues :=
    match get section 6, get section 7 with
    | Some number, Some last =>
        if (last =? 0) && negb (number =? 0) then issues ++ [SectionNumberNonZero number] else issues
    | _, _ => issues
    end in
  if check_reserved_bits then
    let bad := byte_and section 1 (fun b => negb (Z.land b 0x40 =? 0) || negb (Z.land b 0x30 =? 0x30))
               || byte_and section 5 (fun b => negb (Z.land b 0xC0 =? 0xC0)) in
    let bad :=
      if byte_and section 0 (fun b => b =? 0x02) then
        bad || byte_and section 8 (fun b => negb (Z.land b 0xE0 =? 0xE0))
            || byte_and section 10 (fun b => negb (Z.land b 0xF0 =? 0xF0))
      else bad in
    if bad then issues ++ [ReservedBits] else issues
  else issues.

(** ** PMT *)

Record RawDescriptor : Type := { tag : Z; data : list Z }.

Record PmtStream : Type := {
  stream_type : Z;
  elementary_pid : Z;
  descriptors : list RawDescriptor
}.

Record Pmt : Type := {
  pmt_program_number : Z;
  pmt_version : Z;
  pmt_current_next : bool;
  pcr_pid : Z;
  program_descriptors : list RawDescriptor;
  streams : list PmtStream
}.

(** The [while i < buf.len()] loop of [walk_descriptors]; every turn advances
    by at least two bytes. *)
Fixpoint walk_loop (fuel : nat) (buf : list Z) (i : Z) (out : list RawDescriptor)
    : res PsiParseError (list RawDescriptor) :=
  if i <? zlen buf then
    match fuel with
    | O => Panic
    | S fuel =>
        if zlen buf <? i + 2 then
          let! remaining := usub (zlen buf) i in
          Err (DescriptorLoopOverflow (i + 2) remaining)
        else
        let! tag := idx buf i in
        let! len := idx buf (i + 1) in
        let start := i + 2 in
        let finish := start + len in
        if zlen buf <? finish then Err (DescriptorLoopOverflow finish (zlen buf))
        else
        let! data := slice buf start finish in
        walk_loop fuel buf finish (out ++ [{| tag := tag; data := data |}])
    end
  else Ok out.

Definition walk_descriptors (buf : list Z) : res PsiParseError (list RawDescriptor) :=
  walk_loop (length buf) buf 0 [].

(** The elementary-stream loop of [parse_pmt]. *)
Fixpoint stream_loop (fuel : nat) (section : list Z) (off limit : Z) (out : list PmtStream)
    : res PsiParseError (list PmtStream * Z) :=
  if off + 5 <=? limit then
    match fuel with
    | O => Panic
    | S fuel =>
        let! stream_type := idx section off in
        let! b1 := idx section (off + 1) in
        let! b2 := idx section (off + 2) in
        let! b3 := idx section (off + 3) in
        let! b4 := idx section (off + 4) in
        let elementary_pid := from_be16 (Z.land b1 0x1F) b2 in
        let es_info_length := Z.lor (Z.shiftl (Z.land b3 0x0F) 8) b4 in
        let desc_start := off + 5 in
        let desc_end := desc_start + es_info_length in
        if limit <? desc_end then Err (DescriptorLoopOverflow desc_end limit)
        else
        let! window := slice section desc_start desc_end in
        let! descriptors := walk_descriptors window in
        stream_loop fuel section desc_end limit
          (out ++ [{| stream_type := stream_type; elementary_pid := elementary_pid;
                      descriptors := descriptors |}])
    end
  else Ok (out, off).

Definition parse_pmt (section : list Z) : res PsiParseError Pmt :=
  let! total_len := check_section section 16 0x02 13 in
  let! b3 := idx section 3 in
  let! b4 := idx section 4 in
  let! b5 := idx section 5 in
  let version := Z.land (Z.shiftr b5 1) 0x1F in
  let current_next_indicator := nz (Z.land b5 0x01) in
  if negb current_next_indicator then Err FuturePsiSection
  else
  let! last_section_number := idx section 7 in
  if negb (last_section_number =? 0)
  then Err (MultiSectionUnsupported 0x02 last_section_number)
  else
  let! b8 := idx section 8 in
  let! b9 := idx section 9 in
  let! b10 := idx section 10 in
  let! b11 := idx section 11 in
  let program_info_length := Z.lor (Z.shiftl (Z.land b10 0x0F) 8) b11 in
  let pi_start := 12 in
  let pi_end := pi_start + program_info_length in
  let! limit := usub total_len 4 in
  if limit <? pi_end then Err (DescriptorLoopOverflow pi_end limit)
  else
  let! window := slice section pi_start pi_end in
  let! program_descriptors := walk_descriptors window in
  let! (streams, off) := stream_loop (length section) section pi_end limit [] in
  if negb (off =? limit) then Err (MalformedProgramEntry off)
  else Ok {| pmt_program_number := from_be16 b3 b4; pmt_version := version;
             pmt_current_next := current_next_indicator; pcr_pid := from_be16 (Z.land b8 0x1F) b9;
             program_descriptors := program_descriptors; streams := streams |}.

(** ** Descriptor readouts *)

Definition KLVA : list Z := [0x4B; 0x4C; 0x56; 0x41].

Definition starts_with (p l : list Z) : bool := bool_decide (take (length p) l = p).

Definition has_klva_registration (descs : list RawDescriptor) : bool :=
  existsb (fun d => (tag d =? 0x05) && starts_with KLVA (data d)) descs.

Record MetadataDescriptorFields : Type := {
  format : Z;
  format_identifier : option (list Z);
  fixed_len : Z;
  flags_reserved_ok : bool
}.

Definition metadata_descriptor_fields (body : list Z) : option MetadataDescriptorFields :=
  get! a0 := get body 0 in
  get! a1 := get body 1 in
  let pos := if from_be16 a0 a1 =? 0xFFFF then 6 else 2 in
  get! format := get body pos in
  let pos := pos + 1 in
  get! (format_identifier, pos) :=
    (if format =? 0xFF then
       get! id := get_range body pos (pos + 4) in Some (Some id, pos + 4)
     else Some (None, pos)) in
  let pos := pos + 1 in
  get! flags := get body pos in
  let pos := pos + 1 in
  get! pos :=
    (if negb (Z.land flags 0x10 =? 0) then get! n := get body pos in Some (pos + 1 + n)
     else Some pos) in
  let config := Z.shiftr flags 5 in
  get! pos :=
    (if (config =? 1) || (config =? 3) then get! n := get body pos in Some (pos + 1 + n)
     else if config =? 4 then Some (pos + 1)
     else if (config =? 5) || (config =? 6) then get! n := get body pos in Some (pos + 1 + n)
     else Some pos) in
  if zlen body <? pos then None
  else Some {| format := format; format_identifier := format_identifier; fixed_len := pos;
               flags_reserved_ok := Z.land flags 0x0F =? 0x0F |}.

Definition pid_in_range (v : Z) : option Z :=
  if (0x0010 <=? v) && (v <=? 0x1FFE) then Some v else None.

Definition find_tag (t : Z) (descs : list RawDescriptor) : option RawDescriptor :=
  List.find (fun d => tag d =? t) descs.

(** The trailing two bytes of a body of at least five. *)
Definition lenient_link {E} (d : list Z) : res E (option Z) :=
  if 5 <=? zlen d then
    let! a := idx d (zlen d - 2) in
    let! b := idx d (zlen d - 1) in
    Ok (pid_in_range (from_be16 a b))
  else Ok None.

Definition extract_metadata_link {E} (descs : list RawDescriptor) : res E (option Z) :=
  match find_tag 0x26 descs with
  | None => Ok None
  | Some d =>
      match metadata_descriptor_fields (data d) with
      | Some fields =>
          if flags_reserved_ok fields then
            match get_range (data d) (fixed_len fields) (fixed_len fields + 2) with
            | None => Ok None
            | Some private =>
                let! a := idx private 0 in
                let! b := idx private 1 in
                Ok (pid_in_range (from_be16 a b))
            end
          else lenient_link (data d)
      | None => lenient_link (data d)
      end
  end.

Inductive AudioClass : Type := ClassMp2 | ClassAac | ClassAacLatm | ClassAc3.

Definition classify_audio_stream_type (stream_type : Z) : option AudioClass :=
  if (stream_type =? 0x03) || (stream_type =? 0x04) then Some ClassMp2
  else if stream_type =? 0x0F then Some ClassAac
  else if stream_type =? 0x11 then Some ClassAacLatm
  else if stream_type =? 0x81 then Some ClassAc3
  else None.

End PsiParse.

(** * Totality of the PSI parsers *)
Module PsiTotal.
Import Crc32 PsiParse.

Definition any_error (e : PsiParseError) : Prop := True.

Lemma len_field b1 b2 : byte b1 -> byte b2 ->
  Z.lor (Z.shiftl (Z.land b1 0x0F) 8) b2 = b1 mod 16 * 256 + b2.
Proof. unfold byte. intros. rewrite land_15, shiftl_mul, (lor_add 8) by lia. done. Qed.

(** What a section that passed the opening checks looks like. *)
Record checked_section (section : list Z) (table_id min_section_length total : Z) : Prop := {
  cs_table : get section 0 = Some table_id;
  cs_length : exists b1 b2, get section 1 = Some b1 /\ get section 2 = Some b2 /\
                            total = 3 + (b1 mod 16 * 256 + b2);
  cs_range : 3 + min_section_length <= total <= 1024;
  cs_buffer : total <= zlen section
}.

Lemma check_section_outcome section min_buf table_id min_len :
  bytes section -> 3 <= min_buf -> 4 <= min_len ->
  outcome (checked_section section table_id min_len) any_error
    (check_section section min_buf table_id min_len).
Proof.
  intros Hb Hm Hl. unfold check_section. wp_step; [done|]. b2p. wp_step. wp_step; [done|]. do 2 wp_step.
  rewrite len_field by (by eapply bytes_get). b2p. subst.
  pose proof (bytes_get _ _ _ Hb Hget0) as B1. pose proof (bytes_get _ _ _ Hb Hget1) as B2.
  unfold byte in B1, B2. set (n := _ + _).
  wp_step; [done|]. wp_step; [done|]. wp_step; [done|]. b2p.
  unfold usub. rewrite (proj2 (Z.leb_le _ _)) by lia. rb. do 5 wp_step. wp_step; [done|]. cbn.
  split; [done|eauto|lia|lia].
Qed.

Lemma program_loop_total fuel section off limit acc :
  0 <= off -> limit <= zlen section -> limit <= off + Z.of_nat fuel ->
  outcome (fun _ => True) any_error (program_loop fuel section off limit acc).
Proof.
  revert off acc. induction fuel as [|fuel IH]; intros off acc Ho Hl Hf; cbn [program_loop];
    (wp_step; [|done]); b2p; [lia|]. do 4 wp_step. apply IH; lia.
Qed.

(** The one error of the descriptor walker. *)
Definition loop_overflow (e : PsiParseError) : Prop := exists d r, e = DescriptorLoopOverflow d r.
Lemma loop_overflow_intro d r : loop_overflow (DescriptorLoopOverflow d r).
Proof. by exists d, r. Qed.

Lemma walk_loop_total fuel buf i out : bytes buf -> 0 <= i -> zlen buf <= i + Z.of_nat fuel ->
  outcome (fun _ => True) loop_overflow (walk_loop fuel buf i out).
Proof.
  intros Hb. revert i out. induction fuel as [|fuel IH]; intros i out Hi Hf; cbn [walk_loop];
    (wp_step; [|done]); b2p; [lia|].
  wp_step; b2p; [unfold usub; rewrite (proj2 (Z.leb_le _ _)) by lia; apply loop_overflow_intro|].
  do 2 wp_step. pose proof (bytes_get _ _ _ Hb Hget0) as B. unfold byte in B.
  wp_step; b2p; [apply loop_overflow_intro|]. wp_step. apply IH; lia.
Qed.

Lemma walk_overflow buf : bytes buf -> outcome (fun _ => True) loop_overflow (walk_descriptors buf).
Proof. intros. apply walk_loop_total; [done|lia|unfold zlen; lia]. Qed.

Lemma walk_total buf : bytes buf -> outcome (fun _ => True) any_error (walk_descriptors buf).
Proof. intros. by eapply outcome_err_mono; [apply walk_overflow|]. Qed.

Lemma stream_loop_total fuel section off limit acc : bytes section ->
  0 <= off -> limit <= zlen section -> limit <= off + Z.of_nat fuel ->
  outcome (fun _ => True) any_error (stream_loop fuel section off limit acc).
Proof.
  intros Hb. revert off acc. induction fuel as [|fuel IH]; intros off acc Ho Hl Hf; cbn [stream_loop];
    (wp_step; [|done]); b2p; [lia|]. do 5 wp_step.
  rewrite len_field by (by eapply bytes_get).
  pose proof (bytes_get _ _ _ Hb Hget3) as B. unfold byte in B.
  pose proof (Z.mod_pos_bound x2 16 ltac:(lia)).
  wp_step; b2p; [done|]. wp_step.
  eapply outcome_bind; [apply walk_total; auto with zl|]. intros ds _. apply IH; lia.
Qed.

Lemma parse_pat_section_total section : bytes section ->
  outcome (fun _ => True) any_error (parse_pat_section section).
Proof.
  intros Hb. unfold parse_pat_section.
  eapply outcome_bind; [apply check_section_outcome; [done|lia..]|]. cbv beta.
  intros total [_ _ Hr Hbuf]. do 3 wp_step. wp_step; [done|]. do 2 wp_step.
  unfold usub. rewrite (proj2 (Z.leb_le _ _)) by lia. rb.
  eapply outcome_bind; [apply program_loop_total; [lia|lia|unfold zlen in *; lia]|]. intros [ps off] _.
  by wp_step.
Qed.

Lemma parse_pat_total section : bytes section -> outcome (fun _ => True) any_error (parse_pat section).
Proof.
  intros Hb. unfold parse_pat. eapply outcome_bind; [by apply parse_pat_section_total|].
  intros s _. by wp_step.
Qed.

Lemma parse_pmt_total section : bytes section -> outcome (fun _ => True) any_error (parse_pmt section).
Proof.
  intros Hb. unfold parse_pmt.
  eapply outcome_bind; [apply check_section_outcome; [done|lia..]|]. cbv beta.
  intros total [_ _ Hr Hbuf]. do 3 wp_step. wp_step; [done|]. wp_step. wp_step; [done|]. do 4 wp_step.
  rewrite len_field by (by eapply bytes_get). b2p.
  pose proof (bytes_get _ _ _ Hb Hget6) as B. unfold byte in B.
  pose proof (Z.mod_pos_bound x5 16 ltac:(lia)).
  unfold usub. rewrite (proj2 (Z.leb_le _ _)) by lia. rb.
  wp_step; b2p; [done|]. wp_step.
  eapply outcome_bind; [apply walk_total; auto with zl|]. intros ds _.
  eapply outcome_bind; [apply stream_loop_total; [done|lia|lia|unfold zlen in *; lia]|]. intros [ss off] _.
  by wp_step.
Qed.

End PsiTotal.

(** * What the PSI parsers guarantee *)
Module PsiTheorems.
Import Crc32 PsiParse PsiTotal.

(** ** Descriptor loops *)

Definition descriptor_ok (d : RawDescriptor) : Prop := byte (tag d) /\ bytes (data d) /\ zlen (data d) < 256.

Definition encode_descriptor (d : RawDescriptor) : list Z := tag d :: zlen (data d) :: data d.
Definition encode_descriptors (ds : list RawDescriptor) : list Z := concat (map encode_descriptor ds).

Lemma walk_loop_encoded ds pre fuel out :
  zlen (encode_descriptors ds) <= Z.of_nat fuel ->
  walk_loop fuel (pre ++ encode_descriptors ds) (zlen pre) out = Ok (out ++ ds).
Proof.
  revert pre fuel out. induction ds as [|d ds IH]; intros pre fuel out Hf.
  { unfold encode_descriptors; cbn [map concat]. rewrite app_nil_r.
    destruct fuel; cbn [walk_loop]; rewrite Z.ltb_irrefl, app_nil_r; done. }
  unfold encode_descriptors in *. cbn [map concat] in *. set (es := concat _) in *.
  unfold encode_descriptor in *. cbn [app] in *.
  rewrite !zlen_cons, zlen_app in Hf. pose proof (zlen_nonneg es). pose proof (zlen_nonneg (data d)).
  destruct fuel as [|fuel]; [lia|]. cbn [walk_loop].
  assert (Hz : zlen (pre ++ tag d :: zlen (data d) :: data d ++ es) = zlen pre + (1 + (1 + (zlen (data d) + zlen es))))
    by (by rewrite zlen_app, !zlen_cons, zlen_app).
  rewrite Hz. rewrite (proj2 (Z.ltb_lt _ _)), (proj2 (Z.ltb_ge _ _)) by lia.
  unfold idx. rewrite get_app_len. rb.
  rewrite (cons_middle (tag d)), app_assoc.
  assert (Hp1 : zlen pre + 1 = zlen (pre ++ [tag d])) by (by rewrite zlen_app).
  rewrite Hp1, get_app_len. rb.
  rewrite (proj2 (Z.ltb_ge _ _)) by lia.
  rewrite (cons_middle (zlen (data d))), app_assoc.
  rewrite slice_app by (rewrite !zlen_app, ?zlen_cons, ?zlen_nil; lia). rb.
  replace (zlen pre + 2 + zlen (data d)) with (zlen (((pre ++ [tag d]) ++ [zlen (data d)]) ++ data d))
    by (rewrite !zlen_app, !zlen_cons, zlen_nil; lia).
  rewrite app_assoc, IH by lia. rewrite <- app_assoc. destruct d. done.
Qed.

Lemma walk_loop_sound fuel pre rest out ds :
  walk_loop fuel (pre ++ rest) (zlen pre) out = Ok ds -> bytes rest ->
  exists ds', ds = out ++ ds' /\ rest = encode_descriptors ds' /\ Forall descriptor_ok ds'.
Proof.
  revert pre rest out. induction fuel as [|fuel IH]; intros pre rest out; cbn [walk_loop].
  { rewrite zlen_app. ifs; [done|]. b2p. intros [= <-] _. exists [].
    rewrite app_nil_r. split_and!; [done| |constructor]. apply zlen_0. pose proof (zlen_nonneg rest). lia. }
  rewrite !zlen_app. ifs; b2p.
  2:{ intros [= <-] _. exists []. rewrite app_nil_r. split_and!; [done| |constructor].
      apply zlen_0. pose proof (zlen_nonneg rest). lia. }
  ifs; [unfold usub; by ifs|]. b2p.
  destruct rest as [|t [|l rest]]; [rewrite zlen_nil in *; lia|rewrite zlen_cons, zlen_nil in *; lia|].
  rewrite !zlen_cons in *. unfold idx. rewrite get_app_len. rb.
  rewrite (cons_middle t), app_assoc.
  assert (zlen pre + 1 = zlen (pre ++ [t])) as -> by (by rewrite zlen_app).
  rewrite get_app_len. rb. ifs; [done|]. b2p. intros Hw Hb. bytes_inv. unfold byte in *.
  rewrite (cons_middle l), app_assoc in Hw.
  set (pre2 := (pre ++ [t]) ++ [l]) in *.
  assert (Hpre2 : zlen pre2 = zlen pre + 2) by (unfold pre2; rewrite !zlen_app, !zlen_cons, zlen_nil; lia).
  assert (Hrest : rest = ztake l rest ++ zdrop l rest) by (by rewrite ztake_zdrop).
  assert (Hl : zlen (ztake l rest) = l) by (rewrite zlen_ztake; lia).
  rewrite Hrest in Hw. rewrite slice_app in Hw by lia. cbn [rbind] in Hw.
  replace (zlen pre + 2 + l) with (zlen (pre2 ++ ztake l rest)) in Hw by (rewrite zlen_app; lia).
  rewrite app_assoc in Hw. apply IH in Hw as (ds' & -> & Hds & Hok); [|auto with zl].
  exists ({| tag := t; data := ztake l rest |} :: ds'). rewrite <- app_assoc. split_and!; [done| |].
  - unfold encode_descriptors in *. cbn [map concat encode_descriptor tag data app].
    rewrite Hl, <- Hds. unfold encode_descriptor; cbn. by rewrite <- Hrest.
  - constructor; [|done]. unfold descriptor_ok; cbn. rewrite Hl. split_and!; try lia; auto with zl.
Qed.

(** The descriptor walker accepts exactly the concatenations of
    tag/length/data triples, and returns those triples in order; on anything
    else it reports [DescriptorLoopOverflow], never a panic. *)
Theorem walk_descriptors_exact (buf : list Z) :
  bytes buf ->
  (forall ds, walk_descriptors buf = Ok ds <-> buf = encode_descriptors ds /\ Forall descriptor_ok ds) /\
  ((exists ds, walk_descriptors buf = Ok ds) \/
   (exists d r, walk_descriptors buf = Err (DescriptorLoopOverflow d r))).
Proof.
  intros Hb. split.
  2:{ pose proof (walk_overflow buf Hb) as Ho. destruct (walk_descriptors buf) as [ds|e|]; [eauto| |done].
      destruct Ho as (d & r & ->). eauto. }
  intros ds. split.
  - intros Hw. destruct (walk_loop_sound (length buf) [] buf [] ds Hw Hb) as (ds' & -> & Hds & Hok). done.
  - intros [-> _]. unfold walk_descriptors. apply (walk_loop_encoded ds []). unfold zlen. lia.
Qed.

Lemma walk_descriptors_exact_witness :
  walk_descriptors [0x05; 4; 0x4B; 0x4C; 0x56; 0x41; 0x0A; 0]
  = Ok [{| tag := 0x05; data := KLVA |}; {| tag := 0x0A; data := [] |}].
Proof.
  apply (walk_descriptors_exact [0x05; 4; 0x4B; 0x4C; 0x56; 0x41; 0x0A; 0]).
  - repeat constructor; unfold byte; lia.
  - split; [reflexivity|]. repeat constructor; cbn; try (unfold byte; lia).
Defined.

(** ** Corruption *)

(** Exactly the byte strings with a matching trailer have residue zero. *)
Lemma residue_iff body t : bytes body -> bytes t -> length t = 4%nat ->
  (crc32_mpeg2 (body ++ t) = 0 <-> t = be32 (crc32_mpeg2 body)).
Proof.
  intros Hb Ht Hl. split; [|intros ->; by apply crc_residue].
  intros Hz. apply (foldl_word_inj (crc32_mpeg2 body)); [by apply crc_reg|done|apply be32_bytes|done|done|].
  rewrite foldl_self by (by apply crc_reg).
  rewrite <- Hz. unfold crc32_mpeg2. by rewrite foldl_app.
Qed.

(** The section a table parser reads, when the opening checks other than the
    CRC hold: header, rest, trailer. *)
Definition well_framed (section : list Z) (table_id min_buf min_len : Z) : Prop :=
  exists b1 b2 r, section = table_id :: b1 :: b2 :: r /\ bytes section /\ min_buf <= zlen section /\
    zlen r = b1 mod 16 * 256 + b2 /\ min_len <= zlen r <= 1021.

Lemma check_framed section table_id min_buf min_len :
  3 <= min_buf -> 4 <= min_len -> well_framed section table_id min_buf min_len ->
  (crc32_mpeg2 section = 0 -> check_section section min_buf table_id min_len = Ok (zlen section)) /\
  (crc32_mpeg2 section <> 0 ->
   exists c d, check_section section min_buf table_id min_len = Err (CrcMismatch c d)).
Proof.
  intros Hmb Hml (b1 & b2 & r & -> & Hb & Hlen & Hr & Hrange).
  assert (byte b1 /\ byte b2) as [Hb1 Hb2] by (clear - Hb; bytes_inv; done). set (section := table_id :: b1 :: b2 :: r) in *.
  assert (Hz : zlen section = 3 + zlen r) by (unfold section; rewrite !zlen_cons; lia).
  set (n := zlen section - 4).
  destruct (zdrop n section) as [|c0 [|c1 [|c2 [|c3 [|]]]]] eqn:Hd;
    try (exfalso; apply (f_equal zlen) in Hd; rewrite zlen_zdrop in Hd by (unfold n; lia);
         rewrite ?zlen_cons, ?zlen_nil in Hd; unfold n in Hd; zlia).
  assert (Hsec : section = ztake n section ++ [c0; c1; c2; c3]) by (by rewrite <- Hd, ztake_zdrop).
  set (body := ztake n section) in *.
  assert (Hzb : zlen body = n) by (unfold body; rewrite zlen_ztake; unfold n; lia).
  assert (Hbb : bytes body) by (unfold body; auto with zl).
  assert (Hbt : bytes [c0; c1; c2; c3]) by (rewrite <- Hd; auto with zl).
  assert (Hval : check_section section min_buf table_id min_len =
    if negb (crc32_mpeg2 body =? from_be32 c0 c1 c2 c3)
    then Err (CrcMismatch (crc32_mpeg2 body) (from_be32 c0 c1 c2 c3)) else Ok (zlen section)).
  { unfold check_section. rewrite (proj2 (Z.ltb_ge _ _)) by lia.
    unfold section at 1 2 3. idxs. rewrite Z.eqb_refl. rb. cbn [negb]. fold section.
    rewrite len_field, <- Hr, <- Hz by done.
    rewrite (proj2 (Z.ltb_ge 1021 _)), (proj2 (Z.ltb_ge (zlen r) _)), (proj2 (Z.ltb_ge _ _)) by lia.
    unfold usub. rewrite (proj2 (Z.leb_le _ _)) by lia. rb. fold n.
    rewrite (slice_mid [] body [c0; c1; c2; c3] section 0 n) by (done || (rewrite zlen_nil; lia)). rb.
    assert (Hget : forall j x, [c0; c1; c2; c3] !! j = Some x ->
      idx (E:=PsiParseError) section (n + Z.of_nat j) = Ok x).
    { intros j x Hj. apply idx_Ok. rewrite Hsec, get_app_r by lia. rewrite Hzb.
      unfold get. rewrite (proj2 (Z.ltb_ge _ _)) by lia. rewrite <- Hj. f_equal. lia. }
    replace (zlen section - 3) with (n + Z.of_nat 1) by (unfold n; lia).
    replace (zlen section - 2) with (n + Z.of_nat 2) by (unfold n; lia).
    replace (zlen section - 1) with (n + Z.of_nat 3) by (unfold n; lia).
    rewrite <- (Z.add_0_r n) at 1. change 0 with (Z.of_nat 0).
    rewrite (Hget 0%nat c0), (Hget 1%nat c1), (Hget 2%nat c2), (Hget 3%nat c3) by done. rb. done. }
  rewrite Hval, Hsec, residue_iff by done.
  assert (Heq : [c0; c1; c2; c3] = be32 (crc32_mpeg2 body) <-> crc32_mpeg2 body = from_be32 c0 c1 c2 c3).
  { pose proof (crc_reg body Hbb) as Hreg. unfold reg in Hreg. bytes_inv. unfold byte in *. split.
    - intros Heq. unfold be32 in Heq. injection Heq as -> -> -> ->. symmetry. by apply from_be32_be32.
    - intros ->. by rewrite be32_from_be32. }
  rewrite Heq, <- Hsec. destruct (crc32_mpeg2 body =? from_be32 c0 c1 c2 c3) eqn:Hc; b2p; split; intros; try done.
  eauto.
Qed.

Lemma well_framed_corrupt p w w' s table_id min_buf min_len :
  3 <= zlen p -> length w = length w' -> bytes w' ->
  well_framed (p ++ w ++ s) table_id min_buf min_len -> well_framed (p ++ w' ++ s) table_id min_buf min_len.
Proof.
  intros Hp Hl Hw' (b1 & b2 & r & Hsec & Hb & Hmin & Hr & Hrange).
  assert (Hzl : zlen w = zlen w') by (unfold zlen; lia).
  destruct p as [|t [|b1' [|b2' p]]]; [rewrite ?zlen_cons, ?zlen_nil in Hp; lia..|].
  cbn [app] in *. injection Hsec as -> -> -> <-.
  exists b1, b2, (p ++ w' ++ s). rewrite !zlen_cons, !zlen_app in *.
  split_and!; [done| |lia|lia|lia|lia].
  unfold bytes in *. rewrite !Forall_cons, !Forall_app in Hb |- *. tauto.
Qed.

Lemma burst_rejected p w w' s table_id min_buf min_len :
  3 <= min_buf -> 4 <= min_len -> 3 <= zlen p -> bytes w' ->
  length w = length w' -> (length w <= 4)%nat -> w <> w' ->
  well_framed (p ++ w ++ s) table_id min_buf min_len ->
  is_ok (check_section (p ++ w ++ s) min_buf table_id min_len) = true ->
  exists c d, check_section (p ++ w' ++ s) min_buf table_id min_len = Err (CrcMismatch c d).
Proof.
  intros Hmb Hml Hp Hw' Hl Hl4 Hne Hwf Hok.
  destruct (check_framed _ _ _ _ Hmb Hml Hwf) as [_ Hbad].
  apply (check_framed _ _ _ _ Hmb Hml); [by eapply well_framed_corrupt|].
  intros Hz'. assert (Hz : crc32_mpeg2 (p ++ w ++ s) = 0).
  { destruct (decide (crc32_mpeg2 (p ++ w ++ s) = 0)) as [|Hn]; [done|].
    destruct (Hbad Hn) as (c & d & Heq). by rewrite Heq in Hok. }
  destruct Hwf as (b1 & b2 & r & _ & Hb & _). apply bytes_app in Hb as [Hbp Hb]. apply bytes_app in Hb as [Hbw Hbs].
  eapply (crc_burst p w w' s); try done. congruence.
Qed.

(** Take a PAT or PMT section the parser accepts and alter it in any way
    inside a window of up to four consecutive bytes after the length field; the
    parser then rejects it with [CrcMismatch], whichever bytes were hit (table
    body or CRC trailer). *)
Theorem psi_corruption_rejected (p w w' s : list Z) :
  3 <= zlen p -> bytes w' -> length w = length w' -> (length w <= 4)%nat -> w <> w' ->
  (forall sec, well_framed (p ++ w ++ s) 0x00 12 9 -> parse_pat_section (p ++ w ++ s) = Ok sec ->
     exists c d, parse_pat_section (p ++ w' ++ s) = Err (CrcMismatch c d)) /\
  (forall pmt, well_framed (p ++ w ++ s) 0x02 16 13 -> parse_pmt (p ++ w ++ s) = Ok pmt ->
     exists c d, parse_pmt (p ++ w' ++ s) = Err (CrcMismatch c d)).
Proof.
  intros Hp Hw' Hl Hl4 Hne. split.
  - intros sec Hwf Hok. apply rbind_ok in Hok as (total & Hcheck & _).
    destruct (burst_rejected p w w' s 0x00 12 9) as (c & d & Heq); try done; try lia; [by rewrite Hcheck|].
    exists c, d. unfold parse_pat_section. by rewrite Heq.
  - intros pmt Hwf Hok. apply rbind_ok in Hok as (total & Hcheck & _).
    destruct (burst_rejected p w w' s 0x02 16 13) as (c & d & Heq); try done; try lia; [by rewrite Hcheck|].
    exists c, d. unfold parse_pmt. by rewrite Heq.
Qed.

Lemma psi_corruption_rejected_witness :
  exists c d, parse_pat_section ([0x00; 0xB0; 0x0D; 0x00; 0x01; 0xC1; 0x00; 0x00; 0x00; 0x01] ++ [0xF1; 0x00] ++
                                 be32 (crc32_mpeg2 [0x00; 0xB0; 0x0D; 0x00; 0x01; 0xC1; 0x00; 0x00; 0x00; 0x01; 0xE1; 0x00]))
              = Err (CrcMismatch c d).
Proof.
  edestruct (psi_corruption_rejected [0x00; 0xB0; 0x0D; 0x00; 0x01; 0xC1; 0x00; 0x00; 0x00; 0x01] [0xE1; 0x00]
    [0xF1; 0x00] (be32 (crc32_mpeg2 [0x00; 0xB0; 0x0D; 0x00; 0x01; 0xC1; 0x00; 0x00; 0x00; 0x01; 0xE1; 0x00])))
    as [Hpat _].
  - vm_compute. discriminate.
  - repeat constructor; unfold byte; lia.
  - reflexivity.
  - cbn. lia.
  - discriminate.
  - eapply Hpat; [|vm_compute; reflexivity].
    exists 0xB0, 0x0D. eexists. split; [reflexivity|]. split; [repeat constructor; vm_compute; try discriminate; try reflexivity|].
    split; [vm_compute; discriminate|]. split; [reflexivity|]. split; vm_compute; discriminate.
Defined.

(** On any bytes the PAT and PMT parsers return a table or one of their
    declared errors; no length field, loop bound or descriptor length makes
    them read out of range, underflow or loop. *)
Theorem psi_parsers_total (section : list Z) :
  bytes section ->
  no_panic (parse_pat_section section) /\ no_panic (parse_pat section) /\ no_panic (parse_pmt section).
Proof.
  intros Hb. split_and!; eapply outcome_no_panic;
    [by apply parse_pat_section_total|by apply parse_pat_total|by apply parse_pmt_total].
Qed.

Lemma psi_parsers_total_witness : no_panic (parse_pmt (zrep 16 2)).
Proof.
  apply (psi_parsers_total (zrep 16 2)). apply bytes_rep. unfold byte. lia.
Defined.

End PsiTheorems.
