(* ===== verification/PsiAssembly.v ===== *)
(** PSI reassembly: one section across transport packets
    ([crates/tst-core/src/mpegts/demux/psi_assembler.rs]) and one PAT across
    sections ([crates/tst-core/src/mpegts/demux/pat_reassemble.rs]). *)
From Stdlib Require Import ZArith Lia Bool.
From stdpp Require Import base list list_numbers gmap.
From S2P Require Import Prelude Crc32 PsiParse.

(** * One section across packets *)
Module PsiAssembler.

Definition MAX_SECTION_SIZE : Z := 4096.

Record PsiSectionAssembler : Type := { buf : list Z; declared_total : option Z }.

Inductive AssemblerError : Type :=
| Overflow (observed_len : Z)
| DeclaredTooLong (declared_len : Z).

Definition new : PsiSectionAssembler := {| buf := []; declared_total := None |}.

Definition reset (a : PsiSectionAssembler) : PsiSectionAssembler := {| buf := []; declared_total := None |}.

(** The methods update the assembler on every path, so each returns its next
    state beside its [Result]. *)
Definition step : Type := PsiSectionAssembler * res AssemblerError (option (list Z)).

(** The completion test at the end of [append]. *)
Definition split_complete (a : PsiSectionAssembler) : step :=
  match declared_total a with
  | Some total =>
      if total <=? zlen (buf a)
      then ({| buf := zdrop total (buf a); declared_total := None |}, Ok (Some (ztake total (buf a))))
      else (a, Ok None)
  | None => (a, Ok None)
  end.

Definition append (a : PsiSectionAssembler) (payload : list Z) : step :=
  let new_len := zlen (buf a) + zlen payload in
  if MAX_SECTION_SIZE <? new_len then (reset a, Err (Overflow new_len))
  else
  let a := {| buf := buf a ++ payload; declared_total := declared_total a |} in
  match declared_total a with
  | None =>
      if 3 <=? zlen (buf a) then
        match get (buf a) 1, get (buf a) 2 with
        | Some b1, Some b2 =>
            let section_length := Z.lor (Z.shiftl (Z.land b1 0x0F) 8) b2 in
            let total := 3 + section_length in
            if MAX_SECTION_SIZE <? total then (reset a, Err (DeclaredTooLong total))
            else split_complete {| buf := buf a; declared_total := Some total |}
        | _, _ => (a, Panic)
        end
      else split_complete a
  | Some _ => split_complete a
  end.

Definition start_new_section (a : PsiSectionAssembler) (payload : list Z) : step :=
  append (reset a) payload.

Definition has_partial (a : PsiSectionAssembler) : bool := match buf a with [] => false | _ => true end.

Definition append_continuation (a : PsiSectionAssembler) (payload : list Z) : step :=
  match buf a with
  | [] => (a, Ok None)
  | _ => append a payload
  end.

Definition try_complete_section (a : PsiSectionAssembler) : step :=
  match buf a with
  | b :: _ => if b =? 0xFF then (reset a, Ok None) else append a []
  | [] => (a, Ok None)
  end.

End PsiAssembler.

(** * One PAT across sections *)
Module PatReassembler.
Import PsiParse.

Definition MAX_PAT_ENTRIES : Z := 8192.

Definition Key : Type := Z * Z * bool.

Record PatReassembler : Type := {
  key : option Key;
  last_section_number : Z;
  sections : gmap Z (list PatEntry);
  entry_count : Z
}.

Inductive PatReassemblyOutcome : Type :=
| Pending
| Complete (entries : list PatEntry)
| Broken
| OutOfRange (observed : Z).

Definition clear : PatReassembler :=
  {| key := None; last_section_number := 0; sections := ∅; entry_count := 0 |}.

Definition section_key (s : PatSection) : Key :=
  (ps_transport_stream_id s, ps_version s, ps_current_next s).

Definition start (k : Key) (s : PatSection) : PatReassembler :=
  {| key := Some k; last_section_number := ps_last_section_number s; sections := ∅; entry_count := 0 |}.

(** The sections [0..=last] in order. *)
Definition section_range (last : Z) : list Z := seqZ 0 (last + 1).

Definition merged (last : Z) (m : gmap Z (list PatEntry)) : list PatEntry :=
  concat (omap (fun n => m !! n) (section_range last)).

Definition all_present (last : Z) (m : gmap Z (list PatEntry)) : bool :=
  (Z.of_nat (size m) =? last + 1)
  && forallb (fun n => match m !! n with Some _ => true | None => false end) (section_range last).

(** From the insertion of the section on. *)
Definition store {E} (r : PatReassembler) (s : PatSection)
    : res E (PatReassembler * PatReassemblyOutcome) :=
  let prev := sections r !! ps_section_number s in
  let! kept := usub (entry_count r) (match prev with Some p => zlen p | None => 0 end) in
  let r := {| key := key r; last_section_number := last_section_number r;
              sections := <[ps_section_number s := ps_programs s]> (sections r);
              entry_count := kept + zlen (ps_programs s) |} in
  if MAX_PAT_ENTRIES <? entry_count r then Ok (clear, Broken)
  else if all_present (last_section_number r) (sections r)
  then Ok (clear, Complete (merged (last_section_number r) (sections r)))
  else Ok (r, Pending).

Definition accept {E} (r : PatReassembler) (s : PatSection)
    : res E (PatReassembler * PatReassemblyOutcome) :=
  if ps_last_section_number s <? ps_section_number s
  then Ok (r, OutOfRange (ps_section_number s))
  else
  match key r with
  | Some k =>
      if bool_decide (k = section_key s) then
        if negb (ps_last_section_number s =? last_section_number r) then Ok (clear, Broken)
        else store r s
      else store (start (section_key s) s) s
  | None => store (start (section_key s) s) s
  end.

End PatReassembler.

(** * Sections survive packet boundaries *)
Module PsiAssemblerTheorems.
Import PsiAssembler PsiTotal.

(** A section as framed by its own length field. *)
Definition framed (s : list Z) : Prop :=
  exists t b1 b2 r, s = t :: b1 :: b2 :: r /\ bytes s /\
    zlen r = b1 mod 16 * 256 + b2 /\ zlen s <= MAX_SECTION_SIZE.

Lemma framed_len s : framed s -> 3 <= zlen s.
Proof. intros (t & b1 & b2 & r & -> & _). rewrite !zlen_cons. zlia. Qed.

(** The length field is read off any prefix of at least three bytes. *)
Lemma framed_field s x y : framed s -> s = x ++ y -> 3 <= zlen x ->
  exists b1 b2, get x 1 = Some b1 /\ get x 2 = Some b2 /\
    3 + Z.lor (Z.shiftl (Z.land b1 0x0F) 8) b2 = zlen s.
Proof.
  intros (t & b1 & b2 & r & -> & Hb & Hr & _) Hxy Hl.
  destruct x as [|x0 [|x1 [|x2 x]]]; [rewrite ?zlen_cons, ?zlen_nil in Hl; lia..|].
  cbn [app] in Hxy. injection Hxy as -> -> -> _. exists x1, x2. split_and!; [done..|].
  bytes_inv. rewrite len_field, !zlen_cons by done. lia.
Qed.

(** The assembler after the proper prefix [x] of the section [s]. *)
Definition holding (s x : list Z) : PsiSectionAssembler :=
  {| buf := x; declared_total := if 3 <=? zlen x then Some (zlen s) else None |}.

Lemma append_prefix s x y z : framed s -> s = x ++ y ++ z -> z <> [] ->
  append (holding s x) y = (holding s (x ++ y), Ok None).
Proof.
  intros Hs Heq Hz. pose proof (framed_len s Hs) as H3.
  assert (Hlen : zlen s = zlen x + zlen y + zlen z) by (rewrite Heq, !zlen_app; lia).
  assert (0 < zlen z) by (destruct z; [done|rewrite zlen_cons; zlia]).
  assert (Hmax : zlen s <= MAX_SECTION_SIZE) by (by destruct Hs as (?&?&?&?&?&?&?&?)).
  unfold append. cbn [holding buf declared_total]. rewrite (proj2 (Z.ltb_ge _ _)) by lia.
  assert (Hsplit : forall b d, b = x ++ y -> (forall t, d = Some t -> t = zlen s) ->
    split_complete {| buf := b; declared_total := d |} = ({| buf := b; declared_total := d |}, Ok None)).
  { intros b d -> Hd. unfold split_complete; cbn. destruct d as [t|]; [|done].
    rewrite (Hd t eq_refl). rewrite (proj2 (Z.leb_gt _ _)) by (rewrite zlen_app; lia). done. }
  unfold holding. destruct (3 <=? zlen x) eqn:Hx; b2p.
  - rewrite Hsplit by (done || (by intros ? [= <-])).
    by rewrite (proj2 (Z.leb_le 3 (zlen (x ++ y)))) by (rewrite zlen_app; zlia).
  - destruct (3 <=? zlen (x ++ y)) eqn:Hxy; b2p; [|by rewrite Hsplit].
    destruct (framed_field s (x ++ y) z Hs) as (b1 & b2 & -> & -> & Hf); [by rewrite <- app_assoc|done|].
    cbv zeta. rewrite Hf, (proj2 (Z.ltb_ge _ _)) by lia. by rewrite Hsplit by (done || (by intros ? [= <-])).
Qed.

(** The chunk that completes it, with [rest] of the next section behind it. *)
Lemma append_final s x y rest : framed s -> s = x ++ y -> zlen s + zlen rest <= MAX_SECTION_SIZE ->
  append (holding s x) (y ++ rest) = ({| buf := rest; declared_total := None |}, Ok (Some s)).
Proof.
  intros Hs Heq Hmax. pose proof (framed_len s Hs) as H3. pose proof (zlen_nonneg rest).
  assert (Hlen : zlen s = zlen x + zlen y) by (by rewrite Heq, zlen_app).
  unfold append. cbn [holding buf declared_total]. rewrite zlen_app, (proj2 (Z.ltb_ge _ _)) by lia.
  rewrite app_assoc, <- Heq.
  assert (Hsplit : split_complete {| buf := s ++ rest; declared_total := Some (zlen s) |}
                   = ({| buf := rest; declared_total := None |}, Ok (Some s))).
  { unfold split_complete; cbn [buf declared_total]. rewrite (proj2 (Z.leb_le _ _)) by (rewrite zlen_app; lia).
    by rewrite ztake_app, zdrop_app. }
  destruct (3 <=? zlen x); [done|]. rewrite (proj2 (Z.leb_le _ _)) by (rewrite zlen_app; lia).
  destruct (framed_field s s [] Hs) as (b1 & b2 & H1 & H2 & Hf); [by rewrite app_nil_r|done|].
  rewrite !get_app_l, H1, H2 by lia. cbv zeta. rewrite Hf, (proj2 (Z.ltb_ge _ _)) by lia. done.
Qed.

Fixpoint continue (a : PsiSectionAssembler) (chunks : list (list Z)) : step :=
  match chunks with
  | [] => (a, Ok None)
  | c :: chunks =>
      match append_continuation a c with
      | (a, Ok None) => continue a chunks
      | r => r
      end
  end.

Lemma append_continuation_ne a c : buf a <> [] -> append_continuation a c = append a c.
Proof. unfold append_continuation. by destruct (buf a). Qed.

Lemma continue_section chunks s x rest : framed s -> x <> [] ->
  chunks <> [] -> Forall (fun c => c <> []) chunks -> x ++ concat chunks = s ++ rest ->
  (forall l c, chunks = l ++ [c] -> zlen (x ++ concat l) < zlen s) ->
  zlen s + zlen rest <= MAX_SECTION_SIZE ->
  continue (holding s x) chunks = ({| buf := rest; declared_total := None |}, Ok (Some s)).
Proof.
  intros Hs Hx Hne Hall. revert x Hx. induction Hall as [|c chunks Hc Hall IH]; intros x Hx Heq Hlast Hmax; [done|].
  cbn [continue concat] in *. rewrite append_continuation_ne by done. destruct chunks as [|c' chunks].
  - cbn [concat] in *. rewrite app_nil_r in *. specialize (Hlast [] c eq_refl). cbn in Hlast. rewrite app_nil_r in Hlast.
    destruct (app_eq_inv x c s rest Heq) as [(k & Hxk & _)|(k & Hk & ->)].
    + rewrite Hxk, zlen_app in Hlast. zlia.
    + by rewrite (append_final s x k rest).
  - assert (Hsub : zlen (x ++ c) < zlen s).
    { destruct (exists_last (l := c' :: chunks)) as (l & d & Hld); [done|].
      specialize (Hlast (c :: l) d ltac:(by rewrite Hld)). cbn in Hlast. rewrite app_assoc, zlen_app in Hlast.
      pose proof (zlen_nonneg (concat l)). lia. }
    assert (exists z, s = x ++ c ++ z /\ z <> []) as (z & Hz & Hzne).
    { rewrite app_assoc in Heq. destruct (app_eq_inv _ _ _ _ Heq) as [(k & Hk & _)|(k & Hk & _)].
      - rewrite Hk, zlen_app in Hsub. zlia.
      - exists k. rewrite app_assoc. split; [done|]. intros ->. rewrite app_nil_r in Hk. subst s. lia. }
    rewrite (append_prefix s x c z) by done. apply IH; [done|by destruct x| | |done].
    + by rewrite <- app_assoc.
    + intros l d Hld. specialize (Hlast (c :: l) d (f_equal (cons c) Hld)). cbn in Hlast. by rewrite app_assoc in Hlast.
Qed.

(** A section that begins in one packet and ends in a later one. *)
Definition assemble (a : PsiSectionAssembler) (c0 : list Z) (cs : list (list Z)) : step :=
  match start_new_section a c0 with
  | (a, Ok None) => continue a cs
  | r => r
  end.

(** Sections still in the buffer after a completion, up to [n] of them. *)
Fixpoint drain (n : nat) (a : PsiSectionAssembler) : PsiSectionAssembler * list (list Z) :=
  match n with
  | O => (a, [])
  | S n =>
      match try_complete_section a with
      | (a, Ok (Some s)) => let (a, l) := drain n a in (a, s :: l)
      | (a, _) => (a, [])
      end
  end.

Definition stuffing (l : list Z) : Prop := l = [] \/ exists r, l = 0xFF :: r.

Lemma start_holding s a : start_new_section a = append (holding s []).
Proof. done. Qed.

Lemma drain_sections ss st : Forall framed ss -> Forall (fun s => get s 0 <> Some 0xFF) ss ->
  stuffing st -> zlen (concat ss ++ st) <= MAX_SECTION_SIZE ->
  drain (S (length ss)) {| buf := concat ss ++ st; declared_total := None |} = (new, ss).
Proof.
  intros Hf Hff Hst. induction Hf as [|s ss Hs _ IH]; intros Hmax.
  { cbn [concat app length]. destruct Hst as [->|(r & ->)]; done. }
  apply Forall_cons in Hff as [Hff Hffs]. cbn [concat length] in *.
  rewrite <- app_assoc, zlen_app in Hmax. rewrite <- app_assoc.
  pose proof (append_final s [] s (concat ss ++ st) Hs eq_refl Hmax) as Hfin.
  assert (Htry : try_complete_section {| buf := s ++ concat ss ++ st; declared_total := None |}
                 = append (holding s []) (s ++ concat ss ++ st)).
  { pose proof Hs as (t & b1 & b2 & r & -> & _). unfold try_complete_section. cbn [buf app].
    rewrite (proj2 (Z.eqb_neq _ _)) by (intros ->; by apply Hff).
    unfold append. cbn [buf declared_total holding]. rewrite zlen_nil, Z.add_0_r, app_nil_r. done. }
  cbn [drain]. rewrite Htry, Hfin. specialize (IH Hffs). cbn [drain length] in IH. rewrite IH; [done|].
  pose proof (zlen_nonneg s). lia.
Qed.

(** C36: whatever state the assembler is in, a section that starts in one packet
    payload and is cut at any packet boundaries is returned whole, byte for
    byte, by the packet that completes it and not before; the sections behind
    it in the same payload then come out in order, stopping at stuffing. *)
Theorem psi_sections_reassembled (a : PsiSectionAssembler) (s : list Z) (c0 : list Z) (cs : list (list Z))
    (ss : list (list Z)) (st : list Z) :
  framed s -> c0 <> [] -> Forall (fun c => c <> []) cs ->
  c0 ++ concat cs = s ++ concat ss ++ st ->
  (forall l c, c0 :: cs = l ++ [c] -> zlen (concat l) < zlen s) ->
  Forall framed ss -> Forall (fun s => get s 0 <> Some 0xFF) ss -> stuffing st ->
  zlen s + zlen (concat ss ++ st) <= MAX_SECTION_SIZE ->
  exists a1, assemble a c0 cs = (a1, Ok (Some s)) /\ drain (S (length ss)) a1 = (new, ss).
Proof.
  intros Hs Hc0 Hcs Heq Hlast Hss Hff Hst Hmax.
  exists {| buf := concat ss ++ st; declared_total := None |}. split.
  2:{ apply drain_sections; try done. pose proof (zlen_nonneg s). lia. }
  unfold assemble. rewrite (start_holding s). destruct cs as [|c cs].
  - cbn [concat] in Heq. rewrite app_nil_r in Heq. by rewrite Heq, (append_final s [] s).
  - assert (Hsub : zlen c0 < zlen s).
    { destruct (exists_last (l := c :: cs)) as (l & d & Hld); [done|].
      specialize (Hlast (c0 :: l) d (f_equal (cons c0) Hld)). cbn in Hlast. rewrite zlen_app in Hlast.
      pose proof (zlen_nonneg (concat l)). lia. }
    assert (exists z, s = c0 ++ z /\ z <> []) as (z & Hz & Hzne).
    { destruct (app_eq_inv _ _ _ _ Heq) as [(k & Hk & _)|(k & Hk & _)].
      - rewrite Hk, zlen_app in Hsub. zlia.
      - exists k. split; [done|]. intros ->. rewrite app_nil_r in Hk. subst s. lia. }
    rewrite (append_prefix s [] c0 z) by done.
    apply continue_section; try done. intros l d Hld.
    exact (Hlast (c0 :: l) d (f_equal (cons c0) Hld)).
Qed.

Lemma psi_sections_reassembled_witness :
  exists a1, assemble new [2; 0xB0] [[4; 1; 2]; [3; 4; 0x40; 0xF0; 1; 9; 0xFF; 0xFF]]
             = (a1, Ok (Some [2; 0xB0; 4; 1; 2; 3; 4])) /\
             drain 2 a1 = (new, [[0x40; 0xF0; 1; 9]]).
Proof.
  apply (psi_sections_reassembled new [2; 0xB0; 4; 1; 2; 3; 4] [2; 0xB0]
    [[4; 1; 2]; [3; 4; 0x40; 0xF0; 1; 9; 0xFF; 0xFF]] [[0x40; 0xF0; 1; 9]] [0xFF; 0xFF]).
  - exists 2, 0xB0, 4, [1; 2; 3; 4]. split; [reflexivity|]. split; [repeat constructor; unfold byte; lia|].
    split; [reflexivity|vm_compute; discriminate].
  - discriminate.
  - repeat constructor; discriminate.
  - reflexivity.
  - intros l c Hl. destruct l as [|l0 [|l1 [|l2 l]]]; cbn in Hl; injection Hl as; subst; try discriminate.
    + vm_compute. reflexivity.
    + destruct l; discriminate.
  - constructor; [|constructor]. exists 0x40, 0xF0, 1, [9]. split; [reflexivity|].
    split; [repeat constructor; unfold byte; lia|]. split; [reflexivity|vm_compute; discriminate].
  - constructor; [discriminate|constructor].
  - right. exists [0xFF]. reflexivity.
  - vm_compute. discriminate.
Defined.

(** ** Bounds *)

Inductive op : Type := OpStart (payload : list Z) | OpContinue (payload : list Z) | OpTry | OpReset.

Definition exec (a : PsiSectionAssembler) (o : op) : step :=
  match o with
  | OpStart p => start_new_section a p
  | OpContinue p => append_continuation a p
  | OpTry => try_complete_section a
  | OpReset => (reset a, Ok None)
  end.

Fixpoint execs (a : PsiSectionAssembler) (os : list op) : PsiSectionAssembler * list (res AssemblerError (option (list Z))) :=
  match os with
  | [] => (a, [])
  | o :: os => let (a, r) := exec a o in let (a, rs) := execs a os in (a, r :: rs)
  end.

Record inv (a : PsiSectionAssembler) : Prop := {
  inv_cap : zlen (buf a) <= MAX_SECTION_SIZE;
  inv_declared : forall t, declared_total a = Some t -> 3 <= t <= MAX_SECTION_SIZE /\ 3 <= zlen (buf a) < t;
  inv_bytes : bytes (buf a)
}.

(** What one call may return: nothing, a section of its declared length, or
    one of the two cap errors. *)
Definition call_ok (r : res AssemblerError (option (list Z))) : Prop :=
  match r with
  | Ok None => True
  | Ok (Some s) => framed s
  | Err (Overflow n) => MAX_SECTION_SIZE < n
  | Err (DeclaredTooLong n) => MAX_SECTION_SIZE < n
  | Panic => False
  end.

Lemma inv_empty : inv {| buf := []; declared_total := None |}.
Proof. split; cbn; [done|done|constructor]. Qed.

(** The declared length is the one in the buffered header. *)
Definition header_total (a : PsiSectionAssembler) : Prop :=
  forall t, declared_total a = Some t -> exists h b1 b2 r, buf a = h :: b1 :: b2 :: r /\ t = 3 + (b1 mod 16 * 256 + b2).

Lemma split_complete_inv b d : bytes b -> zlen b <= MAX_SECTION_SIZE ->
  (forall t, d = Some t -> 3 <= t <= MAX_SECTION_SIZE /\ 3 <= zlen b) ->
  header_total {| buf := b; declared_total := d |} ->
  let st := split_complete {| buf := b; declared_total := d |} in
  inv st.1 /\ header_total st.1 /\ call_ok st.2.
Proof.
  intros Hb Hmax Hd Hh. unfold split_complete; cbn [buf declared_total]. destruct d as [t|].
  2:{ cbn. split_and!; [|done|done]. by split. }
  destruct (Hd t eq_refl) as [Ht Hl]. ifs; b2p; cbn [fst snd].
  - split_and!; [|done|].
    + split; cbn; [rewrite zlen_zdrop by lia; lia|done|auto with zl].
    + destruct (Hh t eq_refl) as (h & b1 & b2 & r & Heq & Ht'). cbn in Heq. subst b. rewrite !zlen_cons in *.
      exists h, b1, b2, (ztake (t - 3) r). unfold call_ok, framed.
      assert (Htk : ztake t (h :: b1 :: b2 :: r) = h :: b1 :: b2 :: ztake (t - 3) r).
      { unfold ztake. replace (Z.to_nat t) with (S (S (S (Z.to_nat (t - 3))))) by lia. done. }
      split; [done|]. split; [auto with zl|]. rewrite zlen_ztake by lia. split; [lia|].
      rewrite zlen_ztake by (rewrite !zlen_cons; lia). lia.
  - split_and!; [|done|done]. split; cbn; [done| |done]. intros ? [= <-]. lia.
Qed.

Lemma append_inv a p : inv a -> header_total a -> bytes p ->
  inv (append a p).1 /\ header_total (append a p).1 /\ call_ok (append a p).2.
Proof.
  intros [Hcap Hdecl Hb] Hh Hp. unfold append. pose proof (zlen_nonneg p).
  destruct (MAX_SECTION_SIZE <? zlen (buf a) + zlen p) eqn:Hov; b2p.
  { cbn. split_and!; [apply inv_empty|done|done]. }
  cbn [buf declared_total]. assert (Hbp : bytes (buf a ++ p)) by (by apply bytes_app).
  destruct (declared_total a) as [t|] eqn:Hd.
  - apply split_complete_inv; [done|rewrite zlen_app; lia| |].
    + intros ? [= <-]. destruct (Hdecl t eq_refl). rewrite zlen_app. lia.
    + intros ? [= <-]. destruct (Hh t Hd) as (h & b1 & b2 & r & Heq & Ht). cbn. rewrite Heq.
      by exists h, b1, b2, (r ++ p).
  - destruct (3 <=? zlen (buf a ++ p)) eqn:H3; b2p; [|by apply split_complete_inv; try done; rewrite zlen_app; lia].
    destruct (buf a ++ p) as [|h [|b1 [|b2 r]]] eqn:Heq; [rewrite ?zlen_cons, ?zlen_nil in H3; lia..|].
    change (get (h :: b1 :: b2 :: r) 1) with (Some b1). change (get (h :: b1 :: b2 :: r) 2) with (Some b2).
    cbv zeta. assert (byte b1 /\ byte b2) as [Hb1 Hb2] by (clear - Hbp; bytes_inv; done).
    rewrite len_field by done. unfold byte in *.
    ifs; b2p; [cbn; split_and!; [apply inv_empty|done|done]|].
    apply split_complete_inv; [done|rewrite <- Heq, zlen_app; lia| |].
    + intros ? [= <-]. rewrite !zlen_cons in *. split; [|lia]. dlia.
    + intros ? [= <-]. by exists h, b1, b2, r.
Qed.

Definition op_bytes (o : op) : Prop := match o with OpStart p | OpContinue p => bytes p | _ => True end.

Lemma assembler_exec_inv a o : inv a -> header_total a -> op_bytes o ->
  inv (exec a o).1 /\ header_total (exec a o).1 /\ call_ok (exec a o).2.
Proof.
  intros Ha Hh Ho. assert (Hnil : inv (reset a) /\ header_total (reset a)) by (split; [apply inv_empty|done]).
  destruct o as [p|p| |]; cbn [exec op_bytes] in *.
  - apply append_inv; tauto.
  - unfold append_continuation. destruct (buf a) eqn:Hb; [by cbn|]. by apply append_inv.
  - unfold try_complete_section. destruct (buf a) eqn:Hb; [by cbn|]. ifs; [cbn; tauto|].
    apply append_inv; [done|done|constructor].
  - cbn. tauto.
Qed.

(** From a fresh assembler, any sequence of starts, continuations, drain
    attempts and resets on any bytes never panics, keeps at most 4096 bytes,
    and every section it hands out has exactly the length its own header
    declares; the only errors are the two size caps. *)
Theorem psi_assembler_bounded (os : list op) :
  Forall op_bytes os ->
  zlen (buf (execs new os).1) <= MAX_SECTION_SIZE /\ Forall call_ok (execs new os).2.
Proof.
  intros Hos.
  assert (Hgen : forall a, inv a -> header_total a -> inv (execs a os).1 /\ Forall call_ok (execs a os).2).
  { induction Hos as [|o os Ho _ IH]; intros a Ha Hh; cbn [execs]; [by split; [|constructor]|].
    destruct (assembler_exec_inv a o Ha Hh Ho) as (H1 & H2 & H3). destruct (exec a o) as [a1 r]. cbn [fst snd] in *.
    destruct (IH a1 H1 H2) as [H4 H5]. destruct (execs a1 os) as [a2 rs]. cbn in *. by split; [|constructor]. }
  destruct (Hgen new inv_empty ltac:(done)) as [[H _ _] ?]. done.
Qed.

Lemma psi_assembler_bounded_witness :
  Forall call_ok (execs new [OpStart [2; 0xB0]; OpContinue [1; 7; 0xFF]; OpTry; OpReset]).2.
Proof.
  apply (psi_assembler_bounded [OpStart [2; 0xB0]; OpContinue [1; 7; 0xFF]; OpTry; OpReset]).
  repeat constructor; unfold byte; lia.
Defined.

End PsiAssemblerTheorems.

(** * A PAT survives arrival in any order *)
Module PatTheorems.
Import PsiParse PatReassembler.

Definition entries (m : gmap Z (list PatEntry)) : Z := map_fold (fun _ l n => zlen l + n) 0 m.

Lemma entries_empty : entries ∅ = 0.
Proof. apply map_fold_empty. Qed.

Lemma entries_delete m i l : m !! i = Some l -> entries m = zlen l + entries (delete i m).
Proof.
  intros. unfold entries. rewrite (map_fold_delete_L (fun _ l n => zlen l + n) 0 i l m); [done|lia|done].
Qed.

Lemma entries_insert m i l : entries (<[i := l]> m) = zlen l + entries (delete i m).
Proof. rewrite (entries_delete _ i l) by apply lookup_insert_eq. by rewrite delete_insert_eq. Qed.

Lemma entries_mono m m' : m ⊆ m' -> entries m <= entries m'.
Proof.
  revert m'. induction m as [|i l m Hi IH] using map_ind; intros m' Hsub.
  - rewrite entries_empty. clear Hsub. induction m' as [|i l m' Hi IH] using map_ind; [by rewrite entries_empty|].
    rewrite entries_insert, delete_id by done. pose proof (zlen_nonneg l). lia.
  - assert (m' !! i = Some l) as Hl by (eapply lookup_weaken; [apply lookup_insert_eq|done]).
    rewrite entries_insert, delete_id, (entries_delete m' i l) by done.
    assert (m ⊆ delete i m') as Hsub'.
    { rewrite <- (delete_id m i) by done. rewrite <- (delete_insert_id m i l) by done.
      rewrite delete_insert_id by done. rewrite <- (delete_insert_eq m i l). by apply delete_mono. }
    specialize (IH _ Hsub'). lia.
Qed.

(** ** The invariant of [accept] *)

Record inv (r : PatReassembler) : Prop := {
  inv_count : entry_count r = entries (sections r);
  inv_max : entry_count r <= MAX_PAT_ENTRIES
}.

Lemma inv_clear : inv clear.
Proof. split; cbn; [by rewrite entries_empty|done]. Qed.
Lemma inv_start k s : inv (start k s).
Proof. split; cbn; [by rewrite entries_empty|done]. Qed.

Lemma store_ok {E} r s : inv r ->
  outcome (E:=E) (fun ro => inv ro.1) (fun _ => False) (store r s).
Proof.
  intros [Hc Hm]. unfold store.
  assert (Hkept : usub (E:=E) (entry_count r)
    (match sections r !! ps_section_number s with Some p => zlen p | None => 0 end)
    = Ok (entries (delete (ps_section_number s) (sections r)))).
  { unfold usub. destruct (sections r !! ps_section_number s) as [p|] eqn:Hp.
    - rewrite Hc, (entries_delete _ _ _ Hp).
      pose proof (entries_mono ∅ (delete (ps_section_number s) (sections r)) (map_empty_subseteq _)) as H0.
      rewrite entries_empty in H0. rewrite (proj2 (Z.leb_le _ _)) by lia. f_equal. lia.
    - rewrite delete_id by done. pose proof (entries_mono ∅ (sections r) (map_empty_subseteq _)) as H0.
      rewrite entries_empty in H0. rewrite (proj2 (Z.leb_le _ _)) by lia. f_equal. lia. }
  rewrite Hkept. rb. cbn [entry_count last_section_number sections key].
  wp_step; [apply inv_clear|]. wp_step; [apply inv_clear|]. b2p.
  cbn. split; cbn; [rewrite entries_insert|]; lia.
Qed.

Lemma accept_ok {E} r s : inv r -> outcome (E:=E) (fun ro => inv ro.1) (fun _ => False) (accept r s).
Proof.
  intros Hr. unfold accept. wp_step; [done|]. destruct (key r) as [k|]; [|by apply store_ok, inv_start].
  wp_step; [|by apply store_ok, inv_start]. wp_step; [apply inv_clear|]. by apply store_ok.
Qed.

(** ** Collecting one table *)

Section table.
Context (k : Key) (last : Z) (f : Z -> list PatEntry).
Hypothesis Hlast : 0 <= last.
Hypothesis Hmax : zlen (concat (map f (section_range last))) <= MAX_PAT_ENTRIES.

(** Section [n] of the table. *)
Definition section_of (n : Z) : PatSection :=
  {| ps_transport_stream_id := k.1.1; ps_version := k.1.2; ps_current_next := k.2;
     ps_section_number := n; ps_last_section_number := last; ps_programs := f n |}.

Definition arrived (ns : list Z) : gmap Z (list PatEntry) := list_to_map ((fun n => (n, f n)) <$> ns).

Lemma arrived_lookup ns n : arrived ns !! n = if decide (n ∈ ns) then Some (f n) else None.
Proof.
  unfold arrived. case_decide as Hn.
  - induction ns as [|m ns IH]; [by apply not_elem_of_nil in Hn|]. cbn.
    destruct (decide (m = n)) as [->|Hne]; [by rewrite lookup_insert_eq|].
    rewrite lookup_insert_ne by done. apply IH. by apply elem_of_cons in Hn as [->|].
  - apply not_elem_of_list_to_map_1. intros Hin. apply Hn.
    apply list_elem_of_fmap in Hin as ((? & ?) & -> & Hin).
    by apply list_elem_of_fmap in Hin as (? & [= -> ->] & ?).
Qed.

Lemma arrived_snoc ns n : <[n := f n]> (arrived ns) = arrived (ns ++ [n]).
Proof.
  apply map_eq. intros i. rewrite arrived_lookup. destruct (decide (n = i)) as [->|Hne].
  - rewrite lookup_insert_eq. rewrite decide_True; [done|]. set_solver.
  - rewrite lookup_insert_ne, arrived_lookup by done. by repeat case_decide; set_solver.
Qed.

Lemma entries_arrived_nodup ns : NoDup ns -> entries (arrived ns) = zlen (concat (map f ns)).
Proof.
  induction 1 as [|n ns Hn _ IH]; [apply entries_empty|].
  change (arrived (n :: ns)) with (<[n := f n]> (arrived ns)).
  rewrite entries_insert, delete_id, IH by (rewrite arrived_lookup; by rewrite decide_False).
  cbn [map concat]. by rewrite zlen_app.
Qed.

Definition in_table (n : Z) : Prop := 0 <= n <= last.

Lemma in_range n : n ∈ section_range last <-> in_table n.
Proof. unfold section_range, in_table. rewrite elem_of_seqZ. lia. Qed.

Lemma entries_arrived_max ns : Forall in_table ns -> entries (arrived ns) <= MAX_PAT_ENTRIES.
Proof.
  intros Hns. etrans; [|exact Hmax]. rewrite <- entries_arrived_nodup by apply NoDup_seqZ.
  apply entries_mono, map_subseteq_spec. intros i l. rewrite !arrived_lookup.
  case_decide as Hi; [|done]. intros [= <-]. rewrite decide_True; [done|].
  apply in_range. by rewrite Forall_forall in Hns; apply Hns.
Qed.

(** The table is complete exactly when every section has arrived. *)
Lemma all_present_arrived ns : Forall in_table ns ->
  all_present last (arrived ns) = true <-> forall n, in_table n -> n ∈ ns.
Proof.
  intros Hns. unfold all_present. rewrite andb_true_iff, forallb_forall, Z.eqb_eq. split.
  - intros [_ Hall] n Hn%in_range. specialize (Hall n). rewrite <- list_elem_of_In in Hall.
    specialize (Hall Hn). rewrite arrived_lookup in Hall. by case_decide.
  - intros Hall. assert (Heq : arrived ns = arrived (section_range last)).
    { apply map_eq. intros i. rewrite !arrived_lookup.
      destruct (decide (i ∈ ns)) as [Hi|Hi], (decide (i ∈ section_range last)) as [Hr|Hr]; try done.
      - destruct Hr. apply in_range. by rewrite Forall_forall in Hns; apply Hns.
      - destruct Hi. by apply Hall, in_range. }
    rewrite Heq. split.
    + unfold arrived. rewrite map_size_list_to_map.
      * rewrite length_fmap. unfold section_range. rewrite length_seqZ. lia.
      * rewrite <- list_fmap_compose. cbn. rewrite list_fmap_id. apply NoDup_seqZ.
    + intros n Hn. rewrite arrived_lookup. rewrite decide_True; [done|]. by apply list_elem_of_In.
Qed.

Lemma merged_arrived ns : (forall n, in_table n -> n ∈ ns) ->
  merged last (arrived ns) = concat (map f (section_range last)).
Proof.
  intros Hall. unfold merged. apply f_equal.
  assert (Hr : Forall in_table (section_range last)) by (apply Forall_forall; intros n; by rewrite in_range).
  clear Hmax. induction Hr as [|n l Hn _ IH]; [done|]. cbn [omap list_omap map].
  rewrite arrived_lookup, decide_True by auto. cbn. by rewrite IH.
Qed.

(** The state while the sections [ns] have arrived. *)
Definition collecting (ns : list Z) : PatReassembler :=
  {| key := Some k; last_section_number := last; sections := arrived ns; entry_count := entries (arrived ns) |}.

Lemma store_step {E} ns n : Forall in_table ns -> in_table n ->
  store (E:=E) (collecting ns) (section_of n) =
  if all_present last (arrived (ns ++ [n]))
  then Ok (clear, Complete (merged last (arrived (ns ++ [n]))))
  else Ok (collecting (ns ++ [n]), Pending).
Proof.
  intros Hns Hn. unfold store. cbn [collecting sections entry_count section_of ps_section_number ps_programs
    key last_section_number].
  pose proof (entries_arrived_max (ns ++ [n])) as Hle.
  rewrite Forall_app, Forall_singleton in Hle. specialize (Hle (conj Hns Hn)).
  rewrite <- arrived_snoc, entries_insert in Hle.
  assert (Hu : usub (E:=E) (entries (arrived ns)) (match arrived ns !! n with Some p => zlen p | None => 0 end)
               = Ok (entries (delete n (arrived ns)))).
  { unfold usub. destruct (arrived ns !! n) as [p|] eqn:Hp.
    - rewrite (entries_delete _ _ _ Hp).
      pose proof (entries_mono ∅ (delete n (arrived ns)) (map_empty_subseteq _)) as H0. rewrite entries_empty in H0.
      rewrite (proj2 (Z.leb_le _ _)) by lia. f_equal. lia.
    - rewrite delete_id by done. pose proof (entries_mono ∅ (arrived ns) (map_empty_subseteq _)) as H0.
      rewrite entries_empty in H0. rewrite (proj2 (Z.leb_le _ _)) by lia. f_equal. lia. }
  rewrite Hu. rb. rewrite (proj2 (Z.ltb_ge _ _)) by lia. rewrite arrived_snoc.
  ifs; [done|]. unfold collecting. do 3 f_equal. rewrite <- arrived_snoc, entries_insert. lia.
Qed.

Lemma section_key_of n : section_key (section_of n) = k.
Proof. unfold section_key, section_of; cbn. by rewrite <- !surjective_pairing. Qed.

Lemma accept_collecting {E} ns n : in_table n ->
  accept (E:=E) (collecting ns) (section_of n) = store (collecting ns) (section_of n).
Proof.
  intros Hn. unfold in_table in Hn. unfold accept. cbn [section_of ps_last_section_number ps_section_number].
  rewrite (proj2 (Z.ltb_ge _ _)) by lia. cbn [collecting key].
  rewrite section_key_of, bool_decide_true by done. cbn [last_section_number].
  by rewrite Z.eqb_refl.
Qed.

Lemma accept_first {E} r n : key r <> Some k -> in_table n ->
  accept (E:=E) r (section_of n) = store (collecting []) (section_of n).
Proof.
  intros Hk Hn. unfold in_table in Hn. unfold accept. cbn [section_of ps_last_section_number ps_section_number].
  rewrite (proj2 (Z.ltb_ge _ _)) by lia.
  rewrite section_key_of. destruct (key r) as [k'|]; [|done]. by rewrite bool_decide_false by congruence.
Qed.
End table.

Fixpoint accepts {E} (r : PatReassembler) (ss : list PatSection)
    : res E (PatReassembler * list PatReassemblyOutcome) :=
  match ss with
  | [] => Ok (r, [])
  | s :: ss =>
      let! (r, o) := accept r s in
      let! (r, os) := accepts r ss in
      Ok (r, o :: os)
  end.

Lemma accepts_collecting {E} k last f ns done n :
  0 <= last -> zlen (concat (map f (section_range last))) <= MAX_PAT_ENTRIES ->
  Forall (in_table last) (done ++ ns) -> in_table last n ->
  (exists i, in_table last i /\ i ∉ done ++ ns) -> (forall i, in_table last i -> i ∈ done ++ ns ++ [n]) ->
  accepts (E:=E) (collecting k last f done) (section_of k last f <$> (ns ++ [n]))
  = Ok (clear, replicate (length ns) Pending ++ [Complete (concat (map f (section_range last)))]).
Proof.
  intros Hl Hmax. revert done. induction ns as [|m ns IH]; intros done Hns Hn Hmiss Hall.
  - cbn. rewrite app_nil_r in *. rewrite accept_collecting, store_step by done.
    rewrite (proj2 (all_present_arrived last f Hl (done ++ [n]) ltac:(by rewrite Forall_app, Forall_singleton))) by done.
    rewrite merged_arrived by done. done.
  - cbn [app fmap list_fmap accepts length replicate].
    assert (in_table last m /\ Forall (in_table last) done) as [Hm Hdone].
    { rewrite Forall_app, Forall_cons in Hns. tauto. }
    rewrite accept_collecting, store_step by done.
    assert (all_present last (arrived f (done ++ [m])) = false) as ->.
    { apply not_true_iff_false. intros Hp.
      rewrite (all_present_arrived last f Hl) in Hp by (by rewrite Forall_app, Forall_singleton).
      destruct Hmiss as (i & Hi & Hni). apply Hni. specialize (Hp i Hi). set_solver. }
    rb. rewrite (IH (done ++ [m])); [done|by rewrite <- app_assoc|done|by rewrite <- app_assoc|by rewrite <- app_assoc].
Qed.

(** The sections of one PAT, arriving in any order and with any repeats, are
    reported pending until the last missing one arrives, and that one returns
    the program loops of all sections merged in section order, leaving the
    reassembler idle, whatever table was in progress before. *)
Theorem pat_sections_any_order (r : PatReassembler) (k : Key) (last : Z) (f : Z -> list PatEntry)
    (ns : list Z) (n : Z) :
  key r <> Some k -> 0 <= last -> zlen (concat (map f (section_range last))) <= MAX_PAT_ENTRIES ->
  Forall (in_table last) ns -> in_table last n ->
  (exists i, in_table last i /\ i ∉ ns) -> (forall i, in_table last i -> i ∈ ns ++ [n]) ->
  accepts (E:=Empty_set) r (section_of k last f <$> (ns ++ [n]))
  = Ok (clear, replicate (length ns) Pending ++ [Complete (concat (map f (section_range last)))]).
Proof.
  intros Hk Hl Hmax Hns Hn Hmiss Hall.
  rewrite <- (accepts_collecting (E:=Empty_set) k last f ns [] n) by done.
  assert (exists m l, ns ++ [n] = m :: l /\ in_table last m) as (m & l & -> & Hm).
  { destruct ns as [|m ns]; [by exists n, []|]. apply Forall_cons in Hns as [Hm _]. by exists m, (ns ++ [n]). }
  cbn [fmap list_fmap accepts]. by rewrite accept_first, accept_collecting.
Qed.

Lemma pat_sections_any_order_witness :
  let f := fun n => [{| program_number := n; pat_pid := 0x100 + n |}] in
  accepts (E:=Empty_set) clear (section_of (1, 0, true) 2 f <$> ([1; 2; 1] ++ [0]))
  = Ok (clear, [Pending; Pending; Pending;
                Complete [{| program_number := 0; pat_pid := 0x100 |}; {| program_number := 1; pat_pid := 0x101 |};
                          {| program_number := 2; pat_pid := 0x102 |}]]).
Proof.
  intros f. apply (pat_sections_any_order clear (1, 0, true) 2 f [1; 2; 1] 0).
  - discriminate.
  - lia.
  - vm_compute. discriminate.
  - repeat constructor; unfold in_table; lia.
  - unfold in_table. lia.
  - exists 0. split; [unfold in_table; lia|]. set_solver by lia.
  - unfold in_table. intros i Hi. assert (i = 0 \/ i = 1 \/ i = 2) by lia. set_solver.
Defined.

(** From idle, any sequence of sections (any keys, numbers and program
    loops) is accepted without a panic; the entry counter always equals the
    number of buffered entries and stays within the 8192-entry cap. *)
Theorem pat_reassembler_bounded (ss : list PatSection) :
  exists r os, accepts (E:=Empty_set) clear ss = Ok (r, os) /\
    entry_count r = entries (sections r) /\ entry_count r <= MAX_PAT_ENTRIES.
Proof.
  assert (Hgen : forall r, inv r -> exists r' os, accepts (E:=Empty_set) r ss = Ok (r', os) /\ inv r').
  { induction ss as [|s ss IH]; intros r Hr; cbn [accepts]; [by exists r, []|].
    destruct (outcome_Ok _ _ (accept_ok (E:=Empty_set) r s Hr)) as ([r1 o] & -> & H1).
    rb. destruct (IH r1 H1) as (r2 & os & -> & H2). rb. by eexists _, _. }
  destruct (Hgen clear inv_clear) as (r & os & Hr & [H1 H2]). by exists r, os.
Qed.

End PatTheorems.
