(* ===== verification/PsiWriter.v ===== *)
(** PSI generation ([crates/tst-core/src/mpegts/mux/psi.rs]) and the stream
    vocabulary it renders ([mux/types.rs], [mux/config.rs], the [stream_type]
    bytes of [mux/state.rs]): PAT and PMT packets, and the proof that the
    demuxer's parsers read back what was configured. *)
From Stdlib Require Import ZArith Lia Bool.
From stdpp Require Import base list list_numbers.
From S2P Require Import Prelude Crc32 Common TsPacket PesWriter PsiParse PsiAssembly.

(** * Stream vocabulary *)
Module MuxTypes.
Import Common PesWriter.

Inductive VideoCodec : Type := VideoH264 | VideoH265 | VideoH266 | Av1.
Inductive KlvStreamType : Type := PrivateData | SynchronousMetadata.

Inductive SubtitleCodec : Type :=
| DvbSubtitling (language : list Z) (subtitling_type composition_page_id ancillary_page_id : Z)
| DvbTeletextCodec (language : list Z) (teletext_type magazine_number page_number : Z)
| Cea708Standalone
| WebVttInTs.

Inductive MuxStreamKind : Type := KindVideo | KindAudio | KindKlv | KindSubtitle | KindData.

Inductive StreamSpec : Type :=
| SpecVideo (pid : Z) (codec : VideoCodec)
| SpecKlv (pid : Z) (stream_type : KlvStreamType) (carries_pts : bool)
| SpecAudio (pid : Z) (codec : AudioCodec) (language : option (list Z))
| SpecSubtitle (pid : Z) (codec : SubtitleCodec)
| SpecData (pid stream_type : Z) (carries_pts : bool).

#[global] Instance VideoCodec_eq_dec : EqDecision VideoCodec.
Proof. solve_decision. Defined.
#[global] Instance KlvStreamType_eq_dec : EqDecision KlvStreamType.
Proof. solve_decision. Defined.
#[global] Instance MuxStreamKind_eq_dec : EqDecision MuxStreamKind.
Proof. solve_decision. Defined.

Definition spec_pid (s : StreamSpec) : Z :=
  match s with
  | SpecVideo pid _ | SpecKlv pid _ _ | SpecAudio pid _ _ | SpecSubtitle pid _ | SpecData pid _ _ => pid
  end.

Record MuxerProgramConfig : Type := {
  program_number : Z;
  pmt_pid : Z;
  streams : list StreamSpec;
  pcr_pid : option Z;
  program_descriptors : list (list Z);
  stream_descriptors : list (list (list Z))
}.

Definition video_stream_type_byte (c : VideoCodec) : Z :=
  match c with
  | VideoH264 => StreamType_as_u8 H264
  | VideoH265 => StreamType_as_u8 H265
  | VideoH266 => StreamType_as_u8 H266
  | Av1 => StreamType_as_u8 KlvPrivate
  end.

Definition klv_stream_type_byte (t : KlvStreamType) : Z :=
  match t with
  | PrivateData => StreamType_as_u8 KlvPrivate
  | SynchronousMetadata => StreamType_as_u8 KlvSyncMetadata
  end.

Definition audio_stream_type_byte (c : AudioCodec) : Z :=
  match c with
  | Mp2 => StreamType_as_u8 AudioMp2
  | Aac => StreamType_as_u8 AudioAac
  | AacLatm => StreamType_as_u8 AudioAacLatm
  | Ac3 => StreamType_as_u8 AudioAc3
  end.

Definition pmt_stream_type_byte (s : StreamSpec) : Z :=
  match s with
  | SpecVideo _ codec => video_stream_type_byte codec
  | SpecKlv _ stream_type _ => klv_stream_type_byte stream_type
  | SpecAudio _ codec _ => audio_stream_type_byte codec
  | SpecData _ stream_type _ => stream_type
  | SpecSubtitle _ _ => StreamType_as_u8 KlvPrivate
  end.

(** The filters of [first_video_pid] and [first_audio_pid]. *)
Definition video_pid (s : StreamSpec) : option Z := match s with SpecVideo pid _ => Some pid | _ => None end.
Definition audio_pid (s : StreamSpec) : option Z := match s with SpecAudio pid _ _ => Some pid | _ => None end.

End MuxTypes.

(** * Writer *)
Module PsiWriter.
Import Common TsWriter Crc32 MuxTypes.

Inductive PmtError : Type := PmtTooLarge (used_bytes max_bytes : Z).

Definition psi_version_byte (version : Z) : Z :=
  Z.lor (Z.lor 0xC0 (as_u8 (Z.shiftl (Z.land version 0x1F) 1))) 0x01.

(** [payload[idx] = ...; payload[idx + 1] = ...]: two single-byte stores. *)
Definition put2 {E} (payload : list Z) (i a b : Z) : res E (list Z) :=
  let! payload := put payload i [a] in
  put payload (i + 1) [b].

Fixpoint write_pat_entries {E} (payload : list Z) (i : Z) (entries : list (Z * Z))
    : res E (list Z * Z) :=
  match entries with
  | [] => Ok (payload, i)
  | (program_number, pmt_pid) :: entries =>
      let! payload := put2 payload i (as_u8 (Z.shiftr program_number 8)) (as_u8 (Z.land program_number 0xFF)) in
      let i := i + 2 in
      let! payload := put2 payload i (Z.lor 0xE0 (Z.land (as_u8 (Z.shiftr pmt_pid 8)) 0x1F))
                                     (as_u8 (Z.land pmt_pid 0xFF)) in
      let i := i + 2 in
      write_pat_entries payload i entries
  end.

(** CRC over [payload[body_start..idx]], stored behind it. *)
Definition seal {E} (payload : list Z) (body_start i : Z) : res E (list Z) :=
  let! body := slice payload body_start i in
  put payload i (be32 (crc32_mpeg2 body)).

Definition write_pat_packet {E} (out : list Z) (entries : list (Z * Z)) (version : Z)
    (counters : ContinuityCounters) : res E (list Z * ContinuityCounters) :=
  let section_length := 9 + 4 * zlen entries in
  let payload := zrep 184 0xFF in
  let! payload := put payload 0 [0x00] in
  let! payload := put payload 1 [0x00] in
  let! payload := put2 payload 2 (Z.lor 0xB0 (Z.land (as_u8 (Z.shiftr section_length 8)) 0x0F))
                                 (as_u8 (Z.land section_length 0xFF)) in
  let! payload := put2 payload 4 0x00 0x01 in
  let! payload := put payload 6 [psi_version_byte version] in
  let! payload := put2 payload 7 0x00 0x00 in
  let! (payload, i) := write_pat_entries payload 9 entries in
  let! payload := seal payload 1 i in
  let! (out, counters, _) := write_packet out PID_PAT true AdaptationField_default payload counters in
  Ok (out, counters).

Record PmtStreamEntry : Type := {
  entry_stream_type : Z;
  entry_pid : Z;
  entry_descriptors : list Z
}.

Definition MAX_PMT_SECTION_BYTES : Z := 183.

Fixpoint write_blocks {E} (payload : list Z) (i : Z) (descs : list (list Z)) : res E (list Z * Z) :=
  match descs with
  | [] => Ok (payload, i)
  | d :: descs =>
      let! payload := put payload i d in
      write_blocks payload (i + zlen d) descs
  end.

Fixpoint write_es_loop {E} (payload : list Z) (i : Z) (streams : list PmtStreamEntry)
    : res E (list Z * Z) :=
  match streams with
  | [] => Ok (payload, i)
  | s :: streams =>
      let! payload := put payload i [entry_stream_type s] in
      let i := i + 1 in
      let! payload := put2 payload i (Z.lor 0xE0 (Z.land (as_u8 (Z.shiftr (entry_pid s) 8)) 0x1F))
                                     (as_u8 (Z.land (entry_pid s) 0xFF)) in
      let i := i + 2 in
      let es_info_length := as_u16 (zlen (entry_descriptors s)) in
      let! payload := put2 payload i (Z.lor 0xF0 (Z.land (as_u8 (Z.shiftr es_info_length 8)) 0x0F))
                                     (as_u8 (Z.land es_info_length 0xFF)) in
      let i := i + 2 in
      let! payload := put payload i (entry_descriptors s) in
      write_es_loop payload (i + zlen (entry_descriptors s)) streams
  end.

Definition es_loop_size (streams : list PmtStreamEntry) : Z :=
  foldr (fun s n => 5 + zlen (entry_descriptors s) + n) 0 streams.

Definition program_info_size (descs : list (list Z)) : Z := foldr (fun d n => zlen d + n) 0 descs.

(** [9 + a as u16 + b as u16 + 4], checked at every addition. *)
Definition pmt_section_length {E} (program_info es_loop : Z) : res E Z :=
  let! n := chk_u16 (9 + as_u16 program_info) in
  let! n := chk_u16 (n + as_u16 es_loop) in
  chk_u16 (n + 4).

Definition write_pmt_packet (out : list Z) (prog : MuxerProgramConfig) (pcr_pid : Z)
    (streams : list PmtStreamEntry) (version : Z) (counters : ContinuityCounters)
    : res PmtError (list Z * ContinuityCounters) :=
  let es_loop := es_loop_size streams in
  let program_info_length := program_info_size (program_descriptors prog) in
  let! section_length := pmt_section_length program_info_length es_loop in
  let total_body_size := 3 + section_length in
  if 0x400 <=? program_info_length then Err (PmtTooLarge total_body_size 183)
  else if 183 <? total_body_size then Err (PmtTooLarge total_body_size 183)
  else
  let payload := zrep 184 0xFF in
  let! payload := put payload 0 [0x00] in
  let! payload := put payload 1 [0x02] in
  let! payload := put2 payload 2 (Z.lor 0xB0 (Z.land (as_u8 (Z.shiftr section_length 8)) 0x0F))
                                 (as_u8 (Z.land section_length 0xFF)) in
  let! payload := put2 payload 4 (as_u8 (Z.shiftr (program_number prog) 8))
                                 (as_u8 (Z.land (program_number prog) 0xFF)) in
  let! payload := put payload 6 [psi_version_byte version] in
  let! payload := put2 payload 7 0x00 0x00 in
  let! payload := put2 payload 9 (Z.lor 0xE0 (Z.land (as_u8 (Z.shiftr pcr_pid 8)) 0x1F))
                                 (as_u8 (Z.land pcr_pid 0xFF)) in
  let program_info_length := as_u16 program_info_length in
  let! payload := put2 payload 11 (Z.lor 0xF0 (Z.land (as_u8 (Z.shiftr program_info_length 8)) 0x0F))
                                  (as_u8 (Z.land program_info_length 0xFF)) in
  let! (payload, i) := write_blocks payload 13 (program_descriptors prog) in
  let! (payload, i) := write_es_loop payload i streams in
  let! payload := seal payload 1 i in
  let! (out, counters, _) := write_packet out (pmt_pid prog) true AdaptationField_default payload counters in
  Ok (out, counters).

End PsiWriter.

(** * Layout *)
Module PsiLayout.
Import Common TsWriter Crc32 MuxTypes PsiWriter.

(** A store at the end of the written prefix of a buffer of fill bytes. *)
Lemma put_fill {E} (l : list Z) n x bs i : i = zlen l -> zlen bs <= n ->
  put (E:=E) (l ++ zrep n x) i bs = Ok ((l ++ bs) ++ zrep (n - zlen bs) x).
Proof.
  intros -> Hn. pose proof (zlen_nonneg bs). rewrite put_app by (done || (rewrite zlen_zrep; lia)).
  rewrite <- app_assoc. do 3 f_equal. unfold zdrop, zrep. rewrite drop_replicate. f_equal. lia.
Qed.

Lemma put2_fill {E} (l : list Z) n x a b i : i = zlen l -> 2 <= n ->
  put2 (E:=E) (l ++ zrep n x) i a b = Ok ((l ++ [a; b]) ++ zrep (n - 2) x).
Proof.
  intros -> Hn. unfold put2. rewrite put_fill by (rewrite ?zlen_cons, ?zlen_nil; lia). rb.
  rewrite put_fill by (rewrite ?zlen_app, ?zlen_cons, ?zlen_nil; lia).
  rewrite !zlen_cons, !zlen_nil, <- (app_assoc l). cbn [app].
  replace (n - (1 + 0) - (1 + 0)) with (n - 2) by lia. done.
Qed.

(** Step over the stores at the cursor of a fill buffer. *)
Ltac fill_side := first [reflexivity | repeat rewrite ?zlen_app, ?zlen_cons; rewrite ?(@zlen_nil Z); lia].
Ltac fill_next :=
  lazymatch goal with
  | |- context [rbind (@put ?E _ (?l ++ zrep ?n ?x) ?i ?bs)] =>
      rewrite (put_fill (E:=E) l n x bs i); [|fill_side|fill_side]
  | |- context [rbind (@put2 ?E (?l ++ zrep ?n ?x) ?i ?a ?b)] =>
      rewrite (put2_fill (E:=E) l n x a b i); [|fill_side|fill_side]
  end; rb.

Definition hi5 (x : Z) : Z := Z.land (as_u8 (Z.shiftr x 8)) 0x1F.
Definition hi4 (x : Z) : Z := Z.land (as_u8 (Z.shiftr x 8)) 0x0F.
Definition lo8 (x : Z) : Z := as_u8 (Z.land x 0xFF).

Definition pat_entry_bytes (e : Z * Z) : list Z :=
  [as_u8 (Z.shiftr e.1 8); lo8 e.1; Z.lor 0xE0 (hi5 e.2); lo8 e.2].

Definition pat_body (entries : list (Z * Z)) (version : Z) : list Z :=
  let len := 9 + 4 * zlen entries in
  [0x00; Z.lor 0xB0 (hi4 len); lo8 len; 0x00; 0x01; psi_version_byte version; 0x00; 0x00]
  ++ concat (map pat_entry_bytes entries).

(** A sealed section: body and CRC trailer. *)
Definition sealed (body : list Z) : list Z := body ++ be32 (crc32_mpeg2 body).

Definition psi_payload (section : list Z) : list Z := [0x00] ++ section ++ zrep (183 - zlen section) 0xFF.

Lemma zlen_pat_entries entries : zlen (concat (map pat_entry_bytes entries)) = 4 * zlen entries.
Proof. induction entries as [|e es IH]; [done|]. cbn [map concat]. rewrite zlen_app, IH, zlen_cons. change (zlen (pat_entry_bytes e)) with 4. lia. Qed.

Lemma zlen_pat_body entries v : zlen (pat_body entries v) = 8 + 4 * zlen entries.
Proof. unfold pat_body. cbv zeta. rewrite zlen_app, zlen_pat_entries. done. Qed.

Lemma zlen_sealed b : zlen (sealed b) = zlen b + 4.
Proof. unfold sealed. by rewrite zlen_app, zlen_be32. Qed.

Lemma write_pat_entries_fill {E} entries l n x i : i = zlen l -> 4 * zlen entries <= n ->
  write_pat_entries (E:=E) (l ++ zrep n x) i entries
  = Ok ((l ++ concat (map pat_entry_bytes entries)) ++ zrep (n - 4 * zlen entries) x, i + 4 * zlen entries).
Proof.
  revert l n i. induction entries as [|[pn pp] es IH]; intros l n i -> Hn.
  { cbn [write_pat_entries map concat]. change (4 * zlen (@nil (Z * Z))) with 0.
    by rewrite Z.sub_0_r, Z.add_0_r, app_nil_r. }
  rewrite zlen_cons in *. pose proof (zlen_nonneg es). cbn [write_pat_entries]. do 2 fill_next.
  rewrite IH by (rewrite ?zlen_app, ?zlen_cons, ?zlen_nil; lia).
  cbn [map concat]. rewrite <- !app_assoc. cbn [app pat_entry_bytes fst snd].
  do 2 f_equal; [|lia]. do 5 f_equal. f_equal. f_equal. lia.
Qed.

Lemma seal_fill {E} (p : list Z) body n i : i = zlen p + zlen body -> 4 <= n ->
  seal (E:=E) ((p ++ body) ++ zrep n 0xFF) (zlen p) i = Ok ((p ++ sealed body) ++ zrep (n - 4) 0xFF).
Proof.
  intros -> Hn. unfold seal. rewrite <- app_assoc, slice_app by done. rb.
  rewrite app_assoc, put_fill by (rewrite ?zlen_app, ?zlen_be32; lia).
  rewrite zlen_be32. unfold sealed. by rewrite <- (app_assoc p).
Qed.

(** ** The packet carrying a section *)

Lemma zlen_psi_payload s : zlen s <= 183 -> zlen (psi_payload s) = 184.
Proof. intros. unfold psi_payload. rewrite !zlen_app, zlen_zrep by lia. change (zlen [0]) with 1. lia. Qed.

Lemma write_pat_payload {E} out entries v c : 13 + 4 * zlen entries <= 184 ->
  write_pat_packet (E:=E) out entries v c =
  let! (out, c, _) := write_packet out PID_PAT true AdaptationField_default
                        (psi_payload (sealed (pat_body entries v))) c in
  Ok (out, c).
Proof.
  intros Hn. pose proof (zlen_nonneg entries). unfold write_pat_packet. cbv zeta.
  change (zrep 184 0xFF) with (@nil Z ++ zrep 184 0xFF). do 6 fill_next.
  rewrite write_pat_entries_fill by (rewrite ?zlen_app, ?zlen_cons, ?zlen_nil; lia). rb.
  rewrite <- (app_assoc []).
  assert (Hs : forall l n i, l = [0] ++ pat_body entries v -> i = 1 + zlen (pat_body entries v) -> 4 <= n ->
    seal (E:=E) (l ++ zrep n 0xFF) 1 i = Ok (([0] ++ sealed (pat_body entries v)) ++ zrep (n - 4) 0xFF)).
  { intros l n i -> -> Hn'. by apply (seal_fill [0]). }
  rewrite (Hs _ _ (9 + 4 * zlen entries)).
  - rb. match goal with |- context [_ ++ zrep ?N 0xFF] =>
      replace N with (183 - zlen (sealed (pat_body entries v))) by (rewrite zlen_sealed, zlen_pat_body; fill_side) end.
    rewrite <- app_assoc. done.
  - by rewrite <- !app_assoc.
  - rewrite zlen_pat_body. lia.
  - fill_side.
Qed.

End PsiLayout.

(** * Reading back a PAT *)
Module PatRoundtrip.
Import Common Crc32 MuxTypes PsiWriter PsiLayout PsiParse PsiTotal PsiTheorems.

Lemma version_byte v : 0 <= v ->
  let b := psi_version_byte v in
  byte b /\ Z.land (Z.shiftr b 1) 0x1F = v mod 32 /\ nz (Z.land b 0x01) = true /\ Z.land b 0xC0 = 0xC0.
Proof.
  intros Hv. unfold psi_version_byte. rewrite land_31. pose proof (Z.mod_pos_bound v 32 ltac:(lia)) as Hm.
  revert Hm. generalize (v mod 32). cbv zeta. refine (below_dec 32 _ _). by vm_compute.
Qed.

Lemma hi_bits x : 0 <= x < 32 ->
  Z.land (Z.lor 0xE0 x) 0x1F = x /\ byte (Z.lor 0xE0 x) /\ Z.land (Z.lor 0xE0 x) 0xE0 = 0xE0.
Proof. revert x. refine (below_dec 32 _ _). by vm_compute. Qed.

Lemma len_bits x : 0 <= x < 16 ->
  byte (Z.lor 0xB0 x) /\ Z.lor 0xB0 x mod 16 = x /\ Z.land (Z.lor 0xB0 x) 0x80 = 0x80 /\
  Z.land (Z.lor 0xB0 x) 0x40 = 0 /\ Z.land (Z.lor 0xB0 x) 0x30 = 0x30.
Proof. revert x. refine (below_dec 16 _ _). by vm_compute. Qed.

Lemma info_bits x : 0 <= x < 16 ->
  byte (Z.lor 0xF0 x) /\ Z.lor 0xF0 x mod 16 = x /\ Z.land (Z.lor 0xF0 x) 0xF0 = 0xF0.
Proof. revert x. refine (below_dec 16 _ _). by vm_compute. Qed.

Lemma hi5_range x : 0 <= hi5 x < 32.
Proof. unfold hi5. rewrite land_31. by apply Z.mod_pos_bound. Qed.
Lemma hi4_range x : 0 <= hi4 x < 16.
Proof. unfold hi4. rewrite land_15. by apply Z.mod_pos_bound. Qed.
Lemma lo8_byte x : byte (lo8 x).
Proof. apply as_u8_byte. Qed.

Lemma pid_join x : 0 <= x <= 0x1FFF -> from_be16 (hi5 x) (lo8 x) = x.
Proof.
  intros. unfold from_be16, hi5, lo8, as_u8. rewrite land_31, land_255, shiftr_div by lia.
  change (2 ^ 8) with 256. dlia.
Qed.

Lemma u16_join x : 0 <= x <= 65535 -> from_be16 (as_u8 (Z.shiftr x 8)) (lo8 x) = x.
Proof.
  intros. unfold from_be16, lo8, as_u8. rewrite land_255, shiftr_div by lia. change (2 ^ 8) with 256. dlia.
Qed.

Lemma len_join x : 0 <= x <= 4095 -> hi4 x * 256 + lo8 x = x.
Proof.
  intros. unfold hi4, lo8, as_u8. rewrite land_15, land_255, shiftr_div by lia. change (2 ^ 8) with 256. dlia.
Qed.

(** A sealed body framed by its own length passes the opening checks. *)
Lemma check_sealed table_id x r min_buf min_len :
  let body := table_id :: Z.lor 0xB0 (hi4 x) :: lo8 x :: r in
  3 <= min_buf -> 4 <= min_len -> bytes body -> min_buf <= zlen body + 4 -> zlen r + 4 = x -> min_len <= x <= 1021 ->
  check_section (sealed body) min_buf table_id min_len = Ok (zlen body + 4) /\
  well_framed (sealed body) table_id min_buf min_len.
Proof.
  intros body Hmb Hml Hb Hlen Hx Hr.
  destruct (len_bits (hi4 x) (hi4_range x)) as (_ & Hmod & _).
  assert (Hwf : well_framed (sealed body) table_id min_buf min_len).
  { exists (Z.lor 0xB0 (hi4 x)), (lo8 x), (r ++ be32 (crc32_mpeg2 body)).
    rewrite Hmod, len_join, zlen_sealed, zlen_app, zlen_be32 by lia.
    split_and!; try lia; [done|]. apply bytes_app. split; [done|apply be32_bytes]. }
  split; [|done]. rewrite <- zlen_sealed. apply (check_framed _ _ _ _ Hmb Hml Hwf). by apply crc_residue.
Qed.

Lemma get_sealed body i b : get body i = Some b -> get (sealed body) i = Some b.
Proof. intros H. unfold sealed. apply get_Some in H as Hr. rewrite get_app_l; [done|lia]. Qed.

Definition pat_entry (e : Z * Z) : PatEntry := {| PsiParse.program_number := e.1; pat_pid := e.2 |}.

Definition entry_ok (e : Z * Z) : Prop := 0 <= e.1 <= 65535 /\ 0 <= e.2 <= 0x1FFF.

Lemma program_loop_entries entries pre post fuel acc :
  Forall entry_ok entries -> zlen entries <= Z.of_nat fuel ->
  program_loop fuel (pre ++ concat (map pat_entry_bytes entries) ++ post) (zlen pre)
    (zlen pre + 4 * zlen entries) acc
  = Ok (acc ++ map pat_entry entries, zlen pre + 4 * zlen entries).
Proof.
  intros Hall. revert pre fuel acc. induction Hall as [|e es [H1 H2] _ IH]; intros pre fuel acc Hf.
  { change (4 * zlen (@nil (Z * Z))) with 0. cbn [map concat]. rewrite Z.add_0_r, app_nil_r.
    destruct fuel; cbn [program_loop]; by rewrite (proj2 (Z.leb_gt _ _)) by lia. }
  rewrite zlen_cons in *. pose proof (zlen_nonneg es). destruct fuel as [|fuel]; [lia|].
  cbn [program_loop map concat]. rewrite (proj2 (Z.leb_le _ _)) by lia.
  set (tl := concat (map pat_entry_bytes es)) in *. unfold pat_entry_bytes at 1 2 3 4.
  set (buf := pre ++ _).
  assert (Hbuf : buf = pre ++ ([as_u8 (Z.shiftr e.1 8); lo8 e.1; Z.lor 0xE0 (hi5 e.2); lo8 e.2] ++ tl) ++ post) by done.
  assert (Hi : forall j x, [as_u8 (Z.shiftr e.1 8); lo8 e.1; Z.lor 0xE0 (hi5 e.2); lo8 e.2] !! j = Some x ->
    idx (E:=PsiParseError) buf (zlen pre + Z.of_nat j) = Ok x).
  { intros j x Hj. apply idx_Ok. rewrite Hbuf, get_app_r by lia.
    replace (zlen pre + Z.of_nat j - zlen pre) with (Z.of_nat j) by lia.
    pose proof (lookup_lt_Some _ _ _ Hj) as Hlt. cbn in Hlt. rewrite !get_app_l by (rewrite ?zlen_app; unfold zlen; cbn; lia).
    unfold get. rewrite (proj2 (Z.ltb_ge _ _)) by lia. by rewrite Nat2Z.id. }
  rewrite <- (Z.add_0_r (zlen pre)) at 1. change 0 with (Z.of_nat 0) at 1.
  rewrite (Hi 0%nat _ eq_refl). change (zlen pre + 1) with (zlen pre + Z.of_nat 1).
  change (zlen pre + 2) with (zlen pre + Z.of_nat 2). change (zlen pre + 3) with (zlen pre + Z.of_nat 3).
  rewrite (Hi 1%nat _ eq_refl), (Hi 2%nat _ eq_refl), (Hi 3%nat _ eq_refl). rb.
  rewrite (proj1 (hi_bits _ (hi5_range _))), u16_join, pid_join by done.
  assert (Hpre : zlen (pre ++ pat_entry_bytes e) = zlen pre + 4) by (by rewrite zlen_app).
  specialize (IH (pre ++ pat_entry_bytes e) fuel (acc ++ [pat_entry e]) ltac:(lia)).
  rewrite Hpre, <- !app_assoc in IH. rewrite Hbuf, <- app_assoc.
  replace (zlen pre + 4 * (1 + zlen es)) with (zlen pre + 4 + 4 * zlen es) by lia.
  fold tl in IH. exact IH.
Qed.

Lemma pat_body_bytes entries v : 0 <= v -> bytes (pat_body entries v).
Proof.
  intros Hv. unfold pat_body. cbv zeta. apply bytes_app. split.
  - destruct (version_byte v Hv) as (Hb & _).
    destruct (len_bits _ (hi4_range (9 + 4 * zlen entries))) as (Hl & _).
    unfold bytes. rewrite !Forall_cons. split_and!; try done; try apply lo8_byte; unfold byte; lia.
  - induction entries as [|e es IH]; [constructor|]. cbn [map concat]. apply bytes_app. split; [|done].
    destruct (hi_bits _ (hi5_range e.2)) as (_ & Hh & _).
    unfold bytes, pat_entry_bytes. rewrite !Forall_cons. split_and!; try apply lo8_byte; try done. apply as_u8_byte.
Qed.

Lemma parse_pat_sealed entries v :
  0 <= v -> Forall entry_ok entries -> 4 * zlen entries <= 1012 ->
  parse_pat (sealed (pat_body entries v))
  = Ok {| transport_stream_id := 1; pat_version := v mod 32; pat_current_next := true;
          pat_programs := map pat_entry entries |}.
Proof.
  intros Hv He Hn. pose proof (zlen_nonneg entries).
  destruct (version_byte v Hv) as (_ & Hver & Hcni & _).
  destruct (check_sealed 0x00 (9 + 4 * zlen entries)
    ([0x00; 0x01; psi_version_byte v; 0x00; 0x00] ++ concat (map pat_entry_bytes entries)) 12 9) as [Hcheck _];
    [lia|lia|by apply pat_body_bytes|rewrite !zlen_cons, zlen_app; zlia
    |rewrite zlen_app, zlen_pat_entries; fill_side|lia|].
  unfold parse_pat, parse_pat_section.
  change (0x00 :: Z.lor 0xB0 (hi4 (9 + 4 * zlen entries)) :: lo8 (9 + 4 * zlen entries) ::
    [0x00; 0x01; psi_version_byte v; 0x00; 0x00] ++ concat (map pat_entry_bytes entries))
    with (pat_body entries v) in Hcheck.
  rewrite Hcheck, zlen_pat_body. rb. unfold idx.
  rewrite (get_sealed _ 3 0), (get_sealed _ 4 1), (get_sealed _ 5 (psi_version_byte v)), (get_sealed _ 6 0),
    (get_sealed _ 7 0) by done. rb.
  rewrite Hver, Hcni. rb. unfold usub. rewrite (proj2 (Z.leb_le _ _)) by lia. rb.
  replace (8 + 4 * zlen entries + 4 - 4) with (8 + 4 * zlen entries) by lia.
  assert (Hloop : program_loop (length (sealed (pat_body entries v))) (sealed (pat_body entries v)) 8
    (8 + 4 * zlen entries) [] = Ok (map pat_entry entries, 8 + 4 * zlen entries)).
  { assert (HS : sealed (pat_body entries v) = [0x00; Z.lor 0xB0 (hi4 (9 + 4 * zlen entries));
      lo8 (9 + 4 * zlen entries); 0x00; 0x01; psi_version_byte v; 0x00; 0x00]
      ++ concat (map pat_entry_bytes entries) ++ be32 (crc32_mpeg2 (pat_body entries v)))
      by (unfold sealed, pat_body; cbv zeta; by rewrite <- app_assoc).
    rewrite HS at 2. apply (program_loop_entries entries [_; _; _; _; _; _; _; _] _ _ [] He).
    pose proof (zlen_sealed (pat_body entries v)) as Hs. rewrite zlen_pat_body in Hs. unfold zlen in *. lia. }
  rewrite Hloop. rb. rewrite Z.eqb_refl. rb. done.
Qed.

End PatRoundtrip.

(** * Writing and reading back a PMT *)
Module PmtRoundtrip.
Import Common TsWriter Crc32 MuxTypes PsiWriter PsiLayout PsiParse PsiTotal PsiTheorems PatRoundtrip.

Definition es_bytes (s : PmtStreamEntry) : list Z :=
  let n := as_u16 (zlen (entry_descriptors s)) in
  [entry_stream_type s; Z.lor 0xE0 (hi5 (entry_pid s)); lo8 (entry_pid s); Z.lor 0xF0 (hi4 n); lo8 n]
  ++ entry_descriptors s.

Definition pmt_body (prog : MuxerProgramConfig) (pcr : Z) (ss : list PmtStreamEntry) (v : Z) : list Z :=
  let pil := zlen (concat (MuxTypes.program_descriptors prog)) in
  let len := 13 + pil + zlen (concat (map es_bytes ss)) in
  let pn := MuxTypes.program_number prog in
  [0x02; Z.lor 0xB0 (hi4 len); lo8 len; as_u8 (Z.shiftr pn 8); lo8 pn; psi_version_byte v; 0x00; 0x00;
   Z.lor 0xE0 (hi5 pcr); lo8 pcr; Z.lor 0xF0 (hi4 pil); lo8 pil]
  ++ concat (MuxTypes.program_descriptors prog) ++ concat (map es_bytes ss).

Lemma program_info_concat descs : program_info_size descs = zlen (concat descs).
Proof. induction descs as [|d ds IH]; [done|]. cbn [program_info_size foldr concat]. rewrite zlen_app, <- IH. done. Qed.

Lemma es_loop_concat ss : es_loop_size ss = zlen (concat (map es_bytes ss)).
Proof.
  induction ss as [|s ss IH]; [done|]. cbn [es_loop_size foldr map concat]. rewrite zlen_app, <- IH.
  unfold es_bytes. rewrite zlen_app. unfold es_loop_size. change (zlen [_; _; _; _; _]) with 5. lia.
Qed.

Lemma zlen_pmt_body prog pcr ss v :
  zlen (pmt_body prog pcr ss v)
  = 12 + zlen (concat (MuxTypes.program_descriptors prog)) + zlen (concat (map es_bytes ss)).
Proof. unfold pmt_body. cbv zeta. rewrite !zlen_app. change (zlen [_; _; _; _; _; _; _; _; _; _; _; _]) with 12. lia. Qed.

Lemma write_blocks_fill {E} descs l n x i : i = zlen l -> zlen (concat descs) <= n ->
  write_blocks (E:=E) (l ++ zrep n x) i descs
  = Ok ((l ++ concat descs) ++ zrep (n - zlen (concat descs)) x, i + zlen (concat descs)).
Proof.
  revert l n i. induction descs as [|d ds IH]; intros l n i -> Hn; cbn [write_blocks concat] in *.
  { change (zlen (@nil Z)) with 0. by rewrite Z.sub_0_r, Z.add_0_r, app_nil_r. }
  rewrite zlen_app in *. pose proof (zlen_nonneg (concat ds)). pose proof (zlen_nonneg d).
  rewrite put_fill by lia. rb. rewrite IH by (rewrite ?zlen_app; lia).
  rewrite <- (app_assoc l). do 2 f_equal; [|lia]. do 2 f_equal. lia.
Qed.

Lemma write_es_fill {E} ss l n x i : i = zlen l -> zlen (concat (map es_bytes ss)) <= n ->
  write_es_loop (E:=E) (l ++ zrep n x) i ss
  = Ok ((l ++ concat (map es_bytes ss)) ++ zrep (n - zlen (concat (map es_bytes ss))) x,
        i + zlen (concat (map es_bytes ss))).
Proof.
  revert l n i. induction ss as [|s ss IH]; intros l n i -> Hn; cbn [write_es_loop map concat] in *.
  { change (zlen (@nil Z)) with 0. by rewrite Z.sub_0_r, Z.add_0_r, app_nil_r. }
  assert (Hz : zlen (es_bytes s) = 5 + zlen (entry_descriptors s)) by (unfold es_bytes; by rewrite zlen_app).
  rewrite zlen_app in *. pose proof (zlen_nonneg (concat (map es_bytes ss))).
  pose proof (zlen_nonneg (entry_descriptors s)). do 4 fill_next.
  assert (Hl : (((l ++ [entry_stream_type s]) ++ [Z.lor 0xE0 (Z.land (as_u8 (Z.shiftr (entry_pid s) 8)) 0x1F);
      as_u8 (Z.land (entry_pid s) 0xFF)]) ++ [Z.lor 0xF0 (Z.land (as_u8 (Z.shiftr (as_u16 (zlen (entry_descriptors s))) 8)) 0x0F);
      as_u8 (Z.land (as_u16 (zlen (entry_descriptors s))) 0xFF)]) ++ entry_descriptors s = l ++ es_bytes s)
    by (unfold es_bytes; cbv zeta; by rewrite <- !app_assoc).
  rewrite Hl. match goal with |- context [zrep ?N x] => replace N with (n - zlen (es_bytes s)) by (rewrite Hz; fill_side) end.
  rewrite IH by (rewrite ?zlen_app; lia). rewrite <- (app_assoc l). do 2 f_equal; [|lia]. do 2 f_equal. lia.
Qed.

(** The size the writer checks. *)
Definition pmt_size (prog : MuxerProgramConfig) (ss : list PmtStreamEntry) : Z :=
  16 + zlen (concat (MuxTypes.program_descriptors prog)) + zlen (concat (map es_bytes ss)).

Lemma section_length_ok {E} prog ss : pmt_size prog ss <= 65535 ->
  pmt_section_length (E:=E) (program_info_size (MuxTypes.program_descriptors prog)) (es_loop_size ss)
  = Ok (pmt_size prog ss - 3).
Proof.
  intros Hs. unfold pmt_size in *. rewrite program_info_concat, es_loop_concat.
  set (a := zlen _) in *. set (b := zlen (concat (map es_bytes ss))) in *.
  assert (0 <= a /\ 0 <= b) as [Ha Hb] by (split; apply zlen_nonneg).
  unfold pmt_section_length, chk_u16, checked, as_u16. rewrite !(Z.mod_small _ 65536) by lia.
  do 3 (rewrite (proj2 (Z.leb_le _ _)), (proj2 (Z.ltb_lt _ _)) by lia; rb). f_equal. lia.
Qed.

Lemma write_pmt_payload out prog pcr ss v c : pmt_size prog ss <= 183 ->
  write_pmt_packet out prog pcr ss v c =
  let! (out, c, _) := write_packet out (MuxTypes.pmt_pid prog) true AdaptationField_default
                        (psi_payload (sealed (pmt_body prog pcr ss v))) c in
  Ok (out, c).
Proof.
  intros Hs. unfold write_pmt_packet. cbv zeta. rewrite section_length_ok by lia. rb.
  rewrite program_info_concat. unfold pmt_size in *.
  set (a := zlen (concat (MuxTypes.program_descriptors prog))) in *. set (b := zlen (concat (map es_bytes ss))) in *.
  assert (0 <= a /\ 0 <= b) as [Ha Hb] by (split; apply zlen_nonneg).
  rewrite (proj2 (Z.leb_gt _ _)), (proj2 (Z.ltb_ge _ _)) by lia.
  assert (as_u16 a = a) as -> by (unfold as_u16; apply Z.mod_small; lia).
  change (zrep 184 0xFF) with (@nil Z ++ zrep 184 0xFF). do 8 fill_next.
  rewrite write_blocks_fill; [|fill_side|fold a; fill_side]. rb. fold a.
  rewrite write_es_fill; [|rewrite zlen_app; fold a; fill_side|fold b; fill_side]. rb. fold b.
  assert (Hseal : forall l n i, l = [0] ++ pmt_body prog pcr ss v -> i = 1 + zlen (pmt_body prog pcr ss v) -> 4 <= n ->
    seal (E:=PmtError) (l ++ zrep n 0xFF) 1 i = Ok (([0] ++ sealed (pmt_body prog pcr ss v)) ++ zrep (n - 4) 0xFF)).
  { intros l n i -> -> Hn'. by apply (seal_fill [0]). }
  rewrite (Hseal _ _ (13 + a + b)).
  - rb. match goal with |- context [_ ++ zrep ?N 0xFF] =>
      replace N with (183 - zlen (sealed (pmt_body prog pcr ss v)))
        by (rewrite zlen_sealed, zlen_pmt_body; fold a b; fill_side) end.
    rewrite <- app_assoc. done.
  - unfold pmt_body. cbv zeta. fold a b. replace (16 + a + b - 3) with (13 + a + b) by lia.
    by rewrite <- !app_assoc.
  - rewrite zlen_pmt_body. fold a b. lia.
  - fill_side.
Qed.

(** ** Reading back *)

(** The writer's entry for an abstract stream. *)
Definition entry_of (x : PmtStream) : PmtStreamEntry :=
  {| entry_stream_type := stream_type x; entry_pid := elementary_pid x;
     entry_descriptors := encode_descriptors (descriptors x) |}.

Definition stream_ok (x : PmtStream) : Prop :=
  byte (stream_type x) /\ 0 <= elementary_pid x <= 0x1FFF /\ Forall descriptor_ok (descriptors x).

Lemma walk_encoded ds : walk_descriptors (encode_descriptors ds) = Ok ds.
Proof. apply (walk_loop_encoded ds []). unfold zlen. lia. Qed.

Lemma encode_bytes ds : Forall descriptor_ok ds -> bytes (encode_descriptors ds).
Proof.
  induction 1 as [|d ds (H1 & H2 & H3) _ IH]; [constructor|]. unfold encode_descriptors. cbn [map concat].
  apply bytes_app. split; [|done]. unfold bytes, encode_descriptor. rewrite !Forall_cons.
  split_and!; [done| |done]. unfold byte. pose proof (zlen_nonneg (data d)). lia.
Qed.

Lemma stream_loop_entries xs pre post fuel acc :
  Forall stream_ok xs -> zlen (concat (map es_bytes (map entry_of xs))) <= Z.min 4095 (Z.of_nat fuel) ->
  let n := zlen (concat (map es_bytes (map entry_of xs))) in
  stream_loop fuel (pre ++ concat (map es_bytes (map entry_of xs)) ++ post) (zlen pre) (zlen pre + n) acc
  = Ok (acc ++ xs, zlen pre + n).
Proof.
  intros Hall. revert pre fuel acc. induction Hall as [|x xs (H1 & H2 & H3) _ IH]; intros pre fuel acc Hf n.
  { cbn [map concat] in n. change n with 0. cbn [map concat]. rewrite Z.add_0_r, app_nil_r.
    destruct fuel; cbn [stream_loop]; by rewrite (proj2 (Z.leb_gt _ _)) by lia. }
  cbn [map concat] in *. set (tl := concat (map es_bytes (map entry_of xs))) in *.
  set (ds := encode_descriptors (descriptors x)) in *.
  assert (Hz : zlen (es_bytes (entry_of x)) = 5 + zlen ds) by (unfold es_bytes; by rewrite zlen_app).
  rewrite zlen_app, Hz in Hf. pose proof (zlen_nonneg tl). pose proof (zlen_nonneg ds).
  assert (Hn : n = 5 + zlen ds + zlen tl) by (unfold n; rewrite zlen_app; lia). clearbody n.
  destruct fuel as [|fuel]; [lia|]. cbn [stream_loop]. rewrite (proj2 (Z.leb_le _ _)) by lia.
  set (hd := [stream_type x; Z.lor 0xE0 (hi5 (elementary_pid x)); lo8 (elementary_pid x);
              Z.lor 0xF0 (hi4 (zlen ds)); lo8 (zlen ds)]).
  assert (Hes : es_bytes (entry_of x) = hd ++ ds).
  { unfold es_bytes, hd; cbn [entry_of entry_descriptors entry_pid entry_stream_type]. cbv zeta. fold ds.
    assert (as_u16 (zlen ds) = zlen ds) as -> by (unfold as_u16; apply Z.mod_small; lia). done. }
  rewrite Hes. set (buf := pre ++ _). assert (Hbuf : buf = pre ++ hd ++ ds ++ tl ++ post) by (unfold buf; by rewrite <- !app_assoc).
  assert (Hi : forall j y, hd !! j = Some y -> idx (E:=PsiParseError) buf (zlen pre + Z.of_nat j) = Ok y).
  { intros j y Hj. apply idx_Ok. rewrite Hbuf, get_app_r by lia.
    replace (zlen pre + Z.of_nat j - zlen pre) with (Z.of_nat j) by lia.
    pose proof (lookup_lt_Some _ _ _ Hj) as Hlt. rewrite get_app_l by (unfold zlen; lia).
    unfold get. rewrite (proj2 (Z.ltb_ge _ _)) by lia. by rewrite Nat2Z.id. }
  rewrite <- (Z.add_0_r (zlen pre)) at 1. change 0 with (Z.of_nat 0) at 1.
  rewrite (Hi 0%nat _ eq_refl). change (zlen pre + 1) with (zlen pre + Z.of_nat 1).
  change (zlen pre + 2) with (zlen pre + Z.of_nat 2). change (zlen pre + 3) with (zlen pre + Z.of_nat 3).
  change (zlen pre + 4) with (zlen pre + Z.of_nat 4).
  rewrite (Hi 1%nat _ eq_refl), (Hi 2%nat _ eq_refl), (Hi 3%nat _ eq_refl), (Hi 4%nat _ eq_refl). rb.
  destruct (info_bits (hi4 (zlen ds)) (hi4_range _)) as (Hib & Him & _).
  rewrite (proj1 (hi_bits _ (hi5_range _))), pid_join, len_field, Him, len_join by (done || lia || apply lo8_byte).
  rewrite (proj2 (Z.ltb_ge _ _)) by lia.
  rewrite (slice_mid (pre ++ hd) ds (tl ++ post)) by (rewrite ?Hbuf, ?zlen_app, <- ?app_assoc; done || (change (zlen hd) with 5; lia)).
  rb. unfold ds at 1. rewrite walk_encoded. rb.
  specialize (IH (pre ++ hd ++ ds) fuel (acc ++ [x]) ltac:(lia)). cbv zeta in IH. rewrite <- !app_assoc in IH.
  rewrite !zlen_app in IH. change (zlen hd) with 5 in IH.
  replace (zlen pre + (5 + zlen ds) + zlen tl) with (zlen pre + n) in IH by lia.
  replace (zlen pre + 5 + zlen ds) with (zlen pre + (5 + zlen ds)) by lia. rewrite Hbuf.
  destruct x. exact IH.
Qed.

Record pmt_ok (prog : MuxerProgramConfig) (pcr : Z) (ds : list RawDescriptor) (xs : list PmtStream) : Prop := {
  po_number : 0 <= MuxTypes.program_number prog <= 65535;
  po_pcr : 0 <= pcr <= 0x1FFF;
  po_descs : concat (MuxTypes.program_descriptors prog) = encode_descriptors ds;
  po_descs_ok : Forall descriptor_ok ds;
  po_streams : Forall stream_ok xs
}.

Lemma es_bytes_ok x : stream_ok x -> bytes (es_bytes (entry_of x)).
Proof.
  intros (H1 & H2 & H3). unfold es_bytes. cbv zeta. apply bytes_app. split.
  - destruct (hi_bits _ (hi5_range (entry_pid (entry_of x)))) as (_ & Hh & _).
    destruct (info_bits _ (hi4_range (as_u16 (zlen (entry_descriptors (entry_of x)))))) as (Hi & _).
    unfold bytes. rewrite !Forall_cons. split_and!; try apply lo8_byte; done.
  - by apply encode_bytes.
Qed.

Lemma pmt_body_bytes prog pcr ds xs v : pmt_ok prog pcr ds xs -> 0 <= v ->
  bytes (pmt_body prog pcr (map entry_of xs) v).
Proof.
  intros [Hn Hp Hd Hdo Hs] Hv. unfold pmt_body. cbv zeta. apply bytes_app. split.
  - destruct (version_byte v Hv) as (Hb & _). destruct (hi_bits _ (hi5_range pcr)) as (_ & Hh & _).
    unfold bytes. rewrite !Forall_cons.
    split_and!; try apply lo8_byte; try apply as_u8_byte; try done; try (unfold byte; lia);
      [apply (len_bits _ (hi4_range _))|apply (info_bits _ (hi4_range _))].
  - apply bytes_app. split; [rewrite Hd; by apply encode_bytes|].
    clear -Hs. induction Hs as [|x xs Hx _ IH]; [constructor|]. cbn [map concat]. apply bytes_app.
    split; [by apply es_bytes_ok|done].
Qed.

Lemma parse_pmt_sealed prog pcr ds xs v :
  pmt_ok prog pcr ds xs -> 0 <= v -> pmt_size prog (map entry_of xs) <= 1024 ->
  parse_pmt (sealed (pmt_body prog pcr (map entry_of xs) v))
  = Ok {| pmt_program_number := MuxTypes.program_number prog; pmt_version := v mod 32; pmt_current_next := true;
          PsiParse.pcr_pid := pcr; PsiParse.program_descriptors := ds; PsiParse.streams := xs |}.
Proof.
  intros Hok Hv Hsz. pose proof Hok as [Hn Hp Hd Hdo Hs]. unfold pmt_size in Hsz.
  destruct (version_byte v Hv) as (_ & Hver & Hcni & _).
  pose proof (zlen_pmt_body prog pcr (map entry_of xs) v) as Hzb.
  set (a := zlen (concat (MuxTypes.program_descriptors prog))) in *.
  set (es := concat (map es_bytes (map entry_of xs))) in *.
  assert (0 <= a /\ 0 <= zlen es) as [Ha Hes] by (split; apply zlen_nonneg).
  set (body := pmt_body prog pcr (map entry_of xs) v) in *.
  set (hd := [0x02; Z.lor 0xB0 (hi4 (13 + a + zlen es)); lo8 (13 + a + zlen es);
    as_u8 (Z.shiftr (MuxTypes.program_number prog) 8); lo8 (MuxTypes.program_number prog); psi_version_byte v;
    0x00; 0x00; Z.lor 0xE0 (hi5 pcr); lo8 pcr; Z.lor 0xF0 (hi4 a); lo8 a]).
  assert (Hbody : body = hd ++ encode_descriptors ds ++ es) by (unfold body, pmt_body; cbv zeta; by rewrite <- Hd).
  assert (Hcheck : check_section (sealed body) 16 0x02 13 = Ok (zlen body + 4)).
  { assert (Hsplit : body = 0x02 :: Z.lor 0xB0 (hi4 (13 + a + zlen es)) :: lo8 (13 + a + zlen es) ::
      (drop 3 hd ++ encode_descriptors ds ++ es)) by (by rewrite Hbody).
    pose proof (pmt_body_bytes prog pcr ds xs v Hok Hv) as Hbb. fold body in Hbb. rewrite Hsplit in Hbb.
    pose proof Hzb as Hzb'. rewrite Hsplit, !zlen_cons in Hzb'.
    rewrite Hsplit. apply check_sealed; try done; rewrite ?zlen_cons; lia. }
  unfold parse_pmt. rewrite Hcheck, Hzb. rb.
  assert (Hg : forall j y, hd !! Z.to_nat j = Some y -> 0 <= j -> get (sealed body) j = Some y).
  { intros j y Hj Hj0. apply get_sealed. rewrite Hbody. pose proof (lookup_lt_Some _ _ _ Hj).
    rewrite get_app_l by (unfold zlen; lia). unfold get. by rewrite (proj2 (Z.ltb_ge _ _)) by lia. }
  unfold idx. rewrite (Hg 3 _ eq_refl), (Hg 4 _ eq_refl), (Hg 5 _ eq_refl), (Hg 7 _ eq_refl), (Hg 8 _ eq_refl),
    (Hg 9 _ eq_refl), (Hg 10 _ eq_refl), (Hg 11 _ eq_refl) by lia. rb.
  rewrite Hver, Hcni. cbn [negb Z.eqb]. unfold usub. rewrite (proj2 (Z.leb_le _ _)) by lia. rb.
  replace (12 + a + zlen es + 4 - 4) with (12 + a + zlen es) by lia.
  destruct (info_bits (hi4 a) (hi4_range _)) as (Hib & Him & _).
  rewrite len_field, Him, len_join by (done || lia || apply lo8_byte).
  rewrite (proj2 (Z.ltb_ge _ _)) by lia.
  assert (Hsl : sealed body = hd ++ encode_descriptors ds ++ es ++ be32 (crc32_mpeg2 body))
    by (unfold sealed; rewrite Hbody at 1; by rewrite <- !app_assoc).
  assert (Hzd : zlen (encode_descriptors ds) = a) by (unfold a; by rewrite Hd).
  rewrite (slice_mid hd (encode_descriptors ds) (es ++ be32 (crc32_mpeg2 body)) (sealed body)) by (done || (change (zlen hd) with 12; lia)).
  rb. rewrite walk_encoded. rb.
  pose proof (stream_loop_entries xs (hd ++ encode_descriptors ds) (be32 (crc32_mpeg2 body)) (length (sealed body)) [] Hs) as Hloop.
  fold es in Hloop. cbv zeta in Hloop. rewrite <- app_assoc, <- Hsl, zlen_app, Hzd in Hloop. change (zlen hd) with 12 in Hloop.
  rewrite Hloop.
  - rb. rewrite Z.eqb_refl. rb. rewrite (proj1 (hi_bits _ (hi5_range _))), u16_join, pid_join by done. done.
  - pose proof (zlen_sealed body) as Hzs. rewrite Hzb in Hzs. unfold zlen in *. lia.
Qed.

Lemma pmt_checked prog pcr ds xs v :
  pmt_ok prog pcr ds xs -> 0 <= v -> pmt_size prog (map entry_of xs) <= 1024 ->
  well_framed (sealed (pmt_body prog pcr (map entry_of xs) v)) 0x02 16 13.
Proof.
  intros Hok Hv Hsz. unfold pmt_size in Hsz.
  set (a := zlen (concat (MuxTypes.program_descriptors prog))) in *.
  set (es := concat (map es_bytes (map entry_of xs))) in *.
  assert (0 <= a /\ 0 <= zlen es) as [Ha Hes] by (split; apply zlen_nonneg).
  pose proof (pmt_body_bytes prog pcr ds xs v Hok Hv) as Hbb.
  pose proof (zlen_pmt_body prog pcr (map entry_of xs) v) as Hzb. fold a es in Hzb.
  set (body := pmt_body prog pcr (map entry_of xs) v) in *.
  assert (exists r, body = 0x02 :: Z.lor 0xB0 (hi4 (13 + a + zlen es)) :: lo8 (13 + a + zlen es) :: r) as (r & Hr)
    by (by eexists).
  rewrite Hr in *. rewrite !zlen_cons in Hzb. apply check_sealed; try done; rewrite ?zlen_cons; lia.
Qed.

End PmtRoundtrip.

(** * What PSI generation guarantees *)
Module PsiWriterTheorems.
Import Common TsWriter TsCounters TsLayout TsParser Crc32 MuxTypes PsiWriter PsiLayout PsiParse PsiTotal PsiTheorems
  PatRoundtrip PmtRoundtrip PsiAssembler PsiAssemblerTheorems.

(** One transport packet that carries exactly one section: on [p], unit start,
    the counter advanced, and behind the zero pointer field the section the
    assembler returns, with nothing but stuffing left. *)
Definition carries_section (pkt : list Z) (p : Z) (c c' : ContinuityCounters) (section : list Z) : Prop :=
  advanced c c' p /\
  exists q r, parse_ts_packet pkt = Ok q /\ pid q = p /\ payload_unit_start q = true /\
    continuity_counter q = cc_of c p /\ payload q = 0 :: r /\
    forall a, exists a1, start_new_section a r = (a1, Ok (Some section)) /\ drain 1 a1 = (PsiAssembler.new, []).

Lemma full_packet {E} out p section c :
  zlen out = 188 -> 0 <= p <= 0x1FFF -> counters_ok c -> framed section -> zlen section <= 183 ->
  exists pkt c' w, write_packet (E:=E) out p true AdaptationField_default (psi_payload section) c = Ok (pkt, c', w) /\
    carries_section pkt p c c' section.
Proof.
  intros Hout Hp Hc Hf Hl.
  destruct (write_packet_ok (E:=E) out p true AdaptationField_default (psi_payload section) c Hout Hp Hc)
    as (c' & Hw & Ha).
  eexists _, c', _. split; [exact Hw|]. split; [done|].
  destruct (cc_of_range c p Hc Hp) as [_ Hcc]. pose proof (zlen_psi_payload section Hl) as Hz.
  eexists _, (section ++ zrep (183 - zlen section) 0xFF). split.
  { by apply parse_layout. }
  cbn [expected pid payload_unit_start continuity_counter payload]. split_and!; try done.
  - rewrite Hz. change (consumed AdaptationField_default 184) with 184. by rewrite ztake_all by lia.
  - intros a. pose proof (framed_len _ Hf).
    assert (Hmax : zlen section + zlen (zrep (183 - zlen section) 0xFF) <= MAX_SECTION_SIZE)
      by (rewrite zlen_zrep by lia; unfold MAX_SECTION_SIZE; lia).
    eexists. split; [apply (append_final section [] section _ Hf eq_refl Hmax)|].
    apply (drain_sections [] (zrep (183 - zlen section) 0xFF)); [constructor|constructor| |].
    + destruct (decide (zlen section = 183)) as [->|]; [by left|]. right.
      exists (zrep (182 - zlen section) 0xFF). unfold zrep.
      replace (Z.to_nat (183 - zlen section)) with (S (Z.to_nat (182 - zlen section))) by lia. done.
    + cbn [concat app]. rewrite zlen_zrep by lia. unfold MAX_SECTION_SIZE. lia.
Qed.

Lemma well_framed_framed s t mb ml : well_framed s t mb ml -> framed s.
Proof.
  intros (b1 & b2 & r & -> & Hb & _ & Hr & Hrange). exists t, b1, b2, r. split_and!; try done.
  rewrite !zlen_cons. unfold MAX_SECTION_SIZE. lia.
Qed.

Lemma pat_framed entries version : 0 <= version -> zlen entries <= 42 -> framed (sealed (pat_body entries version)).
Proof.
  intros Hv Hn. pose proof (zlen_nonneg entries).
  eapply well_framed_framed, (check_sealed 0x00 (9 + 4 * zlen entries)
    ([0x00; 0x01; psi_version_byte version; 0x00; 0x00] ++ concat (map pat_entry_bytes entries)) 12 9);
    [lia|lia|by apply pat_body_bytes|rewrite !zlen_cons, zlen_app; zlia
    |rewrite zlen_app, zlen_pat_entries; fill_side|lia].
Qed.

(** For up to 42 programs the PAT packet goes out on PID 0 with the PAT's
    own continuity counter, and the receiver's packet parser, section assembler
    and PAT parser recover the version (modulo 32) and the program loop exactly
    as configured, with no reserved-bit or section-number issue. *)
Theorem pat_packet_roundtrip (out : list Z) (entries : list (Z * Z)) (version : Z) (c : ContinuityCounters) :
  zlen out = 188 -> counters_ok c -> 0 <= version -> Forall entry_ok entries -> zlen entries <= 42 ->
  exists pkt c' section,
    write_pat_packet (E:=Empty_set) out entries version c = Ok (pkt, c') /\
    carries_section pkt PID_PAT c c' section /\
    parse_pat section = Ok {| transport_stream_id := 1; pat_version := version mod 32;
                              pat_current_next := true; pat_programs := map pat_entry entries |} /\
    psi_section_syntax_issues section true = [].
Proof.
  intros Hout Hc Hv He Hn. pose proof (zlen_nonneg entries).
  pose proof (zlen_sealed (pat_body entries version)) as Hz. rewrite zlen_pat_body in Hz.
  pose proof (pat_framed entries version Hv ltac:(lia)) as Hf.
  destruct (full_packet (E:=Empty_set) out PID_PAT (sealed (pat_body entries version)) c)
    as (pkt & c' & w & Hw & Hcar); [done|unfold PID_PAT; lia|done|done|lia|].
  exists pkt, c', (sealed (pat_body entries version)). split_and!; [|done|apply parse_pat_sealed; try done; lia|].
  - rewrite write_pat_payload by lia. by rewrite Hw.
  - unfold psi_section_syntax_issues, byte_and.
    rewrite (get_sealed _ 0 0), (get_sealed _ 1 (Z.lor 0xB0 (hi4 (9 + 4 * zlen entries)))),
      (get_sealed _ 5 (psi_version_byte version)), (get_sealed _ 6 0), (get_sealed _ 7 0) by done.
    destruct (len_bits _ (hi4_range (9 + 4 * zlen entries))) as (_ & _ & -> & -> & ->).
    destruct (version_byte version Hv) as (_ & _ & _ & ->). done.
Qed.

Lemma pat_packet_roundtrip_witness :
  exists pkt c' section,
    write_pat_packet (E:=Empty_set) (zrep 188 0) [(1, 0x1000); (2, 0x1010)] 33 TsWriter.new = Ok (pkt, c') /\
    parse_pat section = Ok {| transport_stream_id := 1; pat_version := 1; pat_current_next := true;
      pat_programs := [{| PsiParse.program_number := 1; pat_pid := 0x1000 |};
                       {| PsiParse.program_number := 2; pat_pid := 0x1010 |}] |}.
Proof.
  destruct (pat_packet_roundtrip (zrep 188 0) [(1, 0x1000); (2, 0x1010)] 33 TsWriter.new)
    as (pkt & c' & section & Hw & _ & Hp & _).
  - reflexivity.
  - exact new_ok.
  - lia.
  - repeat constructor; cbn; lia.
  - vm_compute. discriminate.
  - exists pkt, c', section. split; [exact Hw|exact Hp].
Defined.

Lemma pmt_packet_carried out prog pcr ds xs version c :
  zlen out = 188 -> counters_ok c -> 0 <= version -> 0 <= MuxTypes.pmt_pid prog <= 0x1FFF ->
  pmt_ok prog pcr ds xs -> pmt_size prog (map entry_of xs) <= 183 ->
  exists pkt c' section,
    write_pmt_packet out prog pcr (map entry_of xs) version c = Ok (pkt, c') /\
    carries_section pkt (MuxTypes.pmt_pid prog) c c' section /\
    parse_pmt section = Ok {| pmt_program_number := MuxTypes.program_number prog; pmt_version := version mod 32;
                              pmt_current_next := true; PsiParse.pcr_pid := pcr;
                              PsiParse.program_descriptors := ds; PsiParse.streams := xs |}.
Proof.
  intros Hout Hc Hv Hpid Hok Hs. pose proof (zlen_sealed (pmt_body prog pcr (map entry_of xs) version)) as Hz.
  rewrite zlen_pmt_body in Hz. unfold pmt_size in Hs.
  assert (Hf : framed (sealed (pmt_body prog pcr (map entry_of xs) version)))
    by (eapply well_framed_framed, pmt_checked; try done; unfold pmt_size; lia).
  destruct (full_packet (E:=PmtError) out (MuxTypes.pmt_pid prog) (sealed (pmt_body prog pcr (map entry_of xs) version)) c)
    as (pkt & c' & w & Hw & Hcar); [done|done|done|done|lia|].
  exists pkt, c', (sealed (pmt_body prog pcr (map entry_of xs) version)).
  split_and!; [|done|apply parse_pmt_sealed; try done; unfold pmt_size; lia].
  rewrite write_pmt_payload by (unfold pmt_size; lia). by rewrite Hw.
Qed.

(** A PMT of at most 183 bytes goes out on the program's PMT PID and the
    receiver recovers the program number, version, PCR PID, program descriptors
    and every stream with its type, PID and descriptors, in order; a larger one
    is refused with [PmtTooLarge] naming its size. *)
Theorem pmt_packet_roundtrip (out : list Z) (prog : MuxerProgramConfig) (pcr : Z) (ds : list RawDescriptor)
    (xs : list PmtStream) (version : Z) (c : ContinuityCounters) :
  zlen out = 188 -> counters_ok c -> 0 <= version -> 0 <= MuxTypes.pmt_pid prog <= 0x1FFF ->
  pmt_ok prog pcr ds xs ->
  (pmt_size prog (map entry_of xs) <= 183 ->
   exists pkt c' section,
     write_pmt_packet out prog pcr (map entry_of xs) version c = Ok (pkt, c') /\
     carries_section pkt (MuxTypes.pmt_pid prog) c c' section /\
     parse_pmt section = Ok {| pmt_program_number := MuxTypes.program_number prog; pmt_version := version mod 32;
                               pmt_current_next := true; PsiParse.pcr_pid := pcr;
                               PsiParse.program_descriptors := ds; PsiParse.streams := xs |}) /\
  (183 < pmt_size prog (map entry_of xs) <= 65535 ->
   write_pmt_packet out prog pcr (map entry_of xs) version c
   = Err (PmtTooLarge (pmt_size prog (map entry_of xs)) 183)).
Proof.
  intros Hout Hc Hv Hpid Hok. split.
  - by apply pmt_packet_carried.
  - intros Hs. unfold write_pmt_packet. cbv zeta. rewrite section_length_ok by lia. rb.
    replace (3 + (pmt_size prog (map entry_of xs) - 3)) with (pmt_size prog (map entry_of xs)) by lia.
    rewrite (proj2 (Z.ltb_lt _ _)) by lia. by ifs.
Qed.

Lemma pmt_packet_roundtrip_witness :
  let prog := {| MuxTypes.program_number := 1; MuxTypes.pmt_pid := 0x1000; MuxTypes.streams := [];
                 MuxTypes.pcr_pid := None; MuxTypes.program_descriptors := []; stream_descriptors := [] |} in
  let xs := [{| stream_type := 0x1B; elementary_pid := 0x1011; descriptors := [] |};
             {| stream_type := 0x06; elementary_pid := 0x1031; descriptors := [{| tag := 5; data := KLVA |}] |}] in
  exists pkt c' section,
    write_pmt_packet (zrep 188 0) prog 0x1011 (map entry_of xs) 0 TsWriter.new = Ok (pkt, c') /\
    parse_pmt section = Ok {| pmt_program_number := 1; pmt_version := 0; pmt_current_next := true;
      PsiParse.pcr_pid := 0x1011; PsiParse.program_descriptors := []; PsiParse.streams := xs |}.
Proof.
  intros prog xs. destruct (proj1 (pmt_packet_roundtrip (zrep 188 0) prog 0x1011 [] xs 0 TsWriter.new
    ltac:(reflexivity) new_ok ltac:(lia) ltac:(cbn; lia)
    ltac:(split; cbn; [lia|lia|reflexivity|constructor|repeat constructor; cbn; unfold byte; lia]))
    ltac:(vm_compute; discriminate)) as (pkt & c' & section & Hw & _ & Hp).
  exists pkt, c', section. split; [exact Hw|exact Hp].
Defined.

End PsiWriterTheorems.
