(* ===== verification/Descriptors.v ===== *)
(** PMT descriptors ([mpegts/descriptors/mod.rs], [descriptors/parse.rs]) and
    the receiver's classification of PMT entries ([demux/pmt_classify.rs]):
    the builders of descriptor TLVs with their refusals, the parsers of the DVB
    subtitling and teletext descriptors, the searches over parsed descriptors
    and the cascade that turns a stream type and its descriptors into a kind. *)
From Stdlib Require Import ZArith Lia Bool.
From stdpp Require Import base list list_numbers.
From S2P Require Import Prelude Common PsiParse PsiWriter.

(** * Builders *)
Module Descriptors.

Inductive DescriptorError : Type :=
| EmptyEntries (tag : Z)
| TooLarge (tag len max : Z)
| InvalidComponent (ext content : Z)
| InvalidTag (tag : Z).

Definition registration (format_identifier additional : list Z) : res DescriptorError (list Z) :=
  if 251 <? zlen additional then Err (TooLarge 0x05 (zlen additional) 251)
  else
    let body_len := 4 + zlen additional in
    Ok ([0x05; as_u8 body_len] ++ format_identifier ++ additional).

Definition metadata_klva (service_id : Z) : list Z :=
  [0x26; 0x09; 0x01; 0x00; 0xFF; 0x4B; 0x4C; 0x56; 0x41; service_id; 0x0F].

Definition pack_22 (value : Z) : list Z :=
  let v := Z.land value 0x003FFFFF in
  [Z.lor 0xC0 (Z.land (as_u8 (Z.shiftr v 16)) 0x3F); as_u8 (Z.shiftr v 8); as_u8 v].

Definition metadata_std (input_leak_rate buffer_size output_leak_rate : Z) : list Z :=
  [0x27; 0x09] ++ pack_22 input_leak_rate ++ pack_22 buffer_size ++ pack_22 output_leak_rate.

Definition descriptor_with_tag_unchecked (tag : Z) (payload : list Z) : res DescriptorError (list Z) :=
  if 255 <? zlen payload then Err (TooLarge tag (zlen payload) 255)
  else Ok ([tag; as_u8 (zlen payload)] ++ payload).

Definition user_private_with_tag (tag : Z) (payload : list Z) : res DescriptorError (list Z) :=
  if tag <? 0x40 then Err (InvalidTag tag) else descriptor_with_tag_unchecked tag payload.

Definition user_private (payload : list Z) : res DescriptorError (list Z) := user_private_with_tag 0xFF payload.

Definition component (stream_content_ext stream_content component_type component_tag : Z)
    (iso_639_language text : list Z) : res DescriptorError (list Z) :=
  if (0x0F <? stream_content_ext) || (0x0F <? stream_content) ||
     ((0x1 <=? stream_content) && (stream_content <=? 0x8) && negb (stream_content_ext =? 0xF))
  then Err (InvalidComponent stream_content_ext stream_content)
  else if 249 <? zlen text then Err (TooLarge 0x50 (zlen text) 249)
  else
    let body_len := 6 + zlen text in
    Ok ([0x50; as_u8 body_len;
         Z.lor (as_u8 (Z.shiftl stream_content_ext 4)) (Z.land stream_content 0x0F);
         component_type; component_tag] ++ iso_639_language ++ text).

Definition stream_identifier (component_tag : Z) : list Z := [0x52; 0x01; component_tag].

Record SubtitlingDescriptorEntry : Type := {
  sub_language : list Z;
  sub_type : Z;
  composition_page_id : Z;
  ancillary_page_id : Z
}.

Record TeletextDescriptorEntry : Type := {
  ttx_language : list Z;
  ttx_type : Z;
  magazine_number : Z;
  page_number : Z
}.

Definition subtitling_entry_bytes (e : SubtitlingDescriptorEntry) : list Z :=
  sub_language e ++ [sub_type e] ++ be16 (composition_page_id e) ++ be16 (ancillary_page_id e).

Definition subtitling_descriptor_multi (entries : list SubtitlingDescriptorEntry) : res DescriptorError (list Z) :=
  match entries with
  | [] => Err (EmptyEntries 0x59)
  | _ =>
      let body_len := zlen entries * 8 in
      if 255 <? body_len then Err (TooLarge 0x59 body_len 255)
      else Ok ([0x59; as_u8 body_len] ++ concat (map subtitling_entry_bytes entries))
  end.

Definition teletext_entry_bytes (e : TeletextDescriptorEntry) : list Z :=
  ttx_language e ++
  [Z.lor (as_u8 (Z.shiftl (Z.land (ttx_type e) 0x1F) 3)) (Z.land (magazine_number e) 0x07); page_number e].

Definition teletext_descriptor_multi (entries : list TeletextDescriptorEntry) : res DescriptorError (list Z) :=
  match entries with
  | [] => Err (EmptyEntries 0x56)
  | _ =>
      let body_len := zlen entries * 5 in
      if 255 <? body_len then Err (TooLarge 0x56 body_len 255)
      else Ok ([0x56; as_u8 body_len] ++ concat (map teletext_entry_bytes entries))
  end.

(** [Result::expect]. *)
Definition expect {E F A} (r : res E A) : res F A := match r with Ok a => Ok a | Err _ | Panic => Panic end.

Definition subtitling_descriptor {E} (language : list Z) (subtitling_type composition ancillary : Z) : res E (list Z) :=
  expect (subtitling_descriptor_multi
    [{| sub_language := language; sub_type := subtitling_type; composition_page_id := composition;
        ancillary_page_id := ancillary |}]).

Definition teletext_descriptor {E} (language : list Z) (teletext_type magazine page : Z) : res E (list Z) :=
  expect (teletext_descriptor_multi
    [{| ttx_language := language; ttx_type := teletext_type; magazine_number := magazine; page_number := page |}]).

Definition VTTC : list Z := [0x56; 0x54; 0x54; 0x43].
Definition GA94 : list Z := [0x47; 0x41; 0x39; 0x34].
Definition AV01 : list Z := [0x41; 0x56; 0x30; 0x31].
Definition AC_3 : list Z := [0x41; 0x43; 0x2D; 0x33].

Definition format_identifier_vttc : list Z := [0x05; 0x04] ++ VTTC.
Definition format_identifier_ga94 : list Z := [0x05; 0x04] ++ GA94.
Definition format_identifier_av01 : list Z := [0x05; 0x04] ++ AV01.
Definition format_identifier_ac3 : list Z := [0x05; 0x04] ++ AC_3.

Definition ac3_audio_stream_descriptor {E} (sample_rate_code bsid bit_rate_code surround_mode bsmod num_channels : Z)
    (full_svc : bool) : res E (list Z) :=
  assert! sample_rate_code <? 8 in
  assert! bsid <? 32 in
  assert! bit_rate_code <? 64 in
  assert! surround_mode <? 4 in
  assert! bsmod <? 8 in
  assert! num_channels <? 16 in
  let byte0 := Z.lor (as_u8 (Z.shiftl (Z.land sample_rate_code 7) 5)) (Z.land bsid 31) in
  let byte1 := Z.lor (as_u8 (Z.shiftl (Z.land bit_rate_code 63) 2)) (Z.land surround_mode 3) in
  let byte2 := Z.lor (Z.lor (as_u8 (Z.shiftl (Z.land bsmod 7) 5)) (as_u8 (Z.shiftl (Z.land num_channels 15) 1)))
                     (b2z full_svc) in
  Ok [0x81; 0x03; byte0; byte1; byte2].

(** [language] is a [u8; 3]. *)
Definition iso_639_language (language : list Z) (audio_type : Z) : list Z := [0x0A; 0x04] ++ language ++ [audio_type].

End Descriptors.

(** * Parsers *)
Module DescriptorParse.
Import PsiParse Descriptors.

Inductive DescriptorParseError : Type := DescriptorTruncated | EmptyInput.

(** [payload.chunks_exact(8)] with the body of the loop. *)
Fixpoint subtitling_chunks (payload : list Z) : list SubtitlingDescriptorEntry :=
  match payload with
  | c0 :: c1 :: c2 :: c3 :: c4 :: c5 :: c6 :: c7 :: rest =>
      {| sub_language := [c0; c1; c2]; sub_type := c3; composition_page_id := from_be16 c4 c5;
         ancillary_page_id := from_be16 c6 c7 |} :: subtitling_chunks rest
  | _ => []
  end.

Definition parse_subtitling_descriptor (payload : list Z) : res DescriptorParseError (list SubtitlingDescriptorEntry) :=
  match payload with
  | [] => Err EmptyInput
  | _ => if negb (zlen payload mod 8 =? 0) then Err DescriptorTruncated else Ok (subtitling_chunks payload)
  end.

(** [payload.chunks_exact(5)] with the body of the loop. *)
Fixpoint teletext_chunks (payload : list Z) : list TeletextDescriptorEntry :=
  match payload with
  | c0 :: c1 :: c2 :: packed :: c4 :: rest =>
      {| ttx_language := [c0; c1; c2]; ttx_type := Z.land (Z.shiftr packed 3) 0x1F;
         magazine_number := Z.land packed 0x07; page_number := c4 |} :: teletext_chunks rest
  | _ => []
  end.

Definition parse_teletext_descriptor (payload : list Z) : res DescriptorParseError (list TeletextDescriptorEntry) :=
  match payload with
  | [] => Err EmptyInput
  | _ => if negb (zlen payload mod 5 =? 0) then Err DescriptorTruncated else Ok (teletext_chunks payload)
  end.

Definition find_format_identifier (descriptors : list RawDescriptor) (target : list Z) : bool :=
  existsb (fun d => (tag d =? 0x05) && (4 <=? zlen (data d)) && bool_decide (take 4 (data d) = target)) descriptors.

Definition find_descriptor_tag (descriptors : list RawDescriptor) (t : Z) : bool :=
  existsb (fun d => tag d =? t) descriptors.

End DescriptorParse.

(** * Classification *)
Module PmtClassify.
Import PsiParse MuxTypes Descriptors DescriptorParse.

Inductive DemuxSubtitleCodec : Type := DemuxDvbSubtitling | DemuxDvbTeletext | DemuxCea708Standalone | DemuxWebVttInTs.

Inductive StreamKind : Type :=
| KVideo (c : VideoCodec)
| KAudio (c : AudioClass)
| KSubtitle (c : DemuxSubtitleCodec)
| KlvSync (declared_link : option Z)
| KlvAsync
| Unknown (stream_type : Z).

Definition classify_0x06 (descriptors : list RawDescriptor) : StreamKind :=
  if find_format_identifier descriptors AV01 then KVideo Av1
  else if find_descriptor_tag descriptors 0x59 then KSubtitle DemuxDvbSubtitling
  else if find_descriptor_tag descriptors 0x56 || find_descriptor_tag descriptors 0x46 then KSubtitle DemuxDvbTeletext
  else if find_format_identifier descriptors VTTC then KSubtitle DemuxWebVttInTs
  else if find_format_identifier descriptors GA94 then KSubtitle DemuxCea708Standalone
  else if has_klva_registration descriptors then KlvAsync
  else Unknown 0x06.

Definition names_non_klv_metadata (descriptors : list RawDescriptor) : bool :=
  match find_tag 0x26 descriptors with
  | None => false
  | Some d =>
      match metadata_descriptor_fields (data d) with
      | None => false
      | Some f =>
          if (format f =? 0x10) || (format f =? 0x11) then true
          else if format f =? 0xFF then negb (bool_decide (format_identifier f = Some KLVA))
          else false
      end
  end.

Definition classify_pmt_stream {E} (stream_type : Z) (descriptors : list RawDescriptor) : res E StreamKind :=
  if stream_type =? 0x1B then Ok (KVideo VideoH264)
  else if stream_type =? 0x24 then Ok (KVideo VideoH265)
  else if stream_type =? 0x33 then Ok (KVideo VideoH266)
  else if stream_type =? 0x06 then Ok (classify_0x06 descriptors)
  else if (stream_type =? 0x15) && names_non_klv_metadata descriptors then Ok (Unknown 0x15)
  else if stream_type =? 0x15 then
    let! link := extract_metadata_link descriptors in
    Ok (KlvSync link)
  else match classify_audio_stream_type stream_type with
       | Some codec => Ok (KAudio codec)
       | None => Ok (Unknown stream_type)
       end.

Definition is_video_stream_type (stream_type : Z) : bool :=
  (stream_type =? 0x01) || (stream_type =? 0x02) || (stream_type =? 0x10) || (stream_type =? 0x1B) ||
  (stream_type =? 0x24) || (stream_type =? 0x33).

Definition extract_metadata_link_for_pid {E} (pmt : Pmt) (pid : Z) : res E (option Z) :=
  match List.find (fun s => elementary_pid s =? pid) (PsiParse.streams pmt) with
  | None => Ok None
  | Some s => extract_metadata_link (descriptors s)
  end.

Definition stream_type_from_kind (k : StreamKind) : Z :=
  match k with
  | KVideo VideoH264 => 0x1B
  | KVideo VideoH265 => 0x24
  | KVideo VideoH266 => 0x33
  | KVideo Av1 => 0x06
  | KAudio ClassMp2 => 0x03
  | KAudio ClassAac => 0x0F
  | KAudio ClassAacLatm => 0x11
  | KAudio ClassAc3 => 0x81
  | KSubtitle _ => 0x06
  | KlvSync _ => 0x15
  | KlvAsync => 0x06
  | Unknown t => t
  end.

Definition classify_0x06_with_ambiguity (descriptors : list RawDescriptor) : StreamKind * list Z :=
  let markers :=
    (if find_descriptor_tag descriptors 0x59 then [0x59] else []) ++
    (if find_descriptor_tag descriptors 0x56 then [0x56]
     else if find_descriptor_tag descriptors 0x46 then [0x46] else []) ++
    (if find_format_identifier descriptors VTTC then [0xF0] else []) ++
    (if find_format_identifier descriptors GA94 then [0xF1] else []) ++
    (if find_format_identifier descriptors KLVA then [0xF2] else []) in
  (classify_0x06 descriptors, if zlen markers <=? 1 then [] else markers).

Definition has_recognized_subtitle_descriptor (descriptors : list RawDescriptor) : bool :=
  find_descriptor_tag descriptors 0x59 || find_descriptor_tag descriptors 0x56 ||
  find_descriptor_tag descriptors 0x46 || find_format_identifier descriptors VTTC ||
  find_format_identifier descriptors GA94.

Definition is_malformed_av1_registration (descriptors : list RawDescriptor) : bool :=
  existsb (fun d => (tag d =? 0x05) && (zlen (data d) <? 4) && starts_with [0x41; 0x56] (data d)) descriptors.

End PmtClassify.

(** * Theorems *)
Module DescriptorTheorems.
Import PsiParse PsiTheorems PmtRoundtrip MuxTypes Descriptors DescriptorParse PmtClassify.

Lemma tlv_walk t (body : list Z) : zlen body < 256 ->
  walk_descriptors ([t; as_u8 (zlen body)] ++ body) = Ok [{| tag := t; data := body |}].
Proof.
  intros Hl. unfold as_u8. rewrite Z.mod_small by zlia.
  replace ([t; zlen body] ++ body) with (encode_descriptors [{| tag := t; data := body |}]);
    [apply walk_encoded|]. unfold encode_descriptors. cbn [map concat]. by rewrite app_nil_r.
Qed.

(** The machine types of the entries' fields. *)
Record sub_entry_ok (e : SubtitlingDescriptorEntry) : Prop := {
  sub_lang3 : zlen (sub_language e) = 3;
  sub_comp : 0 <= composition_page_id e < 65536;
  sub_anc : 0 <= ancillary_page_id e < 65536;
}.

Record ttx_entry_ok (e : TeletextDescriptorEntry) : Prop := {
  ttx_lang3 : zlen (ttx_language e) = 3;
  ttx_type5 : 0 <= ttx_type e < 32;
  ttx_mag3 : 0 <= magazine_number e < 8;
}.

Lemma three_bytes {A} (l : list A) : zlen l = 3 -> exists a b c, l = [a; b; c].
Proof. destruct l as [|a [|b [|c [|? ?]]]]; unfold zlen; cbn; try lia. eauto. Qed.

Lemma teletext_pack t m : 0 <= t < 32 -> 0 <= m < 8 ->
  Z.land (Z.shiftr (Z.lor (as_u8 (Z.shiftl (Z.land t 0x1F) 3)) (Z.land m 0x07)) 3) 0x1F = t /\
  Z.land (Z.lor (as_u8 (Z.shiftl (Z.land t 0x1F) 3)) (Z.land m 0x07)) 0x07 = m.
Proof.
  intros Ht Hm. refine (below_dec2 32 8 (fun t m =>
    Z.land (Z.shiftr (Z.lor (as_u8 (Z.shiftl (Z.land t 0x1F) 3)) (Z.land m 0x07)) 3) 0x1F = t /\
    Z.land (Z.lor (as_u8 (Z.shiftl (Z.land t 0x1F) 3)) (Z.land m 0x07)) 0x07 = m) _ t m Ht Hm).
  vm_compute. reflexivity.
Qed.

Lemma subtitling_chunks_entries es : Forall sub_entry_ok es ->
  subtitling_chunks (concat (map subtitling_entry_bytes es)) = es /\
  zlen (concat (map subtitling_entry_bytes es)) = zlen es * 8.
Proof.
  induction 1 as [|e es [Hl Hc Ha] _ [IH1 IH2]]; [done|].
  destruct e as [lang t c a]; cbn in *. destruct (three_bytes _ Hl) as (x & y & z & ->).
  cbn [map concat]. set (rest := concat (map subtitling_entry_bytes es)) in *.
  unfold subtitling_entry_bytes, be16. cbn [sub_language sub_type composition_page_id ancillary_page_id app].
  cbn [subtitling_chunks]. rewrite IH1. pose proof (from_be16_be16 c Hc) as Ec. pose proof (from_be16_be16 a Ha) as Ea.
  split; [by rewrite Ec, Ea|]. rewrite !zlen_cons, IH2. lia.
Qed.

Lemma teletext_chunks_entries es : Forall ttx_entry_ok es ->
  teletext_chunks (concat (map teletext_entry_bytes es)) = es /\
  zlen (concat (map teletext_entry_bytes es)) = zlen es * 5.
Proof.
  induction 1 as [|e es [Hl Ht Hm] _ [IH1 IH2]]; [done|].
  destruct e as [lang t m p]; cbn in *. destruct (three_bytes _ Hl) as (x & y & z & ->).
  destruct (teletext_pack t m Ht Hm) as [Hpt Hpm].
  cbn [map concat]. set (rest := concat (map teletext_entry_bytes es)) in *.
  unfold teletext_entry_bytes. cbn [ttx_language ttx_type magazine_number page_number app].
  cbn [teletext_chunks]. rewrite IH1, Hpt, Hpm. split; [done|]. rewrite !zlen_cons, IH2. lia.
Qed.

(** What an encoded DVB descriptor gives back to a receiver. *)
Definition decodes {A} (d : list Z) (t : Z) (parse : list Z -> res DescriptorParseError (list A)) (es : list A) : Prop :=
  exists body, walk_descriptors d = Ok [{| tag := t; data := body |}] /\ parse body = Ok es.

(** The multi-entry builders of the DVB subtitling and teletext descriptors
    accept exactly the entry counts the 8-bit length can hold (1 to 31, 1 to
    51), refuse the others with the documented error, and what they build is
    one well-formed descriptor that the parser turns back into the same entries. *)
Theorem dvb_descriptors_roundtrip (subs : list SubtitlingDescriptorEntry) (ttxs : list TeletextDescriptorEntry) :
  Forall sub_entry_ok subs -> Forall ttx_entry_ok ttxs ->
  (match subtitling_descriptor_multi subs with
   | Ok d => 1 <= zlen subs <= 31 /\ decodes d 0x59 parse_subtitling_descriptor subs
   | Err e => subs = [] /\ e = EmptyEntries 0x59 \/ 31 < zlen subs /\ e = TooLarge 0x59 (zlen subs * 8) 255
   | Panic => False end) /\
  (match teletext_descriptor_multi ttxs with
   | Ok d => 1 <= zlen ttxs <= 51 /\ decodes d 0x56 parse_teletext_descriptor ttxs
   | Err e => ttxs = [] /\ e = EmptyEntries 0x56 \/ 51 < zlen ttxs /\ e = TooLarge 0x56 (zlen ttxs * 5) 255
   | Panic => False end).
Proof.
  intros Hs Ht. split.
  - destruct (subtitling_chunks_entries subs Hs) as [Hc Hl]. unfold subtitling_descriptor_multi.
    destruct subs as [|s subs']; [by left|]. set (subs := s :: subs') in *.
    assert (1 <= zlen subs) by (unfold subs; zlia).
    ifs; b2p; [right; split; [lia|done]|]. split; [lia|]. exists (concat (map subtitling_entry_bytes subs)).
    rewrite <- Hl. split; [apply tlv_walk; lia|]. unfold parse_subtitling_descriptor.
    destruct (concat (map subtitling_entry_bytes subs)) eqn:Hz; [rewrite zlen_nil in Hl; lia|].
    rewrite Hl, Z.mod_mul by lia. cbn [negb Z.eqb]. by rewrite Hc.
  - destruct (teletext_chunks_entries ttxs Ht) as [Hc Hl]. unfold teletext_descriptor_multi.
    destruct ttxs as [|s ttxs']; [by left|]. set (ttxs := s :: ttxs') in *.
    assert (1 <= zlen ttxs) by (unfold ttxs; zlia).
    ifs; b2p; [right; split; [lia|done]|]. split; [lia|]. exists (concat (map teletext_entry_bytes ttxs)).
    rewrite <- Hl. split; [apply tlv_walk; lia|]. unfold parse_teletext_descriptor.
    destruct (concat (map teletext_entry_bytes ttxs)) eqn:Hz; [rewrite zlen_nil in Hl; lia|].
    rewrite Hl, Z.mod_mul by lia. cbn [negb Z.eqb]. by rewrite Hc.
Qed.

Lemma dvb_descriptors_roundtrip_witness :
  decodes [0x59; 8; 0x65; 0x6E; 0x67; 0x10; 0; 1; 0; 2] 0x59 parse_subtitling_descriptor
    [{| sub_language := [0x65; 0x6E; 0x67]; sub_type := 0x10; composition_page_id := 1; ancillary_page_id := 2 |}].
Proof.
  refine (proj2 (proj1 (dvb_descriptors_roundtrip
    [{| sub_language := [0x65; 0x6E; 0x67]; sub_type := 0x10; composition_page_id := 1; ancillary_page_id := 2 |}]
    [] _ _))); repeat constructor; cbn; lia.
Defined.

Lemma component_content ext content : 0 <= ext <= 15 -> 0 <= content <= 15 ->
  Z.lor (as_u8 (Z.shiftl ext 4)) (Z.land content 15) = ext * 16 + content.
Proof.
  intros He Hc. rewrite land_15, shiftl_mul by lia. unfold as_u8. rewrite !Z.mod_small by lia.
  apply (lor_add 4); lia.
Qed.

(** The registration, user-private and component builders return one
    well-formed descriptor holding exactly the caller's fields, or the error
    that names the limit that was broken; they never truncate. *)
Theorem caller_sized_builders_exact (fid additional payload lang text : list Z) (t ext content ctype ctag : Z) :
  zlen fid = 4 -> zlen lang = 3 -> 0 <= ext < 256 -> 0 <= content < 256 ->
  (match registration fid additional with
   | Ok d => zlen additional <= 251 /\ walk_descriptors d = Ok [{| tag := 0x05; data := fid ++ additional |}]
   | Err e => 251 < zlen additional /\ e = TooLarge 0x05 (zlen additional) 251
   | Panic => False end) /\
  (match user_private_with_tag t payload with
   | Ok d => 0x40 <= t /\ zlen payload <= 255 /\ walk_descriptors d = Ok [{| tag := t; data := payload |}]
   | Err e => t < 0x40 /\ e = InvalidTag t \/ 0x40 <= t /\ 255 < zlen payload /\ e = TooLarge t (zlen payload) 255
   | Panic => False end) /\
  (match component ext content ctype ctag lang text with
   | Ok d => ext <= 15 /\ content <= 15 /\ (1 <= content <= 8 -> ext = 15) /\ zlen text <= 249 /\
             walk_descriptors d = Ok [{| tag := 0x50; data := [ext * 16 + content; ctype; ctag] ++ lang ++ text |}]
   | Err e => e = InvalidComponent ext content \/ 249 < zlen text /\ e = TooLarge 0x50 (zlen text) 249
   | Panic => False end).
Proof.
  intros Hf Hl He Hc. split_and!.
  - unfold registration. ifs; b2p; [done|]. split; [lia|].
    replace (4 + zlen additional) with (zlen (fid ++ additional)) by zlia. apply tlv_walk. zlia.
  - unfold user_private_with_tag, descriptor_with_tag_unchecked. ifs; b2p; [by left|]. ifs; b2p; [by right|].
    split_and!; [lia..|]. apply tlv_walk. lia.
  - unfold component. ifs; [by left|]. ifs; b2p; [by right|].
    assert (Hx : Z.lor (as_u8 (Z.shiftl ext 4)) (Z.land content 15) = ext * 16 + content).
    { apply component_content; lia. }
    rewrite Hx. split_and!; try lia.
    set (body := [ext * 16 + content; ctype; ctag] ++ lang ++ text).
    assert (zlen body = 6 + zlen text) by (unfold body; zlia).
    replace (6 + zlen text) with (zlen body) by lia. apply (tlv_walk 0x50 body). lia.
Qed.

Lemma caller_sized_builders_exact_witness :
  registration [0x48; 0x44; 0x4D; 0x56] [0xFF] = Ok [0x05; 5; 0x48; 0x44; 0x4D; 0x56; 0xFF] /\
  walk_descriptors [0x05; 5; 0x48; 0x44; 0x4D; 0x56; 0xFF] = Ok [{| tag := 0x05; data := [0x48; 0x44; 0x4D; 0x56; 0xFF] |}].
Proof.
  split; [reflexivity|].
  refine (proj2 (proj1 (caller_sized_builders_exact [0x48; 0x44; 0x4D; 0x56] [0xFF] [] [0; 0; 0] [] 0 0 0 0 0 _ _ _ _)));
    first [reflexivity|lia].
Defined.

Lemma lenient_link_ok d : exists l, forall E, lenient_link (E:=E) d = Ok l.
Proof.
  unfold lenient_link. ifs; b2p; [|by eexists]. destruct (get_lt d (zlen d - 2)) as [a Ha]; [lia|].
  destruct (get_lt d (zlen d - 1)) as [b Hb]; [lia|]. eexists. intros E. unfold idx. by rewrite Ha, Hb.
Qed.

Lemma extract_link_ok ds : exists l, forall E, extract_metadata_link (E:=E) ds = Ok l.
Proof.
  unfold extract_metadata_link. destruct (find_tag 0x26 ds) as [d|]; [|by eexists].
  destruct (metadata_descriptor_fields (data d)) as [f|]; [|apply lenient_link_ok]. ifs; [|apply lenient_link_ok].
  destruct (get_range (data d) _ _) as [p|] eqn:Hp; [|by eexists].
  assert (zlen p = 2).
  { unfold get_range in Hp. revert Hp. ifs; [|done]. intros [= <-]. b2p. rewrite zlen_window by lia. lia. }
  destruct (get_lt p 0) as [x Hx]; [lia|]. destruct (get_lt p 1) as [y Hy]; [lia|]. eexists. intros E.
  unfold idx. by rewrite Hx, Hy.
Qed.

Lemma classify_total t ds : exists k, forall E, classify_pmt_stream (E:=E) t ds = Ok k.
Proof.
  unfold classify_pmt_stream. repeat (ifs; [by eexists|]).
  ifs; [|destruct (classify_audio_stream_type t); by eexists].
  destruct (extract_link_ok ds) as (l & Hl). exists (KlvSync l). intros E. by rewrite Hl.
Qed.

(** Classification of a PMT entry always gives a kind, and the kind
    remembers the stream type it came from, whatever the descriptors say (the
    MPEG-2 audio type 0x04 is reported as 0x03). Only stream types 0x06 and
    0x15 look at the descriptors at all. *)
Theorem classification_keeps_stream_type (t : Z) (ds : list RawDescriptor) :
  exists k, classify_pmt_stream (E:=Empty_set) t ds = Ok k /\
            stream_type_from_kind k = (if t =? 0x04 then 0x03 else t) /\
            (t <> 0x06 -> t <> 0x15 -> classify_pmt_stream (E:=Empty_set) t [] = Ok k).
Proof.
  unfold classify_pmt_stream. destruct (t =? 0x1B) eqn:?; b2p; [subst; by eexists|].
  destruct (t =? 0x24) eqn:?; b2p; [subst; by eexists|]. destruct (t =? 0x33) eqn:?; b2p; [subst; by eexists|].
  destruct (t =? 0x06) eqn:?; b2p.
  { subst. eexists. split_and!; [done| |done]. unfold classify_0x06. by repeat case_match. }
  destruct (t =? 0x15) eqn:?; b2p.
  { subst. rb. destruct (names_non_klv_metadata ds); [by eexists|].
    destruct (extract_link_ok ds) as (l & Hl). rewrite Hl. rb. by eexists. }
  rb. unfold classify_audio_stream_type.
  destruct (t =? 0x03) eqn:?; b2p; [subst; by eexists|]. destruct (t =? 0x04) eqn:?; b2p; [subst; by eexists|]. rb.
  destruct (t =? 0x0F) eqn:?; b2p; [subst; by eexists|]. destruct (t =? 0x11) eqn:?; b2p; [subst; by eexists|].
  destruct (t =? 0x81) eqn:?; b2p; [subst; by eexists|]. by eexists.
Qed.

End DescriptorTheorems.
