(* ===== verification/AnnexB.v ===== *)
(** The elementary-stream scanners the muxer and demuxer share: Annex-B start
    codes and NAL units ([codec/annexb.rs]), the AV1 LEB128 reader
    ([codec/av1/decode/leb128.rs]), NAL and OBU counting ([codec/util.rs]), the
    muxer's Annex-B validator and its AV1 binding wrapper ([mpegts/mux/state.rs])
    and the receiver's unwrapper ([mpegts/demux/payload.rs]). *)
From Stdlib Require Import ZArith Lia Bool.
From stdpp Require Import base list list_numbers.
From S2P Require Import Prelude PsiWriter.
Import MuxTypes.

Module AnnexB.

Record StartCode : Type := { prefix_start : Z; data_start : Z }.

#[global] Instance StartCode_eq_dec : EqDecision StartCode.
Proof. solve_decision. Defined.

(** The walk of [StartCodes::next] from [pos]: the next code and where the walk
    resumes. The fuel bounds the positions left to examine. *)
Fixpoint next_code {E} (fuel : nat) (buf : list Z) (pos : Z) : res E (option StartCode) :=
  match fuel with
  | O => Panic
  | S fuel =>
      if pos + 3 <=? zlen buf then
        let i := pos in
        let! b0 := idx buf i in
        let! b1 := (if b0 =? 0 then idx buf (i + 1) else Ok 1) in
        if (b0 =? 0) && (b1 =? 0) then
          let! b2 := idx buf (i + 2) in
          if b2 =? 1 then Ok (Some {| prefix_start := i; data_start := i + 3 |})
          else
            let! long := (if (i + 4 <=? zlen buf) && (b2 =? 0)
                          then let! b3 := idx buf (i + 3) in Ok (b3 =? 1) else Ok false) in
            if (long : bool) then Ok (Some {| prefix_start := i; data_start := i + 4 |})
            else next_code fuel buf (i + 1)
        else next_code fuel buf (i + 1)
      else Ok None
  end.

(** The iterator run to its end: the walk resumes at the last [data_start]. *)
Fixpoint collect_codes {E} (fuel : nat) (buf : list Z) (pos : Z) : res E (list StartCode) :=
  match fuel with
  | O => Panic
  | S fuel =>
      let! c := next_code (S (length buf)) buf pos in
      match c with
      | None => Ok []
      | Some code => let! rest := collect_codes fuel buf (data_start code) in Ok (code :: rest)
      end
  end.

Definition start_codes {E} (buf : list Z) : res E (list StartCode) := collect_codes (S (length buf)) buf 0.

(** [Nals::next] over the collected codes: a NAL runs from one code's
    [data_start] to the next code's [prefix_start], the last to the end. *)
Fixpoint nals_of {E} (buf : list Z) (codes : list StartCode) : res E (list (list Z)) :=
  match codes with
  | [] => Ok []
  | current :: rest =>
      let end_ := match rest with next :: _ => prefix_start next | [] => zlen buf end in
      let! nal := slice buf (data_start current) end_ in
      let! tail := nals_of buf rest in
      Ok (nal :: tail)
  end.

Definition nals {E} (buf : list Z) : res E (list (list Z)) :=
  let! codes := start_codes buf in nals_of buf codes.

(** [MuxError::InvalidNal], the validator's only error. *)
Inductive InvalidNal : Type := invalid_nal.

(** The loop over the codes after the first: the last NAL's body start. *)
Fixpoint check_codes (nal_body_start : Z) (codes : list StartCode) : res InvalidNal Z :=
  match codes with
  | [] => Ok nal_body_start
  | code :: rest =>
      if prefix_start code <=? nal_body_start then Err invalid_nal else check_codes (data_start code) rest
  end.

Definition validate_annex_b (nal : list Z) : res InvalidNal unit :=
  let! codes := start_codes nal in
  match codes with
  | first :: rest =>
      if prefix_start first =? 0 then
        let! nal_body_start := check_codes (data_start first) rest in
        let! trailing :=
          (if 2 <=? zlen nal then
             let! a := idx nal (zlen nal - 1) in
             let! b := idx nal (zlen nal - 2) in
             Ok ((a =? 0) && (b =? 0))
           else Ok false) in
        if trailing && ((zlen nal <=? nal_body_start + 2) && (nal_body_start <? zlen nal)) then Err invalid_nal
        else if zlen nal <=? nal_body_start then Err invalid_nal
        else Ok tt
      else Err invalid_nal
  | [] => Err invalid_nal
  end.

Definition count_annex_b_nals {E} (buf : list Z) : res E Z :=
  match buf with
  | [] => Ok 0
  | _ =>
      let! codes := start_codes buf in
      let count := zlen codes in
      Ok (if count =? 0 then 1 else count)
  end.

End AnnexB.

(** * AV1 open bitstream units *)
Module Av1.

(** [CodecParseError::InvalidLeb128] *)
Inductive Leb128Error : Type := InvalidLeb128 (offset_bytes : Z).

Fixpoint leb128_loop (n : nat) (buf : list Z) (offset i value : Z) : res Leb128Error (Z * Z) :=
  match n with
  | O => Err (InvalidLeb128 (as_u32 offset))
  | S n =>
      let pos := offset + i in
      if zlen buf <=? pos then Err (InvalidLeb128 (as_u32 offset))
      else
        let! byte := idx buf pos in
        let value := Z.lor value (as_u64 (Z.shiftl (Z.land byte 0x7F) (i * 7))) in
        if Z.land byte 0x80 =? 0 then
          if u32_max <? value then Err (InvalidLeb128 (as_u32 offset)) else Ok (value, i + 1)
        else leb128_loop n buf offset (i + 1) value
  end.

Definition read_leb128 (buf : list Z) (offset : Z) : res Leb128Error (Z * Z) := leb128_loop 8 buf offset 0 0.

Definition AV1_TS_OBU_START_CODE : list Z := [0x00; 0x00; 0x01].

(** The escape loop; [zero_run] saturates at 255 in the source's [u8]. *)
Fixpoint escape_loop (zero_run : Z) (unit_bytes out : list Z) : list Z :=
  match unit_bytes with
  | [] => out
  | b :: rest =>
      let '(zero_run, out) :=
        if (2 <=? zero_run) && (b <=? 0x03) then (0, out ++ [0x03]) else (zero_run, out) in
      let out := out ++ [b] in
      escape_loop (if b =? 0x00 then Z.min 255 (zero_run + 1) else 0) rest out
  end.

Definition escape_obu_unit_body (unit_bytes out : list Z) : list Z := escape_loop 0 unit_bytes out.

(** One step of the OBU walk: the end of the OBU that starts at [obu_start], or
    [None] with the position where the walk stopped. *)
Definition obu_end {E} (obu_bytes : list Z) (obu_start : Z) : res E (Z + Z) :=
  let i := obu_start in
  let! header := idx obu_bytes i in
  let extension_flag := nz (Z.land (Z.shiftr header 2) 0x01) in
  let has_size_field := nz (Z.land (Z.shiftr header 1) 0x01) in
  let i := i + 1 in
  if extension_flag && (zlen obu_bytes <=? i) then Ok (inr i)
  else
    let i := if extension_flag then i + 1 else i in
    if negb has_size_field then Ok (inr i)
    else
      match read_leb128 obu_bytes i with
      | Panic => Panic
      | Err _ => Ok (inr i)
      | Ok (obu_size, consumed) =>
          let i := i + consumed in
          if (i + obu_size <=? u64_max) && (i + obu_size <=? zlen obu_bytes) then Ok (inl (i + obu_size))
          else Ok (inr i)
      end.

Fixpoint wrap_loop {E} (fuel : nat) (obu_bytes : list Z) (i : Z) (out : list Z) : res E (list Z * bool) :=
  match fuel with
  | O => Panic
  | S fuel =>
      if i <? zlen obu_bytes then
        let! e := obu_end obu_bytes i in
        match e with
        | inl body_end =>
            let! obu_slice := slice obu_bytes i body_end in
            let out := out ++ AV1_TS_OBU_START_CODE in
            wrap_loop fuel obu_bytes body_end (escape_obu_unit_body obu_slice out)
        | inr stop => Ok (out, stop =? zlen obu_bytes)
        end
      else Ok (out, i =? zlen obu_bytes)
  end.

Definition wrap_av1_obus_binding {E} (obu_bytes out : list Z) : res E (list Z * bool) :=
  wrap_loop (S (length obu_bytes)) obu_bytes 0 out.

Record Av1BindingUnits : Type := {
  binding_bytes : list Z;
  units : list (Z * Z);          (* half-open ranges of [binding_bytes] *)
  escape_violations : Z;
}.

(** The body walk of [unwrap_av1_binding_units], one iteration per byte of the
    payload behind the first start code. *)
Fixpoint unwrap_loop {E} (rest : list Z) (zero_run unit_start violations : Z) (out : list Z)
    (units : list (Z * Z)) : res E Av1BindingUnits :=
  match rest with
  | [] => Ok {| binding_bytes := out; units := units ++ [(unit_start, zlen out)];
                escape_violations := violations |}
  | b :: rest' =>
      if (2 <=? zero_run) && (b =? 0x01) then
        let! new_len := usub (zlen out) 2 in
        unwrap_loop rest' 0 new_len violations (ztake new_len out) (units ++ [(unit_start, new_len)])
      else
        let drop := (2 <=? zero_run) && (b =? 0x03) &&
                    match rest' with next :: _ => next <=? 0x03 | [] => false end in
        if drop then unwrap_loop rest' 0 unit_start violations out units
        else
          let bad := if (2 <=? zero_run) && (b =? 0x03)
                     then match rest' with _ :: _ => true | [] => false end
                     else (2 <=? zero_run) && (b =? 0x02) in
          unwrap_loop rest' (if b =? 0x00 then Z.min 255 (zero_run + 1) else 0) unit_start
            (violations + b2z bad) (out ++ [b]) units
  end.

Definition unwrap_av1_binding_units {E} (payload : list Z) : res E (option Av1BindingUnits) :=
  if bool_decide (get_range payload 0 3 = Some [0x00; 0x00; 0x01]) then
    let! u := unwrap_loop (zdrop 3 payload) 0 0 0 [] [] in Ok (Some u)
  else Ok None.

Fixpoint count_obus_loop {E} (fuel : nat) (buf : list Z) (i count : Z) : res E Z :=
  match fuel with
  | O => Panic
  | S fuel =>
      if i <? zlen buf then
        let! header := idx buf i in
        let extension_flag := nz (Z.land header 4) in
        let has_size_field := nz (Z.land header 2) in
        let i := i + 1 in
        if extension_flag && (zlen buf <=? i) then Ok count
        else
          let i := if extension_flag then i + 1 else i in
          if has_size_field then
            match read_leb128 buf i with
            | Panic => Panic
            | Err _ => Ok count
            | Ok (size, consumed) =>
                let i := i + consumed in
                if u64_max <? i + size then Ok (count + 1)
                else if zlen buf <? i + size then Ok (count + 1)
                else count_obus_loop fuel buf (i + size) (count + 1)
            end
          else Ok (count + 1)
      else Ok count
  end.

Definition count_av1_obus {E} (buf : list Z) : res E Z := count_obus_loop (S (length buf)) buf 0 0.

Definition count_nal_units {E} (buf : list Z) (codec : VideoCodec) : res E Z :=
  match codec with
  | VideoH264 | VideoH265 | VideoH266 => AnnexB.count_annex_b_nals buf
  | MuxTypes.Av1 => count_av1_obus buf
  end.

End Av1.

(** * Start codes, by offsets

    [code_end buf d]: the three bytes before offset [d] are [00 00 01]. The scan
    reports exactly these offsets, with the optional fourth zero. *)
Module AnnexBScan.
Import AnnexB.

Lemma filter_none (P : Z -> Prop) `{forall x, Decision (P x)} l : (forall x, x ∈ l -> ~ P x) -> filter P l = [].
Proof.
  induction l as [|x l IH]; intros Hl; [done|]. rewrite filter_cons_False; [|apply Hl; constructor].
  apply IH. intros y Hy. apply Hl. by constructor.
Qed.

Definition code_end (buf : list Z) (d : Z) : Prop :=
  get buf (d - 3) = Some 0 /\ get buf (d - 2) = Some 0 /\ get buf (d - 1) = Some 1.
#[global] Instance code_end_dec buf d : Decision (code_end buf d).
Proof. unfold code_end. apply _. Defined.

Definition code_of (buf : list Z) (d : Z) : StartCode :=
  {| prefix_start := if decide (get buf (d - 4) = Some 0) then d - 4 else d - 3; data_start := d |}.

(** The offsets after [pos] where a code ends, in order. *)
Definition code_ends (buf : list Z) (pos : Z) : list Z :=
  filter (code_end buf) (seqZ (pos + 1) (zlen buf - pos)).

(** Two codes never overlap, so a walk may resume right behind a code. *)
Definition clean (buf : list Z) (pos : Z) : Prop := pos = 0 \/ code_end buf pos.

Lemma code_end_range buf d : code_end buf d -> 3 <= d <= zlen buf.
Proof. intros (H1%get_Some & _ & H3%get_Some). lia. Qed.

Lemma code_end_gap buf d e : code_end buf d -> code_end buf e -> d < e -> d + 3 <= e.
Proof.
  intros (H1 & H2 & H3) (K1 & K2 & K3) Hlt.
  destruct (decide (e = d + 1)) as [->|]; [replace (d + 1 - 2) with (d - 1) in K2 by lia; congruence|].
  destruct (decide (e = d + 2)) as [->|]; [replace (d + 2 - 3) with (d - 1) in K1 by lia; congruence|lia].
Qed.

Lemma clean_gap buf pos d : clean buf pos -> code_end buf d -> pos < d -> pos + 3 <= d.
Proof.
  intros [->|Hp] Hd Hlt; [pose proof (code_end_range _ _ Hd); lia|by apply (code_end_gap buf)].
Qed.

(** What one search from [pos] finds: the first code ending after [pos]. *)
Definition found (buf : list Z) (pos : Z) (r : option StartCode) : Prop :=
  match r with
  | None => forall d, pos + 3 <= d -> ~ code_end buf d
  | Some c =>
      let d := data_start c in
      code_end buf d /\ pos + 3 <= d /\ (forall e, pos + 3 <= e < d -> ~ code_end buf e) /\
      prefix_start c = if decide (get buf (d - 4) = Some 0 /\ pos <= d - 4) then d - 4 else d - 3
  end.

Lemma found_step buf pos r :
  0 <= pos -> ~ code_end buf (pos + 3) -> ~ (code_end buf (pos + 4) /\ get buf pos = Some 0) ->
  found buf (pos + 1) r -> found buf pos r.
Proof.
  intros Hpos H3 H4. destruct r as [c|]; cbn [found].
  - intros (Hd & Hle & Hno & Hp). split_and!; [done|lia| |].
    + intros e He. destruct (decide (e = pos + 3)) as [->|]; [done|]. apply Hno. lia.
    + rewrite Hp. destruct (decide (data_start c = pos + 4)) as [Hc|].
      * rewrite Hc in *. replace (pos + 4 - 4) with pos in * by lia.
        rewrite !decide_False; [done|tauto|lia].
      * repeat case_decide; intuition lia.
  - intros Hno d Hd. destruct (decide (d = pos + 3)) as [->|]; [done|]. apply Hno. lia.
Qed.

Lemma code_end_3 buf pos b : get buf (pos + 2) = Some b -> b <> 1 -> ~ code_end buf (pos + 3).
Proof. intros Hg Hb (_ & _ & H). replace (pos + 3 - 1) with (pos + 2) in H by lia. congruence. Qed.

Lemma next_code_ok {E} fuel buf pos :
  0 <= pos <= zlen buf -> zlen buf - pos < Z.of_nat fuel ->
  exists r, next_code (E:=E) fuel buf pos = Ok r /\ found buf pos r.
Proof.
  revert pos. induction fuel as [|fuel IH]; intros pos Hpos Hf; [lia|].
  cbn [next_code]. destruct (pos + 3 <=? zlen buf) eqn:H3; b2p; cycle 1.
  { exists None. split; [done|]. intros d Hd He%code_end_range. lia. }
  assert (Hrec : forall (P : Prop), ~ code_end buf (pos + 3) -> ~ (code_end buf (pos + 4) /\ get buf pos = Some 0) ->
    (forall r, next_code (E:=E) fuel buf (pos + 1) = Ok r -> found buf pos r -> P) -> P).
  { intros P Ha Hb HP. destruct (IH (pos + 1)) as (r & Hr & Hfo); [lia|lia|].
    apply (HP r Hr), found_step; [lia|done..]. }
  destruct (idx_ok (E:=E) buf pos) as (b0 & G0 & ->); [lia|]. rb.
  destruct (idx_ok (E:=E) buf (pos + 1)) as (b1 & G1 & I1); [lia|].
  destruct (idx_ok (E:=E) buf (pos + 2)) as (b2 & G2 & I2); [lia|].
  destruct (decide (b0 = 0 /\ b1 = 0)) as [[-> ->]|Hn].
  - cbn [Z.eqb]. rewrite I1. rb. cbn [Z.eqb andb]. rewrite I2. rb.
    destruct (b2 =? 1) eqn:Hb2; b2p.
    { subst. eexists. split; [done|]. cbn [found data_start prefix_start].
      replace (pos + 3 - 3) with pos by lia. unfold code_end.
      replace (pos + 3 - 3) with pos by lia. replace (pos + 3 - 2) with (pos + 1) by lia.
      replace (pos + 3 - 1) with (pos + 2) by lia. split_and!; try done; [lia|].
      rewrite decide_False; [done|lia]. }
    pose proof (code_end_3 _ _ _ G2 Hb2) as N3.
    destruct ((pos + 4 <=? zlen buf) && (b2 =? 0)) eqn:H4; cycle 1.
    { rb. apply (Hrec _ N3); [|eauto]. intros [Hc _]. pose proof (code_end_range _ _ Hc).
      destruct Hc as (_ & Hc & _). replace (pos + 4 - 2) with (pos + 2) in Hc by lia.
      rewrite G2 in Hc. injection Hc as ->. b2p. cbn in H4. lia. }
    b2p. subst b2. destruct (idx_ok (E:=E) buf (pos + 3)) as (b3 & G3 & ->); [lia|]. rb.
    destruct (b3 =? 1) eqn:Hb3; b2p.
    + subst. eexists. split; [done|]. cbn [found data_start prefix_start].
      replace (pos + 4 - 4) with pos by lia. unfold code_end at 1.
      replace (pos + 4 - 3) with (pos + 1) by lia. replace (pos + 4 - 2) with (pos + 2) by lia.
      replace (pos + 4 - 1) with (pos + 3) by lia. split_and!; try done; [lia| |].
      * intros e He. by replace e with (pos + 3) by lia.
      * by rewrite decide_True by (split; [done|lia]).
    + apply (Hrec _ N3); [|eauto]. intros [(_ & _ & Hc) _].
      replace (pos + 4 - 1) with (pos + 3) in Hc by lia. congruence.
  - replace (let! b3 := _ in _) with (next_code (E:=E) fuel buf (pos + 1)).
    + apply Hrec; [| |eauto].
      * intros (Ha & Hb & _). replace (pos + 3 - 3) with pos in Ha by lia.
        replace (pos + 3 - 2) with (pos + 1) in Hb by lia. naive_solver.
      * intros [(Ha & Hb & _) H0]. replace (pos + 4 - 3) with (pos + 1) in Ha by lia. naive_solver.
    + destruct (b0 =? 0) eqn:E0; b2p; [rewrite I1|]; rb; [|done].
      by rewrite (proj2 (Z.eqb_neq b1 0)) by naive_solver.
Qed.

Lemma code_ends_nil buf pos : (forall d, pos < d -> ~ code_end buf d) -> code_ends buf pos = [].
Proof.
  intros H. unfold code_ends. apply filter_none.
  intros d Hd%elem_of_seqZ. apply H. lia.
Qed.

Lemma code_ends_cons buf pos d :
  0 <= pos -> pos < d -> code_end buf d -> (forall e, pos < e < d -> ~ code_end buf e) ->
  code_ends buf pos = d :: code_ends buf d.
Proof.
  intros Hpos Hlt Hd Hno. pose proof (code_end_range _ _ Hd). unfold code_ends.
  replace (zlen buf - pos) with ((d - pos - 1) + (1 + (zlen buf - d))) by lia.
  rewrite seqZ_app by lia. rewrite filter_app.
  replace (filter (code_end buf) (seqZ (pos + 1) (d - pos - 1))) with (@nil Z); cycle 1.
  { symmetry. apply filter_none. intros e He%elem_of_seqZ. apply Hno. lia. }
  cbn [app]. replace (pos + 1 + (d - pos - 1)) with d by lia.
  rewrite seqZ_cons by lia. rewrite filter_cons_True by done. f_equal. f_equal. f_equal; lia.
Qed.

Lemma collect_codes_ok {E} fuel buf pos :
  0 <= pos <= zlen buf -> clean buf pos -> zlen buf - pos < Z.of_nat fuel ->
  collect_codes (E:=E) fuel buf pos = Ok (map (code_of buf) (code_ends buf pos)).
Proof.
  revert pos. induction fuel as [|fuel IH]; intros pos Hpos Hcl Hf; [lia|].
  cbn [collect_codes].
  destruct (next_code_ok (E:=E) (S (length buf)) buf pos) as (r & -> & Hr); [lia|unfold zlen; lia|]. rb.
  destruct r as [c|]; cbn [found] in Hr.
  - destruct Hr as (Hd & Hle & Hno & Hp). pose proof (code_end_range _ _ Hd).
    rewrite IH; [|lia|by right|lia]. rb.
    rewrite (code_ends_cons buf pos (data_start c)); [|lia|lia|done|].
    + cbn [map]. do 2 f_equal. destruct c as [p d]. cbn [data_start prefix_start] in *.
      unfold code_of. f_equal. rewrite Hp.
      destruct (decide (get buf (d - 4) = Some 0)) as [H4|H4];
        [|rewrite decide_False by tauto; done].
      rewrite decide_True; [done|]. split; [done|].
      destruct Hcl as [->|(_ & _ & Hc)]; [apply get_Some in H4; lia|].
      destruct (decide (d - 4 = pos - 1)) as [He|]; [rewrite He in H4; congruence|lia].
    + intros e He Hce. apply (Hno e); [|done]. split; [|lia]. apply (clean_gap buf); [done..|lia].
  - rewrite code_ends_nil; [done|]. intros d Hlt Hd. apply (Hr d); [|done]. by apply (clean_gap buf).
Qed.

Lemma start_codes_ok {E} buf : start_codes (E:=E) buf = Ok (map (code_of buf) (code_ends buf 0)).
Proof.
  unfold start_codes. pose proof (zlen_nonneg buf).
  apply collect_codes_ok; [lia|by left|unfold zlen; lia].
Qed.

Lemma elem_of_code_ends buf pos d : 0 <= pos -> d ∈ code_ends buf pos <-> pos < d /\ code_end buf d.
Proof.
  intros Hpos. unfold code_ends. rewrite list_elem_of_filter, elem_of_seqZ.
  split; [|intros [? Hd]; pose proof (code_end_range _ _ Hd)]; intuition lia.
Qed.

End AnnexBScan.

(** * NAL units and the muxer's acceptance test *)
Module AnnexBNals.
Import AnnexB AnnexBScan.

Definition prefix (p : list Z) : Prop := p = [0; 0; 1] \/ p = [0; 0; 0; 1].

(** [tiled b ns]: the bytes behind a start code are the NAL units [ns] with one
    start code between consecutive units and nothing else. *)
Inductive tiled : list Z -> list (list Z) -> Prop :=
| tiled_last n : tiled n [n]
| tiled_next n p r ns : prefix p -> tiled r ns -> tiled (n ++ p ++ r) (n :: ns).

Lemma code_ends_cases buf pos : 0 <= pos <= zlen buf -> clean buf pos ->
  code_ends buf pos = [] \/
  exists d, pos + 3 <= d /\ code_end buf d /\ code_ends buf pos = d :: code_ends buf d.
Proof.
  intros Hpos Hcl.
  destruct (next_code_ok (E:=Empty_set) (S (length buf)) buf pos) as (r & _ & Hr); [lia|unfold zlen; lia|].
  destruct r as [c|]; cbn [found] in Hr.
  - destruct Hr as (Hd & Hle & Hno & _). right. exists (data_start c). split_and!; [done|done|].
    apply code_ends_cons; [lia|lia|done|]. intros e He Hce. apply (Hno e); [|done].
    split; [|lia]. apply (clean_gap buf); [done..|lia].
  - left. apply code_ends_nil. intros d Hlt Hd. apply (Hr d); [|done]. by apply (clean_gap buf).
Qed.

(** The start code that ends at [d] lies between offset [pos] and [d]. *)
Lemma code_bytes buf pos d : 0 <= pos -> clean buf pos -> pos + 3 <= d -> code_end buf d ->
  let a := prefix_start (code_of buf d) in
  pos <= a <= d /\ exists p, prefix p /\ zdrop a buf = p ++ zdrop d buf.
Proof.
  intros Hpos Hcl Hle Hd. pose proof (code_end_range _ _ Hd) as Hr.
  assert (Hstep : forall i x, 0 <= i -> get buf i = Some x -> zdrop i buf = x :: zdrop (i + 1) buf).
  { intros i x Hi Hg. unfold get, zdrop in *. rewrite (proj2 (Z.ltb_ge i 0)) in Hg by lia.
    rewrite (drop_S _ x) by done. do 2 f_equal. lia. }
  destruct Hd as (H1 & H2 & H3).
  assert (H001 : zdrop (d - 3) buf = [0; 0; 1] ++ zdrop d buf).
  { rewrite (Hstep _ 0) by (done || lia). replace (d - 3 + 1) with (d - 2) by lia.
    rewrite (Hstep _ 0) by (done || lia). replace (d - 2 + 1) with (d - 1) by lia.
    rewrite (Hstep _ 1) by (done || lia). by replace (d - 1 + 1) with d by lia. }
  cbn [prefix_start code_of]. case_decide as H4.
  - assert (pos <= d - 4).
    { destruct Hcl as [->|(_ & _ & Hc)]; [apply get_Some in H4; lia|].
      destruct (decide (d - 4 = pos - 1)) as [He|]; [rewrite He in H4; congruence|lia]. }
    split; [lia|]. exists [0; 0; 0; 1]. split; [by right|].
    rewrite (Hstep _ 0) by (done || lia). replace (d - 4 + 1) with (d - 3) by lia. by rewrite H001.
  - split; [lia|]. exists [0; 0; 1]. split; [by left|done].
Qed.

(** The result of the check over the codes behind [pos]. *)
Definition checked_nals (buf : list Z) (ns : list (list Z)) (r : res InvalidNal Z) : Prop :=
  match r with
  | Ok body => exists init, ns = init ++ [zdrop body buf] /\ Forall (fun n => n <> []) init /\ code_end buf body
  | Err _ => [] ∈ ns
  | Panic => False
  end.

Lemma nals_from {E} buf ends : forall pos, code_end buf pos -> code_ends buf pos = ends ->
  exists ns, nals_of (E:=E) buf (code_of buf pos :: map (code_of buf) ends) = Ok ns /\
    tiled (zdrop pos buf) ns /\ checked_nals buf ns (check_codes pos (map (code_of buf) ends)).
Proof.
  induction ends as [|d ends IH]; intros pos Hpos He; pose proof (code_end_range _ _ Hpos) as Hr.
  - cbn [map nals_of data_start code_of]. rewrite slice_ok by lia. rb.
    rewrite ztake_all by (rewrite zlen_zdrop by lia; lia).
    eexists. split; [done|]. split; [constructor|]. cbn [checked_nals check_codes].
    exists []. split_and!; [done|constructor|done].
  - destruct (code_ends_cases buf pos) as [H0|(d' & Hle & Hd & Hc)]; [lia|by right|congruence|].
    assert (d' = d /\ ends = code_ends buf d') as [-> ->] by (split; congruence).
    destruct (code_bytes buf pos d) as (Ha & p & Hp & Hz); [lia|by right|lia|done|].
    destruct (IH d Hd eq_refl) as (ns & Hns & Ht & Hch).
    cbn [map] in *. cbn [nals_of]. cbn [nals_of] in Hns.
    pose proof (code_end_range _ _ Hd).
    rewrite slice_ok by (cbn [data_start code_of]; lia). rb. rewrite Hns. rb.
    eexists. split; [done|]. cbn [data_start code_of].
    set (n := ztake (prefix_start (code_of buf d) - pos) (zdrop pos buf)).
    assert (Hsplit : zdrop pos buf = n ++ p ++ zdrop d buf).
    { rewrite <- Hz. subst n. rewrite <- (ztake_zdrop (zdrop pos buf) (prefix_start (code_of buf d) - pos)) at 1.
      f_equal. rewrite zdrop_zdrop by lia. f_equal. lia. }
    assert (Hn : zlen n = prefix_start (code_of buf d) - pos)
      by (subst n; rewrite zlen_ztake; [done|rewrite zlen_zdrop by lia; lia]).
    split; [rewrite Hsplit; by constructor|]. cbn [check_codes].
    destruct (prefix_start (code_of buf d) <=? pos) eqn:Hle'; b2p.
    + cbn [checked_nals]. replace n with (@nil Z); [constructor|]. symmetry. apply zlen_0. lia.
    + cbn [data_start code_of]. destruct (check_codes d _) as [body| |]; cbn [checked_nals] in *; [| |done].
      * destruct Hch as (init & -> & Hi & Hb). exists (n :: init). split_and!; [done| |done].
        constructor; [|done]. intros ->. rewrite zlen_nil in Hn. lia.
      * by constructor.
Qed.

(** The two bytes behind the last code are zero exactly when its unit is [00 00]. *)
Lemma trailing_zeros buf body : code_end buf body -> body < zlen buf -> zlen buf <= body + 2 ->
  get buf (zlen buf - 1) = Some 0 /\ get buf (zlen buf - 2) = Some 0 <-> zdrop body buf = [0; 0].
Proof.
  intros Hb Hlt Hle. pose proof (code_end_range _ _ Hb) as Hr.
  assert (Hl : zlen (zdrop body buf) = zlen buf - body) by (rewrite zlen_zdrop; lia).
  assert (Hg : forall i, 0 <= i -> get (zdrop body buf) i = get buf (body + i)) by (intros; apply get_zdrop; lia).
  destruct (decide (zlen buf = body + 1)) as [He|He].
  - split; [|intros H0; rewrite H0, zlen_cons in Hl; change (zlen [0]) with 1 in Hl; lia].
    intros [_ H2]. destruct Hb as (_ & _ & H1). rewrite He in H2.
    replace (body + 1 - 2) with (body - 1) in H2 by lia. congruence.
  - replace (zlen buf - 1) with (body + 1) by lia. replace (zlen buf - 2) with (body + 0) by lia.
    rewrite <- !Hg by lia.
    destruct (zdrop body buf) as [|x [|y [|]]]; rewrite ?zlen_cons, ?(@zlen_nil Z) in Hl; try (zlia).
    cbn. naive_solver.
Qed.

(** The units a muxer accepts: every one has a byte, and the last is not the
    two zero bytes of an unfinished start code. *)
Definition acceptable (ns : list (list Z)) : Prop := ns <> [] /\ ([] ∉ ns) /\ last ns <> Some [0; 0].
#[global] Instance acceptable_dec ns : Decision (acceptable ns).
Proof. unfold acceptable. apply _. Defined.

End AnnexBNals.

Module AnnexBTheorems.
Import AnnexB AnnexBScan AnnexBNals.

(** The scanner's greedy walk reports exactly one start code per occurrence
    of [00 00 01] in the buffer, in order, with the preceding zero byte folded
    into the prefix when there is one, and it never runs off the buffer. *)
Theorem start_codes_exact (buf : list Z) :
  start_codes (E:=Empty_set) buf
  = Ok (map (code_of buf) (filter (code_end buf) (seqZ 1 (zlen buf)))).
Proof. rewrite start_codes_ok. unfold code_ends. by rewrite Z.sub_0_r. Qed.

Lemma first_code buf p rest d : prefix p -> buf = p ++ rest -> 3 <= d -> code_end buf d ->
  code_ends buf 0 = d :: code_ends buf d -> prefix_start (code_of buf d) = 0.
Proof.
  intros Hp -> Hle Hd Hc.
  assert (Hmem : forall e, code_end (p ++ rest) e -> 0 < e -> e = d \/ d < e).
  { intros e He Hlt. assert (He' : e ∈ code_ends (p ++ rest) 0) by (by apply elem_of_code_ends).
    rewrite Hc in He'. apply elem_of_cons in He' as [->|He']; [by left|].
    apply elem_of_code_ends in He' as [? _]; [by right|lia]. }
  destruct Hp as [-> | ->]; cbn [app] in *.
  - destruct (Hmem 3) as [<-|]; [by split_and!|lia|done|lia].
  - destruct (Hmem 4) as [<-|]; [by split_and!|lia|done|].
    replace d with 3 in Hd by lia. by destruct Hd as (_ & _ & Hd).
Qed.

Lemma accepts_iff buf ns (r : res InvalidNal Z) :
  checked_nals buf ns r ->
  let v :=
    let! nal_body_start := r in
    let! trailing :=
      (if 2 <=? zlen buf then
         let! a := idx buf (zlen buf - 1) in
         let! b := idx buf (zlen buf - 2) in
         Ok ((a =? 0) && (b =? 0))
       else Ok false) in
    if trailing && ((zlen buf <=? nal_body_start + 2) && (nal_body_start <? zlen buf)) then Err invalid_nal
    else if zlen buf <=? nal_body_start then Err invalid_nal
    else Ok tt in
  (v = Ok tt <-> acceptable ns) /\ (v = Ok tt \/ v = Err invalid_nal).
Proof.
  intros Hch. destruct r as [body|[]|]; cbn [checked_nals] in Hch; [|rb|done]; cycle 1.
  { split; [|by right]. split; [done|]. by intros (_ & Hn & _). }
  destruct Hch as (init & -> & Hi & Hb). pose proof (code_end_range _ _ Hb) as Hr.
  rb. rewrite (proj2 (Z.leb_le _ _)) by lia.
  destruct (idx_ok (E:=InvalidNal) buf (zlen buf - 1)) as (a & Ga & ->); [lia|].
  destruct (idx_ok (E:=InvalidNal) buf (zlen buf - 2)) as (b & Gb & ->); [lia|]. rb.
  assert (Hne : init ++ [zdrop body buf] <> []) by (by destruct init).
  assert (Hmem : [] ∉ init ++ [zdrop body buf] <-> zdrop body buf <> []).
  { rewrite elem_of_app, list_elem_of_singleton. rewrite Forall_forall in Hi. naive_solver. }
  assert (Hz : zdrop body buf <> [] <-> body < zlen buf).
  { assert (Hl : zlen (zdrop body buf) = zlen buf - body) by (rewrite zlen_zdrop; lia).
    split; [intros Hn|intros Hlt Hn; rewrite Hn in Hl; change (zlen (@nil Z)) with 0 in Hl; lia].
    destruct (decide (body < zlen buf)); [done|]. exfalso. apply Hn, zlen_0. lia. }
  unfold acceptable. rewrite Hmem, Hz, last_snoc.
  destruct (zlen buf <=? body) eqn:H1; b2p.
  { rewrite (proj2 (Z.ltb_ge body _)), !andb_false_r by lia. split; [|by right]. split; [done|lia]. }
  rewrite (proj2 (Z.ltb_lt body _)), andb_true_r by lia.
  destruct (zlen buf <=? body + 2) eqn:H2; b2p; rewrite ?andb_true_r, ?andb_false_r.
  - pose proof (trailing_zeros buf body Hb H1 H2) as Ht. rewrite Ga, Gb in Ht.
    destruct ((a =? 0) && (b =? 0)) eqn:Hab; b2p.
    + split; [|by right]. split; [done|]. intros (_ & _ & Hl). exfalso. apply Hl. f_equal. apply Ht. by subst.
    + split; [|by left]. split; [intros _|done]. split_and!; [done|lia|].
      intros [= Hl]. apply Ht in Hl. naive_solver.
  - split; [|by left]. split; [intros _|done]. split_and!; [done|lia|].
    intros [= Hl]. assert (Hl' : zlen (zdrop body buf) = 2) by (by rewrite Hl).
    rewrite zlen_zdrop in Hl' by lia. lia.
Qed.

Lemma validate_spec (buf : list Z) :
  (validate_annex_b buf = Ok tt <->
   exists p rest ns, prefix p /\ buf = p ++ rest /\ nals (E:=Empty_set) buf = Ok ns /\ tiled rest ns /\ acceptable ns) /\
  (validate_annex_b buf = Ok tt \/ validate_annex_b buf = Err invalid_nal).
Proof.
  unfold validate_annex_b, nals. rewrite !start_codes_ok. rb.
  pose proof (zlen_nonneg buf).
  destruct (code_ends_cases buf 0) as [H0|(d & Hle & Hd & Hc)]; [lia|by left| |].
  { rewrite H0. cbn [map]. split; [|by right]. split; [done|].
    intros (p & rest & ns & _ & _ & Hn & _ & Ha & _). cbn [nals_of] in Hn. injection Hn as <-. done. }
  rewrite Hc. cbn [map].
  destruct (code_bytes buf 0 d) as (Ha & p & Hp & Hz); [lia|by left|lia|done|].
  destruct (nals_from (E:=Empty_set) buf _ d Hd eq_refl) as (ns & -> & Ht & Hch).
  destruct (prefix_start (code_of buf d) =? 0) eqn:Hfirst; b2p; cycle 1.
  { split; [|by right]. split; [done|].
    intros (p' & rest & ns' & Hp' & Hbuf & _). exfalso. apply Hfirst. by apply (first_code buf p' rest). }
  assert (Hbuf : buf = p ++ zdrop d buf) by (rewrite <- Hz, Hfirst; by rewrite zdrop_0).
  assert (Hiff : acceptable ns <->
    exists p' rest ns', prefix p' /\ buf = p' ++ rest /\ Ok (E:=Empty_set) ns = Ok ns' /\ tiled rest ns' /\ acceptable ns').
  { split; [intros Hacc; by exists p, (zdrop d buf), ns|]. intros (? & ? & ? & _ & _ & [= <-] & _ & Hacc). done. }
  rewrite <- Hiff. clear Hiff. cbn [data_start code_of]. apply accepts_iff. exact Hch.
Qed.

(** The validator accepts an access unit exactly when it opens with a start
    code and the NAL units the demuxer's iterator finds in it are all non-empty
    and do not end in an unfinished start code; those units and the start codes
    between them are the whole buffer. Every other buffer is [InvalidNal]. *)
Theorem validate_annex_b_exact (buf : list Z) :
  (validate_annex_b buf = Ok tt <->
   exists p rest ns, prefix p /\ buf = p ++ rest /\ nals (E:=Empty_set) buf = Ok ns /\ tiled rest ns /\ acceptable ns) /\
  (validate_annex_b buf = Ok tt \/ validate_annex_b buf = Err invalid_nal).
Proof. apply validate_spec. Qed.

(** Two units, with a four-byte and a three-byte start code. *)
Example validate_annex_b_accepts : validate_annex_b [0; 0; 0; 1; 0x67; 1; 0; 0; 1; 0x65; 2] = Ok tt.
Proof. reflexivity. Qed.

End AnnexBTheorems.

(** * The AV1 binding: wrap and unwrap *)
Module Av1Binding.
Import Av1.

(** A complete low-overhead OBU: header, optional extension byte, LEB128 size
    and a body of that size. *)
Definition obu_ok (o : list Z) : Prop :=
  exists h ext size body, o = h :: ext ++ size ++ body /\ byte h /\
    Z.testbit h 2 = bool_decide (ext <> []) /\ zlen ext <= 1 /\ Z.testbit h 1 = true /\
    read_leb128 size 0 = Ok (zlen body, zlen size).

Lemma flag_bits h : byte h ->
  nz (Z.land (Z.shiftr h 2) 1) = Z.testbit h 2 /\ nz (Z.land (Z.shiftr h 1) 1) = Z.testbit h 1 /\
  nz (Z.land h 4) = Z.testbit h 2 /\ nz (Z.land h 2) = Z.testbit h 1.
Proof. unfold byte. revert h. refine (below_dec 256 _ _). by vm_compute. Qed.

Lemma leb128_app n pre size post : forall i v r, 0 <= i ->
  leb128_loop n size 0 i v = Ok r -> leb128_loop n (pre ++ size ++ post) (zlen pre) i v = Ok r.
Proof.
  induction n as [|n IH]; intros i v r Hi; cbn [leb128_loop]; [done|].
  rewrite Z.add_0_l. destruct (zlen size <=? i) eqn:Hl; b2p; [done|].
  rewrite (proj2 (Z.leb_gt _ _)) by zlia.
  destruct (idx_ok (E:=Leb128Error) size i) as (b & Hg & ->); [lia|].
  assert (Hb : idx (E:=Leb128Error) (pre ++ size ++ post) (zlen pre + i) = Ok b).
  { apply idx_Ok. rewrite get_app_r by lia. rewrite get_app_l by lia. rewrite <- Hg. f_equal. lia. }
  rewrite Hb. rb. repeat ifs; try done. apply IH. lia.
Qed.

Lemma leb128_pos n size : forall i v r, 0 <= i -> leb128_loop n size 0 i v = Ok r -> i < r.2 /\ i < zlen size.
Proof.
  induction n as [|n IH]; intros i v r Hi; cbn [leb128_loop]; [done|].
  rewrite Z.add_0_l. destruct (zlen size <=? i) eqn:Hl; b2p; [done|].
  destruct (idx_ok (E:=Leb128Error) size i) as (b & _ & ->); [lia|]. rb.
  repeat ifs; try done.
  - intros [= <-]. cbn. lia.
  - intros Hr%IH; lia.
Qed.

Lemma obu_len o : obu_ok o -> 2 <= zlen o.
Proof.
  intros (h & ext & size & body & -> & _ & _ & _ & _ & Hs).
  apply leb128_pos in Hs as [_ Hs]; [|lia]. zlia.
Qed.

(** What the walks compute for the size of an OBU inside a longer buffer. *)
Lemma obu_size_at pre h ext size body post :
  read_leb128 size 0 = Ok (zlen body, zlen size) ->
  read_leb128 (pre ++ (h :: ext ++ size ++ body) ++ post) (zlen pre + 1 + zlen ext) = Ok (zlen body, zlen size).
Proof.
  intros Hs. unfold read_leb128 in *.
  replace (pre ++ (h :: ext ++ size ++ body) ++ post) with ((pre ++ h :: ext) ++ size ++ (body ++ post))
    by (rewrite <- !app_assoc; cbn [app]; by rewrite <- !app_assoc).
  replace (zlen pre + 1 + zlen ext) with (zlen (pre ++ h :: ext)) by zlia.
  by apply leb128_app.
Qed.

Lemma skip_extension (ext : list Z) (i : Z) : zlen ext <= 1 ->
  (if bool_decide (ext <> []) then i + 1 else i) = i + zlen ext.
Proof.
  intros He. destruct ext as [|x [|]]; rewrite ?zlen_cons, ?(@zlen_nil Z) in *; try zlia.
  - rewrite bool_decide_eq_false_2 by auto. lia.
  - rewrite bool_decide_eq_true_2 by done. lia.
Qed.

Lemma obu_end_at {E} pre o post : zlen (pre ++ o ++ post) <= u64_max -> obu_ok o ->
  obu_end (E:=E) (pre ++ o ++ post) (zlen pre) = Ok (inl (zlen pre + zlen o)).
Proof.
  intros Hmax (h & ext & size & body & -> & Hh & Hext & He & Hsz & Hs).
  pose proof (leb128_pos _ _ _ _ _ (Z.le_refl 0) Hs) as [_ Hpos].
  unfold obu_end.
  assert (Hidx : idx (E:=E) (pre ++ (h :: ext ++ size ++ body) ++ post) (zlen pre) = Ok h)
    by (apply idx_Ok; apply get_app_len). rewrite Hidx. rb.
  destruct (flag_bits h Hh) as (-> & -> & _ & _). rewrite Hext, Hsz. cbn [negb].
  assert (Hn : zlen (pre ++ (h :: ext ++ size ++ body) ++ post)
               = zlen pre + 1 + zlen ext + zlen size + zlen body + zlen post) by zlia.
  rewrite Hn in *. zlen_facts.
  rewrite (proj2 (Z.leb_gt _ (zlen pre + 1))), andb_false_r by lia.
  rewrite skip_extension, obu_size_at by done. rewrite !(proj2 (Z.leb_le _ _)) by lia. cbn [andb].
  do 2 f_equal. rewrite !zlen_cons, !zlen_app. lia.
Qed.

(** The wire form of a unit, and the escaper as a function of the zero run. *)
Fixpoint esc (zr : Z) (l : list Z) : list Z :=
  match l with
  | [] => []
  | b :: r =>
      if (2 <=? zr) && (b <=? 3) then 3 :: b :: esc (if b =? 0 then 1 else 0) r
      else b :: esc (if b =? 0 then zr + 1 else 0) r
  end.

Definition wire (o : list Z) : list Z := AV1_TS_OBU_START_CODE ++ esc 0 o.

Lemma escape_loop_esc l : forall zr out, 0 <= zr <= 2 -> escape_loop zr l out = out ++ esc zr l.
Proof.
  induction l as [|b l IH]; intros zr out Hzr; cbn [escape_loop esc]; [by rewrite app_nil_r|].
  destruct ((2 <=? zr) && (b <=? 3)) eqn:He.
  - rewrite IH by (destruct (b =? 0); lia). rewrite <- !app_assoc. cbn [app].
    by destruct (b =? 0).
  - rewrite IH. { rewrite <- !app_assoc. cbn [app]. destruct (b =? 0) eqn:?; [|done]. by rewrite Z.min_r by lia. }
    destruct (b =? 0) eqn:Hb; b2p; [|lia]. subst. destruct (2 <=? zr) eqn:?; b2p; cbn in He; [by destruct He|lia].
Qed.

Lemma wrap_obus {E} obus : forall fuel pre rest out, Forall obu_ok obus ->
  zlen (pre ++ concat obus ++ rest) <= u64_max ->
  wrap_loop (E:=E) (length obus + fuel) (pre ++ concat obus ++ rest) (zlen pre) out
  = wrap_loop fuel (pre ++ concat obus ++ rest) (zlen (pre ++ concat obus)) (out ++ concat (map wire obus)).
Proof.
  induction obus as [|o obus IH]; intros fuel pre rest out Hok Hmax.
  { cbn [length concat map Nat.add]. by rewrite !app_nil_r. }
  apply Forall_cons in Hok as [Ho Hok]. pose proof (obu_len o Ho). cbn [length Nat.add wrap_loop].
  cbn [concat] in *. rewrite <- app_assoc in *.
  rewrite (proj2 (Z.ltb_lt _ _)) by zlia. rewrite obu_end_at by done. rb.
  rewrite (slice_app pre o) by done. rb. unfold escape_obu_unit_body. rewrite escape_loop_esc by lia.
  specialize (IH fuel (pre ++ o) rest ((out ++ AV1_TS_OBU_START_CODE) ++ esc 0 o) Hok).
  rewrite <- !app_assoc in *. rewrite <- (zlen_app pre o), IH by done.
  cbn [map concat]. unfold wire at 2. by rewrite <- !app_assoc.
Qed.

Lemma concat_len obus : Forall obu_ok obus -> (length obus <= length (concat obus))%nat.
Proof.
  induction 1 as [|o obus Ho _ IH]; [done|]. cbn [length concat]. rewrite length_app.
  pose proof (obu_len o Ho). unfold zlen in *. lia.
Qed.

(** The zero run the decoder is left with behind a unit. *)
Fixpoint final_run (zr : Z) (l : list Z) : Z :=
  match l with
  | [] => zr
  | b :: r => final_run (if (2 <=? zr) && (b <=? 3) then if b =? 0 then 1 else 0
                         else if b =? 0 then zr + 1 else 0) r
  end.

Lemma final_run_range l : forall zr, 0 <= zr <= 2 -> 0 <= final_run zr l <= 2.
Proof.
  induction l as [|b l IH]; intros zr Hzr; cbn [final_run]; [done|].
  apply IH. destruct (2 <=? zr) eqn:?, (b <=? 3) eqn:?, (b =? 0) eqn:?; b2p; cbn; lia.
Qed.

Lemma unwrap_esc {E} l t : forall zr us v out ranges, 0 <= zr <= 2 ->
  unwrap_loop (E:=E) (esc zr l ++ t) zr us v out ranges
  = unwrap_loop t (final_run zr l) us v (out ++ l) ranges.
Proof.
  induction l as [|b l IH]; intros zr us v out ranges Hzr; cbn [esc final_run app]; [by rewrite app_nil_r|].
  destruct ((2 <=? zr) && (b <=? 3)) eqn:He; b2p.
  - cbn [app]. cbn [unwrap_loop]. rewrite (proj2 (Z.leb_le 2 zr)), (proj2 (Z.leb_le b 3)) by lia.
    cbn [Z.eqb Z.leb Pos.eqb andb Z.compare]. rewrite Z.add_0_r.
    replace (out ++ b :: l) with ((out ++ [b]) ++ l) by (by rewrite <- app_assoc).
    destruct (b =? 0) eqn:Hb; b2p; [|rewrite IH by lia; done].
    change (Z.min 255 (0 + 1)) with 1. by rewrite IH by lia.
  - cbn [app unwrap_loop].
    assert (Hx : (2 <=? zr) && (b =? 1) = false /\ (2 <=? zr) && (b =? 3) = false /\ (2 <=? zr) && (b =? 2) = false).
    { destruct (2 <=? zr) eqn:?; b2p; cbn in *; [|done]. split_and!; apply Z.eqb_neq; lia. }
    destruct Hx as (-> & -> & ->). cbn [andb b2z]. rewrite Z.add_0_r. replace (out ++ b :: l) with ((out ++ [b]) ++ l) by (by rewrite <- app_assoc).
    destruct (b =? 0) eqn:Hb; b2p; [|by rewrite IH by lia]. rewrite Z.min_r by lia. apply IH.
    destruct (2 <=? zr) eqn:?; b2p; [|lia]. subst. cbn in He. lia.
Qed.

End Av1Binding.

Module Av1Theorems.
Import Av1 Av1Binding.

(** The byte ranges of consecutive units. *)
Fixpoint ranges (start : Z) (us : list (list Z)) : list (Z * Z) :=
  match us with
  | [] => []
  | u :: r => (start, start + zlen u) :: ranges (start + zlen u) r
  end.

Lemma unwrap_units {E} us : forall u zr v out rs us0,
  0 <= zr <= 2 -> us0 <= zlen out ->
  unwrap_loop (E:=E) (esc zr u ++ concat (map wire us)) zr us0 v out rs
  = Ok {| binding_bytes := out ++ u ++ concat us;
          units := rs ++ (us0, zlen out + zlen u) :: ranges (zlen out + zlen u) us;
          escape_violations := v |}.
Proof.
  induction us as [|w us IH]; intros u zr v out rs us0 Hzr Hle.
  - cbn [map concat ranges]. rewrite unwrap_esc by done. cbn [unwrap_loop].
    rewrite app_nil_r, zlen_app. done.
  - cbn [map concat ranges]. rewrite unwrap_esc by done.
    pose proof (final_run_range u zr Hzr) as Hf. set (f := final_run zr u) in *.
    unfold wire at 1. unfold AV1_TS_OBU_START_CODE. cbn [app unwrap_loop].
    change (0 =? 1) with false. change (0 =? 3) with false. change (0 =? 2) with false.
    rewrite !andb_false_r. cbn [andb b2z Z.eqb]. rewrite !Z.add_0_r, !Z.min_r by lia.
    rewrite (proj2 (Z.leb_le 2 (f + 1 + 1))) by lia. cbn [andb Pos.eqb].
    assert (Hz : zlen ((((out ++ u) ++ [0]) ++ [0])) = zlen (out ++ u) + 2) by (rewrite !zlen_app; change (zlen [0]) with 1; lia).
    unfold usub. rewrite Hz, (proj2 (Z.leb_le 2 _)) by zlia. rb.
    replace (zlen (out ++ u) + 2 - 2) with (zlen (out ++ u)) by lia.
    rewrite <- (app_assoc (out ++ u)), ztake_app.
    rewrite IH by zlia. rewrite <- !app_assoc. rewrite zlen_app. done.
Qed.

Lemma unwrap_wire {E} u us :
  unwrap_av1_binding_units (E:=E) (concat (map wire (u :: us)))
  = Ok (Some {| binding_bytes := concat (u :: us); units := ranges 0 (u :: us); escape_violations := 0 |}).
Proof.
  unfold unwrap_av1_binding_units. 
  replace (concat (map wire (u :: us))) with (AV1_TS_OBU_START_CODE ++ (esc 0 u ++ concat (map wire us)))
    by (cbn [map concat]; unfold wire at 2; by rewrite <- app_assoc).
  replace (get_range _ 0 3) with (Some [0; 0; 1]).
  - rewrite bool_decide_eq_true_2 by done. rewrite (zdrop_app' AV1_TS_OBU_START_CODE) by done.
    rewrite (unwrap_units us u 0 0 [] [] 0) by (change (zlen (@nil Z)) with 0; lia). rb. done.
  - unfold get_range. rewrite zlen_app. change (zlen AV1_TS_OBU_START_CODE) with 3.
    rewrite (proj2 (Z.leb_le 3 _)) by zlia. done.
Qed.

Lemma wrap_concat {E} obus rest : Forall obu_ok obus -> zlen (concat obus ++ rest) <= u64_max ->
  exists fuel, (length rest <= fuel)%nat /\
  wrap_av1_obus_binding (E:=E) (concat obus ++ rest) []
  = wrap_loop (S fuel) (concat obus ++ rest) (zlen (concat obus)) (concat (map wire obus)).
Proof.
  intros Hok Hmax. pose proof (concat_len obus Hok).
  exists (length (concat obus ++ rest) - length obus)%nat. split; [rewrite length_app; lia|].
  unfold wrap_av1_obus_binding.
  replace (S (length (concat obus ++ rest)))
    with (length obus + S (length (concat obus ++ rest) - length obus))%nat by (rewrite length_app; lia).
  apply (wrap_obus obus _ [] rest []); done.
Qed.

Lemma count_obus {E} obus : forall fuel pre n, Forall obu_ok obus -> zlen (pre ++ concat obus) <= u64_max ->
  count_obus_loop (E:=E) (length obus + S fuel) (pre ++ concat obus) (zlen pre) n = Ok (n + zlen obus).
Proof.
  induction obus as [|o obus IH]; intros fuel pre n Hok Hmax.
  { cbn [length concat Nat.add count_obus_loop]. rewrite app_nil_r, Z.ltb_irrefl.
    by rewrite (@zlen_nil (list Z)), Z.add_0_r. }
  apply Forall_cons in Hok as [Ho Hok]. pose proof (obu_len o Ho) as Hlo.
  pose proof Ho as (h & ext & size & body & Heq & Hh & Hext & He & Hsz & Hs).
  cbn [length Nat.add count_obus_loop concat] in *.
  rewrite (proj2 (Z.ltb_lt _ _)) by zlia.
  assert (Hidx : idx (E:=E) (pre ++ o ++ concat obus) (zlen pre) = Ok h) by (apply idx_Ok; subst o; apply get_app_len).
  rewrite Hidx. rb. destruct (flag_bits h Hh) as (_ & _ & -> & ->). rewrite Hext, Hsz.
  rewrite (proj2 (Z.leb_gt _ (zlen pre + 1))), andb_false_r by zlia.
  rewrite skip_extension, Heq, obu_size_at by done. rewrite <- Heq.
  assert (Hz : zlen pre + 1 + zlen ext + zlen size + zlen body = zlen (pre ++ o)) by (subst o; zlia).
  rewrite Hz. rewrite app_assoc in *. rewrite (proj2 (Z.ltb_ge u64_max _)) by zlia.
  rewrite (proj2 (Z.ltb_ge (zlen _) _)) by zlia. rewrite IH by done. f_equal. rewrite zlen_cons. lia.
Qed.

(** The walks on arbitrary bytes. *)
Lemma leb128_total n buf offset : bytes buf -> 0 <= offset -> forall i v, 0 <= i -> 0 <= v ->
  match leb128_loop n buf offset i v with Ok (x, c) => 0 <= x /\ i < c /\ offset + c <= zlen buf | Err _ => True | Panic => False end.
Proof.
  intros Hb Ho. induction n as [|n IH]; intros i v Hi Hv; cbn [leb128_loop]; [done|].
  destruct (zlen buf <=? offset + i) eqn:Hl; b2p; [done|].
  destruct (idx_ok (E:=Leb128Error) buf (offset + i)) as (b & Hg & ->); [lia|]. rb.
  assert (Hv' : 0 <= Z.lor v (as_u64 (Z.shiftl (Z.land b 127) (i * 7))))
    by (apply Z.lor_nonneg; split; [done|apply Z.mod_pos_bound; lia]).
  ifs; [ifs; [done|split; [done|lia]]|].
  specialize (IH (i + 1) _ ltac:(lia) Hv'). destruct (leb128_loop n buf offset (i + 1) _) as [[x c]| |]; [|done..]. lia.
Qed.

Lemma obu_end_total {E} buf i : bytes buf -> 0 <= i < zlen buf ->
  exists e, obu_end (E:=E) buf i = Ok e /\ match e with inl j => i < j <= zlen buf | inr _ => True end.
Proof.
  intros Hb Hi. unfold obu_end. destruct (idx_ok (E:=E) buf i) as (h & _ & ->); [lia|]. rb.
  destruct (_ && (zlen buf <=? i + 1)); [by eexists|]. destruct (negb _); [by eexists|].
  set (k := if nz _ then i + 1 + 1 else i + 1). assert (i < k) by (unfold k; destruct (nz _); lia). clearbody k.
  pose proof (leb128_total 8 buf k Hb ltac:(lia) 0 0 ltac:(lia) ltac:(lia)) as Hleb. unfold read_leb128.
  destruct (leb128_loop 8 buf k 0 0) as [[sz c]| |]; [|by eexists|done].
  destruct (_ && _) eqn:He; [|by eexists]. b2p. eexists; split; [done|]. cbn; lia.
Qed.

Lemma wrap_total {E} buf : bytes buf -> forall fuel i out, 0 <= i <= zlen buf -> zlen buf - i < Z.of_nat fuel ->
  exists r, wrap_loop (E:=E) fuel buf i out = Ok r.
Proof.
  intros Hb fuel. induction fuel as [|fuel IH]; intros i out Hi Hf; [lia|]. cbn [wrap_loop].
  destruct (i <? zlen buf) eqn:Hlt; b2p; [|by eexists].
  destruct (obu_end_total (E:=E) buf i Hb) as (e & -> & He); [lia|]. rb. destruct e as [j|]; [|by eexists].
  rewrite slice_ok by lia. rb. apply IH; lia.
Qed.

Lemma count_total {E} buf : bytes buf -> forall fuel i n, 0 <= i <= zlen buf -> zlen buf - i < Z.of_nat fuel ->
  exists r, count_obus_loop (E:=E) fuel buf i n = Ok r.
Proof.
  intros Hb fuel. induction fuel as [|fuel IH]; intros i n Hi Hf; [lia|]. cbn [count_obus_loop].
  destruct (i <? zlen buf) eqn:Hlt; b2p; [|by eexists].
  destruct (idx_ok (E:=E) buf i) as (h & _ & ->); [lia|]. rb.
  destruct (_ && (zlen buf <=? i + 1)); [by eexists|]. destruct (nz (Z.land h 2)); [|by eexists].
  set (k := if nz _ then i + 1 + 1 else i + 1). assert (i < k) by (unfold k; destruct (nz _); lia). clearbody k.
  pose proof (leb128_total 8 buf k Hb ltac:(lia) 0 0 ltac:(lia) ltac:(lia)) as Hleb. unfold read_leb128.
  destruct (leb128_loop 8 buf k 0 0) as [[sz c]| |]; [|by eexists|done].
  ifs; b2p; [by eexists|]. ifs; b2p; [by eexists|]. apply IH; lia.
Qed.

Lemma count_nal_units_total {E} buf codec : bytes buf -> exists n, count_nal_units (E:=E) buf codec = Ok n.
Proof.
  intros Hb. unfold count_nal_units.
  assert (Ha : exists n, AnnexB.count_annex_b_nals (E:=E) buf = Ok n).
  { unfold AnnexB.count_annex_b_nals. destruct buf; [by eexists|]. rewrite AnnexBScan.start_codes_ok. rb. by eexists. }
  destruct codec; try done. unfold count_av1_obus. apply count_total; [done|zlia|unfold zlen; lia].
Qed.

(** C39: an elementary AV1 access unit made of complete OBUs is wrapped in full,
    and the receiver's unwrapper returns the same bytes, the range of every OBU
    and no escape violation, whatever the OBU bodies contain; the statistics
    walk counts each OBU once. *)
Theorem av1_binding_roundtrip (obus : list (list Z)) :
  obus <> [] -> Forall obu_ok obus -> zlen (concat obus) <= u64_max ->
  exists w, wrap_av1_obus_binding (E:=Empty_set) (concat obus) [] = Ok (w, true) /\
    unwrap_av1_binding_units (E:=Empty_set) w
    = Ok (Some {| binding_bytes := concat obus; units := ranges 0 obus; escape_violations := 0 |}) /\
    count_av1_obus (E:=Empty_set) (concat obus) = Ok (zlen obus).
Proof.
  intros Hne Hok Hmax. exists (concat (map wire obus)). split_and!.
  - destruct (wrap_concat (E:=Empty_set) obus [] Hok) as (fuel & _ & Hw); rewrite app_nil_r in *; [done|].
    rewrite Hw. cbn [wrap_loop]. by rewrite Z.ltb_irrefl, Z.eqb_refl.
  - destruct obus; [done|]. apply unwrap_wire.
  - unfold count_av1_obus. pose proof (concat_len obus Hok).
    replace (S (length (concat obus))) with (length obus + S (length (concat obus) - length obus))%nat by lia.
    rewrite (count_obus obus _ [] 0 Hok) by done. f_equal.
Qed.

Lemma av1_binding_roundtrip_witness :
  let obus := [[0x12; 0]; [0x0A; 6; 0; 0; 0; 0; 3; 0]] in
  exists w, wrap_av1_obus_binding (E:=Empty_set) (concat obus) [] = Ok (w, true) /\
    unwrap_av1_binding_units (E:=Empty_set) w
    = Ok (Some {| binding_bytes := concat obus; units := [(0, 2); (2, 10)]; escape_violations := 0 |}).
Proof.
  intros obus. destruct (av1_binding_roundtrip obus) as (w & Hw & Hu & _).
  - discriminate.
  - repeat constructor.
    + exists 0x12, [], [0], []. split_and!; first [reflexivity | unfold byte; lia | vm_compute; discriminate].
    + exists 0x0A, [], [6], [0; 0; 0; 0; 3; 0]. split_and!; first [reflexivity | unfold byte; lia | vm_compute; discriminate].
  - vm_compute. discriminate.
  - exists w. split; [exact Hw|exact Hu].
Defined.

(** The wrapper reports full consumption of an access unit whose last OBU
    stops right after its size field: the complete OBUs are emitted, the cut one
    is dropped, and the result is the one a well-formed access unit gives. *)
Theorem wrap_av1_drops_cut_obu (obus : list (list Z)) (h n : Z) :
  Forall obu_ok obus -> zlen (concat obus) + 2 <= u64_max ->
  byte h -> Z.testbit h 2 = false -> Z.testbit h 1 = true -> 0 < n < 128 ->
  wrap_av1_obus_binding (E:=Empty_set) (concat obus ++ [h; n]) []
  = wrap_av1_obus_binding (E:=Empty_set) (concat obus) [].
Proof.
  intros Hok Hmax Hh Hext Hsz Hn.
  destruct (wrap_concat (E:=Empty_set) obus [h; n] Hok) as (fuel & _ & ->); [zlia|].
  destruct (wrap_concat (E:=Empty_set) obus [] Hok) as (fuel' & _ & Hw); rewrite app_nil_r in *; [lia|].
  rewrite Hw. cbn [wrap_loop]. rewrite Z.ltb_irrefl, Z.eqb_refl.
  rewrite (proj2 (Z.ltb_lt _ _)) by zlia. unfold obu_end.
  assert (Hidx : idx (E:=Empty_set) (concat obus ++ [h; n]) (zlen (concat obus)) = Ok h)
    by (apply idx_Ok; apply get_app_len).
  rewrite Hidx. rb. destruct (flag_bits h Hh) as (-> & -> & _ & _). rewrite Hext, Hsz. cbn [andb negb].
  assert (Hleb : read_leb128 (concat obus ++ [h; n]) (zlen (concat obus) + 1) = Ok (n, 1)).
  { replace (concat obus ++ [h; n]) with ((concat obus ++ [h]) ++ [n] ++ []) by (by rewrite <- !app_assoc).
    replace (zlen (concat obus) + 1) with (zlen (concat obus ++ [h])) by zlia.
    apply leb128_app; [lia|]. clear - Hn. revert Hn.
    assert (Hall : forall m, 0 <= m < 128 -> leb128_loop 8 [m] 0 0 0 = Ok (m, 1)).
    { intros m Hm. pose proof (below_all 128 (fun m => match leb128_loop 8 [m] 0 0 0 with
        | Ok (v, c) => (v =? m) && (c =? 1) | _ => false end) ltac:(by vm_compute) m Hm) as Hb. cbv beta in Hb.
      destruct (leb128_loop 8 [m] 0 0 0) as [[v c]| |]; [|done..]. b2p. by subst. }
    intros Hn. apply Hall. lia. }
  rewrite Hleb. rewrite (proj2 (Z.leb_gt _ (zlen (concat obus ++ [h; n])))), andb_false_r by zlia. rb.
  do 2 f_equal. apply Z.eqb_eq. zlia.
Qed.

Lemma wrap_av1_drops_cut_obu_witness :
  wrap_av1_obus_binding (E:=Empty_set) (concat [] ++ [0x12; 5]) [] = Ok ([], true).
Proof.
  rewrite (wrap_av1_drops_cut_obu [] 0x12 5).
  - reflexivity.
  - constructor.
  - vm_compute. discriminate.
  - unfold byte. lia.
  - reflexivity.
  - reflexivity.
  - lia.
Defined.

End Av1Theorems.
