(* ===== verification/NalUnits.v ===== *)
(** NAL units: the header table ([codec/nal.rs]), how the Annex-B scan acts on a
    concatenation, and the conversion between Annex-B and length-prefixed framing
    with the parameter-set filter ([codec/nal_framing.rs]). *)
From Stdlib Require Import ZArith Lia Bool.
From stdpp Require Import base list list_numbers.
From S2P Require Import Prelude.
From S2P Require Import PsiWriter.
From S2P Require Import AnnexB.

(** * The header table *)
Module Nal.
Import MuxTypes.

Definition header_len (codec : VideoCodec) : option Z :=
  match codec with
  | VideoH264 => Some 1
  | VideoH265 | VideoH266 => Some 2
  | MuxTypes.Av1 => None
  end.

Definition nal_unit_type (codec : VideoCodec) (nal : list Z) : option Z :=
  match codec with
  | VideoH264 => option_map (fun b => Z.land b 0x1F) (get nal 0)
  | VideoH265 => option_map (fun b => Z.land (Z.shiftr b 1) 0x3F) (get nal 0)
  | VideoH266 => option_map (fun b => Z.land (Z.shiftr b 3) 0x1F) (get nal 1)
  | MuxTypes.Av1 => None
  end.

Definition is_vcl (codec : VideoCodec) (nal_type : Z) : bool :=
  match codec with
  | VideoH264 => (1 <=? nal_type) && (nal_type <=? 5)
  | VideoH265 => nal_type <=? 31
  | VideoH266 => nal_type <=? 11
  | MuxTypes.Av1 => false
  end.

Definition is_idr (codec : VideoCodec) (nal_type : Z) : bool :=
  match codec with
  | VideoH264 => nal_type =? 5
  | VideoH265 => (nal_type =? 19) || (nal_type =? 20)
  | VideoH266 => (nal_type =? 7) || (nal_type =? 8)
  | MuxTypes.Av1 => false
  end.

End Nal.

(** * The scan on a concatenation *)
Module NalSplit.
Import AnnexB AnnexBScan AnnexBNals.

(** The NAL units of a buffer, as the iterator yields them. *)
Definition units (buf : list Z) : list (list Z) :=
  match nals (E:=Empty_set) buf with Ok ns => ns | _ => [] end.

(** No start code ends inside. *)
Definition plain (buf : list Z) : Prop := forall d, ~ code_end buf d.

Lemma nals_of_ok {E} buf ends : forall pos, code_end buf pos -> code_ends buf pos = ends ->
  exists ns, nals_of (E:=E) buf (code_of buf pos :: map (code_of buf) ends) = Ok ns.
Proof. intros pos Hp He. destruct (nals_from (E:=E) buf ends pos Hp He) as (ns & -> & _). by exists ns. Qed.

Lemma nals_units {E} buf : nals (E:=E) buf = Ok (units buf).
Proof.
  assert (forall F, exists ns, nals (E:=F) buf = Ok ns) as Hok.
  { intros F. unfold nals. rewrite start_codes_ok. rb. pose proof (zlen_nonneg buf).
    destruct (code_ends_cases buf 0) as [-> |(d & _ & Hd & ->)]; [lia|by left|by exists []|]. cbn [map]. by apply (nals_of_ok buf _ d). }
  unfold units. destruct (Hok E) as (ns & HE). destruct (Hok Empty_set) as (ns' & H0). rewrite HE, H0. f_equal.
  assert (forall codes a b, nals_of (E:=E) buf codes = Ok a -> nals_of (E:=Empty_set) buf codes = Ok b -> a = b) as Hsame.
  { induction codes as [|c codes IH]; intros a b; cbn [nals_of]; [by intros [= <-] [= <-]|].
    intros (n1 & H1 & (t1 & H2 & [= <-])%rbind_ok)%rbind_ok (n2 & H3 & (t2 & H4 & [= <-])%rbind_ok)%rbind_ok.
    f_equal; [|by apply IH]. apply slice_Ok in H1, H3. destruct H1 as (_ & _ & _ & ->), H3 as (_ & _ & _ & ->). done. }
  unfold nals in HE, H0. rewrite (start_codes_ok (E:=E)) in HE. rewrite (start_codes_ok (E:=Empty_set)) in H0. by eapply Hsame.
Qed.

Lemma filter_through (P Q : Z -> Prop) `{forall x, Decision (P x)} `{forall x, Decision (Q x)} (f : Z -> Z) l :
  (forall x, x ∈ l -> P (f x) <-> Q x) -> filter P (map f l) = map f (filter Q l).
Proof.
  induction l as [|x l IH]; intros Hl; [done|]. cbn [map]. assert (P (f x) <-> Q x) as Hx by (apply Hl; constructor).
  rewrite !filter_cons, IH by (intros y Hy; apply Hl; by constructor). by repeat case_decide; try tauto.
Qed.

Lemma code_end_l a w e : e <= zlen a -> code_end (a ++ w) e <-> code_end a e.
Proof. intros He. unfold code_end. by rewrite !get_app_l by lia. Qed.

Lemma get_behind (a w : list Z) i j : i = zlen a + j -> 0 <= j -> get (a ++ w) i = get w j.
Proof. intros -> Hj. rewrite get_app_r by lia. f_equal. lia. Qed.

Lemma code_end_r a w e : 3 <= e -> code_end (a ++ w) (zlen a + e) <-> code_end w e.
Proof.
  intros He. unfold code_end.
  by rewrite (get_behind a w _ (e - 3)), (get_behind a w _ (e - 2)), (get_behind a w _ (e - 1)) by lia.
Qed.

(** A start code between two buffers: the codes of both and this one. *)
Lemma code_ends_join a b : let w := [0; 0; 1] ++ b in
  code_ends (a ++ w) 0 = code_ends a 0 ++ map (Z.add (zlen a)) (3 :: map (Z.add 3) (code_ends b 0)).
Proof.
  intros w. pose proof (zlen_nonneg a). pose proof (zlen_nonneg b). set (za := zlen a) in *.
  assert (zlen (a ++ w) = za + (3 + zlen b)) as Hz by (unfold w, za; by rewrite zlen_app, zlen_app).
  unfold code_ends. rewrite Hz, !Z.sub_0_r, seqZ_app by lia. rewrite filter_app. f_equal.
  - rewrite <- (map_id (seqZ _ _)) at 1. rewrite (filter_through _ (code_end a)); [by rewrite map_id|].
    intros e He%elem_of_seqZ. apply code_end_l. unfold za in *. lia.
  - rewrite seqZ_app by lia. rewrite filter_app.
    assert (filter (code_end (a ++ w)) (seqZ (0 + 1 + za) 3) = [za + 3]) as ->.
    { replace (seqZ (0 + 1 + za) 3) with [za + 1; za + 2; za + 3]
        by (rewrite !(seqZ_cons _ _), seqZ_nil by lia; unfold Z.succ; f_equal; [lia|f_equal; [lia|f_equal; lia]]).
      rewrite filter_cons_False; [|intros (_ & _ & H1); by rewrite (get_behind a w _ 0) in H1 by (unfold za; lia)].
      rewrite filter_cons_False; [|intros (_ & _ & H1); by rewrite (get_behind a w _ 1) in H1 by (unfold za; lia)].
      rewrite filter_cons_True; [done|]. apply code_end_r; [lia|]. by split_and!. }
    cbn [map app]. f_equal. rewrite map_map.
    rewrite <- (filter_through (code_end (a ++ w)) (code_end b) (fun x => za + (3 + x))).
    + f_equal. replace (0 + 1 + za + 3) with (za + 3 + 1) by lia. rewrite <- fmap_add_seqZ. apply list_fmap_ext. intros i x _. lia.
    + intros e He%elem_of_seqZ. change (code_end (a ++ w) (zlen a + (3 + e)) <-> code_end b e). rewrite code_end_r by lia. split.
      * intros Hc. destruct (decide (e < 3)) as [Hlt|Hge]; [|by apply (code_end_r [0; 0; 1] b e); [lia|]].
        exfalso. destruct Hc as (H1 & H2 & _). assert (e = 1 \/ e = 2) as [-> | ->] by lia; [by injection H2|by injection H1].
      * intros Hc. pose proof (code_end_range _ _ Hc). apply (code_end_r [0; 0; 1] b e); [lia|done].
Qed.

(** A buffer without a trailing zero, which a start code behind it takes in. *)
Definition stem (a : list Z) : list Z := if decide (last a = Some 0) then ztake (zlen a - 1) a else a.

Lemma stem_zero a : stem (a ++ [0]) = a.
Proof. unfold stem. rewrite last_snoc, decide_True by done. apply ztake_app'. rewrite zlen_app. change (zlen [0]) with 1. lia. Qed.

Lemma stem_id a : last a <> Some 0 -> stem a = a.
Proof. intros H. unfold stem. by rewrite decide_False. Qed.

Lemma stem_cases a : (exists b, a = b ++ [0] /\ stem a = b) \/ (last a <> Some 0 /\ stem a = a).
Proof.
  destruct (decide (last a = Some 0)) as [H|H]; [|right; split; [done|by apply stem_id]].
  left. apply last_Some in H as (b & ->). exists b. split; [done|apply stem_zero].
Qed.

Lemma last_get (a : list Z) : last a = get a (zlen a - 1).
Proof.
  destruct a as [|x a]; [done|]. rewrite last_lookup. unfold get. rewrite zlen_cons. pose proof (zlen_nonneg a).
  rewrite (proj2 (Z.ltb_ge _ _)) by lia. f_equal. unfold zlen. cbn. lia.
Qed.

Lemma code_ends_zero a : code_ends (a ++ [0]) 0 = code_ends a 0.
Proof.
  pose proof (zlen_nonneg a). unfold code_ends. rewrite zlen_app. change (zlen [0]) with 1.
  rewrite !Z.sub_0_r, seqZ_app by lia. rewrite filter_app.
  assert (filter (code_end (a ++ [0])) (seqZ (0 + 1 + zlen a) 1) = []) as ->.
  { apply filter_none. intros x Hx%elem_of_seqZ (_ & _ & H1). replace (x - 1) with (zlen a) in H1 by lia. by rewrite get_app_len in H1. }
  rewrite app_nil_r. rewrite <- (map_id (seqZ _ _)) at 1. rewrite (filter_through _ (code_end a)); [by rewrite map_id|].
  intros e He%elem_of_seqZ. apply code_end_l. lia.
Qed.

Lemma stem_ends a : code_ends (stem a) 0 = code_ends a 0.
Proof. destruct (stem_cases a) as [(b & -> & ->)|[_ ->]]; [by rewrite code_ends_zero|done]. Qed.

Lemma code_of_l a w e : e <= zlen a + 3 -> code_of (a ++ w) e = code_of a e.
Proof. intros He. unfold code_of. by rewrite get_app_l by lia. Qed.

Lemma slice_prefix {E} (buf : list Z) n i j : j <= n <= zlen buf -> slice (E:=E) (ztake n buf) i j = slice buf i j.
Proof.
  intros [Hj Hn]. unfold slice. destruct (Z.leb_spec 0 i); [|done]. destruct (Z.leb_spec i j); [|done]. cbn [andb].
  rewrite zlen_ztake by lia. rewrite !(proj2 (Z.leb_le j _)) by lia. f_equal. unfold ztake, zdrop.
  rewrite !take_drop_commute, take_take. f_equal. f_equal. lia.
Qed.

Lemma nals_of_cons {E} buf c cs : nals_of (E:=E) buf (c :: cs) =
  let! nal := slice buf (data_start c) (match cs with next :: _ => prefix_start next | [] => zlen buf end) in
  let! tail := nals_of buf cs in Ok (nal :: tail).
Proof. done. Qed.

Lemma nals_of_app {E} buf c c2 : 0 <= prefix_start c <= zlen buf -> forall cs, Forall (fun x => prefix_start x <= prefix_start c) cs ->
  nals_of (E:=E) buf (cs ++ c :: c2) =
  let! x := nals_of (ztake (prefix_start c) buf) cs in let! y := nals_of buf (c :: c2) in Ok (x ++ y).
Proof.
  intros Hc cs Hcs. induction cs as [|k cs IH]; [cbn [app]; rb; by destruct (nals_of buf (c :: c2))|].
  apply Forall_cons in Hcs as [Hk Hcs]. specialize (IH Hcs). destruct cs as [|k' cs].
  - cbn [app] in *. rewrite (nals_of_cons buf k), (nals_of_cons (ztake _ _) k), zlen_ztake by lia. rewrite slice_prefix by lia.
    destruct (slice buf (data_start k) _); rb; [|done..]. by destruct (nals_of buf (c :: c2)).
  - apply Forall_cons in Hcs as [Hk' _]. change ((k :: k' :: cs) ++ c :: c2) with (k :: (k' :: cs) ++ c :: c2).
    rewrite (nals_of_cons buf k), (nals_of_cons (ztake _ _) k). cbn [app]. rewrite slice_prefix by lia.
    destruct (slice buf (data_start k) _); rb; [|done..]. cbn [app] in IH. rewrite IH.
    destruct (nals_of (ztake _ buf) (k' :: cs)); rb; [|done..]. by destruct (nals_of buf (c :: c2)).
Qed.

Definition shift (n : Z) (c : StartCode) : StartCode := {| prefix_start := n + prefix_start c; data_start := n + data_start c |}.

Lemma slice_shift {E} (a w : list Z) i j : 0 <= i -> slice (E:=E) (a ++ w) (zlen a + i) (zlen a + j) = slice w i j.
Proof.
  intros Hi. pose proof (zlen_nonneg a). unfold slice. rewrite zlen_app.
  rewrite !(proj2 (Z.leb_le 0 _)) by lia. cbn [andb].
  replace (zlen a + i <=? zlen a + j) with (i <=? j) by (destruct (Z.leb_spec i j), (Z.leb_spec (zlen a + i) (zlen a + j)); lia).
  replace (zlen a + j <=? zlen a + zlen w) with (j <=? zlen w) by (destruct (Z.leb_spec j (zlen w)), (Z.leb_spec (zlen a + j) (zlen a + zlen w)); lia).
  destruct (_ && _); [|done]. f_equal. replace (zlen a + j - (zlen a + i)) with (j - i) by lia. f_equal.
  rewrite <- (zdrop_app a w) at 2. by rewrite zdrop_zdrop by lia.
Qed.

Lemma nals_of_shift {E} a w cs : Forall (fun x => 0 <= data_start x) cs -> forall c c', 0 <= data_start c -> data_start c' = zlen a + data_start c ->
  nals_of (E:=E) (a ++ w) (c' :: map (shift (zlen a)) cs) = nals_of w (c :: cs).
Proof.
  induction 1 as [|k cs Hk _ IH]; intros c c' Hc Hc'; cbn [map nals_of]; rewrite Hc'.
  - by rewrite zlen_app, slice_shift.
  - cbn [shift prefix_start]. rewrite slice_shift by done. destruct (slice w _ _); rb; [|done..]. specialize (IH k (shift (zlen a) k) Hk eq_refl).
    cbn [nals_of] in IH. by rewrite IH.
Qed.

Lemma units_codes buf : nals_of (E:=Empty_set) buf (map (code_of buf) (code_ends buf 0)) = Ok (units buf).
Proof. pose proof (nals_units (E:=Empty_set) buf) as H. unfold nals in H. rewrite start_codes_ok in H. exact H. Qed.

Lemma code_end_pos buf e : e ∈ code_ends buf 0 -> 3 <= e <= zlen buf.
Proof. intros [_ He]%elem_of_code_ends; [|lia]. by apply code_end_range in He. Qed.

(** The code between two buffers starts where the stem of the first ends. *)
Lemma code_stem a b : let c := code_of (a ++ [0; 0; 1] ++ b) (zlen a + 3) in
  prefix_start c = zlen (stem a) /\ ztake (prefix_start c) (a ++ [0; 0; 1] ++ b) = stem a.
Proof.
  set (w := [0; 0; 1] ++ b). pose proof (zlen_nonneg a). unfold code_of. cbn [prefix_start].
  replace (zlen a + 3 - 4) with (zlen a - 1) by lia. rewrite get_app_l by lia. rewrite <- last_get.
  unfold stem. case_decide as Hl; cycle 1.
  - replace (zlen a + 3 - 3) with (zlen a) by lia. split; [done|apply ztake_app].
  - assert (0 < zlen a) by (destruct a; [done|rewrite zlen_cons; pose proof (zlen_nonneg a); lia]).
    replace (zlen a + 3 - 4) with (zlen a - 1) by lia. rewrite zlen_ztake by lia. split; [done|].
    unfold ztake. rewrite take_app_le; [done|]. unfold zlen. lia.
Qed.

(** The units of two buffers joined by a start code. *)
Lemma units_join a b : units (a ++ [0; 0; 1] ++ b) = units (stem a) ++ units ([0; 0; 1] ++ b).
Proof.
  set (w := [0; 0; 1] ++ b). pose proof (zlen_nonneg a). pose proof (zlen_nonneg b).
  assert (code_ends w 0 = 3 :: map (Z.add 3) (code_ends b 0)) as Hw by (etransitivity; [exact (code_ends_join [] b)|]; cbn; f_equal; by rewrite map_map).
  pose proof (units_codes (a ++ w)) as Hu. rewrite (code_ends_join a b : code_ends (a ++ w) 0 = _) in Hu. rewrite map_app in Hu. cbn [map] in Hu.
  set (c := code_of (a ++ w) (zlen a + 3)) in *.
  destruct (code_stem a b) as [Hp Hst]. fold w c in Hp, Hst.
  assert (zlen (stem a) <= zlen a) as Hs by (unfold stem; case_decide; [apply zlen_ztake_le|lia]).
  rewrite nals_of_app in Hu; cycle 1.
  { rewrite Hp, zlen_app. pose proof (zlen_nonneg (stem a)). unfold w. rewrite zlen_app. change (zlen [0; 0; 1]) with 3. lia. }
  { apply Forall_map, Forall_forall. intros e He%code_end_pos. rewrite Hp, code_of_l by lia. unfold code_of. cbn [prefix_start].
    assert (zlen a - 1 <= zlen (stem a)) by (unfold stem; case_decide; [rewrite zlen_ztake by lia|]; lia). case_decide; lia. }
  rewrite Hst in Hu.
  assert (map (code_of (a ++ w)) (code_ends a 0) = map (code_of (stem a)) (code_ends (stem a) 0)) as Hca.
  { rewrite stem_ends. apply map_ext_in. intros e He%list_elem_of_In%code_end_pos. rewrite code_of_l by lia.
    destruct (stem_cases a) as [(a' & -> & ->)|[_ ->]]; [|done]. rewrite zlen_app in He. change (zlen [0]) with 1 in He. by rewrite code_of_l by lia. }
  rewrite Hca, units_codes in Hu. rb.
  assert (nals_of (E:=Empty_set) (a ++ w) (c :: map (code_of (a ++ w)) (map (Z.add (zlen a)) (map (Z.add 3) (code_ends b 0)))) = Ok (units w)) as Hb.
  { rewrite <- (units_codes w), Hw. cbn [map]. rewrite <- (nals_of_shift a w _) with (c' := c) (c := code_of w 3); [|apply Forall_map, Forall_map, Forall_forall..| |].
    - f_equal. f_equal. rewrite !map_map. apply map_ext_in. intros e He%list_elem_of_In%code_end_pos. unfold shift, code_of. cbn [prefix_start data_start].
      rewrite (get_behind a w _ (3 + e - 4)) by lia. f_equal. case_decide; lia.
    - intros e He%code_end_pos. cbn. lia.
    - cbn. lia.
    - done. }
  rewrite Hb in Hu. rb. cbn [rbind] in Hu. by injection Hu as <-.
Qed.

Lemma units_plain s : plain s -> units ([0; 0; 1] ++ s) = [s].
Proof.
  intros Hs. assert (code_ends s 0 = []) as H0 by (apply code_ends_nil; intros d _; apply Hs).
  assert (code_ends ([0; 0; 1] ++ s) 0 = [3]) as Hw by (etransitivity; [exact (code_ends_join [] s)|]; by rewrite H0).
  pose proof (units_codes ([0; 0; 1] ++ s)) as Hu. rewrite Hw in Hu. cbn [map nals_of data_start code_of] in Hu.
  rewrite (slice_end [0; 0; 1] s) in Hu by (done || rewrite zlen_app; done). cbn in Hu. injection Hu as Hu. symmetry. exact Hu.
Qed.

Lemma units_none s : plain s -> units s = [].
Proof.
  intros Hs. pose proof (units_codes s) as Hu. rewrite (code_ends_nil s 0) in Hu by (intros d _; apply Hs). by injection Hu as <-.
Qed.

(** ** Taking a buffer apart *)

Lemma code_end_split s d : code_end s d -> s = ztake (d - 3) s ++ [0; 0; 1] ++ zdrop d s.
Proof.
  intros Hd. pose proof (code_end_range _ _ Hd) as Hr.
  assert (forall i x, 0 <= i -> get s i = Some x -> zdrop i s = x :: zdrop (i + 1) s) as Hstep.
  { intros i x Hi Hg. unfold get, zdrop in *. rewrite (proj2 (Z.ltb_ge i 0)) in Hg by lia. rewrite (drop_S _ x) by done. do 2 f_equal. lia. }
  assert (zdrop (d - 3) s = [0; 0; 1] ++ zdrop d s) as <-; [|by rewrite ztake_zdrop].
  destruct Hd as (H1 & H2 & H3). rewrite (Hstep _ 0) by (done || lia). replace (d - 3 + 1) with (d - 2) by lia.
  rewrite (Hstep _ 0) by (done || lia). replace (d - 2 + 1) with (d - 1) by lia. rewrite (Hstep _ 1) by (done || lia).
  by replace (d - 1 + 1) with d by lia.
Qed.

Lemma first_split s : plain s \/ exists a b, s = a ++ [0; 0; 1] ++ b /\ plain a.
Proof.
  pose proof (zlen_nonneg s). destruct (code_ends_cases s 0) as [H0|(d & Hd3 & Hd & Hc)]; [lia|by left| |].
  - left. intros d Hd. assert (d ∈ code_ends s 0) as Hin by (apply elem_of_code_ends; [lia|split; [by apply code_end_range in Hd; lia|done]]).
    rewrite H0 in Hin. by apply elem_of_nil in Hin.
  - right. pose proof (code_end_range _ _ Hd) as Hr. exists (ztake (d - 3) s), (zdrop d s).
    split; [by apply code_end_split|]. intros e He. pose proof (code_end_range _ _ He) as Her. rewrite zlen_ztake in Her by lia.
    assert (e ∈ code_ends s 0) as Hin.
    { apply elem_of_code_ends; [lia|]. split; [lia|]. rewrite <- (ztake_zdrop s (d - 3)). apply code_end_l; [rewrite zlen_ztake by lia; lia|done]. }
    rewrite Hc in Hin. apply elem_of_cons in Hin as [-> |Hin]; [lia|]. apply elem_of_code_ends in Hin; lia.
Qed.

Lemma plain_stem a : plain a -> plain (stem a).
Proof.
  intros Ha. destruct (stem_cases a) as [(b & -> & ->)|[_ ->]]; [|done]. intros e He. apply (Ha e). apply code_end_l; [|done].
  apply code_end_range in He. lia.
Qed.

Lemma stem_app a b : b <> [] -> stem (a ++ b) = a ++ stem b.
Proof.
  intros Hb. destruct (stem_cases b) as [(c & -> & ->)|[Hl ->]]; [by rewrite app_assoc, stem_zero|].
  apply stem_id. rewrite last_app. destruct (last b) eqn:He; [done|by apply last_None in He].
Qed.

Lemma units_step a b : plain a -> units ([0; 0; 1] ++ a ++ [0; 0; 1] ++ b) = stem a :: units ([0; 0; 1] ++ b).
Proof.
  intros Ha. rewrite app_assoc, units_join. f_equal.
  assert (stem ([0; 0; 1] ++ a) = [0; 0; 1] ++ stem a) as -> by (destruct a as [|x a]; [done|by apply stem_app]).
  rewrite units_plain by (by apply plain_stem). done.
Qed.

(** The units behind a start code, by induction on the bytes. *)
Lemma units_ind (P : list Z -> list (list Z) -> Prop) :
  (forall s, plain s -> P s [s]) ->
  (forall a b ns, plain a -> P b ns -> P (a ++ [0; 0; 1] ++ b) (stem a :: ns)) ->
  forall s, P s (units ([0; 0; 1] ++ s)).
Proof.
  intros H1 H2 s. remember (length s) as k eqn:Hk. revert s Hk. induction (lt_wf k) as [k _ IH]. intros s ->.
  destruct (first_split s) as [Hp|(a & b & -> & Ha)]; [rewrite units_plain by done; by apply H1|].
  rewrite units_step by done. apply H2; [done|]. apply (IH (length b)); [|done]. rewrite !length_app. cbn. lia.
Qed.

Lemma units_cases buf : units buf = [] \/ exists s, units buf = units ([0; 0; 1] ++ s) /\ zlen s + 3 <= zlen buf.
Proof.
  destruct (first_split buf) as [Hp|(a & b & -> & Ha)]; [left; by apply units_none|]. right. exists b. rewrite units_join.
  rewrite (units_none (stem a)) by (by apply plain_stem). split; [done|]. rewrite !zlen_app. pose proof (zlen_nonneg a). change (zlen [0; 0; 1]) with 3. lia.
Qed.

(** No unit holds a start code, and the units and their codes fit the buffer. *)
Lemma units_are_plain buf : Forall plain (units buf).
Proof.
  destruct (units_cases buf) as [-> |(s & -> & _)]; [constructor|]. apply (units_ind (fun _ ns => Forall plain ns)).
  - intros x Hx. by constructor.
  - intros a b ns Ha Hns. constructor; [by apply plain_stem|done].
Qed.

Definition total (ns : list (list Z)) : Z := foldr (fun n k => zlen n + 3 + k) 0 ns.

Lemma units_total buf : total (units buf) <= zlen buf.
Proof.
  pose proof (zlen_nonneg buf). destruct (units_cases buf) as [-> |(s & -> & Hs)]; [done|]. transitivity (zlen s + 3); [|done]. clear Hs.
  apply (units_ind (fun s ns => total ns <= zlen s + 3)).
  - intros x _. cbn. lia.
  - intros a b ns _ Hb. cbn [total foldr]. fold (total ns). rewrite !zlen_app. change (zlen [0; 0; 1]) with 3.
    assert (zlen (stem a) <= zlen a) by (unfold stem; case_decide; [apply zlen_ztake_le|lia]). lia.
Qed.

(** Units framed with four-byte codes are found again. *)
Lemma units_framed ns : Forall plain ns -> units (concat (map (fun n => [0; 0; 0; 1] ++ n) ns)) = ns.
Proof.
  intros Hns. destruct ns as [|n ns]; [by vm_compute|]. cbn [map concat].
  assert (forall n ns, Forall plain (n :: ns) -> units ([0; 0; 1] ++ n ++ concat (map (fun n => [0; 0; 0; 1] ++ n) ns)) = n :: ns) as Hgo.
  { clear. intros n ns. revert n. induction ns as [|m ns IH]; intros n [Hn Hns]%Forall_cons; cbn [map concat].
    - rewrite app_nil_r. by apply units_plain.
    - assert ([0; 0; 1] ++ n ++ ([0; 0; 0; 1] ++ m) ++ concat (map (fun n => [0; 0; 0; 1] ++ n) ns) =
        (([0; 0; 1] ++ n) ++ [0]) ++ [0; 0; 1] ++ m ++ concat (map (fun n => [0; 0; 0; 1] ++ n) ns)) as -> by (by rewrite <- !app_assoc).
      rewrite units_join, stem_zero, units_plain by done. cbn [app]. f_equal. by apply IH. }
  change (([0; 0; 0; 1] ++ n) ++ concat (map (fun n => [0; 0; 0; 1] ++ n) ns)) with ([0] ++ [0; 0; 1] ++ n ++ concat (map (fun n => [0; 0; 0; 1] ++ n) ns)).
  rewrite units_join, Hgo by done. assert (units (stem [0]) = []) as -> by (by vm_compute). done.
Qed.

(** ** Splicing a unit in *)

Lemma nals_of_length {E} buf codes : forall ns, nals_of (E:=E) buf codes = Ok ns -> length ns = length codes.
Proof.
  induction codes as [|c codes IH]; intros ns; cbn [nals_of]; [by intros [= <-]|].
  intros (n & _ & (t & Ht & [= <-])%rbind_ok)%rbind_ok. cbn. f_equal. by apply IH.
Qed.

Lemma units_length buf : length (units buf) = length (code_ends buf 0).
Proof. pose proof (units_codes buf) as H. apply nals_of_length in H. by rewrite length_map in H. Qed.

Lemma nodup_split (l1 l2 k1 k2 : list Z) d : NoDup (l1 ++ d :: l2) -> l1 ++ d :: l2 = k1 ++ d :: k2 -> l1 = k1.
Proof.
  revert k1. induction l1 as [|x l1 IH]; intros [|y k1] Hn He; cbn in *; [done| | |].
  - injection He as <- ->. apply NoDup_cons in Hn as [Hd _]. destruct Hd. apply elem_of_app. right. constructor.
  - injection He as -> _. apply NoDup_cons in Hn as [Hd _]. destruct Hd. apply elem_of_app. right. constructor.
  - injection He as -> He. f_equal. apply NoDup_cons in Hn as [_ Hn]. by apply IH.
Qed.

(** A trailing zero belongs to the last unit. *)
Lemma units_trailing s : last s = Some 0 -> exists ns m, units ([0; 0; 1] ++ s) = ns ++ [m] /\ last m = Some 0.
Proof.
  apply (units_ind (fun s us => last s = Some 0 -> exists ns m, us = ns ++ [m] /\ last m = Some 0)); clear s.
  - intros s _ Hs. by exists [], s.
  - intros a b us _ IH Hl. rewrite !last_app in Hl. destruct (last b) as [z|] eqn:Hb; [|done]. destruct (IH Hl) as (ns & m & -> & Hm).
    by exists (stem a :: ns), m.
Qed.

Lemma units_stem x : Forall (fun n => last n <> Some 0) (units x) -> units (stem x) = units x.
Proof.
  intros Hns. destruct (stem_cases x) as [(y & -> & ->)|[_ ->]]; [|done]. destruct (first_split (y ++ [0])) as [Hp|(a & b & He & Ha)].
  - rewrite (units_none (y ++ [0])) by done. apply units_none. pose proof (plain_stem _ Hp) as Hs. by rewrite stem_zero in Hs.
  - exfalso. rewrite He, units_join in Hns. apply Forall_app in Hns as [_ Hns].
    assert (last b = Some 0) as Hb.
    { pose proof (last_snoc 0 y) as Hl. rewrite He, !last_app in Hl. by destruct (last b). }
    destruct (units_trailing b Hb) as (ns & m & Hu & Hm). rewrite Hu in Hns. apply Forall_app in Hns as [_ Hns].
    by apply Forall_cons in Hns as [Hns _].
Qed.

(** A unit spliced in where a code starts stands between the units on its two
    sides; the units before it must not end in a zero, which a NAL unit never
    does. *)
Lemma units_splice buf d s pre post : code_end buf d -> plain s -> last s <> Some 0 ->
  units buf = pre ++ post -> length pre = length (code_ends (ztake (d - 3) buf) 0) -> Forall (fun n => last n <> Some 0) pre ->
  let at_ := prefix_start (code_of buf d) in
  0 <= at_ <= zlen buf /\ units (ztake at_ buf ++ [0; 0; 1] ++ s ++ zdrop at_ buf) = pre ++ s :: post.
Proof.
  intros Hd Hs Hls Hu Hpre Hz at_. pose proof (code_end_range _ _ Hd) as Hr. set (a := ztake (d - 3) buf) in *. set (b := zdrop d buf).
  assert (zlen a = d - 3) as Ha by (unfold a; rewrite zlen_ztake; lia).
  pose proof (code_end_split buf d Hd : buf = a ++ [0; 0; 1] ++ b) as Hb. destruct (code_stem a b) as [Hat Hst]. rewrite <- Hb, Ha in Hat, Hst.
  replace (d - 3 + 3) with d in Hat, Hst by lia. fold at_ in Hat, Hst. rewrite Hst.
  assert (exists k, a = stem a ++ k /\ (k = [] \/ k = [0])) as (k & Hk & Hk0).
  { destruct (stem_cases a) as [(y & -> & ->)|[_ ->]]; [by exists [0]; auto|exists []; rewrite app_nil_r; auto]. }
  assert (zdrop at_ buf = k ++ [0; 0; 1] ++ b) as ->.
  { rewrite Hb, Hk at 1. rewrite <- app_assoc, Hat. apply zdrop_app. }
  rewrite Hb, units_join in Hu. apply app_inj_1 in Hu as [Hu1 Hu2]; [|rewrite units_length, stem_ends; done].
  split.
  { rewrite Hat, Hb, !zlen_app, Hk, zlen_app. pose proof (zlen_nonneg (stem a)). pose proof (zlen_nonneg k). pose proof (zlen_nonneg b).
    change (zlen [0; 0; 1]) with 3. rewrite <- Hk. lia. }
  rewrite units_join, units_stem by (by rewrite Hu1). rewrite Hu1. f_equal.
  assert (plain (s ++ k) /\ stem (s ++ k) = s) as [Hsp Hss].
  { destruct Hk0 as [-> | ->]; [rewrite app_nil_r; split; [done|by apply stem_id]|]. split; [|apply stem_zero].
    intros e He. assert (e ∈ code_ends (s ++ [0]) 0) as Hin by (pose proof (zlen_nonneg s); apply elem_of_code_ends; [lia|]; split; [apply code_end_range in He; lia|done]).
    rewrite code_ends_zero in Hin. apply elem_of_code_ends in Hin as [_ Hin]; [|lia]. by apply (Hs e). }
  rewrite (app_assoc s k), units_step by done. by rewrite Hss, Hu2.
Qed.

End NalSplit.

(** * Length-prefixed framing *)
Module NalFraming.
Import MuxTypes AnnexB Nal NalSplit.

(** The errors of [CodecParseError] the conversion returns. *)
Inductive FramingError : Type :=
| InvalidLengthSize (got : Z)
| NalLengthOverflow (nal_len length_size : Z)
| BufferTooSmall (needed have : Z)
| Truncated (needed had : Z).

Definition max_encodable_len (length_size : Z) : res FramingError Z :=
  if length_size =? 1 then Ok 255
  else if length_size =? 2 then Ok u16_max
  else if length_size =? 4 then Ok u32_max
  else Err (InvalidLengthSize length_size).

Definition saturating_u32 (len : Z) : Z := Z.min len u32_max.

Definition length_prefixed_nal_len (nal : list Z) (length_size max_len : Z) : res FramingError Z :=
  if max_len <? zlen nal then Err (NalLengthOverflow (saturating_u32 (zlen nal)) length_size)
  else Ok (length_size + zlen nal).

Fixpoint sum_lens (ns : list (list Z)) (length_size max_len total : Z) : res FramingError Z :=
  match ns with
  | [] => Ok total
  | nal :: ns =>
      let! one := length_prefixed_nal_len nal length_size max_len in
      let! total := chk_u64 (total + one) in
      sum_lens ns length_size max_len total
  end.

Definition annexb_to_length_prefixed_len (annexb : list Z) (length_size : Z) : res FramingError Z :=
  let! max_len := max_encodable_len length_size in
  let! ns := nals annexb in
  sum_lens ns length_size max_len 0.

(** The length field of one NAL; [length_size] is 1, 2 or 4 here. *)
Definition length_field {E} (length_size len : Z) : res E (list Z) :=
  if length_size =? 1 then Ok [as_u8 len]
  else if length_size =? 2 then Ok (be16 (as_u16 len))
  else if length_size =? 4 then Ok (be32 len)
  else Panic.

Fixpoint write_loop (ns : list (list Z)) (length_size max_len written : Z) (out : list Z) : res FramingError (Z * list Z) :=
  match ns with
  | [] => Ok (written, out)
  | nal :: ns =>
      let! one := length_prefixed_nal_len nal length_size max_len in
      let! room := usub (zlen out) written in
      if room <? one then Err (BufferTooSmall (Z.min u64_max (written + one)) (zlen out))
      else
        let end_ := written + one in
        let! field := length_field length_size (as_u32 (zlen nal)) in
        let! out := put out written field in
        let! out := put out (written + length_size) nal in
        write_loop ns length_size max_len end_ out
  end.

Definition write_nals (annexb : list Z) (length_size : Z) (out : list Z) : res FramingError (Z * list Z) :=
  let! max_len := max_encodable_len length_size in
  let! ns := nals annexb in
  write_loop ns length_size max_len 0 out.

Definition annexb_to_length_prefixed (annexb : list Z) (length_size : Z) : res FramingError (list Z) :=
  let! needed := annexb_to_length_prefixed_len annexb length_size in
  let! r := write_nals annexb length_size (zrep needed 0) in
  Ok (snd r).

(** The bytes written and what the caller's buffer holds afterwards. *)
Definition annexb_to_length_prefixed_into (annexb : list Z) (length_size : Z) (out : list Z) : res FramingError (Z * list Z) :=
  let! needed := annexb_to_length_prefixed_len annexb length_size in
  if zlen out <? needed then Err (BufferTooSmall needed (zlen out))
  else
    let! head := slice out 0 needed in
    let! (written, head) := write_nals annexb length_size head in
    Ok (written, head ++ zdrop needed out).

Definition read_length_prefix {E} (prefix : list Z) : res E Z :=
  match prefix with
  | [a] => Ok a
  | [a; b] => Ok (from_be16 a b)
  | [a; b; c; d] => Ok (from_be32 a b c d)
  | _ => Panic
  end.

Fixpoint to_annexb_loop (fuel : nat) (data : list Z) (length_size pos : Z) (out : list Z) : res FramingError (list Z) :=
  match fuel with
  | O => Panic
  | S fuel =>
      if pos <? zlen data then
        let! remaining := usub (zlen data) pos in
        if remaining <? length_size then Err (Truncated (as_u32 length_size) (as_u32 remaining))
        else
          let! prefix := slice data pos (pos + length_size) in
          let! nal_len := read_length_prefix prefix in
          let pos := pos + length_size in
          let! remaining := usub (zlen data) pos in
          if remaining <? nal_len then Err (Truncated (as_u32 nal_len) (as_u32 remaining))
          else
            let! nal := slice data pos (pos + nal_len) in
            to_annexb_loop fuel data length_size (pos + nal_len) (out ++ [0; 0; 0; 1] ++ nal)
      else Ok out
  end.

Definition length_prefixed_to_annexb (data : list Z) (length_size : Z) : res FramingError (list Z) :=
  let! _ := max_encodable_len length_size in
  to_annexb_loop (S (length data)) data length_size 0 [].

Record ParameterSets : Type := { vps : list (list Z); sps : list (list Z); pps : list (list Z) }.

Definition classify_parameter_set (nal : list Z) (codec : VideoCodec) (sets : ParameterSets) : ParameterSets :=
  let add_sps := {| vps := vps sets; sps := sps sets ++ [nal]; pps := pps sets |} in
  let add_pps := {| vps := vps sets; sps := sps sets; pps := pps sets ++ [nal] |} in
  let add_vps := {| vps := vps sets ++ [nal]; sps := sps sets; pps := pps sets |} in
  match codec, nal_unit_type codec nal with
  | VideoH264, Some t => if t =? 7 then add_sps else if t =? 8 then add_pps else sets
  | VideoH265, Some t => if t =? 33 then add_sps else if t =? 34 then add_pps else if t =? 32 then add_vps else sets
  | _, _ => sets
  end.

Definition extract_parameter_sets {E} (annexb : list Z) (codec : VideoCodec) : res E ParameterSets :=
  let sets := {| vps := []; sps := []; pps := [] |} in
  match codec with
  | VideoH266 | MuxTypes.Av1 => Ok sets
  | VideoH264 | VideoH265 =>
      let! ns := nals annexb in
      Ok (foldl (fun sets nal => classify_parameter_set nal codec sets) sets ns)
  end.

(** ** What the conversion does *)

Definition width (length_size max_len : Z) : Prop :=
  (length_size = 1 /\ max_len = 255) \/ (length_size = 2 /\ max_len = u16_max) \/ (length_size = 4 /\ max_len = u32_max).

Lemma max_len_cases ls : (exists max, width ls max /\ max_encodable_len ls = Ok max) \/ max_encodable_len ls = Err (InvalidLengthSize ls).
Proof.
  unfold max_encodable_len, width. repeat ifs; b2p; subst; try (left; eexists; split; [|reflexivity]; tauto). by right.
Qed.

(** One NAL in the other framing. *)
Definition prefixed (ls : Z) (nal : list Z) : list Z :=
  (if ls =? 1 then [zlen nal] else if ls =? 2 then be16 (zlen nal) else be32 (zlen nal)) ++ nal.

Lemma field_ok {E} ls max n : width ls max -> 0 <= n <= max ->
  length_field (E:=E) ls (as_u32 n) = Ok (if ls =? 1 then [n] else if ls =? 2 then be16 n else be32 n) /\
  zlen (if ls =? 1 then [n] else if ls =? 2 then be16 n else be32 n) = ls /\
  read_length_prefix (E:=E) (if ls =? 1 then [n] else if ls =? 2 then be16 n else be32 n) = Ok n.
Proof.
  intros [[-> ->]|[[-> ->]|[-> ->]]] Hn; unfold u16_max, u32_max in Hn; unfold length_field, as_u32, as_u8, as_u16; cbn [Z.eqb Pos.eqb].
  - rewrite (Z.mod_small n (2 ^ 32)), Z.mod_small by lia. done.
  - rewrite (Z.mod_small n (2 ^ 32)), Z.mod_small by lia. split_and!; [done|done|]. unfold be16. cbn [read_length_prefix]. f_equal.
    pose proof (from_be16_be16 n ltac:(lia)) as H. unfold be16 in H. exact H.
  - rewrite (Z.mod_small n (2 ^ 32)) by lia. split_and!; [done|done|]. unfold be32. cbn [read_length_prefix]. f_equal.
    pose proof (from_be32_be32 n ltac:(lia)) as H. unfold be32 in H. exact H.
Qed.

(** The first unit the length field cannot hold. *)
Definition too_long (max : Z) (ns : list (list Z)) : option (list Z) := List.find (fun n => max <? zlen n) ns.

Definition converted (ls : Z) (ns : list (list Z)) : list Z := concat (map (prefixed ls) ns).

Lemma prefixed_len ls max n : width ls max -> zlen n <= max -> zlen (prefixed ls n) = ls + zlen n.
Proof.
  intros Hw Hn. pose proof (zlen_nonneg n). unfold prefixed. rewrite zlen_app. by destruct (field_ok (E:=Empty_set) ls max (zlen n) Hw) as (_ & -> & _).
Qed.

Lemma sum_ok ls max ns : width ls max -> forall t, 0 <= t -> t + 2 * total ns <= u64_max ->
  sum_lens ns ls max t =
  match too_long max ns with
  | Some n => Err (NalLengthOverflow (saturating_u32 (zlen n)) ls)
  | None => Ok (t + zlen (converted ls ns))
  end.
Proof.
  intros Hw. assert (1 <= ls <= 4) as Hls by (destruct Hw as [[-> _]|[[-> _]|[-> _]]]; lia).
  induction ns as [|n ns IH]; intros t Ht Hb; cbn [sum_lens too_long List.find total foldr] in *; [change (zlen (converted ls [])) with 0; by rewrite Z.add_0_r|].
  fold (total ns) in Hb. assert (0 <= total ns) by (clear; induction ns as [|n ns IH]; cbn; [done|]; pose proof (zlen_nonneg n); unfold total in IH; lia).
  pose proof (zlen_nonneg n). unfold length_prefixed_nal_len. destruct (Z.ltb_spec max (zlen n)); [done|]. rb.
  unfold chk_u64, checked. rewrite (proj2 (Z.leb_le _ _)), (proj2 (Z.ltb_lt _ _)) by (unfold u64_max in Hb; lia). rb.
  rewrite IH by lia. unfold too_long. destruct (List.find _ ns); [done|]. unfold converted. cbn [map concat].
  rewrite zlen_app, (prefixed_len ls max) by done. f_equal. lia.
Qed.

Lemma write_ok ls max ns : width ls max -> too_long max ns = None -> forall w k, zlen k = zlen (converted ls ns) ->
  write_loop ns ls max (zlen w) (w ++ k) = Ok (zlen w + zlen (converted ls ns), w ++ converted ls ns).
Proof.
  intros Hw. assert (1 <= ls <= 4) as Hls by (destruct Hw as [[-> _]|[[-> _]|[-> _]]]; lia).
  induction ns as [|n ns IH]; intros Hn w k Hk; cbn [write_loop too_long List.find] in *.
  { apply zlen_0 in Hk as ->. cbn. by rewrite Z.add_0_r. }
  destruct (Z.ltb_spec max (zlen n)) as [|Hmax]; [done|]. unfold converted in *. cbn [map concat] in *.
  pose proof (zlen_nonneg n). pose proof (zlen_nonneg w). pose proof (zlen_nonneg (concat (map (prefixed ls) ns))).
  rewrite zlen_app, (prefixed_len ls max) in Hk by done. unfold length_prefixed_nal_len. rewrite (proj2 (Z.ltb_ge _ _)) by lia. rb.
  unfold usub. rewrite zlen_app, (proj2 (Z.leb_le _ _)) by lia. rb. rewrite (proj2 (Z.ltb_ge _ _)) by lia.
  destruct (field_ok (E:=FramingError) ls max (zlen n) Hw) as (-> & Hfl & _); [lia|]. rb. set (f := if ls =? 1 then [zlen n] else _) in *.
  destruct (put_step (E:=FramingError) w k f (zlen w)) as (k1 & -> & Hk1); [done|lia|]. rb.
  destruct (put_step (E:=FramingError) (w ++ f) k1 n (zlen w + ls)) as (k2 & -> & Hk2); [rewrite zlen_app; lia|lia|]. rb.
  specialize (IH Hn ((w ++ f) ++ n) k2). rewrite !zlen_app in IH. replace (zlen w + (ls + zlen n)) with (zlen w + zlen f + zlen n) by lia.
  rewrite IH by lia. rewrite zlen_app, (prefixed_len ls max) by done.
  f_equal. f_equal; [lia|]. unfold prefixed at 2. fold f. by rewrite <- !app_assoc.
Qed.

Lemma loop_back ls max ns : width ls max -> too_long max ns = None -> forall fuel pre out, (length (converted ls ns) < fuel)%nat ->
  to_annexb_loop fuel (pre ++ converted ls ns) ls (zlen pre) out = Ok (out ++ concat (map (fun n => [0; 0; 0; 1] ++ n) ns)).
Proof.
  intros Hw. assert (1 <= ls <= 4) as Hls by (destruct Hw as [[-> _]|[[-> _]|[-> _]]]; lia).
  induction ns as [|n ns IH]; intros Hn fuel pre out Hf; cbn [too_long List.find] in *; (destruct fuel as [|fuel]; [lia|]); cbn [to_annexb_loop].
  { unfold converted. cbn [map concat]. rewrite !app_nil_r. by rewrite (proj2 (Z.ltb_ge _ _)) by lia. }
  destruct (Z.ltb_spec max (zlen n)) as [|Hmax]; [done|]. unfold converted in *. cbn [map concat] in *.
  pose proof (zlen_nonneg n). pose proof (zlen_nonneg pre). set (t := concat (map (prefixed ls) ns)) in *. pose proof (zlen_nonneg t).
  pose proof (prefixed_len ls max n Hw Hmax) as Hpl. unfold prefixed in *.
  destruct (field_ok (E:=FramingError) ls max (zlen n) Hw) as (_ & Hfl & Hrd); [lia|]. set (f := if ls =? 1 then [zlen n] else _) in *.
  rewrite !zlen_app in *. rewrite (proj2 (Z.ltb_lt _ _)) by lia. unfold usub. rewrite (proj2 (Z.leb_le _ _)) by lia. rb.
  rewrite (proj2 (Z.ltb_ge _ _)) by lia. rewrite <- !app_assoc.
  rewrite (slice_mid pre f (n ++ t)) by (done || lia). rb. rewrite Hrd. rb.
  rewrite (proj2 (Z.leb_le _ _)) by lia. rb. rewrite (proj2 (Z.ltb_ge _ _)) by lia.
  rewrite (slice_mid (pre ++ f) n t) by (rewrite ?zlen_app; (by rewrite <- !app_assoc) || lia). rb.
  assert (pre ++ f ++ n ++ t = (pre ++ f ++ n) ++ t) as -> by (by rewrite <- !app_assoc).
  replace (zlen pre + ls + zlen n) with (zlen (pre ++ f ++ n)) by (rewrite !zlen_app; lia).
  rewrite (IH Hn) by (rewrite !length_app in Hf; unfold zlen in *; lia). by rewrite <- !app_assoc.
Qed.

(** The conversion, on every branch. *)
Lemma conversion_exact annexb ls : zlen annexb <= i64_max ->
  annexb_to_length_prefixed annexb ls =
  match max_encodable_len ls with
  | Ok max =>
      match too_long max (units annexb) with
      | Some n => Err (NalLengthOverflow (saturating_u32 (zlen n)) ls)
      | None => Ok (converted ls (units annexb))
      end
  | Err e => Err e
  | Panic => Panic
  end.
Proof.
  intros Hl. unfold annexb_to_length_prefixed, annexb_to_length_prefixed_len. destruct (max_len_cases ls) as [(max & Hw & ->)| ->]; [|done]. rb.
  rewrite nals_units. rb. rewrite sum_ok; [|done|lia|].
  2:{ pose proof (units_total annexb). unfold i64_max, u64_max in *. lia. }
  destruct (too_long max (units annexb)) as [n|] eqn:Ht; rb; [done|]. rewrite Z.add_0_l. unfold write_nals.
  destruct (max_len_cases ls) as [(max' & Hw' & ->)|Hbad]; cycle 1.
  { destruct Hw as [[-> _]|[[-> _]|[-> _]]]; discriminate Hbad. }
  assert (max' = max) as -> by (unfold width in *; lia). rb. rewrite nals_units. rb.
  set (k := zrep _ 0). assert (zlen k = zlen (converted ls (units annexb))) as Hk by (unfold k; apply zlen_zrep; apply zlen_nonneg).
  pose proof (write_ok ls max (units annexb) Hw Ht [] k Hk) as Hwr. cbn [app] in Hwr. change (zlen []) with 0 in Hwr. by rewrite Hwr.
Qed.

(** The errors, the exact size and the caller's buffer agree in all three entry
    points: what the sizing pass refuses the others refuse with the same error,
    a buffer that is too small is refused with the size needed, and a large
    enough one gets the conversion with the bytes behind it untouched. *)
Theorem length_prefixed_into_exact (annexb : list Z) (ls : Z) (out : list Z) : zlen annexb <= i64_max ->
  match annexb_to_length_prefixed annexb ls with
  | Ok lp =>
      annexb_to_length_prefixed_len annexb ls = Ok (zlen lp) /\
      annexb_to_length_prefixed_into annexb ls out =
        (if zlen out <? zlen lp then Err (BufferTooSmall (zlen lp) (zlen out)) else Ok (zlen lp, lp ++ zdrop (zlen lp) out))
  | Err e => annexb_to_length_prefixed_len annexb ls = Err e /\ annexb_to_length_prefixed_into annexb ls out = Err e
  | Panic => False
  end.
Proof.
  intros Hl. rewrite conversion_exact by done. unfold annexb_to_length_prefixed_into, annexb_to_length_prefixed_len.
  destruct (max_len_cases ls) as [(max & Hw & Hmax)|Hmax]; rewrite Hmax; [|done]. rb. rewrite nals_units. rb.
  rewrite sum_ok; [|done|lia|pose proof (units_total annexb); unfold i64_max, u64_max in *; lia].
  destruct (too_long max (units annexb)) as [n|] eqn:Ht; rb; [done|]. rewrite Z.add_0_l. split; [done|].
  set (lp := converted ls (units annexb)). destruct (Z.ltb_spec (zlen out) (zlen lp)) as [|Ho]; [done|]. pose proof (zlen_nonneg lp).
  rewrite slice_ok by lia. rb. unfold write_nals. rewrite Hmax. rb. rewrite nals_units. rb. rewrite Z.sub_0_r, zdrop_0.
  pose proof (write_ok ls max (units annexb) Hw Ht [] (ztake (zlen lp) out)) as Hwr. cbn [app] in Hwr. change (zlen []) with 0 in Hwr.
  rewrite Hwr by (by rewrite zlen_ztake by lia). rb. done.
Qed.

(** C19: Annex-B to length-prefixed framing and back keeps every NAL unit: with a
    length field wide enough for the units, the length-prefixed form converts
    back to an Annex-B stream with exactly the same units (each behind a four-byte
    start code), which converts to the same length-prefixed bytes again. *)
Theorem nal_framing_roundtrip (annexb : list Z) (ls max : Z) :
  2 * zlen annexb <= i64_max -> max_encodable_len ls = Ok max -> Forall (fun n => zlen n <= max) (units annexb) ->
  exists lp ab, annexb_to_length_prefixed annexb ls = Ok lp /\ length_prefixed_to_annexb lp ls = Ok ab /\
    nals (E:=Empty_set) ab = nals annexb /\ annexb_to_length_prefixed ab ls = Ok lp.
Proof.
  intros Hl Hmax Hns. pose proof (zlen_nonneg annexb). destruct (max_len_cases ls) as [(max' & Hw & Hm)|Hm]; [|congruence].
  assert (max' = max) as -> by congruence. set (ns := units annexb) in *.
  assert (too_long max ns = None) as Ht.
  { unfold too_long. clear -Hns. induction Hns as [|n ns Hn _ IH]; [done|]. cbn. by rewrite (proj2 (Z.ltb_ge _ _)) by lia. }
  set (ab := concat (map (fun n => [0; 0; 0; 1] ++ n) ns)).
  assert (zlen ab <= 2 * total ns) as Hab.
  { unfold ab. clear. induction ns as [|n ns IH]; [done|]. cbn [map concat total foldr]. fold (total ns). rewrite !zlen_app. change (zlen [0; 0; 0; 1]) with 4.
    pose proof (zlen_nonneg n). lia. }
  pose proof (units_total annexb) as Htot. fold ns in Htot.
  assert (units ab = ns) as Hu by (apply units_framed, units_are_plain).
  exists (converted ls ns), ab. split_and!.
  - rewrite conversion_exact, Hmax by (unfold i64_max in *; lia). fold ns. by rewrite Ht.
  - unfold length_prefixed_to_annexb. rewrite Hmax. rb. apply (loop_back ls max ns Hw Ht (S (length (converted ls ns))) [] []). lia.
  - rewrite !nals_units. by rewrite Hu.
  - rewrite conversion_exact, Hmax by (unfold i64_max in *; lia). by rewrite Hu, Ht.
Qed.

Lemma nal_framing_roundtrip_witness : exists lp ab,
  annexb_to_length_prefixed [9; 0; 0; 1; 0x67; 1; 0; 0; 0; 1; 0x65; 2; 0] 2 = Ok lp /\ length_prefixed_to_annexb lp 2 = Ok ab /\
  nals (E:=Empty_set) ab = Ok [[0x67; 1]; [0x65; 2; 0]].
Proof.
  destruct (nal_framing_roundtrip [9; 0; 0; 1; 0x67; 1; 0; 0; 0; 1; 0x65; 2; 0] 2 u16_max) as (lp & ab & H1 & H2 & H3 & _);
    [by vm_compute|done|vm_compute; repeat constructor; discriminate|].
  exists lp, ab. split; [exact H1|]. split; [exact H2|]. rewrite H3. vm_compute. reflexivity.
Defined.

(** The parameter sets of an access unit, in order, by NAL type. *)
Lemma parameter_sets_exact {E} annexb codec : codec = VideoH264 \/ codec = VideoH265 ->
  let of_type t := List.filter (fun n => bool_decide (nal_unit_type codec n = Some t)) (units annexb) in
  extract_parameter_sets (E:=E) annexb codec = Ok (match codec with
    | VideoH264 => {| vps := []; sps := of_type 7; pps := of_type 8 |}
    | _ => {| vps := of_type 32; sps := of_type 33; pps := of_type 34 |}
    end).
Proof.
  intros Hc of_type. unfold extract_parameter_sets. rewrite nals_units. rb. unfold of_type.
  assert (forall ns s, foldl (fun sets nal => classify_parameter_set nal codec sets) s ns =
    let ty t := List.filter (fun n => bool_decide (nal_unit_type codec n = Some t)) ns in
    match codec with
    | VideoH264 => {| vps := vps s; sps := sps s ++ ty 7; pps := pps s ++ ty 8 |}
    | _ => {| vps := vps s ++ ty 32; sps := sps s ++ ty 33; pps := pps s ++ ty 34 |} end) as Hgo.
  { clear of_type. induction ns as [|n ns IH]; intros s.
    - destruct Hc as [-> | ->]; cbn; rewrite ?app_nil_r; by destruct s.
    - cbn [foldl]. rewrite IH. clear IH. cbv zeta. cbn [List.filter]. unfold classify_parameter_set.
      destruct Hc as [-> | ->]; destruct (nal_unit_type _ n) as [t|]; cbn [vps sps pps]; try done;
        repeat match goal with |- context [t =? ?k] => destruct (Z.eqb_spec t k); [subst|] end;
        repeat first [rewrite bool_decide_eq_true_2 by done|rewrite bool_decide_eq_false_2 by congruence]; cbn [vps sps pps]; by rewrite <- ?app_assoc. }
  by destruct Hc as [-> | ->]; rewrite Hgo.
Qed.

End NalFraming.
