(* ===== verification/MispTime.v ===== *)
(** ST 0604 time stamps in video: building the SEI unit, splicing it into an
    access unit and finding it again ([codec/misp_time.rs]). *)
From Stdlib Require Import ZArith Lia Bool.
From stdpp Require Import base list list_numbers.
From S2P Require Import Prelude.
From S2P Require Import PsiWriter.
From S2P Require Import AnnexB.
From S2P Require Import NalUnits.

Module MispTime.
Import MuxTypes AnnexB Nal.

Definition MISP_MICROSEC_ID_H264 : list Z :=
  [0x4D; 0x49; 0x53; 0x50; 0x6D; 0x69; 0x63; 0x72; 0x6F; 0x73; 0x65; 0x63; 0x74; 0x69; 0x6D; 0x65].
Definition MISP_MICROSEC_ID_H265 : list Z :=
  [0xa8; 0x68; 0x7d; 0xd4; 0xd7; 0x59; 0x37; 0x58; 0xa5; 0xce; 0xf0; 0x33; 0x8b; 0x65; 0x45; 0xf1].
Definition MISP_NANOSEC_ID_H265 : list Z :=
  [0xcf; 0x84; 0x82; 0x78; 0xee; 0x23; 0x30; 0x6c; 0x92; 0x65; 0xe8; 0xfe; 0xf2; 0x2f; 0xb8; 0xb8].

Inductive MispTimeKind : Type := Micro | Nano.

Record MispTimestamp : Type := { kind : MispTimeKind; time_status : Z; value : Z }.

Definition micros (value_us time_status : Z) : MispTimestamp := {| kind := Micro; time_status := time_status; value := value_us |}.
Definition nanos (value_ns time_status : Z) : MispTimestamp := {| kind := Nano; time_status := time_status; value := value_ns |}.

Inductive MispTimeError : Type :=
| NanoUnsupportedForCodec (codec : VideoCodec)
| UnsupportedCodec (codec : VideoCodec)
| NoVclNal.

Inductive MispTimeExtractError : Type := TruncatedSei | BadGuardByte.

Definition identifier_for (codec : VideoCodec) (kind : MispTimeKind) : res MispTimeError (list Z) :=
  match codec, kind with
  | VideoH264, Micro => Ok MISP_MICROSEC_ID_H264
  | VideoH264, Nano => Err (NanoUnsupportedForCodec codec)
  | VideoH265, Micro => Ok MISP_MICROSEC_ID_H265
  | VideoH265, Nano => Ok MISP_NANOSEC_ID_H265
  | VideoH266, _ | MuxTypes.Av1, _ => Err (UnsupportedCodec codec)
  end.

(** Byte [i] of [value.to_be_bytes()]. *)
Definition be_byte (v i : Z) : Z := Z.shiftr v (8 * (7 - i)) mod 256.

Definition sei_payload (codec : VideoCodec) (ts : MispTimestamp) : res MispTimeError (list Z) :=
  let! id := identifier_for codec (kind ts) in
  let v := be_byte (value ts) in
  Ok (id ++ [time_status ts; v 0; v 1; 0xFF; v 2; v 3; 0xFF; v 4; v 5; 0xFF; v 6; v 7]).

(** [append_rbsp_escaped]; the zero run never exceeds two. *)
Fixpoint escape_from (zeros : Z) (rbsp out : list Z) : list Z :=
  match rbsp with
  | [] => out
  | b :: rbsp =>
      let '(zeros, out) := if (2 <=? zeros) && (b <=? 0x03) then (0, out ++ [0x03]) else (zeros, out) in
      let out := out ++ [b] in
      escape_from (if b =? 0 then zeros + 1 else 0) rbsp out
  end.

Definition append_rbsp_escaped (out rbsp : list Z) : list Z := escape_from 0 rbsp out.

(** The [while n >= 255] loop and the byte behind it. *)
Fixpoint size_field {E} (fuel : nat) (n : Z) (rbsp : list Z) : res E (list Z) :=
  match fuel with
  | O => Panic
  | S fuel => if 255 <=? n then size_field fuel (n - 255) (rbsp ++ [0xFF]) else Ok (rbsp ++ [as_u8 n])
  end.

Definition build_user_data_unregistered_sei_nal (codec : VideoCodec) (uuid payload : list Z) : res MispTimeError (list Z) :=
  let! header :=
    match codec with
    | VideoH264 => Ok [0x06]
    | VideoH265 => Ok [0x4E; 0x01]
    | VideoH266 | MuxTypes.Av1 => Err (UnsupportedCodec codec)
    end in
  let size := zlen uuid + zlen payload in
  let! rbsp := size_field (S (Z.to_nat size)) size [0x05] in
  let rbsp := rbsp ++ uuid ++ payload ++ [0x80] in
  Ok (append_rbsp_escaped header rbsp).

Definition build_sei_nal (codec : VideoCodec) (ts : MispTimestamp) : res MispTimeError (list Z) :=
  let! payload := sei_payload codec ts in
  let! uuid := slice payload 0 16 in
  let! rest := slice payload 16 (zlen payload) in
  build_user_data_unregistered_sei_nal codec uuid rest.

(** The closure of [find_map] on one start code. *)
Definition vcl_at {E} (au : list Z) (codec : VideoCodec) (header : Z) (sc : StartCode) : res E (option Z) :=
  let! nal := slice au (data_start sc) (zlen au) in
  if zlen nal <? header then Ok None
  else
    match nal_unit_type codec nal with
    | None => Ok None
    | Some nal_type => Ok (if is_vcl codec nal_type then Some (prefix_start sc) else None)
    end.

Fixpoint find_vcl {E} (au : list Z) (codec : VideoCodec) (header : Z) (codes : list StartCode) : res E (option Z) :=
  match codes with
  | [] => Ok None
  | sc :: codes =>
      let! hit := vcl_at au codec header sc in
      match hit with Some at_ => Ok (Some at_) | None => find_vcl au codec header codes end
  end.

Definition first_vcl_prefix_offset {E} (au : list Z) (codec : VideoCodec) : res E (option Z) :=
  match codec with
  | VideoH264 | VideoH265 =>
      match header_len codec with
      | None => Ok None
      | Some header => let! codes := start_codes au in find_vcl au codec header codes
      end
  | _ => Ok None
  end.

Definition insert_sei_before_first_vcl (au sei_nal : list Z) (codec : VideoCodec) : res MispTimeError (list Z) :=
  let! o := first_vcl_prefix_offset au codec in
  match o with
  | None => Err NoVclNal
  | Some at_ =>
      let! front := slice au 0 at_ in
      let! back := slice au at_ (zlen au) in
      Ok (front ++ [0; 0; 1] ++ sei_nal ++ back)
  end.

(** ** Extraction *)

(** Removal of the escape bytes; the zero run is a [u32]. *)
Fixpoint unescape {E} (zeros : Z) (l rbsp : list Z) : res E (list Z) :=
  match l with
  | [] => Ok rbsp
  | b :: l =>
      if (2 <=? zeros) && (b =? 0x03) then unescape 0 l rbsp
      else
        let! zeros := (if b =? 0 then checked (2 ^ 32) (zeros + 1) else Ok 0) in
        unescape zeros l (rbsp ++ [b])
  end.

(** A value coded as a run of [0xFF] bytes and a last one: the value and the
    offset behind it, [None] at the end of the RBSP. *)
Fixpoint ff_coded {E} (fuel : nat) (rbsp : list Z) (p acc : Z) : res E (option (Z * Z)) :=
  match fuel with
  | O => Panic
  | S fuel =>
      match get rbsp p with
      | None => Ok None
      | Some b =>
          let acc := Z.min u64_max (acc + b) in
          if b =? 0xFF then ff_coded fuel rbsp (p + 1) acc else Ok (Some (acc, p + 1))
      end
  end.

Definition is_misp_id (id : list Z) : bool :=
  bool_decide (id = MISP_MICROSEC_ID_H264) || bool_decide (id = MISP_MICROSEC_ID_H265) || bool_decide (id = MISP_NANOSEC_ID_H265).

Definition kind_of_id (id : list Z) : option MispTimeKind :=
  if bool_decide (id = MISP_MICROSEC_ID_H264) || bool_decide (id = MISP_MICROSEC_ID_H265) then Some Micro
  else if bool_decide (id = MISP_NANOSEC_ID_H265) then Some Nano
  else None.

Definition from_be64 (a b c d e f g h : Z) : Z := from_be32 a b c d * 2 ^ 32 + from_be32 e f g h.

(** A matched message of type 5: the time stamp of its payload. *)
Definition read_timestamp (k : MispTimeKind) (payload : list Z) (payload_size : Z) : res MispTimeExtractError (option MispTimestamp) :=
  if payload_size <? 28 then Err TruncatedSei
  else
    let! g1 := idx payload 19 in
    let! g2 := (if g1 =? 0xFF then idx payload 22 else Ok 0) in
    let! g3 := (if g2 =? 0xFF then idx payload 25 else Ok 0) in
    if negb (g1 =? 0xFF) || negb (g2 =? 0xFF) || negb (g3 =? 0xFF) then Err BadGuardByte
    else
      let! v0 := idx payload 17 in let! v1 := idx payload 18 in let! v2 := idx payload 20 in let! v3 := idx payload 21 in
      let! v4 := idx payload 23 in let! v5 := idx payload 24 in let! v6 := idx payload 26 in let! v7 := idx payload 27 in
      let! status := idx payload 16 in
      Ok (Some {| kind := k; time_status := status; value := from_be64 v0 v1 v2 v3 v4 v5 v6 v7 |}).

(** The walk over the messages of an SEI unit. *)
Fixpoint sei_walk (fuel : nat) (rbsp : list Z) (p : Z) : res MispTimeExtractError (option MispTimestamp) :=
  match fuel with
  | O => Panic
  | S fuel =>
      let! t := ff_coded (S (length rbsp)) rbsp p 0 in
      match t with
      | None => Ok None
      | Some (payload_type, p) =>
          let! s := ff_coded (S (length rbsp)) rbsp p 0 in
          match s with
          | None => Ok None
          | Some (payload_size, p) =>
              let payload_end := Z.min u64_max (p + payload_size) in
              match get_range rbsp p payload_end with
              | None =>
                  if payload_type =? 5 then
                    match get_range rbsp p (Z.min u64_max (p + 16)) with
                    | Some head => if is_misp_id head then Err TruncatedSei else Ok None
                    | None => Ok None
                    end
                  else Ok None
              | Some payload =>
                  let! hit :=
                    (if (payload_type =? 5) && (16 <=? payload_size)
                     then let! id := slice payload 0 16 in Ok (kind_of_id id) else Ok None) in
                  match hit with
                  | Some k => read_timestamp k payload payload_size
                  | None =>
                      match get rbsp payload_end with
                      | None => Ok None
                      | Some b => if b =? 0x80 then Ok None else sei_walk fuel rbsp payload_end
                      end
                  end
              end
          end
      end
  end.

Definition scan_sei_nal (nal : list Z) (codec : VideoCodec) : res MispTimeExtractError (option MispTimestamp) :=
  let '(is_sei, header_len) :=
    match codec with
    | VideoH264 => (bool_decide (nal_unit_type codec nal = Some 6), 1)
    | VideoH265 => ((2 <=? zlen nal) &&
        (bool_decide (nal_unit_type codec nal = Some 39) || bool_decide (nal_unit_type codec nal = Some 40)), 2)
    | VideoH266 | MuxTypes.Av1 => (false, 0)
    end in
  if negb is_sei then Ok None
  else
    let! body := slice nal header_len (zlen nal) in
    let! rbsp := unescape 0 body [] in
    sei_walk (S (length rbsp)) rbsp 0.

(** The inner loop of [extract]: where the unit that starts at [end_] ends. *)
Fixpoint nal_end {E} (fuel : nat) (au : list Z) (end_ : Z) : res E Z :=
  match fuel with
  | O => Panic
  | S fuel =>
      if end_ + 3 <=? zlen au then
        let! b0 := idx au end_ in
        let! b1 := (if b0 =? 0 then idx au (end_ + 1) else Ok 1) in
        if (b0 =? 0) && (b1 =? 0) then
          let! b2 := idx au (end_ + 2) in
          let! code :=
            (if b2 =? 1 then Ok true
             else if (end_ + 4 <=? zlen au) && (b2 =? 0) then let! b3 := idx au (end_ + 3) in Ok (b3 =? 1) else Ok false) in
          if (code : bool) then Ok end_ else nal_end fuel au (end_ + 1)
        else nal_end fuel au (end_ + 1)
      else Ok (zlen au)
  end.

Fixpoint extract_loop (fuel : nat) (au : list Z) (codec : VideoCodec) (i : Z) : res MispTimeExtractError (option MispTimestamp) :=
  match fuel with
  | O => Panic
  | S fuel =>
      if i + 3 <=? zlen au then
        let! b0 := idx au i in
        let! b1 := (if b0 =? 0 then idx au (i + 1) else Ok 1) in
        if negb ((b0 =? 0) && (b1 =? 0)) then extract_loop fuel au codec (i + 1)
        else
          let! b2 := idx au (i + 2) in
          let! data_at :=
            (if b2 =? 1 then Ok (Some (i + 3))
             else if (i + 4 <=? zlen au) && (b2 =? 0)
                  then let! b3 := idx au (i + 3) in Ok (if b3 =? 1 then Some (i + 4) else None)
                  else Ok None) in
          match data_at with
          | None => extract_loop fuel au codec (i + 1)
          | Some data_at =>
              let! e := nal_end (S (length au)) au data_at in
              let! nal := slice au data_at e in
              let! found := scan_sei_nal nal codec in
              match found with
              | Some ts => Ok (Some ts)
              | None => extract_loop fuel au codec e
              end
          end
      else Ok None
  end.

Definition extract (au : list Z) (codec : VideoCodec) : res MispTimeExtractError (option MispTimestamp) :=
  extract_loop (S (length au)) au codec 0.

End MispTime.

(** * Extraction is a search of the NAL units *)
Module MispExtract.
Import MuxTypes AnnexB AnnexBScan AnnexBNals Nal NalSplit MispTime.

(** The first unit that has something to say. *)
Fixpoint search (codec : VideoCodec) (ns : list (list Z)) : res MispTimeExtractError (option MispTimestamp) :=
  match ns with
  | [] => Ok None
  | n :: ns => let! r := scan_sei_nal n codec in match r with Some ts => Ok (Some ts) | None => search codec ns end
  end.

(** The two walks of [extract] examine the bytes the way the shared scan does. *)
Lemma nal_end_next {E} fuel au : forall e,
  nal_end (E:=E) fuel au e = let! c := next_code fuel au e in Ok (match c with Some c => prefix_start c | None => zlen au end).
Proof.
  induction fuel as [|fuel IH]; intros e; [done|]. cbn [nal_end next_code]. destruct (e + 3 <=? zlen au); [|done].
  destruct (idx au e) as [b0| |]; rb; [|done..]. destruct (if b0 =? 0 then idx au (e + 1) else Ok 1) as [b1| |]; rb; [|done..].
  destruct ((b0 =? 0) && (b1 =? 0)); [|apply IH]. destruct (idx au (e + 2)) as [b2| |]; rb; [|done..].
  destruct (b2 =? 1); [done|]. rb. destruct ((e + 4 <=? zlen au) && (b2 =? 0)); rb; [|apply IH].
  destruct (idx au (e + 3)) as [b3| |]; rb; [|done..]. destruct (b3 =? 1); [done|apply IH].
Qed.

(** What [extract] does once it stands on a code. *)
Definition at_code (fuel : nat) (au : list Z) (codec : VideoCodec) (c : StartCode) : res MispTimeExtractError (option MispTimestamp) :=
  let! e := nal_end (S (length au)) au (data_start c) in
  let! nal := slice au (data_start c) e in
  let! found := scan_sei_nal nal codec in
  match found with Some ts => Ok (Some ts) | None => extract_loop fuel au codec e end.

Lemma next_code_range {E} fuel au : forall i c, next_code (E:=E) fuel au i = Ok (Some c) ->
  i <= prefix_start c < data_start c.
Proof.
  induction fuel as [|fuel IH]; intros i c; [done|]. cbn [next_code]. destruct (i + 3 <=? zlen au); [|done].
  intros (b0 & _ & (b1 & _ & H)%rbind_ok)%rbind_ok. destruct ((b0 =? 0) && (b1 =? 0)); [|apply IH in H; lia].
  apply rbind_ok in H as (b2 & _ & H). destruct (b2 =? 1); [injection H as <-; cbn; lia|].
  apply rbind_ok in H as ([] & _ & H); [injection H as <-; cbn; lia|apply IH in H; lia].
Qed.

Lemma extract_step fuel au codec : forall i,
  (next_code (E:=MispTimeExtractError) fuel au i = Ok None -> extract_loop fuel au codec i = Ok None) /\
  (forall c, next_code (E:=MispTimeExtractError) fuel au i = Ok (Some c) -> exists fuel', extract_loop fuel au codec i = at_code fuel' au codec c /\
    Z.of_nat fuel - 1 - (prefix_start c - i) <= Z.of_nat fuel').
Proof.
  induction fuel as [|fuel IH]; intros i; [done|]. cbn [extract_loop next_code]. destruct (i + 3 <=? zlen au); [|done].
  assert ((next_code (E:=MispTimeExtractError) fuel au (i + 1) = Ok None -> extract_loop fuel au codec (i + 1) = Ok None) /\
    (forall c, next_code (E:=MispTimeExtractError) fuel au (i + 1) = Ok (Some c) -> exists fuel', extract_loop fuel au codec (i + 1) = at_code fuel' au codec c /\
      Z.of_nat (S fuel) - 1 - (prefix_start c - i) <= Z.of_nat fuel')) as Hrec.
  { destruct (IH (i + 1)) as [H1 H2]. split; [done|]. intros c Hc. destruct (H2 c Hc) as (f & ? & ?). exists f. split; [done|lia]. }
  destruct (idx au i) as [b0| |]; rb; [|done..]. destruct (if b0 =? 0 then idx au (i + 1) else Ok 1) as [b1| |]; rb; [|done..].
  destruct ((b0 =? 0) && (b1 =? 0)); rb; [|done]. destruct (idx au (i + 2)) as [b2| |]; rb; [|done..].
  destruct (b2 =? 1); rb; [split; [done|]; intros c [= <-]; exists fuel; split; [done|cbn; lia]|].
  destruct ((i + 4 <=? zlen au) && (b2 =? 0)); rb; [|done]. destruct (idx au (i + 3)) as [b3| |]; rb; [|done..].
  destruct (b3 =? 1); [|done]. split; [done|]. intros c [= <-]. exists fuel. split; [done|cbn; lia].
Qed.

(** A walk that starts on the code found finds it again. *)
Lemma next_code_again {E} fuel au : forall i c, next_code (E:=E) fuel au i = Ok (Some c) ->
  forall fuel', next_code (E:=E) (S fuel') au (prefix_start c) = Ok (Some c).
Proof.
  induction fuel as [|fuel IH]; intros i c H fuel'; [done|]. cbn [next_code] in H. destruct (i + 3 <=? zlen au) eqn:H3; [|done].
  apply rbind_ok in H as (b0 & H0 & (b1 & H1 & H)%rbind_ok). destruct ((b0 =? 0) && (b1 =? 0)) eqn:H01; [|by eapply IH].
  apply rbind_ok in H as (b2 & H2 & H). destruct (b2 =? 1) eqn:E2.
  - injection H as <-. cbn [prefix_start next_code]. rewrite H3, H0. rb. rewrite H1. rb. rewrite H01, H2. rb. by rewrite E2.
  - apply rbind_ok in H as ([] & H4 & H); [|by eapply IH].
    injection H as <-. cbn [prefix_start next_code]. rewrite H3, H0. rb. rewrite H1. rb. rewrite H01, H2. rb. rewrite E2. by rewrite H4.
Qed.

Lemma next_code_fuel {E} fuel au i : 0 <= i <= zlen au -> zlen au - i < Z.of_nat fuel ->
  next_code (E:=E) fuel au i = next_code (E:=E) (S (length au)) au i.
Proof.
  intros Hi. remember (S (length au)) as g eqn:Hg. assert (zlen au - i < Z.of_nat g) as Hgb by (unfold zlen in *; lia). clear Hg.
  revert g i Hi Hgb. induction fuel as [|fuel IH]; intros g i Hi Hgb Hf; [lia|]. destruct g as [|g]; [lia|]. cbn [next_code].
  destruct (i + 3 <=? zlen au) eqn:H3; [|done]. b2p. assert (next_code (E:=E) fuel au (i + 1) = next_code g au (i + 1)) as -> by (apply IH; lia). done.
Qed.

Lemma extract_codes au codec : forall g pos codes ns, collect_codes (E:=MispTimeExtractError) g au pos = Ok codes ->
  nals_of (E:=MispTimeExtractError) au codes = Ok ns ->
  forall i fuel, 0 <= i <= zlen au -> zlen au - i < Z.of_nat fuel ->
  next_code (E:=MispTimeExtractError) (S (length au)) au i = next_code (S (length au)) au pos ->
  extract_loop fuel au codec i = search codec ns.
Proof.
  induction g as [|g IH]; intros pos codes ns Hc Hn i fuel Hi Hf Hsame; [done|]. cbn [collect_codes] in Hc.
  apply rbind_ok in Hc as (o & Ho & Hc). destruct (extract_step fuel au codec i) as [H0 H1]. rewrite next_code_fuel, Hsame, Ho in H0, H1 by done.
  destruct o as [c|]; [|injection Hc as <-; injection Hn as <-; by apply H0].
  destruct (H1 c eq_refl) as (f & -> & Hfl). clear H0 H1.
  apply rbind_ok in Hc as (rest & Hr & [= <-]). rewrite nals_of_cons in Hn. apply rbind_ok in Hn as (n & Hs & (ns' & Hn' & [= <-])%rbind_ok).
  rewrite Ho in Hsame. destruct (next_code_ok (E:=MispTimeExtractError) (S (length au)) au i) as (r & Hr' & Hfo); [done|unfold zlen; lia|].
  rewrite Hsame in Hr'. injection Hr' as <-. destruct Hfo as (Hd & Hid & _). apply code_end_range in Hd.
  pose proof (next_code_range _ _ _ _ Hsame) as Hpr.
  unfold at_code. rewrite nal_end_next. cbn [search].
  destruct g as [|g]; [done|]. pose proof Hr as Hr2. cbn [collect_codes] in Hr2. apply rbind_ok in Hr2 as (o2 & Ho2 & Hr2). rewrite Ho2. rb.
  assert (match o2 with Some c => prefix_start c | None => zlen au end = match rest with [] => zlen au | next :: _ => prefix_start next end) as Hend.
  { destruct o2 as [c2|]; [|by injection Hr2 as <-]. by apply rbind_ok in Hr2 as (? & _ & [= <-]). }
  rewrite Hend, Hs. rb. destruct (scan_sei_nal n codec) as [[ts|]| |]; rb; [done| |done..]. rewrite <- Hend.
  destruct (next_code_ok (E:=MispTimeExtractError) (S (length au)) au (data_start c)) as (r & Hr' & Hfo); [lia|unfold zlen in *; lia|].
  rewrite Ho2 in Hr'. injection Hr' as <-. destruct o2 as [c2|].
  - pose proof (next_code_range _ _ _ _ Ho2). destruct Hfo as (Hd2%code_end_range & _).
    apply (IH (data_start c) rest ns' Hr Hn'); [lia|lia|]. rewrite Ho2. by eapply next_code_again.
  - apply (IH (data_start c) rest ns' Hr Hn'); [lia|lia|]. rewrite Ho2. cbn [next_code]. by rewrite (proj2 (Z.leb_gt _ _)) by lia.
Qed.

(** [extract] gives what the first unit with a verdict says. *)
Lemma extract_is_search au codec : extract au codec = search codec (units au).
Proof.
  pose proof (nals_units (E:=MispTimeExtractError) au) as Hn. unfold nals in Hn. apply rbind_ok in Hn as (codes & Hc & Hn).
  unfold extract. pose proof (zlen_nonneg au). unfold start_codes in Hc.
  apply (extract_codes au codec _ 0 codes _ Hc Hn); [lia|unfold zlen in *; lia|done].
Qed.

(** ** Escaping *)

(** No code ends in [l] when [zr] zeros stand before it. *)
Fixpoint no_code (zr : Z) (l : list Z) : Prop :=
  match l with
  | [] => True
  | b :: l => ~ (2 <= zr /\ b = 1) /\ no_code (if b =? 0 then zr + 1 else 0) l
  end.

Lemma no_code_plain l : forall zr p, plain p -> 0 <= zr ->
  (get p (zlen p - 1) = Some 0 -> 1 <= zr) -> (get p (zlen p - 1) = Some 0 -> get p (zlen p - 2) = Some 0 -> 2 <= zr) ->
  no_code zr l -> plain (p ++ l).
Proof.
  induction l as [|b l IH]; intros zr p Hp Hz H1 H2 Hn; [by rewrite app_nil_r|]. destruct Hn as [Hb Hn].
  change (b :: l) with ([b] ++ l). rewrite app_assoc.
  assert (zlen (p ++ [b]) = zlen p + 1) as Hl by (by rewrite zlen_app).
  assert (get (p ++ [b]) (zlen (p ++ [b]) - 1) = Some b) as Hlast by (rewrite Hl; replace (zlen p + 1 - 1) with (zlen p) by lia; apply get_app_len).
  apply (IH (if b =? 0 then zr + 1 else 0)); [| |rewrite Hlast..|done].
  - intros d Hd. pose proof (code_end_range _ _ Hd) as Hr. rewrite Hl in Hr. destruct (decide (d <= zlen p)) as [Hle|Hgt].
    { apply (Hp d). by apply (code_end_l p [b]). }
    assert (d = zlen p + 1) as -> by lia. destruct Hd as (G3 & G2 & G1).
    replace (zlen p + 1 - 1) with (zlen p) in G1 by lia. rewrite get_app_len in G1. injection G1 as ->.
    rewrite get_app_l in G3, G2 by lia. apply Hb. split; [|done].
    apply H2; [by replace (zlen p - 1) with (zlen p + 1 - 2) by lia|by replace (zlen p - 2) with (zlen p + 1 - 3) by lia].
  - destruct (b =? 0); lia.
  - intros [= ->]. cbn. lia.
  - intros [= ->]. cbn [Z.eqb]. rewrite Hl. rewrite get_app_l by lia. replace (zlen p + 1 - 2) with (zlen p - 1) by lia. intros H. apply H1 in H. lia.
Qed.

Lemma run_range zr b : 0 <= zr <= 2 -> (2 <=? zr) && (b <=? 3) = false -> 0 <= (if b =? 0 then zr + 1 else 0) <= 2.
Proof. intros Hz He. destruct (Z.eqb_spec b 0) as [-> |]; [|lia]. destruct (Z.leb_spec 2 zr); [done|lia]. Qed.

Lemma esc_no_code l : forall zr, 0 <= zr <= 2 -> no_code zr (Av1Binding.esc zr l).
Proof.
  induction l as [|b l IH]; intros zr Hz; [done|]. cbn [Av1Binding.esc]. destruct ((2 <=? zr) && (b <=? 3)) eqn:He; cbn [no_code].
  - split; [lia|]. cbn [Z.eqb]. split; [lia|]. apply IH. destruct (b =? 0); lia.
  - split; [|by apply IH, run_range]. intros [Hz2 ->]. by rewrite (proj2 (Z.leb_le _ _)) in He by lia.
Qed.

Lemma escape_from_esc l : forall zr out, 0 <= zr <= 2 -> escape_from zr l out = out ++ Av1Binding.esc zr l.
Proof.
  induction l as [|b l IH]; intros zr out Hz; cbn [escape_from Av1Binding.esc]; [by rewrite app_nil_r|].
  destruct ((2 <=? zr) && (b <=? 3)) eqn:He.
  - rewrite IH by (destruct (b =? 0); lia). rewrite <- !app_assoc. cbn [app]. by destruct (b =? 0).
  - rewrite IH by (by apply run_range). by rewrite <- !app_assoc.
Qed.

Lemma unescape_esc {E} l : forall zr acc, 0 <= zr <= 2 -> unescape (E:=E) zr (Av1Binding.esc zr l) acc = Ok (acc ++ l).
Proof.
  induction l as [|b l IH]; intros zr acc Hz; cbn [unescape Av1Binding.esc]; [by rewrite app_nil_r|].
  destruct ((2 <=? zr) && (b <=? 3)) eqn:He; cbn [unescape].
  - apply andb_true_iff in He as [-> _]. cbn [Z.eqb Pos.eqb andb]. cbn [Z.leb Z.compare andb].
    assert ((if b =? 0 then checked (E:=E) (2 ^ 32) (0 + 1) else Ok 0) = Ok (if b =? 0 then 1 else 0)) as -> by (by destruct (b =? 0)). rb.
    rewrite IH by (destruct (b =? 0); lia). by rewrite <- app_assoc.
  - assert ((2 <=? zr) && (b =? 3) = false) as -> by (destruct (2 <=? zr); [|done]; cbn in *; b2p; by apply Z.eqb_neq; lia).
    assert ((if b =? 0 then checked (E:=E) (2 ^ 32) (zr + 1) else Ok 0) = Ok (if b =? 0 then zr + 1 else 0)) as ->.
    { destruct (b =? 0); [|done]. unfold checked. by rewrite (proj2 (Z.leb_le _ _)), (proj2 (Z.ltb_lt _ _)) by lia. }
    rb. rewrite IH by (by apply run_range). by rewrite <- app_assoc.
Qed.

Lemma esc_last l k : forall zr, last (Av1Binding.esc zr (l ++ [k])) = Some k.
Proof.
  induction l as [|b l IH]; intros zr; cbn [app Av1Binding.esc].
  - by destruct ((2 <=? zr) && (k <=? 3)).
  - destruct ((2 <=? zr) && (b <=? 3)); rewrite !last_cons, IH; done.
Qed.

(** ** The time-stamp unit *)

Lemma from_be64_bytes v : 0 <= v < 2 ^ 64 ->
  from_be64 (be_byte v 0) (be_byte v 1) (be_byte v 2) (be_byte v 3) (be_byte v 4) (be_byte v 5) (be_byte v 6) (be_byte v 7) = v.
Proof.
  intros Hv. unfold from_be64, be_byte. change (8 * (7 - 0)) with 56. change (8 * (7 - 1)) with 48. change (8 * (7 - 2)) with 40.
  change (8 * (7 - 3)) with 32. change (8 * (7 - 4)) with 24. change (8 * (7 - 5)) with 16. change (8 * (7 - 6)) with 8. change (8 * (7 - 7)) with 0.
  pose proof (from_be32_be32 (Z.shiftr v 32)) as Hh. pose proof (from_be32_be32 (v mod 2 ^ 32)) as Hl.
  rewrite !Z.shiftr_shiftr in Hh by lia. change (32 + 24) with 56 in Hh. change (32 + 16) with 48 in Hh. change (32 + 8) with 40 in Hh.
  assert (forall n, 0 <= n <= 24 -> Z.shiftr (v mod 2 ^ 32) n mod 256 = Z.shiftr v n mod 256) as Hm.
  { intros n Hn. apply Z.bits_inj'. intros i Hi. change 256 with (2 ^ 8). destruct (decide (i < 8)).
    - rewrite !Z.mod_pow2_bits_low, !Z.shiftr_spec by lia. apply Z.mod_pow2_bits_low. lia.
    - by rewrite !Z.mod_pow2_bits_high by lia. }
  rewrite !Hm in Hl by lia. pose proof (Hm 0 ltac:(lia)) as H0. rewrite !Z.shiftr_0_r in H0. rewrite H0 in Hl. rewrite Z.shiftr_0_r.
  rewrite Hh, Hl by (rewrite ?shiftr_div by lia; pose proof (Z.mod_pos_bound v (2 ^ 32)); split; try apply Z.div_pos; try apply Z.div_lt_upper_bound; lia).
  rewrite shiftr_div by lia. pose proof (Z.div_mod v (2 ^ 32)). lia.
Qed.

Definition sei_header (codec : VideoCodec) : list Z := match codec with VideoH264 => [0x06] | _ => [0x4E; 0x01] end.

(** The RBSP of the unit: one message of type 5 and 28 bytes. *)
Definition sei_rbsp (id : list Z) (ts : MispTimestamp) : list Z :=
  let v := be_byte (value ts) in
  [5; 28] ++ id ++ [time_status ts; v 0; v 1; 0xFF; v 2; v 3; 0xFF; v 4; v 5; 0xFF; v 6; v 7] ++ [0x80].

Definition supported (codec : VideoCodec) (ts : MispTimestamp) : Prop :=
  (codec = VideoH264 /\ kind ts = Micro) \/ codec = VideoH265.

Lemma build_ok codec ts : supported codec ts -> exists id, identifier_for codec (kind ts) = Ok id /\
  zlen id = 16 /\ kind_of_id id = Some (kind ts) /\
  build_sei_nal codec ts = Ok (sei_header codec ++ Av1Binding.esc 0 (sei_rbsp id ts)).
Proof.
  intros Hs. assert (exists id, identifier_for codec (kind ts) = Ok id /\ length id = 16%nat /\ kind_of_id id = Some (kind ts)) as (id & Hid & Hl & Hk).
  { destruct Hs as [[-> ->]| ->]; [by eexists|]. destruct (kind ts); by eexists. }
  exists id. split; [done|]. split; [unfold zlen; by rewrite Hl|]. split; [done|]. unfold build_sei_nal, sei_payload. rewrite Hid. rb.
  set (v := be_byte (value ts)). set (tl := [_; _; _; _; _; _; _; _; _; _; _; _]).
  assert (zlen id = 16) as Hz by (unfold zlen; by rewrite Hl). rewrite zlen_app, Hz. change (zlen tl) with 12.
  rewrite (slice_mid [] id tl) by (done || rewrite Hz; done). rb. rewrite (slice_end id tl) by (rewrite ?Hz; done). rb.
  unfold build_user_data_unregistered_sei_nal. rewrite Hz. change (zlen tl) with 12.
  assert (size_field (E:=MispTimeError) (S (Z.to_nat (16 + 12))) (16 + 12) [5] = Ok [5; 28]) as -> by reflexivity.
  unfold append_rbsp_escaped. destruct Hs as [[-> _]| ->]; rb; by rewrite escape_from_esc by lia.
Qed.

Lemma sei_walk_ok id ts : length id = 16%nat -> kind_of_id id = Some (kind ts) -> 0 <= value ts < 2 ^ 64 ->
  sei_walk (S (length (sei_rbsp id ts))) (sei_rbsp id ts) 0 = Ok (Some ts).
Proof.
  intros Hl Hk Hv. pose proof (from_be64_bytes (value ts) Hv) as Hb. unfold sei_rbsp in *. set (v := be_byte (value ts)) in *.
  do 16 (destruct id as [|? id]; [done|]). destruct id; [|done]. cbn [app]. set (id := [z; _; _; _; _; _; _; _; _; _; _; _; _; _; _; _]) in *.
  match goal with |- sei_walk _ ?r _ = _ => set (R := r) end. set (P := ztake 28 (zdrop 2 R)). cbn [sei_walk].
  assert (ff_coded (E:=MispTimeExtractError) (S (length R)) R 0 0 = Ok (Some (5, 1))) as -> by reflexivity. rb.
  assert (ff_coded (E:=MispTimeExtractError) (S (length R)) R 1 0 = Ok (Some (28, 2))) as -> by reflexivity. rb.
  assert (get_range R 2 (Z.min u64_max (2 + 28)) = Some P) as -> by reflexivity.
  assert (slice (E:=MispTimeExtractError) P 0 16 = Ok id) as -> by reflexivity. cbn [Z.eqb Pos.eqb Z.leb Z.compare Pos.compare Pos.compare_cont andb rbind].
  rewrite Hk. transitivity (Ok (E:=MispTimeExtractError) (Some {| kind := kind ts; time_status := time_status ts;
    value := from_be64 (v 0) (v 1) (v 2) (v 3) (v 4) (v 5) (v 6) (v 7) |})); [reflexivity|]. rewrite Hb. by destruct ts.
Qed.

(** The unit built for a time stamp is read back as that time stamp. *)
Lemma scan_built codec ts nal : 0 <= value ts < 2 ^ 64 -> build_sei_nal codec ts = Ok nal -> supported codec ts ->
  scan_sei_nal nal codec = Ok (Some ts).
Proof.
  intros Hv Hb Hs. destruct (build_ok codec ts Hs) as (id & _ & Hl & Hk & Hb'). assert (nal = sei_header codec ++ Av1Binding.esc 0 (sei_rbsp id ts)) as -> by congruence.
  pose proof (unescape_esc (E:=MispTimeExtractError) (sei_rbsp id ts) 0 [] ltac:(lia)) as Hu. set (e := Av1Binding.esc 0 (sei_rbsp id ts)) in *.
  pose proof (zlen_nonneg e). assert (length id = 16%nat) as Hl' by (apply Nat2Z.inj; exact Hl).
  assert (forall h (w : res MispTimeExtractError (option MispTimestamp)), w = (let! body := slice (h ++ e) (zlen h) (zlen (h ++ e)) in
    let! rbsp := unescape 0 body [] in sei_walk (S (length rbsp)) rbsp 0) -> w = Ok (Some ts)) as Hbody.
  { intros h w ->. rewrite (slice_end h e) by (rewrite ?zlen_app; done). rb. rewrite Hu. rb. cbn [app]. by apply sei_walk_ok. }
  destruct Hs as [[-> _]| ->]; unfold scan_sei_nal, sei_header.
  - rewrite bool_decide_eq_true_2 by done. cbn [negb]. by apply (Hbody [6]).
  - assert ((2 <=? zlen ([78; 1] ++ e)) = true) as -> by (apply Z.leb_le; rewrite zlen_app; change (zlen [78; 1]) with 2; lia).
    rewrite (bool_decide_eq_true_2 (nal_unit_type _ _ = Some 39)) by done. cbn [negb andb orb].
    by apply (Hbody [78; 1]).
Qed.

Lemma built_plain codec ts nal : build_sei_nal codec ts = Ok nal -> supported codec ts -> plain nal /\ last nal = Some 0x80 /\ 
  nal_unit_type codec nal = Some (match codec with VideoH264 => 6 | _ => 39 end).
Proof.
  intros Hb Hs. destruct (build_ok codec ts Hs) as (id & _ & Hl & Hk & Hb'). assert (nal = sei_header codec ++ Av1Binding.esc 0 (sei_rbsp id ts)) as -> by congruence.
  split_and!.
  - apply (no_code_plain _ 0); [|lia|by destruct Hs as [[-> _]| ->]..|apply esc_no_code; lia].
    intros d (H1 & H2 & H3). assert (zlen (sei_header codec) <= 2) as Hlen by (destruct Hs as [[-> _]| ->]; done).
    apply get_Some in H1, H3. lia.
  - rewrite last_app. unfold sei_rbsp. rewrite !app_assoc. by rewrite esc_last.
  - by destruct Hs as [[-> _]| ->].
Qed.

(** ** Splicing *)

Definition vcl_unit (codec : VideoCodec) (n : list Z) : Prop :=
  match nal_unit_type codec n with Some t => is_vcl codec t = true | None => False end.

Definition spliceable (codec : VideoCodec) : Prop := codec = VideoH264 \/ codec = VideoH265.

(** What the code sees behind a start code is the unit there, unless the unit is empty. *)
Lemma vcl_at_unit {E} au codec header c e n : spliceable codec -> header_len codec = Some header ->
  slice (E:=E) au (data_start c) e = Ok n -> n <> [] ->
  (~ vcl_unit codec n -> vcl_at (E:=E) au codec header c = Ok None) /\
  (vcl_unit codec n -> header <= zlen n -> vcl_at (E:=E) au codec header c = Ok (Some (prefix_start c))).
Proof.
  intros Hc Hh (Hd0 & Hde & Hel & Hn)%slice_Ok Hne. unfold vcl_at. rewrite slice_ok by lia. rb.
  set (r := ztake (zlen au - data_start c) (zdrop (data_start c) au)).
  assert (zlen n = e - data_start c) as Hln by (rewrite Hn, zlen_ztake; [done|rewrite zlen_zdrop; lia]).
  assert (zlen r = zlen au - data_start c) as Hlr by (unfold r; rewrite zlen_ztake; [done|rewrite zlen_zdrop; lia]).
  assert (0 < zlen n) as Hpos by (destruct n; [done|rewrite zlen_cons; pose proof (zlen_nonneg n); lia]).
  assert (nal_unit_type codec r = nal_unit_type codec n) as Ht.
  { assert (get r 0 = get n 0) as Hg by (unfold r; rewrite Hn, !get_ztake by lia; done).
    by destruct Hc as [-> | ->]; cbn [nal_unit_type]; rewrite Hg. }
  rewrite Ht. unfold vcl_unit. destruct (zlen r <? header) eqn:Hs; b2p; (split; [|intros Hv ?; try lia]).
  - done.
  - destruct (nal_unit_type codec n) as [t|]; [|done]. intros Hv. by destruct (is_vcl codec t).
  - destruct (nal_unit_type codec n) as [t|]; [|done]. by rewrite Hv.
Qed.

Lemma find_vcl_unit {E} au codec header v post : spliceable codec -> header_len codec = Some header ->
  vcl_unit codec v -> header <= zlen v -> forall pre codes, nals_of (E:=E) au codes = Ok (pre ++ v :: post) ->
  Forall (fun n => n <> [] /\ ~ vcl_unit codec n) pre ->
  exists c1 c c2, codes = c1 ++ c :: c2 /\ length c1 = length pre /\ find_vcl (E:=E) au codec header codes = Ok (Some (prefix_start c)).
Proof.
  intros Hc Hh Hv Hl. assert (v <> []) as Hvn by (intros ->; destruct Hc as [-> | ->]; done).
  induction pre as [|n pre IH]; intros codes Hn Hpre; (destruct codes as [|c codes]; [done|]); rewrite nals_of_cons in Hn;
    apply rbind_ok in Hn as (n' & Hs & (ns' & Hn' & He)%rbind_ok); injection He as -> ->; cbn [find_vcl].
  - exists [], c, codes. split; [done|]. split; [done|]. destruct (vcl_at_unit (E:=E) au codec header c _ _ Hc Hh Hs Hvn) as [_ H2].
    by rewrite H2.
  - apply Forall_cons in Hpre as [[Hne Hnv] Hpre]. destruct (vcl_at_unit (E:=E) au codec header c _ _ Hc Hh Hs Hne) as [H1 _].
    rewrite H1 by done. rb. destruct (IH codes Hn' Hpre) as (c1 & c' & c2 & -> & Hlen & Hf). exists (c :: c1), c', c2. cbn. by rewrite Hlen.
Qed.

Lemma code_ends_before buf c1 d c2 : code_ends buf 0 = c1 ++ d :: c2 -> code_end buf d /\ code_ends (ztake (d - 3) buf) 0 = c1.
Proof.
  intros He. assert (NoDup (code_ends buf 0)) as Hnd by (apply NoDup_filter, NoDup_seqZ).
  assert (code_end buf d) as Hd.
  { assert (d ∈ code_ends buf 0) as Hin by (rewrite He; apply elem_of_app; right; constructor). by apply elem_of_code_ends in Hin as [_ ?]; [|lia]. }
  split; [done|]. pose proof (code_end_range _ _ Hd) as Hr. pose proof (code_end_split buf d Hd) as Hb.
  pose proof (code_ends_join (ztake (d - 3) buf) (zdrop d buf)) as Hj. cbv zeta in Hj. rewrite <- Hb in Hj. cbn [map] in Hj.
  rewrite zlen_ztake in Hj by lia. replace (d - 3 + 3) with d in Hj by lia.
  eapply nodup_split; [by rewrite <- Hj|]. by rewrite <- Hj.
Qed.

(** Bytes spliced in behind a code or at the front leave the buffer opening with a code. *)
Lemma opening_kept au p rest d tail : prefix p -> au = p ++ rest -> code_end au d ->
  exists p' rest', prefix p' /\ ztake (prefix_start (code_of au d)) au ++ [0; 0; 1] ++ tail = p' ++ rest'.
Proof.
  intros Hp Hau Hd. assert (code_end au (zlen p)) as Hd0 by (rewrite Hau; by destruct Hp as [-> | ->]).
  pose proof (code_end_range _ _ Hd) as Hr. pose proof (code_end_range _ _ Hd0) as Hr0.
  assert (zlen p <= 4) as Hp4 by (by destruct Hp as [-> | ->]).
  destruct (Z.lt_trichotomy d (zlen p)) as [Hlt|[He|Hgt]].
  - pose proof (code_end_gap _ _ _ Hd Hd0 Hlt). lia.
  - assert (prefix_start (code_of au d) = 0) as ->.
    { rewrite He, Hau. unfold code_of. cbn [prefix_start]. by destruct Hp as [-> | ->]. }
    exists [0; 0; 1], tail. split; [by left|done].
  - destruct (code_bytes au (zlen p) d) as [Ha _]; [lia|by right|by apply (code_end_gap au)|done|]. set (a := prefix_start _) in *.
    exists p. eexists. split; [done|]. rewrite Hau. unfold ztake. rewrite take_app_ge by (unfold zlen in Ha; lia). by rewrite <- app_assoc.
Qed.

(** The SEI unit lands right before the first VCL unit. *)
Lemma insert_sei_ok au codec header sei pre v post : spliceable codec -> header_len codec = Some header ->
  plain sei -> last sei <> Some 0 ->
  units au = pre ++ v :: post -> Forall (fun n => n <> [] /\ last n <> Some 0 /\ ~ vcl_unit codec n) pre ->
  vcl_unit codec v -> header <= zlen v ->
  exists out, insert_sei_before_first_vcl au sei codec = Ok out /\ units out = pre ++ sei :: v :: post /\
    zlen out = zlen au + 3 + zlen sei /\ (bytes au -> bytes sei -> bytes out) /\
    ((exists p rest, prefix p /\ au = p ++ rest) -> exists p rest, prefix p /\ out = p ++ rest).
Proof.
  intros Hc Hh Hsp Hsl Hu Hpre Hv Hl. unfold insert_sei_before_first_vcl, first_vcl_prefix_offset.
  assert (match codec with VideoH264 | VideoH265 => match header_len codec with None => Ok None
    | Some header => let! codes := start_codes au in find_vcl au codec header codes end | _ => Ok None end =
    (let! codes := start_codes (E:=MispTimeError) au in find_vcl au codec header codes)) as -> by (rewrite Hh; by destruct Hc as [-> | ->]).
  rewrite start_codes_ok. rb. pose proof (nals_units (E:=MispTimeError) au) as Hn. unfold nals in Hn. rewrite start_codes_ok, Hu in Hn. cbn [rbind] in Hn.
  destruct (find_vcl_unit au codec header v post Hc Hh Hv Hl pre _ Hn) as (k1 & c & k2 & Hk & Hlen & ->).
  { eapply Forall_impl; [exact Hpre|]. by intros x (? & ? & ?). }
  rb. apply map_eq_app in Hk as (c1 & c2' & Hce & <- & Hk2). destruct c2' as [|d c2]; [done|]. injection Hk2 as <- _.
  destruct (code_ends_before au c1 d c2 Hce) as [Hd Hbef].
  destruct (units_splice au d sei pre (v :: post)) as [Hat Hout]; try done.
  { rewrite Hbef. by rewrite length_map in Hlen. }
  { eapply Forall_impl; [exact Hpre|]. by intros x (? & ? & ?). }
  set (at_ := prefix_start (code_of au d)) in *. rewrite slice_ok by lia. rb. rewrite slice_ok by lia. rb. eexists. split; [done|].
  rewrite Z.sub_0_r, zdrop_0. assert (ztake (zlen au - at_) (zdrop at_ au) = zdrop at_ au) as ->.
  { apply ztake_all. rewrite zlen_zdrop; lia. }
  split; [done|]. split; [rewrite !zlen_app, zlen_ztake, zlen_zdrop by lia; change (zlen [0; 0; 1]) with 3; lia|]. split.
  - intros Hba Hbs. repeat (apply bytes_app; split); [by apply bytes_take|repeat constructor; lia|done|by apply bytes_drop].
  - intros (p & rest & Hp & Hau). by apply (opening_kept au p rest d).
Qed.

Lemma search_app codec ns ms : Forall (fun n => scan_sei_nal n codec = Ok None) ns -> search codec (ns ++ ms) = search codec ms.
Proof. induction 1 as [|n ns Hn _ IH]; [done|]. cbn [app search]. rewrite Hn. exact IH. Qed.

(** The errors of the splice: nothing to splice before. *)
Lemma insert_none au codec sei : spliceable codec -> Forall (fun n => n <> [] /\ ~ vcl_unit codec n) (units au) ->
  insert_sei_before_first_vcl au sei codec = Err NoVclNal.
Proof.
  intros Hc Hu. unfold insert_sei_before_first_vcl, first_vcl_prefix_offset.
  assert (exists header, header_len codec = Some header) as (header & Hh) by (destruct Hc as [-> | ->]; by eexists).
  assert (find_vcl au codec header (map (code_of au) (code_ends au 0)) = Ok (E:=MispTimeError) None) as Hf.
  { pose proof (nals_units (E:=MispTimeError) au) as Hn. unfold nals in Hn. rewrite start_codes_ok in Hn. cbn [rbind] in Hn.
    revert Hn Hu. generalize (units au), (map (code_of au) (code_ends au 0)). clear -Hc Hh. intros ns codes. revert ns.
    induction codes as [|c codes IH]; intros ns Hn Hu; [done|]. rewrite nals_of_cons in Hn.
    apply rbind_ok in Hn as (n & Hs & (ns' & Hn' & [= <-])%rbind_ok). apply Forall_cons in Hu as [[Hne Hv] Hu]. cbn [find_vcl].
    destruct (vcl_at_unit (E:=MispTimeError) au codec header c _ _ Hc Hh Hs Hne) as [H1 _]. rewrite H1 by done. rb. by apply (IH ns'). }
  assert (first_vcl_prefix_offset (E:=MispTimeError) au codec = Ok None) as Ho.
  { unfold first_vcl_prefix_offset. rewrite Hh, start_codes_ok. rb. rewrite Hf. by destruct Hc as [-> | ->]. }
  unfold first_vcl_prefix_offset in Ho. by rewrite Ho.
Qed.

End MispExtract.

(** * What a receiver reads *)
Module MispTheorems.
Import MuxTypes AnnexB Nal NalSplit MispTime MispExtract.

(** A time stamp spliced into an access unit is the one a receiver reads: for
    H.264 in microseconds and H.265 in either unit, and an access unit whose
    units before the first VCL unit carry no MISP stamp, the SEI unit that is
    built lands right before that VCL unit, every other NAL unit is kept in its
    place, and [extract] gives the time stamp back bit for bit. *)
Theorem misp_timestamp_roundtrip (au : list Z) (codec : VideoCodec) (ts : MispTimestamp) (header : Z)
    (pre : list (list Z)) (v : list Z) (post : list (list Z)) :
  (codec = VideoH264 /\ kind ts = Micro) \/ codec = VideoH265 -> 0 <= value ts < 2 ^ 64 ->
  nals (E:=Empty_set) au = Ok (pre ++ v :: post) ->
  Forall (fun n => n <> [] /\ last n <> Some 0 /\ ~ vcl_unit codec n) pre ->
  Forall (fun n => scan_sei_nal n codec = Ok None) pre ->
  vcl_unit codec v -> header_len codec = Some header -> header <= zlen v ->
  exists sei out, build_sei_nal codec ts = Ok sei /\ insert_sei_before_first_vcl au sei codec = Ok out /\
    nals (E:=Empty_set) out = Ok (pre ++ sei :: v :: post) /\ zlen out = zlen au + 3 + zlen sei /\
    extract out codec = Ok (Some ts).
Proof.
  intros Hs Hval Hn Hpre Hscan Hv Hh Hl. rewrite nals_units in Hn. injection Hn as Hu.
  assert (spliceable codec) as Hc by (destruct Hs as [[-> _]| ->]; [by left|by right]).
  destruct (build_ok codec ts Hs) as (id & _ & _ & _ & Hb). set (sei := _ ++ _) in Hb.
  destruct (built_plain codec ts sei Hb Hs) as (Hsp & Hsl & _).
  destruct (insert_sei_ok au codec header sei pre v post) as (out & Hi & Ho & Hz & _); try done; [by rewrite Hsl|].
  exists sei, out. split_and!; try done; [by rewrite nals_units, Ho|].
  rewrite extract_is_search, Ho, search_app by done. cbn [search]. by rewrite (scan_built codec ts sei).
Qed.

Lemma misp_timestamp_roundtrip_witness :
  let au := [0; 0; 0; 1; 0x67; 1; 0; 0; 1; 0x65; 2; 0; 0; 1; 0x41; 3] in
  exists sei out, build_sei_nal VideoH264 (micros 0x0102 0) = Ok sei /\
    insert_sei_before_first_vcl au sei VideoH264 = Ok out /\ extract out VideoH264 = Ok (Some (micros 0x0102 0)).
Proof.
  intros au. destruct (misp_timestamp_roundtrip au VideoH264 (micros 0x0102 0) 1 [[0x67; 1]] [0x65; 2] [[0x41; 3]])
    as (sei & out & H1 & H2 & _ & _ & H3).
  - by left.
  - cbn. lia.
  - vm_compute. reflexivity.
  - constructor; [|constructor]. vm_compute. split; [discriminate|]. split; [discriminate|]. discriminate.
  - constructor; [|constructor]. vm_compute. reflexivity.
  - vm_compute. reflexivity.
  - reflexivity.
  - vm_compute. discriminate.
  - exists sei, out. split; [exact H1|]. split; [exact H2|exact H3].
Defined.

(** ** No input makes the extractor panic *)

Lemma unescape_total {E} l : forall z acc, 0 <= z -> z + zlen l < 2 ^ 32 -> bytes l -> bytes acc ->
  exists r, unescape (E:=E) z l acc = Ok r /\ bytes r /\ zlen r <= zlen acc + zlen l.
Proof.
  induction l as [|b l IH]; intros z acc Hz Hl Hb Ha; cbn [unescape]; [exists acc; rewrite zlen_nil; split_and!; [done|done|lia]|].
  rewrite zlen_cons in *. pose proof (zlen_nonneg l). apply Forall_cons in Hb as [Hb Hbl]. destruct ((2 <=? z) && (b =? 3)).
  { destruct (IH 0 acc) as (r & -> & ? & ?); [lia|lia|done|done|]. exists r. split_and!; [done|done|lia]. }
  assert ((if b =? 0 then checked (E:=E) (2 ^ 32) (z + 1) else Ok 0) = Ok (if b =? 0 then z + 1 else 0)) as ->.
  { destruct (b =? 0); [|done]. unfold checked. by rewrite (proj2 (Z.leb_le _ _)), (proj2 (Z.ltb_lt _ _)) by lia. }
  rb. destruct (IH (if b =? 0 then z + 1 else 0) (acc ++ [b])) as (r & -> & ? & Hr); [destruct (b =? 0); lia..|done| |].
  { apply Forall_app. split; [done|by constructor]. }
  rewrite zlen_app in Hr. change (zlen [b]) with 1 in Hr. exists r. split_and!; [done|done|lia].
Qed.

Lemma ff_coded_total {E} rbsp : bytes rbsp -> forall fuel p acc, 0 <= p <= zlen rbsp -> zlen rbsp - p < Z.of_nat fuel -> 0 <= acc ->
  ff_coded (E:=E) fuel rbsp p acc = Ok None \/
  exists v q, ff_coded (E:=E) fuel rbsp p acc = Ok (Some (v, q)) /\ 0 <= v /\ p < q <= zlen rbsp.
Proof.
  intros Hb. induction fuel as [|fuel IH]; intros p acc Hp Hf Ha; [lia|]. cbn [ff_coded]. destruct (get rbsp p) as [b|] eqn:Hg; [|by left].
  assert (byte b) as Hbb by (eapply bytes_get; eauto). unfold byte in Hbb. pose proof (get_Some _ _ _ Hg).
  destruct (b =? 255).
  - destruct (IH (p + 1) (Z.min u64_max (acc + b))) as [Hn|(v & q & -> & ? & ?)]; [lia|lia|unfold u64_max; lia|by left|].
    right. exists v, q. split_and!; [done|lia..].
  - right. eexists _, _. split_and!; [done|unfold u64_max; lia|lia..].
Qed.

Lemma get_range_some (l : list Z) a b k : get_range l a b = Some k -> 0 <= a <= b /\ b <= zlen l /\ zlen k = b - a.
Proof.
  unfold get_range. destruct (Z.leb_spec 0 a), (Z.leb_spec a b), (Z.leb_spec b (zlen l)); cbn; try done. intros [= <-].
  split_and!; [lia..|]. rewrite zlen_ztake; [done|]. rewrite zlen_zdrop; lia.
Qed.

Lemma read_timestamp_total k payload size : zlen payload = size -> no_panic (read_timestamp k payload size).
Proof.
  intros Hl. unfold read_timestamp. destruct (Z.ltb_spec size 28); [done|].
  assert (forall i A (f : Z -> res MispTimeExtractError A), 0 <= i < 28 -> (forall x, no_panic (f x)) -> no_panic (rbind (idx payload i) f)) as Hidx.
  { intros i A f Hi Hf. destruct (idx_ok (E:=MispTimeExtractError) payload i) as (x & _ & ->); [lia|]. apply Hf. }
  apply Hidx; [lia|]. intros g1. apply no_panic_bind; [destruct (g1 =? 255); [|done]; apply idx_no_panic; lia|]. intros g2 _.
  apply no_panic_bind; [destruct (g2 =? 255); [|done]; apply idx_no_panic; lia|]. intros g3 _. destruct (_ || _ || _); [done|].
  repeat (apply Hidx; [lia|]; intros ?). done.
Qed.

Lemma sei_walk_total rbsp : bytes rbsp -> zlen rbsp < 2 ^ 32 -> forall fuel p, 0 <= p <= zlen rbsp -> zlen rbsp - p < Z.of_nat fuel ->
  no_panic (sei_walk fuel rbsp p).
Proof.
  intros Hb Hl. induction fuel as [|fuel IH]; intros p Hp Hf; [lia|]. cbn [sei_walk].
  destruct (ff_coded_total (E:=MispTimeExtractError) rbsp Hb (S (length rbsp)) p 0) as [-> |(ty & q & -> & Hty & Hq)]; [done|unfold zlen; lia|lia|by rb|]. rb.
  destruct (ff_coded_total (E:=MispTimeExtractError) rbsp Hb (S (length rbsp)) q 0) as [-> |(sz & r & -> & Hsz & Hr)]; [lia|unfold zlen in *; lia|lia|by rb|]. rb.
  destruct (get_range rbsp r (Z.min u64_max (r + sz))) as [payload|] eqn:Hg; cycle 1.
  { destruct (ty =? 5); [|done]. destruct (get_range rbsp r (Z.min u64_max (r + 16))) as [h|]; [|done]. by destruct (is_misp_id h). }
  apply get_range_some in Hg as (_ & Hend & Hpl). assert (Z.min u64_max (r + sz) = r + sz) as Hmin by (unfold u64_max in *; lia).
  rewrite Hmin in *. destruct ((ty =? 5) && (16 <=? sz)) eqn:Hty5; rb.
  - apply andb_true_iff in Hty5 as [_ H16%Z.leb_le]. rewrite slice_ok by lia. rb.
    destruct (kind_of_id _) as [k|]; [apply read_timestamp_total; lia|]. destruct (get rbsp (r + sz)) as [b|]; [|done]. destruct (b =? 128); [done|].
    apply IH; lia.
  - destruct (get rbsp (r + sz)) as [b|]; [|done]. destruct (b =? 128); [done|]. apply IH; lia.
Qed.

Lemma scan_total n codec : bytes n -> zlen n < 2 ^ 32 -> no_panic (scan_sei_nal n codec).
Proof.
  intros Hb Hl. pose proof (zlen_nonneg n). unfold scan_sei_nal.
  assert (forall (s : bool) h, (s = true -> 0 <= h <= zlen n) -> no_panic (if negb s then Ok None else
    let! body := slice n h (zlen n) in let! rbsp := unescape 0 body [] in sei_walk (S (length rbsp)) rbsp 0)) as Hgo.
  { intros s h Hs. destruct s; [|done]. specialize (Hs eq_refl). cbn [negb]. rewrite slice_ok by lia. rb.
    set (body := ztake _ _). assert (zlen body <= zlen n) as Hbl by (unfold body; rewrite zlen_ztake, ?zlen_zdrop; rewrite ?zlen_zdrop; lia).
    destruct (unescape_total (E:=MispTimeExtractError) body 0 []) as (r & -> & Hr & Hrl); [lia|lia| |constructor|].
    { unfold body. by apply bytes_take, bytes_drop. }
    rb. rewrite zlen_nil in Hrl. apply sei_walk_total; [done|lia|pose proof (zlen_nonneg r); lia|unfold zlen; lia]. }
  destruct codec; apply Hgo; try done.
  - intros Ht%bool_decide_eq_true. destruct n; [done|]. rewrite zlen_cons. pose proof (zlen_nonneg n). lia.
  - intros [Ht%Z.leb_le _]%andb_true_iff. lia.
Qed.

Lemma units_bytes buf : bytes buf -> Forall bytes (units buf).
Proof.
  intros Hb. pose proof (units_codes buf) as Hn. revert Hn. generalize (units buf), (map (AnnexBScan.code_of buf) (AnnexBScan.code_ends buf 0)).
  intros ns codes. revert ns. induction codes as [|c codes IH]; intros ns; [by intros [= <-]|]. rewrite nals_of_cons.
  intros (n & (_ & _ & _ & ->)%slice_Ok & (t & Ht & [= <-])%rbind_ok)%rbind_ok. constructor; [|by apply IH].
  by apply bytes_take, bytes_drop.
Qed.

(** No access unit of up to 4 GiB makes the extractor panic, whatever its
    codec: cut messages, size fields that overflow their accumulator, an
    identifier at the end of the unit and missing guard bytes all end in a value
    or in one of the two errors. *)
Theorem misp_extract_total (au : list Z) (codec : VideoCodec) : bytes au -> zlen au < 2 ^ 32 -> extract au codec <> Panic.
Proof.
  intros Hb Hl. rewrite extract_is_search. pose proof (units_total au) as Ht. pose proof (units_bytes au Hb) as Hu.
  assert (Forall (fun n => bytes n /\ zlen n < 2 ^ 32) (units au)) as Hns.
  { assert (total (units au) < 2 ^ 32) as Ht' by lia. clear -Hu Ht'. induction Hu as [|n ns Hn Hns IH]; [constructor|]. cbn [total foldr] in Ht'. fold (total ns) in Ht'.
    assert (0 <= total ns) by (clear; induction ns as [|m ns IH]; cbn; [done|]; pose proof (zlen_nonneg m); unfold total in IH; lia).
    pose proof (zlen_nonneg n). constructor; [split; [done|lia]|apply IH; lia]. }
  clear Ht Hu. induction Hns as [|n ns [Hn Hnl] _ IH]; [done|]. cbn [search]. apply no_panic_bind; [by apply scan_total|].
  intros [ts|] _; [done|exact IH].
Qed.

Lemma misp_extract_total_witness : extract [0; 0; 1; 6; 5; 255; 255] VideoH264 <> Panic.
Proof. apply misp_extract_total; [repeat constructor; lia|vm_compute; reflexivity]. Defined.

End MispTheorems.
