(* ===== verification/AuCell.v ===== *)
(** Metadata access-unit cells ([mpegts/au_cell.rs]): the five-byte cell header
    the muxer puts in front of synchronous KLV and the receiver's reader. *)
From Stdlib Require Import ZArith Lia Bool.
From stdpp Require Import base list list_numbers.
From S2P Require Import Prelude.

Module AuCell.

Inductive CellFragmentIndication : Type := Middle | Last | First | Complete.

#[global] Instance CellFragmentIndication_eq_dec : EqDecision CellFragmentIndication.
Proof. solve_decision. Defined.

Definition cfi_as_u8 (c : CellFragmentIndication) : Z :=
  match c with Middle => 0 | Last => 1 | First => 2 | Complete => 3 end.

Record AuCellHeader : Type := {
  metadata_service_id : Z;
  sequence_number : Z;
  cell_fragment_indication : CellFragmentIndication;
  decoder_config_flag : bool;
  random_access_indicator : bool;
}.

Definition MAX_AU_CELL_PAYLOAD : Z := u16_max.

Inductive AuCellError : Type := PayloadTooLarge (size max : Z).

(** The variants of [KlvDecodeError] the reader returns. *)
Inductive CellReadError : Type :=
| Truncated (offset needed have : Z)
| ReservedBitsInvalid (got : Z).

Definition cell_flags (h : AuCellHeader) : Z :=
  let cfi := Z.land (cfi_as_u8 (cell_fragment_indication h)) 3 in
  let dcf := b2z (decoder_config_flag h) in
  let rai := b2z (random_access_indicator h) in
  Z.lor (Z.lor (Z.lor (as_u8 (Z.shiftl cfi 6)) (as_u8 (Z.shiftl dcf 5))) (as_u8 (Z.shiftl rai 4))) 0x0F.

(** [out] after the append, and the count returned. *)
Definition write_metadata_au_cell (out : list Z) (header : AuCellHeader) (payload : list Z)
    : res AuCellError (list Z * Z) :=
  if MAX_AU_CELL_PAYLOAD <? zlen payload then Err (PayloadTooLarge (zlen payload) MAX_AU_CELL_PAYLOAD)
  else
    let len := as_u16 (zlen payload) in
    let out := out ++ [metadata_service_id header] in
    let out := out ++ [sequence_number header] in
    let out := out ++ [cell_flags header] in
    let out := out ++ be16 len in
    let out := out ++ payload in
    Ok (out, 5 + zlen payload).

Definition cfi_of (cfi : Z) : res CellReadError CellFragmentIndication :=
  if cfi =? 0 then Ok Middle
  else if cfi =? 1 then Ok Last
  else if cfi =? 2 then Ok First
  else if cfi =? 3 then Ok Complete
  else Panic.

Definition read_metadata_au_cell (buf : list Z) : res CellReadError (AuCellHeader * list Z) :=
  if zlen buf <? 5 then Err (Truncated 0 5 (zlen buf))
  else
    let! msid := idx buf 0 in
    let! seq := idx buf 1 in
    let! flags := idx buf 2 in
    if negb (Z.land flags 0x0F =? 0x0F) then Err (ReservedBitsInvalid (Z.land flags 0x0F))
    else
      let! cfi := cfi_of (Z.land (Z.shiftr flags 6) 3) in
      let dcf := nz (Z.land flags 0x20) in
      let rai := nz (Z.land flags 0x10) in
      let! b3 := idx buf 3 in
      let! b4 := idx buf 4 in
      let len := from_be16 b3 b4 in
      if zlen buf <? 5 + len then Err (Truncated 5 (5 + len) (zlen buf))
      else
        let! payload := slice buf 5 (5 + len) in
        Ok ({| metadata_service_id := msid; sequence_number := seq; cell_fragment_indication := cfi;
               decoder_config_flag := dcf; random_access_indicator := rai |}, payload).

End AuCell.

Module AuCellTheorems.
Import AuCell.

Definition header_ok (h : AuCellHeader) : Prop := byte (metadata_service_id h) /\ byte (sequence_number h).

Definition header_bytes (h : AuCellHeader) : list Z := [metadata_service_id h; sequence_number h; cell_flags h].

Definition cell (h : AuCellHeader) (payload : list Z) : list Z := header_bytes h ++ be16 (zlen payload) ++ payload.

Lemma flags_bits h :
  byte (cell_flags h) /\ Z.land (cell_flags h) 0x0F = 0x0F /\
  cfi_of (Z.land (Z.shiftr (cell_flags h) 6) 3) = Ok (cell_fragment_indication h) /\
  nz (Z.land (cell_flags h) 0x20) = decoder_config_flag h /\
  nz (Z.land (cell_flags h) 0x10) = random_access_indicator h.
Proof. destruct h as [m s [] [] []]; vm_compute; split_and!; congruence. Qed.

(** Every flags byte with the reserved bits set is one the writer emits. *)
Lemma flags_decode f : byte f -> Z.land f 15 = 15 ->
  exists h, cell_flags h = f /\ cfi_of (Z.land (Z.shiftr f 6) 3) = Ok (cell_fragment_indication h) /\
    nz (Z.land f 0x20) = decoder_config_flag h /\ nz (Z.land f 0x10) = random_access_indicator h.
Proof.
  intros Hf He.
  pose proof (below_all 256 (fun g => if Z.land g 15 =? 15 then
      match cfi_of (Z.land (Z.shiftr g 6) 3) with
      | Ok c => cell_flags {| metadata_service_id := 0; sequence_number := 0; cell_fragment_indication := c;
          decoder_config_flag := nz (Z.land g 0x20); random_access_indicator := nz (Z.land g 0x10) |} =? g
      | _ => false end else true) ltac:(by vm_compute) f Hf) as Hall.
  cbv beta in Hall. rewrite He, Z.eqb_refl in Hall.
  destruct (cfi_of (Z.land (Z.shiftr f 6) 3)) as [c| |]; [|done..]. apply Z.eqb_eq in Hall. by eexists.
Qed.

Lemma write_cell out h payload : zlen payload <= 65535 ->
  write_metadata_au_cell out h payload = Ok (out ++ cell h payload, 5 + zlen payload).
Proof.
  intros Hl. unfold write_metadata_au_cell, MAX_AU_CELL_PAYLOAD, u16_max.
  rewrite (proj2 (Z.ltb_ge _ _)) by lia. unfold as_u16. rewrite Z.mod_small by zlia.
  unfold cell, header_bytes. by rewrite <- !app_assoc.
Qed.

Lemma read_cell h payload rest : zlen payload <= 65535 ->
  read_metadata_au_cell (cell h payload ++ rest) = Ok (h, payload).
Proof.
  intros Hl. pose proof (zlen_nonneg payload). unfold read_metadata_au_cell, cell, header_bytes, be16. cbn [app].
  rewrite !zlen_cons, zlen_app. pose proof (zlen_nonneg rest). rewrite (proj2 (Z.ltb_ge _ 5)) by lia.
  idxs. destruct (flags_bits h) as (_ & -> & -> & -> & ->). rb.
  change (15 =? 15) with true. cbn [negb]. idxs. rewrite from_be16_be16 by lia.
  rewrite (proj2 (Z.ltb_ge _ _)) by lia.
  rewrite (slice_mid [metadata_service_id h; sequence_number h; cell_flags h;
                      Z.shiftr (zlen payload) 8 mod 256; zlen payload mod 256] payload rest) by done.
  rb. by destruct h.
Qed.

(** A cell of up to 65,535 payload bytes reads back, with the header and the
    exact payload, from the front of any buffer that starts with it, and a larger
    payload is refused with its size, leaving the output as it was. *)
Theorem au_cell_roundtrip (out : list Z) (h : AuCellHeader) (payload rest : list Z) :
  header_ok h -> bytes payload ->
  (zlen payload <= 65535 ->
   exists cell_bytes, write_metadata_au_cell out h payload = Ok (out ++ cell_bytes, zlen cell_bytes) /\
     bytes cell_bytes /\ zlen cell_bytes = 5 + zlen payload /\
     read_metadata_au_cell (cell_bytes ++ rest) = Ok (h, payload)) /\
  (65535 < zlen payload -> write_metadata_au_cell out h payload = Err (PayloadTooLarge (zlen payload) 65535)).
Proof.
  intros [Hm Hs] Hb. split.
  - intros Hl. exists (cell h payload). rewrite write_cell, read_cell by done.
    assert (zlen (cell h payload) = 5 + zlen payload) as ->
      by (unfold cell, header_bytes; rewrite !zlen_app, zlen_be16; change (zlen [_; _; _]) with 3; lia).
    split_and!; try done. unfold cell, header_bytes. destruct (flags_bits h) as (Hf & _).
    rewrite !bytes_app. split; [|split; [apply be16_bytes|done]].
    constructor; [done|]. constructor; [done|]. constructor; [done|constructor].
  - intros Hl. unfold write_metadata_au_cell, MAX_AU_CELL_PAYLOAD, u16_max.
    by rewrite (proj2 (Z.ltb_lt _ _)) by lia.
Qed.

Lemma au_cell_roundtrip_witness :
  let h := {| metadata_service_id := 0; sequence_number := 7; cell_fragment_indication := Complete;
              decoder_config_flag := false; random_access_indicator := true |} in
  exists c, write_metadata_au_cell [0xAA] h [1; 2; 3] = Ok ([0xAA] ++ c, zlen c) /\
    read_metadata_au_cell (c ++ [9]) = Ok (h, [1; 2; 3]).
Proof.
  intros h. destruct (au_cell_roundtrip [0xAA] h [1; 2; 3] [9]) as [H _].
  - split; unfold byte; cbn; lia.
  - repeat constructor; lia.
  - destruct H as (c & Hw & _ & _ & Hr); [vm_compute; discriminate|]. exists c. split; [exact Hw|exact Hr].
Defined.

(** What the reader accepts is a cell the writer produces: the buffer opens
    with exactly the bytes the writer would emit for the returned header and
    payload. Anything else is an error, never a panic. *)
Theorem au_cell_read_exact (buf : list Z) :
  bytes buf ->
  match read_metadata_au_cell buf with
  | Ok (h, payload) => exists rest, buf = cell h payload ++ rest /\ zlen payload <= 65535
  | Err (Truncated _ needed have) => have = zlen buf /\ have < needed
  | Err (ReservedBitsInvalid got) => got <> 0x0F
  | Panic => False
  end.
Proof.
  intros Hb. unfold read_metadata_au_cell. destruct (zlen buf <? 5) eqn:H5; b2p; [lia|].
  destruct buf as [|m [|s [|f [|b3 [|b4 r]]]]]; rewrite ?zlen_cons, ?(@zlen_nil Z) in H5; try lia.
  idxs. bytes_inv. destruct (Z.land f 15 =? 15) eqn:Hres; b2p; cbn [negb]; [|done].
  assert (Hf : exists h, cell_flags h = f /\ cfi_of (Z.land (Z.shiftr f 6) 3) = Ok (cell_fragment_indication h) /\
    nz (Z.land f 0x20) = decoder_config_flag h /\ nz (Z.land f 0x10) = random_access_indicator h).
  { apply flags_decode; done. }
  destruct Hf as (h & Hfl & -> & -> & ->). rb. idxs.
  ifs; b2p; [split; [done|lia]|].
  rewrite !zlen_cons in Hif.
  assert (Hr : 0 <= from_be16 b3 b4 <= 65535) by (unfold from_be16, byte in *; lia).
  rewrite (slice_mid [m; s; f; b3; b4] (ztake (from_be16 b3 b4) r) (zdrop (from_be16 b3 b4) r)).
  - rb. exists (zdrop (from_be16 b3 b4) r). unfold cell, header_bytes. cbn [metadata_service_id sequence_number].
    rewrite zlen_ztake by lia. split; [|lia].
    rewrite be16_from_be16 by done. cbn [app]. rewrite ztake_zdrop. rewrite <- Hfl. by destruct h.
  - cbn [app]. by rewrite ztake_zdrop.
  - done.
  - rewrite zlen_ztake by lia. done.
Qed.

Lemma au_cell_read_exact_witness : read_metadata_au_cell [0; 7; 0xDF; 0; 1; 5; 6] = Ok
  ({| metadata_service_id := 0; sequence_number := 7; cell_fragment_indication := Complete;
      decoder_config_flag := false; random_access_indicator := true |}, [5]) /\
  exists rest, [0; 7; 0xDF; 0; 1; 5; 6] = cell {| metadata_service_id := 0; sequence_number := 7;
      cell_fragment_indication := Complete; decoder_config_flag := false; random_access_indicator := true |} [5] ++ rest.
Proof.
  split; [reflexivity|].
  assert (H : bytes [0; 7; 0xDF; 0; 1; 5; 6]) by (repeat constructor; lia).
  apply au_cell_read_exact in H. cbn in H. destruct H as (rest & H & _). exists rest. exact H.
Defined.

End AuCellTheorems.
