(* ===== verification/AudioFrames.v ===== *)
(** Audio frame iteration, as the muxer counts frames: the ADTS header and
    iterator ([codec/aac]), the MPEG audio header and iterator
    ([codec/mpegaudio]) and the sync scan they share ([codec/framing.rs]). The
    two iterators have the same body; it is written once, over the class
    [FrameSyntax] whose two instances are the two header parsers. *)
From Stdlib Require Import ZArith Lia Bool String.
From stdpp Require Import base list list_numbers.
From S2P Require Import Prelude.

(** The variants of [CodecParseError] the two parsers return. *)
Inductive CodecParseError : Type :=
| Truncated (needed had : Z)
| BadSyncWord (expected found : Z)
| Forbidden (field : string)
| ReservedValue (field : string) (value : Z)
| UnsupportedFreeFormat (layer : Z).

Module Aac.
Local Open Scope string_scope.
Local Open Scope Z_scope.

Inductive AacProfile : Type := Main | Lc | Ssr | LongTermPrediction.
Inductive MpegVersion : Type := Mpeg2 | Mpeg4.
Inductive AacChannelLayout : Type := PceDefined | Channels (n : Z).

Definition SAMPLING_FREQUENCY : list Z :=
  [96000; 88200; 64000; 48000; 44100; 32000; 24000; 22050; 16000; 12000; 11025; 8000; 7350].

Definition decode_sample_rate (i : Z) : res CodecParseError Z :=
  if 13 <=? i then Err (ReservedValue "sampling_frequency_index" i) else idx SAMPLING_FREQUENCY i.

Definition decode_channels (c : Z) : res CodecParseError AacChannelLayout :=
  if c =? 0 then Ok PceDefined
  else if (1 <=? c) && (c <=? 6) then Ok (Channels c)
  else if c =? 7 then Ok (Channels 8)
  else Err (ReservedValue "channel_configuration" c).

Definition decode_profile (profile : Z) (v : MpegVersion) : res CodecParseError AacProfile :=
  let p := Z.land profile 3 in
  if p =? 0 then Ok Main
  else if p =? 1 then Ok Lc
  else if p =? 2 then Ok Ssr
  else if p =? 3 then
    match v with Mpeg4 => Ok LongTermPrediction | Mpeg2 => Err (ReservedValue "adts_profile" 3) end
  else Panic.

Record Header : Type := {
  profile : AacProfile;
  mpeg_version : MpegVersion;
  sample_rate_hz : Z;
  channel_configuration : Z;
  channel_layout : AacChannelLayout;
  frame_length_bytes : Z;
  samples_per_frame : Z;
  num_raw_data_blocks : Z;
  has_crc : bool;
  raw_header_len : Z;
}.

Definition parse_header (bytes : list Z) : res CodecParseError Header :=
  if zlen bytes <? 7 then Err (Truncated 7 (as_u32 (zlen bytes)))
  else
    let! b0 := idx bytes 0 in
    let! b1 := idx bytes 1 in
    let sync := Z.lor (as_u16 (Z.shiftl b0 4)) (Z.land (Z.shiftr b1 4) 0x0F) in
    if negb (sync =? 0xFFF) then Err (BadSyncWord 0xFFF sync)
    else
      let id_bit := Z.land (Z.shiftr b1 3) 1 in
      let mpeg_version := if id_bit =? 0 then Mpeg4 else Mpeg2 in
      let layer := Z.land (Z.shiftr b1 1) 3 in
      if negb (layer =? 0) then Err (Forbidden "adts_layer")
      else
        let protection_absent := Z.land b1 1 in
        let has_crc := protection_absent =? 0 in
        let! b2 := idx bytes 2 in
        let! profile := decode_profile (Z.land (Z.shiftr b2 6) 3) mpeg_version in
        let! sample_rate_hz := decode_sample_rate (Z.land (Z.shiftr b2 2) 15) in
        let! b3 := idx bytes 3 in
        let channel_configuration := Z.lor (as_u8 (Z.shiftl (Z.land b2 1) 2)) (Z.land (Z.shiftr b3 6) 3) in
        let! channel_layout := decode_channels channel_configuration in
        let! b4 := idx bytes 4 in
        let! b5 := idx bytes 5 in
        let aac_frame_length :=
          Z.lor (Z.lor (as_u32 (Z.shiftl (Z.land b3 3) 11)) (as_u32 (Z.shiftl b4 3))) (Z.land (Z.shiftr b5 5) 7) in
        let! b6 := idx bytes 6 in
        let num_raw_data_blocks := Z.land b6 3 + 1 in
        let! samples_per_frame := chk_u16 (1024 * num_raw_data_blocks) in
        let raw_header_len := if has_crc then 9 else 7 in
        if has_crc && (zlen bytes <? 9) then Err (Truncated 9 (as_u32 (zlen bytes)))
        else if aac_frame_length <? raw_header_len then Err (Truncated raw_header_len aac_frame_length)
        else Ok {| profile := profile; mpeg_version := mpeg_version; sample_rate_hz := sample_rate_hz;
                   channel_configuration := channel_configuration; channel_layout := channel_layout;
                   frame_length_bytes := aac_frame_length; samples_per_frame := samples_per_frame;
                   num_raw_data_blocks := num_raw_data_blocks; has_crc := has_crc;
                   raw_header_len := raw_header_len |}.

(** [AdtsFrame]: the header fields, the raw header and the whole frame. *)
Record AdtsFrame : Type := { header : Header; raw_header : list Z; body : list Z }.

Definition make_frame {E} (h : Header) (body : list Z) : res E AdtsFrame :=
  let! raw := slice body 0 (raw_header_len h) in
  Ok {| header := h; raw_header := raw; body := body |}.

Definition adts_sync (b0 b1 : Z) : bool := (b0 =? 0xFF) && (Z.land b1 0xF0 =? 0xF0).

End Aac.

Module MpegAudio.
Local Open Scope string_scope.
Local Open Scope Z_scope.

Inductive Layer : Type := LayerI | LayerII | LayerIII.
Inductive Version : Type := Mpeg1 | Mpeg2 | Mpeg2_5.
Inductive ChannelMode : Type := Stereo | JointStereo | DualChannel | Mono.

Definition BITRATE_TABLE : list (list Z) :=
  [[0; 32; 64; 96; 128; 160; 192; 224; 256; 288; 320; 352; 384; 416; 448; 0];
   [0; 32; 48; 56; 64; 80; 96; 112; 128; 160; 192; 224; 256; 320; 384; 0];
   [0; 32; 40; 48; 56; 64; 80; 96; 112; 128; 160; 192; 224; 256; 320; 0];
   [0; 32; 48; 56; 64; 80; 96; 112; 128; 144; 160; 176; 192; 224; 256; 0];
   [0; 8; 16; 24; 32; 40; 48; 56; 64; 80; 96; 112; 128; 144; 160; 0]].

Definition bitrate_column (v : Version) (l : Layer) : Z :=
  match v, l with
  | Mpeg1, LayerI => 0
  | Mpeg1, LayerII => 1
  | Mpeg1, LayerIII => 2
  | _, LayerI => 3
  | _, _ => 4
  end.

Definition SAMPLE_RATE_TABLE : list (list Z) :=
  [[44100; 48000; 32000; 0]; [22050; 24000; 16000; 0]; [11025; 12000; 8000; 0]].

Definition layer_to_u8 (l : Layer) : Z := match l with LayerI => 1 | LayerII => 2 | LayerIII => 3 end.

Definition decode_bitrate (v : Version) (l : Layer) (bitrate_index : Z) : res CodecParseError Z :=
  if bitrate_index =? 0 then Err (UnsupportedFreeFormat (layer_to_u8 l))
  else if bitrate_index =? 15 then Err (Forbidden "bitrate_index")
  else let! col := idx BITRATE_TABLE (bitrate_column v l) in idx col bitrate_index.

Definition decode_sample_rate (v : Version) (i : Z) : res CodecParseError Z :=
  if i =? 3 then Err (ReservedValue "sample_rate_index" 3)
  else let! row := idx SAMPLE_RATE_TABLE (match v with Mpeg1 => 0 | Mpeg2 => 1 | Mpeg2_5 => 2 end) in idx row i.

Definition decode_channel_mode (bits : Z) : ChannelMode :=
  let b := Z.land bits 3 in
  if b =? 0 then Stereo else if b =? 1 then JointStereo else if b =? 2 then DualChannel else Mono.

Definition channels_for_mode (m : ChannelMode) : Z := match m with Mono => 1 | _ => 2 end.

Definition samples_per_frame (v : Version) (l : Layer) : Z :=
  match v, l with
  | _, LayerI => 384
  | _, LayerII => 1152
  | Mpeg1, LayerIII => 1152
  | _, LayerIII => 576
  end.

Definition frame_length (l : Layer) (v : Version) (bitrate_kbps sample_rate_hz : Z) (padding : bool) : Z :=
  let pad := if padding then 1 else 0 in
  let bitrate_bps := bitrate_kbps * 1000 in
  match l with
  | LayerI => (12 * bitrate_bps / sample_rate_hz + pad) * 4
  | LayerII => 144 * bitrate_bps / sample_rate_hz + pad
  | LayerIII =>
      match v with
      | Mpeg1 => 144 * bitrate_bps / sample_rate_hz + pad
      | Mpeg2 | Mpeg2_5 => 72 * bitrate_bps / sample_rate_hz + pad
      end
  end.

Record Header : Type := {
  version : Version;
  layer : Layer;
  bitrate_kbps : Z;
  sample_rate_hz : Z;
  channel_mode : ChannelMode;
  channels : Z;
  frame_length_bytes : Z;
  frame_samples : Z;
  has_crc : bool;
  raw : list Z;
}.

Definition decode_version (version_id : Z) : res CodecParseError Version :=
  if version_id =? 0 then Ok Mpeg2_5
  else if version_id =? 1 then Err (ReservedValue "version_id" 1)
  else if version_id =? 2 then Ok Mpeg2
  else if version_id =? 3 then Ok Mpeg1
  else Panic.

Definition decode_layer (layer_id : Z) : res CodecParseError Layer :=
  if layer_id =? 0 then Err (ReservedValue "layer" 0)
  else if layer_id =? 1 then Ok LayerIII
  else if layer_id =? 2 then Ok LayerII
  else if layer_id =? 3 then Ok LayerI
  else Panic.

Definition parse_header (bytes : list Z) : res CodecParseError Header :=
  if zlen bytes <? 4 then Err (Truncated 4 (as_u32 (zlen bytes)))
  else
    let! b0 := idx bytes 0 in
    let! b1 := idx bytes 1 in
    let! b2 := idx bytes 2 in
    let! b3 := idx bytes 3 in
    let h := Z.lor (Z.lor (Z.lor (as_u32 (Z.shiftl b0 24)) (as_u32 (Z.shiftl b1 16))) (as_u32 (Z.shiftl b2 8))) b3 in
    let sync := Z.land (Z.shiftr h 21) 0x7FF in
    if negb (sync =? 0x7FF) then Err (BadSyncWord 0x7FF sync)
    else
      let! version := decode_version (Z.land (Z.shiftr h 19) 3) in
      let! layer := decode_layer (Z.land (Z.shiftr h 17) 3) in
      let has_crc := Z.land (Z.shiftr h 16) 1 =? 0 in
      let! bitrate_kbps := decode_bitrate version layer (Z.land (Z.shiftr h 12) 15) in
      let! sample_rate_hz := decode_sample_rate version (Z.land (Z.shiftr h 10) 3) in
      let padding := nz (Z.land (Z.shiftr h 9) 1) in
      let channel_mode := decode_channel_mode (Z.land (Z.shiftr h 6) 3) in
      Ok {| version := version; layer := layer; bitrate_kbps := bitrate_kbps; sample_rate_hz := sample_rate_hz;
            channel_mode := channel_mode; channels := channels_for_mode channel_mode;
            frame_length_bytes := frame_length layer version bitrate_kbps sample_rate_hz padding;
            frame_samples := samples_per_frame version layer; has_crc := has_crc; raw := [b0; b1; b2; b3] |}.

Record Frame : Type := { header : Header; body : list Z }.

Definition make_frame {E} (h : Header) (body : list Z) : res E Frame := Ok {| header := h; body := body |}.

Definition mpeg_sync (b0 b1 : Z) : bool := (b0 =? 0xFF) && (Z.land b1 0xE0 =? 0xE0).

End MpegAudio.

(** * The iterator *)

(** What an audio codec supplies to the frame iterator. *)
Class FrameSyntax (F : Type) : Type := {
  Hdr : Type;
  parse_hdr : list Z -> res CodecParseError Hdr;
  hdr_len : Hdr -> Z;
  mk_frame : forall {E}, Hdr -> list Z -> res E F;
  is_sync : Z -> Z -> bool;
}.

#[global] Instance adts_syntax : FrameSyntax Aac.AdtsFrame := {|
  Hdr := Aac.Header; parse_hdr := Aac.parse_header; hdr_len := Aac.frame_length_bytes;
  mk_frame := @Aac.make_frame; is_sync := Aac.adts_sync |}.

#[global] Instance mpeg_syntax : FrameSyntax MpegAudio.Frame := {|
  Hdr := MpegAudio.Header; parse_hdr := MpegAudio.parse_header; hdr_len := MpegAudio.frame_length_bytes;
  mk_frame := @MpegAudio.make_frame; is_sync := MpegAudio.mpeg_sync |}.

Module Frames.

Fixpoint scan_loop {E} (fuel : nat) (buf : list Z) (i : Z) (matches : Z -> Z -> bool) : res E (option Z) :=
  match fuel with
  | O => Panic
  | S fuel =>
      if i <? zlen buf - 1 then
        let! b0 := idx buf i in
        let! b1 := idx buf (i + 1) in
        if matches b0 b1 then Ok (Some i) else scan_loop fuel buf (i + 1) matches
      else Ok None
  end.

Definition scan_for_sync {E} (buf : list Z) (start : Z) (matches : Z -> Z -> bool) : res E (option Z) :=
  if (zlen buf <? 2) || (zlen buf - 1 <=? start) then Ok None
  else scan_loop (S (length buf)) buf start matches.

Record Frames : Type := { cursor : Z; done_ : bool; resync : bool }.

Section Iterator.
Context {F : Type} `{FrameSyntax F}.

(** Where the walk goes after an unusable frame. *)
Definition after_error {E} (buf : list Z) (it : Frames) : res E Frames :=
  if resync it then
    let! next := scan_for_sync buf (cursor it + 1) is_sync in
    Ok match next with
       | Some next => {| cursor := next; done_ := done_ it; resync := resync it |}
       | None => {| cursor := cursor it; done_ := true; resync := resync it |}
       end
  else Ok {| cursor := cursor it; done_ := true; resync := resync it |}.

Definition frames_next {E} (buf : list Z) (it : Frames) : res E (option (F + CodecParseError) * Frames) :=
  if done_ it then Ok (None, it)
  else if zlen buf <=? cursor it then Ok (None, {| cursor := cursor it; done_ := true; resync := resync it |})
  else
    let! remaining := slice buf (cursor it) (zlen buf) in
    match parse_hdr remaining with
    | Panic => Panic
    | Err e => let! it := after_error buf it in Ok (Some (inr e), it)
    | Ok h =>
        let len := hdr_len h in
        if zlen remaining <? len then
          let! it := after_error buf it in
          Ok (Some (inr (Truncated len (as_u32 (zlen remaining)))), it)
        else
          let! body := slice remaining 0 len in
          let! frame := mk_frame h body in
          Ok (Some (inl frame), {| cursor := cursor it + len; done_ := done_ it; resync := resync it |})
    end.

(** The iterator run to its end. *)
Fixpoint collect {E} (fuel : nat) (buf : list Z) (it : Frames) : res E (list (F + CodecParseError)) :=
  match fuel with
  | O => Panic
  | S fuel =>
      let! (item, it) := frames_next buf it in
      match item with
      | None => Ok []
      | Some x => let! rest := collect fuel buf it in Ok (x :: rest)
      end
  end.

Definition frames {E} (buf : list Z) : res E (list (F + CodecParseError)) :=
  collect (S (S (length buf))) buf {| cursor := 0; done_ := false; resync := false |}.

Definition frames_with_resync {E} (buf : list Z) : res E (list (F + CodecParseError)) :=
  collect (S (S (length buf))) buf {| cursor := 0; done_ := false; resync := true |}.

(** [.filter_map(Result::ok).count()] *)
Definition ok_count (items : list (F + CodecParseError)) : Z :=
  foldr (fun x n => match x with inl _ => 1 + n | inr _ => n end) 0 items.
End Iterator.

End Frames.

(** * What the iterator relies on, and the two parsers' proofs of it *)

Class FrameLaws (F : Type) `{FrameSyntax F} : Type := {
  frame_body : F -> list Z;
  law_total l : bytes l -> no_panic (parse_hdr l);
  law_len l h : parse_hdr l = Ok h -> 0 < hdr_len h;
  law_frame l h b : bytes l -> parse_hdr l = Ok h -> zlen b = hdr_len h ->
    exists f, (forall E, mk_frame (E:=E) h b = Ok f) /\ frame_body f = b;
  law_prefix l h k : parse_hdr l = Ok h -> zlen l = hdr_len h -> parse_hdr (l ++ k) = Ok h;
}.

(** Reads in range, in a computation that must not panic. *)
Lemma idx_outcome {E A B} (l : list A) i (k : A -> res E B) :
  0 <= i < zlen l -> (forall x, get l i = Some x -> no_panic (k x)) -> no_panic (let! x := idx l i in k x).
Proof. intros (x & Hx & ->)%(idx_ok (E:=E)) Hk. rb. by apply Hk. Qed.

Module AacLaws.
Import Aac.

Lemma decode_profile_total p v : no_panic (decode_profile (Z.land p 3) v).
Proof.
  unfold decode_profile. rewrite <- Z.land_assoc. change (Z.land 3 3) with 3. rewrite land_3.
  pose proof (Z.mod_pos_bound p 4). destruct v; repeat ifs; b2p; try done; lia.
Qed.

Lemma decode_sample_rate_total i : no_panic (decode_sample_rate (Z.land i 15)).
Proof.
  unfold decode_sample_rate. rewrite land_15. pose proof (Z.mod_pos_bound i 16). ifs; b2p; [done|].
  apply idx_no_panic. change (zlen SAMPLING_FREQUENCY) with 13. lia.
Qed.

Lemma decode_channels_total c : no_panic (decode_channels c).
Proof. unfold decode_channels. by repeat ifs. Qed.

Lemma parse_header_total l : no_panic (parse_header l).
Proof.
  unfold parse_header. ifs; b2p; [done|].
  apply idx_outcome; [lia|intros b0 _]. apply idx_outcome; [lia|intros b1 _]. cbv zeta.
  ifs; [done|]. ifs; [done|]. apply idx_outcome; [lia|intros b2 _].
  apply no_panic_bind; [apply decode_profile_total|intros p _].
  apply no_panic_bind; [apply decode_sample_rate_total|intros sr _].
  apply idx_outcome; [lia|intros b3 _].
  apply no_panic_bind; [apply decode_channels_total|intros c _].
  apply idx_outcome; [lia|intros b4 _]. apply idx_outcome; [lia|intros b5 _].
  apply idx_outcome; [lia|intros b6 _].
  apply no_panic_bind; [|intros sp _; by repeat ifs].
  unfold chk_u16, checked. rewrite land_3. pose proof (Z.mod_pos_bound b6 4).
  rewrite (proj2 (Z.leb_le _ _)), (proj2 (Z.ltb_lt _ _)) by lia. done.
Qed.

(** A successful parse saw the whole header, and the frame holds it. *)
Lemma parse_header_len l h : parse_header l = Ok h ->
  raw_header_len h <= frame_length_bytes h /\ 7 <= raw_header_len h <= zlen l.
Proof.
  unfold parse_header. destruct (zlen l <? 7) eqn:H7; b2p; [done|].
  intros Hok. repeat (apply rbind_ok in Hok as (? & _ & Hok); cbv zeta in Hok).
  revert Hok. ifs; [done|]. ifs; [done|]. intros Hok.
  repeat (apply rbind_ok in Hok as (? & _ & Hok); cbv zeta in Hok).
  revert Hok. destruct (Z.land x0 1 =? 0); cbn [andb].
  - destruct (zlen l <? 9) eqn:H9; [done|]. ifs; [done|]. intros [= <-]. cbn. b2p. lia.
  - ifs; [done|]. intros [= <-]. cbn. b2p. lia.
Qed.

Lemma adts_header_app l h k : parse_header l = Ok h -> parse_header (l ++ k) = Ok h.
Proof.
  intros Hok. pose proof (parse_header_len l h Hok) as [_ Hlen]. revert Hok.
  unfold parse_header. pose proof (zlen_nonneg k).
  rewrite zlen_app, !(proj2 (Z.ltb_ge _ 7)) by lia. rewrite !idx_app_l by lia.
  intros Hok.
  apply rbind_ok in Hok as (b0 & -> & Hok). apply rbind_ok in Hok as (b1 & -> & Hok). rb. cbv zeta in *.
  revert Hok. ifs; [done|]. ifs; [done|]. intros Hok.
  apply rbind_ok in Hok as (b2 & -> & Hok). rb. apply rbind_ok in Hok as (p & -> & Hok). rb.
  apply rbind_ok in Hok as (sr & -> & Hok). rb. apply rbind_ok in Hok as (b3 & -> & Hok). rb.
  apply rbind_ok in Hok as (c & -> & Hok). rb. apply rbind_ok in Hok as (b4 & -> & Hok). rb.
  apply rbind_ok in Hok as (b5 & -> & Hok). rb. apply rbind_ok in Hok as (b6 & -> & Hok). rb.
  apply rbind_ok in Hok as (sp & -> & Hok). rb.
  destruct (Z.land b1 1 =? 0) eqn:Hc; cbn [andb] in *; [|done].
  revert Hok. destruct (zlen l <? 9) eqn:H9; [done|]. b2p. by rewrite (proj2 (Z.ltb_ge (zlen l + zlen k) 9)) by lia.
Qed.

End AacLaws.

#[global, program] Instance adts_laws : FrameLaws Aac.AdtsFrame := {| frame_body := Aac.body |}.
Next Obligation. intros l _. apply AacLaws.parse_header_total. Qed.
Next Obligation. intros l h Hp. apply AacLaws.parse_header_len in Hp. cbn [hdr_len adts_syntax]. lia. Qed.
Next Obligation.
  intros l h b _ Hp Hb. apply AacLaws.parse_header_len in Hp. cbn [hdr_len adts_syntax] in *.
  exists {| Aac.header := h; Aac.raw_header := ztake (Aac.raw_header_len h - 0) (zdrop 0 b); Aac.body := b |}.
  split; [|done]. intros E. cbn [mk_frame adts_syntax]. unfold Aac.make_frame.
  rewrite slice_ok by lia. rb. done.
Qed.
Next Obligation. intros l h k Hp _. by apply AacLaws.adts_header_app. Qed.

Module MpegLaws.
Import MpegAudio.

Lemma decode_version_total v : no_panic (decode_version (Z.land v 3)).
Proof. unfold decode_version. rewrite land_3. pose proof (Z.mod_pos_bound v 4). repeat ifs; b2p; try done; lia. Qed.

Lemma decode_layer_total v : no_panic (decode_layer (Z.land v 3)).
Proof. unfold decode_layer. rewrite land_3. pose proof (Z.mod_pos_bound v 4). repeat ifs; b2p; try done; lia. Qed.

(** The two table lookups, over all their indices. *)
Lemma decode_bitrate_spec v l i : 0 <= i < 16 ->
  no_panic (decode_bitrate v l i) /\ forall r, decode_bitrate v l i = Ok r -> 8 <= r <= 448 /\ (l = LayerI -> 32 <= r).
Proof.
  intros Hi.
  pose proof (below_all 16 (fun i => match decode_bitrate v l i with
    | Ok r => (8 <=? r) && (r <=? 448) && match l with LayerI => 32 <=? r | _ => true end
    | Err _ => true | Panic => false end) ltac:(destruct v, l; by vm_compute) i Hi) as Hb.
  cbv beta in Hb. destruct (decode_bitrate v l i) as [r| |]; [|done..].
  split; [done|]. intros r' [= <-]. destruct l; b2p; split; try lia; done.
Qed.

Lemma decode_sample_rate_spec v i : 0 <= i < 4 ->
  no_panic (decode_sample_rate v i) /\ forall r, decode_sample_rate v i = Ok r -> 8000 <= r <= 48000.
Proof.
  intros Hi.
  pose proof (below_all 4 (fun i => match decode_sample_rate v i with
    | Ok r => (8000 <=? r) && (r <=? 48000) | Err _ => true | Panic => false end)
    ltac:(destruct v; by vm_compute) i Hi) as Hb.
  cbv beta in Hb. destruct (decode_sample_rate v i) as [r| |]; [|done..].
  split; [done|]. intros r' [= <-]. b2p. lia.
Qed.

(** Every frame length is at least the four header bytes and fits the [u32]
    arithmetic of the source. *)
Lemma frame_length_range l v b s p : 8 <= b <= 448 -> (l = LayerI -> 32 <= b) -> 8000 <= s <= 48000 ->
  4 <= frame_length l v b s p <= u32_max.
Proof.
  intros Hb HI Hs. unfold frame_length, u32_max. change (2 ^ 32) with 4294967296.
  assert (H144 : 24 <= 144 * (b * 1000) / s <= 8064)
    by (split; [apply Z.div_le_lower_bound|apply Z.div_le_upper_bound]; lia).
  assert (H72 : 12 <= 72 * (b * 1000) / s <= 8064)
    by (split; [apply Z.div_le_lower_bound|apply Z.div_le_upper_bound]; lia).
  destruct l.
  - assert (8 <= 12 * (b * 1000) / s <= 8064)
      by (specialize (HI eq_refl); split; [apply Z.div_le_lower_bound|apply Z.div_le_upper_bound]; lia).
    destruct p; lia.
  - destruct p; lia.
  - destruct v, p; lia.
Qed.

Lemma parse_header_spec l :
  no_panic (parse_header l) /\ forall h, parse_header l = Ok h -> 4 <= frame_length_bytes h /\ 4 <= zlen l.
Proof.
  unfold parse_header. destruct (zlen l <? 4) eqn:H4; b2p; [done|].
  destruct (idx_ok (E:=CodecParseError) l 0) as (b0 & _ & ->); [lia|].
  destruct (idx_ok (E:=CodecParseError) l 1) as (b1 & _ & ->); [lia|].
  destruct (idx_ok (E:=CodecParseError) l 2) as (b2 & _ & ->); [lia|].
  destruct (idx_ok (E:=CodecParseError) l 3) as (b3 & _ & ->); [lia|]. rb. cbv zeta.
  set (w := Z.lor _ b3). clearbody w. ifs; [done|].
  pose proof (decode_version_total (Z.shiftr w 19)) as Hv. destruct (decode_version _) as [v| |]; [rb|done|done].
  pose proof (decode_layer_total (Z.shiftr w 17)) as Hy. destruct (decode_layer _) as [y| |]; [rb|done|done].
  destruct (decode_bitrate_spec v y (Z.land (Z.shiftr w 12) 15)) as [Hp Hb];
    [rewrite land_15; apply Z.mod_pos_bound; lia|].
  destruct (decode_bitrate v y _) as [b| |]; [rb|done|done].
  destruct (decode_sample_rate_spec v (Z.land (Z.shiftr w 10) 3)) as [Hq Hs];
    [rewrite land_3; apply Z.mod_pos_bound; lia|].
  destruct (decode_sample_rate v _) as [s| |]; [rb|done|done].
  split; [done|]. intros h [= <-]. cbn [frame_length_bytes]. split; [|lia].
  destruct (Hb b eq_refl) as [? ?]. apply frame_length_range; auto.
Qed.

Lemma mpeg_header_app l h k : parse_header l = Ok h -> parse_header (l ++ k) = Ok h.
Proof.
  intros Hok. pose proof (proj2 (parse_header_spec l) h Hok) as [_ H4]. revert Hok.
  unfold parse_header. pose proof (zlen_nonneg k).
  rewrite zlen_app, !(proj2 (Z.ltb_ge _ 4)) by lia. by rewrite !idx_app_l by lia.
Qed.

End MpegLaws.

#[global, program] Instance mpeg_laws : FrameLaws MpegAudio.Frame := {| frame_body := MpegAudio.body |}.
Next Obligation. intros l _. apply MpegLaws.parse_header_spec. Qed.
Next Obligation. intros l h Hp. apply MpegLaws.parse_header_spec in Hp. cbn [hdr_len mpeg_syntax]. lia. Qed.
Next Obligation.
  intros l h b _ _ _. by exists {| MpegAudio.header := h; MpegAudio.body := b |}.
Qed.
Next Obligation. intros l h k Hp _. by apply MpegLaws.mpeg_header_app. Qed.

(** * What the iterator guarantees, for any syntax with the laws *)
Module FramesTheorems.
Import Frames.

(** [pieces l bs]: the byte strings [bs] occur in [l] in order, without overlap. *)
Inductive pieces : list Z -> list (list Z) -> Prop :=
| pieces_nil l : pieces l []
| pieces_cons gap b rest bs : pieces rest bs -> pieces (gap ++ b ++ rest) (b :: bs).

Lemma pieces_later l bs i j : 0 <= i <= j -> pieces (zdrop j l) bs -> pieces (zdrop i l) bs.
Proof.
  intros Hij Hp. inversion Hp as [|gap b rest bs' Hp' Heq]; subst; [constructor|].
  replace (zdrop i l) with ((ztake (j - i) (zdrop i l) ++ gap) ++ b ++ rest); [by constructor|].
  rewrite <- app_assoc, Heq. replace (zdrop j l) with (zdrop (j - i) (zdrop i l)); [apply ztake_zdrop|].
  rewrite zdrop_zdrop by lia. f_equal. lia.
Qed.

Section Iterator.
Context {F : Type} {SF : FrameSyntax F} {LF : FrameLaws F} {E : Type}.
Implicit Types (buf : list Z) (it : Frames) (items : list (F + CodecParseError)).

Definition bodies items : list (list Z) :=
  flat_map (fun x => match x with inl f => [frame_body f] | inr _ => [] end) items.

Lemma scan_loop_ok fuel buf m : forall i, 0 <= i <= zlen buf -> zlen buf - i < Z.of_nat fuel ->
  exists r, scan_loop (E:=E) fuel buf i m = Ok r /\ forall n, r = Some n -> i <= n < zlen buf - 1.
Proof.
  induction fuel as [|fuel IH]; intros i Hi Hf.
  - lia.
  - cbn [scan_loop]. destruct (i <? zlen buf - 1) eqn:Hlt; b2p; [|by exists None].
    destruct (idx_ok (E:=E) buf i) as (b0 & _ & ->); [lia|].
    destruct (idx_ok (E:=E) buf (i + 1)) as (b1 & _ & ->); [lia|]. rb.
    ifs; [eexists; split; [done|]; intros n [= <-]; lia|].
    destruct (IH (i + 1)) as (r & -> & Hr); [lia|lia|]. exists r. split; [done|].
    intros n Hn%Hr. lia.
Qed.

(** The walk's position moves forward or the walk ends. *)
Lemma after_error_ok buf it : 0 <= cursor it < zlen buf ->
  exists it', after_error (E:=E) buf it = Ok it' /\ resync it' = resync it /\ cursor it <= cursor it' <= zlen buf /\
    (done_ it' = true \/ (done_ it' = done_ it /\ cursor it < cursor it')).
Proof.
  intros Hc. unfold after_error. destruct (resync it).
  - unfold scan_for_sync. destruct ((zlen buf <? 2) || (zlen buf - 1 <=? cursor it + 1)) eqn:Hs; b2p.
    + rb. eexists. split; [done|]. cbn. split_and!; [done|lia|lia|by left].
    + destruct (scan_loop_ok (S (length buf)) buf is_sync (cursor it + 1)) as (r & -> & Hr);
        [lia|unfold zlen in *; lia|]. rb.
      destruct r as [n|]; (eexists; split; [done|]; cbn).
      * specialize (Hr n eq_refl). split_and!; [done|lia|lia|right; split; [done|lia]].
      * split_and!; [done|lia|lia|by left].
  - eexists. split; [done|]. cbn. split_and!; [done|lia|lia|by left].
Qed.

Definition left_over buf it : Z := if done_ it then 0 else 1 + (zlen buf - cursor it).

Lemma collect_ok buf : bytes buf -> forall fuel it, 0 <= cursor it <= zlen buf ->
  left_over buf it < Z.of_nat fuel ->
  exists items, collect (E:=E) fuel buf it = Ok items /\ pieces (zdrop (cursor it) buf) (bodies items).
Proof.
  intros Hb fuel. induction fuel as [|fuel IH]; intros it Hc Hf.
  { unfold left_over in Hf. destruct (done_ it); lia. }
  cbn [collect]. unfold frames_next.
  destruct (done_ it) eqn:Hd; [rb; exists []; split; [done|constructor]|].
  destruct (zlen buf <=? cursor it) eqn:He; b2p; [rb; exists []; split; [done|constructor]|].
  rewrite slice_ok by lia. rb. rewrite ztake_all by (rewrite zlen_zdrop by lia; lia).
  unfold left_over in Hf. rewrite Hd in Hf.
  assert (Hrem : zlen (zdrop (cursor it) buf) = zlen buf - cursor it) by (rewrite zlen_zdrop; lia).
  assert (Hbr : bytes (zdrop (cursor it) buf)) by (by apply bytes_drop).
  assert (Herr : forall e, exists items,
    (let! (item, it) := (let! it := after_error (E:=E) buf it in Ok (Some (inr e), it)) in
     match item with
     | None => Ok []
     | Some x => let! rest := collect fuel buf it in Ok (x :: rest)
     end) = Ok items /\ pieces (zdrop (cursor it) buf) (bodies items)).
  { intros e. destruct (after_error_ok buf it) as (it' & -> & _ & Hc' & Hm); [lia|]. rb.
    destruct (IH it') as (items & -> & Hp); [lia| |].
    - unfold left_over. destruct Hm as [-> | [-> Hlt]]; [lia|]. rewrite Hd. lia.
    - rb. eexists. split; [done|]. cbn [bodies flat_map app]. apply (pieces_later _ _ _ (cursor it')); [lia|done]. }
  destruct (parse_hdr (zdrop (cursor it) buf)) as [h|e|] eqn:Hh.
  - destruct (zlen (zdrop (cursor it) buf) <? hdr_len h) eqn:Hlen; [apply Herr|]. b2p.
    pose proof (law_len _ h Hh) as Hpos.
    assert (Hz : zlen (ztake (hdr_len h) (zdrop (cursor it) buf)) = hdr_len h) by (apply zlen_ztake; lia).
    destruct (law_frame _ h _ Hbr Hh Hz) as (f & Hmk & Hbody).
    rewrite slice_ok by lia. rb. rewrite Z.sub_0_r, zdrop_0, Hmk. rb.
    destruct (IH {| cursor := cursor it + hdr_len h; done_ := false; resync := resync it |}) as (items & -> & Hp);
      [cbn; lia|unfold left_over; cbn; lia|]. rb.
    eexists. split; [done|]. cbn [bodies flat_map app]. rewrite Hbody. cbn [cursor] in Hp.
    rewrite <- (ztake_zdrop (zdrop (cursor it) buf) (hdr_len h)) at 1.
    apply (pieces_cons []). by rewrite zdrop_zdrop by lia.
  - apply Herr.
  - by apply law_total in Hbr.
Qed.

(** One complete frame: its header parses and announces its length. *)
Definition frame_ok (f : list Z) : Prop := bytes f /\ exists h, parse_hdr f = Ok h /\ hdr_len h = zlen f.

Lemma collect_frames fs : Forall frame_ok fs -> forall fuel pre, (length fs < fuel)%nat ->
  exists frs, (forall r, collect (E:=E) fuel (pre ++ concat fs) {| cursor := zlen pre; done_ := false; resync := r |}
    = Ok (map inl frs)) /\ map frame_body frs = fs.
Proof.
  induction 1 as [|f fs (Hbf & h & Hh & Hlen) Hfs IH]; intros [|fuel] pre Hf; cbn [length] in Hf; try lia.
  - exists []. split; [|done]. intros r. cbn [collect concat]. unfold frames_next. cbn [done_ cursor].
    by rewrite app_nil_r, (proj2 (Z.leb_le _ _)) by lia.
  - destruct (IH fuel (pre ++ f)) as (frs & Hc & Hm); [lia|].
    destruct (law_frame f h f Hbf Hh (eq_sym Hlen)) as (fr & Hmk & Hbody).
    exists (fr :: frs). split; [intros r|cbn [map]; by rewrite Hbody, Hm].
    cbn [collect concat]. unfold frames_next. cbn [done_ cursor resync].
    pose proof (law_len _ h Hh) as Hpos.
    rewrite (proj2 (Z.leb_gt _ _)) by zlia.
    rewrite (slice_end pre (f ++ concat fs)) by (rewrite ?zlen_app; lia). rb.
    rewrite (law_prefix f h) by (done || lia). rewrite (proj2 (Z.ltb_ge _ _)) by zlia.
    rewrite (slice_mid [] f (concat fs)) by (rewrite ?(@zlen_nil Z); done || lia). rb.
    rewrite Hmk. rb. specialize (Hc r). rewrite <- app_assoc, zlen_app in Hc. by rewrite Hlen, Hc.
Qed.

Lemma ok_count_inl (frs : list F) : ok_count (map inl frs) = zlen frs.
Proof. unfold ok_count. induction frs; cbn [map foldr]; [done|]. rewrite zlen_cons. lia. Qed.

Lemma frames_length fs : Forall frame_ok fs -> (length fs <= length (concat fs))%nat.
Proof.
  induction 1 as [|f fs (_ & h & Hh & Hlen) _ IH]; cbn [length concat]; [done|].
  pose proof (law_len _ h Hh). rewrite length_app. unfold zlen in *. lia.
Qed.
End Iterator.

(** On any bytes the resynchronising iterator terminates without a panic,
    and the frames it yields are disjoint pieces of the buffer in order, so the
    frame count the muxer adds to its statistics never counts a byte twice. *)
Theorem audio_frames_total {F} {SF : FrameSyntax F} {LF : FrameLaws F} (buf : list Z) :
  bytes buf ->
  exists items, frames_with_resync (E:=Empty_set) buf = Ok items /\ pieces buf (bodies items).
Proof.
  intros Hb. unfold frames_with_resync. pose proof (zlen_nonneg buf).
  apply (collect_ok buf Hb); [cbn; lia|unfold left_over, zlen; cbn; lia].
Qed.

Lemma audio_frames_total_witness :
  exists items : list (Aac.AdtsFrame + CodecParseError),
    frames_with_resync (E:=Empty_set) [0x00; 0xFF; 0xF1; 0x50; 0x80; 0x01; 0x1F; 0xFC; 0xAA] = Ok items.
Proof.
  destruct (audio_frames_total (F:=Aac.AdtsFrame) [0x00; 0xFF; 0xF1; 0x50; 0x80; 0x01; 0x1F; 0xFC; 0xAA])
    as (items & H & _).
  - repeat constructor; lia.
  - exists items. exact H.
Defined.

(** A buffer of complete audio frames, one after the other, is split into
    exactly those frames, with no error item, and the count is their number. *)
Theorem audio_frames_counted {F} {SF : FrameSyntax F} {LF : FrameLaws F} (fs : list (list Z)) :
  Forall frame_ok fs ->
  exists frs : list F, frames_with_resync (E:=Empty_set) (concat fs) = Ok (map inl frs) /\
    frames (E:=Empty_set) (concat fs) = Ok (map inl frs) /\
    map frame_body frs = fs /\ ok_count (map inl frs) = zlen fs.
Proof.
  intros Hok. pose proof (frames_length fs Hok) as Hl.
  destruct (collect_frames (E:=Empty_set) fs Hok (S (S (length (concat fs)))) []) as (frs & Hc & Hm); [lia|].
  exists frs. split_and!; [apply Hc|apply Hc|done|].
  rewrite ok_count_inl. unfold zlen. by rewrite <- Hm, length_map.
Qed.

Lemma audio_frames_counted_witness :
  let f := [0xFF; 0xF1; 0x50; 0x80; 0x01; 0x1F; 0xFC; 0xAA] in
  exists frs : list Aac.AdtsFrame,
    frames_with_resync (E:=Empty_set) (concat [f; f]) = Ok (map inl frs) /\ ok_count (map inl frs) = 2.
Proof.
  intros f. destruct (audio_frames_counted (F:=Aac.AdtsFrame) [f; f]) as (frs & H & _ & _ & Hc).
  - repeat constructor; try lia; (eexists; split; [vm_compute; reflexivity|reflexivity]).
  - exists frs. split; [exact H|exact Hc].
Defined.

End FramesTheorems.
