(* ===== verification/WireBytes.v ===== *)
(** Everything the writers put on the wire is made of bytes: packets, PES headers,
    teletext stuffing, wrapped AV1 units and metadata cells. *)
From Stdlib Require Import ZArith Lia Bool.
From stdpp Require Import base list list_numbers gmap.
From S2P Require Import Prelude Common TsPacket PesWriter PesDemux AnnexB AuCell.

Module WireBytes.
Import Common.

Lemma byte_lor a b : byte a -> byte b -> byte (Z.lor a b).
Proof.
  unfold byte. intros Ha Hb. rewrite <- (Z.mod_small a (2 ^ 8)), <- (Z.mod_small b (2 ^ 8)) by lia.
  rewrite <- !Z.land_ones, <- Z.land_lor_distr_l, Z.land_ones by lia. apply Z.mod_pos_bound. lia.
Qed.

Lemma byte_const b : (0 <=? b) && (b <? 256) = true -> byte b.
Proof. intros [? ?]%andb_prop. unfold byte. b2p. lia. Qed.

Create HintDb bytes_db.
#[local] Hint Resolve byte_lor as_u8_byte : bytes_db.
#[local] Hint Extern 2 (byte _) => apply byte_const; reflexivity : bytes_db.

Ltac bytes_tac := unfold bytes; repeat first [apply Forall_nil_2|apply Forall_cons_2]; auto with bytes_db.

(** ** Transport packets *)

Section packet.
Import TsWriter TsLayout.

Lemma header_bytes_ok pid pusi afc cc : 0 <= pid <= 0x1FFF -> afc = 1 \/ afc = 2 \/ afc = 3 -> 0 <= cc < 16 -> bytes (header pid pusi afc cc).
Proof.
  intros Hp Ha Hc. destruct (header_byte1 pid pusi Hp) as (_ & _ & _ & H1). destruct (header_byte3 afc cc Ha Hc) as (_ & _ & _ & H3).
  unfold header. bytes_tac.
Qed.

Lemma pcr_bytes_ok p : bytes (pcr_bytes p).
Proof. unfold pcr_bytes. bytes_tac. Qed.

Lemma af_bytes_ok a n : 0 <= n -> bytes (af_bytes a n).
Proof.
  intros Hn. unfold af_bytes. destruct (0 <? overhead a n) eqn:Ho; [|constructor]. b2p.
  pose proof (overhead_range a n Hn). pose proof (consumed_range a n Hn).
  constructor; [unfold byte, stuffing; unfold consumed in *; lia|]. apply bytes_app. split; [|apply bytes_rep; unfold byte; lia].
  unfold af_fields. destruct (0 <? min_size a).
  - constructor; [destruct a as [[] []]; by apply byte_const|]. destruct (pcr a); [apply pcr_bytes_ok|constructor].
  - destruct (overhead a n =? 2); bytes_tac.
Qed.

Lemma layout_bytes pid pusi a pl cc : 0 <= pid <= 0x1FFF -> 0 <= cc < 16 -> bytes pl -> bytes (layout pid pusi a pl cc).
Proof.
  intros Hp Hc Hb. unfold layout. apply bytes_app. split; [|apply bytes_app; split; [apply af_bytes_ok; zlia|by apply bytes_take]].
  apply header_bytes_ok; [done| |done]. unfold afc_of. destruct (_ <? _); auto.
Qed.

Lemma pcr_only_bytes pid p cc : 0 <= pid <= 0x1FFF -> 0 <= cc < 16 -> bytes (pcr_only_layout pid p cc).
Proof.
  intros Hp Hc. unfold pcr_only_layout. apply bytes_app. split; [apply header_bytes_ok; auto|]. apply bytes_app. split; [bytes_tac|].
  apply bytes_app. split; [apply pcr_bytes_ok|]. apply bytes_rep. by apply byte_const.
Qed.
End packet.

(** ** PES *)

Section pes.
Import PesWriter PesLayout PesParse.

Lemma pts_bytes_ok t m : bytes (pts_bytes t m).
Proof. unfold pts_bytes. cbv zeta. bytes_tac. Qed.

Lemma pes_header_bytes sid f n flags : has_optional_header sid = true -> bytes (pes_header sid f n flags).
Proof.
  unfold has_optional_header. intros [[H1 H2]%andb_prop _]%andb_prop. b2p. unfold pes_header. apply bytes_app. split.
  - assert (byte sid) by (unfold byte; lia). destruct (PesWriter.data_alignment_indicator flags), f; bytes_tac.
  - destruct f; cbn [pts_field_bytes]; [constructor|apply pts_bytes_ok|]. apply bytes_app. split; apply pts_bytes_ok.
Qed.

Lemma teletext_header_bytes t total : bytes (Teletext.teletext_header t total).
Proof.
  unfold Teletext.teletext_header. rewrite !bytes_app. split_and!; [bytes_tac|apply be16_bytes|bytes_tac|apply pts_bytes_ok|].
  apply bytes_rep. by apply byte_const.
Qed.

Lemma teletext_tail_bytes r : bytes (Teletext.tail r).
Proof.
  unfold Teletext.tail. apply bytes_app. split.
  - induction (Z.to_nat (r / 46)) as [|n IH]; [constructor|]. cbn [Teletext.units]. apply bytes_app. split; [bytes_tac|done].
  - unfold Teletext.partial_unit. pose proof (Z.mod_pos_bound r 46). destruct (_ =? 0) eqn:?; [constructor|].
    destruct (_ =? 1) eqn:?; [bytes_tac|]. b2p. apply bytes_app. split; [|apply bytes_rep; by apply byte_const].
    assert (byte (r mod 46 - 2)) by (unfold byte; lia). bytes_tac.
Qed.

Lemma teletext_id_bytes b : bytes (Teletext.id_bytes b).
Proof. unfold Teletext.id_bytes. destruct (dvb_teletext_will_auto_prepend b); bytes_tac. Qed.
End pes.

(** ** Payloads *)

Lemma escape_bytes unit_bytes : forall z out, bytes unit_bytes -> bytes out -> bytes (Av1.escape_loop z unit_bytes out).
Proof.
  induction unit_bytes as [|b l IH]; intros z out Hu Ho; [done|]. cbn [Av1.escape_loop].
  apply Forall_cons in Hu as [Hb Hu]. destruct (_ && _); (apply IH; [done|]); rewrite !bytes_app; split_and!; try done; bytes_tac.
Qed.

Lemma wrap_bytes {E} nal fuel : bytes nal -> forall i out v b, bytes out -> Av1.wrap_loop (E:=E) fuel nal i out = Ok (v, b) -> bytes v.
Proof.
  intros Hn. induction fuel as [|fuel IH]; intros i out v b Ho; cbn [Av1.wrap_loop]; [done|].
  destruct (i <? zlen nal); [|by intros [= <- _]].
  intros ([e|stop] & _ & He)%rbind_ok; [|by injection He as <- _].
  apply rbind_ok in He as (s & Hs & He). eapply IH; [|exact He]. apply escape_bytes; [|apply bytes_app; split; [done|bytes_tac]].
  unfold slice in Hs. destruct (_ && _); [|done]. injection Hs as <-. auto with zl.
Qed.

Lemma cell_bytes h b : AuCellTheorems.header_ok h -> bytes b -> bytes (AuCellTheorems.cell h b).
Proof.
  intros [H1 H2] Hb. unfold AuCellTheorems.cell. rewrite !bytes_app. split_and!; [|apply be16_bytes|done].
  destruct (AuCellTheorems.flags_bits h) as (Hf & _). unfold AuCellTheorems.header_bytes. bytes_tac.
Qed.

End WireBytes.
