(* ===== verification/Klv.v ===== *)
(** KLV substrate ([crates/tst-core/src/klv/length.rs], [checksum.rs], [pack.rs]):
    BER and BER-OID lengths and tags, the variable-length integers, the 16-bit
    running sum and the local-set iterator with the TLV writer that feeds it. *)
From Stdlib Require Import ZArith Lia Bool.
From stdpp Require Import base list list_numbers strings.
From S2P Require Import Prelude.

(** * Positional notation *)

(** Big-endian digits in base [b]: the reference the codecs below are proved
    against. *)
Module Digits.

Fixpoint digits (b : Z) (n : nat) (v : Z) : list Z :=
  match n with O => [] | S n' => (v / b ^ Z.of_nat n') mod b :: digits b n' v end.

Definition undigits (b : Z) (l : list Z) : Z := fold_left (fun a d => a * b + d) l 0.

(** The least count of digits, at least one. *)
Definition shortest (b : Z) (n : nat) (v : Z) : Prop :=
  (1 <= n)%nat /\ 0 <= v < b ^ Z.of_nat n /\ (n = 1%nat \/ b ^ (Z.of_nat n - 1) <= v).

Section Base.
Context (b : Z) (Hb : 2 <= b).
Implicit Types (l : list Z) (v : Z) (n : nat).

Lemma pow_pos n : 0 < b ^ Z.of_nat n.
Proof. apply Z.pow_pos_nonneg; lia. Qed.

Lemma pow_S n : b ^ Z.of_nat (S n) = b * b ^ Z.of_nat n.
Proof. rewrite Nat2Z.inj_succ. apply Z.pow_succ_r. lia. Qed.

Lemma digits_length n v : length (digits b n v) = n.
Proof. induction n; simpl; congruence. Qed.

Lemma digits_range n v : Forall (fun d => 0 <= d < b) (digits b n v).
Proof. induction n; simpl; constructor; [apply Z.mod_pos_bound; lia|done]. Qed.

Lemma fold_acc l a : fold_left (fun a d => a * b + d) l a = a * b ^ zlen l + undigits b l.
Proof.
  unfold undigits. revert a. induction l as [|d l IH]; intros a; simpl.
  - change (zlen (@nil Z)) with 0. lia.
  - rewrite IH, (IH (_ + d)), zlen_cons, Z.pow_add_r by zlia. ring.
Qed.

Lemma undigits_cons d l : undigits b (d :: l) = d * b ^ zlen l + undigits b l.
Proof. unfold undigits at 1. simpl. by rewrite fold_acc. Qed.

Lemma undigits_range l : Forall (fun d => 0 <= d < b) l -> 0 <= undigits b l < b ^ zlen l.
Proof.
  induction 1 as [|d l Hd _ IH]; [done|].
  rewrite undigits_cons, zlen_cons, Z.pow_add_r by zlia. nia.
Qed.

Lemma undigits_digits n v : undigits b (digits b n v) = v mod b ^ Z.of_nat n.
Proof.
  induction n as [|n IH]; [by rewrite Z.mod_1_r|].
  cbn [digits]. rewrite undigits_cons, IH. unfold zlen. rewrite digits_length, pow_S.
  pose proof (pow_pos n). rewrite (Z.mul_comm b), Z.rem_mul_r by lia. ring.
Qed.

Lemma digits_mod n v w : v mod b ^ Z.of_nat n = w mod b ^ Z.of_nat n -> digits b n v = digits b n w.
Proof.
  induction n as [|n IH]; [done|]. rewrite pow_S, (Z.mul_comm b). pose proof (pow_pos n).
  rewrite !Z.rem_mul_r by lia. intros Hm.
  pose proof (Z.mod_pos_bound v _ H). pose proof (Z.mod_pos_bound w _ H).
  edestruct (Z.div_mod_unique (b ^ Z.of_nat n)) as [Hh Hl]; [left; exact H0|left; exact H1|by rewrite Z.add_comm, Hm, Z.add_comm|].
  cbn [digits]. by rewrite Hh, IH.
Qed.

Lemma digits_undigits l : Forall (fun d => 0 <= d < b) l -> digits b (length l) (undigits b l) = l.
Proof.
  induction 1 as [|d l Hd Hl IH]; [done|]. cbn [length digits].
  rewrite undigits_cons. pose proof (undigits_range l Hl). pose proof (pow_pos (length l)).
  fold (zlen l) in *. f_equal.
  - rewrite Z.div_add_l, Z.div_small, Z.add_0_r by lia. by apply Z.mod_small.
  - etransitivity; [|exact IH]. apply digits_mod. fold (zlen l). by rewrite Z.add_comm, Z.mod_add by lia.
Qed.

Lemma undigits_digits_small n v : 0 <= v < b ^ Z.of_nat n -> undigits b (digits b n v) = v.
Proof. intros. rewrite undigits_digits. by apply Z.mod_small. Qed.

Lemma shortest_unique n m v : shortest b n v -> shortest b m v -> n = m.
Proof.
  assert (forall i j, (i < j)%nat -> shortest b i v -> shortest b j v -> False) as Hlt.
  { intros i j Hij (Hi & Hv & _) (Hj & _ & [->|Hl]); [lia|].
    pose proof (Z.pow_le_mono_r b (Z.of_nat i) (Z.of_nat j - 1)). lia. }
  intros Hn Hm. destruct (lt_eq_lt_dec n m) as [[?|?]|?]; [|done|]; exfalso; eauto.
Qed.

(** A digit string is shortest when its first digit is not a padding zero. *)
Lemma shortest_undigits d l : Forall (fun d => 0 <= d < b) (d :: l) -> d <> 0 \/ l = [] ->
  shortest b (S (length l)) (undigits b (d :: l)).
Proof.
  intros Hr Hd. pose proof (undigits_range _ Hr) as Hu. apply Forall_cons in Hr as [Hd0 Hr].
  split_and!; [lia|lia|exact (proj2 Hu)|].
  destruct Hd as [Hd| ->]; [right|by left].
  rewrite undigits_cons. pose proof (undigits_range _ Hr). unfold zlen in *.
  replace (Z.of_nat (S (length l)) - 1) with (Z.of_nat (length l)) by lia.
  pose proof (pow_pos (length l)). nia.
Qed.

Lemma shortest_head n v : shortest b (S n) v -> n <> O ->
  exists d l, digits b (S n) v = d :: l /\ 0 < d < b.
Proof.
  intros (_ & Hv & [?|Hl]) Hn; [lia|]. eexists _, _. split; [done|].
  replace (Z.of_nat (S n) - 1) with (Z.of_nat n) in Hl by lia. rewrite pow_S in Hv.
  pose proof (pow_pos n). rewrite Z.mod_small.
  - split; [by apply Z.div_str_pos|apply Z.div_lt_upper_bound; lia].
  - split; [by apply Z.div_pos; lia|apply Z.div_lt_upper_bound; lia].
Qed.
End Base.
End Digits.

(** * Errors *)

(** The variants the modelled codecs return. [KlvFieldError] and [KlvEncodeError]
    have others, with floating-point payloads, that no modelled function builds. *)
Inductive KlvFieldError : Type :=
| InvalidUtf8 (tag : Z)
| InvalidLength (tag expected got : Z)
| InvalidUtf16 (tag : Z)
| InvalidCodepoint (tag value : Z).

Inductive KlvDecodeError : Type :=
| Truncated (offset needed have : Z)
| MalformedLength (offset : Z)
| LengthOverflow (value : Z)
| MalformedTag (offset : Z)
| NonCanonicalLength (offset : Z)
| NonCanonicalTag (offset : Z)
| UnexpectedUniversalLabel (expected found : list Z)
| DuplicateTag (tag offset : Z)
| BadTimeStampPackLength (got : Z)
| St0102MissingRequiredTag (tag : Z)
| FieldError (e : KlvFieldError).

Inductive KlvEncodeError : Type :=
| BufferTooSmall (needed got : Z)
| RecordTooLarge
| MissingMandatoryItem (tag : Z) (name : string)
| ReservedTagInUnknown (tag : Z).

(** * Lengths and tags *)

Module Length.

Definition usize_max : Z := u64_max.

(** [&buf[i..]] *)
Definition from {E A} (buf : list A) (i : Z) : res E (list A) := slice buf i (zlen buf).

(** [for &b in w { value = (value << 8) | b }] on a [u64] *)
Definition shift_in (w : list Z) (value : Z) : Z :=
  fold_left (fun acc b => Z.lor (as_u64 (Z.shiftl acc 8)) b) w value.

Definition read_ber (buf : list Z) : res KlvDecodeError (Z * list Z) :=
  match get buf 0 with
  | None => Err (Truncated 0 1 0)
  | Some first =>
      if first <? 0x80 then
        let! rest := from buf 1 in Ok (first, rest)
      else
        let n := Z.land first 0x7F in
        if n =? 0 then Err (MalformedLength 0)
        else if 8 <? n then Err (MalformedLength 0)
        else if zlen buf <? 1 + n then Err (Truncated 1 n (zlen buf - 1))
        else
          let! w := slice buf 1 (1 + n) in
          let value := shift_in w 0 in
          if usize_max <? value then Err (LengthOverflow value)
          else let! rest := from buf (1 + n) in Ok (value, rest)
  end.

Definition read_ber_strict (buf : list Z) : res KlvDecodeError (Z * list Z) :=
  let! (value, rest) := read_ber buf in
  let! first := idx buf 0 in
  if nz (Z.land first 0x80) then
    if value <? 0x80 then Err (NonCanonicalLength 0)
    else
      let n := Z.land first 0x7F in
      if (0 <? n) && (n <? zlen buf) then
        let! b1 := idx buf 1 in
        if b1 =? 0 then Err (NonCanonicalLength 1) else Ok (value, rest)
      else Ok (value, rest)
  else Ok (value, rest).

(** The loop of [read_ber_oid] and [read_ber_oid_u64]: an accumulator of [width]
    bits, the greatest value accepted, the number of bytes after which another
    continuation is malformed, and the value an overflow reports. *)
Fixpoint oid_loop (width max cap : Z) (report : Z -> Z) (buf : list Z)
    (fuel : nat) (value consumed : Z) : res KlvDecodeError (Z * list Z) :=
  match fuel with
  | O => Panic
  | S fuel =>
      match get buf consumed with
      | None => Err (Truncated consumed 1 0)
      | Some b =>
          let consumed := consumed + 1 in
          let value := Z.lor (Z.shiftl value 7 mod 2 ^ width) (Z.land b 0x7F) in
          if max <? value then Err (LengthOverflow (report value))
          else if Z.land b 0x80 =? 0 then let! rest := from buf consumed in Ok (value, rest)
          else if cap <? consumed then Err (MalformedTag 0)
          else oid_loop width max cap report buf fuel value consumed
      end
  end.

(** The cap ends the loop within [cap + 1] turns. *)
Definition read_ber_oid (buf : list Z) : res KlvDecodeError (Z * list Z) :=
  oid_loop 64 u32_max 5 (fun v => v) buf 6 0 0.

Definition read_ber_oid_u64 (buf : list Z) : res KlvDecodeError (Z * list Z) :=
  oid_loop 128 u64_max 10 (fun _ => u64_max) buf 11 0 0.

Definition read_ber_oid_strict (buf : list Z) : res KlvDecodeError (Z * list Z) :=
  if decide (get buf 0 = Some 0x80) then Err (NonCanonicalTag 0) else read_ber_oid buf.

Definition rebase_offset (e : KlvDecodeError) (base : Z) : KlvDecodeError :=
  match e with
  | Truncated offset needed have => Truncated (offset + base) needed have
  | NonCanonicalTag offset => NonCanonicalTag (offset + base)
  | MalformedTag offset => MalformedTag (offset + base)
  | NonCanonicalLength offset => NonCanonicalLength (offset + base)
  | MalformedLength offset => MalformedLength (offset + base)
  | e => e
  end.

Definition read_strict_tlv (buf : list Z) (base : Z) : res KlvDecodeError (Z * Z * Z * list Z) :=
  let! (tag, after_tag) := map_err (fun e => rebase_offset e base) (read_ber_oid_strict buf) in
  let! consumed_tag := usub (zlen buf) (zlen after_tag) in
  let! (declared_len, after_len) :=
    map_err (fun e => rebase_offset e (base + consumed_tag)) (read_ber_strict after_tag) in
  let! consumed_len := usub (zlen after_tag) (zlen after_len) in
  Ok (tag, declared_len, consumed_tag + consumed_len, after_len).

(** [while v > 0 { bytes += 1; v >>= k }] *)
Fixpoint count_loop (fuel : nat) (k v bytes : Z) : Z :=
  match fuel with
  | O => bytes
  | S fuel => if 0 <? v then count_loop fuel k (Z.shiftr v k) (bytes + 1) else bytes
  end.

(** A [u64] is exhausted by 64 shifts, whatever the step. *)
Definition count_shifts (k v : Z) : Z := count_loop 64 k v 0.

Definition ber_len (value : Z) : Z :=
  if value <? 0x80 then 1 else 1 + count_shifts 8 value.

Definition ber_oid_len (value : Z) : Z :=
  if value =? 0 then 1 else count_shifts 7 value.

Definition ber_oid_len_u64 (value : Z) : Z :=
  if value =? 0 then 1 else count_shifts 7 value.

(** [for i in 0..n { out[1 + i] = (value >> (8 * (n - 1 - i))) & 0xFF }], from [i]
    with [todo] turns left *)
Fixpoint write_ber_loop (todo : nat) (value n i : Z) (out : list Z) : res KlvEncodeError (list Z) :=
  match todo with
  | O => Ok out
  | S todo =>
      let! out := put out (1 + i) [as_u8 (Z.land (Z.shiftr value (8 * (n - 1 - i))) 0xFF)] in
      write_ber_loop todo value n (i + 1) out
  end.

(** The count written and the buffer afterwards. *)
Definition write_ber (value : Z) (out : list Z) : res KlvEncodeError (Z * list Z) :=
  let needed := ber_len value in
  if zlen out <? needed then Err (BufferTooSmall needed (zlen out))
  else if value <? 0x80 then
    let! out := put out 0 [as_u8 value] in Ok (1, out)
  else
    let n := needed - 1 in
    if 8 <? n then Err RecordTooLarge
    else
      let! out := put out 0 [Z.lor 0x80 (as_u8 n)] in
      let! out := write_ber_loop (Z.to_nat n) value n 0 out in
      Ok (needed, out).

(** The first [needed] slots of [out], from slot [i] with [todo] left. *)
Fixpoint write_oid_loop (todo : nat) (value needed i : Z) (out : list Z) : res KlvEncodeError (list Z) :=
  match todo with
  | O => Ok out
  | S todo =>
      let shift := 7 * (needed - 1 - i) in
      let byte := as_u8 (Z.land (Z.shiftr value shift) 0x7F) in
      let byte := if i + 1 <? needed then Z.lor byte 0x80 else byte in
      let! out := put out i [byte] in
      write_oid_loop todo value needed (i + 1) out
  end.

Definition write_ber_oid_u64 (value : Z) (out : list Z) : res KlvEncodeError (Z * list Z) :=
  let needed := ber_oid_len_u64 value in
  if zlen out <? needed then Err (BufferTooSmall needed (zlen out))
  else
    let! out := write_oid_loop (Z.to_nat needed) value needed 0 out in
    Ok (needed, out).

Definition write_ber_oid (value : Z) (out : list Z) : res KlvEncodeError (Z * list Z) :=
  write_ber_oid_u64 value out.

(** ** Variable-length integers *)

Definition read_var_uint (bytes : list Z) (max_len tag : Z) : res KlvFieldError Z :=
  if (zlen bytes =? 0) || (max_len <? zlen bytes) || (8 <? zlen bytes)
  then Err (InvalidLength tag (Z.min max_len 8) (zlen bytes))
  else Ok (shift_in bytes 0).

Definition read_var_int (bytes : list Z) (max_len tag : Z) : res KlvFieldError Z :=
  let! raw := read_var_uint bytes max_len tag in
  let shift := 64 - 8 * zlen bytes in
  Ok (Z.shiftr (as_i64 (as_u64 (Z.shiftl raw shift))) shift).

(** [u64::leading_zeros] *)
Definition leading_zeros (v : Z) : Z := if v =? 0 then 64 else 63 - Z.log2 v.

Definition to_be_bytes64 (v : Z) : list Z := Digits.digits 256 8 v.

Definition var_uint_min_len (v : Z) : Z := Z.max (8 - leading_zeros v / 8) 1.

Definition write_var_uint_min_into {E} (v : Z) (out : list Z) : res E (list Z) :=
  let n := var_uint_min_len v in
  let! tail := from (to_be_bytes64 v) (8 - n) in
  Ok (out ++ tail).

Definition write_var_uint_min {E} (v : Z) : res E (list Z) := write_var_uint_min_into v [].

(** The [while n > 1] loop; [n] starts at 8, so eight turns are enough. *)
Fixpoint var_int_len_loop {E} (fuel : nat) (bytes : list Z) (n : Z) : res E Z :=
  match fuel with
  | O => Ok n
  | S fuel =>
      if 1 <? n then
        let! lead := idx bytes (8 - n) in
        let! next := idx bytes (8 - n + 1) in
        let next_msb := Z.land next 0x80 in
        if ((lead =? 0x00) && (next_msb =? 0)) || ((lead =? 0xFF) && nz next_msb)
        then var_int_len_loop fuel bytes (n - 1)
        else Ok n
      else Ok n
  end.

Definition var_int_min_len {E} (v : Z) : res E Z := var_int_len_loop 8 (to_be_bytes64 v) 8.

Definition write_var_int_min {E} (v : Z) : res E (list Z) :=
  let! n := var_int_min_len v in
  from (to_be_bytes64 v) (8 - n).

End Length.

(** ** What the encodings are *)

Module LengthSpec.
Import Length.

(** [l] is a BER length field of value [v]: one byte below 128, or a byte count
    and that many big-endian bytes. *)
Definition ber_encodes (l : list Z) (v : Z) : Prop :=
  (l = [v] /\ 0 <= v < 128) \/
  (exists w, l = 128 + zlen w :: w /\ 1 <= zlen w <= 8 /\ bytes w /\ v = Digits.undigits 256 w).

(** [l] is a base-128 integer of value [v], the top bit set on all bytes but the
    last. *)
Definition oid_encodes (l : list Z) (v : Z) : Prop :=
  exists ds d, l = map (Z.add 128) ds ++ [d] /\ Forall (fun x => 0 <= x < 128) (ds ++ [d]) /\
    v = Digits.undigits 128 (ds ++ [d]).

(** No other encoding of the value takes fewer bytes. *)
Definition fewest (encodes : list Z -> Z -> Prop) (l : list Z) (v : Z) : Prop :=
  encodes l v /\ forall l', encodes l' v -> zlen l <= zlen l'.

End LengthSpec.

Module LengthLemmas.
Import Digits Length LengthSpec.

Lemma from_app {E} (l k : list Z) i : i = zlen l -> from (E:=E) (l ++ k) i = Ok k.
Proof. intros ->. unfold from. by apply (slice_tail l k). Qed.

Lemma shift_in_acc w : bytes w -> forall a, 0 <= a -> a * 256 ^ zlen w + 256 ^ zlen w <= 2 ^ 64 ->
  shift_in w a = a * 256 ^ zlen w + undigits 256 w.
Proof.
  unfold shift_in. induction 1 as [|x w Hx Hw IH]; intros a Ha Hm.
  { change (zlen (@nil Z)) with 0. unfold undigits. simpl. lia. }
  rewrite undigits_cons by lia. rewrite zlen_cons, Z.pow_add_r in * by zlia.
  assert (0 < 256 ^ zlen w) by (apply Z.pow_pos_nonneg; zlia). unfold byte in Hx.
  cbn [fold_left]. unfold as_u64. rewrite shiftl_mul by lia. change (2 ^ 8) with 256 in *.
  rewrite Z.mod_small by nia.
  assert (Z.lor (a * 256) x = a * 256 + x) as -> by (apply (lor_add 8); lia).
  rewrite IH; nia.
Qed.

Lemma shift_in_undigits w : bytes w -> zlen w <= 8 -> shift_in w 0 = undigits 256 w.
Proof.
  intros Hw Hl. rewrite shift_in_acc by (try done; try lia;
    pose proof (Z.pow_le_mono_r 256 (zlen w) 8); zlia). lia.
Qed.

Lemma undigits_u64 w : bytes w -> zlen w <= 8 -> 0 <= undigits 256 w <= u64_max.
Proof.
  intros Hw Hl. pose proof (undigits_range 256 ltac:(lia) w Hw).
  pose proof (Z.pow_le_mono_r 256 (zlen w) 8). unfold u64_max. zlia.
Qed.

Lemma read_ber_ok buf v rest : bytes buf ->
  read_ber buf = Ok (v, rest) <-> exists l, buf = l ++ rest /\ ber_encodes l v.
Proof.
  intros Hb. split.
  - destruct buf as [|x buf]; [done|]. apply Forall_cons in Hb as [Hx Hb]. unfold byte in Hx.
    unfold read_ber. change (get (x :: buf) 0) with (Some x). cbn beta iota.
    assert (Hland : Z.land x 127 = x mod 128) by apply land_127. rewrite Hland.
    destruct (x <? 128) eqn:Ex; b2p.
    + rewrite (from_app [x] buf) by done. intros [= -> ->]. exists [v]. split; [done|left]. by split; [|lia].
    + ifs; [done|]. ifs; [done|]. ifs; [done|]. b2p. rewrite zlen_cons in *.
      assert (Hx' : x = 128 + x mod 128) by dlia. set (n := x mod 128) in *.
      rewrite <- (ztake_zdrop buf n). set (w := ztake n buf). set (r := zdrop n buf).
      assert (zlen w = n) by (apply zlen_ztake; zlia).
      assert (bytes w) by by apply bytes_take.
      rewrite (slice_app [x] w r) by zlia. rb.
      change (x :: w ++ r) with ((x :: w) ++ r). rewrite from_app by zlia. rb.
      ifs; [done|]. intros [= <- <-]. exists (x :: w). split; [done|right]. exists w.
      rewrite H. split_and!; [congruence|lia|lia|done|]. apply shift_in_undigits; [done|lia].
  - intros (l & -> & [[-> Hv]|(w & -> & Hw & Hbw & ->)]); unfold read_ber; cbn [app].
    + change (get (v :: rest) 0) with (Some v). cbn beta iota.
      rewrite (proj2 (Z.ltb_lt _ _)) by lia. by rewrite (from_app [v] rest).
    + change (get (128 + zlen w :: w ++ rest) 0) with (Some (128 + zlen w)). cbn beta iota zeta.
      rewrite (proj2 (Z.ltb_ge _ _)) by lia. rewrite land_127.
      replace ((128 + zlen w) mod 128) with (zlen w) by dlia.
      rewrite (proj2 (Z.eqb_neq _ _)), !(proj2 (Z.ltb_ge _ _)) by zlia.
      rewrite (slice_app [128 + zlen w] w rest) by zlia. rb.
      rewrite shift_in_undigits by (done || lia). pose proof (undigits_u64 w Hbw ltac:(lia)).
      rewrite (proj2 (Z.ltb_ge _ _)) by (unfold usize_max; lia).
      change (?a :: w ++ rest) with ((a :: w) ++ rest). by rewrite from_app by zlia.
Qed.

Lemma read_ber_no_panic buf : no_panic (read_ber buf).
Proof.
  unfold read_ber. destruct buf as [|x buf]; [done|].
  change (get (x :: buf) 0) with (Some x). cbn beta iota.
  ifs; [by rewrite (from_app [x] buf)|]. rewrite land_127. do 3 (ifs; [done|]). b2p.
  rewrite slice_ok by (try lia; dlia). rb. ifs; [done|]. unfold from. by rewrite slice_ok by (try lia; dlia).
Qed.

Lemma top_bit x : byte x -> nz (Z.land x 0x80) = (128 <=? x).
Proof.
  intros Hx. apply eqb_prop.
  exact (byte_all (fun x => eqb (nz (Z.land x 0x80)) (128 <=? x)) eq_refl x Hx).
Qed.

Lemma land_80_eqb x : byte x -> (Z.land x 0x80 =? 0) = (x <? 128).
Proof.
  intros Hx. rewrite <- (negb_involutive (_ =? 0)). change (negb (?a =? 0)) with (nz a).
  rewrite top_bit by done. destruct (Z.leb_spec 128 x), (Z.ltb_spec x 128); try done; lia.
Qed.

Lemma bytes_digits n v : bytes (digits 256 n v).
Proof. apply digits_range. lia. Qed.

Lemma count_bits n : 1 <= n <= 8 -> Z.land (128 + n) 127 = n.
Proof. intros. rewrite land_127. dlia. Qed.

(** Long-form fields of one value: the fewest bytes means no padding zero. *)
Lemma padded_is_longer w w' : bytes w -> bytes w' -> w <> [] -> head w <> Some 0 ->
  undigits 256 w = undigits 256 w' -> zlen w <= zlen w'.
Proof.
  intros Hw Hw' Hn Hh Hu. destruct w as [|x w]; [done|].
  destruct (Z.le_gt_cases (zlen (x :: w)) (zlen w')) as [|Hlt]; [done|exfalso].
  pose proof (undigits_range 256 ltac:(lia) w' Hw') as Hr. rewrite <- Hu in Hr.
  rewrite undigits_cons, zlen_cons in * by lia. apply Forall_cons in Hw as [Hx Hw]. unfold byte in Hx.
  pose proof (undigits_range 256 ltac:(lia) w Hw).
  pose proof (Z.pow_le_mono_r 256 (zlen w') (zlen w)).
  assert (x <> 0) by (intros ->; done). nia.
Qed.

Lemma fewest_ber l v : ber_encodes l v ->
  (forall l', ber_encodes l' v -> zlen l <= zlen l') <->
  match l with _ :: x :: _ => 128 <= v /\ x <> 0 | _ => True end.
Proof.
  intros [[-> Hv]|(w & -> & Hw & Hb & ->)].
  { split; [done|]. intros _ l' [[-> _]|(w & -> & ? & _)]; zlia. }
  destruct w as [|x w]; [rewrite zlen_nil in Hw; lia|]. split.
  - intros Hf. pose proof (undigits_u64 _ Hb ltac:(lia)). split.
    + destruct (Z.le_gt_cases 128 (undigits 256 (x :: w))); [done|exfalso].
      pose proof (Hf [undigits 256 (x :: w)] ltac:(left; split; [done|lia])). zlia.
    + intros ->. apply Forall_cons in Hb as [_ Hb]. rewrite undigits_cons in * by lia.
      destruct (decide (w = [])) as [->|Hn].
      * specialize (Hf [0]). rewrite Z.mul_0_l in Hf. pose proof (Hf ltac:(by left)). zlia.
      * pose proof (Hf (128 + zlen w :: w)) as Hf'.
        assert (ber_encodes (128 + zlen w :: w) (0 * 256 ^ zlen w + undigits 256 w)).
        { right. exists w. split_and!; [done|destruct w; [done|zlia]|zlia|done|lia]. }
        specialize (Hf' H0). zlia.
  - intros (Hv & Hx) l' [[-> ?]|(w' & -> & Hw' & Hb' & Hu)]; [lia|].
    pose proof (padded_is_longer (x :: w) w' Hb Hb' ltac:(done) ltac:(simpl; congruence) Hu). zlia.
Qed.

Lemma read_ber_strict_ok buf v rest : bytes buf ->
  read_ber_strict buf = Ok (v, rest) <-> exists l, buf = l ++ rest /\ fewest ber_encodes l v.
Proof.
  intros Hb.
  assert (Hstep : forall l, buf = l ++ rest -> ber_encodes l v ->
    read_ber_strict buf = Ok (v, rest) <-> match l with _ :: x :: _ => 128 <= v /\ x <> 0 | _ => True end).
  { intros l Hl He. unfold read_ber_strict.
    rewrite (proj2 (read_ber_ok buf v rest Hb)) by eauto. rb. subst buf.
    destruct He as [[-> Hv]|(w & -> & Hw & Hbw & Hv)].
    - cbn [app]. idxs. rewrite top_bit by (unfold byte; lia). by rewrite (proj2 (Z.leb_gt _ _)) by lia.
    - destruct w as [|x w]; [rewrite zlen_nil in Hw; lia|]. cbn [app]. idxs. rewrite top_bit by (unfold byte; lia).
      rewrite (proj2 (Z.leb_le _ _)), count_bits by lia.
      destruct (v <? 128) eqn:E1; b2p; [split; [done|lia]|].
      rewrite !(proj2 (Z.ltb_lt _ _)) by zlia. rb. idxs.
      destruct (x =? 0) eqn:E2; b2p; split; auto; try done; lia. }
  split.
  - intros Hs. assert (exists l, buf = l ++ rest /\ ber_encodes l v) as (l & Hl & He).
    { apply read_ber_ok; [done|]. unfold read_ber_strict in Hs.
      destruct (read_ber buf) as [[v' r']| |]; [|done..]. cbn [rbind] in Hs.
      destruct (idx buf 0); [|done..]. cbn [rbind] in Hs.
      revert Hs. repeat (ifs; try done); destruct (idx buf 1); cbn [rbind]; try done; ifs; done. }
    exists l. split; [done|]. split; [done|]. apply fewest_ber; [done|]. by apply Hstep.
  - intros (l & Hl & He & Hf). apply (Hstep l); [done..|]. by apply fewest_ber in Hf.
Qed.

Lemma read_ber_strict_no_panic buf : bytes buf -> no_panic (read_ber_strict buf).
Proof.
  intros Hb. unfold read_ber_strict.
  destruct (read_ber buf) as [[v rest]| |] eqn:E; [|done|by apply read_ber_no_panic in E]. rb.
  apply read_ber_ok in E as (l & -> & He); [|done].
  destruct l as [|x l]; [by destruct He as [[? _]|(? & ? & _)]|]. cbn [app]. idxs.
  ifs; [|done]. ifs; [done|]. ifs; [|done]. b2p. apply Z.ltb_lt in H0.
  edestruct (idx_ok (E:=KlvDecodeError) (x :: l ++ rest) 1) as (y & _ & ->); [|rb; by ifs].
  lia.
Qed.

(** *** BER-OID *)

Lemma fold_oid_ge l : forall a, 0 <= a -> Forall (fun x => 0 <= x < 128) l ->
  a <= fold_left (fun a x => a * 128 + x) l a.
Proof.
  induction l as [|y l IH]; intros a Ha Hl; simpl; [lia|].
  apply Forall_cons in Hl as [? Hl]. pose proof (IH (a * 128 + y) ltac:(lia) Hl). lia.
Qed.

Lemma oid_loop_ok width max cap report buf u rest :
  0 <= width -> max * 128 + 127 < 2 ^ width -> bytes buf ->
  forall fuel pre tail v, buf = pre ++ tail -> zlen pre + Z.of_nat fuel = cap + 1 -> 0 <= v <= max ->
  oid_loop width max cap report buf fuel v (zlen pre) = Ok (u, rest) <->
  exists ds d, tail = map (Z.add 128) ds ++ d :: rest /\ Forall (fun x => 0 <= x < 128) (ds ++ [d]) /\
    u = fold_left (fun a x => a * 128 + x) (ds ++ [d]) v /\ u <= max /\ (length ds < fuel)%nat.
Proof.
  intros Hw Hm Hb. induction fuel as [|fuel IH]; intros pre tail v Hbuf Hf Hv.
  { split; [done|]. intros (? & ? & ? & ? & ? & ? & ?). lia. }
  cbn [oid_loop]. destruct tail as [|x tail].
  { rewrite Hbuf, app_nil_r. destruct (get pre (zlen pre)) eqn:Eg.
    - apply get_Some in Eg. lia.
    - split; [done|]. intros (ds & d & He & _). by destruct ds. }
  assert (Hget : get buf (zlen pre) = Some x) by (rewrite Hbuf; apply get_app_len). rewrite Hget.
  assert (Hx : byte x) by (by eapply bytes_get). unfold byte in Hx. cbn zeta.
  rewrite shiftl_mul, Z.mod_small, land_127, land_80_eqb by (try lia; done).
  assert (Z.lor (v * 2 ^ 7) (x mod 128) = v * 128 + x mod 128) as -> by (apply (lor_add 7); dlia).
  assert (Hbuf' : buf = (pre ++ [x]) ++ tail) by by rewrite Hbuf, <- app_assoc.
  assert (Hl : zlen (pre ++ [x]) = zlen pre + 1) by zlia.
  destruct (max <? v * 128 + x mod 128) eqn:E1; b2p.
  { split; [done|]. intros (ds & d & He & Hr & Hu & Hle & _). exfalso.
    destruct ds as [|y ds]; cbn [map app] in *; injection He as -> ->; cbn [fold_left] in Hu.
    - apply Forall_inv in Hr. rewrite Z.mod_small in E1 by lia. lia.
    - apply Forall_cons in Hr as [Hy Hr].
      replace ((128 + y) mod 128) with y in E1 by dlia.
      pose proof (fold_oid_ge (ds ++ [d]) (v * 128 + y) ltac:(lia) Hr). lia. }
  destruct (x <? 128) eqn:E2; b2p.
  - rewrite Hbuf' at 1. rewrite from_app by lia. rb. rewrite Z.mod_small in * by lia. split.
    + intros [= <- <-]. exists [], x. split_and!; [done|constructor; [lia|constructor]|done|lia|simpl; lia].
    + intros (ds & d & He & Hr & -> & Hle & _). destruct ds as [|y ds]; cbn [map app] in *.
      * by injection He as -> ->.
      * injection He as -> _. apply Forall_inv in Hr. lia.
  - destruct (cap <? zlen pre + 1) eqn:E3; b2p.
    + split; [done|]. intros (ds & d & He & Hr & _ & _ & Hlt). exfalso.
      destruct ds as [|y ds]; cbn [map app] in *.
      * injection He as -> _. apply Forall_inv in Hr. lia.
      * simpl in Hlt. lia.
    + rewrite <- Hl. rewrite (IH (pre ++ [x]) tail) by (try done; try lia; dlia). split.
      * intros (ds & d & -> & Hr & -> & Hle & Hlt). exists (x mod 128 :: ds), d. cbn [map app fold_left].
        split_and!; [f_equal; dlia|constructor; [dlia|done]|done|done|simpl; lia].
      * intros (ds & d & He & Hr & -> & Hle & Hlt). destruct ds as [|y ds]; cbn [map app] in *.
        -- injection He as -> _. apply Forall_inv in Hr. lia.
        -- injection He as -> ->. apply Forall_cons in Hr as [Hy Hr]. simpl in Hlt.
           exists ds, d. cbn [fold_left] in *. replace ((128 + y) mod 128) with y by dlia.
           split_and!; [done|done|done|done|lia].
Qed.

Lemma oid_loop_encodes width max cap report buf u rest fuel :
  0 <= width -> max * 128 + 127 < 2 ^ width -> 0 <= max -> bytes buf -> Z.of_nat fuel = cap + 1 ->
  oid_loop width max cap report buf fuel 0 0 = Ok (u, rest) <->
  exists l, buf = l ++ rest /\ oid_encodes l u /\ u <= max /\ zlen l <= cap + 1.
Proof.
  intros Hw Hm H0 Hb Hf. change 0 with (zlen (@nil Z)) at 2.
  rewrite (oid_loop_ok width max cap report buf u rest Hw Hm Hb fuel [] buf 0) by (done || zlia || lia). split.
  - intros (ds & d & -> & Hr & -> & Hle & Hlt). exists (map (Z.add 128) ds ++ [d]).
    rewrite <- app_assoc. split_and!; [done|by exists ds, d|done|].
    unfold zlen. rewrite length_app, length_map. simpl. lia.
  - intros (l & -> & (ds & d & -> & Hr & ->) & Hle & Hlen). exists ds, d.
    rewrite <- app_assoc. split_and!; [done|done|done|done|].
    unfold zlen in Hlen. rewrite length_app, length_map in Hlen. simpl in Hlen. lia.
Qed.

Lemma read_ber_oid_ok buf u rest : bytes buf ->
  read_ber_oid buf = Ok (u, rest) <->
  exists l, buf = l ++ rest /\ oid_encodes l u /\ u <= u32_max /\ zlen l <= 6.
Proof. intros. by apply (oid_loop_encodes 64 u32_max 5 (fun v => v)). Qed.

Lemma read_ber_oid_u64_ok buf u rest : bytes buf ->
  read_ber_oid_u64 buf = Ok (u, rest) <->
  exists l, buf = l ++ rest /\ oid_encodes l u /\ u <= u64_max /\ zlen l <= 11.
Proof. intros. by apply (oid_loop_encodes 128 u64_max 10 (fun _ => u64_max)). Qed.

Lemma oid_loop_no_panic width max cap report buf fuel : forall v c,
  0 <= c -> c + Z.of_nat fuel = cap + 1 -> c <= cap -> no_panic (oid_loop width max cap report buf fuel v c).
Proof.
  induction fuel as [|fuel IH]; intros v c Hc Hf Hcap; [lia|]. cbn [oid_loop].
  destruct (get buf c) eqn:Eg; [|done]. apply get_Some in Eg. cbn zeta. ifs; [done|]. ifs.
  - unfold from. by rewrite slice_ok by lia.
  - ifs; [done|]. b2p. apply IH; lia.
Qed.

Lemma read_ber_oid_no_panic buf : no_panic (read_ber_oid buf).
Proof. apply oid_loop_no_panic; lia. Qed.

Lemma read_ber_oid_u64_no_panic buf : no_panic (read_ber_oid_u64 buf).
Proof. apply oid_loop_no_panic; lia. Qed.

Lemma oid_encodes_len l ds d : l = map (Z.add 128) ds ++ [d] -> zlen l = zlen (ds ++ [d]).
Proof. intros ->. unfold zlen. by rewrite !length_app, length_map. Qed.

(** The fewest bytes means no leading [0x80]. *)
Lemma fewest_oid l v : oid_encodes l v ->
  (forall l', oid_encodes l' v -> zlen l <= zlen l') <-> head l <> Some 128.
Proof.
  intros (ds & d & Hl & Hr & Hv). split.
  - intros Hf Hh. destruct ds as [|y ds]; subst l; cbn [map app head] in *.
    + injection Hh as ->. apply Forall_inv in Hr. lia.
    + assert (y = 0) as -> by (injection Hh; lia). apply Forall_cons in Hr as [_ Hr].
      rewrite undigits_cons in Hv by lia. pose proof (Hf (map (Z.add 128) ds ++ [d])) as Hf'.
      rewrite zlen_cons in Hf'. assert (oid_encodes (map (Z.add 128) ds ++ [d]) v) by (exists ds, d; auto with lia).
      specialize (Hf' H). lia.
  - intros Hh l' (ds' & d' & Hl' & Hr' & Hv'). rewrite (oid_encodes_len l ds d), (oid_encodes_len l' ds' d') by done.
    destruct (Z.le_gt_cases (zlen (ds ++ [d])) (zlen (ds' ++ [d']))) as [|Hlt]; [done|exfalso].
    pose proof (undigits_range 128 ltac:(lia) _ Hr') as Hu. rewrite <- Hv' in Hu.
    destruct ds as [|y ds]; [zlia|]. subst l. cbn [map app head] in *.
    apply Forall_cons in Hr as [Hy Hr]. rewrite undigits_cons, zlen_cons in * by lia.
    pose proof (undigits_range 128 ltac:(lia) _ Hr).
    pose proof (Z.pow_le_mono_r 128 (zlen (ds' ++ [d'])) (zlen (ds ++ [d]))).
    assert (y <> 0) by (intros ->; done). nia.
Qed.

(** Canonical base-128 integers of 32 bits fit five bytes. *)
Lemma fewest_oid_len l v k : fewest oid_encodes l v -> 1 <= k -> v < 128 ^ k -> zlen l <= k.
Proof.
  intros ((ds & d & Hl & Hr & Hv) & Hf) Hk Hlt. apply fewest_oid in Hf; [|by exists ds, d].
  destruct (Z.le_gt_cases (zlen l) k) as [|Hgt]; [done|exfalso].
  rewrite (oid_encodes_len l ds d) in Hgt by done. destruct ds as [|y ds]; [zlia|].
  subst l. cbn [map app head] in *. apply Forall_cons in Hr as [Hy Hr].
  rewrite undigits_cons, zlen_cons in * by lia. pose proof (undigits_range 128 ltac:(lia) _ Hr).
  pose proof (Z.pow_le_mono_r 128 k (zlen (ds ++ [d]))). assert (y <> 0) by (intros ->; done). nia.
Qed.

Lemma read_ber_oid_strict_ok buf u rest : bytes buf ->
  read_ber_oid_strict buf = Ok (u, rest) <->
  exists l, buf = l ++ rest /\ fewest oid_encodes l u /\ u <= u32_max.
Proof.
  intros Hb. unfold read_ber_oid_strict.
  assert (Hh : forall l, oid_encodes l u -> buf = l ++ rest -> get buf 0 = head l).
  { intros l (ds & d & -> & _) ->. by destruct ds. }
  destruct (decide (get buf 0 = Some 128)) as [He|Hne].
  - split; [done|]. intros (l & Hl & [Ho Hf] & _). apply fewest_oid in Hf; [|done].
    by rewrite (Hh l) in He.
  - rewrite read_ber_oid_ok by done. split; intros (l & Hl & Ho & Hu); exists l.
    + destruct Hu as [Hu _]. split_and!; [done|split; [done|]|done]. apply fewest_oid; [done|].
      by rewrite <- (Hh l).
    + split_and!; [done|by destruct Ho|done|].
      pose proof (fewest_oid_len l u 5 Ho ltac:(lia)). unfold u32_max in *. lia.
Qed.

Lemma read_ber_oid_strict_no_panic buf : no_panic (read_ber_oid_strict buf).
Proof. unfold read_ber_oid_strict. ifs; [done|apply read_ber_oid_no_panic]. Qed.

(** *** Writers *)

Lemma count_loop_ok k fuel : 1 <= k -> forall v bytes, 0 <= v < 2 ^ Z.of_nat fuel ->
  exists n, count_loop fuel k v bytes = bytes + Z.of_nat n /\ v < (2 ^ k) ^ Z.of_nat n /\
    (n = O \/ (2 ^ k) ^ (Z.of_nat n - 1) <= v).
Proof.
  intros Hk. induction fuel as [|fuel IH]; intros v bytes Hv.
  { exists O. simpl in *. lia. }
  cbn [count_loop]. destruct (0 <? v) eqn:E; b2p; [|exists O; simpl; lia].
  rewrite Nat2Z.inj_succ, Z.pow_succ_r in Hv by lia.
  pose proof (Z.pow_le_mono_r 2 1 k). rewrite shiftr_div by lia. set (b := 2 ^ k) in *.
  pose proof (Z.div_mod v b ltac:(lia)). pose proof (Z.mod_pos_bound v b ltac:(lia)).
  destruct (IH (v / b) (bytes + 1)) as (n & -> & Hlt & Hle).
  { split; [apply Z.div_pos; lia|apply Z.div_lt_upper_bound; nia]. }
  exists (S n). split; [lia|]. rewrite Nat2Z.inj_succ, Z.pow_succ_r by lia. split; [nia|right].
  replace (Z.succ (Z.of_nat n) - 1) with (Z.of_nat n) by lia.
  destruct Hle as [->|Hle]; [simpl; lia|].
  destruct n as [|n]; [simpl; lia|]. rewrite Nat2Z.inj_succ in *.
  replace (Z.succ (Z.of_nat n) - 1) with (Z.of_nat n) in Hle by lia.
  rewrite Z.pow_succ_r by lia. nia.
Qed.

Lemma count_shifts_shortest k v : 1 <= k -> 0 < v <= u64_max ->
  exists n, count_shifts k v = Z.of_nat n /\ shortest (2 ^ k) n v.
Proof.
  intros Hk Hv. destruct (count_loop_ok k 64 Hk v 0) as (n & Hn & Hlt & Hle).
  { unfold u64_max in Hv. simpl. lia. }
  exists n. split; [exact Hn|]. destruct n as [|n]; [simpl in Hlt; lia|].
  split_and!; [lia|lia|done|]. destruct Hle; [lia|by right].
Qed.

Lemma digit_at b s v k : 0 <= k -> 0 <= s -> b = 2 ^ s ->
  Z.land (Z.shiftr v (s * k)) (b - 1) = (v / b ^ k) mod b.
Proof. intros ? ? ->. rewrite land_mask, shiftr_div, Z.pow_mul_r by lia. done. Qed.

Lemma write_ber_loop_ok v n todo : forall i pre k,
  zlen pre = 1 + i -> i + Z.of_nat todo = n -> 0 <= i -> Z.of_nat todo <= zlen k ->
  write_ber_loop todo v n i (pre ++ k) = Ok (pre ++ digits 256 todo v ++ zdrop (Z.of_nat todo) k).
Proof.
  induction todo as [|todo IH]; intros i pre k Hp Hn Hi Hk; cbn [write_ber_loop digits]; [done|].
  rewrite put_app by zlia. rb. rewrite app_assoc, IH by zlia. f_equal.
  rewrite <- app_assoc, zlen_cons, zlen_nil, zdrop_zdrop by lia. cbn [app]. f_equal.
  replace (n - 1 - i) with (Z.of_nat todo) by lia.
  rewrite (digit_at 256 8) by (lia || done). unfold as_u8. rewrite Z.mod_mod by lia.
  repeat f_equal; lia.
Qed.

(** The bytes of a long-form field. *)
Lemma ber_long v n : 128 <= v <= usize_max -> shortest 256 n v ->
  fewest ber_encodes (128 + Z.of_nat n :: digits 256 n v) v.
Proof.
  intros Hv Hs.
  assert (Hn : (n <= 8)%nat).
  { destruct Hs as (_ & _ & [->|Hle]); [lia|]. destruct (le_lt_dec n 8) as [|Hgt]; [done|exfalso].
    pose proof (Z.pow_le_mono_r 256 8 (Z.of_nat n - 1)). unfold usize_max, u64_max in Hv. lia. }
  assert (He : ber_encodes (128 + Z.of_nat n :: digits 256 n v) v).
  { right. exists (digits 256 n v). unfold zlen. rewrite digits_length.
    destruct Hs as (? & ? & _). split_and!; [done|lia|lia|apply bytes_digits|].
    by rewrite undigits_digits_small. }
  split; [done|]. apply fewest_ber; [done|]. destruct n as [|[|n]].
  - destruct Hs; lia.
  - cbn [digits]. destruct Hs as (_ & Hlt & _). split; [lia|].
    change (Z.of_nat 0) with 0. rewrite Z.pow_0_r, Z.div_1_r, Z.mod_small; lia.
  - destruct (shortest_head 256 ltac:(lia) (S n) v Hs ltac:(lia)) as (d & l & -> & Hd). lia.
Qed.

(** What [write_ber] produces, and when it refuses. *)
Definition writes_ber (v : Z) (out l : list Z) : Prop :=
  fewest ber_encodes l v /\ bytes l /\ ber_len v = zlen l /\
  write_ber v out = if zlen out <? zlen l then Err (BufferTooSmall (zlen l) (zlen out))
                    else Ok (zlen l, l ++ zdrop (zlen l) out).

Lemma write_ber_short v out : 0 <= v < 128 -> writes_ber v out [v].
Proof.
  intros Hs. assert (He : ber_encodes [v] v) by by left. unfold writes_ber, write_ber, ber_len.
  rewrite (proj2 (Z.ltb_lt v _)) by lia. change (zlen [v]) with 1.
  split_and!; [split; [done|exact (proj2 (fewest_ber _ _ He) I)]|constructor; [unfold byte; lia|constructor]|done|].
  ifs; [done|]. b2p. unfold put. change (zlen [as_u8 v]) with 1.
  rewrite !(proj2 (Z.leb_le _ _)) by lia. rb. unfold as_u8. rewrite Z.mod_small by lia. done.
Qed.

Lemma write_ber_long v out : 128 <= v <= usize_max ->
  exists n, writes_ber v out (128 + Z.of_nat n :: digits 256 n v).
Proof.
  intros Hv. destruct (count_shifts_shortest 8 v) as (n & Hn & Hsh); [lia|unfold usize_max in Hv; lia|].
  change (2 ^ 8) with 256 in Hsh. pose proof (ber_long v n Hv Hsh) as Hf. exists n.
  assert (Hn8 : Z.of_nat n <= 8).
  { destruct Hf as [[[? _]|(w & He & ? & _)] _]; [destruct n; [destruct Hsh; lia|done]|].
    injection He as ? _. lia. }
  set (l := _ :: digits 256 n v) in *. assert (Hlen : zlen l = 1 + Z.of_nat n).
  { unfold l. rewrite zlen_cons. unfold zlen. by rewrite digits_length. }
  unfold writes_ber, write_ber, ber_len. rewrite (proj2 (Z.ltb_ge v _)), Hn, <- Hlen by lia.
  split_and!; [done|constructor; [unfold byte; lia|apply bytes_digits]|done|].
  ifs; [done|]. b2p. replace (zlen l - 1) with (Z.of_nat n) by lia.
  rewrite (proj2 (Z.ltb_ge _ _)) by lia.
  pose proof (put_app (E:=KlvEncodeError) [] out [Z.lor 128 (as_u8 (Z.of_nat n))] 0 eq_refl) as Hput.
  cbn [app] in Hput. rewrite Hput by zlia. rb. change (zlen [Z.lor 128 (as_u8 (Z.of_nat n))]) with 1. rewrite Nat2Z.id.
  change (?a :: ?k) with ([a] ++ k). rewrite write_ber_loop_ok by zlia. rb.
  rewrite zdrop_zdrop by lia. unfold l. cbn [app].
  assert (Z.lor 128 (as_u8 (Z.of_nat n)) = 128 + Z.of_nat n) as ->.
  { unfold as_u8. rewrite Z.mod_small by lia. apply (lor_add 7 1); lia. }
  do 4 f_equal. by rewrite <- Hlen.
Qed.

Lemma write_ber_ok v out : 0 <= v <= usize_max -> exists l, writes_ber v out l.
Proof.
  intros. destruct (Z.lt_ge_cases v 128); [exists [v]; apply write_ber_short; lia|].
  destruct (write_ber_long v out) as (n & ?); [lia|eauto].
Qed.

(** The base-128 bytes of [v] on [n] digits. *)
Fixpoint oid_form (n : nat) (v : Z) : list Z :=
  match n with
  | O => []
  | S n' => (if 0 <? Z.of_nat n' then 128 + (v / 128 ^ Z.of_nat n') mod 128
             else (v / 128 ^ Z.of_nat n') mod 128) :: oid_form n' v
  end.

Lemma oid_form_split n v : exists ds d,
  oid_form (S n) v = map (Z.add 128) ds ++ [d] /\ digits 128 (S n) v = ds ++ [d].
Proof.
  induction n as [|n (ds & d & H1 & H2)]; [by exists [], ((v / 128 ^ 0) mod 128)|].
  exists ((v / 128 ^ Z.of_nat (S n)) mod 128 :: ds), d.
  change (oid_form (S (S n)) v) with
    ((if 0 <? Z.of_nat (S n) then 128 + (v / 128 ^ Z.of_nat (S n)) mod 128
      else (v / 128 ^ Z.of_nat (S n)) mod 128) :: oid_form (S n) v).
  change (digits 128 (S (S n)) v) with ((v / 128 ^ Z.of_nat (S n)) mod 128 :: digits 128 (S n) v).
  by rewrite (proj2 (Z.ltb_lt _ _)), H1, H2 by lia.
Qed.

Lemma zlen_oid_form n v : zlen (oid_form n v) = Z.of_nat n.
Proof. unfold zlen. f_equal. induction n; simpl; congruence. Qed.

Lemma bytes_oid_form n v : bytes (oid_form n v).
Proof.
  induction n as [|n IH]; [constructor|]. cbn [oid_form]. constructor; [|done].
  pose proof (Z.mod_pos_bound (v / 128 ^ Z.of_nat n) 128 ltac:(lia)). unfold byte. ifs; lia.
Qed.

Lemma write_oid_loop_ok v needed todo : forall i pre k,
  zlen pre = i -> i + Z.of_nat todo = needed -> Z.of_nat todo <= zlen k ->
  write_oid_loop todo v needed i (pre ++ k) = Ok (pre ++ oid_form todo v ++ zdrop (Z.of_nat todo) k).
Proof.
  induction todo as [|todo IH]; intros i pre k Hp Hn Hk; cbn [write_oid_loop oid_form]; [done|].
  rewrite put_app by zlia. rb. rewrite app_assoc, IH by zlia. f_equal.
  rewrite <- app_assoc, zlen_cons, zlen_nil, zdrop_zdrop by lia. cbn [app]. f_equal.
  replace (needed - 1 - i) with (Z.of_nat todo) by lia.
  rewrite (digit_at 128 7) by (lia || done). set (d := (v / 128 ^ Z.of_nat todo) mod 128).
  assert (0 <= d < 128) by (apply Z.mod_pos_bound; lia).
  unfold as_u8. rewrite Z.mod_small by lia. f_equal; [|repeat f_equal; lia].
  destruct (i + 1 <? needed) eqn:E1; b2p.
  - rewrite (proj2 (Z.ltb_lt 0 _)) by lia. apply (lor_add' 7 1); lia.
  - by rewrite (proj2 (Z.ltb_ge 0 _)) by lia.
Qed.

Lemma oid_form_fewest n v : shortest 128 n v -> fewest oid_encodes (oid_form n v) v.
Proof.
  intros Hs. destruct n as [|n]; [by destruct Hs; lia|].
  destruct (oid_form_split n v) as (ds & d & H1 & H2).
  assert (He : oid_encodes (oid_form (S n) v) v).
  { exists ds, d. rewrite <- H2. split_and!; [done|by apply digits_range|].
    destruct Hs as (_ & ? & _). by rewrite undigits_digits_small by lia. }
  split; [done|]. apply fewest_oid; [done|]. destruct n as [|n].
  - cbn. intros [= Hd]. pose proof (Z.mod_pos_bound (v / 128 ^ 0) 128 ltac:(lia)). lia.
  - destruct (shortest_head 128 ltac:(lia) (S n) v Hs ltac:(lia)) as (x & l & Hx & Hr).
    cbn [oid_form digits head] in *. rewrite (proj2 (Z.ltb_lt _ _)) by lia.
    injection Hx as Hx _. intros [= Hd]. lia.
Qed.

Lemma write_ber_oid_u64_ok v out : 0 <= v <= u64_max ->
  exists l, fewest oid_encodes l v /\ bytes l /\ ber_oid_len_u64 v = zlen l /\
    write_ber_oid_u64 v out = if zlen out <? zlen l then Err (BufferTooSmall (zlen l) (zlen out))
                              else Ok (zlen l, l ++ zdrop (zlen l) out).
Proof.
  intros Hv.
  assert (exists n, ber_oid_len_u64 v = Z.of_nat n /\ shortest 128 n v) as (n & Hn & Hs).
  { unfold ber_oid_len_u64. destruct (v =? 0) eqn:E; b2p.
    - exists 1%nat. split; [done|]. subst v. split_and!; simpl; lia.
    - apply (count_shifts_shortest 7); lia. }
  exists (oid_form n v). rewrite zlen_oid_form. unfold write_ber_oid_u64. rewrite Hn.
  split_and!; [by apply oid_form_fewest|apply bytes_oid_form|done|]. ifs; [done|]. b2p.
  rewrite Nat2Z.id. pose proof (write_oid_loop_ok v (Z.of_nat n) n 0 [] out eq_refl eq_refl) as Hw.
  cbn [app] in Hw. by rewrite Hw by lia.
Qed.

Lemma write_ber_oid_ok v out : 0 <= v <= u32_max ->
  exists l, fewest oid_encodes l v /\ bytes l /\ ber_oid_len v = zlen l /\ zlen l <= 5 /\
    write_ber_oid v out = if zlen out <? zlen l then Err (BufferTooSmall (zlen l) (zlen out))
                          else Ok (zlen l, l ++ zdrop (zlen l) out).
Proof.
  intros Hv. destruct (write_ber_oid_u64_ok v out) as (l & Hf & Hb & Hl & Hw); [unfold u32_max, u64_max in *; lia|].
  exists l. split_and!; [done..| |done]. apply (fewest_oid_len l v 5 Hf); [lia|]. unfold u32_max in Hv. lia.
Qed.

(** *** Canonical encodings are unique *)

Lemma undigits_inj b l l' : 2 <= b -> length l = length l' ->
  Forall (fun d => 0 <= d < b) l -> Forall (fun d => 0 <= d < b) l' ->
  undigits b l = undigits b l' -> l = l'.
Proof.
  intros Hb Hl H H' Hu. rewrite <- (digits_undigits b Hb l H), <- (digits_undigits b Hb l' H').
  by rewrite Hl, Hu.
Qed.

Lemma fewest_oid_unique l l' v : fewest oid_encodes l v -> fewest oid_encodes l' v -> l = l'.
Proof.
  intros [Ho Hf] [Ho' Hf']. pose proof (Hf _ Ho'). pose proof (Hf' _ Ho).
  destruct Ho as (ds & d & Hl & Hr & Hv), Ho' as (ds' & d' & Hl' & Hr' & Hv').
  rewrite (oid_encodes_len l ds d), (oid_encodes_len l' ds' d') in * by done.
  assert (ds ++ [d] = ds' ++ [d']) as He.
  { apply (undigits_inj 128); [lia|unfold zlen in *; lia|done|done|congruence]. }
  apply app_inj_tail in He as [-> ->]. congruence.
Qed.

Lemma fewest_ber_unique l l' v : fewest ber_encodes l v -> fewest ber_encodes l' v -> l = l'.
Proof.
  intros [Ho Hf] [Ho' Hf']. pose proof (Hf _ Ho') as H1. pose proof (Hf' _ Ho) as H2.
  destruct Ho as [[-> Hv]|(w & -> & Hw & Hb & Hv)], Ho' as [[-> Hv']|(w' & -> & Hw' & Hb' & Hv')];
    [done|zlia|zlia|].
  rewrite !zlen_cons in *. assert (w = w') as ->; [|done].
  apply (undigits_inj 256); [lia|unfold zlen in *; lia|done|done|congruence].
Qed.

End LengthLemmas.
