(* ===== verification/KlvPack.v ===== *)
(** KLV local sets ([crates/tst-core/src/klv/pack.rs]): the field iterator that
    every typed decoder runs and the TLV writer the encoders share; the 16-bit
    running sum of [klv/checksum.rs]; and the theorems on both and on the codecs
    of [Klv]. *)
From Stdlib Require Import ZArith Lia Bool.
From stdpp Require Import base list list_numbers strings.
From S2P Require Import Prelude.
From S2P Require Import Klv.

Module Pack.
Import Length.

(** [RawField], and [OwnedRawField], which holds the same two fields. *)
Record RawField : Type := { tag : Z; value : list Z }.

Record Iter : Type := { buf : list Z; offset : Z; finished : bool }.

Definition local_set (b : list Z) : Iter := {| buf := b; offset := 0; finished := false |}.

Definition finish (it : Iter) : Iter := {| buf := buf it; offset := offset it; finished := true |}.

Definition next_local_set {E} (it : Iter) : res E (option (RawField + KlvDecodeError) * Iter) :=
  let start := offset it in
  let! rest := from (buf it) start in
  match read_ber_oid rest with
  | Panic => Panic
  | Err e => Ok (Some (inr (rebase_offset e start)), finish it)
  | Ok (tag, after_tag) =>
      let! consumed_tag := usub (zlen rest) (zlen after_tag) in
      match read_ber after_tag with
      | Panic => Panic
      | Err e => Ok (Some (inr (rebase_offset e (start + consumed_tag))), finish it)
      | Ok (len, after_len) =>
          let! consumed_len := usub (zlen after_tag) (zlen after_len) in
          if zlen after_len <? len then
            Ok (Some (inr (Truncated (start + consumed_tag + consumed_len) len (zlen after_len))), finish it)
          else
            let! value := slice after_len 0 len in
            let it := {| buf := buf it; offset := start + consumed_tag + consumed_len + len;
                         finished := finished it |} in
            Ok (Some (inl {| tag := tag; value := value |}), it)
      end
  end.

Definition next {E} (it : Iter) : res E (option (RawField + KlvDecodeError) * Iter) :=
  if finished it || (zlen (buf it) <=? offset it) then Ok (None, it) else next_local_set it.

(** [for r in Iter::local_set(buf)]: the items up to the first [None]. *)
Fixpoint drain {E} (fuel : nat) (it : Iter) : res E (option (list (RawField + KlvDecodeError))) :=
  match fuel with
  | O => Ok None
  | S fuel =>
      let! (item, it) := next it in
      match item with
      | None => Ok (Some [])
      | Some i => let! rest := drain fuel it in Ok (option_map (cons i) rest)
      end
  end.

(** A field takes at least two bytes and an error ends the run, so one turn per
    byte and two more are enough. *)
Definition items {E} (b : list Z) : res E (option (list (RawField + KlvDecodeError))) :=
  drain (length b + 2) (local_set b).

Definition is_typed_tag {T} (tag : Z) (lookup : Z -> option T) : bool :=
  if (0 <=? tag) && (tag <? 256) then match lookup tag with Some _ => true | None => false end else false.

(** [out] after the append. *)
Definition emit_ber_oid_tlv (tag : Z) (value out : list Z) : res KlvEncodeError (list Z) :=
  let! (n, tag_buf) := write_ber_oid tag (zrep 8 0) in
  let! t := slice tag_buf 0 n in
  let out := out ++ t in
  let! (m, len_buf) := write_ber (zlen value) (zrep 9 0) in
  let! l := slice len_buf 0 m in
  let out := out ++ l in
  Ok (out ++ value).

(** The encoders' loop over their fields. *)
Fixpoint emit_all (fs : list RawField) (out : list Z) : res KlvEncodeError (list Z) :=
  match fs with
  | [] => Ok out
  | f :: fs => let! out := emit_ber_oid_tlv (tag f) (value f) out in emit_all fs out
  end.

End Pack.

Module Checksum.

(** [for (i, b) in buf.iter().enumerate()] from index [i] *)
Fixpoint running_sum (i : Z) (b : list Z) (bcc : Z) : Z :=
  match b with
  | [] => bcc
  | x :: b =>
      let shift := 8 * ((i + 1) mod 2) in
      running_sum (i + 1) b (as_u16 (bcc + as_u16 (Z.shiftl x shift)))
  end.

Definition checksum_running_sum_16 (b : list Z) : Z := running_sum 0 b 0.

End Checksum.

(** ** The wire form of a local set *)

Module PackSpec.
Import Length LengthSpec Pack.

(** [l] is a tag, a length and that many value bytes. *)
Definition tlv_encodes (l : list Z) (f : RawField) : Prop :=
  exists t n, oid_encodes t (tag f) /\ tag f <= u32_max /\ zlen t <= 6 /\
    ber_encodes n (zlen (value f)) /\ l = t ++ n ++ value f.

(** Where an error points, for the errors that say. *)
Definition error_offset (e : KlvDecodeError) : option Z :=
  match e with
  | Truncated o _ _ | MalformedLength o | MalformedTag o | NonCanonicalLength o | NonCanonicalTag o => Some o
  | _ => None
  end.

(** A field that fits the wire. *)
Definition field_ok (f : RawField) : Prop := 0 <= tag f <= u32_max /\ bytes (value f) /\ zlen (value f) <= usize_max.

End PackSpec.

Module PackLemmas.
Import Length LengthSpec LengthLemmas Pack PackSpec.

Lemma oid_encodes_nonempty l v : oid_encodes l v -> 1 <= zlen l.
Proof. intros (ds & d & -> & _). rewrite zlen_app. zlia. Qed.

Lemma ber_encodes_nonempty l v : ber_encodes l v -> 1 <= zlen l.
Proof. intros [[-> _]|(w & -> & _)]; zlia. Qed.

Lemma tlv_nonempty l f : tlv_encodes l f -> 2 <= zlen l.
Proof.
  intros (t & n & Ht & _ & _ & Hn & ->). apply oid_encodes_nonempty in Ht. apply ber_encodes_nonempty in Hn. zlia.
Qed.

Section Next.
Context {E : Type}.
Implicit Types (it : Iter).

Definition at_ (b : list Z) (o : Z) : Iter := {| buf := b; offset := o; finished := false |}.

(** The iterator reads one field wherever one stands. *)
Lemma next_field pre l f post : bytes (pre ++ l ++ post) -> tlv_encodes l f ->
  next (E:=E) (at_ (pre ++ l ++ post) (zlen pre)) =
  Ok (Some (inl f), at_ (pre ++ l ++ post) (zlen pre + zlen l)).
Proof.
  intros Hb Hl. pose proof (tlv_nonempty l f Hl). unfold next. cbn [finished buf offset orb at_].
  rewrite (proj2 (Z.leb_gt _ _)) by zlia. unfold next_local_set. cbn [buf offset at_].
  rewrite from_app by done. rb. destruct Hl as (t & n & Ht & Hu & H6 & Hn & ->). destruct f as [tg v].
  cbn [tag value] in *. rewrite !bytes_app in Hb. destruct Hb as (_ & (Hbt & Hbn & Hbv) & Hbp).
  rewrite <- !app_assoc.
  rewrite (proj2 (read_ber_oid_ok (t ++ n ++ v ++ post) tg (n ++ v ++ post) ltac:(rewrite !bytes_app; auto)))
    by (exists t; auto).
  unfold usub. rewrite (proj2 (Z.leb_le _ _)) by zlia. rb.
  rewrite (proj2 (read_ber_ok (n ++ v ++ post) (zlen v) (v ++ post) ltac:(rewrite !bytes_app; auto)))
    by (exists n; auto).
  rewrite (proj2 (Z.leb_le _ _)) by zlia. rb. rewrite (proj2 (Z.ltb_ge _ _)) by zlia.
  rewrite slice_ok, Z.sub_0_r, zdrop_0, ztake_app by zlia. rb. unfold at_. do 3 f_equal.
  rewrite !zlen_app. lia.
Qed.

Lemma next_end it : finished it = true \/ zlen (buf it) <= offset it -> next (E:=E) it = Ok (None, it).
Proof.
  intros H. unfold next. destruct (finished it) eqn:Ef; [done|]. destruct H as [|H]; [done|].
  by rewrite (proj2 (Z.leb_le _ _)).
Qed.

Lemma rebase_offset_add e k o : error_offset (rebase_offset e k) = Some o ->
  exists o', error_offset e = Some o' /\ o = o' + k.
Proof. destruct e; cbn; intros [= <-]; eauto. Qed.

Lemma read_ber_err_offset b e o : read_ber b = Err e -> error_offset e = Some o -> 0 <= o <= zlen b.
Proof.
  unfold read_ber. destruct b as [|x b]; [intros [= <-] [= <-]; zlia|].
  change (get (x :: b) 0) with (Some x). cbn beta iota. rewrite zlen_cons. pose proof (zlen_nonneg b).
  ifs; [by rewrite (from_app [x] b)|].
  ifs; [intros [= <-] [= <-]; lia|]. ifs; [intros [= <-] [= <-]; lia|]. ifs; [intros [= <-] [= <-]; lia|].
  b2p. rewrite slice_ok by (rewrite ?zlen_cons, ?land_127 in *; try lia; dlia). rb. ifs; [by intros [= <-]|]. by unfold from, slice; ifs.
Qed.

Lemma oid_loop_err_offset width max cap report b fuel : forall v c e o, 0 <= c <= zlen b ->
  oid_loop width max cap report b fuel v c = Err e -> error_offset e = Some o -> 0 <= o <= zlen b.
Proof.
  induction fuel as [|fuel IH]; intros v c e o Hc; [done|]. cbn [oid_loop].
  destruct (get b c) eqn:Eg; [|intros [= <-] [= <-]; lia]. apply get_Some in Eg. cbn zeta.
  ifs; [by intros [= <-]|]. ifs; [unfold from, slice; by ifs|].
  ifs; [intros [= <-] [= <-]; lia|]. intros H Ho. eapply IH; [|exact H|done]. lia.
Qed.

Lemma next_cases b pre rest : bytes b -> b = pre ++ rest -> rest <> [] ->
  (exists l f post, rest = l ++ post /\ tlv_encodes l f /\
     next (E:=E) (at_ b (zlen pre)) = Ok (Some (inl f), at_ b (zlen pre + zlen l))) \/
  (exists e it', next (E:=E) (at_ b (zlen pre)) = Ok (Some (inr e), it') /\ finished it' = true /\
     (forall o, error_offset e = Some o -> zlen pre <= o <= zlen b)).
Proof.
  intros Hb -> Hne. assert (0 < zlen rest) by (destruct rest; [done|zlia]).
  unfold next. cbn [finished buf offset orb at_].
  rewrite (proj2 (Z.leb_gt _ _)) by zlia. unfold next_local_set. cbn [buf offset at_].
  rewrite from_app by done. rb. apply bytes_app in Hb as [_ Hb].
  destruct (read_ber_oid rest) as [[tg at1]|e|] eqn:E1; [| |by apply read_ber_oid_no_panic in E1].
  2: { right. eexists _, _. split_and!; [done..|]. intros o Ho.
       apply rebase_offset_add in Ho as (o' & Ho & ->).
       eapply oid_loop_err_offset in E1; [|zlia|done]. zlia. }
  apply read_ber_oid_ok in E1 as (t & -> & Ht & Hu & H6); [|done]. apply bytes_app in Hb as [_ Hb].
  unfold usub. rewrite (proj2 (Z.leb_le _ _)) by zlia. rb.
  destruct (read_ber at1) as [[len al]|e|] eqn:E2; [| |by apply read_ber_no_panic in E2].
  2: { right. eexists _, _. split_and!; [done..|]. intros o Ho.
       apply rebase_offset_add in Ho as (o' & Ho & ->).
       eapply read_ber_err_offset in E2; [|done]. zlia. }
  apply read_ber_ok in E2 as (n & -> & Hn); [|done].
  rewrite (proj2 (Z.leb_le _ _)) by zlia. rb. ifs; b2p.
  { right. eexists _, _. split_and!; [done..|]. intros o [= <-]. zlia. }
  left. assert (0 <= len).
  { destruct Hn as [[_ ?]|(w & _ & ? & Hw & ->)]; [lia|]. pose proof (undigits_u64 w Hw ltac:(lia)). lia. }
  exists (t ++ n ++ ztake len al), {| tag := tg; value := ztake len al |}, (zdrop len al).
  assert (zlen (ztake len al) = len) by (apply zlen_ztake; lia).
  split_and!.
  - by rewrite <- !app_assoc, ztake_zdrop.
  - exists t, n. cbn [tag value]. by rewrite H1.
  - rewrite slice_ok, Z.sub_0_r, zdrop_0 by lia. rb. unfold at_. do 3 f_equal. rewrite !zlen_app, H1. lia.
Qed.

(** What a run over any bytes yields: the fields that stand at the front, and an
    error only where no field stands. *)
Definition walk (b rest : list Z) (fs : list RawField) (err : option KlvDecodeError) : Prop :=
  exists encs tail, rest = concat encs ++ tail /\ Forall2 tlv_encodes encs fs /\
    match err with
    | None => tail = []
    | Some e => tail <> [] /\ (forall l f post, tlv_encodes l f -> tail <> l ++ post) /\
                (forall o, error_offset e = Some o -> zlen b - zlen tail <= o <= zlen b)
    end.

Definition outcome_items (fs : list RawField) (err : option KlvDecodeError) : list (RawField + KlvDecodeError) :=
  map inl fs ++ match err with None => [] | Some e => [inr e] end.

Lemma drain_walk b : bytes b -> forall fuel pre rest, b = pre ++ rest -> (length rest + 2 <= fuel)%nat ->
  exists fs err, drain (E:=E) fuel (at_ b (zlen pre)) = Ok (Some (outcome_items fs err)) /\ walk b rest fs err.
Proof.
  intros Hb. induction fuel as [|fuel IH]; intros pre rest Hbuf Hf; [lia|]. cbn [drain].
  destruct (decide (rest = [])) as [->|Hne].
  { rewrite next_end by (right; cbn; subst b; zlia). rb. exists [], None. split; [done|].
    exists [], []. by split_and!. }
  destruct (next_cases b pre rest Hb Hbuf Hne) as [(l & f & post & -> & Hl & ->)|(e & it' & Hn & Hfin & Ho)].
  - pose proof (tlv_nonempty l f Hl). rb. rewrite app_assoc in Hbuf.
    destruct (IH (pre ++ l) post Hbuf) as (fs & err & Hd & encs & tail & Hc & Hf2 & He).
    { rewrite length_app in Hf. unfold zlen in *. lia. }
    rewrite zlen_app in Hd. rewrite Hd. rb. exists (f :: fs), err. split; [done|].
    exists (l :: encs), tail. cbn [concat]. rewrite <- app_assoc, <- Hc. split_and!; [done|by constructor|done].
  - rewrite Hn. rb. destruct fuel as [|fuel]; [lia|]. cbn [drain]. rewrite next_end by auto. rb.
    exists [], (Some e). split; [done|]. exists [], rest. split_and!; [done|constructor|done| |].
    + intros l f post Hl ->. rewrite Hbuf in *. by rewrite (next_field pre l f post Hb Hl) in Hn.
    + intros o Hoff. apply Ho in Hoff. subst b. zlia.
Qed.

Lemma drain_fields fs encs : Forall2 tlv_encodes encs fs -> forall b pre fuel, bytes b -> b = pre ++ concat encs ->
  (length fs < fuel)%nat -> drain (E:=E) fuel (at_ b (zlen pre)) = Ok (Some (map inl fs)).
Proof.
  induction 1 as [|l f encs fs Hl _ IH]; intros b pre fuel Hb Hbuf Hf; (destruct fuel as [|fuel]; [lia|]); cbn [drain].
  - by rewrite next_end by (right; cbn; subst b; rewrite app_nil_r; lia).
  - subst b. cbn [concat]. rewrite (next_field pre l f) by done. rb.
    rewrite <- zlen_app, (IH _ (pre ++ l)); [done|done|by rewrite <- app_assoc|simpl in Hf; lia].
Qed.
End Next.
End PackLemmas.

(** ** Variable-length integers *)

Module VarIntLemmas.
Import Digits Length LengthLemmas.

Lemma drop_digits b v m : forall n, (n <= m)%nat -> drop (m - n) (digits b m v) = digits b n v.
Proof.
  induction m as [|m IH]; intros n Hn; [by replace n with O by lia|].
  destruct (decide (n = S m)) as [->|]; [by rewrite Nat.sub_diag|].
  replace (S m - n)%nat with (S (m - n)) by lia. cbn [digits drop]. apply IH. lia.
Qed.

Lemma from_be_bytes {E} v n : 0 <= n <= 8 ->
  from (E:=E) (to_be_bytes64 v) (8 - n) = Ok (digits 256 (Z.to_nat n) v).
Proof.
  intros Hn. unfold from, to_be_bytes64.
  assert (Hz : zlen (digits 256 8 v) = 8) by done. rewrite slice_ok by lia.
  unfold zdrop. replace (Z.to_nat (8 - n)) with (8 - Z.to_nat n)%nat by lia.
  rewrite drop_digits by lia. f_equal. apply ztake_all. unfold zlen. rewrite !digits_length. lia.
Qed.

Lemma zlen_digits b n v : 0 <= n -> zlen (digits b (Z.to_nat n) v) = n.
Proof. intros. unfold zlen. rewrite digits_length. lia. Qed.

Lemma var_uint_min_len_shortest v : 0 <= v <= u64_max ->
  1 <= var_uint_min_len v <= 8 /\ shortest 256 (Z.to_nat (var_uint_min_len v)) v.
Proof.
  intros Hv. unfold var_uint_min_len, leading_zeros. destruct (v =? 0) eqn:E; b2p.
  { subst v. change (Z.max (8 - 64 / 8) 1) with 1. split; [lia|]. split_and!; simpl; lia. }
  pose proof (Z.log2_spec v ltac:(lia)) as [Hlo Hhi]. pose proof (Z.log2_nonneg v).
  assert (Z.log2 v <= 63).
  { enough (Z.log2 v < 64) by lia. apply Z.log2_lt_pow2; unfold u64_max in *; lia. }
  set (q := Z.log2 v / 8). assert (Hq : 8 - (63 - Z.log2 v) / 8 = q + 1) by (unfold q; dlia).
  assert (0 <= q <= 7 /\ 8 * q <= Z.log2 v < 8 * (q + 1)) by (unfold q; dlia).
  rewrite Hq, Z.max_l by lia. split; [lia|]. split_and!; [lia|lia| |].
  - rewrite Z2Nat.id by lia. change 256 with (2 ^ 8). rewrite <- Z.pow_mul_r by lia.
    eapply Z.lt_le_trans; [exact Hhi|]. apply Z.pow_le_mono_r; lia.
  - right. rewrite Z2Nat.id by lia. change 256 with (2 ^ 8). rewrite <- Z.pow_mul_r by lia.
    eapply Z.le_trans; [|exact Hlo]. apply Z.pow_le_mono_r; lia.
Qed.

Lemma read_var_uint_ok w max_len tag : bytes w -> 1 <= zlen w <= 8 -> zlen w <= max_len ->
  read_var_uint w max_len tag = Ok (undigits 256 w).
Proof.
  intros Hw Hl Hm. unfold read_var_uint.
  rewrite (proj2 (Z.eqb_neq _ _)), !(proj2 (Z.ltb_ge _ _)) by lia. cbn [orb].
  by rewrite shift_in_undigits by (done || lia).
Qed.

Lemma read_var_uint_len w max_len tag v : read_var_uint w max_len tag = Ok v ->
  1 <= zlen w <= 8 /\ zlen w <= max_len.
Proof.
  unfold read_var_uint. ifs; [done|]. b2p. intros _. zlia.
Qed.

(** [v] is an [n]-byte two's complement number. *)
Definition fits (n v : Z) : Prop := - 2 ^ (8 * n - 1) <= v < 2 ^ (8 * n - 1).

Lemma fits_mono n m v : 1 <= n <= m -> fits n v -> fits m v.
Proof. unfold fits. intros. pose proof (Z.pow_le_mono_r 2 (8 * n - 1) (8 * m - 1)). lia. Qed.

Lemma pow_split n : 1 <= n <= 8 ->
  256 ^ n = 2 * 2 ^ (8 * n - 1) /\ 2 ^ 64 = 256 ^ n * 2 ^ (64 - 8 * n) /\ 2 ^ 63 = 2 ^ (8 * n - 1) * 2 ^ (64 - 8 * n).
Proof.
  intros. change 256 with (2 ^ 8). rewrite <- Z.pow_mul_r, <- Z.pow_succ_r, <- !Z.pow_add_r by lia.
  split_and!; f_equal; lia.
Qed.

(** Sign extension by shifting up and back. *)
Lemma sign_extend n raw : 1 <= n <= 8 -> 0 <= raw < 256 ^ n ->
  Z.shiftr (as_i64 (as_u64 (Z.shiftl raw (64 - 8 * n)))) (64 - 8 * n) =
  if raw <? 2 ^ (8 * n - 1) then raw else raw - 256 ^ n.
Proof.
  intros Hn Hr. destruct (pow_split n Hn) as (H1 & H2 & H3).
  assert (0 < 2 ^ (64 - 8 * n)) as Hs by (apply Z.pow_pos_nonneg; lia). set (s := 2 ^ (64 - 8 * n)) in *.
  rewrite shiftr_div, shiftl_mul by lia. fold s. unfold as_u64. rewrite (Z.mod_small (raw * s)) by nia.
  unfold as_i64. rewrite (Z.mod_small (raw * s)) by nia. set (h := 2 ^ (8 * n - 1)) in *.
  destruct (raw <? h) eqn:E; b2p.
  - rewrite (proj2 (Z.ltb_lt _ _)) by nia. by rewrite Z.div_mul by lia.
  - rewrite (proj2 (Z.ltb_ge _ _)) by nia. rewrite H2, <- Z.mul_sub_distr_r. by rewrite Z.div_mul by lia.
Qed.

Lemma read_var_int_ok w max_len tag : bytes w -> 1 <= zlen w <= 8 -> zlen w <= max_len ->
  read_var_int w max_len tag =
  Ok (let raw := undigits 256 w in if raw <? 2 ^ (8 * zlen w - 1) then raw else raw - 256 ^ zlen w).
Proof.
  intros Hw Hl Hm. unfold read_var_int. rewrite read_var_uint_ok by done. rb.
  by rewrite sign_extend by (try apply undigits_range; (done || lia)).
Qed.

Lemma read_var_int_fits w max_len tag v : bytes w -> read_var_int w max_len tag = Ok v ->
  1 <= zlen w <= 8 /\ fits (zlen w) v.
Proof.
  intros Hw Hr. assert (exists raw, read_var_uint w max_len tag = Ok raw) as (raw & Hu).
  { unfold read_var_int in Hr. destruct (read_var_uint w max_len tag); [eauto|done..]. }
  apply read_var_uint_len in Hu as (Hl & Hm). split; [done|].
  rewrite read_var_int_ok in Hr by done. cbn zeta in Hr. destruct (pow_split _ Hl) as (H1 & _).
  pose proof (undigits_range 256 ltac:(lia) w Hw). unfold fits.
  injection Hr as <-. ifs; b2p; lia.
Qed.

(** The loop of [var_int_min_len]: the sign byte goes while the rest still says the
    sign. *)
Lemma redundant_lead n v : 2 <= n <= 8 -> fits n v ->
  let lead := (v / 256 ^ (n - 1)) mod 256 in let nx := (v / 256 ^ (n - 2)) mod 256 in
  (((lead =? 0x00) && (Z.land nx 0x80 =? 0)) || ((lead =? 0xFF) && nz (Z.land nx 0x80))) = true <-> fits (n - 1) v.
Proof.
  intros Hn Hf. cbn zeta. set (p := 256 ^ (n - 2)).
  assert (Hp : 0 < p) by (apply Z.pow_pos_nonneg; lia).
  assert (256 ^ (n - 1) = p * 256) as ->.
  { unfold p. replace (n - 1) with (Z.succ (n - 2)) by lia. rewrite Z.pow_succ_r by lia. lia. }
  rewrite <- Z.div_div by lia. set (q := v / p).
  assert (H8 : 2 ^ (8 * n - 1) = p * 32768 /\ 2 ^ (8 * (n - 1) - 1) = p * 128).
  { unfold p. change 256 with (2 ^ 8). change 32768 with (2 ^ 15). change 128 with (2 ^ 7).
    rewrite <- Z.pow_mul_r, <- !Z.pow_add_r by lia. split; f_equal; lia. }
  destruct H8 as [Ha Hb]. unfold fits in *. rewrite Ha in Hf. rewrite Hb.
  pose proof (Z.div_mod v p ltac:(lia)) as Hdm. pose proof (Z.mod_pos_bound v p ltac:(lia)). fold q in Hdm.
  assert (Hq : -32768 <= q < 32768) by nia.
  assert (Hiff : (- (p * 128) <= v < p * 128) <-> -128 <= q < 128) by nia.
  rewrite Hiff. assert (Hbyte : byte (q mod 256)) by (unfold byte; dlia).
  rewrite land_80_eqb, top_bit by done. clear -Hq.
  destruct (q / 256 mod 256 =? 0) eqn:E1, (q / 256 mod 256 =? 255) eqn:E2, (q mod 256 <? 128) eqn:E3,
    (128 <=? q mod 256) eqn:E4; b2p; cbn [andb orb]; split; intros Hx; try done; first [dlia|exfalso; dlia].
Qed.

Lemma get_digits v n : 1 <= n <= 8 -> get (to_be_bytes64 v) (8 - n) = Some ((v / 256 ^ (n - 1)) mod 256).
Proof.
  intros Hn. assert (n = 1 \/ n = 2 \/ n = 3 \/ n = 4 \/ n = 5 \/ n = 6 \/ n = 7 \/ n = 8) as Hc by lia.
  by repeat destruct Hc as [->|Hc]; [..|rewrite Hc].
Qed.

Lemma var_int_len_loop_ok {E} v fuel : forall n, 1 <= n <= 8 -> n <= Z.of_nat fuel -> fits n v ->
  exists m, var_int_len_loop (E:=E) fuel (to_be_bytes64 v) n = Ok m /\ 1 <= m <= n /\ fits m v /\
    (m = 1 \/ ~ fits (m - 1) v).
Proof.
  induction fuel as [|fuel IH]; intros n Hn Hf Hv; [lia|]. cbn [var_int_len_loop].
  destruct (1 <? n) eqn:E1; b2p; [|exists n; split_and!; auto with lia].
  unfold idx. rewrite get_digits by lia. replace (8 - n + 1) with (8 - (n - 1)) by lia.
  rewrite get_digits by lia. rb. replace (n - 1 - 1) with (n - 2) by lia.
  pose proof (redundant_lead n v ltac:(lia) Hv) as Hr. cbn zeta in Hr.
  destruct (_ || _) eqn:Eb.
  - destruct (IH (n - 1)) as (m & Hm & ? & ? & ?); [lia|lia|by apply Hr|]. exists m. split_and!; auto with lia.
  - exists n. split_and!; try done; try lia. right. intros Hx. apply Hr in Hx. congruence.
Qed.

Lemma write_var_int_min_ok {E} v : i64_min <= v <= i64_max ->
  exists m, write_var_int_min (E:=E) v = Ok (digits 256 (Z.to_nat m) v) /\ 1 <= m <= 8 /\ fits m v /\
    (m = 1 \/ ~ fits (m - 1) v).
Proof.
  intros Hv. destruct (var_int_len_loop_ok (E:=E) v 8 8) as (m & Hm & H1 & H2 & H3); [lia|lia|exact ltac:(unfold fits, i64_min, i64_max in *; simpl; lia)|].
  exists m. unfold write_var_int_min, var_int_min_len. rewrite Hm. rb. rewrite from_be_bytes by lia. auto.
Qed.

Lemma read_write_var_int m v tag : 1 <= m <= 8 -> fits m v ->
  read_var_int (digits 256 (Z.to_nat m) v) 8 tag = Ok v.
Proof.
  intros Hm Hf. rewrite read_var_int_ok by (try apply bytes_digits; rewrite zlen_digits; lia).
  rewrite zlen_digits by lia. cbn zeta. rewrite undigits_digits, Z2Nat.id by lia.
  destruct (pow_split m Hm) as (H1 & _). unfold fits in Hf. f_equal.
  destruct (Z.lt_ge_cases v 0) as [Hn|Hp].
  - assert (v mod 256 ^ m = v + 256 ^ m) as ->.
    { rewrite <- (Z.mod_add v 1) by lia. rewrite Z.mul_1_l. apply Z.mod_small. lia. }
    rewrite (proj2 (Z.ltb_ge _ _)) by lia. lia.
  - rewrite Z.mod_small by lia. by rewrite (proj2 (Z.ltb_lt _ _)) by lia.
Qed.
End VarIntLemmas.

Module ChecksumLemmas.
Import Checksum.

(** The running sum is a weighted sum modulo 2^16. *)
Fixpoint weighted (i : Z) (b : list Z) : Z :=
  match b with [] => 0 | x :: b => x * 256 ^ ((i + 1) mod 2) + weighted (i + 1) b end.

Lemma running_sum_weighted b : forall i acc, running_sum i b acc mod 65536 = (acc + weighted i b) mod 65536.
Proof.
  induction b as [|x b IH]; intros i acc; cbn [running_sum weighted]; [by rewrite Z.add_0_r|].
  rewrite IH, shiftl_mul by (pose proof (Z.mod_pos_bound (i + 1) 2); lia).
  rewrite Z.pow_mul_r by (pose proof (Z.mod_pos_bound (i + 1) 2); lia). change (2 ^ 8) with 256.
  unfold as_u16. rewrite Zplus_mod_idemp_l. rewrite (Z.add_comm acc), <- (Z.add_assoc), Zplus_mod_idemp_l.
  f_equal. lia.
Qed.

Lemma running_sum_range b : forall i acc, 0 <= acc < 65536 -> 0 <= running_sum i b acc < 65536.
Proof.
  induction b as [|x b IH]; intros i acc Ha; [done|]. cbn [running_sum]. apply IH.
  apply Z.mod_pos_bound. lia.
Qed.

Lemma weighted_app a b : forall i, weighted i (a ++ b) = weighted i a + weighted (i + zlen a) b.
Proof.
  induction a as [|x a IH]; intros i; cbn [app weighted]; [by replace (i + zlen (@nil Z)) with i by zlia|].
  rewrite IH, zlen_cons. replace (i + 1 + zlen a) with (i + (1 + zlen a)) by lia. lia.
Qed.

Lemma checksum_value b : checksum_running_sum_16 b = weighted 0 b mod 65536.
Proof.
  unfold checksum_running_sum_16. pose proof (running_sum_weighted b 0 0) as H.
  rewrite Z.mod_small in H by (apply running_sum_range; lia). exact H.
Qed.
End ChecksumLemmas.

Module EmitLemmas.
Import Digits Length LengthSpec LengthLemmas Pack PackSpec PackLemmas.

(** The tag and the length in their fewest bytes. *)
Definition tlv_canonical (l : list Z) (f : RawField) : Prop :=
  exists t n, fewest oid_encodes t (tag f) /\ fewest ber_encodes n (zlen (value f)) /\ l = t ++ n ++ value f.

Lemma canonical_encodes l f : field_ok f -> tlv_canonical l f -> tlv_encodes l f.
Proof.
  intros (Hu & _ & _) (t & n & Ht & Hn & ->). exists t, n.
  pose proof (fewest_oid_len t _ 5 Ht ltac:(lia)). unfold u32_max in *.
  split_and!; [by destruct Ht|lia|lia|by destruct Hn|done].
Qed.

Lemma emit_ok f out : field_ok f ->
  exists l, emit_ber_oid_tlv (tag f) (value f) out = Ok (out ++ l) /\ bytes l /\ tlv_canonical l f.
Proof.
  intros (Hu & Hb & Hl). unfold emit_ber_oid_tlv.
  destruct (write_ber_oid_ok (tag f) (zrep 8 0) Hu) as (t & Ht & Hbt & _ & H5 & ->).
  destruct (write_ber_ok (zlen (value f)) (zrep 9 0)) as (n & Hn & Hbn & _ & Hw); [zlia|].
  assert (zlen n <= 9).
  { destruct Hn as [[[-> _]|(w & -> & ? & _)] _]; zlia. }
  rewrite !zlen_zrep in * by lia. rewrite (proj2 (Z.ltb_ge _ _)) by lia. rb.
  rewrite slice_ok, Z.sub_0_r, zdrop_0, ztake_app by zlia. rb.
  rewrite Hw, (proj2 (Z.ltb_ge _ _)) by lia. rb.
  rewrite slice_ok, Z.sub_0_r, zdrop_0, ztake_app by zlia. rb.
  exists (t ++ n ++ value f). rewrite <- !app_assoc, !bytes_app. split_and!; try done. by exists t, n.
Qed.

Lemma emit_all_ok fs : Forall field_ok fs -> forall out,
  exists encs, emit_all fs out = Ok (out ++ concat encs) /\ bytes (concat encs) /\ Forall2 tlv_canonical encs fs.
Proof.
  induction 1 as [|f fs Hf _ IH]; intros out; cbn [emit_all].
  - exists []. cbn. rewrite app_nil_r. split_and!; [done|constructor|constructor].
  - destruct (emit_ok f out Hf) as (l & -> & Hb & Hc). rb.
    destruct (IH (out ++ l)) as (encs & -> & Hbs & H2). exists (l :: encs). cbn [concat].
    rewrite <- app_assoc, bytes_app. split_and!; [done|done|done|by constructor].
Qed.

Lemma read_strict_tlv_ok b base tg len c after : bytes b ->
  read_strict_tlv b base = Ok (tg, len, c, after) <->
  exists t n, b = t ++ n ++ after /\ fewest oid_encodes t tg /\ tg <= u32_max /\
    fewest ber_encodes n len /\ c = zlen t + zlen n.
Proof.
  intros Hb. unfold read_strict_tlv, usub. split.
  - destruct (read_ber_oid_strict b) as [[tg' at1]| |] eqn:E1; [|done..]. rb.
    apply read_ber_oid_strict_ok in E1 as (t & -> & Ht & Hu); [|done]. apply bytes_app in Hb as [_ Hb].
    rewrite (proj2 (Z.leb_le _ _)) by zlia. rb.
    destruct (read_ber_strict at1) as [[len' al]| |] eqn:E2; [|done..]. rb.
    apply read_ber_strict_ok in E2 as (n & -> & Hn); [|done].
    rewrite (proj2 (Z.leb_le _ _)) by zlia. rb. intros [= -> -> <- ->].
    exists t, n. split_and!; try done. zlia.
  - intros (t & n & -> & Ht & Hu & Hn & ->). pose proof Hb as Hb'. apply bytes_app in Hb' as [_ Hb'].
    rewrite (proj2 (read_ber_oid_strict_ok _ tg (n ++ after) Hb)) by eauto. rb.
    rewrite (proj2 (Z.leb_le _ _)) by zlia. rb.
    rewrite (proj2 (read_ber_strict_ok _ len after Hb')) by eauto. rb.
    rewrite (proj2 (Z.leb_le _ _)) by zlia. rb. do 2 f_equal. f_equal. zlia.
Qed.

Lemma read_strict_tlv_no_panic b base : bytes b -> no_panic (read_strict_tlv b base).
Proof.
  intros Hb. unfold read_strict_tlv, usub. pose proof (read_ber_oid_strict_no_panic b) as Hn.
  destruct (read_ber_oid_strict b) as [[tg at1]| |] eqn:E1; [|done..]. rb.
  apply read_ber_oid_strict_ok in E1 as (t & -> & _); [|done]. apply bytes_app in Hb as [_ Hb].
  rewrite (proj2 (Z.leb_le _ _)) by zlia. rb. pose proof (read_ber_strict_no_panic at1 Hb) as Hn'.
  destruct (read_ber_strict at1) as [[len al]| |] eqn:E2; [|done..]. rb.
  apply read_ber_strict_ok in E2 as (n & -> & _); [|done]. by rewrite (proj2 (Z.leb_le _ _)) by zlia.
Qed.
End EmitLemmas.

(** ** Theorems *)

Module KlvTheorems.
Import Digits Length LengthSpec LengthLemmas Pack PackSpec PackLemmas VarIntLemmas EmitLemmas Checksum ChecksumLemmas.

(** C27: BER lengths. On any bytes the permissive reader returns exactly the length
    fields of one to nine bytes, the strict reader exactly those in the fewest
    bytes, and these are exactly the ones the writer produces; no reader
    panics. *)
Theorem ber_lengths_exact buf v rest (Hb : bytes buf) :
  (read_ber buf = Ok (v, rest) <-> exists l, buf = l ++ rest /\ ber_encodes l v) /\
  (read_ber_strict buf = Ok (v, rest) <-> exists l, buf = l ++ rest /\ fewest ber_encodes l v) /\
  (read_ber_strict buf = Ok (v, rest) <->
     0 <= v <= usize_max /\
     exists n out, write_ber v (zrep 9 0) = Ok (n, out) /\ n = ber_len v /\ buf = ztake n out ++ rest) /\
  no_panic (read_ber buf) /\ no_panic (read_ber_strict buf).
Proof.
  split_and!; [by apply read_ber_ok|by apply read_ber_strict_ok| |apply read_ber_no_panic|by apply read_ber_strict_no_panic].
  rewrite read_ber_strict_ok by done.
  assert (Hw : 0 <= v <= usize_max -> exists n, fewest ber_encodes n v /\ ber_len v = zlen n /\
    write_ber v (zrep 9 0) = Ok (zlen n, n ++ zdrop (zlen n) (zrep 9 0))).
  { intros Hv. destruct (write_ber_ok v (zrep 9 0) Hv) as (n & Hn & _ & Hlen & Hw). exists n.
    rewrite Hw, zlen_zrep, (proj2 (Z.ltb_ge _ _)) by (try lia; destruct Hn as [[[-> _]|(w & -> & ? & _)] _]; zlia). done. }
  split.
  - intros (l & Hl & Hf). assert (Hv : 0 <= v <= usize_max).
    { destruct Hf as [[[_ ?]|(w & _ & ? & Hbw & ->)] _]; [unfold usize_max, u64_max; lia|apply undigits_u64; [done|lia]]. }
    split; [done|]. destruct (Hw Hv) as (n & Hn & Hlen & ->).
    eexists _, _. split_and!; [done..|]. by rewrite ztake_app, (fewest_ber_unique n l v).
  - intros (Hv & n & out & Hwr & _ & ->). destruct (Hw Hv) as (l & Hn & _ & Hwl).
    rewrite Hwl in Hwr. injection Hwr as <- <-. exists l. by rewrite ztake_app.
Qed.

Lemma ber_lengths_exact_witness :
  read_ber_strict [0x81; 0x80; 7] = Ok (128, [7]) /\ read_ber_strict [0x82; 0x00; 0x80; 7] = Err (NonCanonicalLength 1).
Proof.
  split; [|done].
  destruct (ber_lengths_exact [0x81; 0x80; 7] 128 [7] ltac:(repeat constructor; unfold byte; lia)) as (_ & _ & H & _).
  apply H. split; [unfold usize_max, u64_max; lia|]. eexists _, _. by split_and!.
Defined.

(** C28: BER-OID tags. The 32-bit reader accepts exactly the base-128 integers up to
    [u32::MAX] of at most six bytes; the strict reader exactly the shortest of
    them, which are the writer's; neither panics. *)
Theorem ber_oid_tags_exact buf v rest (Hb : bytes buf) :
  (read_ber_oid buf = Ok (v, rest) <->
     exists l, buf = l ++ rest /\ oid_encodes l v /\ v <= u32_max /\ zlen l <= 6) /\
  (read_ber_oid_strict buf = Ok (v, rest) <->
     exists l, buf = l ++ rest /\ fewest oid_encodes l v /\ v <= u32_max) /\
  (read_ber_oid_strict buf = Ok (v, rest) <->
     0 <= v <= u32_max /\
     exists n out, write_ber_oid v (zrep 8 0) = Ok (n, out) /\ n = ber_oid_len v /\ n <= 5 /\ buf = ztake n out ++ rest) /\
  no_panic (read_ber_oid buf) /\ no_panic (read_ber_oid_strict buf).
Proof.
  split_and!; [by apply read_ber_oid_ok|by apply read_ber_oid_strict_ok| |apply read_ber_oid_no_panic|apply read_ber_oid_strict_no_panic].
  rewrite read_ber_oid_strict_ok by done.
  assert (Hw : 0 <= v <= u32_max -> exists n, fewest oid_encodes n v /\ ber_oid_len v = zlen n /\ zlen n <= 5 /\
    write_ber_oid v (zrep 8 0) = Ok (zlen n, n ++ zdrop (zlen n) (zrep 8 0))).
  { intros Hv. destruct (write_ber_oid_ok v (zrep 8 0) Hv) as (n & Hn & _ & Hlen & H5 & Hw). exists n.
    by rewrite Hw, zlen_zrep, (proj2 (Z.ltb_ge _ _)) by lia. }
  split.
  - intros (l & Hl & Hf & Hu). assert (Hv : 0 <= v <= u32_max).
    { destruct Hf as [(ds & d & _ & Hr & ->) _]. pose proof (undigits_range 128 ltac:(lia) _ Hr). lia. }
    split; [done|]. destruct (Hw Hv) as (n & Hn & Hlen & H5 & ->).
    eexists _, _. split_and!; [done..|]. by rewrite ztake_app, (fewest_oid_unique n l v).
  - intros (Hv & n & out & Hwr & _ & _ & ->). destruct (Hw Hv) as (l & Hn & _ & _ & Hwl).
    rewrite Hwl in Hwr. injection Hwr as <- <-. exists l. rewrite ztake_app. split_and!; try done. lia.
Qed.

Lemma ber_oid_tags_exact_witness :
  read_ber_oid_strict [0x81; 0x00; 9] = Ok (128, [9]) /\ read_ber_oid [0x80; 0x05] = Ok (5, []).
Proof.
  split; [|done].
  destruct (ber_oid_tags_exact [0x81; 0x00; 9] 128 [9] ltac:(repeat constructor; unfold byte; lia)) as (_ & _ & H & _).
  apply H. split; [unfold u32_max; lia|]. eexists _, _. by split_and!.
Defined.

(** The 64-bit target identifiers: what the writer produces reads back, and nothing
    above [u64::MAX] is accepted. *)
Theorem ber_oid_u64_roundtrip v rest (Hv : 0 <= v <= u64_max) (Hr : bytes rest) :
  exists l, write_ber_oid_u64 v (zrep 10 0) = Ok (zlen l, l ++ zdrop (zlen l) (zrep 10 0)) /\
    zlen l = ber_oid_len_u64 v /\ fewest oid_encodes l v /\ read_ber_oid_u64 (l ++ rest) = Ok (v, rest).
Proof.
  destruct (write_ber_oid_u64_ok v (zrep 10 0) Hv) as (l & Hf & Hb & Hl & Hw). exists l.
  assert (zlen l <= 10) by (apply (fewest_oid_len l v 10 Hf); unfold u64_max in *; lia).
  rewrite Hw, zlen_zrep, (proj2 (Z.ltb_ge _ _)) by lia. split_and!; [done..|].
  apply read_ber_oid_u64_ok; [by rewrite bytes_app|]. exists l. destruct Hf. split_and!; try done; lia.
Qed.

(** A local set written field by field reads back as those fields, in order,
    through the iterator the decoders run: any tags of 32 bits, any values. Every
    field is written with tag and length in the fewest bytes. *)
Theorem local_set_roundtrip {E} fs (Hfs : Forall field_ok fs) :
  exists bs encs, emit_all fs [] = Ok bs /\ bytes bs /\
    bs = concat encs /\ Forall2 tlv_canonical encs fs /\
    items (E:=E) bs = Ok (Some (map inl fs)).
Proof.
  destruct (emit_all_ok fs Hfs []) as (encs & He & Hb & H2). exists (concat encs), encs. split_and!; try done.
  assert (Ht : Forall2 tlv_encodes encs fs).
  { revert Hfs. clear -H2. induction H2; intros Hfs; [constructor|].
    apply Forall_cons in Hfs as [? ?]. constructor; [by apply canonical_encodes|auto]. }
  apply (drain_fields fs encs Ht (concat encs) []); [done|done|].
  clear -Ht. enough (length fs <= length (concat encs))%nat by lia.
  induction Ht as [|l f encs fs Hl _ IH]; [done|]. cbn [concat length]. rewrite length_app.
  apply tlv_nonempty in Hl. unfold zlen in Hl. lia.
Qed.

Definition demo_fields : list RawField :=
  [{| tag := 2; value := [0; 1; 2] |}; {| tag := 300; value := zrep 200 7 |}; {| tag := 5; value := [] |}].

Lemma local_set_roundtrip_witness :
  exists bs, emit_all demo_fields [] = Ok bs /\ items (E:=unit) bs = Ok (Some (map inl demo_fields)).
Proof.
  destruct (local_set_roundtrip (E:=unit) demo_fields) as (bs & encs & H1 & _ & _ & _ & H2); [|by exists bs].
  unfold demo_fields, field_ok, u32_max, usize_max, u64_max.
  repeat (apply Forall_cons; split); [split_and!; cbn [tag value]..|constructor]; try (vm_compute; congruence).
  - by repeat (apply Forall_cons; split).
  - by apply bytes_rep.
  - constructor.
Defined.

(** C26: The iterator is total on any bytes: within the length of the input it stops,
    having returned the fields that stand at the front one after another; it
    reports one error, last, exactly when the bytes left are no field, and the
    offset it reports lies in them. *)
Theorem local_set_walk_total {E} b (Hb : bytes b) :
  exists fs err, items (E:=E) b = Ok (Some (outcome_items fs err)) /\ walk b b fs err.
Proof. apply (drain_walk b Hb (length b + 2) [] b); [done|lia]. Qed.

Lemma local_set_walk_total_witness : exists fs err,
  items (E:=unit) [0x05; 0x01; 0x41; 0x06; 0x80] = Ok (Some (outcome_items fs err)) /\
  fs = [{| tag := 5; value := [0x41] |}] /\ err = Some (MalformedLength 4).
Proof.
  destruct (local_set_walk_total (E:=unit) [0x05; 0x01; 0x41; 0x06; 0x80] ltac:(repeat constructor; unfold byte; lia))
    as (fs & err & H & _).
  exists fs, err. split; [exact H|]. vm_compute in H. injection H as H.
  destruct fs as [|f [|g fs]], err as [e|]; try done; cbn in H.
  by injection H as <- <-.
Defined.

(** Variable-length integers. The shortest unsigned and two's complement forms
    read back as the value for every [u64] and every [i64], and no shorter bytes
    read as it. *)
Theorem var_ints_roundtrip {E} v tag :
  (0 <= v <= u64_max -> exists w, write_var_uint_min (E:=E) v = Ok w /\ bytes w /\ zlen w = var_uint_min_len v /\
     read_var_uint w 8 tag = Ok v /\
     (forall w', bytes w' -> read_var_uint w' 8 tag = Ok v -> zlen w <= zlen w')) /\
  (i64_min <= v <= i64_max -> exists w, write_var_int_min (E:=E) v = Ok w /\ bytes w /\
     read_var_int w 8 tag = Ok v /\
     (forall w', bytes w' -> read_var_int w' 8 tag = Ok v -> zlen w <= zlen w')).
Proof.
  split; intros Hv.
  - destruct (var_uint_min_len_shortest v Hv) as [Hn Hs]. set (n := var_uint_min_len v) in *.
    exists (digits 256 (Z.to_nat n) v). unfold write_var_uint_min, write_var_uint_min_into. fold n.
    rewrite from_be_bytes by lia. rb. rewrite zlen_digits by lia.
    destruct Hs as (_ & Hlt & Hle). split_and!; [done|apply bytes_digits|done| |].
    + rewrite read_var_uint_ok by (try apply bytes_digits; rewrite zlen_digits; lia).
      by rewrite undigits_digits_small by lia.
    + intros w' Hw' Hr. pose proof (read_var_uint_len _ _ _ _ Hr) as [Hl _].
      rewrite read_var_uint_ok in Hr by (done || lia). injection Hr as <-.
      pose proof (undigits_range 256 ltac:(lia) w' Hw'). destruct Hle as [?|Hle]; [lia|].
      destruct (Z.le_gt_cases n (zlen w')) as [|Hgt]; [done|exfalso].
      pose proof (Z.pow_le_mono_r 256 (zlen w') (Z.of_nat (Z.to_nat n) - 1)). lia.
  - destruct (write_var_int_min_ok (E:=E) v Hv) as (m & -> & Hm & Hf & Hmin).
    exists (digits 256 (Z.to_nat m) v). split_and!; [done|apply bytes_digits|by apply read_write_var_int|].
    intros w' Hw' Hr. apply read_var_int_fits in Hr as [Hl Hfit]; [|done]. rewrite zlen_digits by lia.
    destruct Hmin as [->|Hn]; [lia|]. destruct (Z.le_gt_cases m (zlen w')) as [|Hgt]; [done|exfalso].
    apply Hn. apply (fits_mono (zlen w')); [lia|done].
Qed.

Lemma var_ints_roundtrip_witness :
  (exists w, write_var_uint_min (E:=unit) 256 = Ok w /\ read_var_uint w 8 110 = Ok 256) /\
  (exists w, write_var_int_min (E:=unit) (-129) = Ok w /\ read_var_int w 8 137 = Ok (-129)).
Proof.
  split.
  - destruct (proj1 (var_ints_roundtrip (E:=unit) 256 110) ltac:(unfold u64_max; lia)) as (w & H1 & _ & _ & H2 & _).
    by exists w.
  - destruct (proj2 (var_ints_roundtrip (E:=unit) (-129) 137) ltac:(unfold i64_min, i64_max; lia)) as (w & H1 & _ & H2 & _).
    by exists w.
Defined.

(** The 16-bit running sum detects every change of a single byte. *)
Theorem checksum_detects_byte a x y b (Hx : byte x) (Hy : byte y) (Hne : x <> y) :
  checksum_running_sum_16 (a ++ x :: b) <> checksum_running_sum_16 (a ++ y :: b).
Proof.
  rewrite !checksum_value, !weighted_app. cbn [weighted]. unfold byte in *.
  assert (Hp : (0 + zlen a + 1) mod 2 = 0 \/ (0 + zlen a + 1) mod 2 = 1) by dlia.
  destruct Hp as [-> | ->]; change (256 ^ 0) with 1; change (256 ^ 1) with 256; intros H; dlia.
Qed.

Lemma checksum_detects_byte_witness :
  checksum_running_sum_16 [0xAA; 0xBB; 0xCC] <> checksum_running_sum_16 [0xAA; 0xBC; 0xCC].
Proof. apply (checksum_detects_byte [0xAA] 0xBB 0xBC [0xCC]); unfold byte; lia. Defined.
End KlvTheorems.
