(* ===== verification/KlvRecords.v ===== *)
(** The self-contained KLV records: universal labels ([klv/universal_label.rs]),
    the Precision Time Stamp Pack ([klv/st0605/]) and the MIIS Core Identifier
    with its textual form and check value ([klv/st1204/mod.rs]). *)
From Stdlib Require Import ZArith Lia Bool.
From stdpp Require Import base list list_numbers strings.
From S2P Require Import Prelude.
From S2P Require Import Klv.
From S2P Require Import KlvPack.

Module UniversalLabel.

Definition ST_0601_LS : list Z :=
  [0x06; 0x0E; 0x2B; 0x34; 0x02; 0x0B; 0x01; 0x01; 0x0E; 0x01; 0x03; 0x01; 0x01; 0x00; 0x00; 0x00].
Definition PRECISION_TIMESTAMP_PACK_UL : list Z :=
  [0x06; 0x0E; 0x2B; 0x34; 0x02; 0x05; 0x01; 0x01; 0x0E; 0x01; 0x01; 0x03; 0x11; 0x00; 0x00; 0x00].
Definition SECURITY_LS_UL : list Z :=
  [0x06; 0x0E; 0x2B; 0x34; 0x02; 0x03; 0x01; 0x01; 0x0E; 0x01; 0x03; 0x03; 0x02; 0x00; 0x00; 0x00].

(** The [while i < 13] comparison, from [i] with [todo] turns left. *)
Fixpoint family_loop {E} (todo : nat) (i : Z) (ul canonical : list Z) : res E bool :=
  match todo with
  | O => let! last := idx ul 15 in Ok (last =? 0x00)
  | S todo =>
      let! x := idx ul i in
      let! y := idx canonical i in
      if negb (x =? y) then Ok false else family_loop todo (i + 1) ul canonical
  end.

Definition is_st0601_family {E} (ul : list Z) : res E bool :=
  family_loop 13 0 ul [0x06; 0x0E; 0x2B; 0x34; 0x02; 0x0B; 0x01; 0x01; 0x0E; 0x01; 0x03; 0x01; 0x01].

End UniversalLabel.

Module St0605.
Import Length UniversalLabel.

Record PrecisionTimeStampPack : Type := { time_status : Z; timestamp_us : Z }.

Definition is_locked (s : Z) : bool := Z.land s 0x80 =? 0.
Definition has_discontinuity (s : Z) : bool := nz (Z.land s 0x40).
Definition is_reverse_jump (s : Z) : bool := nz (Z.land s 0x20).
Definition reserved_bits_valid (s : Z) : bool := Z.land s 0x1F =? 0x1F.

Definition decode (buf : list Z) : res KlvDecodeError PrecisionTimeStampPack :=
  if zlen buf <? 16 then Err (Truncated 0 16 (zlen buf))
  else
    let! label := slice buf 0 16 in
    if negb (bool_decide (label = PRECISION_TIMESTAMP_PACK_UL)) then
      Err (UnexpectedUniversalLabel PRECISION_TIMESTAMP_PACK_UL label)
    else
      let! tail := from buf 16 in
      let! (declared_len, after_len) := map_err (fun e => rebase_offset e 16) (read_ber tail) in
      if negb (declared_len =? 9) then Err (BadTimeStampPackLength declared_len)
      else if zlen after_len <? 9 then
        let! o := usub (zlen buf) (zlen after_len) in
        Err (Truncated o 9 (zlen after_len))
      else
        let! body := slice after_len 0 9 in
        let! ts_bytes := slice body 1 9 in
        let! status := idx body 0 in
        Ok {| time_status := status; timestamp_us := Digits.undigits 256 ts_bytes |}.

(** The 26 bytes of [out]. *)
Definition encode {E} (pack : PrecisionTimeStampPack) : res E (list Z) :=
  let out := zrep 26 0 in
  let! out := put out 0 PRECISION_TIMESTAMP_PACK_UL in
  let! out := put out 16 [0x09] in
  let! out := put out 17 [time_status pack] in
  put out 18 (to_be_bytes64 (timestamp_us pack)).

End St0605.

Module St1204.

Inductive IdType : Type := Physical | Virtual | Managed.

Record CoreId : Type := {
  version : Z;
  sensor : option (IdType * list Z);
  platform : option (IdType * list Z);
  window : option (list Z);
  minor : option (list Z);
}.

Inductive St1204Error : Type :=
| Truncated
| UnsupportedVersion (v : Z)
| ReservedBitsSet
| InvalidUsage
| TrailingBytes.

Definition id_type_from_bits {E} (bits : Z) : res E IdType :=
  if bits =? 3 then Ok Physical
  else if bits =? 2 then Ok Virtual
  else if bits =? 1 then Ok Managed
  else Panic.

Definition read_uuid (buf : list Z) (pos : Z) : res St1204Error (list Z * Z) :=
  if zlen buf <? pos + 16 then Err Truncated
  else let! uuid := slice buf pos (pos + 16) in Ok (uuid, pos + 16).

(** [if present { Some((id_type, read_uuid(buf, &mut pos)?)) } else { None }] *)
Definition read_typed (present : bool) (bits : Z) (buf : list Z) (pos : Z)
    : res St1204Error (option (IdType * list Z) * Z) :=
  if present then
    let! ty := id_type_from_bits bits in
    let! (uuid, pos) := read_uuid buf pos in Ok (Some (ty, uuid), pos)
  else Ok (None, pos).

Definition read_plain (present : bool) (buf : list Z) (pos : Z) : res St1204Error (option (list Z) * Z) :=
  if present then let! (uuid, pos) := read_uuid buf pos in Ok (Some uuid, pos) else Ok (None, pos).

Definition decode (buf : list Z) : res St1204Error CoreId :=
  if zlen buf =? 0 then Err Truncated
  else
    let! version := idx buf 0 in
    if negb (version =? 1) then Err (UnsupportedVersion version)
    else if zlen buf <=? 1 then Err Truncated
    else
      let! usage := idx buf 1 in
      if nz (Z.land usage 129) then Err ReservedBitsSet
      else
        let sensor_bits := Z.land (Z.shiftr usage 5) 3 in
        let platform_bits := Z.land (Z.shiftr usage 3) 3 in
        let window_present := nz (Z.land (Z.shiftr usage 2) 1) in
        let minor_present := nz (Z.land (Z.shiftr usage 1) 1) in
        let has_sensor := nz sensor_bits in
        let has_platform := nz platform_bits in
        let has_fcid_component := has_sensor || has_platform || window_present in
        if negb has_fcid_component && negb minor_present then Err InvalidUsage
        else if minor_present && has_fcid_component then Err InvalidUsage
        else
          let! (sensor, pos) := read_typed has_sensor sensor_bits buf 2 in
          let! (platform, pos) := read_typed has_platform platform_bits buf pos in
          let! (window, pos) := read_plain window_present buf pos in
          let! (minor, pos) := read_plain minor_present buf pos in
          if negb (pos =? zlen buf) then Err TrailingBytes
          else Ok {| version := version; sensor := sensor; platform := platform;
                     window := window; minor := minor |}.

Definition id_type_to_bits (ty : IdType) : Z :=
  match ty with Physical => 3 | Virtual => 2 | Managed => 1 end.

Definition usage_byte (id : CoreId) : Z :=
  let usage := 0 in
  let usage := match sensor id with
               | Some (ty, _) => Z.lor usage (as_u8 (Z.shiftl (id_type_to_bits ty) 5)) | None => usage end in
  let usage := match platform id with
               | Some (ty, _) => Z.lor usage (as_u8 (Z.shiftl (id_type_to_bits ty) 3)) | None => usage end in
  let usage := match window id with Some _ => Z.lor usage (Z.shiftl 1 2) | None => usage end in
  match minor id with Some _ => Z.lor usage (Z.shiftl 1 1) | None => usage end.

(** The components present, in order. *)
Definition uuids (id : CoreId) : list (list Z) :=
  omap (fun u => u) [snd <$> sensor id; snd <$> platform id; window id; minor id].

Definition encode_to_vec (id : CoreId) : list Z :=
  [version id] ++ [usage_byte id] ++ concat (uuids id).

(** ** Check value *)

Definition p_map (nibble : Z) : Z :=
  let a := Z.land (Z.shiftr nibble 3) 1 in
  let b := Z.land (Z.shiftr nibble 2) 1 in
  let c := Z.land (Z.shiftr nibble 1) 1 in
  let d := Z.land nibble 1 in
  Z.lor (Z.lor (Z.lor (Z.shiftl (Z.lxor a b) 3) (Z.shiftl c 2)) (Z.shiftl d 1)) a.

Definition q_map (nibble : Z) : Z :=
  let a := Z.land (Z.shiftr nibble 3) 1 in
  let b := Z.land (Z.shiftr nibble 2) 1 in
  let c := Z.land (Z.shiftr nibble 1) 1 in
  let d := Z.land nibble 1 in
  Z.lor (Z.lor (Z.lor (Z.shiftl d 3) (Z.shiftl (Z.lxor a d) 2)) (Z.shiftl b 1)) c.

(** Row 0 is the identity, row [i] the map of row [i - 1]. *)
Fixpoint build_rows (f : Z -> Z) (n : nat) (row : list Z) : list (list Z) :=
  match n with O => [] | S n => row :: build_rows f n (map f row) end.

Definition build_pq_tables : list (list Z) * list (list Z) :=
  (build_rows p_map 15 (seqZ 0 16), build_rows q_map 15 (seqZ 0 16)).

(** [char::to_digit(16)] on a scalar value *)
Definition to_digit16 (c : Z) : option Z :=
  if (48 <=? c) && (c <=? 57) then Some (c - 48)
  else if (97 <=? c) && (c <=? 102) then Some (c - 87)
  else if (65 <=? c) && (c <=? 70) then Some (c - 55)
  else None.

Fixpoint check_loop {E} (p_table q_table : list (list Z)) (zero_idx : Z) (hex_digits : list Z)
    (p_acc q_acc : Z) : res E (Z * Z) :=
  match hex_digits with
  | [] => Ok (p_acc, q_acc)
  | ch :: rest =>
      let i := zero_idx + 1 in
      let row := i mod 15 in
      let digit := default 0 (to_digit16 ch) in
      let! pr := idx p_table row in
      let! pv := idx pr digit in
      let! qr := idx q_table row in
      let! qv := idx qr digit in
      check_loop p_table q_table (zero_idx + 1) rest (Z.lxor p_acc pv) (Z.lxor q_acc qv)
  end.

Definition check_value {E} (hex_digits : list Z) : res E Z :=
  let (p_table, q_table) := build_pq_tables in
  let! (p_acc, q_acc) := check_loop p_table q_table 0 hex_digits 0 0 in
  Ok (Z.lor (as_u8 (Z.shiftl p_acc 4)) q_acc).

(** ** Textual form, as scalar values *)

(** [char::from_digit(d, 16)] *)
Definition from_digit16 (d : Z) : option Z :=
  if (0 <=? d) && (d <? 10) then Some (48 + d) else if (10 <=? d) && (d <? 16) then Some (87 + d) else None.

Definition to_ascii_uppercase (c : Z) : Z := if (97 <=? c) && (c <=? 122) then c - 32 else c.

(** [char::from_digit(d, 16).unwrap().to_ascii_uppercase()] *)
Definition hex_upper {E} (d : Z) : res E Z :=
  match from_digit16 d with Some c => Ok (to_ascii_uppercase c) | None => Panic end.

(** [emit_byte!]: the text written so far and the digits collected. *)
Definition emit_byte {E} (st : list Z * list Z) (b : Z) : res E (list Z * list Z) :=
  let! hi := hex_upper (Z.shiftr b 4) in
  let! lo := hex_upper (Z.land b 0xF) in
  Ok (fst st ++ [hi; lo], snd st ++ [hi; lo]).

Definition write_char (st : list Z * list Z) (c : Z) : list Z * list Z := (fst st ++ [c], snd st).

(** The eight groups of a UUID, from [group] with [todo] left. *)
Fixpoint fmt_groups {E} (todo : nat) (group : Z) (uuid : list Z) (st : list Z * list Z) : res E (list Z * list Z) :=
  match todo with
  | O => Ok st
  | S todo =>
      let st := if 0 <? group then write_char st 45 else st in
      let! a := idx uuid (group * 2) in
      let! st := emit_byte st a in
      let! b := idx uuid (group * 2 + 1) in
      let! st := emit_byte st b in
      fmt_groups todo (group + 1) uuid st
  end.

Fixpoint fmt_uuids {E} (ui : Z) (us : list (list Z)) (st : list Z * list Z) : res E (list Z * list Z) :=
  match us with
  | [] => Ok st
  | u :: us =>
      let st := if 0 <? ui then write_char st 47 else st in
      let! st := fmt_groups 8 0 u st in
      fmt_uuids (ui + 1) us st
  end.

(** [Display for CoreId] *)
Definition fmt {E} (id : CoreId) : res E (list Z) :=
  let! st := emit_byte ([], []) (version id) in
  let! st := emit_byte st (usage_byte id) in
  let st := write_char st 58 in
  let! st := fmt_uuids 0 (uuids id) st in
  let! cv := check_value (snd st) in
  let! cv_hi := hex_upper (Z.shiftr cv 4) in
  let! cv_lo := hex_upper (Z.land cv 0xF) in
  Ok (fst st ++ [58; cv_hi; cv_lo]).

End St1204.

Module St1204Lemmas.
Import St1204.

(** An identifier that follows the grammar: a minor identifier alone, or any of
    the other three. *)
Definition uuid_ok (u : list Z) : Prop := zlen u = 16 /\ bytes u.

Definition core_id_ok (id : CoreId) : Prop :=
  version id = 1 /\ Forall uuid_ok (uuids id) /\
  (is_Some (minor id) <-> sensor id = None /\ platform id = None /\ window id = None).

Definition type_bits (o : option (IdType * list Z)) : Z := match o with Some (ty, _) => id_type_to_bits ty | None => 0 end.

Definition present {A} (o : option A) : bool := match o with Some _ => true | None => false end.

(** The fields of a usage byte, and the byte of the fields. *)
Lemma usage_split u : byte u -> Z.land u 129 = 0 ->
  u = 32 * Z.land (Z.shiftr u 5) 3 + 8 * Z.land (Z.shiftr u 3) 3 +
      4 * b2z (nz (Z.land (Z.shiftr u 2) 1)) + 2 * b2z (nz (Z.land (Z.shiftr u 1) 1)).
Proof.
  intros Hu Hz. apply Z.eqb_eq.
  pose proof (byte_all (fun u => implb (Z.land u 129 =? 0)
    (u =? 32 * Z.land (Z.shiftr u 5) 3 + 8 * Z.land (Z.shiftr u 3) 3 +
      4 * b2z (nz (Z.land (Z.shiftr u 2) 1)) + 2 * b2z (nz (Z.land (Z.shiftr u 1) 1)))) eq_refl u Hu) as H.
  cbn beta in H. by rewrite Hz in H.
Qed.

Lemma usage_join id : usage_byte id =
  32 * type_bits (sensor id) + 8 * type_bits (platform id) + 4 * b2z (present (window id)) + 2 * b2z (present (minor id)).
Proof.
  destruct id as [v [[[] ?]|] [[[] ?]|] [?|] [?|]]; reflexivity.
Qed.

Lemma type_bits_range o : 0 <= type_bits o <= 3.
Proof. destruct o as [[[] ?]|]; cbn; lia. Qed.

Lemma usage_parts s p w m : 0 <= s <= 3 -> 0 <= p <= 3 ->
  let u := 32 * s + 8 * p + 4 * b2z w + 2 * b2z m in
  byte u /\ Z.land u 129 = 0 /\ Z.land (Z.shiftr u 5) 3 = s /\ Z.land (Z.shiftr u 3) 3 = p /\
  nz (Z.land (Z.shiftr u 2) 1) = w /\ nz (Z.land (Z.shiftr u 1) 1) = m.
Proof.
  intros Hs Hp. assert (s = 0 \/ s = 1 \/ s = 2 \/ s = 3) as Hs' by lia.
  assert (p = 0 \/ p = 1 \/ p = 2 \/ p = 3) as Hp' by lia. unfold byte.
  destruct Hs' as [->|[->|[->| ->]]], Hp' as [->|[->|[->| ->]]], w, m; vm_compute; intuition congruence.
Qed.

Lemma read_uuid_ok pre rest u pos' :
  read_uuid (pre ++ rest) (zlen pre) = Ok (u, pos') <->
  exists rest', rest = u ++ rest' /\ zlen u = 16 /\ pos' = zlen pre + 16.
Proof.
  unfold read_uuid. ifs; b2p.
  - split; [done|]. intros (r & -> & Hu & _). zlia.
  - rewrite slice_ok by zlia. rb. replace (zlen pre + 16 - zlen pre) with 16 by lia. rewrite zdrop_app.
    split.
    + intros [= <- <-]. exists (zdrop 16 rest). rewrite ztake_zdrop, zlen_ztake by zlia. done.
    + intros (r & -> & Hu & ->). by rewrite (ztake_app' u r) by lia.
Qed.

Lemma read_typed_ok pre rest bits o pos' : 0 <= bits <= 3 ->
  read_typed (nz bits) bits (pre ++ rest) (zlen pre) = Ok (o, pos') <->
  bits = type_bits o /\ exists rest', rest = default [] (snd <$> o) ++ rest' /\
    Forall (fun u => zlen u = 16) (option_list (snd <$> o)) /\ pos' = zlen pre + zlen (default [] (snd <$> o)).
Proof.
  intros Hb. unfold read_typed, nz. destruct (bits =? 0) eqn:E; b2p; cbn [negb].
  - subst bits. split.
    + intros [= <- <-]. split; [done|]. exists rest. split_and!; [done|constructor|zlia].
    + intros (Hbits & r & Hr & _ & ->). destruct o as [[[] u]|]; [done..|]. cbn. rewrite zlen_nil. repeat f_equal. lia.
  - assert (exists ty, id_type_from_bits (E:=St1204Error) bits = Ok ty /\ bits = id_type_to_bits ty) as (ty & -> & ->).
    { assert (bits = 1 \/ bits = 2 \/ bits = 3) as [->|[->| ->]] by lia; eexists; split; try done; done. }
    rb. split.
    + destruct (read_uuid _ _) as [[u q]| |] eqn:Eu; [|done..]. rb. intros [= <- <-].
      apply read_uuid_ok in Eu as (r & -> & Hu & ->). split; [done|]. exists r. cbn.
      split_and!; [done|by constructor|lia].
    + intros (Hty & r & -> & Hf & ->). destruct o as [[ty' u]|]; [|done]. cbn in *. apply Forall_inv in Hf.
      rewrite (proj2 (read_uuid_ok pre (u ++ r) u (zlen pre + 16))) by eauto. rb.
      rewrite Hf. destruct ty, ty'; done.
Qed.

Lemma read_plain_ok pre rest b o pos' :
  read_plain b (pre ++ rest) (zlen pre) = Ok (o, pos') <->
  b = present o /\ exists rest', rest = default [] o ++ rest' /\
    Forall (fun u => zlen u = 16) (option_list o) /\ pos' = zlen pre + zlen (default [] o).
Proof.
  unfold read_plain. destruct b.
  - split.
    + destruct (read_uuid _ _) as [[u q]| |] eqn:Eu; [|done..]. rb. intros [= <- <-].
      apply read_uuid_ok in Eu as (r & -> & Hu & ->). split; [done|]. exists r. cbn.
      split_and!; [done|by constructor|lia].
    + intros (Hp & r & -> & Hf & ->). destruct o as [u|]; [|done]. cbn in *. apply Forall_inv in Hf.
      rewrite (proj2 (read_uuid_ok pre (u ++ r) u (zlen pre + 16))) by eauto. rb. by rewrite Hf.
  - split.
    + intros [= <- <-]. split; [done|]. exists rest. cbn. split_and!; [done|constructor|zlia].
    + intros (Hp & r & -> & _ & ->). destruct o; [done|]. cbn. rewrite zlen_nil. repeat f_equal. lia.
Qed.

Lemma uuids_alt id : uuids id = option_list (snd <$> sensor id) ++ option_list (snd <$> platform id) ++
  option_list (window id) ++ option_list (minor id).
Proof. by destruct id as [v [[? ?]|] [[? ?]|] [?|] [?|]]. Qed.

Lemma concat_option_list (o : option (list Z)) : concat (option_list o) = default [] o.
Proof. destruct o; [apply app_nil_r|done]. Qed.

(** The four reads of [decode] in a row. *)
Definition read_all (s p : Z) (w m : bool) (buf : list Z)
    : res St1204Error (option (IdType * list Z) * option (IdType * list Z) * option (list Z) * option (list Z) * Z) :=
  let! (sensor, pos) := read_typed (nz s) s buf 2 in
  let! (platform, pos) := read_typed (nz p) p buf pos in
  let! (window, pos) := read_plain w buf pos in
  let! (minor, pos) := read_plain m buf pos in
  Ok (sensor, platform, window, minor, pos).

Lemma read_all_ok s p w m v u body so po wo mo pos : 0 <= s <= 3 -> 0 <= p <= 3 ->
  read_all s p w m (v :: u :: body) = Ok (so, po, wo, mo, pos) <->
  let id := {| version := v; sensor := so; platform := po; window := wo; minor := mo |} in
  s = type_bits so /\ p = type_bits po /\ w = present wo /\ m = present mo /\
  Forall (fun u => zlen u = 16) (uuids id) /\ exists tail, body = concat (uuids id) ++ tail /\ pos = 2 + zlen (concat (uuids id)).
Proof.
  intros Hs Hp. cbn zeta. rewrite uuids_alt, !concat_app. cbn [sensor platform window minor].
  rewrite !concat_option_list, !Forall_app. set (so_ := default [] (snd <$> so)). set (po_ := default [] (snd <$> po)).
  unfold read_all. change (v :: u :: body) with ([v; u] ++ body). change 2 with (zlen [v; u]) at 1. split.
  - destruct (read_typed (nz s) _ _ _) as [[so' p1]| |] eqn:E1; [|done..]. rb.
    apply read_typed_ok in E1 as (-> & b1 & -> & F1 & ->); [|done].
    rewrite <- zlen_app, app_assoc. destruct (read_typed (nz p) _ _ _) as [[po' p2]| |] eqn:E2; [|done..]. rb.
    apply read_typed_ok in E2 as (-> & b2 & -> & F2 & ->); [|done].
    rewrite <- zlen_app, app_assoc. destruct (read_plain w _ _) as [[wo' p3]| |] eqn:E3; [|done..]. rb.
    apply read_plain_ok in E3 as (-> & b3 & -> & F3 & ->).
    rewrite <- zlen_app, app_assoc. destruct (read_plain m _ _) as [[mo' p4]| |] eqn:E4; [|done..]. rb.
    apply read_plain_ok in E4 as (-> & b4 & -> & F4 & ->). intros [= -> -> -> -> <-].
    split_and!; try done. exists b4. rewrite <- !app_assoc. split; [done|].
    unfold so_, po_. rewrite ?zlen_app, ?zlen_cons, ?zlen_app, ?zlen_nil. lia.
  - intros (-> & -> & -> & -> & (F1 & F2 & F3 & F4) & tail & -> & ->). rewrite <- !app_assoc.
    rewrite (proj2 (read_typed_ok [v; u] _ _ so _ Hs) (conj eq_refl (ex_intro _ _ (conj eq_refl (conj F1 eq_refl))))).
    rb. rewrite <- zlen_app, app_assoc.
    rewrite (proj2 (read_typed_ok _ _ _ po _ Hp) (conj eq_refl (ex_intro _ _ (conj eq_refl (conj F2 eq_refl))))).
    rb. rewrite <- zlen_app, app_assoc.
    rewrite (proj2 (read_plain_ok _ _ _ wo _) (conj eq_refl (ex_intro _ _ (conj eq_refl (conj F3 eq_refl))))).
    rb. rewrite <- zlen_app, app_assoc.
    rewrite (proj2 (read_plain_ok _ _ _ mo _) (conj eq_refl (ex_intro _ _ (conj eq_refl (conj F4 eq_refl))))).
    rb. do 2 f_equal. unfold so_, po_. rewrite ?zlen_app, ?zlen_cons, ?zlen_app, ?zlen_nil. lia.
Qed.

Lemma read_uuid_no_panic buf pos : 0 <= pos -> no_panic (read_uuid buf pos).
Proof. intros. unfold read_uuid. ifs; [done|]. b2p. by rewrite slice_ok by lia. Qed.

(** [decode] after the header checks. *)
Lemma decode_unfold v u body : decode (v :: u :: body) =
  if negb (v =? 1) then Err (UnsupportedVersion v)
  else if nz (Z.land u 129) then Err ReservedBitsSet
  else
    let s := Z.land (Z.shiftr u 5) 3 in let p := Z.land (Z.shiftr u 3) 3 in
    let w := nz (Z.land (Z.shiftr u 2) 1) in let m := nz (Z.land (Z.shiftr u 1) 1) in
    let f := nz s || nz p || w in
    if negb f && negb m then Err InvalidUsage else if m && f then Err InvalidUsage
    else
      let! (so, po, wo, mo, pos) := read_all s p w m (v :: u :: body) in
      if negb (pos =? zlen (v :: u :: body)) then Err TrailingBytes
      else Ok {| version := v; sensor := so; platform := po; window := wo; minor := mo |}.
Proof.
  unfold decode. rewrite (proj2 (Z.eqb_neq _ _)) by zlia. idxs. ifs; [done|].
  rewrite (proj2 (Z.leb_gt _ _)) by zlia. idxs. ifs; [done|]. cbn zeta. ifs; [done|]. ifs; [done|].
  unfold read_all.
  repeat match goal with
  | |- (let! _ := ?m in _) = _ => destruct m as [[? ?]| |]; rb; [|done..]
  end. done.
Qed.

Lemma bits_range x k : 0 <= Z.land (Z.shiftr x k) 3 <= 3.
Proof. rewrite land_3. pose proof (Z.mod_pos_bound (Z.shiftr x k) 4). lia. Qed.

Lemma uuid_ok_split us : Forall uuid_ok us <-> Forall (fun u => zlen u = 16) us /\ bytes (concat us).
Proof.
  induction us as [|u us IH]; cbn [concat]; [split; intros _; [split|]; constructor|].
  rewrite !Forall_cons, bytes_app, IH. unfold uuid_ok. tauto.
Qed.

Lemma decode_sound v u body id : byte u -> bytes body -> decode (v :: u :: body) = Ok id ->
  core_id_ok id /\ v :: u :: body = encode_to_vec id.
Proof.
  intros Hu Hb. rewrite decode_unfold.
  ifs; [done|]. ifs; [done|]. cbn zeta. b2p. unfold nz in Hif0. b2p.
  pose proof (usage_split u Hu Hif0) as Hsplit.
  pose proof (bits_range u 5) as Hs. pose proof (bits_range u 3) as Hp.
  set (s := Z.land (Z.shiftr u 5) 3) in *. set (p := Z.land (Z.shiftr u 3) 3) in *.
  set (w := nz (Z.land (Z.shiftr u 2) 1)) in *. set (m := nz (Z.land (Z.shiftr u 1) 1)) in *.
  destruct (negb _ && negb m) eqn:E1; [done|]. destruct (m && _) eqn:E2; [done|].
  destruct (read_all s p w m _) as [[[[[so po] wo] mo] pos]| |] eqn:E3; [|done..]. rb.
  apply read_all_ok in E3 as (-> & -> & -> & -> & F & tail & -> & ->); [|done..]. cbn [uuids] in *.
  ifs; [done|]. intros [= <-]. b2p. set (id := {| version := v |}) in *.
  assert (tail = []) as -> by (apply zlen_0; zlia). rewrite app_nil_r in *.
  unfold core_id_ok. rewrite uuid_ok_split. unfold encode_to_vec. rewrite usage_join.
  cbn [version sensor platform window minor id app]. rewrite <- Hsplit.
  split; [|by subst v]. split_and!; [done|done|done|].
  destruct so as [[[] ?]|], po as [[[] ?]|], wo, mo; cbn in E1, E2; try done; unfold is_Some; naive_solver.
Qed.

Lemma decode_complete id : core_id_ok id -> decode (encode_to_vec id) = Ok id.
Proof.
  intros (Hv & Hu16 & Hm). apply uuid_ok_split in Hu16 as [Hu16 _].
  unfold encode_to_vec. cbn [app]. rewrite decode_unfold, Hv. cbn [negb Z.eqb Pos.eqb].
  rewrite usage_join. pose proof (type_bits_range (sensor id)) as Hs. pose proof (type_bits_range (platform id)) as Hp.
  destruct (usage_parts _ _ (present (window id)) (present (minor id)) Hs Hp) as (_ & Hz & -> & -> & -> & ->).
  set (u := 32 * type_bits (sensor id) + _ + _ + _) in *. rewrite Hz. cbn [nz negb Z.eqb].
  set (f := _ || _ || present (window id)). assert (Hf : f = negb (present (minor id))).
  { unfold f. destruct id as [v so po wo mo]. cbn in *.
    destruct so as [[[] ?]|], po as [[[] ?]|], wo, mo; try done; exfalso;
      unfold is_Some in Hm; naive_solver. }
  rewrite Hf, negb_involutive, andb_negb_r.
  assert (Hid : {| version := 1; sensor := sensor id; platform := platform id; window := window id; minor := minor id |} = id)
    by (rewrite <- Hv at 1; by destruct id).
  rewrite (proj2 (read_all_ok _ _ _ _ 1 u _ (sensor id) (platform id) (window id) (minor id) (2 + zlen (concat (uuids id))) Hs Hp)).
  - rb. rewrite (proj2 (Z.eqb_eq _ _)) by zlia. cbn [negb]. by rewrite Hid.
  - cbn zeta. rewrite Hid. split_and!; try done. exists []. by rewrite app_nil_r.
Qed.

Lemma decode_ok buf id : bytes buf -> decode buf = Ok id <-> core_id_ok id /\ buf = encode_to_vec id.
Proof.
  intros Hb. split; [|intros [Hi ->]; by apply decode_complete]. destruct buf as [|v [|u body]].
  - done.
  - unfold decode. change (zlen [v]) with 1. idxs. by destruct (v =? 1).
  - apply Forall_cons in Hb as [_ Hb]. apply Forall_cons in Hb as [Hu Hb]. by apply decode_sound.
Qed.

Lemma read_all_no_panic s p w m buf : 0 <= s <= 3 -> 0 <= p <= 3 -> no_panic (read_all s p w m buf).
Proof.
  intros Hs Hp. unfold read_all.
  assert (Ht : forall b pos, 0 <= b <= 3 -> 0 <= pos ->
    outcome (fun x => 0 <= snd x) (fun _ => True) (read_typed (nz b) b buf pos)).
  { intros b pos Hb Hpos. unfold read_typed. pose proof (read_uuid_no_panic buf pos Hpos).
    assert (b = 0 \/ b = 1 \/ b = 2 \/ b = 3) as [->|[->|[->| ->]]] by lia; [done|..]; cbn;
      unfold read_uuid in *; (ifs; [done|]); rewrite slice_ok by (b2p; lia); cbn; lia. }
  assert (Hq : forall b pos, 0 <= pos -> outcome (fun x => 0 <= snd x) (fun _ => True) (read_plain b buf pos)).
  { intros b pos Hpos. unfold read_plain, read_uuid. destruct b; [|done].
    ifs; [done|]. b2p. rewrite slice_ok by lia. cbn. lia. }
  pose proof (Ht s 2 Hs ltac:(lia)) as H1. destruct (read_typed (nz s) s buf 2) as [[so p1]| |]; [|done..]. rb.
  pose proof (Ht p p1 Hp H1) as H2. destruct (read_typed (nz p) p buf p1) as [[po p2]| |]; [|done..]. rb.
  pose proof (Hq w p2 H2) as H3. destruct (read_plain w buf p2) as [[wo p3]| |]; [|done..]. rb.
  pose proof (Hq m p3 H3) as H4. by destruct (read_plain m buf p3) as [[mo p4]| |].
Qed.

Lemma decode_no_panic buf : no_panic (decode buf).
Proof.
  destruct buf as [|v [|u body]]; [done|unfold decode; change (zlen [v]) with 1; idxs; by destruct (v =? 1)|]. rewrite decode_unfold.
  ifs; [done|]. ifs; [done|]. cbn zeta. ifs; [done|]. ifs; [done|].
  pose proof (read_all_no_panic _ _ (nz (Z.land (Z.shiftr u 2) 1)) (nz (Z.land (Z.shiftr u 1) 1)) (v :: u :: body)
    (bits_range u 5) (bits_range u 3)) as Hn.
  destruct (read_all _ _ _ _ _) as [[[[[? ?] ?] ?] ?]| |]; [|done..]. rb. by ifs.
Qed.
End St1204Lemmas.

Module CheckLemmas.
Import St1204.

Definition P : list (list Z) := Eval vm_compute in fst build_pq_tables.
Definition Q : list (list Z) := Eval vm_compute in snd build_pq_tables.

Lemma tables : build_pq_tables = (P, Q).
Proof. reflexivity. Qed.

(** The entry of a table, and the sum of the entries a digit string selects. *)
Definition entry (t : list (list Z)) (row d : Z) : Z := default 0 (get (default [] (get t row)) d).

Definition digit (c : Z) : Z := default 0 (to_digit16 c).

Fixpoint total (t : list (list Z)) (i : Z) (l : list Z) : Z :=
  match l with [] => 0 | c :: l => Z.lxor (entry t ((i + 1) mod 15) (digit c)) (total t (i + 1) l) end.

Lemma digit_range c : 0 <= digit c < 16.
Proof. unfold digit, to_digit16. repeat ifs; b2p; simpl; lia. Qed.

Definition all_digits : list Z := seqZ 0 16.
Definition all_rows : list Z := seqZ 0 15.

Lemma rows_digits (F : Z -> Z -> bool) :
  forallb (fun r => forallb (F r) all_digits) all_rows = true ->
  forall r d, 0 <= r < 15 -> 0 <= d < 16 -> F r d = true.
Proof.
  intros H r d Hr Hd. apply (below_all 16 (F r)); [|lia].
  exact (below_all 15 (fun r => forallb (F r) all_digits) H r Hr).
Qed.

Lemma entry_ok {E} t r d : t = P \/ t = Q -> 0 <= r < 15 -> 0 <= d < 16 ->
  (let! row := idx (E:=E) t r in idx row d) = Ok (entry t r d) /\ 0 <= entry t r d < 16.
Proof.
  intros Ht Hr Hd. unfold entry.
  assert (Hc : match get t r with Some row => match get row d with Some x => (0 <=? x) && (x <? 16) | None => false end
                                | None => false end = true).
  { destruct Ht as [-> | ->].
    - by apply (rows_digits (fun r d => match get P r with Some row => match get row d with
        Some x => (0 <=? x) && (x <? 16) | None => false end | None => false end)).
    - by apply (rows_digits (fun r d => match get Q r with Some row => match get row d with
        Some x => (0 <=? x) && (x <? 16) | None => false end | None => false end)). }
  revert Hc. unfold idx. destruct (get t r) as [row|]; [|discriminate]. rb. unfold id. cbn [from_option].
  destruct (get row d); [|discriminate]. intros Hc. b2p. simpl. split; [done|lia].
Qed.

Lemma check_loop_ok {E} l : forall i p q,
  check_loop (E:=E) P Q i l p q = Ok (Z.lxor p (total P i l), Z.lxor q (total Q i l)).
Proof.
  induction l as [|c l IH]; intros i p q; cbn [check_loop total]; [by rewrite !Z.lxor_0_r|].
  fold (digit c). pose proof (Z.mod_pos_bound (i + 1) 15 ltac:(lia)). pose proof (digit_range c).
  destruct (entry_ok (E:=E) P ((i + 1) mod 15) (digit c)) as [HP _]; [by left|done..|].
  destruct (entry_ok (E:=E) Q ((i + 1) mod 15) (digit c)) as [HQ _]; [by right|done..|].
  revert HP HQ. destruct (idx P _); cbn [rbind]; [|discriminate..]. intros -> HQ. rb.
  revert HQ. destruct (idx Q _); cbn [rbind]; [|discriminate..]. intros ->. rb.
  by rewrite IH, !Z.lxor_assoc.
Qed.

Lemma lxor_nibble a b : 0 <= a < 16 -> 0 <= b < 16 -> 0 <= Z.lxor a b < 16.
Proof.
  intros Ha Hb. apply (below_dec2 16 16 (fun a b => 0 <= Z.lxor a b < 16)); [by vm_compute|lia|lia].
Qed.

Lemma total_range t i l : t = P \/ t = Q -> 0 <= total t i l < 16.
Proof.
  intros Ht. revert i. induction l as [|c l IH]; intros i; cbn [total]; [lia|].
  apply lxor_nibble; [|done]. apply (entry_ok (E:=unit)); [done|apply Z.mod_pos_bound; lia|apply digit_range].
Qed.

Lemma total_app t a b : forall i, total t i (a ++ b) = Z.lxor (total t i a) (total t (i + zlen a) b).
Proof.
  induction a as [|c a IH]; intros i; cbn [app total].
  - replace (i + zlen (@nil Z)) with i by zlia. by rewrite Z.lxor_0_l.
  - rewrite IH, zlen_cons, Z.lxor_assoc. by replace (i + (1 + zlen a)) with (i + 1 + zlen a) by lia.
Qed.

(** Both halves of the check byte are seen. *)
Lemma check_value_inj {E} l l' : check_value (E:=E) l = check_value l' ->
  total P 0 l = total P 0 l' /\ total Q 0 l = total Q 0 l'.
Proof.
  unfold check_value. rewrite tables, !check_loop_ok. rb. rewrite !Z.lxor_0_l. intros [= H].
  pose proof (total_range P 0 l (or_introl eq_refl)). pose proof (total_range P 0 l' (or_introl eq_refl)).
  pose proof (total_range Q 0 l (or_intror eq_refl)). pose proof (total_range Q 0 l' (or_intror eq_refl)).
  unfold as_u8 in H. rewrite !shiftl_mul, !Z.mod_small in H by lia.
  rewrite !lor_add in H by lia. change (2 ^ 4) with 16 in H. lia.
Qed.

(** The tables are linear, and no two rows agree on both. *)
Lemma entry_lxor t r d e : t = P \/ t = Q -> 0 <= r < 15 -> 0 <= d < 16 -> 0 <= e < 16 ->
  Z.lxor (entry t r d) (entry t r e) = entry t r (Z.lxor d e).
Proof.
  intros Ht Hr Hd He. apply Z.eqb_eq.
  apply (below_all 16 (fun e => Z.lxor (entry t r d) (entry t r e) =? entry t r (Z.lxor d e))); [|lia].
  destruct Ht as [-> | ->].
  - by apply (rows_digits (fun r d => forallb (fun e => Z.lxor (entry P r d) (entry P r e) =? entry P r (Z.lxor d e)) (seqZ 0 16))).
  - by apply (rows_digits (fun r d => forallb (fun e => Z.lxor (entry Q r d) (entry Q r e) =? entry Q r (Z.lxor d e)) (seqZ 0 16))).
Qed.

Definition separated (r s : Z) : bool :=
  (r =? s) || forallb (fun d => forallb (fun e =>
     implb ((entry P r d =? entry P s e) && (entry Q r d =? entry Q s e)) ((d =? 0) && (e =? 0))) all_digits) all_digits.

Lemma rows_separated r s d e : 0 <= r < 15 -> 0 <= s < 15 -> r <> s -> 0 <= d < 16 -> 0 <= e < 16 ->
  entry P r d = entry P s e -> entry Q r d = entry Q s e -> d = 0 /\ e = 0.
Proof.
  intros Hr Hs Hne Hd He HP HQ.
  assert (H : separated r s = true).
  { apply (below_all 15 (separated r)); [|done].
    by apply (below_all 15 (fun r => forallb (separated r) all_rows)). }
  unfold separated in H. rewrite (proj2 (Z.eqb_neq _ _)) in H by done. cbn [orb] in H.
  apply (below_all 16) with (b := d) in H; [|done]. apply (below_all 16) with (b := e) in H; [|done].
  cbn beta in H. rewrite HP, HQ, !Z.eqb_refl in H. cbn in H. b2p. done.
Qed.

Lemma lxor_cancel a x b y c x' y' :
  Z.lxor a (Z.lxor x (Z.lxor b (Z.lxor y c))) = Z.lxor a (Z.lxor x' (Z.lxor b (Z.lxor y' c))) ->
  Z.lxor x x' = Z.lxor y y'.
Proof.
  intros H. apply Z.bits_inj'. intros n Hn. apply (f_equal (fun z => Z.testbit z n)) in H.
  rewrite !Z.lxor_spec in *.
  by destruct (Z.testbit a n), (Z.testbit x n), (Z.testbit b n), (Z.testbit y n), (Z.testbit c n), (Z.testbit x' n),
    (Z.testbit y' n).
Qed.
End CheckLemmas.

Module TextLemmas.
Import St1204.

Definition hex (d : Z) : Z := if d <? 10 then 48 + d else 55 + d.
Definition hexes (bs : list Z) : list Z := flat_map (fun b => [hex (Z.shiftr b 4); hex (Z.land b 15)]) bs.

(** A character that is no separator. *)
Definition is_digit (c : Z) : bool := negb ((c =? 45) || (c =? 47) || (c =? 58)).

Lemma hex_upper_ok {E} d : 0 <= d < 16 -> hex_upper (E:=E) d = Ok (hex d).
Proof.
  intros Hd. unfold hex_upper, from_digit16, to_ascii_uppercase, hex.
  destruct (d <? 10) eqn:E1; b2p.
  - rewrite (proj2 (Z.leb_le 0 d)) by lia. cbn [andb]. by rewrite (proj2 (Z.leb_gt 97 (48 + d))) by lia.
  - rewrite (proj2 (Z.leb_le 0 d)) by lia. cbn [andb]. rewrite (proj2 (Z.leb_le 10 d)), (proj2 (Z.ltb_lt d 16)) by lia.
    cbn [andb]. rewrite !(proj2 (Z.leb_le _ _)) by lia. cbn [andb]. f_equal. lia.
Qed.

Lemma nibbles b : byte b -> 0 <= Z.shiftr b 4 < 16 /\ 0 <= Z.land b 15 < 16 /\ b = 16 * Z.shiftr b 4 + Z.land b 15.
Proof. intros Hb. unfold byte in Hb. rewrite shiftr_div, land_15 by lia. change (2 ^ 4) with 16. dlia. Qed.

Lemma emit_byte_ok {E} t h b : byte b -> emit_byte (E:=E) (t, h) b = Ok (t ++ hexes [b], h ++ hexes [b]).
Proof.
  intros Hb. destruct (nibbles b Hb) as (H1 & H2 & _). unfold emit_byte. by rewrite !hex_upper_ok.
Qed.

Lemma hexes_app a b : hexes (a ++ b) = hexes a ++ hexes b.
Proof. apply flat_map_app. Qed.

Lemma hex_is_digit d : 0 <= d < 16 -> is_digit (hex d) = true.
Proof.
  intros. unfold is_digit, hex. ifs; b2p; rewrite !(proj2 (Z.eqb_neq _ _)) by lia; done.
Qed.

Lemma hex_inj d e : 0 <= d < 16 -> 0 <= e < 16 -> hex d = hex e -> d = e.
Proof. intros Hd He. unfold hex. repeat ifs; b2p; lia. Qed.

Lemma to_digit16_hex d : 0 <= d < 16 -> to_digit16 (hex d) = Some d.
Proof.
  intros Hd. unfold to_digit16, hex. destruct (d <? 10) eqn:E; b2p.
  - rewrite !(proj2 (Z.leb_le _ _)) by lia. cbn [andb]. f_equal. lia.
  - rewrite (proj2 (Z.leb_gt (55 + d) 57)) by lia. rewrite andb_false_r.
    rewrite (proj2 (Z.leb_gt 97 _)) by lia. cbn [andb].
    rewrite !(proj2 (Z.leb_le _ _)) by lia. cbn [andb]. f_equal. lia.
Qed.

Lemma hexes_inj a : forall b, bytes a -> bytes b -> hexes a = hexes b -> a = b.
Proof.
  induction a as [|x a IH]; intros [|y b] Ha Hb H; try done.
  apply Forall_cons in Ha as [Hx Ha]. apply Forall_cons in Hb as [Hy Hb].
  pose proof (nibbles x Hx) as (Hx1 & Hx2 & Hx3). pose proof (nibbles y Hy) as (Hy1 & Hy2 & Hy3).
  change (hexes (x :: a)) with (hex (Z.shiftr x 4) :: hex (Z.land x 15) :: hexes a) in H.
  change (hexes (y :: b)) with (hex (Z.shiftr y 4) :: hex (Z.land y 15) :: hexes b) in H.
  injection H as H1 H2 H3. apply hex_inj in H1; [|done..]. apply hex_inj in H2; [|done..].
  f_equal; [lia|auto].
Qed.

Lemma filter_hexes bs : bytes bs -> List.filter is_digit (hexes bs) = hexes bs.
Proof.
  induction 1 as [|b bs Hb _ IH]; [done|]. destruct (nibbles b Hb) as (H1 & H2 & _).
  change (hexes (b :: bs)) with (hex (Z.shiftr b 4) :: hex (Z.land b 15) :: hexes bs).
  cbn [List.filter]. rewrite !hex_is_digit by done. by rewrite IH.
Qed.

(** The text minus its separators is the digits collected. *)
Definition text_inv (st : list Z * list Z) (bs : list Z) : Prop :=
  snd st = hexes bs /\ List.filter is_digit (fst st) = hexes bs.

Lemma text_byte {E} st bs b : byte b -> text_inv st bs ->
  exists st', emit_byte (E:=E) st b = Ok st' /\ text_inv st' (bs ++ [b]).
Proof.
  intros Hb [H1 H2]. destruct st as [t h]. rewrite emit_byte_ok by done. eexists. split; [done|].
  unfold text_inv. cbn [fst snd] in *. rewrite hexes_app, List.filter_app, H1, H2, (filter_hexes [b]); [done|].
  by constructor.
Qed.

Lemma text_sep st bs c : is_digit c = false -> text_inv st bs -> text_inv (write_char st c) bs.
Proof.
  intros Hc [H1 H2]. split; [done|]. cbn [fst write_char]. rewrite List.filter_app, H2. cbn [List.filter].
  by rewrite Hc, app_nil_r.
Qed.

Lemma text_groups {E} uuid todo : forall group pre rest st bs, bytes uuid ->
  uuid = pre ++ rest -> zlen pre = group * 2 -> zlen rest = 2 * Z.of_nat todo -> text_inv st bs ->
  exists st', fmt_groups (E:=E) todo group uuid st = Ok st' /\ text_inv st' (bs ++ rest).
Proof.
  induction todo as [|todo IH]; intros group pre rest st bs Hb Hu Hp Hr Hi; cbn [fmt_groups].
  { exists st. rewrite (zlen_0 rest), app_nil_r by lia. done. }
  destruct rest as [|a [|b rest]]; [zlia..|].
  assert (Hga : get uuid (group * 2) = Some a) by (rewrite Hu, <- Hp; apply get_app_len).
  assert (Hgb : get uuid (group * 2 + 1) = Some b).
  { rewrite Hu. change (pre ++ a :: b :: rest) with (pre ++ [a] ++ b :: rest). rewrite app_assoc, <- Hp.
    replace (zlen pre + 1) with (zlen (pre ++ [a])) by zlia. apply get_app_len. }
  unfold idx. rewrite Hga, Hgb. rb.
  assert (Hs : text_inv (if 0 <? group then write_char st 45 else st) bs) by (ifs; [by apply text_sep|done]).
  destruct (text_byte (E:=E) _ _ a (bytes_get _ _ _ Hb Hga) Hs) as (st1 & -> & H1). rb.
  destruct (text_byte (E:=E) _ _ b (bytes_get _ _ _ Hb Hgb) H1) as (st2 & -> & H2). rb.
  rewrite <- app_assoc in H2. destruct (IH (group + 1) (pre ++ [a; b]) rest st2 (bs ++ [a; b])) as (st3 & -> & H3);
    [done|by rewrite <- app_assoc|zlia|zlia|done|].
  exists st3. by rewrite <- app_assoc in H3.
Qed.

Lemma text_uuids {E} us : Forall (fun u => zlen u = 16 /\ bytes u) us -> forall ui st bs, text_inv st bs ->
  exists st', fmt_uuids (E:=E) ui us st = Ok st' /\ text_inv st' (bs ++ concat us).
Proof.
  induction 1 as [|u us [Hl Hb] _ IH]; intros ui st bs Hi; cbn [fmt_uuids concat].
  { exists st. by rewrite app_nil_r. }
  assert (Hs : text_inv (if 0 <? ui then write_char st 47 else st) bs) by (ifs; [by apply text_sep|done]).
  destruct (text_groups (E:=E) u 8 0 [] u _ bs Hb eq_refl eq_refl ltac:(lia) Hs) as (st1 & -> & H1). rb.
  destruct (IH (ui + 1) st1 (bs ++ u) H1) as (st2 & -> & H2). exists st2. by rewrite app_assoc.
Qed.

Lemma core_id_bytes id : St1204Lemmas.core_id_ok id -> bytes (encode_to_vec id).
Proof.
  intros (Hv & Hu & _). apply St1204Lemmas.uuid_ok_split in Hu as [_ Hu]. unfold encode_to_vec. rewrite !bytes_app.
  split_and!; [constructor; [unfold byte; lia|constructor]| |done].
  constructor; [|constructor]. rewrite St1204Lemmas.usage_join.
  apply St1204Lemmas.usage_parts; apply St1204Lemmas.type_bits_range.
Qed.

Lemma fmt_ok {E} id : St1204Lemmas.core_id_ok id -> exists text cv,
  fmt (E:=E) id = Ok text /\ check_value (E:=E) (hexes (encode_to_vec id)) = Ok cv /\ byte cv /\
  List.filter is_digit text = hexes (encode_to_vec id ++ [cv]).
Proof.
  intros Hid. pose proof (core_id_bytes id Hid) as Hb. destruct Hid as (_ & Hu & _). unfold fmt.
  unfold encode_to_vec in *. rewrite !bytes_app in Hb. destruct Hb as (Hv & Hus & _).
  apply Forall_inv in Hv, Hus.
  destruct (text_byte (E:=E) ([], []) [] (version id) Hv) as (s1 & -> & H1); [done|]. rb.
  destruct (text_byte (E:=E) s1 _ (usage_byte id) Hus H1) as (s2 & -> & H2). rb.
  apply (text_sep _ _ 58) in H2; [|done].
  destruct (text_uuids (E:=E) (uuids id) Hu 0 _ _ H2) as (s3 & -> & [H3 H4]). rb. rewrite H3.
  cbn [app] in *. set (bs := version id :: usage_byte id :: concat (uuids id)) in *.
  unfold check_value. rewrite CheckLemmas.tables, CheckLemmas.check_loop_ok. rb. rewrite !Z.lxor_0_l.
  pose proof (CheckLemmas.total_range CheckLemmas.P 0 (hexes bs) (or_introl eq_refl)) as HP.
  pose proof (CheckLemmas.total_range CheckLemmas.Q 0 (hexes bs) (or_intror eq_refl)) as HQ.
  set (cv := Z.lor _ _). assert (Hcv : byte cv).
  { unfold cv, as_u8. rewrite shiftl_mul, Z.mod_small, lor_add by lia. unfold byte. lia. }
  destruct (nibbles cv Hcv) as (Hn1 & Hn2 & _). rewrite !hex_upper_ok by done. rb.
  eexists _, cv. split_and!; [done|done|done|].
  match goal with |- _ = hexes ?l => change l with (bs ++ [cv]) end.
  rewrite List.filter_app, H4, hexes_app. f_equal. cbn [List.filter hexes flat_map app].
  by rewrite !hex_is_digit by done.
Qed.
End TextLemmas.

Module St0605Lemmas.
Import Digits Length LengthSpec LengthLemmas UniversalLabel St0605.

Lemma body_split (l : list Z) : 9 <= zlen l -> exists s ts tail, l = s :: ts ++ tail /\ zlen ts = 8.
Proof.
  intros Hl. destruct l as [|s l]; [zlia|]. exists s, (ztake 8 l), (zdrop 8 l).
  rewrite ztake_zdrop, zlen_ztake by zlia. done.
Qed.

Lemma timestamp_decode_ok p buf : bytes buf -> decode buf = Ok p <->
  exists l ts tail, ber_encodes l 9 /\ zlen ts = 8 /\ timestamp_us p = undigits 256 ts /\
    buf = PRECISION_TIMESTAMP_PACK_UL ++ l ++ time_status p :: ts ++ tail.
Proof.
  intros Hb.
  assert (Hbody : forall s ts tail, zlen ts = 8 ->
    (let! body := slice (E:=KlvDecodeError) (s :: ts ++ tail) 0 9 in let! ts_bytes := slice body 1 9 in
     let! status := idx body 0 in Ok {| time_status := status; timestamp_us := undigits 256 ts_bytes |}) =
    Ok {| time_status := s; timestamp_us := undigits 256 ts |}).
  { intros s ts tail Hl. rewrite (slice_app [] (s :: ts) tail) by zlia. rb. by rewrite (slice_end [s] ts) by zlia. }
  unfold decode. split.
  - ifs; [done|]. b2p. rewrite slice_ok, Z.sub_0_r, zdrop_0 by lia. rb. ifs; [done|]. b2p.
    apply bool_decide_eq_true in Hif0. rewrite <- (ztake_zdrop buf 16) in Hb |- *. rewrite Hif0 in *.
    rewrite from_app by done. rb. apply bytes_app in Hb as [_ Hb].
    destruct (read_ber _) as [[n al]| |] eqn:E; [|done..]. apply read_ber_ok in E as (l & -> & Hl); [|done]. rb.
    ifs; [done|]. b2p. subst n. ifs; [unfold usub; by ifs|]. b2p.
    destruct (body_split al) as (s & ts & tail & -> & Hts); [lia|]. rewrite Hbody by done.
    intros [= <-]. by exists l, ts, tail.
  - assert (Hul : zlen PRECISION_TIMESTAMP_PACK_UL = 16) by done.
    intros (l & ts & tail & Hl & Hts & Hu & ->). rewrite (proj2 (Z.ltb_ge _ _)) by zlia.
    rewrite slice_ok, Z.sub_0_r, zdrop_0, (ztake_app' PRECISION_TIMESTAMP_PACK_UL) by zlia. rb. rewrite bool_decide_eq_true_2 by done. cbn [negb].
    apply bytes_app in Hb as [_ Hb]. rewrite from_app by done. rb.
    rewrite (proj2 (read_ber_ok _ 9 (time_status p :: ts ++ tail) Hb)) by eauto. rb.
    cbn [negb Z.eqb Pos.eqb]. rewrite (proj2 (Z.ltb_ge _ _)) by zlia. rewrite Hbody by done.
    destruct p as [s t]. cbn in *. by rewrite Hu.
Qed.

(** The remainder of a read is no longer than the input, whatever the elements. *)
Lemma read_ber_rest b v rest : read_ber b = Ok (v, rest) -> zlen rest <= zlen b.
Proof.
  unfold read_ber. destruct (get b 0); [|done]. unfold from.
  assert (Hs : forall i, match slice (E:=KlvDecodeError) b i (zlen b) with Ok r => zlen r <= zlen b | _ => True end).
  { intros i. unfold slice. ifs; [|done]. b2p. rewrite zlen_window by lia. lia. }
  repeat (ifs; try done).
  - pose proof (Hs 1) as H. destruct (slice _ _ _); [|done..]. rb. by intros [= <- <-].
  - destruct (slice b 1 _) as [w| |]; [|done..]. rb. ifs; [done|].
    pose proof (Hs (1 + Z.land z 127)) as H. destruct (slice _ _ _); [|done..]. rb. by intros [= <- <-].
Qed.

Lemma timestamp_decode_no_panic buf : no_panic (decode buf).
Proof.
  unfold decode. ifs; [done|]. b2p. rewrite slice_ok by lia. rb. ifs; [done|].
  unfold from. rewrite slice_ok by lia. rb. pose proof (read_ber_no_panic (ztake (zlen buf - 16) (zdrop 16 buf))) as Hn.
  destruct (read_ber _) as [[n al]| |] eqn:E; [|done..]. apply read_ber_rest in E. rb. ifs; [done|]. ifs; b2p.
  - unfold usub. rewrite zlen_window in E by lia. by rewrite (proj2 (Z.leb_le _ _)) by lia.
  - destruct (body_split al) as (s & ts & tail & -> & Hts); [lia|].
    rewrite (slice_app [] (s :: ts) tail) by zlia. rb. by rewrite (slice_end [s] ts) by zlia.
Qed.

Lemma timestamp_encode_ok {E} p : byte (time_status p) -> 0 <= timestamp_us p <= u64_max ->
  encode (E:=E) p = Ok (PRECISION_TIMESTAMP_PACK_UL ++ [9] ++ time_status p :: to_be_bytes64 (timestamp_us p)) /\
  bytes (PRECISION_TIMESTAMP_PACK_UL ++ [9] ++ time_status p :: to_be_bytes64 (timestamp_us p)).
Proof.
  intros Hs Ht. split; [done|]. rewrite !bytes_app. split; [by repeat (apply Forall_cons; split)|].
  split; [by repeat (apply Forall_cons; split)|]. constructor; [done|apply bytes_digits].
Qed.
End St0605Lemmas.

Module RecordTheorems.
Import Digits Length LengthSpec LengthLemmas VarIntLemmas UniversalLabel.
Import St0605Lemmas St1204 St1204Lemmas CheckLemmas TextLemmas.

(** Precision Time Stamp Packs. [decode] accepts exactly the label, a BER length
    of 9, a status byte and eight big-endian bytes, whatever follows; [encode] fills
    its 26 bytes without a panic and reads back as the pack. *)
Theorem timestamp_pack_exact buf (p : St0605.PrecisionTimeStampPack) (Hb : bytes buf) :
  (St0605.decode buf = Ok p <->
     exists l ts tail, ber_encodes l 9 /\ zlen ts = 8 /\ St0605.timestamp_us p = undigits 256 ts /\
       buf = PRECISION_TIMESTAMP_PACK_UL ++ l ++ St0605.time_status p :: ts ++ tail) /\
  no_panic (St0605.decode buf) /\
  (byte (St0605.time_status p) -> 0 <= St0605.timestamp_us p <= u64_max -> forall E, exists out,
     St0605.encode (E:=E) p = Ok out /\ zlen out = 26 /\ St0605.decode (out ++ buf) = Ok p).
Proof.
  assert (Hexact : forall buf, bytes buf -> St0605.decode buf = Ok p <->
     exists l ts tail, ber_encodes l 9 /\ zlen ts = 8 /\ St0605.timestamp_us p = undigits 256 ts /\
       buf = PRECISION_TIMESTAMP_PACK_UL ++ l ++ St0605.time_status p :: ts ++ tail).
  { apply timestamp_decode_ok. }
  split_and!; [by apply Hexact|apply timestamp_decode_no_panic|].
  intros Hs Ht E. destruct (timestamp_encode_ok (E:=E) p Hs Ht) as (-> & Hbo). eexists. split_and!; [done|done|].
  apply Hexact; [by rewrite bytes_app|]. exists [9], (to_be_bytes64 (St0605.timestamp_us p)), buf.
  split_and!; [by left|done| |done]. symmetry. apply undigits_digits_small; [lia|].
  unfold u64_max in Ht. change (256 ^ Z.of_nat 8) with (2 ^ 64). lia.
Qed.

Lemma timestamp_pack_exact_witness : exists out,
  St0605.encode (E:=unit) {| St0605.time_status := 0x1F; St0605.timestamp_us := 1700000000000000 |} = Ok out /\
  St0605.decode out = Ok {| St0605.time_status := 0x1F; St0605.timestamp_us := 1700000000000000 |}.
Proof.
  destruct (timestamp_pack_exact [] {| St0605.time_status := 0x1F; St0605.timestamp_us := 1700000000000000 |}
    ltac:(constructor)) as (_ & _ & H).
  destruct (H ltac:(unfold byte; cbn; lia) ltac:(unfold u64_max; cbn; lia) unit) as (out & H1 & _ & H2).
  exists out. by rewrite app_nil_r in H2.
Defined.

(** C29: MIIS Core Identifiers. [decode] accepts exactly the encodings of the
    identifiers of the grammar (version 1; a minor identifier alone or at least one
    of sensor, platform and window; nothing after the last UUID) and returns the
    identifier encoded; it never reaches its [unreachable!]. *)
Theorem core_id_exact buf id (Hb : bytes buf) :
  (St1204.decode buf = Ok id <-> core_id_ok id /\ buf = encode_to_vec id) /\ no_panic (St1204.decode buf).
Proof. split; [by apply decode_ok|apply decode_no_panic]. Qed.

Definition demo_id : CoreId :=
  {| version := 1; sensor := Some (Physical, seqZ 1 16); platform := Some (Virtual, seqZ 21 16);
     window := None; minor := None |}.

Lemma demo_id_ok : core_id_ok demo_id.
Proof.
  split_and!; [done| |split; [by intros []|by intros [? _]]].
  repeat (apply Forall_cons; split); [split; [done|]..|constructor];
    apply Forall_forall; intros x Hx; apply elem_of_seqZ in Hx; unfold byte; lia.
Qed.

Lemma core_id_exact_witness : St1204.decode (encode_to_vec demo_id) = Ok demo_id.
Proof.
  apply (proj2 (proj1 (core_id_exact (encode_to_vec demo_id) demo_id (core_id_bytes demo_id demo_id_ok)))).
  split; [exact demo_id_ok|reflexivity].
Defined.

(** The check value detects every substitution of one digit, and of any two
    digits whose distance is not a multiple of 15: among them every exchange of
    neighbours. *)
Theorem check_value_detects {E} a b c x y x' y' dx dy dx' dy'
    (Hx : to_digit16 x = Some dx) (Hx' : to_digit16 x' = Some dx')
    (Hy : to_digit16 y = Some dy) (Hy' : to_digit16 y' = Some dy')
    (Hdist : (zlen b + 1) mod 15 <> 0) (Hdiff : (dx, dy) <> (dx', dy')) :
  check_value (E:=E) (a ++ x :: b ++ y :: c) <> check_value (a ++ x' :: b ++ y' :: c).
Proof.
  intros H. apply check_value_inj in H as [HP HQ].
  rewrite !total_app in HP, HQ. cbn [total] in HP, HQ. rewrite !total_app in HP, HQ. cbn [total] in HP, HQ.
  unfold digit in HP, HQ. rewrite Hx, Hx', Hy, Hy' in HP, HQ. cbn [from_option id] in HP, HQ.
  pose proof (digit_range x) as Rx. pose proof (digit_range x') as Rx'. pose proof (digit_range y) as Ry.
  pose proof (digit_range y') as Ry'. unfold digit in Rx, Rx', Ry, Ry'.
  rewrite Hx in Rx. rewrite Hx' in Rx'. rewrite Hy in Ry. rewrite Hy' in Ry'. cbn [from_option id] in Rx, Rx', Ry, Ry'.
  set (i := 0 + zlen a) in *. set (j := i + 1 + zlen b) in *.
  assert (Hr : (i + 1) mod 15 <> (j + 1) mod 15) by (unfold j; dlia).
  pose proof (Z.mod_pos_bound (i + 1) 15 ltac:(lia)) as Hi. pose proof (Z.mod_pos_bound (j + 1) 15 ltac:(lia)) as Hj.
  set (r := (i + 1) mod 15) in *. set (s := (j + 1) mod 15) in *.
  assert (Hcancel : forall t, t = P \/ t = Q ->
    Z.lxor (total t 0 a) (Z.lxor (entry t r dx) (Z.lxor (total t (i + 1) b) (Z.lxor (entry t s dy) (total t (j + 1) c)))) =
    Z.lxor (total t 0 a) (Z.lxor (entry t r dx') (Z.lxor (total t (i + 1) b) (Z.lxor (entry t s dy') (total t (j + 1) c)))) ->
    entry t r (Z.lxor dx dx') = entry t s (Z.lxor dy dy')).
  { intros t Ht Heq. rewrite <- !entry_lxor by done. by apply lxor_cancel in Heq. }
  destruct (rows_separated r s (Z.lxor dx dx') (Z.lxor dy dy') Hi Hj Hr (lxor_nibble _ _ Rx Rx') (lxor_nibble _ _ Ry Ry')
    (Hcancel P ltac:(by left) HP) (Hcancel Q ltac:(by right) HQ)) as [H1 H2].
  apply Z.lxor_eq in H1, H2. congruence.
Qed.

Lemma check_value_detects_witness :
  check_value (E:=unit) [48; 51; 49; 70; 65; 51] = Ok 0x79 /\
  check_value (E:=unit) [48; 51; 49; 70; 65; 51] <> check_value [48; 51; 70; 49; 65; 51].
Proof.
  split; [reflexivity|].
  by apply (check_value_detects (E:=unit) [48; 51] [] [65; 51] 49 70 70 49 1 15 15 1).
Defined.

(** The textual form carries the identifier: without its separators it is the
    hexadecimal of the binary form and of the check value over it, and two
    identifiers with one text are equal. *)
Theorem core_id_text {E} id (Hid : core_id_ok id) :
  exists text cv, fmt (E:=E) id = Ok text /\ check_value (E:=E) (hexes (encode_to_vec id)) = Ok cv /\ byte cv /\
    List.filter is_digit text = hexes (encode_to_vec id ++ [cv]) /\
    forall id', core_id_ok id' -> fmt (E:=E) id' = Ok text -> id' = id.
Proof.
  destruct (fmt_ok (E:=E) id Hid) as (text & cv & H1 & H2 & H3 & H4). exists text, cv. split_and!; try done.
  intros id' Hid' Hf. destruct (fmt_ok (E:=E) id' Hid') as (text' & cv' & H1' & _ & H3' & H4').
  rewrite Hf in H1'. injection H1' as <-. rewrite H4 in H4'. apply hexes_inj in H4'.
  - apply app_inj_tail in H4' as [He _].
    apply (f_equal St1204.decode) in He. rewrite !decode_complete in He by done. by injection He.
  - rewrite bytes_app. split; [by apply core_id_bytes|by constructor].
  - rewrite bytes_app. split; [by apply core_id_bytes|by constructor].
Qed.

Lemma core_id_text_witness : exists text, fmt (E:=unit) demo_id = Ok text /\ zlen text = 87.
Proof.
  destruct (core_id_text (E:=unit) demo_id demo_id_ok) as (text & cv & H & _). exists text. split; [exact H|].
  vm_compute in H. by injection H as <-.
Defined.
End RecordTheorems.
