(* ===== verification/Unicode.v ===== *)
(** Rust strings: a [String] is its list of Unicode scalar values, with the UTF-8
    and UTF-16 conversions of the standard library that the KLV codecs call
    ([str::as_bytes], [str::from_utf8], [str::encode_utf16], [String::from_utf16]). *)
From Stdlib Require Import ZArith Lia Bool.
From stdpp Require Import base list list_numbers.
From S2P Require Import Prelude.

Module Unicode.

(** ** Scalar values *)

Definition scalar (c : Z) : Prop := 0 <= c < 0xD800 \/ 0xE000 <= c < 0x110000.
Definition str_ok (s : list Z) : Prop := Forall scalar s.

(** ** UTF-8 *)

Definition utf8_char (c : Z) : list Z :=
  if c <? 0x80 then [c]
  else if c <? 0x800 then [0xC0 + c / 64; 0x80 + c mod 64]
  else if c <? 0x10000 then [0xE0 + c / 4096; 0x80 + (c / 64) mod 64; 0x80 + c mod 64]
  else [0xF0 + c / 262144; 0x80 + (c / 4096) mod 64; 0x80 + (c / 64) mod 64; 0x80 + c mod 64].

(** [s.as_bytes()]; [s.len()] is its length. *)
Definition as_bytes (s : list Z) : list Z := flat_map utf8_char s.

Definition cont (b : Z) : bool := (0x80 <=? b) && (b <=? 0xBF).

(** The second byte of a three- or four-byte form: no overlong form, no surrogate,
    nothing above U+10FFFF. *)
Definition second3 (b0 b1 : Z) : bool :=
  cont b1 && implb (b0 =? 0xE0) (0xA0 <=? b1) && implb (b0 =? 0xED) (b1 <=? 0x9F).
Definition second4 (b0 b1 : Z) : bool :=
  cont b1 && implb (b0 =? 0xF0) (0x90 <=? b1) && implb (b0 =? 0xF4) (b1 <=? 0x8F).

(** [str::from_utf8(b)] *)
Fixpoint from_utf8 (b : list Z) : option (list Z) :=
  match b with
  | [] => Some []
  | b0 :: r =>
      if b0 <? 0x80 then cons b0 <$> from_utf8 r
      else if (0xC2 <=? b0) && (b0 <=? 0xDF) then
        match r with
        | b1 :: r => if cont b1 then cons ((b0 - 0xC0) * 64 + (b1 - 0x80)) <$> from_utf8 r else None
        | _ => None
        end
      else if (0xE0 <=? b0) && (b0 <=? 0xEF) then
        match r with
        | b1 :: b2 :: r =>
            if second3 b0 b1 && cont b2
            then cons ((b0 - 0xE0) * 4096 + (b1 - 0x80) * 64 + (b2 - 0x80)) <$> from_utf8 r else None
        | _ => None
        end
      else if (0xF0 <=? b0) && (b0 <=? 0xF4) then
        match r with
        | b1 :: b2 :: b3 :: r =>
            if second4 b0 b1 && cont b2 && cont b3
            then cons ((b0 - 0xF0) * 262144 + (b1 - 0x80) * 4096 + (b2 - 0x80) * 64 + (b3 - 0x80)) <$> from_utf8 r
            else None
        | _ => None
        end
      else None
  end.

(** ** UTF-16 *)

Definition utf16_char (c : Z) : list Z :=
  if c <? 0x10000 then [c] else [0xD800 + (c - 0x10000) / 1024; 0xDC00 + (c - 0x10000) mod 1024].

(** [s.encode_utf16()] *)
Definition encode_utf16 (s : list Z) : list Z := flat_map utf16_char s.

(** [String::from_utf16(units)] *)
Fixpoint from_utf16 (u : list Z) : option (list Z) :=
  match u with
  | [] => Some []
  | a :: r =>
      if (a <? 0xD800) || (0xDFFF <? a) then cons a <$> from_utf16 r
      else if a <? 0xDC00 then
        match r with
        | b :: r =>
            if (0xDC00 <=? b) && (b <=? 0xDFFF)
            then cons (0x10000 + (a - 0xD800) * 1024 + (b - 0xDC00)) <$> from_utf16 r else None
        | [] => None
        end
      else None
  end.

(** ** Round trips *)

Ltac cmp_true := repeat match goal with
  | |- context [?a <? ?b] => first
      [ rewrite (proj2 (Z.ltb_lt a b)) by (first [lia | dlia]) | rewrite (proj2 (Z.ltb_ge a b)) by (first [lia | dlia]) ]
  | |- context [?a <=? ?b] => first
      [ rewrite (proj2 (Z.leb_le a b)) by (first [lia | dlia]) | rewrite (proj2 (Z.leb_gt a b)) by (first [lia | dlia]) ]
  end; cbn [andb orb implb].

Lemma implb_true (a b : bool) : (a = true -> b = true) -> implb a b = true.
Proof. destruct a, b; simpl; auto. Qed.

Lemma from_utf8_char c r : scalar c -> from_utf8 (utf8_char c ++ r) = cons c <$> from_utf8 r.
Proof.
  intros Hc. unfold scalar in Hc. unfold utf8_char.
  destruct (c <? 0x80) eqn:E1; b2p; [cbn [app from_utf8]; by cmp_true|].
  destruct (c <? 0x800) eqn:E2; b2p.
  { cbn [app from_utf8]. unfold cont. cmp_true. do 2 f_equal. dlia. }
  destruct (c <? 0x10000) eqn:E3; b2p; cbn [app from_utf8].
  - cmp_true. unfold second3, cont. cmp_true. rewrite implb_true, implb_true.
    + cbn [andb]. cmp_true. do 2 f_equal. dlia.
    + intros He. b2p. apply Z.leb_le. dlia.
    + intros He. b2p. apply Z.leb_le. dlia.
  - cmp_true. unfold second4, cont. cmp_true. rewrite implb_true, implb_true.
    + cbn [andb]. cmp_true. do 2 f_equal. dlia.
    + intros He. b2p. apply Z.leb_le. dlia.
    + intros He. b2p. apply Z.leb_le. dlia.
Qed.

Lemma from_utf8_as_bytes s : str_ok s -> from_utf8 (as_bytes s) = Some s.
Proof.
  induction 1 as [|c s Hc _ IH]; [done|]. cbn [as_bytes flat_map]. fold (as_bytes s).
  by rewrite from_utf8_char, IH.
Qed.

Lemma from_utf16_char c r : scalar c -> from_utf16 (utf16_char c ++ r) = cons c <$> from_utf16 r.
Proof.
  intros Hc. unfold scalar in Hc. unfold utf16_char. destruct (c <? 0x10000) eqn:E1; b2p; cbn [app from_utf16].
  - destruct Hc as [Hc|Hc]; [|rewrite (proj2 (Z.ltb_ge c 0xD800)) by lia]; cbn [orb]; by cmp_true.
  - cmp_true. do 2 f_equal. dlia.
Qed.

Lemma from_utf16_encode s : str_ok s -> from_utf16 (encode_utf16 s) = Some s.
Proof.
  induction 1 as [|c s Hc _ IH]; [done|]. cbn [encode_utf16 flat_map]. fold (encode_utf16 s).
  by rewrite from_utf16_char, IH.
Qed.

(** ** What the decoders accept *)

Lemma utf8_char_bytes c : scalar c -> bytes (utf8_char c).
Proof.
  intros Hc. unfold scalar in Hc. unfold utf8_char. repeat ifs; b2p;
    repeat (apply Forall_cons; split); unfold byte; try constructor; first [lia | dlia].
Qed.

Lemma as_bytes_bytes s : str_ok s -> bytes (as_bytes s).
Proof.
  induction 1 as [|c s Hc _ IH]; [constructor|]. cbn [as_bytes flat_map]. fold (as_bytes s).
  rewrite bytes_app. split; [by apply utf8_char_bytes|done].
Qed.

Definition unit16 (u : Z) : Prop := 0 <= u < 65536.

Lemma encode_utf16_units s : str_ok s -> Forall unit16 (encode_utf16 s).
Proof.
  induction 1 as [|c s Hc _ IH]; [constructor|]. cbn [encode_utf16 flat_map]. fold (encode_utf16 s).
  apply Forall_app. split; [|done]. unfold scalar in Hc. unfold utf16_char. ifs; b2p;
    repeat (apply Forall_cons; split); unfold unit16; try constructor; first [lia | dlia].
Qed.

Lemma implb_leb x k a b : implb (x =? k) (a <=? b) = true -> x = k -> a <= b.
Proof. intros H ->. rewrite Z.eqb_refl in H. by apply Z.leb_le. Qed.

Ltac implb_facts := repeat match goal with
  | H : implb (_ =? _) (_ <=? _) = true |- _ => pose proof (implb_leb _ _ _ _ H); clear H
  end.

(** A decoded string is a string, and its bytes are the input. *)
Lemma from_utf8_sound n : forall b s, (length b <= n)%nat -> bytes b -> from_utf8 b = Some s ->
  str_ok s /\ as_bytes s = b.
Proof.
  induction n as [|n IH]; intros b s Hn Hb Hs.
  { destruct b; [|simpl in Hn; lia]. injection Hs as <-. split; [constructor|done]. }
  assert (Hstep : forall c r pre, b = pre ++ r -> pre <> [] -> scalar c -> utf8_char c = pre ->
    cons c <$> from_utf8 r = Some s -> str_ok s /\ as_bytes s = b).
  { intros c r pre -> Hne Hc Hu Hr. apply fmap_Some in Hr as (s' & Hr & ->). apply bytes_app in Hb as [_ Hb].
    destruct (IH r s') as [Ho He]; [|done|done|].
    { rewrite length_app in Hn. destruct pre; [done|]. simpl in Hn. lia. }
    split; [by constructor|]. cbn [as_bytes flat_map]. fold (as_bytes s'). by rewrite Hu, He. }
  destruct b as [|b0 r]; [injection Hs as <-; split; [constructor|done]|].
  apply Forall_cons in Hb as [H0 Hb]. unfold byte in H0. cbn [from_utf8] in Hs.
  destruct (b0 <? 0x80) eqn:E0; b2p.
  { apply (Hstep b0 r [b0]); try done; [left; lia|]. unfold utf8_char. by cmp_true. }
  destruct ((0xC2 <=? b0) && _) eqn:E1.
  { destruct r as [|b1 r]; [done|]. unfold cont in Hs. revert Hs. ifs; [|done]. b2p.
    apply (Hstep _ r [b0; b1]); try done; [left; lia|]. unfold utf8_char. cmp_true. repeat f_equal; dlia. }
  destruct ((0xE0 <=? b0) && _) eqn:E2.
  { destruct r as [|b1 [|b2 r]]; [done..|]. unfold second3, cont in Hs. revert Hs. ifs; [|done]. b2p.
    implb_facts.
    apply (Hstep _ r [b0; b1; b2]); try done; [unfold scalar; lia|].
    unfold utf8_char. cmp_true. repeat f_equal; dlia. }
  destruct ((0xF0 <=? b0) && _) eqn:E3; [|done].
  destruct r as [|b1 [|b2 [|b3 r]]]; [done..|]. unfold second4, cont in Hs. revert Hs. ifs; [|done]. b2p.
  implb_facts.
  apply (Hstep _ r [b0; b1; b2; b3]); try done; [unfold scalar; lia|].
  unfold utf8_char. cmp_true. repeat f_equal; dlia.
Qed.

Lemma from_utf16_sound n : forall u s, (length u <= n)%nat -> Forall unit16 u -> from_utf16 u = Some s ->
  str_ok s /\ encode_utf16 s = u.
Proof.
  induction n as [|n IH]; intros u s Hn Hu Hs.
  { destruct u; [|simpl in Hn; lia]. injection Hs as <-. split; [constructor|done]. }
  destruct u as [|a r]; [injection Hs as <-; split; [constructor|done]|]. apply Forall_cons in Hu as [Ha Hu].
  unfold unit16 in Ha. cbn [from_utf16] in Hs. simpl in Hn.
  destruct ((a <? 0xD800) || _) eqn:E0.
  { apply fmap_Some in Hs as (s' & Hs & ->). destruct (IH r s') as [Ho He]; [lia|done..|].
    split; [constructor; [unfold scalar; b2p; destruct E0; b2p; lia|done]|].
    cbn [encode_utf16 flat_map]. fold (encode_utf16 s'). unfold utf16_char. cmp_true. by rewrite He. }
  b2p. destruct (a <? 0xDC00) eqn:E1; [|done]. destruct r as [|b r]; [done|]. apply Forall_cons in Hu as [Hb Hu].
  revert Hs. ifs; [|done]. intros Hs. b2p. apply fmap_Some in Hs as (s' & Hs & ->). simpl in Hn.
  destruct (IH r s') as [Ho He]; [lia|done..|]. split; [constructor; [unfold scalar; lia|done]|].
  cbn [encode_utf16 flat_map]. fold (encode_utf16 s'). unfold utf16_char. cmp_true. rewrite He. cbn [app].
  repeat f_equal; dlia.
Qed.

End Unicode.
