(* ===== verification/St0102.v ===== *)
(** The ST 0102 Security Metadata Local Set ([crates/tst-core/src/klv/st0102/]): the
    coded values, the tag table, the record, its lenient and strict decoders and its
    encoders. *)
From Stdlib Require Import ZArith Lia Bool.
From stdpp Require Import base list list_numbers strings.
From S2P Require Import Prelude.
From S2P Require Import Klv.
From S2P Require Import KlvPack.
From S2P Require Import Unicode.

(** A type of wire code points, as the [wire_codepoints!] macro defines one: every
    byte has a value, which remembers it. *)
Class WireCode (A : Type) : Type := {
  from_wire : Z -> A;
  to_wire : A -> Z;
  to_from_wire : forall b, byte b -> to_wire (from_wire b) = b;
}.

Module St0102.
Import Length Pack Unicode.

(** * Coded values ([enums.rs]) *)

Module Classification.
Inductive t : Type := Unclassified | Restricted | Confidential | Secret | TopSecret | Unknown (b : Z).

Definition from_wire (b : Z) : t :=
  match b with 1 => Unclassified | 2 => Restricted | 3 => Confidential | 4 => Secret | 5 => TopSecret | _ => Unknown b end.

Definition to_wire (v : t) : Z :=
  match v with Unclassified => 1 | Restricted => 2 | Confidential => 3 | Secret => 4 | TopSecret => 5 | Unknown b => b end.

Definition is_known_codepoint (v : t) : bool := match v with Unknown _ => false | _ => true end.
End Classification.

Module CountryCoding.
Inductive t : Type :=
| Iso3166TwoLetter | Iso3166ThreeLetter | Fips104TwoLetter | Fips104FourLetter | Iso3166Numeric
| Stanag1059TwoLetter | Stanag1059ThreeLetter | OmittedValue08 | OmittedValue09 | Fips104Mixed | Iso3166Mixed
| Stanag1059Mixed | GencTwoLetter | GencThreeLetter | GencNumeric | GencMixed | Unknown (b : Z).

Definition from_wire (b : Z) : t :=
  match b with
  | 0x01 => Iso3166TwoLetter | 0x02 => Iso3166ThreeLetter | 0x03 => Fips104TwoLetter | 0x04 => Fips104FourLetter
  | 0x05 => Iso3166Numeric | 0x06 => Stanag1059TwoLetter | 0x07 => Stanag1059ThreeLetter | 0x08 => OmittedValue08
  | 0x09 => OmittedValue09 | 0x0A => Fips104Mixed | 0x0B => Iso3166Mixed | 0x0C => Stanag1059Mixed
  | 0x0D => GencTwoLetter | 0x0E => GencThreeLetter | 0x0F => GencNumeric | 0x10 => GencMixed
  | _ => Unknown b
  end.

Definition to_wire (v : t) : Z :=
  match v with
  | Iso3166TwoLetter => 0x01 | Iso3166ThreeLetter => 0x02 | Fips104TwoLetter => 0x03 | Fips104FourLetter => 0x04
  | Iso3166Numeric => 0x05 | Stanag1059TwoLetter => 0x06 | Stanag1059ThreeLetter => 0x07 | OmittedValue08 => 0x08
  | OmittedValue09 => 0x09 | Fips104Mixed => 0x0A | Iso3166Mixed => 0x0B | Stanag1059Mixed => 0x0C
  | GencTwoLetter => 0x0D | GencThreeLetter => 0x0E | GencNumeric => 0x0F | GencMixed => 0x10
  | Unknown b => b
  end.

Definition is_known_codepoint (v : t) : bool :=
  match v with Unknown _ | OmittedValue08 | OmittedValue09 => false | _ => true end.
End CountryCoding.

Module ObjectCoding.
Inductive t : Type :=
| Iso3166TwoLetter | Iso3166ThreeLetter | Iso3166Numeric | Fips104TwoLetter | Fips104FourLetter
| Stanag1059TwoLetter | Stanag1059ThreeLetter | OmittedValue08 | OmittedValue09 | OmittedValue0A | OmittedValue0B
| OmittedValue0C | GencTwoLetter | GencThreeLetter | GencNumeric | GencAdminSub | Unknown (b : Z).

Definition from_wire (b : Z) : t :=
  match b with
  | 0x01 => Iso3166TwoLetter | 0x02 => Iso3166ThreeLetter | 0x03 => Iso3166Numeric | 0x04 => Fips104TwoLetter
  | 0x05 => Fips104FourLetter | 0x06 => Stanag1059TwoLetter | 0x07 => Stanag1059ThreeLetter | 0x08 => OmittedValue08
  | 0x09 => OmittedValue09 | 0x0A => OmittedValue0A | 0x0B => OmittedValue0B | 0x0C => OmittedValue0C
  | 0x0D => GencTwoLetter | 0x0E => GencThreeLetter | 0x0F => GencNumeric | 0x40 => GencAdminSub
  | _ => Unknown b
  end.

Definition to_wire (v : t) : Z :=
  match v with
  | Iso3166TwoLetter => 0x01 | Iso3166ThreeLetter => 0x02 | Iso3166Numeric => 0x03 | Fips104TwoLetter => 0x04
  | Fips104FourLetter => 0x05 | Stanag1059TwoLetter => 0x06 | Stanag1059ThreeLetter => 0x07 | OmittedValue08 => 0x08
  | OmittedValue09 => 0x09 | OmittedValue0A => 0x0A | OmittedValue0B => 0x0B | OmittedValue0C => 0x0C
  | GencTwoLetter => 0x0D | GencThreeLetter => 0x0E | GencNumeric => 0x0F | GencAdminSub => 0x40
  | Unknown b => b
  end.

Definition is_known_codepoint (v : t) : bool :=
  match v with
  | Unknown _ | OmittedValue08 | OmittedValue09 | OmittedValue0A | OmittedValue0B | OmittedValue0C => false
  | _ => true
  end.
End ObjectCoding.

(** * Tag table ([tags.rs]) *)

Inductive Encoding : Type :=
| U8Enum | U16Be | Iso646 | FixedAscii (expected_len : Z) | Utf16Bom.

Record TagSpec : Type := { id : Z; encoding : Encoding; required : bool }.

Definition spec (i : Z) (e : Encoding) (r : bool) : TagSpec := {| id := i; encoding := e; required := r |}.

Definition TAGS : list TagSpec :=
  [spec 1 U8Enum true; spec 2 U8Enum true; spec 3 Iso646 true; spec 4 Iso646 false; spec 5 Iso646 false;
   spec 6 Iso646 false; spec 7 Iso646 false; spec 8 Iso646 false; spec 9 Iso646 false;
   spec 10 (FixedAscii 8) false; spec 11 Iso646 false; spec 12 U8Enum true; spec 13 Utf16Bom true;
   spec 14 Iso646 false; spec 22 U16Be true; spec 23 (FixedAscii 10) false; spec 24 (FixedAscii 10) false].

Definition REQUIRED_TAGS : list Z := [1; 2; 3; 12; 13; 22].

Definition lookup (tag : Z) : option TagSpec := find (fun t => id t =? tag) TAGS.

(** * The record ([model.rs]) *)

Record SecurityLs : Type := MkLs {
  security_classification : option Classification.t;
  classifying_country_coding_method : option CountryCoding.t;
  classifying_country : option (list Z);
  object_country_coding_method : option ObjectCoding.t;
  object_country_codes : option (list Z);
  version : option Z;
  sci_shi_info : option (list Z);
  caveats : option (list Z);
  releasing_instructions : option (list Z);
  classified_by : option (list Z);
  derived_from : option (list Z);
  classification_reason : option (list Z);
  declassification_date : option (list Z);
  classification_marking_system : option (list Z);
  classification_comments : option (list Z);
  classifying_country_coding_method_version_date : option (list Z);
  object_country_coding_method_version_date : option (list Z);
  unknown : list RawField;
  field_errors : list KlvFieldError;
}.

Definition default_ls : SecurityLs :=
  MkLs None None None None None None None None None None None None None None None None None [] [].

(** The assignments of the decoder. *)
Definition set_classification v r := match r with MkLs _ b c d e f g h i j k l m n o p q u w => MkLs (Some v) b c d e f g h i j k l m n o p q u w end.
Definition set_country_coding v r := match r with MkLs a _ c d e f g h i j k l m n o p q u w => MkLs a (Some v) c d e f g h i j k l m n o p q u w end.
Definition set_object_coding v r := match r with MkLs a b c _ e f g h i j k l m n o p q u w => MkLs a b c (Some v) e f g h i j k l m n o p q u w end.
Definition set_object_codes v r := match r with MkLs a b c d _ f g h i j k l m n o p q u w => MkLs a b c d (Some v) f g h i j k l m n o p q u w end.
Definition set_version v r := match r with MkLs a b c d e _ g h i j k l m n o p q u w => MkLs a b c d e (Some v) g h i j k l m n o p q u w end.
Definition push_unknown v r := match r with MkLs a b c d e f g h i j k l m n o p q u w => MkLs a b c d e f g h i j k l m n o p q (u ++ [v]) w end.
Definition push_error v r := match r with MkLs a b c d e f g h i j k l m n o p q u w => MkLs a b c d e f g h i j k l m n o p q u (w ++ [v]) end.

(** The string fields by tag; any other tag is the decoder's [unreachable!]. *)
Definition set_string {E} (tag : Z) (s : list Z) (r : SecurityLs) : res E SecurityLs :=
  match r with
  | MkLs a b c d e f g h i j k l m n o p q u w =>
      if tag =? 3 then Ok (MkLs a b (Some s) d e f g h i j k l m n o p q u w)
      else if tag =? 4 then Ok (MkLs a b c d e f (Some s) h i j k l m n o p q u w)
      else if tag =? 5 then Ok (MkLs a b c d e f g (Some s) i j k l m n o p q u w)
      else if tag =? 6 then Ok (MkLs a b c d e f g h (Some s) j k l m n o p q u w)
      else if tag =? 7 then Ok (MkLs a b c d e f g h i (Some s) k l m n o p q u w)
      else if tag =? 8 then Ok (MkLs a b c d e f g h i j (Some s) l m n o p q u w)
      else if tag =? 9 then Ok (MkLs a b c d e f g h i j k (Some s) m n o p q u w)
      else if tag =? 10 then Ok (MkLs a b c d e f g h i j k l (Some s) n o p q u w)
      else if tag =? 11 then Ok (MkLs a b c d e f g h i j k l m (Some s) o p q u w)
      else if tag =? 14 then Ok (MkLs a b c d e f g h i j k l m n (Some s) p q u w)
      else if tag =? 23 then Ok (MkLs a b c d e f g h i j k l m n o (Some s) q u w)
      else if tag =? 24 then Ok (MkLs a b c d e f g h i j k l m n o p (Some s) u w)
      else Panic
  end.

(** [PartialEq] leaves [field_errors] out. *)
Definition forget_errors (r : SecurityLs) : SecurityLs :=
  match r with MkLs a b c d e f g h i j k l m n o p q u _ => MkLs a b c d e f g h i j k l m n o p q u [] end.

(** [parse_u16_pairs]: an odd length fails. *)
Fixpoint parse_pairs (big_endian : bool) (b : list Z) : option (list Z) :=
  match b with
  | [] => Some []
  | [_] => None
  | x :: y :: b => cons (if big_endian then from_be16 x y else from_be16 y x) <$> parse_pairs big_endian b
  end.

Definition starts_with (b p : list Z) : bool := bool_decide (take (length p) b = p).

Definition decode_utf16_bom (b : list Z) : option (list Z) :=
  get! units :=
    (if starts_with b [0xFE; 0xFF] then parse_pairs true (zdrop 2 b)
     else if starts_with b [0xFF; 0xFE] then parse_pairs false (zdrop 2 b)
     else parse_pairs true b) in
  from_utf16 units.

Definition encode_utf16_bom (s : list Z) : list Z := [0xFE; 0xFF] ++ flat_map be16 (encode_utf16 s).

(** * Decoding ([decode.rs]) *)

(** The loop of [strict_ber_walk]; every item takes at least two bytes. *)
Fixpoint strict_loop (fuel : nat) (rest : list Z) (offset : Z) (seen : list Z) : res KlvDecodeError unit :=
  match fuel with
  | O => Panic
  | S fuel =>
      if zlen rest =? 0 then Ok tt
      else
        let item_start := offset in
        let! (tag, len, consumed, after_len) := read_strict_tlv rest item_start in
        if bool_decide (tag ∈ seen) then Err (DuplicateTag tag item_start)
        else if zlen after_len <? len then Ok tt
        else
          let! rest := from after_len len in
          strict_loop fuel rest (item_start + consumed + len) (tag :: seen)
  end.

Definition strict_ber_walk (buf : list Z) : res KlvDecodeError unit := strict_loop (length buf + 1) buf 0 [].

Definition wrong_length {A} (tag expected got : Z) : res KlvDecodeError A :=
  Err (FieldError (InvalidLength tag expected got)).

(** The three coded tags. *)
Definition decode_enum (strict : bool) (tag b : Z) (record : SecurityLs) : res KlvDecodeError SecurityLs :=
  let bad := Err (FieldError (InvalidCodepoint tag b)) in
  if tag =? 1 then
    let v := Classification.from_wire b in
    if strict && negb (Classification.is_known_codepoint v) then bad else Ok (set_classification v record)
  else if tag =? 2 then
    let v := CountryCoding.from_wire b in
    if strict && negb (CountryCoding.is_known_codepoint v) then bad else Ok (set_country_coding v record)
  else if tag =? 12 then
    let v := ObjectCoding.from_wire b in
    if strict && negb (ObjectCoding.is_known_codepoint v) then bad else Ok (set_object_coding v record)
  else Panic.

(** [Encoding::Iso646] and [Encoding::FixedAscii]: the latter with the length strict
    mode wants. *)
Definition decode_string (strict : bool) (fixed : option Z) (tag : Z) (value : list Z) (record : SecurityLs)
    : res KlvDecodeError SecurityLs :=
  if zlen value =? 0 then Ok record
  else
    let! s :=
      (if bool_decide (value = [0x00]) then Ok []
       else
         match from_utf8 value with
         | None => Err (FieldError (InvalidUtf8 tag))
         | Some parsed =>
             match fixed with
             | Some expected_len =>
                 if strict && negb (zlen (as_bytes parsed) =? expected_len)
                 then wrong_length tag expected_len (zlen (as_bytes parsed)) else Ok parsed
             | None => Ok parsed
             end
         end) in
    set_string tag s record.

(** One turn of the field loop. *)
Definition decode_field (strict : bool) (f : RawField) (record : SecurityLs) : res KlvDecodeError SecurityLs :=
  if negb (tag f <? 256) then Ok (push_unknown f record)
  else
    match lookup (tag f) with
    | None => Ok (push_unknown f record)
    | Some spec =>
        match encoding spec with
        | U8Enum =>
            if negb (zlen (value f) =? 1) then wrong_length (tag f) 1 (zlen (value f))
            else let! b := idx (value f) 0 in decode_enum strict (tag f) b record
        | U16Be =>
            if negb (zlen (value f) =? 2) then wrong_length (tag f) 2 (zlen (value f))
            else
              let! a := idx (value f) 0 in
              let! b := idx (value f) 1 in
              Ok (set_version (from_be16 a b) record)
        | Iso646 => decode_string strict None (tag f) (value f) record
        | FixedAscii n => decode_string strict (Some n) (tag f) (value f) record
        | Utf16Bom =>
            if zlen (value f) =? 0 then Ok record
            else
              match decode_utf16_bom (value f) with
              | Some s => Ok (set_object_codes s record)
              | None =>
                  if strict then Err (FieldError (InvalidUtf16 (tag f)))
                  else Ok (push_error (InvalidUtf16 (tag f)) record)
              end
        end
    end.

(** [for r in Iter::local_set(buf)] *)
Fixpoint decode_loop (fuel : nat) (strict : bool) (it : Iter) (record : SecurityLs) : res KlvDecodeError SecurityLs :=
  match fuel with
  | O => Panic
  | S fuel =>
      let! (item, it) := next it in
      match item with
      | None => Ok record
      | Some (inr e) => Err e
      | Some (inl f) => let! record := decode_field strict f record in decode_loop fuel strict it record
      end
  end.

Definition present (r : SecurityLs) (t : Z) : bool :=
  if t =? 1 then match security_classification r with Some _ => true | None => false end
  else if t =? 2 then match classifying_country_coding_method r with Some _ => true | None => false end
  else if t =? 3 then match classifying_country r with Some _ => true | None => false end
  else if t =? 12 then match object_country_coding_method r with Some _ => true | None => false end
  else if t =? 13 then match object_country_codes r with Some _ => true | None => false end
  else if t =? 22 then match version r with Some _ => true | None => false end
  else true.

Definition decode_inner (buf : list Z) (strict : bool) : res KlvDecodeError SecurityLs :=
  check! (if strict then strict_ber_walk buf else Ok tt) in
  let! record := decode_loop (length buf + 2) strict (local_set buf) default_ls in
  check! (if strict then
            check_each (fun t => throw_if (negb (present record t)) (St0102MissingRequiredTag t)) REQUIRED_TAGS
          else Ok tt) in
  Ok record.

Definition decode (buf : list Z) : res KlvDecodeError SecurityLs := decode_inner buf false.
Definition decode_strict (buf : list Z) : res KlvDecodeError SecurityLs := decode_inner buf true.

(** * Encoding ([encode.rs]) *)

Definition str_wire (s : list Z) : list Z := if zlen s =? 0 then [0x00] else as_bytes s.
Definition str_wire_len (s : list Z) : Z := if zlen s =? 0 then 1 else zlen (as_bytes s).

(** [if let Some(v) = field { emit(tag, wire(v)) }] *)
Definition field {A} (tag : Z) (wire : A -> list Z) (v : option A) : list (Z * list Z) :=
  match v with Some v => [(tag, wire v)] | None => [] end.

(** The typed fields in the order they are emitted. *)
Definition typed_fields (r : SecurityLs) : list (Z * list Z) :=
  field 1 (fun v => [Classification.to_wire v]) (security_classification r) ++
  field 2 (fun v => [CountryCoding.to_wire v]) (classifying_country_coding_method r) ++
  field 3 str_wire (classifying_country r) ++
  field 4 str_wire (sci_shi_info r) ++
  field 5 str_wire (caveats r) ++
  field 6 str_wire (releasing_instructions r) ++
  field 7 str_wire (classified_by r) ++
  field 8 str_wire (derived_from r) ++
  field 9 str_wire (classification_reason r) ++
  field 10 str_wire (declassification_date r) ++
  field 11 str_wire (classification_marking_system r) ++
  field 12 (fun v => [ObjectCoding.to_wire v]) (object_country_coding_method r) ++
  field 13 encode_utf16_bom (object_country_codes r) ++
  field 14 str_wire (classification_comments r) ++
  field 22 be16 (version r) ++
  field 23 str_wire (classifying_country_coding_method_version_date r) ++
  field 24 str_wire (object_country_coding_method_version_date r).

(** [add(value_len)] *)
Definition add_len (value_len : Z) : Z := 1 + ber_len value_len + value_len.

Definition opt_len {A} (len : A -> Z) (v : option A) : Z :=
  match v with Some v => add_len (len v) | None => 0 end.

Definition encoded_len (r : SecurityLs) : Z :=
  opt_len (fun _ => 1) (security_classification r) +
  opt_len (fun _ => 1) (classifying_country_coding_method r) +
  opt_len str_wire_len (classifying_country r) +
  opt_len str_wire_len (sci_shi_info r) +
  opt_len str_wire_len (caveats r) +
  opt_len str_wire_len (releasing_instructions r) +
  opt_len str_wire_len (classified_by r) +
  opt_len str_wire_len (derived_from r) +
  opt_len str_wire_len (classification_reason r) +
  opt_len str_wire_len (declassification_date r) +
  opt_len str_wire_len (classification_marking_system r) +
  opt_len (fun _ => 1) (object_country_coding_method r) +
  opt_len (fun s => 2 + zlen (encode_utf16 s) * 2) (object_country_codes r) +
  opt_len str_wire_len (classification_comments r) +
  opt_len (fun _ => 2) (version r) +
  opt_len str_wire_len (classifying_country_coding_method_version_date r) +
  opt_len str_wire_len (object_country_coding_method_version_date r) +
  fold_right (fun u n => ber_oid_len (tag u) + ber_len (zlen (value u)) + zlen (value u) + n) 0 (unknown r).

(** [f(&mut out[pos..])]: the call sees the tail and its writes land in [out]. *)
Definition on_tail (f : list Z -> res KlvEncodeError (Z * list Z)) (out : list Z) (pos : Z)
    : res KlvEncodeError (list Z * Z) :=
  let! tail := from out pos in
  let! (n, tail) := map_err (fun _ => RecordTooLarge) (f tail) in
  let! head := slice out 0 pos in
  Ok (head ++ tail, pos + n).

(** The [emit] closure: a one-byte tag. *)
Definition emit (out : list Z) (pos : Z) (tag : Z) (value : list Z) : res KlvEncodeError (list Z * Z) :=
  let! out := put out pos [tag] in
  let pos := pos + 1 in
  let! (out, pos) := on_tail (write_ber (zlen value)) out pos in
  let! out := put out pos value in
  Ok (out, pos + zlen value).

Fixpoint emit_fields (fs : list (Z * list Z)) (out : list Z) (pos : Z) : res KlvEncodeError (list Z * Z) :=
  match fs with
  | [] => Ok (out, pos)
  | (tag, value) :: fs => let! (out, pos) := emit out pos tag value in emit_fields fs out pos
  end.

(** The [unknown] loop. *)
Fixpoint emit_unknown (us : list RawField) (out : list Z) (pos : Z) : res KlvEncodeError (list Z * Z) :=
  match us with
  | [] => Ok (out, pos)
  | u :: us =>
      if is_typed_tag (tag u) lookup then Err (ReservedTagInUnknown (tag u))
      else
        let! (out, pos) := on_tail (write_ber_oid (tag u)) out pos in
        let! (out, pos) := on_tail (write_ber (zlen (value u))) out pos in
        let! out := put out pos (value u) in
        emit_unknown us out (pos + zlen (value u))
  end.

(** The buffer afterwards and the count written. *)
Definition encode (r : SecurityLs) (out : list Z) : res KlvEncodeError (list Z * Z) :=
  let needed := encoded_len r in
  if zlen out <? needed then Err (BufferTooSmall needed (zlen out))
  else
    let! (out, pos) := emit_fields (typed_fields r) out 0 in
    emit_unknown (unknown r) out pos.

Definition encode_to_vec (r : SecurityLs) : res KlvEncodeError (list Z) :=
  let! (buf, n) := encode r (zrep (encoded_len r) 0) in
  Ok (ztake n buf).

(** [sanitize_st0107_string], shared with the ST 0601 encoder *)
Definition is_st0107_control_char (c : Z) : bool :=
  ((0 <=? c) && (c <=? 8)) || (c =? 0x0B) || (c =? 0x0C) || ((0x0E <=? c) && (c <=? 0x1F)) || (c =? 0x7F).

Definition is_trimmed (c : Z) : bool := (c =? 32) || (c =? 9) || (c =? 10) || (c =? 13).

Fixpoint trim_start (s : list Z) : list Z :=
  match s with [] => [] | c :: r => if is_trimmed c then trim_start r else s end.

Definition trim_matches (s : list Z) : list Z := rev (trim_start (rev (trim_start s))).

Definition sanitize_st0107_string (s : list Z) : list Z :=
  trim_matches (List.filter (fun c => negb (is_st0107_control_char c)) s).

Definition sanitize_strings_st0102 (r : SecurityLs) : SecurityLs :=
  let s := option_map sanitize_st0107_string in
  match r with
  | MkLs a b c d e f g h i j k l m n o p q u w =>
      MkLs a b (s c) d e f (s g) (s h) (s i) (s j) (s k) (s l) (s m) (s n) (s o) (s p) (s q) u w
  end.

Definition required_name (t : Z) : string :=
  if t =? 1 then "Security Classification"
  else if t =? 2 then "Classifying Country Coding Method"
  else if t =? 3 then "Classifying Country"
  else if t =? 12 then "Object Country Coding Method"
  else if t =? 13 then "Object Country Codes"
  else if t =? 22 then "Version"
  else "Unknown".

Definition encode_strict_compliance (r : SecurityLs) : res KlvEncodeError (list Z) :=
  check! check_each (fun t => throw_if (negb (present r t)) (MissingMandatoryItem t (required_name t))) REQUIRED_TAGS in
  encode_to_vec (sanitize_strings_st0102 r).

End St0102.
