(* ===== verification/St0102Theorems.v ===== *)
(** Theorems on the ST 0102 Security Metadata Local Set of [St0102]: the encoders
    write what the decoders read, a decoded record encodes again, and what strict
    mode adds. *)
From Stdlib Require Import ZArith Lia Bool.
From stdpp Require Import base list list_numbers strings.
From S2P Require Import Prelude.
From S2P Require Import Klv.
From S2P Require Import KlvPack.
From S2P Require Import Unicode.
From S2P Require Import St0102.

Module Security.
Import Length LengthSpec LengthLemmas Pack PackSpec PackLemmas EmitLemmas Unicode St0102.

#[global] Instance classification_code : WireCode Classification.t.
Proof.
  refine {| from_wire := Classification.from_wire; to_wire := Classification.to_wire |}.
  intros b Hb. apply Z.eqb_eq.
  exact (byte_all (fun b => Classification.to_wire (Classification.from_wire b) =? b) eq_refl b Hb).
Defined.

#[global] Instance country_code : WireCode CountryCoding.t.
Proof.
  refine {| from_wire := CountryCoding.from_wire; to_wire := CountryCoding.to_wire |}.
  intros b Hb. apply Z.eqb_eq.
  exact (byte_all (fun b => CountryCoding.to_wire (CountryCoding.from_wire b) =? b) eq_refl b Hb).
Defined.

#[global] Instance object_code : WireCode ObjectCoding.t.
Proof.
  refine {| from_wire := ObjectCoding.from_wire; to_wire := ObjectCoding.to_wire |}.
  intros b Hb. apply Z.eqb_eq.
  exact (byte_all (fun b => ObjectCoding.to_wire (ObjectCoding.from_wire b) =? b) eq_refl b Hb).
Defined.

(** ** Records that fit the wire *)

Definition opt_ok {A} (P : A -> Prop) (o : option A) : Prop := match o with Some x => P x | None => True end.

(** A value that is the one its code point stands for: not [Unknown] of an assigned
    code. *)
Definition code_ok {A} `{WireCode A} (v : A) : Prop := byte (to_wire v) /\ from_wire (to_wire v) = v.

(** A string other than the lone NUL, which is the wire form of the empty string. *)
Definition text_ok (s : list Z) : Prop := str_ok s /\ s <> [0].

Definition unknown_ok (u : RawField) : Prop := field_ok u /\ is_typed_tag (tag u) lookup = false.

Definition strings (r : SecurityLs) : list (Z * option (list Z)) :=
  [(3, classifying_country r); (4, sci_shi_info r); (5, caveats r); (6, releasing_instructions r);
   (7, classified_by r); (8, derived_from r); (9, classification_reason r); (10, declassification_date r);
   (11, classification_marking_system r); (14, classification_comments r);
   (23, classifying_country_coding_method_version_date r); (24, object_country_coding_method_version_date r)].

Definition ls_ok (r : SecurityLs) : Prop :=
  opt_ok code_ok (security_classification r) /\ opt_ok code_ok (classifying_country_coding_method r) /\
  opt_ok code_ok (object_country_coding_method r) /\ opt_ok str_ok (object_country_codes r) /\
  opt_ok (fun v => 0 <= v < 65536) (version r) /\
  Forall (fun ts => opt_ok text_ok (snd ts)) (strings r) /\ Forall unknown_ok (unknown r) /\
  Forall (fun tv => zlen (snd tv) <= usize_max) (typed_fields r).

(** What strict mode asks of the values. *)
Definition strict_values (r : SecurityLs) : Prop :=
  opt_ok (fun v => Classification.is_known_codepoint v = true) (security_classification r) /\
  opt_ok (fun v => CountryCoding.is_known_codepoint v = true) (classifying_country_coding_method r) /\
  opt_ok (fun v => ObjectCoding.is_known_codepoint v = true) (object_country_coding_method r) /\
  Forall (fun ts => forall n, encoding <$> lookup (fst ts) = Some (FixedAscii n) ->
                    opt_ok (fun s => s = [] \/ zlen (as_bytes s) = n) (snd ts)) (strings r).

Definition all_fields (r : SecurityLs) : list RawField :=
  map (fun tv => {| tag := fst tv; value := snd tv |}) (typed_fields r) ++ unknown r.

(** ** The field loop *)

Fixpoint run (strict : bool) (l : list (RawField + KlvDecodeError)) (r : SecurityLs) : res KlvDecodeError SecurityLs :=
  match l with
  | [] => Ok r
  | inr e :: _ => Err e
  | inl f :: l => let! r := decode_field strict f r in run strict l r
  end.

Lemma decode_loop_run strict fuel : forall it l r,
  drain (E:=KlvDecodeError) fuel it = Ok (Some l) -> decode_loop fuel strict it r = run strict l r.
Proof.
  induction fuel as [|fuel IH]; intros it l r; [done|]. cbn [drain decode_loop].
  destruct (next it) as [[item it']| |]; [|done..]. rb. destruct item as [[f|e]|].
  - destruct (drain fuel it') as [[l'|]| |] eqn:E; try done. rb. intros [= <-]. cbn [run].
    destruct (decode_field strict f r) as [r'| |]; [|done..]. rb. by apply IH.
  - destruct (drain fuel it') as [[l'|]| |]; try done. by intros [= <-].
  - by intros [= <-].
Qed.

Lemma run_app strict a b : forall r, run strict (map inl a ++ b) r =
  let! r := run strict (map inl a) r in run strict b r.
Proof.
  induction a as [|f a IH]; intros r; [done|]. cbn [map app run].
  destruct (decode_field strict f r); [|done..]. rb. apply IH.
Qed.

(** ** One field at a time *)

Lemma as_bytes_nonempty s : s <> [] -> 1 <= zlen (as_bytes s).
Proof.
  destruct s as [|c s]; [done|]. intros _. cbn [as_bytes flat_map]. fold (as_bytes s). rewrite zlen_app.
  assert (1 <= zlen (utf8_char c)); [|zlia]. unfold utf8_char. repeat ifs; zlia.
Qed.

Lemma zlen_nonzero {A} (l : list A) : l <> [] -> (zlen l =? 0) = false.
Proof. intros. apply Z.eqb_neq. intros Hz. by apply zlen_0 in Hz. Qed.

(** A string in wire form decodes to itself. *)
Lemma decode_string_wire strict fixed t s r :
  text_ok s -> (forall n, fixed = Some n -> strict = true -> s = [] \/ zlen (as_bytes s) = n) ->
  decode_string strict fixed t (str_wire s) r = set_string t s r.
Proof.
  intros [Hs H0] Hf. unfold decode_string, str_wire. destruct (decide (s = [])) as [->|Hne]; [done|].
  rewrite (zlen_nonzero s Hne). pose proof (as_bytes_nonempty s Hne).
  rewrite (proj2 (Z.eqb_neq (zlen (as_bytes s)) 0)) by lia.
  rewrite bool_decide_eq_false_2, (from_utf8_as_bytes s Hs).
  - destruct fixed as [n|]; [|done]. destruct strict; [|done].
    destruct (Hf n eq_refl eq_refl) as [?|Hn]; [done|]. by rewrite (proj2 (Z.eqb_eq _ _) Hn).
  - intros He. pose proof (from_utf8_as_bytes s Hs) as Hu. rewrite He in Hu. by injection Hu as <-.
Qed.

Lemma parse_pairs_be u : Forall unit16 u -> parse_pairs true (flat_map be16 u) = Some u.
Proof.
  induction 1 as [|x u Hx _ IH]; [done|]. cbn [flat_map be16 app parse_pairs]. rewrite IH. cbn. do 2 f_equal.
  unfold unit16 in Hx. unfold from_be16. rewrite shiftr_div by lia. change (2 ^ 8) with 256. dlia.
Qed.

Lemma decode_encode_utf16 s : str_ok s -> decode_utf16_bom (encode_utf16_bom s) = Some s.
Proof.
  intros Hs. unfold decode_utf16_bom, encode_utf16_bom, starts_with. cbn [app length take].
  rewrite bool_decide_eq_true_2 by done. change (zdrop 2 (?a :: ?b :: ?l)) with l.
  rewrite parse_pairs_be by by apply encode_utf16_units. by apply from_utf16_encode.
Qed.

Ltac cbn_ls := cbn [security_classification classifying_country_coding_method classifying_country
  object_country_coding_method object_country_codes version sci_shi_info caveats releasing_instructions classified_by
  derived_from classification_reason declassification_date classification_marking_system classification_comments
  classifying_country_coding_method_version_date object_country_coding_method_version_date unknown field_errors] in *.

Definition raw (tv : Z * list Z) : RawField := {| tag := fst tv; value := snd tv |}.

(** An optional field takes one turn or none. *)
Lemma run_field {A} strict t (wire : A -> list Z) v r r' rest :
  match v with Some x => decode_field strict (raw (t, wire x)) r = Ok r' | None => r' = r end ->
  run strict (map inl (map raw (field t wire v)) ++ rest) r = run strict rest r'.
Proof. destruct v as [x|]; cbn; [by intros ->|by intros ->]. Qed.

Lemma field_string strict t s e r r' : lookup t = Some e -> (t <? 256) = true -> text_ok s ->
  encoding e = Iso646 \/ (exists n, encoding e = FixedAscii n /\ (strict = true -> s = [] \/ zlen (as_bytes s) = n)) ->
  set_string (E:=KlvDecodeError) t s r = Ok r' -> decode_field strict (raw (t, str_wire s)) r = Ok r'.
Proof.
  intros Hl Ht Hs He Hr. unfold decode_field. cbn [raw fst snd tag value]. rewrite Ht, Hl. cbn [negb].
  destruct He as [-> |(n & -> & Hn)]; rewrite decode_string_wire; try done. intros m [= <-]. done.
Qed.

(** Reduce the decoder at a coded tag to its value. *)
Ltac enum_field Hv :=
  unfold decode_field; cbn [raw fst snd tag value];
  match goal with |- context [lookup ?t] => let v := eval cbv in (lookup t) in change (lookup t) with v end;
  cbn [negb Z.ltb Z.compare Pos.compare Pos.compare_cont encoding]; change (zlen [_]) with 1;
  cbn [negb Z.eqb Pos.eqb]; idxs; unfold decode_enum; cbn [Z.eqb Pos.eqb];
  simpl in Hv; rewrite Hv.

Lemma field_classification strict v r : code_ok v -> (strict = true -> Classification.is_known_codepoint v = true) ->
  decode_field strict (raw (1, [Classification.to_wire v])) r = Ok (set_classification v r).
Proof.
  intros [_ Hv] Hk. enum_field Hv. destruct strict; [|done]. by rewrite Hk.
Qed.

Lemma field_country strict v r : code_ok v -> (strict = true -> CountryCoding.is_known_codepoint v = true) ->
  decode_field strict (raw (2, [CountryCoding.to_wire v])) r = Ok (set_country_coding v r).
Proof.
  intros [_ Hv] Hk. enum_field Hv. destruct strict; [|done]. by rewrite Hk.
Qed.

Lemma field_object strict v r : code_ok v -> (strict = true -> ObjectCoding.is_known_codepoint v = true) ->
  decode_field strict (raw (12, [ObjectCoding.to_wire v])) r = Ok (set_object_coding v r).
Proof.
  intros [_ Hv] Hk. enum_field Hv. destruct strict; [|done]. by rewrite Hk.
Qed.

Lemma field_codes strict s r : str_ok s ->
  decode_field strict (raw (13, encode_utf16_bom s)) r = Ok (set_object_codes s r).
Proof.
  intros Hs. unfold decode_field. cbn [raw fst snd tag value]. change (lookup 13) with (Some (spec 13 Utf16Bom true)).
  cbn [negb Z.ltb encoding spec]. rewrite zlen_nonzero by done. by rewrite decode_encode_utf16.
Qed.

Lemma field_version strict v r : 0 <= v < 65536 ->
  decode_field strict (raw (22, be16 v)) r = Ok (set_version v r).
Proof.
  intros Hv. unfold decode_field, be16. cbn [raw fst snd tag value]. change (lookup 22) with (Some (spec 22 U16Be true)).
  cbn [negb Z.ltb encoding spec]. rewrite zlen_cons, zlen_cons, zlen_nil. idxs. cbn -[Z.shiftr Z.modulo from_be16].
  do 2 f_equal. unfold from_be16. rewrite shiftr_div by lia. change (2 ^ 8) with 256. dlia.
Qed.

Lemma field_unknown strict u r : unknown_ok u -> decode_field strict u r = Ok (push_unknown u r).
Proof.
  intros [(Ht & _) Hu]. unfold decode_field, is_typed_tag in *. destruct (tag u <? 256) eqn:E; [|done]. cbn [negb].
  rewrite (proj2 (Z.leb_le 0 (tag u))) in Hu by lia. cbn [andb] in Hu. by destruct (lookup (tag u)).
Qed.

Lemma run_unknown strict us : Forall unknown_ok us -> forall r,
  exists r', run strict (map inl us) r = Ok r' /\
    forall a b c d e f g h i j k l m n o p q u w, r = MkLs a b c d e f g h i j k l m n o p q u w ->
      r' = MkLs a b c d e f g h i j k l m n o p q (u ++ us) w.
Proof.
  induction 1 as [|x us Hx _ IH]; intros r.
  { exists r. split; [done|]. intros. by rewrite app_nil_r. }
  cbn [map run]. rewrite field_unknown by done. rb. destruct (IH (push_unknown x r)) as (r' & Hr & Hs).
  exists r'. split; [done|]. intros * ->. by rewrite (Hs _ _ _ _ _ _ _ _ _ _ _ _ _ _ _ _ _ _ _ eq_refl), <- app_assoc.
Qed.

(** A string field in the loop: its tag's row in the table, its place in the record. *)
Ltac string_field H v :=
  destruct v; [|reflexivity];
  eapply field_string; [reflexivity|reflexivity|exact H|left; reflexivity|reflexivity].
Ltac fixed_field H F v :=
  destruct v; [|reflexivity];
  eapply field_string; [reflexivity|reflexivity|exact H| |reflexivity];
  right; eexists; split; [reflexivity|apply F; reflexivity].

(** The field loop rebuilds the record it was written from. *)
Lemma run_all_fields strict r : ls_ok r -> (strict = true -> strict_values r) ->
  run strict (map inl (all_fields r)) default_ls = Ok (forget_errors r).
Proof.
  intros (H1 & H2 & H12 & H13 & H22 & Hs & Hu & _) Hst. unfold strict_values, strings in *.
  destruct r as [a b c d e f g h i j k l m n o p q u w]. unfold all_fields, typed_fields. cbn_ls.
  rewrite !Forall_cons in Hs. cbn [snd] in Hs.
  destruct Hs as (S3 & S4 & S5 & S6 & S7 & S8 & S9 & S10 & S11 & S14 & S23 & S24 & _).
  assert (F10 : forall x, m = Some x -> strict = true -> x = [] \/ zlen (as_bytes x) = 8).
  { intros x -> Ht. destruct (Hst Ht) as (_ & _ & _ & Hf). rewrite !Forall_cons in Hf. by apply Hf. }
  assert (F23 : forall x, p = Some x -> strict = true -> x = [] \/ zlen (as_bytes x) = 10).
  { intros x -> Ht. destruct (Hst Ht) as (_ & _ & _ & Hf). rewrite !Forall_cons in Hf. by apply Hf. }
  assert (F24 : forall x, q = Some x -> strict = true -> x = [] \/ zlen (as_bytes x) = 10).
  { intros x -> Ht. destruct (Hst Ht) as (_ & _ & _ & Hf). rewrite !Forall_cons in Hf. by apply Hf. }
  change (fun tv => {| tag := fst tv; value := snd tv |}) with raw.
  rewrite !map_app, <- !app_assoc. unfold default_ls.
  rewrite (run_field strict 1 _ a _ (MkLs a None None None None None None None None None None None None None None None None [] [])) by (destruct a; [apply field_classification; [exact H1|intros Ht; apply (Hst Ht)]|reflexivity]).
  rewrite (run_field strict 2 _ b _ (MkLs a b None None None None None None None None None None None None None None None [] [])) by (destruct b; [apply field_country; [exact H2|intros Ht; apply (Hst Ht)]|reflexivity]).
  rewrite (run_field strict 3 _ c _ (MkLs a b c None None None None None None None None None None None None None None [] [])) by (string_field S3 c).
  rewrite (run_field strict 4 _ g _ (MkLs a b c None None None g None None None None None None None None None None [] [])) by (string_field S4 g).
  rewrite (run_field strict 5 _ h _ (MkLs a b c None None None g h None None None None None None None None None [] [])) by (string_field S5 h).
  rewrite (run_field strict 6 _ i _ (MkLs a b c None None None g h i None None None None None None None None [] [])) by (string_field S6 i).
  rewrite (run_field strict 7 _ j _ (MkLs a b c None None None g h i j None None None None None None None [] [])) by (string_field S7 j).
  rewrite (run_field strict 8 _ k _ (MkLs a b c None None None g h i j k None None None None None None [] [])) by (string_field S8 k).
  rewrite (run_field strict 9 _ l _ (MkLs a b c None None None g h i j k l None None None None None [] [])) by (string_field S9 l).
  rewrite (run_field strict 10 _ m _ (MkLs a b c None None None g h i j k l m None None None None [] [])) by (fixed_field S10 F10 m).
  rewrite (run_field strict 11 _ n _ (MkLs a b c None None None g h i j k l m n None None None [] [])) by (string_field S11 n).
  rewrite (run_field strict 12 _ d _ (MkLs a b c d None None g h i j k l m n None None None [] [])) by (destruct d; [apply field_object; [exact H12|intros Ht; apply (Hst Ht)]|reflexivity]).
  rewrite (run_field strict 13 _ e _ (MkLs a b c d e None g h i j k l m n None None None [] [])) by (destruct e; [by apply field_codes|reflexivity]).
  rewrite (run_field strict 14 _ o _ (MkLs a b c d e None g h i j k l m n o None None [] [])) by (string_field S14 o).
  rewrite (run_field strict 22 _ f _ (MkLs a b c d e f g h i j k l m n o None None [] [])) by (destruct f; [by apply field_version|reflexivity]).
  rewrite (run_field strict 23 _ p _ (MkLs a b c d e f g h i j k l m n o p None [] [])) by (fixed_field S23 F23 p).
  rewrite (run_field strict 24 _ q _ (MkLs a b c d e f g h i j k l m n o p q [] [])) by (fixed_field S24 F24 q).
  destruct (run_unknown strict u Hu (MkLs a b c d e f g h i j k l m n o p q [] [])) as (r' & -> & Hr').
  by rewrite (Hr' _ _ _ _ _ _ _ _ _ _ _ _ _ _ _ _ _ _ _ eq_refl).
Qed.

(** ** Writing *)

(** The buffer after writing [l] behind [w]: [w], [l], and what is left. *)
Definition wrote (m : res KlvEncodeError (list Z * Z)) (w l k : list Z) : Prop :=
  exists k', m = Ok (w ++ l ++ k', zlen w + zlen l) /\ zlen k' = zlen k - zlen l.

Lemma on_tail_ok f w k l : zlen l <= zlen k ->
  f k = Ok (zlen l, l ++ zdrop (zlen l) k) -> wrote (on_tail f (w ++ k) (zlen w)) w l k.
Proof.
  intros Hl Hf. unfold on_tail. rewrite from_app by done. rb. rewrite Hf. rb.
  rewrite slice_ok, Z.sub_0_r, zdrop_0, ztake_app by zlia. rb.
  exists (zdrop (zlen l) k). split; [done|]. rewrite zlen_zdrop; zlia.
Qed.

Lemma write_ber_tail n w k : 0 <= n <= usize_max -> ber_len n <= zlen k ->
  exists l, fewest ber_encodes l n /\ bytes l /\ ber_len n = zlen l /\
    wrote (on_tail (write_ber n) (w ++ k) (zlen w)) w l k.
Proof.
  intros Hn Hk. destruct (write_ber_ok n k Hn) as (l & Hf & Hb & Hl & Hw). exists l. split_and!; try done.
  rewrite (proj2 (Z.ltb_ge _ _)) in Hw by lia. apply on_tail_ok; [lia|done].
Qed.

Lemma write_oid_tail t w k : 0 <= t <= u32_max -> ber_oid_len t <= zlen k ->
  exists l, fewest oid_encodes l t /\ bytes l /\ ber_oid_len t = zlen l /\
    wrote (on_tail (write_ber_oid t) (w ++ k) (zlen w)) w l k.
Proof.
  intros Ht Hk. destruct (write_ber_oid_ok t k Ht) as (l & Hf & Hb & Hl & _ & Hw). exists l. split_and!; try done.
  rewrite (proj2 (Z.ltb_ge _ _)) in Hw by lia. apply on_tail_ok; [lia|done].
Qed.

Lemma ber_len_pos n : 1 <= ber_len n.
Proof.
  unfold ber_len. ifs; [lia|]. unfold count_shifts. enough (forall fuel v b, 0 <= b -> 0 <= count_loop fuel 8 v b) as H.
  { pose proof (H 64%nat n 0). lia. }
  induction fuel as [|fuel IH]; intros v b Hb; cbn [count_loop]; [done|]. ifs; [apply IH; lia|done].
Qed.

(** One-byte tags are their own BER-OID form. *)
Lemma fewest_one_byte t : 0 <= t < 128 -> fewest oid_encodes [t] t.
Proof.
  intros Ht. assert (He : oid_encodes [t] t).
  { exists [], t. split_and!; [done|by constructor|]. unfold Digits.undigits. cbn. lia. }
  split; [done|]. intros l' Hl'. apply oid_encodes_nonempty in Hl'. zlia.
Qed.

Lemma emit_wrote w k t v : 0 <= t < 128 -> bytes v -> zlen v <= usize_max -> add_len (zlen v) <= zlen k ->
  exists l, tlv_canonical l (raw (t, v)) /\ bytes l /\ zlen l = add_len (zlen v) /\ wrote (emit (w ++ k) (zlen w) t v) w l k.
Proof.
  intros Ht Hv Hu Hk. unfold add_len in *. pose proof (ber_len_pos (zlen v)). unfold emit.
  destruct (put_step (E:=KlvEncodeError) w k [t] (zlen w) eq_refl) as (k1 & -> & H1); [zlia|]. rb.
  replace (zlen w + 1) with (zlen (w ++ [t])) by zlia.
  destruct (write_ber_tail (zlen v) (w ++ [t]) k1) as (n & Hn & Hbn & Hln & k2 & -> & H2); [split; [apply zlen_nonneg|done]|rewrite zlen_cons, zlen_nil in H1; zlia|]. rb.
  rewrite app_assoc, <- zlen_app.
  destruct (put_step (E:=KlvEncodeError) ((w ++ [t]) ++ n) k2 v _ eq_refl) as (k3 & -> & H3); [zlia|]. rb.
  exists ([t] ++ n ++ v). split_and!.
  - exists [t], n. split_and!; [by apply fewest_one_byte|done|done].
  - rewrite !bytes_app. split_and!; [constructor; [unfold byte; lia|constructor]|done|done].
  - zlia.
  - exists k3. rewrite <- !app_assoc. split; [|zlia]. do 2 f_equal. zlia.
Qed.

Definition fields_len (fs : list (Z * list Z)) : Z := fold_right (fun tv n => add_len (zlen (snd tv)) + n) 0 fs.
Definition unknown_len (us : list RawField) : Z :=
  fold_right (fun u n => ber_oid_len (tag u) + ber_len (zlen (value u)) + zlen (value u) + n) 0 us.

Definition wire_field (tv : Z * list Z) : Prop := 0 <= fst tv < 128 /\ bytes (snd tv) /\ zlen (snd tv) <= usize_max.

Lemma fields_len_nonneg fs : 0 <= fields_len fs.
Proof.
  induction fs as [|[t v] fs IH]; cbn [fields_len fold_right snd]; [lia|]. fold (fields_len fs). unfold add_len. pose proof (ber_len_pos (zlen v)). zlia.
Qed.

Lemma emit_fields_wrote fs : Forall wire_field fs -> forall w k, fields_len fs <= zlen k ->
  exists encs, Forall2 tlv_canonical encs (map raw fs) /\ bytes (concat encs) /\ zlen (concat encs) = fields_len fs /\
    wrote (emit_fields fs (w ++ k) (zlen w)) w (concat encs) k.
Proof.
  induction 1 as [|[t v] fs (Ht & Hv & Hu) _ IH]; intros w k Hk; cbn [emit_fields].
  { exists []. split_and!; [constructor|constructor|done|]. exists k. cbn [concat app]. split; [do 2 f_equal|]; zlia. }
  cbn [fst snd fields_len fold_right] in *. fold (fields_len fs) in *. pose proof (fields_len_nonneg fs).
  destruct (emit_wrote w k t v) as (l & Hl & Hbl & Hll & k1 & -> & H1); [done..|lia|]. rb.
  rewrite app_assoc, <- zlen_app.
  destruct (IH (w ++ l) k1) as (encs & Hc & Hb & Hlen & k2 & -> & H2); [lia|].
  exists (l :: encs). cbn [concat map]. rewrite bytes_app. split_and!; [by constructor|done|done|zlia|].
  exists k2. rewrite <- !app_assoc. split; [|zlia]. do 2 f_equal. zlia.
Qed.

Lemma unknown_len_nonneg us : Forall unknown_ok us -> 0 <= unknown_len us.
Proof.
  induction 1 as [|u us ((Ht & _ & _) & _) _ IH]; cbn [unknown_len fold_right]; [lia|]. fold (unknown_len us).
  destruct (write_ber_oid_ok (tag u) [] Ht) as (l & Hf & _ & -> & _). destruct Hf as [Hf _].
  apply oid_encodes_nonempty in Hf. pose proof (ber_len_pos (zlen (value u))). zlia.
Qed.

Lemma emit_unknown_wrote us : Forall unknown_ok us -> forall w k, unknown_len us <= zlen k ->
  exists encs, Forall2 tlv_canonical encs us /\ bytes (concat encs) /\ zlen (concat encs) = unknown_len us /\
    wrote (emit_unknown us (w ++ k) (zlen w)) w (concat encs) k.
Proof.
  induction 1 as [|u us Hu Hus IH]; intros w k Hk; cbn [emit_unknown].
  { exists []. split_and!; [constructor|constructor|done|]. exists k. cbn [concat app]. split; [do 2 f_equal|]; zlia. }
  pose proof (unknown_len_nonneg us Hus). cbn [unknown_len fold_right] in *. fold (unknown_len us) in *.
  destruct Hu as ((Ht & Hv & Hl) & ->). pose proof (ber_len_pos (zlen (value u))).
  destruct (write_oid_tail (tag u) w k) as (t & Hft & Hbt & Hlt & k1 & -> & H1); [done|zlia|]. rb.
  rewrite app_assoc, <- zlen_app.
  destruct (write_ber_tail (zlen (value u)) (w ++ t) k1) as (n & Hfn & Hbn & Hln & k2 & -> & H2); [zlia|zlia|]. rb.
  rewrite app_assoc, <- zlen_app.
  destruct (put_step (E:=KlvEncodeError) ((w ++ t) ++ n) k2 (value u) _ eq_refl) as (k3 & -> & H3); [zlia|]. rb.
  rewrite <- zlen_app.
  destruct (IH (((w ++ t) ++ n) ++ value u) k3) as (encs & Hc & Hb & Hlen & k4 & -> & H4); [zlia|].
  exists ((t ++ n ++ value u) :: encs). cbn [concat]. rewrite !bytes_app. split_and!; try done.
  - constructor; [|done]. by exists t, n.
  - zlia.
  - exists k4. rewrite <- !app_assoc. split; [|zlia]. do 2 f_equal. zlia.
Qed.

Lemma zlen_str_wire s : zlen (str_wire s) = str_wire_len s.
Proof. unfold str_wire, str_wire_len. by ifs. Qed.

Lemma zlen_utf16_wire s : zlen (encode_utf16_bom s) = 2 + zlen (encode_utf16 s) * 2.
Proof.
  unfold encode_utf16_bom. rewrite zlen_app. change (zlen [254; 255]) with 2.
  induction (encode_utf16 s) as [|u us IH]; [done|]. cbn [flat_map]. rewrite zlen_app, zlen_be16, zlen_cons. lia.
Qed.

Lemma fields_len_app a b : fields_len (a ++ b) = fields_len a + fields_len b.
Proof. induction a as [|x a IH]; [done|]. cbn [app fields_len fold_right]. fold (fields_len (a ++ b)) (fields_len a). lia. Qed.

Lemma fields_len_field {A} t (wire : A -> list Z) len v :
  (forall x, zlen (wire x) = len x) -> fields_len (field t wire v) = opt_len len v.
Proof. intros Hw. destruct v as [x|]; [|done]. cbn. by rewrite Hw, Z.add_0_r. Qed.

(** The size computed ahead is the size written. *)
Lemma encoded_len_sum r : encoded_len r = fields_len (typed_fields r) + unknown_len (unknown r).
Proof.
  unfold encoded_len, typed_fields. rewrite !fields_len_app. fold (unknown_len (unknown r)).
  rewrite (fields_len_field 1 _ (fun _ => 1)), (fields_len_field 2 _ (fun _ => 1)), (fields_len_field 12 _ (fun _ => 1)),
    (fields_len_field 13 _ (fun s => 2 + zlen (encode_utf16 s) * 2)), (fields_len_field 22 _ (fun _ => 2))
    by (intros; first [done | apply zlen_utf16_wire]).
  rewrite !(fields_len_field _ str_wire str_wire_len) by apply zlen_str_wire. lia.
Qed.

Lemma str_wire_bytes s : str_ok s -> bytes (str_wire s).
Proof.
  intros. unfold str_wire. ifs; [by repeat (apply Forall_cons; split)|by apply as_bytes_bytes].
Qed.

Lemma utf16_wire_bytes s : bytes (encode_utf16_bom s).
Proof.
  unfold encode_utf16_bom. rewrite bytes_app. split; [by repeat (apply Forall_cons; split)|].
  induction (encode_utf16 s) as [|u us IH]; [constructor|]. cbn [flat_map]. rewrite bytes_app.
  split; [apply be16_bytes|done].
Qed.

(** The bytes of a field, its tag below 128. *)
Definition narrow (tv : Z * list Z) : Prop := 0 <= fst tv < 128 /\ bytes (snd tv).

Lemma narrow_field {A} t (wire : A -> list Z) (P : A -> Prop) v :
  0 <= t < 128 -> opt_ok P v -> (forall x, P x -> bytes (wire x)) -> Forall narrow (field t wire v).
Proof. intros Ht Hv Hw. destruct v as [x|]; [|constructor]. constructor; [|constructor]. split; [done|by apply Hw]. Qed.

Lemma typed_fields_narrow r : ls_ok r -> Forall narrow (typed_fields r).
Proof.
  intros (H1 & H2 & H12 & H13 & H22 & Hs & _). unfold strings in Hs. rewrite !Forall_cons in Hs. cbn [snd] in Hs.
  destruct Hs as (S3 & S4 & S5 & S6 & S7 & S8 & S9 & S10 & S11 & S14 & S23 & S24 & _).
  assert (Hstr : forall x, text_ok x -> bytes (str_wire x)) by (intros x [? _]; by apply str_wire_bytes).
  unfold typed_fields. rewrite !Forall_app. split_and!;
    first [eapply narrow_field; [lia| |exact Hstr]; done
          |eapply narrow_field; [lia|eassumption|]; intros x Hx].
  - constructor; [apply Hx|constructor].
  - constructor; [apply Hx|constructor].
  - constructor; [apply Hx|constructor].
  - apply utf16_wire_bytes.
  - apply be16_bytes.
Qed.

Lemma typed_fields_wire r : ls_ok r -> Forall wire_field (typed_fields r).
Proof.
  intros Hr. pose proof (typed_fields_narrow r Hr) as Hn. destruct Hr as (_ & _ & _ & _ & _ & _ & _ & Hl).
  revert Hn Hl. induction (typed_fields r) as [|tv l IH]; intros Hn Hl; [constructor|].
  apply Forall_cons in Hn as [[? ?] ?]. apply Forall_cons in Hl as [? ?]. constructor; [split; [done|by split]|auto].
Qed.

Lemma all_fields_ok r : ls_ok r -> Forall field_ok (all_fields r).
Proof.
  intros Hr. unfold all_fields. apply Forall_app. split.
  - pose proof (typed_fields_wire r Hr) as Hw. apply Forall_map. eapply Forall_impl; [exact Hw|].
    intros [t v] (Ht & Hv & Hl). split_and!; cbn in *; try done; unfold u32_max; lia.
  - destruct Hr as (_ & _ & _ & _ & _ & _ & Hu & _). eapply Forall_impl; [exact Hu|]. by intros x [? _].
Qed.

(** What the encoder writes, into any buffer large enough. *)
Lemma encode_ok r out : ls_ok r -> encoded_len r <= zlen out ->
  exists encs k, Forall2 tlv_canonical encs (all_fields r) /\ bytes (concat encs) /\ zlen (concat encs) = encoded_len r /\
    encode r out = Ok (concat encs ++ k, encoded_len r).
Proof.
  intros Hr Hlen. unfold encode. rewrite (proj2 (Z.ltb_ge _ _)) by lia. rewrite encoded_len_sum in *.
  pose proof Hr as (_ & _ & _ & _ & _ & _ & Hu & _). pose proof (unknown_len_nonneg _ Hu).
  destruct (emit_fields_wrote _ (typed_fields_wire r Hr) [] out) as (e1 & F1 & B1 & L1 & k1 & E1 & K1); [lia|].
  cbn [app] in E1. change (zlen (@nil Z)) with 0 in E1. rewrite Z.add_0_l in E1. rewrite E1. rb.
  destruct (emit_unknown_wrote _ Hu (concat e1) k1) as (e2 & F2 & B2 & L2 & k2 & E2 & K2); [lia|].
  rewrite E2. exists (e1 ++ e2), k2. rewrite concat_app, bytes_app, zlen_app, <- app_assoc. split_and!; try done; [|lia|].
  - by apply Forall2_app.
  - do 2 f_equal. lia.
Qed.

Lemma encode_to_vec_ok r : ls_ok r ->
  exists encs, Forall2 tlv_canonical encs (all_fields r) /\ bytes (concat encs) /\ zlen (concat encs) = encoded_len r /\
    encode_to_vec r = Ok (concat encs).
Proof.
  intros Hr. pose proof Hr as (_ & _ & _ & _ & _ & _ & Hu & _).
  pose proof (unknown_len_nonneg _ Hu). pose proof (fields_len_nonneg (typed_fields r)). unfold encode_to_vec.
  destruct (encode_ok r (zrep (encoded_len r) 0) Hr) as (encs & k & F & B & L & ->).
  { rewrite zlen_zrep; [done|]. rewrite encoded_len_sum. lia. }
  rb. exists encs. rewrite ztake_app' by done. done.
Qed.

(** ** Reading it back *)

Lemma canonical_all encs fs : Forall field_ok fs -> Forall2 tlv_canonical encs fs -> Forall2 tlv_encodes encs fs.
Proof.
  intros Hf H. revert Hf. induction H; intros Hf; [constructor|]. apply Forall_cons in Hf as [? ?].
  constructor; [by apply canonical_encodes|auto].
Qed.

Lemma encs_length encs fs : Forall2 tlv_encodes encs fs -> (length fs <= length (concat encs))%nat.
Proof.
  induction 1 as [|l f encs fs Hl _ IH]; [done|]. cbn [concat length]. rewrite length_app.
  apply tlv_nonempty in Hl. unfold zlen in Hl. lia.
Qed.

Lemma decode_loop_fields strict encs fs r : Forall2 tlv_encodes encs fs -> bytes (concat encs) ->
  decode_loop (length (concat encs) + 2) strict (local_set (concat encs)) r = run strict (map inl fs) r.
Proof.
  intros Hf Hb. apply decode_loop_run. apply (drain_fields fs encs Hf _ []); [done|done|].
  pose proof (encs_length encs fs Hf). lia.
Qed.

(** The strict walk over fields in their fewest bytes, no tag twice. *)
Lemma strict_loop_fields encs fs : Forall2 tlv_canonical encs fs -> Forall field_ok fs -> forall fuel offset seen,
  bytes (concat encs) -> (length fs < fuel)%nat -> NoDup (map tag fs) -> (forall f, f ∈ fs -> tag f ∉ seen) ->
  strict_loop fuel (concat encs) offset seen = Ok tt.
Proof.
  induction 1 as [|l f encs fs Hl _ IH]; intros Hok fuel offset seen Hb Hfuel Hnd Hseen;
    (destruct fuel as [|fuel]; [simpl in Hfuel; lia|]); cbn [strict_loop concat]; [done|].
  apply Forall_cons in Hok as [Hf Hok]. pose proof (canonical_encodes l f Hf Hl) as He. apply tlv_nonempty in He.
  rewrite (proj2 (Z.eqb_neq _ _)) by zlia. destruct Hl as (t & n & Ht & Hn & ->).
  cbn [concat] in Hb. rewrite (proj2 (read_strict_tlv_ok _ offset (tag f) (zlen (value f)) (zlen t + zlen n)
    (value f ++ concat encs) Hb)).
  2: { exists t, n. destruct Hf as (? & _). split_and!; try done; [by rewrite <- !app_assoc|lia]. }
  rb. rewrite bool_decide_eq_false_2 by (apply Hseen, elem_of_cons; by left). rewrite (proj2 (Z.ltb_ge _ _)) by zlia.
  rewrite from_app by done. rb. cbn [map] in Hnd. apply NoDup_cons in Hnd as [Hnew Hnd].
  apply IH; [done|exact (proj2 (proj1 (bytes_app _ _) Hb))|simpl in Hfuel; lia|done|].
  intros g Hg Hin. apply elem_of_cons in Hin as [Heq|Hin].
  - apply Hnew. rewrite <- Heq. apply list_elem_of_In, in_map. by apply list_elem_of_In.
  - apply (Hseen g); [apply elem_of_cons; by right|done].
Qed.

(** ** What the decoder leaves *)

(** The record of a decode of [n] bytes. *)
Definition decoded (n : Z) (r : SecurityLs) : Prop :=
  opt_ok code_ok (security_classification r) /\ opt_ok code_ok (classifying_country_coding_method r) /\
  opt_ok code_ok (object_country_coding_method r) /\
  opt_ok (fun s => str_ok s /\ zlen (encode_utf16 s) * 2 <= n) (object_country_codes r) /\
  opt_ok (fun v => 0 <= v < 65536) (version r) /\
  Forall (fun ts => opt_ok (fun s => text_ok s /\ zlen (as_bytes s) <= n) (snd ts)) (strings r) /\
  Forall unknown_ok (unknown r).

Lemma code_ok_from {A} `{WireCode A} b : byte b -> code_ok (from_wire b).
Proof. intros Hb. unfold code_ok. by rewrite to_from_wire. Qed.

Lemma set_string_decoded {E} n t s r r' : decoded n r -> text_ok s -> zlen (as_bytes s) <= n ->
  set_string (E:=E) t s r = Ok r' -> decoded n r'.
Proof.
  intros (H1 & H2 & H12 & H13 & H22 & Hs & Hu) Ht Hn. destruct r as [a b c d e f g h i j k l m p o q z u w].
  unfold set_string. cbn_ls. unfold strings in Hs. rewrite !Forall_cons in Hs. cbn [snd] in Hs. cbn_ls. destruct_and!.
  repeat (ifs; [intros [= <-]; split_and!; try done;
                unfold strings; rewrite !Forall_cons; cbn [snd]; cbn_ls; split_and!; try done; constructor|]).
  done.
Qed.

Lemma parse_pairs_units be b u : bytes b -> forall n, (length b <= n)%nat -> parse_pairs be b = Some u ->
  Forall unit16 u /\ zlen u * 2 <= zlen b.
Proof.
  intros Hb n. revert b u Hb. induction n as [|n IH]; intros b u Hb Hn Hp.
  { destruct b; [|simpl in Hn; lia]. injection Hp as <-. split; [constructor|done]. }
  destruct b as [|x [|y b]]; [injection Hp as <-; split; [constructor|done]|done|].
  cbn [parse_pairs] in Hp. apply fmap_Some in Hp as (u' & Hp & ->).
  apply Forall_cons in Hb as [Hx Hb]. apply Forall_cons in Hb as [Hy Hb].
  destruct (IH b u' Hb) as [Hu Hl]; [simpl in Hn; lia|done|].
  split; [constructor; [|done]|rewrite !zlen_cons; lia]. unfold unit16, from_be16, byte in *. destruct be; lia.
Qed.

Lemma decode_utf16_ok b s : bytes b -> decode_utf16_bom b = Some s -> str_ok s /\ zlen (encode_utf16 s) * 2 <= zlen b.
Proof.
  intros Hb. unfold decode_utf16_bom.
  assert (Hp : forall be b' u, bytes b' -> zlen b' <= zlen b -> parse_pairs be b' = Some u -> from_utf16 u = Some s ->
    str_ok s /\ zlen (encode_utf16 s) * 2 <= zlen b).
  { intros be b' u Hb' Hl Hp Hu. destruct (parse_pairs_units be b' u Hb' (length b')) as [H1 H2]; [lia|done|].
    destruct (from_utf16_sound (length u) u s) as [Ho ->]; [lia|done..|]. split; [done|lia]. }
  assert (Hd : zlen (zdrop 2 b) <= zlen b) by (unfold zlen, zdrop; rewrite length_drop; lia).
  destruct (starts_with b [254; 255]); [|destruct (starts_with b [255; 254])].
  - destruct (parse_pairs true (zdrop 2 b)) eqn:E; [|done]. apply (Hp true (zdrop 2 b)); [by apply bytes_drop|done|done].
  - destruct (parse_pairs false (zdrop 2 b)) eqn:E; [|done]. apply (Hp false (zdrop 2 b)); [by apply bytes_drop|done|done].
  - destruct (parse_pairs true b) eqn:E; [|done]. apply (Hp true b); [done|lia|done].
Qed.

Lemma decode_string_decoded n strict fixed t v r r' : decoded n r -> bytes v -> zlen v <= n -> 0 <= n ->
  decode_string strict fixed t v r = Ok r' -> decoded n r'.
Proof.
  intros Hr Hv Hl Hn. unfold decode_string. ifs; [by intros [= <-]|]. destruct (bool_decide (v = [0])) eqn:E.
  - rb. intros Hs. eapply set_string_decoded; [done|split; [constructor|done]|done|exact Hs].
  - destruct (from_utf8 v) as [s|] eqn:Eu; [|done]. apply bool_decide_eq_false in E.
    destruct (from_utf8_sound (length v) v s) as [Ho He]; [lia|done..|].
    assert (Ht : text_ok s) by (split; [done|intros ->; done]).
    assert (Hle : zlen (as_bytes s) <= n) by by rewrite He.
    destruct fixed; [ifs; [done|]|]; rb; intros Hs; by eapply set_string_decoded.
Qed.

Lemma decode_field_decoded n strict f r r' : decoded n r -> field_ok f -> zlen (value f) <= n ->
  decode_field strict f r = Ok r' -> decoded n r'.
Proof.
  intros Hr Hf Hl. pose proof (zlen_nonneg (value f)). unfold decode_field.
  assert (Hpush : is_typed_tag (tag f) lookup = false -> decoded n (push_unknown f r)).
  { intros Ht. destruct Hr as (? & ? & ? & ? & ? & ? & Hu), r. split_and!; try done. cbn_ls.
    apply Forall_app. split; [done|]. constructor; [by split|constructor]. }
  unfold is_typed_tag in Hpush. destruct Hf as (Ht & Hv & _).
  rewrite (proj2 (Z.leb_le 0 (tag f))) in Hpush by lia. cbn [andb] in Hpush.
  destruct (tag f <? 256) eqn:Et; cbn [negb]; [|intros [= <-]; auto].
  destruct (lookup (tag f)) as [sp|] eqn:El; [|intros [= <-]; auto].
  destruct Hr as (H1 & H2 & H12 & H13 & H22 & Hs & Hu).
  destruct (encoding sp); try (apply decode_string_decoded; [by split_and!|done|done|lia]).
  - ifs; [done|]. destruct (idx (value f) 0) as [b| |] eqn:Eb; [|done..]. rb. apply idx_Ok in Eb.
    apply bytes_get in Eb; [|done]. unfold decode_enum.
    repeat (ifs; try done); intros [= <-]; destruct r; split_and!; try done; exact (code_ok_from b Eb).
  - ifs; [done|]. destruct (idx (value f) 0) as [x| |] eqn:Ex; [|done..]. rb.
    destruct (idx (value f) 1) as [y| |] eqn:Ey; [|done..]. rb. apply idx_Ok, bytes_get in Ex, Ey; [|done..].
    intros [= <-]. destruct r; split_and!; try done; cbn; unfold from_be16, byte in *; lia.
  - ifs; [intros [= <-]; by split_and!|]. destruct (decode_utf16_bom (value f)) as [s|] eqn:Eu.
    + apply decode_utf16_ok in Eu as [? ?]; [|done]. intros [= <-]. destruct r; split_and!; try done; cbn. split; [done|lia].
    + destruct strict; [done|]. intros [= <-]. destruct r; by split_and!.
Qed.

Lemma short_field {A} t (wire : A -> list Z) (P : A -> Prop) v :
  opt_ok P v -> (forall x, P x -> zlen (wire x) <= usize_max) ->
  Forall (fun tv : Z * list Z => zlen (snd tv) <= usize_max) (field t wire v).
Proof. intros Hv Hw. destruct v as [x|]; [|constructor]. constructor; [by apply Hw|constructor]. Qed.

Lemma decoded_ok n r : 0 <= n <= i64_max -> decoded n r -> ls_ok r.
Proof.
  intros Hn (H1 & H2 & H12 & H13 & H22 & Hs & Hu). unfold i64_max in Hn.
  assert (Hstr : forall s, text_ok s /\ zlen (as_bytes s) <= n -> zlen (str_wire s) <= usize_max).
  { intros s [_ Hl]. rewrite zlen_str_wire. unfold str_wire_len, usize_max, u64_max. ifs; lia. }
  assert (Hw : Forall (fun tv => zlen (snd tv) <= usize_max) (typed_fields r)).
  { unfold strings in Hs. rewrite !Forall_cons in Hs. cbn [snd] in Hs.
    destruct Hs as (S3 & S4 & S5 & S6 & S7 & S8 & S9 & S10 & S11 & S14 & S23 & S24 & _).
    unfold typed_fields. rewrite !Forall_app. split_and!;
      first [eapply short_field; [|exact Hstr]; done
            |eapply short_field; [eassumption|]; intros x Hx; cbn beta in Hx].
    all: unfold usize_max, u64_max; rewrite ?zlen_utf16_wire, ?zlen_be16, ?zlen_cons, ?zlen_nil; lia. }
  assert (Forall (fun ts => opt_ok text_ok (snd ts)) (strings r)).
  { eapply Forall_impl; [exact Hs|]. intros [t [s|]]; [|done]. by intros [? _]. }
  split_and!; try done. destruct (object_country_codes r); [|done]. by destruct H13.
Qed.

Definition untyped (f : RawField) : bool := negb (is_typed_tag (tag f) lookup).

Lemma lookup_typed f sp : field_ok f -> (tag f <? 256) = true -> lookup (tag f) = Some sp -> untyped f = false.
Proof.
  intros ((Ht & _) & _) Hl Hs. unfold untyped, is_typed_tag. rewrite (proj2 (Z.leb_le 0 _)), Hl, Hs by lia. done.
Qed.

(** The pass-through bucket grows by the fields outside the table, in order. *)
Lemma set_string_unknown {E} t s r r' : set_string (E:=E) t s r = Ok r' -> unknown r' = unknown r /\ field_errors r' = field_errors r.
Proof. destruct r. unfold set_string. repeat (ifs; [by intros [= <-]|]). done. Qed.

Lemma decode_string_unknown strict fixed t v r r' : decode_string strict fixed t v r = Ok r' ->
  unknown r' = unknown r /\ field_errors r' = field_errors r.
Proof.
  unfold decode_string. ifs; [by intros [= <-]|].
  match goal with |- (let! _ := ?m in _) = _ -> _ => destruct m; rb; [|done..] end. apply set_string_unknown.
Qed.

Lemma decode_field_unknown strict f r r' : field_ok f -> decode_field strict f r = Ok r' ->
  unknown r' = unknown r ++ List.filter untyped [f] /\ (strict = true -> field_errors r' = field_errors r).
Proof.
  intros Hf. unfold decode_field. cbn [List.filter].
  destruct (tag f <? 256) eqn:Et; cbn [negb].
  2: { unfold untyped, is_typed_tag. rewrite Et, andb_false_r. cbn [negb]. intros [= <-]. by destruct r. }
  destruct (lookup (tag f)) as [sp|] eqn:El.
  2: { unfold untyped, is_typed_tag. rewrite El. intros [= <-]. destruct (_ && _), r; done. }
  rewrite (lookup_typed f sp Hf Et El), app_nil_r.
  destruct (encoding sp); try (intros H; apply decode_string_unknown in H as [? ?]; done).
  - ifs; [done|]. destruct (idx (value f) 0); [|done..]. rb. unfold decode_enum.
    repeat (ifs; try done); intros [= <-]; by destruct r.
  - ifs; [done|]. destruct (idx (value f) 0); [|done..]. rb. destruct (idx (value f) 1); [|done..]. rb.
    intros [= <-]. by destruct r.
  - ifs; [by intros [= <-]|]. destruct (decode_utf16_bom (value f)).
    + intros [= <-]. by destruct r.
    + destruct strict; [done|]. intros [= <-]. by destruct r.
Qed.

Lemma run_spec n strict fs : Forall (fun f => field_ok f /\ zlen (value f) <= n) fs -> forall r r',
  decoded n r -> run strict (map inl fs) r = Ok r' ->
  decoded n r' /\ unknown r' = unknown r ++ List.filter untyped fs /\ (strict = true -> field_errors r' = field_errors r).
Proof.
  induction 1 as [|f fs [Hf Hl] _ IH]; intros r r' Hr; cbn [map run].
  { intros [= <-]. cbn. by rewrite app_nil_r. }
  destruct (decode_field strict f r) as [r1| |] eqn:E; [|done..]. rb. intros Hrun.
  pose proof (decode_field_decoded n strict f r r1 Hr Hf Hl E) as Hd.
  destruct (decode_field_unknown strict f r r1 Hf E) as [Hu He].
  destruct (IH r1 r' Hd Hrun) as (H1 & H2 & H3). split_and!; [done| |].
  - rewrite H2, Hu, <- app_assoc. f_equal. cbn [List.filter]. by destruct (untyped f).
  - intros Ht. by rewrite H3, He.
Qed.

Lemma default_decoded n : decoded n default_ls.
Proof. split_and!; try done; repeat (apply Forall_cons; split; [done|]); constructor. Qed.

(** A successful field loop has read the whole input as fields. *)
Lemma decode_loop_inv strict buf r : bytes buf ->
  decode_loop (length buf + 2) strict (local_set buf) default_ls = Ok r ->
  exists encs fs, buf = concat encs /\ Forall2 tlv_encodes encs fs /\
    Forall (fun f => field_ok f /\ zlen (value f) <= zlen buf) fs /\ run strict (map inl fs) default_ls = Ok r.
Proof.
  intros Hb Hd. destruct (drain_walk (E:=KlvDecodeError) buf Hb (length buf + 2) [] buf eq_refl ltac:(lia))
    as (fs & err & Hdr & encs & tail & Hbuf & Hf & Herr).
  rewrite (decode_loop_run strict _ _ _ _ Hdr) in Hd. unfold outcome_items in Hd. rewrite run_app in Hd.
  destruct (run strict (map inl fs) default_ls) as [r'| |] eqn:Er; [|done..]. cbn [rbind] in Hd.
  destruct err as [e|]; [done|]. subst tail. rewrite app_nil_r in Hbuf. cbn [run] in Hd. injection Hd as ->.
  exists encs, fs. split_and!; try done. clear Er. subst buf. clear Hdr. revert Hb.
  assert (Hgen : forall N, zlen (concat encs) <= N -> bytes (concat encs) ->
    Forall (fun f => field_ok f /\ zlen (value f) <= N) fs).
  { induction Hf as [|l f encs fs Hl _ IH]; intros N HN Hb; [constructor|]. cbn [concat] in *.
    apply bytes_app in Hb as [Hbl Hb]. rewrite zlen_app in HN. pose proof (zlen_nonneg l). constructor; [|apply IH; [lia|done]].
    pose proof Hl as (t & n & Ht & Hu & _ & Hn & ->). rewrite !bytes_app in Hbl. destruct Hbl as (_ & _ & Hbv).
    rewrite !zlen_app in *. pose proof (zlen_nonneg t). pose proof (zlen_nonneg n). pose proof (zlen_nonneg (concat encs)).
    split; [|lia]. split_and!; [|done|done|].
    - destruct Ht as (ds & d & _ & Hr & ->). pose proof (Digits.undigits_range 128 ltac:(lia) _ Hr). lia.
    - destruct Hn as [[_ ?]|(w & _ & ? & Hw & ->)]; [unfold usize_max, u64_max; lia|].
      pose proof (undigits_u64 w Hw ltac:(lia)). unfold usize_max. lia. }
  intros Hb. apply Hgen; [lia|done].
Qed.

(** ** Strict mode *)

Definition strict_ok (r : SecurityLs) : Prop :=
  strict_values r /\ Forall (fun t => present r t = true) REQUIRED_TAGS /\ NoDup (map tag (unknown r)).

Lemma decode_string_lenient fixed t v r r' : decode_string true fixed t v r = Ok r' -> decode_string false fixed t v r = Ok r'.
Proof.
  unfold decode_string. ifs; [done|]. destruct (bool_decide _); [done|]. destruct (from_utf8 v); [|done].
  destruct fixed; [|done]. cbn [andb]. by destruct (negb _).
Qed.

Lemma decode_field_lenient f r r' : decode_field true f r = Ok r' -> decode_field false f r = Ok r'.
Proof.
  unfold decode_field. ifs; [done|]. destruct (lookup (tag f)) as [sp|]; [|done].
  destruct (encoding sp); [|done|apply decode_string_lenient..|].
  - ifs; [done|]. destruct (idx (value f) 0); [|done..]. rb. unfold decode_enum. cbn [andb].
    repeat ifs; done.
  - ifs; [done|]. by destruct (decode_utf16_bom (value f)).
Qed.

Lemma run_lenient fs : forall r r', run true (map inl fs) r = Ok r' -> run false (map inl fs) r = Ok r'.
Proof.
  induction fs as [|f fs IH]; intros r r'; [done|]. cbn [map run].
  destruct (decode_field true f r) as [r1| |] eqn:E; [|done..]. rb. rewrite (decode_field_lenient _ _ _ E). apply IH.
Qed.

Lemma set_string_strict {E} t s r r' : strict_values r ->
  (forall n, encoding <$> lookup t = Some (FixedAscii n) -> s = [] \/ zlen (as_bytes s) = n) ->
  set_string (E:=E) t s r = Ok r' -> strict_values r'.
Proof.
  intros (H1 & H2 & H12 & Hs) Ht. destruct r as [a b c d e f g h i j k l m p o q z u w].
  unfold set_string. cbn_ls. unfold strings in Hs. rewrite !Forall_cons in Hs. cbn [fst snd] in Hs. cbn_ls. destruct_and!.
  repeat (ifs; [match goal with H : (t =? _) = true |- _ => apply Z.eqb_eq in H; subst t end; intros [= <-]; split_and!; try done;
    unfold strings; rewrite !Forall_cons; cbn [fst snd]; cbn_ls; split_and!; try done; constructor|]).
  done.
Qed.

Lemma decode_string_strict fixed t v r r' : strict_values r ->
  (forall n, encoding <$> lookup t = Some (FixedAscii n) -> fixed = Some n) ->
  decode_string true fixed t v r = Ok r' -> strict_values r'.
Proof.
  intros Hr Hf. unfold decode_string. ifs; [by intros [= <-]|]. destruct (bool_decide _); [rb; apply set_string_strict; auto|].
  destruct (from_utf8 v) as [s|]; [|done]. destruct fixed as [n|].
  - cbn [andb]. destruct (negb _) eqn:E; [done|]. b2p. rb. apply set_string_strict; [done|].
    intros m Hm. apply Hf in Hm. injection Hm as ->. by right.
  - rb. apply set_string_strict; [done|]. intros m Hm. by apply Hf in Hm.
Qed.

Lemma decode_field_strict f r r' : strict_values r -> decode_field true f r = Ok r' -> strict_values r'.
Proof.
  intros Hr. unfold decode_field. ifs; [intros [= <-]; by destruct r|].
  destruct (lookup (tag f)) as [sp|] eqn:El; [|intros [= <-]; by destruct r].
  destruct (encoding sp) eqn:Ee; try (apply decode_string_strict; [done|]; rewrite El; cbn; intros m [= Hm]; congruence).
  - ifs; [done|]. destruct (idx (value f) 0) as [b| |]; [|done..]. rb. unfold decode_enum. cbn [andb].
    destruct Hr as (H1 & H2 & H12 & Hs).
    repeat (ifs; try done); b2p; intros [= <-]; destruct r; split_and!; done.
  - ifs; [done|]. destruct (idx (value f) 0); [|done..]. rb. destruct (idx (value f) 1); [|done..]. rb.
    intros [= <-]. by destruct r.
  - ifs; [by intros [= <-]|]. destruct (decode_utf16_bom (value f)); [|done]. intros [= <-]. by destruct r.
Qed.

Lemma run_strict fs : forall r r', strict_values r -> run true (map inl fs) r = Ok r' -> strict_values r'.
Proof.
  induction fs as [|f fs IH]; intros r r' Hr; [by intros [= <-]|]. cbn [map run].
  destruct (decode_field true f r) as [r1| |] eqn:E; [|done..]. rb. apply IH. by eapply decode_field_strict.
Qed.

(** Strict reads agree with the permissive ones on where a field stands. *)
Lemma strict_tlv_agrees l f post offset tg len c after : bytes (l ++ post) -> tlv_encodes l f ->
  read_strict_tlv (l ++ post) offset = Ok (tg, len, c, after) -> tg = tag f /\ len = zlen (value f) /\ after = value f ++ post.
Proof.
  intros Hb Hl Hr. apply read_strict_tlv_ok in Hr as (t & n & Hbuf & Ht & Hu & [Hn _] & ->); [|done].
  destruct Hl as (t' & n' & Ht' & Hu' & H6' & Hn' & ->). rewrite <- !app_assoc in *.
  assert (R1 : read_ber_oid (t' ++ n' ++ value f ++ post) = Ok (tag f, n' ++ value f ++ post))
    by (apply read_ber_oid_ok; [done|]; exists t'; auto).
  assert (R2 : read_ber_oid (t' ++ n' ++ value f ++ post) = Ok (tg, n ++ after)).
  { apply read_ber_oid_ok; [done|]. exists t. pose proof (fewest_oid_len t tg 5 Ht ltac:(lia)).
    unfold u32_max in *. split_and!; [done|by destruct Ht|done|lia]. }
  rewrite R1 in R2. injection R2 as -> Hrest. apply bytes_app in Hb as [_ Hb].
  assert (R3 : read_ber (n' ++ value f ++ post) = Ok (zlen (value f), value f ++ post))
    by (apply read_ber_ok; [done|]; exists n'; auto).
  assert (R4 : read_ber (n' ++ value f ++ post) = Ok (len, after)) by (apply read_ber_ok; [done|]; exists n; auto).
  rewrite R3 in R4. by injection R4 as -> ->.
Qed.

(** The strict walk lets no tag through twice. *)
Lemma strict_loop_nodup encs fs : Forall2 tlv_encodes encs fs -> forall fuel offset seen,
  bytes (concat encs) -> strict_loop fuel (concat encs) offset seen = Ok tt ->
  NoDup (map tag fs) /\ (forall f, f ∈ fs -> tag f ∉ seen).
Proof.
  induction 1 as [|l f encs fs Hl _ IH]; intros fuel offset seen Hb Hs.
  { split; [constructor|]. intros f Hf. by apply elem_of_nil in Hf. }
  destruct fuel as [|fuel]; [done|]. cbn [strict_loop concat] in Hs.
  pose proof (tlv_nonempty l f Hl). rewrite (proj2 (Z.eqb_neq _ _)) in Hs by zlia.
  destruct (read_strict_tlv (l ++ concat encs) offset) as [[[[tg len] c] after]| |] eqn:Er; [|done..]. cbn [rbind] in Hs.
  cbn [concat] in Hb. apply strict_tlv_agrees with (f := f) in Er as (-> & -> & ->); [|done..].
  destruct (bool_decide _) eqn:Ed; [done|]. apply bool_decide_eq_false in Ed.
  rewrite (proj2 (Z.ltb_ge _ _)) in Hs by zlia. rewrite from_app in Hs by done. cbn [rbind] in Hs.
  destruct (IH fuel _ _ (proj2 (proj1 (bytes_app _ _) Hb)) Hs) as [Hnd Hseen]. cbn [map]. split.
  - constructor; [|done]. intros Hin. apply list_elem_of_In, in_map_iff in Hin as (g & Hg & Hin).
    apply list_elem_of_In in Hin. apply (Hseen g Hin). rewrite Hg. apply elem_of_cons. by left.
  - intros g Hg. apply elem_of_cons in Hg as [->|Hg]; [done|]. intros Hin. apply (Hseen g Hg). apply elem_of_cons. by right.
Qed.

Lemma nodup_filter (p : RawField -> bool) fs : NoDup (map tag fs) -> NoDup (map tag (List.filter p fs)).
Proof.
  induction fs as [|f fs IH]; [done|]. cbn [map List.filter]. intros Hnd. apply NoDup_cons in Hnd as [Hn Hnd].
  destruct (p f); [|auto]. cbn [map]. constructor; [|auto]. intros Hin. apply Hn.
  apply list_elem_of_In, in_map_iff in Hin as (g & Hg & Hin). apply filter_In in Hin as [Hin _].
  apply list_elem_of_In, in_map_iff. eauto.
Qed.

(** ** No panics *)

Lemma lookup_cases t sp : lookup t = Some sp ->
  match encoding sp with
  | U8Enum => t = 1 \/ t = 2 \/ t = 12
  | U16Be => t = 22
  | Iso646 | FixedAscii _ => forall E s r, no_panic (set_string (E:=E) t s r)
  | Utf16Bom => t = 13
  end.
Proof.
  unfold lookup. intros H. apply find_some in H as [Hin Hid]. apply Z.eqb_eq in Hid. subst t.
  cbn [In TAGS] in Hin. decompose [or] Hin; clear Hin; try done; subst sp; cbn; try tauto;
    intros E s r; destruct r; done.
Qed.

Lemma decode_string_no_panic strict fixed t v r : (forall E s r, no_panic (set_string (E:=E) t s r)) ->
  no_panic (decode_string strict fixed t v r).
Proof.
  intros Hs. unfold decode_string. ifs; [done|]. destruct (bool_decide _); [rb; apply Hs|].
  destruct (from_utf8 v); [|done]. destruct fixed; [|rb; apply Hs]. ifs; [done|]. rb. apply Hs.
Qed.

Lemma decode_field_no_panic strict f r : no_panic (decode_field strict f r).
Proof.
  unfold decode_field. ifs; [done|]. destruct (lookup (tag f)) as [sp|] eqn:El; [|done].
  apply lookup_cases in El. destruct (encoding sp).
  - ifs; [done|]. b2p. edestruct (idx_ok (E:=KlvDecodeError) (value f) 0) as (b & _ & ->); [lia|]. rb.
    unfold decode_enum. destruct El as [->|[->| ->]]; cbn [Z.eqb Pos.eqb]; by ifs.
  - ifs; [done|]. b2p. edestruct (idx_ok (E:=KlvDecodeError) (value f) 0) as (a & _ & ->); [lia|].
    edestruct (idx_ok (E:=KlvDecodeError) (value f) 1) as (b & _ & ->); [lia|]. done.
  - by apply decode_string_no_panic.
  - by apply decode_string_no_panic.
  - ifs; [done|]. destruct (decode_utf16_bom (value f)); [done|]. by ifs.
Qed.

Lemma run_no_panic strict l : forall r, no_panic (run strict l r).
Proof.
  induction l as [|[f|e] l IH]; intros r; [done| |done]. cbn [run].
  pose proof (decode_field_no_panic strict f r). destruct (decode_field strict f r); [|done..]. rb. apply IH.
Qed.

Lemma strict_loop_no_panic fuel : forall rest offset seen, bytes rest -> (length rest < fuel)%nat ->
  no_panic (strict_loop fuel rest offset seen).
Proof.
  induction fuel as [|fuel IH]; intros rest offset seen Hb Hl; [lia|]. cbn [strict_loop]. ifs; [done|].
  pose proof (read_strict_tlv_no_panic rest offset Hb) as Hn.
  destruct (read_strict_tlv rest offset) as [[[[tg len] c] after]| |] eqn:Er; [|done..]. rb.
  apply read_strict_tlv_ok in Er as (t & n & -> & [Ht _] & _ & [Hn' _] & ->); [|done].
  apply oid_encodes_nonempty in Ht. assert (Hlen : 0 <= len).
  { destruct Hn' as [[_ ?]|(w & _ & ? & Hw & ->)]; [lia|]. pose proof (undigits_u64 w Hw ltac:(lia)). lia. }
  ifs; [done|]. ifs; [done|]. b2p. unfold from. rewrite slice_ok by lia. rb. rewrite !bytes_app in Hb. destruct Hb as (_ & _ & Hb).
  apply IH; [by apply bytes_take, bytes_drop|].
  unfold ztake, zdrop. rewrite length_take, length_drop. rewrite !length_app in Hl. unfold zlen in *. lia.
Qed.

Lemma decode_inner_no_panic buf strict : bytes buf -> no_panic (decode_inner buf strict).
Proof.
  intros Hb. unfold decode_inner. apply check_no_panic.
  { destruct strict; [|done]. apply strict_loop_no_panic; [done|lia]. }
  intros _.
  destruct (drain_walk (E:=KlvDecodeError) buf Hb (length buf + 2) [] buf eq_refl ltac:(lia)) as (fs & err & Hdr & _).
  rewrite (decode_loop_run strict _ _ _ _ Hdr). pose proof (run_no_panic strict (outcome_items fs err) default_ls) as Hn.
  destruct (run strict _ default_ls); [|done..]. rb. apply check_no_panic; [|done].
  destruct strict; [|done]. apply check_each_no_panic. apply Forall_forall. intros. apply throw_no_panic.
Qed.

(** ** The decoders as a whole *)

Lemma decode_lenient_ok buf r : decode buf = Ok r <-> decode_loop (length buf + 2) false (local_set buf) default_ls = Ok r.
Proof.
  unfold decode, decode_inner. rb. destruct (decode_loop _ _ _ _) as [r'| |]; rb; [|done..]. done.
Qed.

Lemma decode_strict_ok buf r : decode_strict buf = Ok r <->
  strict_ber_walk buf = Ok tt /\ decode_loop (length buf + 2) true (local_set buf) default_ls = Ok r /\
  Forall (fun t => present r t = true) REQUIRED_TAGS.
Proof.
  unfold decode_strict, decode_inner. rewrite check_ok.
  destruct (decode_loop _ _ _ _) as [r'| |]; rb; [|split; [by intros [_ ?]|by intros (_ & ? & _)]..].
  rewrite check_ok, check_each_ok.
  assert (Hp : Forall (fun t => throw_if (negb (present r' t)) (St0102MissingRequiredTag t) = Ok tt) REQUIRED_TAGS <->
    Forall (fun t => present r' t = true) REQUIRED_TAGS).
  { split; intros H; (eapply Forall_impl; [exact H|]); intros t Ht; cbn beta in *.
    - apply throw_if_ok in Ht. by apply negb_false_iff.
    - rewrite Ht. done. }
  rewrite Hp. split.
  - intros (? & ? & [= <-]). done.
  - by intros (? & [= <-] & ?).
Qed.

Lemma typed_tags_sublist r : sublist (map fst (typed_fields r)) [1; 2; 3; 4; 5; 6; 7; 8; 9; 10; 11; 12; 13; 14; 22; 23; 24].
Proof.
  unfold typed_fields. rewrite !map_app.
  assert (Hf : forall A t (wire : A -> list Z) v a l, sublist a l -> sublist (map fst (field t wire v) ++ a) (t :: l)).
  { intros A t wire v a l Hs. destruct v; cbn; by constructor. }
  repeat apply Hf. rewrite <- (app_nil_r (map fst _)). apply Hf. constructor.
Qed.

Lemma all_tags_nodup r : ls_ok r -> NoDup (map tag (unknown r)) -> NoDup (map tag (all_fields r)).
Proof.
  intros Hr Hnd. unfold all_fields. rewrite map_app, map_map. cbn [tag].
  pose proof (typed_tags_sublist r) as Hs. apply NoDup_app. split_and!.
  - eapply sublist_NoDup; [|exact Hs]. by apply (bool_decide_unpack _).
  - intros t Ht Hu. destruct Hr as (_ & _ & _ & _ & _ & _ & Hun & _).
    apply list_elem_of_In, in_map_iff in Hu as (u & <- & Hu). apply list_elem_of_In in Hu.
    rewrite Forall_forall in Hun. destruct (Hun u Hu) as [_ Hty].
    apply (sublist_subseteq _ _ Hs) in Ht. revert Hty Ht. clear. unfold is_typed_tag. generalize (tag u). intros t Hty Ht.
    repeat (apply elem_of_cons in Ht as [->|Ht]; [done|]). by apply elem_of_nil in Ht.
  - done.
Qed.
End Security.

Module SecurityTheorems.
Import Length LengthSpec LengthLemmas Pack PackSpec PackLemmas EmitLemmas Unicode St0102 Security.

Lemma forget_present r t : present (forget_errors r) t = present r t.
Proof. by destruct r. Qed.

Lemma decode_written r bs encs : ls_ok r -> Forall2 tlv_canonical encs (all_fields r) -> bytes (concat encs) ->
  bs = concat encs -> decode bs = Ok (forget_errors r).
Proof.
  intros Hr Hc Hb ->. apply decode_lenient_ok.
  rewrite (decode_loop_fields false encs (all_fields r)); [|by apply canonical_all; [apply all_fields_ok|]|done].
  by apply run_all_fields.
Qed.

Lemma decode_strict_sound buf r : bytes buf -> zlen buf <= i64_max -> decode_strict buf = Ok r ->
  decode buf = Ok r /\ strict_ok r /\ field_errors r = [].
Proof.
  intros Hb Hl Hd. apply decode_strict_ok in Hd as (Hw & Hloop & Hreq).
  destruct (decode_loop_inv true buf r Hb Hloop) as (encs & fs & -> & Hf & Hok & Hrun).
  destruct (run_spec _ true fs Hok default_ls r (default_decoded _) Hrun) as (_ & Hu & He).
  destruct (strict_loop_nodup encs fs Hf _ _ _ Hb Hw) as [Hnd _]. split_and!; [| |by apply He].
  - apply decode_lenient_ok. rewrite (decode_loop_fields false encs fs) by done. by apply run_lenient.
  - split_and!; [|done|].
    + eapply run_strict; [|exact Hrun]. split_and!; try done.
      repeat (apply Forall_cons; split; [by intros|]). constructor.
    + rewrite Hu. cbn [default_ls unknown app]. by apply nodup_filter.
Qed.

Lemma strict_written r encs : ls_ok r -> Forall2 tlv_canonical encs (all_fields r) -> bytes (concat encs) ->
  zlen (concat encs) <= i64_max -> is_ok (decode_strict (concat encs)) = true <-> strict_ok r.
Proof.
  intros Hr Hc Hb Hi. pose proof (decode_written r _ encs Hr Hc Hb eq_refl) as Hdec. split.
  - destruct (decode_strict (concat encs)) as [r'| |] eqn:Hs; [|done..]. intros _.
    apply decode_strict_sound in Hs as (Hd & Hok & _); [|done..]. rewrite Hdec in Hd. injection Hd as <-. by destruct r.
  - intros (Hv & Hreq & Hnd). rewrite (proj2 (decode_strict_ok _ (forget_errors r))); [done|]. split_and!.
    + pose proof (encs_length _ _ (canonical_all _ _ (all_fields_ok r Hr) Hc)).
      apply (strict_loop_fields encs (all_fields r) Hc (all_fields_ok r Hr)); [done|lia|by apply all_tags_nodup|].
      intros f _ Hin. by apply elem_of_nil in Hin.
    + rewrite (decode_loop_fields true encs (all_fields r)); [|by apply canonical_all; [apply all_fields_ok|]|done].
      by apply run_all_fields.
    + eapply Forall_impl; [exact Hreq|]. intros t Ht. by rewrite forget_present.
Qed.

Lemma sanitize_present r t : present (sanitize_strings_st0102 r) t = present r t.
Proof. destruct r. unfold present, sanitize_strings_st0102. cbn_ls. by repeat ifs. Qed.

Lemma first_missing {A} (p : Z -> bool) (err : Z -> KlvEncodeError) (k : res KlvEncodeError A) l :
  ((check! check_each (fun t => throw_if (negb (p t)) (err t)) l in k) = k /\ Forall (fun t => p t = true) l) \/
  exists done t rest, l = done ++ t :: rest /\ Forall (fun t => p t = true) done /\ p t = false /\
    (check! check_each (fun t => throw_if (negb (p t)) (err t)) l in k) = Err (err t).
Proof.
  induction l as [|t l IH]; [by left|]. cbn [check_each]. destruct (p t) eqn:Ep; cbn [negb throw_if rbind].
  - destruct IH as [[Hk Hf]|(d & t' & rest & -> & Hf & Hp & Hk)].
    + left. split; [done|by constructor].
    + right. exists (t :: d), t', rest. split_and!; [done|by constructor|done|done].
  - right. exists [], t, l. by split_and!.
Qed.

(** C23: Security Metadata sets, written and read back. Every record that fits the wire
    encodes, into exactly the length computed ahead, and decodes to itself with no
    field error; strict decoding accepts the bytes exactly when the record has the
    required tags, assigned code points, dates of the fixed length and no tag twice
    among its unknown fields. *)
Theorem security_ls_roundtrip r (Hr : ls_ok r) :
  exists bs, encode_to_vec r = Ok bs /\ bytes bs /\ zlen bs = encoded_len r /\
    decode bs = Ok (forget_errors r) /\
    (zlen bs <= i64_max -> decode_strict bs = Ok (forget_errors r) <-> strict_ok r).
Proof.
  destruct (encode_to_vec_ok r Hr) as (encs & Hc & Hb & Hl & He). exists (concat encs).
  pose proof (decode_written r (concat encs) encs Hr Hc Hb eq_refl) as Hdec.
  split_and!; try done. intros Hi. rewrite <- (strict_written r encs Hr Hc Hb Hi). split; [by intros ->|].
  destruct (decode_strict (concat encs)) as [r'| |] eqn:Hs; [|done..]. intros _.
  apply decode_strict_sound in Hs as (Hd & _); [|done..]. congruence.
Qed.

(** A complete record: the worked example of the decoder's documentation. *)
Definition demo_with (coding : CountryCoding.t) : SecurityLs :=
  MkLs (Some Classification.Unclassified) (Some coding) (Some [47; 47; 85; 83; 65])
    (Some ObjectCoding.Iso3166ThreeLetter) (Some [85; 83; 65]) (Some 12)
    None None None None None None None None None None None [{| tag := 200; value := [1; 2] |}] [].

Definition demo_ls : SecurityLs := demo_with CountryCoding.Iso3166ThreeLetter.

Lemma demo_with_ok coding : code_ok coding -> ls_ok (demo_with coding).
Proof.
  intros Hcode.
  assert (Hf : forall s, forallb (fun c => (0 <=? c) && (c <? 128)) s = true -> str_ok s).
  { intros s H. apply Forall_forall. intros c Hc. rewrite forallb_forall in H.
    apply list_elem_of_In, H in Hc. b2p. left. lia. }
  assert (Hl : forallb (fun tv => zlen (snd tv) <=? usize_max) (typed_fields (demo_with coding)) = true) by done.
  unfold ls_ok. split_and!; [split; done|exact Hcode|split; done|by apply Hf|cbn; lia| | |].
  - unfold strings. repeat (apply Forall_cons; split; [try exact I|]); [split; [by apply Hf|done]|constructor].
  - apply Forall_cons; split; [|constructor]. split; [|done]. unfold field_ok, u32_max, usize_max, u64_max.
    cbn [tag value]. split_and!; [lia|lia|by repeat (apply Forall_cons; split)|zlia].
  - apply Forall_forall. intros tv Htv. rewrite forallb_forall in Hl. by apply Z.leb_le, Hl, list_elem_of_In.
Qed.

Lemma security_ls_roundtrip_witness : exists bs, encode_to_vec demo_ls = Ok bs /\ decode bs = Ok demo_ls.
Proof.
  destruct (security_ls_roundtrip demo_ls (demo_with_ok CountryCoding.Iso3166ThreeLetter ltac:(split; done))) as (bs & H1 & _ & _ & H2 & _).
  exists bs. split; [exact H1|exact H2].
Defined.

(** C24: Decoding arbitrary bytes. Neither mode panics; a decoded record fits the wire,
    so that it encodes and decodes to itself but for its field errors; strict
    acceptance implies lenient acceptance of the same record, without field errors
    and with everything strict mode asks. *)
Theorem security_ls_decode_any buf (Hb : bytes buf) (Hlen : zlen buf <= i64_max) :
  no_panic (decode buf) /\ no_panic (decode_strict buf) /\
  (forall r, decode buf = Ok r -> ls_ok r /\ exists bs, encode_to_vec r = Ok bs /\ decode bs = Ok (forget_errors r)) /\
  (forall r, decode_strict buf = Ok r -> decode buf = Ok r /\ strict_ok r /\ field_errors r = []).
Proof.
  split_and!; [by apply decode_inner_no_panic|by apply decode_inner_no_panic| |].
  - intros r Hd. apply decode_lenient_ok in Hd.
    destruct (decode_loop_inv false buf r Hb Hd) as (encs & fs & -> & Hf & Hok & Hrun).
    destruct (run_spec _ false fs Hok default_ls r (default_decoded _) Hrun) as (Hdec & _).
    assert (Hr : ls_ok r) by (eapply decoded_ok; [|exact Hdec]; zlia). split; [done|].
    destruct (encode_to_vec_ok r Hr) as (encs' & Hc & Hb' & Hl & He). exists (concat encs'). split; [done|].
    by eapply decode_written.
  - intros r. by apply decode_strict_sound.
Qed.

Lemma security_ls_decode_any_witness :
  decode [0x0D; 0x03; 0xFE; 0xFF; 0x00; 0x01; 0x01; 0x02] =
    Ok (push_error (InvalidUtf16 13) (set_classification Classification.Restricted default_ls)) /\
  no_panic (decode_strict [0x0D; 0x03; 0xFE; 0xFF; 0x00; 0x01; 0x01; 0x02]).
Proof.
  split; [reflexivity|].
  apply (security_ls_decode_any [0x0D; 0x03; 0xFE; 0xFF; 0x00; 0x01; 0x01; 0x02]);
    [by repeat (apply Forall_cons; split)|].
  unfold i64_max. zlia.
Defined.

(** C25: The strict encoder checks that the required tags are there, and nothing of
    their values: it refuses a record exactly at its first missing tag and otherwise
    encodes the sanitised record, so that records with a reserved code point, a date
    of the wrong length or a repeated unknown tag encode to bytes that strict
    decoding refuses. *)
Theorem security_strict_encoder r (Hr : ls_ok (sanitize_strings_st0102 r)) :
  (encode_strict_compliance r = encode_to_vec (sanitize_strings_st0102 r) /\ Forall (fun t => present r t = true) REQUIRED_TAGS \/
   exists done t rest, REQUIRED_TAGS = done ++ t :: rest /\ Forall (fun t => present r t = true) done /\
     present r t = false /\ encode_strict_compliance r = Err (MissingMandatoryItem t (required_name t))) /\
  (Forall (fun t => present r t = true) REQUIRED_TAGS -> encoded_len (sanitize_strings_st0102 r) <= i64_max ->
   exists bs, encode_strict_compliance r = Ok bs /\
     (is_ok (decode_strict bs) = true <-> strict_values (sanitize_strings_st0102 r) /\ NoDup (map tag (unknown r)))).
Proof.
  assert (Hall : Forall (fun t => present r t = true) REQUIRED_TAGS ->
    encode_strict_compliance r = encode_to_vec (sanitize_strings_st0102 r)).
  { intros Hp. unfold encode_strict_compliance. rewrite (proj2 (check_each_ok _ _ tt)); [done|].
    eapply Forall_impl; [exact Hp|]. intros t Ht. cbn beta. by rewrite Ht. }
  split.
  - unfold encode_strict_compliance. apply first_missing.
  - intros Hreq Hi. rewrite Hall by done.
    destruct (encode_to_vec_ok _ Hr) as (encs & Hc & Hb & Hl & ->). exists (concat encs). split; [done|].
    assert (Hreq' : Forall (fun t => present (sanitize_strings_st0102 r) t = true) REQUIRED_TAGS).
    { eapply Forall_impl; [exact Hreq|]. intros t. by rewrite sanitize_present. }
    assert (Hu : unknown (sanitize_strings_st0102 r) = unknown r) by by destruct r.
    rewrite (strict_written _ encs Hr Hc Hb) by lia. unfold strict_ok. rewrite Hu. tauto.
Qed.

Lemma security_strict_encoder_witness :
  exists bs, encode_strict_compliance (demo_with CountryCoding.OmittedValue08) = Ok bs /\
    is_ok (decode_strict bs) = false.
Proof.
  pose proof (security_strict_encoder (demo_with CountryCoding.OmittedValue08)
    (demo_with_ok CountryCoding.OmittedValue08 ltac:(split; done))) as [_ H].
  destruct H as (bs & H1 & H2); [by repeat (apply Forall_cons; split)|by vm_compute|].
  exists bs. split; [exact H1|]. apply not_true_is_false. intros Hs. apply H2 in Hs as ((_ & Hc & _) & _). discriminate Hc.
Defined.
End SecurityTheorems.
