(* ===== verification/Muxer.v ===== *)
(** The multiplexer ([mpegts/mux/mod.rs], [scheduling.rs], [slot.rs] and the
    [push_*.rs] handlers): program slots, the packet queue, PSI and PCR
    scheduling, packetization of the PES scratch buffer, the five push
    operations and [pull]. *)
From Stdlib Require Import ZArith Lia Bool String.
From stdpp Require Import base list list_numbers gmap.
From S2P Require Import Prelude Common TsPacket PesWriter PsiWriter Descriptors AnnexB MispTime AudioFrames AuCell.

(** * State *)
Module MuxState.
Import Common PesWriter MuxTypes.

Record VideoStreamState : Type := { video_pid : Z; video_codec : VideoCodec }.
Record KlvStreamState : Type := { klv_pid : Z; klv_stream_type : KlvStreamType; klv_carries_pts : bool }.
Record AudioStreamState : Type := { audio_pid : Z; audio_codec : AudioCodec }.
Record SubtitleStreamState : Type := { subtitle_pid : Z; subtitle_codec : SubtitleCodec }.
Record DataStreamState : Type := { data_pid : Z; data_stream_type : Z; data_carries_pts : bool }.

Record ProgramSlot : Type := {
  live : option MuxerProgramConfig;
  video : list (option VideoStreamState);
  klv : list (option KlvStreamState);
  audio : list (option AudioStreamState);
  subtitle : list (option SubtitleStreamState);
  data : list (option DataStreamState);
  pcr_pid : Z;
  pmt_descriptor_cache : list (list Z);
  pmt_version : Z;
  pmt_identity : list Z;
  psi_last : option Z;
  pcr_last : option Z;
  last_program_number : Z;
  placed_pids : gmap Z (MuxStreamKind * Z);
}.

Definition is_live (s : ProgramSlot) : bool := match live s with Some _ => true | None => false end.

Definition slot_program_number (s : ProgramSlot) : option Z := MuxTypes.program_number <$> live s.

Definition set_psi_last (s : ProgramSlot) (t : option Z) : ProgramSlot :=
  {| live := live s; video := video s; klv := klv s; audio := audio s; subtitle := subtitle s; data := data s;
     pcr_pid := pcr_pid s; pmt_descriptor_cache := pmt_descriptor_cache s; pmt_version := pmt_version s;
     pmt_identity := pmt_identity s; psi_last := t; pcr_last := pcr_last s;
     last_program_number := last_program_number s; placed_pids := placed_pids s |}.

Definition set_pcr_last (s : ProgramSlot) (t : option Z) : ProgramSlot :=
  {| live := live s; video := video s; klv := klv s; audio := audio s; subtitle := subtitle s; data := data s;
     pcr_pid := pcr_pid s; pmt_descriptor_cache := pmt_descriptor_cache s; pmt_version := pmt_version s;
     pmt_identity := pmt_identity s; psi_last := psi_last s; pcr_last := t;
     last_program_number := last_program_number s; placed_pids := placed_pids s |}.

(** [StreamStats] without the wall-clock [last_seen]. *)
Record StreamStats : Type := {
  stat_pid : Z;
  stat_stream_type : StreamTypeCode;
  stat_program_number : Z;
  label : option string;
  items : Z;
  byte_count : Z;
  discontinuities : Z;
}.

Inductive CodecKind : Type := CodecVideo | CodecKlv | CodecAudio.

Record StreamCodecCounters : Type := {
  kind : CodecKind;
  nals_or_obus : Z;
  random_access_aus : Z;
  records : Z;
  frame_count : Z;
}.

Definition new_counters (k : CodecKind) : StreamCodecCounters :=
  {| kind := k; nals_or_obus := 0; random_access_aus := 0; records := 0; frame_count := 0 |}.

Definition sat_add (a b : Z) : Z := Z.min u64_max (a + b).

Definition add_video (c : StreamCodecCounters) (nals ra : Z) : StreamCodecCounters :=
  {| kind := kind c; nals_or_obus := sat_add (nals_or_obus c) nals;
     random_access_aus := sat_add (random_access_aus c) ra; records := records c; frame_count := frame_count c |}.
Definition add_klv (c : StreamCodecCounters) (n : Z) : StreamCodecCounters :=
  {| kind := kind c; nals_or_obus := nals_or_obus c; random_access_aus := random_access_aus c;
     records := sat_add (records c) n; frame_count := frame_count c |}.
Definition add_audio (c : StreamCodecCounters) (n : Z) : StreamCodecCounters :=
  {| kind := kind c; nals_or_obus := nals_or_obus c; random_access_aus := random_access_aus c;
     records := records c; frame_count := sat_add (frame_count c) n |}.

(** [entry(pid).or_insert_with(new(kind))] followed by an update. *)
Definition bump (f : StreamCodecCounters -> StreamCodecCounters) (k : CodecKind) (pid : Z)
    (m : gmap Z StreamCodecCounters) : gmap Z StreamCodecCounters :=
  <[pid := f (default (new_counters k) (m !! pid))]> m.

Record MuxerConfig : Type := {
  programs : list MuxerProgramConfig;
  pcr_interval_ms : Z;
  psi_interval_ms : Z;
  buffer_packets : Z;
  av1_carriage : Av1CarriageMode;
}.

Record Muxer : Type := {
  config : MuxerConfig;
  slots : list ProgramSlot;
  program_order : list Z;
  pcr_interval_27mhz : Z;
  psi_interval_90khz : Z;
  queue : list (list Z);
  counters : TsWriter.ContinuityCounters;
  pat_version : Z;
  pat_identity : list (Z * Z);
  pmt_versions_by_pid : gmap Z Z;
  ts_packets_emitted : Z;
  ts_bytes_emitted : Z;
  per_stream : gmap Z StreamStats;
  stream_codec_counters : gmap Z StreamCodecCounters;
  pes_scratch : list Z;
}.

(** Everything the packet path changes, in one update. *)
Definition update (m : Muxer) (s : list ProgramSlot) (q : list (list Z)) (c : TsWriter.ContinuityCounters) : Muxer :=
  {| config := config m; slots := s; program_order := program_order m;
     pcr_interval_27mhz := pcr_interval_27mhz m; psi_interval_90khz := psi_interval_90khz m; queue := q;
     counters := c; pat_version := pat_version m; pat_identity := pat_identity m;
     pmt_versions_by_pid := pmt_versions_by_pid m; ts_packets_emitted := ts_packets_emitted m;
     ts_bytes_emitted := ts_bytes_emitted m; per_stream := per_stream m;
     stream_codec_counters := stream_codec_counters m; pes_scratch := pes_scratch m |}.

Definition push_packet (m : Muxer) (pkt : list Z) (c : TsWriter.ContinuityCounters) : Muxer :=
  update m (slots m) (queue m ++ [pkt]) c.

Definition set_slots (m : Muxer) (s : list ProgramSlot) : Muxer := update m s (queue m) (counters m).

Definition set_scratch (m : Muxer) (b : list Z) : Muxer :=
  {| config := config m; slots := slots m; program_order := program_order m;
     pcr_interval_27mhz := pcr_interval_27mhz m; psi_interval_90khz := psi_interval_90khz m; queue := queue m;
     counters := counters m; pat_version := pat_version m; pat_identity := pat_identity m;
     pmt_versions_by_pid := pmt_versions_by_pid m; ts_packets_emitted := ts_packets_emitted m;
     ts_bytes_emitted := ts_bytes_emitted m; per_stream := per_stream m;
     stream_codec_counters := stream_codec_counters m; pes_scratch := b |}.

Definition set_stats (m : Muxer) (s : gmap Z StreamStats) (c : gmap Z StreamCodecCounters) : Muxer :=
  {| config := config m; slots := slots m; program_order := program_order m;
     pcr_interval_27mhz := pcr_interval_27mhz m; psi_interval_90khz := psi_interval_90khz m; queue := queue m;
     counters := counters m; pat_version := pat_version m; pat_identity := pat_identity m;
     pmt_versions_by_pid := pmt_versions_by_pid m; ts_packets_emitted := ts_packets_emitted m;
     ts_bytes_emitted := ts_bytes_emitted m; per_stream := s; stream_codec_counters := c;
     pes_scratch := pes_scratch m |}.

Definition set_pulled (m : Muxer) (q : list (list Z)) (packets bytes_ : Z) : Muxer :=
  {| config := config m; slots := slots m; program_order := program_order m;
     pcr_interval_27mhz := pcr_interval_27mhz m; psi_interval_90khz := psi_interval_90khz m; queue := q;
     counters := counters m; pat_version := pat_version m; pat_identity := pat_identity m;
     pmt_versions_by_pid := pmt_versions_by_pid m; ts_packets_emitted := packets;
     ts_bytes_emitted := bytes_; per_stream := per_stream m;
     stream_codec_counters := stream_codec_counters m; pes_scratch := pes_scratch m |}.

(** The arguments of the formatted reasons of [MuxError::ConfigInvalid]. *)
Inductive FieldChange : Type :=
| IntChange (old new : Z)
| CarriageChange (old new : Av1CarriageMode).

Inductive ConfigReason : Type :=
| StreamDescriptorCount (program_number streams stream_descriptors : Z)
| DataStreamClassifies (pid stream_type : Z) (kind : PmtClassify.StreamKind)
| DuplicateServiceId (id pid_a prog_a pid_b prog_b : Z)
| PidMoves (pid old_program new_program : Z)
| PidChangesIdentity (pid program : Z) (old_kind : MuxStreamKind) (old_type : Z) (new_kind : MuxStreamKind) (new_type : Z)
| PmtPidChanges (program old new : Z)
| PcrPidChanges (program old new : Z) (follows_default_rule : bool)
| GlobalFieldChanges (field : string) (change : FieldChange).

Inductive TeletextField : Type := MagazineNumber | TeletextType.

(** [MuxError]; the two index errors of the configuration builders are left out. *)
Inductive MuxError : Type :=
| InvalidConfig (reason : string)
| ConfigInvalid (reason : ConfigReason)
| InvalidNal
| InvalidAv1Obu
| BufferFull (capacity_packets : Z)
| KlvTooLarge (size max : Z)
| AudioTooLarge (size max : Z)
| InvalidStreamHandle (kind : MuxStreamKind) (index : Z)
| AmbiguousTarget (kind : MuxStreamKind) (count : Z)
| NoKlvStreamsConfigured
| NoAudioStreamsConfigured
| NoSubtitleStreamsConfigured
| TooManyVideoStreams (count cap : Z)
| TooManyKlvStreams (count cap : Z)
| TooManyAudioStreams (count cap : Z)
| TooManySubtitleStreams (count cap : Z)
| SubtitleTooLarge (size max : Z)
| SubtitlePidUsedAsPcrPid (pid : Z)
| KlvPidUsedAsPcrPid (pid : Z)
| InvalidLanguageCode (code : list Z)
| InvalidTeletextField (field : TeletextField) (value max : Z)
| PmtTooLargeConfig (used_bytes max_bytes : Z)
| MalformedDescriptor (stream_index descriptor_index : Z) (reason : string)
| TooManyPrograms (count cap : Z)
| EmptyProgram (program_number : Z)
| DuplicateProgramNumber (program_number : Z)
| DuplicatePmtPid (pid program_a program_b : Z)
| DuplicatePidAcrossPrograms (pid program_a program_b : Z)
| ProgramNotFound (program_number : Z)
| PmtPidConflictsWithStream (pmt_pid program_number : Z)
| NoPcrEligibleStream (program_number : Z)
| NoDataStreamsConfigured
| TooManyDataStreams (count cap : Z)
| DataTooLarge (size max : Z)
| DataPidUsedAsPcrPid (pid : Z)
| MispTime (error : MispTime.MispTimeError).

End MuxState.

(** * Handles *)
Module MuxHandles.
Import MuxTypes MuxState HandlePack.

Definition option_list {A} (o : option A) : list A := match o with Some a => [a] | None => [] end.

(** [slot.live.iter().flat_map(streams).filter_map(placed_pids)] *)
Definition declared_within_indices (slot : ProgramSlot) (kind : MuxStreamKind) : list Z :=
  flat_map (fun spec =>
    match placed_pids slot !! spec_pid spec with
    | Some (placed, within) => if bool_decide (placed = kind) then [within] else []
    | None => []
    end) (flat_map (fun prog => MuxTypes.streams prog) (option_list (live slot))).

Fixpoint traverse {E A B} (f : A -> res E B) (l : list A) : res E (list B) :=
  match l with
  | [] => Ok []
  | a :: l => let! b := f a in let! bs := traverse f l in Ok (b :: bs)
  end.

Fixpoint all_handles {E} (slots : list ProgramSlot) (program_order : list Z) (kind : MuxStreamKind)
    : res E (list Z) :=
  match program_order with
  | [] => Ok []
  | p_idx :: rest =>
      let! slot := idx slots p_idx in
      let! hs := traverse (fun w => pack p_idx w) (declared_within_indices slot kind) in
      let! tail := all_handles slots rest kind in
      Ok (hs ++ tail)
  end.

(** [iter().position(p)] *)
Fixpoint position {A} (p : A -> bool) (l : list A) : option Z :=
  match l with
  | [] => None
  | x :: l => if p x then Some 0 else (fun i => 1 + i) <$> position p l
  end.

Definition handles_for_program (slots : list ProgramSlot) (kind : MuxStreamKind) (program_number : Z)
    : res MuxError (list Z) :=
  match position (fun s => bool_decide (slot_program_number s = Some program_number)) slots with
  | None => Err (ProgramNotFound program_number)
  | Some prog_idx =>
      let! slot := idx slots prog_idx in
      traverse (fun w => pack prog_idx w) (declared_within_indices slot kind)
  end.

Definition first_program_handle {E} (slots : list ProgramSlot) (program_order : list Z)
    (kind : MuxStreamKind) (index : Z) : res E (option Z) :=
  match program_order with
  | [] => Ok None
  | p_idx :: _ =>
      let! slot := idx slots p_idx in
      match get (declared_within_indices slot kind) index with
      | None => Ok None
      | Some w => let! h := pack p_idx w in Ok (Some h)
      end
  end.

Definition is_some {A} (o : option A) : bool := match o with Some _ => true | None => false end.

Definition some_count {A} (l : list (option A)) : Z :=
  foldr (fun o n => if is_some o then 1 + n else n) 0 l.

Definition live_stream_count {A} (slots : list ProgramSlot) (streams : ProgramSlot -> list (option A)) : Z :=
  foldr (fun s n => if is_live s then some_count (streams s) + n else n) 0 slots.

(** The first live slot from index [p] that has a stream of the kind. *)
Fixpoint find_lone {A} (p : Z) (slots : list ProgramSlot) (streams : ProgramSlot -> list (option A))
    : option (Z * Z) :=
  match slots with
  | [] => None
  | s :: rest =>
      match (if is_live s then position is_some (streams s) else None) with
      | Some w => Some (p, w)
      | None => find_lone (p + 1) rest streams
      end
  end.

Definition locate_lone_stream {E A} (slots : list ProgramSlot) (streams : ProgramSlot -> list (option A))
    : res E (Z * Z) :=
  match find_lone 0 slots streams with Some pw => Ok pw | None => Panic end.

Definition resolve_lone {A} (slots : list ProgramSlot) (streams : ProgramSlot -> list (option A))
    (none_configured : MuxError) (kind : MuxStreamKind) : res MuxError Z :=
  let total := live_stream_count slots streams in
  if total =? 0 then Err none_configured
  else if 1 <? total then Err (AmbiguousTarget kind total)
  else
    let! (p, w) := locate_lone_stream slots streams in
    pack p w.

(** [slots.get(p).and_then(|s| streams.get(w)).and_then(Option::as_ref)] *)
Definition lookup_stream {A} (slots : list ProgramSlot) (streams : ProgramSlot -> list (option A))
    (p w : Z) : option A :=
  get! slot := get slots p in
  get! entry := get (streams slot) w in
  entry.

End MuxHandles.

(** * Scheduling and packetization *)
Module MuxSchedule.
Import Common TsWriter PsiWriter MuxTypes MuxState MuxHandles.

Definition update_slot {E} (m : Muxer) (prog_idx : Z) (f : ProgramSlot -> ProgramSlot) : res E Muxer :=
  let! slot := idx (slots m) prog_idx in
  let! ss := put (slots m) prog_idx [f slot] in
  Ok (set_slots m ss).

Definition psi_due {E} (m : Muxer) (prog_idx pts_90khz : Z) : res E bool :=
  let! slot := idx (slots m) prog_idx in
  match psi_last slot with
  | None => Ok true
  | Some last_masked =>
      let now_masked := masked_33bit pts_90khz in
      let! delta := pts_diff_33bit now_masked last_masked in
      Ok (psi_interval_90khz m <=? delta)
  end.

Definition pcr_due {E} (m : Muxer) (prog_idx pts_90khz : Z) : res E bool :=
  let! slot := idx (slots m) prog_idx in
  match pcr_last slot with
  | None => Ok true
  | Some last =>
      let now_base_masked := masked_33bit pts_90khz in
      let last_base_masked := Z.land (last / 300) (Z.shiftl 1 33 - 1) in
      let! delta_90khz := pts_diff_33bit now_base_masked last_base_masked in
      let threshold_90khz := as_i64 (pcr_interval_27mhz m / 300) in
      Ok (threshold_90khz <=? delta_90khz)
  end.

Definition pcr_only_due {E} (m : Muxer) (prog_idx pts_90khz current_pid : Z) : res E bool :=
  let! slot := idx (slots m) prog_idx in
  if negb (pcr_pid slot =? current_pid) then pcr_due m prog_idx pts_90khz else Ok false.

Definition blank_packet : list Z := zrep 188 0.

Definition maybe_emit_pcr_only {E} (m : Muxer) (prog_idx pts_90khz current_pid : Z) : res E Muxer :=
  let! due := pcr_only_due m prog_idx pts_90khz current_pid in
  if negb due then Ok m
  else
    let! slot := idx (slots m) prog_idx in
    let! pcr := from_pts pts_90khz in
    let! pkt := write_pcr_only_packet blank_packet (pcr_pid slot) pcr (counters m) in
    let m := push_packet m pkt (counters m) in
    update_slot m prog_idx (fun s => set_pcr_last s (Some pcr)).

Definition pat_entries (m : Muxer) : list (Z * Z) :=
  flat_map (fun s => match live s with
                     | Some p => [(MuxTypes.program_number p, MuxTypes.pmt_pid p)]
                     | None => [] end) (slots m).

(** The [PmtStreamEntry] list of one slot; [cache[i]] must exist. *)
Fixpoint pmt_entries {E} (specs : list StreamSpec) (i : Z) (cache : list (list Z))
    : res E (list PmtStreamEntry) :=
  match specs with
  | [] => Ok []
  | spec :: specs =>
      let! descriptors := idx cache i in
      let! rest := pmt_entries specs (i + 1) cache in
      Ok ({| entry_stream_type := pmt_stream_type_byte spec; entry_pid := spec_pid spec;
             entry_descriptors := descriptors |} :: rest)
  end.

(** The loop over the slots; a PMT that does not fit is the source's [expect]. *)
Fixpoint emit_pmts {E} (ss : list ProgramSlot) (m : Muxer) : res E Muxer :=
  match ss with
  | [] => Ok m
  | slot :: rest =>
      match live slot with
      | None => emit_pmts rest m
      | Some prog =>
          let! entries := pmt_entries (MuxTypes.streams prog) 0 (pmt_descriptor_cache slot) in
          match write_pmt_packet blank_packet prog (pcr_pid slot) entries (pmt_version slot) (counters m) with
          | Ok (pmt, c) => emit_pmts rest (push_packet m pmt c)
          | Err _ | Panic => Panic
          end
      end
  end.

Definition maybe_emit_psi {E} (m : Muxer) (prog_idx pts_90khz : Z) : res E Muxer :=
  let! due := psi_due m prog_idx pts_90khz in
  if negb due then Ok m
  else
    let! (pat, c) := write_pat_packet blank_packet (pat_entries m) (pat_version m) (counters m) in
    let m := push_packet m pat c in
    let! m := emit_pmts (slots m) m in
    let masked := masked_33bit pts_90khz in
    Ok (set_slots m (map (fun s => set_psi_last s (Some masked)) (slots m))).

Definition live_count (m : Muxer) : Z := zlen (List.filter is_live (slots m)).

Definition reserve_preamble (m : Muxer) (prog_idx pts pid payload_pkts : Z) : res MuxError Muxer :=
  let! due := psi_due m prog_idx pts in
  let psi_packets := if (due : bool) then 1 + live_count m else 0 in
  let! pcr_only := pcr_only_due m prog_idx pts pid in
  let pcr_only_packets := b2z pcr_only in
  if buffer_packets (config m) <? zlen (queue m) + psi_packets + pcr_only_packets + payload_pkts
  then Err (BufferFull (buffer_packets (config m)))
  else
    let! m := maybe_emit_psi m prog_idx pts in
    maybe_emit_pcr_only m prog_idx pts pid.

Definition ts_packets_for (payload_size : Z) : Z := Z.max (PesWriter.div_ceil payload_size 184) 1 + 1.

Definition pcr_first_af {E} (m : Muxer) (prog_idx pts pid : Z) : res E (AdaptationField * Muxer) :=
  let! slot := idx (slots m) prog_idx in
  let! carry := (if pcr_pid slot =? pid then pcr_due m prog_idx pts else Ok false) in
  if (carry : bool) then
    let! pcr := from_pts pts in
    let! m := update_slot m prog_idx (fun s => set_pcr_last s (Some pcr)) in
    Ok ({| random_access := false; pcr := Some pcr |}, m)
  else Ok (AdaptationField_default, m).

(** The [while cursor < len] loop over the scratch buffer. Every packet takes at
    least one byte, so the buffer's length bounds the number of turns. *)
Fixpoint drain_loop {E} (fuel : nat) (scratch : list Z) (cursor : Z) (first : bool) (pid : Z)
    (first_af : AdaptationField) (q : list (list Z)) (c : ContinuityCounters)
    : res E (list (list Z) * ContinuityCounters) :=
  match fuel with
  | O => Panic
  | S fuel =>
      if cursor <? zlen scratch then
        let adaptation := if first then first_af else AdaptationField_default in
        let! rest := slice scratch cursor (zlen scratch) in
        let! (pkt, c, result) := write_packet blank_packet pid first adaptation rest c in
        drain_loop fuel scratch (cursor + payload_consumed result) false pid first_af (q ++ [pkt]) c
      else Ok (q, c)
  end.

Definition drain_pes_scratch {E} (m : Muxer) (pid : Z) (first_af : AdaptationField) : res E Muxer :=
  let! (q, c) :=
    drain_loop (S (length (pes_scratch m))) (pes_scratch m) 0 true pid first_af (queue m) (counters m) in
  Ok (update m (slots m) q c).

(** [request_psi], [pull] and the gauges. *)
Definition request_psi (m : Muxer) : Muxer := set_slots m (map (fun s => set_psi_last s None) (slots m)).

Fixpoint copy_packets {E} (out : list Z) (i : Z) (pkts : list (list Z)) : res E (list Z) :=
  match pkts with
  | [] => Ok out
  | pkt :: pkts =>
      assert! zlen pkt =? 188 in
      let! out := put out (i * 188) pkt in
      copy_packets out (i + 1) pkts
  end.

Definition pull {E} (m : Muxer) (out : list Z) : res E (Z * list Z * Muxer) :=
  if zlen out <? 188 then Ok (0, out, m)
  else
    let max_packets := Z.min (zlen out / 188) (zlen (queue m)) in
    let! out := copy_packets out 0 (ztake max_packets (queue m)) in
    let n := max_packets * 188 in
    let! packets := chk_u64 (ts_packets_emitted m + max_packets) in
    let! bytes_ := chk_u64 (ts_bytes_emitted m + n) in
    Ok (n, out, set_pulled m (zdrop max_packets (queue m)) packets bytes_).

Definition pending_packets (m : Muxer) : Z := zlen (queue m).
Definition capacity_packets (m : Muxer) : Z := buffer_packets (config m).

End MuxSchedule.

(** * Push operations

    A handler runs on the muxer and leaves it in some state whether it returns
    [Ok] or an error; [step] is that shape. *)
Module MuxPush.
Import Common TsWriter PesWriter MuxTypes MuxState MuxHandles MuxSchedule HandlePack.

Definition step : Type := res MuxError unit * Muxer.

(** Run a stage that leaves the muxer as it was when it fails. *)
Definition stage (m : Muxer) (r : res MuxError Muxer) (k : Muxer -> step) : step :=
  match r with
  | Ok m' => k m'
  | Err e => (Err e, m)
  | Panic => (Panic, m)
  end.

(** A value computed before the muxer changes. *)
Definition compute {A} (m : Muxer) (r : res MuxError A) (k : A -> step) : step :=
  match r with
  | Ok a => k a
  | Err e => (Err e, m)
  | Panic => (Panic, m)
  end.

Notation "'stage!' x := r 'from' m 'in' k" := (stage m r (fun x => k))
  (at level 10, x name, r at level 100, m at level 9, k at level 200).
Notation "'compute!' x := r 'from' m 'in' k" := (compute m r (fun x => k))
  (at level 10, x pattern, r at level 100, m at level 9, k at level 200).

(** The [per_stream.get_mut] block of every handler. *)
Definition count_push {E} (m : Muxer) (pid n : Z) : res E Muxer :=
  match per_stream m !! pid with
  | None => Ok m
  | Some s =>
      let! it := chk_u64 (items s + 1) in
      let! by_ := chk_u64 (byte_count s + n) in
      Ok (set_stats m (<[pid := {| stat_pid := stat_pid s; stat_stream_type := stat_stream_type s;
             stat_program_number := stat_program_number s; label := label s; items := it; byte_count := by_;
             discontinuities := discontinuities s |}]> (per_stream m)) (stream_codec_counters m))
  end.

Definition bump_codec (m : Muxer) (f : StreamCodecCounters -> StreamCodecCounters) (k : CodecKind) (pid : Z) : Muxer :=
  set_stats m (per_stream m) (bump f k pid (stream_codec_counters m)).

Definition push_data_to (m : Muxer) (handle : Z) (bytes_ : list Z) (pts : Z) : step :=
  let (prog_idx, within_idx) := unpack handle in
  match lookup_stream (slots m) data prog_idx within_idx with
  | None => (Err (InvalidStreamHandle KindData handle), m)
  | Some d =>
      let pid := data_pid d in
      let pts_field := if data_carries_pts d then PtsOnly pts else PtsNone in
      let pes_overhead := 3 + (if data_carries_pts d then 5 else 0) in
      let max_data := u16_max - pes_overhead in
      if max_data <? zlen bytes_ then (Err (DataTooLarge (zlen bytes_) max_data), m)
      else
        compute! header := append_header [] STREAM_ID_PRIVATE_STREAM_1 pts_field
          (Some (as_u16 (zlen bytes_))) {| data_alignment_indicator := true |} from m in
        let m := set_scratch m (header ++ bytes_) in
        let data_packets := ts_packets_for (zlen (pes_scratch m)) in
        stage! m := reserve_preamble m prog_idx pts pid data_packets from m in
        stage! m := drain_pes_scratch m pid AdaptationField_default from m in
        stage! m := count_push m pid (zlen bytes_) from m in
        (Ok tt, m)
  end.

Definition audio_frame_count {E} (codec : AudioCodec) (frames : list Z) : res E Z :=
  match codec with
  | Aac => let! l := Frames.frames_with_resync (F:=Aac.AdtsFrame) frames in Ok (Frames.ok_count l)
  | Mp2 => let! l := Frames.frames_with_resync (F:=MpegAudio.Frame) frames in Ok (Frames.ok_count l)
  | AacLatm | Ac3 => Ok 0
  end.

Definition push_audio_to (m : Muxer) (handle pts : Z) (frames : list Z) : step :=
  let (prog_idx, within_idx) := unpack handle in
  match lookup_stream (slots m) audio prog_idx within_idx with
  | None => (Err (InvalidStreamHandle KindAudio handle), m)
  | Some a =>
      let pid := audio_pid a in
      let pes_overhead := 3 + 5 in
      let max_audio := u16_max - pes_overhead in
      if max_audio <? zlen frames then (Err (AudioTooLarge (zlen frames) max_audio), m)
      else
        compute! scratch := write_audio_pes [] (audio_codec a) (as_u8 within_idx) (PtsOnly pts) frames from m in
        let m := set_scratch m scratch in
        let audio_packets := ts_packets_for (zlen (pes_scratch m)) in
        stage! m := reserve_preamble m prog_idx pts pid audio_packets from m in
        compute! (first_af, m) := pcr_first_af m prog_idx pts pid from m in
        stage! m := drain_pes_scratch m pid first_af from m in
        stage! m := count_push m pid (zlen frames) from m in
        compute! frames_delta := audio_frame_count (audio_codec a) frames from m in
        (Ok tt, if 0 <? frames_delta then bump_codec m (fun c => add_audio c frames_delta) CodecAudio pid else m)
  end.

(** The synchronous-KLV wrapping and the size it is reported with. *)
Definition wrap_klv (is_sync : bool) (metadata_service_id : Z) (bytes_ : list Z) : res MuxError (list Z) :=
  if is_sync then
    let header := {| AuCell.metadata_service_id := metadata_service_id; AuCell.sequence_number := 0;
                     AuCell.cell_fragment_indication := AuCell.Complete; AuCell.decoder_config_flag := false;
                     AuCell.random_access_indicator := true |} in
    let! (buf, _) := map_err (fun e => match e with
                                       | AuCell.PayloadTooLarge size _ => KlvTooLarge size AuCell.MAX_AU_CELL_PAYLOAD
                                       end) (AuCell.write_metadata_au_cell [] header bytes_) in
    Ok buf
  else Ok bytes_.

Definition push_klv_to (m : Muxer) (handle : Z) (bytes_ : list Z) (pts metadata_service_id : Z) : step :=
  let (prog_idx, within_idx) := unpack handle in
  match lookup_stream (slots m) klv prog_idx within_idx with
  | None => (Err (InvalidStreamHandle KindKlv handle), m)
  | Some k =>
      let pid := klv_pid k in
      let is_sync := bool_decide (MuxState.klv_stream_type k = SynchronousMetadata) in
      compute! effective_klv := wrap_klv is_sync metadata_service_id bytes_ from m in
      let pts_field := if klv_carries_pts k then PtsOnly pts else PtsNone in
      let pes_overhead := 3 + (if klv_carries_pts k then 5 else 0) in
      let max_klv := u16_max - pes_overhead in
      if max_klv <? zlen effective_klv then
        (Err (KlvTooLarge (zlen bytes_) (if is_sync then max_klv - 5 else max_klv)), m)
      else
        let pes_stream_id := if is_sync then STREAM_ID_KLV else STREAM_ID_PRIVATE_STREAM_1 in
        compute! header := append_header [] pes_stream_id pts_field
          (Some (as_u16 (zlen effective_klv))) {| data_alignment_indicator := true |} from m in
        let m := set_scratch m (header ++ effective_klv) in
        let klv_packets := ts_packets_for (zlen (pes_scratch m)) in
        stage! m := reserve_preamble m prog_idx pts pid klv_packets from m in
        compute! (first_af, m) := pcr_first_af m prog_idx pts pid from m in
        stage! m := drain_pes_scratch m pid first_af from m in
        stage! m := count_push m pid (zlen bytes_) from m in
        (Ok tt, bump_codec m (fun c => add_klv c 1) CodecKlv pid)
  end.

Definition pes_shape (c : SubtitleCodec) : SubtitlePesShape :=
  match c with
  | DvbSubtitling _ _ _ _ => DvbSub
  | DvbTeletextCodec _ _ _ _ => DvbTeletext
  | Cea708Standalone | WebVttInTs => Passthrough
  end.

(** The codec-dependent size cap: the error to return, if any. *)
Definition subtitle_too_large (shape : SubtitlePesShape) (payload : list Z) : option MuxError :=
  let envelope_overhead := match shape with DvbSub => 3 | DvbTeletext => 0 | Passthrough => 0 end in
  match shape with
  | DvbTeletext =>
      let auto_prepend := dvb_teletext_will_auto_prepend payload in
      match dvb_teletext_total_pes_bytes (zlen payload) auto_prepend with
      | None => Some (SubtitleTooLarge (zlen payload) (65504 - 45 - b2z auto_prepend))
      | Some _ => None
      end
  | _ =>
      let pes_overhead := 3 + 5 + envelope_overhead in
      let max_subtitle := u16_max - pes_overhead in
      if max_subtitle <? zlen payload then Some (SubtitleTooLarge (zlen payload) max_subtitle) else None
  end.

Definition push_subtitle_to (m : Muxer) (handle pts : Z) (payload : list Z) : step :=
  let (prog_idx, within_idx) := unpack handle in
  match lookup_stream (slots m) subtitle prog_idx within_idx with
  | None => (Err (InvalidStreamHandle KindSubtitle handle), m)
  | Some sub =>
      let pid := subtitle_pid sub in
      let shape := pes_shape (subtitle_codec sub) in
      match subtitle_too_large shape payload with
      | Some e => (Err e, m)
      | None =>
          compute! scratch := write_subtitle_pes [] pts shape payload from m in
          let m := set_scratch m scratch in
          let subtitle_packets := ts_packets_for (zlen (pes_scratch m)) in
          stage! m := reserve_preamble m prog_idx pts pid subtitle_packets from m in
          stage! m := drain_pes_scratch m pid AdaptationField_default from m in
          stage! m := count_push m pid (zlen payload) from m in
          (Ok tt, m)
      end
  end.

Inductive VideoInputForm : Type := Elementary | Wire.

Definition is_av1 (c : VideoCodec) : bool := match c with MuxTypes.Av1 => true | _ => false end.

(** The bytes that go behind the PES header: Annex-B input is validated, AV1 in
    binding carriage is wrapped, wire-form input passes through. *)
Definition video_payload (carriage : Av1CarriageMode) (codec : VideoCodec) (form : VideoInputForm) (nal : list Z)
    : res MuxError (list Z) :=
  let elementary := match form with Elementary => true | Wire => false end in
  let! _ := (if elementary && negb (is_av1 codec)
             then map_err (fun _ => InvalidNal) (AnnexB.validate_annex_b nal) else Ok tt) in
  let av1_binding := is_av1 codec && bool_decide (carriage = Mpeg2TsBinding) in
  if av1_binding && elementary then
    let! (v, fully_consumed) := Av1.wrap_av1_obus_binding nal [] in
    if negb (bool_decide (nal = [])) && negb fully_consumed then Err InvalidAv1Obu else Ok v
  else Ok nal.

(** The first packet's adaptation field: random access on key frames, PCR on the
    PCR PID when due or on a key frame. *)
Definition video_first_af {E} (m : Muxer) (prog_idx pts pid : Z) (key_frame : bool)
    : res E (AdaptationField * Muxer) :=
  let! slot := idx (slots m) prog_idx in
  let! carry := (if pcr_pid slot =? pid
                 then let! due := pcr_due m prog_idx pts in Ok (due || key_frame) else Ok false) in
  if (carry : bool) then
    let! p := from_pts pts in
    let! m := update_slot m prog_idx (fun s => set_pcr_last s (Some p)) in
    Ok ({| random_access := key_frame; pcr := Some p |}, m)
  else Ok ({| random_access := key_frame; pcr := None |}, m).

Definition push_video_to_internal (m : Muxer) (handle : Z) (nal : list Z) (pts_field : PesPtsField)
    (pacing_pts : Z) (key_frame : bool) (form : VideoInputForm) : step :=
  let (prog_idx, within_idx) := unpack handle in
  match lookup_stream (slots m) video prog_idx within_idx with
  | None => (Err (InvalidStreamHandle KindVideo handle), m)
  | Some v =>
      let pid := MuxState.video_pid v in
      let codec := video_codec v in
      let av1_binding := is_av1 codec && bool_decide (av1_carriage (config m) = Mpeg2TsBinding) in
      let stream_id := if av1_binding then STREAM_ID_PRIVATE_STREAM_1 else STREAM_ID_VIDEO in
      compute! payload_bytes := video_payload (av1_carriage (config m)) codec form nal from m in
      compute! header := append_header [] stream_id pts_field None
        {| data_alignment_indicator := is_av1 codec |} from m in
      let m := set_scratch m (header ++ payload_bytes) in
      let video_packets := ts_packets_for (zlen (pes_scratch m)) in
      stage! m := reserve_preamble m prog_idx pacing_pts pid video_packets from m in
      compute! (first_af, m) := video_first_af m prog_idx pacing_pts pid key_frame from m in
      stage! m := drain_pes_scratch m pid first_af from m in
      stage! m := count_push m pid (zlen nal) from m in
      compute! nals_count := Av1.count_nal_units nal codec from m in
      (Ok tt, bump_codec m (fun c => add_video c nals_count (b2z key_frame)) CodecVideo pid)
  end.

Definition push_video_to (m : Muxer) (handle : Z) (nal : list Z) (pts : Z) (key_frame : bool) : step :=
  push_video_to_internal m handle nal (PtsOnly pts) pts key_frame Elementary.
Definition push_video_to_with_dts (m : Muxer) (handle : Z) (nal : list Z) (pts dts : Z) (key_frame : bool) : step :=
  push_video_to_internal m handle nal (PtsAndDts pts dts) pts key_frame Elementary.
Definition push_video_wire_to (m : Muxer) (handle : Z) (wire : list Z) (pts : Z) (key_frame : bool) : step :=
  push_video_to_internal m handle wire (PtsOnly pts) pts key_frame Wire.
Definition push_video_wire_to_with_dts (m : Muxer) (handle : Z) (wire : list Z) (pts dts : Z) (key_frame : bool) : step :=
  push_video_to_internal m handle wire (PtsAndDts pts dts) pts key_frame Wire.

(** The single-stream shorthands. *)
Definition push_data (m : Muxer) (bytes_ : list Z) (pts : Z) : step :=
  compute! h := resolve_lone (slots m) data NoDataStreamsConfigured KindData from m in push_data_to m h bytes_ pts.
Definition push_audio (m : Muxer) (frames : list Z) (pts : Z) : step :=
  compute! h := resolve_lone (slots m) audio NoAudioStreamsConfigured KindAudio from m in push_audio_to m h pts frames.
Definition push_klv (m : Muxer) (bytes_ : list Z) (pts metadata_service_id : Z) : step :=
  compute! h := resolve_lone (slots m) klv NoKlvStreamsConfigured KindKlv from m in
  push_klv_to m h bytes_ pts metadata_service_id.
Definition push_subtitle (m : Muxer) (pts : Z) (payload : list Z) : step :=
  compute! h := resolve_lone (slots m) subtitle NoSubtitleStreamsConfigured KindSubtitle from m in
  push_subtitle_to m h pts payload.
Definition push_video (m : Muxer) (nal : list Z) (pts : Z) (key_frame : bool) : step :=
  let total_video := live_stream_count (slots m) video in
  if negb (total_video =? 1) then (Err (AmbiguousTarget KindVideo total_video), m)
  else
    compute! (p, w) := locate_lone_stream (slots m) video from m in
    compute! h := pack p w from m in
    push_video_to m h nal pts key_frame.

End MuxPush.
