(* ===== verification/MuxerConfig.v ===== *)
(** Muxer configuration ([mpegts/mux/config.rs], [mux/state.rs],
    [mux/psi.rs]): the per-stream PMT descriptor cache with its automatic
    descriptors and their suppression, the size estimate of a PMT section, the
    PCR PID rule and [MuxerConfig::validate] with every refusal in source order. *)
From Stdlib Require Import ZArith Lia Bool String.
From stdpp Require Import base list list_numbers gmap.
From S2P Require Import Prelude Common PesWriter PsiParse PsiWriter Descriptors Muxer.

(** * Descriptors of a stream *)
Module MuxDescriptors.
Import Common PesWriter MuxTypes Descriptors.

(** [iter().find_map(f)] *)
Fixpoint find_map {A B} (f : A -> option B) (l : list A) : option B :=
  match l with
  | [] => None
  | x :: l => match f x with Some b => Some b | None => find_map f l end
  end.

Definition first_video_pid (prog : MuxerProgramConfig) : option Z := find_map video_pid (streams prog).
Definition first_audio_pid (prog : MuxerProgramConfig) : option Z := find_map audio_pid (streams prog).

Definition default_pcr_pid (prog : MuxerProgramConfig) : option Z :=
  match first_video_pid prog with Some p => Some p | None => first_audio_pid prog end.

Definition effective_pcr_pid (prog : MuxerProgramConfig) : option Z :=
  match MuxTypes.pcr_pid prog with Some p => Some p | None => default_pcr_pid prog end.

Definition resolve_pcr_pid {E} (prog : MuxerProgramConfig) : res E Z :=
  match effective_pcr_pid prog with Some p => Ok p | None => Panic end.

Definition has_descriptor_tag (descs : list (list Z)) (tag : Z) : bool :=
  existsb (fun d => match d with [] => false | t :: _ => t =? tag end) descs.

Definition metadata_descriptor_service_id (tlv : list Z) : option Z :=
  if bool_decide (get tlv 0 = Some 0x26) then
    get! body := get_range tlv 2 (zlen tlv) in
    get! app_format := get_range body 0 2 in
    let at_ := if bool_decide (app_format = [0xFF; 0xFF]) then 6 else 2 in
    get! format := get body at_ in
    let at_ := at_ + 1 in
    let at_ := if format =? 0xFF then at_ + 4 else at_ in
    get body at_
  else None.

Definition is_sync_klv (s : StreamSpec) : bool :=
  match s with SpecKlv _ SynchronousMetadata _ => true | _ => false end.

Definition declared_metadata_service_ids {E} (prog : MuxerProgramConfig) (stream_idx : Z) : res E (list Z) :=
  let! spec := idx (streams prog) stream_idx in
  if negb (is_sync_klv spec) then Ok []
  else
    let! caller := idx (stream_descriptors prog) stream_idx in
    if negb (has_descriptor_tag caller 0x26) then Ok [0]
    else Ok (omap metadata_descriptor_service_id caller).

Definition is_registration (fid tlv : list Z) : bool :=
  match tlv with
  | t :: _ :: a :: b :: c :: d :: _ => (t =? 0x05) && bool_decide ([a; b; c; d] = fid)
  | _ => false
  end.

Definition has_registration_fid (descs : list (list Z)) (fid : list Z) : bool := existsb (is_registration fid) descs.

Definition caller_has_recognized_subtitle_descriptor (caller_descs : list (list Z)) : bool :=
  existsb (fun tlv =>
    match tlv with
    | [] => false
    | tag :: _ =>
        (tag =? 0x59) || (tag =? 0x56) || (tag =? 0x46) || is_registration VTTC tlv || is_registration GA94 tlv
    end) caller_descs.

Definition SYNC_KLV_STD_BUFFER_UNITS : Z := 65.
Definition SYNC_KLV_STD_INPUT_LEAK_RATE : Z := 13109.

Definition KLVA_REGISTRATION_DESCRIPTOR : list Z := [0x05; 4] ++ PsiParse.KLVA.

(** The automatic descriptor of a subtitle codec. *)
Definition subtitle_auto {E} (codec : SubtitleCodec) : res E (list Z) :=
  match codec with
  | DvbSubtitling language subtitling_type composition_page_id ancillary_page_id =>
      subtitling_descriptor language subtitling_type composition_page_id ancillary_page_id
  | DvbTeletextCodec language teletext_type magazine_number page_number =>
      teletext_descriptor language teletext_type magazine_number page_number
  | Cea708Standalone => Ok format_identifier_ga94
  | WebVttInTs => Ok format_identifier_vttc
  end.

(** The automatic descriptors of one stream, each unless the caller supplied its
    equivalent. *)
Definition auto_descriptors {E} (spec : StreamSpec) (caller_descs : list (list Z)) : res E (list Z) :=
  match spec with
  | SpecKlv _ stream_type _ =>
      let klva := if has_descriptor_tag caller_descs 0x05 then [] else KLVA_REGISTRATION_DESCRIPTOR in
      let sync :=
        match stream_type with
        | SynchronousMetadata =>
            (if has_descriptor_tag caller_descs 0x26 then [] else metadata_klva 0) ++
            (if has_descriptor_tag caller_descs 0x27 then []
             else metadata_std SYNC_KLV_STD_INPUT_LEAK_RATE SYNC_KLV_STD_BUFFER_UNITS 0)
        | PrivateData => []
        end in
      Ok (klva ++ sync)
  | SpecVideo _ codec =>
      Ok (match codec with
          | Av1 => if has_registration_fid caller_descs AV01 then [] else format_identifier_av01
          | _ => []
          end)
  | SpecAudio _ codec language =>
      let! ac3 :=
        match codec with
        | Ac3 =>
            let reg := if has_registration_fid caller_descs AC_3 then [] else format_identifier_ac3 in
            if has_descriptor_tag caller_descs 0x81 then Ok reg
            else let! d := ac3_audio_stream_descriptor 7 8 50 0 0 13 true in Ok (reg ++ d)
        | _ => Ok []
        end in
      let lang :=
        match language with
        | Some lang => if has_descriptor_tag caller_descs 0x0A then [] else iso_639_language lang 0x00
        | None => []
        end in
      Ok (ac3 ++ lang)
  | SpecSubtitle _ codec =>
      if caller_has_recognized_subtitle_descriptor caller_descs then Ok [] else subtitle_auto codec
  | SpecData _ _ _ => Ok []
  end.

Definition is_av1_spec (spec : StreamSpec) : bool := match spec with SpecVideo _ Av1 => true | _ => false end.

(** The caller's descriptors, an AV01 registration of an AV1 stream first. *)
Definition caller_descriptors {E} (spec : StreamSpec) (caller_descs : list (list Z)) : res E (list Z) :=
  if is_av1_spec spec then
    match MuxHandles.position (is_registration AV01) caller_descs with
    | Some i =>
        let! first := idx caller_descs i in
        Ok (first ++ concat (ztake i caller_descs ++ zdrop (i + 1) caller_descs))
    | None => Ok (concat caller_descs)
    end
  else Ok (concat caller_descs).

Fixpoint descriptor_cache_from {E} (specs : list StreamSpec) (i : Z) (descs : list (list (list Z)))
    : res E (list (list Z)) :=
  match specs with
  | [] => Ok []
  | spec :: specs =>
      let! caller_descs := idx descs i in
      let! auto := auto_descriptors spec caller_descs in
      let! caller := caller_descriptors spec caller_descs in
      let! rest := descriptor_cache_from specs (i + 1) descs in
      Ok ((auto ++ caller) :: rest)
  end.

Definition build_pmt_descriptor_cache {E} (prog : MuxerProgramConfig) : res E (list (list Z)) :=
  descriptor_cache_from (streams prog) 0 (stream_descriptors prog).

Definition estimate_pmt_section_size {E} (prog : MuxerProgramConfig) : res E Z :=
  let! cache := build_pmt_descriptor_cache prog in
  let es_loop_size := foldr (fun d n => (5 + zlen d) + n) 0 cache in
  let program_info_len := foldr (fun d n => zlen d + n) 0 (program_descriptors prog) in
  Ok (3 + 9 + program_info_len + es_loop_size + 4).

End MuxDescriptors.

(** * Validation *)
Module MuxValidate.
Import Common PesWriter MuxTypes MuxState MuxDescriptors.
Local Open Scope string_scope.
Local Open Scope Z_scope.

Definition MAX_PROGRAMS : Z := 16.
Definition MAX_SUBTITLE_STREAMS_PER_PROGRAM : Z := 16.

Definition kind_of (spec : StreamSpec) : MuxStreamKind :=
  match spec with
  | SpecVideo _ _ => KindVideo
  | SpecKlv _ _ _ => KindKlv
  | SpecAudio _ _ _ => KindAudio
  | SpecSubtitle _ _ => KindSubtitle
  | SpecData _ _ _ => KindData
  end.

(** The counter of one kind after the counting loop. *)
Definition count_kind (k : MuxStreamKind) (specs : list StreamSpec) : Z :=
  foldr (fun s n => if bool_decide (kind_of s = k) then 1 + n else n) 0 specs.

Definition is_ascii_alphabetic (b : Z) : bool :=
  ((0x41 <=? b) && (b <=? 0x5A)) || ((0x61 <=? b) && (b <=? 0x7A)).

Definition validate_language_code (code : list Z) : res MuxError unit :=
  if forallb is_ascii_alphabetic code then Ok tt else Err (InvalidLanguageCode code).

Definition check_caps (prog : MuxerProgramConfig) : res MuxError unit :=
  let video_count := count_kind KindVideo (streams prog) in
  let klv_count := count_kind KindKlv (streams prog) in
  let audio_count := count_kind KindAudio (streams prog) in
  let subtitle_count := count_kind KindSubtitle (streams prog) in
  let data_count := count_kind KindData (streams prog) in
  check! throw_if (16 <? video_count) (TooManyVideoStreams video_count 16) in
  check! throw_if (16 <? klv_count) (TooManyKlvStreams klv_count 16) in
  check! throw_if (16 <? audio_count) (TooManyAudioStreams audio_count 16) in
  check! throw_if (MAX_SUBTITLE_STREAMS_PER_PROGRAM <? subtitle_count)
           (TooManySubtitleStreams subtitle_count MAX_SUBTITLE_STREAMS_PER_PROGRAM) in
  check! throw_if (16 <? data_count) (TooManyDataStreams data_count 16) in
  throw_if ((video_count =? 0) && (audio_count =? 0)) (NoPcrEligibleStream (program_number prog)).

Definition pid_message (spec : StreamSpec) : string :=
  match spec with
  | SpecVideo _ _ => "video pid must be in 0x0010..=0x1FFE"
  | SpecKlv _ _ _ => "klv pid must be in 0x0010..=0x1FFE"
  | SpecAudio _ _ _ => "audio pid must be in 0x0010..=0x1FFE"
  | SpecSubtitle _ _ => "subtitle pid must be in 0x0010..=0x1FFE"
  | SpecData _ _ _ => "data pid must be in 0x0010..=0x1FFE"
  end.

Definition check_stream (s : StreamSpec) : res MuxError unit :=
  check! throw_if (negb (is_user_pid (spec_pid s))) (InvalidConfig (pid_message s)) in
  throw_if (match s with SpecKlv _ SynchronousMetadata carries_pts => negb carries_pts | _ => false end)
    (InvalidConfig "klv stream_type=SynchronousMetadata requires carries_pts=true").

Definition is_klv_on (pid : Z) (s : StreamSpec) : bool := match s with SpecKlv p _ _ => p =? pid | _ => false end.

Definition check_pcr (prog : MuxerProgramConfig) : res MuxError unit :=
  check! throw_if (match MuxTypes.pcr_pid prog with
                   | Some pcr => negb (existsb (fun s => spec_pid s =? pcr) (streams prog))
                   | None => false
                   end)
           (InvalidConfig "pcr_pid must equal a configured stream PID in the same program") in
  match effective_pcr_pid prog with
  | Some pcr => throw_if (existsb (is_klv_on pcr) (streams prog)) (KlvPidUsedAsPcrPid pcr)
  | None => Ok tt
  end.

Definition check_subtitle (prog : MuxerProgramConfig) (s : StreamSpec) : res MuxError unit :=
  match s with
  | SpecSubtitle pid codec =>
      check! throw_if (bool_decide (MuxTypes.pcr_pid prog = Some pid)) (SubtitlePidUsedAsPcrPid pid) in
      match codec with
      | DvbSubtitling language _ _ _ => validate_language_code language
      | DvbTeletextCodec language teletext_type magazine_number _ =>
          check! validate_language_code language in
          check! throw_if (7 <? magazine_number) (InvalidTeletextField MagazineNumber magazine_number 7) in
          throw_if (0x1F <? teletext_type) (InvalidTeletextField TeletextType teletext_type 0x1F)
      | Cea708Standalone | WebVttInTs => Ok tt
      end
  | _ => Ok tt
  end.

Definition check_data_pcr (prog : MuxerProgramConfig) (s : StreamSpec) : res MuxError unit :=
  match s with
  | SpecData pid _ _ => throw_if (bool_decide (MuxTypes.pcr_pid prog = Some pid)) (DataPidUsedAsPcrPid pid)
  | _ => Ok tt
  end.

Definition check_tlv (si di : Z) (tlv : list Z) : res MuxError unit :=
  check! throw_if (zlen tlv <? 2)
           (MalformedDescriptor si di "descriptor TLV must be at least 2 bytes (tag + length)") in
  let! declared := idx tlv 1 in
  throw_if (negb (declared =? zlen tlv - 2)) (MalformedDescriptor si di "length byte does not match payload length").

Definition check_descriptors (prog : MuxerProgramConfig) : res MuxError unit :=
  check! throw_if (negb (zlen (stream_descriptors prog) =? zlen (streams prog)))
           (ConfigInvalid (StreamDescriptorCount (program_number prog) (zlen (streams prog))
                             (zlen (stream_descriptors prog)))) in
  check_each_i (fun si descs => check_each_i (fun di tlv => check_tlv si di tlv) 0 descs) 0 (stream_descriptors prog).

Definition raw_descriptor {E} (tlv : list Z) : res E PsiParse.RawDescriptor :=
  let! tag := idx tlv 0 in
  let! data := slice tlv 2 (zlen tlv) in
  Ok {| PsiParse.tag := tag; PsiParse.data := data |}.

Definition is_unknown (k : PmtClassify.StreamKind) : bool :=
  match k with PmtClassify.Unknown _ => true | _ => false end.

Definition check_data_kind (prog : MuxerProgramConfig) (i : Z) (spec : StreamSpec) : res MuxError unit :=
  match spec with
  | SpecData pid stream_type _ =>
      let! tlvs := idx (stream_descriptors prog) i in
      let! descs := MuxHandles.traverse raw_descriptor tlvs in
      let! kind := PmtClassify.classify_pmt_stream stream_type descs in
      throw_if (negb (is_unknown kind)) (ConfigInvalid (DataStreamClassifies pid stream_type kind))
  | _ => Ok tt
  end.

Definition check_pmt_size (prog : MuxerProgramConfig) : res MuxError unit :=
  let! pmt_size := estimate_pmt_section_size prog in
  throw_if (PsiWriter.MAX_PMT_SECTION_BYTES <? pmt_size) (PmtTooLargeConfig pmt_size PsiWriter.MAX_PMT_SECTION_BYTES).

(** The body of the loop over the programs. *)
Definition validate_program (prog : MuxerProgramConfig) : res MuxError unit :=
  check! throw_if (program_number prog =? 0)
           (InvalidConfig "program_number 0 is reserved for network information") in
  check! throw_if (negb (is_user_pid (pmt_pid prog))) (InvalidConfig "pmt_pid must be in 0x0010..=0x1FFE") in
  check! throw_if (match streams prog with [] => true | _ => false end) (EmptyProgram (program_number prog)) in
  check! check_caps prog in
  check! check_each check_stream (streams prog) in
  check! check_pairs (fun s1 s2 => throw_if (spec_pid s1 =? spec_pid s2)
           (InvalidConfig "stream PIDs within a program must be distinct")) (streams prog) in
  check! throw_if (existsb (fun s => spec_pid s =? pmt_pid prog) (streams prog))
           (PmtPidConflictsWithStream (pmt_pid prog) (program_number prog)) in
  check! check_pcr prog in
  check! check_each (check_subtitle prog) (streams prog) in
  check! check_each (check_data_pcr prog) (streams prog) in
  check! check_descriptors prog in
  check! check_each_i (check_data_kind prog) 0 (streams prog) in
  check_pmt_size prog.

(** The body of the loop over the pairs of programs. *)
Definition check_program_pair (p1 p2 : MuxerProgramConfig) : res MuxError unit :=
  check! throw_if (program_number p1 =? program_number p2) (DuplicateProgramNumber (program_number p1)) in
  check! throw_if (pmt_pid p1 =? pmt_pid p2)
           (DuplicatePmtPid (pmt_pid p1) (program_number p1) (program_number p2)) in
  check! check_each (fun s1 =>
           check! throw_if (pmt_pid p2 =? spec_pid s1)
                    (DuplicatePidAcrossPrograms (spec_pid s1) (program_number p1) (program_number p2)) in
           check_each (fun s2 => throw_if (spec_pid s1 =? spec_pid s2)
                    (DuplicatePidAcrossPrograms (spec_pid s1) (program_number p1) (program_number p2)))
             (streams p2)) (streams p1) in
  check_each (fun s2 => throw_if (pmt_pid p1 =? spec_pid s2)
    (DuplicatePidAcrossPrograms (spec_pid s2) (program_number p1) (program_number p2))) (streams p2).

(** The three nested loops of the service id check, over the list [declared]. *)
Fixpoint declare_ids (pid prog_number : Z) (ids : list Z) (declared : list (Z * Z * Z)) : res MuxError (list (Z * Z * Z)) :=
  match ids with
  | [] => Ok declared
  | id :: ids =>
      match List.find (fun d => d.1.1 =? id) declared with
      | Some (_, pid_a, prog_a) => Err (ConfigInvalid (DuplicateServiceId id pid_a prog_a pid prog_number))
      | None => declare_ids pid prog_number ids (declared ++ [(id, pid, prog_number)])
      end
  end.

Fixpoint declare_streams (prog : MuxerProgramConfig) (i : Z) (specs : list StreamSpec) (declared : list (Z * Z * Z))
    : res MuxError (list (Z * Z * Z)) :=
  match specs with
  | [] => Ok declared
  | stream :: specs =>
      let! ids := declared_metadata_service_ids prog i in
      let! declared := declare_ids (spec_pid stream) (program_number prog) ids declared in
      declare_streams prog (i + 1) specs declared
  end.

Fixpoint declare_programs (progs : list MuxerProgramConfig) (declared : list (Z * Z * Z))
    : res MuxError (list (Z * Z * Z)) :=
  match progs with
  | [] => Ok declared
  | prog :: progs =>
      let! declared := declare_streams prog 0 (streams prog) declared in
      declare_programs progs declared
  end.

Definition validate (c : MuxerConfig) : res MuxError unit :=
  check! throw_if (match programs c with [] => true | _ => false end)
           (InvalidConfig "at least one program is required") in
  check! throw_if (MAX_PROGRAMS <? zlen (programs c)) (TooManyPrograms (zlen (programs c)) MAX_PROGRAMS) in
  check! check_each validate_program (programs c) in
  check! check_pairs check_program_pair (programs c) in
  let! _ := declare_programs (programs c) [] in
  check! throw_if (negb ((1 <=? pcr_interval_ms c) && (pcr_interval_ms c <=? 100)))
           (InvalidConfig "pcr_interval_ms must be in 1..=100") in
  check! throw_if (psi_interval_ms c <? 10) (InvalidConfig "psi_interval_ms must be >= 10") in
  throw_if (buffer_packets c <? 10) (InvalidConfig "buffer_packets must be >= 10").

End MuxValidate.
