(* ===== verification/ConfigTheorems.v ===== *)
(** What [MuxerConfig::validate] accepts, stated without its control flow, and
    what the PMT of an accepted program tells a receiver. *)
From Stdlib Require Import ZArith Lia Bool String.
From stdpp Require Import base list list_numbers gmap.
From S2P Require Import Prelude Common TsPacket PesWriter PsiParse PsiWriter Descriptors Muxer MuxerConfig.

(** * Lists of pairwise disjoint blocks *)
Module Blocks.

(** Blocks without repetition and pairwise disjoint concatenate without repetition. *)
Lemma NoDup_blocks {A B} (f : A -> list B) l :
  NoDup (flat_map f l) <-> Forall (fun a => NoDup (f a)) l /\ ForallOrdPairs (fun a b => f a ## f b) l.
Proof.
  induction l as [|a l IH]; cbn [flat_map]; [split; [split; constructor|constructor]|].
  rewrite NoDup_app, IH, Forall_cons. split.
  - intros (Ha & Hd & Hf & Hp). split_and!; [done..|]. constructor; [|done].
    apply Forall_forall. intros b Hb x Hxa Hxb. apply (Hd x Hxa). apply list_elem_of_In, in_flat_map.
    exists b. split; by apply list_elem_of_In.
  - intros ((Ha & Hf) & Hp). inversion Hp as [|? ? Hd Hp']; subst. split_and!; [done| |done|done].
    intros x Hxa Hx. apply list_elem_of_In, in_flat_map in Hx as (b & Hb & Hxb). apply list_elem_of_In in Hb, Hxb.
    rewrite Forall_forall in Hd. by apply (Hd b Hb x).
Qed.

Lemma NoDup_pairs {A B} (f : A -> B) l : NoDup (map f l) <-> ForallOrdPairs (fun a b => f a <> f b) l.
Proof.
  induction l as [|a l IH]; cbn [map]; [split; constructor|]. rewrite NoDup_cons, IH. split.
  - intros [Hn Hp]. constructor; [|done]. apply Forall_forall. intros b Hb Heq. apply Hn. rewrite Heq.
    by apply list_elem_of_fmap_2.
  - intros Hp. inversion Hp as [|? ? Hd Hp']; subst. split; [|done]. intros (b & Heq & Hb)%list_elem_of_fmap.
    rewrite Forall_forall in Hd. by apply (Hd b).
Qed.

Lemma pairs_impl {A} (P Q : A -> A -> Prop) l : (forall x y, x ∈ l -> y ∈ l -> P x y -> Q x y) ->
  ForallOrdPairs P l -> ForallOrdPairs Q l.
Proof.
  intros H Hp. induction Hp as [|x l Hx _ IH]; constructor.
  - rewrite Forall_forall in Hx |- *. intros y Hy. apply H; [left|by right|auto].
  - apply IH. intros y z Hy Hz. apply H; by right.
Qed.

Lemma pairs_and {A} (P Q : A -> A -> Prop) l :
  ForallOrdPairs (fun x y => P x y /\ Q x y) l <-> ForallOrdPairs P l /\ ForallOrdPairs Q l.
Proof.
  split.
  - intros H. split; (eapply pairs_impl; [|exact H]); by intros ? ? _ _ [].
  - intros [HP HQ]. induction HP as [|x l Hx HP IH]; [constructor|]. inversion HQ; subst. constructor.
    + by apply Forall_and.
    + by apply IH.
Qed.

End Blocks.

(** * The configurations that are valid *)
Module ValidConfig.
Import Common PesWriter PsiParse PsiTheorems MuxTypes PsiWriter PmtRoundtrip PmtClassify MuxState MuxHandles MuxSchedule
  MuxDescriptors MuxValidate.

Definition stream_pids (p : MuxerProgramConfig) : list Z := map spec_pid (MuxTypes.streams p).

(** Every PID a program uses on the wire. *)
Definition program_pids (p : MuxerProgramConfig) : list Z := MuxTypes.pmt_pid p :: stream_pids p.

Definition carries_pcr (s : StreamSpec) : Prop :=
  match s with SpecVideo _ _ | SpecAudio _ _ _ => True | _ => False end.

Definition user_pid (p : Z) : Prop := 0x10 <= p <= 0x1FFE.

(** The field rules of one stream. *)
Definition stream_valid (s : StreamSpec) : Prop :=
  user_pid (spec_pid s) /\
  match s with
  | SpecKlv _ SynchronousMetadata carries_pts => carries_pts = true
  | SpecSubtitle _ (DvbSubtitling language _ _ _) => Forall (fun b => is_ascii_alphabetic b = true) language
  | SpecSubtitle _ (DvbTeletextCodec language teletext_type magazine_number _) =>
      Forall (fun b => is_ascii_alphabetic b = true) language /\ magazine_number <= 7 /\ teletext_type <= 0x1F
  | _ => True
  end.

(** A caller-supplied descriptor list and the descriptors a receiver reads from it. *)
Definition tlvs_of (tlvs : list (list Z)) (ds : list RawDescriptor) : Prop := tlvs = map encode_descriptor ds.

Record program_valid (p : MuxerProgramConfig) : Prop := {
  pv_number : MuxTypes.program_number p <> 0;
  pv_pmt : user_pid (MuxTypes.pmt_pid p);
  pv_caps : forall k, count_kind k (MuxTypes.streams p) <= 16;
  pv_source : exists s, s ∈ MuxTypes.streams p /\ carries_pcr s;
  pv_streams : Forall stream_valid (MuxTypes.streams p);
  pv_distinct : NoDup (program_pids p);
  pv_pcr : forall pcr, MuxTypes.pcr_pid p = Some pcr ->
    exists s, s ∈ MuxTypes.streams p /\ spec_pid s = pcr /\ carries_pcr s;
  pv_parallel : zlen (MuxTypes.stream_descriptors p) = zlen (MuxTypes.streams p);
  pv_tlvs : Forall (fun tlvs => exists ds, tlvs_of tlvs ds) (MuxTypes.stream_descriptors p);
  pv_data : forall i pid t c ds, MuxTypes.streams p !! i = Some (SpecData pid t c) ->
    MuxTypes.stream_descriptors p !! i = Some (map encode_descriptor ds) ->
    exists t', classify_pmt_stream (E:=Empty_set) t ds = Ok (Unknown t');
  pv_size : exists cache es, build_pmt_descriptor_cache (E:=Empty_set) p = Ok cache /\
    pmt_entries (E:=Empty_set) (MuxTypes.streams p) 0 cache = Ok es /\ pmt_size p es <= 183;
}.

(** The metadata service ids a program declares, in stream order. *)
Definition stream_service_ids (s : StreamSpec) (caller : list (list Z)) : list Z :=
  if is_sync_klv s then
    if has_descriptor_tag caller 0x26 then omap metadata_descriptor_service_id caller else [0]
  else [].

Definition service_ids (p : MuxerProgramConfig) : list Z :=
  concat (zip_with stream_service_ids (MuxTypes.streams p) (MuxTypes.stream_descriptors p)).

Record config_valid (c : MuxerConfig) : Prop := {
  cv_programs : 1 <= zlen (programs c) <= 16;
  cv_each : Forall program_valid (programs c);
  cv_numbers : NoDup (map MuxTypes.program_number (programs c));
  cv_pids : NoDup (flat_map program_pids (programs c));
  cv_services : NoDup (flat_map service_ids (programs c));
  cv_pcr_interval : 1 <= pcr_interval_ms c <= 100;
  cv_psi_interval : 10 <= psi_interval_ms c;
  cv_buffer : 10 <= buffer_packets c;
}.

(** ** One stream *)

Lemma is_user_pid_spec p : is_user_pid p = true <-> user_pid p.
Proof. unfold is_user_pid, user_pid. rewrite andb_true_iff, !Z.leb_le. done. Qed.

Lemma check_stream_ok s : check_stream s = Ok tt <->
  user_pid (spec_pid s) /\ match s with SpecKlv _ SynchronousMetadata c => c = true | _ => True end.
Proof.
  unfold check_stream. rewrite check_ok, !throw_if_ok, negb_false_iff, is_user_pid_spec.
  destruct s as [| ? [] []| | |]; cbn; naive_solver.
Qed.

Lemma language_ok code : validate_language_code code = Ok tt <-> Forall (fun b => is_ascii_alphabetic b = true) code.
Proof.
  unfold validate_language_code. rewrite Forall_forall. ifs.
  - rewrite forallb_forall in Hif. split; [|done]. intros _ b Hb. by apply Hif, list_elem_of_In.
  - split; [done|]. intros H. assert (forallb is_ascii_alphabetic code = true); [|congruence].
    apply forallb_forall. intros b Hb. by apply H, list_elem_of_In.
Qed.

Definition not_pinned (p : MuxerProgramConfig) (s : StreamSpec) : Prop :=
  match s with
  | SpecSubtitle pid _ | SpecData pid _ _ => MuxTypes.pcr_pid p <> Some pid
  | _ => True
  end.

Lemma check_subtitle_ok p s : check_subtitle p s = Ok tt /\ check_data_pcr p s = Ok tt /\ check_stream s = Ok tt <->
  stream_valid s /\ not_pinned p s.
Proof.
  rewrite check_stream_ok. unfold stream_valid, check_subtitle, check_data_pcr, not_pinned.
  destruct s as [? ?|? [] ?|? ? ?|pid [lang ? ? ?|lang ttx mag ?| |]|pid ? ?];
    rewrite ?check_ok, ?language_ok, ?throw_if_ok, ?bool_decide_eq_false, ?Z.ltb_ge; cbn [spec_pid]; try naive_solver.
Qed.

Lemma check_tlv_ok si di tlv : check_tlv si di tlv = Ok tt <-> exists d, tlv = encode_descriptor d.
Proof.
  unfold check_tlv. rewrite check_ok, throw_if_ok, Z.ltb_ge. split.
  - intros [H2 H]. destruct tlv as [|t [|n body]]; [rewrite zlen_nil in H2; lia|rewrite zlen_cons, zlen_nil in H2; lia|].
    unfold idx in H. cbn [get Z.ltb Z.compare Z.to_nat Pos.to_nat lookup] in H. apply rbind_ok in H as (m & Hm & H).
    injection Hm as <-. rewrite throw_if_ok, negb_false_iff, Z.eqb_eq, !zlen_cons in H.
    exists (Build_RawDescriptor t body). unfold encode_descriptor; cbn. do 2 f_equal. lia.
  - intros [[t body] ->]. unfold encode_descriptor; cbn [PsiParse.tag PsiParse.data]. pose proof (zlen_nonneg body).
    rewrite !zlen_cons. split; [lia|]. unfold idx. change (get (t :: zlen body :: body) 1) with (Some (zlen body)). rb.
    rewrite throw_if_ok, negb_false_iff, Z.eqb_eq. lia.
Qed.

Lemma check_tlvs_ok si tlvs : check_each_i (fun di tlv => check_tlv si di tlv) 0 tlvs = Ok tt <-> exists ds, tlvs_of tlvs ds.
Proof.
  rewrite check_each_i_ok. unfold tlvs_of. split.
  - intros H. assert (Hf : Forall (fun tlv => exists d, tlv = encode_descriptor d) tlvs).
    { apply Forall_lookup. intros n tlv Hn. by apply (check_tlv_ok si (0 + Z.of_nat n)), H. }
    clear H. induction Hf as [|tlv tlvs (d & ->) _ (ds & ->)]; [by exists []|]. by exists (d :: ds).
  - intros (ds & ->) n tlv Hn. apply check_tlv_ok. apply list_lookup_fmap_Some in Hn as (d & -> & _). eauto.
Qed.

Lemma raw_of_tlv {E} d : raw_descriptor (E:=E) (encode_descriptor d) = Ok d.
Proof.
  destruct d as [t body]. unfold raw_descriptor, encode_descriptor; cbn [PsiParse.tag PsiParse.data].
  unfold idx. change (get (t :: zlen body :: body) 0) with (Some t). rb.
  by rewrite (slice_tail [t; zlen body] body (t :: zlen body :: body) 2).
Qed.

Lemma raws_of_tlvs {E} ds : traverse (raw_descriptor (E:=E)) (map encode_descriptor ds) = Ok ds.
Proof. induction ds as [|d ds IH]; [done|]. cbn [map traverse]. by rewrite raw_of_tlv, IH. Qed.

(** ** One program *)

Lemma count_kind_nonneg k l : 0 <= count_kind k l.
Proof. unfold count_kind. induction l as [|s l IH]; cbn; [lia|]. case_match; lia. Qed.

Lemma count_kind_zero k l : count_kind k l = 0 <-> forall s, s ∈ l -> kind_of s <> k.
Proof.
  induction l as [|s l IH]; [split; [by intros _ s ?%elem_of_nil|done]|].
  unfold count_kind in *; cbn [foldr]. pose proof (count_kind_nonneg k l) as Hn. unfold count_kind in Hn.
  case_bool_decide as Hk.
  - split; [lia|]. intros H. exfalso. apply (H s); [left|done].
  - rewrite IH. split.
    + intros H s' [->|Hs]%elem_of_cons; auto.
    + intros H s' Hs. apply H. by right.
Qed.

Lemma check_caps_ok p : check_caps p = Ok tt <->
  (forall k, count_kind k (MuxTypes.streams p) <= 16) /\ exists s, s ∈ MuxTypes.streams p /\ carries_pcr s.
Proof.
  unfold check_caps, MAX_SUBTITLE_STREAMS_PER_PROGRAM. rewrite !check_ok, !throw_if_ok, !Z.ltb_ge.
  set (l := MuxTypes.streams p).
  assert (Hsrc : (count_kind KindVideo l =? 0) && (count_kind KindAudio l =? 0) = false <-> exists s, s ∈ l /\ carries_pcr s).
  { split.
    - intros H. destruct (decide (Exists (fun s => kind_of s = KindVideo \/ kind_of s = KindAudio) l)) as [He|He].
      + apply Exists_exists in He as (s & Hs & Hk). exists s. split; [done|]. destruct s; cbn in *; naive_solver.
      + exfalso. apply not_true_iff_false in H. apply H. rewrite andb_true_iff, !Z.eqb_eq, !count_kind_zero.
        split; intros s Hs Hk; apply He, Exists_exists; exists s; auto.
    - intros (s & Hs & Hk). apply andb_false_iff. rewrite !Z.eqb_neq, !count_kind_zero.
      destruct s as [? ?|? ? ?|? ? ?|? ?|? ? ?]; try done; [left|right]; intros H; by apply (H _ Hs). }
  rewrite Hsrc. split.
  - intros (H1 & H2 & H3 & H4 & H5 & H6). split; [|done]. by intros [].
  - intros [Hc Hs]. by split_and!.
Qed.

Lemma pid_unique p s s' : NoDup (stream_pids p) -> s ∈ MuxTypes.streams p -> s' ∈ MuxTypes.streams p ->
  spec_pid s = spec_pid s' -> s = s'.
Proof.
  unfold stream_pids. induction (MuxTypes.streams p) as [|x l IH]; [by intros _ ?%elem_of_nil|].
  cbn [map]. rewrite NoDup_cons, !elem_of_cons. intros [Hn Hd] [->|Hs] [->|Hs'] Heq; try done.
  - destruct Hn. rewrite Heq. by apply list_elem_of_fmap_2.
  - destruct Hn. rewrite <- Heq. by apply list_elem_of_fmap_2.
  - by apply IH.
Qed.

Lemma distinct_ok p : check_pairs (fun s1 s2 => throw_if (spec_pid s1 =? spec_pid s2)
      (InvalidConfig "stream PIDs within a program must be distinct")) (MuxTypes.streams p) = Ok tt /\
    throw_if (existsb (fun s => spec_pid s =? MuxTypes.pmt_pid p) (MuxTypes.streams p))
      (PmtPidConflictsWithStream (MuxTypes.pmt_pid p) (MuxTypes.program_number p)) = Ok tt <->
  NoDup (program_pids p).
Proof.
  rewrite check_pairs_ok, throw_if_ok. unfold program_pids. rewrite NoDup_cons. unfold stream_pids at 2.
  rewrite Blocks.NoDup_pairs.
  assert (Hp : ForallOrdPairs (fun x y => throw_if (spec_pid x =? spec_pid y)
      (InvalidConfig "stream PIDs within a program must be distinct") = Ok tt) (MuxTypes.streams p) <->
    ForallOrdPairs (fun a b => spec_pid a <> spec_pid b) (MuxTypes.streams p))
    by (split; apply Blocks.pairs_impl; intros x y _ _; rewrite throw_if_ok, Z.eqb_neq; done).
  rewrite Hp, <- not_true_iff_false, existsb_exists. split.
  - intros [H1 H2]. split; [|done]. intros (s & Heq & Hs)%list_elem_of_fmap. apply H2. exists s. rewrite Z.eqb_eq, <- list_elem_of_In. done.
  - intros [H1 H2]. split; [done|]. intros (s & Hs & Heq). apply H1, list_elem_of_fmap. exists s.
    rewrite Z.eqb_eq in Heq. rewrite <- list_elem_of_In in Hs. done.
Qed.

(** The default PCR PID is a stream that can carry it. *)
Lemma find_map_some {A B} (f : A -> option B) l b : find_map f l = Some b -> exists a, a ∈ l /\ f a = Some b.
Proof.
  induction l as [|a l IH]; [done|]. cbn. destruct (f a) eqn:Hf; [intros [= <-]; exists a; split; [left|done]|].
  intros (a' & ? & ?)%IH. exists a'. split; [by right|done].
Qed.

Lemma default_carries p pcr : default_pcr_pid p = Some pcr ->
  exists s, s ∈ MuxTypes.streams p /\ spec_pid s = pcr /\ carries_pcr s.
Proof.
  unfold default_pcr_pid, first_video_pid, first_audio_pid.
  destruct (find_map MuxTypes.video_pid _) as [v|] eqn:Hv.
  - intros [= <-]. apply find_map_some in Hv as (s & Hs & Hf). exists s. split; [done|].
    destruct s; try discriminate Hf. by injection Hf as <-.
  - intros (s & Hs & Hf)%find_map_some. exists s. split; [done|]. destruct s; try discriminate Hf. by injection Hf as <-.
Qed.

Lemma find_map_none {A B} (f : A -> option B) l a : find_map f l = None -> a ∈ l -> f a = None.
Proof.
  induction l as [|x l IH]; [by intros _ ?%elem_of_nil|]. cbn. destruct (f x) eqn:Hf; [done|].
  intros H [->|Ha]%elem_of_cons; auto.
Qed.

Lemma default_exists p s : s ∈ MuxTypes.streams p -> carries_pcr s -> is_Some (default_pcr_pid p).
Proof.
  intros Hs Hc. unfold default_pcr_pid, first_video_pid, first_audio_pid.
  destruct (find_map MuxTypes.video_pid _) eqn:Hv; [by eexists|].
  destruct (find_map MuxTypes.audio_pid _) eqn:Ha; [by eexists|].
  pose proof (find_map_none _ _ _ Hv Hs). pose proof (find_map_none _ _ _ Ha Hs). by destruct s.
Qed.

Lemma no_klv_on p s : NoDup (stream_pids p) -> s ∈ MuxTypes.streams p -> carries_pcr s ->
  existsb (is_klv_on (spec_pid s)) (MuxTypes.streams p) = false.
Proof.
  intros Hn Hs Hc. apply not_true_iff_false. rewrite existsb_exists. intros (s' & Hs' & Hk).
  rewrite <- list_elem_of_In in Hs'. destruct s' as [|q t c| | |]; try done. cbn in Hk. apply Z.eqb_eq in Hk. subst.
  by rewrite (pid_unique p s (SpecKlv (spec_pid s) t c) Hn Hs Hs' eq_refl) in Hc.
Qed.

Lemma pcr_rule p : NoDup (stream_pids p) ->
  check_pcr p = Ok tt /\ Forall (not_pinned p) (MuxTypes.streams p) <->
  forall pcr, MuxTypes.pcr_pid p = Some pcr -> exists s, s ∈ MuxTypes.streams p /\ spec_pid s = pcr /\ carries_pcr s.
Proof.
  intros Hn. unfold check_pcr, effective_pcr_pid. rewrite check_ok, throw_if_ok, Forall_forall. split.
  - intros [[H1 H2] H3] pcr Hp. rewrite Hp in H1, H2. apply negb_false_iff, existsb_exists in H1 as (s & Hs & Heq).
    rewrite <- list_elem_of_In in Hs. apply Z.eqb_eq in Heq. exists s. split_and!; [done..|].
    pose proof (H3 s Hs) as Hpin. rewrite throw_if_ok in H2. destruct s as [| | | |]; cbn in Heq |- *; subst; try done;
      try (cbn in Hpin; by rewrite Hp in Hpin).
    apply not_true_iff_false in H2. apply H2, existsb_exists. eexists. rewrite <- list_elem_of_In. split; [exact Hs|].
    cbn. apply Z.eqb_refl.
  - intros H. destruct (MuxTypes.pcr_pid p) as [pcr|] eqn:Hp.
    + destruct (H pcr eq_refl) as (s & Hs & <- & Hc). split_and!.
      * apply negb_false_iff, existsb_exists. exists s. rewrite <- list_elem_of_In, Z.eqb_refl. done.
      * by rewrite throw_if_ok, (no_klv_on p s).
      * intros s' Hs'. destruct s' as [| | |q c|q t c]; cbn; try done; rewrite Hp; intros [= Heq];
          by rewrite (pid_unique p _ _ Hn Hs Hs' Heq) in Hc.
    + split_and!; [done| |].
      * destruct (default_pcr_pid p) as [pcr|] eqn:Hd; [|done]. destruct (default_carries p pcr Hd) as (s & Hs & <- & Hc).
        by rewrite throw_if_ok, (no_klv_on p s).
      * intros s' _. destruct s'; cbn; by rewrite ?Hp.
Qed.

(** ** The descriptor cache and the size of the PMT *)

Lemma position_get {A} (f : A -> bool) l i : position f l = Some i -> exists x, get l i = Some x /\ f x = true.
Proof.
  revert i. induction l as [|a l IH]; intros i; [done|]. cbn [position]. destruct (f a) eqn:Hf.
  - intros [= <-]. by exists a.
  - destruct (position f l) as [j|] eqn:Hj; [|done]. cbn. intros [= <-]. destruct (IH j eq_refl) as (x & Hg & Hx).
    exists x. rewrite get_cons_S by (apply get_Some in Hg; lia). done.
Qed.

Lemma subtitle_auto_ok codec : exists d, forall E, subtitle_auto (E:=E) codec = Ok d.
Proof. destruct codec; by eexists. Qed.

Lemma auto_ok spec caller : exists d, forall E, auto_descriptors (E:=E) spec caller = Ok d.
Proof.
  destruct spec as [pid codec|pid t c|pid codec lang|pid codec|pid t c]; cbn [auto_descriptors]; try by eexists.
  - destruct codec; try by eexists. rb. destruct (has_descriptor_tag caller 0x81); rb; by eexists.
  - destruct (caller_has_recognized_subtitle_descriptor caller); [by eexists|apply subtitle_auto_ok].
Qed.

Lemma caller_ok spec caller : exists d, forall E, caller_descriptors (E:=E) spec caller = Ok d.
Proof.
  unfold caller_descriptors. destruct (is_av1_spec spec); [|by eexists].
  destruct (position _ caller) as [i|] eqn:Hi; [|by eexists].
  destruct (position_get _ _ _ Hi) as (x & Hx & _). eexists. intros E.
  by rewrite (proj2 (idx_Ok caller i x) Hx).
Qed.

(** The cache entry of one stream. *)
Definition cached (spec : StreamSpec) (caller : list (list Z)) (d : list Z) : Prop :=
  exists a c, (forall E, auto_descriptors (E:=E) spec caller = Ok a) /\
              (forall E, caller_descriptors (E:=E) spec caller = Ok c) /\ d = a ++ c.

Lemma cache_from_ok specs : forall pre descs, length descs = length specs ->
  exists cache, (forall E, descriptor_cache_from (E:=E) specs (zlen pre) (pre ++ descs) = Ok cache) /\
    Forall2 (fun sc d => cached sc.1 sc.2 d) (zip specs descs) cache.
Proof.
  induction specs as [|s specs IH]; intros pre descs Hl.
  { exists []. split; [done|constructor]. }
  destruct descs as [|c descs]; [done|]. destruct (auto_ok s c) as (a & Ha). destruct (caller_ok s c) as (k & Hk).
  destruct (IH (pre ++ [c]) descs) as (cache & Hc & Hf); [by injection Hl|].
  exists ((a ++ k) :: cache). split; [|constructor; [by exists a, k|done]].
  intros E. cbn [descriptor_cache_from]. unfold idx. rewrite get_app_len. rb. rewrite Ha, Hk. rb.
  rewrite <- app_assoc, zlen_app in Hc. cbn in Hc. change (zlen [c]) with 1 in Hc. by rewrite Hc.
Qed.

Lemma cache_ok p : zlen (MuxTypes.stream_descriptors p) = zlen (MuxTypes.streams p) ->
  exists cache, (forall E, build_pmt_descriptor_cache (E:=E) p = Ok cache) /\
    Forall2 (fun sc d => cached sc.1 sc.2 d) (zip (MuxTypes.streams p) (MuxTypes.stream_descriptors p)) cache /\
    length cache = length (MuxTypes.streams p).
Proof.
  intros Hl. assert (length (MuxTypes.stream_descriptors p) = length (MuxTypes.streams p)) by (unfold zlen in Hl; lia).
  destruct (cache_from_ok (MuxTypes.streams p) [] (MuxTypes.stream_descriptors p)) as (cache & Hc & Hf); [done|].
  exists cache. split_and!; [done..|]. rewrite <- (Forall2_length _ _ _ Hf). apply length_zip_with_l_eq. lia.
Qed.

Definition pmt_entry (spec : StreamSpec) (d : list Z) : PmtStreamEntry :=
  {| entry_stream_type := pmt_stream_type_byte spec; entry_pid := spec_pid spec; entry_descriptors := d |}.

Lemma pmt_entries_from {E} specs : forall pre cache, length cache = length specs ->
  pmt_entries (E:=E) specs (zlen pre) (pre ++ cache) = Ok (zip_with pmt_entry specs cache).
Proof.
  induction specs as [|s specs IH]; intros pre cache Hl; [by destruct cache|].
  destruct cache as [|d cache]; [done|]. cbn [pmt_entries]. unfold idx. rewrite get_app_len. rb.
  specialize (IH (pre ++ [d]) cache). rewrite <- app_assoc, zlen_app in IH. change (zlen [d]) with 1 in IH.
  cbn in IH. rewrite IH by (by injection Hl). done.
Qed.

Lemma pmt_entries_zip {E} specs cache : length cache = length specs ->
  pmt_entries (E:=E) specs 0 cache = Ok (zip_with pmt_entry specs cache).
Proof. apply (pmt_entries_from specs []). Qed.

Lemma estimate_entries specs cache : length cache = length specs ->
  foldr (fun d n => 5 + zlen d + n) 0 cache = es_loop_size (zip_with pmt_entry specs cache).
Proof.
  revert cache. induction specs as [|s specs IH]; intros [|d cache] Hl; try done. cbn. rewrite IH by (by injection Hl). done.
Qed.

(** The estimator is the size the writer checks. *)
Lemma estimate_exact p cache : (forall E, build_pmt_descriptor_cache (E:=E) p = Ok cache) ->
  length cache = length (MuxTypes.streams p) ->
  forall E, estimate_pmt_section_size (E:=E) p = Ok (pmt_size p (zip_with pmt_entry (MuxTypes.streams p) cache)).
Proof.
  intros Hc Hl E. unfold estimate_pmt_section_size. rewrite Hc. rb. f_equal. unfold pmt_size.
  rewrite (estimate_entries _ _ Hl). pose proof (program_info_concat (MuxTypes.program_descriptors p)) as Hp.
  unfold program_info_size in Hp. rewrite Hp, es_loop_concat. lia.
Qed.

Lemma size_rule p : zlen (MuxTypes.stream_descriptors p) = zlen (MuxTypes.streams p) ->
  check_pmt_size p = Ok tt <->
  exists cache es, build_pmt_descriptor_cache (E:=Empty_set) p = Ok cache /\
    pmt_entries (E:=Empty_set) (MuxTypes.streams p) 0 cache = Ok es /\ pmt_size p es <= 183.
Proof.
  intros Hl. destruct (cache_ok p Hl) as (cache & Hc & _ & Hlen). unfold check_pmt_size, MAX_PMT_SECTION_BYTES.
  rewrite (estimate_exact p cache Hc Hlen). rb. rewrite throw_if_ok, Z.ltb_ge. split.
  - intros Hs. exists cache, (zip_with pmt_entry (MuxTypes.streams p) cache). by rewrite Hc, pmt_entries_zip.
  - intros (c & es & Hc' & He & Hs). rewrite Hc in Hc'. injection Hc' as <-. rewrite pmt_entries_zip in He by done.
    by injection He as <-.
Qed.

Lemma data_rule p : zlen (MuxTypes.stream_descriptors p) = zlen (MuxTypes.streams p) ->
  Forall (fun tlvs => exists ds, tlvs_of tlvs ds) (MuxTypes.stream_descriptors p) ->
  check_each_i (check_data_kind p) 0 (MuxTypes.streams p) = Ok tt <->
  forall i pid t c ds, MuxTypes.streams p !! i = Some (SpecData pid t c) ->
    MuxTypes.stream_descriptors p !! i = Some (map encode_descriptor ds) ->
    exists t', classify_pmt_stream (E:=Empty_set) t ds = Ok (Unknown t').
Proof.
  intros Hl Ht. rewrite check_each_i_ok.
  assert (Hk : forall i pid t c ds, MuxTypes.stream_descriptors p !! i = Some (map encode_descriptor ds) ->
    check_data_kind p (0 + Z.of_nat i) (SpecData pid t c) = Ok tt <->
    exists t', classify_pmt_stream (E:=Empty_set) t ds = Ok (Unknown t')).
  { intros i pid t c ds Hi. cbn [check_data_kind].
    assert (Hg : get (MuxTypes.stream_descriptors p) (0 + Z.of_nat i) = Some (map encode_descriptor ds)).
    { unfold get. rewrite (proj2 (Z.ltb_ge _ _)) by lia. by replace (Z.to_nat (0 + Z.of_nat i)) with i by lia. }
    unfold idx. rewrite Hg. rb. rewrite raws_of_tlvs. rb.
    destruct (DescriptorTheorems.classify_total t ds) as (k & Hkk). rewrite !Hkk. rb.
    rewrite throw_if_ok, negb_false_iff. destruct k; cbn; split; try done; try (by intros (? & [=])); eauto. }
  split.
  - intros H i pid t c ds Hi Hd. apply (Hk i pid t c ds Hd). by apply H.
  - intros H i s Hi. destruct s as [| | | |pid t c]; try done.
    destruct (MuxTypes.stream_descriptors p !! i) as [tlvs|] eqn:Hd.
    + rewrite Forall_lookup in Ht. destruct (Ht i tlvs Hd) as (ds & ->). apply (Hk i pid t c ds Hd). by apply (H i pid t c).
    + apply lookup_ge_None in Hd. apply lookup_lt_Some in Hi. unfold zlen in Hl. lia.
Qed.

Lemma descriptors_rule p : check_descriptors p = Ok tt <->
  zlen (MuxTypes.stream_descriptors p) = zlen (MuxTypes.streams p) /\
  Forall (fun tlvs => exists ds, tlvs_of tlvs ds) (MuxTypes.stream_descriptors p).
Proof.
  unfold check_descriptors. rewrite check_ok, throw_if_ok, negb_false_iff, Z.eqb_eq, check_each_i_ok, Forall_lookup.
  split; intros [H1 H2]; (split; [done|]); intros i tlvs Hi.
  - by apply (check_tlvs_ok (0 + Z.of_nat i)), H2.
  - apply check_tlvs_ok. by apply (H2 i).
Qed.

Lemma streams_rule p :
  check_each check_stream (MuxTypes.streams p) = Ok tt /\ check_each (check_subtitle p) (MuxTypes.streams p) = Ok tt /\
  check_each (check_data_pcr p) (MuxTypes.streams p) = Ok tt <->
  Forall stream_valid (MuxTypes.streams p) /\ Forall (not_pinned p) (MuxTypes.streams p).
Proof.
  rewrite !check_each_ok, !Forall_forall. split.
  - intros (H1 & H2 & H3). split; intros s Hs; apply (check_subtitle_ok p s); auto.
  - intros [H1 H2]. split_and!; intros s Hs; by apply (proj2 (check_subtitle_ok p s) (conj (H1 s Hs) (H2 s Hs))).
Qed.

Lemma validate_program_ok p : validate_program p = Ok tt <-> program_valid p.
Proof.
  unfold validate_program. rewrite !check_ok, !throw_if_ok, check_caps_ok, descriptors_rule, negb_false_iff, is_user_pid_spec,
    Z.eqb_neq. split.
  - intros (Hn & Hpmt & _ & (Hc & Hsrc) & Hs & Hd & Hx & Hpcr & Hsub & Hdp & (Hl & Ht) & Hk & Hz).
    assert (Hdist : NoDup (program_pids p)).
    { apply distinct_ok. split; [done|]. by rewrite throw_if_ok. }
    destruct (proj1 (streams_rule p)) as [Hv Hnp]; [done|]. pose proof Hdist as [_ Hsd]%NoDup_cons.
    split; try done; [by apply pcr_rule|by apply data_rule|by apply size_rule].
  - intros [Hn Hpmt Hc Hsrc Hv Hd Hpcr Hl Ht Hk Hz]. pose proof Hd as [_ Hsd]%NoDup_cons.
    apply (pcr_rule p Hsd) in Hpcr as [Hpcr Hnp]. destruct (proj2 (streams_rule p)) as (H1 & H2 & H3); [done|].
    apply distinct_ok in Hd as [Hd1 Hd2]. rewrite throw_if_ok in Hd2.
    split_and!; try done; [|by apply data_rule|by apply size_rule].
    destruct Hsrc as (s & Hs & _). by destruct (MuxTypes.streams p); [apply elem_of_nil in Hs|].
Qed.

(** ** Across programs *)

Lemma pair_rule p1 p2 : check_program_pair p1 p2 = Ok tt <->
  MuxTypes.program_number p1 <> MuxTypes.program_number p2 /\ program_pids p1 ## program_pids p2.
Proof.
  unfold check_program_pair. rewrite !check_ok, !throw_if_ok, !Z.eqb_neq, !check_each_ok, !Forall_forall.
  unfold program_pids, stream_pids. split.
  - intros (Hn & Hp & H1 & H2). split; [done|]. intros x [->|Hx]%elem_of_cons [Hy|Hy]%elem_of_cons; subst; try done.
    + apply list_elem_of_fmap in Hy as (s & Heq & Hs). specialize (H2 s Hs). rewrite throw_if_ok, Z.eqb_neq in H2. done.
    + apply list_elem_of_fmap in Hx as (s & Heq & Hs). specialize (H1 s Hs).
      rewrite check_ok, throw_if_ok, Z.eqb_neq in H1. by destruct H1.
    + apply list_elem_of_fmap in Hx as (s & -> & Hs). apply list_elem_of_fmap in Hy as (s' & Heq & Hs').
      specialize (H1 s Hs). rewrite check_ok, check_each_ok, Forall_forall in H1. destruct H1 as [_ H1].
      specialize (H1 s' Hs'). by rewrite throw_if_ok, Z.eqb_neq in H1.
  - intros [Hn Hd].
    assert (Hin : forall p s, s ∈ MuxTypes.streams p -> spec_pid s ∈ map spec_pid (MuxTypes.streams p))
      by (intros; by apply list_elem_of_fmap_2).
    split_and!; [done| | |].
    + intros Heq. apply (Hd (MuxTypes.pmt_pid p1)); [left|rewrite Heq; left].
    + intros s Hs. rewrite check_ok, throw_if_ok, Z.eqb_neq, check_each_ok, Forall_forall. split.
      * intros Heq. apply (Hd (spec_pid s)); [right; auto|rewrite <- Heq; left].
      * intros s' Hs'. rewrite throw_if_ok, Z.eqb_neq. intros Heq. apply (Hd (spec_pid s)); right; auto. rewrite Heq. auto.
    + intros s Hs. rewrite throw_if_ok, Z.eqb_neq. intros Heq.
      apply (Hd (MuxTypes.pmt_pid p1)); [left|rewrite Heq; right; auto].
Qed.

Definition ids_of (declared : list (Z * Z * Z)) : list Z := map (fun d => d.1.1) declared.

(** A step of the service id check that has seen [before] and adds [ids]. *)
Definition declares (m : res MuxError (list (Z * Z * Z))) (before ids : list Z) : Prop :=
  match m with
  | Ok d => NoDup (before ++ ids) /\ ids_of d = before ++ ids
  | Err _ => ~ NoDup (before ++ ids)
  | Panic => False
  end.

Lemma declares_ret d : NoDup (ids_of d) -> declares (Ok d) (ids_of d) [].
Proof. intros Hn. cbn. by rewrite app_nil_r. Qed.

Lemma declares_bind m k before ids1 ids2 : declares m before ids1 ->
  (forall d, NoDup (ids_of d) -> ids_of d = before ++ ids1 -> declares (k d) (before ++ ids1) ids2) ->
  declares (rbind m k) before (ids1 ++ ids2).
Proof.
  intros Hm Hk. destruct m as [d|e|]; cbn in *; [| |done].
  - destruct Hm as [Hn Hd]. specialize (Hk d). rewrite Hd in Hk. specialize (Hk Hn eq_refl).
    unfold declares in *. by rewrite <- app_assoc in Hk.
  - rewrite app_assoc, NoDup_app. naive_solver.
Qed.

Lemma declare_ids_ok pid n ids : forall declared, NoDup (ids_of declared) ->
  declares (declare_ids pid n ids declared) (ids_of declared) ids.
Proof.
  induction ids as [|id ids IH]; intros declared Hn; cbn [declare_ids]; [by apply declares_ret|].
  destruct (List.find _ declared) as [[[i p] q]|] eqn:Hf.
  - apply find_some in Hf as [Hin Heq]. apply Z.eqb_eq in Heq. cbn in Heq. subst. cbn.
    rewrite NoDup_app. intros (_ & Hd & _). apply (Hd id); [|left].
    apply list_elem_of_In, in_map_iff. by exists (id, p, q).
  - assert (Hid : id ∉ ids_of declared).
    { intros Hid. apply list_elem_of_In, in_map_iff in Hid as (d & Hd & Hin).
      pose proof (find_none _ _ Hf d Hin) as Hx. cbn in Hx. rewrite Hd, Z.eqb_refl in Hx. done. }
    specialize (IH (declared ++ [(id, pid, n)])). unfold ids_of in IH at 1 2. rewrite map_app in IH. cbn [map fst] in IH.
    fold (ids_of declared) in IH. unfold declares in *. rewrite <- (app_assoc (ids_of declared) [id] ids) in IH.
    apply IH. rewrite NoDup_app. split_and!; [done| |apply NoDup_singleton].
    intros x Hx ->%list_elem_of_singleton. done.
Qed.

Lemma declare_streams_ok p specs : forall pre pre' descs declared, MuxTypes.streams p = pre ++ specs ->
  MuxTypes.stream_descriptors p = pre' ++ descs -> length pre = length pre' -> length descs = length specs ->
  NoDup (ids_of declared) ->
  declares (declare_streams p (zlen pre) specs declared) (ids_of declared) (concat (zip_with stream_service_ids specs descs)).
Proof.
  induction specs as [|s specs IH]; intros pre pre' descs declared Hs Hd Hl Hl' Hn.
  { destruct descs; [|done]. by apply declares_ret. }
  destruct descs as [|c descs]; [done|]. cbn [declare_streams zip_with concat].
  assert (Hids : declared_metadata_service_ids (E:=MuxError) p (zlen pre) = Ok (stream_service_ids s c)).
  { unfold declared_metadata_service_ids, idx, stream_service_ids. rewrite Hs, Hd, get_app_len. rb.
    assert (zlen pre = zlen pre') as -> by (unfold zlen; lia). rewrite get_app_len.
    destruct (is_sync_klv s); [|done]. rb. by destruct (has_descriptor_tag c 0x26). }
  rewrite Hids. rb. apply declares_bind; [by apply declare_ids_ok|]. intros d Hnd Heq.
  replace (zlen pre + 1) with (zlen (pre ++ [s])) by zlia. rewrite <- Heq.
  apply (IH (pre ++ [s]) (pre' ++ [c])); [by rewrite <- app_assoc|by rewrite <- app_assoc| |by injection Hl'|done].
  rewrite !length_app. cbn. lia.
Qed.

Lemma declare_programs_ok progs : Forall program_valid progs -> forall declared, NoDup (ids_of declared) ->
  declares (declare_programs progs declared) (ids_of declared) (flat_map service_ids progs).
Proof.
  induction 1 as [|p progs Hp _ IH]; intros declared Hn; cbn [declare_programs flat_map]; [by apply declares_ret|].
  apply declares_bind.
  - pose proof (pv_parallel p Hp). apply (declare_streams_ok p (MuxTypes.streams p) [] []); try done. unfold zlen in *. lia.
  - intros d Hnd Heq. rewrite <- Heq. by apply IH.
Qed.

Lemma services_rule progs : Forall program_valid progs ->
  (exists d, declare_programs progs [] = Ok d) <-> NoDup (flat_map service_ids progs).
Proof.
  intros Hp. pose proof (declare_programs_ok progs Hp [] (NoDup_nil_2)) as Hd. cbn in Hd. split.
  - intros (d & Heq). rewrite Heq in Hd. by destruct Hd.
  - intros Hn. destruct (declare_programs progs []) as [d| |]; [eauto|by destruct Hd|done].
Qed.

(** ** The whole configuration *)

Lemma validate_ok c : validate c = Ok tt <-> config_valid c.
Proof.
  unfold validate, MAX_PROGRAMS. rewrite !check_ok, !throw_if_ok, check_each_ok, check_pairs_ok, Z.ltb_ge.
  assert (Hv : Forall (fun p => validate_program p = Ok tt) (programs c) <-> Forall program_valid (programs c))
    by (apply Forall_iff, validate_program_ok).
  assert (Hp : Forall program_valid (programs c) ->
    ForallOrdPairs (fun x y => check_program_pair x y = Ok tt) (programs c) <->
    NoDup (map MuxTypes.program_number (programs c)) /\ NoDup (flat_map program_pids (programs c))).
  { intros Hpv. rewrite Blocks.NoDup_pairs, Blocks.NoDup_blocks.
    transitivity (ForallOrdPairs (fun a b => MuxTypes.program_number a <> MuxTypes.program_number b /\
                                             program_pids a ## program_pids b) (programs c)).
    - split; apply Blocks.pairs_impl; intros x y _ _; by rewrite pair_rule.
    - rewrite Blocks.pairs_and. split; [|naive_solver]. intros [H1 H2]. split_and!; try done.
      eapply Forall_impl; [exact Hpv|]. apply pv_distinct. }
  assert (Hlast : forall k, (let! _ := declare_programs (programs c) [] in k) = Ok tt <->
    (exists d, declare_programs (programs c) [] = Ok d) /\ k = Ok tt) by (intros k; rewrite rbind_ok; naive_solver).
  rewrite Hlast, !check_ok, !throw_if_ok, negb_false_iff, andb_true_iff, !Z.leb_le, !Z.ltb_ge, Hv. split.
  - intros (Hne & H16 & Hpv & Hpairs & Hsv & Hi & Hj & Hb). apply (Hp Hpv) in Hpairs as [Hn Hd].
    apply (services_rule _ Hpv) in Hsv. split; try done. destruct (programs c); [done|]. zlia.
  - intros [H1 Hpv Hn Hd Hs Hi Hj Hb]. split_and!; try done; try lia; [|by apply Hp|by apply services_rule].
    destruct (programs c); [|done]. rewrite zlen_nil in H1. lia.
Qed.

Ltac checks := repeat match goal with
  | |- no_panic (throw_if _ _) => apply throw_no_panic
  | |- no_panic (Ok _) => apply no_panic_ok
  | |- no_panic (Err _) => apply no_panic_err
  | |- no_panic (rbind _ (fun _ : unit => _)) => apply check_no_panic; [|intros]
  | |- no_panic (check_each _ _) => apply check_each_no_panic, Forall_forall; intros
  | |- no_panic (check_pairs _ _) => apply check_pairs_no_panic; intros
  | |- no_panic (if _ then _ else _) => apply no_panic_if; intros
  end.

Lemma check_pcr_total p : no_panic (check_pcr p).
Proof. unfold check_pcr. checks. destruct (effective_pcr_pid p); checks. Qed.

Lemma check_subtitle_total p s : no_panic (check_subtitle p s) /\ no_panic (check_data_pcr p s).
Proof.
  unfold check_subtitle, check_data_pcr, validate_language_code.
  split; repeat case_match; checks.
Qed.

Lemma check_descriptors_total p : no_panic (check_descriptors p).
Proof.
  unfold check_descriptors. checks. apply check_each_i_no_panic. intros n tlvs _. apply check_each_i_no_panic.
  intros m tlv _. unfold check_tlv. apply check_no_panic; [checks|]. rewrite throw_if_ok, Z.ltb_ge. intros H2.
  apply no_panic_bind; [apply idx_no_panic; lia|]. intros. checks.
Qed.

Lemma check_data_total p : check_descriptors p = Ok tt -> no_panic (check_each_i (check_data_kind p) 0 (MuxTypes.streams p)).
Proof.
  intros [Hl Ht]%descriptors_rule. apply check_each_i_no_panic. intros n s Hs.
  destruct s as [| | | |pid t c]; try done. cbn [check_data_kind].
  destruct (lookup_lt_is_Some_2 (MuxTypes.stream_descriptors p) n) as [tlvs Htl];
    [apply lookup_lt_Some in Hs; unfold zlen in Hl; lia|].
  rewrite Forall_lookup in Ht. destruct (Ht n tlvs Htl) as (ds & ->).
  unfold idx, get. rewrite (proj2 (Z.ltb_ge _ _)) by lia. replace (Z.to_nat (0 + Z.of_nat n)) with n by lia.
  rewrite Htl. rb. rewrite raws_of_tlvs. rb. destruct (DescriptorTheorems.classify_total t ds) as (k & Hk).
  rewrite Hk. rb. checks.
Qed.

Lemma check_size_total p : check_descriptors p = Ok tt -> no_panic (check_pmt_size p).
Proof.
  intros [Hl Ht]%descriptors_rule. destruct (cache_ok p Hl) as (cache & Hc & _ & Hlen).
  unfold check_pmt_size. rewrite (estimate_exact p cache Hc Hlen). rb. checks.
Qed.

Lemma validate_program_total p : no_panic (validate_program p).
Proof.
  unfold validate_program, check_caps, check_stream. checks.
  - apply check_pcr_total.
  - apply check_subtitle_total.
  - apply check_subtitle_total.
  - apply check_descriptors_total.
  - by apply check_data_total.
  - by apply check_size_total.
Qed.

Lemma validate_total c : no_panic (validate c).
Proof.
  unfold validate. checks.
  - apply validate_program_total.
  - unfold check_program_pair. checks.
  - rename H1 into Hv. rewrite check_each_ok in Hv.
    assert (Hp : Forall program_valid (programs c)) by (eapply Forall_impl; [exact Hv|]; intros p; apply validate_program_ok).
    pose proof (declare_programs_ok (programs c) Hp [] NoDup_nil_2) as Hd.
    destruct (declare_programs (programs c) []); [|done|done]. cbn [rbind]. checks.
Qed.

End ValidConfig.

(** * What a receiver reads from the descriptor cache *)
Module Announced.
Import Common PesWriter PsiParse PsiTheorems MuxTypes PsiWriter PmtRoundtrip Descriptors DescriptorParse PmtClassify
  MuxHandles MuxDescriptors MuxValidate ValidConfig.

Definition audio_class (c : AudioCodec) : AudioClass :=
  match c with Mp2 => ClassMp2 | Aac => ClassAac | AacLatm => ClassAacLatm | Ac3 => ClassAc3 end.

Definition subtitle_class (c : SubtitleCodec) : DemuxSubtitleCodec :=
  match c with
  | DvbSubtitling _ _ _ _ => DemuxDvbSubtitling
  | DvbTeletextCodec _ _ _ _ => DemuxDvbTeletext
  | Cea708Standalone => DemuxCea708Standalone
  | WebVttInTs => DemuxWebVttInTs
  end.

(** The kind a receiver should see for a configured stream. *)
Definition configured_kind (s : StreamSpec) : StreamKind :=
  match s with
  | SpecVideo _ c => KVideo c
  | SpecAudio _ c _ => KAudio (audio_class c)
  | SpecSubtitle _ c => KSubtitle (subtitle_class c)
  | SpecKlv _ PrivateData _ => KlvAsync
  | SpecKlv _ SynchronousMetadata _ => KlvSync None
  | SpecData _ t _ => Unknown t
  end.

(** The caller's descriptors of a KLV or subtitle stream that name a format of
    their own. *)
Definition no_markers (ds : list RawDescriptor) : Prop :=
  Forall (fun d => tag d ∉ [0x05; 0x26; 0x46; 0x56; 0x59]) ds.

Definition undisputed (s : StreamSpec) (ds : list RawDescriptor) : Prop :=
  match s with
  | SpecKlv _ _ _ | SpecSubtitle _ _ => no_markers ds
  | SpecData _ t _ => exists t', classify_pmt_stream (E:=Empty_set) t ds = Ok (Unknown t')
  | _ => True
  end.

(** The machine types of the fields that end up in a descriptor. *)
Definition language_typed (l : list Z) : Prop := zlen l = 3 /\ bytes l.

Definition spec_typed (s : StreamSpec) : Prop :=
  match s with
  | SpecAudio _ _ (Some lang) => language_typed lang
  | SpecSubtitle _ (DvbSubtitling lang t _ _) => language_typed lang /\ byte t
  | SpecSubtitle _ (DvbTeletextCodec lang t _ page) => language_typed lang /\ 0 <= t /\ byte page
  | SpecData _ t _ => byte t
  | _ => True
  end.

(** ** Searches over encoded descriptors *)

Lemma encode_app ds ds' : encode_descriptors (ds ++ ds') = encode_descriptors ds ++ encode_descriptors ds'.
Proof. unfold encode_descriptors. by rewrite map_app, concat_app. Qed.

Lemma concat_tlvs ds : concat (map encode_descriptor ds) = encode_descriptors ds.
Proof. done. Qed.

Lemma tag_of_tlvs ds t : has_descriptor_tag (map encode_descriptor ds) t = find_descriptor_tag ds t.
Proof. unfold has_descriptor_tag, find_descriptor_tag. induction ds as [|d ds IH]; [done|]. cbn. by rewrite IH. Qed.

Lemma registration_of_tlv fid d : zlen fid = 4 -> is_registration fid (encode_descriptor d)
  = (tag d =? 0x05) && (4 <=? zlen (data d)) && bool_decide (take 4 (data d) = fid).
Proof.
  intros _. destruct d as [t [|a [|b [|c [|e body]]]]]; unfold encode_descriptor, is_registration; cbn [tag data];
    rewrite ?zlen_cons, ?zlen_nil; cbn [Z.leb]; rewrite ?andb_false_r; try done.
  rewrite (proj2 (Z.leb_le 4 _)) by zlia. by rewrite andb_true_r.
Qed.

Lemma fid_of_tlvs ds fid : zlen fid = 4 -> has_registration_fid (map encode_descriptor ds) fid = find_format_identifier ds fid.
Proof.
  intros Hf. unfold has_registration_fid, find_format_identifier. induction ds as [|d ds IH]; [done|].
  cbn [map existsb]. by rewrite IH, registration_of_tlv.
Qed.

Lemma subtitle_of_tlvs ds :
  caller_has_recognized_subtitle_descriptor (map encode_descriptor ds) = has_recognized_subtitle_descriptor ds.
Proof.
  unfold caller_has_recognized_subtitle_descriptor, has_recognized_subtitle_descriptor, find_descriptor_tag,
    find_format_identifier.
  induction ds as [|d ds IH]; [done|]. cbn [map existsb]. rewrite IH.
  rewrite <- (registration_of_tlv VTTC), <- (registration_of_tlv GA94) by done. cbn [encode_descriptor].
  unfold encode_descriptor. set (r := is_registration VTTC _). set (r' := is_registration GA94 _).
  repeat match goal with |- context [existsb ?f ds] => let x := fresh in generalize (existsb f ds); intros x end.
  destruct (tag d =? 0x59), (tag d =? 0x56), (tag d =? 0x46), r, r'; cbn; rewrite ?orb_true_r; try done;
    repeat match goal with b : bool |- _ => destruct b end; done.
Qed.

Lemma no_marker_tag ds t : no_markers ds -> t ∈ [0x05; 0x26; 0x46; 0x56; 0x59] -> find_descriptor_tag ds t = false.
Proof.
  intros Hn Ht. unfold find_descriptor_tag. induction Hn as [|d ds Hd _ IH]; [done|]. cbn. rewrite IH, orb_false_r.
  apply Z.eqb_neq. intros <-. done.
Qed.

Lemma no_marker_fid ds fid : no_markers ds -> find_format_identifier ds fid = false.
Proof.
  intros Hn. unfold find_format_identifier. induction Hn as [|d ds Hd _ IH]; [done|]. cbn. rewrite IH, orb_false_r.
  destruct (tag d =? 0x05) eqn:Ht; [|done]. apply Z.eqb_eq in Ht. destruct Hd. rewrite Ht. left.
Qed.

Lemma no_marker_find ds t : no_markers ds -> t ∈ [0x05; 0x26; 0x46; 0x56; 0x59] -> find_tag t ds = None.
Proof.
  intros Hn Ht. unfold find_tag. induction Hn as [|d ds Hd _ IH]; [done|]. cbn.
  destruct (tag d =? t) eqn:He; [|done]. apply Z.eqb_eq in He. by subst.
Qed.

Lemma no_marker_recognized ds : no_markers ds -> has_recognized_subtitle_descriptor ds = false.
Proof.
  intros Hn. unfold has_recognized_subtitle_descriptor.
  rewrite !(no_marker_tag ds), !(no_marker_fid ds) by (done || (vm_compute; repeat constructor)). done.
Qed.

(** ** The automatic descriptors as a receiver reads them *)

Definition raw (t : Z) (d : list Z) : RawDescriptor := {| tag := t; data := d |}.

Definition unless (b : bool) (d : RawDescriptor) : list RawDescriptor := if b then [] else [d].

Definition subtitle_raw (codec : SubtitleCodec) : RawDescriptor :=
  match codec with
  | DvbSubtitling lang t c a => raw 0x59 (lang ++ [t] ++ be16 c ++ be16 a)
  | DvbTeletextCodec lang t m p =>
      raw 0x56 (lang ++ [Z.lor (as_u8 (Z.shiftl (Z.land t 0x1F) 3)) (Z.land m 0x07); p])
  | Cea708Standalone => raw 0x05 GA94
  | WebVttInTs => raw 0x05 VTTC
  end.

Definition auto_list (s : StreamSpec) (ds : list RawDescriptor) : list RawDescriptor :=
  match s with
  | SpecKlv _ t _ =>
      unless (find_descriptor_tag ds 0x05) (raw 0x05 KLVA) ++
      match t with
      | SynchronousMetadata =>
          unless (find_descriptor_tag ds 0x26) (raw 0x26 [0x01; 0x00; 0xFF; 0x4B; 0x4C; 0x56; 0x41; 0; 0x0F]) ++
          unless (find_descriptor_tag ds 0x27) (raw 0x27 [0xC0; 0x33; 0x35; 0xC0; 0; 65; 0xC0; 0; 0])
      | PrivateData => []
      end
  | SpecVideo _ Av1 => unless (find_format_identifier ds AV01) (raw 0x05 AV01)
  | SpecVideo _ _ => []
  | SpecAudio _ codec language =>
      match codec with
      | Ac3 => unless (find_format_identifier ds AC_3) (raw 0x05 AC_3) ++
               unless (find_descriptor_tag ds 0x81) (raw 0x81 [0xE8; 0xC8; 0x1B])
      | _ => []
      end ++
      match language with
      | Some lang => unless (find_descriptor_tag ds 0x0A) (raw 0x0A (lang ++ [0]))
      | None => []
      end
  | SpecSubtitle _ codec => unless (has_recognized_subtitle_descriptor ds) (subtitle_raw codec)
  | SpecData _ _ _ => []
  end.

Lemma subtitle_auto_raw {E} codec : spec_typed (SpecSubtitle 0 codec) ->
  subtitle_auto (E:=E) codec = Ok (encode_descriptors [subtitle_raw codec]).
Proof.
  unfold encode_descriptors; cbn [map concat]; rewrite app_nil_r.
  destruct codec as [lang t c a|lang t m p| |]; cbn [spec_typed]; [intros [[Hl _] _]|intros [[Hl _] _]|done|done];
    destruct (DescriptorTheorems.three_bytes _ Hl) as (x & y & z & ->); done.
Qed.

Lemma auto_raw {E} s ds : spec_typed s ->
  auto_descriptors (E:=E) s (map encode_descriptor ds) = Ok (encode_descriptors (auto_list s ds)).
Proof.
  intros Ht. destruct s as [pid codec|pid t c|pid codec lang|pid codec|pid t c]; cbn [auto_descriptors auto_list].
  - destruct codec; try done. rewrite fid_of_tlvs by done. by destruct (find_format_identifier ds AV01).
  - rewrite !tag_of_tlvs. destruct t; destruct (find_descriptor_tag ds 0x05); try done;
      destruct (find_descriptor_tag ds 0x26), (find_descriptor_tag ds 0x27); done.
  - rewrite !tag_of_tlvs, fid_of_tlvs by done. rewrite encode_app.
    assert (Hlang : match lang with Some lang => if find_descriptor_tag ds 0x0A then [] else iso_639_language lang 0
        | None => [] end = encode_descriptors (match lang with
        | Some lang => unless (find_descriptor_tag ds 0x0A) (raw 0x0A (lang ++ [0])) | None => [] end)).
    { destruct lang as [lang|]; [|done]. destruct (find_descriptor_tag ds 0x0A); [done|]. destruct Ht as [Hl _].
      by destruct (DescriptorTheorems.three_bytes _ Hl) as (x & y & z & ->). }
    rewrite Hlang. destruct codec; try done.
    destruct (find_format_identifier ds AC_3), (find_descriptor_tag ds 0x81); done.
  - rewrite subtitle_of_tlvs. destruct (has_recognized_subtitle_descriptor ds); [done|]. by apply subtitle_auto_raw.
  - done.
Qed.

Lemma bytesb_ok l : forallb byteb l = true -> bytes l.
Proof. intros H. apply Forall_forall. intros x Hx. rewrite forallb_forall in H.
  specialize (H x (proj1 (list_elem_of_In _ _) Hx)). unfold byteb in H. unfold byte. b2p. lia. Qed.

Lemma const_ok t l : byteb t && forallb byteb l && (zlen l <? 256) = true -> descriptor_ok (raw t l).
Proof.
  intros H. b2p. repeat split; cbn; try done; [..|by apply bytesb_ok]; unfold byteb in *; b2p; lia.
Qed.

Lemma unless_ok b d : descriptor_ok d -> Forall descriptor_ok (unless b d).
Proof. destruct b; [constructor|]. intros. by constructor. Qed.

Lemma subtitle_raw_ok codec : spec_typed (SpecSubtitle 0 codec) -> descriptor_ok (subtitle_raw codec).
Proof.
  destruct codec as [lang t c a|lang t m p| |]; cbn [spec_typed subtitle_raw]; [| |intros _; by apply const_ok..].
  - intros [[Hl Hb] Ht]. destruct (DescriptorTheorems.three_bytes _ Hl) as (x & y & z & ->).
    unfold descriptor_ok; cbn [raw tag data]. split_and!; [unfold byte; lia| |unfold zlen; cbn; lia].
    apply bytes_app. split; [done|]. constructor; [done|]. apply bytes_app. auto with zl.
  - intros [[Hl Hb] [Ht Hp]]. destruct (DescriptorTheorems.three_bytes _ Hl) as (x & y & z & ->).
    unfold descriptor_ok; cbn [raw tag data]. split_and!; [unfold byte; lia| |unfold zlen; cbn; lia].
    apply bytes_app. split; [done|]. constructor; [|by constructor].
    rewrite land_31, land_7, shiftl_mul by lia. unfold as_u8. rewrite Z.mod_small by dlia.
    rewrite (lor_add 3) by dlia. unfold byte. dlia.
Qed.

Lemma auto_list_ok s ds : spec_typed s -> Forall descriptor_ok (auto_list s ds).
Proof.
  intros Ht. destruct s as [pid codec|pid t c|pid codec lang|pid codec|pid t c]; cbn [auto_list].
  - destruct codec; try done. apply unless_ok. by apply const_ok.
  - apply Forall_app. split; [apply unless_ok; by apply const_ok|]. destruct t; [done|].
    apply Forall_app. split; apply unless_ok; by apply const_ok.
  - apply Forall_app. split.
    + destruct codec; try done. apply Forall_app. split; apply unless_ok; by apply const_ok.
    + destruct lang as [lang|]; [|done]. apply unless_ok. destruct Ht as [Hl Hb].
      destruct (DescriptorTheorems.three_bytes _ Hl) as (x & y & z & ->).
      unfold descriptor_ok; cbn [raw tag data]. split_and!; [unfold byte; lia| |unfold zlen; cbn; lia].
      apply bytes_app. split; [done|]. by apply bytesb_ok.
  - apply unless_ok. by apply subtitle_raw_ok.
  - done.
Qed.

(** ** The caller's descriptors, an AV01 registration of an AV1 stream first *)

Definition is_av01 (d : RawDescriptor) : bool := is_registration AV01 (encode_descriptor d).

Definition caller_list (s : StreamSpec) (ds : list RawDescriptor) : list RawDescriptor :=
  if is_av1_spec s then
    match position is_av01 ds with
    | Some i => option_list (get ds i) ++ ztake i ds ++ zdrop (i + 1) ds
    | None => ds
    end
  else ds.

Lemma position_map {A B} (f : B -> bool) (g : A -> B) l : position f (map g l) = position (fun a => f (g a)) l.
Proof. induction l as [|a l IH]; [done|]. cbn. by rewrite IH. Qed.

Lemma get_map {A B} (g : A -> B) l i : get (map g l) i = g <$> get l i.
Proof. unfold get. ifs; [done|]. apply list_lookup_fmap. Qed.

Lemma caller_raw {E} s ds :
  caller_descriptors (E:=E) s (map encode_descriptor ds) = Ok (encode_descriptors (caller_list s ds)).
Proof.
  unfold caller_descriptors, caller_list. destruct (is_av1_spec s); [|done]. rewrite position_map.
  change (fun a => is_registration AV01 (encode_descriptor a)) with is_av01.
  destruct (position is_av01 ds) as [i|] eqn:Hi; [|done]. destruct (position_get _ _ _ Hi) as (d & Hd & _).
  unfold idx. rewrite get_map, Hd. cbn [fmap option_fmap option_map rbind]. cbn [option_list].
  rewrite encode_app, !encode_app. unfold ztake, zdrop. rewrite skipn_map, firstn_map, concat_app.
  unfold encode_descriptors. cbn [map concat]. by rewrite app_nil_r.
Qed.

Lemma caller_list_ok s ds : Forall descriptor_ok ds -> Forall descriptor_ok (caller_list s ds).
Proof.
  intros H. unfold caller_list. destruct (is_av1_spec s); [|done]. destruct (position is_av01 ds) as [i|] eqn:Hi; [|done].
  destruct (position_get _ _ _ Hi) as (d & Hd & _). rewrite Hd. apply Forall_app. split; [|apply Forall_app; split].
  - constructor; [|done]. rewrite Forall_forall in H. apply H. unfold get in Hd. destruct (i <? 0); [done|].
    by eapply list_elem_of_lookup_2.
  - by apply Forall_take.
  - by apply Forall_drop.
Qed.

Lemma is_av01_spec d : is_av01 d = (tag d =? 0x05) && (4 <=? zlen (data d)) && bool_decide (take 4 (data d) = AV01).
Proof. by apply registration_of_tlv. Qed.

(** The descriptors of an AV1 stream start with an AV01 registration. *)
Lemma av1_first pid ds : exists d rest, auto_list (SpecVideo pid Av1) ds ++ caller_list (SpecVideo pid Av1) ds = d :: rest /\
  is_av01 d = true.
Proof.
  cbn [auto_list]. unfold caller_list; cbn [is_av1_spec].
  destruct (find_format_identifier ds AV01) eqn:Hf; [|by eexists _, _].
  destruct (position is_av01 ds) as [i|] eqn:Hi.
  - destruct (position_get _ _ _ Hi) as (d & Hd & Hx). rewrite Hd. by eexists _, _.
  - exfalso. unfold find_format_identifier in Hf. apply existsb_exists in Hf as (d & Hin & Hd).
    rewrite <- is_av01_spec in Hd. clear -Hi Hin Hd. induction ds as [|x ds IH]; [done|]. cbn [position] in Hi.
    destruct (is_av01 x) eqn:Hx in Hi; [done|]. destruct Hin as [->|Hin]; [congruence|].
    destruct (position is_av01 ds); [done|]. by apply IH.
Qed.

Lemma find_fid_cons d ds fid : find_format_identifier (d :: ds) fid
  = (tag d =? 0x05) && (4 <=? zlen (data d)) && bool_decide (take 4 (data d) = fid) || find_format_identifier ds fid.
Proof. done. Qed.

Lemma find_tag_cons d ds t : find_descriptor_tag (d :: ds) t = (tag d =? t) || find_descriptor_tag ds t.
Proof. done. Qed.

Lemma klva_cons ds : has_klva_registration (raw 0x05 KLVA :: ds) = true.
Proof. done. Qed.

Ltac marker_tac := vm_compute; repeat constructor.

(** A private-data stream whose first descriptor is the automatic one and whose
    caller descriptors carry no marker. *)
Lemma classify_subtitle codec ds : no_markers ds -> spec_typed (SpecSubtitle 0 codec) ->
  classify_0x06 (subtitle_raw codec :: ds) = KSubtitle (subtitle_class codec).
Proof.
  intros Hn Ht. unfold classify_0x06. rewrite !find_fid_cons, !find_tag_cons.
  rewrite !(no_marker_fid ds), !(no_marker_tag ds) by (done || marker_tac).
  destruct codec as [lang t c a|lang t m p| |]; done.
Qed.

Lemma classify_klva ds : no_markers ds -> classify_0x06 (raw 0x05 KLVA :: ds) = KlvAsync.
Proof.
  intros Hn. unfold classify_0x06. rewrite !find_fid_cons, !find_tag_cons.
  rewrite !(no_marker_fid ds), !(no_marker_tag ds) by (done || marker_tac). by rewrite klva_cons.
Qed.

Lemma classify_sync {E} rest : classify_pmt_stream (E:=E) 0x15
  (raw 0x05 KLVA :: raw 0x26 [0x01; 0x00; 0xFF; 0x4B; 0x4C; 0x56; 0x41; 0; 0x0F] :: rest) = Ok (KlvSync None).
Proof. reflexivity. Qed.

(** The descriptors announced for a stream classify as the configured kind. *)
Lemma announced_kind s ds : spec_typed s -> undisputed s ds ->
  classify_pmt_stream (E:=Empty_set) (pmt_stream_type_byte s) (auto_list s ds ++ caller_list s ds) = Ok (configured_kind s).
Proof.
  intros Ht Hu. destruct s as [pid codec|pid t c|pid codec lang|pid codec|pid t c].
  - destruct codec; try reflexivity. destruct (av1_first pid ds) as (d & rest & -> & Hd).
    cbn [pmt_stream_type_byte video_stream_type_byte]. unfold classify_pmt_stream. cbn.
    unfold classify_0x06. rewrite find_fid_cons, <- is_av01_spec, Hd. done.
  - cbn [undisputed] in Hu. cbn [auto_list]. unfold caller_list; cbn [is_av1_spec].
    rewrite (no_marker_tag ds 0x05), (no_marker_tag ds 0x26) by (done || marker_tac).
    destruct t; cbn [unless app pmt_stream_type_byte klv_stream_type_byte].
    + change (StreamType_as_u8 KlvPrivate) with 0x06. cbn [classify_pmt_stream Z.eqb Pos.eqb]. by rewrite classify_klva.
    + apply classify_sync.
  - by destruct codec.
  - cbn [undisputed] in Hu. cbn [auto_list]. unfold caller_list; cbn [is_av1_spec]. rewrite no_marker_recognized by done.
    cbn [unless app pmt_stream_type_byte]. change (StreamType_as_u8 KlvPrivate) with 0x06.
    cbn [classify_pmt_stream Z.eqb Pos.eqb]. by rewrite classify_subtitle.
  - destruct Hu as (t' & Hk). cbn [auto_list app pmt_stream_type_byte configured_kind]. unfold caller_list; cbn [is_av1_spec].
    rewrite Hk. do 2 f_equal. revert Hk. unfold classify_pmt_stream, classify_0x06, classify_audio_stream_type.
    repeat match goal with |- context [if ?b then _ else _] => destruct b eqn:?; try discriminate end;
      cbn [rbind]; b2p; try (intros [= <-]; congruence); subst; try (destruct (extract_metadata_link ds)); done.
Qed.

End Announced.

(** * What validation guarantees *)
Module ConfigTheorems.
Import Common PesWriter PsiParse PsiTheorems TsWriter TsCounters TsLayout MuxTypes PsiWriter PmtRoundtrip PsiWriterTheorems
  PmtClassify MuxState MuxHandles MuxSchedule MuxDescriptors MuxValidate ValidConfig Announced.

(** C14: [MuxerConfig::validate] never panics and accepts exactly the
    configurations of the declarative rules: 1 to 16 programs, each with its
    field ranges, per-kind stream caps, a PCR carrier, a PCR pin that is a video
    or audio stream, well-formed caller descriptors, data streams that a
    receiver classifies as unknown, and a PMT section of at most 183 bytes as
    the PMT writer counts it; program numbers, all PIDs and all metadata service
    ids without repetition across programs; interval and buffer bounds. *)
Theorem validate_exact (c : MuxerConfig) :
  no_panic (validate c) /\ (validate c = Ok tt <-> config_valid c).
Proof. split; [apply validate_total|apply validate_ok]. Qed.

(** The machine types of a program's fields. *)
Record program_typed (p : MuxerProgramConfig) : Prop := {
  pt_number : 0 <= MuxTypes.program_number p <= 65535;
  pt_streams : Forall spec_typed (MuxTypes.streams p);
  pt_descriptors : Forall (Forall bytes) (MuxTypes.stream_descriptors p);
}.

Definition plain (s : StreamSpec) (ds : list RawDescriptor) : Prop :=
  match s with SpecKlv _ _ _ | SpecSubtitle _ _ => no_markers ds | _ => True end.

Lemma tlv_typed d : bytes (encode_descriptor d) -> descriptor_ok d.
Proof. unfold encode_descriptor. intros H. bytes_inv. unfold descriptor_ok, byte in *. split_and!; try done; lia. Qed.

Lemma resolve_ok p : program_valid p -> exists pcr, (forall E, resolve_pcr_pid (E:=E) p = Ok pcr) /\ user_pid pcr /\
  exists s, s ∈ MuxTypes.streams p /\ spec_pid s = pcr /\ carries_pcr s.
Proof.
  intros Hv. unfold resolve_pcr_pid, effective_pcr_pid.
  assert (Hs : exists pcr, match MuxTypes.pcr_pid p with Some q => Some q | None => default_pcr_pid p end = Some pcr /\
    exists s, s ∈ MuxTypes.streams p /\ spec_pid s = pcr /\ carries_pcr s).
  { destruct (MuxTypes.pcr_pid p) as [q|] eqn:Hq; [exists q; split; [done|]; by apply (pv_pcr p Hv)|].
    destruct (pv_source p Hv) as (s & Hs & Hc). destruct (default_exists p s Hs Hc) as [q Hd]. exists q.
    split; [done|]. by apply default_carries. }
  destruct Hs as (pcr & -> & s & Hs & Hp & Hc). exists pcr. split_and!; [done| |by exists s].
  pose proof (pv_streams p Hv) as Hf. rewrite Forall_forall in Hf. destruct (Hf s Hs) as [Hu _]. by rewrite Hp in Hu.
Qed.

(** The PMT stream a receiver reads for each configured stream. *)
Definition announced_stream (s : StreamSpec) (ds : list RawDescriptor) : PmtStream :=
  {| PsiParse.stream_type := pmt_stream_type_byte s; elementary_pid := spec_pid s;
     descriptors := auto_list s ds ++ caller_list s ds |}.

Lemma stream_type_byte s : spec_typed s -> byte (pmt_stream_type_byte s).
Proof. intros Ht. destruct s as [? []|? []|? []| |]; cbn in *; unfold byte in *; lia. Qed.

Lemma cached_entries specs : forall caller cache, Forall spec_typed specs -> length caller = length specs ->
  Forall2 (fun sc d => cached sc.1 sc.2 d) (zip specs (map (map encode_descriptor) caller)) cache ->
  zip_with pmt_entry specs cache = map entry_of (zip_with announced_stream specs caller).
Proof.
  induction specs as [|s specs IH]; intros caller cache Ht Hl Hf; [by destruct caller|].
  destruct caller as [|ds caller]; [done|]. cbn [map zip zip_with] in Hf.
  inversion Hf as [|? d ? cache' Hd Hf']; subst. inversion Ht; subst. cbn [zip_with map].
  rewrite (IH caller cache') by (done || by injection Hl). f_equal.
  destruct Hd as (a & c & Ha & Hc & ->). cbn [fst snd] in *.
  specialize (Ha Empty_set). specialize (Hc Empty_set). rewrite auto_raw in Ha by done. rewrite caller_raw in Hc.
  injection Ha as <-. injection Hc as <-. unfold pmt_entry, announced_stream, entry_of; cbn [PsiParse.stream_type elementary_pid descriptors]. by rewrite encode_app.
Qed.

Lemma announced_ok p caller : program_valid p -> program_typed p ->
  MuxTypes.stream_descriptors p = map (map encode_descriptor) caller ->
  Forall stream_ok (zip_with announced_stream (MuxTypes.streams p) caller).
Proof.
  intros Hv [_ Ht Hb] Hc. rewrite Hc in Hb.
  apply Forall_lookup. intros i x Hx. apply lookup_zip_with_Some in Hx as (s & ds & -> & Hs & Hds).
  rewrite Forall_lookup in Ht. pose proof (Ht i s Hs) as Hts.
  pose proof (pv_streams p Hv) as Hsv. rewrite Forall_lookup in Hsv. destruct (Hsv i s Hs) as [Hu _]. unfold user_pid in Hu.
  split; [by apply stream_type_byte|]. split; [cbn; lia|]. cbn [announced_stream descriptors]. apply Forall_app. split; [by apply auto_list_ok|].
  apply caller_list_ok. rewrite Forall_lookup in Hb.
  assert (Hl : map (map encode_descriptor) caller !! i = Some (map encode_descriptor ds)) by (rewrite list_lookup_fmap, Hds; done).
  specialize (Hb i _ Hl). apply Forall_forall. intros d Hd. apply tlv_typed. rewrite Forall_forall in Hb. apply Hb.
  by apply list_elem_of_fmap_2.
Qed.

(** C15: the PMT of a valid program fits one packet and tells a receiver what was
    configured: program number, PCR PID, program descriptors, and every stream in
    order with its PID and the kind it was configured as, which the receiver's
    classifier derives from the automatic and caller descriptors. This is for
    program descriptors that are encoded descriptors, which validation does not
    check, and for KLV and subtitle streams without format markers among the
    caller's descriptors; an AV1 stream keeps an AV01 registration first, and a
    data stream reads as unknown, whatever the caller added. *)
Theorem pmt_announces_program (p : MuxerProgramConfig) (pds : list RawDescriptor) (caller : list (list RawDescriptor))
    (version : Z) (c : ContinuityCounters) :
  program_valid p -> program_typed p -> counters_ok c -> 0 <= version ->
  MuxTypes.program_descriptors p = map encode_descriptor pds -> Forall descriptor_ok pds ->
  MuxTypes.stream_descriptors p = map (map encode_descriptor) caller -> Forall2 plain (MuxTypes.streams p) caller ->
  exists cache es pcr pkt c' section xs,
    build_pmt_descriptor_cache (E:=Empty_set) p = Ok cache /\
    pmt_entries (E:=Empty_set) (MuxTypes.streams p) 0 cache = Ok es /\
    resolve_pcr_pid (E:=Empty_set) p = Ok pcr /\
    write_pmt_packet blank_packet p pcr es version c = Ok (pkt, c') /\
    carries_section pkt (MuxTypes.pmt_pid p) c c' section /\
    parse_pmt section = Ok {| pmt_program_number := MuxTypes.program_number p; PsiParse.pmt_version := version mod 32;
                              pmt_current_next := true; PsiParse.pcr_pid := pcr;
                              PsiParse.program_descriptors := pds; PsiParse.streams := xs |} /\
    Forall2 (fun s x => elementary_pid x = spec_pid s /\
                        classify_pmt_stream (E:=Empty_set) (PsiParse.stream_type x) (descriptors x) = Ok (configured_kind s))
      (MuxTypes.streams p) xs.
Proof.
  intros Hv Ht Hc Hver Hpd Hpo Hsd Hpl. destruct (cache_ok p (pv_parallel p Hv)) as (cache & Hca & Hf & Hlen).
  destruct (resolve_ok p Hv) as (pcr & Hr & Hu & _).
  pose proof (Forall2_length _ _ _ Hpl) as Hlc. rewrite Hsd in Hf.
  pose proof (cached_entries _ _ _ (pt_streams p Ht) (eq_sym Hlc) Hf) as Hent.
  set (xs := zip_with announced_stream (MuxTypes.streams p) caller) in *.
  destruct (pv_size p Hv) as (cache' & es & Hb & He & Hz). rewrite Hca in Hb. injection Hb as <-.
  rewrite pmt_entries_zip in He by done. injection He as <-. rewrite Hent in Hz.
  assert (Hok : pmt_ok p pcr pds xs).
  { split; [apply Ht|unfold user_pid in Hu; lia|by rewrite Hpd|done|by apply announced_ok]. }
  destruct (pmt_packet_carried blank_packet p pcr pds xs version c) as (pkt & c' & section & Hw & Hcar & Hp);
    [done|done|done|pose proof (pv_pmt p Hv); unfold user_pid in *; lia|done|done|].
  exists cache, (map entry_of xs), pcr, pkt, c', section, xs. rewrite <- Hent at 1. rewrite Hca, pmt_entries_zip, Hr by done.
  split_and!; try done. apply Forall2_same_length_lookup. unfold xs. split; [symmetry; by apply length_zip_with_l_eq|].
  intros i s x Hs Hx. apply lookup_zip_with_Some in Hx as (s' & ds & -> & Hs' & Hds). simplify_eq. split; [done|].
  cbn [announced_stream PsiParse.stream_type descriptors]. apply announced_kind.
  - pose proof (pt_streams p Ht) as Hst. rewrite Forall_lookup in Hst. by apply (Hst i).
  - rewrite Forall2_lookup in Hpl. specialize (Hpl i). rewrite Hs, Hds in Hpl. inversion Hpl; subst.
    destruct s as [| | | |pid t k]; try done. cbn [undisputed]. apply (pv_data p Hv i pid t k ds Hs).
    by rewrite Hsd, list_lookup_fmap, Hds.
Qed.


(** A program with one stream of every kind. *)
Definition demo_program : MuxerProgramConfig :=
  {| MuxTypes.program_number := 1; MuxTypes.pmt_pid := 0x1000;
     MuxTypes.streams := [SpecVideo 0x100 VideoH264; SpecKlv 0x101 SynchronousMetadata true;
       SpecAudio 0x102 Ac3 (Some [0x65; 0x6E; 0x67]); SpecSubtitle 0x103 WebVttInTs; SpecData 0x104 0xF0 false];
     MuxTypes.pcr_pid := None; MuxTypes.program_descriptors := [];
     MuxTypes.stream_descriptors := [[]; []; []; []; [[0xFF; 1; 0x41]]] |}.

Lemma demo_program_valid : program_valid demo_program.
Proof. apply validate_program_ok. vm_compute. reflexivity. Qed.

Lemma demo_program_typed : program_typed demo_program.
Proof. split; [cbn; lia| |]; repeat constructor; cbn; unfold byte; lia. Qed.

Lemma pmt_announces_program_witness :
  exists pkt c' section pmt, carries_section pkt 0x1000 TsWriter.new c' section /\ parse_pmt section = Ok pmt /\
    PsiParse.pcr_pid pmt = 0x100 /\ length (PsiParse.streams pmt) = 5%nat.
Proof.
  destruct (pmt_announces_program demo_program [] [[]; []; []; []; [raw 0xFF [0x41]]] 0 TsWriter.new)
    as (cache & es & pcr & pkt & c' & section & xs & _ & _ & Hr & _ & Hcar & Hp & Hx);
    [apply demo_program_valid|apply demo_program_typed|apply new_ok|lia|done|constructor|done|
     repeat constructor|].
  exists pkt, c', section. eexists. split; [exact Hcar|]. split; [exact Hp|].
  injection Hr as <-. split; [done|]. apply Forall2_length in Hx. cbn in Hx |- *. by rewrite <- Hx.
Defined.

End ConfigTheorems.

(** * What validation does not look at *)
Module ProgramDescriptors.
Import Common MuxTypes PsiWriter PsiParse MuxState MuxSchedule MuxDescriptors MuxValidate.

Definition cut_descriptor_config : MuxerConfig :=
  {| programs := [{| MuxTypes.program_number := 1; MuxTypes.pmt_pid := 0x1000; MuxTypes.streams := [SpecVideo 0x100 VideoH264];
                     MuxTypes.pcr_pid := None; MuxTypes.program_descriptors := [[0x05]]; MuxTypes.stream_descriptors := [[]] |}];
     pcr_interval_ms := 40; psi_interval_ms := 100; buffer_packets := 1000; av1_carriage := Mpeg2TsBinding |}.

(** A program descriptor cut after its tag passes validation and makes a PMT that
    the receiver refuses. *)
Lemma cut_program_descriptor_accepted : validate cut_descriptor_config = Ok tt /\
  Forall (fun prog =>
    match write_pmt_packet blank_packet prog 0x100 [{| entry_stream_type := 0x1B; entry_pid := 0x100; entry_descriptors := [] |}] 0 TsWriter.new with
    | Ok (pkt, _) => parse_pmt (ztake 22 (zdrop 5 pkt)) = Err (DescriptorLoopOverflow 2 1)
    | _ => False
    end) (programs cut_descriptor_config).
Proof. split; [by vm_compute|]. constructor; [by vm_compute|constructor]. Qed.

End ProgramDescriptors.
