(* ===== verification/MuxerBuild.v ===== *)
(** Construction of a muxer ([mpegts/mux/slot.rs], [mux/state.rs],
    [Muxer::new] in [mux/mod.rs]): per-program slots with their per-kind stream
    states, the statistics entries and the initial tables. *)
From Stdlib Require Import ZArith Lia Bool String.
From stdpp Require Import base list list_numbers gmap.
From S2P Require Import Prelude Common TsPacket PesWriter PsiWriter Muxer MuxerConfig.

(** * Slots *)
Module MuxSlots.
Import Common PesWriter MuxTypes MuxState MuxDescriptors.

(** One filter per kind of [collect_stream_states]. *)
Definition video_state (s : StreamSpec) : option VideoStreamState :=
  match s with SpecVideo pid codec => Some {| video_pid := pid; video_codec := codec |} | _ => None end.
Definition klv_state (s : StreamSpec) : option KlvStreamState :=
  match s with
  | SpecKlv pid stream_type carries_pts =>
      Some {| klv_pid := pid; klv_stream_type := stream_type; klv_carries_pts := carries_pts |}
  | _ => None
  end.
Definition audio_state (s : StreamSpec) : option AudioStreamState :=
  match s with SpecAudio pid codec _ => Some {| audio_pid := pid; audio_codec := codec |} | _ => None end.
Definition subtitle_state (s : StreamSpec) : option SubtitleStreamState :=
  match s with SpecSubtitle pid codec => Some {| subtitle_pid := pid; subtitle_codec := codec |} | _ => None end.
Definition data_state (s : StreamSpec) : option DataStreamState :=
  match s with
  | SpecData pid stream_type carries_pts =>
      Some {| data_pid := pid; data_stream_type := stream_type; data_carries_pts := carries_pts |}
  | _ => None
  end.

Definition collect_stream_states (prog : MuxerProgramConfig)
    : list VideoStreamState * list KlvStreamState * list AudioStreamState * list SubtitleStreamState *
      list DataStreamState :=
  (omap video_state (streams prog), omap klv_state (streams prog), omap audio_state (streams prog),
   omap subtitle_state (streams prog), omap data_state (streams prog)).

Definition pmt_identity_key {E} (prog : MuxerProgramConfig) (pcr_pid : Z) (cache : list (list Z)) : res E (list Z) :=
  let program_descriptors := concat (program_descriptors prog) in
  assert! zlen (streams prog) =? zlen cache in
  Ok (be16 pcr_pid ++ be32 (zlen program_descriptors) ++ program_descriptors ++
      concat (zip_with (fun spec descriptors =>
        [pmt_stream_type_byte spec] ++ be16 (spec_pid spec) ++ be32 (zlen descriptors) ++ descriptors)
        (streams prog) cache)).

(** One turn of the loop over [kinds]: the PIDs of a kind with their indices. *)
Fixpoint place_pids (kind : MuxStreamKind) (within : Z) (pids : list Z) (placed : gmap Z (MuxStreamKind * Z))
    : gmap Z (MuxStreamKind * Z) :=
  match pids with
  | [] => placed
  | pid :: pids => place_pids kind (within + 1) pids (<[pid := (kind, within)]> placed)
  end.

Definition from_program {E} (prog : MuxerProgramConfig) : res E ProgramSlot :=
  let '(video, klv, audio, subtitle, data) := collect_stream_states prog in
  let! pcr_pid := resolve_pcr_pid prog in
  let! pmt_descriptor_cache := build_pmt_descriptor_cache prog in
  let placed_pids := place_pids KindVideo 0 (map video_pid video) ∅ in
  let placed_pids := place_pids KindKlv 0 (map klv_pid klv) placed_pids in
  let placed_pids := place_pids KindAudio 0 (map audio_pid audio) placed_pids in
  let placed_pids := place_pids KindSubtitle 0 (map subtitle_pid subtitle) placed_pids in
  let placed_pids := place_pids KindData 0 (map data_pid data) placed_pids in
  let! identity := pmt_identity_key prog pcr_pid pmt_descriptor_cache in
  Ok {| live := Some prog; video := map Some video; klv := map Some klv; audio := map Some audio;
        subtitle := map Some subtitle; data := map Some data; MuxState.pcr_pid := pcr_pid;
        MuxState.pmt_descriptor_cache := pmt_descriptor_cache; pmt_version := 0; pmt_identity := identity;
        psi_last := None; pcr_last := None; last_program_number := program_number prog; placed_pids := placed_pids |}.

Definition empty : ProgramSlot :=
  {| live := None; video := []; klv := []; audio := []; subtitle := []; data := []; MuxState.pcr_pid := 0;
     pmt_descriptor_cache := []; pmt_version := 0; pmt_identity := []; psi_last := None; pcr_last := None;
     last_program_number := 0; placed_pids := ∅ |}.

(** [mpegts::stats::subtitle_codec_label] *)
Definition subtitle_codec_label (codec : SubtitleCodec) : string :=
  match codec with
  | DvbSubtitling _ _ _ _ => "DVB-Subtitling"
  | DvbTeletextCodec _ _ _ _ => "DVB-Teletext"
  | Cea708Standalone => "CEA-708-Standalone"
  | WebVttInTs => "WebVTT-in-TS"
  end.

Definition fresh_stats (pid stream_type_byte program_number : Z) (label_ : option string) : StreamStats :=
  {| stat_pid := pid; stat_stream_type := from_byte stream_type_byte; stat_program_number := program_number;
     label := label_; items := 0; byte_count := 0; discontinuities := 0 |}.

(** One of the five loops of [initialize_stats] over the streams present. *)
Definition insert_stats {A} (pid_of : A -> Z) (entry : A -> StreamStats) (streams : list (option A))
    (into : gmap Z StreamStats) : gmap Z StreamStats :=
  foldl (fun into s => <[pid_of s := entry s]> into) into (omap id streams).

Definition initialize_stats (prog : MuxerProgramConfig) (video : list (option VideoStreamState))
    (klv : list (option KlvStreamState)) (audio : list (option AudioStreamState))
    (subtitle : list (option SubtitleStreamState)) (data : list (option DataStreamState))
    (into : gmap Z StreamStats) : gmap Z StreamStats :=
  let n := program_number prog in
  let into := insert_stats video_pid (fun v => fresh_stats (video_pid v) (video_stream_type_byte (video_codec v)) n None)
                video into in
  let into := insert_stats klv_pid (fun k => fresh_stats (klv_pid k) (klv_stream_type_byte (klv_stream_type k)) n None)
                klv into in
  let into := insert_stats audio_pid (fun a => fresh_stats (audio_pid a) (audio_stream_type_byte (audio_codec a)) n None)
                audio into in
  let into := insert_stats subtitle_pid (fun s => fresh_stats (subtitle_pid s) (StreamType_as_u8 KlvPrivate) n
                                                    (Some (subtitle_codec_label (subtitle_codec s)))) subtitle into in
  insert_stats data_pid (fun d => fresh_stats (data_pid d) (data_stream_type d) n None) data into.

End MuxSlots.

(** * [Muxer::new] *)
Module MuxNew.
Import Common PesWriter MuxTypes MuxState MuxDescriptors MuxValidate MuxSlots.

(** The loop over the programs. *)
Fixpoint build_slots {E} (progs : list MuxerProgramConfig) (per_stream : gmap Z StreamStats)
    : res E (list ProgramSlot * gmap Z StreamStats) :=
  match progs with
  | [] => Ok ([], per_stream)
  | prog :: progs =>
      let! slot := from_program prog in
      let per_stream := initialize_stats prog (video slot) (klv slot) (audio slot) (subtitle slot) (data slot) per_stream in
      let! (slots, per_stream) := build_slots progs per_stream in
      Ok (slot :: slots, per_stream)
  end.

Definition new (config : MuxerConfig) : res MuxError Muxer :=
  check! validate config in
  let! pcr_interval_27mhz := chk_u64 (pcr_interval_ms config * 27000) in
  let! psi_interval_90khz := chk_i64 (psi_interval_ms config * 90) in
  let! (slots, per_stream) := build_slots (programs config) ∅ in
  let live_programs := omap live slots in
  Ok {| MuxState.config := config; MuxState.slots := slots; program_order := seqZ 0 (zlen (programs config));
        MuxState.pcr_interval_27mhz := pcr_interval_27mhz; MuxState.psi_interval_90khz := psi_interval_90khz;
        queue := []; counters := TsWriter.new; pat_version := 0;
        pat_identity := map (fun p => (program_number p, pmt_pid p)) live_programs;
        pmt_versions_by_pid := foldl (fun m p => <[pmt_pid p := 0]> m) ∅ live_programs;
        ts_packets_emitted := 0; ts_bytes_emitted := 0; MuxState.per_stream := per_stream;
        stream_codec_counters := ∅; pes_scratch := [] |}.

End MuxNew.
