(* ===== verification/MuxerTheorems.v ===== *)
(** What the multiplexer guarantees: packetization loses nothing, every push
    fits the capacity it reserved, a failed push changes nothing a receiver can
    see, and what is pushed comes out of the receiver's packet parser and PES
    reassembler unchanged. *)
From Stdlib Require Import ZArith Lia Bool.
From stdpp Require Import base list list_numbers gmap.
From S2P Require Import Prelude Common TsPacket PesWriter PesDemux PsiParse PsiAssembly PsiWriter.
From S2P Require Import AnnexB AudioFrames AuCell Muxer.

(** * The packets of one PES *)
Module Packetize.
Import Common TsWriter TsParser TsCounters TsLayout MuxState MuxSchedule.

(** The packets of [bytes], the first with adaptation field [af] and counter
    [cc]; [n] bounds their number. *)
Fixpoint packetize (n : nat) (pid : Z) (first : bool) (af : AdaptationField) (bytes_ : list Z) (cc : Z)
    : list (list Z) :=
  match n with
  | O => []
  | S n =>
      match bytes_ with
      | [] => []
      | _ =>
          let a := if first then af else AdaptationField_default in
          layout pid first a bytes_ cc
          :: packetize n pid false af (zdrop (consumed a (zlen bytes_)) bytes_) ((cc + 1) mod 16)
      end
  end.

Lemma consumed_pos a n : 0 < n -> 0 < consumed a n.
Proof. intros Hn. pose proof (overhead_range a n). unfold consumed. lia. Qed.

(** Behind the first packet every packet is full but the last. *)
Lemma consumed_default n : 0 <= n -> consumed AdaptationField_default n = Z.min 184 n.
Proof. intros Hn. unfold consumed, overhead. cbn. destruct (n <? 184) eqn:?, (n =? 183) eqn:?; b2p; lia. Qed.

Lemma consumed_first a n : 0 <= n -> Z.min 176 n <= consumed a n.
Proof. intros Hn. pose proof (overhead_range a n Hn). unfold consumed. lia. Qed.

Lemma cc_of_advanced c c' pid : advanced c c' pid -> counters_ok c' /\ cc_of c' pid = (cc_of c pid + 1) mod 16.
Proof. intros (? & ? & _). done. Qed.

(** Only the counter of [pid] moves, by [n]. *)
Definition only_pid (pid n : Z) (c c' : ContinuityCounters) : Prop :=
  counters_ok c' /\ cc_of c' pid = (cc_of c pid + n) mod 16 /\
  forall q, 0 <= q < 8192 -> q <> pid -> cc_of c' q = cc_of c q.

Lemma drain_loop_ok {E} pid af fuel : forall scratch cursor first q c,
  0 <= pid <= 0x1FFF -> counters_ok c -> 0 <= cursor <= zlen scratch -> zlen scratch - cursor < Z.of_nat fuel ->
  exists c', drain_loop (E:=E) fuel scratch cursor first pid af q c
    = Ok (q ++ packetize fuel pid first af (zdrop cursor scratch) (cc_of c pid), c') /\
    only_pid pid (zlen (packetize fuel pid first af (zdrop cursor scratch) (cc_of c pid))) c c'.
Proof.
  induction fuel as [|fuel IH]; intros scratch cursor first q c Hpid Hc Hcur Hf; [lia|].
  cbn [drain_loop packetize]. destruct (cursor <? zlen scratch) eqn:Hlt; b2p; cycle 1.
  { rewrite zdrop_all by lia. exists c. rewrite app_nil_r. split; [done|]. split; [done|]. split; [|done].
    destruct (cc_of_range c pid Hc Hpid) as [_ Hr]. rewrite zlen_nil, Z.add_0_r. symmetry. by apply Z.mod_small. }
  rewrite slice_ok by lia. rb. rewrite ztake_all by (rewrite zlen_zdrop by lia; lia).
  assert (Hz : zlen (zdrop cursor scratch) = zlen scratch - cursor) by (by apply zlen_zdrop).
  set (a := if first then af else AdaptationField_default).
  destruct (write_packet_ok (E:=E) blank_packet pid first a (zdrop cursor scratch) c) as (c1 & -> & Ha);
    [done|done|done|]. rb. cbn [payload_consumed].
  apply cc_of_advanced in Ha as Hadv. destruct Hadv as [Hc1 Hcc].
  pose proof (consumed_pos a (zlen (zdrop cursor scratch)) ltac:(lia)).
  pose proof (consumed_range a (zlen (zdrop cursor scratch)) ltac:(lia)).
  destruct (IH scratch (cursor + consumed a (zlen (zdrop cursor scratch))) false
    (q ++ [layout pid first a (zdrop cursor scratch) (cc_of c pid)]) c1) as (c' & -> & Hc' & Hn & Hq); [done|done|lia|lia|].
  rewrite Hcc in *. rewrite <- zdrop_zdrop in * by lia.
  destruct (zdrop cursor scratch) as [|x l] eqn:Hzd; [change (zlen (@nil Z)) with 0 in Hz; lia|]. rewrite <- Hzd in *.
  exists c'. split; [|split; [done|split]].
  - rewrite <- app_assoc. done.
  - rewrite Hn, zlen_cons, Zplus_mod_idemp_l. f_equal. fold a. lia.
  - intros p Hp Hne. rewrite Hq by done. by apply Ha.
Qed.

(** The count is what [ts_packets_for] reserves, one packet of slack included. *)
Lemma packetize_rest_len pid af n : forall bytes_ cc,
  zlen (packetize n pid false af bytes_ cc) <= PesWriter.div_ceil (zlen bytes_) 184.
Proof.
  unfold PesWriter.div_ceil.
  induction n as [|n IH]; intros bytes_ cc; cbn [packetize]; pose proof (zlen_nonneg bytes_).
  { change (zlen (@nil (list Z))) with 0. apply Z.div_pos; lia. }
  destruct bytes_ as [|x l] eqn:Hb; rewrite <- Hb in *; [subst; done|].
  assert (0 < zlen bytes_) by (subst; rewrite zlen_cons; zlia).
  rewrite zlen_cons, consumed_default by lia.
  specialize (IH (zdrop (Z.min 184 (zlen bytes_)) bytes_) ((cc + 1) mod 16)).
  set (k := zlen (packetize _ _ _ _ _ _)) in *. clearbody k.
  rewrite zlen_zdrop in IH by lia. dlia.
Qed.

Lemma packetize_len pid af n bytes_ cc :
  zlen (packetize n pid true af bytes_ cc) <= ts_packets_for (zlen bytes_).
Proof.
  unfold ts_packets_for, PesWriter.div_ceil. destruct n as [|n]; cbn [packetize]; [change (zlen (@nil (list Z))) with 0; lia|].
  destruct bytes_ as [|x l] eqn:Hb; rewrite <- Hb in *; [change (zlen (@nil (list Z))) with 0; lia|].
  assert (0 < zlen bytes_) by (subst; rewrite zlen_cons; zlia).
  rewrite zlen_cons. pose proof (packetize_rest_len pid af n (zdrop (consumed af (zlen bytes_)) bytes_) ((cc + 1) mod 16)) as Hr.
  pose proof (consumed_range af (zlen bytes_)). pose proof (consumed_first af (zlen bytes_)).
  rewrite zlen_zdrop in Hr by lia. unfold PesWriter.div_ceil in Hr. dlia.
Qed.

Lemma packetize_188 pid af n : forall first bytes_ cc,
  Forall (fun p => zlen p = 188) (packetize n pid first af bytes_ cc).
Proof.
  induction n as [|n IH]; intros first bytes_ cc; cbn [packetize]; [constructor|].
  destruct bytes_; constructor; [apply layout_len|apply IH].
Qed.

(** Reading the packets back: one parse per packet, all on [pid]. *)
Record carries (pid : Z) (pkt : list Z) (q : TsPacket) : Prop := {
  carries_parse : parse_ts_packet pkt = Ok q;
  carries_pid : TsParser.pid q = pid;
  carries_payload : payload q <> [];
  carries_flag : has_payload q = true;
}.

(** Consecutive counter values from [cc]. *)
Fixpoint run_of (cc : Z) (n : nat) : list Z :=
  match n with O => [] | S n => cc :: run_of ((cc + 1) mod 16) n end.

Lemma packetize_parse pid af n : forall first bytes_ cc,
  0 <= pid <= 0x1FFF -> 0 <= cc < 16 -> zlen bytes_ <= Z.of_nat n ->
  exists qs, Forall2 (carries pid) (packetize n pid first af bytes_ cc) qs /\
    concat (map payload qs) = bytes_ /\
    map payload_unit_start qs = match bytes_ with [] => [] | _ => first :: map (fun _ => false) (tail qs) end /\
    map random_access_indicator qs
    = match bytes_ with [] => [] | _ => (if first then random_access af else false) :: map (fun _ => false) (tail qs) end /\
    Forall (fun q => zlen (raw q) = 188) qs /\
    map continuity_counter qs = run_of cc (length qs).
Proof.
  induction n as [|n IH]; intros first bytes_ cc Hpid Hcc Hn.
  { exists []. assert (bytes_ = []) as -> by (apply zlen_0; zlia). split_and!; by constructor. }
  cbn [packetize]. destruct bytes_ as [|x l] eqn:Hb; rewrite <- Hb in *.
  { exists []. split_and!; try by constructor. by subst. }
  assert (Hpos : 0 < zlen bytes_) by (subst; rewrite zlen_cons; zlia).
  set (a := if first then af else AdaptationField_default).
  pose proof (consumed_pos a (zlen bytes_) Hpos). pose proof (consumed_range a (zlen bytes_) ltac:(lia)).
  destruct (IH false (zdrop (consumed a (zlen bytes_)) bytes_) ((cc + 1) mod 16)) as (qs & Hf & Hcat & Hps & Hra & Hraw & Hcs);
    [done|apply Z.mod_pos_bound; lia|rewrite zlen_zdrop by lia; lia|].
  exists (expected pid first a bytes_ cc :: qs). cbn [map concat]. cbn [expected payload payload_unit_start random_access_indicator raw continuity_counter].
  split_and!.
  - constructor; [|done]. split; [apply parse_layout; [done|done|by subst]|done| |done].
    cbn [expected payload]. intros He. assert (Hz : zlen (ztake (consumed a (zlen bytes_)) bytes_) = 0) by (by rewrite He).
    rewrite zlen_ztake in Hz by lia. lia.
  - rewrite Hcat. apply ztake_zdrop.
  - cbn [tail]. f_equal. rewrite Hps. destruct (zdrop _ bytes_); [by destruct qs|]. by destruct qs.
  - cbn [tail]. subst a. f_equal; [by destruct first|]. rewrite Hra. destruct (zdrop _ bytes_); [by destruct qs|]. by destruct qs.
  - constructor; [apply layout_len|done].
  - cbn [length run_of]. by rewrite Hcs.
Qed.

End Packetize.

(** * A receiver of one elementary stream

    The packet parser and the PES reassembler composed the way the demuxer
    composes them for a subscribed PID: every packet is parsed, a packet on the
    PID with a payload goes to the reassembler with its unit-start and
    random-access flags. *)
Module Receiver.
Import Common TsParser PesParse Reassembler Chunks Packetize.

Fixpoint receive {E} (r : Reassembler) (pid : Z) (v : bool) (pkts : list (list Z))
    : res E (Reassembler * list ReassemblyOutcome) :=
  match pkts with
  | [] => Ok (r, [])
  | pkt :: pkts =>
      match parse_ts_packet pkt with
      | Err _ | Panic => Panic
      | Ok q =>
          let! (r, o) :=
            if (TsParser.pid q =? pid) && has_payload q
            then push r pid (TsParser.payload q) (payload_unit_start q) (TsParser.random_access_indicator q) v
            else Ok (r, []) in
          let! (r, os) := receive r pid v pkts in
          Ok (r, o ++ os)
      end
  end.

(** A packet another PID's receiver ignores. *)
Definition other (pid : Z) (pkt : list Z) : Prop :=
  exists q, parse_ts_packet pkt = Ok q /\ (TsParser.pid q <> pid \/ has_payload q = false).

Lemma receive_other {E} r pid v pkts rest : Forall (other pid) pkts ->
  receive (E:=E) r pid v (pkts ++ rest) = receive r pid v rest.
Proof.
  induction 1 as [|pkt pkts (q & Hq & Ho) _ IH]; [done|]. cbn [app receive]. rewrite Hq.
  replace ((TsParser.pid q =? pid) && has_payload q) with false.
  - rb. rewrite IH. by destruct (receive r pid v rest) as [[? ?]| |].
  - symmetry. destruct Ho as [Ho|Ho]; [by rewrite (proj2 (Z.eqb_neq _ _))|by rewrite Ho, andb_false_r].
Qed.

Lemma receive_cons {E} r pid v pkt q pkts : carries pid pkt q ->
  receive (E:=E) r pid v (pkt :: pkts)
  = (let! (r, o) := push r pid (TsParser.payload q) (payload_unit_start q) (TsParser.random_access_indicator q) v in
     let! (r, os) := receive r pid v pkts in Ok (r, o ++ os)).
Proof. intros [Hp Hid _ Hf]. cbn [receive]. by rewrite Hp, Hid, Hf, Z.eqb_refl. Qed.

Lemma receive_feed {E} pid v pkts qs : Forall2 (carries pid) pkts qs -> forall r,
  map payload_unit_start qs = map (fun _ => false) qs ->
  map TsParser.random_access_indicator qs = map (fun _ => false) qs ->
  receive (E:=E) r pid v pkts = feed r pid (map TsParser.payload qs) v.
Proof.
  induction 1 as [|pkt q pkts qs Hq _ IH]; intros r Hps Hra; [done|].
  cbn [map] in Hps, Hra. injection Hps as Hp Hps. injection Hra as Hr Hra.
  rewrite (receive_cons _ _ _ _ q) by done. cbn [map feed]. rewrite Hp, Hr.
  destruct (push r pid _ false false v) as [[r1 o]| |]; [rb|done|done]. by rewrite IH.
Qed.

Lemma receive_app {E} pid v a b : forall r,
  receive (E:=E) r pid v (a ++ b)
  = (let! (r1, o1) := receive r pid v a in let! (r2, o2) := receive r1 pid v b in Ok (r2, o1 ++ o2)).
Proof.
  induction a as [|pkt a IH]; intros r; cbn [app receive].
  { rb. by destruct (receive r pid v b) as [[]| |]. }
  destruct (parse_ts_packet pkt) as [q| |]; [|done..].
  destruct (if _ && _ then _ else _) as [[r1 o]| |]; [rb|done..]. rewrite IH.
  destruct (receive r1 pid v a) as [[r2 o2]| |]; [rb|done..].
  destruct (receive r2 pid v b) as [[r3 o3]| |]; [rb|done..]. by rewrite app_assoc.
Qed.

Lemma packetize_other pid q af n bytes_ cc :
  0 <= pid <= 0x1FFF -> 0 <= cc < 16 -> zlen bytes_ <= Z.of_nat n -> q <> pid ->
  Forall (other q) (packetize n pid true af bytes_ cc).
Proof.
  intros Hpid Hcc Hn Hq. destruct (packetize_parse pid af n true bytes_ cc) as (qs & Hf & _); [done..|].
  eapply Forall2_Forall_l; [exact Hf|]. apply Forall_true. intros t pkt [Hp Hid _ _]. exists t.
  split; [done|]. left. congruence.
Qed.

(** The packets of one PES are one unit start and its continuation. *)
Lemma receive_packetized {E} r pid v af n bytes_ cc :
  0 <= pid <= 0x1FFF -> 0 <= cc < 16 -> bytes_ <> [] -> zlen bytes_ <= Z.of_nat n ->
  exists first rest, receive (E:=E) r pid v (packetize n pid true af bytes_ cc)
    = feed_pes r pid first rest (TsWriter.random_access af) v /\
    first ++ concat rest = bytes_ /\ Forall (fun c => c <> []) rest.
Proof.
  intros Hpid Hcc Hne Hn.
  destruct (packetize_parse pid af n true bytes_ cc) as (qs & Hf & Hcat & Hps & Hra & _); [done|done|done|].
  destruct bytes_ as [|x l]; [done|]. inversion Hf as [Hp|pkt q pkts qs' Hq Hf' Hp]; subst qs.
  { done. }
  cbn [map tail] in Hps, Hra. injection Hps as H1 Hps. injection Hra as H2 Hra.
  exists (TsParser.payload q), (map TsParser.payload qs'). split_and!.
  - rewrite (receive_cons _ _ _ _ q) by done. rewrite H1, H2. unfold feed_pes.
    destruct (push r pid _ true _ v) as [[r1 o]| |]; [rb|done|done].
    by rewrite (receive_feed _ _ _ qs') by done.
  - done.
  - apply Forall_map. eapply Forall2_Forall_r; [exact Hf'|]. apply Forall_true. by intros ? ? [].
Qed.

End Receiver.

(** * The packet stream, item by item

    What a muxer puts on the wire: tables, clock packets and PES, each rendered
    with the continuity counters [f] of its PID. *)
Module Wire.
Import Common TsWriter TsParser TsCounters TsLayout PsiLayout Packetize Receiver.

Inductive item : Type :=
| Table (p : Z) (section : list Z)
| Clock (p pcr : Z)
| Unit (p : Z) (af : AdaptationField) (pes : list Z).

Definition pid_ok (p : Z) : Prop := 0 <= p <= 0x1FFF.

Definition item_pid (i : item) : Z := match i with Table p _ | Clock p _ | Unit p _ _ => p end.

Definition packets (f : Z -> Z) (i : item) : list (list Z) :=
  match i with
  | Table p section => [layout p true AdaptationField_default (psi_payload section) (f p)]
  | Clock p pcr => [pcr_only_layout p pcr ((f p - 1) mod 16)]
  | Unit p af pes => packetize (S (length pes)) p true af pes (f p)
  end.

(** The packets with a payload, which count. *)
Definition counted (f : Z -> Z) (i : item) : Z := match i with Clock _ _ => 0 | _ => zlen (packets f i) end.

Definition advance (f : Z -> Z) (i : item) : Z -> Z :=
  fun q => if q =? item_pid i then (f q + counted f i) mod 16 else f q.

Fixpoint render (f : Z -> Z) (l : list item) : list (list Z) :=
  match l with [] => [] | i :: l => packets f i ++ render (advance f i) l end.

Fixpoint after (f : Z -> Z) (l : list item) : Z -> Z :=
  match l with [] => f | i :: l => after (advance f i) l end.

Definition item_ok (i : item) : Prop := pid_ok (item_pid i).

(** The same counters on every PID there l. *)
Definition agree (f g : Z -> Z) : Prop := forall q, pid_ok q -> f q = g q.

Lemma agree_refl f : agree f f.
Proof. done. Qed.

Lemma agree_trans f g h : agree f g -> agree g h -> agree f h.
Proof. intros H1 H2 q Hq. by rewrite H1, H2. Qed.

Lemma packets_agree f g i : agree f g -> item_ok i -> packets f i = packets g i.
Proof. intros Hfg Hi. unfold item_ok in Hi. destruct i; cbn [packets item_pid] in *; by rewrite Hfg. Qed.

Lemma advance_agree f g i : agree f g -> item_ok i -> agree (advance f i) (advance g i).
Proof.
  intros Hfg Hi q Hq. unfold advance, counted. rewrite (packets_agree f g) by done. destruct (q =? item_pid i); by rewrite Hfg.
Qed.

Lemma render_agree l : forall f g, agree f g -> Forall item_ok l -> render f l = render g l /\ agree (after f l) (after g l).
Proof.
  induction l as [|i l IH]; intros f g Hfg Hok; [done|]. apply Forall_cons in Hok as [Hi Hok]. cbn.
  destruct (IH (advance f i) (advance g i)) as [-> ?]; [by apply advance_agree|done|]. by rewrite (packets_agree f g).
Qed.

Lemma render_app a b : forall f, render f (a ++ b) = render f a ++ render (after f a) b.
Proof. induction a as [|i a IH]; intros f; [done|]. cbn. by rewrite IH, app_assoc. Qed.

Lemma after_app a b : forall f, after f (a ++ b) = after (after f a) b.
Proof. induction a as [|i a IH]; intros f; [done|]. cbn. by rewrite IH. Qed.

Lemma packets_188 f i : Forall (fun p => zlen p = 188) (packets f i).
Proof.
  destruct i; cbn [packets]; [repeat constructor; apply layout_len| |apply packetize_188].
  constructor; [|constructor]. unfold pcr_only_layout. rewrite !zlen_app, header_len, zlen_zrep by lia. done.
Qed.

Lemma render_188 l : forall f, Forall (fun p => zlen p = 188) (render f l).
Proof. induction l as [|i l IH]; intros f; cbn [render]; [constructor|]. apply Forall_app. split; [apply packets_188|apply IH]. Qed.

(** Counters stay in range. *)
Definition in_range (f : Z -> Z) : Prop := forall q, pid_ok q -> 0 <= f q < 16.

Lemma advance_range f i : in_range f -> in_range (advance f i).
Proof. intros Hf q Hq. unfold advance. destruct (q =? _); [by apply Z.mod_pos_bound|by apply Hf]. Qed.

Lemma after_range l : forall f, in_range f -> in_range (after f l).
Proof. induction l as [|i l IH]; intros f Hf; [done|]. by apply IH, advance_range. Qed.

Lemma counters_range c : counters_ok c -> in_range (cc_of c).
Proof. intros Hc q Hq. by apply cc_of_range. Qed.

(** What the writers leave in the counters. *)
Lemma advanced_agree c c' p s : advanced c c' p -> agree (cc_of c') (advance (cc_of c) (Table p s)).
Proof.
  intros (_ & Hp & Hq) q Hok. unfold advance. cbn [item_pid]. destruct (Z.eqb_spec q p) as [-> |Hne]; [done|].
  apply Hq; [unfold pid_ok in Hok; lia|done].
Qed.

Lemma only_agree c c' p af pes : only_pid p (zlen (packetize (S (length pes)) p true af pes (cc_of c p))) c c' ->
  agree (cc_of c') (advance (cc_of c) (Unit p af pes)).
Proof.
  intros (_ & Hp & Hq) q Hok. unfold advance. cbn [item_pid]. destruct (Z.eqb_spec q p) as [-> |Hne]; [done|].
  apply Hq; [unfold pid_ok in Hok; lia|done].
Qed.

Lemma clock_agree f p v : in_range f -> agree f (advance f (Clock p v)).
Proof.
  intros Hf q Hok. unfold advance. cbn. destruct (q =? p); [|done]. rewrite Z.add_0_r. symmetry. by apply Z.mod_small, Hf.
Qed.

(** Which receivers look at an item. *)
Lemma item_other f i q : in_range f -> item_ok i -> (forall p v, i <> Clock p v) -> item_pid i <> q ->
  Forall (other q) (packets f i).
Proof.
  intros Hf Hi Hc Hne. pose proof (Hf _ Hi) as Hr. unfold item_ok in Hi. destruct i as [p section|p v|p af pes]; cbn [packets item_pid] in *.
  - constructor; [|constructor]. eexists. split; [apply parse_layout; [exact Hi|exact Hr|discriminate]|]. left. exact Hne.
  - by destruct (Hc p v).
  - apply packetize_other; [done|done|unfold zlen; lia|done].
Qed.

Lemma clock_other f p v q : in_range f -> pid_ok p -> Forall (other q) (packets f (Clock p v)).
Proof.
  intros Hf Hp. constructor; [|constructor]. eexists. split; [apply parse_pcr_only; [exact Hp|by apply Z.mod_pos_bound]|]. right. reflexivity.
Qed.

(** Items no elementary stream on [q] is made of. *)
Definition aside (q : Z) (i : item) : Prop := match i with Clock _ _ => True | i => item_pid i <> q end.

Lemma aside_other q l : forall f, in_range f -> Forall item_ok l -> Forall (aside q) l -> Forall (other q) (render f l).
Proof.
  induction l as [|i l IH]; intros f Hf Hok Ha; cbn [render]; [constructor|].
  apply Forall_cons in Hok as [Hi Hok]. apply Forall_cons in Ha as [Hai Ha].
  apply Forall_app. split; [|by apply IH; [apply advance_range|..]].
  destruct i as [p section|p v|p af pes]; [|by apply clock_other|]; apply item_other; done.
Qed.

End Wire.

(** * The muxer's invariant *)
Module MuxInv.
Import Common TsWriter TsCounters TsLayout MuxTypes PsiWriter PmtRoundtrip MuxState MuxHandles MuxSchedule Packetize Receiver.
Export Wire.

Definition slot_pids (s : ProgramSlot) : list Z :=
  map MuxState.video_pid (omap id (video s)) ++ map klv_pid (omap id (klv s)) ++
  map MuxState.audio_pid (omap id (audio s)) ++ map subtitle_pid (omap id (subtitle s)) ++
  map data_pid (omap id (data s)).

(** The PMT of a slot can be rendered. *)
Definition pmt_renders (s : ProgramSlot) (prog : MuxerProgramConfig) : Prop :=
  pid_ok (MuxTypes.pmt_pid prog) /\ 0 <= MuxTypes.program_number prog <= 65535 /\
  exists es, pmt_entries (E:=Empty_set) (MuxTypes.streams prog) 0 (pmt_descriptor_cache s) = Ok es /\
             pmt_size prog es <= 183.

Record slot_ok (s : ProgramSlot) : Prop := {
  slot_pcr : pid_ok (pcr_pid s);
  slot_stream_pids : Forall pid_ok (slot_pids s);
  slot_psi_last : forall t, psi_last s = Some t -> pts33 t;
  slot_pcr_last : forall t, pcr_last s = Some t -> 0 <= t <= u64_max;
  slot_pmt : forall prog, live s = Some prog -> pmt_renders s prog;
}.

Definition live_programs (ss : list ProgramSlot) : list MuxerProgramConfig := omap live ss.

Record mux_ok (m : Muxer) : Prop := {
  ok_counters : counters_ok (counters m);
  ok_slots : Forall slot_ok (slots m);
  ok_slot_count : zlen (slots m) <= 16;
  ok_pat_version : 0 <= pat_version m;
  ok_queue : Forall (fun p => zlen p = 188) (queue m);
  ok_separate : forall s p prog, s ∈ slots m -> p ∈ slot_pids s -> prog ∈ live_programs (slots m) ->
    p <> MuxTypes.pmt_pid prog;
  ok_not_pat : forall s p, s ∈ slots m -> p ∈ slot_pids s -> p <> PID_PAT;
}.

(** The parts of a slot the packet path never touches. *)
Definition same_slot (s s' : ProgramSlot) : Prop :=
  exists a b, s' = set_pcr_last (set_psi_last s a) b /\ (forall t, a = Some t -> pts33 t) /\
              (forall t, b = Some t -> 0 <= t <= u64_max).

Lemma same_slot_refl s : slot_ok s -> same_slot s s.
Proof. intros Hs. exists (psi_last s), (pcr_last s). split_and!; [by destruct s|apply Hs|apply Hs]. Qed.

Lemma same_slot_ok s s' : slot_ok s -> same_slot s s' -> slot_ok s'.
Proof. intros [? ? ? ? ?] (a & b & -> & Ha & Hb). by split. Qed.

Lemma same_slot_live s s' : same_slot s s' -> live s' = live s /\ slot_pids s' = slot_pids s /\ pcr_pid s' = pcr_pid s.
Proof. by intros (a & b & -> & _). Qed.

Lemma same_slot_trans s1 s2 s3 : same_slot s1 s2 -> same_slot s2 s3 -> same_slot s1 s3.
Proof. intros (a & b & -> & _) (c & d & -> & Hc & Hd). exists c, d. by split_and!. Qed.

(** What a successful stage may have done: items rendered onto the queue with
    the muxer's counters, slots re-stamped, nothing else. *)
Definition extends (m m' : Muxer) (new : list item) : Prop :=
  exists ss c, m' = update m ss (queue m ++ render (cc_of (counters m)) new) c /\ counters_ok c /\
    agree (cc_of c) (after (cc_of (counters m)) new) /\ Forall2 same_slot (slots m) ss /\ Forall item_ok new.

Lemma same_slots_live ss ss' : Forall2 same_slot ss ss' -> live_programs ss' = live_programs ss.
Proof.
  unfold live_programs. induction 1 as [|s s' ss ss' Hs _ IH]; [done|]. cbn.
  destruct (same_slot_live _ _ Hs) as (-> & _). by rewrite IH.
Qed.

Lemma same_slots_pids ss ss' s' : Forall2 same_slot ss ss' -> s' ∈ ss' ->
  exists s, s ∈ ss /\ slot_pids s' = slot_pids s /\ pcr_pid s' = pcr_pid s.
Proof.
  intros Hf Hs. apply list_elem_of_lookup in Hs as [i Hi].
  destruct (Forall2_lookup_r _ _ _ _ _ Hf Hi) as (s & Hl & Hsame). exists s.
  split; [by eapply list_elem_of_lookup_2|]. by destruct (same_slot_live _ _ Hsame) as (_ & -> & ->).
Qed.

Lemma get_same ss ss' i : Forall2 same_slot ss ss' ->
  match get ss i, get ss' i with Some s, Some s' => same_slot s s' | None, None => True | _, _ => False end.
Proof.
  intros Hf. unfold get. destruct (i <? 0); [done|]. by apply Forall2_lookup with (i := Z.to_nat i) in Hf as [].
Qed.

Lemma extends_ok m m' new : mux_ok m -> extends m m' new -> mux_ok m'.
Proof.
  intros Hm (ss & c & -> & Hc & _ & Hs & _). pose proof Hm as [? ? Hcnt Hv Hq Hsep Hpat].
  split; cbn [update counters slots queue].
  - done.
  - eapply Forall2_Forall_r; [exact Hs|]. eapply Forall_impl; [apply Hm|]. intros s Hok s' Hss. by apply (same_slot_ok s).
  - unfold zlen in *. by rewrite <- (Forall2_length _ _ _ Hs).
  - done.
  - apply Forall_app. split; [done|apply render_188].
  - intros s p prog Hin Hp Hl. rewrite (same_slots_live _ _ Hs) in Hl.
    destruct (same_slots_pids _ _ _ Hs Hin) as (s0 & Hin0 & Heq & _). rewrite Heq in Hp. by apply (Hsep s0).
  - intros s p Hin Hp. destruct (same_slots_pids _ _ _ Hs Hin) as (s0 & Hin0 & Heq & _). rewrite Heq in Hp. by apply (Hpat s0).
Qed.

Lemma extends_refl m : mux_ok m -> extends m m [].
Proof.
  intros Hm. exists (slots m), (counters m). split_and!; [|apply Hm|done| |constructor].
  - cbn [render]. rewrite app_nil_r. by destruct m.
  - apply Forall_Forall2_diag. eapply Forall_impl; [apply Hm|]. apply same_slot_refl.
Qed.

Lemma extends_trans m1 m2 m3 a b : extends m1 m2 a -> extends m2 m3 b -> extends m1 m3 (a ++ b).
Proof.
  intros (s1 & c1 & -> & _ & Ha1 & Hs1 & Ha) (s2 & c2 & -> & Hc2 & Ha2 & Hs2 & Hb). cbn [update counters queue slots] in *.
  destruct (render_agree b _ _ Ha1 Hb) as [Hr Hag]. exists s2, c2. split_and!; [|done| | |].
  - by rewrite render_app, app_assoc, <- Hr.
  - rewrite after_app. by eapply agree_trans.
  - eapply Forall2_trans; [|exact Hs1|exact Hs2]. apply same_slot_trans.
  - by apply Forall_app.
Qed.

(** ** The clocks *)

Lemma slot_at {E} m i : 0 <= i < zlen (slots m) -> exists s, get (slots m) i = Some s /\ idx (E:=E) (slots m) i = Ok s.
Proof. apply idx_ok. Qed.

Lemma get_elem {A} (l : list A) i x : get l i = Some x -> x ∈ l.
Proof. unfold get. destruct (i <? 0); [done|]. apply list_elem_of_lookup_2. Qed.

Lemma slot_ok_at m i s : mux_ok m -> get (slots m) i = Some s -> slot_ok s.
Proof.
  intros Hm Hg. pose proof (ok_slots m Hm) as Hf. rewrite Forall_forall in Hf. by apply Hf, (get_elem _ i).
Qed.

Lemma psi_due_ok {E} m i pts : mux_ok m -> 0 <= i < zlen (slots m) -> exists b, psi_due (E:=E) m i pts = Ok b.
Proof.
  intros Hm (s & Hg & Hi)%(slot_at (E:=E)). unfold psi_due. rewrite Hi. rb.
  destruct (psi_last s) as [t|] eqn:Ht; [|by eexists].
  destruct (pts_diff_ok (E:=E) (masked_33bit pts) t) as (d & -> & _);
    [apply masked_33bit_range|by apply (slot_psi_last s (slot_ok_at m i s Hm Hg))|]. rb. by eexists.
Qed.

Lemma pcr_due_ok {E} m i pts : mux_ok m -> 0 <= i < zlen (slots m) -> exists b, pcr_due (E:=E) m i pts = Ok b.
Proof.
  intros Hm (s & Hg & Hi)%(slot_at (E:=E)). unfold pcr_due. rewrite Hi. rb.
  destruct (pcr_last s) as [t|] eqn:Ht; [|by eexists].
  destruct (pts_diff_ok (E:=E) (masked_33bit pts) (Z.land (t / 300) (Z.shiftl 1 33 - 1))) as (d & -> & _);
    [apply masked_33bit_range| |rb; by eexists].
  change (Z.shiftl 1 33 - 1) with (2 ^ 33 - 1). rewrite land_mask by lia. by apply Z.mod_pos_bound.
Qed.

Lemma pcr_only_due_ok {E} m i pts pid : mux_ok m -> 0 <= i < zlen (slots m) ->
  exists b, pcr_only_due (E:=E) m i pts pid = Ok b.
Proof.
  intros Hm Hi. destruct (slot_at (E:=E) m i Hi) as (s & _ & Hs). unfold pcr_only_due. rewrite Hs. rb.
  ifs; [by apply pcr_due_ok|by eexists].
Qed.

Lemma from_pts_ok {E} pts : exists p, from_pts (E:=E) pts = Ok p /\ 0 <= p <= u64_max.
Proof.
  pose proof (masked_33bit_range pts) as Hr. unfold pts33 in Hr. unfold from_pts, chk_u64, checked, u64_max.
  rewrite (proj2 (Z.leb_le _ _)), (proj2 (Z.ltb_lt _ _)) by lia. eexists. split; [done|]. lia.
Qed.

(** Re-stamping one slot. *)
Lemma update_slot_ok {E} m i f : mux_ok m -> 0 <= i < zlen (slots m) ->
  (forall s, slot_ok s -> same_slot s (f s)) ->
  exists m', update_slot (E:=E) m i f = Ok m' /\ extends m m' [].
Proof.
  intros Hm Hi Hf. unfold update_slot. destruct (slot_at (E:=E) m i Hi) as (s & Hg & ->). rb.
  rewrite put_single by done. rb. eexists. split; [done|].
  exists (<[Z.to_nat i := f s]> (slots m)), (counters m). split_and!; [|apply Hm|done| |constructor].
  - unfold set_slots. cbn [render]. by rewrite app_nil_r.
  - pose proof (ok_slots m Hm) as Hok. rewrite <- (list_insert_id (slots m) (Z.to_nat i) s) at 1.
    + apply Forall2_insert; [|by apply Hf, (slot_ok_at m i)].
      apply Forall_Forall2_diag. eapply Forall_impl; [exact Hok|]. apply same_slot_refl.
    + unfold get in Hg. by destruct (i <? 0).
Qed.

Lemma same_pcr s p : slot_ok s -> 0 <= p <= u64_max -> same_slot s (set_pcr_last s (Some p)).
Proof. intros Hs Hp. exists (psi_last s), (Some p). split_and!; [by destruct s|apply Hs|by intros ? [= <-]]. Qed.

End MuxInv.

(** * The preamble: PSI and PCR-only packets *)
Module Preamble.
Import Common TsWriter TsParser TsCounters TsLayout MuxTypes PsiWriter PsiLayout PatRoundtrip PmtRoundtrip PsiWriterTheorems
  MuxState MuxHandles MuxSchedule Packetize Receiver MuxInv.

(** A section packet of the muxer: unit start on [p]. *)
Definition psi_on (p : Z) (pkt : list Z) : Prop :=
  zlen pkt = 188 /\ exists q, parse_ts_packet pkt = Ok q /\ pid q = p /\ payload_unit_start q = true.

Lemma pmt_entries_poly {E1 E2} specs cache es : forall i,
  pmt_entries (E:=E1) specs i cache = Ok es -> pmt_entries (E:=E2) specs i cache = Ok es.
Proof.
  revert es. induction specs as [|spec specs IH]; intros es i; cbn [pmt_entries]; [by intros [= <-]|].
  intros (d & Hd & (rest & Hr & [= <-])%rbind_ok)%rbind_ok.
  apply idx_Ok in Hd. rewrite (proj2 (idx_Ok (E:=E2) _ _ _) Hd). rb. by rewrite (IH _ _ Hr).
Qed.

(** The PMT of a live slot, and everything one PSI tick sends. *)
Definition pmt_item (s : ProgramSlot) : option item :=
  match live s with
  | Some prog =>
      match pmt_entries (E:=Empty_set) (MuxTypes.streams prog) 0 (pmt_descriptor_cache s) with
      | Ok es => Some (Table (MuxTypes.pmt_pid prog) (sealed (pmt_body prog (pcr_pid s) es (pmt_version s))))
      | _ => None
      end
  | None => None
  end.

Definition psi_items (m : Muxer) : list item :=
  Table PID_PAT (sealed (pat_body (pat_entries m) (pat_version m))) :: omap pmt_item (slots m).

Lemma pmt_item_ok s : slot_ok s ->
  match live s, pmt_item s with
  | Some prog, Some i => item_ok i /\ exists section, i = Table (MuxTypes.pmt_pid prog) section
  | None, None => True
  | _, _ => False
  end.
Proof.
  intros Hs. unfold pmt_item. destruct (live s) as [prog|] eqn:Hl; [|done].
  destruct (slot_pmt s Hs prog Hl) as (Hpid & _ & es & -> & _). split; [done|]. by eexists.
Qed.

Lemma pmt_items_ok ss : Forall slot_ok ss -> Forall item_ok (omap pmt_item ss).
Proof.
  induction 1 as [|s ss Hs _ IH]; [constructor|]. cbn [omap list_omap]. pose proof (pmt_item_ok s Hs) as Hi.
  destruct (live s), (pmt_item s); try done. constructor; [apply Hi|done].
Qed.

Lemma table_psi_on f p section : in_range f -> pid_ok p ->
  psi_on p (layout p true AdaptationField_default (psi_payload section) (f p)).
Proof.
  intros Hf Hp. split; [apply layout_len|]. eexists. split; [apply parse_layout; [exact Hp|by apply Hf|discriminate]|].
  split; reflexivity.
Qed.

Lemma pmt_items_on ss : Forall slot_ok ss -> forall f, in_range f ->
  Forall2 (fun prog pkt => psi_on (MuxTypes.pmt_pid prog) pkt) (live_programs ss) (render f (omap pmt_item ss)).
Proof.
  unfold live_programs. induction 1 as [|s ss Hs _ IH]; intros f Hf; [constructor|]. cbn [omap list_omap].
  pose proof (pmt_item_ok s Hs) as Hi. destruct (live s) as [prog|], (pmt_item s) as [i|]; try done; [|by apply IH].
  destruct Hi as [Hi (section & ->)]. cbn [render packets app].
  constructor; [by apply table_psi_on|by apply IH, advance_range].
Qed.

Lemma emit_pmts_ok {E} ss : Forall slot_ok ss -> forall m, counters_ok (counters m) ->
  exists c, emit_pmts (E:=E) ss m = Ok (update m (slots m) (queue m ++ render (cc_of (counters m)) (omap pmt_item ss)) c) /\
    counters_ok c /\ agree (cc_of c) (after (cc_of (counters m)) (omap pmt_item ss)).
Proof.
  induction 1 as [|s ss Hs Hss IH]; intros m Hc; cbn [emit_pmts].
  { exists (counters m). split; [|done]. cbn [omap list_omap render]. rewrite app_nil_r. by destruct m. }
  cbn [omap list_omap]. destruct (live s) as [prog|] eqn:Hl.
  2:{ assert (pmt_item s = None) as -> by (unfold pmt_item; by rewrite Hl). by apply IH. }
  destruct (slot_pmt s Hs prog Hl) as (Hpid & _ & es & He & Hsize).
  assert (pmt_item s = Some (Table (MuxTypes.pmt_pid prog) (sealed (pmt_body prog (pcr_pid s) es (pmt_version s))))) as ->
    by (unfold pmt_item; by rewrite Hl, He).
  rewrite (pmt_entries_poly _ _ _ _ He). rb. rewrite write_pmt_payload by done.
  set (section := sealed _).
  destruct (write_packet_ok (E:=PmtError) blank_packet (MuxTypes.pmt_pid prog) true AdaptationField_default
    (psi_payload section) (counters m)) as (c1 & -> & Ha); [done|done|done|]. rb.
  destruct (IH (push_packet m (layout (MuxTypes.pmt_pid prog) true AdaptationField_default (psi_payload section)
    (cc_of (counters m) (MuxTypes.pmt_pid prog))) c1)) as (c & -> & Hc' & Hag); [apply Ha|].
  cbn [push_packet update slots queue counters render packets after] in *.
  destruct (render_agree (omap pmt_item ss) _ _ (advanced_agree _ _ _ section Ha) (pmt_items_ok ss Hss)) as [Hr Hag'].
  exists c. split; [|split; [done|by eapply agree_trans]]. rewrite <- Hr, <- app_assoc. done.
Qed.

Lemma live_count_programs m : live_count m = zlen (live_programs (slots m)).
Proof.
  unfold live_count, live_programs, is_live.
  induction (slots m) as [|s ss IH]; [done|]. cbn. destruct (live s); [|done].
  rewrite !zlen_cons. by f_equal.
Qed.

Lemma pat_entries_programs m :
  pat_entries m = map (fun p => (MuxTypes.program_number p, MuxTypes.pmt_pid p)) (live_programs (slots m)).
Proof.
  unfold pat_entries, live_programs. induction (slots m) as [|s ss IH]; [done|]. cbn.
  destruct (live s); cbn; by rewrite IH.
Qed.

Lemma live_programs_le ss : zlen (live_programs ss) <= zlen ss.
Proof.
  unfold live_programs. induction ss as [|s ss IH]; [done|]. cbn. destruct (live s); rewrite ?zlen_cons; lia.
Qed.

Lemma entries_ok m : mux_ok m -> Forall entry_ok (pat_entries m).
Proof.
  intros Hm. rewrite pat_entries_programs. apply Forall_map, Forall_forall. intros p Hp.
  unfold live_programs in Hp. apply list_elem_of_omap in Hp as (s & Hs & Hl).
  pose proof (ok_slots m Hm) as Hf. rewrite Forall_forall in Hf.
  destruct (slot_pmt s (Hf s Hs) p Hl) as (Hpid & Hn & _). by split.
Qed.

(** One PSI tick: a PAT that lists the live programs, then their PMTs in slot
    order; every slot's PSI clock is set. *)
Definition psi_tick (m : Muxer) (new : list (list Z)) : Prop :=
  exists pat pmts section c',
    new = pat :: pmts /\ carries_section pat PID_PAT (counters m) c' section /\
    PsiParse.parse_pat section = Ok {| PsiParse.transport_stream_id := 1; PsiParse.pat_version := pat_version m mod 32;
      PsiParse.pat_current_next := true; PsiParse.pat_programs := map pat_entry (pat_entries m) |} /\
    Forall2 (fun prog pkt => psi_on (MuxTypes.pmt_pid prog) pkt) (live_programs (slots m)) pmts.

Lemma pat_items_len m : mux_ok m -> 0 <= zlen (pat_entries m) <= 16.
Proof.
  intros Hm. pose proof (live_programs_le (slots m)). pose proof (ok_slot_count m Hm). split; [apply zlen_nonneg|].
  rewrite pat_entries_programs. unfold zlen in *. rewrite length_map. lia.
Qed.

Lemma psi_items_ok m : mux_ok m -> Forall item_ok (psi_items m).
Proof. intros Hm. constructor; [by vm_compute|]. apply pmt_items_ok, Hm. Qed.

Lemma psi_items_tick m : mux_ok m -> psi_tick m (render (cc_of (counters m)) (psi_items m)).
Proof.
  intros Hm. pose proof (pat_items_len m Hm) as Hz. pose proof (counters_range _ (ok_counters m Hm)) as Hf.
  pose proof (zlen_sealed (pat_body (pat_entries m) (pat_version m))) as Hl. rewrite zlen_pat_body in Hl.
  destruct (full_packet (E:=Empty_set) blank_packet PID_PAT (sealed (pat_body (pat_entries m) (pat_version m))) (counters m))
    as (pkt & c' & w & Hw & Hcar); [done|unfold PID_PAT; lia|apply Hm| |lia|].
  { apply pat_framed; [apply Hm|lia]. }
  destruct (write_packet_ok (E:=Empty_set) blank_packet PID_PAT true AdaptationField_default
    (psi_payload (sealed (pat_body (pat_entries m) (pat_version m)))) (counters m)) as (c2 & Hw2 & _);
    [done|unfold PID_PAT; lia|apply Hm|]. rewrite Hw2 in Hw. injection Hw as <- _ _.
  eexists _, _, (sealed (pat_body (pat_entries m) (pat_version m))), c'. cbn [psi_items render packets app]. split; [reflexivity|].
  split; [exact Hcar|]. split; [apply parse_pat_sealed; [apply Hm|by apply entries_ok|lia]|].
  apply pmt_items_on; [apply Hm|by apply advance_range].
Qed.

End Preamble.

(** * Reservation *)
Module Reserve.
Import Common TsWriter TsParser TsCounters TsLayout MuxTypes PsiWriter PsiLayout PatRoundtrip PmtRoundtrip PsiWriterTheorems
  MuxState MuxHandles MuxSchedule Packetize Receiver MuxInv Preamble.

(** What a stage appends is what its caller counted. *)
Lemma maybe_emit_psi_ok {E} m i pts : mux_ok m -> 0 <= i < zlen (slots m) ->
  exists due new m', psi_due (E:=E) m i pts = Ok due /\ maybe_emit_psi (E:=E) m i pts = Ok m' /\
    extends m m' new /\ zlen (render (cc_of (counters m)) new) = (if due then 1 + live_count m else 0) /\
    (if due then new = psi_items m /\ slots m' = map (fun s => set_psi_last s (Some (masked_33bit pts))) (slots m)
     else new = [] /\ m' = m).
Proof.
  intros Hm Hi. destruct (psi_due_ok (E:=E) m i pts Hm Hi) as (due & Hdue).
  unfold maybe_emit_psi. rewrite Hdue. rb. destruct due; cbn [negb]; cycle 1.
  { exists false, [], m. split_and!; try done. by apply extends_refl. }
  pose proof (pat_items_len m Hm) as Hz. rewrite write_pat_payload by lia. set (section := sealed _).
  destruct (write_packet_ok (E:=E) blank_packet PID_PAT true AdaptationField_default (psi_payload section) (counters m))
    as (c1 & -> & Ha); [done|unfold PID_PAT; lia|apply Hm|]. rb.
  set (pat := layout _ _ _ _ _).
  destruct (emit_pmts_ok (E:=E) (slots m) (ok_slots m Hm) (push_packet m pat c1)) as (c2 & He & Hc2 & Hag); [apply Ha|].
  change (slots (push_packet m pat c1)) with (slots m). rewrite He. rb.
  eexists true, (psi_items m), _. split; [done|]. split; [done|]. cbn [push_packet update slots queue counters set_slots] in *.
  pose proof (psi_items_ok m Hm) as Hok. pose proof Hok as [_ Hok']%Forall_cons.
  destruct (render_agree (omap pmt_item (slots m)) _ _ (advanced_agree _ _ _ section Ha) Hok') as [Hr Hag'].
  split_and!.
  - eexists _, c2. split_and!; [|done|by eapply agree_trans| |done].
    + unfold set_slots. cbn [push_packet update slots queue counters psi_items render packets]. fold section. fold pat.
      rewrite <- Hr, <- app_assoc. done.
    + apply Forall2_fmap_r, Forall_Forall2_diag. eapply Forall_impl; [apply Hm|]. intros s Hs.
      exists (Some (masked_33bit pts)), (pcr_last s). split_and!; [by destruct s| |apply Hs].
      intros t [= <-]. apply masked_33bit_range.
  - destruct (psi_items_tick m Hm) as (pat' & pmts & section' & c' & -> & _ & _ & Hf).
    rewrite zlen_cons, live_count_programs. unfold zlen. by rewrite (Forall2_length _ _ _ Hf).
  - done.
  - done.
Qed.

Definition clock_on (p : Z) (i : item) : Prop := exists v, i = Clock p v.

Lemma maybe_emit_pcr_only_ok {E} m i pts pid : mux_ok m -> 0 <= i < zlen (slots m) ->
  exists due new m', pcr_only_due (E:=E) m i pts pid = Ok due /\ maybe_emit_pcr_only (E:=E) m i pts pid = Ok m' /\
    extends m m' new /\ zlen (render (cc_of (counters m)) new) = b2z due /\
    forall s, get (slots m) i = Some s -> Forall (clock_on (pcr_pid s)) new.
Proof.
  intros Hm Hi. destruct (pcr_only_due_ok (E:=E) m i pts pid Hm Hi) as (due & Hdue).
  unfold maybe_emit_pcr_only. rewrite Hdue. rb. destruct due; cbn [negb]; cycle 1.
  { exists false, [], m. split_and!; try done. by apply extends_refl. }
  destruct (slot_at (E:=E) m i Hi) as (s & Hg & ->). rb.
  destruct (from_pts_ok (E:=E) pts) as (p & -> & Hp). rb.
  pose proof (slot_pcr s (slot_ok_at m i s Hm Hg)) as Hpid.
  rewrite write_pcr_only_ok by (done || apply Hm). rb. set (pkt := pcr_only_layout _ _ _).
  assert (Hx : extends m (push_packet m pkt (counters m)) [Clock (pcr_pid s) p]).
  { exists (slots m), (counters m). split_and!; [done|apply Hm|apply clock_agree, counters_range, Hm| |by apply Forall_singleton].
    apply Forall_Forall2_diag. eapply Forall_impl; [apply Hm|]. apply same_slot_refl. }
  pose proof (extends_ok _ _ _ Hm Hx) as Hm1.
  destruct (update_slot_ok (E:=E) (push_packet m pkt (counters m)) i (fun s => set_pcr_last s (Some p)) Hm1 Hi)
    as (m' & -> & Hx'); [intros; by apply same_pcr|].
  exists true, [Clock (pcr_pid s) p], m'. split_and!; [done|done|exact (extends_trans _ _ _ _ _ Hx Hx')|done|].
  intros s' Hs'. assert (s' = s) as -> by congruence. apply Forall_singleton. by exists p.
Qed.

(** Stamping the PSI clock does not change what is due on the PCR clock. *)
Lemma pcr_only_due_restamp {E} m m' i pts pid t :
  slots m' = map (fun s => set_psi_last s t) (slots m) -> pcr_interval_27mhz m' = pcr_interval_27mhz m ->
  pcr_only_due (E:=E) m' i pts pid = pcr_only_due m i pts pid.
Proof.
  intros Hs Hp.
  assert (Hidx : idx (E:=E) (slots m') i = let! s := idx (slots m) i in Ok (set_psi_last s t)).
  { rewrite Hs. unfold idx, get. destruct (i <? 0); [done|]. rewrite list_lookup_fmap.
    by destruct (slots m !! Z.to_nat i). }
  unfold pcr_only_due, pcr_due. rewrite Hidx, Hp. by destruct (idx (slots m) i).
Qed.

Lemma extends_interval m m' new : extends m m' new ->
  pcr_interval_27mhz m' = pcr_interval_27mhz m /\ config m' = config m /\
  queue m' = queue m ++ render (cc_of (counters m)) new /\
  zlen (slots m') = zlen (slots m) /\ pes_scratch m' = pes_scratch m /\ per_stream m' = per_stream m /\
  stream_codec_counters m' = stream_codec_counters m.
Proof.
  intros (ss & c & -> & _ & _ & Hs & _). cbn. split_and!; try done. unfold zlen. by rewrite <- (Forall2_length _ _ _ Hs).
Qed.

Lemma psi_items_aside m p s : mux_ok m -> s ∈ slots m -> p ∈ slot_pids s -> Forall (aside p) (psi_items m).
Proof.
  intros Hm Hs Hp. constructor; [intros He; by apply (ok_not_pat m Hm s p)|].
  pose proof (fun prog => ok_separate m Hm s p prog Hs Hp) as Hsep. pose proof (ok_slots m Hm) as Hok. unfold live_programs in Hsep.
  clear Hs. induction Hok as [|s0 ss Hs0 _ IH]; cbn [omap list_omap] in *; [constructor|]. pose proof (pmt_item_ok s0 Hs0) as Hi.
  destruct (live s0) as [prog|], (pmt_item s0) as [i|]; try done; [|by apply IH].
  destruct Hi as [_ (section & ->)]. constructor.
  - cbn. intros He. symmetry in He. revert He. apply Hsep. constructor.
  - apply IH. intros prog' Hin. apply Hsep. by constructor.
Qed.

Lemma clocks_aside p q new : Forall (clock_on q) new -> Forall (aside p) new.
Proof. intros Hc. eapply Forall_impl; [exact Hc|]. by intros ? (v & ->). Qed.

(** Packets no elementary stream's receiver looks at. *)
Definition unseen (m : Muxer) (pre : list (list Z)) : Prop :=
  forall s q, s ∈ slots m -> q ∈ slot_pids s -> Forall (other q) pre.

(** What goes out ahead of a PES: the tables when they are due, clocks on [p]. *)
Definition preamble (m : Muxer) (p : Z) (due : bool) (pre : list item) : Prop :=
  exists clocks, pre = (if due then psi_items m else []) ++ clocks /\ Forall (clock_on p) clocks.

Lemma preamble_unseen m p due pre : mux_ok m -> preamble m p due pre -> Forall item_ok pre ->
  unseen m (render (cc_of (counters m)) pre).
Proof.
  intros Hm (clocks & -> & Hc) Hok s q Hs Hq. apply aside_other; [apply counters_range, Hm|done|]. apply Forall_app.
  split; [|by eapply clocks_aside]. destruct due; [by apply (psi_items_aside m q s)|constructor].
Qed.

Lemma extends_items m m' new : extends m m' new -> Forall item_ok new.
Proof. by intros (? & ? & _ & _ & _ & _ & ?). Qed.

(** The reservation either refuses, before anything changed, or leaves room for
    the payload packets it was asked for. *)
Lemma reserve_preamble_ok m i pts p k : mux_ok m -> 0 <= i < zlen (slots m) ->
  reserve_preamble m i pts p k = Err (BufferFull (buffer_packets (config m))) \/
  exists m' pre due, reserve_preamble m i pts p k = Ok m' /\ extends m m' pre /\
    (forall s, get (slots m) i = Some s -> preamble m (pcr_pid s) due pre) /\
    zlen (queue m') + k <= buffer_packets (config m) /\ psi_due (E:=MuxError) m i pts = Ok due.
Proof.
  intros Hm Hi. unfold reserve_preamble.
  destruct (maybe_emit_psi_ok (E:=MuxError) m i pts Hm Hi) as (due & psi & m1 & -> & Hpsi & Hx1 & Hl1 & Hd). rb.
  destruct (pcr_only_due_ok (E:=MuxError) m i pts p Hm Hi) as (pcr & Hpcr). rewrite Hpcr. rb.
  destruct (_ <? _) eqn:Hcap; [by left|]. right. b2p. rewrite Hpsi. rb.
  pose proof (extends_ok _ _ _ Hm Hx1) as Hm1. destruct (extends_interval _ _ _ Hx1) as (Hint & _ & Hq1 & Hz & _).
  destruct (maybe_emit_pcr_only_ok (E:=MuxError) m1 i pts p Hm1) as (pcr' & new & m' & Hp' & -> & Hx2 & Hl2 & Hclk); [lia|].
  destruct (extends_interval _ _ _ Hx2) as (_ & _ & Hq2 & _).
  assert (pcr' = pcr) as ->.
  { destruct due.
    - destruct Hd as [_ Hsl]. rewrite (pcr_only_due_restamp m m1 _ _ _ _ Hsl Hint), Hpcr in Hp'. congruence.
    - destruct Hd as [_ ->]. congruence. }
  exists m', (psi ++ new), due. split_and!; [done|by apply (extends_trans m m1)| | |done].
  - intros s Hs. exists new. split; [by destruct due, Hd as [-> _]|]. destruct Hx1 as (ss & c & -> & _ & _ & Hss & _).
    pose proof (get_same _ _ i Hss) as Hg. rewrite Hs in Hg. cbn [update slots] in Hclk.
    destruct (get ss i) as [s'|]; [|done]. destruct (same_slot_live _ _ Hg) as (_ & _ & <-). by apply Hclk.
  - rewrite Hq2, Hq1, !zlen_app, Hl1, Hl2. destruct due; lia.
Qed.

End Reserve.

(** * One push, from the scratch buffer to the queue *)
Module Transmit.
Import Common TsWriter TsCounters TsLayout PesWriter MuxTypes MuxState MuxHandles MuxSchedule MuxPush
  Packetize Receiver MuxInv Preamble Reserve.

Lemma scratch_ok m b : mux_ok m -> mux_ok (set_scratch m b).
Proof. by intros []. Qed.

Lemma stats_ok m s c : mux_ok m -> mux_ok (set_stats m s c).
Proof. by intros []. Qed.

(** Slot [i] lists the PID. *)
Definition home (m : Muxer) (i p : Z) : Prop := exists s, get (slots m) i = Some s /\ p ∈ slot_pids s.

(** The stream a handle names: its slot is in range and lists its PID. *)
Lemma lookup_stream_ok {A} m (streams : ProgramSlot -> list (option A)) (pid_of : A -> Z) p w d :
  mux_ok m -> (forall s, exists l1 l2, slot_pids s = l1 ++ map pid_of (omap id (streams s)) ++ l2) ->
  lookup_stream (slots m) streams p w = Some d ->
  0 <= p < zlen (slots m) /\ pid_ok (pid_of d) /\ home m p (pid_of d).
Proof.
  intros Hm Hin. unfold lookup_stream. destruct (get (slots m) p) as [s|] eqn:Hs; [|done].
  destruct (get (streams s) w) as [o|] eqn:Ho; [|done]. intros ->.
  split; [by apply (get_Some _ _ s)|]. pose proof (get_elem _ _ _ Hs) as Hel.
  assert (Hpid : pid_of d ∈ slot_pids s).
  { destruct (Hin s) as (l1 & l2 & ->). rewrite !elem_of_app. right. left.
    apply list_elem_of_fmap. exists d. split; [done|]. apply list_elem_of_omap. exists (Some d).
    split; [by apply (get_elem _ w)|done]. }
  split; [|by exists s]. pose proof (ok_slots m Hm) as Hf. rewrite Forall_forall in Hf.
  pose proof (slot_stream_pids s (Hf s Hel)) as Hp. rewrite Forall_forall in Hp. by apply Hp.
Qed.

(** What a successful push put on the queue: a preamble, then [pes], within the
    capacity; the first push of all starts with the tables. *)
Definition sent (m m' : Muxer) (pid : Z) (pes : list Z) (ra : bool) : Prop :=
  pid_ok pid /\ exists pre af due s, TsWriter.random_access af = ra /\ s ∈ slots m /\ pid ∈ slot_pids s /\
    preamble m (pcr_pid s) due pre /\
    extends (set_scratch m pes) m' (pre ++ [Unit pid af pes]) /\
    zlen (queue m') <= buffer_packets (config m) /\
    (Forall (fun s => psi_last s = None) (slots m) -> due = true).

Lemma drain_ok {E} m p af : mux_ok m -> pid_ok p ->
  exists m', drain_pes_scratch (E:=E) m p af = Ok m' /\ extends m m' [Unit p af (pes_scratch m)].
Proof.
  intros Hm Hp. unfold drain_pes_scratch. pose proof (zlen_nonneg (pes_scratch m)).
  destruct (drain_loop_ok (E:=E) p af (S (length (pes_scratch m))) (pes_scratch m) 0 true (queue m) (counters m))
    as (c' & -> & Hc); [done|apply Hm|lia|unfold zlen; lia|]. rb.
  eexists. split; [done|]. exists (slots m), c'. split_and!; [|apply Hc|by apply only_agree| |by apply Forall_singleton].
  - cbn [render packets]. by rewrite app_nil_r.
  - apply Forall_Forall2_diag. eapply Forall_impl; [apply Hm|]. apply same_slot_refl.
Qed.

Section transmit.
Context (m : Muxer) (Hm : mux_ok m) (i p pts : Z) (pes : list Z).
Context (Hi : 0 <= i < zlen (slots m)) (Hpid : pid_ok p) (Hhome : home m i p).

(** The part every handler shares, with the handler's own first adaptation
    field [af]. *)
Definition transmit (af : Muxer -> res MuxError (AdaptationField * Muxer)) (k : Muxer -> step) : step :=
  let m := set_scratch m pes in
  stage m (reserve_preamble m i pts p (ts_packets_for (zlen (pes_scratch m)))) (fun m =>
  compute m (af m) (fun am =>
  let (first_af, m) := am in
  stage m (drain_pes_scratch m p first_af) k)).

Lemma transmit_ok af k ra :
  (forall m', mux_ok m' -> zlen (slots m') = zlen (slots m) ->
     exists a m'', af m' = Ok (a, m'') /\ extends m' m'' [] /\ TsWriter.random_access a = ra) ->
  transmit af k = (Err (BufferFull (buffer_packets (config m))), set_scratch m pes) \/
  exists m', transmit af k = k m' /\ sent m m' p pes ra.
Proof.
  intros Haf. unfold transmit. cbv zeta. cbn [set_scratch pes_scratch].
  pose proof (scratch_ok m pes Hm) as Hm0.
  destruct (reserve_preamble_ok (set_scratch m pes) i pts p (ts_packets_for (zlen pes)) Hm0 Hi)
    as [-> | (m1 & pre & due & -> & Hx1 & Hpre & Hcap & Hdue)]; [by left|]. right. cbn [stage].
  pose proof (extends_ok _ _ _ Hm0 Hx1) as Hm1.
  destruct (extends_interval _ _ _ Hx1) as (_ & Hc1 & _ & Hz1 & Hs1 & _).
  destruct (Haf m1 Hm1 Hz1) as (a & m2 & -> & Hx2 & Hra). cbn [compute].
  pose proof (extends_ok _ _ _ Hm1 Hx2) as Hm2.
  destruct (extends_interval _ _ _ Hx2) as (_ & Hc2 & Hq2 & _ & Hs2 & _).
  destruct (drain_ok (E:=MuxError) m2 p a Hm2 Hpid) as (m3 & -> & Hx3). cbn [stage].
  rewrite Hs2, Hs1 in Hx3. cbn [set_scratch pes_scratch] in Hx3.
  exists m3. split; [done|]. split; [done|]. destruct Hhome as (s & Hs & Hin).
  exists pre, a, due, s. split_and!; [done|by apply (get_elem _ i)|done|exact (Hpre s Hs)| | |].
  - rewrite <- (app_nil_l [Unit _ _ _]). rewrite app_assoc.
    apply (extends_trans _ m2); [|done]. by apply (extends_trans _ m1).
  - destruct (extends_interval _ _ _ Hx3) as (_ & _ & -> & _). rewrite Hq2. cbn [render packets]. rewrite !app_nil_r, zlen_app.
    pose proof (packetize_len p a (S (length pes)) pes (cc_of (counters m2) p)). cbn [set_scratch config] in Hcap. lia.
  - intros Hnone. destruct (slot_at (E:=MuxError) m i Hi) as (s0 & Hg & Hidx).
    rewrite Forall_forall in Hnone. unfold psi_due in Hdue. cbn [set_scratch slots] in Hdue.
    rewrite Hidx in Hdue. cbn [rbind] in Hdue. rewrite (Hnone s0 (get_elem _ _ _ Hg)) in Hdue. by injection Hdue as <-.
Qed.
End transmit.

(** The three ways a handler chooses the first adaptation field. *)
Lemma plain_af m' : mux_ok m' ->
  exists a m'', (Ok (AdaptationField_default, m') : res MuxError (AdaptationField * Muxer)) = Ok (a, m'') /\
    extends m' m'' [] /\ TsWriter.random_access a = false.
Proof. intros Hm. eexists _, _. split; [done|]. split; [by apply extends_refl|done]. Qed.

Lemma carry_pcr_ok {E} m i pts : mux_ok m -> 0 <= i < zlen (slots m) ->
  exists p m', from_pts (E:=E) pts = Ok p /\ update_slot (E:=E) m i (fun s => set_pcr_last s (Some p)) = Ok m' /\
    extends m m' [].
Proof.
  intros Hm Hi. destruct (from_pts_ok (E:=E) pts) as (p & Hp & Hr).
  destruct (update_slot_ok (E:=E) m i (fun s => set_pcr_last s (Some p)) Hm Hi) as (m' & Hu & Hx);
    [intros; by apply same_pcr|]. by exists p, m'.
Qed.

Lemma pcr_first_af_ok {E} m i pts p : mux_ok m -> 0 <= i < zlen (slots m) ->
  exists a m', pcr_first_af (E:=E) m i pts p = Ok (a, m') /\ extends m m' [] /\ TsWriter.random_access a = false.
Proof.
  intros Hm Hi. unfold pcr_first_af. destruct (slot_at (E:=E) m i Hi) as (s & _ & ->). rb.
  destruct (pcr_due_ok (E:=E) m i pts Hm Hi) as (due & Hd).
  assert (Hc : exists b, (if pcr_pid s =? p then pcr_due (E:=E) m i pts else Ok false) = Ok b) by (ifs; eauto).
  destruct Hc as ([] & ->); rb.
  - destruct (carry_pcr_ok (E:=E) m i pts Hm Hi) as (v & m' & -> & Hu & Hx). rb. rewrite Hu. rb. by eexists _, _.
  - eexists _, _. split; [done|]. split; [by apply extends_refl|done].
Qed.

Lemma video_first_af_ok {E} m i pts p key : mux_ok m -> 0 <= i < zlen (slots m) ->
  exists a m', video_first_af (E:=E) m i pts p key = Ok (a, m') /\ extends m m' [] /\ TsWriter.random_access a = key.
Proof.
  intros Hm Hi. unfold video_first_af. destruct (slot_at (E:=E) m i Hi) as (s & _ & ->). rb.
  destruct (pcr_due_ok (E:=E) m i pts Hm Hi) as (due & Hd).
  assert (Hc : exists b, (if pcr_pid s =? p then let! due := pcr_due (E:=E) m i pts in Ok (due || key) else Ok false) = Ok b)
    by (rewrite Hd; ifs; eauto).
  destruct Hc as ([] & ->); rb.
  - destruct (carry_pcr_ok (E:=E) m i pts Hm Hi) as (v & m' & -> & Hu & Hx). rb. rewrite Hu. rb. by eexists _, _.
  - eexists _, _. split; [done|]. split; [by apply extends_refl|done].
Qed.

(** Room in the 64-bit statistics for [k] more pushes of [n] bytes together. *)
Definition stats_room (m : Muxer) (k n : Z) : Prop :=
  forall pid st, per_stream m !! pid = Some st ->
    0 <= items st /\ items st + k <= u64_max /\ 0 <= byte_count st /\ byte_count st + n <= u64_max.

(** One push of [n] bytes takes its share of the room. *)
Definition spends (m m' : Muxer) (n : Z) : Prop :=
  forall k n', 0 <= k -> 0 <= n' -> stats_room m (1 + k) (n + n') -> stats_room m' k n'.

Lemma count_push_ok {E} m pid n : stats_room m 1 n -> 0 <= n ->
  exists st, count_push (E:=E) m pid n = Ok (set_stats m st (stream_codec_counters m)) /\
    forall cd, spends m (set_stats m st cd) n.
Proof.
  intros Hroom Hn. unfold count_push. destruct (per_stream m !! pid) as [st|] eqn:Hst.
  - destruct (Hroom pid st Hst) as (? & ? & ? & ?). unfold chk_u64, checked, u64_max in *.
    rewrite (proj2 (Z.leb_le _ (items st + 1))), (proj2 (Z.ltb_lt (items st + 1) _)) by lia. rb.
    rewrite (proj2 (Z.leb_le _ (byte_count st + n))), (proj2 (Z.ltb_lt (byte_count st + n) _)) by lia. rb.
    eexists. split; [done|]. intros cd k n' Hk Hn' Hr q st'. cbn [set_stats per_stream].
    rewrite lookup_insert_Some. intros [(<- & <-)|(_ & Hq)]; cbn [items byte_count].
    + specialize (Hr pid st Hst). unfold u64_max in *. lia.
    + specialize (Hr q st' Hq). lia.
  - exists (per_stream m). split; [by destruct m|]. intros cd k n' Hk Hn' Hr q st'. cbn [set_stats per_stream].
    intros Hq. specialize (Hr q st' Hq). lia.
Qed.

End Transmit.
