(* ===== verification/MuxerHandlers.v ===== *)
(** The five push handlers and the queue: every push is all or nothing, what a
    push sends is what the stream's receiver gets back, PSI is repeated on
    request, and [pull] hands the packets out in order. *)
From Stdlib Require Import ZArith Lia Bool.
From stdpp Require Import base list list_numbers gmap.
From S2P Require Import Prelude Common TsPacket PesWriter PesDemux PsiParse PsiAssembly PsiWriter.
From S2P Require Import AnnexB AudioFrames AuCell WireBytes Muxer MuxerTheorems.

(** * The five handlers *)
Module Handlers.
Import Common TsWriter PesWriter PesLayout PesParse Reassembler Chunks PesRoundtrip PesTheorems MuxTypes MuxState MuxHandles
  MuxSchedule MuxPush HandlePack Packetize Receiver MuxInv Reserve Transmit.

(** A handler whose input is accepted refuses for lack of room with only the
    scratch buffer rewritten, or sends a PES and updates the statistics. *)
Definition accepted_of (m : Muxer) (r : step) (n : Z) (P : Z -> list Z -> bool -> Prop) : Prop :=
  (exists pes, r = (Err (BufferFull (buffer_packets (config m))), set_scratch m pes)) \/
  (exists m' st cd pid pes ra, r = (Ok tt, set_stats m' st cd) /\ sent m m' pid pes ra /\
     spends m (set_stats m' st cd) n /\ P pid pes ra).

(** A handler rejects early and leaves the muxer alone, or accepts its input. *)
Definition outcome_of (m : Muxer) (r : step) (n : Z) (P : Z -> list Z -> bool -> Prop) : Prop :=
  (exists e, r = (Err e, m)) \/ accepted_of m r n P.

Lemma outcome_reject m e n P : outcome_of m (Err e, m) n P.
Proof. left. by exists e. Qed.

(** A stream's receiver gets exactly [p] out of [pes]. *)
Definition delivers (pid : Z) (pes : list Z) (ra : bool) (p : PesPayload) : Prop :=
  announces pes false (Some (zlen pes)) /\ parse_complete pid pes ra = Ok (Some p) /\ zlen pes <= 65541 /\
  (bytes (payload p) -> bytes pes).

Lemma header_delivers pid sid f flags body ra : has_optional_header sid = true -> length_ok f (Some (zlen body)) ->
  delivers pid (pes_header sid f (Some (zlen body)) flags ++ body) ra
    {| pid := pid; stream_id := sid; pts := field_pts f; dts := field_dts f; random_access_indicator := ra;
       data_alignment_indicator := PesWriter.data_alignment_indicator flags; header_issues := []; payload := body |}.
Proof.
  intros Hsid Hl. split_and!; [by apply header_announces|by apply parse_complete_header| |].
  - destruct Hl as [_ Hl]. rewrite zlen_app, zlen_pes_header. lia.
  - intros Hb. apply bytes_app. split; [by apply WireBytes.pes_header_bytes|done].
Qed.

Lemma as_u16_small n : 0 <= n <= 65535 -> as_u16 n = n.
Proof. intros. unfold as_u16. apply Z.mod_small. lia. Qed.

(** Finish a handler once its PES and first adaptation field are known. *)
Lemma transmit_accepted m i p pts pes af ra k n (P : Z -> list Z -> bool -> Prop) :
  mux_ok m -> 0 <= i < zlen (slots m) -> pid_ok p -> home m i p ->
  (forall m', mux_ok m' -> zlen (slots m') = zlen (slots m) ->
     exists a m'', af m' = Ok (a, m'') /\ extends m' m'' [] /\ TsWriter.random_access a = ra) ->
  (forall m', sent m m' p pes ra -> exists st cd, k m' = (Ok tt, set_stats m' st cd) /\ spends m (set_stats m' st cd) n) ->
  P p pes ra -> accepted_of m (transmit m i p pts pes af k) n P.
Proof.
  intros Hm Hi Hpid Hhome Haf Hk HP.
  destruct (transmit_ok m Hm i p pts pes Hi Hpid Hhome af k ra Haf) as [-> | (m' & -> & Hsent)].
  - left. by exists pes.
  - right. destruct (Hk m' Hsent) as (st & cd & -> & Hsp). by exists m', st, cd, p, pes, ra.
Qed.

Lemma sent_stats m m' p pes ra : sent m m' p pes ra -> per_stream m' = per_stream m.
Proof.
  intros (_ & pre & af & due & s & _ & _ & _ & _ & Hx & _). by destruct (extends_interval _ _ _ Hx) as (_ & _ & _ & _ & _ & -> & _).
Qed.

(** The statistics stage of every handler. *)
Lemma count_stage m m' p pes ra n (k : Muxer -> step) : sent m m' p pes ra -> stats_room m 1 n -> 0 <= n ->
  (forall st, exists cd, k (set_stats m' st (stream_codec_counters m')) = (Ok tt, set_stats m' st cd)) ->
  exists st cd, stage m' (count_push m' p n) k = (Ok tt, set_stats m' st cd) /\ spends m (set_stats m' st cd) n.
Proof.
  intros Hs Hr Hn Hk. pose proof (sent_stats _ _ _ _ _ Hs) as Hps.
  destruct (count_push_ok (E:=MuxError) m' p n) as (st & -> & Hsp); [unfold stats_room; by rewrite Hps|done|].
  cbn [stage]. destruct (Hk st) as (cd & ->). exists st, cd. split; [done|].
  intros j n' Hj Hn' Hroom. apply Hsp; [done|done|]. unfold stats_room. by rewrite Hps.
Qed.

(** Where each kind's PIDs sit in [slot_pids]. *)
Lemma video_in s : exists l1 l2, slot_pids s = l1 ++ map MuxState.video_pid (omap id (video s)) ++ l2.
Proof. exists []. by eexists. Qed.
Lemma klv_in s : exists l1 l2, slot_pids s = l1 ++ map klv_pid (omap id (klv s)) ++ l2.
Proof. exists (map MuxState.video_pid (omap id (video s))). by eexists. Qed.
Lemma audio_in s : exists l1 l2, slot_pids s = l1 ++ map MuxState.audio_pid (omap id (audio s)) ++ l2.
Proof.
  exists (map MuxState.video_pid (omap id (video s)) ++ map klv_pid (omap id (klv s))).
  eexists. rewrite <- app_assoc. reflexivity.
Qed.
Lemma subtitle_in s : exists l1 l2, slot_pids s = l1 ++ map subtitle_pid (omap id (subtitle s)) ++ l2.
Proof.
  exists (map MuxState.video_pid (omap id (video s)) ++ map klv_pid (omap id (klv s)) ++
          map MuxState.audio_pid (omap id (audio s))).
  eexists. rewrite <- !app_assoc. reflexivity.
Qed.
Lemma data_in s : exists l1 l2, slot_pids s = l1 ++ map data_pid (omap id (data s)) ++ l2.
Proof.
  exists (map MuxState.video_pid (omap id (video s)) ++ map klv_pid (omap id (klv s)) ++
          map MuxState.audio_pid (omap id (audio s)) ++ map subtitle_pid (omap id (subtitle s))), [].
  by rewrite <- !app_assoc, app_nil_r.
Qed.

Definition opt_pts (carries : bool) (t : Z) : option Z := if carries then Some (t mod 2 ^ 33) else None.

Lemma push_data_cases m h b t : mux_ok m -> stats_room m 1 (zlen b) ->
  outcome_of m (push_data_to m h b t) (zlen b) (fun pid0 pes ra => exists d, 
    lookup_stream (slots m) data (unpack h).1 (unpack h).2 = Some d /\ pid0 = data_pid d /\ ra = false /\
    delivers pid0 pes ra {| pid := pid0; stream_id := 0xBD; pts := opt_pts (data_carries_pts d) t; dts := None;
      random_access_indicator := false; data_alignment_indicator := true; header_issues := []; payload := b |}).
Proof.
  intros Hm Hr. unfold push_data_to. destruct (unpack h) as [i w] eqn:Hu. cbn [fst snd].
  destruct (lookup_stream (slots m) data i w) as [d|] eqn:Hd; [|apply outcome_reject].
  destruct (lookup_stream_ok m data data_pid i w d Hm data_in Hd) as (Hi & Hpid & Hhome).
  cbv zeta. set (f := if data_carries_pts d then PtsOnly t else PtsNone).
  destruct (_ <? zlen b) eqn:Hmax; b2p; [apply outcome_reject|]. unfold u16_max in Hmax.
  pose proof (zlen_nonneg b).
  assert (Hl : length_ok f (Some (zlen b))) by (unfold f, length_ok; destruct (data_carries_pts d); cbn; lia).
  rewrite as_u16_small by (destruct (data_carries_pts d); lia). rewrite append_header_ok by done. cbn [compute app].
  right. eapply (transmit_accepted m i (data_pid d) t _ (fun m => Ok (AdaptationField_default, m)) false
    (fun m => stage m (count_push m (data_pid d) (zlen b)) (fun m => (Ok tt, m)))); try done.
  - intros m' Hm' _. by apply plain_af.
  - intros m' Hsent. eapply count_stage; [done|done|done|]. intros st. by eexists.
  - exists d. split_and!; try done. revert Hl. unfold f, opt_pts. intros Hl.
    destruct (data_carries_pts d).
    + exact (header_delivers _ 0xBD (PtsOnly t) {| PesWriter.data_alignment_indicator := true |} b false eq_refl Hl).
    + exact (header_delivers _ 0xBD PtsNone {| PesWriter.data_alignment_indicator := true |} b false eq_refl Hl).
Qed.

(** ** Audio *)

Definition audio_sid (c : AudioCodec) (w : Z) : Z := match c with Ac3 => 0xBD | _ => 0xC0 + w end.

Lemma audio_sid_ok c w : 0 <= w < 16 ->
  audio_stream_id (E:=MuxError) c w = Ok (audio_sid c w) /\ has_optional_header (audio_sid c w) = true.
Proof.
  intros Hw. unfold audio_stream_id, audio_sid, STREAM_ID_PRIVATE_STREAM_1, STREAM_ID_AUDIO_BASE, chk_u8, checked.
  destruct c; [..|done]; (rewrite (proj2 (Z.leb_le _ _)), (proj2 (Z.ltb_lt _ _)) by lia; split; [done|]).
  all: unfold has_optional_header; rewrite !(proj2 (Z.leb_le _ _)) by lia;
    rewrite !(proj2 (Z.eqb_neq _ _)) by lia; done.
Qed.

Lemma unpack_within h i w : unpack h = (i, w) -> 0 <= w < 16.
Proof. unfold unpack. intros [= _ <-]. rewrite land_15. apply Z.mod_pos_bound. lia. Qed.

Lemma audio_frame_count_ok c frames : bytes frames -> exists n, audio_frame_count (E:=MuxError) c frames = Ok n.
Proof.
  intros Hb. unfold audio_frame_count. destruct c; [| |by eexists..].
  - destruct (FramesTheorems.collect_ok (E:=MuxError) (F:=MpegAudio.Frame) frames Hb (S (S (length frames)))
      {| Frames.cursor := 0; Frames.done_ := false; Frames.resync := true |}) as (l & Hl & _);
      [pose proof (zlen_nonneg frames); cbn; lia|unfold FramesTheorems.left_over, zlen; cbn; lia|].
    unfold Frames.frames_with_resync. rewrite Hl. by eexists.
  - destruct (FramesTheorems.collect_ok (E:=MuxError) (F:=Aac.AdtsFrame) frames Hb (S (S (length frames)))
      {| Frames.cursor := 0; Frames.done_ := false; Frames.resync := true |}) as (l & Hl & _);
      [pose proof (zlen_nonneg frames); cbn; lia|unfold FramesTheorems.left_over, zlen; cbn; lia|].
    unfold Frames.frames_with_resync. rewrite Hl. by eexists.
Qed.

Lemma push_audio_cases m h t b : mux_ok m -> stats_room m 1 (zlen b) -> bytes b ->
  outcome_of m (push_audio_to m h t b) (zlen b) (fun pid0 pes ra => exists a,
    lookup_stream (slots m) audio (unpack h).1 (unpack h).2 = Some a /\ pid0 = MuxState.audio_pid a /\ ra = false /\
    delivers pid0 pes ra {| pid := pid0; stream_id := audio_sid (audio_codec a) (unpack h).2; pts := Some (t mod 2 ^ 33);
      dts := None; random_access_indicator := false;
      data_alignment_indicator := match audio_codec a with Ac3 => true | _ => false end;
      header_issues := []; payload := b |}).
Proof.
  intros Hm Hr Hb. unfold push_audio_to. destruct (unpack h) as [i w] eqn:Hu. cbn [fst snd].
  pose proof (unpack_within h i w Hu) as Hw.
  destruct (lookup_stream (slots m) audio i w) as [a|] eqn:Ha; [|apply outcome_reject].
  destruct (lookup_stream_ok m audio MuxState.audio_pid i w a Hm audio_in Ha) as (Hi & Hpid & Hhome).
  cbv zeta. destruct (_ <? zlen b) eqn:Hmax; b2p; [apply outcome_reject|]. unfold u16_max in Hmax.
  pose proof (zlen_nonneg b).
  assert (Hl : length_ok (PtsOnly t) (Some (zlen b))) by (unfold length_ok; cbn; lia).
  unfold write_audio_pes. assert (as_u8 w = w) as -> by (unfold as_u8; apply Z.mod_small; lia).
  rewrite (proj2 (Z.ltb_lt w 16)) by lia. destruct (audio_sid_ok (audio_codec a) w Hw) as [-> Hsid]. rb.
  rewrite as_u16_small by lia. rewrite append_header_ok by done. rb. cbn [compute app].
  destruct (audio_frame_count_ok (audio_codec a) b Hb) as (n & Hn).
  right. eapply (transmit_accepted m i (MuxState.audio_pid a) t _ (fun m => pcr_first_af m i t (MuxState.audio_pid a)) false
    (fun m => stage m (count_push m (MuxState.audio_pid a) (zlen b)) (fun m =>
       compute m (audio_frame_count (audio_codec a) b) (fun n =>
         (Ok tt, if 0 <? n then bump_codec m (fun c => add_audio c n) CodecAudio (MuxState.audio_pid a) else m))))); try done.
  - intros m' Hm' Hz. apply pcr_first_af_ok; [done|lia].
  - intros m' Hsent. eapply count_stage; [done|done|done|]. intros st. rewrite Hn. cbn [compute].
    destruct (0 <? n); by eexists.
  - exists a. split_and!; try done.
    exact (header_delivers _ _ (PtsOnly t) {| PesWriter.data_alignment_indicator := match audio_codec a with Ac3 => true | _ => false end |}
      b false Hsid Hl).
Qed.

(** ** Metadata *)

(** The cell a synchronous stream carries. *)
Definition klv_header (msid : Z) : AuCell.AuCellHeader :=
  {| AuCell.metadata_service_id := msid; AuCell.sequence_number := 0; AuCell.cell_fragment_indication := AuCell.Complete;
     AuCell.decoder_config_flag := false; AuCell.random_access_indicator := true |}.

Definition klv_body (t : KlvStreamType) (msid : Z) (b : list Z) : list Z :=
  match t with SynchronousMetadata => AuCellTheorems.cell (klv_header msid) b | PrivateData => b end.

Definition klv_sid (t : KlvStreamType) : Z := match t with SynchronousMetadata => 0xFC | PrivateData => 0xBD end.

Lemma wrap_klv_cases t msid b :
  (exists e, wrap_klv (bool_decide (t = SynchronousMetadata)) msid b = Err e) \/
  wrap_klv (bool_decide (t = SynchronousMetadata)) msid b = Ok (klv_body t msid b).
Proof.
  unfold wrap_klv. destruct t; [by right|]. cbn [klv_body].
  rewrite bool_decide_eq_true_2 by done. fold (klv_header msid).
  destruct (Z.le_gt_cases (zlen b) 65535) as [Hl|Hl].
  - right. rewrite AuCellTheorems.write_cell by done. done.
  - left. unfold AuCell.write_metadata_au_cell, AuCell.MAX_AU_CELL_PAYLOAD, u16_max.
    rewrite (proj2 (Z.ltb_lt _ _)) by lia. by eexists.
Qed.

Lemma push_klv_cases m h b t msid : mux_ok m -> stats_room m 1 (zlen b) ->
  outcome_of m (push_klv_to m h b t msid) (zlen b) (fun pid0 pes ra => exists k,
    lookup_stream (slots m) klv (unpack h).1 (unpack h).2 = Some k /\ pid0 = klv_pid k /\ ra = false /\
    delivers pid0 pes ra {| pid := pid0; stream_id := klv_sid (MuxState.klv_stream_type k);
      pts := opt_pts (klv_carries_pts k) t; dts := None; random_access_indicator := false;
      data_alignment_indicator := true; header_issues := [];
      payload := klv_body (MuxState.klv_stream_type k) msid b |}).
Proof.
  intros Hm Hr. unfold push_klv_to. destruct (unpack h) as [i w] eqn:Hu. cbn [fst snd].
  destruct (lookup_stream (slots m) klv i w) as [k|] eqn:Hk; [|apply outcome_reject].
  destruct (lookup_stream_ok m klv klv_pid i w k Hm klv_in Hk) as (Hi & Hpid & Hhome).
  cbv zeta. destruct (wrap_klv_cases (MuxState.klv_stream_type k) msid b) as [[e ->]| ->]; cbn [compute]; [apply outcome_reject|].
  set (body := klv_body _ _ _). set (f := if klv_carries_pts k then PtsOnly t else PtsNone).
  destruct (_ <? zlen body) eqn:Hmax; b2p; [apply outcome_reject|]. unfold u16_max in Hmax.
  pose proof (zlen_nonneg body). pose proof (zlen_nonneg b).
  assert (Hl : length_ok f (Some (zlen body))) by (unfold f, length_ok; destruct (klv_carries_pts k); cbn; lia).
  rewrite as_u16_small by (destruct (klv_carries_pts k); lia). rewrite append_header_ok by done. cbn [compute app].
  right. eapply (transmit_accepted m i (klv_pid k) t _ (fun m => pcr_first_af m i t (klv_pid k)) false
    (fun m => stage m (count_push m (klv_pid k) (zlen b)) (fun m =>
       (Ok tt, bump_codec m (fun c => add_klv c 1) CodecKlv (klv_pid k))))); try done.
  - intros m' Hm' Hz. apply pcr_first_af_ok; [done|lia].
  - intros m' Hsent. eapply count_stage; [done|done|done|]. intros st. by eexists.
  - exists k. split_and!; try done. fold body. clearbody body. revert Hl. unfold f, opt_pts. intros Hl.
    destruct (MuxState.klv_stream_type k), (klv_carries_pts k);
      first [exact (header_delivers _ 0xBD _ {| PesWriter.data_alignment_indicator := true |} body false eq_refl Hl)
            |exact (header_delivers _ 0xFC _ {| PesWriter.data_alignment_indicator := true |} body false eq_refl Hl)].
Qed.

(** ** Subtitles *)

(** What a subtitle payload looks like behind the PES header. *)
Definition subtitle_body (shape : SubtitlePesShape) (b body : list Z) : Prop :=
  match shape with
  | DvbSub => body = [0x20; 0x00] ++ b ++ [0xFF]
  | DvbTeletext => exists r, 0 <= r < 184 /\ body = Teletext.id_bytes b ++ b ++ Teletext.tail r
  | Passthrough => body = b
  end.

Lemma subtitle_pes shape pid0 t b : subtitle_too_large shape b = None ->
  exists pes body, write_subtitle_pes (E:=MuxError) [] t shape b = Ok pes /\ subtitle_body shape b body /\
    delivers pid0 pes false {| pid := pid0; stream_id := 0xBD; pts := Some (t mod 2 ^ 33); dts := None;
      random_access_indicator := false; data_alignment_indicator := true; header_issues := []; payload := body |}.
Proof.
  intros Hs. pose proof (zlen_nonneg b).
  assert (Hpass : forall body, zlen body <= 65527 ->
    exists pes, write_subtitle_pes_passthrough (E:=MuxError) [] t body = Ok pes /\
    delivers pid0 pes false {| pid := pid0; stream_id := 0xBD; pts := Some (t mod 2 ^ 33); dts := None;
      random_access_indicator := false; data_alignment_indicator := true; header_issues := []; payload := body |}).
  { intros body Hb. pose proof (zlen_nonneg body).
    assert (Hl : length_ok (PtsOnly t) (Some (zlen body))) by (unfold length_ok; cbn; lia).
    unfold write_subtitle_pes_passthrough. rewrite as_u16_small by lia. rewrite append_header_ok by done. rb. cbn [app].
    eexists. split; [done|].
    exact (header_delivers pid0 0xBD (PtsOnly t) {| PesWriter.data_alignment_indicator := true |} body false eq_refl Hl). }
  destruct shape; cbn [subtitle_too_large write_subtitle_pes subtitle_body] in *.
  - destruct (_ <? _) eqn:Hlt; [done|]. b2p. unfold u16_max in Hlt.
    destruct (Hpass (wrap_dvb_sub_pes_data_field b)) as (pes & Hw & Hd).
    { unfold wrap_dvb_sub_pes_data_field. rewrite !zlen_app. change (zlen [_]) with 1. change (zlen [_; _]) with 2. lia. }
    exists pes. eexists. split_and!; [exact Hw|reflexivity|exact Hd].
  - destruct (dvb_teletext_total_pes_bytes _ _) as [total|] eqn:Ht; [|done].
    destruct (teletext_parsed (E:=MuxError) pid0 t b false false total Ht) as (pes & r & Hw & Hz & Hr & Ha & Hp).
    destruct (Teletext.total_spec _ _ _ (zlen_nonneg _) Ht) as (_ & _ & Hmax).
    exists pes. eexists. split_and!; [exact Hw|by exists r|]. split_and!; [done|exact Hp|lia|]. intros Hb.
    rewrite (Teletext.write_teletext_ok t b total Ht) in Hw. match type of Hw with Ok ?x = Ok _ => assert (x = pes) as <- by congruence end. cbn [payload] in Hb.
    apply bytes_app in Hb as [? Hb]. apply bytes_app in Hb as [? _]. 
    apply bytes_app. split; [apply WireBytes.teletext_header_bytes|]. apply bytes_app. split; [done|].
    apply bytes_app. split; [done|apply WireBytes.teletext_tail_bytes].
  - destruct (_ <? _) eqn:Hlt; [done|]. b2p. unfold u16_max in Hlt.
    destruct (Hpass b) as (pes & Hw & Hd); [lia|]. by exists pes, b.
Qed.

Lemma push_subtitle_cases m h t b : mux_ok m -> stats_room m 1 (zlen b) ->
  outcome_of m (push_subtitle_to m h t b) (zlen b) (fun pid0 pes ra => exists d body,
    lookup_stream (slots m) subtitle (unpack h).1 (unpack h).2 = Some d /\ pid0 = subtitle_pid d /\ ra = false /\
    subtitle_body (pes_shape (subtitle_codec d)) b body /\
    delivers pid0 pes ra {| pid := pid0; stream_id := 0xBD; pts := Some (t mod 2 ^ 33); dts := None;
      random_access_indicator := false; data_alignment_indicator := true; header_issues := []; payload := body |}).
Proof.
  intros Hm Hr. unfold push_subtitle_to. destruct (unpack h) as [i w] eqn:Hu. cbn [fst snd].
  destruct (lookup_stream (slots m) subtitle i w) as [d|] eqn:Hd; [|apply outcome_reject].
  destruct (lookup_stream_ok m subtitle subtitle_pid i w d Hm subtitle_in Hd) as (Hi & Hpid & Hhome).
  cbv zeta. destruct (subtitle_too_large _ b) as [e|] eqn:Hbig; [apply outcome_reject|].
  destruct (subtitle_pes _ (subtitle_pid d) t b Hbig) as (pes & body & -> & Hbody & Hdel). cbn [compute].
  right. eapply (transmit_accepted m i (subtitle_pid d) t _ (fun m => Ok (AdaptationField_default, m)) false
    (fun m => stage m (count_push m (subtitle_pid d) (zlen b)) (fun m => (Ok tt, m)))); try done.
  - intros m' Hm' _. by apply plain_af.
  - intros m' Hsent. eapply count_stage; [done|done|zlia|]. intros st. by eexists.
  - by exists d, body.
Qed.

(** ** Video *)

(** An unbounded PES: the receiver completes it at the next unit start. *)
Definition delivers_unbounded (pid : Z) (pes : list Z) (ra : bool) (p : PesPayload) : Prop :=
  announces pes true None /\ parse_complete pid pes ra = Ok (Some p) /\ zlen pes <= 19 + zlen (payload p) /\
  (bytes (payload p) -> bytes pes).

Definition video_sid (c : VideoCodec) (carriage : Av1CarriageMode) : Z :=
  if is_av1 c && bool_decide (carriage = Mpeg2TsBinding) then 0xBD else 0xE0.

Lemma video_payload_total carriage c form nal : bytes nal -> video_payload carriage c form nal <> Panic.
Proof.
  intros Hb. unfold video_payload.
  assert (Hv : forall b : bool, (if b then map_err (fun _ => InvalidNal) (AnnexB.validate_annex_b nal) else Ok tt) = Ok tt \/
    (if b then map_err (fun _ => InvalidNal) (AnnexB.validate_annex_b nal) else Ok tt) = Err InvalidNal).
  { intros []; [|by left]. destruct (AnnexBTheorems.validate_spec nal) as [_ [-> | ->]]; [by left|by right]. }
  destruct (Hv (match form with Elementary => true | Wire => false end && negb (is_av1 c))) as [-> | ->]; [rb|done].
  destruct (_ && _); [|done].
  destruct (Av1Theorems.wrap_total (E:=MuxError) nal Hb (S (length nal)) 0 []) as ([v full] & Hw); [zlia|unfold zlen; lia|].
  unfold Av1.wrap_av1_obus_binding. rewrite Hw. rb. by destruct (_ && _).
Qed.

Lemma header_delivers_unbounded pid sid f flags body ra : has_optional_header sid = true ->
  delivers_unbounded pid (pes_header sid f None flags ++ body) ra
    {| pid := pid; stream_id := sid; pts := field_pts f; dts := field_dts f; random_access_indicator := ra;
       data_alignment_indicator := PesWriter.data_alignment_indicator flags; header_issues := []; payload := body |}.
Proof.
  intros Hsid. split; [|split; [by apply parse_complete_header|]].
  - exists 0, 0. split_and!; [done|done|]. by right.
  - cbn [payload]. rewrite zlen_app, zlen_pes_header. pose proof (pts_size_range f). split; [lia|]. intros Hb.
    apply bytes_app. split; [by apply WireBytes.pes_header_bytes|done].
Qed.

(** A video push whose bytes are accepted. *)
Lemma push_video_accepted m h nal f t key form v body : mux_ok m -> stats_room m 1 (zlen nal) -> bytes nal ->
  lookup_stream (slots m) video (unpack h).1 (unpack h).2 = Some v ->
  video_payload (av1_carriage (config m)) (video_codec v) form nal = Ok body ->
  accepted_of m (push_video_to_internal m h nal f t key form) (zlen nal) (fun pid0 pes ra =>
    pid0 = MuxState.video_pid v /\ ra = key /\
    delivers_unbounded pid0 pes ra {| pid := pid0; stream_id := video_sid (video_codec v) (av1_carriage (config m));
      pts := field_pts f; dts := field_dts f; random_access_indicator := key;
      data_alignment_indicator := is_av1 (video_codec v); header_issues := []; payload := body |}).
Proof.
  intros Hm Hr Hb Hv Hbody. unfold push_video_to_internal. destruct (unpack h) as [i w] eqn:Hu. cbn [fst snd] in Hv. rewrite Hv.
  destruct (lookup_stream_ok m video MuxState.video_pid i w v Hm video_in Hv) as (Hi & Hpid & Hhome).
  cbv zeta. rewrite Hbody. cbn [compute]. rewrite append_header_ok by done. cbn [compute app].
  destruct (Av1Theorems.count_nal_units_total (E:=MuxError) nal (video_codec v) Hb) as (n & Hn).
  pose proof (zlen_nonneg nal).
  eapply (transmit_accepted m i (MuxState.video_pid v) t _ (fun m => video_first_af m i t (MuxState.video_pid v) key) key
    (fun m => stage m (count_push m (MuxState.video_pid v) (zlen nal)) (fun m =>
       compute m (Av1.count_nal_units nal (video_codec v)) (fun n =>
         (Ok tt, bump_codec m (fun c => add_video c n (b2z key)) CodecVideo (MuxState.video_pid v)))))); try done.
  - intros m' Hm' Hz. apply video_first_af_ok; [done|lia].
  - intros m' Hsent. eapply count_stage; [done|done|done|]. intros st. rewrite Hn. cbn [compute]. by eexists.
  - split_and!; try done. unfold video_sid.
    destruct (is_av1 (video_codec v) && _);
      [exact (header_delivers_unbounded _ 0xBD f {| PesWriter.data_alignment_indicator := is_av1 (video_codec v) |} body key eq_refl)
      |exact (header_delivers_unbounded _ 0xE0 f {| PesWriter.data_alignment_indicator := is_av1 (video_codec v) |} body key eq_refl)].
Qed.

Lemma push_video_cases m h nal f t key form : mux_ok m -> stats_room m 1 (zlen nal) -> bytes nal ->
  outcome_of m (push_video_to_internal m h nal f t key form) (zlen nal) (fun pid0 pes ra => exists v body,
    lookup_stream (slots m) video (unpack h).1 (unpack h).2 = Some v /\ pid0 = MuxState.video_pid v /\ ra = key /\
    video_payload (av1_carriage (config m)) (video_codec v) form nal = Ok body /\
    delivers_unbounded pid0 pes ra {| pid := pid0; stream_id := video_sid (video_codec v) (av1_carriage (config m));
      pts := field_pts f; dts := field_dts f; random_access_indicator := key;
      data_alignment_indicator := is_av1 (video_codec v); header_issues := []; payload := body |}).
Proof.
  intros Hm Hr Hb.
  destruct (lookup_stream (slots m) video (unpack h).1 (unpack h).2) as [v|] eqn:Hv; cycle 1.
  { unfold push_video_to_internal. destruct (unpack h) as [i w]. cbn [fst snd] in Hv. rewrite Hv. apply outcome_reject. }
  pose proof (video_payload_total (av1_carriage (config m)) (video_codec v) form nal Hb) as Hnp.
  destruct (video_payload _ _ form nal) as [body|e|] eqn:Hbody; [|left; exists e|done].
  - right. destruct (push_video_accepted m h nal f t key form v body Hm Hr Hb Hv Hbody)
      as [H|(m' & st & cd & pid0 & pes & ra & H1 & H2 & H3 & H4 & H5 & H6)]; [by left|right].
    exists m', st, cd, pid0, pes, ra. split_and!; try done. by exists v, body.
  - unfold push_video_to_internal. destruct (unpack h) as [i w]. cbn [fst snd] in Hv. rewrite Hv. cbv zeta. by rewrite Hbody.
Qed.

End Handlers.
