(* ===== verification/MuxerSession.v ===== *)
(** Sessions on the multiplexer: any sequence of pushes, pulls and PSI requests,
    and what a receiver of the resulting packet stream gets out of it. *)
From Stdlib Require Import ZArith Lia Bool.
From stdpp Require Import base list list_numbers gmap.
From S2P Require Import Prelude Common TsPacket PesWriter PesDemux PsiParse PsiAssembly PsiWriter.
From S2P Require Import AnnexB AudioFrames AuCell WireBytes Muxer MuxerTheorems MuxerHandlers.

(** * Sessions *)
Module Session.
Import Common TsWriter TsCounters PesWriter PesParse Reassembler Chunks MuxTypes MuxState MuxHandles MuxSchedule MuxPush HandlePack
  Packetize Receiver MuxInv Preamble Reserve Transmit Handlers.

Inductive push_op : Type :=
| OpVideo (handle : Z) (nal : list Z) (f : PesPtsField) (pacing : Z) (key : bool) (form : VideoInputForm)
| OpKlv (handle : Z) (b : list Z) (t msid : Z)
| OpAudio (handle t : Z) (b : list Z)
| OpSubtitle (handle t : Z) (b : list Z)
| OpData (handle : Z) (b : list Z) (t : Z).

Definition run (m : Muxer) (o : push_op) : step :=
  match o with
  | OpVideo h nal f t key form => push_video_to_internal m h nal f t key form
  | OpKlv h b t msid => push_klv_to m h b t msid
  | OpAudio h t b => push_audio_to m h t b
  | OpSubtitle h t b => push_subtitle_to m h t b
  | OpData h b t => push_data_to m h b t
  end.

Definition body_of (o : push_op) : list Z :=
  match o with
  | OpVideo _ b _ _ _ _ | OpKlv _ b _ _ | OpAudio _ _ b | OpSubtitle _ _ b | OpData _ b _ => b
  end.

(** Every PES but a video one announces its length. *)
Definition bounded (o : push_op) : bool := match o with OpVideo _ _ _ _ _ _ => false | _ => true end.

(** The packet a successful push promises, and the PID it travels on. *)
Definition promised (m : Muxer) (o : push_op) (q : Z) (p : PesPayload) : Prop :=
  match o with
  | OpVideo h nal f _ key form => exists v body,
      lookup_stream (slots m) video (unpack h).1 (unpack h).2 = Some v /\ q = MuxState.video_pid v /\
      video_payload (av1_carriage (config m)) (video_codec v) form nal = Ok body /\
      p = {| pid := q; stream_id := video_sid (video_codec v) (av1_carriage (config m));
             pts := PesRoundtrip.field_pts f; dts := PesRoundtrip.field_dts f; random_access_indicator := key;
             data_alignment_indicator := is_av1 (video_codec v); header_issues := []; payload := body |}
  | OpKlv h b t msid => exists k,
      lookup_stream (slots m) klv (unpack h).1 (unpack h).2 = Some k /\ q = klv_pid k /\
      p = {| pid := q; stream_id := klv_sid (MuxState.klv_stream_type k); pts := opt_pts (klv_carries_pts k) t;
             dts := None; random_access_indicator := false; data_alignment_indicator := true; header_issues := [];
             payload := klv_body (MuxState.klv_stream_type k) msid b |}
  | OpAudio h t b => exists a,
      lookup_stream (slots m) audio (unpack h).1 (unpack h).2 = Some a /\ q = MuxState.audio_pid a /\
      p = {| pid := q; stream_id := audio_sid (audio_codec a) (unpack h).2; pts := Some (t mod 2 ^ 33); dts := None;
             random_access_indicator := false;
             data_alignment_indicator := match audio_codec a with Ac3 => true | _ => false end;
             header_issues := []; payload := b |}
  | OpSubtitle h t b => exists d body,
      lookup_stream (slots m) subtitle (unpack h).1 (unpack h).2 = Some d /\ q = subtitle_pid d /\
      subtitle_body (pes_shape (subtitle_codec d)) b body /\
      p = {| pid := q; stream_id := 0xBD; pts := Some (t mod 2 ^ 33); dts := None; random_access_indicator := false;
             data_alignment_indicator := true; header_issues := []; payload := body |}
  | OpData h b t => exists d,
      lookup_stream (slots m) data (unpack h).1 (unpack h).2 = Some d /\ q = data_pid d /\
      p = {| pid := q; stream_id := 0xBD; pts := opt_pts (data_carries_pts d) t; dts := None;
             random_access_indicator := false; data_alignment_indicator := true; header_issues := []; payload := b |}
  end.

Definition carried (o : push_op) (pid : Z) (pes : list Z) (ra : bool) (p : PesPayload) : Prop :=
  if bounded o then delivers pid pes ra p else delivers_unbounded pid pes ra p.

(** An operation as the API types it: [u8] everywhere. *)
Definition typed (o : push_op) : Prop :=
  bytes (body_of o) /\ match o with OpKlv _ _ _ msid => byte msid | _ => True end.

Lemma video_payload_bytes carriage c form nal body : bytes nal -> video_payload carriage c form nal = Ok body -> bytes body.
Proof.
  intros Hb. unfold video_payload. intros (u & _ & H)%rbind_ok. destruct (_ && _); [|by injection H as <-].
  apply rbind_ok in H as ([v full] & Hw & H). destruct (_ && _); [done|]. injection H as <-.
  unfold Av1.wrap_av1_obus_binding in Hw. eapply WireBytes.wrap_bytes; [exact Hb| |exact Hw]. constructor.
Qed.

Lemma promised_bytes m o q p : typed o -> promised m o q p -> bytes (payload p).
Proof.
  intros [Hb Ho]. destruct o as [h nal f t key form|h b t msid|h t b|h t b|h b t]; cbn [body_of promised] in *.
  - intros (v & body & _ & _ & Hv & ->). by eapply video_payload_bytes.
  - intros (k & _ & _ & ->). cbn [payload klv_body]. destruct (MuxState.klv_stream_type k); [done|].
    apply WireBytes.cell_bytes; [|done]. split; cbn; [done|unfold byte; lia].
  - by intros (a & _ & _ & ->).
  - intros (d & body & _ & _ & Hs & ->). cbn [payload]. destruct (pes_shape (subtitle_codec d)); cbn [subtitle_body] in Hs.
    + subst body. repeat (apply bytes_app; split); [repeat constructor; unfold byte; lia..|done|repeat constructor; unfold byte; lia].
    + destruct Hs as (r & _ & ->). apply bytes_app. split; [apply WireBytes.teletext_id_bytes|].
      apply bytes_app. split; [done|apply WireBytes.teletext_tail_bytes].
    + by subst body.
  - by intros (d & _ & _ & ->).
Qed.

Lemma carried_bytes m o q pes ra p : typed o -> promised m o q p -> carried o q pes ra p -> bytes pes.
Proof.
  intros Ho Hp. pose proof (promised_bytes m o q p Ho Hp) as Hb. unfold carried. destruct (bounded o); intros (_ & _ & _ & H); by apply H.
Qed.

Lemma outcome_impl m r n (P Q : Z -> list Z -> bool -> Prop) :
  (forall pid pes ra, P pid pes ra -> Q pid pes ra) -> outcome_of m r n P -> outcome_of m r n Q.
Proof.
  intros HPQ [H|[H|(m' & st & cd & pid & pes & ra & Hr & Hs & Hsp & HP)]]; [by left|right; by left|].
  right. right. exists m', st, cd, pid, pes, ra. split_and!; try done. by apply HPQ.
Qed.

Lemma run_outcome m o : mux_ok m -> stats_room m 1 (zlen (body_of o)) -> bytes (body_of o) ->
  outcome_of m (run m o) (zlen (body_of o)) (fun pid pes ra => exists p, promised m o pid p /\ carried o pid pes ra p).
Proof.
  intros Hm Hr Hb. destruct o as [h nal f t key form|h b t msid|h t b|h t b|h b t]; cbn [run body_of] in *.
  - eapply outcome_impl; [|by apply push_video_cases]. intros pid pes ra (v & body & Hl & -> & -> & Hp & Hd).
    eexists. split; [by exists v, body|exact Hd].
  - eapply outcome_impl; [|by apply push_klv_cases]. intros pid pes ra (k & Hl & -> & -> & Hd).
    eexists. split; [by exists k|exact Hd].
  - eapply outcome_impl; [|by apply push_audio_cases]. intros pid pes ra (a & Hl & -> & -> & Hd).
    eexists. split; [by exists a|exact Hd].
  - eapply outcome_impl; [|by apply push_subtitle_cases]. intros pid pes ra (d & body & Hl & -> & -> & Hs & Hd).
    eexists. split; [by exists d, body|exact Hd].
  - eapply outcome_impl; [|by apply push_data_cases]. intros pid pes ra (d & Hl & -> & -> & Hd).
    eexists. split; [by exists d|exact Hd].
Qed.


(** ** Pulling *)

Lemma copy_packets_ok {E} pkts : forall out i done_, Forall (fun p => zlen p = 188) pkts ->
  zlen done_ = i * 188 -> 188 * zlen pkts <= zlen out ->
  copy_packets (E:=E) (done_ ++ out) i pkts = Ok (done_ ++ concat pkts ++ zdrop (188 * zlen pkts) out).
Proof.
  induction pkts as [|pkt pkts IH]; intros out i done_ Hf Hd Hle; cbn [copy_packets concat].
  { by rewrite (@zlen_nil (list Z)), Z.mul_0_r. }
  apply Forall_cons in Hf as [Hp Hf]. rewrite Hp, Z.eqb_refl. rb. rewrite zlen_cons in *.
  pose proof (zlen_nonneg pkts). rewrite put_app by lia. rb.
  rewrite app_assoc, IH; [|done|rewrite zlen_app; lia|rewrite zlen_zdrop by lia; lia].
  rewrite Hp, zdrop_zdrop by lia. rewrite <- !app_assoc. do 4 f_equal. f_equal. lia.
Qed.

(** The packets one pull takes. *)
Definition pull_count (m : Muxer) (out : list Z) : Z := Z.min (zlen out / 188) (zlen (queue m)).

Lemma pull_count_range m out : 0 <= pull_count m out <= zlen (queue m) /\ 188 * pull_count m out <= zlen out.
Proof. unfold pull_count. pose proof (zlen_nonneg out). pose proof (zlen_nonneg (queue m)). dlia. Qed.

Lemma pull_ok {E} m out : Forall (fun p => zlen p = 188) (queue m) ->
  0 <= ts_packets_emitted m -> ts_packets_emitted m + pull_count m out <= u64_max ->
  0 <= ts_bytes_emitted m -> ts_bytes_emitted m + 188 * pull_count m out <= u64_max ->
  let k := pull_count m out in
  pull (E:=E) m out = Ok (k * 188, concat (ztake k (queue m)) ++ zdrop (188 * k) out,
    set_pulled m (zdrop k (queue m)) (ts_packets_emitted m + k) (ts_bytes_emitted m + k * 188)).
Proof.
  intros Hq Hp Hp' Hb Hb' k. destruct (pull_count_range m out) as [Hk Ho]. fold k in Hk, Ho, Hp', Hb'.
  unfold pull. destruct (zlen out <? 188) eqn:Hs; b2p.
  { assert (k = 0) as -> by (unfold k, pull_count; pose proof (zlen_nonneg out); pose proof (zlen_nonneg (queue m)); dlia).
    rewrite ztake_0, Z.mul_0_r, !zdrop_0, Z.mul_0_l, !Z.add_0_r. by destruct m. }
  fold (pull_count m out). fold k.
  assert (Hl : zlen (ztake k (queue m)) = k) by (apply zlen_ztake; lia).
  change out with ([] ++ out) at 1.
  rewrite (copy_packets_ok (ztake k (queue m)) out 0 []); [|by apply Forall_take|done|lia]. rb. rewrite Hl. cbn [app].
  unfold chk_u64, checked, u64_max in *.
  rewrite (proj2 (Z.leb_le _ (ts_packets_emitted m + k))), (proj2 (Z.ltb_lt (ts_packets_emitted m + k) _)) by lia. rb.
  rewrite (proj2 (Z.leb_le _ (ts_bytes_emitted m + k * 188))), (proj2 (Z.ltb_lt (ts_bytes_emitted m + k * 188) _)) by lia.
  by rb.
Qed.

Lemma zlen_concat_188 (l : list (list Z)) : Forall (fun p => zlen p = 188) l -> zlen (concat l) = 188 * zlen l.
Proof. induction 1 as [|p l Hp _ IH]; [done|]. cbn [concat]. rewrite zlen_app, zlen_cons, Hp, IH. lia. Qed.

(** ** What a session leaves alone *)

Definition evolves (m m' : Muxer) : Prop :=
  config m' = config m /\ pat_version m' = pat_version m /\ Forall2 same_slot (slots m) (slots m').

Lemma evolves_refl m : mux_ok m -> evolves m m.
Proof. intros Hm. do 2 (split; [done|]). apply Forall_Forall2_diag. eapply Forall_impl; [apply Hm|]. apply same_slot_refl. Qed.

Lemma evolves_trans m1 m2 m3 : evolves m1 m2 -> evolves m2 m3 -> evolves m1 m3.
Proof.
  intros (Hc1 & Hv1 & Hs1) (Hc2 & Hv2 & Hs2). do 2 (split; [congruence|]). eapply Forall2_trans; [|exact Hs1|exact Hs2].
  apply same_slot_trans.
Qed.

Lemma lookup_same {A} ss ss' (streams : ProgramSlot -> list (option A)) p w : Forall2 same_slot ss ss' ->
  (forall s s', same_slot s s' -> streams s' = streams s) ->
  lookup_stream ss' streams p w = lookup_stream ss streams p w.
Proof.
  intros Hf Hs. pose proof (get_same _ _ p Hf) as Hg. unfold lookup_stream.
  destruct (get ss p) as [s|], (get ss' p) as [s'|]; try done. by rewrite (Hs s s').
Qed.

Lemma promised_evolves m m' o q p : evolves m m' -> promised m' o q p -> promised m o q p.
Proof.
  intros (Hc & _ & Hs). unfold promised. rewrite Hc.
  destruct o; rewrite (lookup_same _ _ _ _ _ Hs) by (by intros ? ? (? & ? & -> & _)); done.
Qed.

Definition stream_pid (m : Muxer) (q : Z) : Prop := exists s, s ∈ slots m /\ q ∈ slot_pids s.

Lemma unseen_evolves m m' pre : evolves m m' -> unseen m' pre -> unseen m pre.
Proof.
  intros (_ & _ & Hs) Hu s q Hin Hq. apply list_elem_of_lookup in Hin as [i Hi].
  destruct (Forall2_lookup_l _ _ _ _ _ Hs Hi) as (s' & Hl & Hsame).
  destruct (same_slot_live _ _ Hsame) as (_ & Heq & _). apply (Hu s').
  - by eapply list_elem_of_lookup_2.
  - by rewrite Heq.
Qed.

(** A PSI tick sends the same tables throughout. *)
Lemma pmt_item_same s s' : same_slot s s' -> pmt_item s' = pmt_item s.
Proof. by intros (a & b & -> & _). Qed.

Lemma psi_items_evolves m m' : evolves m m' -> psi_items m' = psi_items m.
Proof.
  intros (_ & Hv & Hs). unfold psi_items. rewrite Hv, !pat_entries_programs, (same_slots_live _ _ Hs). f_equal.
  induction Hs as [|s s' ss ss' H _ IH]; [done|]. cbn [omap list_omap]. by rewrite (pmt_item_same s s'), IH.
Qed.

Lemma preamble_evolves m m' p due pre : evolves m m' -> preamble m' p due pre -> preamble m p due pre.
Proof. intros He (clocks & -> & Hc). exists clocks. by rewrite (psi_items_evolves m m'). Qed.

(** ** Sequences of operations *)

Inductive op : Type := Push (o : push_op) | Pull (out : list Z) | RequestPsi.

Definition push_log : Type := list (push_op * res MuxError unit).

(** The muxer after the operations, the bytes pulled, and every push with its
    result. *)
Fixpoint session {E} (m : Muxer) (os : list op) : res E (Muxer * list Z * push_log) :=
  match os with
  | [] => Ok (m, [], [])
  | Push o :: os =>
      match run m o with
      | (Panic, _) => Panic
      | (r, m) => let! (m, w, l) := session m os in Ok (m, w, (o, r) :: l)
      end
  | Pull out :: os =>
      let! (n, out, m) := pull m out in
      let! (m, w, l) := session m os in
      Ok (m, ztake n out ++ w, l)
  | RequestPsi :: os => session (request_psi m) os
  end.

Definition pushes (os : list op) : list push_op := omap (fun o => match o with Push o => Some o | _ => None end) os.

(** What the sequence needs of the 64-bit counters. *)
Fixpoint push_count (os : list op) : Z :=
  match os with [] => 0 | Push _ :: os => 1 + push_count os | _ :: os => push_count os end.
Fixpoint push_bytes (os : list op) : Z :=
  match os with [] => 0 | Push o :: os => zlen (body_of o) + push_bytes os | _ :: os => push_bytes os end.
Fixpoint pulls (os : list op) : Z :=
  match os with [] => 0 | Pull _ :: os => 1 + pulls os | _ :: os => pulls os end.

Lemma tallies os : 0 <= push_count os /\ 0 <= push_bytes os /\ 0 <= pulls os.
Proof.
  induction os as [|[o|out|] os IH]; cbn [push_count push_bytes pulls]; [lia| |lia|lia].
  pose proof (zlen_nonneg (body_of o)). lia.
Qed.

Record room (m : Muxer) (os : list op) : Prop := {
  room_stats : stats_room m (push_count os) (push_bytes os);
  room_packets : 0 <= ts_packets_emitted m;
  room_packets_max : ts_packets_emitted m + pulls os * buffer_packets (config m) <= u64_max;
  room_bytes : 0 <= ts_bytes_emitted m;
  room_bytes_max : ts_bytes_emitted m + 188 * (pulls os * buffer_packets (config m)) <= u64_max;
}.

Definition op_ok (o : op) : Prop := match o with Push o => bytes (body_of o) | _ => True end.

(** The items one logged push put on the wire. *)
Definition sends (m : Muxer) (e : push_op * res MuxError unit) (its : list item) : Prop :=
  match e.2 with
  | Ok _ => exists pid p pes pre af due s, pid_ok pid /\ promised m e.1 pid p /\
      carried e.1 pid pes (TsWriter.random_access af) p /\ s ∈ slots m /\ pid ∈ slot_pids s /\
      preamble m (pcr_pid s) due pre /\ Forall item_ok pre /\
      its = pre ++ [Unit pid af pes]
  | _ => its = []
  end.

Lemma sends_evolves m m' e its : evolves m m' -> sends m' e its -> sends m e its.
Proof.
  intros He. unfold sends. destruct (e.2); [|done..].
  intros (pid & p & pes & pre & af & due & s & Hpid & Hp & Hc & Hs & Hin & Hpre & Hok & ->).
  destruct (same_slots_pids _ _ _ (proj2 (proj2 He)) Hs) as (s0 & Hs0 & Heq & Hpcr).
  exists pid, p, pes, pre, af, due, s0. rewrite <- Heq, <- Hpcr. split_and!; try done; [by eapply promised_evolves|by eapply preamble_evolves].
Qed.

Lemma sends_ok m e its : sends m e its -> Forall item_ok its.
Proof.
  unfold sends. destruct (e.2); [|intros ->; constructor..].
  intros (pid & p & pes & pre & af & due & s & Hpid & _ & _ & _ & _ & _ & Hok & ->). apply Forall_app. split; [done|by apply Forall_singleton].
Qed.

(** The packets one logged push put on the wire. *)
Definition sent_as (m : Muxer) (e : push_op * res MuxError unit) (new : list (list Z)) : Prop :=
  match e.2 with
  | Ok _ => exists pid p pes pre af cc, pid_ok pid /\ promised m e.1 pid p /\
      carried e.1 pid pes (TsWriter.random_access af) p /\ 0 <= cc < 16 /\ unseen m pre /\
      new = pre ++ packetize (S (length pes)) pid true af pes cc
  | _ => new = []
  end.

Lemma sends_sent m e its f : mux_ok m -> in_range f -> sends m e its -> sent_as m e (render f its).
Proof.
  intros Hm Hf. unfold sends, sent_as. destruct (e.2); [|by intros ->..].
  intros (pid & p & pes & pre & af & due & s0 & Hpid & Hp & Hc & _ & _ & Hpre & Hok & ->).
  exists pid, p, pes, (render f pre), af, (after f pre pid). split_and!; try done;
    [by apply after_range|by apply after_range| |rewrite render_app; cbn [render packets]; by rewrite app_nil_r].
  destruct Hpre as (clocks & -> & Hclk). intros s q Hs Hq. apply aside_other; [done|done|]. apply Forall_app.
  split; [|by eapply clocks_aside]. destruct due; [by apply (psi_items_aside m q s)|constructor].
Qed.

(** A log's packets, push by push. *)
Fixpoint rendered (f : Z -> Z) (itss : list (list item)) : list (list (list Z)) :=
  match itss with [] => [] | its :: itss => render f its :: rendered (after f its) itss end.

Lemma rendered_concat itss : forall f, concat (rendered f itss) = render f (concat itss).
Proof. induction itss as [|its itss IH]; intros f; [done|]. cbn. by rewrite IH, render_app. Qed.

Lemma sends_log m log itss : mux_ok m -> Forall2 (sends m) log itss -> forall f, in_range f ->
  Forall2 (sent_as m) log (rendered f itss).
Proof.
  intros Hm. induction 1 as [|e its log itss He _ IH]; intros f Hf; constructor; [by apply sends_sent|by apply IH, after_range].
Qed.

Lemma stats_room_weaken m k n k' n' : stats_room m k n -> k' <= k -> n' <= n -> stats_room m k' n'.
Proof. intros Hr Hk Hn pid st Hst. specialize (Hr pid st Hst). lia. Qed.

(** One push, whatever its result. *)
Lemma push_step m o : mux_ok m -> zlen (queue m) <= buffer_packets (config m) ->
  stats_room m 1 (zlen (body_of o)) -> bytes (body_of o) ->
  exists r m' its, run m o = (r, m') /\ r <> Panic /\ mux_ok m' /\ evolves m m' /\
    queue m' = queue m ++ render (cc_of (counters m)) its /\ agree (cc_of (counters m')) (after (cc_of (counters m)) its) /\
    zlen (queue m') <= buffer_packets (config m) /\ sends m (o, r) its /\
    spends m m' (zlen (body_of o)) /\ ts_packets_emitted m' = ts_packets_emitted m /\
    ts_bytes_emitted m' = ts_bytes_emitted m /\
    (r <> Ok tt -> exists pes, m' = set_scratch m pes) /\
    (r = Ok tt -> Forall (fun s => psi_last s = None) (slots m) -> exists rest, its = psi_items m ++ rest).
Proof.
  intros Hm Hq Hr Hb. pose proof (zlen_nonneg (body_of o)) as Hz.
  assert (Hsp : forall pes, spends m (set_scratch m pes) (zlen (body_of o))).
  { intros pes k n' Hk Hn' Hroom. apply (stats_room_weaken m (1 + k) (zlen (body_of o) + n')); [exact Hroom|lia|lia]. }
  destruct (run_outcome m o Hm Hr Hb) as [(e & ->)|[(pes & ->)|(m' & st & cd & pid & pes & ra & -> & Hsent & Hspend & p & Hp & Hc)]].
  - exists (Err e), m, []. cbn [render]. rewrite app_nil_r.
    assert (Hself : m = set_scratch m (pes_scratch m)) by (by destruct m).
    split_and!; try done; [by apply evolves_refl|rewrite Hself at 2; apply Hsp|]. intros _. by exists (pes_scratch m).
  - eexists _, _, []. cbn [render]. rewrite app_nil_r. split_and!; try done; [by apply scratch_ok|exact (evolves_refl m Hm)|by exists pes].
  - destruct Hsent as (Hpid & pre & af & due & s & <- & Hs & Hin & Hpre & Hx & Hcap & Hpsi).
    pose proof (extends_ok _ _ _ (scratch_ok m pes Hm) Hx) as Hm'. pose proof (extends_items _ _ _ Hx) as Hok.
    apply Forall_app in Hok as [Hok _]. destruct Hx as (ss & c & -> & _ & Hag & Hss & _).
    eexists (Ok tt), _, _. split; [reflexivity|]. split_and!; try done; [by apply stats_ok| |].
    + by exists pid, p, pes, pre, af, due, s.
    + intros _ Hnone. destruct Hpre as (clocks & -> & _). rewrite (Hpsi Hnone). rewrite <- app_assoc. by eexists.
Qed.

Lemma psi_request_ok m : mux_ok m -> mux_ok (request_psi m) /\ evolves m (request_psi m).
Proof.
  intros Hm. assert (Hs : Forall2 same_slot (slots m) (slots (request_psi m))).
  { cbn. apply Forall2_fmap_r, Forall_Forall2_diag. eapply Forall_impl; [apply Hm|]. intros s Hok.
    exists None, (pcr_last s). split_and!; [by destruct s|done|apply Hok]. }
  split; [|split; [done|by split]]. apply (extends_ok m _ []); [done|]. exists (slots (request_psi m)), (counters m).
  split_and!; [|apply Hm|done|done|constructor]. unfold request_psi, set_slots. by rewrite app_nil_r.
Qed.

Lemma pulled_ok m k e b : mux_ok m -> mux_ok (set_pulled m (zdrop k (queue m)) e b).
Proof. intros [? ? ? ? Hq ? ?]. split; try done. cbn. by apply Forall_drop. Qed.

(** A session never panics; what was pulled and what is queued are the items of
    its pushes, in order, behind what was queued before; on a muxer that has
    sent no tables they start with them. *)
Lemma session_items {E} os : forall m, mux_ok m -> zlen (queue m) <= buffer_packets (config m) ->
  Forall op_ok os -> room m os ->
  exists m' w log itss, session (E:=E) m os = Ok (m', w, log) /\ mux_ok m' /\ evolves m m' /\
    zlen (queue m') <= buffer_packets (config m) /\
    concat (queue m) ++ concat (render (cc_of (counters m)) (concat itss)) = w ++ concat (queue m') /\
    Forall2 (sends m) log itss /\ map fst log = pushes os /\
    (Forall (fun s => psi_last s = None) (slots m) -> concat itss = [] \/ exists rest, concat itss = psi_items m ++ rest).
Proof.
  induction os as [|[o|out|] os IH]; intros m Hm Hq Hok Hroom; cbn [session].
  - exists m, [], [], []. cbn [concat render]. rewrite app_nil_r. split_and!; try done; [by apply evolves_refl|intros _; by left].
  - apply Forall_cons in Hok as [Hb Hok]. destruct Hroom as [Hst Hp Hpm Hy Hym]. cbn [op_ok push_count push_bytes pulls] in *.
    destruct (tallies os) as (Hc & Hbs & _).
    destruct (push_step m o Hm Hq) as (r & m1 & its & -> & Hr & Hm1 & He1 & Hq1 & Hag & Hcap & Hs & Hsp & Hpe & Hye & Hfail & Hpsi);
      [by eapply stats_room_weaken; [exact Hst|lia|lia]|done|].
    destruct (IH m1 Hm1) as (m' & w & log & itss & Hses & Hm' & He' & Hcap' & Hcat & Hf & Hlog & Hopen).
    { by rewrite (proj1 He1). } { done. }
    { split; rewrite ?Hpe, ?Hye, ?(proj1 He1); try done. by apply Hsp. }
    assert (Hf' : Forall2 (sends m) log itss) by (eapply Forall2_impl; [exact Hf|]; intros e n; by apply sends_evolves).
    assert (Hoks : Forall item_ok (concat itss)).
    { clear -Hf'. induction Hf' as [|e l log ls He _ IH]; [constructor|]. cbn. apply Forall_app. split; [by eapply sends_ok|done]. }
    exists m', w, ((o, r) :: log), (its :: itss). rewrite (proj1 He1) in Hcap'. rewrite Hses. split; [by destruct r|].
    split_and!; [done|by eapply evolves_trans|done| |by constructor|cbn; by rewrite Hlog|].
    + cbn [concat]. rewrite render_app, <- (proj1 (render_agree _ _ _ Hag Hoks)), concat_app, <- Hcat, Hq1, concat_app, <- app_assoc. done.
    + intros Hnone. cbn [concat]. destruct r as [[]|e|]; [| |done].
      * destruct (Hpsi eq_refl Hnone) as (rest & ->). right. exists (rest ++ concat itss). by rewrite app_assoc.
      * cbn in Hs. subst its. destruct (Hfail ltac:(done)) as (pes & ->). exact (Hopen Hnone).
  - apply Forall_cons in Hok as [_ Hok]. destruct Hroom as [Hst Hp Hpm Hy Hym]. cbn [push_count push_bytes pulls] in *.
    destruct (tallies os) as (_ & _ & Hpl). destruct (pull_count_range m out) as [Hk Ho].
    set (k := pull_count m out) in *. assert (0 <= pulls os * buffer_packets (config m)) by (apply Z.mul_nonneg_nonneg; lia).
    rewrite pull_ok by (apply Hm || (fold k; lia)). fold k. rb.
    destruct (IH (set_pulled m (zdrop k (queue m)) (ts_packets_emitted m + k) (ts_bytes_emitted m + k * 188)))
      as (m' & w & log & itss & -> & Hm' & He' & Hcap' & Hcat & Hf & Hlog & Hopen).
    { by apply pulled_ok. } { cbn. rewrite zlen_zdrop by lia. lia. } { done. } { split; cbn; try done; lia. }
    rb. exists m', (concat (ztake k (queue m)) ++ w), log, itss. split_and!; try done.
    + do 4 f_equal. apply ztake_app'. rewrite zlen_concat_188 by (apply Forall_take, Hm). rewrite zlen_ztake by lia. lia.
    + cbn [set_pulled queue counters] in Hcat. rewrite <- app_assoc, <- Hcat, app_assoc.
      by rewrite <- (concat_app (ztake k (queue m))), ztake_zdrop.
  - apply Forall_cons in Hok as [_ Hok]. destruct (psi_request_ok m Hm) as [Hm1 He1].
    destruct (IH (request_psi m) Hm1 Hq Hok) as (m' & w & log & itss & Hses & Hm' & He' & Hcap' & Hcat & Hf & Hlog & Hopen);
      [by destruct Hroom|].
    exists m', w, log, itss. split_and!; try done; [by eapply evolves_trans| |].
    + eapply Forall2_impl; [exact Hf|]. intros e n. by apply sends_evolves.
    + intros _. rewrite <- (psi_items_evolves m (request_psi m)) by done. apply Hopen. cbn. by apply Forall_map, Forall_true.
Qed.

Lemma session_ok {E} os m : mux_ok m -> zlen (queue m) <= buffer_packets (config m) -> Forall op_ok os -> room m os ->
  exists m' w log news, session (E:=E) m os = Ok (m', w, log) /\ mux_ok m' /\ evolves m m' /\
    zlen (queue m') <= buffer_packets (config m) /\
    concat (queue m) ++ concat (concat news) = w ++ concat (queue m') /\
    Forall (fun p => zlen p = 188) (concat news) /\ Forall2 (sent_as m) log news /\
    map fst log = pushes os.
Proof.
  intros Hm Hq Hok Hroom. destruct (session_items (E:=E) os m Hm Hq Hok Hroom) as (m' & w & log & itss & Hs & Hm' & He & Hcap & Hcat & Hf & Hlog & _).
  exists m', w, log, (rendered (cc_of (counters m)) itss). rewrite rendered_concat. split_and!; try done; [apply render_188|].
  by apply sends_log; [..|apply counters_range, Hm].
Qed.

(** ** What a receiver makes of a log *)

(** The packets the receiver of [q] owes its client for one logged push. *)
Definition answered (m : Muxer) (q : Z) (e : push_op * res MuxError unit) (ps : list PesPayload) : Prop :=
  match e.2 with
  | Ok _ => exists pid p, promised m e.1 pid p /\ ps = (if pid =? q then [p] else [])
  | _ => ps = []
  end.

(** One logged push, seen from [q]: nothing, or the packets of its PES. *)
Lemma answer m q e new : stream_pid m q -> sent_as m e new ->
  (answered m q e [] /\ Forall (other q) new) \/
  exists p pes pre af cc, e.2 = Ok tt /\ pid_ok q /\ promised m e.1 q p /\ answered m q e [p] /\
    carried e.1 q pes (TsWriter.random_access af) p /\ 0 <= cc < 16 /\ Forall (other q) pre /\
    new = pre ++ packetize (S (length pes)) q true af pes cc.
Proof.
  intros (s & Hs & Hq). unfold sent_as, answered. destruct (e.2) as [[]|err|]; [|intros ->; left; by split..].
  intros (pid & p & pes & pre & af & cc & Hpid & Hp & Hc & Hcc & Hu & ->). pose proof (Hu s q Hs Hq) as Hpre.
  destruct (decide (pid = q)) as [->|Hne].
  - right. exists p, pes, pre, af, cc. split_and!; try (done || lia). exists q, p. by rewrite Z.eqb_refl.
  - left. split; [exists pid, p; split; [done|]; by rewrite (proj2 (Z.eqb_neq _ _))|].
    apply Forall_app. split; [done|]. apply packetize_other; [done|done|unfold zlen; lia|done].
Qed.

Lemma sent_nonempty m o new : sent_as m (o, Ok tt) new -> new <> [].
Proof.
  intros (pid & p & pes & pre & af & cc & _ & _ & Hc & _ & _ & ->) He. apply app_eq_nil in He as [_ He].
  assert (Hne : pes <> []).
  { unfold carried in Hc. destruct (bounded (o, Ok tt : res MuxError unit).1); destruct Hc as [(hi & lo & Hhi & _) _]; by destruct pes. }
  destruct pes; [done|]. discriminate He.
Qed.

(** A receiver with nothing in flight on [q] and room for a largest PES. *)
Record ready (R : Reassembler) (q : Z) : Prop := {
  ready_idle : by_pid R !! q = None;
  ready_total : 0 <= total_buffered R;
  ready_pid_cap : 65541 <= cap_per_pid R;
  ready_cap : total_buffered R + 65541 <= cap_total R;
}.

Lemma announces_any pes v n : announces pes false (Some n) -> announces pes v (Some n).
Proof.
  intros (hi & lo & Hhi & Hlo & [H|(_ & Hf & _)]); [|done]. exists hi, lo. split_and!; [done|done|by left].
Qed.

Lemma announces_nonempty pes v d : announces pes v d -> pes <> [].
Proof. intros (hi & lo & Hhi & _). by destruct pes. Qed.

(** One bounded PES. *)
Lemma receive_bounded {E} R q v p pes ra af cc : ready R q -> pid_ok q -> 0 <= cc < 16 ->
  delivers q pes ra p -> ra = TsWriter.random_access af ->
  exists R', receive (E:=E) R q v (packetize (S (length pes)) q true af pes cc) = Ok (R', [Complete p]) /\ ready R' q.
Proof.
  intros [Hi Ht Hc Hct] Hq Hcc (Ha & Hp & Hz & _) ->.
  destruct (receive_packetized (E:=E) R q v af (S (length pes)) pes cc Hq Hcc) as (first & rest & -> & Hcat & Hne);
    [by eapply announces_nonempty|unfold zlen; lia|].
  rewrite <- Hcat in Ha, Hp, Hz.
  destruct (feed_pes_bounded (E:=E) R q first rest (TsWriter.random_access af) v p) as (R' & -> & Hb & Hbb & Hk1 & Hk2);
    try done; [by apply announces_any|lia|lia|].
  exists R'. split; [done|]. unfold buffered_bytes in Hbb. split; rewrite ?Hb, ?Hbb, ?Hk1, ?Hk2; done.
Qed.

Lemma receive_log {E} m q v log news : Forall2 (sent_as m) log news -> stream_pid m q ->
  (forall o p, o ∈ map fst log -> promised m o q p -> bounded o = true) ->
  forall R, ready R q ->
  exists R' pss, receive (E:=E) R q v (concat news) = Ok (R', map Complete (concat pss)) /\ ready R' q /\
    Forall2 (answered m q) log pss.
Proof.
  intros Hf Hq. induction Hf as [|e new log news He Hf IH]; intros Hb R HR.
  { exists R, []. by split_and!. }
  cbn [concat map] in *.
  assert (Hb' : forall o p, o ∈ map fst log -> promised m o q p -> bounded o = true)
    by (intros o p Ho; apply Hb; by constructor).
  destruct (answer m q e new Hq He) as [[Ha Ho]|(p & pes & pre & af & cc & Hr & Hpid & Hp & Ha & Hc & Hcc & Hpre & ->)].
  - rewrite receive_other by done. destruct (IH Hb' R HR) as (R' & pss & -> & HR' & Hpss).
    exists R', ([] :: pss). split_and!; [done|done|by constructor].
  - rewrite <- app_assoc, receive_other, receive_app by done.
    unfold carried in Hc. rewrite (Hb e.1 p) in Hc; [|constructor|done].
    destruct (receive_bounded (E:=E) R q v p pes _ af cc HR Hpid Hcc Hc eq_refl) as (R1 & -> & HR1). rb.
    destruct (IH Hb' R1 HR1) as (R' & pss & -> & HR' & Hpss). rb.
    exists R', ([p] :: pss). split_and!; [done|done|by constructor].
Qed.

(** A video receiver: at most one unbounded PES is open on [q], and both caps
    leave room for a PES of [n] bytes in its place. *)
Record watching (R : Reassembler) (q n : Z) (o : option (list Z * bool * PesPayload)) : Prop := {
  watch_holds : holds R q o;
  watch_total : held_len o <= total_buffered R;
  watch_pid_cap : n <= cap_per_pid R;
  watch_cap : total_buffered R - held_len o + n <= cap_total R;
}.

Lemma receive_unbounded {E} R q n o p pes af cc : watching R q n o -> pid_ok q -> 0 <= cc < 16 ->
  delivers_unbounded q pes (TsWriter.random_access af) p -> zlen pes <= n ->
  exists R', receive (E:=E) R q true (packetize (S (length pes)) q true af pes cc) = Ok (R', released o) /\
    watching R' q n (Some (pes, TsWriter.random_access af, p)).
Proof.
  intros [Ho Ht Hc Hct] Hq Hcc (Ha & Hp & _) Hn.
  destruct (receive_packetized (E:=E) R q true af (S (length pes)) pes cc Hq Hcc) as (first & rest & -> & Hcat & Hne);
    [by eapply announces_nonempty|unfold zlen; lia|].
  rewrite <- Hcat in Ha.
  destruct (feed_pes_unbounded (E:=E) R q o first rest (TsWriter.random_access af)) as (R' & -> & Hb & Hbb & Hk1 & Hk2);
    rewrite ?Hcat in *; try (done || lia).
  exists R'. split; [done|]. split; cbn [holds held_len]; rewrite ?Hb, ?Hbb, ?Hk1, ?Hk2, ?lookup_insert_eq; [|lia..].
  split_and!; [done|done|lia].
Qed.

Lemma receive_video_log {E} m q n log news : Forall2 (sent_as m) log news -> stream_pid m q ->
  (forall o p, o ∈ map fst log -> promised m o q p -> bounded o = false /\ 19 + zlen (payload p) <= n) ->
  forall R o, watching R q n o ->
  exists R' outs o' pss, receive (E:=E) R q true (concat news) = Ok (R', outs) /\ watching R' q n o' /\
    released o ++ map Complete (concat pss) = outs ++ released o' /\ Forall2 (answered m q) log pss.
Proof.
  intros Hf Hq. induction Hf as [|e new log news He Hf IH]; intros Hb R o HR.
  { exists R, [], o, []. rewrite app_nil_r. by split_and!. }
  cbn [concat map] in *.
  assert (Hb' : forall o p, o ∈ map fst log -> promised m o q p -> bounded o = false /\ 19 + zlen (payload p) <= n)
    by (intros o' p Ho; apply Hb; by constructor).
  destruct (answer m q e new Hq He) as [[Ha Ho]|(p & pes & pre & af & cc & Hr & Hpid & Hp & Ha & Hc & Hcc & Hpre & ->)].
  - rewrite receive_other by done. destruct (IH Hb' R o HR) as (R' & outs & o' & pss & -> & HR' & Heq & Hpss).
    exists R', outs, o', ([] :: pss). split_and!; [done|done|done|by constructor].
  - rewrite <- app_assoc, receive_other, receive_app by done.
    unfold carried in Hc. destruct (Hb e.1 p) as [Hub Hn]; [constructor|done|]. rewrite Hub in Hc.
    pose proof Hc as (_ & _ & Hz & _).
    destruct (receive_unbounded (E:=E) R q n o p pes af cc HR Hpid Hcc Hc) as (R1 & -> & HR1); [lia|]. rb.
    destruct (IH Hb' R1 _ HR1) as (R' & outs & o' & pss & -> & HR' & Heq & Hpss). rb.
    exists R', (released o ++ outs), o', ([p] :: pss). split_and!; [done|done| |by constructor].
    rewrite <- app_assoc, <- Heq. done.
Qed.

End Session.

(** * The stream a shorthand addresses *)
Module Lone.
Import MuxTypes MuxState MuxHandles MuxInv HandlePack.

Section lone.
Context {A : Type} (streams : ProgramSlot -> list (option A)).
Implicit Types (ss : list ProgramSlot) (l : list (option A)).

Lemma some_count_nonneg l : 0 <= some_count l.
Proof. unfold some_count. induction l as [|[a|] l IH]; cbn; lia. Qed.

Lemma live_count_nonneg ss : 0 <= live_stream_count ss streams.
Proof.
  induction ss as [|s ss IH]; [done|]. cbn [live_stream_count foldr]. fold (live_stream_count ss streams).
  pose proof (some_count_nonneg (streams s)). destruct (is_live s); lia.
Qed.

Lemma get_cons {B} (x : B) (l : list B) i : 0 <= i -> get (x :: l) (1 + i) = get l i.
Proof.
  intros Hi. unfold get. rewrite !(proj2 (Z.ltb_ge _ 0)) by lia.
  replace (Z.to_nat (1 + i)) with (S (Z.to_nat i)) by lia. done.
Qed.

Lemma position_some l : 0 < some_count l ->
  exists w a, position is_some l = Some w /\ get l w = Some (Some a) /\ 0 <= w < zlen l.
Proof.
  induction l as [|[a|] l IH]; cbn [some_count foldr position is_some]; [lia| |]; intros Hc.
  - exists 0, a. rewrite zlen_cons. split_and!; [done|done|lia|zlia].
  - destruct (IH Hc) as (w & a & -> & Hg & Hw). exists (1 + w), a. rewrite get_cons, zlen_cons by lia.
    split_and!; [done|done|lia|lia].
Qed.

Lemma position_none l : some_count l = 0 -> position is_some l = None.
Proof.
  induction l as [|[a|] l IH]; cbn [some_count foldr position is_some]; [done| |]; intros Hc.
  - pose proof (some_count_nonneg l) as Hn. unfold some_count in Hn. lia.
  - by rewrite IH.
Qed.

Lemma find_lone_some ss : forall p, 0 < live_stream_count ss streams ->
  exists i w s a, find_lone p ss streams = Some (p + i, w) /\ get ss i = Some s /\ is_live s = true /\
    get (streams s) w = Some (Some a) /\ 0 <= i < zlen ss /\ 0 <= w < zlen (streams s).
Proof.
  induction ss as [|s ss IH]; intros p; cbn [live_stream_count foldr find_lone]; [lia|].
  fold (live_stream_count ss streams). intros Hc. rewrite zlen_cons. pose proof (zlen_nonneg ss).
  pose proof (some_count_nonneg (streams s)) as Hn. destruct (is_live s) eqn:Hl.
  - destruct (Z.eq_dec (some_count (streams s)) 0) as [H0|H0].
    + rewrite position_none by done. destruct (IH (p + 1)) as (i & w & s' & a & -> & Hg & Hl' & Hw & Hi & Hr); [lia|].
      exists (1 + i), w, s', a. rewrite get_cons by lia. split_and!; try (done || lia). do 2 f_equal. lia.
    + destruct (position_some (streams s)) as (w & a & -> & Hg & Hw); [lia|].
      exists 0, w, s, a. rewrite Z.add_0_r. split_and!; try (done || lia).
  - destruct (IH (p + 1)) as (i & w & s' & a & -> & Hg & Hl' & Hw & Hi & Hr); [lia|].
    exists (1 + i), w, s', a. rewrite get_cons by lia. split_and!; try (done || lia). do 2 f_equal. lia.
Qed.

Lemma unpack_pack p w : 0 <= p < 16 -> 0 <= w < 16 -> unpack (p * 16 + w) = (p, w).
Proof.
  intros Hp Hw. unfold unpack. destruct (unpack_val (p * 16 + w)) as [-> ->]; [lia|]. f_equal; dlia.
Qed.
End lone.

(** The handle names this stream, in a live program. *)
Definition addresses {A} (ss : list ProgramSlot) (streams : ProgramSlot -> list (option A)) (h : Z) (a : A) : Prop :=
  exists s, get ss (unpack h).1 = Some s /\ is_live s = true /\ lookup_stream ss streams (unpack h).1 (unpack h).2 = Some a.

(** A shorthand push addresses the one live stream of its kind: with none it
    is refused with the kind's own error, with several it is refused with their
    number, and with exactly one the handle it builds names that stream, in a
    live program. *)
Theorem resolve_lone_exact {A : Type} (ss : list ProgramSlot) (streams : ProgramSlot -> list (option A))
    (none : MuxError) (kind : MuxStreamKind) :
  zlen ss <= 16 -> (forall s, s ∈ ss -> zlen (streams s) <= 16) ->
  let n := live_stream_count ss streams in
  (n = 0 -> resolve_lone ss streams none kind = Err none) /\
  (1 < n -> resolve_lone ss streams none kind = Err (AmbiguousTarget kind n)) /\
  (n = 1 -> exists h a, resolve_lone ss streams none kind = Ok h /\ addresses ss streams h a).
Proof.
  intros Hss Hst n. unfold resolve_lone. fold n. split_and!; intros Hn.
  - by rewrite Hn.
  - rewrite (proj2 (Z.eqb_neq n 0)), (proj2 (Z.ltb_lt 1 n)) by lia. done.
  - rewrite (proj2 (Z.eqb_neq n 0)), (proj2 (Z.ltb_ge 1 n)) by lia. unfold locate_lone_stream.
    destruct (find_lone_some streams ss 0) as (i & w & s & a & -> & Hg & Hl & Ha & Hi & Hw); [fold n; lia|].
    pose proof (Hst s (get_elem _ _ _ Hg)). rb. cbn [Z.add]. rewrite pack_val by lia.
    exists (i * 16 + w), a. split; [done|]. exists s. rewrite unpack_pack by lia. cbn [fst snd]. split_and!; [done|done|].
    unfold lookup_stream. by rewrite Hg, Ha.
Qed.

End Lone.

(** * What the multiplexer guarantees *)
Module MuxTheorems.
Import Common TsWriter TsCounters PesWriter PesParse Reassembler Chunks MuxTypes MuxState MuxHandles MuxSchedule MuxPush HandlePack
  Packetize Receiver MuxInv Preamble Reserve Transmit Handlers Session.

(** A muxer with one program: H.264 video, synchronous metadata and a data stream. *)
Definition demo_program : MuxerProgramConfig :=
  {| MuxTypes.program_number := 1; MuxTypes.pmt_pid := 0x1000;
     MuxTypes.streams := [SpecVideo 0x100 VideoH264; SpecKlv 0x101 SynchronousMetadata true; SpecData 0x102 6 false];
     MuxTypes.pcr_pid := None; program_descriptors := []; stream_descriptors := [[]; []; []] |}.

Definition demo_slot : ProgramSlot :=
  {| live := Some demo_program; video := [Some {| MuxState.video_pid := 0x100; video_codec := VideoH264 |}];
     klv := [Some {| klv_pid := 0x101; MuxState.klv_stream_type := SynchronousMetadata; klv_carries_pts := true |}];
     audio := []; subtitle := [];
     data := [Some {| data_pid := 0x102; data_stream_type := 6; data_carries_pts := false |}];
     pcr_pid := 0x100; pmt_descriptor_cache := [[]; [0x05; 4; 0x4B; 0x4C; 0x56; 0x41]; []]; pmt_version := 0;
     pmt_identity := []; psi_last := None; pcr_last := None; last_program_number := 1; placed_pids := ∅ |}.

Definition demo : Muxer :=
  {| config := {| programs := [demo_program]; pcr_interval_ms := 40; psi_interval_ms := 100; buffer_packets := 64;
                  av1_carriage := InteropRawObu |};
     slots := [demo_slot]; program_order := [0]; pcr_interval_27mhz := 1080000; psi_interval_90khz := 9000;
     queue := []; counters := TsWriter.new; pat_version := 0; pat_identity := [(1, 0x1000)];
     pmt_versions_by_pid := ∅; ts_packets_emitted := 0; ts_bytes_emitted := 0; per_stream := ∅;
     stream_codec_counters := ∅; pes_scratch := [] |}.

Lemma demo_ok : mux_ok demo.
Proof.
  split; cbn [demo counters slots pat_version queue].
  - apply TsCounters.new_ok.
  - constructor; [|constructor]. split; cbn [demo_slot pcr_pid psi_last pcr_last live]; [unfold pid_ok; lia| |done|done|].
    + unfold slot_pids. cbn. repeat (constructor; [by vm_compute|]). constructor.
    + intros prog [= <-]. split; [by vm_compute|]. split; [by vm_compute|]. eexists. split; [reflexivity|]. vm_compute. discriminate.
  - vm_compute. discriminate.
  - lia.
  - constructor.
  - intros s p prog Hs Hp Hl. cbn in Hl. apply list_elem_of_singleton in Hl as ->.
    apply list_elem_of_singleton in Hs as ->. cbn in *. set_solver.
  - intros s p Hs Hp. apply list_elem_of_singleton in Hs as ->. cbn in *. set_solver.
Qed.

(** C37: a push either succeeds, and then its packets are appended to the queue
    within the configured capacity, or fails and leaves everything but the
    scratch buffer as it was; it never panics and keeps the invariant. *)
Theorem push_all_or_nothing (m : Muxer) (o : push_op) :
  mux_ok m -> zlen (queue m) <= buffer_packets (config m) ->
  stats_room m 1 (zlen (body_of o)) -> bytes (body_of o) ->
  exists r m', run m o = (r, m') /\ mux_ok m' /\ zlen (queue m') <= buffer_packets (config m) /\
    ((r = Ok tt /\ exists new, queue m' = queue m ++ new /\ new <> [] /\ Forall (fun p => zlen p = 188) new) \/
     (exists e, r = Err e /\ exists pes, m' = set_scratch m pes)).
Proof.
  intros Hm Hq Hr Hb.
  destruct (push_step m o Hm Hq Hr Hb) as (r & m' & its & -> & Hp & Hm' & _ & Hqq & _ & Hcap & Hs & _ & _ & _ & Hf & _).
  exists r, m'. split_and!; try done. destruct r as [[]|e|]; [left|right|done].
  - split; [done|]. eexists. split_and!; [exact Hqq| |apply render_188]. apply (sent_nonempty m o).
    by apply sends_sent; [..|apply counters_range, Hm|].
  - exists e. split; [done|]. by apply Hf.
Qed.

Lemma push_all_or_nothing_witness :
  exists r m', run demo (OpData 0 [1; 2; 3] 9000) = (r, m') /\ zlen (queue m') <= 64 /\
    zlen (queue m') = 4 /\ r = Ok tt.
Proof.
  destruct (push_all_or_nothing demo (OpData 0 [1; 2; 3] 9000)) as (r & m' & Hr & _ & Hq & _).
  - apply demo_ok.
  - vm_compute. discriminate.
  - intros pid st H. discriminate H.
  - repeat constructor; lia.
  - exists r, m'. split; [exact Hr|split; [exact Hq|]]. vm_compute in Hr. injection Hr as <- <-. split; reflexivity.
Defined.

(** C3: in any sequence of pushes, pulls and PSI requests on any number of
    streams, the receiver of a stream whose PES are bounded (audio, metadata,
    subtitles, data) gets, from the packets pulled and still queued, exactly one
    complete packet per successful push on its PID, in order, with the stream
    id, timestamp and payload promised, and is left idle. Nothing panics. *)
Theorem session_delivers (m : Muxer) (os : list op) (q : Z) (v : bool) :
  mux_ok m -> queue m = [] -> 0 <= buffer_packets (config m) -> Forall op_ok os -> room m os ->
  stream_pid m q -> (forall o p, o ∈ pushes os -> promised m o q p -> bounded o = true) ->
  exists m' w log pkts, session (E:=Empty_set) m os = Ok (m', w, log) /\ map fst log = pushes os /\
    w ++ concat (queue m') = concat pkts /\ Forall (fun p => zlen p = 188) pkts /\
    forall R, ready R q ->
    exists R' pss, receive (E:=Empty_set) R q v pkts = Ok (R', map Complete (concat pss)) /\ ready R' q /\
      Forall2 (answered m q) log pss.
Proof.
  intros Hm Hq Hcap Hok Hroom Hpid Hb.
  destruct (session_ok (E:=Empty_set) os m Hm) as (m' & w & log & news & Hs & _ & _ & _ & Hcat & H188 & Hf & Hlog);
    [by rewrite Hq|done|done|].
  rewrite Hq in Hcat. exists m', w, log, (concat news). split_and!; try done.
  intros R HR. apply (receive_log m q v log news); try done. by rewrite Hlog.
Qed.

(** C4: the same for a video stream, whose PES carry no length: every complete
    packet but the last has been delivered, in order, and the last is open in
    the reassembler, to be delivered at the next unit start. *)
Theorem video_session_delivers (m : Muxer) (os : list op) (q n : Z) :
  mux_ok m -> queue m = [] -> 0 <= buffer_packets (config m) -> Forall op_ok os -> room m os ->
  stream_pid m q ->
  (forall o p, o ∈ pushes os -> promised m o q p -> bounded o = false /\ 19 + zlen (payload p) <= n) ->
  exists m' w log pkts, session (E:=Empty_set) m os = Ok (m', w, log) /\ map fst log = pushes os /\
    w ++ concat (queue m') = concat pkts /\ Forall (fun p => zlen p = 188) pkts /\
    forall R, watching R q n None ->
    exists R' outs o pss, receive (E:=Empty_set) R q true pkts = Ok (R', outs) /\ watching R' q n o /\
      map Complete (concat pss) = outs ++ released o /\ Forall2 (answered m q) log pss.
Proof.
  intros Hm Hq Hcap Hok Hroom Hpid Hb.
  destruct (session_ok (E:=Empty_set) os m Hm) as (m' & w & log & news & Hs & _ & _ & _ & Hcat & H188 & Hf & Hlog);
    [by rewrite Hq|done|done|].
  rewrite Hq in Hcat. exists m', w, log, (concat news). split_and!; try done.
  intros R HR. apply (receive_video_log m q n log news Hf Hpid) with (o := None); [by rewrite Hlog|done].
Qed.

(** A session on the muxer above: data, a pull, a PSI request, metadata, video. *)
Definition demo_ops : list op :=
  [Push (OpData 0 [1; 2; 3] 9000); Pull (zrep 400 0); RequestPsi; Push (OpKlv 0 [0x06; 0x0E] 9000 0);
   Push (OpVideo 0 [0; 0; 1; 9; 0x10] (PtsOnly 9000) 9000 true Elementary); Pull (zrep 188 0);
   Push (OpVideo 0 [0; 0; 1; 9; 0x30] (PtsAndDts 12000 9000) 12000 false Elementary)].

Lemma demo_room : Forall op_ok demo_ops /\ room demo demo_ops.
Proof.
  split.
  - repeat constructor; cbn; lia.
  - split; [intros pid st H; discriminate H|vm_compute; discriminate..].
Qed.

Lemma demo_pushes o : o ∈ pushes demo_ops ->
  o = OpData 0 [1; 2; 3] 9000 \/ o = OpKlv 0 [0x06; 0x0E] 9000 0 \/
  o = OpVideo 0 [0; 0; 1; 9; 0x10] (PtsOnly 9000) 9000 true Elementary \/
  o = OpVideo 0 [0; 0; 1; 9; 0x30] (PtsAndDts 12000 9000) 12000 false Elementary.
Proof. cbn. rewrite !elem_of_cons, elem_of_nil. tauto. Qed.

Lemma session_delivers_witness :
  exists m' w log pkts R' p, session (E:=Empty_set) demo demo_ops = Ok (m', w, log) /\
    w ++ concat (queue m') = concat pkts /\
    receive (E:=Empty_set) (Reassembler.new 70000 100000) 0x101 false pkts = Ok (R', [Complete p]) /\
    payload p = [0; 0; 0xDF; 0; 2; 0x06; 0x0E].
Proof.
  destruct (session_delivers demo demo_ops 0x101 false) as (m' & w & log & pkts & Hs & _ & Hw & _ & HR).
  - apply demo_ok.
  - reflexivity.
  - vm_compute. discriminate.
  - apply demo_room.
  - apply demo_room.
  - exists demo_slot. split; [constructor|]. cbn. right. constructor.
  - intros o p [-> | [-> | [-> | ->]]]%demo_pushes; [reflexivity..| |].
    + intros (x & body & [= <-] & Hq & _). discriminate Hq.
    + intros (x & body & [= <-] & Hq & _). discriminate Hq.
  - destruct (HR (Reassembler.new 70000 100000)) as (R' & pss & Hr & _ & Hf).
    { split; [reflexivity|vm_compute; discriminate..]. }
    assert (Hlog : log = map (fun o => (o, Ok tt)) (pushes demo_ops)) by (vm_compute in Hs; injection Hs as _ _ <-; reflexivity).
    subst log. cbn in Hf.
    inversion Hf as [|? p1 ? l1 H1 Hf1]; subst. inversion Hf1 as [|? p2 ? l2 H2 Hf2]; subst.
    inversion Hf2 as [|? p3 ? l3 H3 Hf3]; subst. inversion Hf3 as [|? p4 ? l4 H4 Hf4]; subst. inversion Hf4; subst.
    destruct H1 as (? & ? & (? & [= <-] & -> & ->) & ->). destruct H2 as (? & ? & (? & [= <-] & -> & ->) & ->).
    destruct H3 as (? & ? & (? & ? & [= <-] & -> & _ & ->) & ->). destruct H4 as (? & ? & (? & ? & [= <-] & -> & _ & ->) & ->).
    exists m', w. eexists _, pkts, R', _. split; [exact Hs|]. split; [exact Hw|]. split; [exact Hr|reflexivity].
Defined.

Lemma video_session_delivers_witness :
  exists m' w log pkts R' outs o, session (E:=Empty_set) demo demo_ops = Ok (m', w, log) /\
    w ++ concat (queue m') = concat pkts /\
    receive (E:=Empty_set) (Reassembler.new 70000 100000) 0x100 true pkts = Ok (R', outs) /\
    zlen (outs ++ released o) = 2 /\ watching R' 0x100 1000 o.
Proof.
  destruct (video_session_delivers demo demo_ops 0x100 1000) as (m' & w & log & pkts & Hs & _ & Hw & _ & HR).
  - apply demo_ok.
  - reflexivity.
  - vm_compute. discriminate.
  - apply demo_room.
  - apply demo_room.
  - exists demo_slot. split; [constructor|]. cbn. constructor.
  - intros o p [-> | [-> | [-> | ->]]]%demo_pushes.
    + intros (x & [= <-] & Hq & _). discriminate Hq.
    + intros (x & [= <-] & Hq & _). discriminate Hq.
    + intros (x & body & [= <-] & _ & Hb & ->). vm_compute in Hb. injection Hb as <-. split; [reflexivity|vm_compute; discriminate].
    + intros (x & body & [= <-] & _ & Hb & ->). vm_compute in Hb. injection Hb as <-. split; [reflexivity|vm_compute; discriminate].
  - destruct (HR (Reassembler.new 70000 100000)) as (R' & outs & o & pss & Hr & Hwt & Ho & Hf).
    { split; [reflexivity|vm_compute; discriminate..]. }
    assert (Hlog : log = map (fun o => (o, Ok tt)) (pushes demo_ops)) by (vm_compute in Hs; injection Hs as _ _ <-; reflexivity).
    subst log. cbn in Hf.
    inversion Hf as [|? p1 ? l1 H1 Hf1]; subst. inversion Hf1 as [|? p2 ? l2 H2 Hf2]; subst.
    inversion Hf2 as [|? p3 ? l3 H3 Hf3]; subst. inversion Hf3 as [|? p4 ? l4 H4 Hf4]; subst. inversion Hf4; subst.
    destruct H1 as (? & ? & (? & [= <-] & -> & ->) & ->). destruct H2 as (? & ? & (? & [= <-] & -> & ->) & ->).
    destruct H3 as (? & ? & (? & ? & [= <-] & -> & _ & ->) & ->). destruct H4 as (? & ? & (? & ? & [= <-] & -> & _ & ->) & ->).
    exists m', w. eexists _, pkts, R', outs, o. split; [exact Hs|]. split; [exact Hw|]. split; [exact Hr|].
    split; [rewrite <- Ho; reflexivity|exact Hwt].
Defined.

(** [pull] hands out whole packets, oldest first, as many as both the output
    buffer and the queue hold; the bytes behind them are untouched and the
    packets and bytes emitted are counted. A buffer shorter than a packet gets
    nothing. *)
Theorem pull_fifo (m : Muxer) (out : list Z) :
  mux_ok m -> 0 <= ts_packets_emitted m -> 0 <= ts_bytes_emitted m ->
  ts_packets_emitted m + zlen (queue m) <= u64_max -> ts_bytes_emitted m + 188 * zlen (queue m) <= u64_max ->
  exists k m', k = pull_count m out /\ 0 <= k /\
    pull (E:=Empty_set) m out = Ok (188 * k, concat (ztake k (queue m)) ++ zdrop (188 * k) out, m') /\
    zlen (concat (ztake k (queue m))) = 188 * k /\
    queue m = ztake k (queue m) ++ queue m' /\ pending_packets m' = pending_packets m - k /\
    ts_packets_emitted m' = ts_packets_emitted m + k /\ ts_bytes_emitted m' = ts_bytes_emitted m + 188 * k /\
    mux_ok m'.
Proof.
  intros Hm Hp Hb Hpm Hbm. destruct (pull_count_range m out) as [Hk Ho].
  exists (pull_count m out). eexists. split_and!; [done|lia|rewrite pull_ok by (apply Hm || lia); by rewrite (Z.mul_comm _ 188)|..];
    cbn [set_pulled queue ts_packets_emitted ts_bytes_emitted pending_packets].
  - rewrite zlen_concat_188 by (apply Forall_take, Hm). rewrite zlen_ztake by lia. lia.
  - by rewrite ztake_zdrop.
  - unfold pending_packets. cbn. by rewrite zlen_zdrop by lia.
  - done.
  - lia.
  - by apply pulled_ok.
Qed.

Lemma pull_fifo_witness :
  let m := snd (run demo (OpData 0 [1; 2; 3] 9000)) in
  exists k m', k = 2 /\ pull (E:=Empty_set) m (zrep 400 0) = Ok (188 * k, concat (ztake k (queue m)) ++ zdrop (188 * k) (zrep 400 0), m') /\
    pending_packets m' = 2.
Proof.
  intros m. assert (Hm : mux_ok m).
  { destruct (push_step demo (OpData 0 [1; 2; 3] 9000)) as (r & m' & new & Hr & _ & Hm' & _).
    - apply demo_ok.
    - vm_compute. discriminate.
    - intros pid st H. discriminate H.
    - repeat constructor; lia.
    - unfold m. rewrite Hr. exact Hm'. }
  destruct (pull_fifo m (zrep 400 0)) as (k & m' & Hk & _ & Hp & _ & _ & Hpend & _);
    [exact Hm|vm_compute; discriminate..|].
  exists k, m'. assert (k = 2) as Hk2 by (rewrite Hk; vm_compute; reflexivity).
  split; [exact Hk2|]. split; [exact Hp|]. rewrite Hpend, Hk2. vm_compute. reflexivity.
Defined.

(** C40: after [request_psi], the next successful push on any stream starts with
    a PAT that lists every live program and parses back to it, followed by one
    unit-start packet on each live program's PMT PID, ahead of its own packets. *)
Theorem request_psi_repeats (m : Muxer) (o : push_op) (m' : Muxer) :
  mux_ok m -> zlen (queue m) <= buffer_packets (config m) ->
  stats_room m 1 (zlen (body_of o)) -> bytes (body_of o) ->
  run (request_psi m) o = (Ok tt, m') ->
  exists psi rest, queue m' = queue m ++ psi ++ rest /\ psi_tick m psi /\
    zlen psi = 1 + zlen (live_programs (slots m)).
Proof.
  intros Hm Hq Hr Hb Hrun. destruct (psi_request_ok m Hm) as [Hm1 Hs].
  destruct (push_step (request_psi m) o Hm1 Hq Hr Hb) as (r & m1 & its & Hrun' & _ & _ & _ & Hqq & _ & _ & _ & _ & _ & _ & _ & Hpsi).
  rewrite Hrun in Hrun'. injection Hrun' as <- <-.
  destruct Hpsi as (rest & ->); [done|cbn; by apply Forall_map, Forall_true|].
  rewrite (psi_items_evolves m (request_psi m)), render_app in Hqq by done.
  exists (render (cc_of (counters m)) (psi_items m)). eexists. split; [exact Hqq|].
  pose proof (psi_items_tick m Hm) as Ht'. split; [exact Ht'|]. destruct Ht' as (pat & pmts & section & c' & -> & _ & _ & Hf).
  rewrite zlen_cons. unfold zlen. by rewrite (Forall2_length _ _ _ Hf).
Qed.

Lemma request_psi_repeats_witness :
  let m := snd (run demo (OpData 0 [1] 9000)) in
  exists m' psi rest, run (request_psi m) (OpData 0 [2] 9000) = (Ok tt, m') /\ queue m' = queue m ++ psi ++ rest /\ zlen psi = 2.
Proof.
  intros m. assert (Hm : mux_ok m /\ zlen (queue m) <= 64).
  { destruct (push_step demo (OpData 0 [1] 9000)) as (r & m' & its & Hr & _ & Hm' & _ & _ & _ & Hq & _).
    - apply demo_ok.
    - vm_compute. discriminate.
    - intros pid st H. discriminate H.
    - repeat constructor; lia.
    - unfold m. rewrite Hr. split; [exact Hm'|exact Hq]. }
  destruct (run (request_psi m) (OpData 0 [2] 9000)) as [r m'] eqn:Hrun.
  assert (r = Ok tt) as -> by (apply (f_equal fst) in Hrun; vm_compute in Hrun; symmetry; exact Hrun).
  destruct (request_psi_repeats m (OpData 0 [2] 9000) m') as (psi & rest & Hq & _ & Hz).
  - apply Hm.
  - apply Hm.
  - assert (Hps : per_stream m = ∅) by (vm_compute; reflexivity). intros pid st H. rewrite Hps in H. discriminate H.
  - repeat constructor; lia.
  - exact Hrun.
  - exists m', psi, rest. split; [reflexivity|]. split; [exact Hq|]. rewrite Hz. vm_compute. reflexivity.
Defined.

(** The shorthand for the data stream of the muxer above. *)
Lemma resolve_lone_exact_witness : 
  exists h a, resolve_lone (slots demo) data NoDataStreamsConfigured KindData = Ok h /\
    Lone.addresses (slots demo) data h a /\ data_pid a = 0x102.
Proof.
  destruct (Lone.resolve_lone_exact (slots demo) data NoDataStreamsConfigured KindData) as (_ & _ & H).
  - vm_compute. discriminate.
  - intros s Hs. apply list_elem_of_singleton in Hs as ->. vm_compute. discriminate.
  - destruct H as (h & a & Hr & Ha); [reflexivity|]. exists h, a. split; [exact Hr|split; [exact Ha|]].
    vm_compute in Hr. injection Hr as <-. destruct Ha as (s & _ & _ & Hl). vm_compute in Hl. injection Hl as <-. reflexivity.
Defined.

End MuxTheorems.
