(* ===== verification/MuxerWf.v ===== *)
(** Well-formed muxers: the relation between a slot's configuration, its
    per-kind stream vectors and its [placed_pids] table, and between slots. A
    constructed muxer is well formed, every push, pull and PSI request keeps it
    so, and a well-formed muxer satisfies the invariant of the packet path. *)
From Stdlib Require Import ZArith Lia Bool String.
From stdpp Require Import base list list_numbers gmap.
From S2P Require Import Prelude Common TsPacket PesWriter PsiParse PsiWriter Descriptors Muxer MuxerConfig ConfigTheorems MuxerBuild MuxerTheorems.

(** * One view of the five stream vectors *)
Module SlotView.
Import Common PesWriter MuxTypes MuxState MuxHandles MuxSlots MuxValidate MuxInv.

Inductive StreamState : Type :=
| SVideo (s : VideoStreamState)
| SKlv (s : KlvStreamState)
| SAudio (s : AudioStreamState)
| SSubtitle (s : SubtitleStreamState)
| SData (s : DataStreamState).

Definition state_pid (s : StreamState) : Z :=
  match s with
  | SVideo s => MuxState.video_pid s
  | SKlv s => klv_pid s
  | SAudio s => MuxState.audio_pid s
  | SSubtitle s => subtitle_pid s
  | SData s => data_pid s
  end.

Definition state_of (s : StreamSpec) : StreamState :=
  match s with
  | SpecVideo pid codec => SVideo {| MuxState.video_pid := pid; video_codec := codec |}
  | SpecKlv pid t c => SKlv {| klv_pid := pid; klv_stream_type := t; klv_carries_pts := c |}
  | SpecAudio pid codec _ => SAudio {| MuxState.audio_pid := pid; audio_codec := codec |}
  | SpecSubtitle pid codec => SSubtitle {| subtitle_pid := pid; subtitle_codec := codec |}
  | SpecData pid t c => SData {| data_pid := pid; data_stream_type := t; data_carries_pts := c |}
  end.

Lemma state_of_pid s : state_pid (state_of s) = spec_pid s.
Proof. by destruct s. Qed.

Definition wrap {A} (f : A -> StreamState) (v : list (option A)) : list (option StreamState) := map (fmap f) v.

Definition kind_vec (s : ProgramSlot) (k : MuxStreamKind) : list (option StreamState) :=
  match k with
  | KindVideo => wrap SVideo (video s)
  | KindKlv => wrap SKlv (klv s)
  | KindAudio => wrap SAudio (audio s)
  | KindSubtitle => wrap SSubtitle (subtitle s)
  | KindData => wrap SData (data s)
  end.

(** The stream a handle's two indices address inside a slot. *)
Definition entry (s : ProgramSlot) (k : MuxStreamKind) (w : Z) : option StreamState :=
  match get (kind_vec s k) w with Some e => e | None => None end.

Lemma get_wrap {A} (f : A -> StreamState) v w : get (wrap f v) w = option_map (option_map f) (get v w).
Proof. apply Announced.get_map. Qed.

Lemma wrap_pids {A} (f : A -> StreamState) (pid_of : A -> Z) v : (forall a, state_pid (f a) = pid_of a) ->
  map state_pid (omap id (wrap f v)) = map pid_of (omap id v).
Proof.
  intros Hf. induction v as [|[a|] v IH]; [done| |done].
  change (omap id (wrap f (Some a :: v))) with (f a :: omap id (wrap f v)).
  change (omap id (Some a :: v)) with (a :: omap id v). cbn [map]. by rewrite IH, Hf.
Qed.

Definition KINDS : list MuxStreamKind := [KindVideo; KindKlv; KindAudio; KindSubtitle; KindData].

Lemma in_KINDS k : k ∈ KINDS.
Proof. destruct k; vm_compute; repeat constructor. Qed.

Lemma slot_pids_view s : slot_pids s = flat_map (fun k => map state_pid (omap id (kind_vec s k))) KINDS.
Proof.
  unfold slot_pids, KINDS. cbn [flat_map kind_vec]. rewrite app_nil_r.
  by rewrite (wrap_pids SVideo MuxState.video_pid), (wrap_pids SKlv klv_pid), (wrap_pids SAudio MuxState.audio_pid),
    (wrap_pids SSubtitle subtitle_pid), (wrap_pids SData data_pid).
Qed.

Lemma elem_omap_id {A} (v : list (option A)) a : a ∈ omap id v <-> Some a ∈ v.
Proof. rewrite list_elem_of_omap. split; [intros (o & Ho & He); cbn in He; by subst|intros; by exists (Some a)]. Qed.

Lemma elem_get {A} (l : list A) x : x ∈ l <-> exists i, get l i = Some x.
Proof.
  rewrite list_elem_of_lookup. split.
  - intros (i & Hi). exists (Z.of_nat i). unfold get. rewrite (proj2 (Z.ltb_ge _ _)), Nat2Z.id by lia. done.
  - intros (i & Hi). unfold get in Hi. destruct (i <? 0); [done|]. eauto.
Qed.

(** The PIDs of a slot are those of its entries. *)
Lemma slot_pids_entry s p : p ∈ slot_pids s <-> exists k w st, entry s k w = Some st /\ state_pid st = p.
Proof.
  rewrite slot_pids_view. rewrite list_elem_of_In, in_flat_map. split.
  - intros (k & _ & Hp). apply list_elem_of_In, list_elem_of_fmap in Hp as (st & -> & Hst).
    apply elem_omap_id, elem_get in Hst as (w & Hw). exists k, w, st. unfold entry. by rewrite Hw.
  - intros (k & w & st & He & <-). exists k. split; [apply list_elem_of_In, in_KINDS|].
    apply list_elem_of_In, list_elem_of_fmap. exists st. split; [done|]. apply elem_omap_id, elem_get. exists w.
    unfold entry in He. destruct (get (kind_vec s k) w) as [e|]; [by subst|done].
Qed.

Lemma kind_of_state k s w st : entry s k w = Some st ->
  match st, k with
  | SVideo _, KindVideo | SKlv _, KindKlv | SAudio _, KindAudio | SSubtitle _, KindSubtitle | SData _, KindData => True
  | _, _ => False
  end.
Proof.
  unfold entry. destruct k; cbn [kind_vec]; rewrite get_wrap; destruct (get _ w) as [[a|]|]; cbn; intros [= <-]; done.
Qed.

(** [lookup_stream] reads an entry. *)
Lemma lookup_entry {A} ss (streams_ : ProgramSlot -> list (option A)) (f : A -> StreamState) k p w a :
  (forall s, kind_vec s k = wrap f (streams_ s)) -> (forall a b, f a = f b -> a = b) ->
  lookup_stream ss streams_ p w = Some a <-> exists s, get ss p = Some s /\ entry s k w = Some (f a).
Proof.
  intros Hk Hf. unfold lookup_stream, entry. split.
  - destruct (get ss p) as [s|]; [|done]. intros H. exists s. split; [done|]. rewrite Hk, get_wrap.
    destruct (get (streams_ s) w) as [[b|]|]; cbn in *; congruence.
  - intros (s & -> & H). rewrite Hk, get_wrap in H. destruct (get (streams_ s) w) as [[b|]|]; cbn in *; try done.
    injection H as H. by rewrite (Hf _ _ H).
Qed.

End SlotView.

(** * Well-formed slots and muxers *)
Module MuxWf.
Import Common PesWriter TsCounters MuxTypes PsiWriter PmtRoundtrip MuxState MuxHandles MuxSchedule MuxDescriptors MuxValidate
  MuxSlots ValidConfig ConfigTheorems MuxInv SlotView.

Record slot_wf (s : ProgramSlot) : Prop := {
  wf_len : forall k, zlen (kind_vec s k) <= 16;
  wf_entry : forall k w st, entry s k w = Some st -> exists prog spec, live s = Some prog /\
    spec ∈ MuxTypes.streams prog /\ state_of spec = st /\ placed_pids s !! spec_pid spec = Some (k, w);
  wf_placed : forall prog spec, live s = Some prog -> spec ∈ MuxTypes.streams prog -> exists w,
    placed_pids s !! spec_pid spec = Some (kind_of spec, w) /\ entry s (kind_of spec) w = Some (state_of spec);
  wf_program : forall prog, live s = Some prog -> program_valid prog /\ program_typed prog;
  wf_pcr : forall prog, live s = Some prog -> resolve_pcr_pid (E:=Empty_set) prog = Ok (MuxState.pcr_pid s);
  wf_cache : forall prog, live s = Some prog ->
    build_pmt_descriptor_cache (E:=Empty_set) prog = Ok (pmt_descriptor_cache s);
  wf_identity : forall prog, live s = Some prog ->
    pmt_identity_key (E:=Empty_set) prog (MuxState.pcr_pid s) (pmt_descriptor_cache s) = Ok (pmt_identity s);
  wf_pcr_pid : pid_ok (MuxState.pcr_pid s);
  wf_psi_last : forall t, psi_last s = Some t -> pts33 t;
  wf_pcr_last : forall t, pcr_last s = Some t -> 0 <= t <= u64_max;
  wf_version : 0 <= pmt_version s < 32;
}.

Record mux_wf (m : Muxer) : Prop := {
  wf_slots : Forall slot_wf (slots m);
  wf_slot_count : zlen (slots m) <= 16;
  wf_numbers : NoDup (map MuxTypes.program_number (live_programs (slots m)));
  wf_pids : NoDup (flat_map program_pids (live_programs (slots m)));
  wf_order : Forall2 (fun i p => exists s, get (slots m) i = Some s /\ live s = Some p)
               (program_order m) (programs (config m));
  wf_counters : counters_ok (counters m);
  wf_queue : Forall (fun p => zlen p = 188) (queue m);
  wf_pat_version : 0 <= pat_version m < 32;
  wf_pat_identity : pat_identity m = pat_entries m;
  wf_versions : forall s p, s ∈ slots m -> live s = Some p -> pmt_versions_by_pid m !! MuxTypes.pmt_pid p = Some (pmt_version s);
  wf_version_range : forall pid v, pmt_versions_by_pid m !! pid = Some v -> 0 <= v < 32;
}.

(** ** The packet path's invariant *)

Lemma blocks_unique {A B} (f : A -> list B) l a b x : NoDup (flat_map f l) -> a ∈ l -> b ∈ l -> x ∈ f a -> x ∈ f b -> a = b.
Proof.
  intros [_ Hp]%Blocks.NoDup_blocks Ha Hb Hxa Hxb. induction Hp as [|y l Hy Hp IH]; [by apply elem_of_nil in Ha|].
  rewrite Forall_forall in Hy. apply elem_of_cons in Ha as [->|Ha], Hb as [->|Hb]; try done.
  - destruct (Hy b Hb x); done.
  - destruct (Hy a Ha x); done.
  - by apply IH.
Qed.

Lemma live_in ss s p : s ∈ ss -> live s = Some p -> p ∈ live_programs ss.
Proof. intros Hs Hl. apply list_elem_of_omap. eauto. Qed.

Lemma entry_spec s p : slot_wf s -> p ∈ slot_pids s -> exists prog spec,
  live s = Some prog /\ spec ∈ MuxTypes.streams prog /\ spec_pid spec = p.
Proof.
  intros Hs (k & w & st & He & <-)%slot_pids_entry. destruct (wf_entry s Hs k w st He) as (prog & spec & Hl & Hin & <- & _).
  exists prog, spec. by rewrite state_of_pid.
Qed.

Lemma spec_user prog spec : program_valid prog -> spec ∈ MuxTypes.streams prog -> user_pid (spec_pid spec).
Proof. intros Hv Hin. pose proof (pv_streams prog Hv) as Hf. rewrite Forall_forall in Hf. apply (Hf spec Hin). Qed.

Lemma slot_wf_ok s : slot_wf s -> slot_ok s.
Proof.
  intros Hs. split; try apply Hs.
  - apply Forall_forall. intros p (prog & spec & Hl & Hin & <-)%(entry_spec s p Hs).
    pose proof (spec_user prog spec (proj1 (wf_program s Hs prog Hl)) Hin). unfold user_pid, pid_ok in *. lia.
  - intros prog Hl. destruct (wf_program s Hs prog Hl) as [Hv Ht]. split; [|split; [apply Ht|]].
    + pose proof (pv_pmt prog Hv). unfold user_pid, pid_ok in *. lia.
    + destruct (pv_size prog Hv) as (cache & es & Hb & He & Hz). rewrite (wf_cache s Hs prog Hl) in Hb. injection Hb as <-.
      by exists es.
Qed.

Lemma mux_wf_ok m : mux_wf m -> mux_ok m.
Proof.
  intros Hm. pose proof (wf_slots m Hm) as Hf. rewrite Forall_forall in Hf. split; try apply Hm.
  - apply Forall_forall. intros s Hs. by apply slot_wf_ok, Hf.
  - intros s p prog Hs Hp Hprog Heq. destruct (entry_spec s p (Hf s Hs) Hp) as (prog' & spec & Hl & Hin & Hsp).
    assert (Hst : p ∈ stream_pids prog') by (rewrite <- Hsp; by apply list_elem_of_fmap_2).
    assert (prog' = prog) as ->.
    { apply (blocks_unique program_pids (live_programs (slots m)) prog' prog p); [apply Hm|by eapply live_in|done|by right|].
      rewrite Heq. left. }
    pose proof (pv_distinct prog (proj1 (wf_program s (Hf s Hs) prog Hl))) as [Hn _]%NoDup_cons.
    by rewrite Heq in Hst.
  - intros s p Hs Hp ->. destruct (entry_spec s _ (Hf s Hs) Hp) as (prog & spec & Hl & Hin & Hsp).
    pose proof (spec_user prog spec (proj1 (wf_program s (Hf s Hs) prog Hl)) Hin). unfold user_pid in *. rewrite Hsp in *.
    unfold PID_PAT in *. lia.
Qed.

(** ** Pushes, pulls and PSI requests keep a muxer well formed *)

Lemma same_slot_wf s s' : slot_wf s -> same_slot s s' -> slot_wf s'.
Proof. intros [] (a & b & -> & Ha & Hb). by split. Qed.

Lemma pat_entries_live m : pat_entries m = map (fun p => (MuxTypes.program_number p, MuxTypes.pmt_pid p)) (live_programs (slots m)).
Proof. apply Preamble.pat_entries_programs. Qed.

Lemma restamped_wf m ss q c : mux_wf m -> Forall2 same_slot (slots m) ss -> counters_ok c ->
  Forall (fun p => zlen p = 188) q -> mux_wf (update m ss q c).
Proof.
  intros Hm Hs Hc Hq. pose proof (same_slots_live _ _ Hs) as Hl. split; cbn [update slots counters queue config program_order
    pat_version pat_identity pmt_versions_by_pid]; try apply Hm; try done; rewrite ?Hl; try apply Hm.
  - eapply Forall2_Forall_r; [exact Hs|]. eapply Forall_impl; [apply Hm|]. intros s Hw s' Hss. by apply (same_slot_wf s).
  - unfold zlen. rewrite <- (Forall2_length _ _ _ Hs). apply Hm.
  - eapply Forall2_impl; [apply Hm|]. intros i p (s & Hg & Hp). unfold get in *. destruct (i <? 0); [done|].
    destruct (Forall2_lookup_l _ _ _ _ _ Hs Hg) as (s' & Hs' & Hss). exists s'. split; [done|].
    by rewrite (proj1 (same_slot_live _ _ Hss)).
  - rewrite (wf_pat_identity m Hm), !pat_entries_live. cbn [update slots]. by rewrite Hl.
  - intros s' p Hin Hp. apply list_elem_of_lookup in Hin as [i Hi].
    destruct (Forall2_lookup_r _ _ _ _ _ Hs Hi) as (s & Hs' & Hss). rewrite (proj1 (same_slot_live _ _ Hss)) in Hp.
    destruct Hss as (a & b & -> & _). cbn. apply (wf_versions m Hm); [by eapply list_elem_of_lookup_2|done].
Qed.

Lemma extends_wf m m' new : mux_wf m -> extends m m' new -> mux_wf m'.
Proof.
  intros Hm (ss & c & -> & Hc & _ & Hs & _). apply restamped_wf; try done. apply Forall_app. split; [apply Hm|apply render_188].
Qed.

(** ** Construction *)

Definition kind_specs (k : MuxStreamKind) (prog : MuxerProgramConfig) : list StreamSpec :=
  List.filter (fun s => bool_decide (kind_of s = k)) (MuxTypes.streams prog).

Lemma kind_specs_in k prog s : s ∈ kind_specs k prog <-> s ∈ MuxTypes.streams prog /\ kind_of s = k.
Proof. unfold kind_specs. rewrite !list_elem_of_In, filter_In, bool_decide_eq_true. done. Qed.

Lemma zlen_kind_specs k prog : zlen (kind_specs k prog) = count_kind k (MuxTypes.streams prog).
Proof.
  unfold kind_specs, count_kind. induction (MuxTypes.streams prog) as [|s l IH]; [done|]. cbn.
  case_bool_decide; [rewrite zlen_cons; lia|done].
Qed.

(** Collecting the states of a kind is filtering the specs of that kind. *)
Lemma collected_view {A} (f : A -> StreamState) (pid_of : A -> Z) (state : StreamSpec -> option A) k l :
  (forall s a, state s = Some a -> kind_of s = k /\ f a = state_of s /\ pid_of a = spec_pid s) ->
  (forall s, state s = None -> kind_of s <> k) ->
  let specs := List.filter (fun s => bool_decide (kind_of s = k)) l in
  wrap f (map Some (omap state l)) = map (fun s => Some (state_of s)) specs /\
  map pid_of (omap state l) = map spec_pid specs.
Proof.
  intros Hsome Hnone. cbv zeta. induction l as [|s l [IH1 IH2]]; [done|].
  change (omap state (s :: l)) with (match state s with Some a => a :: omap state l | None => omap state l end).
  cbn [List.filter]. destruct (state s) as [a|] eqn:Hs.
  - destruct (Hsome s a Hs) as (Hk & Hf & Hp). rewrite bool_decide_true by done. cbn [map wrap]. unfold wrap in *. cbn [map].
    rewrite IH2, Hp. split; [|done]. cbn. by rewrite IH1, Hf.
  - rewrite bool_decide_false by (by apply Hnone). done.
Qed.

Ltac collect := apply collected_view; [intros [] ? [= <-]; by repeat split|intros [] H; cbn in *; try discriminate H; done].

Lemma collected_views prog :
  let '(v, k, a, b, d) := collect_stream_states prog in
  let vec {A} (f : A -> StreamState) (pid_of : A -> Z) (l : list A) kind :=
    wrap f (map Some l) = map (fun s => Some (state_of s)) (kind_specs kind prog) /\
    map pid_of l = map spec_pid (kind_specs kind prog) in
  vec SVideo MuxState.video_pid v KindVideo /\ vec SKlv klv_pid k KindKlv /\ vec SAudio MuxState.audio_pid a KindAudio /\
  vec SSubtitle subtitle_pid b KindSubtitle /\ vec SData data_pid d KindData.
Proof.
  unfold collect_stream_states, kind_specs. cbv beta iota zeta.
  split; [|split; [|split; [|split]]]; collect.
Qed.

Lemma place_pids_other k pids : forall w m p, p ∉ pids -> place_pids k w pids m !! p = m !! p.
Proof.
  induction pids as [|q pids IH]; intros w m p Hp; [done|]. cbn. rewrite IH by set_solver.
  rewrite lookup_insert_ne; [done|set_solver].
Qed.

Lemma place_pids_at k pids : NoDup pids -> forall w m i p, get pids i = Some p -> place_pids k w pids m !! p = Some (k, w + i).
Proof.
  induction 1 as [|q pids Hq Hn IH]; intros w m i p Hi; [by destruct (proj1 (elem_get _ p) (ex_intro _ i Hi)) || (unfold get in Hi; destruct (i <? 0); done)|].
  destruct (decide (i = 0)) as [->|Hi0].
  - injection Hi as <-. cbn. rewrite place_pids_other by done. rewrite lookup_insert, Z.add_0_r. by rewrite decide_True.
  - pose proof (get_Some _ _ _ Hi). cbn. replace i with (1 + (i - 1)) in Hi by lia. rewrite get_cons_S in Hi by lia.
    rewrite (IH (w + 1) _ (i - 1) p Hi). do 2 f_equal. lia.
Qed.

(** The five insertions of [from_program], in the order of [KINDS]. *)
Definition placed_all (prog : MuxerProgramConfig) : gmap Z (MuxStreamKind * Z) :=
  foldl (fun m k => place_pids k 0 (map spec_pid (kind_specs k prog)) m) ∅ KINDS.

Lemma kind_pids_NoDup k prog : NoDup (stream_pids prog) -> NoDup (map spec_pid (kind_specs k prog)).
Proof.
  unfold stream_pids, kind_specs. induction (MuxTypes.streams prog) as [|s l IH]; [done|]. cbn [map List.filter].
  intros [Hn Hd]%NoDup_cons. case_bool_decide; [|by apply IH]. cbn [map]. apply NoDup_cons. split; [|by apply IH].
  intros (x & Heq & Hx)%list_elem_of_fmap. apply Hn. rewrite Heq. apply list_elem_of_fmap_2.
  apply list_elem_of_In, filter_In in Hx as [Hx _]. by apply list_elem_of_In.
Qed.

Lemma placed_all_at prog k w s : NoDup (stream_pids prog) -> get (kind_specs k prog) w = Some s ->
  placed_all prog !! spec_pid s = Some (k, w).
Proof.
  intros Hn Hg. assert (Hin : s ∈ kind_specs k prog) by (apply elem_get; eauto). apply kind_specs_in in Hin as [Hs Hk].
  assert (Hother : forall k' m, k' <> k -> place_pids k' 0 (map spec_pid (kind_specs k' prog)) m !! spec_pid s = m !! spec_pid s).
  { intros k' m Hne. apply place_pids_other. intros (x & Heq & Hx)%list_elem_of_fmap. apply kind_specs_in in Hx as [Hx Hkx].
    rewrite (pid_unique prog s x Hn Hs Hx Heq) in Hk. congruence. }
  assert (Hat : forall m, place_pids k 0 (map spec_pid (kind_specs k prog)) m !! spec_pid s = Some (k, w)).
  { intros m. rewrite (place_pids_at k _ (kind_pids_NoDup k prog Hn) 0 m w (spec_pid s)); [done|].
    by rewrite Announced.get_map, Hg. }
  unfold placed_all, KINDS; cbn [foldl]. destruct k; repeat (first [rewrite Hat; done | rewrite Hother by done]).
Qed.

Lemma identity_poly prog pcr cache key : pmt_identity_key (E:=Empty_set) prog pcr cache = Ok key ->
  forall E, pmt_identity_key (E:=E) prog pcr cache = Ok key.
Proof. unfold pmt_identity_key. cbv zeta. ifs; [|done]. intros [= <-] E. done. Qed.

Lemma identity_ok prog pcr cache : length cache = length (MuxTypes.streams prog) ->
  exists key, forall E, pmt_identity_key (E:=E) prog pcr cache = Ok key.
Proof. intros Hl. unfold pmt_identity_key, zlen. rewrite Hl, Z.eqb_refl. by eexists. Qed.

Lemma from_program_ok prog : program_valid prog -> program_typed prog ->
  exists s, (forall E, from_program (E:=E) prog = Ok s) /\ slot_wf s /\ live s = Some prog /\ pmt_version s = 0 /\
    (forall k, kind_vec s k = map (fun x => Some (state_of x)) (kind_specs k prog)).
Proof.
  intros Hv Ht. destruct (resolve_ok prog Hv) as (pcr & Hr & Hu & _).
  destruct (cache_ok prog (pv_parallel prog Hv)) as (cache & Hc & _ & Hl). destruct (identity_ok prog pcr cache Hl) as (key & Hk).
  pose proof (collected_views prog) as Hcv. unfold from_program. destruct (collect_stream_states prog) as [[[[v k] a] b] d].
  cbv zeta in Hcv. destruct Hcv as ([Hv1 Hv2] & [Hk1 Hk2] & [Ha1 Ha2] & [Hb1 Hb2] & [Hd1 Hd2]).
  eexists. split; [intros E; rewrite Hr; rb; rewrite Hc; rb; rewrite Hk; rb; reflexivity|].
  rewrite Hv2, Hk2, Ha2, Hb2, Hd2. change (place_pids KindData 0 _ _) with (placed_all prog).
  match goal with |- slot_wf ?s /\ _ => set (slot := s) end.
  assert (Hvec : forall k, kind_vec slot k = map (fun x => Some (state_of x)) (kind_specs k prog)) by (intros []; done).
  pose proof (pv_distinct prog Hv) as [_ Hn]%NoDup_cons.
  assert (Hent : forall k w, entry slot k w = state_of <$> get (kind_specs k prog) w).
  { intros k0 w. unfold entry. rewrite Hvec, Announced.get_map. by destruct (get _ w). }
  split; [|done]. split; try done; try (intros prog' [= <-]); try done.
  - intros k0. rewrite Hvec. unfold zlen. rewrite length_map. change (zlen (kind_specs k0 prog) <= 16).
    rewrite zlen_kind_specs. apply Hv.
  - intros k0 w st He. rewrite Hent in He. destruct (get (kind_specs k0 prog) w) as [s|] eqn:Hg; [|done]. injection He as <-.
    exists prog, s. assert (Hin : s ∈ kind_specs k0 prog) by (apply elem_get; eauto). apply kind_specs_in in Hin as [Hin _].
    split_and!; try done. by apply placed_all_at.
  - intros prog' spec [= <-] Hin. assert (Hks : spec ∈ kind_specs (kind_of spec) prog) by (by apply kind_specs_in).
    apply elem_get in Hks as (w & Hw). exists w. split; [by apply placed_all_at|]. by rewrite Hent, Hw.
  - unfold user_pid, pid_ok in *. cbn. lia.
Qed.

(** The machine types of a configuration's fields. *)
Record config_typed (c : MuxerConfig) : Prop := {
  ct_programs : Forall program_typed (programs c);
  ct_pcr : 0 <= pcr_interval_ms c <= u32_max;
  ct_psi : 0 <= psi_interval_ms c <= u32_max;
  ct_buffer : 0 <= buffer_packets c <= u64_max;
}.

(** Statistics that have counted nothing. *)
Definition untouched (stats : gmap Z StreamStats) : Prop :=
  forall pid e, stats !! pid = Some e -> items e = 0 /\ byte_count e = 0 /\ discontinuities e = 0.

Lemma insert_stats_untouched {A} (pid_of : A -> Z) e (v : list (option A)) into :
  (forall a, items (e a) = 0 /\ byte_count (e a) = 0 /\ discontinuities (e a) = 0) -> untouched into ->
  untouched (insert_stats pid_of e v into).
Proof.
  intros He. unfold insert_stats. generalize (omap id v). intros l. revert into. induction l as [|a l IH]; intros into Hu; [done|].
  cbn [foldl]. apply IH. intros pid x Hx. rewrite lookup_insert_Some in Hx. destruct Hx as [[_ <-]|[_ Hx]]; [done|eauto].
Qed.

Lemma initialize_untouched prog v k a b d into : untouched into -> untouched (initialize_stats prog v k a b d into).
Proof. intros Hu. unfold initialize_stats. by repeat (apply insert_stats_untouched; [done|]). Qed.

Lemma build_slots_ok progs : Forall program_valid progs -> Forall program_typed progs -> forall stats, untouched stats ->
  exists ss stats', (forall E, MuxNew.build_slots (E:=E) progs stats = Ok (ss, stats')) /\ untouched stats' /\
    Forall2 (fun p s => slot_wf s /\ live s = Some p /\ pmt_version s = 0 /\
                        forall k, kind_vec s k = map (fun x => Some (state_of x)) (kind_specs k p)) progs ss.
Proof.
  intros Hv Ht. induction Hv as [|p progs Hp _ IH]; intros stats Hu.
  { exists [], stats. split; [done|]. split; [done|constructor]. }
  apply Forall_cons in Ht as [Htp Ht]. destruct (from_program_ok p Hp Htp) as (s & Hs & Hwf & Hl & Hver & Hvec).
  destruct (IH Ht (initialize_stats p (video s) (klv s) (audio s) (subtitle s) (data s) stats)) as (ss & stats' & Hb & Hu' & Hf);
    [by apply initialize_untouched|].
  exists (s :: ss), stats'. split; [intros E; cbn [MuxNew.build_slots]; rewrite Hs; rb; by rewrite Hb|].
  split; [done|]. by constructor.
Qed.

Lemma live_of_built progs ss (P : MuxerProgramConfig -> ProgramSlot -> Prop) :
  Forall2 (fun p s => slot_wf s /\ live s = Some p /\ P p s) progs ss -> live_programs ss = progs.
Proof.
  induction 1 as [|p s progs ss (_ & Hl & _) _ IH]; [done|]. unfold live_programs in *. cbn. rewrite Hl. by f_equal.
Qed.

Lemma get_lookup {A} (l : list A) i : 0 <= i -> get l i = l !! Z.to_nat i.
Proof. intros. unfold get. by rewrite (proj2 (Z.ltb_ge _ _)) by lia. Qed.

Lemma zero_versions (progs : list MuxerProgramConfig) : forall m : gmap Z Z, (forall pid v, m !! pid = Some v -> v = 0) ->
  let r := foldl (fun m p => <[MuxTypes.pmt_pid p := 0]> m) m progs in
  (forall pid v, r !! pid = Some v -> v = 0) /\ (forall p, p ∈ progs -> r !! MuxTypes.pmt_pid p = Some 0) /\
  (forall pid, is_Some (m !! pid) -> is_Some (r !! pid)).
Proof.
  induction progs as [|p progs IH]; intros m Hm; [by split_and!; [..|intros ? ?%elem_of_nil|]|]. cbn [foldl].
  destruct (IH (<[MuxTypes.pmt_pid p := 0]> m)) as (H1 & H2 & H3).
  { intros pid v. rewrite lookup_insert_Some. intros [[_ <-]|[_ H]]; eauto. }
  split_and!; [done| |].
  - intros q [->|Hq]%elem_of_cons; [|auto]. destruct (H3 (MuxTypes.pmt_pid p)) as [v Hv]; [rewrite lookup_insert; by case_decide|].
    by rewrite Hv, (H1 _ _ Hv).
  - intros pid Hp. apply H3. rewrite lookup_insert. by case_decide.
Qed.

(** What a freshly constructed muxer is. *)
Record fresh (c : MuxerConfig) (m : Muxer) : Prop := {
  fresh_config : config m = c;
  fresh_queue : queue m = [];
  fresh_programs : live_programs (slots m) = programs c;
  fresh_counts : ts_packets_emitted m = 0 /\ ts_bytes_emitted m = 0 /\ pat_version m = 0;
  fresh_stats : untouched (per_stream m);
  fresh_streams : forall i p s k, get (programs c) i = Some p -> get (slots m) i = Some s ->
    kind_vec s k = map (fun x => Some (state_of x)) (kind_specs k p);
}.

Lemma new_wf c : config_valid c -> config_typed c ->
  exists m, MuxNew.new c = Ok m /\ mux_wf m /\ fresh c m.
Proof.
  intros Hv Ht. unfold MuxNew.new. rewrite (proj2 (validate_ok c) Hv). cbn [rbind].
  pose proof (ct_pcr c Ht) as Hp. pose proof (ct_psi c Ht) as Hs. unfold u32_max in *.
  assert (Hc1 : chk_u64 (E:=MuxError) (pcr_interval_ms c * 27000) = Ok (pcr_interval_ms c * 27000))
    by (unfold chk_u64, checked; by rewrite (proj2 (Z.leb_le _ _)), (proj2 (Z.ltb_lt _ _)) by lia).
  assert (Hc2 : chk_i64 (E:=MuxError) (psi_interval_ms c * 90) = Ok (psi_interval_ms c * 90))
    by (unfold chk_i64, i64_min, i64_max; by rewrite !(proj2 (Z.leb_le _ _)) by lia).
  rewrite Hc1, Hc2. rb.
  destruct (build_slots_ok (programs c) (cv_each c Hv) (ct_programs c Ht) ∅) as (ss & stats & Hb & Hu & Hf); [by intros ? ?|].
  rewrite Hb. rb. pose proof (live_of_built _ _ _ Hf) as Hl. pose proof (Forall2_length _ _ _ Hf) as Hlen.
  destruct (zero_versions (programs c) ∅) as (Hz1 & Hz2 & _); [done|].
  eexists. split; [reflexivity|]. change (omap live ss) with (live_programs ss). rewrite Hl. split.
  - split; cbn [MuxState.config slots program_order queue MuxState.counters pat_version pat_identity pmt_versions_by_pid];
      rewrite ?Hl; try apply Hv; try done.
    + eapply Forall2_Forall_r; [exact Hf|]. apply Forall_forall. by intros p _ s (Hw & _).
    + unfold zlen. rewrite <- Hlen. apply Hv.
    + apply Forall2_same_length_lookup. unfold zlen. rewrite length_seqZ. split; [lia|]. intros i x p Hi Hpr.
      apply lookup_seqZ in Hi as [-> Hi]. destruct (Forall2_lookup_l _ _ _ _ _ Hf Hpr) as (s & Hsl & _ & Hlive & _).
      exists s. split; [|done]. rewrite get_lookup by lia. by replace (Z.to_nat (0 + Z.of_nat i)) with i by lia.
    + apply new_ok.
    + rewrite pat_entries_live. cbn [slots]. by rewrite Hl.
    + intros s p Hs' Hlp. rewrite Hz2 by (rewrite <- Hl; by eapply live_in). f_equal. symmetry.
      apply list_elem_of_lookup in Hs' as [i Hi]. by destruct (Forall2_lookup_r _ _ _ _ _ Hf Hi) as (? & _ & _ & _ & Hver & _).
    + intros pid v Hv'. rewrite (Hz1 pid v Hv'). lia.
  - split; cbn [MuxState.config slots queue per_stream]; try done. intros i p s k Hp' Hs'. pose proof (get_Some _ _ _ Hp') as Hi. rewrite get_lookup in Hp' by lia. rewrite get_lookup in Hs' by lia.
    destruct (Forall2_lookup_l _ _ _ _ _ Hf Hp') as (s' & Hsl & _ & _ & _ & Hk). rewrite Hsl in Hs'. injection Hs' as <-. apply Hk.
Qed.

End MuxWf.
