(* ===== verification/MuxerMisp.v ===== *)
(** The pushes that bind a capture time to a frame: [splice_misp_sei],
    [push_video_misp_to] and [push_video_misp_to_with_dts] of
    [mpegts/mux/push_video.rs]. *)
From Stdlib Require Import ZArith Lia Bool.
From stdpp Require Import base list list_numbers gmap.
From S2P Require Import Prelude Common TsPacket PesWriter PesDemux PsiParse PsiAssembly PsiWriter.
From S2P Require Import AnnexB NalUnits MispTime AudioFrames AuCell WireBytes Muxer MuxerTheorems MuxerHandlers MuxerSession.

Module MuxMisp.
Import Common HandlePack MuxTypes MuxState MuxHandles MuxSchedule MuxPush PesWriter MispTime.

Definition splice_misp_sei (m : Muxer) (handle : Z) (nal : list Z) (misp : MispTimestamp) : res MuxError (list Z) :=
  let (prog_idx, within_idx) := unpack handle in
  match lookup_stream (slots m) video prog_idx within_idx with
  | None => Err (InvalidStreamHandle KindVideo handle)
  | Some v =>
      let codec := video_codec v in
      let! _ := map_err (fun _ => InvalidNal) (AnnexB.validate_annex_b nal) in
      let! sei := map_err MuxState.MispTime (build_sei_nal codec misp) in
      map_err MuxState.MispTime (insert_sei_before_first_vcl nal sei codec)
  end.

Definition push_video_misp_to (m : Muxer) (handle : Z) (nal : list Z) (pts : Z) (key_frame : bool) (misp : MispTimestamp) : step :=
  compute! spliced := splice_misp_sei m handle nal misp from m in
  push_video_to_internal m handle spliced (PtsOnly pts) pts key_frame Elementary.


End MuxMisp.

(** * What the pushes send *)
Module MispPush.
Import Common HandlePack AnnexB AnnexBScan AnnexBNals MuxTypes MuxState MuxHandles MuxSchedule MuxPush PesWriter PesParse Nal NalSplit MispTime MispExtract
  MuxInv Transmit Handlers Session MuxTheorems MuxMisp.










(** The refusals, none of which touches the muxer. *)
Lemma misp_push_refusals m h nal pts key ts :
  match lookup_stream (slots m) video (unpack h).1 (unpack h).2 with
  | None => push_video_misp_to m h nal pts key ts = (Err (InvalidStreamHandle KindVideo h), m)
  | Some v =>
      (validate_annex_b nal <> Ok tt -> push_video_misp_to m h nal pts key ts = (Err InvalidNal, m)) /\
      (validate_annex_b nal = Ok tt -> video_codec v = VideoH264 -> kind ts = Nano ->
         push_video_misp_to m h nal pts key ts = (Err (MuxState.MispTime (NanoUnsupportedForCodec VideoH264)), m)) /\
      (validate_annex_b nal = Ok tt -> video_codec v = VideoH266 \/ video_codec v = MuxTypes.Av1 ->
         push_video_misp_to m h nal pts key ts = (Err (MuxState.MispTime (UnsupportedCodec (video_codec v))), m)) /\
      (validate_annex_b nal = Ok tt -> supported (video_codec v) ts -> Forall (fun n => ~ vcl_unit (video_codec v) n) (units nal) ->
         push_video_misp_to m h nal pts key ts = (Err (MuxState.MispTime NoVclNal), m))
  end.
Proof.
  unfold push_video_misp_to, splice_misp_sei. destruct (unpack h) as [i w]. cbn [fst snd].
  destruct (lookup_stream (slots m) video i w) as [v|]; [|done].
  destruct (AnnexBTheorems.validate_spec nal) as [[Hacc _] [Hval|Hval]]; rewrite Hval; rb; [|by split_and!].
  split_and!; [done|intros _ Hc Hk|intros _ [Hc|Hc]|intros _ Hs Hn].
  - unfold build_sei_nal, sei_payload, identifier_for. by rewrite Hc, Hk.
  - unfold build_sei_nal, sei_payload, identifier_for. by rewrite Hc.
  - unfold build_sei_nal, sei_payload, identifier_for. by rewrite Hc.
  - destruct (build_ok _ _ Hs) as (id & _ & _ & _ & ->). rb. rewrite insert_none; [done|destruct Hs as [[-> _]| ->]; [by left|by right]|].
    destruct (Hacc Hval) as (p & rest & ns & _ & _ & Hns & _ & _ & Hne & _). rewrite nals_units in Hns. injection Hns as <-.
    apply Forall_forall. intros n Hin. split; [intros ->; by apply Hne|]. by apply (proj1 (Forall_forall _ _) Hn).
Qed.

End MispPush.
