(* ===== verification/Reconfigure.v ===== *)
(** In-place reconfiguration ([mpegts/mux/reconfigure.rs]): the plan, which
    diffs the live slots against a new configuration and computes every refusal
    without touching the muxer, and its application. *)
From Stdlib Require Import ZArith Lia Bool String.
From stdpp Require Import base list list_numbers gmap.
From S2P Require Import Prelude Common TsPacket PesWriter PsiWriter Muxer MuxerConfig MuxerBuild.

Module Reconfigure.
Import Common PesWriter MuxTypes MuxState MuxHandles MuxDescriptors MuxValidate MuxSlots.

#[global] Instance Av1CarriageMode_eq_dec : EqDecision Av1CarriageMode.
Proof. solve_decision. Defined.
#[global] Instance AudioCodec_eq_dec : EqDecision AudioCodec.
Proof. solve_decision. Defined.

Record PlannedStream : Type := {
  planned_kind : MuxStreamKind;
  within : Z;
  spec_index : Z;
  survivor : bool
}.

Record PlannedProgram : Type := {
  slot : Z;
  config_index : Z;
  planned_pcr_pid : Z;
  planned_streams : list PlannedStream;
  removed_pids : list Z
}.

Record ReconfigurePlan : Type := {
  planned_programs : list PlannedProgram;
  removed_slots : list Z
}.

(** ** Identities *)

Definition same_subtitle_family (a b : SubtitleCodec) : bool :=
  match a, b with
  | DvbSubtitling _ _ _ _, DvbSubtitling _ _ _ _ => true
  | DvbTeletextCodec _ _ _ _, DvbTeletextCodec _ _ _ _ => true
  | Cea708Standalone, Cea708Standalone => true
  | WebVttInTs, WebVttInTs => true
  | _, _ => false
  end.

Definition same_stream_identity (old new : StreamSpec) : bool :=
  let same_codec :=
    match old, new with
    | SpecVideo _ a, SpecVideo _ b => bool_decide (a = b)
    | SpecKlv _ a _, SpecKlv _ b _ => bool_decide (a = b)
    | SpecAudio _ a _, SpecAudio _ b _ => bool_decide (a = b)
    | SpecSubtitle _ a, SpecSubtitle _ b => same_subtitle_family a b
    | SpecData _ _ _, SpecData _ _ _ => true
    | _, _ => false
    end in
  same_codec && (pmt_stream_type_byte old =? pmt_stream_type_byte new).

Definition kind_len (s : ProgramSlot) (kind : MuxStreamKind) : Z :=
  match kind with
  | KindVideo => zlen (video s)
  | KindKlv => zlen (klv s)
  | KindAudio => zlen (audio s)
  | KindSubtitle => zlen (subtitle s)
  | KindData => zlen (data s)
  end.

(** ** Choosing stream slots

    The two arrays of a [StreamPlacer] are functions of the kind that indexes them. *)
Record StreamPlacer : Type := {
  placer_slot : option ProgramSlot;
  free : MuxStreamKind -> list Z;
  appended : MuxStreamKind -> Z
}.

Definition upd {A} (f : MuxStreamKind -> A) (k : MuxStreamKind) (a : A) : MuxStreamKind -> A :=
  fun k' => if bool_decide (k' = k) then a else f k'.

(** [Vec::remove(i)] *)
Definition vec_remove {E A} (l : list A) (i : Z) : res E (A * list A) :=
  let! x := idx l i in Ok (x, ztake i l ++ zdrop (i + 1) l).

Definition claim_same_pid {E} (p : StreamPlacer) (kind : MuxStreamKind) (pid : Z) : res E (option Z * StreamPlacer) :=
  let i :=
    get! s := placer_slot p in
    get! (placed, w) := placed_pids s !! pid in
    if bool_decide (placed = kind) then position (fun f => f =? w) (free p kind) else None in
  match i with
  | None => Ok (None, p)
  | Some i =>
      let! (w, rest) := vec_remove (free p kind) i in
      Ok (Some w, {| placer_slot := placer_slot p; free := upd (free p) kind rest; appended := appended p |})
  end.

Definition claim_any {E} (p : StreamPlacer) (kind : MuxStreamKind) : res E (Z * StreamPlacer) :=
  match free p kind with
  | w :: rest => Ok (w, {| placer_slot := placer_slot p; free := upd (free p) kind rest; appended := appended p |})
  | [] =>
      let base := match placer_slot p with Some s => kind_len s kind | None => 0 end in
      let n := appended p kind + 1 in
      Ok (base + n - 1, {| placer_slot := placer_slot p; free := free p; appended := upd (appended p) kind n |})
  end.

(** [collect] of [free_indices] from index [w] on. *)
Fixpoint free_from {A} (pid : A -> Z) (keep : list Z) (w : Z) (v : list (option A)) : list Z :=
  match v with
  | [] => []
  | s :: v =>
      let free := match s with None => true | Some s => negb (bool_decide (pid s ∈ keep)) end in
      (if free then [w] else []) ++ free_from pid keep (w + 1) v
  end.

Definition free_indices (s : ProgramSlot) (kind : MuxStreamKind) (keep : list Z) : list Z :=
  match kind with
  | KindVideo => free_from video_pid keep 0 (video s)
  | KindKlv => free_from klv_pid keep 0 (klv s)
  | KindAudio => free_from audio_pid keep 0 (audio s)
  | KindSubtitle => free_from subtitle_pid keep 0 (subtitle s)
  | KindData => free_from data_pid keep 0 (data s)
  end.

(** ** Updating a slot *)

Definition with_streams (s : ProgramSlot) v k a b d : ProgramSlot :=
  {| live := live s; video := v; klv := k; audio := a; subtitle := b; data := d;
     MuxState.pcr_pid := MuxState.pcr_pid s; pmt_descriptor_cache := pmt_descriptor_cache s; pmt_version := pmt_version s;
     pmt_identity := pmt_identity s; psi_last := psi_last s; pcr_last := pcr_last s;
     last_program_number := last_program_number s; placed_pids := placed_pids s |}.

Definition with_live (s : ProgramSlot) (l : option MuxerProgramConfig) : ProgramSlot :=
  {| live := l; video := video s; klv := klv s; audio := audio s; subtitle := subtitle s; data := data s;
     MuxState.pcr_pid := MuxState.pcr_pid s; pmt_descriptor_cache := pmt_descriptor_cache s; pmt_version := pmt_version s;
     pmt_identity := pmt_identity s; psi_last := psi_last s; pcr_last := pcr_last s;
     last_program_number := last_program_number s; placed_pids := placed_pids s |}.

Definition with_placed (s : ProgramSlot) (p : gmap Z (MuxStreamKind * Z)) : ProgramSlot :=
  {| live := live s; video := video s; klv := klv s; audio := audio s; subtitle := subtitle s; data := data s;
     MuxState.pcr_pid := MuxState.pcr_pid s; pmt_descriptor_cache := pmt_descriptor_cache s; pmt_version := pmt_version s;
     pmt_identity := pmt_identity s; psi_last := psi_last s; pcr_last := pcr_last s;
     last_program_number := last_program_number s; placed_pids := p |}.

Definition place {E A} (v : list (option A)) (w : Z) (state : A) : res E (list (option A)) :=
  let v := if zlen v <=? w then v ++ zrep (w + 1 - zlen v) None else v in
  put v w [Some state].

Definition clear_all {A} (v : list (option A)) : list (option A) := map (fun _ => None) v.

Definition clear_streams (s : ProgramSlot) : ProgramSlot :=
  with_streams s (clear_all (video s)) (clear_all (klv s)) (clear_all (audio s)) (clear_all (subtitle s))
    (clear_all (data s)).

Definition clear_stream {E} (s : ProgramSlot) (pid : Z) : res E ProgramSlot :=
  match placed_pids s !! pid with
  | None => Panic
  | Some (kind, w) =>
      match kind with
      | KindVideo => let! v := put (video s) w [None] in Ok (with_streams s v (klv s) (audio s) (subtitle s) (data s))
      | KindKlv => let! v := put (klv s) w [None] in Ok (with_streams s (video s) v (audio s) (subtitle s) (data s))
      | KindAudio => let! v := put (audio s) w [None] in Ok (with_streams s (video s) (klv s) v (subtitle s) (data s))
      | KindSubtitle => let! v := put (subtitle s) w [None] in Ok (with_streams s (video s) (klv s) (audio s) v (data s))
      | KindData => let! v := put (data s) w [None] in Ok (with_streams s (video s) (klv s) (audio s) (subtitle s) v)
      end
  end.

(** ** The plan *)

Definition refuse (r : ConfigReason) : MuxError := ConfigInvalid r.

Definition refuse_global_field_change (old new : MuxerConfig) : res MuxError unit :=
  if negb (pcr_interval_ms old =? pcr_interval_ms new) then
    Err (refuse (GlobalFieldChanges "pcr_interval_ms"%string (IntChange (pcr_interval_ms old) (pcr_interval_ms new))))
  else if negb (psi_interval_ms old =? psi_interval_ms new) then
    Err (refuse (GlobalFieldChanges "psi_interval_ms"%string (IntChange (psi_interval_ms old) (psi_interval_ms new))))
  else if negb (buffer_packets old =? buffer_packets new) then
    Err (refuse (GlobalFieldChanges "buffer_packets"%string (IntChange (buffer_packets old) (buffer_packets new))))
  else if negb (bool_decide (av1_carriage old = av1_carriage new)) then
    Err (refuse (GlobalFieldChanges "av1_carriage"%string (CarriageChange (av1_carriage old) (av1_carriage new))))
  else Ok tt.

(** [live_slots()], from index [i]. *)
Fixpoint live_slots_from (i : Z) (ss : list ProgramSlot) : list (Z * MuxerProgramConfig) :=
  match ss with
  | [] => []
  | s :: ss => match live s with Some prog => [(i, prog)] | None => [] end ++ live_slots_from (i + 1) ss
  end.

Definition live_slots (m : Muxer) : list (Z * MuxerProgramConfig) := live_slots_from 0 (slots m).

Definition slot_by_number (m : Muxer) : gmap Z Z :=
  foldl (fun acc ip => <[program_number ip.2 := ip.1]> acc) ∅ (live_slots m).

Definition live_pids (m : Muxer) : gmap Z (Z * MuxerProgramConfig * StreamSpec) :=
  foldl (fun acc ip => foldl (fun acc spec => <[spec_pid spec := (ip.1, ip.2, spec)]> acc) acc (streams ip.2))
    ∅ (live_slots m).

Definition plan_removed_slots (m : Muxer) (new : MuxerConfig) : list Z :=
  map fst (List.filter (fun ip => negb (existsb (fun p => program_number p =? program_number ip.2) (programs new)))
             (live_slots m)).

(** The indices of the free program slots, from index [i]. *)
Fixpoint free_slots_from (i : Z) (removed : list Z) (ss : list ProgramSlot) : list Z :=
  match ss with
  | [] => []
  | s :: ss => (if negb (is_live s) || bool_decide (i ∈ removed) then [i] else []) ++ free_slots_from (i + 1) removed ss
  end.

(** [iter().position(p)] where [p] indexes a slice. *)
Fixpoint position_res {E A} (p : A -> res E bool) (l : list A) : res E (option Z) :=
  match l with
  | [] => Ok None
  | x :: l =>
      let! b := p x in
      if (b : bool) then Ok (Some 0) else let! i := position_res p l in Ok ((fun i => 1 + i) <$> i)
  end.

(** First pass: the tombstone that last carried the program's number. *)
Fixpoint choose_same_number {E} (ss : list ProgramSlot) (progs : list MuxerProgramConfig) (chosen : list (option Z))
    (free : list Z) : res E (list (option Z) * list Z) :=
  match progs, chosen with
  | prog :: progs, choice :: chosen =>
      let! (choice, free) :=
        match choice with
        | Some _ => Ok (choice, free)
        | None =>
            let! i := position_res (fun f => let! s := idx ss f in Ok (last_program_number s =? program_number prog)) free in
            match i with
            | Some i => let! (f, rest) := vec_remove free i in Ok (Some f, rest)
            | None => Ok (None, free)
            end
        end in
      let! (rest, free) := choose_same_number ss progs chosen free in
      Ok (choice :: rest, free)
  | _, _ => Ok (chosen, free)
  end.

(** Second pass: the lowest free slot, else a new one. *)
Fixpoint choose_any (chosen : list (option Z)) (free : list Z) (next_append : Z) : list Z :=
  match chosen with
  | [] => []
  | Some s :: chosen => s :: choose_any chosen free next_append
  | None :: chosen =>
      match free with
      | [] => next_append :: choose_any chosen free (next_append + 1)
      | f :: free => f :: choose_any chosen free next_append
      end
  end.

Definition choose_program_slots {E} (m : Muxer) (new : MuxerConfig) (by_number : gmap Z Z) (removed : list Z)
    : res E (list Z) :=
  let free := free_slots_from 0 removed (slots m) in
  let chosen := map (fun p => by_number !! program_number p) (programs new) in
  let! (chosen, free) := choose_same_number (slots m) (programs new) chosen free in
  Ok (choose_any chosen free (zlen (slots m))).

(** The loop over the specs of one new program: survivors keep their index. *)
Fixpoint match_streams (m : Muxer) (lp : gmap Z (Z * MuxerProgramConfig * StreamSpec)) (slot_idx : Z) (matched : bool)
    (prog : MuxerProgramConfig) (spec_index : Z) (specs : list StreamSpec) : res MuxError (list (StreamSpec * option Z * Z)) :=
  match specs with
  | [] => Ok []
  | spec :: specs =>
      let pid := spec_pid spec in
      let! survivor_within :=
        match lp !! pid with
        | None => Ok None
        | Some (old_slot, old_prog, old_spec) =>
            if negb (old_slot =? slot_idx) || negb matched then
              Err (refuse (PidMoves pid (program_number old_prog) (program_number prog)))
            else if negb (same_stream_identity old_spec spec) then
              Err (refuse (PidChangesIdentity pid (program_number prog) (kind_of old_spec) (pmt_stream_type_byte old_spec)
                             (kind_of spec) (pmt_stream_type_byte spec)))
            else
              let! s := idx (slots m) slot_idx in
              match placed_pids s !! pid with
              | Some (_, w) => Ok (Some w)
              | None => Panic
              end
        end in
      let! rest := match_streams m lp slot_idx matched prog (spec_index + 1) specs in
      Ok ((spec, survivor_within, spec_index) :: rest)
  end.

(** [usize::MAX], the index of a stream not placed yet. *)
Definition unplaced_within : Z := 2 ^ 64 - 1.

Definition planned_stream (t : StreamSpec * option Z * Z) : PlannedStream :=
  let '(spec, w, i) := t in
  {| planned_kind := kind_of spec; within := match w with Some w => w | None => unplaced_within end; spec_index := i;
     survivor := is_some w |}.

Definition set_within (s : PlannedStream) (w : Z) : PlannedStream :=
  {| planned_kind := planned_kind s; within := w; spec_index := spec_index s; survivor := survivor s |}.

(** New streams take the tombstone that carried their PID; [true] marks the ones
    still unplaced. *)
Fixpoint place_same_pid {E} (prog : MuxerProgramConfig) (ss : list PlannedStream) (p : StreamPlacer)
    : res E (list (PlannedStream * bool) * StreamPlacer) :=
  match ss with
  | [] => Ok ([], p)
  | s :: ss =>
      let! (s, unplaced, p) :=
        (if survivor s then Ok (s, false, p)
         else
           let! spec := idx (streams prog) (spec_index s) in
           let! (w, p) := claim_same_pid p (planned_kind s) (spec_pid spec) in
           match w with
           | Some w => Ok (set_within s w, false, p)
           | None => Ok (s, true, p)
           end) in
      let! (rest, p) := place_same_pid prog ss p in
      Ok ((s, unplaced) :: rest, p)
  end.

Fixpoint place_rest {E} (ss : list (PlannedStream * bool)) (p : StreamPlacer) : res E (list PlannedStream) :=
  match ss with
  | [] => Ok []
  | (s, unplaced) :: ss =>
      let! (s, p) := (if (unplaced : bool) then let! (w, p) := claim_any p (planned_kind s) in Ok (set_within s w, p)
                      else Ok (s, p)) in
      let! rest := place_rest ss p in
      Ok (s :: rest)
  end.

(** The body of the loop over the new programs. *)
Definition plan_program (m : Muxer) (by_number : gmap Z Z) (lp : gmap Z (Z * MuxerProgramConfig * StreamSpec))
    (config_index : Z) (prog : MuxerProgramConfig) (slot_idx : Z) : res MuxError PlannedProgram :=
  let matched := bool_decide (by_number !! program_number prog = Some slot_idx) in
  let slot_ := get (slots m) slot_idx in
  let new_pids := map spec_pid (streams prog) in
  let placer :=
    {| placer_slot := slot_;
       free := match slot_ with
               | Some s => fun kind => free_indices s kind (if matched then new_pids else [])
               | None => fun _ => []
               end;
       appended := fun _ => 0 |} in
  let! found := match_streams m lp slot_idx matched prog 0 (streams prog) in
  let! (ss, placer) := place_same_pid prog (map planned_stream found) placer in
  let! ss := place_rest ss placer in
  let! pcr := resolve_pcr_pid prog in
  let! removed :=
    (if matched then
       let! s := idx (slots m) slot_idx in
       match live s with
       | None => Panic
       | Some old =>
           if negb (pmt_pid old =? pmt_pid prog) then
             Err (refuse (PmtPidChanges (program_number prog) (pmt_pid old) (pmt_pid prog)))
           else
             let removed := List.filter (fun pid => negb (bool_decide (pid ∈ new_pids))) (map spec_pid (streams old)) in
             if negb (pcr =? MuxState.pcr_pid s) && negb (bool_decide (MuxState.pcr_pid s ∈ removed)) then
               Err (refuse (PcrPidChanges (program_number prog) (MuxState.pcr_pid s) pcr
                              (negb (is_some (MuxTypes.pcr_pid prog)))))
             else Ok removed
       end
     else Ok []) in
  Ok {| slot := slot_idx; config_index := config_index; planned_pcr_pid := pcr; planned_streams := ss;
        removed_pids := removed |}.

Fixpoint plan_programs (m : Muxer) (by_number : gmap Z Z) (lp : gmap Z (Z * MuxerProgramConfig * StreamSpec))
    (config_index : Z) (progs : list MuxerProgramConfig) (slots_ : list Z) : res MuxError (list PlannedProgram) :=
  match progs, slots_ with
  | prog :: progs, s :: slots_ =>
      let! p := plan_program m by_number lp config_index prog s in
      let! rest := plan_programs m by_number lp (config_index + 1) progs slots_ in
      Ok (p :: rest)
  | _, _ => Ok []
  end.

Definition plan_reconfigure (m : Muxer) (new : MuxerConfig) : res MuxError ReconfigurePlan :=
  check! validate new in
  check! refuse_global_field_change (config m) new in
  let by_number := slot_by_number m in
  let removed := plan_removed_slots m new in
  let! slots_ := choose_program_slots m new by_number removed in
  let! programs_ := plan_programs m by_number (live_pids m) 0 (programs new) slots_ in
  Ok {| planned_programs := programs_; removed_slots := removed |}.

(** ** Applying the plan *)

Definition set_tables (m : Muxer) (ss : list ProgramSlot) (c : TsWriter.ContinuityCounters)
    (stats : gmap Z StreamStats) (scc : gmap Z StreamCodecCounters) (versions : gmap Z Z) : Muxer :=
  {| config := config m; slots := ss; program_order := program_order m;
     pcr_interval_27mhz := pcr_interval_27mhz m; psi_interval_90khz := psi_interval_90khz m; queue := queue m;
     counters := c; pat_version := pat_version m; pat_identity := pat_identity m; pmt_versions_by_pid := versions;
     ts_packets_emitted := ts_packets_emitted m; ts_bytes_emitted := ts_bytes_emitted m; per_stream := stats;
     stream_codec_counters := scc; pes_scratch := pes_scratch m |}.

(** [self.slots[i] = f(self.slots[i])] *)
Definition edit_slot {E} (ss : list ProgramSlot) (i : Z) (f : ProgramSlot -> res E ProgramSlot) : res E (list ProgramSlot) :=
  let! s := idx ss i in
  let! s := f s in
  put ss i [s].

Fixpoint drop_slots {E} (idxs : list Z) (ss : list ProgramSlot) : res E (list ProgramSlot * list Z) :=
  match idxs with
  | [] => Ok (ss, [])
  | i :: idxs =>
      let! s := idx ss i in
      match live s with
      | None => Panic
      | Some prog =>
          let! ss := put ss i [clear_streams (with_live s None)] in
          let! (ss, removed) := drop_slots idxs ss in
          Ok (ss, map spec_pid (streams prog) ++ removed)
      end
  end.

Fixpoint clear_pids {E} (pids : list Z) (s : ProgramSlot) : res E ProgramSlot :=
  match pids with
  | [] => Ok s
  | pid :: pids => let! s := clear_stream s pid in clear_pids pids s
  end.

Fixpoint drop_streams {E} (ps : list PlannedProgram) (ss : list ProgramSlot) : res E (list ProgramSlot * list Z) :=
  match ps with
  | [] => Ok (ss, [])
  | p :: ps =>
      let! ss := match removed_pids p with
                 | [] => Ok ss
                 | pids => edit_slot ss (slot p) (clear_pids pids)
                 end in
      let! (ss, removed) := drop_streams ps ss in
      Ok (ss, removed_pids p ++ removed)
  end.

Fixpoint reset_pids {E} (pids : list Z) (c : TsWriter.ContinuityCounters) (scc : gmap Z StreamCodecCounters)
    : res E (TsWriter.ContinuityCounters * gmap Z StreamCodecCounters) :=
  match pids with
  | [] => Ok (c, scc)
  | pid :: pids => let! c := TsWriter.reset c pid in reset_pids pids c (delete pid scc)
  end.

(** [while self.slots.len() <= i { self.slots.push(empty()) }] *)
Definition grow_slots (ss : list ProgramSlot) (i : Z) : list ProgramSlot := ss ++ zrep (i + 1 - zlen ss) empty.

(** The iterators over the per-kind states. *)
Definition iters : Type :=
  list VideoStreamState * list KlvStreamState * list AudioStreamState * list SubtitleStreamState * list DataStreamState.

Definition next_state {E A} (l : list A) : res E (A * list A) :=
  match l with [] => Panic | x :: l => Ok (x, l) end.

Definition place_stream {E} (s : ProgramSlot) (it : iters) (kind : MuxStreamKind) (w : Z) : res E (ProgramSlot * iters) :=
  let '(iv, ik, ia, ib, id_) := it in
  match kind with
  | KindVideo =>
      let! (x, iv) := next_state iv in let! v := place (video s) w x in
      Ok (with_streams s v (klv s) (audio s) (subtitle s) (data s), (iv, ik, ia, ib, id_))
  | KindKlv =>
      let! (x, ik) := next_state ik in let! v := place (klv s) w x in
      Ok (with_streams s (video s) v (audio s) (subtitle s) (data s), (iv, ik, ia, ib, id_))
  | KindAudio =>
      let! (x, ia) := next_state ia in let! v := place (audio s) w x in
      Ok (with_streams s (video s) (klv s) v (subtitle s) (data s), (iv, ik, ia, ib, id_))
  | KindSubtitle =>
      let! (x, ib) := next_state ib in let! v := place (subtitle s) w x in
      Ok (with_streams s (video s) (klv s) (audio s) v (data s), (iv, ik, ia, ib, id_))
  | KindData =>
      let! (x, id_) := next_state id_ in let! v := place (data s) w x in
      Ok (with_streams s (video s) (klv s) (audio s) (subtitle s) v, (iv, ik, ia, ib, id_))
  end.

Fixpoint place_streams {E} (prog : MuxerProgramConfig) (ss : list PlannedStream) (s : ProgramSlot) (it : iters)
    (c : TsWriter.ContinuityCounters) : res E (ProgramSlot * TsWriter.ContinuityCounters) :=
  match ss with
  | [] => Ok (s, c)
  | x :: ss =>
      let! (s, it) := place_stream s it (planned_kind x) (within x) in
      let! spec := idx (streams prog) (spec_index x) in
      let pid := spec_pid spec in
      let s := with_placed s (<[pid := (planned_kind x, within x)]> (placed_pids s)) in
      let! c := (if survivor x then Ok c else TsWriter.reset c pid) in
      place_streams prog ss s it c
  end.

(** The merge of the fresh entries into the lifetime statistics. *)
Definition merge_stats (fresh kept : gmap Z StreamStats) : gmap Z StreamStats :=
  merge (fun f k =>
    match f, k with
    | Some f, Some k => Some {| stat_pid := stat_pid k; stat_stream_type := stat_stream_type f;
                                stat_program_number := stat_program_number f; label := label f; items := items k;
                                byte_count := byte_count k; discontinuities := discontinuities k |}
    | Some f, None => Some f
    | None, k => k
    end) fresh kept.

(** The body of the loop over the planned programs. *)
Definition apply_program {E} (m : Muxer) (planned : PlannedProgram) (matched : bool) (prog : MuxerProgramConfig) : res E Muxer :=
  let ss := grow_slots (slots m) (slot planned) in
  let! s := idx ss (slot planned) in
  let s := if matched then s else set_pcr_last (clear_streams s) None in
  let! (s, c) := place_streams prog (planned_streams planned) s (collect_stream_states prog) (counters m) in
  let fresh := initialize_stats prog (video s) (klv s) (audio s) (subtitle s) (data s) ∅ in
  let stats := merge_stats fresh (per_stream m) in
  let pcr := planned_pcr_pid planned in
  let! cache := build_pmt_descriptor_cache prog in
  let! identity := pmt_identity_key prog pcr cache in
  let changed := negb matched || negb (bool_decide (identity = pmt_identity s)) in
  let! version :=
    (if changed then
       match pmt_versions_by_pid m !! pmt_pid prog with
       | None => Ok 0
       | Some v => let! v := chk_u8 (v + 1) in Ok (Z.land v 0x1F)
       end
     else Ok (pmt_version s)) in
  let versions := if changed then <[pmt_pid prog := version]> (pmt_versions_by_pid m) else pmt_versions_by_pid m in
  let s :=
    {| live := Some prog; video := video s; klv := klv s; audio := audio s; subtitle := subtitle s; data := data s;
       MuxState.pcr_pid := pcr; pmt_descriptor_cache := cache; pmt_version := version; pmt_identity := identity;
       psi_last := psi_last s; pcr_last := pcr_last s; last_program_number := program_number prog;
       placed_pids := placed_pids s |} in
  let! ss := put ss (slot planned) [s] in
  Ok (set_tables m ss c stats (stream_codec_counters m) versions).

Fixpoint apply_programs {E} (new : MuxerConfig) (ps : list (PlannedProgram * bool)) (m : Muxer) : res E Muxer :=
  match ps with
  | [] => Ok m
  | (planned, matched) :: ps =>
      let! prog := idx (programs new) (config_index planned) in
      let! m := apply_program m planned matched prog in
      apply_programs new ps m
  end.

(** Whether a planned program continues a live one. *)
Definition plan_matched {E} (m : Muxer) (new : MuxerConfig) (p : PlannedProgram) : res E bool :=
  let! prog := idx (programs new) (config_index p) in
  let carried := get! s := get (slots m) (slot p) in slot_program_number s in
  Ok (bool_decide (carried = Some (program_number prog))).

Definition set_order (m : Muxer) (order : list Z) : Muxer :=
  {| config := config m; slots := slots m; program_order := order;
     pcr_interval_27mhz := pcr_interval_27mhz m; psi_interval_90khz := psi_interval_90khz m; queue := queue m;
     counters := counters m; pat_version := pat_version m; pat_identity := pat_identity m;
     pmt_versions_by_pid := pmt_versions_by_pid m; ts_packets_emitted := ts_packets_emitted m;
     ts_bytes_emitted := ts_bytes_emitted m; per_stream := per_stream m;
     stream_codec_counters := stream_codec_counters m; pes_scratch := pes_scratch m |}.

Definition set_pat (m : Muxer) (c : MuxerConfig) (version : Z) (identity : list (Z * Z)) : Muxer :=
  {| config := c; slots := slots m; program_order := program_order m;
     pcr_interval_27mhz := pcr_interval_27mhz m; psi_interval_90khz := psi_interval_90khz m; queue := queue m;
     counters := counters m; pat_version := version; pat_identity := identity;
     pmt_versions_by_pid := pmt_versions_by_pid m; ts_packets_emitted := ts_packets_emitted m;
     ts_bytes_emitted := ts_bytes_emitted m; per_stream := per_stream m;
     stream_codec_counters := stream_codec_counters m; pes_scratch := pes_scratch m |}.

Definition apply_reconfigure {E} (m : Muxer) (plan : ReconfigurePlan) (new : MuxerConfig) : res E Muxer :=
  let! matched := traverse (plan_matched m new) (planned_programs plan) in
  let! (ss, removed) := drop_slots (removed_slots plan) (slots m) in
  let! (ss, removed') := drop_streams (planned_programs plan) ss in
  let! (c, scc) := reset_pids (removed ++ removed') (counters m) (stream_codec_counters m) in
  let m := set_tables m ss c (per_stream m) scc (pmt_versions_by_pid m) in
  let m := set_order m (map slot (planned_programs plan)) in
  let! m := apply_programs new (zip (planned_programs plan) matched) m in
  let entries := MuxSchedule.pat_entries m in
  let! version :=
    (if bool_decide (entries = pat_identity m) then Ok (pat_version m)
     else let! v := chk_u8 (pat_version m + 1) in Ok (Z.land v 0x1F)) in
  Ok (set_pat (MuxSchedule.request_psi m) new version entries).

Definition reconfigure (m : Muxer) (new : MuxerConfig) : res MuxError unit * Muxer :=
  match plan_reconfigure m new with
  | Err e => (Err e, m)
  | Panic => (Panic, m)
  | Ok plan =>
      match apply_reconfigure m plan new with
      | Ok m' => (Ok tt, m')
      | Err e => (Err e, m)
      | Panic => (Panic, m)
      end
  end.

End Reconfigure.
