(* ===== verification/ReconfigurePlan.v ===== *)
(** The plan of a reconfiguration: which programs and streams survive, which
    slots the new ones take, and which configurations are refused. *)
From Stdlib Require Import ZArith Lia Bool String Permutation.
From stdpp Require Import base list list_numbers gmap.
From S2P Require Import Prelude Common TsPacket PesWriter PsiParse PsiWriter Descriptors Muxer MuxerConfig ConfigTheorems MuxerBuild MuxerTheorems MuxerWf Reconfigure.

(** * Index pools

    Both program slots and stream slots are handed out from a pool: [n] indices
    exist, [used] are taken, [free] are tombstones, and once the tombstones are
    gone [a] more indices are appended. *)
Module Pool.
Import Reconfigure.

Record pool (n : Z) (used free : list Z) (a : Z) : Prop := {
  pool_perm : used ++ free ≡ₚ seqZ 0 (n + a);
  pool_last : 0 < a -> free = [];
  pool_size : 0 <= n;
  pool_appended : 0 <= a;
}.

Lemma pool_start n used free : 0 <= n -> NoDup (used ++ free) -> (forall i, i ∈ used ++ free <-> 0 <= i < n) ->
  pool n used free 0.
Proof.
  intros Hn Hd Hi. split; try lia. rewrite Z.add_0_r. apply NoDup_Permutation; [done|apply NoDup_seqZ|].
  intros i. rewrite Hi, elem_of_seqZ. lia.
Qed.

Lemma pool_claim n used free a i f : pool n used free a -> get free i = Some f ->
  pool n (used ++ [f]) (ztake i free ++ zdrop (i + 1) free) a.
Proof.
  intros [Hp Hl Hn Ha] Hg. pose proof (get_Some _ _ _ Hg) as Hi.
  assert (Hf : free ≡ₚ f :: (ztake i free ++ zdrop (i + 1) free)).
  { rewrite <- (ztake_zdrop free i) at 1. assert (zdrop i free = f :: zdrop (i + 1) free) as ->.
    { unfold get in Hg. rewrite (proj2 (Z.ltb_ge _ _)) in Hg by lia. unfold zdrop. rewrite (drop_S _ _ _ Hg).
      by replace (Z.to_nat (i + 1)) with (S (Z.to_nat i)) by lia. }
    symmetry. apply Permutation_middle. }
  split; try done.
  - revert Hf. generalize (ztake i free ++ zdrop (i + 1) free). intros rest Hf. rewrite <- Hp, Hf, <- app_assoc. done.
  - intros H. rewrite (Hl H) in Hg. unfold get in Hg. destruct (i <? 0); done.
Qed.

Lemma pool_append n used a : pool n used [] a -> pool n (used ++ [n + a]) [] (a + 1).
Proof.
  intros [Hp Hl Hn Ha]. split; try lia; [|done]. rewrite app_nil_r in *. rewrite Hp.
  rewrite Z.add_assoc, (seqZ_app 0 (n + a) 1) by lia. done.
Qed.

(** What a finished pool gives. *)
Lemma pool_distinct n used free a : pool n used free a -> NoDup used.
Proof. intros [Hp _ _ _]. pose proof (NoDup_seqZ 0 (n + a)) as H. rewrite <- Hp in H. by apply NoDup_app in H as [H _]. Qed.

Lemma pool_bound n used free a cap : pool n used free a -> n <= cap -> zlen used <= cap ->
  Forall (fun i => 0 <= i < cap) used.
Proof.
  intros [Hp Hl Hn Ha] Hnc Huc. apply Forall_forall. intros i Hi.
  assert (Hin : i ∈ seqZ 0 (n + a)) by (rewrite <- Hp; apply elem_of_app; by left). apply elem_of_seqZ in Hin.
  destruct (decide (a = 0)); [lia|]. rewrite Hl, app_nil_r in Hp by lia. apply Permutation_length in Hp.
  rewrite length_seqZ in Hp. unfold zlen in *. lia.
Qed.

Lemma pool_member n used free a : pool n used free a -> forall i, i ∈ used -> 0 <= i.
Proof.
  intros [Hp _ _ _] i Hi. assert (Hin : i ∈ seqZ 0 (n + a)) by (rewrite <- Hp; apply elem_of_app; by left).
  apply elem_of_seqZ in Hin. lia.
Qed.

Lemma vec_remove_ok {A} (l : list A) i x : get l i = Some x ->
  forall E, vec_remove (E:=E) l i = Ok (x, ztake i l ++ zdrop (i + 1) l).
Proof. intros H E. unfold vec_remove, idx. by rewrite H. Qed.

End Pool.

(** * The tables of the live slots *)
Module LiveTables.
Import Common PesWriter MuxTypes MuxState MuxHandles MuxValidate ValidConfig MuxInv SlotView MuxWf Reconfigure.

Lemma insert_all {K V : Type} (key : V -> Z) (val : V -> K) l : NoDup (map key l) -> forall (m : gmap Z K) k v,
  (foldl (fun acc x => <[key x := val x]> acc) m l) !! k = Some v <->
  (exists x, x ∈ l /\ key x = k /\ val x = v) \/ ((k ∉ map key l) /\ m !! k = Some v).
Proof.
  induction l as [|y l IH]; intros Hn m k v; cbn [map foldl] in *.
  { split; [intros; right; split; [by intros ?%elem_of_nil|done]|]. intros [(x & Hx & _)|[_ H]]; [by apply elem_of_nil in Hx|done]. }
  apply NoDup_cons in Hn as [Hy Hn]. rewrite (IH Hn). split.
  - intros [(x & Hx & Hk & Hv)|[Hk Hm]]; [left; exists x; split; [by right|done]|].
    rewrite lookup_insert_Some in Hm. destruct Hm as [[<- <-]|[Hne Hm]]; [left; exists y; split; [left|done]|].
    right. split; [|done]. rewrite not_elem_of_cons. done.
  - intros [(x & [->|Hx]%elem_of_cons & Hk & Hv)|[Hk Hm]].
    + right. subst. split; [done|]. rewrite lookup_insert. by case_decide.
    + left. by exists x.
    + apply not_elem_of_cons in Hk as [Hk Hk']. right. split; [done|]. by rewrite lookup_insert_ne.
Qed.

Lemma live_slots_from_in ss : forall i j p, (j, p) ∈ live_slots_from i ss <->
  exists s, i <= j /\ get ss (j - i) = Some s /\ live s = Some p.
Proof.
  induction ss as [|s ss IH]; intros i j p; cbn [live_slots_from].
  { split; [by intros ?%elem_of_nil|]. intros (s & _ & Hg & _). unfold get in Hg. destruct (j - i <? 0); done. }
  rewrite elem_of_app, IH. split.
  - intros [Hl|(s' & Hij & Hg & Hl)].
    + destruct (live s) as [q|] eqn:Hs; [|by apply elem_of_nil in Hl]. apply list_elem_of_singleton in Hl. simplify_eq.
      exists s. rewrite Z.sub_diag. split; [lia|done].
    + exists s'. split; [lia|]. replace (j - i) with (1 + (j - (i + 1))) by lia. rewrite get_cons_S by lia. done.
  - intros (s' & Hij & Hg & Hl). destruct (decide (j = i)) as [->|Hne].
    + rewrite Z.sub_diag in Hg. injection Hg as <-. left. rewrite Hl. by apply list_elem_of_singleton.
    + right. exists s'. split; [lia|]. replace (j - i) with (1 + (j - (i + 1))) in Hg by lia. by rewrite get_cons_S in Hg by lia.
Qed.

Lemma live_slots_in m i p : (i, p) ∈ live_slots m <-> exists s, get (slots m) i = Some s /\ live s = Some p.
Proof.
  unfold live_slots. rewrite live_slots_from_in. split; intros (s & H); exists s.
  - rewrite Z.sub_0_r in H. destruct H as (_ & ? & ?). done.
  - rewrite Z.sub_0_r. destruct H as [Hg Hl]. pose proof (get_Some _ _ _ Hg). split_and!; try done. lia.
Qed.

Lemma live_slots_programs ss : forall i, map snd (live_slots_from i ss) = live_programs ss.
Proof.
  induction ss as [|s ss IH]; intros i; [done|]. cbn [live_slots_from]. rewrite map_app, IH. unfold live_programs. cbn.
  by destruct (live s).
Qed.

Lemma live_slots_NoDup ss : forall i, NoDup (map fst (live_slots_from i ss)) /\
  Forall (fun j => i <= j) (map fst (live_slots_from i ss)).
Proof.
  induction ss as [|s ss IH]; intros i; cbn [live_slots_from]; [split; constructor|].
  destruct (IH (i + 1)) as [Hn Hf]. assert (Hf' : Forall (fun j => i <= j) (map fst (live_slots_from (i + 1) ss)))
    by (eapply Forall_impl; [exact Hf|]; cbn; intros; lia).
  destruct (live s); cbn [app map fst]; [|done]. split; [|by constructor].
  apply NoDup_cons. split; [|done]. intros Hin. rewrite Forall_forall in Hf. specialize (Hf i Hin). lia.
Qed.

Section tables.
Context (m : Muxer) (Hm : mux_wf m).

Lemma slot_wf_at i s : get (slots m) i = Some s -> slot_wf s.
Proof. intros Hg. pose proof (wf_slots m Hm) as Hf. rewrite Forall_forall in Hf. apply Hf, elem_get. eauto. Qed.

Lemma slot_by_number_spec n i : slot_by_number m !! n = Some i <->
  exists s p, get (slots m) i = Some s /\ live s = Some p /\ MuxTypes.program_number p = n.
Proof.
  unfold slot_by_number. rewrite (insert_all (fun ip => MuxTypes.program_number ip.2) fst).
  - split.
    + intros [([j p] & Hin & Hn & Hj)|[_ H]]; [|done]. cbn in *. subst. apply live_slots_in in Hin as (s & Hg & Hl). eauto.
    + intros (s & p & Hg & Hl & Hn). left. exists (i, p). split; [apply live_slots_in; eauto|done].
  - pose proof (wf_numbers m Hm) as H. rewrite <- (live_slots_programs (slots m) 0), map_map in H. done.
Qed.

(** The triples that [live_pids] stores. *)
Definition live_triples : list (Z * MuxerProgramConfig * StreamSpec) :=
  flat_map (fun ip => map (fun spec => (ip.1, ip.2, spec)) (MuxTypes.streams ip.2)) (live_slots m).

Lemma live_pids_flat : live_pids m = foldl (fun acc t => <[spec_pid t.2 := t]> acc) ∅ live_triples.
Proof.
  unfold live_pids, live_triples. generalize (∅ : gmap Z (Z * MuxerProgramConfig * StreamSpec)).
  induction (live_slots m) as [|[i p] l IH]; intros acc; [done|]. cbn [flat_map foldl fst snd]. rewrite foldl_app, IH.
  f_equal. clear. revert acc. induction (MuxTypes.streams p) as [|s ss IH]; intros acc; [done|]. cbn. apply IH.
Qed.

Lemma live_triples_NoDup : NoDup (map (fun t => spec_pid t.2) live_triples).
Proof.
  pose proof (wf_pids m Hm) as H. rewrite <- (live_slots_programs (slots m) 0) in H. fold (live_slots m) in H.
  unfold live_triples. induction (live_slots m) as [|[i p] l IH]; [constructor|]. cbn [map flat_map snd] in *.
  apply NoDup_app in H as (Hp & Hd & Hl). rewrite map_app, map_map. cbn [snd fst].
  apply NoDup_cons in Hp as [_ Hp]. apply NoDup_app. split_and!; [done| |by apply IH].
  intros x Hx Hx'. apply (Hd x); [by right|]. apply list_elem_of_In, in_flat_map.
  apply list_elem_of_In, in_map_iff in Hx' as ([[j q] s] & Hs & Hin). cbn in Hs.
  apply in_flat_map in Hin as ([j' q'] & Hjq & Hin). apply in_map_iff in Hin as (s' & Heq & Hs'). simplify_eq. cbn in *. simplify_eq.
  exists q'. split; [by apply (in_map snd _ (j', q'))|]. apply in_cons. apply in_map_iff. eauto.
Qed.

Lemma live_pids_spec pid i p s : live_pids m !! pid = Some (i, p, s) <->
  exists sl, get (slots m) i = Some sl /\ live sl = Some p /\ s ∈ MuxTypes.streams p /\ spec_pid s = pid.
Proof.
  rewrite live_pids_flat, (insert_all (fun t => spec_pid t.2) id) by apply live_triples_NoDup. unfold live_triples. split.
  - intros [(t & Hin & Hk & Ht)|[_ H]]; [|done]. cbn in Ht. subst t. cbn in Hk.
    apply list_elem_of_In, in_flat_map in Hin as ([j q] & Hjq & Hin). apply in_map_iff in Hin as (s' & Heq & Hs'). simplify_eq. cbn in *. simplify_eq.
    apply list_elem_of_In, live_slots_in in Hjq as (sl & Hg & Hl). exists sl. rewrite list_elem_of_In. done.
  - intros (sl & Hg & Hl & Hs & <-). left. exists (i, p, s). split; [|done].
    apply list_elem_of_In, in_flat_map. exists (i, p). split; [apply list_elem_of_In, live_slots_in; eauto|].
    apply in_map_iff. exists s. by rewrite <- list_elem_of_In.
Qed.

Lemma removed_slots_spec c i : i ∈ plan_removed_slots m c <->
  exists s p, get (slots m) i = Some s /\ live s = Some p /\
    MuxTypes.program_number p ∉ map MuxTypes.program_number (programs c).
Proof.
  unfold plan_removed_slots. rewrite list_elem_of_In, in_map_iff. split.
  - intros ([j p] & <- & Hin). apply filter_In in Hin as [Hin Hn]. apply list_elem_of_In, live_slots_in in Hin as (s & Hg & Hl).
    exists s, p. split_and!; [done..|]. apply negb_true_iff in Hn. intros (q & Heq & Hq)%list_elem_of_fmap.
    apply not_true_iff_false in Hn. apply Hn, existsb_exists. exists q. rewrite <- list_elem_of_In, Z.eqb_eq. done.
  - intros (s & p & Hg & Hl & Hn). exists (i, p). split; [done|]. apply filter_In. split; [apply list_elem_of_In, live_slots_in; eauto|].
    apply negb_true_iff, not_true_iff_false. intros (q & Hq & Heq)%existsb_exists. apply Hn. apply Z.eqb_eq in Heq. cbn in Heq.
    apply list_elem_of_fmap. exists q. by rewrite list_elem_of_In.
Qed.

Lemma removed_slots_NoDup c : NoDup (plan_removed_slots m c).
Proof.
  unfold plan_removed_slots, live_slots. destruct (live_slots_NoDup (slots m) 0) as [Hn _]. revert Hn.
  generalize (live_slots_from 0 (slots m)). induction l as [|x l IH]; [done|]. cbn [map List.filter]. intros [Hx Hn]%NoDup_cons.
  destruct (negb _); [|by apply IH]. cbn [map]. apply NoDup_cons. split; [|by apply IH].
  intros Hin. apply Hx. apply list_elem_of_In in Hin. apply list_elem_of_In. apply in_map_iff in Hin as (y & Heq & Hy).
  apply filter_In in Hy as [Hy _]. apply in_map_iff. eauto.
Qed.

End tables.

End LiveTables.

(** * Choosing program slots *)
Module ProgramSlots.
Import Common PesWriter MuxTypes MuxState MuxHandles MuxValidate ValidConfig MuxInv SlotView MuxWf Reconfigure Pool LiveTables.

Lemma pool_perm_used n u u' f a : u ≡ₚ u' -> pool n u f a -> pool n u' f a.
Proof. intros He [Hp Hl Hn Ha]. split; try done. by rewrite <- He. Qed.

Lemma free_slots_spec removed ss : forall i j, j ∈ free_slots_from i removed ss <->
  exists s, i <= j /\ get ss (j - i) = Some s /\ (live s = None \/ j ∈ removed).
Proof.
  induction ss as [|s ss IH]; intros i j; cbn [free_slots_from].
  { split; [by intros ?%elem_of_nil|]. intros (s & _ & Hg & _). unfold get in Hg. destruct (j - i <? 0); done. }
  assert (Hb : negb (is_live s) || bool_decide (i ∈ removed) = true <-> live s = None \/ i ∈ removed)
    by (rewrite orb_true_iff, negb_true_iff, bool_decide_eq_true; unfold is_live; destruct (live s); naive_solver).
  rewrite elem_of_app, IH. split.
  - intros [Hl|(s' & Hij & Hg & Hl)].
    + destruct (negb _ || _) eqn:Hx; [|by apply elem_of_nil in Hl]. apply list_elem_of_singleton in Hl. subst.
      exists s. rewrite Z.sub_diag. split; [lia|]. split; [done|]. by apply Hb.
    + exists s'. split; [lia|]. replace (j - i) with (1 + (j - (i + 1))) by lia. rewrite get_cons_S by lia. done.
  - intros (s' & Hij & Hg & Hl). destruct (decide (j = i)) as [->|Hne].
    + rewrite Z.sub_diag in Hg. injection Hg as <-. left. rewrite (proj2 Hb Hl). by apply list_elem_of_singleton.
    + right. exists s'. split; [lia|]. replace (j - i) with (1 + (j - (i + 1))) in Hg by lia. by rewrite get_cons_S in Hg by lia.
Qed.

Lemma free_slots_NoDup removed ss : forall i, NoDup (free_slots_from i removed ss).
Proof.
  induction ss as [|s ss IH]; intros i; cbn [free_slots_from]; [constructor|]. destruct (_ || _); [|apply IH].
  apply NoDup_cons. split; [|apply IH]. intros (s' & Hle & _)%free_slots_spec. lia.
Qed.

Lemma position_res_ok {A} (p : forall E, A -> res E bool) (b : A -> bool) l : (forall x E, x ∈ l -> p E x = Ok (b x)) ->
  forall E, position_res (p E) l = Ok (position b l).
Proof.
  intros H E. induction l as [|x l IH]; [done|]. cbn. rewrite H by left. rb. destruct (b x); [done|].
  rewrite IH by (intros; apply H; by right). done.
Qed.

Lemma choose_same_ok ss n a U : forall progs chosen free, length chosen = length progs ->
  pool n (U ++ omap id chosen) free a -> (forall f, f ∈ free -> is_Some (get ss f)) ->
  exists chosen' free', (forall E, choose_same_number (E:=E) ss progs chosen free = Ok (chosen', free')) /\
    length chosen' = length chosen /\ (forall j i, chosen !! j = Some (Some i) -> chosen' !! j = Some (Some i)) /\
    pool n (U ++ omap id chosen') free' a.
Proof.
  intros progs. revert U. induction progs as [|p progs IH]; intros U [|choice chosen] free Hl Hp Hf; try done.
  { by exists [], free. }
  cbn [choose_same_number].
  assert (Hstep : exists choice' free1, (forall E, match choice with
      | Some _ => Ok (choice, free)
      | None => let! i := position_res (fun f => let! s := idx ss f in Ok (last_program_number s =? MuxTypes.program_number p)) free in
                match i with
                | Some i => let! (f, rest) := vec_remove (E:=E) free i in Ok (Some f, rest)
                | None => Ok (None, free)
                end
      end = Ok (choice', free1)) /\ (forall i, choice = Some i -> choice' = Some i) /\
      pool n ((U ++ option_list choice') ++ omap id chosen) free1 a /\ (forall f, f ∈ free1 -> f ∈ free)).
  { destruct choice as [i|].
    - exists (Some i), free. split_and!; try done. eapply pool_perm_used; [|exact Hp]. cbn. by rewrite <- app_assoc.
    - set (b := fun f => match get ss f with Some s => last_program_number s =? MuxTypes.program_number p | None => false end).
      assert (Hpos : forall E, position_res (E:=E) (fun f => let! s := idx ss f in
          Ok (last_program_number s =? MuxTypes.program_number p)) free = Ok (position b free)).
      { apply position_res_ok. intros f E Hin. unfold b, idx. destruct (Hf f Hin) as [s ->]. done. }
      destruct (position b free) as [i|] eqn:Hi.
      + destruct (position_get _ _ _ Hi) as (f & Hg & _). exists (Some f), (ztake i free ++ zdrop (i + 1) free). split_and!; try done.
        * intros E. rewrite Hpos. rb. by rewrite (vec_remove_ok _ _ _ Hg).
        * eapply pool_perm_used; [|apply pool_claim; [exact Hp|exact Hg]]. cbn [omap option_list].
          change (omap id (None :: chosen)) with (omap id chosen). rewrite <- !app_assoc. apply Permutation_app_head, Permutation_app_comm.
        * intros x [Hx|Hx]%elem_of_app; [apply list_elem_of_lookup in Hx as [k Hk]; apply lookup_take_Some in Hk as [Hk _]; by eapply list_elem_of_lookup_2|].
          apply list_elem_of_lookup in Hx as [k Hk]. unfold zdrop in Hk. rewrite lookup_drop in Hk. by eapply list_elem_of_lookup_2.
      + exists None, free. split_and!; try done. { intros E. by rewrite Hpos. }
        by rewrite app_nil_r. }
  destruct Hstep as (choice' & free1 & Hs & Hk & Hp' & Hsub).
  destruct (IH (U ++ option_list choice') chosen free1) as (chosen' & free' & Hc & Hlen & Hkeep & Hpool);
    [by injection Hl|done|auto|].
  exists (choice' :: chosen'), free'. split_and!.
  - intros E. rewrite Hs. rb. by rewrite Hc.
  - cbn. by rewrite Hlen.
  - intros [|j] i Hj; cbn in *; [injection Hj as ->; by rewrite (Hk i)|auto].
  - eapply pool_perm_used; [|exact Hpool]. rewrite <- app_assoc. by destruct choice'.
Qed.

Lemma choose_any_ok n : forall chosen free a U, pool n (U ++ omap id chosen) free a ->
  let S := choose_any chosen free (n + a) in
  length S = length chosen /\ (forall j i, chosen !! j = Some (Some i) -> S !! j = Some i) /\
  exists free' a', pool n (U ++ S) free' a'.
Proof.
  induction chosen as [|[s|] chosen IH]; intros free a U Hp; cbn [choose_any].
  - split_and!; try done. by exists free, a.
  - destruct (IH free a (U ++ [s])) as (Hl & Hk & free' & a' & Hpool); [by rewrite <- app_assoc|].
    split_and!; [cbn; by rewrite Hl|intros [|j] i Hj; cbn in *; [congruence|auto]|]. exists free', a'. by rewrite <- app_assoc in Hpool.
  - change (omap id (None :: chosen)) with (omap id chosen) in Hp. destruct free as [|f free].
    + destruct (IH [] (a + 1) (U ++ [n + a])) as (Hl & Hk & free' & a' & Hpool).
      { eapply pool_perm_used; [|apply pool_append; exact Hp]. rewrite <- !app_assoc. apply Permutation_app_head, Permutation_app_comm. }
      rewrite Z.add_assoc in *. split_and!; [cbn; by rewrite Hl|intros [|j] i Hj; cbn in *; [congruence|auto]|].
      exists free', a'. by rewrite <- app_assoc in Hpool.
    + destruct (IH free a (U ++ [f])) as (Hl & Hk & free' & a' & Hpool).
      { eapply pool_perm_used; [|apply (pool_claim _ _ _ _ 0 f Hp); done]. rewrite <- !app_assoc. apply Permutation_app_head, Permutation_app_comm. }
      split_and!; [cbn; by rewrite Hl|intros [|j] i Hj; cbn in *; [congruence|auto]|]. exists free', a'. by rewrite <- app_assoc in Hpool.
Qed.


(** The slots of the new programs. *)
Record slots_chosen (m : Muxer) (c : MuxerConfig) (S : list Z) : Prop := {
  sc_length : length S = length (programs c);
  sc_distinct : NoDup S;
  sc_range : Forall (fun i => 0 <= i < 16) S;
  sc_matched : forall j p i, programs c !! j = Some p -> slot_by_number m !! MuxTypes.program_number p = Some i -> S !! j = Some i;
}.

Lemma matched_slots_NoDup m progs : mux_wf m -> NoDup (map MuxTypes.program_number progs) ->
  NoDup (omap id (map (fun p => slot_by_number m !! MuxTypes.program_number p) progs)).
Proof.
  intros Hm Hn. induction progs as [|p progs IH]; [constructor|]. cbn [map] in *. apply NoDup_cons in Hn as [Hp Hn].
  change (omap id (?x :: ?l)) with (match x with Some i => i :: omap id l | None => omap id l end).
  destruct (slot_by_number m !! MuxTypes.program_number p) as [i|] eqn:Hi; cbn [omap list_omap id]; [|by apply IH].
  apply NoDup_cons. split; [|by apply IH]. intros Hin%elem_omap_id. apply list_elem_of_fmap in Hin as (q & Hq & Hin).
  symmetry in Hq. rewrite slot_by_number_spec in Hi, Hq by done. destruct Hi as (s & p1 & Hg & Hl & Hp1), Hq as (s' & p2 & Hg' & Hl' & Hp2).
  rewrite Hg in Hg'. injection Hg' as <-. rewrite Hl in Hl'. injection Hl' as <-. apply Hp. rewrite <- Hp1, Hp2. by apply list_elem_of_fmap_2.
Qed.

Lemma choose_slots_ok m c : mux_wf m -> config_valid c ->
  exists S, (forall E, choose_program_slots (E:=E) m c (slot_by_number m) (plan_removed_slots m c) = Ok S) /\ slots_chosen m c S.
Proof.
  intros Hm Hc. unfold choose_program_slots. set (removed := plan_removed_slots m c).
  set (free := free_slots_from 0 removed (slots m)).
  set (chosen := map (fun p => slot_by_number m !! MuxTypes.program_number p) (programs c)).
  assert (Hfree : forall i, i ∈ free <-> exists s, get (slots m) i = Some s /\ (live s = None \/ i ∈ removed)).
  { intros i. unfold free. rewrite free_slots_spec. split; intros (s & H); exists s; rewrite Z.sub_0_r in *; [naive_solver|].
    destruct H as [Hg H]. pose proof (get_Some _ _ _ Hg). split_and!; [lia|done|done]. }
  assert (Hchosen : forall i, i ∈ omap id chosen <-> exists s p, get (slots m) i = Some s /\ live s = Some p /\
    MuxTypes.program_number p ∈ map MuxTypes.program_number (programs c)).
  { intros i. rewrite elem_omap_id. unfold chosen. rewrite list_elem_of_In, in_map_iff. split.
    - intros (q & Hq & Hin). apply slot_by_number_spec in Hq as (s & p & Hg & Hl & Hn); [|done]. exists s, p.
      split_and!; [done..|]. rewrite Hn. apply list_elem_of_fmap_2. by apply list_elem_of_In.
    - intros (s & p & Hg & Hl & Hn). apply list_elem_of_fmap in Hn as (q & Hq & Hin). exists q.
      rewrite slot_by_number_spec by done. split; [eauto|by apply list_elem_of_In]. }
  assert (Hpool : pool (zlen (slots m)) ([] ++ omap id chosen) free 0).
  { apply pool_start; [apply zlen_nonneg| |].
    - apply NoDup_app. split_and!; [apply matched_slots_NoDup; [done|apply Hc]| |apply free_slots_NoDup].
      intros i Hi Hi'. apply Hchosen in Hi as (s & p & Hg & Hl & Hn). apply Hfree in Hi' as (s' & Hg' & Hor). simplify_eq.
      destruct Hor as [Hnone|Hr]; [congruence|]. apply removed_slots_spec in Hr as (s2 & q & Hg'' & Hl' & Hn'). simplify_eq. done.
    - intros i. cbn [app]. rewrite elem_of_app, Hchosen, Hfree. split.
      + intros [(s & p & Hg & _)|(s & Hg & _)]; by apply get_Some in Hg.
      + intros Hi. destruct (get_lt (slots m) i Hi) as [s Hg]. destruct (live s) as [p|] eqn:Hl; [|right; eauto].
        destruct (decide (MuxTypes.program_number p ∈ map MuxTypes.program_number (programs c))); [left; eauto|].
        right. exists s. split; [done|]. right. apply removed_slots_spec. eauto. }
  destruct (choose_same_ok (slots m) (zlen (slots m)) 0 [] (programs c) chosen free) as (chosen' & free' & Hs & Hl & Hk & Hp');
    [apply length_map|done|intros f (s & Hg & _)%Hfree; eauto|].
  destruct (choose_any_ok (zlen (slots m)) chosen' free' 0 [] Hp') as (HlS & HkS & free'' & a & HpS).
  rewrite Z.add_0_r in *. cbn [app] in HpS.
  exists (choose_any chosen' free' (zlen (slots m))). split; [intros E; rewrite Hs; done|]. split.
  - rewrite HlS, Hl. apply length_map.
  - by eapply pool_distinct.
  - eapply pool_bound; [exact HpS|apply Hm|]. pose proof (cv_programs c Hc) as Hcnt. unfold zlen at 1. rewrite HlS, Hl.
    unfold chosen, zlen in *. rewrite length_map. lia.
  - intros j p i Hj Hi. apply HkS, Hk. unfold chosen. rewrite list_lookup_fmap, Hj. cbn. by rewrite Hi.
Qed.

(** A slot taken by a program that is not running is not the slot of a program
    that goes on running. *)
Lemma unmatched_slot m c S j p i s q : mux_wf m -> slots_chosen m c S -> programs c !! j = Some p -> S !! j = Some i ->
  slot_by_number m !! MuxTypes.program_number p = None -> get (slots m) i = Some s -> live s = Some q ->
  MuxTypes.program_number q ∉ map MuxTypes.program_number (programs c).
Proof.
  intros Hm [_ Hd _ Hmt] Hj HS Hnone Hg Hl Hin. apply list_elem_of_fmap in Hin as (p' & Heq & Hp').
  apply list_elem_of_lookup in Hp' as [j' Hj'].
  assert (HS' : S !! j' = Some i) by (eapply Hmt; [exact Hj'|]; apply slot_by_number_spec; [done|eauto]).
  assert (j = j') as -> by (by eapply NoDup_lookup). rewrite Hj in Hj'. injection Hj' as <-.
  assert (Hx : slot_by_number m !! MuxTypes.program_number p = Some i) by (apply slot_by_number_spec; [done|eauto]). congruence.
Qed.

End ProgramSlots.

(** * Choosing stream slots *)
Module StreamSlots.
Import Common PesWriter MuxTypes MuxState MuxHandles MuxValidate ValidConfig MuxInv SlotView MuxWf Reconfigure Pool LiveTables ProgramSlots.

Lemma kind_len_vec s k : kind_len s k = zlen (kind_vec s k).
Proof. destruct k; cbn [kind_len kind_vec]; unfold zlen, wrap; by rewrite length_map. Qed.

Definition base_len (o : option ProgramSlot) (k : MuxStreamKind) : Z := match o with Some s => kind_len s k | None => 0 end.

(** The indices of kind [k] held by the placed streams of a list; [true] marks an
    unplaced stream. *)
Definition used (k : MuxStreamKind) (l : list (PlannedStream * bool)) : list Z :=
  flat_map (fun x => if bool_decide (planned_kind x.1 = k) && negb x.2 then [within x.1] else []) l.

Definition pools (p : StreamPlacer) (U : MuxStreamKind -> list Z) : Prop :=
  forall k, pool (base_len (placer_slot p) k) (U k) (free p k) (appended p k).

(** Placing changes only the index of an unplaced stream. *)
Definition placed_as (x y : PlannedStream * bool) : Prop :=
  planned_kind y.1 = planned_kind x.1 /\ spec_index y.1 = spec_index x.1 /\ survivor y.1 = survivor x.1 /\
  (x.2 = false -> y = x).

Definition tag (s : PlannedStream) : PlannedStream * bool := (s, negb (survivor s)).

Lemma used_cons k s u l : used k ((s, u) :: l) =
  (if bool_decide (planned_kind s = k) && negb u then [within s] else []) ++ used k l.
Proof. done. Qed.

Lemma used_one k x l : used k [x] ++ used k l = used k (x :: l).
Proof. unfold used. cbn [flat_map]. by rewrite app_nil_r. Qed.

Lemma pools_perm p U U' : (forall k, U k ≡ₚ U' k) -> pools p U -> pools p U'.
Proof. intros He Hp k. eapply pool_perm_used; [apply He|apply Hp]. Qed.

Lemma pools_claim p U kind i w : pools p U -> get (free p kind) i = Some w ->
  pools {| placer_slot := placer_slot p; free := upd (free p) kind (ztake i (free p kind) ++ zdrop (i + 1) (free p kind));
           appended := appended p |} (fun k => U k ++ (if bool_decide (kind = k) then [w] else [])).
Proof.
  intros Hp Hg k. cbn [placer_slot free appended]. unfold upd. destruct (decide (k = kind)) as [->|Hne].
  - rewrite !bool_decide_true by done. apply pool_claim; [apply Hp|done].
  - rewrite !bool_decide_false, app_nil_r by congruence. apply Hp.
Qed.

Lemma claim_any_ok p U kind : pools p U -> exists w p', (forall E, claim_any (E:=E) p kind = Ok (w, p')) /\
  placer_slot p' = placer_slot p /\ pools p' (fun k => U k ++ (if bool_decide (kind = k) then [w] else [])).
Proof.
  intros Hp. unfold claim_any. destruct (free p kind) as [|w rest] eqn:Hf.
  - fold (base_len (placer_slot p) kind). eexists _, _. split; [done|]. split; [done|]. intros k. cbn [placer_slot free appended]. unfold upd.
    destruct (decide (k = kind)) as [->|Hne].
    + rewrite !bool_decide_true by done. replace (base_len (placer_slot p) kind + (appended p kind + 1) - 1)
        with (base_len (placer_slot p) kind + appended p kind) by lia. rewrite Hf. apply pool_append. rewrite <- Hf. apply Hp.
    + rewrite !bool_decide_false, app_nil_r by congruence. apply Hp.
  - eexists w, _. split; [done|]. split; [done|]. pose proof (pools_claim p U kind 0 w Hp) as H. rewrite Hf in H. by apply H.
Qed.

Lemma claim_same_ok p U kind pid : pools p U -> exists o p', (forall E, claim_same_pid (E:=E) p kind pid = Ok (o, p')) /\
  placer_slot p' = placer_slot p /\
  pools p' (fun k => U k ++ (match o with Some w => if bool_decide (kind = k) then [w] else [] | None => [] end)).
Proof.
  intros Hp. unfold claim_same_pid. cbv zeta.
  match goal with |- exists o p', (forall E, match ?x with _ => _ end = _) /\ _ => destruct x as [i|] eqn:Hi end.
  - assert (Hg : exists w, get (free p kind) i = Some w).
    { destruct (placer_slot p) as [s|]; [|done]. cbn in Hi. destruct (placed_pids s !! pid) as [[k w]|]; [|done]. cbn in Hi.
      case_bool_decide; [|done]. apply position_get in Hi as (x & Hx & _). eauto. }
    destruct Hg as [w Hg]. eexists (Some w), _. split; [intros E; by rewrite (vec_remove_ok _ _ _ Hg)|]. split; [done|].
    by apply pools_claim.
  - exists None, p. split_and!; try done. eapply pools_perm; [|exact Hp]. intros k. cbn. by rewrite app_nil_r.
Qed.

Lemma place_same_ok prog : forall ss p U, Forall (fun s => 0 <= spec_index s < zlen (streams prog)) ss ->
  pools p (fun k => U k ++ used k (map tag ss)) ->
  exists out p', (forall E, place_same_pid (E:=E) prog ss p = Ok (out, p')) /\ placer_slot p' = placer_slot p /\
    Forall2 placed_as (map tag ss) out /\ pools p' (fun k => U k ++ used k out).
Proof.
  induction ss as [|s ss IH]; intros p U Hi Hp; [by exists [], p|]. apply Forall_cons in Hi as [Hs Hi]. cbn [place_same_pid map].
  destruct (survivor s) eqn:Hsv.
  - destruct (IH p (fun k => U k ++ used k [tag s]) Hi) as (out & p' & Ho & Hsl & Hf & Hp').
    { eapply pools_perm; [|exact Hp]. intros k. cbn [map]. unfold tag at 1 3. rewrite !used_cons, <- !app_assoc. done. }
    exists (tag s :: out), p'. split_and!; [intros E; rb; rewrite Ho; unfold tag; by rewrite Hsv|done|by constructor|].
    eapply pools_perm; [|exact Hp']. intros k. unfold tag. rewrite !used_cons, <- !app_assoc. done.
  - destruct (get_lt (streams prog) (spec_index s) Hs) as [spec Hg].
    destruct (claim_same_ok p _ (planned_kind s) (spec_pid spec) Hp) as (o & p1 & Hc & Hsl1 & Hp1).
    set (s' := match o with Some w => set_within s w | None => s end). set (u := match o with Some _ => false | None => true end).
    destruct (IH p1 (fun k => U k ++ used k [(s', u)]) Hi) as (out & p' & Ho & Hsl & Hf & Hp').
    { eapply pools_perm; [|exact Hp1]. intros k. cbn [map]. unfold tag at 1. rewrite Hsv, !used_cons. cbn [negb]. rewrite andb_false_r.
      cbn [app]. rewrite <- !app_assoc. apply Permutation_app_head. rewrite Permutation_app_comm.
      unfold s', u. destruct o; cbn [negb planned_kind set_within within]; [rewrite andb_true_r|rewrite andb_false_r]; done. }
    exists ((s', u) :: out), p'. split_and!.
    + intros E. unfold idx. rewrite Hg. rb. rewrite Hc. rb. unfold s', u. destruct o; rb; by rewrite Ho.
    + congruence.
    + constructor; [|done]. unfold tag, placed_as. rewrite Hsv. unfold s'. by destruct o.
    + eapply pools_perm; [|exact Hp']. intros k. rewrite !used_cons, <- !app_assoc. done.
Qed.

Lemma place_rest_ok : forall l p U, pools p (fun k => U k ++ used k l) ->
  exists ss, (forall E, place_rest (E:=E) l p = Ok ss) /\ Forall2 (fun x y => placed_as x (y, false)) l ss /\
    forall k, exists f a, pool (base_len (placer_slot p) k) (U k ++ used k (map (fun s => (s, false)) ss)) f a.
Proof.
  induction l as [|[s u] l IH]; intros p U Hp; [exists []; split; [done|]; split; [constructor|]; intros k; eexists _, _; apply Hp|].
  cbn [place_rest]. destruct u.
  - destruct (claim_any_ok p _ (planned_kind s) Hp) as (w & p1 & Hc & Hsl & Hp1).
    destruct (IH p1 (fun k => U k ++ used k [(set_within s w, false)])) as (ss & Ho & Hf & Hp').
    { eapply pools_perm; [|exact Hp1]. intros k. rewrite !used_cons. cbn [negb]. rewrite andb_false_r. cbn [app].
      rewrite <- !app_assoc. apply Permutation_app_head. rewrite Permutation_app_comm. cbn [planned_kind set_within within].
      by rewrite andb_true_r. }
    rewrite Hsl in Hp'. exists (set_within s w :: ss). split_and!; [intros E; rewrite Hc; rb; by rewrite Ho|by constructor|].
    intros k. destruct (Hp' k) as (f & a & H). exists f, a. by rewrite <- app_assoc, used_one in H.
  - destruct (IH p (fun k => U k ++ used k [(s, false)])) as (ss & Ho & Hf & Hp').
    { eapply pools_perm; [|exact Hp]. intros k. rewrite !used_cons, <- !app_assoc. done. }
    exists (s :: ss). split_and!; [intros E; rb; by rewrite Ho|constructor; [done|done]|].
    intros k. destruct (Hp' k) as (f & a & H). exists f, a. by rewrite <- app_assoc, used_one in H.
Qed.

End StreamSlots.

(** * The plan of one program *)
Module ProgramPlan.
Import Common PesWriter MuxTypes MuxState MuxHandles MuxDescriptors MuxValidate ValidConfig ConfigTheorems MuxInv SlotView MuxWf
  Reconfigure Pool LiveTables ProgramSlots StreamSlots.

Lemma identity_kind old new : same_stream_identity old new = true -> kind_of old = kind_of new.
Proof. unfold same_stream_identity. destruct old, new; done. Qed.

Lemma free_from_spec {A} (f : A -> StreamState) (pid : A -> Z) keep : (forall a, state_pid (f a) = pid a) -> forall v i w,
  w ∈ free_from pid keep i v <-> exists e, i <= w /\ get (wrap f v) (w - i) = Some e /\
    match e with None => True | Some st => state_pid st ∉ keep end.
Proof.
  intros Hf. induction v as [|s v IH]; intros i w; cbn [free_from].
  { split; [by intros ?%elem_of_nil|]. intros (e & _ & Hg & _). unfold get in Hg. destruct (w - i <? 0); done. }
  rewrite elem_of_app, IH. split.
  - intros [Hl|(e & Hij & Hg & He)].
    + assert (w = i) as -> by (destruct (match s with Some _ => _ | None => _ end); [by apply list_elem_of_singleton in Hl|by apply elem_of_nil in Hl]).
      exists (f <$> s). rewrite Z.sub_diag. split; [lia|]. split; [done|]. destruct s as [a|]; [|done]. cbn. rewrite Hf.
      destruct (negb _) eqn:Hb; [|by apply elem_of_nil in Hl]. by apply negb_true_iff, bool_decide_eq_false in Hb.
    + exists e. split; [lia|]. replace (w - i) with (1 + (w - (i + 1))) by lia. unfold wrap. cbn [map]. rewrite get_cons_S by lia. done.
  - intros (e & Hij & Hg & He). destruct (decide (w = i)) as [->|Hne].
    + rewrite Z.sub_diag in Hg. injection Hg as <-. left. destruct s as [a|]; [|by apply list_elem_of_singleton].
      cbn in He. rewrite Hf in He. rewrite bool_decide_false by done. by apply list_elem_of_singleton.
    + right. exists e. split; [lia|]. replace (w - i) with (1 + (w - (i + 1))) in Hg by lia. unfold wrap in *. cbn [map] in Hg. by rewrite get_cons_S in Hg by lia.
Qed.

Lemma free_from_NoDup {A} (pid : A -> Z) keep v : forall i, NoDup (free_from pid keep i v) /\ Forall (fun w => i <= w) (free_from pid keep i v).
Proof.
  induction v as [|s v IH]; intros i; cbn [free_from]; [split; constructor|]. destruct (IH (i + 1)) as [Hn Hf].
  assert (Hf' : Forall (fun w => i <= w) (free_from pid keep (i + 1) v)) by (eapply Forall_impl; [exact Hf|]; cbn; lia).
  destruct (match s with Some _ => _ | None => _ end); cbn [app]; [|done]. split; [|by constructor].
  apply NoDup_cons. split; [|done]. intros Hin. rewrite Forall_forall in Hf. specialize (Hf i Hin). lia.
Qed.

Lemma free_indices_spec s k keep w : w ∈ free_indices s k keep <-> 0 <= w < kind_len s k /\
  (forall st, entry s k w = Some st -> state_pid st ∉ keep).
Proof.
  rewrite kind_len_vec.
  assert (H : w ∈ free_indices s k keep <-> exists e, 0 <= w /\ get (kind_vec s k) (w - 0) = Some e /\
    match e with None => True | Some st => state_pid st ∉ keep end)
    by (destruct k; cbn [free_indices kind_vec]; by apply free_from_spec).
  rewrite H, Z.sub_0_r. unfold entry. split.
  - intros (e & _ & Hg & He). split; [by eapply get_Some|]. rewrite Hg. intros st ->. done.
  - intros [Hw He]. destruct (get_lt _ _ Hw) as [e Hg]. rewrite Hg in He. exists e. split_and!; [lia|done|]. destruct e; auto.
Qed.

Lemma free_indices_NoDup s k keep : NoDup (free_indices s k keep).
Proof. destruct k; apply free_from_NoDup. Qed.

Section program.
Context (m : Muxer) (Hm : mux_wf m) (prog : MuxerProgramConfig) (i : Z).

(** The stream of [spec] keeps running at index [w] of its kind. *)
Definition survives (spec : StreamSpec) (w : Z) : Prop :=
  exists s old old_spec, get (slots m) i = Some s /\ live s = Some old /\
    program_number old = program_number prog /\ old_spec ∈ streams old /\ spec_pid old_spec = spec_pid spec /\
    same_stream_identity old_spec spec = true /\ placed_pids s !! spec_pid spec = Some (kind_of spec, w).

Definition is_matched : bool := bool_decide (slot_by_number m !! program_number prog = Some i).

Definition found_for (spec : StreamSpec) (t : StreamSpec * option Z * Z) : Prop :=
  t.1.1 = spec /\ match t.1.2 with
                  | Some w => is_matched = true /\ survives spec w
                  | None => live_pids m !! spec_pid spec = None
                  end.

Lemma match_streams_ok specs : forall n, match match_streams m (live_pids m) i is_matched prog n specs with
  | Ok found => Forall2 found_for specs found /\ map snd found = seqZ n (zlen specs)
  | Err _ => True
  | Panic => False
  end.
Proof.
  induction specs as [|spec specs IH]; intros n; [done|]. cbn [match_streams].
  assert (Htail : forall o, match o with Some w => is_matched = true /\ survives spec w | None => live_pids m !! spec_pid spec = None end ->
    match (let! rest := match_streams m (live_pids m) i is_matched prog (n + 1) specs in Ok ((spec, o, n) :: rest)) with
    | Ok found => Forall2 found_for (spec :: specs) found /\ map snd found = seqZ n (zlen (spec :: specs))
    | Err _ => True
    | Panic => False
    end).
  { intros o Ho. specialize (IH (n + 1)). destruct (match_streams _ _ _ _ _ _ _) as [found| |]; [|done..]. rb. destruct IH as [Hf Hn].
    split; [by constructor|]. cbn [map snd]. rewrite Hn, zlen_cons. pose proof (zlen_nonneg specs). rewrite (seqZ_cons n) by lia.
    f_equal. unfold Z.succ. f_equal. lia. }
  destruct (live_pids m !! spec_pid spec) as [[[old_slot old] old_spec]|] eqn:Hlp; [|by apply Htail].
  destruct (negb (old_slot =? i) || negb is_matched) eqn:Hmv; [done|]. apply orb_false_iff in Hmv as [Hsl Hmt].
  apply negb_false_iff in Hsl, Hmt. apply Z.eqb_eq in Hsl. subst old_slot. rewrite Hmt in *.
  destruct (same_stream_identity old_spec spec) eqn:Hid; [|done]. cbn [negb].
  apply live_pids_spec in Hlp as (s & Hg & Hl & Hin & Hpid); [|done].
  destruct (wf_placed s (slot_wf_at m Hm i s Hg) old old_spec Hl Hin) as (w & Hw & _). rewrite Hpid in Hw.
  unfold idx. rewrite Hg. rb. rewrite Hw. apply Htail. split; [done|]. exists s, old, old_spec.
  assert (Hn : program_number old = program_number prog).
  { apply bool_decide_eq_true, slot_by_number_spec in Hmt as (s' & old' & Hg' & Hl' & Hn); [|done]. by simplify_eq. }
  rewrite <- (identity_kind _ _ Hid). done.
Qed.

Lemma survives_entry spec w : survives spec w -> exists s st, get (slots m) i = Some s /\
  entry s (kind_of spec) w = Some st /\ state_pid st = spec_pid spec.
Proof.
  intros (s & old & old_spec & Hg & Hl & _ & Hin & Hpid & Hid & Hw). exists s, (state_of old_spec). split; [done|].
  destruct (wf_placed s (slot_wf_at m Hm i s Hg) old old_spec Hl Hin) as (w' & Hw' & He). rewrite Hpid, Hw in Hw'.
  injection Hw' as Hk ->. rewrite Hk, state_of_pid. done.
Qed.

Lemma entry_range s k w st : entry s k w = Some st -> 0 <= w < kind_len s k.
Proof. unfold entry. rewrite kind_len_vec. destruct (get (kind_vec s k) w) eqn:Hg; [|done]. intros _. by eapply get_Some. Qed.

(** Matching gives the indices of the surviving streams ... *)
Lemma used_found k found w : w ∈ used k (map tag (map planned_stream found)) <->
  exists spec n, (spec, Some w, n) ∈ found /\ kind_of spec = k.
Proof.
  unfold used. rewrite list_elem_of_In, in_flat_map. split.
  - intros (x & Hx & Hw). rewrite map_map in Hx. apply in_map_iff in Hx as ([[spec o] n] & <- & Hin).
    unfold tag, planned_stream in Hw. cbn in Hw. destruct o as [w'|]; cbn in Hw; [|by rewrite andb_false_r in Hw].
    case_bool_decide; [|done]. destruct Hw as [->|[]]. exists spec, n. by rewrite list_elem_of_In.
  - intros (spec & n & Hin & Hk). exists (tag (planned_stream (spec, Some w, n))). split.
    + apply in_map, in_map. by apply list_elem_of_In.
    + cbn. rewrite bool_decide_true by done. by left.
Qed.

Lemma used_found_NoDup k specs found : NoDup (map spec_pid specs) -> Forall2 found_for specs found ->
  NoDup (used k (map tag (map planned_stream found))).
Proof.
  intros Hn Hf. induction Hf as [|spec [[spec' o] n] specs found [Heq Ho] Hf IH]; [constructor|]. cbn in Heq. subst spec'.
  cbn [map] in *. apply NoDup_cons in Hn as [Hp Hn]. unfold tag at 1. rewrite used_cons. cbn [planned_stream planned_kind survivor within].
  destruct o as [w|]; cbn [is_some negb]; [|rewrite andb_false_r; by apply IH]. case_bool_decide as Hk; [|by apply IH].
  cbn [andb app]. apply NoDup_cons. split; [|by apply IH]. intros (spec2 & n2 & Hin & Hk2)%used_found.
  apply list_elem_of_lookup in Hin as [j Hj]. destruct (Forall2_lookup_r _ _ _ _ _ Hf Hj) as (spec3 & Hs3 & Heq & Ho3). cbn in Heq. subst spec3.
  destruct Ho as [_ Hs], Ho3 as [_ Hs']. apply survives_entry in Hs as (s & st & Hg & He & Hst), Hs' as (s' & st' & Hg' & He' & Hst').
  rewrite Hg in Hg'. injection Hg' as <-. rewrite Hk, <- Hk2, He' in He. injection He as <-.
  apply Hp. rewrite <- Hst, Hst'. apply list_elem_of_fmap_2. by eapply list_elem_of_lookup_2.
Qed.

(** ... and with the free ones they are all the indices there are. *)
Lemma stream_pool k found : NoDup (map spec_pid (streams prog)) -> Forall2 found_for (streams prog) found ->
  pool (base_len (get (slots m) i) k) (used k (map tag (map planned_stream found)))
    (match get (slots m) i with
     | Some s => free_indices s k (if is_matched then map spec_pid (streams prog) else [])
     | None => []
     end) 0.
Proof.
  intros Hn Hf. assert (Hused : forall w, w ∈ used k (map tag (map planned_stream found)) -> is_matched = true /\
    exists s st, get (slots m) i = Some s /\ entry s k w = Some st /\ state_pid st ∈ map spec_pid (streams prog)).
  { intros w (spec & n & Hin & Hk)%used_found. apply list_elem_of_lookup in Hin as [j Hj].
    destruct (Forall2_lookup_r _ _ _ _ _ Hf Hj) as (spec' & Hs & Heq & Hmt & Hsv). cbn in Heq. subst spec'.
    split; [done|]. destruct (survives_entry _ _ Hsv) as (s & st & Hg & He & Hst). exists s, st. rewrite <- Hk. split_and!; [done..|].
    rewrite Hst. apply list_elem_of_fmap_2. by eapply list_elem_of_lookup_2. }
  pose proof (used_found_NoDup k _ _ Hn Hf) as HnU. destruct (get (slots m) i) as [s|] eqn:Hg; cbn [base_len].
  - apply pool_start; [rewrite kind_len_vec; apply zlen_nonneg| |].
    + apply NoDup_app. split_and!; [done| |apply free_indices_NoDup]. intros w (Hmt & s' & st & [= <-] & He & Hst)%Hused.
      rewrite Hmt. intros [_ Hw]%free_indices_spec. by apply (Hw st).
    + intros w. rewrite elem_of_app, free_indices_spec. split.
      * intros [(_ & s' & st & [= <-] & He & _)%Hused|[Hw _]]; [by eapply entry_range|done].
      * intros Hw. destruct (entry s k w) as [st|] eqn:He; [|by right].
        destruct (is_matched) eqn:Hmt; [|right; split; [done|]; intros ? _; apply not_elem_of_nil].
        destruct (decide (state_pid st ∈ map spec_pid (streams prog))) as [Hin|Hout]; [|right; split; [done|]; intros st' [= <-]; done].
        left. apply used_found. apply list_elem_of_fmap in Hin as (spec & Hpid & Hspec).
        destruct (wf_entry s (slot_wf_at m Hm i s Hg) k w st He) as (old & old_spec & Hl & Hino & <- & Hpl). rewrite state_of_pid in Hpid.
        apply list_elem_of_lookup in Hspec as [j Hj]. destruct (Forall2_lookup_l _ _ _ _ _ Hf Hj) as ([[spec' o] n] & Hfj & Heq & Ho).
        cbn in Heq, Ho. subst spec'. destruct o as [w'|].
        -- destruct Ho as (_ & s' & old' & old_spec' & Hg' & _ & _ & _ & _ & _ & Hpl'). simplify_eq. rewrite <- Hpid, Hpl in Hpl'. injection Hpl' as -> ->.
           exists spec, n. split; [by eapply list_elem_of_lookup_2|done].
        -- assert (Hx : live_pids m !! spec_pid spec = Some (i, old, old_spec)) by (apply live_pids_spec; [done|]; eauto 6). congruence.
  - apply pool_start; [lia| |].
    + rewrite app_nil_r. done.
    + intros w. rewrite app_nil_r. split; [intros (_ & s & _ & [=] & _)%Hused|lia].
Qed.

(** What a planned program promises. *)
Record program_planned (j : Z) (pl : PlannedProgram) : Prop := {
  pp_slot : slot pl = i;
  pp_config : config_index pl = j;
  pp_pcr : forall E, resolve_pcr_pid (E:=E) prog = Ok (planned_pcr_pid pl);
  pp_streams : Forall2 (fun spec x => planned_kind x = kind_of spec /\
    (if survivor x then is_matched = true /\ survives spec (within x) else live_pids m !! spec_pid spec = None))
    (streams prog) (planned_streams pl);
  pp_index : map spec_index (planned_streams pl) = seqZ 0 (zlen (streams prog));
  pp_distinct : forall k, NoDup (used k (map (fun x => (x, false)) (planned_streams pl)));
  pp_range : forall k, Forall (fun w => 0 <= w < 16) (used k (map (fun x => (x, false)) (planned_streams pl)));
  pp_removed : forall pid, pid ∈ removed_pids pl <-> is_matched = true /\ (pid ∉ map spec_pid (streams prog)) /\
    exists s old, get (slots m) i = Some s /\ live s = Some old /\ pid ∈ map spec_pid (streams old);
  pp_pmt : forall s old, is_matched = true -> get (slots m) i = Some s -> live s = Some old -> pmt_pid old = pmt_pid prog;
  pp_removed_NoDup : NoDup (removed_pids pl);
}.

Lemma used_length k specs l : Forall2 (fun spec x => planned_kind x = kind_of spec) specs l ->
  zlen (used k (map (fun x => (x, false)) l)) = count_kind k specs.
Proof.
  unfold count_kind. induction 1 as [|spec x specs l Hk _ IH]; [done|]. cbn [map]. rewrite used_cons, zlen_app, IH, Hk.
  cbn [negb]. rewrite andb_true_r. cbn [foldr]. by case_bool_decide.
Qed.

Lemma filter_NoDup {A} (f : A -> bool) l : NoDup l -> NoDup (List.filter f l).
Proof.
  induction 1 as [|x l Hx Hn IH]; [constructor|]. cbn. destruct (f x); [|done]. apply NoDup_cons. split; [|done].
  intros Hin. apply Hx. apply list_elem_of_In, filter_In in Hin as [Hin _]. by apply list_elem_of_In.
Qed.

Lemma planned_of_found specs found tagged ss n : Forall2 found_for specs found -> map snd found = seqZ n (zlen specs) ->
  Forall2 placed_as (map tag (map planned_stream found)) tagged -> Forall2 (fun x y => placed_as x (y, false)) tagged ss ->
  Forall2 (fun spec x => planned_kind x = kind_of spec /\
    (if survivor x then is_matched = true /\ survives spec (within x) else live_pids m !! spec_pid spec = None)) specs ss /\
  map spec_index ss = seqZ n (zlen specs).
Proof.
  intros Hf <- H1 H2. revert tagged ss H1 H2. induction Hf as [|spec [[spec' o] k] specs found [Heq Ho] Hf IH]; intros tagged ss H1 H2.
  { inversion H1; subst. inversion H2; subst. done. }
  cbn [map] in H1. inversion H1 as [|? y ? tagged' Hp1 H1']; subst. inversion H2 as [|? z ? ss' Hp2 H2']; subst.
  destruct (IH _ _ H1' H2') as [IH1 IH2]. cbn in Ho. destruct Hp1 as (Hk1 & Hi1 & Hs1 & He1), Hp2 as (Hk2 & Hi2 & Hs2 & He2).
  cbn [fst snd planned_stream planned_kind spec_index survivor within tag] in *. split; [|cbn [map]; by rewrite IH2, Hi2, Hi1].
  constructor; [|done]. split; [congruence|]. rewrite Hs2, Hs1. destruct o as [w|]; [|done]. cbn [is_some negb] in *.
  specialize (He1 eq_refl). subst y. specialize (He2 eq_refl). injection He2 as ->. done.
Qed.

Lemma plan_program_ok j : program_valid prog ->
  match plan_program m (slot_by_number m) (live_pids m) j prog i with
  | Ok pl => program_planned j pl
  | Err _ => True
  | Panic => False
  end.
Proof.
  intros Hv. unfold plan_program. fold is_matched. cbv zeta.
  pose proof (match_streams_ok (streams prog) 0) as Hfound. destruct (match_streams _ _ _ _ _ _ _) as [found| |]; [|done..]. rb.
  destruct Hfound as [Hf Hi]. pose proof (pv_distinct prog Hv) as [_ Hn]%NoDup_cons.
  match goal with |- context [place_same_pid prog _ ?p] => set (placer := p) end.
  assert (Hp : pools placer (fun k => [] ++ used k (map tag (map planned_stream found)))).
  { intros k. pose proof (stream_pool k found Hn Hf) as H. unfold placer. cbn. by destruct (get (slots m) i). }
  destruct (place_same_ok prog (map planned_stream found) placer (fun _ => []) ) as (tagged & p' & Hs1 & Hsl & Hf1 & Hp1); [|done|].
  { apply Forall_forall. intros x (t & -> & Ht)%list_elem_of_fmap. assert (Hin : t.2 ∈ map snd found) by (by apply list_elem_of_fmap_2).
    rewrite Hi, elem_of_seqZ in Hin. destruct t as [[sp o] n]. cbn in *. lia. }
  destruct (place_rest_ok tagged p' (fun _ => []) Hp1) as (ss & Hs2 & Hf2 & Hp2). rewrite Hs1. rb. rewrite Hs2. rb.
  destruct (planned_of_found _ _ _ _ 0 Hf Hi Hf1 Hf2) as [Hst Hix]. destruct (resolve_ok prog Hv) as (pcr & Hr & _). rewrite Hr. rb.
  assert (Hu : forall k, NoDup (used k (map (fun x => (x, false)) ss)) /\ Forall (fun w => 0 <= w < 16) (used k (map (fun x => (x, false)) ss))).
  { intros k. destruct (Hp2 k) as (f & a & H). rewrite Hsl in H. split; [by eapply pool_distinct|]. eapply pool_bound; [exact H| |].
    - cbn. unfold base_len. destruct (get (slots m) i) as [s|] eqn:Hg; [|lia]. rewrite kind_len_vec. by apply (slot_wf_at m Hm i).
    - rewrite (used_length k (streams prog)); [apply Hv|]. eapply Forall2_impl; [exact Hst|]. naive_solver. }
  destruct is_matched eqn:Hmt.
  - pose proof Hmt as Hmt'. apply bool_decide_eq_true, slot_by_number_spec in Hmt' as (s & old & Hg & Hl & Hnum); [|done].
    unfold idx. rewrite Hg. rb. rewrite Hl. ifs; [done|]. destruct (_ && _); [done|]. apply negb_false_iff, Z.eqb_eq in Hif. rb.
    split; try done; try (intros k; apply Hu).
    + by rewrite Hmt.
    + intros pid. cbn [removed_pids]. rewrite list_elem_of_In, filter_In, negb_true_iff, bool_decide_eq_false, <- list_elem_of_In. split.
      * intros [Hin Hout]. split_and!; [done..|]. exists s, old. done.
      * intros (_ & Hout & s' & old' & Hg' & Hl' & Hin). by simplify_eq.
    + intros s' old' _ Hg' Hl'. by simplify_eq.
    + cbn. apply filter_NoDup. pose proof (pv_distinct old (proj1 (wf_program s (slot_wf_at m Hm i s Hg) old Hl))) as [_ H]%NoDup_cons. done.
  - rb. split; try done; try (intros k; apply Hu).
    + by rewrite Hmt.
    + intros pid. cbn. split; [by intros ?%elem_of_nil|]. intros [Hx _]. congruence.
    + intros ? ? Hx. congruence.
    + constructor.
Qed.

End program.

End ProgramPlan.

(** * The whole plan *)
Module WholePlan.
Import Common PesWriter MuxTypes MuxState MuxHandles MuxDescriptors MuxValidate ValidConfig ConfigTheorems MuxInv SlotView MuxWf
  Reconfigure Pool LiveTables ProgramSlots StreamSlots ProgramPlan.

Definition programs_planned (m : Muxer) (progs : list MuxerProgramConfig) (S : list Z) (j : Z) (ps : list PlannedProgram) : Prop :=
  length ps = length progs /\ forall n pl, ps !! n = Some pl -> exists prog i, progs !! n = Some prog /\ S !! n = Some i /\
    program_planned m prog i (j + Z.of_nat n) pl.

Lemma plan_programs_ok m : mux_wf m -> forall progs S j, Forall program_valid progs -> length S = length progs ->
  match plan_programs m (slot_by_number m) (live_pids m) j progs S with
  | Ok ps => programs_planned m progs S j ps
  | Err _ => True
  | Panic => False
  end.
Proof.
  intros Hm. induction progs as [|prog progs IH]; intros [|i S] j Hv Hl; try done.
  apply Forall_cons in Hv as [Hp Hv]. cbn [plan_programs]. pose proof (plan_program_ok m Hm prog i j Hp) as H1.
  destruct (plan_program _ _ _ _ _ _) as [pl| |]; [|done..]. rb. specialize (IH S (j + 1) Hv ltac:(by injection Hl)).
  destruct (plan_programs _ _ _ _ _ _) as [ps| |]; [|done..]. rb. destruct IH as [IHl IH]. split; [cbn; by rewrite IHl|].
  intros [|n] pl' Hn; cbn in Hn.
  - injection Hn as <-. exists prog, i. rewrite Z.add_0_r. done.
  - destruct (IH n pl' Hn) as (prog' & i' & Hp' & HS' & Hpp). exists prog', i'. split_and!; [done..|].
    by replace (j + Z.of_nat (Datatypes.S n)) with (j + 1 + Z.of_nat n) by lia.
Qed.

(** What an accepted plan promises. *)
Record planned (m : Muxer) (c : MuxerConfig) (plan : ReconfigurePlan) : Prop := {
  pl_config : config_valid c;
  pl_global : pcr_interval_ms c = pcr_interval_ms (config m) /\ psi_interval_ms c = psi_interval_ms (config m) /\
    buffer_packets c = buffer_packets (config m) /\ av1_carriage c = av1_carriage (config m);
  pl_programs : exists S, slots_chosen m c S /\ programs_planned m (programs c) S 0 (planned_programs plan);
  pl_removed : removed_slots plan = plan_removed_slots m c;
}.

Lemma refuse_global_ok old new : match refuse_global_field_change old new with
  | Ok _ => pcr_interval_ms new = pcr_interval_ms old /\ psi_interval_ms new = psi_interval_ms old /\
    buffer_packets new = buffer_packets old /\ av1_carriage new = av1_carriage old
  | Err _ => True
  | Panic => False
  end.
Proof.
  unfold refuse_global_field_change.
  destruct (Z.eqb_spec (pcr_interval_ms old) (pcr_interval_ms new)); [|done].
  destruct (Z.eqb_spec (psi_interval_ms old) (psi_interval_ms new)); [|done].
  destruct (Z.eqb_spec (buffer_packets old) (buffer_packets new)); [|done].
  case_bool_decide; done.
Qed.

Lemma plan_ok m c : mux_wf m -> match plan_reconfigure m c with
  | Ok plan => planned m c plan
  | Err _ => True
  | Panic => False
  end.
Proof.
  intros Hm. unfold plan_reconfigure. pose proof (validate_ok c) as Hv. pose proof (validate_total c) as Ht.
  destruct (validate c) as [[]| |]; [|done|by destruct Ht]. rb.
  pose proof (refuse_global_ok (config m) c) as Hg. destruct (refuse_global_field_change _ _) as [[]| |]; [|done..]. rb.
  assert (Hc : config_valid c) by (by apply Hv). destruct (choose_slots_ok m c Hm Hc) as (S & HS & Hsc). rewrite HS. rb.
  pose proof (plan_programs_ok m Hm (programs c) S 0 (cv_each c Hc) (sc_length _ _ _ Hsc)) as Hp.
  destruct (plan_programs _ _ _ _ _ _) as [ps| |]; [|done..]. rb. split; try done. by exists S.
Qed.

End WholePlan.
