(* ===== verification/ReconfigureApply.v ===== *)
(** The application of an accepted plan: streams and programs that go are
    tombstoned, the new ones are placed at their planned indices, and the result
    is a well-formed muxer again. *)
From Stdlib Require Import ZArith Lia Bool String Permutation.
From stdpp Require Import base list list_numbers gmap.
From S2P Require Import Prelude Common TsPacket PesWriter PsiParse PsiWriter Descriptors Muxer MuxerConfig ConfigTheorems MuxerBuild MuxerTheorems MuxerWf Reconfigure ReconfigurePlan.

(** * Edits of one slot *)
Module SlotEdits.
Import Common PesWriter TsCounters MuxTypes MuxState MuxHandles MuxSlots MuxValidate MuxInv SlotView MuxWf Reconfigure StreamSlots ProgramPlan.

(** [s'] is [s] with other stream vectors and PID placements. *)
Definition revec (s s' : ProgramSlot) : Prop :=
  exists v k a b d p, s' = with_placed (with_streams s v k a b d) p.

Lemma revec_refl s : revec s s.
Proof. exists (video s), (klv s), (audio s), (subtitle s), (data s), (placed_pids s). by destruct s. Qed.

Lemma revec_trans s1 s2 s3 : revec s1 s2 -> revec s2 s3 -> revec s1 s3.
Proof. intros (v & k & a & b & d & p & ->) (v' & k' & a' & b' & d' & p' & ->). by exists v', k', a', b', d', p'. Qed.

Definition lens_ok (s : ProgramSlot) : Prop := forall k, zlen (kind_vec s k) <= 16.

Definition slot_at {A} (v : list (option A)) (w : Z) : option A := match get v w with Some e => e | None => None end.

Lemma get_replace {A} (l : list A) i x j : 0 <= i < zlen l ->
  get (<[Z.to_nat i := x]> l) j = if bool_decide (j = i) then Some x else get l j.
Proof.
  intros Hi. destruct (Z.ltb_spec j 0) as [Hneg|Hpos].
  { rewrite bool_decide_false by lia. unfold get. by rewrite (proj2 (Z.ltb_lt _ _)) by lia. }
  rewrite get_insert by lia. case_bool_decide; destruct (Z.eqb_spec i j); congruence.
Qed.

Lemma slot_at_insert {A} (v : list (option A)) w e w' : 0 <= w < zlen v ->
  slot_at (<[Z.to_nat w := e]> v) w' = if bool_decide (w' = w) then e else slot_at v w'.
Proof. intros Hw. unfold slot_at. rewrite get_replace by done. by case_bool_decide. Qed.

Lemma slot_at_grow {A} (v : list (option A)) n w : slot_at (v ++ zrep n None) w = slot_at v w.
Proof.
  unfold slot_at. destruct (Z.ltb_spec w 0) as [Hneg|Hpos].
  { unfold get. by rewrite (proj2 (Z.ltb_lt _ _)) by lia. }
  rewrite !get_lookup by done. rewrite lookup_app. destruct (v !! Z.to_nat w) eqn:Hv; [done|].
  destruct (zrep n None !! _) as [e|] eqn:He; [|done]. unfold zrep in He. by apply lookup_replicate in He as [-> _].
Qed.

(** Placing a stream fills one entry. *)
Lemma place_at {A} (v : list (option A)) w x : 0 <= w < 16 -> zlen v <= 16 ->
  exists v', (forall E, place (E:=E) v w x = Ok v') /\ zlen v' <= 16 /\
    forall w', slot_at v' w' = if bool_decide (w' = w) then Some x else slot_at v w'.
Proof.
  intros Hw Hv. unfold place. set (v1 := if zlen v <=? w then v ++ zrep (w + 1 - zlen v) None else v).
  assert (H1 : w < zlen v1 <= 16 /\ forall w', slot_at v1 w' = slot_at v w').
  { unfold v1. destruct (Z.leb_spec (zlen v) w); [|split; [lia|done]]. split; [|intros; apply slot_at_grow].
    rewrite zlen_app, zlen_zrep by lia. lia. }
  destruct H1 as [Hl Hs]. exists (<[Z.to_nat w := Some x]> v1). split; [intros E; apply put_single; lia|].
  split; [unfold zlen in *; rewrite length_insert; lia|]. intros w'. rewrite slot_at_insert by lia. by rewrite Hs.
Qed.

Lemma slot_at_wrap {A} (f : A -> StreamState) v w : slot_at (wrap f v) w = f <$> slot_at v w.
Proof. unfold slot_at. rewrite get_wrap. by destruct (get v w). Qed.

Lemma zlen_wrap {A} (f : A -> StreamState) v : zlen (wrap f v) = zlen v.
Proof. unfold zlen, wrap. by rewrite length_map. Qed.

(** The iterators over the states of a list of specs. *)
Definition iters_of (l : list StreamSpec) : iters :=
  (omap video_state l, omap klv_state l, omap audio_state l, omap subtitle_state l, omap data_state l).

Ltac fill x w Hw Hlen :=
  let v' := fresh "v'" in let Hp := fresh "Hp" in let Hl := fresh "Hl" in let He := fresh "He" in
  destruct (place_at _ w x Hw Hlen) as (v' & Hp & Hl & He); eexists; split;
    [intros E; unfold iters_of, place_stream; cbn -[place]; rewrite Hp; reflexivity|];
  split; [eexists _, _, _, _, _, _; reflexivity|]; split; [done|].

Lemma place_stream_ok s spec specs w : lens_ok s -> 0 <= w < 16 ->
  exists s', (forall E, place_stream (E:=E) s (iters_of (spec :: specs)) (kind_of spec) w = Ok (s', iters_of specs)) /\
    revec s s' /\ placed_pids s' = placed_pids s /\ lens_ok s' /\
    forall k w', entry s' k w' = if bool_decide ((k, w') = (kind_of spec, w)) then Some (state_of spec) else entry s k w'.
Proof.
  intros Hs Hw. pose proof (Hs (kind_of spec)) as Hlen.
  destruct spec as [pid codec|pid t c|pid codec l|pid codec|pid t c]; cbn [kind_of kind_vec] in *; rewrite zlen_wrap in Hlen;
    [fill {| MuxState.video_pid := pid; video_codec := codec |} w Hw Hlen
    |fill {| klv_pid := pid; klv_stream_type := t; klv_carries_pts := c |} w Hw Hlen
    |fill {| MuxState.audio_pid := pid; audio_codec := codec |} w Hw Hlen
    |fill {| subtitle_pid := pid; subtitle_codec := codec |} w Hw Hlen
    |fill {| data_pid := pid; data_stream_type := t; data_carries_pts := c |} w Hw Hlen].
  all: split;
    [intros k; specialize (Hs k); destruct k; cbn [kind_vec with_streams video klv audio subtitle data] in *; rewrite ?zlen_wrap in *; done|].
  all: intros k w'; change (entry ?s k w') with (slot_at (kind_vec s k) w').
  all: destruct k; cbn [kind_vec with_streams video klv audio subtitle data];
    try (rewrite bool_decide_false by congruence; done); rewrite !slot_at_wrap, He;
    repeat case_bool_decide; try congruence; done.
Qed.

End SlotEdits.

(** * Placing the streams of a program *)
Module PlaceStreams.
Import Common PesWriter TsCounters MuxTypes MuxState MuxHandles MuxSlots MuxValidate MuxInv SlotView MuxWf Reconfigure StreamSlots ProgramPlan SlotEdits.

(** [reset_ok] at every error type. *)
Lemma reset_all c pid : counters_ok c -> 0 <= pid <= 0x1FFF ->
  exists c', (forall E, TsWriter.reset (E:=E) c pid = Ok c') /\ counters_ok c' /\ cc_of c' pid = 0 /\
    forall q, 0 <= q < 8192 -> q <> pid -> cc_of c' q = cc_of c q.
Proof.
  intros Hc Hp. destruct (reset_ok (E:=Empty_set) c pid Hc Hp) as (c1 & Hr & H). exists c1. split; [|done].
  intros E. revert Hr. unfold TsWriter.reset, put. ifs; [|done]. by intros [= <-].
Qed.

Definition position_of (x : PlannedStream) : MuxStreamKind * Z := (planned_kind x, within x).

Definition fits (prog : MuxerProgramConfig) (spec : StreamSpec) (x : PlannedStream) : Prop :=
  planned_kind x = kind_of spec /\ get (streams prog) (spec_index x) = Some spec /\ 0 <= within x < 16 /\ 0 <= spec_pid spec <= 0x1FFF.

(** The slot and the counters after the planned streams [xs] of [specs] are placed. *)
Record placed_in (specs : list StreamSpec) (xs : list PlannedStream) (s s' : ProgramSlot)
    (c c' : TsWriter.ContinuityCounters) : Prop := {
  pi_revec : revec s s';
  pi_lens : lens_ok s';
  pi_counters : counters_ok c';
  pi_entry : forall n spec x, specs !! n = Some spec -> xs !! n = Some x ->
    entry s' (planned_kind x) (within x) = Some (state_of spec) /\
    placed_pids s' !! spec_pid spec = Some (planned_kind x, within x) /\
    cc_of c' (spec_pid spec) = if survivor x then cc_of c (spec_pid spec) else 0;
  pi_other : forall k w, (k, w) ∉ map position_of xs -> entry s' k w = entry s k w;
  pi_other_pid : forall pid, pid ∉ map spec_pid specs -> placed_pids s' !! pid = placed_pids s !! pid;
  pi_other_cc : forall pid, 0 <= pid < 8192 -> pid ∉ map spec_pid specs -> cc_of c' pid = cc_of c pid;
}.

Lemma place_streams_ok prog : forall specs xs s c, Forall2 (fits prog) specs xs -> NoDup (map spec_pid specs) ->
  NoDup (map position_of xs) -> lens_ok s -> counters_ok c ->
  exists s' c', (forall E, place_streams (E:=E) prog xs s (iters_of specs) c = Ok (s', c')) /\ placed_in specs xs s s' c c'.
Proof.
  induction specs as [|spec specs IH]; intros xs s c Hf Hnp Hnx Hs Hc; inversion Hf as [|? x ? xs' Hx Hf']; subst.
  { exists s, c. split; [done|]. split; try done. apply revec_refl. }
  cbn [map] in Hnp, Hnx. apply NoDup_cons in Hnp as [Hp Hnp], Hnx as [Hpos Hnx]. destruct Hx as (Hk & Hg & Hw & Hpid).
  destruct (place_stream_ok s spec specs (within x) Hs Hw) as (s1 & Hp1 & Hr1 & Hpl1 & Hl1 & He1).
  set (s2 := with_placed s1 (<[spec_pid spec := (planned_kind x, within x)]> (placed_pids s1))).
  assert (Hc1 : exists c1, (forall E, (if survivor x then Ok c else TsWriter.reset (E:=E) c (spec_pid spec)) = Ok c1) /\ counters_ok c1 /\
    cc_of c1 (spec_pid spec) = (if survivor x then cc_of c (spec_pid spec) else 0) /\
    forall q, 0 <= q < 8192 -> q <> spec_pid spec -> cc_of c1 q = cc_of c q).
  { destruct (survivor x); [by exists c|]. by apply reset_all. }
  destruct Hc1 as (c1 & Hc1 & Hok1 & Hcc1 & Hoc1).
  assert (Hent : forall k w, entry s2 k w = entry s1 k w) by (by intros []).
  destruct (IH xs' s2 c1 Hf' Hnp Hnx) as (s' & c' & Hps & Hi); [intros k; specialize (Hl1 k); by destruct k|done|].
  exists s', c'. split. { intros E. cbn [place_streams]. rewrite Hk, Hp1. rb. unfold idx. rewrite Hg. rb. fold s2. rewrite Hc1. rb. rewrite <- Hk. apply Hps. }
  destruct Hi as [Ir Il Ic Ie Io Iop Ioc]. split; try done.
  - apply (revec_trans s s1); [done|]. eapply revec_trans; [|exact Ir]. exists (video s1), (klv s1), (audio s1), (subtitle s1), (data s1), (placed_pids s2). by destruct s1.
  - intros [|n] spec' x' Hn Hn'; cbn in Hn, Hn'; [|].
    + simplify_eq. split_and!.
      * rewrite Io by done. rewrite Hent, He1, Hk, bool_decide_true by done. done.
      * rewrite Iop by done. cbn. rewrite lookup_insert. by rewrite decide_True.
      * rewrite Ioc by (done || lia). done.
    + destruct (Ie n spec' x' Hn Hn') as (H1 & H2 & H3). split_and!; try done. rewrite H3. destruct (survivor x'); [|done].
      assert (Hin : spec_pid spec' ∈ map spec_pid specs) by (apply list_elem_of_fmap_2; by eapply list_elem_of_lookup_2).
      apply Hoc1; [|intros Heq; by rewrite Heq in Hin]. destruct (Forall2_lookup_l _ _ _ _ _ Hf' Hn) as (? & _ & _ & _ & _ & ?). lia.
  - intros k w [Hne Hno]%not_elem_of_cons. rewrite Io, Hent, He1 by done. rewrite bool_decide_false; [done|].
    intros Heq. apply Hne. unfold position_of. by rewrite Heq, Hk.
  - intros pid [Hne Hno]%not_elem_of_cons. rewrite Iop by done. cbn. rewrite lookup_insert_ne by done. by rewrite Hpl1.
  - intros pid Hr [Hne Hno]%not_elem_of_cons. rewrite Ioc by done. by apply Hoc1.
Qed.

(** ** Clearing streams *)

Lemma clear_all_at {A} (v : list (option A)) w : slot_at (clear_all v) w = None.
Proof. unfold slot_at, clear_all. rewrite Announced.get_map. by destruct (get v w). Qed.

Lemma clear_streams_entry s k w : entry (clear_streams s) k w = None.
Proof.
  change (entry ?s k w) with (slot_at (kind_vec s k) w). destruct k; cbn [kind_vec clear_streams with_streams video klv audio subtitle data];
    by rewrite slot_at_wrap, clear_all_at.
Qed.

Lemma clear_streams_lens s : lens_ok s -> lens_ok (clear_streams s).
Proof.
  intros Hs k. specialize (Hs k). destruct k; cbn [kind_vec clear_streams with_streams video klv audio subtitle data] in *;
    rewrite zlen_wrap in *; unfold zlen, clear_all in *; by rewrite length_map.
Qed.

Lemma clear_at {A} (f : A -> StreamState) (v : list (option A)) w : 0 <= w < zlen v ->
  exists v', (forall E, put (E:=E) v w [None] = Ok v') /\ zlen v' = zlen v /\
    forall w', slot_at (wrap f v') w' = if bool_decide (w' = w) then None else slot_at (wrap f v) w'.
Proof.
  intros Hw. exists (<[Z.to_nat w := None]> v). split; [intros E; by apply put_single|].
  split; [unfold zlen; by rewrite length_insert|]. intros w'. rewrite !slot_at_wrap, slot_at_insert by done. by case_bool_decide.
Qed.

Lemma clear_stream_ok s pid k w : placed_pids s !! pid = Some (k, w) -> 0 <= w < kind_len s k -> lens_ok s ->
  exists s', (forall E, clear_stream (E:=E) s pid = Ok s') /\ revec s s' /\ placed_pids s' = placed_pids s /\ lens_ok s' /\
    (forall k', kind_len s' k' = kind_len s k') /\
    forall k' w', entry s' k' w' = if bool_decide ((k', w') = (k, w)) then None else entry s k' w'.
Proof.
  intros Hp Hw Hs. unfold clear_stream. rewrite Hp.
  destruct k; cbn [kind_len] in Hw;
    first [destruct (clear_at SVideo _ w Hw) as (v' & Hv & Hl & He)|destruct (clear_at SKlv _ w Hw) as (v' & Hv & Hl & He)
          |destruct (clear_at SAudio _ w Hw) as (v' & Hv & Hl & He)|destruct (clear_at SSubtitle _ w Hw) as (v' & Hv & Hl & He)
          |destruct (clear_at SData _ w Hw) as (v' & Hv & Hl & He)]; eexists; (split; [intros E; rewrite Hv; reflexivity|]).
  all: split; [eexists _, _, _, _, _, _; reflexivity|]; split; [done|]; split;
    [intros k; specialize (Hs k); destruct k; cbn [kind_vec with_streams video klv audio subtitle data] in *; rewrite ?zlen_wrap, ?Hl in *; done|].
  all: split; [by intros []|]; intros k' w'; change (entry ?s k' w') with (slot_at (kind_vec s k') w');
    destruct k'; cbn [kind_vec with_streams video klv audio subtitle data];
    try (rewrite bool_decide_false by congruence; done); rewrite He; repeat case_bool_decide; try congruence; done.
Qed.

(** Clearing PIDs empties exactly their entries. *)
Lemma clear_pids_ok pids : forall s, lens_ok s ->
  (forall pid, pid ∈ pids -> exists k w, placed_pids s !! pid = Some (k, w) /\ 0 <= w < kind_len s k) ->
  exists s', (forall E, clear_pids (E:=E) pids s = Ok s') /\ revec s s' /\ placed_pids s' = placed_pids s /\ lens_ok s' /\
    forall k w, entry s' k w =
      if existsb (fun pid => bool_decide (placed_pids s !! pid = Some (k, w))) pids then None else entry s k w.
Proof.
  induction pids as [|pid pids IH]; intros s Hs Hp; [exists s; split_and!; try done; apply revec_refl|].
  destruct (Hp pid) as (k & w & Hpl & Hw); [left|].
  destruct (clear_stream_ok s pid k w Hpl Hw Hs) as (s1 & H1 & Hr & Hp1 & Hl1 & Hlen & He).
  destruct (IH s1 Hl1) as (s' & H2 & Hr' & Hp2 & Hl2 & He').
  { intros q Hq. rewrite Hp1. destruct (Hp q) as (k' & w' & H & Hw'); [by right|]. exists k', w'. by rewrite Hlen. }
  exists s'. split_and!; [intros E; cbn [clear_pids]; rewrite H1; apply H2|by eapply revec_trans|congruence|done|].
  intros k' w'. rewrite He', He, Hp1. cbn [existsb]. rewrite Hpl.
  destruct (existsb _ pids); [by rewrite orb_true_r|]. rewrite orb_false_r. repeat case_bool_decide; congruence.
Qed.

End PlaceStreams.

(** * Dropping programs and streams *)
Module Drops.
Import Common PesWriter TsCounters MuxTypes MuxState MuxHandles MuxSlots MuxValidate MuxInv SlotView MuxWf Reconfigure StreamSlots ProgramPlan SlotEdits PlaceStreams.

Definition tombstone (s : ProgramSlot) : ProgramSlot := clear_streams (with_live s None).

Lemma drop_slots_ok : forall idxs ss, NoDup idxs -> (forall i, i ∈ idxs -> exists s p, get ss i = Some s /\ live s = Some p) ->
  exists ss' removed, (forall E, drop_slots (E:=E) idxs ss = Ok (ss', removed)) /\ zlen ss' = zlen ss /\
    (forall i, get ss' i = (fun s => if bool_decide (i ∈ idxs) then tombstone s else s) <$> get ss i) /\
    (forall pid, pid ∈ removed <-> exists i s p, i ∈ idxs /\ get ss i = Some s /\ live s = Some p /\ pid ∈ map spec_pid (streams p)).
Proof.
  induction idxs as [|i idxs IH]; intros ss Hn Hl.
  { exists ss, []. split_and!; try done; [intros j; destruct (get ss j); done|]. intros pid. split; [by intros ?%elem_of_nil|].
    by intros (i & _ & _ & ?%elem_of_nil & _). }
  apply NoDup_cons in Hn as [Hi Hn]. destruct (Hl i) as (s & p & Hg & Hlp); [left|]. pose proof (get_Some _ _ _ Hg) as Hr.
  set (ss1 := <[Z.to_nat i := tombstone s]> ss).
  assert (Hg1 : forall j, get ss1 j = if bool_decide (j = i) then Some (tombstone s) else get ss j) by (intros; by apply get_replace).
  destruct (IH ss1 Hn) as (ss' & removed & Hd & Hz & Hget & Hrem).
  { intros j Hj. rewrite Hg1, bool_decide_false by (intros ->; done). apply Hl. by right. }
  exists ss', (map spec_pid (streams p) ++ removed). split_and!.
  - intros E. cbn [drop_slots]. unfold idx. rewrite Hg. rb. rewrite Hlp, put_single by done. rb. fold (tombstone s) ss1. by rewrite Hd.
  - rewrite Hz. unfold zlen, ss1. by rewrite length_insert.
  - intros j. rewrite Hget, Hg1. destruct (decide (j = i)) as [->|Hji].
    + rewrite Hg, (bool_decide_true (i = i)) by done. cbn. rewrite bool_decide_false, bool_decide_true by (done || left). done.
    + rewrite (bool_decide_false (j = i)) by done. destruct (get ss j); [cbn|done]. repeat case_bool_decide; set_solver.
  - intros pid. rewrite elem_of_app, Hrem. split.
    + intros [Hin|(j & s' & p' & Hj & Hg' & H)]; [exists i, s, p; split_and!; try done; left|]. exists j, s', p'.
      rewrite Hg1, bool_decide_false in Hg' by (intros ->; done). split; [by right|done].
    + intros (j & s' & p' & [->|Hj]%elem_of_cons & Hg' & Hl' & Hin); [left; by simplify_eq|]. right. exists j, s', p'.
      rewrite Hg1, bool_decide_false by (intros ->; done). done.
Qed.

(** [s'] is [s] with the entries of [pids] emptied. *)
Record cleared (pids : list Z) (s s' : ProgramSlot) : Prop := {
  cl_revec : revec s s';
  cl_placed : placed_pids s' = placed_pids s;
  cl_lens : lens_ok s';
  cl_entry : forall k w, entry s' k w =
    if existsb (fun pid => bool_decide (placed_pids s !! pid = Some (k, w))) pids then None else entry s k w;
}.

Lemma cleared_nil s : lens_ok s -> cleared [] s s.
Proof. intros Hs. split; try done. apply revec_refl. Qed.

Definition placed_ready (s : ProgramSlot) (pids : list Z) : Prop :=
  forall pid, pid ∈ pids -> exists k w, placed_pids s !! pid = Some (k, w) /\ 0 <= w < kind_len s k.

Lemma drop_one_ok p ss : Forall lens_ok ss ->
  (removed_pids p <> [] -> exists s, get ss (slot p) = Some s /\ placed_ready s (removed_pids p)) ->
  exists ss', (forall E, match removed_pids p with [] => Ok ss | pids => edit_slot (E:=E) ss (slot p) (clear_pids pids) end = Ok ss') /\
    zlen ss' = zlen ss /\ Forall lens_ok ss' /\
    (forall i, i <> slot p -> get ss' i = get ss i) /\
    (forall s, get ss (slot p) = Some s -> exists s', get ss' (slot p) = Some s' /\ cleared (removed_pids p) s s').
Proof.
  intros Hf Hp. destruct (removed_pids p) as [|pid pids] eqn:Hpids.
  { exists ss. split_and!; try done. intros s Hg. exists s. split; [done|]. apply cleared_nil. rewrite Forall_forall in Hf. apply Hf, elem_get. eauto. }
  destruct Hp as (s & Hg & Hr); [done|]. pose proof (get_Some _ _ _ Hg) as Hi.
  assert (Hls : lens_ok s) by (rewrite Forall_forall in Hf; apply Hf, elem_get; eauto).
  destruct (clear_pids_ok (pid :: pids) s Hls Hr) as (s' & Hc & Hrv & Hpl & Hl & He).
  exists (<[Z.to_nat (slot p) := s']> ss). split_and!.
  - intros E. unfold edit_slot, idx. rewrite Hg. rb. rewrite Hc. rb. by apply put_single.
  - unfold zlen. by rewrite length_insert.
  - by apply Forall_insert.
  - intros j Hj. rewrite get_replace by done. by rewrite bool_decide_false by done.
  - intros s0 Hs0. rewrite Hg in Hs0. injection Hs0 as <-. exists s'. rewrite get_replace, bool_decide_true by done. split; [done|by split].
Qed.

Lemma drop_streams_ok : forall ps ss, NoDup (map slot ps) -> Forall lens_ok ss ->
  (forall p, p ∈ ps -> removed_pids p <> [] -> exists s, get ss (slot p) = Some s /\ placed_ready s (removed_pids p)) ->
  exists ss', (forall E, drop_streams (E:=E) ps ss = Ok (ss', flat_map removed_pids ps)) /\ zlen ss' = zlen ss /\ Forall lens_ok ss' /\
    (forall i, i ∉ map slot ps -> get ss' i = get ss i) /\
    (forall p s, p ∈ ps -> get ss (slot p) = Some s -> exists s', get ss' (slot p) = Some s' /\ cleared (removed_pids p) s s').
Proof.
  induction ps as [|p ps IH]; intros ss Hn Hf Hp; [exists ss; split_and!; try done; by intros p s ?%elem_of_nil|].
  cbn [map] in Hn. apply NoDup_cons in Hn as [Hx Hn].
  destruct (drop_one_ok p ss Hf (Hp p ltac:(left))) as (ss1 & H1 & Hz1 & Hf1 & Ho1 & Hs1).
  assert (Hne : forall q, q ∈ ps -> slot q <> slot p) by (intros q Hq Heq; apply Hx; rewrite <- Heq; by apply list_elem_of_fmap_2).
  destruct (IH ss1 Hn Hf1) as (ss' & H2 & Hz2 & Hf2 & Ho2 & Hs2).
  { intros q Hq Hr. rewrite (Ho1 _ (Hne q Hq)). apply Hp; [by right|done]. }
  exists ss'. split_and!; [|by rewrite Hz2|done| |].
  - intros E. cbn [drop_streams flat_map]. rewrite H1. rb. by rewrite H2.
  - intros i [Hi Hi']%not_elem_of_cons. by rewrite Ho2, Ho1.
  - intros q s [->|Hq]%elem_of_cons Hg.
    + rewrite Ho2 by done. by apply Hs1.
    + apply Hs2; [done|]. rewrite Ho1; [done|by apply Hne].
Qed.

Lemma reset_pids_ok : forall pids c scc, Forall (fun p => 0 <= p <= 0x1FFF) pids -> counters_ok c ->
  exists c' scc', (forall E, reset_pids (E:=E) pids c scc = Ok (c', scc')) /\ counters_ok c' /\
    (forall q, 0 <= q < 8192 -> q ∉ pids -> cc_of c' q = cc_of c q) /\
    (forall q, scc' !! q = if bool_decide (q ∈ pids) then None else scc !! q).
Proof.
  induction pids as [|p pids IH]; intros c scc Hf Hc; [by exists c, scc|]. apply Forall_cons in Hf as [Hp Hf].
  destruct (reset_all c p Hc Hp) as (c1 & Hr & Hc1 & _ & Ho).
  destruct (IH c1 (delete p scc) Hf Hc1) as (c' & scc' & H & Hc' & Ho' & Hs'). exists c', scc'. split_and!; [|done| |].
  - intros E. cbn [reset_pids]. rewrite Hr. apply H.
  - intros q Hq [Hne Hq']%not_elem_of_cons. rewrite Ho' by done. by apply Ho.
  - intros q. rewrite Hs', lookup_delete. repeat case_bool_decide; try done; repeat case_decide; set_solver.
Qed.

End Drops.

(** * Applying one program *)
Module ApplyProgram.
Import Common PesWriter TsCounters MuxTypes MuxState MuxHandles MuxDescriptors MuxSlots MuxValidate ValidConfig ConfigTheorems
  MuxInv SlotView MuxWf Reconfigure StreamSlots ProgramPlan SlotEdits PlaceStreams Drops.

(** A slot into which the planned program can be placed. *)
Record ready (prog : MuxerProgramConfig) (pl : PlannedProgram) (matched : bool) (s : ProgramSlot) : Prop := {
  rd_valid : program_valid prog;
  rd_typed : program_typed prog;
  rd_resolve : forall E, resolve_pcr_pid (E:=E) prog = Ok (planned_pcr_pid pl);
  rd_fits : Forall2 (fits prog) (streams prog) (planned_streams pl);
  rd_positions : NoDup (map position_of (planned_streams pl));
  rd_lens : lens_ok s;
  rd_entries : matched = true -> forall k w st, entry s k w = Some st -> (k, w) ∈ map position_of (planned_streams pl);
  rd_psi : forall t, psi_last s = Some t -> pts33 t;
  rd_pcr : forall t, pcr_last s = Some t -> 0 <= t <= u64_max;
  rd_version : 0 <= pmt_version s < 32;
}.

Definition next_version (v : option Z) : Z := match v with None => 0 | Some v => (v + 1) mod 32 end.

(** Whether a program's PMT has to be announced under a new version. *)
Definition pmt_changed (matched : bool) (s s' : ProgramSlot) : bool :=
  negb matched || negb (bool_decide (pmt_identity s' = pmt_identity s)).

(** What applying its plan makes of a program: the slot, the counters of its
    PIDs and the version of its PMT. *)
Record settled (prog : MuxerProgramConfig) (pl : PlannedProgram) (matched : bool) (s s' : ProgramSlot)
    (c c' : TsWriter.ContinuityCounters) (versions versions' : gmap Z Z) : Prop := {
  st_wf : slot_wf s';
  st_live : live s' = Some prog;
  st_number : last_program_number s' = program_number prog;
  st_entry : forall n spec x, streams prog !! n = Some spec -> planned_streams pl !! n = Some x ->
    entry s' (planned_kind x) (within x) = Some (state_of spec) /\
    cc_of c' (spec_pid spec) = if survivor x then cc_of c (spec_pid spec) else 0;
  st_placed : forall pid, pid ∉ stream_pids prog -> placed_pids s' !! pid = placed_pids s !! pid;
  st_psi : psi_last s' = psi_last s;
  st_pcr : pcr_last s' = if matched then pcr_last s else None;
  st_version : pmt_version s' = if pmt_changed matched s s' then next_version (versions !! pmt_pid prog) else pmt_version s;
  st_versions : versions' !! pmt_pid prog =
    if pmt_changed matched s s' then Some (pmt_version s') else versions !! pmt_pid prog;
}.

(** What it leaves alone. *)
Record others_kept (progs : list MuxerProgramConfig) (c c' : TsWriter.ContinuityCounters) (versions versions' : gmap Z Z) : Prop := {
  ok_cc : forall pid, 0 <= pid < 8192 -> pid ∉ flat_map stream_pids progs -> cc_of c' pid = cc_of c pid;
  ok_counters : counters_ok c';
  ok_versions : forall pid, pid ∉ map pmt_pid progs -> versions' !! pid = versions !! pid;
  ok_range : forall pid v, versions' !! pid = Some v -> 0 <= v < 32;
}.

(** ** Statistics outlive reconfigurations *)

Definition counted (e : option StreamStats) : Z * Z * Z :=
  match e with Some e => (items e, byte_count e, discontinuities e) | None => (0, 0, 0) end.

Definition stats_kept (old new : gmap Z StreamStats) : Prop :=
  forall pid, counted (new !! pid) = counted (old !! pid) /\ (is_Some (old !! pid) -> is_Some (new !! pid)).

Lemma stats_kept_trans s1 s2 s3 : stats_kept s1 s2 -> stats_kept s2 s3 -> stats_kept s1 s3.
Proof. intros H1 H2 pid. destruct (H1 pid), (H2 pid). split; [congruence|auto]. Qed.

Lemma merge_stats_kept fresh kept : untouched fresh -> stats_kept kept (merge_stats fresh kept).
Proof.
  intros Hu pid. unfold merge_stats. rewrite lookup_merge. destruct (fresh !! pid) as [f|] eqn:Hf, (kept !! pid) as [k|]; try done.
  destruct (Hu pid f Hf) as (H1 & H2 & H3). cbn. rewrite H1, H2, H3. by split; [|intros []].
Qed.

Lemma version_ok (v : option Z) : (forall n, v = Some n -> 0 <= n < 32) -> 0 <= next_version v < 32 /\
  forall E, match v with None => Ok 0 | Some v => let! v := chk_u8 (E:=E) (v + 1) in Ok (Z.land v 0x1F) end = Ok (next_version v).
Proof.
  intros Hv. destruct v as [n|]; [|done]. specialize (Hv n eq_refl). cbn. split; [apply Z.mod_pos_bound; lia|]. intros E.
  unfold chk_u8, checked. rewrite (proj2 (Z.leb_le _ _)), (proj2 (Z.ltb_lt _ _)) by lia. rb. by rewrite land_31.
Qed.

(** The slot the streams are placed into. *)
Definition cleaned (matched : bool) (s : ProgramSlot) : ProgramSlot :=
  if matched then s else set_pcr_last (clear_streams s) None.

Lemma cleaned_ready prog pl matched s : ready prog pl matched s -> ready prog pl true (cleaned matched s).
Proof.
  intros [Hv Ht Hr Hf Hp Hl He Hpsi Hpcr Hver]. unfold cleaned. destruct matched; [by split|]. split; try done.
  - by apply (clear_streams_lens s Hl).
  - intros _ k w st H. change (entry (set_pcr_last (clear_streams s) None) k w) with (entry (clear_streams s) k w) in H.
    by rewrite clear_streams_entry in H.
Qed.

Lemma placed_slot_wf prog pl s s2 c c' cache key version n : ready prog pl true s ->
  placed_in (streams prog) (planned_streams pl) s s2 c c' ->
  build_pmt_descriptor_cache (E:=Empty_set) prog = Ok cache ->
  pmt_identity_key (E:=Empty_set) prog (planned_pcr_pid pl) cache = Ok key -> 0 <= version < 32 ->
  slot_wf {| live := Some prog; video := video s2; klv := klv s2; audio := audio s2; subtitle := subtitle s2; data := data s2;
     MuxState.pcr_pid := planned_pcr_pid pl; pmt_descriptor_cache := cache; pmt_version := version; pmt_identity := key;
     psi_last := psi_last s2; pcr_last := pcr_last s2; last_program_number := n; placed_pids := placed_pids s2 |}.
Proof.
  intros Hr Hi Hc Hk Hver. match goal with |- slot_wf ?x => set (s' := x) end.
  assert (Hent : forall k w, entry s' k w = entry s2 k w) by (by intros []).
  destruct (pi_revec _ _ _ _ _ _ Hi) as (v & kk & a & b & d & p & Heq).
  split; try done; try (by intros prog' [= <-]).
  - intros k. pose proof (pi_lens _ _ _ _ _ _ Hi k) as H. by destruct k.
  - intros k w st He. rewrite Hent in He.
    assert (Hin : (k, w) ∈ map position_of (planned_streams pl)).
    { destruct (decide ((k, w) ∈ map position_of (planned_streams pl))); [done|]. rewrite (pi_other _ _ _ _ _ _ Hi) in He by done.
      by eapply (rd_entries _ _ _ _ Hr eq_refl). }
    apply list_elem_of_fmap in Hin as (x & Hx & Hin). apply list_elem_of_lookup in Hin as [j Hj]. unfold position_of in Hx. injection Hx as -> ->.
    destruct (Forall2_lookup_r _ _ _ _ _ (rd_fits _ _ _ _ Hr) Hj) as (spec & Hs & _).
    destruct (pi_entry _ _ _ _ _ _ Hi j spec x Hs Hj) as (He' & Hp & _). exists prog, spec. split; [done|].
    split; [by eapply list_elem_of_lookup_2|]. split; [congruence|done].
  - intros prog' spec [= <-] Hin. apply list_elem_of_lookup in Hin as [j Hj].
    destruct (Forall2_lookup_l _ _ _ _ _ (rd_fits _ _ _ _ Hr) Hj) as (x & Hx & Hkx & _).
    destruct (pi_entry _ _ _ _ _ _ Hi j spec x Hj Hx) as (He' & Hp & _). exists (within x). rewrite Hent, <- Hkx. done.
  - intros prog' [= <-]. by split; [apply Hr|apply Hr].
  - intros prog' [= <-]. cbn. apply (rd_resolve _ _ _ _ Hr).
  - cbn. destruct (resolve_ok prog (rd_valid _ _ _ _ Hr)) as (pcr & Hres & Hu & _). specialize (Hres Empty_set).
    rewrite (rd_resolve _ _ _ _ Hr) in Hres. injection Hres as ->. unfold user_pid, pid_ok in *. lia.
  - cbn. rewrite Heq. apply (rd_psi _ _ _ _ Hr).
  - cbn. rewrite Heq. apply (rd_pcr _ _ _ _ Hr).
Qed.

Lemma apply_program_ok m pl matched prog s : ready prog pl matched s -> counters_ok (MuxState.counters m) ->
  (forall pid v, pmt_versions_by_pid m !! pid = Some v -> 0 <= v < 32) -> 0 <= slot pl ->
  get (grow_slots (slots m) (slot pl)) (slot pl) = Some s ->
  exists s' c' stats versions', (forall E, apply_program (E:=E) m pl matched prog =
      Ok (set_tables m (<[Z.to_nat (slot pl) := s']> (grow_slots (slots m) (slot pl))) c' stats (stream_codec_counters m) versions')) /\
    settled prog pl matched s s' (MuxState.counters m) c' (pmt_versions_by_pid m) versions' /\
    others_kept [prog] (MuxState.counters m) c' (pmt_versions_by_pid m) versions' /\ stats_kept (per_stream m) stats.
Proof.
  intros Hr Hc Hvr Hi Hg. pose proof (cleaned_ready _ _ _ _ Hr) as Hr'. pose proof (rd_valid _ _ _ _ Hr) as Hv.
  unfold apply_program. cbv zeta. fold (cleaned matched s).
  destruct (place_streams_ok prog (streams prog) (planned_streams pl) (cleaned matched s) (MuxState.counters m)) as (s2 & c' & Hp & Hi2);
    [apply Hr|by pose proof (pv_distinct prog Hv) as [_ H]%NoDup_cons|apply Hr|apply Hr'|done|].
  destruct (cache_ok prog (pv_parallel prog Hv)) as (cache & Hcache & _ & Hlc).
  destruct (identity_ok prog (planned_pcr_pid pl) cache Hlc) as (key & Hkey).
  set (changed := negb matched || negb (bool_decide (key = pmt_identity s2))).
  destruct (version_ok (pmt_versions_by_pid m !! pmt_pid prog)) as [Hvr1 Hvr2]; [intros; by eapply Hvr|].
  set (version := if changed then next_version (pmt_versions_by_pid m !! pmt_pid prog) else pmt_version s2).
  destruct (pi_revec _ _ _ _ _ _ Hi2) as (v & kk & a & b & d & p & Heq).
  assert (Hs2 : psi_last s2 = psi_last s /\ pcr_last s2 = (if matched then pcr_last s else None) /\ pmt_version s2 = pmt_version s /\
    pmt_identity s2 = pmt_identity s) by (rewrite Heq; unfold cleaned; by destruct matched).
  destruct Hs2 as (Hpsi & Hpcr & Hver & Hid).
  assert (Hv32 : 0 <= version < 32) by (unfold version; destruct changed; [done|rewrite Hver; apply Hr]).
  pose proof (placed_slot_wf prog pl _ s2 _ c' cache key version (program_number prog) Hr' Hi2 (Hcache _) (Hkey _) Hv32) as Hwf.
  eexists _, c', _, _. split.
  - intros E. unfold idx. rewrite Hg. rb. change (collect_stream_states prog) with (iters_of (streams prog)). rewrite Hp. rb.
    rewrite Hcache. rb. rewrite Hkey. rb. fold changed.
    assert (Hver' : (if changed then match pmt_versions_by_pid m !! pmt_pid prog with
        | None => Ok 0 | Some v => let! v := chk_u8 (E:=E) (v + 1) in Ok (Z.land v 0x1F) end else Ok (pmt_version s2)) = Ok version)
      by (unfold version; by destruct changed).
    rewrite Hver'. rb. rewrite put_single; [reflexivity|]. by eapply get_Some.
  - split; [|split; [|apply merge_stats_kept, initialize_untouched; by intros ? ?]]; split; try done.
    + intros n spec x Hn Hx. destruct (pi_entry _ _ _ _ _ _ Hi2 n spec x Hn Hx) as (He & _ & Hcc). split; [|done]. rewrite <- He. by destruct (planned_kind x).
    + intros pid Hpid. cbn. rewrite (pi_other_pid _ _ _ _ _ _ Hi2) by done. unfold cleaned. by destruct matched.
    + unfold pmt_changed. cbn. rewrite <- Hid, <- Hver. done.
    + unfold pmt_changed. cbn. rewrite <- Hid. fold changed. destruct changed; [|done]. rewrite lookup_insert. by rewrite decide_True.
    + intros pid Hr0 Hno. cbn in Hno. rewrite app_nil_r in Hno. by apply (pi_other_cc _ _ _ _ _ _ Hi2).
    + apply (pi_counters _ _ _ _ _ _ Hi2).
    + intros pid [Hne _]%not_elem_of_cons. destruct changed; [|done]. by rewrite lookup_insert_ne.
    + intros pid v0. destruct changed; [|apply Hvr]. rewrite lookup_insert_Some. intros [[_ <-]|[_ H]]; [done|by eapply Hvr].
Qed.

(** ** All the programs *)

Definition base (ss : list ProgramSlot) (i : Z) : ProgramSlot := match get ss i with Some s => s | None => empty end.

Lemma get_grow ss i j : get (grow_slots ss i) j = if (0 <=? j) && ((j <? zlen ss) || (j <=? i)) then Some (base ss j) else None.
Proof.
  unfold grow_slots, base. destruct (Z.leb_spec 0 j) as [Hj|Hj]; cbn [andb].
  2: { unfold get. by rewrite (proj2 (Z.ltb_lt _ _)) by lia. }
  rewrite !get_lookup, lookup_app by done. destruct (ss !! Z.to_nat j) as [s|] eqn:Hs.
  { apply lookup_lt_Some in Hs. unfold zlen. by rewrite (proj2 (Z.ltb_lt _ _)) by lia. }
  apply lookup_ge_None in Hs. unfold zlen. rewrite (proj2 (Z.ltb_ge _ _)) by lia. cbn [orb]. unfold zrep.
  destruct (Z.leb_spec j i).
  - apply lookup_replicate. split; [done|]. lia.
  - apply lookup_replicate_None. lia.
Qed.

Lemma zlen_grow ss i : zlen (grow_slots ss i) = Z.max (zlen ss) (i + 1).
Proof.
  unfold grow_slots. rewrite zlen_app. unfold zrep, zlen. rewrite length_replicate. lia.
Qed.

(** The slots after one of them is grown to and replaced. *)
Lemma get_grown ss i s j : 0 <= i ->
  get (<[Z.to_nat i := s]> (grow_slots ss i)) j = if bool_decide (j = i) then Some s else get (grow_slots ss i) j.
Proof. intros Hi. apply get_replace. rewrite zlen_grow. lia. Qed.

Lemma base_grown ss i s j : 0 <= i -> j <> i -> base (<[Z.to_nat i := s]> (grow_slots ss i)) j = base ss j.
Proof.
  intros Hi Hj. unfold base at 1. rewrite get_grown, bool_decide_false, get_grow by done. destruct (_ && _) eqn:Hb; [done|].
  unfold base. destruct (get ss j) eqn:Hgj; [|done]. apply get_Some in Hgj.
  by rewrite (proj2 (Z.leb_le 0 _)), (proj2 (Z.ltb_lt _ _)) in Hb by lia.
Qed.

Lemma settled_frame prog pl matched s s' c c' v v' c2 c2' v2 v2' : settled prog pl matched s s' c c' v v' ->
  (forall pid, pid ∈ stream_pids prog -> cc_of c2 pid = cc_of c pid /\ cc_of c2' pid = cc_of c' pid) ->
  v2 !! pmt_pid prog = v !! pmt_pid prog -> v2' !! pmt_pid prog = v' !! pmt_pid prog ->
  settled prog pl matched s s' c2 c2' v2 v2'.
Proof.
  intros [] Hc Hv Hv'. split; rewrite ?Hv, ?Hv'; try done.
  intros n spec x Hn Hx. destruct (st_entry0 n spec x Hn Hx) as [He Hcc]. split; [done|].
  destruct (Hc (spec_pid spec)) as [-> ->]; [|done]. apply list_elem_of_fmap_2. by eapply list_elem_of_lookup_2.
Qed.

Definition next_ready (c : MuxerConfig) (ss : list ProgramSlot) (q : MuxerProgramConfig) (pm : PlannedProgram * bool) : Prop :=
  get (programs c) (config_index pm.1) = Some q /\ 0 <= slot pm.1 < 16 /\ ready q pm.1 pm.2 (base ss (slot pm.1)).

Lemma valid_pid q pid : program_valid q -> pid ∈ stream_pids q -> 0 <= pid < 8192.
Proof.
  intros Hv (spec & -> & Hin)%list_elem_of_fmap. pose proof (spec_user q spec Hv Hin). unfold user_pid in *. lia.
Qed.

Lemma pids_parts qs pid : pid ∈ flat_map stream_pids qs \/ pid ∈ map pmt_pid qs -> pid ∈ flat_map program_pids qs.
Proof.
  intros [Hp|Hp]; apply list_elem_of_In in Hp; apply list_elem_of_In, in_flat_map.
  - apply in_flat_map in Hp as (x & Hx & Hp). exists x. split; [done|by right].
  - apply in_map_iff in Hp as (x & <- & Hx). exists x. split; [done|by left].
Qed.

Lemma apply_programs_ok c : forall qs ps m, Forall2 (next_ready c (slots m)) qs ps -> NoDup (map (fun pm => slot pm.1) ps) ->
  NoDup (flat_map program_pids qs) -> counters_ok (MuxState.counters m) ->
  (forall pid v, pmt_versions_by_pid m !! pid = Some v -> 0 <= v < 32) -> zlen (slots m) <= 16 ->
  exists ss' c' stats versions', (forall E, apply_programs (E:=E) c ps m =
      Ok (set_tables m ss' c' stats (stream_codec_counters m) versions')) /\ zlen (slots m) <= zlen ss' <= 16 /\
    others_kept qs (MuxState.counters m) c' (pmt_versions_by_pid m) versions' /\ stats_kept (per_stream m) stats /\
    (forall i s, get ss' i = Some s -> i ∉ map (fun pm => slot pm.1) ps -> s = base (slots m) i) /\
    (forall n q pm, qs !! n = Some q -> ps !! n = Some pm -> exists s', get ss' (slot pm.1) = Some s' /\
       settled q pm.1 pm.2 (base (slots m) (slot pm.1)) s' (MuxState.counters m) c' (pmt_versions_by_pid m) versions').
Proof.
  induction qs as [|q qs IH]; intros ps m Hf Hns Hnp Hc Hv Hz; inversion Hf as [|? [pl mt] ? ps' Hq Hf']; subst.
  { exists (slots m), (MuxState.counters m), (per_stream m), (pmt_versions_by_pid m). split; [intros E; by destruct m|].
    split; [lia|]. split; [by split|]. split; [done|]. split; [intros i s Hg _; unfold base; by rewrite Hg|done]. }
  destruct Hq as (Hg & Hs & Hr). cbn [fst snd map flat_map] in *. apply NoDup_cons in Hns as [Hx Hns].
  apply NoDup_app in Hnp as (Hnq & Hdisj & Hnp).
  assert (Hgg : get (grow_slots (slots m) (slot pl)) (slot pl) = Some (base (slots m) (slot pl))).
  { rewrite get_grow. by rewrite (proj2 (Z.leb_le 0 _)), Z.leb_refl, orb_true_r by lia. }
  destruct (apply_program_ok m pl mt q _ Hr Hc Hv ltac:(lia) Hgg) as (s1 & c1 & stats1 & v1 & H1 & Hst & [Hcc Hc1 Hvo Hvr] & Hk1).
  set (ss1 := <[Z.to_nat (slot pl) := s1]> (grow_slots (slots m) (slot pl))) in *.
  pose proof (zlen_grow (slots m) (slot pl)) as Hzg. pose proof (zlen_nonneg (slots m)) as Hz0.
  assert (Hz1 : zlen ss1 = Z.max (zlen (slots m)) (slot pl + 1)) by (unfold ss1, zlen in *; by rewrite length_insert).
  assert (Hbase : forall j, j <> slot pl -> base ss1 j = base (slots m) j) by (intros; apply base_grown; [lia|done]).
  destruct (IH ps' (set_tables m ss1 c1 stats1 (stream_codec_counters m) v1)) as
    (ss' & c' & stats & v' & H2 & Hz2 & [Hcc2 Hc2 Hvo2 Hvr2] & Hk2 & Hother & Hall); try done; [|cbn [slots set_tables]; lia|].
  { apply Forall2_same_length_lookup. split; [by eapply Forall2_length|]. intros n q' pm Hn Hn'.
    destruct (Forall2_lookup_lr _ _ _ _ _ _ Hf' Hn Hn') as (Hgc & Hsl & Hrd). split; [done|]. split; [done|]. cbn [slots set_tables].
    rewrite Hbase; [done|]. intros Heq. apply Hx. rewrite <- Heq. apply (list_elem_of_fmap_2 (fun pm => slot pm.1)). by eapply list_elem_of_lookup_2. }
  cbn [slots set_tables MuxState.counters pmt_versions_by_pid stream_codec_counters per_stream] in *.
  pose proof (pids_parts qs) as Hsub.
  exists ss', c', stats, v'. split_and!; try lia.
  - intros E. cbn [apply_programs]. unfold idx. rewrite Hg. rb. rewrite H1. rb. rewrite H2. done.
  - split; try done.
    + intros pid Hp [Hp1 Hp2]%not_elem_of_app. rewrite Hcc2, Hcc; [done|done|cbn; by rewrite app_nil_r|done|done].
    + intros pid [Hp Hp']%not_elem_of_cons. rewrite Hvo2, Hvo; [done|by intros ?%list_elem_of_singleton|done].
  - by eapply stats_kept_trans.
  - intros i s Hgi [Hi Hi']%not_elem_of_cons. rewrite (Hother i s Hgi Hi'). by apply Hbase.
  - intros [|n] q' pm Hn Hn'; cbn in Hn, Hn'.
    + injection Hn as <-. injection Hn' as <-. cbn [fst snd]. destruct (get_lt ss' (slot pl)) as [s' Hs']; [lia|].
      exists s'. split; [done|]. rewrite (Hother _ _ Hs' Hx). unfold base at 2, ss1. rewrite get_grown, bool_decide_true by (done || lia).
      eapply settled_frame; [exact Hst| |done|].
      * intros pid Hp. split; [done|]. apply Hcc2; [eapply valid_pid; [apply Hr|done]|].
        intros Hp'. apply (Hdisj pid); [by right|auto].
      * apply Hvo2. intros Hp'. apply (Hdisj (pmt_pid q)); [left|auto].
    + destruct (Hall n q' pm Hn Hn') as (s' & Hs' & Hst'). exists s'. split; [done|].
      assert (Hne : slot pm.1 <> slot pl).
      { intros Heq. apply Hx. rewrite <- Heq. apply (list_elem_of_fmap_2 (fun pm => slot pm.1)). by eapply list_elem_of_lookup_2. }
      rewrite Hbase in Hst' by done.
      assert (Htail : forall pid, pid ∈ program_pids q' -> pid ∉ program_pids q).
      { intros pid Hp Hp'. apply (Hdisj pid Hp'). apply list_elem_of_In, in_flat_map. exists q'.
        rewrite <- !list_elem_of_In. split; [by eapply list_elem_of_lookup_2|done]. }
      destruct (Forall2_lookup_lr _ _ _ _ _ _ Hf' Hn Hn') as (_ & _ & Hrd).
      eapply settled_frame; [exact Hst'| | |done].
      * intros pid Hp. split; [|done]. symmetry. apply Hcc; [eapply valid_pid; [apply Hrd|done]|].
        cbn. rewrite app_nil_r. intros Hp'. apply (Htail pid); by right.
      * symmetry. apply Hvo. intros Heq%list_elem_of_singleton. apply (Htail (pmt_pid q')); [left|]. rewrite Heq. left.
Qed.

End ApplyProgram.

(** * Applying a plan *)
Module ApplyPlan.
Import Common PesWriter TsCounters MuxTypes MuxState MuxHandles MuxSchedule MuxDescriptors MuxSlots MuxValidate ValidConfig ConfigTheorems
  MuxInv SlotView MuxWf Reconfigure LiveTables ProgramSlots StreamSlots ProgramPlan WholePlan SlotEdits PlaceStreams Drops ApplyProgram.

(** The parts of a slot's invariant that do not depend on its program. *)
Record stamps_ok (s : ProgramSlot) : Prop := {
  so_lens : lens_ok s;
  so_pcr_pid : pid_ok (MuxState.pcr_pid s);
  so_psi : forall t, psi_last s = Some t -> pts33 t;
  so_pcr : forall t, pcr_last s = Some t -> 0 <= t <= u64_max;
  so_version : 0 <= pmt_version s < 32;
}.

(** A slot that carries no program. *)
Definition dead (s : ProgramSlot) : Prop := live s = None /\ forall k w, entry s k w = None.

Lemma wf_stamps s : slot_wf s -> stamps_ok s.
Proof. intros []. by split. Qed.

Lemma dead_wf s : stamps_ok s -> dead s -> slot_wf s.
Proof. intros [] [Hl He]. split; try done; try (intros prog H; congruence); intros; congruence. Qed.

Lemma tombstone_ok s : stamps_ok s -> stamps_ok (tombstone s) /\ dead (tombstone s).
Proof.
  intros [Hl ? ? ? ?]. split; [split; try done; apply (clear_streams_lens (with_live s None)); intros k; specialize (Hl k); by destruct k|].
  split; [done|]. intros k w. apply (clear_streams_entry (with_live s None)).
Qed.

Lemma wf_dead s : slot_wf s -> live s = None -> dead s.
Proof.
  intros Hw Hl. split; [done|]. intros k w. destruct (entry s k w) as [st|] eqn:He; [|done].
  destruct (wf_entry s Hw k w st He) as (prog & _ & H & _). congruence.
Qed.

Lemma empty_ok : stamps_ok empty /\ dead empty.
Proof.
  split; split; try done.
  - by intros [].
  - intros k w. unfold entry. destruct k; cbn; unfold get; by destruct (w <? 0).
Qed.

Lemma revec_stamps s s' : stamps_ok s -> revec s s' -> lens_ok s' -> stamps_ok s'.
Proof. intros [] (v & k & a & b & d & p & ->) Hl. by split. Qed.

Lemma used_at k l x : x ∈ l -> planned_kind x = k -> within x ∈ used k (map (fun x => (x, false)) l).
Proof.
  intros Hin Hk. unfold used. apply list_elem_of_In, in_flat_map. exists (x, false). split; [apply in_map_iff; exists x; by rewrite <- list_elem_of_In|].
  cbn. rewrite bool_decide_true by done. by left.
Qed.

Lemma positions_NoDup l : (forall k, NoDup (used k (map (fun x => (x, false)) l))) -> NoDup (map position_of l).
Proof.
  induction l as [|x l IH]; intros Hn; [constructor|]. cbn [map] in *.
  assert (Hk : forall k, NoDup (used k (map (fun x => (x, false)) l)))
    by (intros k; specialize (Hn k); rewrite used_cons in Hn; by apply NoDup_app in Hn as (_ & _ & Hn)).
  apply NoDup_cons. split; [|by apply IH]. intros (y & Hy & Hin)%list_elem_of_fmap. unfold position_of in Hy. injection Hy as Hky Hwy.
  specialize (Hn (planned_kind x)). rewrite used_cons, bool_decide_true in Hn by done. cbn [negb andb app] in Hn. apply NoDup_cons in Hn as [Hn _].
  apply Hn. rewrite Hwy. by apply used_at.
Qed.

Section apply.
Context (m : Muxer) (Hm : mux_wf m) (c : MuxerConfig) (Ht : Forall program_typed (programs c)).

Lemma planned_fits prog i j pl : program_valid prog -> program_planned m prog i j pl ->
  Forall2 (fits prog) (streams prog) (planned_streams pl).
Proof.
  intros Hv Hp. apply Forall2_same_length_lookup. split; [by eapply Forall2_length, Hp|]. intros n spec x Hn Hx.
  destruct (Forall2_lookup_lr _ _ _ _ _ _ (pp_streams _ _ _ _ _ Hp) Hn Hx) as [Hk _]. split; [done|]. split; [|split].
  - assert (Hi : map spec_index (planned_streams pl) !! n = Some (spec_index x)) by (rewrite list_lookup_fmap; by rewrite Hx).
    rewrite (pp_index _ _ _ _ _ Hp) in Hi. apply lookup_seqZ in Hi as [-> Hlt]. rewrite get_lookup by lia.
    by replace (Z.to_nat (0 + Z.of_nat n)) with n by lia.
  - pose proof (pp_range _ _ _ _ _ Hp (planned_kind x)) as Hr. rewrite Forall_forall in Hr. apply Hr, used_at; [|done].
    by eapply list_elem_of_lookup_2.
  - pose proof (spec_user prog spec Hv ltac:(by eapply list_elem_of_lookup_2)) as H. unfold user_pid in H. lia.
Qed.

(** A running program's slot, once its removed streams are cleared, holds
    survivors only. *)
Lemma survivors_only prog i j pl s s' : program_planned m prog i j pl -> is_matched m prog i = true ->
  get (slots m) i = Some s -> cleared (removed_pids pl) s s' ->
  forall k w st, entry s' k w = Some st -> (k, w) ∈ map position_of (planned_streams pl).
Proof.
  intros Hp Hmt Hg Hcl k w st He. rewrite (cl_entry _ _ _ Hcl) in He. destruct (existsb _ _) eqn:Hx; [done|].
  destruct (wf_entry s (slot_wf_at m Hm i s Hg) k w st He) as (old & old_spec & Hl & Hin & <- & Hpl).
  assert (Hpid : spec_pid old_spec ∈ map spec_pid (streams prog)).
  { destruct (decide (spec_pid old_spec ∈ map spec_pid (streams prog))) as [|Hno]; [done|]. exfalso.
    apply not_true_iff_false in Hx. apply Hx, existsb_exists. exists (spec_pid old_spec). split; [|by apply bool_decide_eq_true].
    apply list_elem_of_In, (pp_removed _ _ _ _ _ Hp). split_and!; [done..|]. exists s, old. split_and!; try done. by apply list_elem_of_fmap_2. }
  apply list_elem_of_fmap in Hpid as (spec & Hsp & Hspec). apply list_elem_of_lookup in Hspec as [n Hn].
  destruct (Forall2_lookup_l _ _ _ _ _ (pp_streams _ _ _ _ _ Hp) Hn) as (x & Hxn & Hk & Hsv).
  apply list_elem_of_fmap. exists x. split; [|by eapply list_elem_of_lookup_2]. unfold position_of. destruct (survivor x).
  - destruct Hsv as (_ & s0 & old0 & old_spec0 & Hg0 & _ & _ & _ & _ & _ & Hpl0). rewrite Hg in Hg0. injection Hg0 as <-.
    rewrite <- Hsp, Hpl in Hpl0. rewrite Hk. congruence.
  - assert (Hlp : live_pids m !! spec_pid spec = Some (i, old, old_spec)) by (apply live_pids_spec; [done|]; eauto 6). congruence.
Qed.

Lemma planned_ready prog i j pl s : program_valid prog -> program_typed prog -> program_planned m prog i j pl -> stamps_ok s ->
  (is_matched m prog i = true -> exists s0, get (slots m) i = Some s0 /\ cleared (removed_pids pl) s0 s) ->
  ready prog pl (is_matched m prog i) s.
Proof.
  intros Hv Htp Hp [] Hs. split; try done.
  - apply Hp.
  - by eapply planned_fits.
  - apply positions_NoDup, Hp.
  - intros Hmt. destruct (Hs Hmt) as (s0 & Hg & Hcl). by eapply survivors_only.
Qed.

Context (plan : ReconfigurePlan) (Hp : planned m c plan).

Definition planned_at (n : nat) (pl : PlannedProgram) (prog : MuxerProgramConfig) : Prop :=
  planned_programs plan !! n = Some pl /\ programs c !! n = Some prog /\ program_planned m prog (slot pl) (Z.of_nat n) pl.

Lemma planned_pl n pl : planned_programs plan !! n = Some pl -> exists prog, planned_at n pl prog.
Proof.
  intros Hn. destruct (pl_programs _ _ _ Hp) as (S & _ & _ & Hf). destruct (Hf n pl Hn) as (prog & i & Hprog & _ & Hpp).
  exists prog. split_and!; try done. by rewrite (pp_slot _ _ _ _ _ Hpp).
Qed.

Lemma planned_prog n prog : programs c !! n = Some prog -> exists pl, planned_at n pl prog.
Proof.
  intros Hn. destruct (pl_programs _ _ _ Hp) as (S & _ & Hl & _).
  destruct (lookup_lt_is_Some_2 (planned_programs plan) n) as [pl Hpl]; [rewrite Hl; by eapply lookup_lt_Some|].
  destruct (planned_pl n pl Hpl) as (prog' & H). assert (prog' = prog) as -> by (destruct H as (_ & H & _); congruence). by exists pl.
Qed.

Lemma planned_slots : slots_chosen m c (map slot (planned_programs plan)).
Proof.
  destruct (pl_programs _ _ _ Hp) as (S & HS & Hl & Hf). assert (map slot (planned_programs plan) = S) as ->; [|done].
  apply list_eq. intros n. rewrite list_lookup_fmap. destruct (planned_programs plan !! n) as [pl|] eqn:Hn; cbn.
  - destruct (Hf n pl Hn) as (prog & i & _ & Hi & Hpp). by rewrite Hi, (pp_slot _ _ _ _ _ Hpp).
  - symmetry. apply lookup_ge_None. apply lookup_ge_None in Hn. rewrite (sc_length _ _ _ HS). lia.
Qed.

Lemma program_at n prog : programs c !! n = Some prog -> program_valid prog /\ program_typed prog.
Proof.
  intros Hn. pose proof (cv_each c (pl_config _ _ _ Hp)) as Hv. rewrite Forall_forall in Hv. rewrite Forall_forall in Ht.
  split; [apply Hv|apply Ht]; by eapply list_elem_of_lookup_2.
Qed.

(** A running program that goes on has its slot in the plan. *)
Lemma running_slot i s p : get (slots m) i = Some s -> live s = Some p ->
  program_number p ∈ map program_number (programs c) -> i ∈ map slot (planned_programs plan).
Proof.
  intros Hg Hl (q & Hq & Hin)%list_elem_of_fmap. apply list_elem_of_lookup in Hin as [n Hn].
  eapply list_elem_of_lookup_2, (sc_matched _ _ _ planned_slots n q); [done|]. apply slot_by_number_spec; [done|]. eauto.
Qed.

Lemma matched_slot prog i : is_matched m prog i = true -> exists s old, get (slots m) i = Some s /\ live s = Some old /\
  program_number old = program_number prog.
Proof. intros H%bool_decide_eq_true. by apply slot_by_number_spec in H. Qed.

Lemma matched_kept n pl prog : planned_at n pl prog -> is_matched m prog (slot pl) = true -> slot pl ∉ plan_removed_slots m c.
Proof.
  intros (_ & Hprog & _) (s & old & Hg & Hl & Hnum)%matched_slot Hr. apply removed_slots_spec in Hr as (s' & p' & Hg' & Hl' & Hno).
  simplify_eq. apply Hno. rewrite Hnum. apply list_elem_of_fmap_2. by eapply list_elem_of_lookup_2.
Qed.

(** The PIDs a reconfiguration frees. *)
Definition freed (pid : Z) : Prop := exists i s p, get (slots m) i = Some s /\ live s = Some p /\ pid ∈ map spec_pid (streams p) /\
  (i ∈ plan_removed_slots m c \/ exists n pl prog, planned_at n pl prog /\ slot pl = i /\ (pid ∉ map spec_pid (streams prog))).

Lemma freed_range pid : freed pid -> 0 <= pid <= 0x1FFF.
Proof.
  intros (i & s & p & Hg & Hl & (spec & -> & Hin)%list_elem_of_fmap & _).
  pose proof (spec_user p spec (proj1 (wf_program s (slot_wf_at m Hm i s Hg) p Hl)) Hin) as H. unfold user_pid in H. lia.
Qed.

(** The PIDs that streamed and are in no program of the new configuration. *)
Definition gone (pid : Z) : Prop :=
  pid ∈ flat_map stream_pids (live_programs (slots m)) /\ pid ∉ flat_map stream_pids (programs c).

#[global] Instance gone_dec pid : Decision (gone pid).
Proof. unfold gone. apply _. Defined.

Lemma gone_running pid : gone pid -> exists i s p, get (slots m) i = Some s /\ live s = Some p /\ pid ∈ map spec_pid (streams p) /\
  (i ∈ plan_removed_slots m c \/ exists n pl prog, planned_at n pl prog /\ slot pl = i /\ is_matched m prog i = true /\ (pid ∉ map spec_pid (streams prog))).
Proof.
  intros [(p & Hp' & Hpid)%list_elem_of_In%in_flat_map Hno]. apply list_elem_of_In in Hp', Hpid.
  apply list_elem_of_omap in Hp' as (s & Hs & Hl). apply elem_get in Hs as (i & Hg). exists i, s, p. do 3 (split; [done|]).
  destruct (decide (program_number p ∈ map program_number (programs c))) as [Hin|Hout]; [right|left; apply removed_slots_spec; eauto].
  apply list_elem_of_fmap in Hin as (prog & Hn & Hin). apply list_elem_of_lookup in Hin as [n Hj]. destruct (planned_prog n prog Hj) as (pl & Hat).
  assert (Hb : slot_by_number m !! program_number prog = Some i) by (apply slot_by_number_spec; [done|]; rewrite <- Hn; eauto).
  exists n, pl, prog. split; [done|]. pose proof (sc_matched _ _ _ planned_slots n prog i Hj Hb) as Hsl.
  destruct Hat as (Hpl & _). rewrite list_lookup_fmap, Hpl in Hsl. injection Hsl as Hsl. split; [done|]. split; [by apply bool_decide_eq_true|].
  intros Hx. apply Hno. apply list_elem_of_In, in_flat_map. exists prog. rewrite <- !list_elem_of_In. split; [by eapply list_elem_of_lookup_2|done].
Qed.

(** The slots after everything that goes has been tombstoned. *)
Record dropped (ss : list ProgramSlot) : Prop := {
  dr_len : zlen ss = zlen (slots m);
  dr_stamps : forall i, stamps_ok (base ss i);
  dr_dead : forall i, i ∉ map slot (planned_programs plan) -> dead (base ss i);
  dr_matched : forall n pl prog, planned_at n pl prog -> is_matched m prog (slot pl) = true ->
    exists s0, get (slots m) (slot pl) = Some s0 /\ cleared (removed_pids pl) s0 (base ss (slot pl));
}.

Lemma removed_placed n pl prog : planned_at n pl prog -> removed_pids pl <> [] ->
  exists s, get (slots m) (slot pl) = Some s /\ is_matched m prog (slot pl) = true /\ placed_ready s (removed_pids pl).
Proof.
  intros (Hn & Hprog & Hpp) Hne.
  assert (Hmt : is_matched m prog (slot pl) = true).
  { destruct (removed_pids pl) as [|pid l] eqn:Hr; [done|]. apply (pp_removed _ _ _ _ _ Hpp pid). rewrite Hr. left. }
  destruct (matched_slot _ _ Hmt) as (s & old & Hg & Hl & _). exists s. split_and!; try done. intros pid Hpid.
  apply (pp_removed _ _ _ _ _ Hpp) in Hpid as (_ & _ & s' & old' & Hg' & Hl' & (spec & -> & Hin)%list_elem_of_fmap).
  rewrite Hg in Hg'. injection Hg' as <-. rewrite Hl in Hl'. injection Hl' as <-.
  destruct (wf_placed s (slot_wf_at m Hm _ s Hg) old spec Hl Hin) as (w & Hw & He). exists (kind_of spec), w. split; [done|]. by eapply entry_range.
Qed.

Lemma drops_ok : exists ss1 rem1 ss2, (forall E, drop_slots (E:=E) (removed_slots plan) (slots m) = Ok (ss1, rem1)) /\
  (forall E, drop_streams (E:=E) (planned_programs plan) ss1 = Ok (ss2, flat_map removed_pids (planned_programs plan))) /\
  (forall pid, pid ∈ rem1 ++ flat_map removed_pids (planned_programs plan) -> freed pid) /\
  (forall pid, gone pid -> pid ∈ rem1 ++ flat_map removed_pids (planned_programs plan)) /\ dropped ss2.
Proof.
  rewrite (pl_removed _ _ _ Hp).
  destruct (drop_slots_ok (plan_removed_slots m c) (slots m)) as (ss1 & rem1 & H1 & Hz1 & Hg1 & Hr1);
    [by apply removed_slots_NoDup|intros i (s & p & Hg & Hl & _)%removed_slots_spec; eauto|].
  assert (Hst1 : forall i s, get ss1 i = Some s -> stamps_ok s).
  { intros i s. rewrite Hg1. destruct (get (slots m) i) as [s0|] eqn:Hg; [|done]. cbn. pose proof (wf_stamps s0 (slot_wf_at m Hm i s0 Hg)) as Hw.
    case_bool_decide; intros [= <-]; [by apply tombstone_ok|done]. }
  assert (Hkept : forall n pl prog, planned_at n pl prog -> is_matched m prog (slot pl) = true -> get ss1 (slot pl) = get (slots m) (slot pl)).
  { intros n pl prog Hat Hmt. rewrite Hg1, bool_decide_false by (by eapply matched_kept). by destruct (get (slots m) (slot pl)). }
  destruct (drop_streams_ok (planned_programs plan) ss1) as (ss2 & H2 & Hz2 & Hf2 & Ho2 & Hs2).
  { apply planned_slots. }
  { apply Forall_forall. intros s (i & Hg)%elem_get. by apply (Hst1 i s). }
  { intros pl [n Hn]%list_elem_of_lookup Hne. destruct (planned_pl n pl Hn) as (prog & Hat).
    destruct (removed_placed n pl prog Hat Hne) as (s & Hg & Hmt & Hr). exists s. by rewrite (Hkept n pl prog). }
  exists ss1, rem1, ss2. split_and!; try done.
  - intros pid [Hin|Hin]%elem_of_app.
    + apply Hr1 in Hin as (i & s & p & Hi & Hg & Hl & Hpid). exists i, s, p. split_and!; try done. by left.
    + apply list_elem_of_In, in_flat_map in Hin as (pl & Hpl & Hpid). apply list_elem_of_In, list_elem_of_lookup in Hpl as [n Hn].
      destruct (planned_pl n pl Hn) as (prog & Hat). pose proof Hat as (_ & _ & Hpp).
      apply list_elem_of_In in Hpid. apply (pp_removed _ _ _ _ _ Hpp) in Hpid.
      destruct Hpid as (Hmt & Hno & s & old & Hg & Hl & Hin).
      exists (slot pl), s, old. split_and!; try done. right. eauto 6.
  - intros pid (i & s & p & Hg & Hl & Hpid & Hor)%gone_running. apply elem_of_app. destruct Hor as [Hrem|(n & pl & prog & Hat & <- & Hmt & Hno)].
    + left. apply Hr1. by exists i, s, p.
    + right. destruct Hat as (Hn & Hprog & Hpp). apply list_elem_of_In, in_flat_map. exists pl. rewrite <- !list_elem_of_In.
      split; [by eapply list_elem_of_lookup_2|]. apply (pp_removed _ _ _ _ _ Hpp). split; [done|]. split; [done|]. by exists s, p.
  - split; [congruence| | |].
    + intros i. unfold base. destruct (get ss2 i) as [s|] eqn:Hg; [|apply empty_ok].
      destruct (decide (i ∈ map slot (planned_programs plan))) as [Hin|Hout]; [|rewrite Ho2 in Hg by done; by eapply Hst1].
      apply list_elem_of_fmap in Hin as (pl & -> & Hin). pose proof (get_Some _ _ _ Hg) as Hi. rewrite Hz2 in Hi.
      destruct (get_lt ss1 (slot pl) Hi) as [s1 Hs1]. destruct (Hs2 pl s1 Hin Hs1) as (s' & Hg' & Hcl). simplify_eq.
      eapply revec_stamps; [by eapply Hst1|apply Hcl|apply Hcl].
    + intros i Hout. unfold base. rewrite Ho2 by done. rewrite Hg1. destruct (get (slots m) i) as [s0|] eqn:Hg; [cbn|apply empty_ok].
      pose proof (slot_wf_at m Hm i s0 Hg) as Hw. case_bool_decide as Hrem; [by apply tombstone_ok, wf_stamps|].
      apply wf_dead; [done|]. destruct (live s0) as [p|] eqn:Hl; [|done]. exfalso.
      destruct (decide (program_number p ∈ map program_number (programs c))); [apply Hout; by eapply running_slot|].
      apply Hrem, removed_slots_spec. eauto.
    + intros n pl prog Hat Hmt. destruct (matched_slot _ _ Hmt) as (s & old & Hg & _). exists s. split; [done|].
      assert (Hs1 : get ss1 (slot pl) = Some s) by (by rewrite (Hkept n pl prog)).
      destruct (Hs2 pl s ltac:(eapply list_elem_of_lookup_2; apply Hat) Hs1) as (s' & Hg' & Hcl). unfold base. by rewrite Hg'.
Qed.

End apply.

End ApplyPlan.

(** * The reconfigured muxer *)
Module Reconfigured.
Import Common PesWriter TsCounters MuxTypes MuxState MuxHandles MuxSchedule MuxDescriptors MuxSlots MuxValidate ValidConfig ConfigTheorems
  MuxInv SlotView MuxWf Reconfigure LiveTables ProgramSlots StreamSlots ProgramPlan WholePlan SlotEdits PlaceStreams Drops ApplyProgram ApplyPlan.

Lemma traverse_ok {A B} (f : forall E, A -> res E B) (g : A -> B) l : (forall x E, x ∈ l -> f E x = Ok (g x)) ->
  forall E, traverse (f E) l = Ok (map g l).
Proof.
  intros H E. induction l as [|x l IH]; [done|]. cbn. rewrite H by left. rb. rewrite IH; [done|]. intros; apply H; by right.
Qed.

(** The live slots, when they are known to be those of [S]. *)
Lemma live_programs_perm ss S progs : NoDup S -> Forall2 (fun i p => exists s, get ss i = Some s /\ live s = Some p) S progs ->
  (forall i s p, get ss i = Some s -> live s = Some p -> i ∈ S) -> live_programs ss ≡ₚ progs.
Proof.
  intros Hn Hf Hin. rewrite <- (live_slots_programs ss 0). pose proof (Forall2_length _ _ _ Hf) as Hl.
  assert (Hz : map snd (zip S progs) = progs) by (apply snd_zip; lia). rewrite <- Hz.
  apply (Permutation_map snd). apply NoDup_Permutation.
  - eapply (NoDup_fmap_1 fst). apply live_slots_NoDup.
  - eapply (NoDup_fmap_1 fst). assert (fst <$> zip S progs = S) as -> by (apply fst_zip; lia). done.
  - intros [i p]. rewrite live_slots_from_in. split.
    + intros (s & _ & Hg & Hlv). rewrite Z.sub_0_r in Hg. pose proof (Hin i s p Hg Hlv) as [n HS]%list_elem_of_lookup.
      destruct (Forall2_lookup_l _ _ _ _ _ Hf HS) as (p' & Hp' & s' & Hg' & Hl'). simplify_eq.
      apply list_elem_of_lookup. exists n. apply lookup_zip_with_Some. eauto.
    + intros [n Hz']%list_elem_of_lookup. apply lookup_zip_with_Some in Hz' as (i' & p' & Heq & HS & Hp'). simplify_eq.
      destruct (Forall2_lookup_lr _ _ _ _ _ _ Hf HS Hp') as (s & Hg & Hlv). pose proof (get_Some _ _ _ Hg). exists s.
      rewrite Z.sub_0_r. split_and!; [lia|done..].
Qed.

Section apply.
Context (m : Muxer) (Hm : mux_wf m) (c : MuxerConfig) (Ht : Forall program_typed (programs c)).
Context (plan : ReconfigurePlan) (Hp : planned m c plan).

Definition continues (pl : PlannedProgram) : bool :=
  match get (programs c) (config_index pl) with Some prog => is_matched m prog (slot pl) | None => false end.

Lemma planned_index n pl prog : planned_at m c plan n pl prog -> get (programs c) (config_index pl) = Some prog.
Proof. intros (_ & Hn & Hpp). rewrite (pp_config _ _ _ _ _ Hpp), get_lookup, Nat2Z.id by lia. done. Qed.

Lemma continues_at n pl prog : planned_at m c plan n pl prog -> continues pl = is_matched m prog (slot pl).
Proof. intros Hat. unfold continues. by rewrite (planned_index n pl prog Hat). Qed.

Lemma matched_ok E : traverse (plan_matched (E:=E) m c) (planned_programs plan) = Ok (map continues (planned_programs plan)).
Proof.
  apply (traverse_ok (fun E => plan_matched m c)). intros pl E' [n Hn]%list_elem_of_lookup.
  destruct (planned_pl m c plan Hp n pl Hn) as (prog & Hat). unfold plan_matched, idx. rewrite (planned_index _ _ _ Hat). rb.
  rewrite (continues_at _ _ _ Hat). f_equal. unfold is_matched. apply bool_decide_ext. rewrite slot_by_number_spec by done.
  unfold slot_program_number. destruct (get (slots m) (slot pl)) as [s|]; [|naive_solver]. split.
  - destruct (live s) as [p|] eqn:Hl; [|done]. cbn. intros [= Hx]. eauto.
  - intros (s' & p & [= <-] & Hl & Hx). rewrite Hl. cbn. by rewrite Hx.
Qed.

Lemma all_ready ss : dropped m c plan ss ->
  Forall2 (next_ready c ss) (programs c) (zip (planned_programs plan) (map continues (planned_programs plan))).
Proof.
  intros Hd. destruct (pl_programs _ _ _ Hp) as (S & _ & Hlen & _).
  apply Forall2_same_length_lookup. split; [rewrite length_zip_with, length_map; lia|].
  intros n prog [pl mt] Hn Hz. apply lookup_zip_with_Some in Hz as (pl' & mt' & Heq & Hpl & Hmt). injection Heq as -> ->.
  rewrite list_lookup_fmap, Hpl in Hmt. cbn in Hmt. injection Hmt as <-.
  destruct (planned_prog m c plan Hp n prog Hn) as (pl0 & Hat). assert (pl0 = pl') as -> by (destruct Hat as (Hx & _); congruence).
  destruct (program_at m c Ht plan Hp n prog Hn) as [Hv Htp]. split; [by eapply planned_index|]. cbn [fst snd]. split.
  - pose proof (sc_range _ _ _ (planned_slots m c plan Hp)) as Hr. rewrite Forall_forall in Hr. apply Hr.
    apply list_elem_of_fmap_2. by eapply list_elem_of_lookup_2.
  - rewrite (continues_at _ _ _ Hat). eapply planned_ready; [done..|apply Hat|apply Hd|]. intros Hmt. by eapply (dr_matched _ _ _ _ Hd n).
Qed.

(** What the muxer is after its plan has been applied: per program ... *)
Record program_done (m' : Muxer) (pl : PlannedProgram) (prog : MuxerProgramConfig) (s' : ProgramSlot) : Prop := {
  pd_slot : get (slots m') (slot pl) = Some s';
  pd_live : live s' = Some prog;
  pd_stream : forall n spec x, streams prog !! n = Some spec -> planned_streams pl !! n = Some x ->
    entry s' (planned_kind x) (within x) = Some (state_of spec) /\
    cc_of (MuxState.counters m') (spec_pid spec) = if survivor x then cc_of (MuxState.counters m) (spec_pid spec) else 0;
  pd_matched : forall s0, continues pl = true -> get (slots m) (slot pl) = Some s0 -> pcr_last s' = pcr_last s0 /\
    pmt_version s' = if bool_decide (pmt_identity s' = pmt_identity s0) then pmt_version s0 else (pmt_version s0 + 1) mod 32;
  pd_started : continues pl = false -> pcr_last s' = None /\
    pmt_version s' = next_version (pmt_versions_by_pid m !! pmt_pid prog);
}.

(** ... and as a whole. *)
Record reconfigured (m' : Muxer) : Prop := {
  rc_wf : mux_wf m';
  rc_config : config m' = c;
  rc_output : queue m' = queue m /\ ts_packets_emitted m' = ts_packets_emitted m /\ ts_bytes_emitted m' = ts_bytes_emitted m /\
    pcr_interval_27mhz m' = pcr_interval_27mhz m /\ psi_interval_90khz m' = psi_interval_90khz m;
  rc_stats : stats_kept (per_stream m) (per_stream m');
  rc_codec : forall pid, stream_codec_counters m' !! pid = if bool_decide (gone m c pid) then None else stream_codec_counters m !! pid;
  rc_psi : Forall (fun s => psi_last s = None) (slots m');
  rc_pat : pat_version m' = if bool_decide (pat_entries m' = pat_entries m) then pat_version m else (pat_version m + 1) mod 32;
  rc_programs : forall n pl prog, planned_at m c plan n pl prog -> exists s', program_done m' pl prog s';
  rc_live : forall i s' prog, get (slots m') i = Some s' -> live s' = Some prog ->
    exists n pl, planned_at m c plan n pl prog /\ slot pl = i;
  rc_cc : forall pid, 0 <= pid < 8192 -> pid ∉ flat_map stream_pids (programs c) -> ~ freed m c plan pid ->
    cc_of (MuxState.counters m') pid = cc_of (MuxState.counters m) pid;
}.

Lemma survivor_not_freed n pl prog spec w : planned_at m c plan n pl prog -> is_matched m prog (slot pl) = true -> spec ∈ streams prog ->
  survives m prog (slot pl) spec w -> ~ freed m c plan (spec_pid spec).
Proof.
  intros Hat Hmt Hin (s & old & old_spec & Hg & Hl & _ & Hold & Hpid & _) (i & s' & p & Hg' & Hl' & Hpid' & Hor).
  apply list_elem_of_fmap in Hpid' as (spec' & Heq & Hspec').
  assert (H1 : live_pids m !! spec_pid spec = Some (slot pl, old, old_spec)) by (apply live_pids_spec; [done|]; eauto 6).
  assert (H2 : live_pids m !! spec_pid spec = Some (i, p, spec')) by (apply live_pids_spec; [done|]; eauto 6).
  rewrite H1 in H2. injection H2 as <- <- <-. destruct Hor as [Hr|(n' & pl' & prog' & Hat' & Hsl & Hno)].
  - by apply (matched_kept m Hm c plan n pl prog Hat Hmt).
  - pose proof (sc_distinct _ _ _ (planned_slots m c plan Hp)) as Hd.
    assert (Hx : map slot (planned_programs plan) !! n = Some (slot pl)) by (rewrite list_lookup_fmap; destruct Hat as (-> & _); done).
    assert (Hx' : map slot (planned_programs plan) !! n' = Some (slot pl)) by (rewrite list_lookup_fmap; destruct Hat' as (-> & _); by rewrite <- Hsl).
    rewrite (NoDup_lookup _ _ _ _ Hd Hx' Hx) in Hat'. destruct Hat as (_ & Hn & _), Hat' as (_ & Hn' & _). rewrite Hn in Hn'. injection Hn' as <-.
    apply Hno. by apply list_elem_of_fmap_2.
Qed.

(** What is freed is gone: an accepted plan moves no PID. *)
Lemma freed_gone pid : freed m c plan pid -> gone m c pid.
Proof.
  intros Hf. split.
  - destruct Hf as (i & s & p & Hg & Hl & Hpid & _). apply list_elem_of_In, in_flat_map. exists p. rewrite <- !list_elem_of_In.
    split; [|done]. apply list_elem_of_omap. exists s. split; [apply elem_get; by exists i|done].
  - intros (prog & Hin & Hpid)%list_elem_of_In%in_flat_map. apply list_elem_of_In in Hin, Hpid. apply list_elem_of_fmap in Hpid as (spec & -> & Hspec).
    apply list_elem_of_lookup in Hin as [n Hn]. destruct (planned_prog m c plan Hp n prog Hn) as (pl & Hat). pose proof Hat as (_ & _ & Hpp).
    pose proof Hspec as [j Hj]%list_elem_of_lookup. destruct (Forall2_lookup_l _ _ _ _ _ (pp_streams _ _ _ _ _ Hpp) Hj) as (x & _ & _ & Hsv).
    destruct (survivor x); [by eapply (survivor_not_freed n pl prog spec (within x)); [..|exact Hf]; try done; apply Hsv|].
    destruct Hf as (i & s & p & Hg & Hl & (spec' & Heq & Hin')%list_elem_of_fmap & _).
    assert (H1 : live_pids m !! spec_pid spec = Some (i, p, spec')) by (apply live_pids_spec; [done|]; eauto 6). congruence.
Qed.

Lemma continued_version n pl prog ss : planned_at m c plan n pl prog -> dropped m c plan ss -> continues pl = true ->
  pmt_versions_by_pid m !! pmt_pid prog = Some (pmt_version (base ss (slot pl))).
Proof.
  intros Hat Hd Hmt. pose proof Hat as (_ & _ & Hpp). rewrite (continues_at _ _ _ Hat) in Hmt.
  destruct (dr_matched _ _ _ _ Hd n pl prog Hat Hmt) as (s0 & Hg0 & Hcl). destruct (matched_slot m Hm _ _ Hmt) as (s0' & old & Hg0' & Hl & _).
  rewrite Hg0 in Hg0'. injection Hg0' as <-. destruct (cl_revec _ _ _ Hcl) as (v & k & a & b & d & p & ->). cbn.
  rewrite <- (pp_pmt _ _ _ _ _ Hpp s0 old Hmt Hg0 Hl). apply (wf_versions m Hm); [apply elem_get; eauto|done].
Qed.

(** The result of applying a program, read against the muxer before. *)
Lemma settled_done n pl prog ss c1 c2 v2 s1 m' : planned_at m c plan n pl prog -> dropped m c plan ss ->
  (forall pid, 0 <= pid < 8192 -> ~ freed m c plan pid -> cc_of c1 pid = cc_of (MuxState.counters m) pid) ->
  settled prog pl (continues pl) (base ss (slot pl)) s1 c1 c2 (pmt_versions_by_pid m) v2 ->
  MuxState.counters m' = c2 -> get (slots m') (slot pl) = Some (set_psi_last s1 None) ->
  program_done m' pl prog (set_psi_last s1 None).
Proof.
  intros Hat Hd Hcc Hs Hc' Hg. pose proof Hat as (Hn & Hprog & Hpp). destruct (program_at m c Ht plan Hp n prog Hprog) as [Hv _].
  split; [done|apply Hs| | |].
  - intros j spec x Hj Hx. destruct (st_entry _ _ _ _ _ _ _ _ _ Hs j spec x Hj Hx) as [He Hcx].
    split; [rewrite <- He; by destruct (planned_kind x)|]. rewrite Hc', Hcx.
    destruct (Forall2_lookup_lr _ _ _ _ _ _ (pp_streams _ _ _ _ _ Hpp) Hj Hx) as [_ Hsv]. destruct (survivor x); [|done].
    destruct Hsv as [Hmt Hsv]. assert (Hin : spec ∈ streams prog) by (by eapply list_elem_of_lookup_2). apply Hcc.
    + eapply valid_pid; [exact Hv|]. by apply list_elem_of_fmap_2.
    + by eapply survivor_not_freed.
  - intros s0 Hmt Hg0. rewrite (continues_at _ _ _ Hat) in Hmt. destruct (dr_matched _ _ _ _ Hd n pl prog Hat Hmt) as (s0' & Hg0' & Hcl).
    rewrite Hg0 in Hg0'. injection Hg0' as <-. destruct (cl_revec _ _ _ Hcl) as (v & k & a & b & d & p & Heq).
    pose proof (continued_version n pl prog ss Hat Hd ltac:(by rewrite (continues_at _ _ _ Hat))) as Hver. rewrite Heq in Hver. cbn in Hver.
    pose proof (st_version _ _ _ _ _ _ _ _ _ Hs) as H. pose proof (st_pcr _ _ _ _ _ _ _ _ _ Hs) as H'.
    rewrite (continues_at _ _ _ Hat), Hmt, Heq in H, H'. unfold pmt_changed in H. cbn in H, H'. rewrite Hver in H. cbn. rewrite H, H'.
    split; [done|]. by case_bool_decide.
  - intros Hmt. pose proof (st_version _ _ _ _ _ _ _ _ _ Hs) as H. pose proof (st_pcr _ _ _ _ _ _ _ _ _ Hs) as H'.
    rewrite Hmt in H, H'. done.
Qed.

(** The slots once every program is applied. *)
Record all_applied (ss ss' : list ProgramSlot) (c1 c2 : TsWriter.ContinuityCounters) (v2 : gmap Z Z) : Prop := {
  aa_count : zlen ss' <= 16;
  aa_other : forall i s, get ss' i = Some s -> i ∉ map slot (planned_programs plan) -> s = base ss i;
  aa_program : forall n pl prog, planned_at m c plan n pl prog -> exists s', get ss' (slot pl) = Some s' /\
    settled prog pl (continues pl) (base ss (slot pl)) s' c1 c2 (pmt_versions_by_pid m) v2;
}.

Section slots.
Context (ss ss' : list ProgramSlot) (c1 c2 : TsWriter.ContinuityCounters) (v2 : gmap Z Z).
Context (Hd : dropped m c plan ss) (Ha : all_applied ss ss' c1 c2 v2).

(** A slot of the result is a planned program's or dead. *)
Lemma slot_cases i s : get ss' i = Some s ->
  (exists n pl prog, planned_at m c plan n pl prog /\ slot pl = i /\
     settled prog pl (continues pl) (base ss i) s c1 c2 (pmt_versions_by_pid m) v2) \/
  (i ∉ map slot (planned_programs plan)) /\ stamps_ok s /\ dead s.
Proof.
  intros Hg. destruct (decide (i ∈ map slot (planned_programs plan))) as [Hin|Hout].
  - left. apply list_elem_of_fmap in Hin as (pl & -> & [n Hn]%list_elem_of_lookup). destruct (planned_pl m c plan Hp n pl Hn) as (prog & Hat).
    destruct (aa_program _ _ _ _ _ Ha n pl prog Hat) as (s' & Hg' & Hs). rewrite Hg in Hg'. injection Hg' as <-. eauto 6.
  - right. rewrite (aa_other _ _ _ _ _ Ha i s Hg Hout). split_and!; [done|apply Hd|by apply Hd].
Qed.

Lemma result_slots_wf : Forall slot_wf ss'.
Proof.
  apply Forall_forall. intros s (i & Hg)%elem_get. destruct (slot_cases i s Hg) as [(n & pl & prog & _ & _ & Hs)|(_ & Hst & Hdd)]; [apply Hs|by apply dead_wf].
Qed.

Lemma result_order : Forall2 (fun i p => exists s, get ss' i = Some s /\ live s = Some p) (map slot (planned_programs plan)) (programs c).
Proof.
  apply Forall2_same_length_lookup. split; [apply (sc_length _ _ _ (planned_slots m c plan Hp))|]. intros n i prog Hi Hn.
  destruct (planned_prog m c plan Hp n prog Hn) as (pl & Hat). destruct (aa_program _ _ _ _ _ Ha n pl prog Hat) as (s & Hg & Hs).
  rewrite list_lookup_fmap in Hi. destruct Hat as (Hpl & _). rewrite Hpl in Hi. injection Hi as <-. exists s. split; [done|apply Hs].
Qed.

Lemma result_programs : live_programs ss' ≡ₚ programs c.
Proof.
  apply (live_programs_perm ss' (map slot (planned_programs plan))); [apply (planned_slots m c plan Hp)|apply result_order|].
  intros i s p Hg Hl. destruct (slot_cases i s Hg) as [(n & pl & prog & (Hn & _) & <- & _)|(_ & _ & Hx & _)]; [|congruence].
  apply list_elem_of_fmap_2. by eapply list_elem_of_lookup_2.
Qed.

Lemma result_versions s p : s ∈ ss' -> live s = Some p -> v2 !! pmt_pid p = Some (pmt_version s).
Proof.
  intros (i & Hg)%elem_get Hl. destruct (slot_cases i s Hg) as [(n & pl & prog & Hat & <- & Hs)|(_ & _ & Hx & _)]; [|congruence].
  rewrite (st_live _ _ _ _ _ _ _ _ _ Hs) in Hl. injection Hl as <-.
  rewrite (st_versions _ _ _ _ _ _ _ _ _ Hs). pose proof (st_version _ _ _ _ _ _ _ _ _ Hs) as Hver.
  destruct (pmt_changed _ _ _) eqn:Hch; [done|]. rewrite Hver. eapply continued_version; [done..|].
  unfold pmt_changed in Hch. by destruct (continues pl).
Qed.

End slots.

Lemma get_psi_none (l : list ProgramSlot) i : get (map (fun s => set_psi_last s None) l) i = (fun s => set_psi_last s None) <$> get l i.
Proof. rewrite Announced.get_map. done. Qed.

Lemma live_psi_none l : live_programs (map (fun s => set_psi_last s None) l) = live_programs l.
Proof. unfold live_programs. induction l as [|s l IH]; [done|]. cbn in *. by rewrite IH. Qed.

Lemma psi_none_wf s : slot_wf s -> slot_wf (set_psi_last s None).
Proof. intros []. by split. Qed.

(** The result of [apply_reconfigure], assembled from its parts. *)
Definition finished (ss' : list ProgramSlot) c2 stats scc v2 : Muxer :=
  let m1 := set_order (set_tables m ss' c2 stats scc v2) (map slot (planned_programs plan)) in
  set_pat (request_psi m1) c (if bool_decide (pat_entries m1 = pat_entries m) then pat_version m else (pat_version m + 1) mod 32)
    (pat_entries m1).

Lemma finished_wf ss ss' c1 c2 stats scc v2 : dropped m c plan ss -> all_applied ss ss' c1 c2 v2 -> counters_ok c2 ->
  (forall pid v, v2 !! pid = Some v -> 0 <= v < 32) -> mux_wf (finished ss' c2 stats scc v2).
Proof.
  intros Hd Ha Hc Hv. unfold finished. pose proof (result_programs _ _ _ _ _ Hd Ha) as Hperm.
  pose proof (pl_config _ _ _ Hp) as Hcv.
  split; cbn [slots set_pat request_psi set_slots update set_order set_tables config program_order queue MuxState.counters pat_version
    pat_identity pmt_versions_by_pid]; try apply Hm; try done; rewrite ?live_psi_none.
  - apply Forall_fmap. eapply Forall_impl; [by eapply result_slots_wf|]. apply psi_none_wf.
  - unfold zlen. rewrite length_map. apply Ha.
  - rewrite Hperm. apply Hcv.
  - rewrite Hperm. apply Hcv.
  - eapply Forall2_impl; [by eapply result_order|]. intros i p (s & Hg & Hl). exists (set_psi_last s None).
    rewrite get_psi_none, Hg. done.
  - pose proof (wf_pat_version m Hm). case_bool_decide; [done|]. apply Z.mod_pos_bound. lia.
  - rewrite !pat_entries_live. cbn [slots set_pat request_psi set_slots update set_order set_tables]. by rewrite live_psi_none.
  - intros s p Hin Hl. apply list_elem_of_fmap in Hin as (s0 & -> & Hin). by eapply (result_versions _ _ _ _ _ Hd Ha s0).
Qed.

Lemma apply_parts : exists ss ss' c1 c2 stats scc v2,
  (forall E, apply_reconfigure (E:=E) m plan c = Ok (finished ss' c2 stats scc v2)) /\ dropped m c plan ss /\
  all_applied ss ss' c1 c2 v2 /\ others_kept (programs c) c1 c2 (pmt_versions_by_pid m) v2 /\ stats_kept (per_stream m) stats /\
  (forall pid, scc !! pid = if bool_decide (gone m c pid) then None else stream_codec_counters m !! pid) /\
  forall pid, 0 <= pid < 8192 -> ~ freed m c plan pid -> cc_of c1 pid = cc_of (MuxState.counters m) pid.
Proof.
  destruct (drops_ok m Hm c plan Hp) as (ss1 & rem1 & ss & Hd1 & Hd2 & Hfr & Hgo & Hd). set (rem2 := flat_map removed_pids (planned_programs plan)) in *.
  destruct (reset_pids_ok (rem1 ++ rem2) (MuxState.counters m) (stream_codec_counters m)) as (c1 & scc & Hr & Hc1 & Hcc1 & Hscc);
    [apply Forall_forall; intros pid Hin; by eapply freed_range, Hfr|apply Hm|].
  set (m1 := set_order (set_tables m ss c1 (per_stream m) scc (pmt_versions_by_pid m)) (map slot (planned_programs plan))).
  pose proof (sc_distinct _ _ _ (planned_slots m c plan Hp)) as Hns.
  assert (Hzip : map (fun pm => slot pm.1) (zip (planned_programs plan) (map continues (planned_programs plan))) = map slot (planned_programs plan)).
  { rewrite <- (map_map fst slot). f_equal. apply fst_zip. by rewrite length_map. }
  destruct (apply_programs_ok c (programs c) (zip (planned_programs plan) (map continues (planned_programs plan))) m1)
    as (ss' & c2 & stats & v2 & Ha & Hz & Hk & Hks & Hother & Hall);
    [by apply all_ready|by rewrite Hzip|apply (pl_config _ _ _ Hp)|done|apply Hm|cbn; rewrite (dr_len _ _ _ _ Hd); apply Hm|].
  rewrite Hzip in Hother. cbn [slots m1 set_order set_tables MuxState.counters pmt_versions_by_pid stream_codec_counters] in *.
  assert (Haa : all_applied ss ss' c1 c2 v2).
  { split; [lia|done|]. intros n pl prog Hat. apply (Hall n prog (pl, continues pl)); [apply Hat|]. apply lookup_zip_with_Some.
    exists pl, (continues pl). split; [done|]. destruct Hat as (Hn & _). split; [done|]. by rewrite list_lookup_fmap, Hn. }
  exists ss, ss', c1, c2, stats, scc, v2. split_and!; try done; [| |intros pid Hpid Hnf; apply Hcc1; auto].
  2:{ intros pid. rewrite Hscc. repeat case_bool_decide; try done; [by destruct H0; apply freed_gone, Hfr|by destruct H; apply Hgo]. }
  intros E. unfold apply_reconfigure. rewrite matched_ok. rb. rewrite Hd1. rb. rewrite Hd2. rb. rewrite Hr. rb. fold m1. rewrite Ha. rb.
  unfold finished. cbn [pat_identity set_tables m1 set_order pat_version]. rewrite (wf_pat_identity m Hm).
  case_bool_decide as Hpe; rb; [by rewrite bool_decide_true by done|]. rewrite bool_decide_false by done.
  pose proof (wf_pat_version m Hm). unfold chk_u8, checked. rewrite (proj2 (Z.leb_le _ _)), (proj2 (Z.ltb_lt _ _)) by lia. rb.
  by rewrite land_31.
Qed.

Lemma apply_ok : exists m', (forall E, apply_reconfigure (E:=E) m plan c = Ok m') /\ reconfigured m'.
Proof.
  destruct apply_parts as (ss & ss' & c1 & c2 & stats & scc & v2 & Ha & Hd & Haa & Hk & Hks & Hscc & Hcc).
  exists (finished ss' c2 stats scc v2). split; [done|].
  assert (Hwf : mux_wf (finished ss' c2 stats scc v2)) by (eapply finished_wf; [done..|apply Hk|apply Hk]).
  split; try done.
  - cbn. apply Forall_fmap, Forall_forall. done.
  - rewrite <- (wf_pat_identity _ Hwf). done.
  - intros n pl prog Hat. destruct (aa_program _ _ _ _ _ Haa n pl prog Hat) as (s' & Hg & Hs). exists (set_psi_last s' None).
    eapply settled_done; [done..|exact Hs|done|]. cbn. by rewrite get_psi_none, Hg.
  - intros i s' prog Hg Hl. cbn in Hg. rewrite get_psi_none in Hg. destruct (get ss' i) as [s|] eqn:Hs; [|done]. injection Hg as <-.
    destruct (slot_cases _ _ _ _ _ Hd Haa i s Hs) as [(n & pl & prog' & Hat & Hsl & Hst)|(_ & _ & Hx & _)]; [|cbn in Hl; congruence].
    cbn in Hl. rewrite (st_live _ _ _ _ _ _ _ _ _ Hst) in Hl. injection Hl as <-. eauto.
  - intros pid Hpid Hno Hnf. cbn. rewrite (ok_cc _ _ _ _ _ Hk) by done. by apply Hcc.
Qed.

End apply.
End Reconfigured.
