(* ===== verification/MuxerLife.v ===== *)
(** The life of a multiplexer: construction, then any sequence of pushes, pulls,
    PSI requests and reconfigurations. *)
From Stdlib Require Import ZArith Lia Bool String.
From stdpp Require Import base list list_numbers gmap.
From S2P Require Import Prelude Common TsPacket PesWriter PsiParse PsiWriter Descriptors Muxer MuxerConfig ConfigTheorems MuxerBuild MuxerTheorems MuxerHandlers MuxerSession MuxerWf Reconfigure ReconfigurePlan ReconfigureApply.

(** * Reconfiguration *)
Module ReconfigureTheorems.
Import Common PesWriter TsCounters MuxTypes MuxState MuxHandles MuxSchedule MuxDescriptors MuxSlots MuxValidate ValidConfig ConfigTheorems
  MuxInv SlotView MuxWf Reconfigure LiveTables ProgramSlots StreamSlots ProgramPlan WholePlan SlotEdits PlaceStreams Drops ApplyProgram ApplyPlan
  Reconfigured.

(** The two outcomes of a call. *)
Lemma reconfigure_cases m c : mux_wf m -> Forall program_typed (programs c) ->
  (exists e, reconfigure m c = (Err e, m)) \/
  (exists plan m', reconfigure m c = (Ok tt, m') /\ planned m c plan /\ reconfigured m c plan m').
Proof.
  intros Hm Ht. unfold reconfigure. pose proof (plan_ok m c Hm) as Hp.
  destruct (plan_reconfigure m c) as [plan|e|]; [|left; by exists e|done].
  destruct (apply_ok m Hm c Ht plan Hp) as (m' & Ha & Hr). right. exists plan, m'. by rewrite Ha.
Qed.

Lemma reconfigured_of m c m' : mux_wf m -> Forall program_typed (programs c) -> reconfigure m c = (Ok tt, m') ->
  exists plan, planned m c plan /\ reconfigured m c plan m'.
Proof.
  intros Hm Ht Hr. destruct (reconfigure_cases m c Hm Ht) as [(e & He)|(plan & m2 & He & Hp & Hd)]; [congruence|].
  rewrite Hr in He. injection He as <-. by exists plan.
Qed.

(** A running program found again in the new configuration. *)
Lemma continued_at m c plan i s old prog : mux_wf m -> planned m c plan -> get (slots m) i = Some s -> live s = Some old ->
  prog ∈ programs c -> program_number prog = program_number old ->
  exists n pl, planned_at m c plan n pl prog /\ slot pl = i /\ is_matched m prog i = true.
Proof.
  intros Hm Hp Hg Hl Hin Hn. apply list_elem_of_lookup in Hin as [n Hj]. destruct (planned_prog m c plan Hp n prog Hj) as (pl & Hat).
  assert (Hb : slot_by_number m !! program_number prog = Some i) by (apply slot_by_number_spec; [done|]; rewrite Hn; eauto).
  exists n, pl. split; [done|]. pose proof (sc_matched _ _ _ (planned_slots m c plan Hp) n prog i Hj Hb) as Hs.
  destruct Hat as (Hpl & _). rewrite list_lookup_fmap, Hpl in Hs. injection Hs as Hs. split; [done|]. by apply bool_decide_eq_true.
Qed.

(** The planned position of a stream that was running. *)
Lemma survivor_at m plan c n pl prog i s k w st spec : mux_wf m -> planned_at m c plan n pl prog -> slot pl = i ->
  get (slots m) i = Some s -> entry s k w = Some st -> spec ∈ streams prog -> spec_pid spec = state_pid st ->
  exists j x, streams prog !! j = Some spec /\ planned_streams pl !! j = Some x /\ survivor x = true /\
    planned_kind x = k /\ within x = w.
Proof.
  intros Hm (Hn & Hprog & Hpp) <- Hg He [j Hj]%list_elem_of_lookup Hpid.
  destruct (wf_entry s (slot_wf_at m Hm _ s Hg) k w st He) as (old & old_spec & Hl & Hin & <- & Hpl). rewrite state_of_pid in Hpid.
  destruct (Forall2_lookup_l _ _ _ _ _ (pp_streams _ _ _ _ _ Hpp) Hj) as (x & Hx & Hk & Hsv). exists j, x. split; [done|]. split; [done|].
  destruct (survivor x).
  - destruct Hsv as (_ & s0 & old0 & os0 & Hg0 & _ & _ & _ & _ & _ & Hpl0). rewrite Hg in Hg0. injection Hg0 as <-.
    rewrite Hpid, Hpl in Hpl0. injection Hpl0 as H1 H2. split; [done|]. by rewrite Hk.
  - assert (Hlp : live_pids m !! spec_pid spec = Some (slot pl, old, old_spec)) by (apply live_pids_spec; [done|]; eauto 6). congruence.
Qed.

(** The planned position of a stream of the new muxer. *)
Lemma planned_entry m m' c plan n pl prog s' k w st : mux_wf m' -> planned_at m c plan n pl prog -> program_done m c m' pl prog s' ->
  entry s' k w = Some st -> exists j spec x, streams prog !! j = Some spec /\ planned_streams pl !! j = Some x /\
    state_of spec = st /\ planned_kind x = k /\ within x = w.
Proof.
  intros Hm' (Hn & Hprog & Hpp) Hd He. pose proof (slot_wf_at m' Hm' _ s' (pd_slot _ _ _ _ _ _ Hd)) as Hwf.
  destruct (wf_entry s' Hwf k w st He) as (prog' & spec & Hl & [j Hj]%list_elem_of_lookup & <- & Hpl).
  rewrite (pd_live _ _ _ _ _ _ Hd) in Hl. injection Hl as <-.
  destruct (Forall2_lookup_l _ _ _ _ _ (pp_streams _ _ _ _ _ Hpp) Hj) as (x & Hx & _). exists j, spec, x. split; [done|]. split; [done|]. split; [done|].
  destruct (pd_stream _ _ _ _ _ _ Hd j spec x Hj Hx) as [Hex _]. destruct (wf_entry s' Hwf _ _ _ Hex) as (p2 & spec2 & _ & _ & Heq & Hpl2).
  assert (Hpid : spec_pid spec2 = spec_pid spec) by (rewrite <- !state_of_pid; by f_equal). rewrite Hpid, Hpl in Hpl2. by injection Hpl2 as -> ->.
Qed.

(** C11: reconfiguring a well-formed muxer never panics. A refused call leaves the
    muxer exactly as it was. An accepted one had a valid configuration that keeps
    the PCR and PSI intervals, the queue capacity and the AV1 carriage; it gives a
    well-formed muxer on that configuration that keeps the queued packets, the
    totals of packets and bytes and every stream's item, byte and discontinuity
    counts, keeps the codec counters of every PID but those that streamed and are
    gone from the configuration, which lose them, and has PAT and PMTs due at the
    next push. *)
Theorem reconfigure_safe (m : Muxer) (c : MuxerConfig) : mux_wf m -> Forall program_typed (programs c) ->
  let '(r, m') := reconfigure m c in
  match r with
  | Panic => False
  | Err _ => m' = m
  | Ok _ => config_valid c /\ pcr_interval_ms c = pcr_interval_ms (config m) /\ psi_interval_ms c = psi_interval_ms (config m) /\
      buffer_packets c = buffer_packets (config m) /\ av1_carriage c = av1_carriage (config m) /\
      mux_wf m' /\ config m' = c /\ queue m' = queue m /\
      ts_packets_emitted m' = ts_packets_emitted m /\ ts_bytes_emitted m' = ts_bytes_emitted m /\ stats_kept (per_stream m) (per_stream m') /\
      (forall pid, stream_codec_counters m' !! pid = if bool_decide (gone m c pid) then None else stream_codec_counters m !! pid) /\
      Forall (fun s => psi_last s = None) (slots m')
  end.
Proof.
  intros Hm Ht. destruct (reconfigure_cases m c Hm Ht) as [(e & ->)|(plan & m' & -> & Hp & [])]; [done|].
  destruct (pl_global _ _ _ Hp) as (? & ? & ? & ?). split_and!; try done; [apply Hp|apply rc_output0..].
Qed.

(** C12: a stream that goes on streaming keeps its identity: if the new
    configuration has a program of the same number with a stream on the same PID,
    the handle (slot, kind, index) that named the stream before still names it,
    with its new parameters, and its continuity counter runs on. *)
Theorem reconfigure_keeps_handles (m : Muxer) (c : MuxerConfig) (m' : Muxer) (i w : Z) (k : MuxStreamKind) (s : ProgramSlot)
    (st : StreamState) (old prog : MuxerProgramConfig) (spec : StreamSpec) :
  mux_wf m -> Forall program_typed (programs c) -> reconfigure m c = (Ok tt, m') ->
  get (slots m) i = Some s -> live s = Some old -> entry s k w = Some st ->
  prog ∈ programs c -> program_number prog = program_number old -> spec ∈ streams prog -> spec_pid spec = state_pid st ->
  exists s', get (slots m') i = Some s' /\ live s' = Some prog /\ entry s' k w = Some (state_of spec) /\
    cc_of (MuxState.counters m') (spec_pid spec) = cc_of (MuxState.counters m) (spec_pid spec).
Proof.
  intros Hm Ht Hr Hg Hl He Hin Hn Hsp Hpid. destruct (reconfigured_of m c m' Hm Ht Hr) as (plan & Hp & Hd).
  destruct (continued_at m c plan i s old prog Hm Hp Hg Hl Hin Hn) as (n & pl & Hat & Hsl & Hmt).
  destruct (survivor_at m plan c n pl prog i s k w st spec Hm Hat Hsl Hg He Hsp Hpid) as (j & x & Hj & Hx & Hsv & <- & <-).
  destruct (rc_programs _ _ _ _ Hd n pl prog Hat) as (s' & Hs'). destruct (pd_stream _ _ _ _ _ _ Hs' j spec x Hj Hx) as [Hent Hcc].
  rewrite Hsv in Hcc. exists s'. rewrite <- Hsl. split; [apply Hs'|]. split; [apply Hs'|]. done.
Qed.

(** C13: handles are never crossed: a handle that named a stream on one PID names
    after a reconfiguration that PID again, nothing, or a stream on a PID that no
    program was streaming on, whose continuity counter starts at zero. *)
Theorem reconfigure_never_crosses (m : Muxer) (c : MuxerConfig) (m' : Muxer) (i w : Z) (k : MuxStreamKind) (s s' : ProgramSlot)
    (st st' : StreamState) :
  mux_wf m -> Forall program_typed (programs c) -> reconfigure m c = (Ok tt, m') ->
  get (slots m) i = Some s -> entry s k w = Some st -> get (slots m') i = Some s' -> entry s' k w = Some st' ->
  state_pid st' = state_pid st \/
  (forall p, p ∈ live_programs (slots m) -> state_pid st' ∉ stream_pids p) /\ cc_of (MuxState.counters m') (state_pid st') = 0.
Proof.
  intros Hm Ht Hr Hg He Hg' He'. destruct (reconfigured_of m c m' Hm Ht Hr) as (plan & Hp & Hd). pose proof (rc_wf _ _ _ _ Hd) as Hm'.
  destruct (wf_entry s' (slot_wf_at m' Hm' i s' Hg') k w st' He') as (prog & spec0 & Hl' & _).
  destruct (wf_entry s (slot_wf_at m Hm i s Hg) k w st He) as (old & old_spec & Hl & Hin & Hst & Hpl).
  destruct (rc_live _ _ _ _ Hd i s' prog Hg' Hl') as (n & pl & Hat & Hsl). destruct (rc_programs _ _ _ _ Hd n pl prog Hat) as (s2 & Hs2).
  assert (s2 = s') as -> by (pose proof (pd_slot _ _ _ _ _ _ Hs2) as H; rewrite Hsl, Hg' in H; by injection H).
  destruct (planned_entry m m' c plan n pl prog s' k w st' Hm' Hat Hs2 He') as (j & spec & x & Hj & Hx & <- & <- & <-).
  destruct (pd_stream _ _ _ _ _ _ Hs2 j spec x Hj Hx) as [_ Hcc]. pose proof Hat as (_ & _ & Hpp).
  destruct (Forall2_lookup_lr _ _ _ _ _ _ (pp_streams _ _ _ _ _ Hpp) Hj Hx) as [Hk Hsv]. rewrite state_of_pid. destruct (survivor x).
  - left. destruct Hsv as [_ Hsv]. destruct (survives_entry m Hm prog _ spec _ Hsv) as (s0 & st0 & Hg0 & He0 & Hp0).
    rewrite Hsl, Hg in Hg0. injection Hg0 as <-. rewrite <- Hk, He in He0. injection He0 as <-. done.
  - right. split; [|done]. intros p (s0 & [i0 Hg0]%elem_get & Hl0)%list_elem_of_omap (spec1 & Heq & Hin1)%list_elem_of_fmap.
    assert (Hlp : live_pids m !! spec_pid spec = Some (i0, p, spec1)) by (apply live_pids_spec; [done|]; eauto 6). congruence.
Qed.

End ReconfigureTheorems.

(** * Table versions *)
Module PsiVersions.
Import Common PesWriter TsCounters MuxTypes PsiWriter PmtRoundtrip MuxState MuxHandles MuxSchedule MuxDescriptors MuxSlots MuxValidate ValidConfig ConfigTheorems
  MuxInv SlotView MuxWf Reconfigure LiveTables ProgramSlots StreamSlots ProgramPlan WholePlan SlotEdits PlaceStreams Drops ApplyProgram ApplyPlan
  Reconfigured ReconfigureTheorems.

#[global] Instance PmtStreamEntry_eq_dec : EqDecision PmtStreamEntry.
Proof. solve_decision. Defined.

(** What a PMT says beside its program number and version. *)
Definition pmt_content (prog : MuxerProgramConfig) (s : ProgramSlot) : Z * list Z * list PmtStreamEntry :=
  (MuxState.pcr_pid s, concat (program_descriptors prog), zip_with pmt_entry (streams prog) (pmt_descriptor_cache s)).

Definition key_entry (e : PmtStreamEntry) : list Z :=
  [entry_stream_type e] ++ be16 (entry_pid e) ++ be32 (zlen (entry_descriptors e)) ++ entry_descriptors e.

Definition small_entry (e : PmtStreamEntry) : Prop := 0 <= entry_pid e < 65536 /\ zlen (entry_descriptors e) < 2 ^ 32.

Lemma be16_inj x y : 0 <= x < 65536 -> 0 <= y < 65536 -> be16 x = be16 y -> x = y.
Proof. intros Hx Hy [= H1 H2]. rewrite <- (from_be16_be16 x Hx), <- (from_be16_be16 y Hy). congruence. Qed.

Lemma be32_inj x y : 0 <= x < 2 ^ 32 -> 0 <= y < 2 ^ 32 -> be32 x = be32 y -> x = y.
Proof. intros Hx Hy [= H1 H2 H3 H4]. rewrite <- (from_be32_be32 x Hx), <- (from_be32_be32 y Hy). congruence. Qed.

(** Length-prefixed blocks are self-delimiting. *)
Lemma block_inj (d d' : list Z) r r' : zlen d < 2 ^ 32 -> zlen d' < 2 ^ 32 ->
  be32 (zlen d) ++ d ++ r = be32 (zlen d') ++ d' ++ r' -> d = d' /\ r = r'.
Proof.
  intros Hd Hd' H. apply app_inj_1 in H as [Hl H]; [|done]. apply be32_inj in Hl; [|pose proof (zlen_nonneg d); lia|pose proof (zlen_nonneg d'); lia].
  apply app_inj_1 in H as [-> ->]; [done|]. unfold zlen in Hl. lia.
Qed.

Lemma key_entries_inj es : forall es', Forall small_entry es -> Forall small_entry es' ->
  concat (map key_entry es) = concat (map key_entry es') -> es = es'.
Proof.
  induction es as [|[t p d] es IH]; intros [|[t' p' d'] es'] Hs Hs' H; try done.
  apply Forall_cons in Hs as [[Hp Hd] Hs], Hs' as [[Hp' Hd'] Hs']. cbn [map concat] in H. unfold key_entry at 1 3 in H. cbn [entry_stream_type entry_pid entry_descriptors] in *.
  rewrite <- !app_assoc in H. apply app_inj_1 in H as [Ht H]; [|done]. apply app_inj_1 in H as [Hq H]; [|done].
  apply be16_inj in Hq; [|done..]. apply block_inj in H as [-> H]; [|done..]. injection Ht as ->. subst p'. f_equal. by apply IH.
Qed.

Lemma key_entries_zip specs : forall cache, zip_with (fun spec descriptors =>
    [pmt_stream_type_byte spec] ++ be16 (spec_pid spec) ++ be32 (zlen descriptors) ++ descriptors) specs cache =
  map key_entry (zip_with pmt_entry specs cache).
Proof. induction specs as [|s specs IH]; intros [|d cache]; try done. cbn [zip_with map]. by rewrite IH. Qed.

Lemma small_entries prog es : pmt_size prog es <= 183 -> Forall (fun e => 0 <= entry_pid e < 65536) es ->
  zlen (concat (program_descriptors prog)) < 2 ^ 32 /\ Forall small_entry es.
Proof.
  intros Hz Hp. unfold pmt_size in Hz. pose proof (zlen_nonneg (concat (program_descriptors prog))).
  pose proof (zlen_nonneg (concat (map es_bytes es))). split; [lia|].
  assert (Hb : zlen (concat (map es_bytes es)) < 2 ^ 32) by lia. clear Hz. induction Hp as [|e es He Hp IH]; [constructor|].
  cbn [map concat] in *. rewrite zlen_app in *. assert (Hz : zlen (es_bytes e) = 5 + zlen (entry_descriptors e)) by (unfold es_bytes; by rewrite zlen_app).
  pose proof (zlen_nonneg (concat (map es_bytes es))). pose proof (zlen_nonneg (entry_descriptors e)).
  constructor; [split; [done|lia]|]. apply IH; lia.
Qed.

Lemma content_small s prog : slot_wf s -> live s = Some prog ->
  let '(pcr, pds, es) := pmt_content prog s in
  pmt_identity s = be16 pcr ++ be32 (zlen pds) ++ pds ++ concat (map key_entry es) /\
  0 <= pcr < 65536 /\ zlen pds < 2 ^ 32 /\ Forall small_entry es.
Proof.
  intros Hw Hl. destruct (wf_program s Hw prog Hl) as [Hv _]. unfold pmt_content.
  destruct (pv_size prog Hv) as (cache & es & Hb & He & Hz). rewrite (wf_cache s Hw prog Hl) in Hb. injection Hb as <-.
  pose proof (wf_identity s Hw prog Hl) as Hid. unfold pmt_identity_key in Hid. cbv zeta in Hid.
  destruct (zlen (streams prog) =? zlen (pmt_descriptor_cache s)) eqn:Hlen; [|done]. apply Z.eqb_eq in Hlen. injection Hid as Hid.
  rewrite pmt_entries_zip in He by (unfold zlen in Hlen; lia). injection He as <-.
  pose proof (wf_pcr_pid s Hw) as Hpcr. unfold pid_ok in Hpcr. split.
  - rewrite <- Hid, <- key_entries_zip. done.
  - split; [lia|]. apply small_entries; [done|]. apply Forall_forall. intros e [j Hj]%list_elem_of_lookup.
    apply lookup_zip_with_Some in Hj as (spec & d & -> & Hs & _).
    pose proof (spec_user prog spec Hv ltac:(by eapply list_elem_of_lookup_2)) as Hu. unfold user_pid in Hu. cbn. lia.
Qed.

Lemma identity_content s s' prog prog' : slot_wf s -> slot_wf s' -> live s = Some prog -> live s' = Some prog' ->
  pmt_identity s = pmt_identity s' <-> pmt_content prog s = pmt_content prog' s'.
Proof.
  intros Hw Hw' Hl Hl'. pose proof (content_small s prog Hw Hl) as H. pose proof (content_small s' prog' Hw' Hl') as H'.
  destruct (pmt_content prog s) as [[pcr pds] es], (pmt_content prog' s') as [[pcr' pds'] es'].
  destruct H as (-> & Hp & Hd & He), H' as (-> & Hp' & Hd' & He'). split; [|by intros [= -> -> ->]].
  intros H. apply app_inj_1 in H as [Hq H]; [|done]. apply be16_inj in Hq; [|done..]. apply block_inj in H as [-> H]; [|done..].
  apply key_entries_inj in H; [|done..]. congruence.
Qed.

(** C22: version numbers follow the content of the tables. An accepted
    reconfiguration raises the PAT version, modulo 32, exactly when the list of
    programs and PMT PIDs changes, and the PMT version of a program that goes on
    exactly when what its PMT announces changes: the PCR PID, the program
    descriptors, or some stream's type, PID or descriptors. Its PMT PID stays. *)
Theorem reconfigure_versions (m : Muxer) (c : MuxerConfig) (m' : Muxer) :
  mux_wf m -> Forall program_typed (programs c) -> reconfigure m c = (Ok tt, m') ->
  pat_version m' = (if bool_decide (pat_entries m' = pat_entries m) then pat_version m else (pat_version m + 1) mod 32) /\
  forall i s s' old prog, get (slots m) i = Some s -> live s = Some old -> get (slots m') i = Some s' -> live s' = Some prog ->
    program_number prog = program_number old -> pmt_pid prog = pmt_pid old /\
    pmt_version s' = if bool_decide (pmt_content prog s' = pmt_content old s) then pmt_version s else (pmt_version s + 1) mod 32.
Proof.
  intros Hm Ht Hr. destruct (reconfigured_of m c m' Hm Ht Hr) as (plan & Hp & Hd). split; [apply Hd|].
  intros i s s' old prog Hg Hl Hg' Hl' Hn. destruct (rc_live _ _ _ _ Hd i s' prog Hg' Hl') as (n & pl & Hat & Hsl).
  assert (Hmt : is_matched m prog i = true) by (apply bool_decide_eq_true, slot_by_number_spec; [done|]; rewrite Hn; eauto).
  pose proof Hat as (_ & _ & Hpp). rewrite Hsl in Hpp. split; [symmetry; by eapply (pp_pmt _ _ _ _ _ Hpp)|].
  destruct (rc_programs _ _ _ _ Hd n pl prog Hat) as (s2 & Hs2).
  assert (s2 = s') as -> by (pose proof (pd_slot _ _ _ _ _ _ Hs2) as H; rewrite Hsl, Hg' in H; by injection H).
  destruct (pd_matched _ _ _ _ _ _ Hs2 s) as [_ Hver]; [by rewrite (continues_at m c plan n pl prog Hat), Hsl|by rewrite Hsl|].
  rewrite Hver. pose proof (slot_wf_at m Hm i s Hg) as Hw. pose proof (slot_wf_at m' (rc_wf _ _ _ _ Hd) i s' Hg') as Hw'.
  erewrite bool_decide_ext; [done|]. by apply identity_content.
Qed.

End PsiVersions.

(** * The life of a muxer *)
Module Lifetime.
Import Common PesWriter TsCounters MuxTypes MuxState MuxHandles MuxSchedule MuxPush MuxDescriptors MuxSlots MuxValidate ValidConfig ConfigTheorems
  Packetize Reserve Transmit Handlers MuxInv SlotView MuxWf Reconfigure ApplyProgram Reconfigured ReconfigureTheorems Session.

(** C16: a constructed muxer is well typed. For every configuration of
    machine-typed fields, [Muxer::new] either returns exactly the error of
    [validate], or a well-formed muxer: every table of a slot (stream vectors by
    kind, placements, PCR PID, descriptor cache, identity) agrees with its
    program, PIDs and numbers are distinct across slots, nothing is queued or
    counted, and the streams of a kind stand in declaration order. *)
Theorem new_muxer_well_formed (c : MuxerConfig) : config_typed c ->
  match MuxNew.new c with
  | Ok m => validate c = Ok tt /\ mux_wf m /\ fresh c m
  | Err e => validate c = Err e
  | Panic => False
  end.
Proof.
  intros Ht. pose proof (validate_ok c) as Hv. pose proof (validate_total c) as Hp. destruct (validate c) as [[]|e|] eqn:Hval.
  - destruct (new_wf c) as (m & -> & Hm & Hf); [by apply Hv|done|]. done.
  - unfold MuxNew.new. by rewrite Hval.
  - by destruct Hp.
Qed.

(** Operations of a muxer's owner; a push or a reconfiguration may be refused. *)
Inductive life_op : Type := Operate (o : op) | Reconf (c : MuxerConfig).

Fixpoint life {E} (m : Muxer) (os : list life_op) : res E (Muxer * list Z) :=
  match os with
  | [] => Ok (m, [])
  | Operate o :: os =>
      let! (m, w, _) := session m [o] in
      let! (m, w') := life m os in
      Ok (m, w ++ w')
  | Reconf c :: os =>
      match reconfigure m c with
      | (Panic, _) => Panic
      | (_, m) => life m os
      end
  end.

Definition life_op_ok (o : life_op) : Prop :=
  match o with Operate o => op_ok o | Reconf c => Forall program_typed (programs c) end.

Definition operations (os : list life_op) : list op := omap (fun o => match o with Operate o => Some o | Reconf _ => None end) os.

(** ** Single operations keep a muxer well formed *)

Lemma push_wf m o : mux_wf m -> stats_room m 1 (zlen (body_of o)) -> bytes (body_of o) -> mux_wf (run m o).2.
Proof.
  intros Hm Hr Hb.
  destruct (run_outcome m o (mux_wf_ok m Hm) Hr Hb) as [(e & ->)|[(pes & ->)|(m' & st & cd & pid & pes & ra & -> & Hsent & _)]]; [done| |].
  - cbn [snd]. by destruct Hm.
  - destruct Hsent as (_ & pre & af & due & s & _ & _ & _ & _ & Hx & _). assert (Hs : mux_wf (set_scratch m pes)) by (by destruct Hm).
    pose proof (extends_wf _ _ _ Hs Hx) as []. by split.
Qed.

Lemma request_wf m : mux_wf m -> mux_wf (request_psi m).
Proof.
  intros Hm. apply restamped_wf; try apply Hm; try done. apply Forall2_fmap_r, Forall_Forall2_diag.
  eapply Forall_impl; [apply Hm|]. intros s Hs. exists None, (pcr_last s). split_and!; [by destruct s|done|apply Hs].
Qed.

Lemma pulled_wf m k e b : mux_wf m -> mux_wf (set_pulled m (zdrop k (queue m)) e b).
Proof. intros []. split; try done. cbn. by apply Forall_drop. Qed.

(** A muxer fit for the operations [os]. *)
Record alive (m : Muxer) (os : list life_op) : Prop := {
  al_wf : mux_wf m;
  al_queue : zlen (queue m) <= buffer_packets (config m);
  al_room : room m (operations os);
  al_pushes : push_count (operations os) <= u64_max;
  al_bytes : push_bytes (operations os) <= u64_max;
}.

Lemma operate_ok {E} m o os : alive m (Operate o :: os) -> op_ok o ->
  exists m' w log, session (E:=E) m [o] = Ok (m', w, log) /\ alive m' os.
Proof.
  intros [Hm Hq Hroom Hp Hb] Ho. change (operations (Operate o :: os)) with (o :: operations os) in *. pose proof (mux_wf_ok m Hm) as Hok.
  destruct Hroom as [Hst Hpk Hpm Hy Hym]. destruct (tallies (operations os)) as (Hc & Hbs & Hpl). destruct o as [o|out|]; cbn [push_count push_bytes pulls] in *.
  - pose proof (zlen_nonneg (body_of o)) as Hz. assert (Hr1 : stats_room m 1 (zlen (body_of o))) by (eapply stats_room_weaken; [exact Hst|lia|lia]).
    destruct (push_step m o Hok Hq Hr1 Ho) as (r & m1 & its & Hrun & Hr & _ & He & Hq1 & _ & Hcap & _ & Hsp & Hpe & Hye & _).
    pose proof (push_wf m o Hm Hr1 Ho) as Hw. rewrite Hrun in Hw. exists m1, [], [(o, r)]. cbn [session]. rewrite Hrun. split; [by destruct r|].
    split; [done|by rewrite (proj1 He)| |lia|lia]. split; rewrite ?Hpe, ?Hye, ?(proj1 He); try done. by apply Hsp.
  - destruct (pull_count_range m out) as [Hk Ho']. set (k := pull_count m out) in *.
    assert (0 <= pulls (operations os) * buffer_packets (config m)) by (apply Z.mul_nonneg_nonneg; [lia|]; pose proof (zlen_nonneg (queue m)); lia).
    cbn [session]. rewrite pull_ok by (apply Hok || (fold k; lia)). fold k. rb. eexists _, _, _. split; [reflexivity|].
    split; [by apply pulled_wf|cbn; rewrite zlen_zdrop by lia; lia| |done|done]. split; cbn; try done; lia.
  - exists (request_psi m), [], []. split; [done|]. split; [by apply request_wf|done| |done|done]. by split.
Qed.

Lemma stats_kept_room m m' k n : 0 <= k <= u64_max -> 0 <= n <= u64_max -> stats_kept (per_stream m) (per_stream m') ->
  stats_room m k n -> stats_room m' k n.
Proof.
  intros Hk Hn Hs Hr pid st Hst. destruct (Hs pid) as [Hc _]. rewrite Hst in Hc. cbn in Hc.
  destruct (per_stream m !! pid) as [st0|] eqn:H0; cbn in Hc; injection Hc as -> -> _; [by apply (Hr pid)|lia].
Qed.

Lemma reconf_ok m c os : alive m (Reconf c :: os) -> Forall program_typed (programs c) ->
  exists r m', reconfigure m c = (r, m') /\ r <> Panic /\ alive m' os.
Proof.
  intros [Hm Hq [Hst Hpk Hpm Hy Hym] Hp Hb] Ht. change (operations (Reconf c :: os)) with (operations os) in *.
  destruct (tallies (operations os)) as (Hc & Hbs & Hpl).
  destruct (reconfigure_cases m c Hm Ht) as [(e & He)|(plan & m' & He & Hpn & [Hw Hcf Ho Hs _ _ _ _ _])].
  - exists (Err e), m. split; [done|]. split; [done|]. by split; try done; split.
  - exists (Ok tt), m'. split; [done|]. split; [done|]. destruct Ho as (Hqq & Hpe & Hye & _).
    destruct (WholePlan.pl_global _ _ _ Hpn) as (_ & _ & Hbuf & _).
    split; [done|by rewrite Hqq, Hcf, Hbuf| |done|done]. split; rewrite ?Hpe, ?Hye, ?Hcf, ?Hbuf; try done.
    eapply stats_kept_room; [..|exact Hst]; try done; lia.
Qed.

Lemma life_ok {E} os : forall m, alive m os -> Forall life_op_ok os -> exists m' w, life (E:=E) m os = Ok (m', w) /\ alive m' [].
Proof.
  induction os as [|[o|c] os IH]; intros m Ha Hok; cbn [life]; [by exists m, []|..]; apply Forall_cons in Hok as [Ho Hok].
  - destruct (operate_ok (E:=E) m o os Ha Ho) as (m1 & w & log & -> & Ha1). rb. destruct (IH m1 Ha1 Hok) as (m' & w' & -> & Ha').
    exists m', (w ++ w'). done.
  - destruct (reconf_ok m c os Ha Ho) as (r & m1 & -> & Hr & Ha1). destruct (IH m1 Ha1 Hok) as (m' & w & Hl & Ha').
    exists m', w. by destruct r.
Qed.

(** C8: a muxer never panics and never becomes inconsistent. From any
    constructed muxer, every sequence of pushes of any kind, pulls, PSI requests
    and reconfigurations, accepted or refused, runs to its end and leaves a
    well-formed muxer whose queue is within its capacity, as long as the 64-bit
    totals of pushes, bytes and pulled packets do not overflow. *)
Theorem life_is_safe (c : MuxerConfig) (m : Muxer) (os : list life_op) :
  config_typed c -> MuxNew.new c = Ok m -> Forall life_op_ok os ->
  push_count (operations os) <= u64_max -> push_bytes (operations os) <= u64_max ->
  188 * (pulls (operations os) * buffer_packets c) <= u64_max ->
  exists m' w, life (E:=Empty_set) m os = Ok (m', w) /\ mux_wf m' /\ zlen (queue m') <= buffer_packets (config m').
Proof.
  intros Ht Hn Hok Hp Hb Hpl. pose proof (validate_ok c) as Hv. unfold MuxNew.new in Hn. destruct (validate c) as [[]|e|] eqn:Hval; try done.
  assert (Hcv : config_valid c) by (by apply Hv). destruct (new_wf c Hcv Ht) as (m0 & Hn0 & Hw & Hf). unfold MuxNew.new in Hn0. rewrite Hval, Hn in Hn0.
  injection Hn0 as <-. destruct Hf as [Hcf Hq _ (Hpk & Hby & _) Hst _]. pose proof (cv_buffer c Hcv).
  destruct (tallies (operations os)) as (Hc & Hbs & Hpu). assert (0 <= pulls (operations os) * buffer_packets c) by (apply Z.mul_nonneg_nonneg; lia).
  destruct (life_ok (E:=Empty_set) os m) as (m' & w & Hl & Ha); [|done|exists m', w; split; [done|]; split; apply Ha].
  split; [done|rewrite Hq, Hcf; change (zlen (@nil (list Z))) with 0; lia| |done|done]. split; rewrite ?Hcf, ?Hpk, ?Hby; try lia.
  intros pid st Hs. destruct (Hst pid st Hs) as (-> & -> & _). lia.
Qed.

End Lifetime.

(** * A muxer's life on concrete configurations *)
Module LifeWitnesses.
Import Common PesWriter TsCounters MuxTypes MuxState MuxHandles MuxSchedule MuxPush MuxDescriptors MuxSlots MuxValidate ValidConfig ConfigTheorems
  SlotView MuxWf Reconfigure ApplyProgram ReconfigureTheorems PsiVersions Session Lifetime.

Definition demo_config : MuxerConfig :=
  {| programs := [demo_program]; pcr_interval_ms := 40; psi_interval_ms := 100; buffer_packets := 1000; av1_carriage := Mpeg2TsBinding |}.

(** The same program without its audio and with a second KLV stream, and a second
    program. *)
Definition demo_next : MuxerConfig :=
  {| programs := [{| MuxTypes.program_number := 2; MuxTypes.pmt_pid := 0x1100; MuxTypes.streams := [SpecVideo 0x110 VideoH264];
                     MuxTypes.pcr_pid := None; MuxTypes.program_descriptors := []; MuxTypes.stream_descriptors := [[]] |};
                  {| MuxTypes.program_number := 1; MuxTypes.pmt_pid := 0x1000;
                     MuxTypes.streams := [SpecKlv 0x105 PrivateData false; SpecVideo 0x100 VideoH264; SpecKlv 0x101 SynchronousMetadata true];
                     MuxTypes.pcr_pid := None; MuxTypes.program_descriptors := []; MuxTypes.stream_descriptors := [[]; []; []] |}];
     pcr_interval_ms := 40; psi_interval_ms := 100; buffer_packets := 1000; av1_carriage := Mpeg2TsBinding |}.

Lemma demo_typed : config_typed demo_config.
Proof. split; [repeat constructor; apply demo_program_typed|cbn..]; unfold u32_max, u64_max; lia. Qed.

Lemma demo_next_typed : Forall program_typed (programs demo_next).
Proof. repeat (apply Forall_cons; split; [split; [cbn; lia| |]; repeat constructor; cbn; unfold byte; lia|]). constructor. Qed.

Lemma demo_built : exists m, MuxNew.new demo_config = Ok m /\ mux_wf m.
Proof. destruct (new_wf demo_config) as (m & Hn & Hw & _); [apply validate_ok; by vm_compute|apply demo_typed|eauto]. Qed.

Lemma new_muxer_well_formed_witness : exists m, MuxNew.new demo_config = Ok m /\ mux_wf m /\ queue m = [].
Proof.
  pose proof (new_muxer_well_formed demo_config demo_typed) as H. destruct demo_built as (m & Hn & Hw).
  rewrite Hn in H. destruct H as (_ & Hm & Hf). exists m. split; [done|]. split; [done|]. apply Hf.
Defined.

(** The accepted reconfiguration of the demonstration muxer. *)
Lemma demo_reconfigured : exists m m', MuxNew.new demo_config = Ok m /\ mux_wf m /\ reconfigure m demo_next = (Ok tt, m').
Proof.
  destruct demo_built as (m & Hn & Hw). exists m, (reconfigure m demo_next).2. split; [done|]. split; [done|].
  vm_compute in Hn. injection Hn as <-. by vm_compute.
Qed.

Lemma reconfigure_safe_witness : exists m m', MuxNew.new demo_config = Ok m /\ reconfigure m demo_next = (Ok tt, m') /\ mux_wf m' /\ config m' = demo_next.
Proof.
  destruct demo_reconfigured as (m & m' & Hn & Hw & Hr). pose proof (reconfigure_safe m demo_next Hw demo_next_typed) as H.
  rewrite Hr in H. exists m, m'. destruct H as (_ & _ & _ & _ & _ & H1 & H2 & _). done.
Defined.

(** The slots before: one program, its video first of its kind. *)
Lemma demo_entry m : MuxNew.new demo_config = Ok m -> exists s, get (slots m) 0 = Some s /\ live s = Some demo_program /\
  entry s KindVideo 0 = Some (state_of (SpecVideo 0x100 VideoH264)) /\ entry s KindAudio 0 = Some (state_of (SpecAudio 0x102 Ac3 None)).
Proof. intros Hn. vm_compute in Hn. injection Hn as <-. eexists. split; [reflexivity|]. done. Qed.

Lemma reconfigure_keeps_handles_witness : exists m m' s', reconfigure m demo_next = (Ok tt, m') /\ get (slots m') 0 = Some s' /\
  entry s' KindVideo 0 = Some (state_of (SpecVideo 0x100 VideoH264)) /\
  cc_of (MuxState.counters m') 0x100 = cc_of (MuxState.counters m) 0x100.
Proof.
  destruct demo_reconfigured as (m & m' & Hn & Hw & Hr). destruct (demo_entry m Hn) as (s & Hg & Hl & He & _).
  destruct (reconfigure_keeps_handles m demo_next m' 0 0 KindVideo s (state_of (SpecVideo 0x100 VideoH264)) demo_program
    (nth 1 (programs demo_next) demo_program) (SpecVideo 0x100 VideoH264)) as (s' & Hg' & Hl' & He' & Hc); try done.
  - apply demo_next_typed.
  - right. left.
  - right. left.
  - exists m, m', s'. done.
Defined.

Lemma demo_after m m' : MuxNew.new demo_config = Ok m -> reconfigure m demo_next = (Ok tt, m') -> exists s', get (slots m') 0 = Some s' /\
  live s' = Some (nth 1 (programs demo_next) demo_program) /\ entry s' KindVideo 0 = Some (state_of (SpecVideo 0x100 VideoH264)).
Proof. intros Hn Hr. vm_compute in Hn. injection Hn as <-. vm_compute in Hr. injection Hr as <-. eexists. split; [reflexivity|]. done. Qed.

Lemma reconfigure_never_crosses_witness : exists m m' s s' st st', reconfigure m demo_next = (Ok tt, m') /\
  get (slots m) 0 = Some s /\ entry s KindVideo 0 = Some st /\ get (slots m') 0 = Some s' /\ entry s' KindVideo 0 = Some st' /\
  (state_pid st' = state_pid st \/ cc_of (MuxState.counters m') (state_pid st') = 0).
Proof.
  destruct demo_reconfigured as (m & m' & Hn & Hw & Hr). destruct (demo_entry m Hn) as (s & Hg & Hl & He & _).
  destruct (demo_after m m' Hn Hr) as (s' & Hg' & _ & He'). exists m, m', s, s'. eexists _, _. do 5 (split; [done|]).
  destruct (reconfigure_never_crosses m demo_next m' 0 0 KindVideo s s' _ _ Hw demo_next_typed Hr Hg He Hg' He') as [H|[_ H]]; [by left|by right].
Defined.

Lemma reconfigure_versions_witness : exists m m' s', reconfigure m demo_next = (Ok tt, m') /\ pat_version m' = 1 /\
  get (slots m') 0 = Some s' /\ pmt_version s' = 1.
Proof.
  destruct demo_reconfigured as (m & m' & Hn & Hw & Hr). destruct (demo_entry m Hn) as (s & Hg & Hl & _).
  destruct (demo_after m m' Hn Hr) as (s' & Hg' & Hl' & _).
  destruct (reconfigure_versions m demo_next m' Hw demo_next_typed Hr) as [Hpat Hpmt].
  destruct (Hpmt 0 s s' _ _ Hg Hl Hg' Hl' eq_refl) as [_ Hver].
  exists m, m', s'. split; [done|]. clear Hw Hpmt. vm_compute in Hn. injection Hn as <-. vm_compute in Hr. injection Hr as <-.
  vm_compute in Hg, Hg'. injection Hg as <-. injection Hg' as <-. rewrite Hpat, Hver. by vm_compute.
Defined.

Lemma life_is_safe_witness : exists m m' w, MuxNew.new demo_config = Ok m /\
  life (E:=Empty_set) m [Operate (Push (OpKlv 0 [0x06; 0x0E] 9000 0)); Reconf demo_next; Operate (Pull (zrep 1880 0)); Reconf demo_config] = Ok (m', w) /\
  mux_wf m'.
Proof.
  destruct demo_built as (m & Hn & Hw).
  destruct (life_is_safe demo_config m [Operate (Push (OpKlv 0 [0x06; 0x0E] 9000 0)); Reconf demo_next; Operate (Pull (zrep 1880 0)); Reconf demo_config])
    as (m' & w & Hl & Hm & _); [apply demo_typed|done| |done..|exists m, m', w; done].
  repeat constructor; try (cbn; unfold byte; lia); try apply demo_next_typed; apply demo_program_typed.
Defined.

End LifeWitnesses.
