(* ===== verification/Sync.v ===== *)
(** * Packet boundaries

    [mpegts/sync.rs]: the check of one candidate packet start, strict or N of M,
    and the reference scan for the first boundary. The theorems: the verdict is
    the one a count over all strides gives, it is final (more bytes never change
    it), a candidate with a whole window behind it is always decided, and the
    scan finds the first candidate that verifies. *)
From Stdlib Require Import ZArith Lia Bool.
From stdpp Require Import base sets list list_numbers.
From S2P Require Import Prelude.
From S2P Require Import Common.

(** * The code *)
Module TsSync.
Import Common.

Record TsSync : Type := { confirmations : Z; window : Z }.

Definition n_of_m {E} (n m : Z) : res E TsSync :=
  assert! (1 <=? n) && (n <=? m) in
  Ok {| confirmations := n; window := m |}.

Definition strict {E} (confirmations : Z) : res E TsSync := n_of_m confirmations confirmations.

(** The strides [k], [k + 1], ... below the window: [(matches, present)]. The
    loop stops at the first index past the end. *)
Fixpoint strides (n : nat) (buf : list Z) (at_ k matches present : Z) : Z * Z :=
  match n with
  | O => (matches, present)
  | S n =>
      match get buf (at_ + k * TS_PACKET_SIZE) with
      | Some b =>
          strides n buf at_ (k + 1) (if b =? TS_SYNC_BYTE then matches + 1 else matches) (present + 1)
      | None => (matches, present)
      end
  end.

Definition verify (s : TsSync) (buf : list Z) (at_ : Z) : option bool :=
  match get buf at_ with
  | None => None
  | Some b =>
      if negb (b =? TS_SYNC_BYTE) then Some false
      else
        let '(matches, present) := strides (Z.to_nat (window s - 1)) buf at_ 1 1 1 in
        if confirmations s <=? matches then Some true
        else if matches + (window s - present) <? confirmations s then Some false
        else None
  end.

(** [for at in 0..buf.len()]. *)
Fixpoint find_from (s : TsSync) (buf : list Z) (n : nat) (at_ : Z) : option Z :=
  match n with
  | O => None
  | S n =>
      if match get buf at_ with Some b => negb (b =? TS_SYNC_BYTE) | None => true end
      then find_from s buf n (at_ + 1)
      else match verify s buf at_ with
           | Some true => Some at_
           | Some false => find_from s buf n (at_ + 1)
           | None => None
           end
  end.

Definition find (s : TsSync) (buf : list Z) : option Z := find_from s buf (length buf) 0.

End TsSync.

(** * What a verdict means *)
Module SyncLemmas.
Import Common TsSync.

Definition sync_ok (s : TsSync) : Prop := 1 <= confirmations s <= window s.

(** The stride carries the sync byte; the stride is in the buffer. *)
Definition hit (buf : list Z) (p : Z) : bool := bool_decide (get buf p = Some TS_SYNC_BYTE).
Definition seen (buf : list Z) (p : Z) : bool := bool_decide (p < zlen buf).

(** How many of the positions [at + k * 188], [k] below the window, satisfy [f]. *)
Definition tally (f : Z -> bool) (at_ : Z) (ks : list Z) : Z :=
  zlen (filter (fun k => f (at_ + k * TS_PACKET_SIZE)) ks).

Definition hits (s : TsSync) (buf : list Z) (at_ : Z) : Z := tally (hit buf) at_ (seqZ 0 (window s)).

Definition unseen (s : TsSync) (buf : list Z) (at_ : Z) : Z :=
  window s - tally (seen buf) at_ (seqZ 0 (window s)).

(** The verdict as a count over the whole window. *)
Definition verdict (s : TsSync) (buf : list Z) (at_ : Z) : option bool :=
  if decide (zlen buf <= at_) then None
  else if negb (hit buf at_) then Some false
  else if confirmations s <=? hits s buf at_ then Some true
  else if hits s buf at_ + unseen s buf at_ <? confirmations s then Some false
  else None.

Lemma tally_cons f at_ k ks :
  tally f at_ (k :: ks) = b2z (f (at_ + k * TS_PACKET_SIZE)) + tally f at_ ks.
Proof. unfold tally. rewrite filter_cons. case_decide as H; destruct (f _); simpl in *; try done; rewrite ?zlen_cons; lia. Qed.

Lemma tally_none f at_ ks : (forall k, k ∈ ks -> f (at_ + k * TS_PACKET_SIZE) = false) -> tally f at_ ks = 0.
Proof.
  induction ks as [|k ks IH]; intros H; [done|]. rewrite tally_cons, IH by (intros; apply H; set_solver).
  rewrite H by set_solver. done.
Qed.

Lemma tally_bound f at_ ks : 0 <= tally f at_ ks <= zlen ks.
Proof. induction ks as [|k ks IH]; [done|]. rewrite tally_cons, zlen_cons. destruct f; simpl; lia. Qed.

Lemma tally_mono f g at_ ks :
  (forall p, f p = true -> g p = true) -> tally f at_ ks <= tally g at_ ks.
Proof.
  intros Hi. induction ks as [|k ks IH]; [done|]. rewrite !tally_cons.
  set (p := at_ + k * TS_PACKET_SIZE). specialize (Hi p).
  destruct (f p), (g p); simpl; lia.
Qed.

(** Twice the trade: what the extension [g] adds to the hits it takes from the unseen. *)
Lemma tally_trade f f' g g' at_ ks :
  (forall p, f' p = true -> f p = true \/ (g' p = true /\ g p = false)) ->
  (forall p, g p = true -> g' p = true) ->
  tally f' at_ ks - tally g' at_ ks <= tally f at_ ks - tally g at_ ks.
Proof.
  intros H1 H2. induction ks as [|k ks IH]; [done|]. rewrite !tally_cons.
  set (p := at_ + k * TS_PACKET_SIZE). specialize (H1 p). specialize (H2 p).
  destruct (f p), (f' p), (g p), (g' p); simpl in *; try lia; naive_solver.
Qed.

Lemma strides_count n buf at_ k m p : 0 <= at_ -> 0 <= k ->
  strides n buf at_ k m p =
  (m + tally (hit buf) at_ (seqZ k (Z.of_nat n)), p + tally (seen buf) at_ (seqZ k (Z.of_nat n))).
Proof.
  intros Ha. revert k m p. induction n as [|n IH]; intros k m p Hk; cbn [strides].
  - by rewrite !Z.add_0_r.
  - rewrite (seqZ_cons k) by lia. rewrite Nat2Z.inj_succ, Z.pred_succ, !tally_cons.
    unfold TS_PACKET_SIZE in *. destruct (get buf (at_ + k * 188)) as [b|] eqn:Hg.
    + pose proof (get_Some _ _ _ Hg). rewrite IH by lia.
      assert (seen buf (at_ + k * 188) = true) as -> by (unfold seen; case_bool_decide; lia).
      assert (hit buf (at_ + k * 188) = (b =? TS_SYNC_BYTE)) as ->.
      { unfold hit. rewrite Hg. destruct (Z.eqb_spec b TS_SYNC_BYTE) as [->|];
          [by apply bool_decide_eq_true_2|apply bool_decide_eq_false_2; congruence]. }
      unfold Z.succ. destruct (b =? TS_SYNC_BYTE); simpl; f_equal; lia.
    + assert (zlen buf <= at_ + k * 188) as Hend.
      { destruct (decide (zlen buf <= at_ + k * 188)); [done|]. destruct (get_lt buf (at_ + k * 188)); [lia|congruence]. }
      assert (forall j, k <= j -> hit buf (at_ + j * 188) = false /\ seen buf (at_ + j * 188) = false) as Hnone.
      { intros j Hj. unfold hit, seen. split; apply bool_decide_eq_false_2; [intros Hx%get_Some|]; lia. }
      destruct (Hnone k) as [-> ->]; [lia|]. simpl.
      rewrite !tally_none; [f_equal; lia|..]; intros j Hj%elem_of_seqZ; apply Hnone; lia.
Qed.

(** The code's loop and the count over the window agree. *)
Lemma verify_verdict s buf at_ : sync_ok s -> 0 <= at_ -> verify s buf at_ = verdict s buf at_.
Proof.
  intros [? ?] Ha. unfold verify, verdict.
  destruct (get buf at_) as [b|] eqn:Hg.
  - pose proof (get_Some _ _ _ Hg). rewrite decide_False by lia. unfold hit at 1. rewrite Hg.
    destruct (Z.eqb_spec b TS_SYNC_BYTE) as [->|].
    + rewrite bool_decide_eq_true_2 by done. simpl. rewrite strides_count by lia.
      unfold hits, unseen. rewrite (seqZ_cons 0) by lia. rewrite !tally_cons.
      rewrite Z.mul_0_l, Z.add_0_r.
      assert (hit buf at_ = true) as -> by (unfold hit; rewrite Hg; by apply bool_decide_eq_true_2).
      assert (seen buf at_ = true) as -> by (apply bool_decide_eq_true_2; lia).
      rewrite Z2Nat.id by lia. change (Z.succ 0) with 1. rewrite Z.sub_1_r. done.
    + rewrite bool_decide_eq_false_2 by congruence. done.
  - rewrite decide_True; [done|]. destruct (decide (zlen buf <= at_)); [done|].
    destruct (get_lt buf at_); [lia|congruence].
Qed.

Lemma hit_app buf more p : hit buf p = true -> hit (buf ++ more) p = true.
Proof.
  unfold hit. rewrite !bool_decide_eq_true. intros Hg. pose proof (get_Some _ _ _ Hg).
  by rewrite get_app_l by lia.
Qed.

Lemma hit_app_seen buf more p : p < zlen buf -> hit (buf ++ more) p = hit buf p.
Proof. intros. unfold hit. by rewrite get_app_l. Qed.

Lemma seen_app buf more p : seen buf p = true -> seen (buf ++ more) p = true.
Proof. unfold seen. rewrite !bool_decide_eq_true. zlia. Qed.

Lemma hits_unseen_app s buf more at_ :
  hits s buf at_ <= hits s (buf ++ more) at_ /\
  hits s (buf ++ more) at_ + unseen s (buf ++ more) at_ <= hits s buf at_ + unseen s buf at_.
Proof.
  unfold hits, unseen. split; [apply tally_mono, hit_app|].
  pose proof (tally_trade (hit buf) (hit (buf ++ more)) (seen buf) (seen (buf ++ more)) at_ (seqZ 0 (window s))) as Ht.
  assert (forall p, hit (buf ++ more) p = true ->
                    hit buf p = true \/ (seen (buf ++ more) p = true /\ seen buf p = false)) as Hp.
  { intros p Hp. destruct (decide (p < zlen buf)); [left; by rewrite <- (hit_app_seen _ more)|].
    right. unfold hit in Hp. apply bool_decide_eq_true in Hp. apply get_Some in Hp.
    unfold seen. split; [apply bool_decide_eq_true_2|apply bool_decide_eq_false_2]; lia. }
  specialize (Ht Hp (seen_app buf more)). lia.
Qed.

Lemma unseen_none s buf at_ : 0 <= at_ -> 1 <= window s ->
  at_ + (window s - 1) * TS_PACKET_SIZE < zlen buf -> unseen s buf at_ = 0.
Proof.
  intros Ha Hw Hlen. unfold unseen. enough (tally (seen buf) at_ (seqZ 0 (window s)) = window s) by lia.
  assert (forall ks, (forall k, k ∈ ks -> k <= window s - 1) -> tally (seen buf) at_ ks = zlen ks) as H.
  { induction ks as [|k ks IH]; intros H; [done|]. rewrite tally_cons, zlen_cons, IH by (intros; apply H; set_solver).
    unfold seen. rewrite bool_decide_eq_true_2; [done|]. assert (k <= window s - 1) by (apply H; set_solver).
    unfold TS_PACKET_SIZE in *. lia. }
  rewrite H by (intros k Hk%elem_of_seqZ; lia). unfold zlen. rewrite length_seqZ. lia.
Qed.

Lemma verify_true s buf at_ : sync_ok s -> 0 <= at_ ->
  verify s buf at_ = Some true <-> hit buf at_ = true /\ confirmations s <= hits s buf at_.
Proof.
  intros Hs Ha. rewrite verify_verdict by done. unfold verdict. split.
  - case_decide; [done|]. destruct (hit buf at_); [simpl|done].
    destruct (Z.leb_spec (confirmations s) (hits s buf at_)); [done|]. by destruct (_ <? _).
  - intros [Hhit Hc]. pose proof Hhit as Hin. unfold hit in Hin. apply bool_decide_eq_true, get_Some in Hin.
    rewrite decide_False, Hhit by lia. simpl. by rewrite (proj2 (Z.leb_le _ _)).
Qed.

(** A verdict is final. *)
Lemma verify_app s buf more at_ b : sync_ok s -> 0 <= at_ ->
  verify s buf at_ = Some b -> verify s (buf ++ more) at_ = Some b.
Proof.
  intros Hs Ha. rewrite !verify_verdict by done. unfold verdict.
  destruct (hits_unseen_app s buf more at_) as [Hh Hu].
  case_decide as Hlen; [done|]. rewrite decide_False by zlia. rewrite hit_app_seen by lia.
  destruct (hit buf at_); [simpl|done].
  destruct (Z.leb_spec (confirmations s) (hits s buf at_)) as [?|?].
  - intros [= <-]. rewrite (proj2 (Z.leb_le _ _)); [done|lia].
  - destruct (Z.ltb_spec (hits s buf at_ + unseen s buf at_) (confirmations s)) as [?|?]; [|done].
    intros [= <-].
    assert (0 <= unseen s (buf ++ more) at_).
    { unfold unseen. pose proof (tally_bound (seen (buf ++ more)) at_ (seqZ 0 (window s))) as Hb.
      unfold zlen in Hb. rewrite length_seqZ in Hb. unfold sync_ok in Hs. lia. }
    rewrite (proj2 (Z.leb_gt _ _)) by lia. by rewrite (proj2 (Z.ltb_lt _ _)) by lia.
Qed.

Lemma verify_decided s buf at_ : sync_ok s -> 0 <= at_ ->
  at_ + (window s - 1) * TS_PACKET_SIZE < zlen buf -> is_Some (verify s buf at_).
Proof.
  intros Hs Ha Hlen. rewrite verify_verdict by done. unfold verdict. destruct Hs.
  rewrite decide_False by (unfold TS_PACKET_SIZE in *; lia).
  destruct (hit buf at_); [simpl|by eexists]. rewrite unseen_none by (done || lia).
  destruct (Z.leb_spec (confirmations s) (hits s buf at_)); [by eexists|].
  rewrite (proj2 (Z.ltb_lt _ _)) by lia. by eexists.
Qed.

(** A candidate is judged from its own position on. *)
Lemma strides_shift n buf q at_ k m p : 0 <= q -> 0 <= at_ -> 0 <= k ->
  strides n (zdrop q buf) at_ k m p = strides n buf (q + at_) k m p.
Proof.
  intros Hq Ha. revert k m p. induction n as [|n IH]; intros k m p Hk; [done|]. cbn [strides].
  rewrite get_zdrop by (unfold TS_PACKET_SIZE; lia). rewrite Z.add_assoc.
  destruct (get buf _); [|done]. apply IH. lia.
Qed.

Lemma verify_shift s buf q : 0 <= q -> verify s (zdrop q buf) 0 = verify s buf q.
Proof. intros Hq. unfold verify. rewrite get_zdrop, strides_shift, Z.add_0_r by lia. done. Qed.

End SyncLemmas.

(** * Results *)
Module SyncTheorems.
Import Common TsSync SyncLemmas.

(** The verdict on a candidate packet boundary is the count it claims to be
    (enough sync bytes among the strides of the window, the candidate
    included), it is final: bytes that arrive later never overturn a decided
    candidate, and a candidate with the whole window behind it is decided. *)
Theorem verify_exact (s : TsSync) (buf more : list Z) (at_ : Z) (b : bool) :
  1 <= confirmations s <= window s -> 0 <= at_ ->
  (verify s buf at_ = Some true <-> hit buf at_ = true /\ confirmations s <= hits s buf at_) /\
  (verify s buf at_ = Some b -> verify s (buf ++ more) at_ = Some b) /\
  (at_ + (window s - 1) * TS_PACKET_SIZE < zlen buf -> is_Some (verify s buf at_)).
Proof.
  intros Hs Ha. split; [by apply verify_true|]. split; [by apply verify_app|by apply verify_decided].
Qed.

(** Two confirmations out of three, decided by the first two packets. *)
Lemma verify_exact_witness :
  let s := {| confirmations := 2; window := 3 |} in
  let buf := 0x47 :: zrep 187 0 ++ 0x47 :: zrep 187 0 in
  verify s buf 0 = Some true /\ verify s (buf ++ [0]) 0 = Some true.
Proof.
  intros s buf. assert (verify s buf 0 = Some true) as H by (vm_compute; reflexivity).
  split; [done|]. refine (proj1 (proj2 (verify_exact s buf [0] 0 true _ _)) H); simpl; lia.
Defined.

(** Where the scan may stop: every earlier position is ruled out for good. *)
Lemma find_from_spec s buf : sync_ok s -> forall n at_, 0 <= at_ -> zlen buf = at_ + Z.of_nat n ->
  match find_from s buf n at_ with
  | Some p => at_ <= p /\ verify s buf p = Some true /\ (forall q, at_ <= q < p -> verify s buf q = Some false)
  | None => forall p, at_ <= p -> (forall q, at_ <= q < p -> verify s buf q = Some false) ->
                      verify s buf p <> Some true
  end.
Proof.
  intros Hs. induction n as [|n IH]; intros at_ Ha Hlen; cbn [find_from].
  - intros p Hp _ Hv. rewrite verify_verdict in Hv by (done || lia). unfold verdict in Hv.
    rewrite decide_True in Hv by lia. done.
  - specialize (IH (at_ + 1)). destruct (get_lt buf at_) as [b Hb]; [lia|]. rewrite Hb.
    assert (verify s buf at_ = Some false ->
            match find_from s buf n (at_ + 1) with
            | Some p => at_ <= p /\ verify s buf p = Some true /\ (forall q, at_ <= q < p -> verify s buf q = Some false)
            | None => forall p, at_ <= p -> (forall q, at_ <= q < p -> verify s buf q = Some false) ->
                                verify s buf p <> Some true
            end) as Hstep.
    { intros Hf. destruct (find_from s buf n (at_ + 1)) as [p|].
      - destruct IH as (? & ? & Hq); [lia..|]. split; [lia|]. split; [done|]. intros q Hq'.
        destruct (decide (q = at_)) as [->|]; [done|]. apply Hq. lia.
      - intros p Hp Hq. destruct (decide (p = at_)) as [->|]; [congruence|]. apply IH; try lia.
        intros. apply Hq. lia. }
    destruct (b =? TS_SYNC_BYTE) eqn:Hsb; simpl.
    + destruct (verify s buf at_) as [[]|] eqn:Hv; [|by apply Hstep|].
      * split; [lia|]. split; [done|]. intros. lia.
      * intros p Hp Hq Hc. destruct (decide (p = at_)) as [->|]; [congruence|].
        specialize (Hq at_). rewrite Hv in Hq. discriminate Hq. lia.
    + apply Hstep. unfold verify. by rewrite Hb, Hsb.
Qed.

(** The reference scan returns the first offset that verifies, provided
    every offset before it is ruled out; it returns nothing exactly when the
    first offset not ruled out is undecided or there is none. *)
Theorem find_first (s : TsSync) (buf : list Z) (p : Z) :
  1 <= confirmations s <= window s ->
  find s buf = Some p <->
  0 <= p /\ verify s buf p = Some true /\ (forall q, 0 <= q < p -> verify s buf q = Some false).
Proof.
  intros Hs. pose proof (find_from_spec s buf Hs (length buf) 0 ltac:(lia) ltac:(done)) as H.
  unfold find. destruct (find_from s buf (length buf) 0) as [p'|].
  - split; [by intros [= <-]|]. intros (Hp & Ht & Hq). destruct H as (Hp' & Ht' & Hq').
    destruct (Z.lt_trichotomy p p') as [?|[->|?]]; [|done|].
    + rewrite Hq' in Ht by lia. done.
    + rewrite Hq in Ht' by lia. done.
  - split; [done|]. intros (Hp & Ht & Hq). destruct (H p Hp Hq Ht).
Qed.

Lemma find_first_witness :
  let s := {| confirmations := 1; window := 1 |} in
  find s [0; 0x47] = Some 1 <->
  0 <= 1 /\ verify s [0; 0x47] 1 = Some true /\ (forall q, 0 <= q < 1 -> verify s [0; 0x47] q = Some false).
Proof. apply find_first. simpl. lia. Defined.

End SyncTheorems.
