(* ===== verification/Ingress.v ===== *)
(** * Byte ingress of the demuxer

    The sync state machine of [Demuxer::feed] ([mpegts/demux/demuxer.rs]) with
    [compact_sync_buf] and the constants of [mpegts/demux/sync_ingress.rs]: a
    buffer with a cursor, the hunt for a packet boundary, the search window.
    The five fields are a record of their own because no packet handler touches
    them; the handler is a parameter of the loop. [Ingress] is the code,
    [Abstract] the machine on the live bytes alone, without the cursor, the
    compaction and the cap, that the code refines. *)
From Stdlib Require Import ZArith Lia Bool.
From stdpp Require Import base list list_numbers strings.
From S2P Require Import Prelude.
From S2P Require Import Common.
From S2P Require Import PesDemux.
From S2P Require Import Sync.

(** * The code *)
Module Ingress.
Import Common TsSync.

Definition SYNC_SEARCH_WINDOW : Z := TS_PACKET_SIZE * 32.
Definition MAX_SYNC_BUF_BYTES : Z := Z.shiftl 4 20.
Definition SYNC_REACQ_N : Z := 5.
Definition SYNC_REACQ_M : Z := 7.

(** [TsSync::n_of_m(SYNC_REACQ_N, SYNC_REACQ_M)], a constant of the source. *)
Definition SYNC_REACQ : TsSync := {| confirmations := SYNC_REACQ_N; window := SYNC_REACQ_M |}.

Record Ingress : Type := {
  sync_buf : list Z;
  sync_consumed : Z;
  bytes_since_sync : Z;
  is_synced : bool;
  resync_required : bool
}.

Definition fresh : Ingress :=
  {| sync_buf := []; sync_consumed := 0; bytes_since_sync := 0; is_synced := false; resync_required := false |}.

Definition set_buf (g : Ingress) (b : list Z) (consumed : Z) : Ingress :=
  {| sync_buf := b; sync_consumed := consumed; bytes_since_sync := bytes_since_sync g;
     is_synced := is_synced g; resync_required := resync_required g |}.

Definition set_sync (g : Ingress) (since : Z) (synced resync : bool) : Ingress :=
  {| sync_buf := sync_buf g; sync_consumed := sync_consumed g; bytes_since_sync := since;
     is_synced := synced; resync_required := resync |}.

Definition compact_sync_buf {E} (g : Ingress) : res E Ingress :=
  let consumed := sync_consumed g in
  let! live := usub (zlen (sync_buf g)) consumed in
  if Z.max live (Z.shiftl 1 20) <=? consumed
  then Ok (set_buf g (zdrop consumed (sync_buf g)) 0)
  else Ok g.

Definition unrecoverable_window (g : Ingress) : Ingress * PesParse.DemuxError :=
  (set_sync g 0 false (sync_consumed g <? zlen (sync_buf g)), PesParse.Unrecoverable (bytes_since_sync g)).

(** The inner [while]: the index of the next sync byte, or the end. *)
Fixpoint scan_from (rest : list Z) (i : Z) : Z :=
  match rest with
  | b :: rest => if b =? TS_SYNC_BYTE then i else scan_from rest (i + 1)
  | [] => i
  end.

(** The buffered bytes and this call's input are dropped. *)
Definition exhausted (g : Ingress) (n cap : Z) : Ingress * PesParse.DemuxError :=
  ({| sync_buf := []; sync_consumed := 0; bytes_since_sync := 0; is_synced := false; resync_required := false |},
   PesParse.SyncBufExhausted (Z.min u64_max (zlen (sync_buf g) + n)) cap).

Section feed.
Context {C : Type}.
(** What [feed] does with one packet: [process_packet], the lenient or strict
    policy on its result, and the strict-mode verdict. *)
Context (process : C -> list Z -> C * res PesParse.DemuxError unit).

Definition outcome_t : Type := Ingress * C * res PesParse.DemuxError unit.

(** The bytes [i] were searched and hold no packet start. [continue] is the rest
    of the loop. *)
Definition consume (g : Ingress) (c : C) (i : Z) (continue : Ingress -> outcome_t) : outcome_t :=
  let g := set_sync g (bytes_since_sync g + i) (is_synced g) (resync_required g) in
  let g := set_buf g (sync_buf g) (sync_consumed g + i) in
  match compact_sync_buf g with
  | Ok g =>
      if SYNC_SEARCH_WINDOW <? bytes_since_sync g
      then let '(g, e) := unrecoverable_window g in (g, c, Err e)
      else continue g
  | Err e => (g, c, Err e)
  | Panic => (g, c, Panic)
  end.

(** [self.compact_sync_buf(); return Ok(())]. *)
Definition compact_return (g : Ingress) (c : C) : outcome_t :=
  match compact_sync_buf g with
  | Ok g => (g, c, Ok tt)
  | Err e => (g, c, Err e)
  | Panic => (g, c, Panic)
  end.

Fixpoint feed_loop (fuel : nat) (g : Ingress) (c : C) (resyncing : bool) : outcome_t :=
  match fuel with
  | O => (g, c, Panic)
  | S fuel =>
      if zlen (sync_buf g) <? sync_consumed g then (g, c, Panic)
      else
      let live := zdrop (sync_consumed g) (sync_buf g) in
      if zlen live <? TS_PACKET_SIZE then compact_return g c
      else
      match get live 0 with
      | None => (g, c, Panic)
      | Some b0 =>
          if negb (b0 =? TS_SYNC_BYTE) then
            let g := set_sync g (bytes_since_sync g) false true in
            let i := scan_from (zdrop 1 live) 1 in
            consume g c i (fun g => feed_loop fuel g c true)
          else
          match (if resyncing then verify SYNC_REACQ live 0 else Some true) with
          | Some false => consume g c 1 (fun g => feed_loop fuel g c resyncing)
          | None => compact_return g c
          | Some true =>
              let g := set_sync g 0 true false in
              let pkt_buf := ztake TS_PACKET_SIZE live in
              let g := set_buf g (sync_buf g) (sync_consumed g + TS_PACKET_SIZE) in
              match compact_sync_buf g with
              | Ok g =>
                  match process c pkt_buf with
                  | (c, Ok _) => feed_loop fuel g c false
                  | (c, Err e) => (g, c, Err e)
                  | (c, Panic) => (g, c, Panic)
                  end
              | Err e => (g, c, Err e)
              | Panic => (g, c, Panic)
              end
          end
      end
  end.

(** [try_reserve] says whether the allocator grants the bytes. *)
Definition feed (cap : Z) (try_reserve : bool) (g : Ingress) (c : C) (input : list Z) : outcome_t :=
  let g := if (0 <? sync_consumed g) && (cap <? Z.min u64_max (zlen (sync_buf g) + zlen input))
           then set_buf g (zdrop (sync_consumed g) (sync_buf g)) 0 else g in
  let projected := zlen (sync_buf g) + zlen input in
  if (u64_max <? projected) || (cap <? projected)
  then let '(g, e) := exhausted g (zlen input) cap in (g, c, Err e)
  else if negb try_reserve
  then let '(g, e) := exhausted g (zlen input) cap in (g, c, Err e)
  else
    let g := set_buf g (sync_buf g ++ input) (sync_consumed g) in
    let resyncing := negb (is_synced g) && resync_required g in
    feed_loop (S (length (sync_buf g))) g c resyncing.

End feed.

End Ingress.

(** * The machine on the live bytes *)
Module Abstract.
Import Common TsSync Ingress.

Record hunt : Type := { live : list Z; since : Z; synced : bool; resync : bool }.

Definition view (g : Ingress) : hunt :=
  {| live := zdrop (sync_consumed g) (sync_buf g); since := bytes_since_sync g;
     synced := is_synced g; resync := resync_required g |}.

Definition arrive (h : hunt) (input : list Z) : hunt :=
  {| live := live h ++ input; since := since h; synced := synced h; resync := resync h |}.

(** What the machine does next: wait for bytes, skip [i] of them as searched, or
    take a packet. *)
Inductive move : Type := Wait | Skip (i : Z) (synced resync : bool) | Take.

Definition next (h : hunt) : move :=
  if zlen (live h) <? TS_PACKET_SIZE then Wait
  else if negb (bool_decide (get (live h) 0 = Some TS_SYNC_BYTE)) then Skip (scan_from (zdrop 1 (live h)) 1) false true
  else if negb (synced h) && resync h then
    match verify SYNC_REACQ (live h) 0 with
    | Some true => Take
    | Some false => Skip 1 (synced h) (resync h)
    | None => Wait
    end
  else Take.

Section run.
Context {C : Type} (process : C -> list Z -> C * res PesParse.DemuxError unit).

Fixpoint run (fuel : nat) (h : hunt) (c : C) : hunt * C * res PesParse.DemuxError unit :=
  match fuel with
  | O => (h, c, Panic)
  | S fuel =>
      match next h with
      | Wait => (h, c, Ok tt)
      | Skip i s r =>
          let rest := zdrop i (live h) in
          if SYNC_SEARCH_WINDOW <? since h + i
          then ({| live := rest; since := 0; synced := false; resync := 0 <? zlen rest |}, c,
                Err (PesParse.Unrecoverable (since h + i)))
          else run fuel {| live := rest; since := since h + i; synced := s; resync := r |} c
      | Take =>
          let h' := {| live := zdrop TS_PACKET_SIZE (live h); since := 0; synced := true; resync := false |} in
          match process c (ztake TS_PACKET_SIZE (live h)) with
          | (c, Ok _) => run fuel h' c
          | (c, Err e) => (h', c, Err e)
          | (c, Panic) => (h', c, Panic)
          end
      end
  end.

Definition ingest (h : hunt) (c : C) (input : list Z) : hunt * C * res PesParse.DemuxError unit :=
  run (S (length (live h ++ input))) (arrive h input) c.

(** Packets one by one, without a buffer. *)
Fixpoint each (c : C) (pkts : list (list Z)) : C * res PesParse.DemuxError unit :=
  match pkts with
  | [] => (c, Ok tt)
  | p :: pkts =>
      match process c p with
      | (c, Ok _) => each c pkts
      | (c, Err e) => (c, Err e)
      | (c, Panic) => (c, Panic)
      end
  end.
End run.

End Abstract.

(** * Refinement *)
Module IngressLemmas.
Import Common TsSync Ingress Abstract.

Definition ingress_ok (g : Ingress) : Prop := 0 <= sync_consumed g <= zlen (sync_buf g).

Lemma scan_from_range rest i : i <= scan_from rest i <= i + zlen rest.
Proof.
  revert i. induction rest as [|b rest IH]; intros i; cbn [scan_from]; [unfold zlen; simpl; lia|].
  rewrite zlen_cons. pose proof (zlen_nonneg rest). destruct (_ =? _); [lia|]. specialize (IH (i + 1)). lia.
Qed.

Lemma scan_from_app rest more i :
  scan_from (rest ++ more) i =
  if scan_from rest i <? i + zlen rest then scan_from rest i else scan_from more (i + zlen rest).
Proof.
  revert i. induction rest as [|b rest IH]; intros i; cbn [scan_from app].
  - change (zlen []) with 0. rewrite Z.add_0_r, Z.ltb_irrefl. done.
  - rewrite zlen_cons. pose proof (zlen_nonneg rest). destruct (_ =? _).
    + by rewrite (proj2 (Z.ltb_lt _ _)) by lia.
    + rewrite IH. by replace (i + 1 + zlen rest) with (i + (1 + zlen rest)) by lia.
Qed.

Lemma scan_from_shift rest i k : scan_from rest (i + k) = scan_from rest i + k.
Proof.
  revert i. induction rest as [|b rest IH]; intros i; cbn [scan_from]; [done|]. destruct (_ =? _); [done|].
  rewrite <- IH. f_equal. lia.
Qed.

(** The scan passes exactly the bytes before the next sync byte. *)
Lemma scan_from_passed rest i k : 0 <= k -> i + k < scan_from rest i -> get rest k <> Some TS_SYNC_BYTE.
Proof.
  revert i k. induction rest as [|b rest IH]; intros i k Hk; cbn [scan_from]; [lia|].
  destruct (Z.eqb_spec b TS_SYNC_BYTE) as [->|Hb]; [lia|]. intros Hlt.
  destruct (decide (k = 0)) as [->|]; [intros [= ->]; done|].
  replace k with (1 + (k - 1)) by lia. rewrite get_cons_S by lia. apply (IH (i + 1)); lia.
Qed.

Lemma scan_from_stop rest i :
  scan_from rest i < i + zlen rest -> get rest (scan_from rest i - i) = Some TS_SYNC_BYTE.
Proof.
  revert i. induction rest as [|b rest IH]; intros i; cbn [scan_from]; [unfold zlen; simpl; lia|].
  rewrite zlen_cons. destruct (Z.eqb_spec b TS_SYNC_BYTE) as [->|Hb].
  - intros _. by rewrite Z.sub_diag.
  - intros Hlt. pose proof (scan_from_range rest (i + 1)).
    replace (scan_from rest (i + 1) - i) with (1 + (scan_from rest (i + 1) - (i + 1))) by lia.
    rewrite get_cons_S by lia. apply IH. lia.
Qed.

Lemma next_skip h i s r : next h = Skip i s r -> 1 <= i <= zlen (live h).
Proof.
  unfold next. destruct (Z.ltb_spec (zlen (live h)) TS_PACKET_SIZE) as [|Hlen]; [done|].
  unfold TS_PACKET_SIZE in Hlen. destruct (bool_decide _); simpl.
  - destruct (_ && _); [|done]. destruct (verify _ _ _) as [[]|]; [done| |done]. intros [= <- <- <-]. lia.
  - intros [= <- <- <-]. pose proof (scan_from_range (zdrop 1 (live h)) 1) as Hr.
    rewrite zlen_zdrop in Hr by lia. lia.
Qed.

Lemma next_take h : next h = Take -> TS_PACKET_SIZE <= zlen (live h) /\ get (live h) 0 = Some TS_SYNC_BYTE.
Proof.
  unfold next. destruct (Z.ltb_spec (zlen (live h)) TS_PACKET_SIZE); [done|].
  case_bool_decide; [done|]. simpl. done.
Qed.

Lemma compact_view {E} g : ingress_ok g ->
  exists g', compact_sync_buf (E:=E) g = Ok g' /\ view g' = view g /\ ingress_ok g' /\
             zlen (sync_buf g') <= zlen (sync_buf g).
Proof.
  intros [? ?]. unfold compact_sync_buf, usub. rewrite (proj2 (Z.leb_le _ _)) by lia. rb.
  destruct (_ <=? _).
  - eexists. split; [done|]. unfold view, ingress_ok. simpl. rewrite zdrop_0, zlen_zdrop by lia. repeat split; lia.
  - eexists. split; [done|]. repeat split; lia.
Qed.

Section run.
Context {C : Type} (process : C -> list Z -> C * res PesParse.DemuxError unit).

(** Enough fuel is any fuel above the number of live bytes. *)
Lemma run_fuel : forall n m h c, (length (live h) < n)%nat -> (length (live h) < m)%nat -> run process n h c = run process m h c.
Proof.
  induction n as [|n IH]; intros m h c Hn Hm; [lia|]. destruct m as [|m]; [lia|]. cbn [Abstract.run].
  destruct (next h) as [|i s r|] eqn:Hnx; [done|..].
  - apply next_skip in Hnx. destruct (_ <? _); [done|]. apply IH; simpl; unfold zdrop, zlen in *; rewrite length_drop; lia.
  - apply next_take in Hnx as [Hlen _]. unfold TS_PACKET_SIZE in *.
    destruct (process _ _) as [c' []]; [|done..]. apply IH; simpl; unfold zdrop, zlen in *; rewrite length_drop; lia.
Qed.

Lemma view_consumed g i : ingress_ok g -> 0 <= i -> sync_consumed g + i <= zlen (sync_buf g) ->
  live (view (set_buf g (sync_buf g) (sync_consumed g + i))) = zdrop i (live (view g)).
Proof. intros [? ?] ? ?. unfold view. simpl. by rewrite zdrop_zdrop by lia. Qed.

Definition refines (o : outcome_t (C:=C)) (a : hunt * C * res PesParse.DemuxError unit) (n : Z) : Prop :=
  a = (view o.1.1, o.1.2, o.2) /\ ingress_ok o.1.1 /\ zlen (sync_buf o.1.1) <= n.

Lemma compact_return_refines g c n : ingress_ok g -> zlen (sync_buf g) <= n ->
  refines (compact_return g c) (view g, c, Ok tt) n.
Proof.
  intros Hg Hn. destruct (compact_view (E:=PesParse.DemuxError) g Hg) as (g' & Hc & Hv & Hok & Hl).
  unfold compact_return. rewrite Hc. unfold refines. simpl. rewrite Hv. repeat split; try apply Hok; lia.
Qed.

Lemma consume_refines g c i k a n : ingress_ok g -> zlen (sync_buf g) <= n ->
  1 <= i <= zlen (live (view g)) ->
  (SYNC_SEARCH_WINDOW < bytes_since_sync g + i ->
   a = ({| live := zdrop i (live (view g)); since := 0; synced := false; resync := 0 <? zlen (zdrop i (live (view g))) |},
        c, Err (PesParse.Unrecoverable (bytes_since_sync g + i)))) ->
  (bytes_since_sync g + i <= SYNC_SEARCH_WINDOW ->
   forall g', ingress_ok g' -> zlen (sync_buf g') <= n ->
     view g' = {| live := zdrop i (live (view g)); since := bytes_since_sync g + i;
                  synced := is_synced g; resync := resync_required g |} ->
     refines (k g') a n) ->
  refines (consume g c i k) a n.
Proof.
  intros Hg Hn Hi Hover Hk. unfold consume.
  set (g1 := set_buf _ _ _). assert (ingress_ok g1) as Hg1.
  { destruct Hg. unfold g1, ingress_ok. simpl in *. unfold view in Hi. simpl in Hi. rewrite zlen_zdrop in Hi by lia. lia. }
  assert (view g1 = {| live := zdrop i (live (view g)); since := bytes_since_sync g + i;
                       synced := is_synced g; resync := resync_required g |}) as Hv1.
  { destruct Hg. unfold g1, view. simpl. rewrite zdrop_zdrop by lia. done. }
  destruct (compact_view (E:=PesParse.DemuxError) g1 Hg1) as (g' & -> & Hv & Hok & Hl).
  assert (bytes_since_sync g' = bytes_since_sync g + i) as Hs by (rewrite Hv1 in Hv; exact (f_equal since Hv)).
  rewrite Hs. change (zlen (sync_buf g1)) with (zlen (sync_buf g)) in Hl.
  destruct (Z.ltb_spec SYNC_SEARCH_WINDOW (bytes_since_sync g + i)) as [Hw|Hw].
  - rewrite (Hover Hw). unfold unrecoverable_window, refines. cbn [fst snd]. rewrite Hs.
    assert (zdrop (sync_consumed g') (sync_buf g') = zdrop i (live (view g))) as Hlv
      by (rewrite Hv1 in Hv; exact (f_equal live Hv)).
    split; [|split; [exact Hok|simpl; lia]]. rewrite <- Hlv. unfold view. simpl. do 3 f_equal.
    destruct Hok. rewrite zlen_zdrop by lia.
    destruct (Z.ltb_spec (sync_consumed g') (zlen (sync_buf g'))), (Z.ltb_spec 0 (zlen (sync_buf g') - sync_consumed g')); lia.
  - apply Hk; [done..|lia|]. by rewrite Hv.
Qed.

(** The packet at the head of the live bytes, in the code and in the machine. *)
Definition taken (h : hunt) : hunt :=
  {| live := zdrop TS_PACKET_SIZE (live h); since := 0; synced := true; resync := false |}.

Lemma take_refines g c n (k : Ingress -> C -> outcome_t) (ka : C -> hunt * C * res PesParse.DemuxError unit) :
  ingress_ok g -> zlen (sync_buf g) <= n -> TS_PACKET_SIZE <= zlen (live (view g)) ->
  (forall g' c', ingress_ok g' -> zlen (sync_buf g') <= n -> view g' = taken (view g) -> refines (k g' c') (ka c') n) ->
  refines
    match compact_sync_buf (set_buf (set_sync g 0 true false) (sync_buf g) (sync_consumed g + TS_PACKET_SIZE)) with
    | Ok g0 =>
        match process c (ztake TS_PACKET_SIZE (live (view g))) with
        | (c0, Ok _) => k g0 c0
        | (c0, Err e) => (g0, c0, Err e)
        | (c0, Panic) => (g0, c0, Panic)
        end
    | Err e => (set_buf (set_sync g 0 true false) (sync_buf g) (sync_consumed g + TS_PACKET_SIZE), c, Err e)
    | Panic => (set_buf (set_sync g 0 true false) (sync_buf g) (sync_consumed g + TS_PACKET_SIZE), c, Panic)
    end
    match process c (ztake TS_PACKET_SIZE (live (view g))) with
    | (c0, Ok _) => ka c0
    | (c0, Err e) => (taken (view g), c0, Err e)
    | (c0, Panic) => (taken (view g), c0, Panic)
    end n.
Proof.
  intros [Hc1 Hc2] Hn Hlen Hk. set (g1 := set_buf _ _ _). assert (ingress_ok g1) as Hg1.
  { unfold g1, ingress_ok. simpl. unfold view in Hlen. simpl in Hlen. rewrite zlen_zdrop in Hlen by lia.
    unfold TS_PACKET_SIZE in *. lia. }
  assert (view g1 = taken (view g)) as Hv1.
  { unfold g1, view, taken. simpl. unfold TS_PACKET_SIZE. by rewrite zdrop_zdrop by lia. }
  destruct (compact_view (E:=PesParse.DemuxError) g1 Hg1) as (g' & -> & Hv & Hok & Hl).
  rewrite Hv1 in Hv. rewrite <- Hv. change (zlen (sync_buf g1)) with (zlen (sync_buf g)) in Hl.
  destruct (process _ _) as [c' []]; [apply Hk; [done|lia|done]|repeat split; try apply Hok; simpl; lia..].
Qed.

(** The code refines the machine step by step. *)
Lemma feed_loop_refines : forall fuel g c n, ingress_ok g -> zlen (sync_buf g) <= n ->
  refines (feed_loop process fuel g c (negb (is_synced g) && resync_required g)) (run process fuel (view g) c) n.
Proof.
  induction fuel as [|fuel IH]; intros g c n Hg Hn; [by repeat split; try apply Hg|].
  cbn [feed_loop Abstract.run]. destruct Hg as [Hc1 Hc2]. rewrite (proj2 (Z.ltb_ge _ _)) by lia.
  change (zdrop (sync_consumed g) (sync_buf g)) with (live (view g)).
  pose proof (next_skip (view g)) as Hskip. pose proof (next_take (view g)) as Htake. unfold next in *.
  destruct (Z.ltb_spec (zlen (live (view g))) TS_PACKET_SIZE) as [Hlen|Hlen].
  { by apply compact_return_refines. }
  unfold TS_PACKET_SIZE in Hlen. destruct (get_lt (live (view g)) 0) as [b0 Hb0]; [lia|]. rewrite Hb0 in *.
  destruct (Z.eqb_spec b0 TS_SYNC_BYTE) as [->|Hne]; simpl negb.
  - rewrite bool_decide_eq_true_2 in * by done. simpl negb in *. cbn iota in *.
    change (synced (view g)) with (is_synced g) in *. change (resync (view g)) with (resync_required g) in *.
    assert (forall g' c', ingress_ok g' -> zlen (sync_buf g') <= n -> view g' = taken (view g) ->
              refines (feed_loop process fuel g' c' false) (run process fuel (taken (view g)) c') n) as Hpkt.
    { intros g' c' Hok Hl Hview. specialize (IH g' c' n Hok Hl). rewrite Hview in IH.
      assert (is_synced g' = true /\ resync_required g' = false) as [Hs Hr]
        by (split; [exact (f_equal synced Hview)|exact (f_equal resync Hview)]).
      rewrite Hs, Hr in IH. exact IH. }
    destruct (negb (is_synced g) && resync_required g) eqn:Hrs; [|by apply (take_refines g c n (fun g c => feed_loop process fuel g c false) (run process fuel (taken (view g))))].
    destruct (verify SYNC_REACQ (live (view g)) 0) as [[]|] eqn:Hv.
    + by apply (take_refines g c n (fun g c => feed_loop process fuel g c false) (run process fuel (taken (view g)))).
    + apply consume_refines; [done|done|lia|..].
      * intros Hw. by rewrite (proj2 (Z.ltb_lt _ _)).
      * intros Hw g' Hok Hl Hview. rewrite (proj2 (Z.ltb_ge _ _)) by exact Hw.
        specialize (IH g' c n Hok Hl). rewrite Hview in IH.
        assert (is_synced g' = is_synced g /\ resync_required g' = resync_required g) as [Hs Hr]
          by (split; [exact (f_equal synced Hview)|exact (f_equal resync Hview)]).
        rewrite Hs, Hr, Hrs in IH. exact IH.
    + by apply compact_return_refines.
  - rewrite bool_decide_eq_false_2 in * by congruence. simpl negb in *. cbn iota in *.
    specialize (Hskip _ _ _ eq_refl).
    apply consume_refines; [split; simpl; lia|done|exact Hskip|..].
    + intros Hw. by rewrite (proj2 (Z.ltb_lt _ _)).
    + intros Hw g' Hok Hl Hview. rewrite (proj2 (Z.ltb_ge _ _)) by exact Hw.
      specialize (IH g' c n Hok Hl). rewrite Hview in IH.
      assert (is_synced g' = false /\ resync_required g' = true) as [Hs Hr]
        by (split; [exact (f_equal synced Hview)|exact (f_equal resync Hview)]).
      rewrite Hs, Hr in IH. exact IH.
Qed.

End run.

End IngressLemmas.

(** * The machine on a stream of bytes *)
Module Stream.
Import Common TsSync SyncLemmas Ingress Abstract IngressLemmas.

(** Bytes already known to hold no packet start may or may not have been
    skipped; [settle] skips them. *)
Definition settle (h : hunt) : hunt :=
  match live h with
  | b :: rest =>
      if b =? TS_SYNC_BYTE then h
      else let i := scan_from rest 1 in
           {| live := zdrop i (live h); since := since h + i; synced := false; resync := true |}
  | [] => h
  end.

#[global] Instance hunt_equiv : Equiv hunt := fun h h' => settle h = settle h'.

#[global] Instance hunt_equivalence : Equivalence (≡@{hunt}).
Proof. split; unfold equiv, hunt_equiv; [done|intros ? ? ->; done|intros ? ? ? -> ->; done]. Qed.

Definition waiting (h : hunt) : Prop := next h = Wait.

Section run.
Context {C : Type} (process : C -> list Z -> C * res PesParse.DemuxError unit).

Definition runs (h : hunt) (c : C) : hunt * C * res PesParse.DemuxError unit :=
  run process (S (length (live h))) h c.

Lemma runs_eq h c :
  runs h c =
  match next h with
  | Wait => (h, c, Ok tt)
  | Skip i s r =>
      let rest := zdrop i (live h) in
      if SYNC_SEARCH_WINDOW <? since h + i
      then ({| live := rest; since := 0; synced := false; resync := 0 <? zlen rest |}, c,
            Err (PesParse.Unrecoverable (since h + i)))
      else runs {| live := rest; since := since h + i; synced := s; resync := r |} c
  | Take =>
      match process c (ztake TS_PACKET_SIZE (live h)) with
      | (c, Ok _) => runs (taken h) c
      | (c, Err e) => (taken h, c, Err e)
      | (c, Panic) => (taken h, c, Panic)
      end
  end.
Proof.
  unfold runs at 1. cbn [run]. destruct (next h) as [|i s r|] eqn:Hn; [done|..].
  - apply next_skip in Hn. cbv zeta. destruct (_ <? _); [done|]. unfold runs. apply run_fuel; simpl; [|lia].
    unfold zdrop, zlen in *. rewrite length_drop. lia.
  - apply next_take in Hn as [Hl _]. unfold TS_PACKET_SIZE in Hl. destruct (process _ _) as [c' []]; [|done..].
    unfold runs. apply run_fuel; simpl; [|lia]. unfold TS_PACKET_SIZE, zdrop, zlen in *. rewrite length_drop. lia.
Qed.

Lemma ingest_runs h c input : ingest process h c input = runs (arrive h input) c.
Proof. done. Qed.

Lemma runs_waiting h c h' c' u : runs h c = (h', c', Ok u) -> waiting h'.
Proof.
  remember (length (live h)) as n eqn:Hn. revert h c Hn. induction (lt_wf n) as [n _ IH]. intros h c ->.
  rewrite runs_eq. destruct (next h) as [|i s r|] eqn:Hx; [intros [= <- <- <-]; exact Hx|..].
  - apply next_skip in Hx. cbv zeta. destruct (_ <? _); [done|]. apply (IH (length (zdrop i (live h)))); [|done].
    unfold zdrop, zlen in *. rewrite length_drop. lia.
  - apply next_take in Hx as [Hl _]. unfold TS_PACKET_SIZE in Hl. destruct (process _ _) as [c1 []]; [|done..].
    apply (IH (length (live (taken h)))); [|done]. simpl. unfold TS_PACKET_SIZE, zdrop, zlen in *. rewrite length_drop. lia.
Qed.

(** A machine that waits holds less than six packets and one byte. *)
Lemma waiting_residue h : waiting h -> zlen (live h) <= 1128.
Proof.
  unfold waiting, next. destruct (Z.ltb_spec (zlen (live h)) TS_PACKET_SIZE) as [Hl|Hl]; [unfold TS_PACKET_SIZE in Hl; lia|].
  destruct (negb _); [done|]. destruct (_ && _); [|done].
  destruct (verify SYNC_REACQ (live h) 0) as [[]|] eqn:Hv; [done..|]. intros _.
  destruct (decide (zlen (live h) <= 1128)) as [|Hgt]; [done|]. exfalso.
  assert (1 <= confirmations SYNC_REACQ <= window SYNC_REACQ) as Hs by (unfold SYNC_REACQ; simpl; unfold SYNC_REACQ_N, SYNC_REACQ_M; lia).
  destruct (verify_decided SYNC_REACQ (live h) 0 Hs) as [b Hb]; [lia| |congruence].
  unfold SYNC_REACQ, SYNC_REACQ_M, TS_PACKET_SIZE. simpl. lia.
Qed.


Lemma reacq_ok : sync_ok SYNC_REACQ.
Proof. unfold sync_ok, SYNC_REACQ, SYNC_REACQ_N, SYNC_REACQ_M. simpl. lia. Qed.

(** What the machine has decided, it decides the same with more bytes behind,
    apart from a scan that ran to the end. *)
Lemma next_arrive h more : next h <> Wait ->
  next (arrive h more) = next h \/
  (next h = Skip (zlen (live h)) false true /\ next (arrive h more) = Skip (zlen (live h) + scan_from more 0) false true).
Proof.
  unfold next. simpl. destruct (Z.ltb_spec (zlen (live h)) TS_PACKET_SIZE) as [|Hl]; [done|].
  unfold TS_PACKET_SIZE in *. intros Hw. pose proof (zlen_nonneg more).
  rewrite (proj2 (Z.ltb_ge (zlen (live h ++ more)) _)) by (rewrite zlen_app; lia).
  rewrite get_app_l by lia. case_bool_decide; simpl in *.
  - left. destruct (_ && _); [|done]. destruct (verify SYNC_REACQ (live h) 0) as [b|] eqn:Hv; [|done].
    by rewrite (verify_app SYNC_REACQ (live h) more 0 b reacq_ok (Z.le_refl 0) Hv).
  - assert (zdrop 1 (live h ++ more) = zdrop 1 (live h) ++ more) as ->.
    { unfold zdrop, zlen in *. rewrite drop_app_le by lia. done. }
    rewrite scan_from_app. rewrite zlen_zdrop by lia. replace (1 + (zlen (live h) - 1)) with (zlen (live h)) by lia.
    pose proof (scan_from_range (zdrop 1 (live h)) 1) as Hr. rewrite zlen_zdrop in Hr by lia.
    destruct (Z.ltb_spec (scan_from (zdrop 1 (live h)) 1) (zlen (live h))); [by left|right].
    replace (scan_from (zdrop 1 (live h)) 1) with (zlen (live h)) by lia. split; [done|].
    rewrite <- (Z.add_0_l (zlen (live h))), scan_from_shift. f_equal. lia.
Qed.

Lemma zdrop_app_le {A} (l k : list A) n : n <= zlen l -> zdrop n (l ++ k) = zdrop n l ++ k.
Proof. intros. unfold zdrop, zlen in *. by rewrite drop_app_le by lia. Qed.

Lemma ztake_app_le {A} (l k : list A) n : n <= zlen l -> ztake n (l ++ k) = ztake n l.
Proof. intros. unfold ztake, zlen in *. by rewrite take_app_le by lia. Qed.

Lemma arrive_nil h : arrive h [] = h.
Proof. unfold arrive. rewrite app_nil_r. by destruct h. Qed.

(** Every outcome but that of a search that gave up. *)
Definition tuned (o : res PesParse.DemuxError unit) : Prop := forall n, o <> Err (PesParse.Unrecoverable n).

(** After a scan that ran to the end of the buffer. *)
Lemma scan_resume more s c h' c' o :
  s + scan_from more 0 <= SYNC_SEARCH_WINDOW ->
  runs {| live := zdrop (scan_from more 0) more; since := s + scan_from more 0; synced := false; resync := true |} c = (h', c', o) ->
  exists h2, runs {| live := more; since := s; synced := false; resync := true |} c = (h2, c', o) /\ h2 ≡ h'.
Proof.
  intros Hw Hr. pose proof (scan_from_range more 0) as Hrg. destruct more as [|b more].
  { simpl in Hr. rewrite Z.add_0_r in Hr. eauto. }
  cbn [scan_from] in *. destruct (Z.eqb_spec b TS_SYNC_BYTE) as [->|Hb].
  { rewrite zdrop_0, Z.add_0_r in Hr. eauto. }
  set (j := scan_from more (0 + 1)) in *. change (0 + 1) with 1 in j.
  assert (settle {| live := b :: more; since := s; synced := false; resync := true |} =
          {| live := zdrop j (b :: more); since := s + j; synced := false; resync := true |}) as Hset.
  { unfold settle. simpl. by rewrite (proj2 (Z.eqb_neq _ _)). }
  rewrite runs_eq. unfold next. simpl live. destruct (Z.ltb_spec (zlen (b :: more)) TS_PACKET_SIZE) as [Hl|Hl].
  - rewrite runs_eq in Hr. unfold next in Hr. simpl live in Hr. rewrite (proj2 (Z.ltb_lt _ _)) in Hr.
    2:{ rewrite zlen_zdrop by lia. unfold TS_PACKET_SIZE in *. lia. }
    injection Hr as <- <- <-. eexists. split; [reflexivity|]. unfold equiv, hunt_equiv. rewrite Hset. unfold settle. simpl live.
    destruct (zdrop j (b :: more)) as [|b' r] eqn:Hd; [done|].
    assert (get (zdrop j (b :: more)) 0 = Some b') as Hg by by rewrite Hd.
    rewrite get_zdrop in Hg by lia. rewrite Z.add_0_r in Hg.
    assert (j < 1 + zlen more) as Hj by (pose proof (get_Some _ _ _ Hg) as Hx; rewrite zlen_cons in Hx; clear -Hx; lia).
    pose proof (scan_from_stop more 1 Hj) as Hs.
    pose proof (scan_from_range more 1) as Hr1. fold j in Hr1. replace j with (1 + (j - 1)) in Hg by lia. rewrite get_cons_S in Hg by lia. unfold j in Hg.
    rewrite Hs in Hg. injection Hg as <-. by rewrite Z.eqb_refl.
  - unfold get at 1. simpl. rewrite bool_decide_eq_false_2 by congruence. simpl negb. cbn iota. cbv zeta. simpl since.
    change (zdrop 1 (b :: more)) with more. fold j. rewrite (proj2 (Z.ltb_ge _ _)) by lia. eauto.
Qed.

(** A run on more bytes is the run on the first ones, then the rest of the run,
    unless the first bytes already end it. *)
Lemma runs_split h more c h' c' o : runs (arrive h more) c = (h', c', o) -> tuned o ->
  (exists h1 c1 h2, runs h c = (h1, c1, Ok tt) /\ runs (arrive h1 more) c1 = (h2, c', o) /\ h2 ≡ h') \/
  (o <> Ok tt /\ exists h1, runs h c = (h1, c', o) /\ arrive h1 more = h').
Proof.
  intros Hr Ho. remember (length (live h)) as n eqn:Hn. revert h c Hn Hr. induction (lt_wf n) as [n _ IH]. intros h c -> Hr.
  destruct (next h) as [|i s r|] eqn:Hx.
  - left. exists h, c, h'. split; [by rewrite runs_eq, Hx|]. done.
  - pose proof (next_skip _ _ _ _ Hx) as Hi. destruct (next_arrive h more) as [Ha|[Ha Ha']]; [congruence|..].
    + rewrite runs_eq, Ha, Hx in Hr. cbv zeta in Hr. rewrite (runs_eq h), Hx. cbv zeta. simpl since in Hr.
      destruct (_ <? _); [injection Hr as _ _ <-; by destruct (Ho _ eq_refl)|]. simpl live in Hr. rewrite zdrop_app_le in Hr by lia.
      apply (IH (length (zdrop i (live h))) ltac:(unfold zdrop, zlen in *; rewrite length_drop; lia)
        {| live := zdrop i (live h); since := since h + i; synced := s; resync := r |} c eq_refl Hr).
    + rewrite Hx in Ha. injection Ha as -> -> ->. rewrite runs_eq, Ha' in Hr. cbv zeta in Hr. simpl since in Hr.
      destruct (Z.ltb_spec SYNC_SEARCH_WINDOW (since h + (zlen (live h) + scan_from more 0))) as [|Hw]; [injection Hr as _ _ <-; by destruct (Ho _ eq_refl)|].
      pose proof (scan_from_range more 0) as Hrg.
      assert (zdrop (zlen (live h) + scan_from more 0) (live h ++ more) = zdrop (scan_from more 0) more) as Hd.
      { rewrite <- zdrop_zdrop, zdrop_app by lia. done. }
      simpl live in Hr. rewrite Hd, Z.add_assoc in Hr.
      destruct (scan_resume more (since h + zlen (live h)) c h' c' o) as (h2 & Hr2 & He); [lia|done|].
      left. eexists {| live := []; since := since h + zlen (live h); synced := false; resync := true |}, c, h2.
      split; [|split; [exact Hr2|done]].
      rewrite runs_eq, Hx. cbv zeta. rewrite (proj2 (Z.ltb_ge _ _)) by lia. rewrite zdrop_all by lia. by rewrite runs_eq.
  - pose proof (next_take _ Hx) as [Hl _]. destruct (next_arrive h more) as [Ha|[Ha _]]; [congruence| |congruence].
    rewrite runs_eq, Ha, Hx in Hr. rewrite (runs_eq h), Hx. simpl live in Hr. rewrite ztake_app_le in Hr by lia.
    assert (taken (arrive h more) = arrive (taken h) more) as Ht.
    { unfold taken, arrive. simpl. by rewrite zdrop_app_le. }
    rewrite Ht in Hr. destruct (process c _) as [c0 []] eqn:Hp; [|injection Hr as <- <- <-; right; split; [done|]; by eexists..].
    apply (IH (length (live (taken h)))) in Hr; [done| |done].
    simpl. unfold TS_PACKET_SIZE, zdrop, zlen in *. rewrite length_drop. lia.
Qed.

End run.
End Stream.

(** * Chunks, packets and garbage *)
Module IngressTheorems.
Import Common TsSync SyncLemmas Ingress Abstract IngressLemmas Stream.

Section run.
Context {C : Type} (process : C -> list Z -> C * res PesParse.DemuxError unit).

(** One [feed] per chunk, until one of them fails. *)
Fixpoint feeds (cap : Z) (g : Ingress) (c : C) (chunks : list (list Z)) : outcome_t (C:=C) :=
  match chunks with
  | [] => (g, c, Ok tt)
  | x :: chunks =>
      match feed process cap true g c x with
      | (g, c, Ok _) => feeds cap g c chunks
      | o => o
      end
  end.

Lemma feed_ingest cap g c x : ingress_ok g -> cap < u64_max -> zlen (live (view g)) + zlen x <= cap ->
  refines (feed process cap true g c x) (ingest process (view g) c x) cap.
Proof.
  intros [Hc1 Hc2] Hcap Hfit. unfold feed.
  set (g0 := if (0 <? sync_consumed g) && _ then _ else g).
  assert (ingress_ok g0 /\ view g0 = view g /\ zlen (sync_buf g0) + zlen x <= cap) as (Hg0 & Hv & Hl).
  { unfold view in Hfit. simpl in Hfit. rewrite zlen_zdrop in Hfit by lia. unfold g0.
    destruct (Z.ltb_spec 0 (sync_consumed g)) as [Hp|Hp]; simpl.
    - destruct (Z.ltb_spec cap (Z.min u64_max (zlen (sync_buf g) + zlen x))) as [Hx|Hx].
      + unfold ingress_ok, view. simpl. rewrite zdrop_0, zlen_zdrop by lia. repeat split; lia.
      + split; [done|]. split; [done|]. lia.
    - split; [done|]. split; [done|]. lia. }
  rewrite (proj2 (Z.ltb_ge u64_max _)), (proj2 (Z.ltb_ge cap _)) by lia. simpl.
  set (g1 := set_buf g0 _ _).
  assert (ingress_ok g1 /\ view g1 = arrive (view g) x /\ zlen (sync_buf g1) <= cap) as (Hg1 & Hv1 & Hl1).
  { unfold g1, ingress_ok. simpl. destruct Hg0. pose proof (zlen_nonneg x). rewrite zlen_app. split; [lia|]. split; [|lia].
    rewrite <- Hv. unfold view, arrive. simpl. by rewrite zdrop_app_le by lia. }
  pose proof (feed_loop_refines process (S (length (sync_buf g1))) g1 c cap Hg1 Hl1) as Hr.
  change (is_synced g0) with (is_synced g1). change (resync_required g0) with (resync_required g1).
  rewrite Hv1 in Hr. unfold ingest.
  assert (length (live (arrive (view g) x)) <= length (sync_buf g1))%nat as Hf.
  { rewrite <- Hv1. unfold view, zdrop. simpl. rewrite length_drop. lia. }
  rewrite (run_fuel process _ (S (length (sync_buf g1)))); [exact Hr|simpl; lia|lia].
Qed.

(** Bytes in chunks, against the machine on all the bytes at once. *)
Lemma feeds_ingest cap : cap < u64_max -> forall chunks g c h' c' o,
  ingress_ok g -> waiting (view g) -> Forall (fun x => zlen x <= cap - 1128) chunks ->
  ingest process (view g) c (concat chunks) = (h', c', o) -> tuned o ->
  exists g' fed rest, chunks = fed ++ rest /\ feeds cap g c chunks = (g', c', o) /\ ingress_ok g' /\
    arrive (view g') (concat rest) ≡ h' /\ (o = Ok tt -> rest = []).
Proof.
  intros Hcap. induction chunks as [|x chunks IH]; intros g c h' c' o Hg Hw Hx Hin Ht; cbn [feeds concat] in *.
  - rewrite ingest_runs in Hin.
    rewrite arrive_nil, runs_eq, Hw in Hin. injection Hin as <- <- <-. exists g, [], []. cbn [concat]. by rewrite arrive_nil.
  - apply Forall_cons in Hx as [Hx1 Hx2].
    assert (runs process (arrive (arrive (view g) x) (concat chunks)) c = (h', c', o)) as Hr.
    { rewrite <- Hin, ingest_runs. unfold arrive. simpl. by rewrite app_assoc. }
    pose proof (waiting_residue _ Hw) as Hres.
    destruct (feed_ingest cap g c x Hg Hcap) as (Hfx & Hok & Hlen); [lia|]. rewrite ingest_runs in Hfx.
    destruct (feed process cap true g c x) as [[g1 c1'] o1]. simpl in Hfx, Hok.
    destruct (runs_split process _ _ _ _ _ _ Hr Ht) as [(h1 & c1 & h2 & H1 & H2 & H3)|(Hne & h1 & H1 & <-)]; rewrite H1 in Hfx.
    + injection Hfx as -> -> <-.
      destruct (IH g1 c1' h2 c' o Hok (runs_waiting process _ _ _ _ _ H1) Hx2) as (g' & fed & rest & -> & Hf & Hg' & He & Hrest); [by rewrite ingest_runs|done|].
      exists g', (x :: fed), rest. split; [done|]. split; [done|]. split; [done|]. split; [by rewrite He|done].
    + injection Hfx as -> -> <-. exists g1, [x], chunks. split; [done|]. split; [by destruct o as [[]| |]|]. split; [done|]. split; [done|].
      intros ->. by destruct Hne.
Qed.

Definition packet (p : list Z) : Prop := zlen p = TS_PACKET_SIZE /\ get p 0 = Some TS_SYNC_BYTE.

(** A machine that takes a packet start at its word. *)
Definition trusting (h : hunt) : Prop := negb (synced h) && resync h = false.

Lemma take_packet h c p rest : packet p -> trusting h -> live h = p ++ rest ->
  runs process h c =
  match process c p with
  | (c, Ok _) => runs process {| live := rest; since := 0; synced := true; resync := false |} c
  | (c, Err e) => ({| live := rest; since := 0; synced := true; resync := false |}, c, Err e)
  | (c, Panic) => ({| live := rest; since := 0; synced := true; resync := false |}, c, Panic)
  end.
Proof.
  intros [Hl Hg] Ht Hlive. rewrite runs_eq. unfold next. rewrite Hlive. pose proof (zlen_nonneg rest).
  rewrite (proj2 (Z.ltb_ge _ _)) by (rewrite zlen_app; lia).
  rewrite get_app_l, Hg by (unfold TS_PACKET_SIZE in *; lia). rewrite bool_decide_eq_true_2 by done. simpl negb. cbn iota.
  rewrite Ht. unfold taken. rewrite Hlive. rewrite ztake_app', zdrop_app' by done. done.
Qed.

Lemma runs_packets : forall pkts h c c', Forall packet pkts -> trusting h -> live h = concat pkts ->
  each process c pkts = (c', Ok tt) ->
  exists h', runs process h c = (h', c', Ok tt) /\ live h' = [] /\ trusting h'.
Proof.
  induction pkts as [|p pkts IH]; intros h c c' Hp Ht Hl He; cbn [each concat] in *.
  - injection He as <-. exists h. rewrite runs_eq. unfold next. by rewrite Hl.
  - apply Forall_cons in Hp as [Hp1 Hp2]. rewrite (take_packet h c p (concat pkts)) by done.
    destruct (process c p) as [c1 []]; [|done..]. by apply IH.
Qed.

Lemma concat_stride pkts k : Forall packet pkts -> 0 <= k < zlen pkts ->
  get (concat pkts) (k * TS_PACKET_SIZE) = Some TS_SYNC_BYTE.
Proof.
  intros Hp. revert k. induction Hp as [|p pkts [Hl Hg] Hp IH]; intros k Hk; [unfold zlen in Hk; simpl in Hk; lia|].
  rewrite zlen_cons in Hk. cbn [concat]. destruct (decide (k = 0)) as [->|Hn].
  - rewrite Z.mul_0_l, get_app_l; [done|]. unfold TS_PACKET_SIZE in *; lia.
  - rewrite get_app_r by (unfold TS_PACKET_SIZE in *; lia). rewrite Hl. rewrite <- (IH (k - 1)) by lia. f_equal.
    unfold TS_PACKET_SIZE. lia.
Qed.

Lemma zlen_packets pkts : Forall packet pkts -> zlen (concat pkts) = 188 * zlen pkts.
Proof.
  induction 1 as [|p l [Hl _] _ IH]; [done|]. cbn [concat]. rewrite zlen_app, zlen_cons, Hl, IH. unfold TS_PACKET_SIZE. lia.
Qed.

(** Seven packets in a row pass the re-acquisition rule. *)
Lemma verify_packets pkts : Forall packet pkts -> 7 <= zlen pkts -> verify SYNC_REACQ (concat pkts) 0 = Some true.
Proof.
  intros Hp Hn. apply verify_true; [apply reacq_ok|lia|].
  assert (forall k, 0 <= k < 7 -> hit (concat pkts) (0 + k * TS_PACKET_SIZE) = true) as Hh.
  { intros k Hk. apply bool_decide_eq_true_2. rewrite Z.add_0_l. apply concat_stride; [done|lia]. }
  split; [exact (Hh 0 ltac:(lia))|]. unfold hits, SYNC_REACQ, SYNC_REACQ_M, SYNC_REACQ_N. simpl window. simpl confirmations.
  change (seqZ 0 7) with [0; 1; 2; 3; 4; 5; 6]. rewrite !tally_cons, !Hh by lia. vm_compute. discriminate.
Qed.

(** Garbage in which no offset is a boundary, then packets. *)
Lemma runs_resync pkts c c' : Forall packet pkts -> 7 <= zlen pkts -> each process c pkts = (c', Ok tt) ->
  forall g s, s + zlen g <= SYNC_SEARCH_WINDOW ->
  (forall q, 0 <= q < zlen g -> verify SYNC_REACQ (g ++ concat pkts) q = Some false) ->
  exists h', runs process {| live := g ++ concat pkts; since := s; synced := false; resync := true |} c = (h', c', Ok tt) /\
             live h' = [] /\ trusting h'.
Proof.
  intros Hp Hn He g. remember (length g) as n eqn:Hlg. revert g Hlg. induction (lt_wf n) as [n _ IH]. intros g -> s Hs Hv.
  pose proof (concat_stride pkts 0 Hp ltac:(lia)) as H0. rewrite Z.mul_0_l in H0.
  assert (forall i, 1 <= i <= zlen g -> exists h',
    runs process {| live := zdrop i (g ++ concat pkts); since := s + i; synced := false; resync := true |} c = (h', c', Ok tt) /\
    live h' = [] /\ trusting h') as Hstep.
  { intros i Hi. rewrite zdrop_app_le by lia. apply (IH (length (zdrop i g))); [|done|rewrite zlen_zdrop by lia; lia|].
    - unfold zdrop, zlen in *. rewrite length_drop. lia.
    - intros q Hq. rewrite zlen_zdrop in Hq by lia. rewrite <- zdrop_app_le by lia.
      rewrite <- (Hv (i + q)) by lia. rewrite <- verify_shift, <- (verify_shift _ _ (i + q)) by lia.
      by rewrite zdrop_zdrop by lia. }
  assert (7 * 188 <= zlen (concat pkts)) as Hlen.
  { rewrite zlen_packets by done. lia. }
  destruct g as [|b g].
  { destruct pkts as [|p pkts]; [unfold zlen in Hn; simpl in Hn; lia|]. pose proof Hp as [[Hl Hg] _]%Forall_cons.
    rewrite app_nil_l, runs_eq. unfold next. cbn [live since synced resync]. rewrite (proj2 (Z.ltb_ge _ _)) by (unfold TS_PACKET_SIZE; lia).
    rewrite H0. rewrite bool_decide_eq_true_2 by done. simpl negb. cbn [andb]. cbn iota.
    rewrite verify_packets by done.
    cbn [each concat] in *. rewrite ztake_app' by done. destruct (process c p) as [c1 []]; [|done..].
    apply runs_packets with pkts; [by apply Forall_cons in Hp as [_ ?]|done| |done]. simpl. by rewrite zdrop_app'. }
  rewrite runs_eq. unfold next. cbn [live since synced resync app]. pose proof (zlen_nonneg g).
  rewrite (proj2 (Z.ltb_ge _ _)) by (rewrite zlen_cons, zlen_app; unfold TS_PACKET_SIZE; lia).
  change (get (b :: g ++ concat pkts) 0) with (Some b). rewrite zlen_cons in *. case_bool_decide as Hb; simpl negb; cbn [andb]; cbn iota.
  - specialize (Hv 0 ltac:(lia)). cbn [app] in Hv. rewrite Hv. cbv zeta. simpl since. rewrite (proj2 (Z.ltb_ge _ _)) by lia. apply Hstep. lia.
  - cbv zeta. simpl since. change (zdrop 1 (b :: g ++ concat pkts)) with (g ++ concat pkts).
    set (i := scan_from (g ++ concat pkts) 1). assert (1 <= i <= 1 + zlen g) as Hi.
    { unfold i. pose proof (scan_from_range (g ++ concat pkts) 1). split; [lia|]. rewrite scan_from_app.
      destruct (Z.ltb_spec (scan_from g 1) (1 + zlen g)); [lia|].
      destruct (concat pkts) as [|x r]; [done|]. injection H0 as ->. simpl. lia. }
    rewrite (proj2 (Z.ltb_ge _ _)) by lia. by apply Hstep.
Qed.

End run.

(** C31: Bytes fed in chunks that each leave 1,128 bytes of the cap free, until a
    call fails, give the outcome of the packet machine on all the bytes at once,
    and of one [feed] of them all where they fit: the packet handler has seen
    exactly the same packets in the same order, the call that fails fails with
    the same error of the handler, and the bytes left pending, with the chunks
    not fed, are the bytes the one call leaves, up to bytes already searched for
    a packet start. Compaction and the cursor are invisible. Left out is the
    search that gives up ([Unrecoverable]), whose byte count and moment depend on
    the cut. *)
Theorem feed_chunking {C : Type} (process : C -> list Z -> C * res PesParse.DemuxError unit)
    (cap : Z) (g : Ingress) (c c' : C) (chunks : list (list Z)) (h' : hunt) (o : res PesParse.DemuxError unit) :
  cap < u64_max -> ingress_ok g -> waiting (view g) -> Forall (fun x => zlen x <= cap - 1128) chunks ->
  ingest process (view g) c (concat chunks) = (h', c', o) -> tuned o ->
  (exists g' fed rest, chunks = fed ++ rest /\ feeds process cap g c chunks = (g', c', o) /\ ingress_ok g' /\
     arrive (view g') (concat rest) ≡ h' /\ (o = Ok tt -> rest = [])) /\
  (zlen (live (view g)) + zlen (concat chunks) <= cap ->
   exists g1, feed process cap true g c (concat chunks) = (g1, c', o) /\ view g1 = h').
Proof.
  intros Hcap Hg Hw Hx Hin Ho. split; [by eapply feeds_ingest|]. intros Hfit.
  destruct (feed_ingest process cap g c (concat chunks) Hg Hcap Hfit) as (Hf & _). rewrite Hin in Hf.
  destruct (feed process cap true g c (concat chunks)) as [[g1 c1] o1]. simpl in Hf. injection Hf as Hv -> ->. by exists g1.
Qed.

(** Garbage without a boundary, then packets, in chunks. *)
Lemma feeds_recover {C : Type} (process : C -> list Z -> C * res PesParse.DemuxError unit)
    (cap : Z) (c c' : C) (garbage : list Z) (pkts chunks : list (list Z)) :
  cap < u64_max ->
  get garbage 0 <> Some TS_SYNC_BYTE -> zlen garbage <= SYNC_SEARCH_WINDOW ->
  (forall q, 0 <= q < zlen garbage -> verify SYNC_REACQ (garbage ++ concat pkts) q = Some false) ->
  Forall packet pkts -> (garbage = [] \/ 7 <= zlen pkts) -> each process c pkts = (c', Ok tt) ->
  concat chunks = garbage ++ concat pkts -> Forall (fun x => zlen x <= cap - 1128) chunks ->
  exists g', feeds process cap fresh c chunks = (g', c', Ok tt) /\ live (settle (view g')) = [].
Proof.
  intros Hcap Hg Hw Hv Hp Hn He Hcat Hch.
  assert (exists h', ingest process (view fresh) c (garbage ++ concat pkts) = (h', c', Ok tt) /\ live h' = []) as (h' & Hin & Hl).
  { rewrite ingest_runs. unfold arrive, view, fresh. simpl. destruct garbage as [|b g].
    - destruct (runs_packets process pkts {| live := concat pkts; since := 0; synced := false; resync := false |} c c' Hp)
        as (h' & ? & ? & _); [done..|]. eauto.
    - assert (7 <= zlen pkts) as Hn7 by (by destruct Hn). destruct (runs_resync process pkts c c' Hp Hn7 He (b :: g) 0) as (h' & Hr & ? & _); [lia|done|].
      exists h'. split; [|done]. rewrite <- Hr, !runs_eq. unfold next. simpl live.
      rewrite (proj2 (Z.ltb_ge _ _)); [by rewrite bool_decide_eq_false_2 by done|].
      rewrite zlen_cons, zlen_app, zlen_packets by done. pose proof (zlen_nonneg g). unfold TS_PACKET_SIZE. lia. }
  rewrite <- Hcat in Hin. destruct (feeds_ingest process cap Hcap chunks fresh c h' c' (Ok tt)) as (g' & fed & rest & -> & Hf & _ & Heq & Hr); [done..|].
  rewrite (Hr eq_refl), arrive_nil in *. exists g'. split; [done|]. unfold equiv, hunt_equiv in Heq. rewrite Heq. unfold settle. by rewrite Hl.
Qed.

(** Packets that follow garbage are all recovered. When no offset of the
    garbage passes the re-acquisition rule and the garbage fits the search
    window, a demuxer fed the garbage and then seven packets or more, cut into
    chunks in any way, processes exactly those packets, in order. *)
Theorem feed_resyncs {C : Type} (process : C -> list Z -> C * res PesParse.DemuxError unit)
    (cap : Z) (c c' : C) (garbage : list Z) (pkts chunks : list (list Z)) :
  cap < u64_max ->
  get garbage 0 <> Some TS_SYNC_BYTE -> zlen garbage <= SYNC_SEARCH_WINDOW ->
  (forall q, 0 <= q < zlen garbage -> verify SYNC_REACQ (garbage ++ concat pkts) q = Some false) ->
  Forall packet pkts -> 7 <= zlen pkts -> each process c pkts = (c', Ok tt) ->
  concat chunks = garbage ++ concat pkts -> Forall (fun x => zlen x <= cap - 1128) chunks ->
  exists g', feeds process cap fresh c chunks = (g', c', Ok tt) /\ live (settle (view g')) = [].
Proof. intros. eapply feeds_recover; eauto. Qed.

(** A handler that keeps every packet, a packet, and seven of them after a stray byte. *)
Definition collect (c : list (list Z)) (p : list Z) : list (list Z) * res PesParse.DemuxError unit := (c ++ [p], Ok tt).
Definition null_packet : list Z := [0x47; 0x1F; 0xFF; 0x10] ++ zrep 184 0xFF.

(** One that refuses its second packet. *)
Definition collect_one (c : list (list Z)) (p : list Z) : list (list Z) * res PesParse.DemuxError unit :=
  if zlen c =? 1 then (c, Err (PesParse.MalformedPes 0x1FFF "again"%string)) else (c ++ [p], Ok tt).

Lemma feed_chunking_witness :
  exists g' fed rest, [ztake 100 null_packet; zdrop 100 null_packet ++ null_packet; [1; 2]] = fed ++ rest /\
    feeds collect_one MAX_SYNC_BUF_BYTES fresh [] [ztake 100 null_packet; zdrop 100 null_packet ++ null_packet; [1; 2]] =
      (g', [null_packet], Err (PesParse.MalformedPes 0x1FFF "again"%string)) /\ ingress_ok g' /\
    arrive (view g') (concat rest) ≡ {| live := [1; 2]; since := 0; synced := true; resync := false |} /\ (Err (PesParse.MalformedPes 0x1FFF "again"%string) = Ok tt -> rest = []).
Proof.
  apply (feed_chunking collect_one MAX_SYNC_BUF_BYTES fresh [] [null_packet]);
    [vm_compute; reflexivity|vm_compute; split; discriminate|vm_compute; reflexivity| |vm_compute; reflexivity|discriminate].
  repeat constructor; vm_compute; discriminate.
Defined.

Lemma feed_resyncs_witness :
  exists g', feeds collect MAX_SYNC_BUF_BYTES fresh [] [0 :: ztake 100 null_packet; zdrop 100 null_packet ++ concat (replicate 6 null_packet)] =
             (g', replicate 7 null_packet, Ok tt) /\ live (settle (view g')) = [].
Proof.
  apply (feed_resyncs collect MAX_SYNC_BUF_BYTES [] (replicate 7 null_packet) [0] (replicate 7 null_packet));
    [vm_compute; reflexivity|vm_compute; discriminate|vm_compute; discriminate| | |vm_compute; discriminate|vm_compute; reflexivity
    |vm_compute; reflexivity|repeat constructor; vm_compute; discriminate].
  - intros q Hq. assert (q = 0) as -> by (change (zlen [0]) with 1 in Hq; lia). vm_compute. reflexivity.
  - repeat constructor.
Defined.

End IngressTheorems.
