(* ===== verification/DemuxTime.v ===== *)
(** * The demuxer's clocks

    [mpegts/demux/timestamp.rs]: [TimestampUnwrapper] puts 33-bit presentation
    times on a continuous timeline, per program; [PcrHistory] remembers the last
    program clock reference of every declared PID. Tick values are [i64] in the
    code; the statistics counter [reanchors] wraps as in a release build. *)
From Stdlib Require Import ZArith Lia Bool.
From stdpp Require Import base list list_numbers gmap.
From S2P Require Import Prelude.
From S2P Require Import Common.

(** * The code *)
Module Timestamp.
Import Common.

Record UnwrapState : Type := { last_raw : Z; last_unwrapped : Z }.

#[global] Instance UnwrapState_eq_dec : EqDecision UnwrapState.
Proof. solve_decision. Defined.

Record TimestampUnwrapper : Type := { program_clock : gmap Z UnwrapState; reanchors : Z }.

Definition new : TimestampUnwrapper := {| program_clock := ∅; reanchors := 0 |}.

Definition reset_reanchors (u : TimestampUnwrapper) : TimestampUnwrapper :=
  {| program_clock := program_clock u; reanchors := 0 |}.

Definition clear (u : TimestampUnwrapper) : TimestampUnwrapper :=
  {| program_clock := ∅; reanchors := reanchors u |}.

Definition retire_program (u : TimestampUnwrapper) (program : Z) : TimestampUnwrapper :=
  {| program_clock := delete program (program_clock u); reanchors := reanchors u |}.

(** [s.last_unwrapped.saturating_add(pts_diff_33bit(raw, s.last_raw))]. *)
Definition place {E} (s : UnwrapState) (raw_ticks : Z) : res E Z :=
  let! d := pts_diff_33bit (as_u64 raw_ticks) (as_u64 (last_raw s)) in
  Ok (sat_i64 (last_unwrapped s + d)).

Definition anchor_first_sample {E} (u : TimestampUnwrapper) (program : option Z) (raw_ticks : Z) : res E Z :=
  match program ≫= fun p => program_clock u !! p with
  | Some reference => place reference raw_ticks
  | None => Ok raw_ticks
  end.

Definition dormant_reanchor {E} (u : TimestampUnwrapper) (program : option Z) (raw_ticks : Z) (state : UnwrapState)
    : res E (option Z) :=
  let HALF_EPOCH := Z.shiftl 1 32 in
  match program ≫= fun p => program_clock u !! p with
  | None => Ok None
  | Some reference =>
      if last_unwrapped reference <=? last_unwrapped state then Ok None
      else
        let! via_program := place reference raw_ticks in
        let implied_gap := sat_i64 (via_program - last_unwrapped state) in
        let! magnitude := chk_i64 (Z.abs implied_gap) in
        Ok (if HALF_EPOCH <? magnitude then Some via_program else None)
  end.

(** The unwrapper, the PID's accumulator and the value it emits. *)
Definition unwrap {E} (u : TimestampUnwrapper) (own : option UnwrapState) (program : option Z) (raw_ticks : Z)
    : res E (TimestampUnwrapper * option UnwrapState * Z) :=
  let! (unwrapped, anchors) :=
    match own with
    | Some state =>
        let! r := dormant_reanchor u program raw_ticks state in
        match r with
        | Some via_program => Ok (via_program, as_u64 (reanchors u + 1))
        | None => let! v := place state raw_ticks in Ok (v, reanchors u)
        end
    | None => let! v := anchor_first_sample u program raw_ticks in Ok (v, reanchors u)
    end in
  let entry := {| last_raw := raw_ticks; last_unwrapped := unwrapped |} in
  let clock := match program with
               | Some prog => <[prog := entry]> (program_clock u)
               | None => program_clock u
               end in
  Ok ({| program_clock := clock; reanchors := anchors |}, Some entry, unwrapped).

Definition dts_with_pts {E} (unwrapped_pts pts_raw dts_raw : Z) : res E Z :=
  let! delta := pts_diff_33bit (as_u64 dts_raw) (as_u64 pts_raw) in
  chk_i64 (unwrapped_pts + delta).

Definition secondary (own : option UnwrapState) (raw : Z) : Z :=
  let offset := match own with Some s => sat_i64 (last_unwrapped s - last_raw s) | None => 0 end in
  sat_i64 (offset + raw).

Record PcrHistory : Type := { pcr_last : gmap Z Z; new_timebase : gset Z }.

Definition pcr_new : PcrHistory := {| pcr_last := ∅; new_timebase := ∅ |}.

Definition last (h : PcrHistory) (pid : Z) : option Z := pcr_last h !! pid.

Definition record (h : PcrHistory) (pid pcr_27mhz : Z) : PcrHistory :=
  {| pcr_last := <[pid := pcr_27mhz]> (pcr_last h); new_timebase := new_timebase h |}.

Definition expect_new_timebase (h : PcrHistory) (pid : Z) : PcrHistory :=
  {| pcr_last := pcr_last h; new_timebase := {[pid]} ∪ new_timebase h |}.

Definition take_new_timebase (h : PcrHistory) (pid : Z) : bool * PcrHistory :=
  (bool_decide (pid ∈ new_timebase h), {| pcr_last := pcr_last h; new_timebase := new_timebase h ∖ {[pid]} |}).

Definition pcr_clear (h : PcrHistory) : PcrHistory := pcr_new.

Definition retain_declared (h : PcrHistory) (declared : Z -> bool) : PcrHistory :=
  {| pcr_last := filter (fun e => declared e.1 = true) (pcr_last h);
     new_timebase := filter (fun pid => declared pid = true) (new_timebase h) |}.

End Timestamp.

(** * One program's timeline *)
Module Timeline.
Import Common Timestamp.

(** A sample: the PID it comes on and its true time. *)
Record sample : Type := { on : Z; time : Z }.

(** The samples of one program in arrival order, each unwrapped from the 33 bits
    the wire carries. The accumulators are kept per PID. *)
Fixpoint unwrap_all {E} (prog : Z) (u : TimestampUnwrapper) (own : gmap Z UnwrapState) (ss : list sample) : res E (list Z) :=
  match ss with
  | [] => Ok []
  | s :: ss =>
      let! (u, st, v) := unwrap u (own !! on s) (Some prog) (time s mod 2 ^ 33) in
      let own := match st with Some st => <[on s := st]> own | None => own end in
      let! vs := unwrap_all prog u own ss in
      Ok (v :: vs)
  end.

(** Every sample stays within a quarter epoch of the latest time seen before. *)
Fixpoint orderly (latest : Z) (ss : list sample) : Prop :=
  match ss with
  | [] => True
  | s :: ss => Z.abs (time s - latest) < 2 ^ 31 /\ orderly (Z.max latest (time s)) ss
  end.

Definition placed (d : Z) (st : UnwrapState) (t : Z) : Prop :=
  last_raw st = t mod 2 ^ 33 /\ last_unwrapped st = t + d.

(** [d] is a whole number of epochs away from the true time. *)
Definition in_range (d : Z) (ss : list sample) : Prop := Forall (fun s => Z.abs (time s + d) <= 2 ^ 61) ss.

Lemma place_exact {E} d st t t' : placed d st t -> - 2 ^ 32 < t' - t <= 2 ^ 32 -> Z.abs (t' + d) <= 2 ^ 61 ->
  place (E:=E) st (t' mod 2 ^ 33) = Ok (t' + d).
Proof.
  intros [Hr Hu] Hd Hb. unfold place. rewrite Hr, Hu.
  assert (forall x, as_u64 (x mod 2 ^ 33) = x mod 2 ^ 33) as Hc.
  { intros x. unfold as_u64. apply Z.mod_small. pose proof (Z.mod_pos_bound x (2 ^ 33)). lia. }
  rewrite !Hc. destruct (pts_diff_ok (E:=E) (t' mod 2 ^ 33) (t mod 2 ^ 33)) as (x & -> & Hx & Hm);
    [unfold pts33; apply Z.mod_pos_bound; lia..|]. rb. f_equal. unfold sat_i64, i64_min, i64_max.
  assert (x = t' - t) as ->; [|lia].
  apply (pts_diff_unique x (t' - t) (t mod 2 ^ 33) (t' mod 2 ^ 33)); [done..|].
  rewrite Z.add_mod_idemp_l by lia. f_equal. lia.
Qed.

(** The state between samples: the clock holds the last one, every accumulator
    the last one of its PID. *)
Record synced (d prog latest : Z) (u : TimestampUnwrapper) (own : gmap Z UnwrapState) : Prop := {
  clock_at : exists st r, program_clock u !! prog = Some st /\ placed d st r /\ latest - 2 ^ 31 < r <= latest;
  own_at : forall p st, own !! p = Some st -> exists t, placed d st t /\ t <= latest /\ Z.abs (t + d) <= 2 ^ 61;
  near : Z.abs (latest + d) <= 2 ^ 61
}.

Lemma unwrap_exact {E} d prog latest u own p t :
  synced d prog latest u own -> Z.abs (t - latest) < 2 ^ 31 -> Z.abs (t + d) <= 2 ^ 61 ->
  exists u' st, unwrap (E:=E) u (own !! p) (Some prog) (t mod 2 ^ 33) = Ok (u', Some st, t + d) /\
                synced d prog (Z.max latest t) u' (<[p := st]> own).
Proof.
  intros [(cst & r & Hc & Hcp & Hr) Hown Hnear] Ht Hb. unfold unwrap.
  assert (place (E:=E) cst (t mod 2 ^ 33) = Ok (t + d)) as Hvia by (apply (place_exact d cst r t); [done|lia|done]).
  set (val := match own !! p with Some _ => _ | None => _ end).
  assert (exists n, val = Ok (t + d, n)) as [n ->].
  { unfold val. destruct (own !! p) as [st|] eqn:Ho.
    - destruct (Hown _ _ Ho) as (tp & Hp & Hle & Htp). unfold dormant_reanchor. simpl. rewrite Hc.
      destruct Hcp as [_ Hcu]. pose proof Hp as [_ Hpu]. rewrite Hcu, Hpu.
      destruct (Z.leb_spec (r + d) (tp + d)).
      + rb. rewrite (place_exact d st tp t) by (done || lia). rb. eauto.
      + rewrite Hvia. rb. unfold chk_i64, sat_i64, i64_min, i64_max.
        assert (- 2 ^ 31 < t - tp) by lia.
        replace (Z.max (- 2 ^ 63) (Z.min (2 ^ 63 - 1) (t + d - (tp + d)))) with (t - tp) by lia.
        rewrite !(proj2 (Z.leb_le _ _)) by lia. rb. change (Z.shiftl 1 32) with (2 ^ 32).
        destruct (Z.ltb_spec (2 ^ 32) (Z.abs (t - tp))); rb; [eauto|].
        rewrite (place_exact d st tp t); [rb; eauto|done|lia|done].
    - unfold anchor_first_sample. simpl. rewrite Hc, Hvia. rb. eauto. }
  rb. eexists _, _. split; [done|]. split.
  - eexists _, t. simpl. rewrite lookup_insert. rewrite decide_True by done. repeat split; lia.
  - intros q st. rewrite lookup_insert. case_decide; [|intros Hq%Hown; destruct Hq as (x & ? & ? & ?); exists x; split; [done|lia]].
    intros [= <-]. exists t. repeat split; lia.
  - lia.
Qed.

Lemma unwrap_all_exact {E} d prog : forall ss latest u own,
  synced d prog latest u own -> orderly latest ss -> in_range d ss ->
  unwrap_all (E:=E) prog u own ss = Ok (map (fun s => time s + d) ss).
Proof.
  induction ss as [|s ss IH]; intros latest u own Hs Ho Hr; [done|]. destruct Ho as [Ho1 Ho2].
  apply Forall_cons in Hr as [Hr1 Hr2]. cbn [unwrap_all map].
  destruct (unwrap_exact (E:=E) d prog latest u own (on s) (time s) Hs Ho1 Hr1) as (u' & st & -> & Hs').
  rb. rewrite (IH _ _ _ Hs' Ho2 Hr2). done.
Qed.

End Timeline.

(** * Results *)
Module TimeTheorems.
Import Common Timestamp Timeline.

(** C32: Presentation times of one program, on any PIDs in any interleaving, come
    out of the unwrapper as the true times shifted by one constant, however long
    a PID was silent and wherever the 33-bit clock wraps, as long as each sample
    is within 2^31 ticks (6.6 hours) of the latest one seen. *)
Theorem unwrap_timeline (prog : Z) (s : sample) (ss : list sample) :
  orderly (time s) ss -> in_range (time s mod 2 ^ 33 - time s) ss ->
  unwrap_all (E:=Empty_set) prog new ∅ (s :: ss) =
  Ok (map (fun x => time x + (time s mod 2 ^ 33 - time s)) (s :: ss)).
Proof.
  intros Ho Hr. set (d := time s mod 2 ^ 33 - time s) in *. cbn [unwrap_all map].
  unfold unwrap at 1. rewrite lookup_empty. unfold anchor_first_sample, new at 1. simpl program_clock.
  cbn [mbind option_bind]. rewrite lookup_empty. rb.
  rewrite (unwrap_all_exact d prog ss (time s)); [rb; do 2 f_equal; unfold d; lia| |done|done].
  split.
  - eexists _, (time s). split; [cbn [program_clock]; rewrite lookup_insert, decide_True by done; reflexivity|].
    unfold placed, d. cbn [last_raw last_unwrapped]. repeat split; lia.
  - intros p st. rewrite lookup_insert. case_decide; [|done]. intros [= <-]. exists (time s). unfold placed, d. cbn [last_raw last_unwrapped].
    repeat split; try done; try lia; pose proof (Z.mod_pos_bound (time s) (2 ^ 33)); lia.
  - unfold d. pose proof (Z.mod_pos_bound (time s) (2 ^ 33)). lia.
Qed.

(** Two PIDs across a wrap; the second starts after it, the first stays silent
    for more than half an epoch. *)
Lemma unwrap_timeline_witness :
  let at_ p t := {| on := p; time := t |} in
  let ss := [at_ 2 (2 ^ 33 + 5); at_ 2 (2 ^ 33 + 2 ^ 30); at_ 2 (2 ^ 33 + 2 ^ 31); at_ 2 (2 ^ 33 + 3 * 2 ^ 30);
             at_ 2 (2 ^ 33 + 2 ^ 32); at_ 2 (2 ^ 33 + 5 * 2 ^ 30); at_ 1 (2 ^ 33 + 6 * 2 ^ 30)] in
  unwrap_all (E:=Empty_set) 7 new ∅ (at_ 1 (2 ^ 33 - 5) :: ss) = Ok (map time (at_ 1 (2 ^ 33 - 5) :: ss)).
Proof.
  intros at_ ss. rewrite (unwrap_timeline 7 (at_ 1 (2 ^ 33 - 5)) ss); [reflexivity|..].
  - unfold ss, at_. cbn [orderly time]. lia.
  - unfold ss, at_, in_range. repeat (constructor; [cbn [time]; vm_compute; discriminate|]). constructor.
Defined.

(** A decoding time keeps its distance to the presentation time of the same
    packet, also when the 33-bit wrap falls between the two. *)
Theorem dts_keeps_distance (pts dts d : Z) :
  - 2 ^ 32 < dts - pts <= 2 ^ 32 -> Z.abs (dts + d) <= 2 ^ 61 ->
  dts_with_pts (E:=Empty_set) (pts + d) (pts mod 2 ^ 33) (dts mod 2 ^ 33) = Ok (dts + d).
Proof.
  intros Hd Hb.
  pose proof (place_exact (E:=Empty_set) d {| last_raw := pts mod 2 ^ 33; last_unwrapped := pts + d |} pts dts
                ltac:(done) Hd Hb) as H.
  unfold place, dts_with_pts in *. simpl in H. destruct (pts_diff_33bit _ _) as [x| |]; [|done..]. simpl in *.
  injection H as H. unfold sat_i64, chk_i64, i64_min, i64_max in *.
  assert (pts + d + x = dts + d) as -> by lia. by rewrite !(proj2 (Z.leb_le _ _)) by lia.
Qed.

Lemma dts_keeps_distance_witness :
  dts_with_pts (E:=Empty_set) (2 ^ 33 + 3) (3 mod 2 ^ 33) ((-4) mod 2 ^ 33) = Ok (2 ^ 33 - 4).
Proof.
  replace (2 ^ 33 + 3) with (3 + 2 ^ 33) by lia. replace (2 ^ 33 - 4) with (-4 + 2 ^ 33) by lia.
  apply dts_keeps_distance; vm_compute; [split; [reflexivity|discriminate]|discriminate].
Defined.

End TimeTheorems.
