(* ===== verification/AuReassemble.v ===== *)
(** * Reassembly of metadata access units

    [mpegts/demux/au_reassemble.rs]: cells of an access unit (first, middle,
    last) are collected per PID and metadata service, within a cap per buffer, a
    cap on all bytes and a cap on the number of buffers. [AuReassembler] is the
    code; the theorems show the caps and the exact accounting for any sequence
    of operations, that an access unit cut into cells comes out whole, and that a
    lost cell never goes unnoticed. *)
From Stdlib Require Import ZArith Lia Bool.
From stdpp Require Import base list list_numbers gmap.
From S2P Require Import Prelude.
From S2P Require Import AuCell.

(** * The code *)
Module AuReassembler.
Import AuCell.

Inductive MultiCellAuReason : Type :=
| Orphan | SequenceGap | ConcurrentFirst | Overflow | OverflowTotal | TooManyPids.

#[global] Instance MultiCellAuReason_eq_dec : EqDecision MultiCellAuReason.
Proof. solve_decision. Defined.

Record PidReassemblyState : Type := { first_header : AuCellHeader; buf : list Z; cell_count : Z }.

Inductive ReassembleOutcome : Type :=
| Emit (header : AuCellHeader) (payload : list Z) (cell_count : Z)
| Buffered
| Failure (reason : MultiCellAuReason) (dropped_bytes : Z).

Record AuCellReassembler : Type := {
  per_pid : gmap (Z * Z) PidReassemblyState;
  last_seq : gmap Z Z;
  cap_per_pid : Z;
  cap_total : Z;
  max_in_flight_pids : Z;
  total_buffered : Z
}.

Definition with_limits (cap_per_pid cap_total max_in_flight_pids : Z) : AuCellReassembler :=
  {| per_pid := ∅; last_seq := ∅; cap_per_pid := cap_per_pid; cap_total := cap_total;
     max_in_flight_pids := max_in_flight_pids; total_buffered := 0 |}.

Definition set_bufs (r : AuCellReassembler) (m : gmap (Z * Z) PidReassemblyState) (total : Z) : AuCellReassembler :=
  {| per_pid := m; last_seq := last_seq r; cap_per_pid := cap_per_pid r; cap_total := cap_total r;
     max_in_flight_pids := max_in_flight_pids r; total_buffered := total |}.

Definition set_seqs (r : AuCellReassembler) (s : gmap Z Z) : AuCellReassembler :=
  {| per_pid := per_pid r; last_seq := s; cap_per_pid := cap_per_pid r; cap_total := cap_total r;
     max_in_flight_pids := max_in_flight_pids r; total_buffered := total_buffered r |}.

(** [decrement_total] with its debug assertion, and the map it goes with. *)
Definition decrement_total {E : Type} (r : AuCellReassembler) (m : gmap (Z * Z) PidReassemblyState) (dropped_len : Z)
    : res E AuCellReassembler :=
  assert! dropped_len <=? total_buffered r in
  Ok (set_bufs r m (Z.max 0 (total_buffered r - dropped_len))).

Definition buffered_len (m : gmap (Z * Z) PidReassemblyState) : Z := map_fold (fun _ s n => zlen (buf s) + n) 0 m.

Definition drop_pid_buffers {E : Type} (r : AuCellReassembler) (pid : Z) : res E (AuCellReassembler * option Z) :=
  let mine := filter (fun e => e.1.1 = pid) (per_pid r) in
  let dropped := if decide (mine = ∅) then None else Some (buffered_len mine) in
  let! r := decrement_total r (filter (fun e => e.1.1 <> pid) (per_pid r)) (default 0 dropped) in
  Ok (r, dropped).

Definition discard_pid {E : Type} (r : AuCellReassembler) (pid : Z) : res E (AuCellReassembler * option Z) :=
  drop_pid_buffers (set_seqs r (delete pid (last_seq r))) pid.

Definition begin_wrapper (r : AuCellReassembler) (pid : Z) : AuCellReassembler :=
  set_seqs r (delete pid (last_seq r)).

Definition reset_all (r : AuCellReassembler) : AuCellReassembler :=
  set_seqs (set_bufs r ∅ 0) ∅.

Definition reset_pid {E : Type} (r : AuCellReassembler) (pid : Z) : res E AuCellReassembler :=
  let! (r, _) := drop_pid_buffers (set_seqs r (delete pid (last_seq r))) pid in
  Ok r.

Definition clear_after_emit {E : Type} (r : AuCellReassembler) (pid service_id : Z) : res E AuCellReassembler :=
  match per_pid r !! (pid, service_id) with
  | Some dropped => decrement_total r (delete (pid, service_id) (per_pid r)) (zlen (buf dropped))
  | None => Ok r
  end.

Definition opens (c : CellFragmentIndication) : bool :=
  match c with First | Complete => true | Middle | Last => false end.

Definition complete_header (h : AuCellHeader) : AuCellHeader :=
  {| metadata_service_id := metadata_service_id h; sequence_number := sequence_number h;
     cell_fragment_indication := Complete; decoder_config_flag := decoder_config_flag h;
     random_access_indicator := random_access_indicator h |}.

(** Drop the buffer of [key] and fail. *)
Definition fail_buffer {E : Type} (r : AuCellReassembler) (key : Z * Z) (s : PidReassemblyState)
    (reason : MultiCellAuReason) (own : Z) : res E (AuCellReassembler * ReassembleOutcome) :=
  let! r := decrement_total r (delete key (per_pid r)) (zlen (buf s)) in
  Ok (r, Failure reason (zlen (buf s) + own)).

(** A middle or last cell on an open buffer: the caps, then the append. The
    state after the append, or the failure. *)
Definition append_cell {E : Type} (r : AuCellReassembler) (key : Z * Z) (s : PidReassemblyState) (payload : list Z)
    : res E (AuCellReassembler * (PidReassemblyState + ReassembleOutcome)) :=
  let failed reason := let! (r, o) := fail_buffer r key s reason (zlen payload) in Ok (r, inr o) in
  if cap_per_pid r <? zlen (buf s) + zlen payload then failed Overflow
  else if cap_total r <? total_buffered r + zlen payload then failed OverflowTotal
  else if u32_max <? cell_count s + 1 then failed Overflow
  else
    let s := {| first_header := first_header s; buf := buf s ++ payload; cell_count := cell_count s + 1 |} in
    Ok (set_bufs r (<[key := s]> (per_pid r)) (total_buffered r + zlen payload), inl s).

Definition open_buffer (r : AuCellReassembler) (key : Z * Z) (header : AuCellHeader) (payload : list Z)
    : AuCellReassembler * ReassembleOutcome :=
  if cap_per_pid r <? zlen payload then (r, Failure Overflow (zlen payload))
  else if max_in_flight_pids r <=? Z.of_nat (size (per_pid r)) then (r, Failure TooManyPids (zlen payload))
  else if cap_total r <? Z.min u64_max (total_buffered r + zlen payload) then (r, Failure OverflowTotal (zlen payload))
  else
    (set_bufs r (<[key := {| first_header := header; buf := payload; cell_count := 1 |}]> (per_pid r))
       (total_buffered r + zlen payload), Buffered).

Definition process_cell {E : Type} (r : AuCellReassembler) (pid : Z) (header : AuCellHeader) (payload : list Z)
    : res E (AuCellReassembler * ReassembleOutcome) :=
  let key := (pid, metadata_service_id header) in
  let seq := sequence_number header in
  let cfi := cell_fragment_indication header in
  let gap := match last_seq r !! pid with
             | Some prev => negb (as_u8 (prev + 1) =? seq) && negb (opens cfi && (prev =? seq))
             | None => false
             end in
  let r := set_seqs r (<[pid := seq]> (last_seq r)) in
  let! (r, dropped) := if gap then drop_pid_buffers r pid else Ok (r, None) in
  match dropped with
  | Some dropped =>
      let own := if opens cfi then 0 else zlen payload in
      Ok (r, Failure SequenceGap (dropped + own))
  | None =>
      match per_pid r !! key, cfi with
      | None, Complete => Ok (r, Emit header payload 1)
      | None, First => Ok (open_buffer r key header payload)
      | None, (Middle | Last) => Ok (r, Failure Orphan (zlen payload))
      | Some s, (Complete | First) => fail_buffer r key s ConcurrentFirst 0
      | Some s, Middle =>
          let! (r, o) := append_cell r key s payload in
          Ok (r, match o with inl _ => Buffered | inr o => o end)
      | Some s, Last =>
          let! (r, o) := append_cell r key s payload in
          Ok (r, match o with
                 | inl s => Emit (complete_header (first_header s)) (buf s) (cell_count s)
                 | inr o => o
                 end)
      end
  end.

End AuReassembler.

(** * The caps and the accounting *)
Module AuInv.
Import AuCell AuReassembler.

Record buf_ok (cap : Z) (s : PidReassemblyState) : Prop := {
  len_ok : zlen (buf s) <= cap;
  count_ok : 1 <= cell_count s <= u32_max;
  bytes_ok : bytes (buf s)
}.

Record inv (r : AuCellReassembler) : Prop := {
  total_exact : total_buffered r = buffered_len (per_pid r);
  total_ok : total_buffered r <= Z.max 0 (cap_total r);
  bufs_ok : map_Forall (fun _ s => buf_ok (cap_per_pid r) s) (per_pid r);
  slots_ok : Z.of_nat (size (per_pid r)) <= Z.max 0 (max_in_flight_pids r)
}.

Definition same_caps (r r' : AuCellReassembler) : Prop :=
  cap_per_pid r' = cap_per_pid r /\ cap_total r' = cap_total r /\ max_in_flight_pids r' = max_in_flight_pids r.

Lemma buffered_insert m k s : m !! k = None -> buffered_len (<[k := s]> m) = zlen (buf s) + buffered_len m.
Proof. intros. unfold buffered_len. apply (map_fold_insert_L (fun _ s n => zlen (buf s) + n)); [intros; lia|done]. Qed.

Lemma buffered_delete m k s : m !! k = Some s -> buffered_len m = zlen (buf s) + buffered_len (delete k m).
Proof. intros. rewrite <- (insert_delete_id m k s) at 1 by done. apply buffered_insert, lookup_delete_eq. Qed.

Lemma buffered_nonneg m : 0 <= buffered_len m.
Proof.
  induction m as [|k s m Hk IH] using map_ind; [done|]. rewrite buffered_insert by done.
  pose proof (zlen_nonneg (buf s)). lia.
Qed.

Lemma buffered_split (P : (Z * Z) * PidReassemblyState -> Prop) `{!forall e, Decision (P e)} m :
  buffered_len m = buffered_len (filter P m) + buffered_len (filter (fun e => ~ P e) m).
Proof.
  induction m as [|k s m Hk IH] using map_ind; [done|]. rewrite buffered_insert by done.
  destruct (decide (P (k, s))) as [HP|HP].
  - rewrite map_filter_insert_True by done. rewrite (map_filter_insert_False (fun e => ~ P e)) by auto.
    rewrite (delete_id m) by done. rewrite buffered_insert; [lia|]. apply map_lookup_filter_None. by left.
  - rewrite map_filter_insert_False by auto. rewrite (delete_id m) by done.
    rewrite (map_filter_insert_True (fun e => ~ P e)) by done.
    rewrite (buffered_insert (filter (fun e => ~ P e) m)); [lia|]. apply map_lookup_filter_None. by left.
Qed.

Lemma inv_shrink {E} r m n : inv r -> 0 <= n -> m ⊆ per_pid r -> n + buffered_len m = buffered_len (per_pid r) ->
  decrement_total (E:=E) r m n = Ok (set_bufs r m (buffered_len m)) /\ inv (set_bufs r m (buffered_len m)).
Proof.
  intros [Ht Hc Hb Hs] Hn0 Hsub Hn. pose proof (buffered_nonneg m). unfold decrement_total.
  rewrite (proj2 (Z.leb_le _ _)) by lia. replace (Z.max 0 (total_buffered r - n)) with (buffered_len m) by lia. split; [done|].
  pose proof (map_subseteq_size _ _ Hsub). split; simpl; [done|lia| |lia].
  intros k s Hk. apply (Hb k). by eapply lookup_weaken.
Qed.

Lemma drop_pid_ok {E} r pid : inv r ->
  exists r' d, drop_pid_buffers (E:=E) r pid = Ok (r', d) /\ inv r' /\ same_caps r r' /\
    per_pid r' = filter (fun e => e.1.1 <> pid) (per_pid r) /\ last_seq r' = last_seq r /\
    (d = None <-> filter (fun e => e.1.1 = pid) (per_pid r) = ∅) /\
    (forall n, d = Some n -> n = buffered_len (filter (fun e => e.1.1 = pid) (per_pid r))).
Proof.
  intros Hi. unfold drop_pid_buffers. set (mine := filter (fun e => e.1.1 = pid) (per_pid r)).
  destruct (inv_shrink (E:=E) r (filter (fun e => e.1.1 <> pid) (per_pid r)) (buffered_len mine) Hi) as [Hd Hi'].
  { apply buffered_nonneg. }
  { apply map_filter_subseteq. }
  { symmetry. apply buffered_split. }
  case_decide as He.
  - simpl. rewrite He in Hd. change (buffered_len ∅) with 0 in Hd. rewrite Hd. rb.
    eexists _, _. split; [done|]. split; [done|]. repeat split; try done.
  - simpl. rewrite Hd. rb. eexists _, _. split; [done|]. split; [done|]. repeat split; try done.
    by intros n [= <-].
Qed.

(** Postcondition shared by the operations: no panic, the invariant, the caps. *)
Definition keeps (r : AuCellReassembler) {A} (x : AuCellReassembler * A) : Prop := inv x.1 /\ same_caps r x.1.

Lemma same_caps_refl r : same_caps r r.
Proof. done. Qed.

Lemma inv_seqs r s : inv r -> inv (set_seqs r s).
Proof. intros [? ? ? ?]. by split. Qed.

Create HintDb au.
#[local] Hint Resolve same_caps_refl inv_seqs : au.
#[local] Hint Extern 1 (same_caps _ _) => (split; [reflexivity|split; reflexivity]) : au.

Lemma fail_buffer_ok {E} r key s reason own : inv r -> per_pid r !! key = Some s ->
  fail_buffer (E:=E) r key s reason own =
    Ok (set_bufs r (delete key (per_pid r)) (buffered_len (delete key (per_pid r))), Failure reason (zlen (buf s) + own)) /\
  inv (set_bufs r (delete key (per_pid r)) (buffered_len (delete key (per_pid r)))).
Proof.
  intros Hi Hk. unfold fail_buffer.
  destruct (inv_shrink (E:=E) r (delete key (per_pid r)) (zlen (buf s)) Hi) as [-> Hi'];
    [apply zlen_nonneg|apply delete_subseteq|by rewrite <- buffered_delete|]. done.
Qed.

Lemma append_cell_ok {E} r key s payload : inv r -> per_pid r !! key = Some s -> bytes payload ->
  exists r' o, append_cell (E:=E) r key s payload = Ok (r', o) /\ inv r' /\ same_caps r r'.
Proof.
  intros Hi Hk Hp. unfold append_cell.
  assert (forall reason, exists r' o,
    (let! (r, o) := fail_buffer (E:=E) r key s reason (zlen payload) in Ok (r, @inr PidReassemblyState _ o)) = Ok (r', o) /\ inv r' /\ same_caps r r') as Hf.
  { intros reason. destruct (fail_buffer_ok (E:=E) r key s reason (zlen payload) Hi Hk) as [-> Hi']. rb. eexists _, _. by split. }
  destruct (Z.ltb_spec (cap_per_pid r) (zlen (buf s) + zlen payload)); [apply Hf|].
  destruct (Z.ltb_spec (cap_total r) (total_buffered r + zlen payload)); [apply Hf|].
  destruct (Z.ltb_spec u32_max (cell_count s + 1)); [apply Hf|].
  eexists _, _. split; [done|]. split; [|done]. destruct Hi as [Ht Hc Hb Hs]. destruct (Hb _ _ Hk) as [Hb1 Hb2 Hb3].
  split; simpl.
  - rewrite <- insert_delete_eq, buffered_insert by apply lookup_delete_eq. rewrite Ht, (buffered_delete _ _ _ Hk). simpl.
    rewrite zlen_app. lia.
  - lia.
  - apply map_Forall_insert_2; [|done]. split; simpl; [rewrite zlen_app; lia|lia|by apply bytes_app].
  - by rewrite map_size_insert_Some by (by eexists).
Qed.

Lemma open_buffer_ok r key h payload : inv r -> per_pid r !! key = None -> bytes payload -> cap_total r < u64_max ->
  keeps r (open_buffer r key h payload).
Proof.
  intros Hi Hk Hp Hu. unfold open_buffer.
  destruct (Z.ltb_spec (cap_per_pid r) (zlen payload)); [by split|].
  destruct (Z.leb_spec (max_in_flight_pids r) (Z.of_nat (size (per_pid r)))); [by split|].
  destruct (Z.ltb_spec (cap_total r) (Z.min u64_max (total_buffered r + zlen payload))); [by split|].
  split; [|done]. destruct Hi as [Ht Hc Hb Hs]. split; simpl.
  - by rewrite buffered_insert, Ht, Z.add_comm.
  - lia.
  - apply map_Forall_insert_2; [|done]. split; simpl; [lia|unfold u32_max; lia|done].
  - rewrite map_size_insert_None by done. lia.
Qed.

Lemma process_cell_ok {E} r pid h payload : inv r -> bytes payload -> cap_total r < u64_max ->
  exists r' o, process_cell (E:=E) r pid h payload = Ok (r', o) /\ inv r' /\ same_caps r r'.
Proof.
  intros Hi Hp Hu. unfold process_cell. set (gap := match last_seq r !! pid with Some _ => _ | None => _ end).
  set (r0 := set_seqs r _). assert (inv r0) as Hi0 by by apply inv_seqs.
  assert (exists r1 d, (if gap then drop_pid_buffers (E:=E) r0 pid else Ok (r0, None)) = Ok (r1, d) /\ inv r1 /\ same_caps r r1)
    as (r1 & d & -> & Hi1 & Hc1).
  { destruct gap; [|eauto with au]. destruct (drop_pid_ok (E:=E) r0 pid Hi0) as (r1 & d & -> & ? & ? & _). eauto with au. }
  rb. destruct d as [d|]; [eauto with au|]. clearbody gap r0.
  assert (cap_total r1 < u64_max) as Hu1 by (destruct Hc1 as (_ & -> & _); done).
  assert (forall r2, same_caps r1 r2 -> same_caps r r2) as Htrans.
  { intros r2 (? & ? & ?). destruct Hc1 as (? & ? & ?). repeat split; congruence. }
  set (key := (pid, _)).
  destruct (per_pid r1 !! key) as [s|] eqn:Hk; destruct (cell_fragment_indication h).
  - destruct (append_cell_ok (E:=E) r1 key s payload) as (r2 & o & -> & ? & ?); [done..|]. rb. eauto 6 with au.
  - destruct (append_cell_ok (E:=E) r1 key s payload) as (r2 & o & -> & ? & ?); [done..|]. rb. eauto 6 with au.
  - destruct (fail_buffer_ok (E:=E) r1 key s ConcurrentFirst 0 Hi1 Hk) as [-> ?]. eauto 6 with au.
  - destruct (fail_buffer_ok (E:=E) r1 key s ConcurrentFirst 0 Hi1 Hk) as [-> ?]. eauto 6 with au.
  - eauto 6 with au.
  - eauto 6 with au.
  - destruct (open_buffer_ok r1 key h payload) as [? ?]; [done..|]. destruct (open_buffer r1 key h payload) as [r2 o]. eauto 6 with au.
  - eauto 6 with au.
Qed.

Lemma clear_after_emit_ok {E} r pid svc : inv r ->
  exists r', clear_after_emit (E:=E) r pid svc = Ok r' /\ inv r' /\ same_caps r r' /\
             per_pid r' = delete (pid, svc) (per_pid r) /\ last_seq r' = last_seq r.
Proof.
  intros Hi. unfold clear_after_emit. destruct (per_pid r !! (pid, svc)) as [s|] eqn:Hk.
  - destruct (inv_shrink (E:=E) r (delete (pid, svc) (per_pid r)) (zlen (buf s)) Hi) as [-> Hi'];
      [apply zlen_nonneg|apply delete_subseteq|by rewrite <- buffered_delete|]. eauto 10 with au.
  - rewrite delete_id by done. eauto 10 with au.
Qed.

End AuInv.

(** * Results *)
Module AuTheorems.
Import AuCell AuReassembler AuInv.

Inductive op : Type :=
| OpCell (pid : Z) (h : AuCellHeader) (payload : list Z)
| OpClear (pid service_id : Z)
| OpDiscard (pid : Z)
| OpWrapper (pid : Z)
| OpResetPid (pid : Z)
| OpResetAll.

Definition exec {E} (r : AuCellReassembler) (o : op) : res E AuCellReassembler :=
  match o with
  | OpCell pid h payload => let! (r, _) := process_cell r pid h payload in Ok r
  | OpClear pid svc => clear_after_emit r pid svc
  | OpDiscard pid => let! (r, _) := discard_pid r pid in Ok r
  | OpWrapper pid => Ok (begin_wrapper r pid)
  | OpResetPid pid => reset_pid r pid
  | OpResetAll => Ok (reset_all r)
  end.

Fixpoint execs {E} (r : AuCellReassembler) (os : list op) : res E AuCellReassembler :=
  match os with
  | [] => Ok r
  | o :: os => let! r := exec r o in execs r os
  end.

Definition op_bytes (o : op) : Prop := match o with OpCell _ _ p => bytes p | _ => True end.

Lemma exec_ok {E} r o : inv r -> op_bytes o -> cap_total r < u64_max ->
  exists r', exec (E:=E) r o = Ok r' /\ inv r' /\ same_caps r r'.
Proof.
  intros Hi Ho Hu. destruct o as [pid h p|pid svc|pid|pid|pid|]; simpl in *.
  - destruct (process_cell_ok (E:=E) r pid h p) as (r' & o & -> & ? & ?); [done..|]. rb. eauto.
  - destruct (clear_after_emit_ok (E:=E) r pid svc Hi) as (r' & -> & ? & ? & _). eauto.
  - unfold discard_pid. destruct (drop_pid_ok (E:=E) _ pid (inv_seqs r (delete pid (last_seq r)) Hi)) as (r' & d & -> & ? & Hc & _).
    rb. eauto.
  - eexists. split; [done|]. split; [by apply inv_seqs|done].
  - unfold reset_pid. destruct (drop_pid_ok (E:=E) _ pid (inv_seqs r (delete pid (last_seq r)) Hi)) as (r' & d & -> & ? & Hc & _).
    rb. eauto.
  - eexists. split; [done|]. split; [|done]. split; simpl; [done|lia|apply map_Forall_empty|rewrite map_size_empty; lia].
Qed.

(** For any sequence of cells, discards, wrapper starts and resets the
    access-unit reassembler never panics, holds at most the configured number of
    buffers, each within its cap and all together within the total cap, and its
    byte counter is exact. *)
Theorem au_cells_bounded (cap total slots : Z) (os : list op) :
  0 <= cap -> 0 <= total < u64_max -> 0 <= slots -> Forall op_bytes os ->
  exists r, execs (E:=Empty_set) (with_limits cap total slots) os = Ok r /\
    Z.of_nat (size (per_pid r)) <= slots /\ total_buffered r <= total /\
    total_buffered r = buffered_len (per_pid r) /\
    forall k s, per_pid r !! k = Some s -> zlen (buf s) <= cap.
Proof.
  intros Hc Ht Hs Ho.
  assert (inv (with_limits cap total slots)) as Hi.
  { split; simpl; [done|lia|apply map_Forall_empty|rewrite map_size_empty; lia]. }
  assert (forall r, inv r -> same_caps (with_limits cap total slots) r ->
            exists r', execs (E:=Empty_set) r os = Ok r' /\ inv r' /\ same_caps (with_limits cap total slots) r') as H.
  { clear Hi. induction Ho as [|o os Ho _ IH]; intros r Hi Hcap; simpl; [eauto|].
    destruct (exec_ok (E:=Empty_set) r o Hi Ho) as (r1 & -> & Hi1 & Hc1); [destruct Hcap as (_ & -> & _); simpl; lia|].
    rb. apply IH; [done|]. destruct Hc1 as (? & ? & ?), Hcap as (? & ? & ?). repeat split; congruence. }
  destruct (H _ Hi (same_caps_refl _)) as (r & Hr & [H1 H2 H3 H4] & Hc1 & Hc2 & Hc3). exists r. simpl in *.
  split; [done|]. rewrite Hc2 in H2. rewrite Hc3 in H4. split; [lia|]. split; [lia|]. split; [done|].
  intros k s Hk. destruct (H3 k s Hk) as [Hl _ _]. by rewrite Hc1 in Hl.
Qed.

Definition demo_header (c : CellFragmentIndication) (seq : Z) : AuCellHeader :=
  {| metadata_service_id := 0; sequence_number := seq; cell_fragment_indication := c;
     decoder_config_flag := false; random_access_indicator := true |}.

Lemma au_cells_bounded_witness :
  exists r, execs (E:=Empty_set) (with_limits 8 16 2) [OpCell 5 (demo_header First 0) [1; 2]; OpDiscard 5] = Ok r /\
    Z.of_nat (size (per_pid r)) <= 2 /\ total_buffered r <= 16 /\
    total_buffered r = buffered_len (per_pid r) /\
    forall k s, per_pid r !! k = Some s -> zlen (buf s) <= 8.
Proof.
  apply au_cells_bounded; [lia|unfold u64_max; lia|lia|].
  repeat constructor; unfold op_bytes, bytes; repeat constructor; unfold byte; lia.
Defined.

(** ** A unit in cells *)

(** A cell as it arrives: whether it opens a new wrapper, its header, its bytes. *)
Definition cell : Type := bool * AuCellHeader * list Z.

Fixpoint cells {E} (r : AuCellReassembler) (pid : Z) (cs : list cell) : res E (AuCellReassembler * list ReassembleOutcome) :=
  match cs with
  | [] => Ok (r, [])
  | (w, h, payload) :: cs =>
      let r := if w then begin_wrapper r pid else r in
      let! (r, o) := process_cell r pid h payload in
      let! (r, os) := cells r pid cs in
      Ok (r, o :: os)
  end.

(** Middle cells and the last one of service [svc], numbered on from [prev]
    inside a wrapper. *)
Fixpoint continues (svc prev : Z) (cs : list cell) : Prop :=
  match cs with
  | [] => False
  | (w, h, _) :: cs =>
      metadata_service_id h = svc /\ (w = true \/ sequence_number h = as_u8 (prev + 1)) /\
      cell_fragment_indication h = (if decide (cs = []) then Last else Middle) /\
      (cs = [] \/ continues svc (sequence_number h) cs)
  end.

Definition body (c : cell) : list Z := c.2.

Lemma no_gap r pid (w : bool) h prev :
  (w = true \/ (last_seq r !! pid = Some prev /\ sequence_number h = as_u8 (prev + 1))) ->
  match last_seq (if w then begin_wrapper r pid else r) !! pid with
  | Some p => negb (as_u8 (p + 1) =? sequence_number h) && negb (opens (cell_fragment_indication h) && (p =? sequence_number h))
  | None => false
  end = false.
Proof.
  intros [->|[Hp Hs]].
  - simpl. by rewrite lookup_delete_eq.
  - destruct w; simpl; [by rewrite lookup_delete_eq|]. rewrite Hp, <- Hs, Z.eqb_refl. done.
Qed.

(** From a buffer holding [s], the rest of the unit comes out behind it. *)
Lemma cells_continue {E} pid svc : forall cs r s prev,
  per_pid r !! (pid, svc) = Some s -> last_seq r !! pid = Some prev -> continues svc prev cs ->
  zlen (buf s) + zlen (concat (map body cs)) <= cap_per_pid r ->
  total_buffered r + zlen (concat (map body cs)) <= cap_total r ->
  cell_count s + zlen cs <= u32_max ->
  exists r', cells (E:=E) r pid cs =
    Ok (r', replicate (length cs - 1) Buffered ++
            [Emit (complete_header (first_header s)) (buf s ++ concat (map body cs)) (cell_count s + zlen cs)]).
Proof.
  induction cs as [|[[w h] p] cs IH]; intros r s prev Hs Hp Hc H1 H2 H3; [done|].
  destruct Hc as (Hsvc & Hseq & Hcfi & Hrest). cbn [cells]. unfold process_cell. rewrite Hsvc.
  rewrite (no_gap r pid w h prev) by tauto. rb. set (r0 := set_seqs _ _).
  assert (per_pid r0 = per_pid r /\ total_buffered r0 = total_buffered r /\ cap_per_pid r0 = cap_per_pid r /\ cap_total r0 = cap_total r)
    as (Hm & Ht & Hcp & Hct) by (unfold r0; by destruct w).
  assert (last_seq r0 !! pid = Some (sequence_number h)) as Hls by (unfold r0; simpl; by rewrite lookup_insert_eq).
  clearbody r0.
  rewrite Hm, Hs. cbn [map concat body snd] in *. rewrite zlen_app in *. rewrite zlen_cons in *.
  pose proof (zlen_nonneg (concat (map body cs))). pose proof (zlen_nonneg cs).
  unfold append_cell. rewrite Hcp, Hct, Ht, !(proj2 (Z.ltb_ge _ _)) by lia. rewrite Hcfi.
  set (s' := {| first_header := first_header s; buf := buf s ++ p; cell_count := cell_count s + 1 |}).
  case_decide as Hnil.
  - subst cs. rb. cbn [cells]. rb. simpl. change (zlen (@nil cell)) with 0. eexists. rewrite app_nil_r, Z.add_0_r. done.
  - destruct Hrest as [|Hrest]; [done|]. rb.
    destruct (IH (set_bufs r0 (<[(pid, svc) := s']> (per_pid r0)) (total_buffered r + zlen p)) s' (sequence_number h))
      as (r' & Hr); simpl; rewrite ?Hct, ?Hcp; try lia.
    + by rewrite lookup_insert_eq.
    + done.
    + done.
    + unfold s'. simpl. rewrite zlen_app. lia.
    + exists r'. rewrite ?Hm, ?Ht in Hr |- *. rewrite Hr. rb. unfold s'. simpl.
      replace (length cs - 0)%nat with (S (length cs - 1)) by (destruct cs; simpl; [done|lia]). simpl.
      rewrite <- app_assoc. by rewrite <- Z.add_assoc.
Qed.

(** C33: An access unit cut into a first cell, any number of middle cells and a
    last cell, over one packet or several, comes out as one unit: the cells'
    bytes in order, the first cell's header marked complete, and the number of
    cells, provided it fits the caps. *)
Theorem au_cells_reassemble (r : AuCellReassembler) (pid : Z) (h : AuCellHeader) (p : list Z) (cs : list cell) :
  cell_fragment_indication h = First -> per_pid r !! (pid, metadata_service_id h) = None ->
  continues (metadata_service_id h) (sequence_number h) cs ->
  zlen (p ++ concat (map body cs)) <= cap_per_pid r ->
  total_buffered r + zlen (p ++ concat (map body cs)) <= cap_total r < u64_max ->
  Z.of_nat (size (per_pid r)) < max_in_flight_pids r -> 1 + zlen cs <= u32_max ->
  exists r', cells (E:=Empty_set) r pid ((true, h, p) :: cs) =
    Ok (r', replicate (length cs) Buffered ++ [Emit (complete_header h) (p ++ concat (map body cs)) (1 + zlen cs)]).
Proof.
  intros Hf Hk Hc H1 H2 H3 H4. cbn [cells]. unfold process_cell.
  rewrite (no_gap r pid true h 0) by tauto. rb. set (r0 := set_seqs _ _). simpl per_pid. rewrite Hk, Hf.
  rewrite zlen_app in *. pose proof (zlen_nonneg (concat (map body cs))). pose proof (zlen_nonneg p).
  unfold open_buffer. change (cap_per_pid r0) with (cap_per_pid r). change (cap_total r0) with (cap_total r).
  change (max_in_flight_pids r0) with (max_in_flight_pids r). change (per_pid r0) with (per_pid r).
  change (total_buffered r0) with (total_buffered r).
  rewrite (proj2 (Z.ltb_ge (cap_per_pid r) _)), (proj2 (Z.leb_gt _ _)), (proj2 (Z.ltb_ge (cap_total r) _)) by lia. rb.
  set (s := {| first_header := h; buf := p; cell_count := 1 |}).
  destruct (cells_continue (E:=Empty_set) pid (metadata_service_id h) cs
    (set_bufs r0 (<[(pid, metadata_service_id h) := s]> (per_pid r)) (total_buffered r + zlen p)) s (sequence_number h))
    as (r' & ->); simpl; try lia.
  - by rewrite lookup_insert_eq.
  - by rewrite lookup_insert_eq.
  - done.
  - exists r'. rb. destruct cs as [|c cs]; [done|]. simpl. by rewrite Nat.sub_0_r.
Qed.

Lemma au_cells_reassemble_witness :
  exists r', cells (E:=Empty_set) (with_limits 8 16 2) 5
      [(true, demo_header First 9, [1; 2]); (false, demo_header Middle 10, [3]); (true, demo_header Last 0, [4; 5])] =
    Ok (r', [Buffered; Buffered; Emit (demo_header Complete 9) [1; 2; 3; 4; 5] 3]).
Proof.
  apply (au_cells_reassemble (with_limits 8 16 2) 5 (demo_header First 9) [1; 2]
           [(false, demo_header Middle 10, [3]); (true, demo_header Last 0, [4; 5])]);
    [reflexivity|reflexivity| |vm_compute; discriminate|vm_compute; split; [discriminate|reflexivity]|vm_compute; reflexivity
    |vm_compute; discriminate].
  cbn [continues]. rewrite decide_False by discriminate. rewrite decide_True by reflexivity.
  split; [reflexivity|]. split; [right; reflexivity|]. split; [reflexivity|]. right.
  split; [reflexivity|]. split; [left; reflexivity|]. split; [reflexivity|]. left. reflexivity.
Defined.

(** A lost cell never goes unnoticed: a cell whose number does not follow
    inside a packet, with a unit in progress on the PID, is reported as a gap,
    the report counts every byte lost, and nothing stays buffered on the PID. *)
Theorem au_gap_detected (r : AuCellReassembler) (pid prev : Z) (h : AuCellHeader) (p : list Z) (k : Z * Z) :
  inv r -> last_seq r !! pid = Some prev -> sequence_number h <> as_u8 (prev + 1) -> sequence_number h <> prev ->
  k.1 = pid -> is_Some (per_pid r !! k) ->
  exists r', process_cell (E:=Empty_set) r pid h p =
    Ok (r', Failure SequenceGap (buffered_len (filter (fun e => e.1.1 = pid) (per_pid r)) +
                                 (if opens (cell_fragment_indication h) then 0 else zlen p))) /\
    forall svc, per_pid r' !! (pid, svc) = None.
Proof.
  intros Hi Hl Hn1 Hn2 Hk [s Hs]. unfold process_cell. rewrite Hl.
  rewrite (proj2 (Z.eqb_neq (as_u8 (prev + 1)) _)), (proj2 (Z.eqb_neq prev _)) by congruence. rewrite andb_false_r. simpl negb. cbn iota.
  set (r0 := set_seqs _ _).
  destruct (drop_pid_ok (E:=Empty_set) r0 pid (inv_seqs _ _ Hi)) as (r' & d & -> & _ & _ & Hper & _ & Hd & Hval).
  change (per_pid r0) with (per_pid r) in *. rb. destruct d as [d|].
  - exists r'. rewrite (Hval d eq_refl). split; [done|]. intros svc. rewrite Hper. apply map_lookup_filter_None. right. simpl.
    intros x _ Hx. done.
  - exfalso. destruct Hd as [Hd _]. specialize (Hd eq_refl).
    assert (filter (fun e => e.1.1 = pid) (per_pid r) !! k = Some s) as Hf by (apply map_lookup_filter_Some; done).
    rewrite Hd in Hf. done.
Qed.

Lemma au_gap_detected_witness :
  let s := {| first_header := demo_header First 0; buf := [1; 2]; cell_count := 1 |} in
  let r := {| per_pid := {[ (5, 0) := s ]}; last_seq := {[ 5 := 0 ]}; cap_per_pid := 8; cap_total := 16;
              max_in_flight_pids := 2; total_buffered := 2 |} in
  exists r', process_cell (E:=Empty_set) r 5 (demo_header Last 3) [7] = Ok (r', Failure SequenceGap 3) /\
    forall svc, per_pid r' !! (5, svc) = None.
Proof.
  intros s r. apply (au_gap_detected r 5 0 (demo_header Last 3) [7] (5, 0)); [|reflexivity|discriminate|discriminate|reflexivity|by eexists].
  split; [reflexivity|vm_compute; discriminate| |vm_compute; discriminate].
  apply map_Forall_singleton. split; [vm_compute; discriminate|vm_compute; split; discriminate|].
  repeat constructor; unfold byte; lia.
Defined.

End AuTheorems.
