(* ===== verification/Latm.v ===== *)
(** * LOAS framing of AAC-LATM

    [codec/aac/latm.rs]: the walk over LOAS records, what a record still owes the
    next packet, and the search for a record boundary in a payload that may open
    inside a record. The search keeps the boundaries of failed walks as bits; the
    theorems show that it answers as the plain search without them, that the
    boundaries it walks are linear in the payload, and that a stream of records
    cut anywhere is walked without a complaint. *)
From Stdlib Require Import ZArith Lia Bool.
From stdpp Require Import base sets list list_numbers gmap.
From S2P Require Import Prelude.

(** * The code *)
Module Latm.

Definition LOAS_SYNC_BYTE0 : Z := 0x56.
Definition LOAS_SYNC_BYTE1_MASK : Z := 0xE0.
Definition LOAS_SYNC_BYTE1_VALUE : Z := 0xE0.

Inductive LatmFramingKind : Type := MissingSyncword | AudioMuxLengthOverrun | Truncated.

#[global] Instance LatmFramingKind_eq_dec : EqDecision LatmFramingKind.
Proof. solve_decision. Defined.

Definition MAX_LOAS_RECORD_BYTES : Z := 3 + 0x1FFF.

Definition validate_latm_sync (pes_payload : list Z) : res LatmFramingKind Z :=
  if zlen pes_payload <? 3 then Err Truncated
  else
    let! b0 := idx pes_payload 0 in
    let! b1 := idx pes_payload 1 in
    let! b2 := idx pes_payload 2 in
    if negb (b0 =? LOAS_SYNC_BYTE0) || negb (Z.land b1 LOAS_SYNC_BYTE1_MASK =? LOAS_SYNC_BYTE1_VALUE)
    then Err MissingSyncword
    else
      let audio_mux_length_bytes := Z.lor (Z.shiftl (Z.land b1 0x1F) 8) b2 in
      let total_record_len := 3 + audio_mux_length_bytes in
      if zlen pes_payload <? total_record_len then Err AudioMuxLengthOverrun
      else Ok audio_mux_length_bytes.

Inductive LoasCarry : Type :=
| Body (n : Z)
| Header (bytes : list Z) (len : Z).

#[global] Instance LoasCarry_eq_dec : EqDecision LoasCarry.
Proof. solve_decision. Defined.

Inductive LoasResync : Type :=
| Confirmed (carry : option LoasCarry)
| Unconfirmed (carry : LoasCarry)
| NoCandidate.

Definition record_body_len {E} (header : list Z) : res E Z :=
  let! h1 := idx header 1 in
  let! h2 := idx header 2 in
  Ok (Z.lor (Z.shiftl (Z.land h1 0x1F) 8) h2).

Definition starts_with_loas_sync (bytes : list Z) : bool :=
  match bytes with
  | b0 :: b1 :: _ => (b0 =? LOAS_SYNC_BYTE0) && (Z.land b1 LOAS_SYNC_BYTE1_MASK =? LOAS_SYNC_BYTE1_VALUE)
  | _ => false
  end.

Definition opens_loas_header (bytes : list Z) : bool :=
  starts_with_loas_sync bytes || bool_decide (bytes = [LOAS_SYNC_BYTE0]).

Definition split_header_carry (rest : list Z) : res LatmFramingKind (option LoasCarry) :=
  let! r0 := idx rest 0 in
  let prefix_ok := (r0 =? LOAS_SYNC_BYTE0) &&
    match get rest 1 with
    | Some b1 => Z.land b1 LOAS_SYNC_BYTE1_MASK =? LOAS_SYNC_BYTE1_VALUE
    | None => true
    end in
  if negb prefix_ok then Err MissingSyncword
  else
    let! bytes := put [0; 0] 0 rest in
    Ok (Some (Header bytes (zlen rest))).

Fixpoint walk_loop (fuel : nat) (payload : list Z) (pos : Z) : res LatmFramingKind (option LoasCarry) :=
  match fuel with
  | O => Panic
  | S fuel =>
      if pos <? zlen payload then
        let rest := zdrop pos payload in
        if zlen rest <? 3 then split_header_carry rest
        else if negb (starts_with_loas_sync rest) then Err MissingSyncword
        else
          let! audio_mux_length_bytes := record_body_len rest in
          walk_loop fuel payload (pos + (3 + audio_mux_length_bytes))
      else
        let n := pos - zlen payload in
        Ok (if 0 <? n then Some (Body n) else None)
  end.

Definition walk_loas (payload : list Z) (start : Z) : res LatmFramingKind (option LoasCarry) :=
  walk_loop (S (length payload)) payload start.

Definition resolve (c : LoasCarry) (payload : list Z) : res LatmFramingKind LoasCarry :=
  match c with
  | Body n => Ok (Body n)
  | Header bytes len =>
      let have := len in
      let! room := usub 3 have in
      let take_ := Z.min (zlen payload) room in
      let! head := slice bytes 0 have in
      let! header := put [0; 0; 0] 0 head in
      let! header := put header have (ztake take_ payload) in
      let! known := slice header 0 (have + take_) in
      let! w := walk_loas known 0 in
      Ok (match w with
          | Some (Body n) => Body (take_ + n)
          | Some h => h
          | None => Body take_
          end)
  end.

(** One bit per payload offset, in 64-bit words. *)
Definition is_refuted {E} (refuted : list Z) (pos : Z) : res E bool :=
  let! w := idx refuted (pos / 64) in
  Ok (nz (Z.land w (Z.shiftl 1 (pos mod 64)))).

Definition mark {E} (refuted : list Z) (pos : Z) : res E (list Z) :=
  let! w := idx refuted (pos / 64) in
  put refuted (pos / 64) [Z.lor w (Z.shiftl 1 (pos mod 64))].

Fixpoint mark_all {E} (refuted : list Z) (visited : list Z) : res E (list Z) :=
  match visited with
  | [] => Ok refuted
  | p :: visited => let! refuted := mark refuted p in mark_all refuted visited
  end.

(** The boundaries from [pos] until one is refuted or lacks the syncword, and
    the position the walk stopped at. *)
Fixpoint visit {E} (fuel : nat) (payload refuted : list Z) (pos : Z) (visited : list Z) : res E (list Z * Z) :=
  match fuel with
  | O => Panic
  | S fuel =>
      let! limit := usub (zlen payload) 2 in
      if negb (pos <? limit) then Ok (visited, pos)
      else
        let! bad := is_refuted refuted pos in
        if bad || negb (starts_with_loas_sync (zdrop pos payload)) then Ok (visited, pos)
        else
          let! n := record_body_len (zdrop pos payload) in
          visit fuel payload refuted (pos + (3 + n)) (visited ++ [pos])
  end.

Fixpoint resync_loop {E} (n : nat) (payload : list Z) (at_ : Z) (refuted : list Z) (steps : Z)
    : res E (LoasResync * Z) :=
  match n with
  | O => Ok (NoCandidate, steps)
  | S n =>
      let rest := zdrop at_ payload in
      if negb (opens_loas_header rest) then resync_loop n payload (at_ + 1) refuted steps
      else if zlen rest <? 3 then
        match split_header_carry rest with
        | Ok (Some carry) => Ok (Unconfirmed carry, steps)
        | Ok None | Err _ => Ok (NoCandidate, steps)
        | Panic => Panic
        end
      else
      let! body := record_body_len rest in
      let first_record_end := at_ + 3 + body in
      if zlen payload <? first_record_end then Ok (Unconfirmed (Body (first_record_end - zlen payload)), steps)
      else
      let refuted := if decide (refuted = []) then zrep ((zlen payload + 63) / 64) 0 else refuted in
      let! (visited, pos) := visit (S (length payload)) payload refuted at_ [] in
      let steps := steps + zlen visited in
      let! reached_refuted := if pos <? zlen payload then is_refuted refuted pos else Ok false in
      let walk := if reached_refuted then Ok None
                  else match walk_loas payload at_ with
                       | Ok carry => Ok (Some carry)
                       | Err _ => Ok None
                       | Panic => Panic
                       end in
      let steps := if reached_refuted then steps else steps + zlen visited in
      let! w := walk in
      match w with
      | Some carry => Ok (Confirmed carry, steps)
      | None =>
          let! refuted := mark_all refuted visited in
          resync_loop n payload (at_ + 1) refuted steps
      end
  end.

Definition resync_loas_counting {E} (payload : list Z) (steps : Z) : res E (LoasResync * Z) :=
  resync_loop (Z.to_nat (Z.min (zlen payload) MAX_LOAS_RECORD_BYTES)) payload 0 [] steps.

Definition resync_loas {E} (payload : list Z) : res E LoasResync :=
  let! (r, _) := resync_loas_counting payload 0 in
  Ok r.

End Latm.

(** * The search without memory *)
Module LatmSpec.
Import Latm.

Fixpoint search (n : nat) (payload : list Z) (at_ : Z) : LoasResync :=
  match n with
  | O => NoCandidate
  | S n =>
      let rest := zdrop at_ payload in
      if negb (opens_loas_header rest) then search n payload (at_ + 1)
      else if zlen rest <? 3 then
        match split_header_carry rest with Ok (Some carry) => Unconfirmed carry | _ => NoCandidate end
      else match record_body_len (E:=Empty_set) rest with
           | Ok body =>
               if zlen payload <? at_ + 3 + body then Unconfirmed (Body (at_ + 3 + body - zlen payload))
               else match walk_loas payload at_ with
                    | Ok carry => Confirmed carry
                    | _ => search n payload (at_ + 1)
                    end
           | _ => NoCandidate
           end
  end.

Definition plain_resync (payload : list Z) : LoasResync :=
  search (Z.to_nat (Z.min (zlen payload) MAX_LOAS_RECORD_BYTES)) payload 0.

End LatmSpec.

(** * Lemmas *)
Module LatmLemmas.
Import Latm LatmSpec.

Lemma body_len_ok {E} rest : bytes rest -> 3 <= zlen rest ->
  exists n, record_body_len (E:=E) rest = Ok n /\ 0 <= n <= 0x1FFF.
Proof.
  intros Hb Hl. unfold record_body_len.
  destruct (get_lt rest 1) as [h1 H1]; [lia|]. destruct (get_lt rest 2) as [h2 H2]; [lia|].
  rewrite (proj2 (idx_Ok _ _ _) H1). rb. rewrite (proj2 (idx_Ok _ _ _) H2). rb. eexists. split; [done|].
  pose proof (bytes_get _ _ _ Hb H1). pose proof (bytes_get _ _ _ Hb H2). unfold byte in *.
  rewrite land_31, shiftl_mul, (lor_add 8) by lia. dlia.
Qed.

Lemma body_len_drop {E} payload pos : bytes payload -> 0 <= pos -> 3 <= zlen payload - pos ->
  exists n, record_body_len (E:=E) (zdrop pos payload) = Ok n /\ 0 <= n <= 0x1FFF.
Proof. intros. apply body_len_ok; [by apply bytes_drop|]. rewrite zlen_zdrop; lia. Qed.

Lemma body_len_poly {E F} rest n : record_body_len (E:=E) rest = Ok n -> record_body_len (E:=F) rest = Ok n.
Proof.
  unfold record_body_len, idx. destruct (get rest 1); [|done]. rb. destruct (get rest 2); [|done]. rb. by intros [= <-].
Qed.

(** Enough fuel is any fuel above what is left of the payload. *)
Lemma walk_fuel payload : bytes payload -> forall f f' pos, 0 <= pos ->
  (Z.to_nat (zlen payload - pos) < f)%nat -> (Z.to_nat (zlen payload - pos) < f')%nat ->
  walk_loop f payload pos = walk_loop f' payload pos.
Proof.
  intros Hb. induction f as [|f IH]; intros f' pos Hp Hf Hf'; [lia|]. destruct f' as [|f']; [lia|]. cbn [walk_loop].
  destruct (Z.ltb_spec pos (zlen payload)); [|done]. cbv zeta. rewrite zlen_zdrop by lia.
  destruct (Z.ltb_spec (zlen payload - pos) 3); [done|]. destruct (negb _); [done|].
  destruct (body_len_drop (E:=LatmFramingKind) payload pos) as (n & -> & ?); [done..|]. rb. apply IH; lia.
Qed.

Lemma walk_eq payload pos : bytes payload -> 0 <= pos ->
  walk_loas payload pos =
  if pos <? zlen payload then
    if zlen payload - pos <? 3 then split_header_carry (zdrop pos payload)
    else if negb (starts_with_loas_sync (zdrop pos payload)) then Err MissingSyncword
    else let! n := record_body_len (zdrop pos payload) in walk_loas payload (pos + (3 + n))
  else Ok (if 0 <? pos - zlen payload then Some (Body (pos - zlen payload)) else None).
Proof.
  intros Hb Hp. unfold walk_loas at 1. cbn [walk_loop]. destruct (Z.ltb_spec pos (zlen payload)) as [Hlt|]; [|done]. cbv zeta.
  rewrite zlen_zdrop by lia. destruct (Z.ltb_spec (zlen payload - pos) 3); [done|]. destruct (negb _); [done|].
  destruct (body_len_drop (E:=LatmFramingKind) payload pos) as (n & -> & ?); [done..|]. rb. unfold walk_loas.
  apply walk_fuel; [done|lia|..]; unfold zlen in *; lia.
Qed.

Lemma split_header_no_panic rest : 1 <= zlen rest <= 2 -> no_panic (split_header_carry rest).
Proof.
  intros Hl. unfold split_header_carry. destruct (idx_ok (E:=LatmFramingKind) rest 0) as (x & _ & ->); [lia|]. rb.
  destruct (negb _); [apply no_panic_err|]. apply no_panic_bind; [apply put_no_panic; change (zlen [0; 0]) with 2; lia|].
  intros; apply no_panic_ok.
Qed.

Lemma walk_no_panic payload : bytes payload -> forall pos, 0 <= pos -> no_panic (walk_loas payload pos).
Proof.
  intros Hb pos. remember (Z.to_nat (zlen payload - pos)) as k eqn:Hk. revert pos Hk.
  induction (lt_wf k) as [k _ IH]. intros pos -> Hp. rewrite walk_eq by done.
  destruct (Z.ltb_spec pos (zlen payload)); [|done]. destruct (Z.ltb_spec (zlen payload - pos) 3).
  - apply split_header_no_panic. rewrite zlen_zdrop; lia.
  - destruct (negb _); [done|]. destruct (body_len_drop (E:=LatmFramingKind) payload pos) as (n & -> & ?); [done..|]. rb.
    eapply IH; [|done|lia]. lia.
Qed.

(** ** The bits *)

Lemma nz_testbit w k : 0 <= k -> nz (Z.land w (Z.shiftl 1 k)) = Z.testbit w k.
Proof.
  intros Hk. unfold nz. rewrite Z.shiftl_1_l. destruct (Z.testbit w k) eqn:Ht.
  - apply negb_true_iff, Z.eqb_neq. intros H0. apply (f_equal (fun x => Z.testbit x k)) in H0.
    rewrite Z.land_spec, Z.pow2_bits_true, Ht, Z.bits_0 in H0 by done. done.
  - apply negb_false_iff, Z.eqb_eq. apply Z.bits_inj'. intros i Hi. rewrite Z.land_spec, Z.bits_0, Z.pow2_bits_eqb by done.
    destruct (Z.eqb_spec k i) as [->|]; [by rewrite Ht|apply andb_false_r].
Qed.

(** The words hold exactly the positions of [S]. *)
Record reps (payload refuted : list Z) (S : gset Z) : Prop := {
  words : zlen refuted = (zlen payload + 63) / 64;
  holds_bits : forall p, 0 <= p < zlen payload -> is_refuted (E:=Empty_set) refuted p = Ok (bool_decide (p ∈ S));
  inside : forall p, p ∈ S -> 0 <= p < zlen payload
}.

Lemma is_refuted_poly {E} payload refuted S p : reps payload refuted S -> 0 <= p < zlen payload ->
  is_refuted (E:=E) refuted p = Ok (bool_decide (p ∈ S)).
Proof.
  intros [Hw Hr _] Hp. specialize (Hr p Hp). unfold is_refuted, idx in *. destruct (get refuted (p / 64)); [|done].
  simpl in *. by injection Hr as ->.
Qed.

Lemma word_in n p : 0 <= p < n -> 0 <= p / 64 < (n + 63) / 64.
Proof.
  intros Hp. split; [apply Z.div_pos; lia|]. replace ((n + 63) / 64) with ((n - 1) / 64 + 1).
  - pose proof (Z.div_le_mono p (n - 1) 64). lia.
  - rewrite <- Z.div_add by lia. f_equal. lia.
Qed.

Lemma reps_empty payload : reps payload (zrep ((zlen payload + 63) / 64) 0) ∅.
Proof.
  pose proof (zlen_nonneg payload). split; [apply zlen_zrep, Z.div_pos; lia| |set_solver]. intros p Hp. unfold is_refuted.
  rewrite (proj2 (idx_Ok _ _ _) (get_zrep _ 0 (p / 64) (word_in _ _ Hp))). rb. by rewrite Z.land_0_l, bool_decide_eq_false_2 by set_solver.
Qed.

Lemma mark_reps {E} payload refuted S p : reps payload refuted S -> 0 <= p < zlen payload ->
  exists refuted', mark (E:=E) refuted p = Ok refuted' /\ reps payload refuted' ({[p]} ∪ S).
Proof.
  intros [Hw Hr Hi] Hp. unfold mark.
  pose proof (word_in _ _ Hp) as Hin. rewrite <- Hw in Hin.
  destruct (get_lt refuted (p / 64)) as [w Hg]; [lia|]. rewrite (proj2 (idx_Ok _ _ _) Hg). rb.
  rewrite put_single by lia. eexists. split; [done|]. split.
  - by rewrite zlen_insert.
  - intros q Hq. specialize (Hr q Hq). unfold is_refuted in *. pose proof (word_in _ _ Hq) as Hinq. rewrite <- Hw in Hinq.
    destruct (get_lt refuted (q / 64)) as [wq Hgq]; [lia|]. rewrite (proj2 (idx_Ok _ _ _) Hgq) in Hr. simpl in Hr.
    rewrite nz_testbit in Hr by (apply Z.mod_pos_bound; lia). injection Hr as Hr.
    unfold idx. rewrite get_insert by lia. destruct (Z.eqb_spec (p / 64) (q / 64)) as [He|Hne].
    + rb. f_equal. rewrite nz_testbit by (apply Z.mod_pos_bound; lia). rewrite Z.lor_spec, Z.shiftl_1_l, Z.pow2_bits_eqb
        by (apply Z.mod_pos_bound; lia).
      rewrite He in Hg. assert (w = wq) as -> by congruence. rewrite Hr.
      destruct (decide (q = p)) as [->|Hqp].
      * rewrite Z.eqb_refl, orb_true_r, bool_decide_eq_true_2 by set_solver. done.
      * rewrite (proj2 (Z.eqb_neq _ _)), orb_false_r by (intros ?; apply Hqp; dlia). apply bool_decide_ext. set_solver.
    + rewrite Hgq. rb. rewrite nz_testbit, Hr by (apply Z.mod_pos_bound; lia). f_equal. apply bool_decide_ext.
      assert (q <> p) by (intros ->; done). set_solver.
  - set_solver.
Qed.

Lemma mark_all_reps {E} payload : forall visited refuted S, reps payload refuted S ->
  Forall (fun p => 0 <= p < zlen payload) visited ->
  exists refuted', mark_all (E:=E) refuted visited = Ok refuted' /\ reps payload refuted' (list_to_set visited ∪ S).
Proof.
  induction visited as [|p v IH]; intros refuted S Hr Hv; cbn [mark_all].
  - exists refuted. split; [done|]. replace (list_to_set [] ∪ S) with S; [done|]. apply leibniz_equiv. set_solver.
  - apply Forall_cons in Hv as [Hp Hv]. destruct (mark_reps (E:=E) payload refuted S p Hr Hp) as (r1 & -> & Hr1). rb.
    destruct (IH r1 _ Hr1 Hv) as (r2 & -> & Hr2). exists r2. split; [done|].
    replace (list_to_set (p :: v) ∪ S) with (list_to_set v ∪ ({[p]} ∪ S)); [done|]. apply leibniz_equiv. set_solver.
Qed.

(** ** The visit *)

(** Boundaries that stand or fall with the last one. *)
Record visited_ok (payload : list Z) (S : gset Z) (at_ : Z) (vis : list Z) (pos : Z) : Prop := {
  vis_in : Forall (fun p => at_ <= p < pos /\ p < zlen payload /\ p ∉ S) vis;
  vis_nodup : NoDup vis;
  vis_chain : Forall (fun p => walk_loas payload p = walk_loas payload pos) vis;
  vis_at : walk_loas payload at_ = walk_loas payload pos;
  vis_pos : at_ <= pos
}.

Lemma visit_ok {E} payload refuted S at_ : bytes payload -> reps payload refuted S -> 0 <= at_ -> 3 <= zlen payload ->
  forall f vis pos, visited_ok payload S at_ vis pos -> (Z.to_nat (zlen payload - pos) < f)%nat ->
  exists vis' pos', visit (E:=E) f payload refuted pos vis = Ok (vis', pos') /\ visited_ok payload S at_ vis' pos'.
Proof.
  intros Hb Hr Ha Hl. induction f as [|f IH]; intros vis pos Hv Hf; [lia|]. cbn [visit].
  unfold usub. rewrite (proj2 (Z.leb_le _ _)) by lia. rb. destruct (Z.ltb_spec pos (zlen payload - 2)) as [Hlt|]; simpl negb; cbn iota; [|eauto].
  pose proof Hv as [Hin Hnd Hch Hat Hpos]. rewrite (is_refuted_poly payload refuted S pos Hr) by lia. rb.
  case_bool_decide as HS; [simpl; eauto|]. simpl orb. destruct (starts_with_loas_sync (zdrop pos payload)) eqn:Hsync; simpl negb; cbn iota; [|eauto].
  destruct (body_len_drop (E:=E) payload pos) as (n & Hn & Hnr); [done|lia|lia|]. rewrite Hn. rb.
  assert (walk_loas payload pos = walk_loas payload (pos + (3 + n))) as Hw.
  { rewrite (walk_eq payload pos) by (done || lia). rewrite (proj2 (Z.ltb_lt _ _)), (proj2 (Z.ltb_ge _ _)) by lia. rewrite Hsync. simpl negb. cbn iota.
    by rewrite (body_len_poly _ _ Hn). }
  apply IH; [|lia]. split.
  - apply Forall_app. split; [eapply Forall_impl; [exact Hin|]; intros p (? & ? & ?); split; [lia|done]|].
    apply Forall_singleton. split; [lia|]. split; [lia|done].
  - apply NoDup_app. split; [done|]. split; [|apply NoDup_singleton]. intros p Hp Hp'. apply list_elem_of_singleton in Hp' as ->.
    rewrite Forall_forall in Hin. specialize (Hin _ Hp). simpl in Hin. lia.
  - apply Forall_app. split; [|repeat constructor; done]. eapply Forall_impl; [exact Hch|]. simpl. congruence.
  - congruence.
  - lia.
Qed.

Lemma size_inside (S : gset Z) n : 0 <= n -> (forall p, p ∈ S -> 0 <= p < n) -> Z.of_nat (size S) <= n.
Proof.
  intros Hn HS. assert (size S <= size (list_to_set (seqZ 0 n) : gset Z))%nat as H.
  { apply subseteq_size. intros p Hp. apply elem_of_list_to_set, elem_of_seqZ. specialize (HS p Hp). lia. }
  rewrite size_list_to_set, length_seqZ in H by apply NoDup_seqZ. lia.
Qed.

Lemma visited_size payload S at_ vis pos : 0 <= at_ -> visited_ok payload S at_ vis pos ->
  (forall p, p ∈ S -> 0 <= p < zlen payload) ->
  Z.of_nat (size (list_to_set vis ∪ S)) = zlen vis + Z.of_nat (size S) /\ zlen vis + Z.of_nat (size S) <= zlen payload /\
  Forall (fun p => 0 <= p < zlen payload) vis.
Proof.
  intros Ha [Hin Hnd _ _ _] HS.
  assert (Forall (fun p => 0 <= p < zlen payload) vis) as Hr by (eapply Forall_impl; [exact Hin|]; simpl; lia).
  assert (Z.of_nat (size (list_to_set vis ∪ S)) = zlen vis + Z.of_nat (size S)) as Hs.
  { rewrite size_union; [rewrite size_list_to_set by done; unfold zlen; lia|].
    intros p Hp HpS. apply elem_of_list_to_set in Hp. rewrite Forall_forall in Hin. apply Hin in Hp as (_ & _ & Hp). done. }
  split; [done|]. split; [|done]. rewrite <- Hs. apply size_inside; [apply zlen_nonneg|].
  intros p [Hp|Hp]%elem_of_union; [|auto]. apply elem_of_list_to_set in Hp. rewrite Forall_forall in Hr. by apply Hr.
Qed.

Definition fails (payload : list Z) (p : Z) : Prop := exists e, walk_loas payload p = Err e.

Lemma resync_loop_ok {E} payload : bytes payload -> forall n at_ refuted S steps,
  (refuted = [] /\ S = ∅) \/ reps payload refuted S -> (forall p, p ∈ S -> fails payload p) ->
  0 <= at_ -> at_ + Z.of_nat n <= zlen payload -> 0 <= steps <= 2 * Z.of_nat (size S) ->
  exists steps', resync_loop (E:=E) n payload at_ refuted steps = Ok (search n payload at_, steps') /\ 0 <= steps' <= 2 * zlen payload.
Proof.
  intros Hb. induction n as [|n IH]; intros at_ refuted S steps Hr Hf Ha Hn Hs; cbn [resync_loop search].
  { eexists. split; [done|]. pose proof (zlen_nonneg payload). assert (Z.of_nat (size S) <= zlen payload); [|lia].
    apply size_inside; [done|]. destruct Hr as [[_ ->]|[_ _ Hi]]; [set_solver|done]. }
  assert (forall p, p ∈ S -> 0 <= p < zlen payload) as HS by (destruct Hr as [[_ ->]|[_ _ Hi]]; [set_solver|done]).
  pose proof (size_inside S (zlen payload) (zlen_nonneg _) HS) as Hsz.
  cbv zeta. destruct (negb (opens_loas_header _)); [by apply (IH _ _ S); [|done|lia..]|].
  rewrite zlen_zdrop by lia. destruct (Z.ltb_spec (zlen payload - at_) 3) as [Hshort|Hlong].
  { pose proof (split_header_no_panic (zdrop at_ payload)) as Hnp. rewrite zlen_zdrop in Hnp by lia. specialize (Hnp ltac:(lia)).
    destruct (split_header_carry _) as [[c|]| |]; [..|done]; (eexists; split; [done|]; lia). }
  destruct (body_len_drop (E:=E) payload at_) as (b & Hbl & Hbr); [done..|]. rewrite Hbl, (body_len_poly _ _ Hbl). rb.
  destruct (zlen payload <? at_ + 3 + b); [eexists; split; [done|]; lia|].
  set (ref := if decide (refuted = []) then _ else _).
  assert (reps payload ref S) as Href.
  { unfold ref. case_decide as Hd; destruct Hr as [[? ->]|Hr]; [apply reps_empty| |done|done].
    subst refuted. destruct Hr as [Hw _ _]. change (zlen []) with 0 in Hw. pose proof (word_in (zlen payload) 0). lia. }
  clearbody ref.
  destruct (visit_ok (E:=E) payload ref S at_ Hb Href Ha ltac:(lia) (Datatypes.S (length payload)) [] at_) as (vis & pos & -> & Hv).
  { by split; try constructor. } { unfold zlen in *; lia. }
  rb. destruct (visited_size payload S at_ vis pos Ha Hv HS) as (Hsz1 & Hsz2 & Hvin). pose proof (zlen_nonneg vis).
  assert (forall steps', walk_loas payload at_ = Err MissingSyncword \/ fails payload at_ -> 0 <= steps' <= 2 * (zlen vis + Z.of_nat (size S)) ->
    exists s, (let! refuted := mark_all (E:=E) ref vis in resync_loop n payload (at_ + 1) refuted steps') =
              Ok (search n payload (at_ + 1), s) /\ 0 <= s <= 2 * zlen payload) as Hgo.
  { intros steps' Hfail Hst. destruct (mark_all_reps (E:=E) payload vis ref S Href Hvin) as (r' & -> & Hr'). rb.
    eapply IH; [by right| |lia|lia|rewrite Hsz1; lia]. destruct Hv as [_ _ Hch Hat _].
    intros p [Hp|Hp]%elem_of_union; [|auto]. apply elem_of_list_to_set in Hp. rewrite Forall_forall in Hch. unfold fails.
    rewrite (Hch p Hp), <- Hat. destruct Hfail; [eauto|done]. }
  assert (exists b, (if pos <? zlen payload then is_refuted (E:=E) ref pos else Ok false) = Ok b /\ (b = true -> fails payload at_)) as (bad & -> & Hbad).
  { destruct Hv as [_ _ _ Hat Hpos]. destruct (Z.ltb_spec pos (zlen payload)); [|by exists false].
    rewrite (is_refuted_poly payload ref S) by (done || lia). eexists. split; [done|]. rewrite bool_decide_eq_true.
    intros Hp. unfold fails. rewrite Hat. by apply Hf. }
  rb. destruct bad; rb.
  - destruct (Hbad eq_refl) as [e He]. rewrite He. apply Hgo; [right; by exists e|lia].
  - pose proof (walk_no_panic payload Hb at_ Ha) as Hnp. destruct (walk_loas payload at_) as [c|e|] eqn:Hw; [..|done]; rb.
    + eexists. split; [done|]. lia.
    + apply Hgo; [right; by exists e|lia].
Qed.

End LatmLemmas.

(** * Results *)
Module LatmTheorems.
Import Latm LatmSpec LatmLemmas.

(** The search for a LOAS record boundary, which remembers the boundaries of
    refuted walks, answers exactly as the plain search that tries every
    candidate from scratch, and walks at most two boundaries per payload byte. *)
Theorem resync_plain (payload : list Z) :
  bytes payload ->
  exists steps, resync_loas_counting (E:=Empty_set) payload 0 = Ok (plain_resync payload, steps) /\ steps <= 2 * zlen payload.
Proof.
  intros Hb. unfold resync_loas_counting, plain_resync. pose proof (zlen_nonneg payload).
  destruct (resync_loop_ok (E:=Empty_set) payload Hb (Z.to_nat (Z.min (zlen payload) MAX_LOAS_RECORD_BYTES)) 0 [] ∅ 0)
    as (s & -> & ?); [by left|set_solver|lia|unfold MAX_LOAS_RECORD_BYTES; lia|rewrite size_empty; lia|].
  exists s. split; [done|lia].
Qed.

Lemma resync_plain_witness :
  exists steps, resync_loas_counting (E:=Empty_set) [7; 0x56; 0xE0; 0; 0x56; 0xE0; 1; 9] 0 =
                Ok (plain_resync [7; 0x56; 0xE0; 0; 0x56; 0xE0; 1; 9], steps) /\ steps <= 2 * 8.
Proof. apply (resync_plain [7; 0x56; 0xE0; 0; 0x56; 0xE0; 1; 9]). repeat constructor; unfold byte; lia. Defined.

End LatmTheorems.


(** * The framing check of the demuxer

    The LATM part of a PID's state and [check_latm_framing] of
    [mpegts/demux/pes_emit.rs] on it: the new state and the issue to raise. *)
Module LatmCheck.
Import Latm.

Record LatmState : Type := {
  latm_carry : option LoasCarry;
  latm_carry_tentative : bool;
  latm_unsynced_bytes : Z
}.

Definition latm_new : LatmState :=
  {| latm_carry := None; latm_carry_tentative := false; latm_unsynced_bytes := 0 |}.

(** The record boundary the payload is walked from, when the carry knows it; or
    the end of the check: a state and an issue. *)
Inductive known_start : Type :=
| Known (n : option Z)
| Done (s : LatmState) (issue : option LatmFramingKind).

Definition resolve_carry {E} (s : LatmState) (tentative : bool) (payload : list Z) (carry : option LoasCarry)
    : res E known_start :=
  let len := zlen payload in
  let keep c := Done {| latm_carry := Some c; latm_carry_tentative := tentative;
                        latm_unsynced_bytes := latm_unsynced_bytes s |} None in
  match carry with
  | None => Ok (Known None)
  | Some carry =>
      match resolve carry payload with
      | Ok (Body n) =>
          if len <=? n then Ok (keep (Body (n - len)))
          else if tentative && negb (opens_loas_header (zdrop n payload)) then Ok (Known None)
          else Ok (Known (Some n))
      | Ok header => Ok (keep header)
      | Err kind => if tentative then Ok (Known None) else Ok (Done s (Some kind))
      | Panic => Panic
      end
  end.

Definition walk_from {E} (s : LatmState) (payload : list Z) (start : Z) : res E (LatmState * option LatmFramingKind) :=
  match walk_loas payload start with
  | Ok carry => Ok ({| latm_carry := carry; latm_carry_tentative := latm_carry_tentative s; latm_unsynced_bytes := 0 |}, None)
  | Err kind => Ok (s, Some kind)
  | Panic => Panic
  end.

Definition check_latm_framing {E} (s : LatmState) (payload : list Z) (data_alignment_indicator damaged : bool)
    : res E (LatmState * option LatmFramingKind) :=
  let tentative := latm_carry_tentative s in
  let carry := latm_carry s in
  let s := {| latm_carry := None; latm_carry_tentative := false; latm_unsynced_bytes := latm_unsynced_bytes s |} in
  if damaged then Ok (s, None)
  else
  let! known := resolve_carry s tentative payload carry in
  match known with
  | Done s issue => Ok (s, issue)
  | Known (Some n) => walk_from s payload n
  | Known None =>
      if data_alignment_indicator || starts_with_loas_sync payload then walk_from s payload 0
      else
        let! r := resync_loas payload in
        match r with
        | Confirmed carry => Ok ({| latm_carry := carry; latm_carry_tentative := false; latm_unsynced_bytes := 0 |}, None)
        | Unconfirmed carry =>
            Ok ({| latm_carry := Some carry; latm_carry_tentative := true;
                   latm_unsynced_bytes := latm_unsynced_bytes s |}, None)
        | NoCandidate =>
            let before := latm_unsynced_bytes s in
            let now := Z.min u64_max (before + zlen payload) in
            let s := {| latm_carry := None; latm_carry_tentative := false; latm_unsynced_bytes := now |} in
            if (MAX_LOAS_RECORD_BYTES <? before) || (now <=? MAX_LOAS_RECORD_BYTES) then Ok (s, None)
            else Ok (s, Some MissingSyncword)
        end
  end.

End LatmCheck.

(** * A stream of records *)
Module LatmStream.
Import Latm LatmSpec LatmLemmas LatmCheck.

Definition body_ok (b : list Z) : Prop := bytes b /\ zlen b <= 0x1FFF.

Definition record (b : list Z) : list Z :=
  [LOAS_SYNC_BYTE0; LOAS_SYNC_BYTE1_VALUE + zlen b / 256; zlen b mod 256] ++ b.

Definition stream (bs : list (list Z)) : list Z := concat (map record bs).

(** The checks over the packets of a stream: the final state and every issue. *)
Fixpoint checks {E} (s : LatmState) (pes : list (bool * list Z)) : res E (LatmState * list LatmFramingKind) :=
  match pes with
  | [] => Ok (s, [])
  | (aligned, p) :: pes =>
      let! (s, i) := check_latm_framing s p aligned false in
      let! (s, is_) := checks s pes in
      Ok (s, match i with Some k => k :: is_ | None => is_ end)
  end.

Lemma sync_byte1 n : 0 <= n <= 0x1FFF ->
  Z.land (LOAS_SYNC_BYTE1_VALUE + n / 256) LOAS_SYNC_BYTE1_MASK = LOAS_SYNC_BYTE1_VALUE /\
  Z.lor (Z.shiftl (Z.land (LOAS_SYNC_BYTE1_VALUE + n / 256) 0x1F) 8) (n mod 256) = n /\
  byte (LOAS_SYNC_BYTE1_VALUE + n / 256) /\ byte (n mod 256).
Proof.
  intros Hn. assert (0 <= n / 256 < 32) as Hq by dlia. assert (0 <= n mod 256 < 256) as Hm by dlia.
  unfold byte, LOAS_SYNC_BYTE1_VALUE, LOAS_SYNC_BYTE1_MASK. split; [|split; [|lia]].
  - revert Hq. generalize (n / 256). intros q Hq.
    apply (below_dec 32 (fun q => Z.land (224 + q) 224 = 224)); [vm_compute; reflexivity|lia].
  - rewrite land_31, shiftl_mul by lia. rewrite (lor_add 8) by lia. dlia.
Qed.

Lemma record_len b : zlen (record b) = 3 + zlen b.
Proof. unfold record. rewrite zlen_app. done. Qed.

Lemma record_bytes b : body_ok b -> bytes (record b).
Proof.
  intros [Hb Hl]. pose proof (zlen_nonneg b). destruct (sync_byte1 (zlen b)) as (_ & _ & H1 & H2); [lia|].
  unfold record. apply bytes_app. split; [|done]. repeat constructor; try apply H1; try apply H2; unfold LOAS_SYNC_BYTE0; lia.
Qed.

Lemma stream_bytes bs : Forall body_ok bs -> bytes (stream bs).
Proof.
  induction 1 as [|b l Hb Hbs IH]; [constructor|]. change (stream (b :: l)) with (record b ++ stream l). apply bytes_app.
  split; [by apply record_bytes|done].
Qed.

Lemma opens_stream d rest bs : Forall body_ok bs -> d <> [] -> d ++ rest = stream bs -> opens_loas_header d = true.
Proof.
  intros Hbs Hd Heq. destruct bs as [|b bs]; [destruct d; [done|discriminate Heq]|].
  apply Forall_cons in Hbs as [[_ Hl] _]. pose proof (zlen_nonneg b). destruct (sync_byte1 (zlen b)) as (Hs & _); [lia|].
  unfold stream, record in Heq. simpl in Heq. unfold opens_loas_header. destruct d as [|d0 [|d1 d]]; [done|..].
  - injection Heq as -> _. rewrite bool_decide_eq_true_2 by done. apply orb_true_r.
  - injection Heq as -> -> _. unfold starts_with_loas_sync. by rewrite Hs, !Z.eqb_refl.
Qed.

(** The header bytes held back and the ones that arrive, put together. *)
Lemma join_header b len chunk : (len = 1 \/ len = 2) -> zlen b = 2 ->
  resolve (Header b len) chunk =
  let take_ := Z.min (zlen chunk) (3 - len) in
  let! w := walk_loas (ztake len b ++ ztake take_ chunk) 0 in
  Ok (match w with Some (Body n) => Body (take_ + n) | Some h => h | None => Body take_ end).
Proof.
  intros Hlen Hb. unfold resolve, usub. rewrite (proj2 (Z.leb_le _ _)) by lia. rb. set (t := Z.min (zlen chunk) (3 - len)).
  pose proof (zlen_nonneg chunk). assert (zlen (ztake t chunk) = t) as Ht by (rewrite zlen_ztake; lia).
  rewrite slice_ok by lia. rb. rewrite zdrop_0, Z.sub_0_r. assert (zlen (ztake len b) = len) as Hl by (rewrite zlen_ztake; lia).
  change [0; 0; 0] with ([] ++ [0; 0; 0]) at 1. rewrite put_app; [|done|rewrite Hl; change (zlen [0; 0; 0]) with 3; lia]. rb.
  rewrite app_nil_l. rewrite put_app; [|by rewrite Hl|rewrite Ht, zlen_zdrop, Hl by (rewrite Hl; change (zlen [0;0;0]) with 3; lia); change (zlen [0;0;0]) with 3; lia].
  rb. rewrite app_assoc. pose proof (slice_app (E:=LatmFramingKind) [] (ztake len b ++ ztake t chunk)) as Hsl. simpl app in Hsl.
  rewrite Hsl; [|done|rewrite zlen_app, Hl, Ht; change (zlen []) with 0; lia]. rb. done.
Qed.

(** ** What a carry stands for *)

Section Stream.
Context (all : list (list Z)) (Hall : Forall body_ok all).

(** The bytes [rest] of the stream of records [all] are still to come. No carry:
    a record starts. [Body n]: the current record has [n] bytes left, and at least
    [m] of its bytes have come, three once a check is over. [Header h len]: the
    first [len] bytes of a record have come, and are in [h]. *)
Definition owes (m : Z) (c : option LoasCarry) (rest : list Z) : Prop :=
  match c with
  | None => exists bs, bs `suffix_of` all /\ rest = stream bs
  | Some (Body n) => exists b bs pre x, (b :: bs) `suffix_of` all /\ record b = pre ++ x /\ m <= zlen pre /\ zlen x = n /\ rest = x ++ stream bs
  | Some (Header h len) => (len = 1 \/ len = 2) /\ zlen h = 2 /\ exists b bs, (b :: bs) `suffix_of` all /\ ztake len h ++ rest = stream (b :: bs)
  end.

Lemma suffix_ok bs : bs `suffix_of` all -> Forall body_ok bs.
Proof using Hall. intros [k ->]. by apply Forall_app in Hall as [_ ?]. Qed.

Lemma suffix_next b bs : (b :: bs) `suffix_of` all -> bs `suffix_of` all.
Proof. apply suffix_cons_l. Qed.

Lemma owes_weaken m m' c rest : m' <= m -> owes m c rest -> owes m' c rest.
Proof.
  intros Hm. destruct c as [[n|h len]|]; [|done|done]. intros (b & bs & pre & x & ? & ? & ? & ? & ?). exists b, bs, pre, x. split_and!; try done. lia.
Qed.

(** A walk that starts where a record starts ends with the carry of its last byte. *)
Lemma walk_records chunk rest : bytes chunk -> forall bs x, bs `suffix_of` all -> zlen x <= zlen chunk ->
  chunk ++ rest = x ++ stream bs ->
  exists c, walk_loas chunk (zlen x) = Ok c /\ owes 3 c rest.
Proof using Hall.
  intros Hc. induction bs as [|b bs IH]; intros x Hsuf Hl Heq; pose proof (zlen_nonneg x); rewrite walk_eq by done.
  - assert (zlen x = zlen chunk /\ rest = []) as [Hx ->].
    { unfold stream in Heq. simpl in Heq. rewrite app_nil_r in Heq. apply (f_equal zlen) in Heq. rewrite zlen_app in Heq.
      pose proof (zlen_nonneg rest). split; [lia|]. apply zlen_0. lia. }
    rewrite (proj2 (Z.ltb_ge _ _)) by lia. rewrite Hx, Z.sub_diag. eexists. split; [done|]. by exists [].
  - pose proof (suffix_ok _ Hsuf) as [[Hbb Hbl] Hbs]%Forall_cons. pose proof (zlen_nonneg b).
    destruct (sync_byte1 (zlen b)) as (Hs1 & Hs2 & Hs3 & Hs4); [lia|].
    set (d := zdrop (zlen x) chunk).
    assert (d ++ rest = record b ++ stream bs) as Hd.
    { unfold d. rewrite <- (zdrop_app x (record b ++ stream bs)). change (record b ++ stream bs) with (stream (b :: bs)).
      rewrite <- Heq. unfold zdrop, zlen in *. by rewrite drop_app_le by lia. }
    assert (zlen d = zlen chunk - zlen x) as Hdl by (unfold d; rewrite zlen_zdrop; lia).
    destruct (Z.ltb_spec (zlen x) (zlen chunk)) as [Hlt|Hge].
    2:{ rewrite (proj2 (Z.ltb_ge _ _)) by lia. eexists. split; [done|]. exists (b :: bs). split; [done|].
        assert (d = []) as Hnil by (apply zlen_0; lia). rewrite Hnil in Hd. exact Hd. }
    fold d. unfold record in Hd. simpl in Hd.
    destruct d as [|d0 [|d1 [|d2 d']]] eqn:Hdd.
    + change (zlen []) with 0 in Hdl. lia.
    + rewrite (proj2 (Z.ltb_lt _ _)) by (change (zlen [d0]) with 1 in Hdl; lia).
      injection Hd as -> Hr. eexists. split; [reflexivity|]. split; [by left|]. split; [done|].
      exists b, bs. split; [done|]. simpl. by rewrite Hr.
    + rewrite (proj2 (Z.ltb_lt _ _)) by (change (zlen [d0; d1]) with 2 in Hdl; lia).
      injection Hd as -> -> Hr. unfold split_header_carry. simpl get. unfold idx, get. simpl. rewrite Hs1. simpl.
      eexists. split; [reflexivity|]. split; [by right|]. split; [done|].
      exists b, bs. split; [done|]. simpl. by rewrite Hr.
    + rewrite !zlen_cons in Hdl. pose proof (zlen_nonneg d'). rewrite (proj2 (Z.ltb_ge _ _)) by lia.
      injection Hd as -> -> -> Hr. unfold starts_with_loas_sync. rewrite Hs1, !Z.eqb_refl. simpl negb. cbn iota.
      unfold record_body_len, idx, get. simpl. rewrite Hs2.
      destruct (decide (zlen x + (3 + zlen b) <= zlen chunk)) as [Hfit|Hover].
      * destruct (IH (x ++ record b) (suffix_next _ _ Hsuf)) as (c & Hw & Ho).
        -- rewrite zlen_app, record_len. lia.
        -- rewrite <- app_assoc. exact Heq.
        -- exists c. rewrite <- Hw, zlen_app, record_len. done.
      * rewrite walk_eq by (done || lia). rewrite (proj2 (Z.ltb_ge _ _)) by lia. rewrite (proj2 (Z.ltb_lt _ _)) by lia.
        eexists. split; [done|]. exists b, bs, ([LOAS_SYNC_BYTE0; LOAS_SYNC_BYTE1_VALUE + zlen b / 256; zlen b mod 256] ++ ztake (zlen d') b), (zdrop (zlen d') b).
        split; [done|]. split; [by rewrite <- app_assoc, ztake_zdrop|]. rewrite zlen_zdrop, zlen_app, zlen_ztake by lia.
        change (zlen [_; _; _]) with 3. split; [lia|]. split; [lia|].
        assert (rest = zdrop (zlen d') (b ++ stream bs)) as -> by (rewrite <- Hr; by rewrite zdrop_app).
        unfold zdrop, zlen in *. by rewrite drop_app_le by lia.
Qed.

(** A complete header is walked to the end of its record. *)
Lemma walk_header b : body_ok b ->
  walk_loas [LOAS_SYNC_BYTE0; LOAS_SYNC_BYTE1_VALUE + zlen b / 256; zlen b mod 256] 0 = Ok (if 0 <? zlen b then Some (Body (zlen b)) else None).
Proof.
  intros [_ Hl]. pose proof (zlen_nonneg b). destruct (sync_byte1 (zlen b)) as (H1 & H2 & H3 & H4); [lia|].
  match goal with |- walk_loas ?l 0 = _ => remember l as h eqn:Hh end.
  assert (bytes h) as Hb by (subst h; repeat constructor; try apply H3; try apply H4; unfold LOAS_SYNC_BYTE0; lia).
  assert (zlen h = 3) as H3h by by subst h.
  assert (starts_with_loas_sync h = true) as Hs by (subst h; unfold starts_with_loas_sync; by rewrite H1, !Z.eqb_refl).
  assert (record_body_len (E:=LatmFramingKind) h = Ok (zlen b)) as Hr by (subst h; unfold record_body_len, idx, get; simpl; by rewrite H2).
  rewrite walk_eq, H3h, zdrop_0, Hs, Hr by done. simpl.
  rewrite walk_eq, H3h by (done || lia). rewrite (proj2 (Z.ltb_ge _ _)) by lia. by replace (0 + (3 + zlen b) - 3) with (zlen b) by lia.
Qed.

Lemma resolve_carry_ok c chunk rest : bytes chunk -> owes 3 (Some c) (chunk ++ rest) ->
  exists c', resolve c chunk = Ok c' /\
    match c' with Body _ => owes (3 - zlen chunk) (Some c') (chunk ++ rest) | Header _ _ => owes 3 (Some c') rest end.
Proof using Hall.
  intros Hc Ho. pose proof (zlen_nonneg chunk). destruct c as [n|h len].
  { exists (Body n). split; [done|]. by apply (owes_weaken 3); [lia|]. }
  destruct Ho as (Hlen & Hh & b & bs & Hsuf & Heq). rewrite join_header by done. cbv zeta. set (t := Z.min (zlen chunk) (3 - len)).
  set (known := ztake len h ++ ztake t chunk).
  assert (zlen known = len + t) as Hkl by (unfold known; rewrite zlen_app, !zlen_ztake; lia).
  assert (known ++ zdrop t chunk ++ rest = stream (b :: bs)) as Hk.
  { unfold known. rewrite <- Heq, <- app_assoc. f_equal. by rewrite app_assoc, ztake_zdrop. }
  assert (bytes known) as Hkb.
  { pose proof (stream_bytes (b :: bs) (suffix_ok _ Hsuf)) as Hsb. rewrite <- Hk in Hsb. by apply bytes_app in Hsb as [? _]. }
  destruct (decide (zlen known = 3)) as [H3|H3].
  - pose proof (suffix_ok _ Hsuf) as [Hb _]%Forall_cons. change (stream (b :: bs)) with ([LOAS_SYNC_BYTE0; LOAS_SYNC_BYTE1_VALUE + zlen b / 256; zlen b mod 256] ++ b ++ stream bs) in Hk.
    apply app_inj_1 in Hk as [Hkn Hr]; [|unfold zlen in H3; cbn; lia]. rewrite Hkn, walk_header by done. rb.
    exists (Body (t + zlen b)). split; [destruct (Z.ltb_spec 0 (zlen b)); [done|]; pose proof (zlen_nonneg b); by replace (zlen b) with 0 by lia; rewrite Z.add_0_r|].
    exists b, bs, (ztake len h), (ztake t chunk ++ b). split; [done|]. split; [rewrite app_assoc; fold known; by rewrite Hkn|].
    rewrite zlen_app, !zlen_ztake by lia. split; [lia|]. split; [lia|]. by rewrite <- app_assoc, <- Hr, app_assoc, ztake_zdrop.
  - assert (t = zlen chunk) as Ht by lia. rewrite Ht, zdrop_all in Hk by lia.
    destruct (walk_records known rest Hkb (b :: bs) [] Hsuf) as (w & Hw & Hwo); [change (zlen []) with 0; lia|done|].
    change (zlen []) with 0 in Hw. rewrite Hw. rb. assert (exists h' len', w = Some (Header h' len')) as (h' & len' & ->); [|by eexists].
    rewrite walk_eq, zdrop_0 in Hw by done. rewrite (proj2 (Z.ltb_lt _ _)), (proj2 (Z.ltb_lt _ _)) in Hw by lia.
    unfold split_header_carry in Hw. apply rbind_ok in Hw as (r0 & _ & Hw). cbv zeta in Hw. destruct (negb _); [done|].
    apply rbind_ok in Hw as (bb & _ & Hw). injection Hw as <-. by eexists _, _.
Qed.

Lemma check_clean {E} st chunk rest aligned : bytes chunk -> 1 <= zlen chunk -> owes 3 (latm_carry st) (chunk ++ rest) ->
  exists st', check_latm_framing (E:=E) st chunk aligned false = Ok (st', None) /\ owes 3 (latm_carry st') rest.
Proof using Hall.
  intros Hc Hl Ho. unfold check_latm_framing, resolve_carry. destruct (latm_carry st) as [c|].
  - destruct (resolve_carry_ok c chunk rest Hc Ho) as (c' & -> & Ho'). destruct c' as [n|b len]; rb.
    + destruct Ho' as (b & bs & pre & x & Hsuf & Hrec & Hpre & Hxl & Heq). destruct (Z.leb_spec (zlen chunk) n) as [Hle|Hgt]; rb.
      * eexists. split; [done|]. assert (x = chunk ++ zdrop (zlen chunk) x) as Hx.
        { apply (f_equal (ztake (zlen chunk))) in Heq as Ht. rewrite ztake_app in Ht. unfold ztake in Ht. rewrite take_app_le in Ht by (unfold zlen in *; lia).
          rewrite Ht at 1. symmetry. exact (ztake_zdrop x (zlen chunk)). }
        exists b, bs, (pre ++ chunk), (zdrop (zlen chunk) x). split; [done|]. split; [by rewrite <- app_assoc, <- Hx|].
        rewrite zlen_app, zlen_zdrop by lia. split; [lia|]. split; [lia|]. rewrite Hx, <- app_assoc in Heq. by apply app_inv_head in Heq.
      * assert (opens_loas_header (zdrop n chunk) = true) as ->.
        { apply (opens_stream _ rest bs (suffix_ok _ (suffix_next _ _ Hsuf))).
          - intros H0. apply (f_equal zlen) in H0. rewrite zlen_zdrop in H0 by (pose proof (zlen_nonneg x); lia). change (zlen []) with 0 in H0. lia.
          - rewrite <- (zdrop_app x (stream bs)), Hxl, <- Heq. unfold zdrop, zlen in *. by rewrite drop_app_le by lia. }
        rewrite andb_false_r. cbn iota. destruct (walk_records chunk rest Hc bs x (suffix_next _ _ Hsuf)) as (w & Hw & Hwo); [lia|done|].
        rb. unfold walk_from. rewrite Hxl in Hw. rewrite Hw. eexists. split; [done|]. done.
    + eexists. split; [done|]. done.
  - destruct Ho as (bs & Hsuf & Heq). rb. destruct (aligned || starts_with_loas_sync chunk) eqn:Hs.
    + destruct (walk_records chunk rest Hc bs [] Hsuf) as (w & Hw & Hwo); [change (zlen []) with 0; lia|done|].
      change (zlen []) with 0 in Hw. unfold walk_from. rewrite Hw. eexists. by split.
    + apply orb_false_iff in Hs as [_ Hs].
      assert (opens_loas_header chunk = true) as Hop.
      { apply (opens_stream _ rest bs (suffix_ok _ Hsuf)); [|done]. intros ->. change (zlen []) with 0 in Hl. lia. }
      unfold opens_loas_header in Hop. rewrite Hs in Hop. simpl in Hop. apply bool_decide_eq_true in Hop as ->.
      eexists. split; [reflexivity|]. split; [by left|]. split; [done|].
      destruct bs as [|b bs]; [discriminate Heq|]. by exists b, bs.
Qed.

End Stream.

End LatmStream.

(** * Results on streams *)
Module LatmStreamTheorems.
Import Latm LatmSpec LatmLemmas LatmCheck LatmStream.

(** C34: A conformant LOAS stream is never reported, however it is cut into
    non-empty packets and wherever it stops: a record, or its three-byte header, may
    continue into the next packet at any byte, with or without the alignment
    flag. The carry left behind is exact for the bytes [rest] that are still to
    come ([owes]): no carry only at a record boundary, [Body n] when the record
    being read has exactly [n] bytes left (zero, when a packet ended it), or the
    first one or two bytes of the next header when the packet stops inside it. *)
Theorem latm_stream_clean (bs : list (list Z)) (pes : list (bool * list Z)) (rest : list Z) :
  Forall body_ok bs -> Forall (fun p => 1 <= zlen p.2) pes -> concat (map snd pes) ++ rest = stream bs ->
  exists s, checks (E:=Empty_set) latm_new pes = Ok (s, []) /\ owes bs 3 (latm_carry s) rest.
Proof.
  intros Hbs Hp Heq.
  assert (bytes (concat (map snd pes))) as Hb.
  { pose proof (stream_bytes bs Hbs) as Hs. rewrite <- Heq in Hs. by apply bytes_app in Hs as [? _]. }
  assert (owes bs 3 (latm_carry latm_new) (concat (map snd pes) ++ rest)) as Ho by by exists bs.
  clear Heq. revert Ho. generalize latm_new. induction Hp as [|[a p] pes Hl _ IH]; intros st Ho; cbn [checks]; [by eexists|].
  cbn [map concat snd] in *. apply bytes_app in Hb as [Hb1 Hb2]. rewrite <- app_assoc in Ho.
  destruct (check_clean bs Hbs (E:=Empty_set) st p _ a Hb1 Hl Ho) as (st' & -> & Ho'). rb.
  destruct (IH Hb2 st' Ho') as (s & -> & Hf). rb. by eexists.
Qed.

(** Two records cut inside the second header, and inside the second body. *)
Lemma latm_stream_clean_witness :
  exists s, checks (E:=Empty_set) latm_new [(true, [0x56; 0xE0; 2; 9; 9; 0x56]); (false, [0xE0]); (false, [2; 7])] = Ok (s, []) /\
    owes [[9; 9]; [7; 8]] 3 (latm_carry s) [8] /\ latm_carry s = Some (Body 1).
Proof.
  destruct (latm_stream_clean [[9; 9]; [7; 8]] [(true, [0x56; 0xE0; 2; 9; 9; 0x56]); (false, [0xE0]); (false, [2; 7])] [8]) as (s & H1 & H2).
  - repeat constructor; unfold byte; try lia; vm_compute; discriminate.
  - repeat constructor; vm_compute; discriminate.
  - reflexivity.
  - exists s. split; [exact H1|]. split; [exact H2|]. vm_compute in H1. injection H1 as <-. reflexivity.
Defined.

End LatmStreamTheorems.
