(* ===== verification/DemuxTypes.v ===== *)
(** The demuxer's vocabulary: events ([mpegts/demux/event.rs]), strictness
    ([strict.rs]), configuration and program trackers ([types.rs]) and
    everything remembered about one PID ([pid_state.rs]). *)
From Stdlib Require Import ZArith Lia Bool String.
From stdpp Require Import base list list_numbers gmap.
From S2P Require Import Prelude.
From S2P Require Import Common.
From S2P Require Import TsPacket.
From S2P Require Import PesDemux.
From S2P Require Import PsiParse.
From S2P Require Import PsiWriter.
From S2P Require Import Descriptors.
From S2P Require Import AuCell.
From S2P Require Import Muxer.
From S2P Require Import DemuxTime.
From S2P Require Import AuReassemble.
From S2P Require Import Latm.

#[global] Instance AudioClass_eq_dec : EqDecision PsiParse.AudioClass.
Proof. solve_decision. Defined.
#[global] Instance DemuxSubtitleCodec_eq_dec : EqDecision PmtClassify.DemuxSubtitleCodec.
Proof. solve_decision. Defined.
#[global] Instance StreamKind_eq_dec : EqDecision PmtClassify.StreamKind.
Proof. solve_decision. Defined.
#[global] Instance CodecKind_eq_dec : EqDecision MuxState.CodecKind.
Proof. solve_decision. Defined.

(** * Events *)
Module DemuxEvent.
Import Common PsiParse MuxTypes PmtClassify AuCell.

Record StreamId : Type := { sid_pid : Z; sid_kind : StreamKind; sid_program_number : Z }.

Definition anonymous (pid program_number : Z) : StreamId :=
  {| sid_pid := pid; sid_kind := PmtClassify.Unknown 0; sid_program_number := program_number |}.

Inductive SamplePayload : Type :=
| Video (codec : VideoCodec) (raw : list Z) (random_access_indicator : bool) (av1_carriage : option Av1CarriageMode)
| Audio (codec : AudioClass) (frames : list Z)
| Subtitle (codec : DemuxSubtitleCodec) (payload : list Z)
| UnknownSample (stream_type : StreamTypeCode) (raw : list Z).

Inductive MetadataKind : Type :=
| KlvSyncAuCell (metadata_service_id sequence_number : Z) (cell_fragment_indication : CellFragmentIndication)
    (decoder_config_flag random_access_indicator was_reassembled : bool) (cell_count : Z)
| KlvAsyncKind
| UnknownKind (stream_type : StreamTypeCode).

Record StreamInfo : Type := {
  si_pid : Z;
  si_stream_type : StreamTypeCode;
  si_kind : StreamKind;
  si_program_number : Z;
  si_raw_descriptors : list RawDescriptor;
}.

Inductive LinkSource : Type := Declared | Inferred | Override.

Record KlvLink : Type := { link_klv_pid : Z; link_video_pid : Z; link_source : LinkSource }.

Record ProgramMap : Type := {
  pm_program_number : Z;
  pm_pcr_pid : Z;
  pm_pmt_pid : Z;
  pm_streams : list StreamInfo;
  pm_klv_links : list KlvLink;
}.

Inductive NalHeaderKind : Type :=
| ForbiddenZeroBit | NalReservedBit | ZeroTemporalIdPlus1 | LayerIdOutOfRange (id : Z) | NalTruncated.

Inductive Av1ObuHeaderKind : Type :=
| ForbiddenBit | ObuReservedBit | ExtensionReservedBits | ObuTruncated | InvalidEmulationPrevention.

Inductive NonConformantIssue : Type :=
| StreamTypeMismatchSyncOnAsyncPid
| StreamTypeMismatchAsyncOnSyncPid
| MissingMetadataDescriptor
| PcrAnomaly (delta : Z)
| PsiChecksumMismatch (pid : Z)
| PusiMidPes
| MalformedPes (pid : Z) (reason : string)
| PidReusedAcrossPrograms (pid : Z) (programs : Z * Z)
| SubtitleMissingDescriptor (pid : Z)
| SubtitleDescriptorAmbiguous (pid : Z) (tags : list Z)
| SubtitleDescriptorMalformed (pid tag : Z)
| Av1RegistrationMalformed (pid : Z)
| Av1ObuMissingSizeField (pid obu_type : Z)
| Av1TileListNotAllowed (pid : Z)
| PsiOverlongSection (pid observed_len : Z)
| TransportErrorPacket (pid : Z)
| DvbSubDataIdentifier (observed : Z)
| PtsAnomaly (delta : Z)
| MissingRequiredPts (pid : Z)
| PesHeaderMalformed (pid : Z) (kind : PesParse.PesHeaderMalformedKind)
| SubtitleAlignmentMissing (pid : Z)
| PcrMalformed (kind : TsParser.PcrMalformedKind)
| NalHeader (codec : VideoCodec) (kind : NalHeaderKind)
| Av1ObuHeader (pid : Z) (kind : Av1ObuHeaderKind)
| LatmFraming (pid : Z) (kind : Latm.LatmFramingKind)
| PsiCcDiscontinuity (pid expected observed : Z)
| MultiCellAu (pid dropped_bytes : Z) (reason : AuReassembler.MultiCellAuReason)
| CfiTolerated (pid : Z) (observed_cfi treated_as : CellFragmentIndication)
| PsiMultiSectionUnsupported (pid table_id last_section_number : Z)
| Ac3SyncMissing (pid : Z)
| Av1WrongStreamId (pid observed : Z)
| Av1MissingTsObuFraming (pid : Z)
| PmtProgramNumberMismatch (pid pat_program pmt_program : Z)
| UnsupportedScrambling (pid control : Z)
| AdaptationFieldMalformed (pid : Z) (kind : TsParser.AdaptationFieldKind)
| ZeroLengthPesNonVideo (pid stream_id : Z)
| PsiSyntax (pid table_id : Z) (kind : PsiSyntaxKind)
| Other (text : string).

Inductive DiscontinuityKind : Type :=
| ContinuityJump (expected observed : Z)
| PesOversize (pid : Z)
| PesTotalOversize
| AdaptationFieldFlag.

Inductive DemuxEvent : Type :=
| EvProgramMap (m : ProgramMap)
| EvSample (stream : StreamId) (pts : Z) (dts : option Z) (payload : SamplePayload)
| EvMetadata (stream : StreamId) (pts : Z) (kind : MetadataKind) (payload : list Z)
| EvDiscontinuity (stream : StreamId) (kind : DiscontinuityKind)
| EvNonConformant (stream : StreamId) (issue : NonConformantIssue)
| EvReconnectDiscontinuity.

End DemuxEvent.

(** * Strictness *)
Module Strict.
Import DemuxEvent.

Inductive StrictMode : Type := Off | TimingOnly | DescriptorsOnly | Full.

#[global] Instance StrictMode_eq_dec : EqDecision StrictMode.
Proof. solve_decision. Defined.

Definition rejects (m : StrictMode) (issue : NonConformantIssue) : bool :=
  match m with
  | Off => false
  | TimingOnly =>
      match issue with
      | PcrAnomaly _ | PtsAnomaly _ | MissingRequiredPts _ | PcrMalformed _ | PusiMidPes | PsiChecksumMismatch _ => true
      | _ => false
      end
  | DescriptorsOnly =>
      match issue with
      | StreamTypeMismatchSyncOnAsyncPid | StreamTypeMismatchAsyncOnSyncPid | MissingMetadataDescriptor
      | SubtitleMissingDescriptor _ | SubtitleDescriptorAmbiguous _ _ => true
      | _ => false
      end
  | Full =>
      match issue with
      | PsiMultiSectionUnsupported _ table_id _ => negb (table_id =? 0x00)
      | _ => true
      end
  end.

End Strict.

(** * Configuration and program trackers *)
Module DemuxConfig.
Import Common PmtClassify DemuxEvent Strict.

Definition DEFAULT_PES_CAP_PER_PID : Z := 4 * 1024 * 1024.
Definition DEFAULT_PES_CAP_TOTAL : Z := 64 * 1024 * 1024.
Definition DEFAULT_AU_CELL_CAP_PER_PID : Z := 1024 * 1024.
Definition DEFAULT_AU_CELL_CAP_TOTAL : Z := 16 * 1024 * 1024.
Definition DEFAULT_AU_CELL_MAX_IN_FLIGHT_PIDS : Z := 64.

Record DemuxerConfig : Type := {
  strict : StrictMode;
  pes_cap_per_pid : option Z;
  pes_cap_total : option Z;
  sync_buf_cap : option Z;
  klv_link_overrides : list (Z * Z);
  stream_kind_overrides : gmap Z StreamKind;
  lenient_psi_reassembly : bool;
  av1_carriage : Av1CarriageMode;
  au_cell_cap_per_pid : option Z;
  au_cell_cap_total : option Z;
  au_cell_max_in_flight_pids : option Z;
  cfi_tolerance : bool;
  unwrap_timestamps : bool;
}.

Definition DemuxerConfig_default : DemuxerConfig :=
  {| strict := Off; pes_cap_per_pid := None; pes_cap_total := None; sync_buf_cap := None;
     klv_link_overrides := []; stream_kind_overrides := ∅; lenient_psi_reassembly := false;
     av1_carriage := Mpeg2TsBinding; au_cell_cap_per_pid := None; au_cell_cap_total := None;
     au_cell_max_in_flight_pids := None; cfi_tolerance := true; unwrap_timestamps := false |}.

Record ProgramTracker : Type := {
  pt_program_number : Z;
  pt_pmt_pid : Z;
  pt_pmt_version : option Z;
  pt_pcr_pid : option Z;
  pt_streams : list StreamInfo;
  klv_mismatch_coalesce : gset Z;
}.

End DemuxConfig.

(** * What is remembered about one PID *)
Module PidState.
Import Common PmtClassify MuxState LatmCheck Timestamp.

(** The three [latm_*] fields are one record, [LatmCheck.LatmState]. *)
Record PidState : Type := {
  stream_kind : option StreamKind;
  program : option Z;
  stream_type : option Z;
  teletext_ebu_profile : bool;
  cc : option Z;
  dup : bool;
  last_pkt_raw : option (list Z);
  last_pts : option Z;
  pts_baseline_clears_after_pes : bool;
  source_reset_after_pes : bool;
  source_reset_in_pes : bool;
  pts_less_since_pts : bool;
  pts_less_run_pcr : option Z;
  pts_less_run_reported : bool;
  unwrap : option UnwrapState;
  latm : LatmState;
  stats : option StreamStats;
  codec : option StreamCodecCounters;
  subtitle_missing_descriptor_emitted : bool;
  av1_registration_malformed_emitted : bool;
  subtitle_descriptor_ambiguous_emitted : bool;
  sync_pes_shape_emitted : bool;
  subtitle_seen : bool;
}.

Definition set_stream_kind (s : PidState) (x : option StreamKind) : PidState :=
  {| stream_kind := x; program := program s; stream_type := stream_type s; teletext_ebu_profile :=
  teletext_ebu_profile s; cc := cc s; dup := dup s; last_pkt_raw := last_pkt_raw s; last_pts := last_pts s;
  pts_baseline_clears_after_pes := pts_baseline_clears_after_pes s; source_reset_after_pes := source_reset_after_pes
  s; source_reset_in_pes := source_reset_in_pes s; pts_less_since_pts := pts_less_since_pts s; pts_less_run_pcr :=
  pts_less_run_pcr s; pts_less_run_reported := pts_less_run_reported s; unwrap := unwrap s; latm := latm s; stats :=
  stats s; codec := codec s; subtitle_missing_descriptor_emitted := subtitle_missing_descriptor_emitted s;
  av1_registration_malformed_emitted := av1_registration_malformed_emitted s; subtitle_descriptor_ambiguous_emitted :=
  subtitle_descriptor_ambiguous_emitted s; sync_pes_shape_emitted := sync_pes_shape_emitted s; subtitle_seen :=
  subtitle_seen s |}.
Definition set_program (s : PidState) (x : option Z) : PidState :=
  {| stream_kind := stream_kind s; program := x; stream_type := stream_type s; teletext_ebu_profile :=
  teletext_ebu_profile s; cc := cc s; dup := dup s; last_pkt_raw := last_pkt_raw s; last_pts := last_pts s;
  pts_baseline_clears_after_pes := pts_baseline_clears_after_pes s; source_reset_after_pes := source_reset_after_pes
  s; source_reset_in_pes := source_reset_in_pes s; pts_less_since_pts := pts_less_since_pts s; pts_less_run_pcr :=
  pts_less_run_pcr s; pts_less_run_reported := pts_less_run_reported s; unwrap := unwrap s; latm := latm s; stats :=
  stats s; codec := codec s; subtitle_missing_descriptor_emitted := subtitle_missing_descriptor_emitted s;
  av1_registration_malformed_emitted := av1_registration_malformed_emitted s; subtitle_descriptor_ambiguous_emitted :=
  subtitle_descriptor_ambiguous_emitted s; sync_pes_shape_emitted := sync_pes_shape_emitted s; subtitle_seen :=
  subtitle_seen s |}.
Definition set_stream_type (s : PidState) (x : option Z) : PidState :=
  {| stream_kind := stream_kind s; program := program s; stream_type := x; teletext_ebu_profile :=
  teletext_ebu_profile s; cc := cc s; dup := dup s; last_pkt_raw := last_pkt_raw s; last_pts := last_pts s;
  pts_baseline_clears_after_pes := pts_baseline_clears_after_pes s; source_reset_after_pes := source_reset_after_pes
  s; source_reset_in_pes := source_reset_in_pes s; pts_less_since_pts := pts_less_since_pts s; pts_less_run_pcr :=
  pts_less_run_pcr s; pts_less_run_reported := pts_less_run_reported s; unwrap := unwrap s; latm := latm s; stats :=
  stats s; codec := codec s; subtitle_missing_descriptor_emitted := subtitle_missing_descriptor_emitted s;
  av1_registration_malformed_emitted := av1_registration_malformed_emitted s; subtitle_descriptor_ambiguous_emitted :=
  subtitle_descriptor_ambiguous_emitted s; sync_pes_shape_emitted := sync_pes_shape_emitted s; subtitle_seen :=
  subtitle_seen s |}.
Definition set_teletext_ebu_profile (s : PidState) (x : bool) : PidState :=
  {| stream_kind := stream_kind s; program := program s; stream_type := stream_type s; teletext_ebu_profile := x; cc
  := cc s; dup := dup s; last_pkt_raw := last_pkt_raw s; last_pts := last_pts s; pts_baseline_clears_after_pes :=
  pts_baseline_clears_after_pes s; source_reset_after_pes := source_reset_after_pes s; source_reset_in_pes :=
  source_reset_in_pes s; pts_less_since_pts := pts_less_since_pts s; pts_less_run_pcr := pts_less_run_pcr s;
  pts_less_run_reported := pts_less_run_reported s; unwrap := unwrap s; latm := latm s; stats := stats s; codec :=
  codec s; subtitle_missing_descriptor_emitted := subtitle_missing_descriptor_emitted s;
  av1_registration_malformed_emitted := av1_registration_malformed_emitted s; subtitle_descriptor_ambiguous_emitted :=
  subtitle_descriptor_ambiguous_emitted s; sync_pes_shape_emitted := sync_pes_shape_emitted s; subtitle_seen :=
  subtitle_seen s |}.
Definition set_cc (s : PidState) (x : option Z) : PidState :=
  {| stream_kind := stream_kind s; program := program s; stream_type := stream_type s; teletext_ebu_profile :=
  teletext_ebu_profile s; cc := x; dup := dup s; last_pkt_raw := last_pkt_raw s; last_pts := last_pts s;
  pts_baseline_clears_after_pes := pts_baseline_clears_after_pes s; source_reset_after_pes := source_reset_after_pes
  s; source_reset_in_pes := source_reset_in_pes s; pts_less_since_pts := pts_less_since_pts s; pts_less_run_pcr :=
  pts_less_run_pcr s; pts_less_run_reported := pts_less_run_reported s; unwrap := unwrap s; latm := latm s; stats :=
  stats s; codec := codec s; subtitle_missing_descriptor_emitted := subtitle_missing_descriptor_emitted s;
  av1_registration_malformed_emitted := av1_registration_malformed_emitted s; subtitle_descriptor_ambiguous_emitted :=
  subtitle_descriptor_ambiguous_emitted s; sync_pes_shape_emitted := sync_pes_shape_emitted s; subtitle_seen :=
  subtitle_seen s |}.
Definition set_dup (s : PidState) (x : bool) : PidState :=
  {| stream_kind := stream_kind s; program := program s; stream_type := stream_type s; teletext_ebu_profile :=
  teletext_ebu_profile s; cc := cc s; dup := x; last_pkt_raw := last_pkt_raw s; last_pts := last_pts s;
  pts_baseline_clears_after_pes := pts_baseline_clears_after_pes s; source_reset_after_pes := source_reset_after_pes
  s; source_reset_in_pes := source_reset_in_pes s; pts_less_since_pts := pts_less_since_pts s; pts_less_run_pcr :=
  pts_less_run_pcr s; pts_less_run_reported := pts_less_run_reported s; unwrap := unwrap s; latm := latm s; stats :=
  stats s; codec := codec s; subtitle_missing_descriptor_emitted := subtitle_missing_descriptor_emitted s;
  av1_registration_malformed_emitted := av1_registration_malformed_emitted s; subtitle_descriptor_ambiguous_emitted :=
  subtitle_descriptor_ambiguous_emitted s; sync_pes_shape_emitted := sync_pes_shape_emitted s; subtitle_seen :=
  subtitle_seen s |}.
Definition set_last_pkt_raw (s : PidState) (x : option (list Z)) : PidState :=
  {| stream_kind := stream_kind s; program := program s; stream_type := stream_type s; teletext_ebu_profile :=
  teletext_ebu_profile s; cc := cc s; dup := dup s; last_pkt_raw := x; last_pts := last_pts s;
  pts_baseline_clears_after_pes := pts_baseline_clears_after_pes s; source_reset_after_pes := source_reset_after_pes
  s; source_reset_in_pes := source_reset_in_pes s; pts_less_since_pts := pts_less_since_pts s; pts_less_run_pcr :=
  pts_less_run_pcr s; pts_less_run_reported := pts_less_run_reported s; unwrap := unwrap s; latm := latm s; stats :=
  stats s; codec := codec s; subtitle_missing_descriptor_emitted := subtitle_missing_descriptor_emitted s;
  av1_registration_malformed_emitted := av1_registration_malformed_emitted s; subtitle_descriptor_ambiguous_emitted :=
  subtitle_descriptor_ambiguous_emitted s; sync_pes_shape_emitted := sync_pes_shape_emitted s; subtitle_seen :=
  subtitle_seen s |}.
Definition set_last_pts (s : PidState) (x : option Z) : PidState :=
  {| stream_kind := stream_kind s; program := program s; stream_type := stream_type s; teletext_ebu_profile :=
  teletext_ebu_profile s; cc := cc s; dup := dup s; last_pkt_raw := last_pkt_raw s; last_pts := x;
  pts_baseline_clears_after_pes := pts_baseline_clears_after_pes s; source_reset_after_pes := source_reset_after_pes
  s; source_reset_in_pes := source_reset_in_pes s; pts_less_since_pts := pts_less_since_pts s; pts_less_run_pcr :=
  pts_less_run_pcr s; pts_less_run_reported := pts_less_run_reported s; unwrap := unwrap s; latm := latm s; stats :=
  stats s; codec := codec s; subtitle_missing_descriptor_emitted := subtitle_missing_descriptor_emitted s;
  av1_registration_malformed_emitted := av1_registration_malformed_emitted s; subtitle_descriptor_ambiguous_emitted :=
  subtitle_descriptor_ambiguous_emitted s; sync_pes_shape_emitted := sync_pes_shape_emitted s; subtitle_seen :=
  subtitle_seen s |}.
Definition set_pts_baseline_clears_after_pes (s : PidState) (x : bool) : PidState :=
  {| stream_kind := stream_kind s; program := program s; stream_type := stream_type s; teletext_ebu_profile :=
  teletext_ebu_profile s; cc := cc s; dup := dup s; last_pkt_raw := last_pkt_raw s; last_pts := last_pts s;
  pts_baseline_clears_after_pes := x; source_reset_after_pes := source_reset_after_pes s; source_reset_in_pes :=
  source_reset_in_pes s; pts_less_since_pts := pts_less_since_pts s; pts_less_run_pcr := pts_less_run_pcr s;
  pts_less_run_reported := pts_less_run_reported s; unwrap := unwrap s; latm := latm s; stats := stats s; codec :=
  codec s; subtitle_missing_descriptor_emitted := subtitle_missing_descriptor_emitted s;
  av1_registration_malformed_emitted := av1_registration_malformed_emitted s; subtitle_descriptor_ambiguous_emitted :=
  subtitle_descriptor_ambiguous_emitted s; sync_pes_shape_emitted := sync_pes_shape_emitted s; subtitle_seen :=
  subtitle_seen s |}.
Definition set_source_reset_after_pes (s : PidState) (x : bool) : PidState :=
  {| stream_kind := stream_kind s; program := program s; stream_type := stream_type s; teletext_ebu_profile :=
  teletext_ebu_profile s; cc := cc s; dup := dup s; last_pkt_raw := last_pkt_raw s; last_pts := last_pts s;
  pts_baseline_clears_after_pes := pts_baseline_clears_after_pes s; source_reset_after_pes := x; source_reset_in_pes
  := source_reset_in_pes s; pts_less_since_pts := pts_less_since_pts s; pts_less_run_pcr := pts_less_run_pcr s;
  pts_less_run_reported := pts_less_run_reported s; unwrap := unwrap s; latm := latm s; stats := stats s; codec :=
  codec s; subtitle_missing_descriptor_emitted := subtitle_missing_descriptor_emitted s;
  av1_registration_malformed_emitted := av1_registration_malformed_emitted s; subtitle_descriptor_ambiguous_emitted :=
  subtitle_descriptor_ambiguous_emitted s; sync_pes_shape_emitted := sync_pes_shape_emitted s; subtitle_seen :=
  subtitle_seen s |}.
Definition set_source_reset_in_pes (s : PidState) (x : bool) : PidState :=
  {| stream_kind := stream_kind s; program := program s; stream_type := stream_type s; teletext_ebu_profile :=
  teletext_ebu_profile s; cc := cc s; dup := dup s; last_pkt_raw := last_pkt_raw s; last_pts := last_pts s;
  pts_baseline_clears_after_pes := pts_baseline_clears_after_pes s; source_reset_after_pes := source_reset_after_pes
  s; source_reset_in_pes := x; pts_less_since_pts := pts_less_since_pts s; pts_less_run_pcr := pts_less_run_pcr s;
  pts_less_run_reported := pts_less_run_reported s; unwrap := unwrap s; latm := latm s; stats := stats s; codec :=
  codec s; subtitle_missing_descriptor_emitted := subtitle_missing_descriptor_emitted s;
  av1_registration_malformed_emitted := av1_registration_malformed_emitted s; subtitle_descriptor_ambiguous_emitted :=
  subtitle_descriptor_ambiguous_emitted s; sync_pes_shape_emitted := sync_pes_shape_emitted s; subtitle_seen :=
  subtitle_seen s |}.
Definition set_pts_less_since_pts (s : PidState) (x : bool) : PidState :=
  {| stream_kind := stream_kind s; program := program s; stream_type := stream_type s; teletext_ebu_profile :=
  teletext_ebu_profile s; cc := cc s; dup := dup s; last_pkt_raw := last_pkt_raw s; last_pts := last_pts s;
  pts_baseline_clears_after_pes := pts_baseline_clears_after_pes s; source_reset_after_pes := source_reset_after_pes
  s; source_reset_in_pes := source_reset_in_pes s; pts_less_since_pts := x; pts_less_run_pcr := pts_less_run_pcr s;
  pts_less_run_reported := pts_less_run_reported s; unwrap := unwrap s; latm := latm s; stats := stats s; codec :=
  codec s; subtitle_missing_descriptor_emitted := subtitle_missing_descriptor_emitted s;
  av1_registration_malformed_emitted := av1_registration_malformed_emitted s; subtitle_descriptor_ambiguous_emitted :=
  subtitle_descriptor_ambiguous_emitted s; sync_pes_shape_emitted := sync_pes_shape_emitted s; subtitle_seen :=
  subtitle_seen s |}.
Definition set_pts_less_run_pcr (s : PidState) (x : option Z) : PidState :=
  {| stream_kind := stream_kind s; program := program s; stream_type := stream_type s; teletext_ebu_profile :=
  teletext_ebu_profile s; cc := cc s; dup := dup s; last_pkt_raw := last_pkt_raw s; last_pts := last_pts s;
  pts_baseline_clears_after_pes := pts_baseline_clears_after_pes s; source_reset_after_pes := source_reset_after_pes
  s; source_reset_in_pes := source_reset_in_pes s; pts_less_since_pts := pts_less_since_pts s; pts_less_run_pcr := x;
  pts_less_run_reported := pts_less_run_reported s; unwrap := unwrap s; latm := latm s; stats := stats s; codec :=
  codec s; subtitle_missing_descriptor_emitted := subtitle_missing_descriptor_emitted s;
  av1_registration_malformed_emitted := av1_registration_malformed_emitted s; subtitle_descriptor_ambiguous_emitted :=
  subtitle_descriptor_ambiguous_emitted s; sync_pes_shape_emitted := sync_pes_shape_emitted s; subtitle_seen :=
  subtitle_seen s |}.
Definition set_pts_less_run_reported (s : PidState) (x : bool) : PidState :=
  {| stream_kind := stream_kind s; program := program s; stream_type := stream_type s; teletext_ebu_profile :=
  teletext_ebu_profile s; cc := cc s; dup := dup s; last_pkt_raw := last_pkt_raw s; last_pts := last_pts s;
  pts_baseline_clears_after_pes := pts_baseline_clears_after_pes s; source_reset_after_pes := source_reset_after_pes
  s; source_reset_in_pes := source_reset_in_pes s; pts_less_since_pts := pts_less_since_pts s; pts_less_run_pcr :=
  pts_less_run_pcr s; pts_less_run_reported := x; unwrap := unwrap s; latm := latm s; stats := stats s; codec := codec
  s; subtitle_missing_descriptor_emitted := subtitle_missing_descriptor_emitted s; av1_registration_malformed_emitted
  := av1_registration_malformed_emitted s; subtitle_descriptor_ambiguous_emitted :=
  subtitle_descriptor_ambiguous_emitted s; sync_pes_shape_emitted := sync_pes_shape_emitted s; subtitle_seen :=
  subtitle_seen s |}.
Definition set_unwrap (s : PidState) (x : option UnwrapState) : PidState :=
  {| stream_kind := stream_kind s; program := program s; stream_type := stream_type s; teletext_ebu_profile :=
  teletext_ebu_profile s; cc := cc s; dup := dup s; last_pkt_raw := last_pkt_raw s; last_pts := last_pts s;
  pts_baseline_clears_after_pes := pts_baseline_clears_after_pes s; source_reset_after_pes := source_reset_after_pes
  s; source_reset_in_pes := source_reset_in_pes s; pts_less_since_pts := pts_less_since_pts s; pts_less_run_pcr :=
  pts_less_run_pcr s; pts_less_run_reported := pts_less_run_reported s; unwrap := x; latm := latm s; stats := stats s;
  codec := codec s; subtitle_missing_descriptor_emitted := subtitle_missing_descriptor_emitted s;
  av1_registration_malformed_emitted := av1_registration_malformed_emitted s; subtitle_descriptor_ambiguous_emitted :=
  subtitle_descriptor_ambiguous_emitted s; sync_pes_shape_emitted := sync_pes_shape_emitted s; subtitle_seen :=
  subtitle_seen s |}.
Definition set_latm (s : PidState) (x : LatmState) : PidState :=
  {| stream_kind := stream_kind s; program := program s; stream_type := stream_type s; teletext_ebu_profile :=
  teletext_ebu_profile s; cc := cc s; dup := dup s; last_pkt_raw := last_pkt_raw s; last_pts := last_pts s;
  pts_baseline_clears_after_pes := pts_baseline_clears_after_pes s; source_reset_after_pes := source_reset_after_pes
  s; source_reset_in_pes := source_reset_in_pes s; pts_less_since_pts := pts_less_since_pts s; pts_less_run_pcr :=
  pts_less_run_pcr s; pts_less_run_reported := pts_less_run_reported s; unwrap := unwrap s; latm := x; stats := stats
  s; codec := codec s; subtitle_missing_descriptor_emitted := subtitle_missing_descriptor_emitted s;
  av1_registration_malformed_emitted := av1_registration_malformed_emitted s; subtitle_descriptor_ambiguous_emitted :=
  subtitle_descriptor_ambiguous_emitted s; sync_pes_shape_emitted := sync_pes_shape_emitted s; subtitle_seen :=
  subtitle_seen s |}.
Definition set_stats (s : PidState) (x : option StreamStats) : PidState :=
  {| stream_kind := stream_kind s; program := program s; stream_type := stream_type s; teletext_ebu_profile :=
  teletext_ebu_profile s; cc := cc s; dup := dup s; last_pkt_raw := last_pkt_raw s; last_pts := last_pts s;
  pts_baseline_clears_after_pes := pts_baseline_clears_after_pes s; source_reset_after_pes := source_reset_after_pes
  s; source_reset_in_pes := source_reset_in_pes s; pts_less_since_pts := pts_less_since_pts s; pts_less_run_pcr :=
  pts_less_run_pcr s; pts_less_run_reported := pts_less_run_reported s; unwrap := unwrap s; latm := latm s; stats :=
  x; codec := codec s; subtitle_missing_descriptor_emitted := subtitle_missing_descriptor_emitted s;
  av1_registration_malformed_emitted := av1_registration_malformed_emitted s; subtitle_descriptor_ambiguous_emitted :=
  subtitle_descriptor_ambiguous_emitted s; sync_pes_shape_emitted := sync_pes_shape_emitted s; subtitle_seen :=
  subtitle_seen s |}.
Definition set_codec (s : PidState) (x : option StreamCodecCounters) : PidState :=
  {| stream_kind := stream_kind s; program := program s; stream_type := stream_type s; teletext_ebu_profile :=
  teletext_ebu_profile s; cc := cc s; dup := dup s; last_pkt_raw := last_pkt_raw s; last_pts := last_pts s;
  pts_baseline_clears_after_pes := pts_baseline_clears_after_pes s; source_reset_after_pes := source_reset_after_pes
  s; source_reset_in_pes := source_reset_in_pes s; pts_less_since_pts := pts_less_since_pts s; pts_less_run_pcr :=
  pts_less_run_pcr s; pts_less_run_reported := pts_less_run_reported s; unwrap := unwrap s; latm := latm s; stats :=
  stats s; codec := x; subtitle_missing_descriptor_emitted := subtitle_missing_descriptor_emitted s;
  av1_registration_malformed_emitted := av1_registration_malformed_emitted s; subtitle_descriptor_ambiguous_emitted :=
  subtitle_descriptor_ambiguous_emitted s; sync_pes_shape_emitted := sync_pes_shape_emitted s; subtitle_seen :=
  subtitle_seen s |}.
Definition set_subtitle_missing_descriptor_emitted (s : PidState) (x : bool) : PidState :=
  {| stream_kind := stream_kind s; program := program s; stream_type := stream_type s; teletext_ebu_profile :=
  teletext_ebu_profile s; cc := cc s; dup := dup s; last_pkt_raw := last_pkt_raw s; last_pts := last_pts s;
  pts_baseline_clears_after_pes := pts_baseline_clears_after_pes s; source_reset_after_pes := source_reset_after_pes
  s; source_reset_in_pes := source_reset_in_pes s; pts_less_since_pts := pts_less_since_pts s; pts_less_run_pcr :=
  pts_less_run_pcr s; pts_less_run_reported := pts_less_run_reported s; unwrap := unwrap s; latm := latm s; stats :=
  stats s; codec := codec s; subtitle_missing_descriptor_emitted := x; av1_registration_malformed_emitted :=
  av1_registration_malformed_emitted s; subtitle_descriptor_ambiguous_emitted := subtitle_descriptor_ambiguous_emitted
  s; sync_pes_shape_emitted := sync_pes_shape_emitted s; subtitle_seen := subtitle_seen s |}.
Definition set_av1_registration_malformed_emitted (s : PidState) (x : bool) : PidState :=
  {| stream_kind := stream_kind s; program := program s; stream_type := stream_type s; teletext_ebu_profile :=
  teletext_ebu_profile s; cc := cc s; dup := dup s; last_pkt_raw := last_pkt_raw s; last_pts := last_pts s;
  pts_baseline_clears_after_pes := pts_baseline_clears_after_pes s; source_reset_after_pes := source_reset_after_pes
  s; source_reset_in_pes := source_reset_in_pes s; pts_less_since_pts := pts_less_since_pts s; pts_less_run_pcr :=
  pts_less_run_pcr s; pts_less_run_reported := pts_less_run_reported s; unwrap := unwrap s; latm := latm s; stats :=
  stats s; codec := codec s; subtitle_missing_descriptor_emitted := subtitle_missing_descriptor_emitted s;
  av1_registration_malformed_emitted := x; subtitle_descriptor_ambiguous_emitted :=
  subtitle_descriptor_ambiguous_emitted s; sync_pes_shape_emitted := sync_pes_shape_emitted s; subtitle_seen :=
  subtitle_seen s |}.
Definition set_subtitle_descriptor_ambiguous_emitted (s : PidState) (x : bool) : PidState :=
  {| stream_kind := stream_kind s; program := program s; stream_type := stream_type s; teletext_ebu_profile :=
  teletext_ebu_profile s; cc := cc s; dup := dup s; last_pkt_raw := last_pkt_raw s; last_pts := last_pts s;
  pts_baseline_clears_after_pes := pts_baseline_clears_after_pes s; source_reset_after_pes := source_reset_after_pes
  s; source_reset_in_pes := source_reset_in_pes s; pts_less_since_pts := pts_less_since_pts s; pts_less_run_pcr :=
  pts_less_run_pcr s; pts_less_run_reported := pts_less_run_reported s; unwrap := unwrap s; latm := latm s; stats :=
  stats s; codec := codec s; subtitle_missing_descriptor_emitted := subtitle_missing_descriptor_emitted s;
  av1_registration_malformed_emitted := av1_registration_malformed_emitted s; subtitle_descriptor_ambiguous_emitted :=
  x; sync_pes_shape_emitted := sync_pes_shape_emitted s; subtitle_seen := subtitle_seen s |}.
Definition set_sync_pes_shape_emitted (s : PidState) (x : bool) : PidState :=
  {| stream_kind := stream_kind s; program := program s; stream_type := stream_type s; teletext_ebu_profile :=
  teletext_ebu_profile s; cc := cc s; dup := dup s; last_pkt_raw := last_pkt_raw s; last_pts := last_pts s;
  pts_baseline_clears_after_pes := pts_baseline_clears_after_pes s; source_reset_after_pes := source_reset_after_pes
  s; source_reset_in_pes := source_reset_in_pes s; pts_less_since_pts := pts_less_since_pts s; pts_less_run_pcr :=
  pts_less_run_pcr s; pts_less_run_reported := pts_less_run_reported s; unwrap := unwrap s; latm := latm s; stats :=
  stats s; codec := codec s; subtitle_missing_descriptor_emitted := subtitle_missing_descriptor_emitted s;
  av1_registration_malformed_emitted := av1_registration_malformed_emitted s; subtitle_descriptor_ambiguous_emitted :=
  subtitle_descriptor_ambiguous_emitted s; sync_pes_shape_emitted := x; subtitle_seen := subtitle_seen s |}.
Definition set_subtitle_seen (s : PidState) (x : bool) : PidState :=
  {| stream_kind := stream_kind s; program := program s; stream_type := stream_type s; teletext_ebu_profile :=
  teletext_ebu_profile s; cc := cc s; dup := dup s; last_pkt_raw := last_pkt_raw s; last_pts := last_pts s;
  pts_baseline_clears_after_pes := pts_baseline_clears_after_pes s; source_reset_after_pes := source_reset_after_pes
  s; source_reset_in_pes := source_reset_in_pes s; pts_less_since_pts := pts_less_since_pts s; pts_less_run_pcr :=
  pts_less_run_pcr s; pts_less_run_reported := pts_less_run_reported s; unwrap := unwrap s; latm := latm s; stats :=
  stats s; codec := codec s; subtitle_missing_descriptor_emitted := subtitle_missing_descriptor_emitted s;
  av1_registration_malformed_emitted := av1_registration_malformed_emitted s; subtitle_descriptor_ambiguous_emitted :=
  subtitle_descriptor_ambiguous_emitted s; sync_pes_shape_emitted := sync_pes_shape_emitted s; subtitle_seen := x |}.
Definition pid_new : PidState :=
  {| stream_kind := None; program := None; stream_type := None; teletext_ebu_profile := false; cc := None; dup :=
  false; last_pkt_raw := None; last_pts := None; pts_baseline_clears_after_pes := false; source_reset_after_pes :=
  false; source_reset_in_pes := false; pts_less_since_pts := false; pts_less_run_pcr := None; pts_less_run_reported :=
  false; unwrap := None; latm := latm_new; stats := None; codec := None; subtitle_missing_descriptor_emitted := false;
  av1_registration_malformed_emitted := false; subtitle_descriptor_ambiguous_emitted := false; sync_pes_shape_emitted
  := false; subtitle_seen := false |}.

Definition clear_continuity (s : PidState) : PidState := set_last_pkt_raw (set_dup (set_cc s None) false) None.

Definition clear_pts_baseline (s : PidState) : PidState :=
  set_pts_less_run_reported (set_pts_less_run_pcr (set_pts_less_since_pts (set_last_pts s None) false) None) false.

Definition forget_latm_position (s : PidState) : PidState :=
  set_latm s {| latm_carry := None; latm_carry_tentative := false; latm_unsynced_bytes := latm_unsynced_bytes (latm s) |}.

Definition clear_timing (s : PidState) : PidState :=
  let s := clear_pts_baseline (clear_continuity s) in
  let s := set_pts_baseline_clears_after_pes s false in
  let s := set_source_reset_in_pes (set_source_reset_after_pes s false) false in
  set_latm (set_unwrap s None) latm_new.

Definition reset_sync (s : PidState) : PidState :=
  let s := clear_timing s in
  let s := set_teletext_ebu_profile (set_stream_type (set_program (set_stream_kind s None) None) None) false in
  let s := set_av1_registration_malformed_emitted (set_subtitle_missing_descriptor_emitted s false) false in
  set_sync_pes_shape_emitted (set_subtitle_descriptor_ambiguous_emitted s false) false.

Definition retire (s : PidState) : PidState :=
  set_subtitle_seen (set_codec (set_stats pid_new (stats s)) (codec s)) (subtitle_seen s).

Definition reset_stats (s : PidState) : PidState := set_subtitle_seen (set_codec (set_stats s None) None) false.

(** [codec_mut(kind)] followed by an update of the counters. *)
Definition codec_mut (s : PidState) (k : CodecKind) (f : StreamCodecCounters -> StreamCodecCounters) : PidState :=
  set_codec s (Some (f (default (new_counters k) (codec s)))).

Definition is_none {A} (o : option A) : bool := match o with None => true | _ => false end.

Definition is_vacant (s : PidState) : bool :=
  is_none (stream_kind s) && is_none (program s) && is_none (stream_type s) && negb (teletext_ebu_profile s)
  && is_none (cc s) && negb (dup s) && is_none (last_pkt_raw s) && is_none (last_pts s)
  && negb (pts_baseline_clears_after_pes s) && negb (source_reset_after_pes s) && negb (source_reset_in_pes s)
  && negb (pts_less_since_pts s) && is_none (pts_less_run_pcr s) && negb (pts_less_run_reported s)
  && is_none (unwrap s)
  && is_none (latm_carry (latm s)) && negb (latm_carry_tentative (latm s)) && (latm_unsynced_bytes (latm s) =? 0)
  && is_none (stats s) && is_none (codec s) && negb (subtitle_missing_descriptor_emitted s)
  && negb (av1_registration_malformed_emitted s) && negb (subtitle_descriptor_ambiguous_emitted s)
  && negb (sync_pes_shape_emitted s) && negb (subtitle_seen s).

Lemma is_vacant_new s : is_vacant s = true <-> s = pid_new.
Proof.
  split; [|intros ->; reflexivity].
  destruct s as [? ? ? ? ? ? ? ? ? ? ? ? ? ? ? l]. destruct l as [lc lt lu]. unfold is_vacant. cbn. intros H.
  repeat match goal with
  | H : _ && _ = true |- _ => apply andb_prop in H as [H ?]
  | H : negb ?b = true |- _ => destruct b; [discriminate H|clear H]
  | H : is_none ?o = true |- _ => destruct o; [discriminate H|clear H]
  | H : (_ =? 0) = true |- _ => apply Z.eqb_eq in H; subst
  end. reflexivity.
Qed.

(** What one PAT or PMT change does to per-PID state. *)
Record TopologyDiff : Type := {
  added : list (Z * StreamKind * Z * Z * bool);
  retired : list Z;
  retired_pmt_pids : list Z;
  kind_changed : list Z;
  pcr_pid_changes : list (option Z * option Z);
}.

End PidState.
