(* ===== verification/DemuxState.v ===== *)
(** The demuxer's state behind the sync buffer ([mpegts/demux/demuxer.rs]), the
    monad its methods run in, the per-PID lookups and the statistics recorder
    ([stats_recorder.rs]). *)
From Stdlib Require Import ZArith Lia Bool String.
From stdpp Require Import base list list_numbers gmap.
From S2P Require Import Prelude.
From S2P Require Import Common.
From S2P Require Import PesDemux.
From S2P Require Import PsiParse.
From S2P Require Import PsiAssembly.
From S2P Require Import PsiWriter.
From S2P Require Import Descriptors.
From S2P Require Import Muxer.
From S2P Require Import DemuxTime.
From S2P Require Import AuReassemble.
From S2P Require Import Latm.
From S2P Require Import DemuxTypes.

(** The order in which a hash map is walked is not specified: every definition
    that walks one takes the order as this parameter, and the theorems hold for
    all of them. *)
Class HashOrder := {
  hash_iter : forall {A : Type}, gmap Z A -> list (Z * A);
  hash_iter_perm : forall (A : Type) (m : gmap Z A), hash_iter m ≡ₚ map_to_list m;
}.

Definition key_order : HashOrder := {|
  hash_iter := fun A m => map_to_list m;
  hash_iter_perm := fun A m => Permutation_refl (map_to_list m)
|}.

(** * The state and its monad *)
Module Core.
Import PmtClassify DemuxEvent Strict DemuxConfig Timestamp.

(** [Demuxer] without the five fields of the sync buffer, which are
    [Ingress.Ingress]. *)
Record Core : Type := {
  options : DemuxerConfig;
  psi_assemblers : gmap Z PsiAssembler.PsiSectionAssembler;
  programs : gmap Z ProgramTracker;
  pid_owner : gmap Z Z;
  pmt_pids : gset Z;
  pat_identity : option (Z * Z * list PsiParse.PatEntry);
  pid_state : gmap Z PidState.PidState;
  last_psi_cc_jump : option (Z * Z);
  pcr : PcrHistory;
  timestamps : TimestampUnwrapper;
  pes : Reassembler.Reassembler;
  queue : list DemuxEvent;
  fatal : option NonConformantIssue;
  program_maps_seen : Z;
  pmt_versions_seen : Z;
  discontinuities_count : Z;
  nonconformant_count : Z;
  subtitle_streams_seen_count : Z;
  au_reassembler : AuReassembler.AuCellReassembler;
  pat_reassembler : PatReassembler.PatReassembler;
}.

Definition set_psi_assemblers (c : Core) (x : gmap Z PsiAssembler.PsiSectionAssembler) : Core :=
  {| options := options c; psi_assemblers := x; programs := programs c; pid_owner := pid_owner c; pmt_pids := pmt_pids
  c; pat_identity := pat_identity c; pid_state := pid_state c; last_psi_cc_jump := last_psi_cc_jump c; pcr := pcr c;
  timestamps := timestamps c; pes := pes c; queue := queue c; fatal := fatal c; program_maps_seen := program_maps_seen
  c; pmt_versions_seen := pmt_versions_seen c; discontinuities_count := discontinuities_count c; nonconformant_count
  := nonconformant_count c; subtitle_streams_seen_count := subtitle_streams_seen_count c; au_reassembler :=
  au_reassembler c; pat_reassembler := pat_reassembler c |}.
Definition set_programs (c : Core) (x : gmap Z ProgramTracker) : Core :=
  {| options := options c; psi_assemblers := psi_assemblers c; programs := x; pid_owner := pid_owner c; pmt_pids :=
  pmt_pids c; pat_identity := pat_identity c; pid_state := pid_state c; last_psi_cc_jump := last_psi_cc_jump c; pcr :=
  pcr c; timestamps := timestamps c; pes := pes c; queue := queue c; fatal := fatal c; program_maps_seen :=
  program_maps_seen c; pmt_versions_seen := pmt_versions_seen c; discontinuities_count := discontinuities_count c;
  nonconformant_count := nonconformant_count c; subtitle_streams_seen_count := subtitle_streams_seen_count c;
  au_reassembler := au_reassembler c; pat_reassembler := pat_reassembler c |}.
Definition set_pid_owner (c : Core) (x : gmap Z Z) : Core :=
  {| options := options c; psi_assemblers := psi_assemblers c; programs := programs c; pid_owner := x; pmt_pids :=
  pmt_pids c; pat_identity := pat_identity c; pid_state := pid_state c; last_psi_cc_jump := last_psi_cc_jump c; pcr :=
  pcr c; timestamps := timestamps c; pes := pes c; queue := queue c; fatal := fatal c; program_maps_seen :=
  program_maps_seen c; pmt_versions_seen := pmt_versions_seen c; discontinuities_count := discontinuities_count c;
  nonconformant_count := nonconformant_count c; subtitle_streams_seen_count := subtitle_streams_seen_count c;
  au_reassembler := au_reassembler c; pat_reassembler := pat_reassembler c |}.
Definition set_pmt_pids (c : Core) (x : gset Z) : Core :=
  {| options := options c; psi_assemblers := psi_assemblers c; programs := programs c; pid_owner := pid_owner c;
  pmt_pids := x; pat_identity := pat_identity c; pid_state := pid_state c; last_psi_cc_jump := last_psi_cc_jump c; pcr
  := pcr c; timestamps := timestamps c; pes := pes c; queue := queue c; fatal := fatal c; program_maps_seen :=
  program_maps_seen c; pmt_versions_seen := pmt_versions_seen c; discontinuities_count := discontinuities_count c;
  nonconformant_count := nonconformant_count c; subtitle_streams_seen_count := subtitle_streams_seen_count c;
  au_reassembler := au_reassembler c; pat_reassembler := pat_reassembler c |}.
Definition set_pat_identity (c : Core) (x : option (Z * Z * list PsiParse.PatEntry)) : Core :=
  {| options := options c; psi_assemblers := psi_assemblers c; programs := programs c; pid_owner := pid_owner c;
  pmt_pids := pmt_pids c; pat_identity := x; pid_state := pid_state c; last_psi_cc_jump := last_psi_cc_jump c; pcr :=
  pcr c; timestamps := timestamps c; pes := pes c; queue := queue c; fatal := fatal c; program_maps_seen :=
  program_maps_seen c; pmt_versions_seen := pmt_versions_seen c; discontinuities_count := discontinuities_count c;
  nonconformant_count := nonconformant_count c; subtitle_streams_seen_count := subtitle_streams_seen_count c;
  au_reassembler := au_reassembler c; pat_reassembler := pat_reassembler c |}.
Definition set_pid_state (c : Core) (x : gmap Z PidState.PidState) : Core :=
  {| options := options c; psi_assemblers := psi_assemblers c; programs := programs c; pid_owner := pid_owner c;
  pmt_pids := pmt_pids c; pat_identity := pat_identity c; pid_state := x; last_psi_cc_jump := last_psi_cc_jump c; pcr
  := pcr c; timestamps := timestamps c; pes := pes c; queue := queue c; fatal := fatal c; program_maps_seen :=
  program_maps_seen c; pmt_versions_seen := pmt_versions_seen c; discontinuities_count := discontinuities_count c;
  nonconformant_count := nonconformant_count c; subtitle_streams_seen_count := subtitle_streams_seen_count c;
  au_reassembler := au_reassembler c; pat_reassembler := pat_reassembler c |}.
Definition set_last_psi_cc_jump (c : Core) (x : option (Z * Z)) : Core :=
  {| options := options c; psi_assemblers := psi_assemblers c; programs := programs c; pid_owner := pid_owner c;
  pmt_pids := pmt_pids c; pat_identity := pat_identity c; pid_state := pid_state c; last_psi_cc_jump := x; pcr := pcr
  c; timestamps := timestamps c; pes := pes c; queue := queue c; fatal := fatal c; program_maps_seen :=
  program_maps_seen c; pmt_versions_seen := pmt_versions_seen c; discontinuities_count := discontinuities_count c;
  nonconformant_count := nonconformant_count c; subtitle_streams_seen_count := subtitle_streams_seen_count c;
  au_reassembler := au_reassembler c; pat_reassembler := pat_reassembler c |}.
Definition set_pcr (c : Core) (x : PcrHistory) : Core :=
  {| options := options c; psi_assemblers := psi_assemblers c; programs := programs c; pid_owner := pid_owner c;
  pmt_pids := pmt_pids c; pat_identity := pat_identity c; pid_state := pid_state c; last_psi_cc_jump :=
  last_psi_cc_jump c; pcr := x; timestamps := timestamps c; pes := pes c; queue := queue c; fatal := fatal c;
  program_maps_seen := program_maps_seen c; pmt_versions_seen := pmt_versions_seen c; discontinuities_count :=
  discontinuities_count c; nonconformant_count := nonconformant_count c; subtitle_streams_seen_count :=
  subtitle_streams_seen_count c; au_reassembler := au_reassembler c; pat_reassembler := pat_reassembler c |}.
Definition set_timestamps (c : Core) (x : TimestampUnwrapper) : Core :=
  {| options := options c; psi_assemblers := psi_assemblers c; programs := programs c; pid_owner := pid_owner c;
  pmt_pids := pmt_pids c; pat_identity := pat_identity c; pid_state := pid_state c; last_psi_cc_jump :=
  last_psi_cc_jump c; pcr := pcr c; timestamps := x; pes := pes c; queue := queue c; fatal := fatal c;
  program_maps_seen := program_maps_seen c; pmt_versions_seen := pmt_versions_seen c; discontinuities_count :=
  discontinuities_count c; nonconformant_count := nonconformant_count c; subtitle_streams_seen_count :=
  subtitle_streams_seen_count c; au_reassembler := au_reassembler c; pat_reassembler := pat_reassembler c |}.
Definition set_pes (c : Core) (x : Reassembler.Reassembler) : Core :=
  {| options := options c; psi_assemblers := psi_assemblers c; programs := programs c; pid_owner := pid_owner c;
  pmt_pids := pmt_pids c; pat_identity := pat_identity c; pid_state := pid_state c; last_psi_cc_jump :=
  last_psi_cc_jump c; pcr := pcr c; timestamps := timestamps c; pes := x; queue := queue c; fatal := fatal c;
  program_maps_seen := program_maps_seen c; pmt_versions_seen := pmt_versions_seen c; discontinuities_count :=
  discontinuities_count c; nonconformant_count := nonconformant_count c; subtitle_streams_seen_count :=
  subtitle_streams_seen_count c; au_reassembler := au_reassembler c; pat_reassembler := pat_reassembler c |}.
Definition set_queue (c : Core) (x : list DemuxEvent) : Core :=
  {| options := options c; psi_assemblers := psi_assemblers c; programs := programs c; pid_owner := pid_owner c;
  pmt_pids := pmt_pids c; pat_identity := pat_identity c; pid_state := pid_state c; last_psi_cc_jump :=
  last_psi_cc_jump c; pcr := pcr c; timestamps := timestamps c; pes := pes c; queue := x; fatal := fatal c;
  program_maps_seen := program_maps_seen c; pmt_versions_seen := pmt_versions_seen c; discontinuities_count :=
  discontinuities_count c; nonconformant_count := nonconformant_count c; subtitle_streams_seen_count :=
  subtitle_streams_seen_count c; au_reassembler := au_reassembler c; pat_reassembler := pat_reassembler c |}.
Definition set_fatal (c : Core) (x : option NonConformantIssue) : Core :=
  {| options := options c; psi_assemblers := psi_assemblers c; programs := programs c; pid_owner := pid_owner c;
  pmt_pids := pmt_pids c; pat_identity := pat_identity c; pid_state := pid_state c; last_psi_cc_jump :=
  last_psi_cc_jump c; pcr := pcr c; timestamps := timestamps c; pes := pes c; queue := queue c; fatal := x;
  program_maps_seen := program_maps_seen c; pmt_versions_seen := pmt_versions_seen c; discontinuities_count :=
  discontinuities_count c; nonconformant_count := nonconformant_count c; subtitle_streams_seen_count :=
  subtitle_streams_seen_count c; au_reassembler := au_reassembler c; pat_reassembler := pat_reassembler c |}.
Definition set_program_maps_seen (c : Core) (x : Z) : Core :=
  {| options := options c; psi_assemblers := psi_assemblers c; programs := programs c; pid_owner := pid_owner c;
  pmt_pids := pmt_pids c; pat_identity := pat_identity c; pid_state := pid_state c; last_psi_cc_jump :=
  last_psi_cc_jump c; pcr := pcr c; timestamps := timestamps c; pes := pes c; queue := queue c; fatal := fatal c;
  program_maps_seen := x; pmt_versions_seen := pmt_versions_seen c; discontinuities_count := discontinuities_count c;
  nonconformant_count := nonconformant_count c; subtitle_streams_seen_count := subtitle_streams_seen_count c;
  au_reassembler := au_reassembler c; pat_reassembler := pat_reassembler c |}.
Definition set_pmt_versions_seen (c : Core) (x : Z) : Core :=
  {| options := options c; psi_assemblers := psi_assemblers c; programs := programs c; pid_owner := pid_owner c;
  pmt_pids := pmt_pids c; pat_identity := pat_identity c; pid_state := pid_state c; last_psi_cc_jump :=
  last_psi_cc_jump c; pcr := pcr c; timestamps := timestamps c; pes := pes c; queue := queue c; fatal := fatal c;
  program_maps_seen := program_maps_seen c; pmt_versions_seen := x; discontinuities_count := discontinuities_count c;
  nonconformant_count := nonconformant_count c; subtitle_streams_seen_count := subtitle_streams_seen_count c;
  au_reassembler := au_reassembler c; pat_reassembler := pat_reassembler c |}.
Definition set_discontinuities_count (c : Core) (x : Z) : Core :=
  {| options := options c; psi_assemblers := psi_assemblers c; programs := programs c; pid_owner := pid_owner c;
  pmt_pids := pmt_pids c; pat_identity := pat_identity c; pid_state := pid_state c; last_psi_cc_jump :=
  last_psi_cc_jump c; pcr := pcr c; timestamps := timestamps c; pes := pes c; queue := queue c; fatal := fatal c;
  program_maps_seen := program_maps_seen c; pmt_versions_seen := pmt_versions_seen c; discontinuities_count := x;
  nonconformant_count := nonconformant_count c; subtitle_streams_seen_count := subtitle_streams_seen_count c;
  au_reassembler := au_reassembler c; pat_reassembler := pat_reassembler c |}.
Definition set_nonconformant_count (c : Core) (x : Z) : Core :=
  {| options := options c; psi_assemblers := psi_assemblers c; programs := programs c; pid_owner := pid_owner c;
  pmt_pids := pmt_pids c; pat_identity := pat_identity c; pid_state := pid_state c; last_psi_cc_jump :=
  last_psi_cc_jump c; pcr := pcr c; timestamps := timestamps c; pes := pes c; queue := queue c; fatal := fatal c;
  program_maps_seen := program_maps_seen c; pmt_versions_seen := pmt_versions_seen c; discontinuities_count :=
  discontinuities_count c; nonconformant_count := x; subtitle_streams_seen_count := subtitle_streams_seen_count c;
  au_reassembler := au_reassembler c; pat_reassembler := pat_reassembler c |}.
Definition set_subtitle_streams_seen_count (c : Core) (x : Z) : Core :=
  {| options := options c; psi_assemblers := psi_assemblers c; programs := programs c; pid_owner := pid_owner c;
  pmt_pids := pmt_pids c; pat_identity := pat_identity c; pid_state := pid_state c; last_psi_cc_jump :=
  last_psi_cc_jump c; pcr := pcr c; timestamps := timestamps c; pes := pes c; queue := queue c; fatal := fatal c;
  program_maps_seen := program_maps_seen c; pmt_versions_seen := pmt_versions_seen c; discontinuities_count :=
  discontinuities_count c; nonconformant_count := nonconformant_count c; subtitle_streams_seen_count := x;
  au_reassembler := au_reassembler c; pat_reassembler := pat_reassembler c |}.
Definition set_au_reassembler (c : Core) (x : AuReassembler.AuCellReassembler) : Core :=
  {| options := options c; psi_assemblers := psi_assemblers c; programs := programs c; pid_owner := pid_owner c;
  pmt_pids := pmt_pids c; pat_identity := pat_identity c; pid_state := pid_state c; last_psi_cc_jump :=
  last_psi_cc_jump c; pcr := pcr c; timestamps := timestamps c; pes := pes c; queue := queue c; fatal := fatal c;
  program_maps_seen := program_maps_seen c; pmt_versions_seen := pmt_versions_seen c; discontinuities_count :=
  discontinuities_count c; nonconformant_count := nonconformant_count c; subtitle_streams_seen_count :=
  subtitle_streams_seen_count c; au_reassembler := x; pat_reassembler := pat_reassembler c |}.
Definition set_pat_reassembler (c : Core) (x : PatReassembler.PatReassembler) : Core :=
  {| options := options c; psi_assemblers := psi_assemblers c; programs := programs c; pid_owner := pid_owner c;
  pmt_pids := pmt_pids c; pat_identity := pat_identity c; pid_state := pid_state c; last_psi_cc_jump :=
  last_psi_cc_jump c; pcr := pcr c; timestamps := timestamps c; pes := pes c; queue := queue c; fatal := fatal c;
  program_maps_seen := program_maps_seen c; pmt_versions_seen := pmt_versions_seen c; discontinuities_count :=
  discontinuities_count c; nonconformant_count := nonconformant_count c; subtitle_streams_seen_count :=
  subtitle_streams_seen_count c; au_reassembler := au_reassembler c; pat_reassembler := x |}.

(** A method of the demuxer: it returns a value, an error or panics, and the
    state it leaves is kept also beside an error. *)
Definition M (A : Type) : Type := Core -> Core * res PesParse.DemuxError A.

#[global] Instance M_ret : MRet M := fun A a c => (c, Ok a).
#[global] Instance M_bind : MBind M := fun A B k m c =>
  match m c with
  | (c, Ok a) => k a c
  | (c, Err e) => (c, Err e)
  | (c, Panic) => (c, Panic)
  end.

Definition gets {A} (f : Core -> A) : M A := fun c => (c, Ok (f c)).
Definition modify (f : Core -> Core) : M unit := fun c => (f c, Ok tt).
Definition result {A} (r : res PesParse.DemuxError A) : M A := fun c => (c, r).
Definition fail {A} (e : PesParse.DemuxError) : M A := result (Err e).
Definition panic {A} : M A := result Panic.

(** A computation that has no error to return. *)
Definition lift {A} (r : res Empty_set A) : M A :=
  result (match r with Ok a => Ok a | Err e => match e with end | Panic => Panic end).
Definition when (b : bool) (m : M unit) : M unit := if b then m else mret tt.

(** Run [m] and look at its outcome. *)
Definition attempt {A B} (m : M A) (k : res PesParse.DemuxError A -> M B) : M B := fun c => let (c, r) := m c in k r c.

Fixpoint for_each {A} (l : list A) (f : A -> M unit) : M unit :=
  match l with
  | [] => mret tt
  | a :: l => f a ;; for_each l f
  end.

End Core.

(** * Lookups and per-PID updates *)
Module Lookup.
Import Common PmtClassify MuxState DemuxEvent DemuxConfig Strict Timestamp Core.

Definition stream_kind (c : Core) (pid : Z) : option StreamKind := pid_state c !! pid ≫= PidState.stream_kind.

Definition program_of (c : Core) (pid : Z) : option Z := pid_state c !! pid ≫= PidState.program.

Definition program_number_for_pid (c : Core) (pid : Z) : Z := default 0 (program_of c pid).

Definition lookup_stream (c : Core) (pid : Z) : option StreamId :=
  (fun k => {| sid_pid := pid; sid_kind := k; sid_program_number := program_number_for_pid c pid |}) <$> stream_kind c pid.

(** [lookup_stream(pid).unwrap_or_else(|| StreamId::anonymous(pid, program))] *)
Definition stream_or (program : Z) (pid : Z) (c : Core) : StreamId := default (anonymous pid program) (lookup_stream c pid).

(** An update through [pid_state_mut(pid)], which creates the entry. *)
Definition pid_state_mut (pid : Z) (f : PidState.PidState -> PidState.PidState) : M unit :=
  modify (fun c => set_pid_state c (<[pid := f (default PidState.pid_new (pid_state c !! pid))]> (pid_state c))).

(** An update through [pid_state.get_mut(&pid)], which does not. *)
Definition pid_state_alter (pid : Z) (f : PidState.PidState -> PidState.PidState) : M unit :=
  modify (fun c => set_pid_state c (alter f pid (pid_state c))).

(** [set_once(&mut self.pid_state_mut(pid).flag)] *)
Definition set_once (pid : Z) (flag : PidState.PidState -> bool) (set : PidState.PidState -> bool -> PidState.PidState) : M bool :=
  old ← gets (fun c => flag (default PidState.pid_new (pid_state c !! pid)));
  pid_state_mut pid (fun s => set s true) ;; mret (negb old).

Definition push_event (e : DemuxEvent) : M unit := modify (fun c => set_queue c (queue c ++ [e])).

(** ** Statistics. Counters of events wrap at their width. *)

(** [stream_stats_entry] followed by an update of the entry. *)
Definition stream_stats_entry (pid stream_type program_number : Z) (f : StreamStats -> StreamStats) : M unit :=
  pid_state_mut pid (fun s =>
    let stream_type := default stream_type (PidState.stream_type s) in
    PidState.set_stats s (Some (f (default
      {| stat_pid := pid; stat_stream_type := from_byte stream_type; stat_program_number := program_number;
         label := None; items := 0; byte_count := 0; discontinuities := 0 |} (PidState.stats s))))).

Definition add_discontinuity (s : StreamStats) : StreamStats :=
  {| stat_pid := stat_pid s; stat_stream_type := stat_stream_type s; stat_program_number := stat_program_number s;
     label := label s; items := items s; byte_count := byte_count s; discontinuities := as_u64 (discontinuities s + 1) |}.

Definition add_item (n : Z) (s : StreamStats) : StreamStats :=
  {| stat_pid := stat_pid s; stat_stream_type := stat_stream_type s; stat_program_number := stat_program_number s;
     label := label s; items := as_u64 (items s + 1); byte_count := as_u64 (byte_count s + as_u64 n);
     discontinuities := discontinuities s |}.

Definition record_discontinuity (stream : StreamId) (kind : DiscontinuityKind) : M unit :=
  modify (fun c => set_discontinuities_count c (as_u64 (discontinuities_count c + 1))) ;;
  stream_stats_entry (sid_pid stream) (stream_type_from_kind (sid_kind stream)) (sid_program_number stream) add_discontinuity ;;
  push_event (EvDiscontinuity stream kind).

Definition queue_nonconformant (stream : StreamId) (issue : NonConformantIssue) : M unit :=
  modify (fun c =>
    let c := if rejects (strict (options c)) issue && PidState.is_none (fatal c) then set_fatal c (Some issue) else c in
    let c := set_nonconformant_count c (as_u64 (nonconformant_count c + 1)) in
    set_queue c (queue c ++ [EvNonConformant stream issue])).

(** [record_item] followed by an update of the entry. *)
Definition record_item (stream : StreamId) (program_number n : Z) (f : StreamStats -> StreamStats) : M unit :=
  stream_stats_entry (sid_pid stream) (stream_type_from_kind (sid_kind stream)) program_number (fun s => f (add_item n s)).

Definition surface_malformed_pes (pid : Z) (reason : string) : M unit :=
  let issue := MalformedPes pid reason in
  opts ← gets options;
  if rejects (strict opts) issue then fail (PesParse.MalformedPes pid reason)
  else
    stream ← gets (fun c => stream_or (program_number_for_pid c pid) pid c);
    queue_nonconformant stream issue.

Definition unwrap_pts (pid raw : Z) : M Z :=
  program ← gets (fun c => program_of c pid);
  own ← gets (fun c => pid_state c !! pid ≫= PidState.unwrap);
  u ← gets timestamps;
  r ← lift (Timestamp.unwrap u own program raw);
  match r with
  | (u, own, out) =>
      modify (fun c => set_timestamps c u) ;;
      pid_state_mut pid (fun s => PidState.set_unwrap s own) ;;
      mret out
  end.

(** ** Topology *)

Definition declares_pcr (pid : Z) (t : ProgramTracker) : bool := bool_decide (pt_pcr_pid t = Some pid).

(** [programs.values().any(|t| t.pcr_pid == Some(pid))] *)
Definition pcr_declared (c : Core) (pid : Z) : bool := existsb (fun e => declares_pcr pid e.2) (map_to_list (programs c)).

Definition retire_undeclared_pcr_history : M unit :=
  modify (fun c => set_pcr c (retain_declared (pcr c) (pcr_declared c))).

(** An entry whose update leaves nothing is dropped. *)
Definition alter_vacate (f : PidState.PidState -> PidState.PidState) (pid : Z) (m : gmap Z PidState.PidState)
    : gmap Z PidState.PidState :=
  match m !! pid with
  | Some s => if PidState.is_vacant (f s) then delete pid m else <[pid := f s]> m
  | None => m
  end.

Definition remove_pes (pid : Z) : M unit := modify (fun c => set_pes c (Reassembler.remove_pid (pes c) pid)).

Definition reset_au (pid : Z) : M unit :=
  r ← gets au_reassembler;
  r ← lift (AuReassembler.reset_pid r pid);
  modify (fun c => set_au_reassembler c r).

Definition codec_family (k : StreamKind) : option CodecKind :=
  match k with
  | KVideo _ => Some CodecVideo
  | KAudio _ => Some CodecAudio
  | KlvSync _ | KlvAsync => Some CodecKlv
  | KSubtitle _ | PmtClassify.Unknown _ => None
  end.

Definition retype (stream_type program : Z) (s : StreamStats) : StreamStats :=
  {| stat_pid := stat_pid s; stat_stream_type := from_byte stream_type; stat_program_number := program;
     label := label s; items := items s; byte_count := byte_count s; discontinuities := discontinuities s |}.

Definition declare (kind : StreamKind) (program stream_type : Z) (teletext_ebu_profile : bool) (s : PidState.PidState)
    : PidState.PidState :=
  let s := PidState.set_teletext_ebu_profile (PidState.set_stream_kind s (Some kind)) teletext_ebu_profile in
  let s := PidState.set_stream_type (PidState.set_program s (Some program)) (Some stream_type) in
  let s := PidState.set_stats s (retype stream_type program <$> PidState.stats s) in
  match PidState.codec s with
  | Some k => if bool_decide (Some (MuxState.kind k) <> codec_family kind) then PidState.set_codec s None else s
  | None => s
  end.

Definition apply_topology_diff (diff : PidState.TopologyDiff) : M unit :=
  for_each (PidState.retired diff) (fun pid =>
    modify (fun c => set_pid_state c (alter_vacate PidState.retire pid (pid_state c))) ;;
    remove_pes pid ;; reset_au pid) ;;
  for_each (PidState.retired_pmt_pids diff) (fun pid =>
    modify (fun c => set_pid_state c (alter_vacate PidState.clear_continuity pid (pid_state c)))) ;;
  for_each (PidState.kind_changed diff) (fun pid =>
    remove_pes pid ;; reset_au pid ;;
    pid_state_alter pid (fun s => PidState.set_codec (PidState.clear_timing s) None)) ;;
  for_each (PidState.added diff) (fun a =>
    match a with
    | (pid, kind, program, stream_type, teletext) => pid_state_mut pid (declare kind program stream_type teletext)
    end) ;;
  match PidState.pcr_pid_changes diff with
  | [] => mret tt
  | _ => retire_undeclared_pcr_history
  end.

End Lookup.
