(* ===== verification/DemuxIngress.v ===== *)
(** The checks every packet passes before it is routed
    ([mpegts/demux/sync_ingress.rs]): program clocks, time-base resets and the
    continuity counter with its duplicate rule. *)
From Stdlib Require Import ZArith Lia Bool String.
From stdpp Require Import base list list_numbers gmap.
From S2P Require Import Prelude.
From S2P Require Import Common.
From S2P Require Import TsPacket.
From S2P Require Import PesDemux.
From S2P Require Import PsiWriter.
From S2P Require Import Descriptors.
From S2P Require Import DemuxTime.
From S2P Require Import AuReassemble.
From S2P Require Import DemuxTypes.
From S2P Require Import DemuxState.

Module PacketChecks.
Import Common TsParser DemuxEvent DemuxConfig Core Lookup.

Definition PCR_ANOMALY_THRESHOLD : Z := 27000000.

(** [discard_au_in_progress] of [pes_emit.rs]. *)
Definition discard_au_in_progress (pid : Z) : M unit :=
  r ← gets au_reassembler;
  d ← lift (AuReassembler.discard_pid r pid);
  modify (fun c => set_au_reassembler c d.1) ;;
  match d.2 with
  | Some dropped_bytes =>
      stream ← gets (fun c => stream_or (program_number_for_pid c pid) pid c);
      queue_nonconformant stream (MultiCellAu pid dropped_bytes AuReassembler.SequenceGap)
  | None => mret tt
  end.

(** [a[..6] == b[..6] && a[12..] == b[12..]] once both carry a PCR. *)
Definition has_pcr {E} (p : list Z) : res E bool :=
  let! b3 := idx p 3 in
  let afc := Z.land (Z.shiftr b3 4) 3 in
  if nz (Z.land afc 2) then
    let! b4 := idx p 4 in
    if 7 <=? b4 then let! b5 := idx p 5 in Ok (nz (Z.land b5 0x10)) else Ok false
  else Ok false.

Definition pcr_masked_identical {E} (a b : list Z) : res E bool :=
  if bool_decide (a = b) then Ok true
  else
    let! pa := has_pcr a in
    let! both := if pa then has_pcr b else Ok false in
    if negb both then Ok false
    else
      let! ha := slice a 0 6 in
      let! hb := slice b 0 6 in
      if negb (bool_decide (ha = hb)) then Ok false
      else
        let! ta := slice a 12 (zlen a) in
        let! tb := slice b 12 (zlen b) in
        Ok (bool_decide (ta = tb)).

Definition is_identical_repeat {E} (c : Core) (pkt : TsPacket) : res E bool :=
  match pid_state c !! pid pkt with
  | None => Ok false
  | Some s =>
      if bool_decide (PidState.cc s = Some (continuity_counter pkt)) then
        match PidState.last_pkt_raw s with
        | Some prev => pcr_masked_identical prev (raw pkt)
        | None => Ok false
        end
      else Ok false
  end.

Definition was_dup (c : Core) (pid : Z) : bool :=
  match pid_state c !! pid with Some s => PidState.dup s | None => false end.

Definition is_spec_duplicate {E} (c : Core) (pkt : TsPacket) : res E bool :=
  if negb (pid pkt =? PID_NULL) && has_payload pkt then
    let! rep := is_identical_repeat c pkt in
    Ok (rep && negb (was_dup c (pid pkt)))
  else Ok false.

Section order.
Context {HO : HashOrder}.

Definition pcr_stream_id (c : Core) (pid : Z) : StreamId :=
  match lookup_stream c pid with
  | Some s => s
  | None =>
      let program_number :=
        match List.find (fun e => declares_pcr pid e.2) (hash_iter (programs c)) with
        | Some (_, t) => pt_program_number t
        | None => 0
        end in
      anonymous pid program_number
  end.

(** What a signalled time-base reset does to one stream of the program. *)
Definition forget_pts (in_flight : bool) (s : PidState.PidState) : PidState.PidState :=
  let s := PidState.set_pts_less_run_reported (PidState.set_pts_less_run_pcr s None) false in
  if in_flight then PidState.set_pts_baseline_clears_after_pes s true else PidState.clear_pts_baseline s.

Definition forget_program_pts (pcr_pid : Z) : M unit :=
  streams ← gets (fun c => flat_map (fun e => if declares_pcr pcr_pid e.2 then pt_streams e.2 else []) (hash_iter (programs c)));
  for_each streams (fun stream =>
    in_flight ← gets (fun c => Reassembler.has_pid (pes c) (si_pid stream));
    pid_state_alter (si_pid stream) (forget_pts in_flight)).

Definition is_some {A} (o : option A) : bool := match o with Some _ => true | None => false end.

Definition check_pcr (pkt : TsPacket) : M unit :=
  let pid := pid pkt in
  match pcr_malformed pkt with
  | Some kind => stream ← gets (fun c => pcr_stream_id c pid); queue_nonconformant stream (PcrMalformed kind)
  | None => mret tt
  end ;;
  declared ← gets (fun c => (is_some (pcr_27mhz pkt) || discontinuity_indicator pkt) && pcr_declared c pid);
  (if declared && discontinuity_indicator pkt then
     c ← gets id;
     dup ← lift (is_spec_duplicate c pkt);
     when (negb dup) (modify (fun c => set_pcr c (Timestamp.expect_new_timebase (pcr c) pid)))
   else mret tt) ;;
  match pcr_27mhz pkt with
  | None => mret tt
  | Some now =>
      if negb declared then mret tt
      else
        taken ← gets (fun c => Timestamp.take_new_timebase (pcr c) pid);
        modify (fun c => set_pcr c taken.2) ;;
        if (taken.1 : bool) then
          modify (fun c => set_pcr c (Timestamp.record (pcr c) pid now)) ;;
          forget_program_pts pid
        else
          lst ← gets (fun c => Timestamp.last (pcr c) pid);
          match lst with
          | Some last =>
              let diff := pcr_diff_27mhz now last in
              when (PCR_ANOMALY_THRESHOLD <? Z.abs diff)
                (stream ← gets (fun c => pcr_stream_id c pid); queue_nonconformant stream (PcrAnomaly diff))
          | None => mret tt
          end ;;
          modify (fun c => set_pcr c (Timestamp.record (pcr c) pid now))
  end.

End order.

Definition settle_after_pes (pid : Z) : M unit :=
  state ← gets (fun c => pid_state c !! pid);
  match state with
  | None => mret tt
  | Some s =>
      pid_state_alter pid (fun s =>
        let s := if PidState.pts_baseline_clears_after_pes s
                 then PidState.clear_pts_baseline (PidState.set_pts_baseline_clears_after_pes s false) else s in
        let s := PidState.set_source_reset_in_pes s false in
        if PidState.source_reset_after_pes s
        then PidState.forget_latm_position (PidState.set_source_reset_after_pes s false) else s) ;;
      when (PidState.source_reset_after_pes s) (discard_au_in_progress pid)
  end.

Definition flag_discontinuity (pid : Z) (kind : DiscontinuityKind) : M unit :=
  stream ← gets (fun c => lookup_stream c pid);
  match stream with
  | Some stream => record_discontinuity stream kind
  | None => mret tt
  end.

(** The two places that report a continuity jump. *)
Definition report_jump (pid expected observed : Z) : M unit :=
  modify (fun c => set_last_psi_cc_jump c (Some (expected, observed))) ;;
  pid_state_mut pid PidState.forget_latm_position ;;
  flag_discontinuity pid (ContinuityJump expected observed).

(** The tail of [check_continuity]: the flag, then the new baseline. *)
Definition seed_continuity (pkt : TsPacket) (real_jump : bool) : M (bool * bool) :=
  let pid := pid pkt in
  when (discontinuity_indicator pkt)
    (pid_state_mut pid (fun s =>
       let s := PidState.set_source_reset_after_pes s true in
       PidState.set_source_reset_in_pes s (PidState.source_reset_in_pes s || negb (payload_unit_start pkt))) ;;
     flag_discontinuity pid AdaptationFieldFlag) ;;
  pid_state_mut pid (fun s => PidState.set_last_pkt_raw (PidState.set_cc s (Some (continuity_counter pkt))) (Some (raw pkt))) ;;
  mret (real_jump, false).

(** [(cc_jumped, is_duplicate)]; [prev_cc + 1] is [u8] arithmetic. *)
Definition check_continuity (pkt : TsPacket) : M (bool * bool) :=
  let pid := pid pkt in
  modify (fun c => set_last_psi_cc_jump c None) ;;
  if pid =? PID_NULL then mret (false, false)
  else if negb (has_payload pkt) then
    when (discontinuity_indicator pkt)
      (pid_state_mut pid (fun s =>
         PidState.set_source_reset_in_pes (PidState.set_source_reset_after_pes (PidState.clear_continuity s) true) true) ;;
       flag_discontinuity pid AdaptationFieldFlag) ;;
    mret (false, false)
  else
    c ← gets id;
    match pid_state c !! pid ≫= PidState.cc with
    | Some prev_cc =>
        next ← lift (chk_u8 (prev_cc + 1));
        let expected := Z.land next 0x0F in
        rep ← lift (is_identical_repeat c pkt);
        if (rep : bool) then
          if was_dup c pid then
            report_jump pid expected (continuity_counter pkt) ;;
            mret (true, false)
          else
            pid_state_mut pid (fun s => PidState.set_dup s true) ;;
            mret (false, true)
        else
          pid_state_mut pid (fun s => PidState.set_dup s false) ;;
          let jump := negb (expected =? continuity_counter pkt) && negb (discontinuity_indicator pkt) in
          when jump (report_jump pid expected (continuity_counter pkt)) ;;
          seed_continuity pkt jump
    | None => seed_continuity pkt false
    end.

End PacketChecks.
