(* ===== verification/DemuxPsi.v ===== *)
(** Program-specific information ([mpegts/demux/psi_topology.rs]): from table
    packets to sections, from sections to the program topology and the
    [ProgramMap] events. *)
From Stdlib Require Import ZArith Lia Bool String.
From stdpp Require Import base list list_numbers gmap.
From S2P Require Import Prelude.
From S2P Require Import Common.
From S2P Require Import TsPacket.
From S2P Require Import PesDemux.
From S2P Require Import PsiParse.
From S2P Require Import PsiAssembly.
From S2P Require Import PsiWriter.
From S2P Require Import Descriptors.
From S2P Require Import DemuxTime.
From S2P Require Import AuReassemble.
From S2P Require Import DemuxTypes.
From S2P Require Import DemuxState.

Module Psi.
Import Common PsiParse MuxTypes PmtClassify DemuxEvent Strict DemuxConfig Core Lookup.

(** ** Diagnostics *)

(** The [debug_assert!] is a panic, as everywhere in the model. *)
Definition queue_psi_cc_discontinuity (pid : Z) : M unit :=
  jump ← gets last_psi_cc_jump;
  modify (fun c => set_last_psi_cc_jump c None) ;;
  match jump with
  | None => panic
  | Some (expected, observed) =>
      stream ← gets (stream_or 0 pid);
      queue_nonconformant stream (PsiCcDiscontinuity pid expected observed)
  end.

Definition check_psi_syntax (pid table_id : Z) (section : list Z) : M unit :=
  check_reserved_bits ← gets (fun c => bool_decide (strict (options c) <> Off));
  for_each (psi_section_syntax_issues section check_reserved_bits) (fun kind =>
    queue_nonconformant (anonymous pid 0) (PsiSyntax pid table_id kind)).

Definition queue_psi_malformed (pid table_id program_number : Z) : M unit :=
  queue_nonconformant (anonymous pid program_number) (PsiSyntax pid table_id PsiParse.Malformed).

(** ** Programs *)

Definition tracker_for (c : Core) (pmt_pid program_number : Z) : option ProgramTracker :=
  t ← programs c !! program_number; if pt_pmt_pid t =? pmt_pid then Some t else None.

Definition min_program (l : list Z) : option Z :=
  match l with [] => None | n :: l => Some (foldr Z.min n l) end.

Definition first_program_on (c : Core) (pmt_pid : Z) : Z :=
  default 0 (min_program (omap (fun e => if pt_pmt_pid e.2 =? pmt_pid then Some (pt_program_number e.2) else None)
                               (map_to_list (programs c)))).

Definition get_stream_kind {E} (c : Core) (pid : Z) (s : PmtStream) : res E StreamKind :=
  match stream_kind_overrides (options c) !! pid with
  | Some kind => Ok kind
  | None => classify_pmt_stream (PsiParse.stream_type s) (descriptors s)
  end.

Definition pmt_topology_diff (c : Core) (new_pcr_pid program_number : Z) (stream_infos : list StreamInfo)
    : PidState.TopologyDiff :=
  let added := map (fun s => (si_pid s, si_kind s, program_number, as_byte (si_stream_type s),
                              DescriptorParse.find_descriptor_tag (si_raw_descriptors s) 0x56)) stream_infos in
  match programs c !! program_number with
  | Some tracker =>
      let fate old := List.find (fun s => si_pid s =? si_pid old) stream_infos in
      {| PidState.added := added;
         PidState.retired := omap (fun old => match fate old with None => Some (si_pid old) | Some _ => None end) (pt_streams tracker);
         PidState.retired_pmt_pids := [];
         PidState.kind_changed :=
           omap (fun old => match fate old with
                            | Some new => if bool_decide (si_kind new <> si_kind old) then Some (si_pid old) else None
                            | None => None
                            end) (pt_streams tracker);
         PidState.pcr_pid_changes :=
           if bool_decide (pt_pcr_pid tracker <> Some new_pcr_pid) then [(pt_pcr_pid tracker, Some new_pcr_pid)] else [] |}
  | None =>
      {| PidState.added := added; PidState.retired := []; PidState.retired_pmt_pids := []; PidState.kind_changed := [];
         PidState.pcr_pid_changes := [] |}
  end.

(** ** The program association table *)

(** The PMT PID of every program of a PAT but the network PID; of two entries
    for one program the later counts. *)
Fixpoint new_pmt_from (programs : list PatEntry) (m : gmap Z Z) : gmap Z Z :=
  match programs with
  | [] => m
  | e :: programs =>
      new_pmt_from programs (if PsiParse.program_number e =? 0 then m else <[PsiParse.program_number e := pat_pid e]> m)
  end.

Definition empty_tracker (program_number pmt_pid : Z) : ProgramTracker :=
  {| pt_program_number := program_number; pt_pmt_pid := pmt_pid; pt_pmt_version := None; pt_pcr_pid := None;
     pt_streams := []; klv_mismatch_coalesce := ∅ |}.

Definition extend_diff (diff : PidState.TopologyDiff) (t : ProgramTracker) : PidState.TopologyDiff :=
  {| PidState.added := PidState.added diff; PidState.retired := PidState.retired diff ++ map si_pid (pt_streams t);
     PidState.retired_pmt_pids := PidState.retired_pmt_pids diff; PidState.kind_changed := PidState.kind_changed diff;
     PidState.pcr_pid_changes := PidState.pcr_pid_changes diff ++ [(pt_pcr_pid t, None)] |}.

Definition with_retired_pmts (diff : PidState.TopologyDiff) (pids : list Z) : PidState.TopologyDiff :=
  {| PidState.added := PidState.added diff; PidState.retired := PidState.retired diff;
     PidState.retired_pmt_pids := pids; PidState.kind_changed := PidState.kind_changed diff;
     PidState.pcr_pid_changes := PidState.pcr_pid_changes diff |}.

(** The loop over the removed programs. *)
Fixpoint remove_programs (removed : list Z) (diff : PidState.TopologyDiff) : M PidState.TopologyDiff :=
  match removed with
  | [] => mret diff
  | program_number :: removed =>
      tracker ← gets (fun c => programs c !! program_number);
      match tracker with
      | None => remove_programs removed diff
      | Some t =>
          modify (fun c => set_programs c (delete program_number (programs c))) ;;
          modify (fun c => set_pid_owner c (foldl (fun m s => delete (si_pid s) m) (pid_owner c) (pt_streams t))) ;;
          modify (fun c => set_timestamps c (Timestamp.retire_program (timestamps c) (pt_program_number t))) ;;
          remove_programs removed (extend_diff diff t)
      end
  end.

Section order.
Context {HO : HashOrder}.

(** The elements of a hash set, in the order of the map underneath. *)
Definition set_iter (s : gset Z) : list Z := (hash_iter (gset_to_gmap tt s)).*1.

Definition apply_pat_programs (entries : list PatEntry) (retire_all : bool) : M unit :=
  let new_pmt := new_pmt_from entries ∅ in
  let new_pmt_pids : gset Z := list_to_set (map_to_list new_pmt).*2 in
  removed ← gets (fun c => omap (fun e =>
    if retire_all || bool_decide (new_pmt !! e.1 <> Some (pt_pmt_pid e.2)) then Some e.1 else None) (hash_iter (programs c)));
  diff ← remove_programs removed {| PidState.added := []; PidState.retired := []; PidState.retired_pmt_pids := [];
                                     PidState.kind_changed := []; PidState.pcr_pid_changes := [] |};
  gone ← gets (fun c => filter (fun p => retire_all || negb (bool_decide (p ∈ new_pmt_pids)) = true) (set_iter (pmt_pids c)));
  modify (fun c => set_psi_assemblers c (foldl (fun m p => delete p m) (psi_assemblers c) gone)) ;;
  modify (fun c => set_pmt_pids c new_pmt_pids) ;;
  apply_topology_diff (with_retired_pmts diff gone) ;;
  for_each (hash_iter new_pmt) (fun e =>
    modify (fun c => set_programs c (match programs c !! e.1 with
                                     | Some _ => programs c
                                     | None => <[e.1 := empty_tracker e.1 e.2]> (programs c)
                                     end)) ;;
    modify (fun c => set_psi_assemblers c (match psi_assemblers c !! e.2 with
                                           | Some _ => psi_assemblers c
                                           | None => <[e.2 := PsiAssembler.new]> (psi_assemblers c)
                                           end))).

(** The end of [handle_pat_section]: a repeat changes nothing. *)
Definition adopt_pat (tsid version : Z) (entries : list PatEntry) : M unit :=
  identity ← gets pat_identity;
  let tsid_changed := match identity with Some (t, _, _) => negb (t =? tsid) | None => false end in
  let repeat_ := match identity with
                 | Some (t, v, p) => (t =? tsid) && (v =? version) && bool_decide (p = entries)
                 | None => false
                 end in
  if repeat_ then mret tt
  else
    apply_pat_programs entries tsid_changed ;;
    modify (fun c => set_pat_identity c (Some (tsid, version, entries))).

Definition handle_pat_section (section : list Z) : M unit :=
  match parse_pat_section section with
  | Panic => panic
  | Err (CrcMismatch _ _) => queue_nonconformant (anonymous 0x0000 0) (PsiChecksumMismatch 0x0000)
  | Err FuturePsiSection => mret tt
  | Err _ => queue_psi_malformed 0x0000 0x00 0
  | Ok parsed =>
      check_psi_syntax 0x0000 0x00 section ;;
      if ps_last_section_number parsed =? 0
      then adopt_pat (ps_transport_stream_id parsed) (ps_version parsed) (ps_programs parsed)
      else
        r ← gets pat_reassembler;
        o ← lift (PatReassembler.accept r parsed);
        modify (fun c => set_pat_reassembler c o.1) ;;
        match o.2 with
        | PatReassembler.Pending => mret tt
        | PatReassembler.Complete entries => adopt_pat (ps_transport_stream_id parsed) (ps_version parsed) entries
        | PatReassembler.OutOfRange observed =>
            queue_nonconformant (anonymous 0x0000 0) (PsiSyntax 0x0000 0x00 (SectionNumberOutOfRange observed))
        | PatReassembler.Broken =>
            queue_nonconformant (anonymous 0x0000 0)
              (PsiMultiSectionUnsupported 0x0000 0x00 (ps_last_section_number parsed))
        end
  end.

End order.

(** ** The program map table *)

Definition is_klv (k : StreamKind) : bool := match k with KlvSync _ | KlvAsync => true | _ => false end.

(** The body of the loop that links KLV streams to video streams. *)
Definition klv_link (pmt : Pmt) (prog : Z) (video_pids : list Z) (info : StreamInfo) : M (list KlvLink) :=
  if negb (is_klv (si_kind info)) then mret []
  else
    let klv_pid := si_pid info in
    link ← lift (extract_metadata_link_for_pid pmt klv_pid);
    let declared := p ← link; if bool_decide (p ∈ video_pids) then Some p else None in
    overrides ← gets (fun c => klv_link_overrides (options c));
    match List.find (fun o => o.1 =? klv_pid) overrides with
    | Some (_, video_pid) => mret [{| link_klv_pid := klv_pid; link_video_pid := video_pid; link_source := Override |}]
    | None =>
        match declared with
        | Some video_pid => mret [{| link_klv_pid := klv_pid; link_video_pid := video_pid; link_source := Declared |}]
        | None =>
            match video_pids with
            | [video_pid] => mret [{| link_klv_pid := klv_pid; link_video_pid := video_pid; link_source := Inferred |}]
            | _ =>
                let has_descriptor :=
                  match List.find (fun s => elementary_pid s =? klv_pid) (PsiParse.streams pmt) with
                  | Some s => existsb (fun d => PsiParse.tag d =? 0x26) (descriptors s)
                  | None => false
                  end in
                when (negb has_descriptor)
                  (queue_nonconformant {| sid_pid := klv_pid; sid_kind := si_kind info; sid_program_number := prog |}
                     MissingMetadataDescriptor) ;;
                mret []
            end
        end
    end.

Fixpoint klv_links_of (pmt : Pmt) (prog : Z) (video_pids : list Z) (infos : list StreamInfo) : M (list KlvLink) :=
  match infos with
  | [] => mret []
  | info :: infos =>
      l ← klv_link pmt prog video_pids info;
      ls ← klv_links_of pmt prog video_pids infos;
      mret (l ++ ls)
  end.

Definition build_program_map (pmt_pid : Z) (pmt : Pmt) (prog : Z) (streams : list StreamInfo) : M ProgramMap :=
  let video_pids := omap (fun info => match si_kind info with KVideo _ => Some (si_pid info) | _ => None end) streams in
  links ← klv_links_of pmt prog video_pids streams;
  mret {| pm_program_number := prog; pm_pcr_pid := PsiParse.pcr_pid pmt; pm_pmt_pid := pmt_pid;
          pm_streams := streams; pm_klv_links := links |}.

(** What the loop over the entries of a PMT collects before anything changes. *)
Record Collected : Type := {
  stream_infos : list StreamInfo;
  collision_issues : list (StreamId * NonConformantIssue);
  subtitle_missing : list (Z * StreamKind);
  av1_malformed : list (Z * StreamKind);
  subtitle_ambiguous : list (Z * StreamKind * list Z);
  seen : gset Z;
  repeated : gset Z;
}.

Definition collected_empty : Collected :=
  {| stream_infos := []; collision_issues := []; subtitle_missing := []; av1_malformed := []; subtitle_ambiguous := [];
     seen := ∅; repeated := ∅ |}.

Definition add_collision (k : Collected) (pid a b : Z) : Collected :=
  {| stream_infos := stream_infos k;
     collision_issues := collision_issues k ++ [(anonymous pid b, PidReusedAcrossPrograms pid (a, b))];
     subtitle_missing := subtitle_missing k; av1_malformed := av1_malformed k; subtitle_ambiguous := subtitle_ambiguous k;
     seen := seen k; repeated := repeated k |}.

Definition mark_pids (k : Collected) (s r : gset Z) : Collected :=
  {| stream_infos := stream_infos k; collision_issues := collision_issues k; subtitle_missing := subtitle_missing k;
     av1_malformed := av1_malformed k; subtitle_ambiguous := subtitle_ambiguous k; seen := s; repeated := r |}.

Definition is_av1 (k : StreamKind) : bool := match k with KVideo MuxTypes.Av1 => true | _ => false end.
Definition is_subtitle (k : StreamKind) : bool := match k with KSubtitle _ => true | _ => false end.

(** An entry no other program owns: its diagnostics and its place in the list. *)
Definition accept_stream (prog : Z) (s : PmtStream) (kind : StreamKind) (k : Collected) : Collected :=
  let pid := elementary_pid s in
  let is_06 := PsiParse.stream_type s =? 0x06 in
  {| stream_infos := stream_infos k ++ [{| si_pid := pid; si_stream_type := from_byte (PsiParse.stream_type s); si_kind := kind;
                                           si_program_number := prog; si_raw_descriptors := descriptors s |}];
     collision_issues := collision_issues k;
     subtitle_missing := subtitle_missing k ++
       (if is_subtitle kind && negb (has_recognized_subtitle_descriptor (descriptors s)) then [(pid, kind)] else []);
     av1_malformed := av1_malformed k ++
       (if is_06 && negb (is_av1 kind) && is_malformed_av1_registration (descriptors s) then [(pid, kind)] else []);
     subtitle_ambiguous := subtitle_ambiguous k ++
       (if is_06 && negb (is_av1 kind) then
          match (classify_0x06_with_ambiguity (descriptors s)).2 with [] => [] | tags => [(pid, kind, tags)] end
        else []);
     seen := seen k; repeated := repeated k |}.

Definition collect_stream {E} (c : Core) (prog : Z) (k : Collected) (s : PmtStream) : res E Collected :=
  let pid := elementary_pid s in
  if bool_decide (pid ∈ seen k) then
    if bool_decide (pid ∈ repeated k) then Ok k
    else Ok (add_collision (mark_pids k (seen k) ({[pid]} ∪ repeated k)) pid prog prog)
  else
    let k := mark_pids k ({[pid]} ∪ seen k) (repeated k) in
    let! kind := get_stream_kind c pid s in
    match pid_owner c !! pid with
    | Some other => if negb (other =? prog) then Ok (add_collision k pid other prog) else Ok (accept_stream prog s kind k)
    | None => Ok (accept_stream prog s kind k)
    end.

Fixpoint collect_streams {E} (c : Core) (prog : Z) (k : Collected) (ss : list PmtStream) : res E Collected :=
  match ss with
  | [] => Ok k
  | s :: ss => let! k := collect_stream c prog k s in collect_streams c prog k ss
  end.

Definition clear_once_flags (s : PidState.PidState) : PidState.PidState :=
  let s := PidState.set_av1_registration_malformed_emitted (PidState.set_subtitle_missing_descriptor_emitted s false) false in
  PidState.set_sync_pes_shape_emitted (PidState.set_subtitle_descriptor_ambiguous_emitted s false) false.

(** A diagnostic raised once per PID and PMT version. *)
Definition queue_once (pid : Z) (kind : StreamKind) (prog : Z) (flag : PidState.PidState -> bool)
    (set : PidState.PidState -> bool -> PidState.PidState) (issue : NonConformantIssue) : M unit :=
  first ← set_once pid flag set;
  when first (queue_nonconformant {| sid_pid := pid; sid_kind := kind; sid_program_number := prog |} issue).

Definition emit_collected (prog : Z) (k : Collected) : M unit :=
  for_each (collision_issues k) (fun i => queue_nonconformant i.1 i.2) ;;
  for_each (subtitle_missing k) (fun i =>
    queue_once i.1 i.2 prog PidState.subtitle_missing_descriptor_emitted PidState.set_subtitle_missing_descriptor_emitted
      (SubtitleMissingDescriptor i.1)) ;;
  for_each (av1_malformed k) (fun i =>
    queue_once i.1 i.2 prog PidState.av1_registration_malformed_emitted PidState.set_av1_registration_malformed_emitted
      (Av1RegistrationMalformed i.1)) ;;
  for_each (subtitle_ambiguous k) (fun i =>
    queue_once i.1.1 i.1.2 prog PidState.subtitle_descriptor_ambiguous_emitted
      PidState.set_subtitle_descriptor_ambiguous_emitted (SubtitleDescriptorAmbiguous i.1.1 i.2)).

Definition updated_tracker (t : ProgramTracker) (pmt : Pmt) (infos : list StreamInfo) : ProgramTracker :=
  {| pt_program_number := pt_program_number t; pt_pmt_pid := pt_pmt_pid t;
     pt_pmt_version := Some (PsiParse.pmt_version pmt); pt_pcr_pid := Some (PsiParse.pcr_pid pmt);
     pt_streams := infos; klv_mismatch_coalesce := ∅ |}.

(** The tracker and the PID owners of the program, in one step;
    [expect("checked above")] is the panic. *)
Definition update_tracker (pmt : Pmt) (prog : Z) (infos : list StreamInfo) : M unit :=
  tracker ← gets (fun c => programs c !! prog);
  match tracker with
  | None => panic
  | Some t =>
      modify (fun c => set_pid_owner c (foldl (fun m s => delete (si_pid s) m) (pid_owner c) (pt_streams t))) ;;
      modify (fun c => set_pid_owner c (foldl (fun m s => <[si_pid s := prog]> m) (pid_owner c) infos)) ;;
      modify (fun c => set_programs c (<[prog := updated_tracker t pmt infos]> (programs c)))
  end.

(** [handle_pmt_section] from the point where the section is a new version. *)
Definition adopt_pmt (pmt_pid : Z) (pmt : Pmt) : M unit :=
  let prog := pmt_program_number pmt in
  for_each (PsiParse.streams pmt) (fun s => pid_state_alter (elementary_pid s) clear_once_flags) ;;
  c ← gets id;
  k ← lift (collect_streams c prog collected_empty (PsiParse.streams pmt));
  emit_collected prog k ;;
  diff ← gets (fun c => pmt_topology_diff c (PsiParse.pcr_pid pmt) prog (stream_infos k));
  prog_map ← build_program_map pmt_pid pmt prog (stream_infos k);
  update_tracker pmt prog (stream_infos k) ;;
  apply_topology_diff diff ;;
  push_event (EvProgramMap prog_map) ;;
  modify (fun c => set_program_maps_seen c (as_u64 (program_maps_seen c + 1))) ;;
  modify (fun c => set_pmt_versions_seen c (as_u64 (pmt_versions_seen c + 1))).

Definition handle_pmt_section (pmt_pid : Z) (section : list Z) : M unit :=
  first ← gets (fun c => first_program_on c pmt_pid);
  match parse_pmt section with
  | Panic => panic
  | Err (CrcMismatch _ _) => queue_nonconformant (anonymous pmt_pid first) (PsiChecksumMismatch pmt_pid)
  | Err (MultiSectionUnsupported table_id last_section_number) =>
      queue_nonconformant (anonymous pmt_pid first) (PsiMultiSectionUnsupported pmt_pid table_id last_section_number)
  | Err FuturePsiSection => mret tt
  | Err _ =>
      if bool_decide (get section 0 <> Some 0x02) then mret tt else queue_psi_malformed pmt_pid 0x02 first
  | Ok pmt =>
      let prog := pmt_program_number pmt in
      tracker ← gets (fun c => tracker_for c pmt_pid prog);
      match tracker with
      | None =>
          declared ← gets (fun c => bool_decide (pmt_pid ∈ pmt_pids c));
          when declared
            (pat_program ← gets (fun c => first_program_on c pmt_pid);
             queue_nonconformant (anonymous pmt_pid pat_program) (PmtProgramNumberMismatch pmt_pid pat_program prog))
      | Some t =>
          check_psi_syntax pmt_pid 0x02 section ;;
          version ← gets (fun c => programs c !! prog ≫= pt_pmt_version);
          if bool_decide (version = Some (PsiParse.pmt_version pmt)) then mret tt
          else adopt_pmt pmt_pid pmt
      end
  end.

(** ** From packets to sections *)

Inductive PsiStep : Type := Completed | Incomplete | Overflowed.

#[global] Instance PsiStep_eq_dec : EqDecision PsiStep.
Proof. solve_decision. Defined.

Section sections.
Context {HO : HashOrder}.

Definition dispatch_psi_result (pid : Z) (is_pat : bool) (result : res PsiAssembler.AssemblerError (option (list Z)))
    : M PsiStep :=
  match result with
  | Panic => panic
  | Ok None => mret Incomplete
  | Err (PsiAssembler.Overflow observed_len) | Err (PsiAssembler.DeclaredTooLong observed_len) =>
      stream ← gets (stream_or 0 pid);
      queue_nonconformant stream (PsiOverlongSection pid observed_len) ;;
      mret Overflowed
  | Ok (Some section) =>
      (if is_pat then handle_pat_section section else handle_pmt_section pid section) ;;
      mret Completed
  end.

(** [psi_assemblers.entry(pid).or_default()] followed by a method call, whose
    result is dispatched. *)
Definition assemble (pid : Z) (is_pat : bool) (f : PsiAssembler.PsiSectionAssembler -> PsiAssembler.step) : M PsiStep :=
  r ← gets (fun c => f (default PsiAssembler.new (psi_assemblers c !! pid)));
  modify (fun c => set_psi_assemblers c (<[pid := r.1]> (psi_assemblers c))) ;;
  dispatch_psi_result pid is_pat r.2.

(** The [while] loop: every completed section shortens the buffer. *)
Fixpoint drain_sections (fuel : nat) (pid : Z) (is_pat : bool) : M unit :=
  match fuel with
  | O => panic
  | S fuel =>
      step ← assemble pid is_pat PsiAssembler.try_complete_section;
      match step with
      | Completed => drain_sections fuel pid is_pat
      | _ => mret tt
      end
  end.

Definition buffered (c : Core) (pid : Z) : nat :=
  match psi_assemblers c !! pid with Some a => length (PsiAssembler.buf a) | None => 0%nat end.

(** The steps after the first section of the payload. *)
Definition after_section (pid : Z) (is_pat : bool) (step : PsiStep) : M unit :=
  match step with
  | Completed => fuel ← gets (fun c => buffered c pid); drain_sections (S fuel) pid is_pat
  | _ => mret tt
  end.

Definition reset_assembler (pid : Z) : M unit :=
  modify (fun c => set_psi_assemblers c (alter PsiAssembler.reset pid (psi_assemblers c))).

Definition handle_psi (pid : Z) (payload : list Z) (pusi is_pat cc_jumped : bool) : M unit :=
  lenient ← gets (fun c => lenient_psi_reassembly (options c));
  if negb pusi && cc_jumped && negb lenient then
    reset_assembler pid ;; queue_psi_cc_discontinuity pid
  else
    let tail_lost := pusi && cc_jumped && negb lenient in
    partial ← gets (fun c => match psi_assemblers c !! pid with Some a => PsiAssembler.has_partial a | None => false end);
    when (tail_lost && partial) (reset_assembler pid ;; queue_psi_cc_discontinuity pid) ;;
    if pusi then
      match payload with
      | [] => mret tt
      | pointer_field :: rest =>
          if zlen payload <? 1 + pointer_field then mret tt
          else
            tail ← (if (0 <? pointer_field) && negb tail_lost
                    then assemble pid is_pat (fun a => PsiAssembler.append_continuation a (ztake pointer_field rest))
                    else mret Incomplete);
            match tail with
            | Overflowed => mret tt
            | _ =>
                step ← assemble pid is_pat (fun a => PsiAssembler.start_new_section a (zdrop pointer_field rest));
                after_section pid is_pat step
            end
      end
    else
      step ← assemble pid is_pat (fun a => PsiAssembler.append_continuation a payload);
      after_section pid is_pat step.

(** [HashMap::values_mut().find(..)] with the insert of [klv_mismatch_insert]. *)
Definition klv_mismatch_insert (pid : Z) : M bool :=
  owner ← gets (fun c => List.find (fun e => existsb (fun s => si_pid s =? pid) (pt_streams e.2)) (hash_iter (programs c)));
  match owner with
  | None => mret true
  | Some (n, t) =>
      let t' := {| pt_program_number := pt_program_number t; pt_pmt_pid := pt_pmt_pid t; pt_pmt_version := pt_pmt_version t;
                   pt_pcr_pid := pt_pcr_pid t; pt_streams := pt_streams t;
                   klv_mismatch_coalesce := {[pid]} ∪ klv_mismatch_coalesce t |} in
      modify (fun c => set_programs c (<[n := t']> (programs c))) ;;
      mret (negb (bool_decide (pid ∈ klv_mismatch_coalesce t)))
  end.

End sections.

End Psi.
