(* ===== verification/DemuxPayload.v ===== *)
(** What the demuxer looks at inside a PES payload ([mpegts/demux/payload.rs]
    and the KLV probe of [pes_emit.rs]): the shape of KLV, AU cells back to
    back, the DVB subtitle envelope and the teletext data field. *)
From Stdlib Require Import ZArith Lia Bool String.
From stdpp Require Import base list list_numbers.
From S2P Require Import Prelude.
From S2P Require Import Common.
From S2P Require Import AuCell.
From S2P Require Import Klv.

Module Payload.
Import AuCell.

Inductive KlvShape : Type := ShapeSync | ShapeAsync (klv : list Z) | ShapeOther.

Definition classify_klv {E} (payload : list Z) : res E KlvShape :=
  if (16 <=? zlen payload) && bool_decide (ztake 4 payload = [0x06; 0x0E; 0x2B; 0x34]) then Ok (ShapeAsync payload)
  else if 5 <=? zlen payload then
    match read_metadata_au_cell payload with
    | Ok _ => Ok ShapeSync
    | Err _ => Ok ShapeOther
    | Panic => Panic
    end
  else Ok ShapeOther.

(** The items of [iter_au_cells_with_end]: a cell with the offset of its end,
    or the error that ends the walk. *)
Definition cell_item : Type := AuCellHeader * list Z * Z + CellReadError.

Fixpoint au_cells_from {E} (fuel : nat) (payload : list Z) (offset : Z) : res E (list cell_item) :=
  if zlen payload <=? offset then Ok []
  else
    match fuel with
    | O => Panic
    | S fuel =>
        match read_metadata_au_cell (zdrop offset payload) with
        | Ok (header, inner) =>
            let offset := offset + (5 + zlen inner) in
            let! rest := au_cells_from fuel payload offset in
            Ok (inl (header, inner, offset) :: rest)
        | Err e => Ok [inr e]
        | Panic => Panic
        end
    end.

Definition iter_au_cells_with_end {E} (payload : list Z) : res E (list cell_item) :=
  au_cells_from (length payload) payload 0.

Inductive DvbSubStripResult : Type :=
| Conformant (stripped : list Z)
| NonConformantDataId (observed : Z) (stripped : list Z)
| EnvelopeMalformed.

Definition strip_dvb_sub_envelope {E} (bs : list Z) : res E DvbSubStripResult :=
  if zlen bs <? 3 then Ok EnvelopeMalformed
  else
    let! data_id := idx bs 0 in
    let! sid := idx bs 1 in
    let! end_marker := idx bs (zlen bs - 1) in
    let in_permissive_range := (0x20 <=? data_id) && (data_id <=? 0x3F) || (0x70 <=? data_id) && (data_id <=? 0x7F) in
    if negb in_permissive_range || negb (sid =? 0x00) || negb (end_marker =? 0xFF) then Ok EnvelopeMalformed
    else
      let! stripped := slice bs 2 (zlen bs - 1) in
      Ok (if data_id =? 0x20 then Conformant stripped else NonConformantDataId data_id stripped).

(** The walk over the data units. *)
Fixpoint data_units_ok {E} (fuel : nat) (units : list Z) : res E bool :=
  match units with
  | [] => Ok true
  | data_unit_id :: rest =>
      match fuel with
      | O => Panic
      | S fuel =>
          if data_unit_id =? 0xFF then Ok true
          else if (data_unit_id =? 0x02) || (data_unit_id =? 0x03) then
            match rest with
            | [] => Ok false
            | data_unit_length :: field =>
                if negb (data_unit_length =? 0x2C) then Ok false
                else if zlen field <? data_unit_length then Ok false
                else data_units_ok fuel (zdrop data_unit_length field)
            end
          else Ok false
      end
  end.

Definition teletext_data_field_ok {E} (payload : list Z) : res E bool :=
  if negb ((zlen payload + 45) mod 184 =? 0) then Ok false
  else
    match payload with
    | [] => Ok false
    | data_identifier :: units =>
        if (0x10 <=? data_identifier) && (data_identifier <=? 0x1F) || (0x80 <=? data_identifier) && (data_identifier <=? 0xFF)
        then data_units_ok (length units) units
        else Ok false
    end.

Definition orphan_validates_as_complete_klv {E} (payload : list Z) : res E bool :=
  if (zlen payload <? 17) || negb (bool_decide (ztake 4 payload = [0x06; 0x0E; 0x2B; 0x34])) then Ok false
  else
    match Length.read_ber (zdrop 16 payload) with
    | Ok (declared_len, rest) => Ok (declared_len =? zlen rest)
    | Err _ => Ok false
    | Panic => Panic
    end.

End Payload.
