(* ===== verification/DemuxPes.v ===== *)
(** From reassembled PES packets to events ([mpegts/demux/pes_emit.rs]). *)
From Stdlib Require Import ZArith Lia Bool String.
From stdpp Require Import base list list_numbers gmap.
From S2P Require Import Prelude.
From S2P Require Import Common.
From S2P Require Import TsPacket.
From S2P Require Import PesDemux.
From S2P Require Import PsiParse.
From S2P Require Import PsiWriter.
From S2P Require Import Descriptors.
From S2P Require Import AnnexB.
From S2P Require Import AudioFrames.
From S2P Require Import AuCell.
From S2P Require Import Muxer.
From S2P Require Import DemuxTime.
From S2P Require Import AuReassemble.
From S2P Require Import Latm.
From S2P Require Import DemuxTypes.
From S2P Require Import DemuxState.
From S2P Require Import DemuxIngress.
From S2P Require Import DemuxPsi.
From S2P Require Import DemuxPayload.

Module Emit.
Import Common PsiParse MuxTypes PmtClassify DemuxEvent Strict DemuxConfig Core Lookup PacketChecks Payload.
Import PesParse (PesPayload, pts, dts, payload, data_alignment_indicator, header_issues).

Definition PTS_SPACING_LIMIT_90KHZ : Z := 63000.
Definition DECODER_DELAY_1S_90KHZ : Z := 90000.
Definition DECODER_DELAY_10S_90KHZ : Z := 900000.

Definition pcr_run_limit_90khz (kind : StreamKind) : Z :=
  let delay := match kind with
               | KVideo _ | KAudio ClassAacLatm => DECODER_DELAY_10S_90KHZ
               | _ => DECODER_DELAY_1S_90KHZ
               end in
  PTS_SPACING_LIMIT_90KHZ + delay.

Definition DVB_SUB_ENVELOPE_MALFORMED : string :=
  "DVB subtitle PES_data_field envelope malformed (EN 300 743 Table 3: data_identifier 0x20, subtitle_stream_id 0x00, end marker 0xFF)".
Definition TELETEXT_DATA_FIELD_MALFORMED : string := "teletext PES_data_field malformed (EN 300 472 §4.2/§4.3)".
Definition SYNC_METADATA_DTS : string :=
  "sync metadata PES carries a DTS; ST 1402-08 requires PTS_DTS_flags = '10'".

Inductive PtsRule : Type := PerPes | Spacing | NoRule.

Definition pts_rule (kind : StreamKind) (stream_type : Z) : PtsRule :=
  match kind with
  | KVideo _ | KAudio _ => Spacing
  | KSubtitle DemuxDvbSubtitling => PerPes
  | KlvSync _ | KlvAsync => if stream_type =? 0x15 then PerPes else NoRule
  | _ => NoRule
  end.

(** ** Timing *)

Definition program_pcr_90khz (c : Core) (program : Z) : option Z :=
  t ← programs c !! program;
  p ← pt_pcr_pid t;
  pcr ← Timestamp.last (Core.pcr c) p;
  Some (pcr / 300).

Definition state_of (c : Core) (pid : Z) : PidState.PidState := default PidState.pid_new (pid_state c !! pid).

(** A PES without a PTS on an audio or video PID: the run is timed by the PCR. *)
Definition time_pts_less_run (pid : Z) (stream : StreamId) : M unit :=
  pcr_now ← gets (fun c => program_pcr_90khz c (sid_program_number stream));
  pid_state_mut pid (fun s => PidState.set_pts_less_since_pts s true) ;;
  s ← gets (fun c => state_of c pid);
  overdue ←
    (if PidState.pts_less_run_reported s then mret false
     else match PidState.pts_less_run_pcr s, pcr_now with
          | None, now => pid_state_mut pid (fun s => PidState.set_pts_less_run_pcr s now) ;; mret false
          | Some start, Some now => d ← lift (pts_diff_33bit now start); mret (pcr_run_limit_90khz (sid_kind stream) <? d)
          | Some _, None => mret false
          end);
  when overdue
    (pid_state_mut pid (fun s => PidState.set_pts_less_run_reported (PidState.set_pts_less_run_pcr s None) true) ;;
     queue_nonconformant stream (MissingRequiredPts pid)).

(** A coded PTS ends the run before it. *)
Definition close_pts_less_run (pid : Z) (stream : StreamId) (now : Z) : M unit :=
  s ← gets (fun c => state_of c pid);
  pid_state_mut pid (fun s =>
    PidState.set_pts_less_run_pcr (PidState.set_pts_less_run_reported (PidState.set_pts_less_since_pts s false) false) None) ;;
  match PidState.last_pts s with
  | Some last =>
      if PidState.pts_less_since_pts s && negb (PidState.pts_less_run_reported s) then
        d ← lift (pts_diff_33bit (as_u64 now) (as_u64 last));
        when (PTS_SPACING_LIMIT_90KHZ <? d) (queue_nonconformant stream (MissingRequiredPts pid))
      else mret tt
  | None => mret tt
  end.

Definition check_pts_order (pid : Z) (stream : StreamId) (observed_pts : Z) : M unit :=
  lst ← gets (fun c => pid_state c !! pid ≫= PidState.last_pts);
  match lst with
  | Some last =>
      delta ← lift (pts_diff_33bit (as_u64 observed_pts) (as_u64 last));
      when (delta <? -90000) (queue_nonconformant stream (PtsAnomaly delta))
  | None => mret tt
  end ;;
  pid_state_mut pid (fun s => PidState.set_last_pts s (Some observed_pts)).

Definition unwrap_pair (pes : PesPayload) : M (Z * option Z) :=
  let pid := PesParse.pid pes in
  unwrapped_pts ← match pts pes with Some raw => unwrap_pts pid raw | None => mret 0 end;
  unwrapped_dts ←
    match pts pes, dts pes with
    | Some pts_raw, Some dts_raw => d ← lift (Timestamp.dts_with_pts unwrapped_pts pts_raw dts_raw); mret (Some d)
    | None, Some dts_raw =>
        own ← gets (fun c => pid_state c !! pid ≫= PidState.unwrap);
        mret (Some (Timestamp.secondary own dts_raw))
    | _, None => mret None
    end;
  mret (unwrapped_pts, unwrapped_dts).

Definition record_pes_timing (pes : PesPayload) (stream : StreamId) : M (Z * option Z) :=
  let pid := PesParse.pid pes in
  stream_type ← gets (fun c => default 0 (pid_state c !! pid ≫= PidState.stream_type));
  match pts_rule (sid_kind stream) stream_type, pts pes with
  | PerPes, None => queue_nonconformant stream (MissingRequiredPts pid)
  | Spacing, None => time_pts_less_run pid stream
  | Spacing, Some now => close_pts_less_run pid stream now
  | _, _ => mret tt
  end ;;
  (if Psi.is_klv (sid_kind stream) && (stream_type =? 0x15) && is_some (dts pes) then
     first ← set_once pid PidState.sync_pes_shape_emitted PidState.set_sync_pes_shape_emitted;
     when first (queue_nonconformant stream (Other SYNC_METADATA_DTS))
   else mret tt) ;;
  match pts pes with
  | Some observed_pts => check_pts_order pid stream observed_pts
  | None => mret tt
  end ;;
  opts ← gets options;
  if unwrap_timestamps opts then unwrap_pair pes else mret (default 0 (pts pes), dts pes).

(** ** Emission *)

(** [push_pes_event]; what is left of the damage marker is returned. *)
Definition push_pes_event (damage : option string) (stream : StreamId) (event : DemuxEvent) : M (option string) :=
  match damage with
  | Some reason => queue_nonconformant stream (MalformedPes (sid_pid stream) reason)
  | None => mret tt
  end ;;
  push_event event ;; mret None.

(** Queue an issue; [true] when the strict mode rejects it. *)
Definition raise (stream : StreamId) (issue : NonConformantIssue) : M bool :=
  reject ← gets (fun c => rejects (strict (options c)) issue);
  queue_nonconformant stream issue ;; mret reject.

Definition raise_latm_framing (pid : Z) (kind : Latm.LatmFramingKind) (stream : StreamId) : M bool :=
  raise stream (LatmFraming pid kind).

(** [check_latm_framing] over [LatmCheck.check_latm_framing], which is its body
    on the PID's three LATM fields. *)
Definition check_latm_framing (pes : PesPayload) (damaged : bool) (stream : StreamId) : M bool :=
  let pid := PesParse.pid pes in
  s ← gets (fun c => state_of c pid);
  r ← lift (LatmCheck.check_latm_framing (PidState.latm s) (payload pes) (data_alignment_indicator pes) damaged);
  pid_state_mut pid (fun s => PidState.set_latm s r.1) ;;
  match r.2 with
  | Some kind => raise_latm_framing pid kind stream
  | None => mret false
  end.

Definition keep_stats (s : MuxState.StreamStats) : MuxState.StreamStats := s.

Definition emit_video (pes : PesPayload) (codec : VideoCodec) (stream : StreamId) (program_number pts : Z) (dts : option Z)
    (damage : option string) : M (option string) :=
  let rai := PesParse.random_access_indicator pes in
  opts ← gets options;
  let is_av1 := bool_decide (codec = MuxTypes.Av1) in
  when (is_av1 && bool_decide (av1_carriage opts = Mpeg2TsBinding) && negb (PesParse.stream_id pes =? 0xBD))
    (queue_nonconformant stream (Av1WrongStreamId (sid_pid stream) (PesParse.stream_id pes))) ;;
  record_item stream program_number (zlen (payload pes)) keep_stats ;;
  when rai (pid_state_mut (sid_pid stream) (fun s => PidState.codec_mut s MuxState.CodecVideo (fun k => MuxState.add_video k 0 1))) ;;
  push_pes_event damage stream
    (EvSample stream pts dts (Video codec (payload pes) rai (if is_av1 then Some (av1_carriage opts) else None))).

Definition count_klv (stream : StreamId) : M unit :=
  pid_state_mut (sid_pid stream) (fun s => PidState.codec_mut s MuxState.CodecKlv (fun k => MuxState.add_klv k 1)).

(** One metadata access unit. *)
Definition emit_metadata (stream : StreamId) (program_number pts : Z) (kind : MetadataKind) (body : list Z)
    (damage : option string) : M (option string) :=
  record_item stream program_number (zlen body) keep_stats ;;
  count_klv stream ;;
  push_pes_event damage stream (EvMetadata stream pts kind body).

Definition cell_kind (h : AuCell.AuCellHeader) (was_reassembled : bool) (cell_count : Z) : MetadataKind :=
  KlvSyncAuCell (AuCell.metadata_service_id h) (AuCell.sequence_number h) AuCell.Complete (AuCell.decoder_config_flag h)
    (AuCell.random_access_indicator h) was_reassembled cell_count.

Definition set_au (r : AuReassembler.AuCellReassembler) : M unit := modify (fun c => set_au_reassembler c r).

(** The [while let Some(..) = to_process.take()] loop over one cell: a failure
    that only dropped earlier buffers replays the cell. *)
Fixpoint process_cells (fuel : nat) (pid : Z) (stream : StreamId) (program_number pts : Z) (reset_in_pes : bool)
    (h : AuCell.AuCellHeader) (inner : list Z) (damage : option string) : M (option string) :=
  match fuel with
  | O => panic
  | S fuel =>
      r ← gets au_reassembler;
      o ← lift (AuReassembler.process_cell r pid h inner);
      set_au o.1 ;;
      match o.2 with
      | AuReassembler.Buffered => mret damage
      | AuReassembler.Emit header body cell_count =>
          let was_reassembled := 1 <? cell_count in
          (if was_reassembled then
             r ← gets au_reassembler;
             r ← lift (AuReassembler.clear_after_emit r pid (AuCell.metadata_service_id header));
             set_au r
           else mret tt) ;;
          if was_reassembled && reset_in_pes then
            queue_nonconformant stream (MultiCellAu pid (zlen body) AuReassembler.SequenceGap) ;; mret damage
          else emit_metadata stream program_number pts (cell_kind header was_reassembled cell_count) body damage
      | AuReassembler.Failure reason dropped_bytes =>
          let observed_cfi := AuCell.cell_fragment_indication h in
          let orphan_continuation :=
            bool_decide (reason = AuReassembler.Orphan) &&
            (bool_decide (observed_cfi = AuCell.Middle) || bool_decide (observed_cfi = AuCell.Last)) in
          opts ← gets options;
          tolerated ← (if orphan_continuation && cfi_tolerance opts
                       then lift (orphan_validates_as_complete_klv inner) else mret false);
          if (tolerated : bool) then
            damage ← emit_metadata stream program_number pts (cell_kind h false 1) inner damage;
            queue_nonconformant stream (CfiTolerated pid observed_cfi AuCell.Complete) ;; mret damage
          else
            queue_nonconformant stream (MultiCellAu pid dropped_bytes reason) ;;
            let replay := bool_decide (reason = AuReassembler.ConcurrentFirst)
                          || bool_decide (reason = AuReassembler.SequenceGap)
                             && (bool_decide (observed_cfi = AuCell.First) || bool_decide (observed_cfi = AuCell.Complete)) in
            if replay then process_cells fuel pid stream program_number pts reset_in_pes h inner damage else mret damage
      end
  end.

(** A cell is processed at most twice, so two turns are enough. *)
Definition process_cell (pid : Z) (stream : StreamId) (program_number pts : Z) (reset_in_pes : bool)
    (h : AuCell.AuCellHeader) (inner : list Z) (damage : option string) : M (option string) :=
  process_cells 2 pid stream program_number pts reset_in_pes h inner damage.

Fixpoint walk_cells (pid : Z) (stream : StreamId) (program_number pts : Z) (reset_in_pes : bool) (cells : list cell_item)
    (gap : option Z) (damage : option string) : M (option string) :=
  match cells with
  | [] => mret damage
  | inr _ :: _ => discard_au_in_progress pid ;; mret damage
  | inl (header, inner, cell_end) :: cells =>
      let past_gap := match gap with Some g => g <? cell_end | None => false end in
      when past_gap (discard_au_in_progress pid) ;;
      damage ← process_cell pid stream program_number pts reset_in_pes header inner damage;
      walk_cells pid stream program_number pts reset_in_pes cells (if past_gap then None else gap) damage
  end.

Section order.
Context {HO : HashOrder}.

Definition emit_klv (pes : PesPayload) (kind : StreamKind) (stream : StreamId) (program_number pts : Z) (dts : option Z)
    (gap : option Z) (damage : option string) : M (option string) :=
  let pid := PesParse.pid pes in
  shape ← lift (classify_klv (payload pes));
  match shape with ShapeSync => mret tt | _ => discard_au_in_progress pid end ;;
  match shape with
  | ShapeAsync klv =>
      (match kind with
       | KlvSync _ => first ← Psi.klv_mismatch_insert pid; when first (queue_nonconformant stream StreamTypeMismatchAsyncOnSyncPid)
       | _ => mret tt
       end) ;;
      emit_metadata stream program_number pts KlvAsyncKind klv damage
  | ShapeOther =>
      record_item stream program_number (zlen (payload pes)) keep_stats ;;
      stream_type ← gets (fun c => default 0x15 (pid_state c !! pid ≫= PidState.stream_type));
      push_pes_event damage stream (EvSample stream pts dts (UnknownSample (from_byte stream_type) (payload pes)))
  | ShapeSync =>
      (match kind with
       | KlvAsync => first ← Psi.klv_mismatch_insert pid; when first (queue_nonconformant stream StreamTypeMismatchSyncOnAsyncPid)
       | _ => mret tt
       end) ;;
      modify (fun c => set_au_reassembler c (AuReassembler.begin_wrapper (au_reassembler c) pid)) ;;
      reset_in_pes ← gets (fun c => match pid_state c !! pid with Some s => PidState.source_reset_in_pes s | None => false end);
      cells ← lift (iter_au_cells_with_end (payload pes));
      walk_cells pid stream program_number pts reset_in_pes cells gap damage
  end.

Definition emit_unknown (pes : PesPayload) (stream_type : Z) (stream : StreamId) (program_number pts : Z) (dts : option Z)
    (damage : option string) : M (option string) :=
  record_item stream program_number (zlen (payload pes)) keep_stats ;;
  push_pes_event damage stream (EvSample stream pts dts (UnknownSample (from_byte stream_type) (payload pes))).

(** [frames_with_resync(payload).filter_map(Result::ok).count()] *)
Definition frames_delta {E} (codec : AudioClass) (body : list Z) : res E Z :=
  match codec with
  | ClassAac => let! l := Frames.frames_with_resync (F:=Aac.AdtsFrame) body in Ok (Frames.ok_count l)
  | ClassMp2 => let! l := Frames.frames_with_resync (F:=MpegAudio.Frame) body in Ok (Frames.ok_count l)
  | _ => Ok 0
  end.

Definition emit_audio (pes : PesPayload) (codec : AudioClass) (stream : StreamId) (program_number pts : Z)
    (damage : option string) : M (option string) :=
  let pid := PesParse.pid pes in
  record_item stream program_number (zlen (payload pes)) keep_stats ;;
  latm_rejected ← (if bool_decide (codec = ClassAacLatm) then check_latm_framing pes (is_some damage) stream else mret false);
  if (latm_rejected : bool) then mret damage
  else
    frames ← lift (frames_delta codec (payload pes));
    when (0 <? frames)
      (pid_state_mut (sid_pid stream) (fun s => PidState.codec_mut s MuxState.CodecAudio (fun k => MuxState.add_audio k frames))) ;;
    ac3_sync_rejected ←
      (if bool_decide (codec = ClassAc3) && data_alignment_indicator pes
          && negb (bool_decide (ztake 2 (payload pes) = [0x0B; 0x77]))
       then raise stream (Ac3SyncMissing pid) else mret false);
    if (ac3_sync_rejected : bool) then mret damage
    else push_pes_event damage stream (EvSample stream pts None (Audio codec (payload pes))).

Definition demux_subtitle_codec_label (codec : DemuxSubtitleCodec) : string :=
  match codec with
  | DemuxDvbSubtitling => "DVB-Subtitling"
  | DemuxDvbTeletext => "DVB-Teletext"
  | DemuxCea708Standalone => "CEA-708-Standalone"
  | DemuxWebVttInTs => "WebVTT-in-TS"
  end.

Definition set_label (codec : DemuxSubtitleCodec) (s : MuxState.StreamStats) : MuxState.StreamStats :=
  {| MuxState.stat_pid := MuxState.stat_pid s; MuxState.stat_stream_type := MuxState.stat_stream_type s;
     MuxState.stat_program_number := MuxState.stat_program_number s;
     MuxState.label := Some (default (demux_subtitle_codec_label codec) (MuxState.label s));
     MuxState.items := MuxState.items s; MuxState.byte_count := MuxState.byte_count s;
     MuxState.discontinuities := MuxState.discontinuities s |}.

(** The payload a subtitle sample surfaces, unless a strict mode suppresses it. *)
Definition surfaced_payload (pes : PesPayload) (codec : DemuxSubtitleCodec) (stream : StreamId) : M (option (list Z)) :=
  let pid := PesParse.pid pes in
  let raw := payload pes in
  teletext_ebu_profile ← gets (fun c => match pid_state c !! pid with Some s => PidState.teletext_ebu_profile s | None => false end);
  match codec with
  | DemuxDvbSubtitling =>
      r ← lift (strip_dvb_sub_envelope raw);
      match r with
      | Conformant s => mret (Some s)
      | NonConformantDataId observed stripped =>
          reject ← raise stream (DvbSubDataIdentifier observed);
          mret (if (reject : bool) then None else Some stripped)
      | EnvelopeMalformed =>
          reject ← raise stream (MalformedPes pid DVB_SUB_ENVELOPE_MALFORMED);
          mret (if (reject : bool) then None else Some raw)
      end
  | DemuxDvbTeletext =>
      ok ← (if (teletext_ebu_profile : bool) then lift (teletext_data_field_ok raw) else mret true);
      if (ok : bool) then mret (Some raw)
      else
        reject ← raise stream (MalformedPes pid TELETEXT_DATA_FIELD_MALFORMED);
        mret (if (reject : bool) then None else Some raw)
  | _ => mret (Some raw)
  end.

Definition emit_subtitle (pes : PesPayload) (codec : DemuxSubtitleCodec) (stream : StreamId) (program_number pts : Z)
    (damage : option string) : M (option string) :=
  let pid := PesParse.pid pes in
  first ← set_once (sid_pid stream) PidState.subtitle_seen PidState.set_subtitle_seen;
  when first (modify (fun c => set_subtitle_streams_seen_count c (as_u32 (subtitle_streams_seen_count c + 1)))) ;;
  record_item stream program_number (zlen (payload pes)) (set_label codec) ;;
  let needs_alignment := match codec with DemuxDvbSubtitling | DemuxDvbTeletext => true | _ => false end in
  alignment_rejected ←
    (if needs_alignment && negb (data_alignment_indicator pes) then raise stream (SubtitleAlignmentMissing pid) else mret false);
  surfaced ← (if (alignment_rejected : bool) then mret None else surfaced_payload pes codec stream);
  match surfaced with
  | Some body => push_pes_event damage stream (EvSample stream pts None (Subtitle codec body))
  | None => mret damage
  end.

Definition emit_complete_pes (pes : PesPayload) (damage : option string) (gap : option Z) : M (option string) :=
  let pid := PesParse.pid pes in
  kind ← gets (fun c => stream_kind c pid);
  match kind with
  | None => mret damage
  | Some kind =>
      program_number ← gets (fun c => program_number_for_pid c pid);
      let stream := {| sid_pid := pid; sid_kind := kind; sid_program_number := program_number |} in
      for_each (header_issues pes) (fun k => queue_nonconformant stream (PesHeaderMalformed pid k)) ;;
      t ← record_pes_timing pes stream;
      match kind with
      | KVideo codec => emit_video pes codec stream program_number t.1 t.2 damage
      | KlvSync _ | KlvAsync => emit_klv pes kind stream program_number t.1 t.2 gap damage
      | PmtClassify.Unknown stream_type => emit_unknown pes stream_type stream program_number t.1 t.2 damage
      | KAudio codec => emit_audio pes codec stream program_number t.1 damage
      | KSubtitle codec => emit_subtitle pes codec stream program_number t.1 damage
      end
  end.

Definition handle_complete_pes (pes : PesPayload) (damage : option string) (gap : option Z) : M unit :=
  let pid := PesParse.pid pes in
  reset ← gets (fun c => match pid_state c !! pid with Some s => PidState.source_reset_in_pes s | None => false end);
  when reset (discard_au_in_progress pid) ;;
  left_damage ← emit_complete_pes pes damage gap;
  settle_after_pes pid ;;
  match left_damage with
  | Some reason =>
      stream ← gets (fun c => stream_or (program_number_for_pid c pid) pid c);
      queue_nonconformant stream (MalformedPes pid reason)
  | None => mret tt
  end ;;
  when (is_some damage) (discard_au_in_progress pid).

Definition drop_damaged_pes (pes : PesPayload) : M unit :=
  let pid := PesParse.pid pes in
  stream ← gets (fun c => lookup_stream c pid);
  match stream with
  | Some stream => t ← record_pes_timing pes stream; mret tt
  | None => mret tt
  end ;;
  pid_state_alter pid PidState.forget_latm_position ;;
  settle_after_pes pid ;;
  discard_au_in_progress pid.

(** ** Reassembly outcomes *)

(** The two local variables of the outcome loops. *)
Record Marks : Type := { drop_next_complete : option Z; damage_next_complete : option (Z * string) }.

Definition no_marks : Marks := {| drop_next_complete := None; damage_next_complete := None |}.

(** The [Complete] arm, shared with [flush]. *)
Definition complete_outcome (pes : PesPayload) (k : Marks) : M Marks :=
  let pid := PesParse.pid pes in
  if bool_decide (drop_next_complete k = Some pid) then
    drop_damaged_pes pes ;;
    mret {| drop_next_complete := None; damage_next_complete := damage_next_complete k |}
  else
    let damage := match damage_next_complete k with
                  | Some (p, reason) => if p =? pid then Some reason else None
                  | None => None
                  end in
    let k := if is_some damage then {| drop_next_complete := drop_next_complete k; damage_next_complete := None |} else k in
    gap ← (if is_some damage then
             g ← gets (fun c => Reassembler.take_gap (Core.pes c) pid);
             modify (fun c => set_pes c g.2) ;; mret g.1
           else mret None);
    handle_complete_pes pes damage gap ;;
    mret k.

(** What a dropped PES does to its PID. *)
Definition lose_pes (pid : Z) (kind : DiscontinuityKind) : M unit :=
  pid_state_alter pid PidState.forget_latm_position ;;
  discard_au_in_progress pid ;;
  flag_discontinuity pid kind.

(** One turn of the outcome loop of [handle_pes_packet] for a packet on
    [pkt_pid] whose unit-start flag is [settles]. *)
Definition handle_outcome (pkt_pid : Z) (settles : bool) (o : Reassembler.ReassemblyOutcome) (k : Marks) : M Marks :=
  match o with
  | Reassembler.Complete pes => complete_outcome pes k
  | Reassembler.Overflow pid => lose_pes pid (PesOversize pid) ;; mret k
  | Reassembler.OverflowTotal =>
      t ← gets (fun c => Reassembler.take_total_overflow_pids (Core.pes c));
      modify (fun c => set_pes c t.2) ;;
      for_each t.1 (fun pid => lose_pes pid PesTotalOversize) ;;
      mret k
  | Reassembler.ZeroLengthNonVideo pid stream_id =>
      stream ← gets (fun c => stream_or (program_number_for_pid c pid) pid c);
      queue_nonconformant stream (ZeroLengthPesNonVideo pid stream_id) ;;
      discard_au_in_progress pid ;;
      mret k
  | Reassembler.Malformed pid reason =>
      opts ← gets options;
      if Reassembler.is_damage_reason reason && bool_decide (strict opts = Off) then
        mret {| drop_next_complete := drop_next_complete k; damage_next_complete := Some (pid, reason) |}
      else
        attempt (surface_malformed_pes pid reason) (fun r =>
          match r with
          | Panic => panic
          | Err err => when settles (settle_after_pes pkt_pid) ;; discard_au_in_progress pid ;; fail err
          | Ok _ =>
              if Reassembler.is_damage_reason reason then
                mret {| drop_next_complete := Some pid; damage_next_complete := damage_next_complete k |}
              else discard_au_in_progress pid ;; mret k
          end)
  end.

Fixpoint handle_outcomes (pkt_pid : Z) (settles : bool) (old_count i : Z) (outcomes : list Reassembler.ReassemblyOutcome) (k : Marks)
    : M unit :=
  match outcomes with
  | [] => mret tt
  | o :: outcomes =>
      when (settles && (i =? old_count)) (settle_after_pes pkt_pid) ;;
      k ← handle_outcome pkt_pid settles o k;
      handle_outcomes pkt_pid settles old_count (i + 1) outcomes k
  end.

Definition is_video_pid (c : Core) (pid : Z) : bool :=
  match stream_kind c pid with
  | Some (KVideo _) => true
  | Some (PmtClassify.Unknown stream_type) => is_video_stream_type stream_type
  | _ => false
  end.

Definition handle_pes_packet (pkt : TsParser.TsPacket) : M unit :=
  let pid := TsParser.pid pkt in
  let pusi := TsParser.payload_unit_start pkt in
  is_video ← gets (fun c => is_video_pid c pid);
  has ← gets (fun c => Reassembler.has_pid (Core.pes c) pid);
  when (pusi && negb has) (settle_after_pes pid) ;;
  short ← gets (fun c => Reassembler.has_pid (Core.pes c) pid && negb (Reassembler.in_flight_holds_header (Core.pes c) pid));
  when (pusi && short) (discard_au_in_progress pid) ;;
  r ← gets Core.pes;
  p ← lift (Reassembler.push_split r pid (TsParser.payload pkt) pusi (TsParser.random_access_indicator pkt) is_video);
  modify (fun c => set_pes c p.1) ;;
  handle_outcomes pid pusi p.2.2 0 p.2.1 no_marks ;;
  when pusi (settle_after_pes pid).

End order.
End Emit.
