(* ===== verification/Demuxer.v ===== *)
(** The demuxer ([mpegts/demux/demuxer.rs]): routing of one packet, and the
    operations of the API: [feed], [feed_aligned], [next_event], [flush],
    [stats], [stream_codec_stats], [reset_sync] and [reset_stats]. *)
From Stdlib Require Import ZArith Lia Bool String.
From stdpp Require Import base list list_numbers gmap.
From S2P Require Import Prelude.
From S2P Require Import Common.
From S2P Require Import TsPacket.
From S2P Require Import PesDemux.
From S2P Require Import PsiParse.
From S2P Require Import PsiAssembly.
From S2P Require Import PsiWriter.
From S2P Require Import Descriptors.
From S2P Require Import Muxer.
From S2P Require Import Sync.
From S2P Require Import Ingress.
From S2P Require Import DemuxTime.
From S2P Require Import AuReassemble.
From S2P Require Import DemuxTypes.
From S2P Require Import DemuxState.
From S2P Require Import DemuxIngress.
From S2P Require Import DemuxPsi.
From S2P Require Import DemuxPes.

Module Demuxer.
Import Common TsParser DemuxEvent Strict DemuxConfig Core Lookup PacketChecks Emit.

Record Demuxer : Type := { ingress : Ingress.Ingress; core : Core }.

Definition seeded_assemblers : gmap Z PsiAssembler.PsiSectionAssembler := {[ 0x0000 := PsiAssembler.new ]}.

Definition fresh_core (config : DemuxerConfig) : Core :=
  {| options := config; psi_assemblers := seeded_assemblers; programs := ∅; pid_owner := ∅; pmt_pids := ∅;
     pat_identity := None; pid_state := ∅; last_psi_cc_jump := None; pcr := Timestamp.pcr_new;
     timestamps := Timestamp.new;
     pes := Reassembler.new (default DEFAULT_PES_CAP_PER_PID (pes_cap_per_pid config))
                            (default DEFAULT_PES_CAP_TOTAL (pes_cap_total config));
     queue := []; fatal := None; program_maps_seen := 0; pmt_versions_seen := 0; discontinuities_count := 0;
     nonconformant_count := 0; subtitle_streams_seen_count := 0;
     au_reassembler := AuReassembler.with_limits (default DEFAULT_AU_CELL_CAP_PER_PID (au_cell_cap_per_pid config))
                         (default DEFAULT_AU_CELL_CAP_TOTAL (au_cell_cap_total config))
                         (default DEFAULT_AU_CELL_MAX_IN_FLIGHT_PIDS (au_cell_max_in_flight_pids config));
     pat_reassembler := PatReassembler.clear |}.

Definition with_config (config : DemuxerConfig) : Demuxer := {| ingress := Ingress.fresh; core := fresh_core config |}.

Definition new : Demuxer := with_config DemuxerConfig_default.

(** ** One packet *)

Section demuxer.
Context {HO : HashOrder}.

(** The continuity gap of an elementary PID reaches the PES and the access
    unit in flight. *)
Definition mark_gap (pid : Z) : M unit :=
  carried ← gets (fun c => Reassembler.in_flight_holds_header (pes c) pid);
  modify (fun c => set_pes c (Reassembler.mark_damaged (pes c) pid)) ;;
  when (negb carried) (discard_au_in_progress pid).

(** The packet past the header checks. *)
Definition route_packet (pkt : TsPacket) : M unit :=
  let pid := TsParser.pid pkt in
  v ← check_continuity pkt;
  if (v.2 : bool) then mret tt
  else if pid =? 0x0000 then Psi.handle_psi pid (payload pkt) (payload_unit_start pkt) true v.1
  else
    is_pmt ← gets (fun c => bool_decide (pid ∈ pmt_pids c));
    if (is_pmt : bool) then Psi.handle_psi pid (payload pkt) (payload_unit_start pkt) false v.1
    else
      known ← gets (fun c => is_some (stream_kind c pid));
      if has_payload pkt && known then
        when v.1 (mark_gap pid) ;;
        handle_pes_packet pkt
      else mret tt.

Definition process_packet (buf : list Z) : M unit :=
  match parse_ts_packet buf with
  | Panic => panic
  | Err BadAdaptationLength =>
      pid ← lift (let! b1 := idx buf 1 in let! b2 := idx buf 2 in Ok (from_be16 (Z.land b1 0x1F) b2));
      stream ← gets (stream_or 0 pid);
      queue_nonconformant stream (AdaptationFieldMalformed pid BadLengthForControl)
  | Err _ => mret tt
  | Ok pkt =>
      let pid := TsParser.pid pkt in
      if transport_error_indicator pkt then
        stream ← gets (stream_or 0 pid); queue_nonconformant stream (TransportErrorPacket pid)
      else
        check_pcr pkt ;;
        if negb (transport_scrambling_control pkt =? 0) then
          stream ← gets (stream_or 0 pid);
          queue_nonconformant stream (UnsupportedScrambling pid (transport_scrambling_control pkt))
        else
          match adaptation_malformed pkt with
          | Some kind => stream ← gets (stream_or 0 pid); queue_nonconformant stream (AdaptationFieldMalformed pid kind)
          | None => mret tt
          end ;;
          route_packet pkt
  end.

Definition handle_process_packet_result (r : res PesParse.DemuxError unit) : M unit :=
  match r with
  | Err (PesParse.MalformedPes pid reason) => surface_malformed_pes pid reason
  | r => result r
  end.

(** [format!("{fatal:?}")]: the text of a rejected issue. *)
Context (debug : NonConformantIssue -> string).

(** What [feed] and [feed_aligned] do with one packet: process it, apply the
    lenient or strict policy to the result, and report the strict verdict. *)
Definition feed_packet (c : Core) (buf : list Z) : Core * res PesParse.DemuxError unit :=
  let (c, result) := process_packet buf c in
  match handle_process_packet_result result c with
  | (c, Panic) => (c, Panic)
  | (c, Err e) => (set_fatal c None, Err e)
  | (c, Ok _) =>
      match fatal c with
      | Some issue => (set_fatal c None, Err (PesParse.StrictRejection (debug issue)))
      | None => (c, Ok tt)
      end
  end.

(** ** The API *)

(** [try_reserve] says whether the allocator grants the bytes. *)
Definition feed (try_reserve : bool) (d : Demuxer) (input : list Z) : Demuxer * res PesParse.DemuxError unit :=
  let cap := default Ingress.MAX_SYNC_BUF_BYTES (sync_buf_cap (options (core d))) in
  match Ingress.feed feed_packet cap try_reserve (ingress d) (core d) input with
  | (g, c, r) => ({| ingress := g; core := c |}, r)
  end.

Definition feed_aligned (d : Demuxer) (pkt : list Z) : Demuxer * res PesParse.DemuxError unit :=
  match idx pkt 0 with
  | Panic => (d, Panic)
  | Err e => (d, Err e)
  | Ok b0 =>
      if negb (b0 =? TS_SYNC_BYTE) then (d, Err (PesParse.Unrecoverable 0))
      else
        let g := Ingress.set_sync (ingress d) 0 true false in
        let g := if Ingress.sync_consumed g <? zlen (Ingress.sync_buf g) then Ingress.set_buf g [] 0 else g in
        let (c, r) := feed_packet (core d) pkt in
        ({| ingress := g; core := c |}, r)
  end.

Definition next_event (d : Demuxer) : option DemuxEvent * Demuxer :=
  match queue (core d) with
  | [] => (None, d)
  | e :: q => (Some e, {| ingress := ingress d; core := set_queue (core d) q |})
  end.

(** One turn of the outcome loop of [flush]. *)
Definition flush_outcome (o : Reassembler.ReassemblyOutcome) (k : Marks) : M Marks :=
  match o with
  | Reassembler.Complete pes => complete_outcome pes k
  | Reassembler.Malformed pid reason =>
      if Reassembler.is_damage_reason reason then
        opts ← gets options;
        if bool_decide (strict opts = Off) then
          mret {| drop_next_complete := drop_next_complete k; damage_next_complete := Some (pid, reason) |}
        else
          stream ← gets (fun c => stream_or (program_number_for_pid c pid) pid c);
          queue_nonconformant stream (MalformedPes pid reason) ;;
          mret {| drop_next_complete := Some pid; damage_next_complete := damage_next_complete k |}
      else mret k
  | _ => mret k
  end.

Fixpoint flush_outcomes (outcomes : list Reassembler.ReassemblyOutcome) (k : Marks) : M unit :=
  match outcomes with
  | [] => mret tt
  | o :: outcomes => k ← flush_outcome o k; flush_outcomes outcomes k
  end.

Definition flush_core : M unit :=
  r ← gets pes;
  p ← lift (Reassembler.drain_partial_outcomes r);
  modify (fun c => set_pes c p.1) ;;
  flush_outcomes p.2 no_marks ;;
  modify (fun c => set_fatal c None).

Definition flush (d : Demuxer) : Demuxer * res PesParse.DemuxError unit :=
  let (c, r) := flush_core (core d) in ({| ingress := ingress d; core := c |}, r).

End demuxer.

Inductive StreamCodecStats : Type :=
| StatsUnknown
| StatsVideo (nals_or_obus random_access_aus : Z)
| StatsKlv (records : Z)
| StatsAudio (frames : Z).

Definition to_public (k : MuxState.StreamCodecCounters) : StreamCodecStats :=
  match MuxState.kind k with
  | MuxState.CodecVideo => StatsVideo (MuxState.nals_or_obus k) (MuxState.random_access_aus k)
  | MuxState.CodecKlv => StatsKlv (MuxState.records k)
  | MuxState.CodecAudio => StatsAudio (MuxState.frame_count k)
  end.

Definition stream_codec_stats (d : Demuxer) (pid : Z) : option StreamCodecStats :=
  state ← pid_state (core d) !! pid;
  match PidState.codec state with
  | Some k => Some (to_public k)
  | None => if is_some (PidState.stats state) then Some StatsUnknown else None
  end.

(** [DemuxerStats] *)
Record DemuxerStats : Type := {
  st_program_maps_seen : Z;
  st_pmt_versions_seen : Z;
  st_discontinuities : Z;
  st_nonconformant : Z;
  st_programs_seen : Z;
  st_subtitle_streams_seen : Z;
  st_unwrap_reanchors : Z;
  st_per_stream : gmap Z MuxState.StreamStats;
}.

Definition stats (d : Demuxer) : DemuxerStats :=
  let c := core d in
  {| st_program_maps_seen := program_maps_seen c; st_pmt_versions_seen := pmt_versions_seen c;
     st_discontinuities := discontinuities_count c; st_nonconformant := nonconformant_count c;
     st_programs_seen := as_u32 (Z.of_nat (size (programs c)));
     st_subtitle_streams_seen := subtitle_streams_seen_count c;
     st_unwrap_reanchors := Timestamp.reanchors (timestamps c);
     st_per_stream := omap PidState.stats (pid_state c) |}.

(** [values_mut()] with [f], then [retain(|_, s| !s.is_vacant())]. *)
Definition reset_pids (f : PidState.PidState -> PidState.PidState) (m : gmap Z PidState.PidState) : gmap Z PidState.PidState :=
  omap (fun s => if PidState.is_vacant (f s) then None else Some (f s)) m.

Definition reset_sync_core (c : Core) : Core :=
  {| options := options c; psi_assemblers := seeded_assemblers; programs := ∅; pid_owner := ∅; pmt_pids := ∅;
     pat_identity := None; pid_state := reset_pids PidState.reset_sync (pid_state c); last_psi_cc_jump := None;
     pcr := Timestamp.pcr_clear (pcr c); timestamps := Timestamp.clear (timestamps c);
     pes := Reassembler.new (default DEFAULT_PES_CAP_PER_PID (pes_cap_per_pid (options c)))
                            (default DEFAULT_PES_CAP_TOTAL (pes_cap_total (options c)));
     queue := []; fatal := None; program_maps_seen := program_maps_seen c; pmt_versions_seen := pmt_versions_seen c;
     discontinuities_count := discontinuities_count c; nonconformant_count := nonconformant_count c;
     subtitle_streams_seen_count := subtitle_streams_seen_count c;
     au_reassembler := AuReassembler.reset_all (au_reassembler c); pat_reassembler := PatReassembler.clear |}.

Definition reset_sync (d : Demuxer) : Demuxer := {| ingress := Ingress.fresh; core := reset_sync_core (core d) |}.

Definition reset_stats_core (c : Core) : Core :=
  let c := set_pmt_versions_seen (set_program_maps_seen c 0) 0 in
  let c := set_nonconformant_count (set_discontinuities_count c 0) 0 in
  let c := set_timestamps c (Timestamp.reset_reanchors (timestamps c)) in
  let c := set_subtitle_streams_seen_count c 0 in
  set_pid_state c (reset_pids PidState.reset_stats (pid_state c)).

Definition reset_stats (d : Demuxer) : Demuxer := {| ingress := ingress d; core := reset_stats_core (core d) |}.

End Demuxer.
