(* ===== verification/DemuxLedger.v ===== *)
(** The event ledger: whatever the demuxer does, its queue grows by events at
    the end, its counters grow by exactly those events, and the strict verdict is
    the first of them the configured mode rejects. *)
From Stdlib Require Import ZArith Lia Bool String.
From stdpp Require Import base list list_numbers gmap.
From S2P Require Import Prelude.
From S2P Require Import Common.
From S2P Require Import TsPacket.
From S2P Require Import PesDemux.
From S2P Require Import PsiParse.
From S2P Require Import PsiAssembly.
From S2P Require Import PsiWriter.
From S2P Require Import Descriptors.
From S2P Require Import Muxer.
From S2P Require Import Ingress.
From S2P Require Import DemuxTime.
From S2P Require Import AuReassemble.
From S2P Require Import DemuxTypes.
From S2P Require Import DemuxState.
From S2P Require Import DemuxIngress.
From S2P Require Import DemuxPsi.
From S2P Require Import DemuxPayload.
From S2P Require Import DemuxPes.
From S2P Require Import Demuxer.

Module Ledger.
Import DemuxEvent Strict DemuxConfig Core Lookup PacketChecks Emit Demuxer.

Definition is_nonconformant (e : DemuxEvent) : bool := match e with EvNonConformant _ _ => true | _ => false end.
Definition is_discontinuity (e : DemuxEvent) : bool := match e with EvDiscontinuity _ _ => true | _ => false end.
Definition is_program_map (e : DemuxEvent) : bool := match e with EvProgramMap _ => true | _ => false end.

Definition tally (p : DemuxEvent -> bool) (es : list DemuxEvent) : Z := zlen (List.filter p es).

(** The first issue among the events that the mode rejects. *)
Fixpoint verdict (mode : StrictMode) (es : list DemuxEvent) : option NonConformantIssue :=
  match es with
  | [] => None
  | EvNonConformant _ i :: es => if rejects mode i then Some i else verdict mode es
  | _ :: es => verdict mode es
  end.

(** A 64-bit counter raised by [k]. *)
Definition raised (n k n' : Z) : Prop := 0 <= n < 2 ^ 64 -> n' = as_u64 (n + k).

(** The events [es] were queued and counted. *)
Record posted (c c' : Core) (es : list DemuxEvent) : Prop := {
  e_options : options c' = options c;
  e_queue : queue c' = queue c ++ es;
  e_nonconformant : raised (nonconformant_count c) (tally is_nonconformant es) (nonconformant_count c');
  e_discontinuities : raised (discontinuities_count c) (tally is_discontinuity es) (discontinuities_count c');
  e_program_maps : raised (program_maps_seen c) (tally is_program_map es) (program_maps_seen c');
  e_pmt_versions : raised (pmt_versions_seen c) (tally is_program_map es) (pmt_versions_seen c');
}.

Record entry (c c' : Core) (es : list DemuxEvent) : Prop := {
  e_posted : posted c c' es;
  e_fatal : fatal c' = match fatal c with Some i => Some i | None => verdict (strict (options c)) es end;
}.

(** The only error a method returns: a malformed PES the mode rejects. *)
Definition err_ok {A} (mode : StrictMode) (r : res PesParse.DemuxError A) : Prop :=
  match r with
  | Err e => exists pid reason, e = PesParse.MalformedPes pid reason /\ rejects mode (MalformedPes pid reason) = true
  | _ => True
  end.

Definition logs (mode : StrictMode) {A} (m : M A) : Prop :=
  forall c, strict (options c) = mode -> exists es, entry c (m c).1 es /\ err_ok mode (m c).2.

Lemma tally_app p a b : tally p (a ++ b) = tally p a + tally p b.
Proof. unfold tally. rewrite List.filter_app. apply zlen_app. Qed.

Lemma tally_nonneg p a : 0 <= tally p a.
Proof. apply zlen_nonneg. Qed.

Lemma verdict_app mode a b :
  verdict mode (a ++ b) = match verdict mode a with Some i => Some i | None => verdict mode b end.
Proof. induction a as [|[] a IH]; cbn; try done. by destruct (rejects mode issue). Qed.

Lemma raised_0 n : raised n 0 n.
Proof. intros ?. unfold as_u64. rewrite Z.add_0_r, Z.mod_small; lia. Qed.

Lemma raised_trans n k n' k' n'' : raised n k n' -> raised n' k' n'' -> raised n (k + k') n''.
Proof.
  intros H1 H2 Hn. specialize (H1 Hn). subst n'. rewrite H2.
  - unfold as_u64. by rewrite Z.add_mod_idemp_l, Z.add_assoc by lia.
  - unfold as_u64. apply Z.mod_pos_bound. lia.
Qed.

Lemma posted_refl c : posted c c [].
Proof. split; try done; try apply raised_0. by rewrite app_nil_r. Qed.

Lemma posted_trans c c' c'' es es' : posted c c' es -> posted c' c'' es' -> posted c c'' (es ++ es').
Proof.
  intros [] []. split; try rewrite tally_app; try (by eapply raised_trans); [congruence|].
  rewrite e_queue1, e_queue0. by rewrite app_assoc.
Qed.

Lemma entry_refl c : entry c c [].
Proof. split; [apply posted_refl|by destruct (fatal c)]. Qed.

Lemma entry_trans c c' c'' es es' : entry c c' es -> entry c' c'' es' -> entry c c'' (es ++ es').
Proof.
  intros [P Hf] [P' Hf']. split; [by eapply posted_trans|].
  rewrite Hf', Hf, (e_options _ _ _ P), verdict_app. by destruct (fatal c), (verdict (strict (options c)) es).
Qed.

(** An update that touches nothing the ledger records. *)
Definition quiet (f : Core -> Core) : Prop := forall c, entry c (f c) [].

Create HintDb ledger.

Section logs.
Context (mode : StrictMode) {HO : HashOrder}.
#[local] Abbreviation logs := (logs mode).

Lemma logs_ret {A} (a : A) : logs (mret a).
Proof. intros c _. exists []. split; [apply entry_refl|done]. Qed.

Lemma logs_bind {A B} (m : M A) (k : A -> M B) : logs m -> (forall a, logs (k a)) -> logs (m ≫= k).
Proof.
  intros Hm Hk c Hc. destruct (Hm c Hc) as (es & He & Hr). unfold mbind, M_bind.
  destruct (m c) as [c' [a|e|]]; cbn in *; [|by exists es..].
  destruct (Hk a c') as (es' & He' & Hr'); [by rewrite (e_options _ _ _ (e_posted _ _ _ He))|].
  exists (es ++ es'). split; [by eapply entry_trans|done].
Qed.

Lemma logs_gets {A} (f : Core -> A) : logs (gets f).
Proof. intros c _. exists []. split; [apply entry_refl|done]. Qed.

Lemma logs_result {A} (r : res PesParse.DemuxError A) : err_ok mode r -> logs (result r).
Proof. intros Hr c _. exists []. split; [apply entry_refl|done]. Qed.

Lemma logs_lift {A} (r : res Empty_set A) : logs (lift r).
Proof. apply logs_result. by destruct r as [|[]|]. Qed.

Lemma logs_panic {A} : logs (panic (A:=A)).
Proof. by apply logs_result. Qed.

Lemma logs_quiet f : quiet f -> logs (modify f).
Proof. intros Hf c _. exists []. split; [apply Hf|done]. Qed.

Lemma logs_when b m : logs m -> logs (when b m).
Proof. destruct b; [done|intros _; apply logs_ret]. Qed.

Lemma logs_attempt {A B} (m : M A) (k : res PesParse.DemuxError A -> M B) :
  logs m -> (forall r, err_ok mode r -> logs (k r)) -> logs (attempt m k).
Proof.
  intros Hm Hk c Hc. unfold attempt. destruct (Hm c Hc) as (es & He & Hr). destruct (m c) as [c' r]. cbn in *.
  destruct (Hk r Hr c') as (es' & He' & Hr'); [by rewrite (e_options _ _ _ (e_posted _ _ _ He))|].
  exists (es ++ es'). split; [by eapply entry_trans|done].
Qed.

Lemma logs_for_each {A} (l : list A) f : (forall a, logs (f a)) -> logs (for_each l f).
Proof. intros Hf. induction l as [|a l IH]; cbn; [apply logs_ret|]. apply logs_bind; auto. Qed.

Lemma quiet_set f : (forall c, options (f c) = options c /\ queue (f c) = queue c /\
    nonconformant_count (f c) = nonconformant_count c /\ discontinuities_count (f c) = discontinuities_count c /\
    program_maps_seen (f c) = program_maps_seen c /\ pmt_versions_seen (f c) = pmt_versions_seen c /\ fatal (f c) = fatal c) ->
  quiet f.
Proof.
  intros H c. destruct (H c) as (H1 & H2 & H3 & H4 & H5 & H6 & H7). destruct (entry_refl c) as [[] ?].
  split; [split|]; try (rewrite ?H3, ?H4, ?H5, ?H6; done); by rewrite ?H1, ?H2, ?H7.
Qed.

Lemma logs_pid_state_mut pid f : logs (pid_state_mut pid f).
Proof. apply logs_quiet, quiet_set. intros c. by split_and!. Qed.

Lemma logs_pid_state_alter pid f : logs (pid_state_alter pid f).
Proof. apply logs_quiet, quiet_set. intros c. by split_and!. Qed.

Lemma logs_nonconformant stream issue : logs (queue_nonconformant stream issue).
Proof.
  intros c _. exists [EvNonConformant stream issue]. split; [|done]. unfold queue_nonconformant, modify. cbn.
  destruct (posted_refl c). destruct (rejects _ _) eqn:Hr, (fatal c) eqn:Hf; cbn in *;
  (split; [split|]; cbn; try (by intros ?); try done; by rewrite ?Hf, ?Hr).
Qed.

Lemma logs_sample stream pts dts payload : logs (push_event (EvSample stream pts dts payload)).
Proof. intros c _. exists [EvSample stream pts dts payload]. split; [|done]. destruct (posted_refl c). split; [by split|]. cbn. by destruct (fatal c). Qed.

Lemma logs_metadata stream pts kind payload : logs (push_event (EvMetadata stream pts kind payload)).
Proof. intros c _. exists [EvMetadata stream pts kind payload]. split; [|done]. destruct (posted_refl c). split; [by split|]. cbn. by destruct (fatal c). Qed.

Lemma logs_discontinuity stream kind : logs (record_discontinuity stream kind).
Proof.
  intros c _. exists [EvDiscontinuity stream kind]. split; [|done]. destruct (posted_refl c).
  split; [split|]; first [done|by intros ?|change (fatal c = match fatal c with Some i => Some i | None => None end); by destruct (fatal c)].
Qed.

(** The end of [adopt_pmt]. *)
Lemma logs_program_map m :
  logs (push_event (EvProgramMap m) ;;
        modify (fun c => set_program_maps_seen c (as_u64 (program_maps_seen c + 1))) ;;
        modify (fun c => set_pmt_versions_seen c (as_u64 (pmt_versions_seen c + 1)))).
Proof. intros c _. exists [EvProgramMap m]. split; [|done]. destruct (posted_refl c).
  split; [split|]; first [done|by intros ?|change (fatal c = match fatal c with Some i => Some i | None => None end); by destruct (fatal c)].
Qed.

#[local] Hint Resolve logs_ret logs_gets logs_result logs_lift logs_panic logs_when logs_pid_state_mut logs_pid_state_alter
  logs_nonconformant logs_sample logs_metadata logs_discontinuity logs_program_map : ledger.

Lemma logs_surface pid reason : logs (surface_malformed_pes pid reason).
Proof.
  intros c Hc. unfold surface_malformed_pes, gets, mbind, M_bind. rewrite Hc.
  destruct (rejects mode _) eqn:Hr.
  - exists []. split; [apply entry_refl|]. cbn. eauto.
  - exact (logs_nonconformant _ _ c Hc).
Qed.
#[local] Hint Resolve logs_surface : ledger.

(** One step through a method: the lemmas above, then its own structure. *)
#[local] Ltac logs_step :=
  match goal with
  | |- logs (push_event (EvProgramMap _) ;; _) => apply logs_program_map
  | |- logs (mbind _ _) => apply logs_bind; [|intros ?]
  | |- logs (attempt _ _) => apply logs_attempt; [|intros ? ?]
  | |- logs (fail _) => by apply logs_result
  | |- logs (for_each _ _) => apply logs_for_each; intros ?
  | |- logs (when _ _) => apply logs_when
  | |- logs (modify _) => apply logs_quiet, quiet_set; intros ?; by split_and!
  | |- logs (match ?x with _ => _ end) => destruct x
  | |- logs (let _ := _ in _) => cbv zeta
  | |- logs _ => solve [eauto with ledger]
  end.
#[local] Ltac logs_all := repeat logs_step.

Lemma logs_set_once pid flag set : logs (set_once pid flag set).
Proof. unfold set_once. logs_all. Qed.
Lemma logs_record_item stream prog n f : logs (record_item stream prog n f).
Proof. unfold record_item, stream_stats_entry. logs_all. Qed.
Lemma logs_unwrap pid raw : logs (unwrap_pts pid raw).
Proof. unfold unwrap_pts. logs_all. Qed.
Lemma logs_remove_pes pid : logs (remove_pes pid).
Proof. unfold remove_pes. logs_all. Qed.
Lemma logs_reset_au pid : logs (reset_au pid).
Proof. unfold reset_au. logs_all. Qed.
Lemma logs_retire_pcr : logs retire_undeclared_pcr_history.
Proof. unfold retire_undeclared_pcr_history. logs_all. Qed.
#[local] Hint Resolve logs_set_once logs_record_item logs_unwrap logs_remove_pes logs_reset_au logs_retire_pcr : ledger.

Lemma logs_diff diff : logs (apply_topology_diff diff).
Proof. unfold apply_topology_diff. logs_all. Qed.
Lemma logs_discard pid : logs (discard_au_in_progress pid).
Proof. unfold discard_au_in_progress. logs_all. Qed.
#[local] Hint Resolve logs_diff logs_discard : ledger.
Lemma logs_settle pid : logs (settle_after_pes pid).
Proof. unfold settle_after_pes. logs_all. Qed.
Lemma logs_flag pid kind : logs (flag_discontinuity pid kind).
Proof. unfold flag_discontinuity. logs_all. Qed.
#[local] Hint Resolve logs_settle logs_flag : ledger.
Lemma logs_jump pid a b : logs (report_jump pid a b).
Proof. unfold report_jump. logs_all. Qed.
Lemma logs_seed pkt j : logs (seed_continuity pkt j).
Proof. unfold seed_continuity. logs_all. Qed.
#[local] Hint Resolve logs_jump logs_seed : ledger.
Lemma logs_continuity pkt : logs (check_continuity pkt).
Proof. unfold check_continuity. logs_all. Qed.


Lemma logs_forget pid : logs (forget_program_pts pid).
Proof. unfold forget_program_pts. logs_all. Qed.
#[local] Hint Resolve logs_forget : ledger.
Lemma logs_pcr pkt : logs (check_pcr pkt).
Proof. unfold check_pcr. logs_all. Qed.


Lemma logs_psi_cc pid : logs (Psi.queue_psi_cc_discontinuity pid).
Proof. unfold Psi.queue_psi_cc_discontinuity. logs_all. Qed.
Lemma logs_psi_syntax pid t s : logs (Psi.check_psi_syntax pid t s).
Proof. unfold Psi.check_psi_syntax. logs_all. Qed.
Lemma logs_psi_malformed pid t n : logs (Psi.queue_psi_malformed pid t n).
Proof. unfold Psi.queue_psi_malformed. logs_all. Qed.
Lemma logs_remove_programs l : forall d, logs (Psi.remove_programs l d).
Proof. induction l; cbn; intros; logs_all. Qed.
#[local] Hint Resolve logs_psi_cc logs_psi_syntax logs_psi_malformed logs_remove_programs : ledger.

Lemma logs_pat_programs es b : logs (Psi.apply_pat_programs es b).
Proof. unfold Psi.apply_pat_programs. logs_all. Qed.
#[local] Hint Resolve logs_pat_programs : ledger.
Lemma logs_adopt_pat t v es : logs (Psi.adopt_pat t v es).
Proof. unfold Psi.adopt_pat. logs_all. Qed.
#[local] Hint Resolve logs_adopt_pat : ledger.
Lemma logs_pat_section s : logs (Psi.handle_pat_section s).
Proof. unfold Psi.handle_pat_section. logs_all. Qed.

Lemma logs_klv_links pmt n v l : logs (Psi.klv_links_of pmt n v l).
Proof. induction l; cbn; unfold Psi.klv_link; logs_all. Qed.
#[local] Hint Resolve logs_pat_section logs_klv_links : ledger.
Lemma logs_emit_collected n k : logs (Psi.emit_collected n k).
Proof. unfold Psi.emit_collected, Psi.queue_once. logs_all. Qed.
Lemma logs_update_tracker pmt n l : logs (Psi.update_tracker pmt n l).
Proof. unfold Psi.update_tracker. logs_all. Qed.
#[local] Hint Resolve logs_emit_collected logs_update_tracker : ledger.
Lemma logs_adopt_pmt pid pmt : logs (Psi.adopt_pmt pid pmt).
Proof. unfold Psi.adopt_pmt, Psi.build_program_map. logs_all. Qed.
#[local] Hint Resolve logs_adopt_pmt : ledger.
Lemma logs_pmt_section pid s : logs (Psi.handle_pmt_section pid s).
Proof. unfold Psi.handle_pmt_section. logs_all. Qed.
#[local] Hint Resolve logs_pmt_section : ledger.
Lemma logs_assemble pid b f : logs (Psi.assemble pid b f).
Proof. unfold Psi.assemble, Psi.dispatch_psi_result. logs_all. Qed.
#[local] Hint Resolve logs_assemble : ledger.
Lemma logs_drain n pid b : logs (Psi.drain_sections n pid b).
Proof. induction n; cbn; logs_all. Qed.
#[local] Hint Resolve logs_drain : ledger.
Lemma logs_psi pid p u b j : logs (Psi.handle_psi pid p u b j).
Proof. unfold Psi.handle_psi, Psi.after_section, Psi.reset_assembler. logs_all. Qed.
Lemma logs_mismatch pid : logs (Psi.klv_mismatch_insert pid).
Proof. unfold Psi.klv_mismatch_insert. logs_all. Qed.

Lemma logs_timing pes stream : logs (record_pes_timing pes stream).
Proof. unfold record_pes_timing, time_pts_less_run, close_pts_less_run, check_pts_order, unwrap_pair. logs_all. Qed.
Lemma logs_pes_event d stream e : logs (push_event e) -> logs (push_pes_event d stream e).
Proof. intros. unfold push_pes_event. logs_all. Qed.
Lemma logs_raise stream i : logs (raise stream i).
Proof. unfold raise. logs_all. Qed.
#[local] Hint Resolve logs_psi logs_mismatch logs_timing logs_pes_event logs_raise : ledger.
Lemma logs_latm pes d stream : logs (check_latm_framing pes d stream).
Proof. unfold check_latm_framing, raise_latm_framing. logs_all. Qed.
Lemma logs_emit_metadata stream n t k b d : logs (emit_metadata stream n t k b d).
Proof. unfold emit_metadata, count_klv. logs_all. Qed.
#[local] Hint Resolve logs_latm logs_emit_metadata : ledger.
Lemma logs_process_cells n pid stream p t r h i : forall d, logs (process_cells n pid stream p t r h i d).
Proof. induction n; cbn; unfold set_au; intros; logs_all. Qed.
#[local] Hint Resolve logs_process_cells : ledger.
Lemma logs_walk_cells pid stream p t r cells : forall g d, logs (walk_cells pid stream p t r cells g d).
Proof. induction cells as [|[[[??]?]|] cells IH]; cbn [walk_cells]; unfold process_cell; intros; logs_all. Qed.
#[local] Hint Resolve logs_walk_cells : ledger.
Lemma logs_surfaced pes codec stream : logs (surfaced_payload pes codec stream).
Proof. unfold surfaced_payload. logs_all. Qed.
#[local] Hint Resolve logs_surfaced : ledger.
Lemma logs_emit pes d g : logs (emit_complete_pes pes d g).
Proof.
  unfold emit_complete_pes, emit_video, emit_klv, emit_unknown, emit_audio, emit_subtitle. logs_all.
Qed.
#[local] Hint Resolve logs_emit : ledger.
Lemma logs_complete pes k : logs (complete_outcome pes k).
Proof. unfold complete_outcome, drop_damaged_pes, handle_complete_pes. logs_all. Qed.
#[local] Hint Resolve logs_complete : ledger.
Lemma logs_lose pid k : logs (lose_pes pid k).
Proof. unfold lose_pes. logs_all. Qed.
#[local] Hint Resolve logs_lose : ledger.

Lemma logs_handle_outcome pid s o k : logs (handle_outcome pid s o k).
Proof. unfold handle_outcome. logs_all. Qed.
#[local] Hint Resolve logs_handle_outcome : ledger.
Lemma logs_outcomes pid s n os : forall i k, logs (handle_outcomes pid s n i os k).
Proof. induction os; cbn; intros; logs_all. Qed.
#[local] Hint Resolve logs_outcomes logs_continuity logs_pcr : ledger.
Lemma logs_pes_packet pkt : logs (handle_pes_packet pkt).
Proof. unfold handle_pes_packet. logs_all. Qed.
#[local] Hint Resolve logs_pes_packet : ledger.
Lemma logs_process_packet buf : logs (process_packet buf).
Proof. unfold process_packet, route_packet, mark_gap. logs_all. Qed.
Lemma logs_policy r : err_ok mode r -> logs (handle_process_packet_result r).
Proof. intros Hr. unfold handle_process_packet_result. logs_all. Qed.
Lemma logs_flush_outcomes os : forall k, logs (flush_outcomes os k).
Proof. induction os; cbn; unfold flush_outcome; intros; logs_all. Qed.

End logs.
End Ledger.

(** * Sequences of API calls *)
Module DemuxApi.
Import DemuxEvent Demuxer.

Inductive op : Type :=
| OpFeed (try_reserve : bool) (input : list Z)
| OpAligned (pkt : list Z)
| OpNext
| OpFlush
| OpResetSync
| OpResetStats.

Section api.
Context {HO : HashOrder} (debug : NonConformantIssue -> string).

(** One call: the demuxer it leaves, the events that left the queue (handed to
    the caller, or discarded by [reset_sync]) and the result. *)
Definition exec (d : Demuxer) (o : op) : Demuxer * list DemuxEvent * res PesParse.DemuxError unit :=
  match o with
  | OpFeed try_reserve input => let (d, r) := feed debug try_reserve d input in (d, [], r)
  | OpAligned pkt => let (d, r) := feed_aligned debug d pkt in (d, [], r)
  | OpNext => match next_event d with (Some e, d) => (d, [e], Ok tt) | (None, d) => (d, [], Ok tt) end
  | OpFlush => let (d, r) := flush d in (d, [], r)
  | OpResetSync => (reset_sync d, Core.queue (core d), Ok tt)
  | OpResetStats => (reset_stats d, [], Ok tt)
  end.

(** A caller goes on after an error. *)
Fixpoint run (d : Demuxer) (os : list op) : Demuxer * list DemuxEvent * list (res PesParse.DemuxError unit) :=
  match os with
  | [] => (d, [], [])
  | o :: os =>
      let '(d, out, r) := exec d o in
      let '(d, outs, rs) := run d os in
      (d, out ++ outs, r :: rs)
  end.

End api.
End DemuxApi.

Module LedgerTheorems.
Import DemuxEvent Strict DemuxConfig Core Lookup PacketChecks Emit Demuxer Ledger DemuxApi.

(** Whatever relation each packet keeps to the state before it, a whole feed
    keeps. *)
Section feed.
Context {C : Type} (process : C -> list Z -> C * res PesParse.DemuxError unit) (R : C -> C -> Prop).
Context (R_refl : forall c, R c c) (R_trans : forall a b c, R a b -> R b c -> R a c).
Context (R_process : forall c p, R c (process c p).1).

Lemma consume_preorder g c i k : (forall g, R c (k g).1.2) -> R c (Ingress.consume g c i k).1.2.
Proof.
  intros Hk. unfold Ingress.consume. destruct (Ingress.compact_sync_buf _) as [g'|[]|]; cbn; auto.
  destruct (_ <? _); auto.
Qed.

Lemma feed_loop_preorder fuel : forall g c b, R c (Ingress.feed_loop process fuel g c b).1.2.
Proof.
  induction fuel as [|fuel IH]; intros g c b; cbn [Ingress.feed_loop]; [auto|].
  destruct (_ <? _); [auto|]. destruct (_ <? _).
  { unfold Ingress.compact_return. by destruct (Ingress.compact_sync_buf g). }
  destruct (get _ 0) as [b0|]; [|auto]. destruct (negb _); [apply consume_preorder; auto|].
  destruct (if b then _ else _) as [[]|]; [|apply consume_preorder; auto|].
  - destruct (Ingress.compact_sync_buf _) as [g'| |]; auto. pose proof (R_process c (ztake Common.TS_PACKET_SIZE (zdrop (Ingress.sync_consumed g) (Ingress.sync_buf g)))) as Hp.
    destruct (process c _) as [c' []]; cbn in *; eauto.
  - unfold Ingress.compact_return. by destruct (Ingress.compact_sync_buf g).
Qed.

Lemma feed_preorder cap b g c x : R c (Ingress.feed process cap b g c x).1.2.
Proof.
  unfold Ingress.feed. cbv zeta. destruct (_ || _); [apply R_refl|]. destruct (negb b); [apply R_refl|].
  apply feed_loop_preorder.
Qed.
End feed.

Lemma posted_fatal c c' es i : posted c c' es -> posted c (set_fatal c' i) es.
Proof. by intros []. Qed.

Section api.
Context {HO : HashOrder} (debug : NonConformantIssue -> string).

(** The result of one packet against the events it queued. *)
Definition judged (mode : StrictMode) (es : list DemuxEvent) (r : res PesParse.DemuxError unit) : Prop :=
  match r with
  | Ok _ => verdict mode es = None
  | Err e => (exists i, verdict mode es = Some i /\ e = PesParse.StrictRejection (debug i)) \/
             (exists pid reason, e = PesParse.MalformedPes pid reason /\ rejects mode (MalformedPes pid reason) = true)
  | Panic => True
  end.

Lemma feed_packet_judged c buf : fatal c = None ->
  exists es, (feed_packet debug c buf).2 <> Panic ->
    fatal (feed_packet debug c buf).1 = None /\ posted c (feed_packet debug c buf).1 es /\
    judged (strict (options c)) es (feed_packet debug c buf).2.
Proof.
  intros Hf. unfold feed_packet. destruct (logs_process_packet _ buf c eq_refl) as (es & He & Hr).
  destruct (process_packet buf c) as [c1 r1]. cbn in *.
  destruct (logs_policy _ r1 Hr c1) as (es2 & He2 & Hr2); [by rewrite (e_options _ _ _ (e_posted _ _ _ He))|].
  destruct (handle_process_packet_result r1 c1) as [c2 r2]. cbn in *.
  pose proof (entry_trans _ _ _ _ _ He He2) as [Hp Hft]. rewrite Hf in Hft. exists (es ++ es2). intros Hn.
  destruct r2 as [u|e|]; [|split_and!; [done|by apply posted_fatal|right; exact Hr2]|done].
  rewrite Hft in *. destruct (verdict _ _) eqn:Hv; cbn.
  - split_and!; [done|by apply posted_fatal|left; eauto].
  - split_and!; done.
Qed.

(** Some events were queued and counted. *)
Definition books (c c' : Core) : Prop := exists es, posted c c' es.

Lemma books_refl c : books c c.
Proof. exists []. apply posted_refl. Qed.

Lemma books_trans a b c : books a b -> books b c -> books a c.
Proof. intros [es He] [es' He']. exists (es ++ es'). by eapply posted_trans. Qed.

Lemma feed_packet_books c buf : books c (feed_packet debug c buf).1.
Proof.
  unfold feed_packet. destruct (logs_process_packet _ buf c eq_refl) as (es & He & Hr).
  destruct (process_packet buf c) as [c1 r1]. cbn in *.
  destruct (logs_policy _ r1 Hr c1) as (es2 & He2 & _); [by rewrite (e_options _ _ _ (e_posted _ _ _ He))|].
  destruct (handle_process_packet_result r1 c1) as [c2 r2]. cbn in *.
  pose proof (e_posted _ _ _ (entry_trans _ _ _ _ _ He He2)) as Hp. exists (es ++ es2).
  destruct r2; cbn; [destruct (fatal c2); cbn|..]; try done; by apply posted_fatal.
Qed.

Lemma feed_books b d x : books (core d) (core (feed debug b d x).1).
Proof.
  unfold feed. pose proof (feed_preorder (feed_packet debug) books books_refl books_trans feed_packet_books
    (default Ingress.MAX_SYNC_BUF_BYTES (sync_buf_cap (options (core d)))) b (ingress d) (core d) x) as H.
  by destruct (Ingress.feed _ _ _ _ _ _) as [[g c] r].
Qed.

Lemma aligned_books d pkt : books (core d) (core (feed_aligned debug d pkt).1).
Proof.
  unfold feed_aligned. destruct (idx pkt 0) as [b0| |]; try apply books_refl.
  destruct (negb _); [apply books_refl|]. pose proof (feed_packet_books (core d) pkt) as H.
  by destruct (feed_packet debug (core d) pkt).
Qed.

Lemma flush_books d : books (core d) (core (flush d).1).
Proof.
  unfold flush, flush_core, gets, mbind, M_bind. destruct (lift _ _) as [c [p| |]] eqn:Hl; unfold lift, result in Hl; simplify_eq; cbn;
    [|apply books_refl..].
  destruct (logs_flush_outcomes (strict (options (core d))) p.2 no_marks (set_pes (core d) p.1) eq_refl) as (es & He & _).
  unfold modify in *. cbn. destruct (flush_outcomes p.2 no_marks _) as [c' [u| |]]; cbn in *; exists es;
  pose proof (e_posted _ _ _ He) as Hp; destruct Hp; by split.
Qed.

(** The events that left the queue and those still in it, against the four
    counters of [stats]. *)
Definition balanced (d : Demuxer) (out : list DemuxEvent) : Prop :=
  st_nonconformant (stats d) = as_u64 (tally is_nonconformant (out ++ queue (core d))) /\
  st_discontinuities (stats d) = as_u64 (tally is_discontinuity (out ++ queue (core d))) /\
  st_program_maps_seen (stats d) = as_u64 (tally is_program_map (out ++ queue (core d))) /\
  st_pmt_versions_seen (stats d) = as_u64 (tally is_program_map (out ++ queue (core d))).

Lemma balanced_books d d' out : balanced d out -> books (core d) (core d') -> balanced d' out.
Proof.
  intros (H1 & H2 & H3 & H4) [es [_ Hq P1 P2 P3 P4]]. unfold balanced in *. cbn in *.
  assert (Hc : forall n k n' m, n = as_u64 m -> raised n k n' -> n' = as_u64 (m + k)).
  { intros n k n' m -> Hr. rewrite Hr; unfold as_u64.
    - by rewrite Z.add_mod_idemp_l by lia.
    - apply Z.mod_pos_bound. lia. }
  rewrite Hq, app_assoc, !(tally_app _ (out ++ _)). split_and!; [exact (Hc _ _ _ _ H1 P1)|exact (Hc _ _ _ _ H2 P2)|exact (Hc _ _ _ _ H3 P3)|exact (Hc _ _ _ _ H4 P4)].
Qed.

Lemma exec_balanced d o out : o <> OpResetStats -> balanced d out ->
  balanced (exec debug d o).1.1 (out ++ (exec debug d o).1.2).
Proof.
  intros Ho Hb. destruct o; cbn; try done.
  - pose proof (feed_books try_reserve d input) as H. destruct (feed debug _ _ _). cbn. rewrite app_nil_r. by eapply balanced_books.
  - pose proof (aligned_books d pkt) as H. destruct (feed_aligned debug _ _). cbn. rewrite app_nil_r. by eapply balanced_books.
  - unfold next_event. destruct (queue (core d)) as [|e q] eqn:Hq; cbn; [by rewrite app_nil_r|].
    unfold balanced in *. cbn in *. rewrite <- app_assoc. cbn. by rewrite <- Hq.
  - pose proof (flush_books d) as H. destruct (flush d). cbn. rewrite app_nil_r. by eapply balanced_books.
  - unfold balanced in *. cbn in *. by rewrite app_nil_r.
Qed.

Lemma run_balanced os : forall d out, OpResetStats ∉ os -> balanced d out ->
  balanced (run debug d os).1.1 (out ++ (run debug d os).1.2).
Proof.
  induction os as [|o os IH]; intros d out Ho Hb; cbn [run]; [by rewrite app_nil_r|].
  apply not_elem_of_cons in Ho as [Hno Hos]. pose proof (exec_balanced d o out ltac:(congruence) Hb) as He.
  destruct (exec debug d o) as [[d1 o1] r1]. specialize (IH d1 (out ++ o1) Hos He).
  destruct (run debug d1 os) as [[d2 o2] r2]. cbn in *. by rewrite app_assoc.
Qed.

End api.

(** C30: in every run of a demuxer, whatever is fed to it in whatever calls, the
    statistics count exactly the events the run produced: those handed out or
    discarded so far and those still queued, modulo 2^64. *)
Theorem events_counted {HO : HashOrder} (debug : NonConformantIssue -> string) (config : DemuxerConfig) (os : list op) :
  OpResetStats ∉ os ->
  let '(d, out, _) := run debug (with_config config) os in balanced d out.
Proof.
  intros Ho. pose proof (run_balanced debug os (with_config config) [] Ho) as H.
  destruct (run debug (with_config config) os) as [[d out] rs]. apply H. by split_and!.
Qed.

(** The text of a rejected issue, for the witnesses. *)
Definition no_text (i : NonConformantIssue) : string := "".

(** A transport-error packet: one event, one count. *)
Definition error_packet : list Z := [0x47; 0x80; 0x30; 0x10] ++ zrep 184 0.

Lemma events_counted_witness :
  let '(d, out, _) := run (HO:=key_order) no_text (with_config DemuxerConfig_default) [OpFeed true (error_packet ++ error_packet); OpNext] in
  balanced d out /\ zlen out = 1 /\ st_nonconformant (stats d) = 2.
Proof.
  pose proof (events_counted (HO:=key_order) no_text DemuxerConfig_default [OpFeed true (error_packet ++ error_packet); OpNext]) as H.
  destruct (run _ _ _) as [[d out] rs] eqn:Hr. split; [apply H; set_solver|].
  assert (Hd : (zlen out, st_nonconformant (stats d)) = (1, 2)).
  { replace (zlen out, st_nonconformant (stats d)) with
      (let '(d, out, _) := run (HO:=key_order) no_text (with_config DemuxerConfig_default) [OpFeed true (error_packet ++ error_packet); OpNext] in
       (zlen out, st_nonconformant (stats d))) by (by rewrite Hr). by vm_compute. }
  by simplify_eq.
Defined.

End LedgerTheorems.
