(* ===== verification/DemuxTotal.v ===== *)
(** What the parts the demuxer calls promise it, on any bytes: no panic, and
    results in their ranges. *)
From Stdlib Require Import ZArith Lia Bool String.
From stdpp Require Import base list list_numbers gmap sorting.
From S2P Require Import Prelude.
From S2P Require Import Common.
From S2P Require Import TsPacket.
From S2P Require Import PesDemux.
From S2P Require Import PsiParse.
From S2P Require Import PsiWriter.
From S2P Require Import AnnexB.
From S2P Require Import AudioFrames.
From S2P Require Import AuCell.
From S2P Require Import Klv.
From S2P Require Import AuReassemble.
From S2P Require Import Latm.
From S2P Require Import DemuxTypes.
From S2P Require Import DemuxState.
From S2P Require Import DemuxIngress.
From S2P Require Import DemuxPayload.
From S2P Require Import DemuxPes.

(** * TS packets *)
Module PacketTotal.
Import Common TsParser PacketChecks.

Definition pcr_range (v : Z) : Prop := 0 <= v < PCR_WRAP.

Record packet_ok (buf : list Z) (pkt : TsPacket) : Prop := {
  pk_pid : 0 <= pid pkt < 8192;
  pk_cc : 0 <= continuity_counter pkt < 16;
  pk_pcr : forall v, pcr_27mhz pkt = Some v -> pcr_range v;
  pk_payload : bytes (payload pkt);
  pk_raw : raw pkt = buf;
}.

Lemma parse_pcr_range {E} b v m : bytes b -> parse_pcr (E:=E) b = Ok (Some v, m) -> pcr_range v.
Proof.
  intros Hb. unfold parse_pcr.
  destruct (idx b 0) as [b0| |] eqn:H0, (idx b 1) as [b1| |] eqn:H1, (idx b 2) as [b2| |] eqn:H2, (idx b 3) as [b3| |] eqn:H3,
    (idx b 4) as [b4| |] eqn:H4, (idx b 5) as [b5| |] eqn:H5; rb; try done.
  destruct (negb _); [done|]. destruct (Z.ltb_spec 299 (Z.lor (Z.shiftl (Z.land b4 1) 8) b5)) as [|Hx]; [done|].
  unfold chk_u64, checked. destruct (_ && _) eqn:Hc; [|done]. rb. intros [= <- <-].
  apply andb_prop in Hc as [Hc _]. apply Z.leb_le in Hc. unfold pcr_range, PCR_WRAP.
  change (Z.shiftl 1 33 - 1) with (2 ^ 33 - 1). rewrite (land_mask 33) by lia. set (q := Z.lor _ _ mod 2 ^ 33) in *.
  assert (0 <= q < 2 ^ 33) by (by apply Z.mod_pos_bound).
  apply idx_Ok, (bytes_get _ _ _ Hb) in H4, H5. unfold byte in *.
  assert (0 <= Z.lor (Z.shiftl (Z.land b4 1) 8) b5); [|change (2 ^ 33) with 8589934592 in *; lia].
  apply Z.lor_nonneg. split; [|lia]. apply Z.shiftl_nonneg, Z.land_nonneg. lia.
Qed.

Lemma parse_af_pcr buf ctl m r v : bytes buf -> parse_af buf ctl m = Ok r -> af_pcr r = Some v -> pcr_range v.
Proof.
  intros Hb. unfold parse_af. destruct (idx buf 4) as [l| |]; rb; try done. destruct (_ <? _); [done|].
  destruct (1 <=? l); [|by intros [= <-]]. destruct (idx buf 5) as [f| |]; rb; try done.
  destruct (_ && _).
  - destruct (slice buf 6 12) as [w| |] eqn:Hs; rb; try done. destruct (parse_pcr w) as [[p pm]| |] eqn:Hp; rb; try done.
    intros [= <-]. cbn. intros ->. eapply parse_pcr_range; [|exact Hp].
    unfold slice in Hs. destruct (_ && _); [|done]. injection Hs as <-. auto with zl.
  - rb. by intros [= <-].
Qed.

Lemma parse_total buf : bytes buf -> zlen buf = 188 ->
  match parse_ts_packet buf with Ok pkt => packet_ok buf pkt | Err e => e <> Truncated | Panic => False end.
Proof.
  intros Hb Hl. unfold parse_ts_packet. change TS_PACKET_SIZE with 188. rewrite Hl. cbn [negb Z.eqb].
  change (188 =? 188) with true. cbn [negb].
  destruct (idx_ok (E:=TsParseError) buf 0) as (b0 & H0 & ->); [lia|]. rb. destruct (b0 =? TS_SYNC_BYTE); cbn [negb]; [|done].
  destruct (idx_ok (E:=TsParseError) buf 1) as (b1 & H1 & ->); [lia|]. rb.
  destruct (idx_ok (E:=TsParseError) buf 2) as (b2 & H2 & ->); [lia|]. rb.
  destruct (idx_ok (E:=TsParseError) buf 3) as (b3 & H3 & ->); [lia|]. rb. cbv zeta.
  apply (bytes_get _ _ _ Hb) in H1, H2, H3. unfold byte in *.
  set (af := if nz _ then _ else _).
  assert (match af with Ok r => (forall v, af_pcr r = Some v -> pcr_range v) /\ 4 <= af_payload_off r | Err e => e <> Truncated | Panic => False end) as Haf.
  { unfold af. destruct (nz _); [|split; [done|cbn; lia]].
    destruct (TsTheorems.parse_af_total buf (Z.land (Z.shiftr b3 4) 3) (if Z.land (Z.shiftr b3 4) 3 =? 0 then Some ReservedControl else None) Hl Hb)
      as [(l & _ & _ & ->)|(l & r & _ & Hr & Hp & Ho)]; [done|]. rewrite Hp. split; [|lia].
    intros v Hv. by eapply parse_af_pcr. }
  destruct af as [r|e|]; rb; [|done|done]. destruct Haf as [Hpcr Hoff].
  assert (forall pl, bytes pl -> packet_ok buf
    {| pid := from_be16 (Z.land b1 31) b2; transport_error_indicator := nz (Z.land b1 128);
       transport_scrambling_control := Z.land (Z.shiftr b3 6) 3; payload_unit_start := nz (Z.land b1 64);
       continuity_counter := Z.land b3 15; has_adaptation_field := nz (Z.land (Z.land (Z.shiftr b3 4) 3) 2);
       pcr_27mhz := af_pcr r; pcr_malformed := af_pcr_malformed r; adaptation_malformed := af_malformed r;
       discontinuity_indicator := af_discontinuity r; random_access_indicator := af_random_access r; payload := pl;
       has_payload := nz (Z.land (Z.land (Z.shiftr b3 4) 3) 1); raw := buf |}) as Hok.
  { intros pl Hpl. split; cbn; [rewrite land_31; unfold from_be16; dlia|rewrite land_15; dlia|done|done|done]. }
  destruct (_ && (af_payload_off r <? 188)) eqn:Hc; rb; [|apply Hok; constructor].
  apply andb_prop in Hc as [_ Hc%Z.ltb_lt]. rewrite slice_ok by lia. rb. apply Hok. auto with zl.
Qed.

Lemma has_pcr_ok {E} p : zlen p = 188 -> exists b, has_pcr (E:=E) p = Ok b.
Proof.
  intros Hl. unfold has_pcr. destruct (idx_ok (E:=E) p 3) as (x & _ & ->); [lia|]. rb. destruct (nz _); [|eauto].
  destruct (idx_ok (E:=E) p 4) as (y & _ & ->); [lia|]. rb. destruct (_ <=? _); [|eauto].
  destruct (idx_ok (E:=E) p 5) as (z & _ & ->); [lia|]. rb. eauto.
Qed.

Lemma pcr_masked_ok {E} a b : zlen a = 188 -> zlen b = 188 -> exists r, pcr_masked_identical (E:=E) a b = Ok r.
Proof.
  intros Ha Hb. unfold pcr_masked_identical. case_bool_decide; [eauto|].
  destruct (has_pcr_ok (E:=E) a Ha) as [pa ->]. rb.
  assert (exists both, (if pa then has_pcr (E:=E) b else Ok false) = Ok both) as [both ->].
  { destruct pa; [by apply has_pcr_ok|eauto]. }
  rb. destruct (negb both); [eauto|]. rewrite slice_ok by lia. rb. rewrite slice_ok by lia. rb. destruct (negb _); [eauto|].
  rewrite slice_ok by lia. rb. rewrite slice_ok by lia. rb. eauto.
Qed.

End PacketTotal.

(** * PES *)
Module PesOutcomes.
Import PesParse Reassembler ReassemblerInv PesTotal.

(** A completed PES carries bytes and 33-bit timestamps. *)
Definition pes_ok (p : PesPayload) : Prop := bytes (payload p) /\ stamp_ok (pts p) /\ stamp_ok (dts p).

Definition outcome_ok (o : ReassemblyOutcome) : Prop := match o with Complete p => pes_ok p | _ => True end.

Lemma finish_outs {E} r pid p out r' out' : bytes (buf p) -> Forall outcome_ok out ->
  finish (E:=E) r pid p out = Ok (r', out') -> Forall outcome_ok out'.
Proof.
  intros Hb Ho. unfold finish. pose proof (parse_complete_outcome pid (buf p) (rai p) Hb) as Hp.
  destruct (parse_complete pid (buf p) (rai p)) as [[pes|]|e|]; cbn in Hp; [| | |done].
  - destruct Hp as (h & Hh & _ & _ & _ & _ & H1 & H2).
    assert (pes_ok pes). { split_and!; try done. rewrite Hh in Hb. by apply bytes_app in Hb as [_ ?]. }
    set (dmg := if _ && _ then _ else _).
    assert (Forall outcome_ok (match dmg with Some reason => out ++ [Malformed pid reason] | None => out end ++ [Complete pes])) as Hall.
    { apply Forall_app. split; [|by constructor]. destruct dmg; [|done]. apply Forall_app. split; [done|]. by constructor. }
    destruct (gap_at p) as [g|]; [destruct (usub _ _); rb; try done|rb]; by intros [= <- <-].
  - by intros [= <- <-].
  - intros [= <- <-]. apply Forall_app. split; [done|]. constructor; [|done]. by destruct e.
Qed.

Lemma complete_outs {E} r pid p out r' out' : bytes (buf p) -> Forall outcome_ok out ->
  complete_if_full (E:=E) r pid p out = Ok (r', out') -> Forall outcome_ok out'.
Proof.
  intros Hb Ho. unfold complete_if_full. destruct (declared_total_len p) as [t|]; [|by intros [= <- <-]].
  destruct (_ <=? _); [|by intros [= <- <-]]. apply finish_outs; [cbn; auto with zl|done].
Qed.

Lemma append_outs {E} r pid pl v out r' out' : inv r -> bytes pl -> Forall outcome_ok out ->
  append_payload (E:=E) r pid pl v out = Ok (r', out') -> Forall outcome_ok out'.
Proof.
  intros Hi Hpl Ho. unfold append_payload. destruct (by_pid r !! pid) as [p|] eqn:Hp; [|by intros [= <- <-]].
  destruct (inv_parts _ Hi pid p Hp) as [Hb _ _].
  assert (bytes (buf p ++ pl)) as Hb' by (by apply bytes_app).
  assert (forall o, match o with Complete _ => False | _ => True end -> Forall outcome_ok (out ++ [o])) as Hsnoc.
  { intros o Hn. apply Forall_app. split; [done|]. constructor; [by destruct o|done]. }
  destruct (_ <? _); [intros [= <- <-]; by apply Hsnoc|]. cbn [declared_total_len buf].
  set (step := if _ && _ then _ else _).
  assert (match step with Ok (q, _) => bytes (buf q) | _ => True end) as Hs.
  { unfold step. destruct (_ && _); [|done]. destruct (idx _ 3), (idx _ 4), (idx _ 5); rb; try done.
    destruct (nz _); [done|]. by destruct (negb v). }
  destruct step as [[q [sid|]]| |]; rb; try done; [intros [= <- <-]; by apply Hsnoc|].
  destruct (_ <? _); [intros [= <- <-]; by apply Hsnoc|]. by apply complete_outs.
Qed.

Lemma push_split_ok {E} r pid pl pusi ra v : inv r -> bytes pl -> 0 <= cap_total r -> 0 <= cap_per_pid r ->
  exists r' out n, push_split (E:=E) r pid pl pusi ra v = Ok (r', (out, n)) /\ inv r' /\ keeps_caps r r' /\ Forall outcome_ok out.
Proof.
  intros Hi Hpl Hct Hcp. pose proof (push_split_inv (E:=E) r pid pl pusi ra v Hi Hpl Hct Hcp) as Hp.
  destruct (push_split r pid pl pusi ra v) as [[r' [out n]]| |] eqn:He; cbn in Hp; [|done|done].
  destruct Hp as [Hi' Hk]. exists r', out, n. split_and!; [done|done|exact Hk|]. revert He. unfold push_split.
  set (first := if pusi then _ else _).
  assert (match first with Ok (r1, (o1, _)) => inv r1 /\ Forall outcome_ok o1 | _ => True end) as Hf.
  { unfold first. destruct pusi; [|split; [by apply inv_gaps|done]]. cbn [by_pid set_gaps set_parts total_buffered].
    set (fresh := {| declared_total_len := None; buf := []; rai := ra; damage := None; gap_at := None |}).
    assert (Hfresh : part_ok (cap_per_pid r) fresh) by (by split; [constructor| |]).
    pose proof Hi as [Ht Hc Hfa]. destruct (by_pid r !! pid) as [p|] eqn:Hp.
    - pose proof (held_delete _ _ _ Hp). pose proof (held_nonneg (delete pid (by_pid r))). pose proof (zlen_nonneg (buf p)).
      destruct (Hfa pid p Hp) as [Hb _ _].
      match goal with |- context [finish ?x pid p []] => set (r0 := x) end.
      destruct (finish_total (E:=E) r0 pid p [] Hb) as (r1 & o1 & Hfin & (g & ->) & _). rewrite Hfin. rb.
      split; [apply inv_gaps|by eapply finish_outs in Hfin].
      split; cbn; [|unfold sat_sub; lia|by apply map_Forall_insert_2].
      rewrite held_insert. unfold sat_sub. change (zlen (buf fresh)) with 0. lia.
    - split; [|done]. split; cbn; [|done|by apply map_Forall_insert_2].
      rewrite held_insert, held_delete_none by done. change (zlen (buf fresh)) with 0. lia. }
  destruct first as [[r1 [o1 n1]]| |]; rb; try done. destruct Hf as [Hi1 Ho1].
  destruct (append_payload (E:=E) r1 pid pl v o1) as [[r2 o2]| |] eqn:Ha; rb; try done. intros [= <- <- <-].
  by eapply append_outs.
Qed.

Lemma finish_all_outs {E} parts : forall r out r' out', Forall (fun ip => bytes (buf ip.2)) parts -> Forall outcome_ok out ->
  finish_all (E:=E) r parts out = Ok (r', out') -> Forall outcome_ok out'.
Proof.
  induction parts as [|[pid p] parts IH]; intros r out r' out' Hp Ho; cbn [finish_all]; [by intros [= <- <-]|].
  inversion Hp as [|? ? Hb Hps]; subst. destruct (finish r pid p out) as [[r1 o1]| |] eqn:Hf; rb; try done.
  apply IH; [done|]. by eapply finish_outs in Hf.
Qed.

Lemma pes_drain_ok {E} r : inv r -> 0 <= cap_total r ->
  exists r' out, drain_partial_outcomes (E:=E) r = Ok (r', out) /\ inv r' /\ keeps_caps r r' /\ Forall outcome_ok out.
Proof.
  intros Hi Hct. pose proof (drain_inv (E:=E) r Hi Hct) as Hd.
  destruct (drain_partial_outcomes r) as [[r' out]| |] eqn:He; cbn in Hd; [|done|done]. destruct Hd as [Hi' Hk].
  exists r', out. split_and!; [done|done|exact Hk|]. revert He. apply finish_all_outs; [|done].
  rewrite merge_sort_Permutation. apply Forall_forall. intros [pid p] Hin.
  apply elem_of_map_to_list in Hin. by destruct (inv_parts _ Hi pid p Hin).
Qed.

End PesOutcomes.

(** * LOAS framing *)
Module LatmTotal.
Import Latm LatmSpec LatmLemmas LatmCheck.

Definition carry_ok (c : LoasCarry) : Prop :=
  match c with Body n => 0 <= n | Header b len => bytes b /\ zlen b = 2 /\ 1 <= len <= 2 end.

Definition latm_ok (s : LatmState) : Prop := forall c, latm_carry s = Some c -> carry_ok c.

Lemma split_header_ok rest c : bytes rest -> 1 <= zlen rest <= 2 -> split_header_carry rest = Ok (Some c) -> carry_ok c.
Proof.
  intros Hb Hl. unfold split_header_carry. destruct (idx rest 0); rb; try done. destruct (negb _); [done|].
  destruct rest as [|b0 [|b1 [|]]]; try (exfalso; revert Hl; rewrite ?zlen_cons, ?zlen_nil; zlia);
    cbn; intros [= <-]; (split_and!; [|done|..]; rewrite ?zlen_cons, ?(@zlen_nil Z); try lia).
  - change (bytes [b0; 0]). apply Forall_cons in Hb as [H0 _]. constructor; [exact H0|]. constructor; [unfold byte; lia|constructor].
  - exact Hb.
Qed.

Lemma walk_ok payload : bytes payload -> forall pos c, 0 <= pos -> walk_loas payload pos = Ok (Some c) -> carry_ok c.
Proof.
  intros Hb pos. remember (Z.to_nat (zlen payload - pos)) as k eqn:Hk. revert pos Hk.
  induction (lt_wf k) as [k _ IH]. intros pos -> c Hp. rewrite walk_eq by done.
  destruct (Z.ltb_spec pos (zlen payload)).
  - destruct (Z.ltb_spec (zlen payload - pos) 3).
    + apply split_header_ok; [by apply bytes_drop|]. rewrite zlen_zdrop; lia.
    + destruct (negb _); [done|]. destruct (body_len_drop (E:=LatmFramingKind) payload pos) as (n & -> & ?); [done..|]. rb.
      eapply IH; [|done|lia]. lia.
  - destruct (Z.ltb_spec 0 (pos - zlen payload)); intros [= <-]. cbn. lia.
Qed.

Lemma search_ok payload : bytes payload -> forall n at_, 0 <= at_ -> at_ + Z.of_nat n <= zlen payload ->
  match search n payload at_ with
  | Confirmed (Some c) | Unconfirmed c => carry_ok c
  | _ => True
  end.
Proof.
  intros Hb. induction n as [|n IH]; intros at_ Ha Hn; cbn [search]; [done|]. cbv zeta.
  destruct (negb _); [apply IH; lia|]. rewrite zlen_zdrop by lia. destruct (Z.ltb_spec (zlen payload - at_) 3).
  - destruct (split_header_carry _) as [[c|]| |] eqn:Hs; try done. eapply split_header_ok; [..|exact Hs]; [by apply bytes_drop|].
    rewrite zlen_zdrop; lia.
  - destruct (body_len_drop (E:=Empty_set) payload at_) as (b & -> & Hbr); [done..|].
    destruct (Z.ltb_spec (zlen payload) (at_ + 3 + b)); [cbn; lia|].
    destruct (walk_loas payload at_) as [[c|]| |] eqn:Hw; try done; [by eapply walk_ok|apply IH; lia..].
Qed.

Lemma resync_ok {E} payload : bytes payload ->
  exists r, resync_loas (E:=E) payload = Ok r /\ match r with Confirmed (Some c) | Unconfirmed c => carry_ok c | _ => True end.
Proof.
  intros Hb. pose proof (zlen_nonneg payload). unfold resync_loas, resync_loas_counting.
  destruct (resync_loop_ok (E:=E) payload Hb (Z.to_nat (Z.min (zlen payload) MAX_LOAS_RECORD_BYTES)) 0 [] ∅ 0)
    as (s & -> & ?); [by left|set_solver|lia|unfold MAX_LOAS_RECORD_BYTES; lia|rewrite size_empty; lia|].
  rb. eexists. split; [done|]. apply search_ok; [done|lia|unfold MAX_LOAS_RECORD_BYTES; lia].
Qed.

Lemma resolve_total c payload : carry_ok c -> bytes payload ->
  match resolve c payload with Ok c' => carry_ok c' | Err _ => True | Panic => False end.
Proof.
  intros Hc Hb. destruct c as [n|b len]; cbn [resolve]; [done|]. destruct Hc as (Hbb & Hl & Hlen). pose proof (zlen_nonneg payload).
  unfold usub. rewrite (proj2 (Z.leb_le _ _)) by lia. rb. set (tk := Z.min (zlen payload) (3 - len)).
  assert (0 <= tk <= 2 /\ tk <= zlen payload /\ len + tk <= 3) as Htk by lia.
  assert (zlen (ztake tk payload) = tk) as Hlt by (apply zlen_ztake; lia).
  rewrite slice_ok by lia. rb. rewrite zdrop_0. replace (len - 0) with len by lia.
  assert (exists h, put (E:=LatmFramingKind) [0; 0; 0] 0 (ztake len b) = Ok h /\ bytes h /\ zlen h = 3) as (h & -> & Hh & Hhl).
  { destruct b as [|x [|y [|z b]]]; try (exfalso; revert Hl; rewrite ?zlen_cons, ?zlen_nil; zlia). bytes_inv.
    assert (len = 1 \/ len = 2) as [-> | ->] by lia; (eexists; split; [reflexivity|]; split; [repeat constructor; unfold byte in *; lia|done]). }
  rb. assert (exists h', put (E:=LatmFramingKind) h len (ztake tk payload) = Ok h' /\ bytes h' /\ zlen h' = 3) as (h' & -> & Hh' & Hhl').
  { pose proof (ztake_zdrop h len) as Hcut. rewrite <- Hcut. rewrite put_app by (rewrite ?zlen_ztake, ?zlen_zdrop; lia).
    eexists. split; [done|]. split.
    - rewrite !bytes_app. split; [auto with zl|]. split; auto with zl.
    - rewrite !zlen_app, Hlt, zlen_ztake, zlen_zdrop; rewrite ?zlen_zdrop; lia. }
  rb. rewrite slice_ok by lia. rb. rewrite zdrop_0. replace (len + tk - 0) with (len + tk) by lia.
  set (known := ztake (len + tk) h'). assert (bytes known) as Hk by (unfold known; auto with zl).
  pose proof (walk_no_panic known Hk 0 ltac:(lia)) as Hnp.
  destruct (walk_loas known 0) as [[c|]| |] eqn:Hw; rb; [|cbn; lia|done|done].
  pose proof (walk_ok known Hk 0 c ltac:(lia) Hw) as Hc. destruct c; cbn in *; [lia|done].
Qed.

Lemma latm_check_ok {E} s payload aligned damaged : latm_ok s -> bytes payload ->
  exists s' i, check_latm_framing (E:=E) s payload aligned damaged = Ok (s', i) /\ latm_ok s'.
Proof.
  intros Hs Hb. unfold check_latm_framing. cbv zeta. destruct damaged; [by eexists _, _|].
  assert (forall s n, 0 <= n -> exists s' i, walk_from (E:=E) s payload n = Ok (s', i) /\ (latm_ok s -> latm_ok s')) as Hwalk.
  { intros s0 n Hn. unfold walk_from. pose proof (walk_no_panic payload Hb n Hn) as Hnp.
    destruct (walk_loas payload n) as [c| |] eqn:Hw; [..|done]; (eexists _, _; split; [done|]); [|done].
    intros _ c' [= ->]. by eapply walk_ok. }
  set (s0 := {| latm_carry := None; latm_carry_tentative := false; latm_unsynced_bytes := _ |}).
  assert (latm_ok s0) as Hs0 by done.
  assert (exists k, resolve_carry (E:=E) s0 (latm_carry_tentative s) payload (latm_carry s) = Ok k /\
    match k with Known (Some n) => 0 <= n | Known None => True | Done s' _ => latm_ok s' end) as (k & -> & Hk).
  { unfold resolve_carry. destruct (latm_carry s) as [c|] eqn:Hc; [|by eexists]. pose proof (resolve_total c payload (Hs c Hc) Hb) as Hr.
    destruct (resolve c payload) as [c'| |]; [| |done].
    - destruct c' as [n|b len]; [|eexists; split; [done|]; by intros ? [= <-]]. cbn in Hr.
      destruct (Z.leb_spec (zlen payload) n); [eexists; split; [done|]; intros ? [= <-]; cbn; lia|].
      destruct (_ && _); by eexists.
    - destruct (latm_carry_tentative s); by eexists. }
  rb. destruct k as [[n|]|s' i]; [|destruct (_ || _) eqn:Hor|by eexists _, _].
  - destruct (Hwalk s0 n Hk) as (s' & i & -> & ?). eauto.
  - destruct (Hwalk s0 0 ltac:(lia)) as (s' & i & -> & ?). eauto.
  - destruct (resync_ok (E:=E) payload Hb) as (r & -> & Hr). rb. destruct r as [[c|]|c|].
    + eexists _, _. split; [done|]. by intros ? [= <-].
    + by eexists _, _.
    + eexists _, _. split; [done|]. by intros ? [= <-].
    + cbv zeta. match goal with |- context [if ?b then _ else _] => destruct b end; (eexists _, _; split; [reflexivity|]; by intros ? [=]).
Qed.

End LatmTotal.

(** * Payloads *)
Module PayloadTotal.
Import AuCell Payload.

Lemma cell_zlen h p : zlen (AuCellTheorems.cell h p) = 5 + zlen p.
Proof. unfold AuCellTheorems.cell. rewrite !zlen_app, zlen_be16. unfold AuCellTheorems.header_bytes. rewrite ?zlen_cons, ?(@zlen_nil Z). lia. Qed.

Lemma cell_bytes_payload h p : bytes (AuCellTheorems.cell h p) -> bytes p.
Proof. unfold AuCellTheorems.cell. rewrite !bytes_app. tauto. Qed.

Lemma classify_klv_ok {E} p : bytes p -> exists s, classify_klv (E:=E) p = Ok s /\ forall k, s = ShapeAsync k -> k = p.
Proof.
  intros Hb. unfold classify_klv. destruct (_ && _); [eexists; split; [done|]; by intros ? [= ->]|].
  destruct (_ <=? _); [|by eexists]. pose proof (AuCellTheorems.au_cell_read_exact p Hb).
  destruct (read_metadata_au_cell p); [by eexists|by eexists|done].
Qed.

Definition item_ok (i : cell_item) : Prop := match i with inl (_, inner, _) => bytes inner | inr _ => True end.

Lemma au_cells_ok {E} p : bytes p -> forall fuel offset, 0 <= offset -> zlen p - offset <= Z.of_nat fuel ->
  exists l, au_cells_from (E:=E) fuel p offset = Ok l /\ Forall item_ok l.
Proof.
  intros Hb. induction fuel as [|fuel IH]; intros offset Ho Hf; cbn [au_cells_from].
  { rewrite (proj2 (Z.leb_le _ _)) by lia. by eexists. }
  destruct (Z.leb_spec (zlen p) offset); [by eexists|].
  assert (bytes (zdrop offset p)) as Hd by (by apply bytes_drop). pose proof (AuCellTheorems.au_cell_read_exact _ Hd) as Hc.
  destruct (read_metadata_au_cell (zdrop offset p)) as [[h inner]|e|]; [|eexists; split; [done|]; by repeat constructor|done].
  destruct Hc as (rest & Hc & _). rewrite Hc in Hd. apply bytes_app in Hd as [Hd%cell_bytes_payload _].
  pose proof (zlen_nonneg inner). destruct (IH (offset + (5 + zlen inner))) as (l & -> & Hl); [lia..|].
  rb. eexists. split; [done|]. by constructor.
Qed.

Lemma iter_cells_ok {E} p : bytes p -> exists l, iter_au_cells_with_end (E:=E) p = Ok l /\ Forall item_ok l.
Proof. intros Hb. apply au_cells_ok; [done|lia|]. unfold zlen. lia. Qed.

Lemma strip_ok {E} p : exists r, strip_dvb_sub_envelope (E:=E) p = Ok r.
Proof.
  unfold strip_dvb_sub_envelope. destruct (Z.ltb_spec (zlen p) 3); [eauto|].
  destruct (idx_ok (E:=E) p 0) as (? & _ & ->); [lia|]. rb.
  destruct (idx_ok (E:=E) p 1) as (? & _ & ->); [lia|]. rb.
  destruct (idx_ok (E:=E) p (zlen p - 1)) as (? & _ & ->); [lia|]. rb.
  destruct (_ || _); [eauto|]. rewrite slice_ok by lia. rb. eauto.
Qed.

Lemma data_units_total {E} fuel : forall units, zlen units <= Z.of_nat fuel -> exists b, data_units_ok (E:=E) fuel units = Ok b.
Proof.
  induction fuel as [|fuel IH]; intros [|u rest] Hl; cbn [data_units_ok]; [eauto| |eauto|];
    rewrite zlen_cons in Hl; pose proof (zlen_nonneg rest); [lia|].
  destruct (_ =? 255); [eauto|]. destruct (_ || _); [|eauto]. destruct rest as [|n field]; [eauto|].
  destruct (Z.eqb_spec n 0x2C) as [-> |]; cbn [negb]; [|eauto].
  destruct (Z.ltb_spec (zlen field) 0x2C); [eauto|]. apply IH. rewrite zlen_zdrop by lia. rewrite zlen_cons in Hl. lia.
Qed.

Lemma teletext_ok {E} p : exists b, teletext_data_field_ok (E:=E) p = Ok b.
Proof.
  unfold teletext_data_field_ok. destruct (negb _); [eauto|]. destruct p as [|d units]; [eauto|].
  destruct (_ || _); [|eauto]. apply data_units_total. unfold zlen. lia.
Qed.

Lemma orphan_ok {E} p : exists b, orphan_validates_as_complete_klv (E:=E) p = Ok b.
Proof.
  unfold orphan_validates_as_complete_klv. destruct (_ || _); [eauto|]. pose proof (LengthLemmas.read_ber_no_panic (zdrop 16 p)).
  destruct (Length.read_ber (zdrop 16 p)) as [[n r]| |]; [eauto|eauto|done].
Qed.

Lemma resync_frames_ok {E F} `{SF : FrameSyntax F} `{!FrameLaws F} p : bytes p ->
  exists l, Frames.frames_with_resync (E:=E) (F:=F) p = Ok l.
Proof.
  intros Hb. pose proof (zlen_nonneg p). unfold Frames.frames_with_resync.
  destruct (FramesTheorems.collect_ok (E:=E) (F:=F) p Hb (S (S (length p))) {| Frames.cursor := 0; Frames.done_ := false; Frames.resync := true |})
    as (l & Hl & _); [cbn; lia|unfold FramesTheorems.left_over, zlen; cbn; lia|eauto].
Qed.

Lemma frames_ok {E} codec p : bytes p -> exists n, Emit.frames_delta (E:=E) codec p = Ok n.
Proof.
  intros Hb. unfold Emit.frames_delta.
  destruct codec; try (by eauto); [destruct (resync_frames_ok (E:=E) (F:=MpegAudio.Frame) p Hb) as [l ->]
    |destruct (resync_frames_ok (E:=E) (F:=Aac.AdtsFrame) p Hb) as [l ->]]; rb; eauto.
Qed.

End PayloadTotal.
