(* ===== verification/DemuxSafe.v ===== *)
(** The demuxer never panics: an invariant of its state, and for every method
    the proof that it keeps it, whatever the bytes. *)
From Stdlib Require Import ZArith Lia Bool String.
From stdpp Require Import base list list_numbers gmap.
From S2P Require Import Prelude.
From S2P Require Import Common.
From S2P Require Import TsPacket.
From S2P Require Import PesDemux.
From S2P Require Import PsiParse.
From S2P Require Import PsiAssembly.
From S2P Require Import PsiWriter.
From S2P Require Import Descriptors.
From S2P Require Import AuCell.
From S2P Require Import DemuxTime.
From S2P Require Import AuReassemble.
From S2P Require Import Latm.
From S2P Require Import DemuxTypes.
From S2P Require Import DemuxState.
From S2P Require Import DemuxIngress.
From S2P Require Import DemuxPsi.
From S2P Require Import DemuxPayload.
From S2P Require Import DemuxPes.
From S2P Require Import Demuxer.
From S2P Require Import DemuxTotal.

(** * The invariant *)
Module CoreInv.
Import Common DemuxEvent DemuxConfig Core.

(** Sizes of [usize] type; [cap_total] of the access units leaves room for a
    cell; timestamps are passed on as they are. *)
Record config_ok (cfg : DemuxerConfig) : Prop := {
  cf_pes : forall n, pes_cap_per_pid cfg = Some n -> 0 <= n;
  cf_pes_total : forall n, pes_cap_total cfg = Some n -> 0 <= n;
  cf_au : forall n, au_cell_cap_per_pid cfg = Some n -> 0 <= n;
  cf_au_total : forall n, au_cell_cap_total cfg = Some n -> 0 <= n < u64_max;
  cf_au_slots : forall n, au_cell_max_in_flight_pids cfg = Some n -> 0 <= n;
  cf_sync : forall n, sync_buf_cap cfg = Some n -> 0 <= n;
  cf_raw_times : unwrap_timestamps cfg = false;
}.

Definition pes_cap (cfg : DemuxerConfig) : Z := default DEFAULT_PES_CAP_PER_PID (pes_cap_per_pid cfg).
Definition pes_total (cfg : DemuxerConfig) : Z := default DEFAULT_PES_CAP_TOTAL (pes_cap_total cfg).
Definition au_cap (cfg : DemuxerConfig) : Z := default DEFAULT_AU_CELL_CAP_PER_PID (au_cell_cap_per_pid cfg).
Definition au_total (cfg : DemuxerConfig) : Z := default DEFAULT_AU_CELL_CAP_TOTAL (au_cell_cap_total cfg).
Definition au_slots (cfg : DemuxerConfig) : Z := default DEFAULT_AU_CELL_MAX_IN_FLIGHT_PIDS (au_cell_max_in_flight_pids cfg).

Record pid_ok (s : PidState.PidState) : Prop := {
  po_cc : forall v, PidState.cc s = Some v -> 0 <= v < 16;
  po_raw : forall p, PidState.last_pkt_raw s = Some p -> zlen p = 188;
  po_pts : forall v, PidState.last_pts s = Some v -> pts33 v;
  po_run : forall v, PidState.pts_less_run_pcr s = Some v -> pts33 v;
  po_latm : LatmTotal.latm_ok (PidState.latm s);
}.

Definition assembler_ok (a : PsiAssembler.PsiSectionAssembler) : Prop :=
  PsiAssemblerTheorems.inv a /\ PsiAssemblerTheorems.header_total a.

Record pes_held (cfg : DemuxerConfig) (r : Reassembler.Reassembler) : Prop := {
  ph_inv : ReassemblerInv.inv r;
  ph_cap : Reassembler.cap_per_pid r = pes_cap cfg;
  ph_total : Reassembler.cap_total r = pes_total cfg;
}.

Record au_held (cfg : DemuxerConfig) (r : AuReassembler.AuCellReassembler) : Prop := {
  ah_inv : AuInv.inv r;
  ah_cap : AuReassembler.cap_per_pid r = au_cap cfg;
  ah_total : AuReassembler.cap_total r = au_total cfg;
  ah_slots : AuReassembler.max_in_flight_pids r = au_slots cfg;
}.

Record core_ok (cfg : DemuxerConfig) (c : Core) : Prop := {
  co_options : options c = cfg;
  co_assemblers : map_Forall (fun _ => assembler_ok) (psi_assemblers c);
  co_pids : map_Forall (fun _ => pid_ok) (pid_state c);
  co_pcr : map_Forall (fun _ => PacketTotal.pcr_range) (Timestamp.pcr_last (pcr c));
  co_pes : pes_held cfg (pes c);
  co_au : au_held cfg (au_reassembler c);
  co_pat : PatTheorems.inv (pat_reassembler c);
}.

Lemma pid_new_ok : pid_ok PidState.pid_new.
Proof. by split. Qed.

Lemma assembler_new_ok : assembler_ok PsiAssembler.new.
Proof. split; [apply PsiAssemblerTheorems.inv_empty|done]. Qed.

Lemma au_same_caps cfg r r' : au_held cfg r -> AuInv.inv r' -> AuInv.same_caps r r' -> au_held cfg r'.
Proof. intros [_ ? ? ?] Hi (? & ? & ?). split; [done|congruence..]. Qed.

Lemma pes_same_caps cfg r r' : pes_held cfg r -> ReassemblerInv.inv r' -> ReassemblerInv.keeps_caps r r' -> pes_held cfg r'.
Proof. intros [_ ? ?] Hi [? ?]. split; [done|congruence..]. Qed.

Section config.
Context (cfg : DemuxerConfig) (Hcfg : config_ok cfg).

Lemma pes_cap_ok : 0 <= pes_cap cfg.
Proof. unfold pes_cap. pose proof (cf_pes _ Hcfg). destruct (pes_cap_per_pid cfg); cbn; [auto|done]. Qed.
Lemma pes_total_ok : 0 <= pes_total cfg.
Proof. unfold pes_total. pose proof (cf_pes_total _ Hcfg). destruct (pes_cap_total cfg); cbn; [auto|done]. Qed.
Lemma au_cap_ok : 0 <= au_cap cfg.
Proof. unfold au_cap. pose proof (cf_au _ Hcfg). destruct (au_cell_cap_per_pid cfg); cbn; [auto|done]. Qed.
Lemma au_total_ok : 0 <= au_total cfg < u64_max.
Proof. unfold au_total. pose proof (cf_au_total _ Hcfg). destruct (au_cell_cap_total cfg); cbn; [auto|done]. Qed.
Lemma au_slots_ok : 0 <= au_slots cfg.
Proof. unfold au_slots. pose proof (cf_au_slots _ Hcfg). destruct (au_cell_max_in_flight_pids cfg); cbn; [auto|done]. Qed.

Lemma pes_new_ok : pes_held cfg (Reassembler.new (pes_cap cfg) (pes_total cfg)).
Proof. split; [|done..]. apply ReassemblerInv.inv_new, pes_total_ok. Qed.

Lemma au_empty_ok s : AuReassembler.per_pid s = ∅ -> AuReassembler.total_buffered s = 0 ->
  AuReassembler.cap_per_pid s = au_cap cfg -> AuReassembler.cap_total s = au_total cfg ->
  AuReassembler.max_in_flight_pids s = au_slots cfg -> au_held cfg s.
Proof.
  intros Hp Ht Hc Hct Hs. split; [|done..]. split; rewrite ?Hp, ?Ht, ?Hct, ?Hs; [done|lia|apply map_Forall_empty|].
  rewrite map_size_empty. lia.
Qed.

Lemma fresh_ok : core_ok cfg (Demuxer.fresh_core cfg).
Proof.
  split; cbn; [done| |apply map_Forall_empty..| | |apply PatTheorems.inv_clear].
  - apply map_Forall_singleton, assembler_new_ok.
  - apply pes_new_ok.
  - by apply au_empty_ok.
Qed.
End config.

End CoreInv.

(** * Methods that keep it *)
Module Safe.
Import Common DemuxEvent Strict DemuxConfig Core Lookup PacketChecks Emit Demuxer CoreInv.

(** The method keeps the invariant, does not panic, and what it returns
    satisfies [Q]. *)
Definition safe (cfg : DemuxerConfig) {A} (m : M A) (Q : A -> Prop) : Prop :=
  forall c, core_ok cfg c ->
    core_ok cfg (m c).1 /\ match (m c).2 with Ok a => Q a | Err _ => True | Panic => False end.

#[local] Abbreviation any := (fun _ => True).

Create HintDb safe.

Section safe.
Context (cfg : DemuxerConfig) (Hcfg : config_ok cfg) {HO : HashOrder}.
#[local] Abbreviation safe := (safe cfg).
#[local] Abbreviation ok := (core_ok cfg).

Lemma safe_ret {A} (a : A) (Q : A -> Prop) : Q a -> safe (mret a) Q.
Proof. intros ? c ?. done. Qed.

Lemma safe_bind {A B} (m : M A) (k : A -> M B) (Q : A -> Prop) (R : B -> Prop) :
  safe m Q -> (forall a, Q a -> safe (k a) R) -> safe (m ≫= k) R.
Proof.
  intros Hm Hk c Hc. destruct (Hm c Hc) as [Hc' Hq]. unfold mbind, M_bind.
  destruct (m c) as [c' [a|e|]]; cbn in *; [by apply Hk|done|done].
Qed.

Lemma safe_weak {A} (m : M A) (Q R : A -> Prop) : safe m Q -> (forall a, Q a -> R a) -> safe m R.
Proof. intros Hm HQ c Hc. destruct (Hm c Hc) as [? H]. split; [done|]. destruct (m c).2; auto. Qed.

Lemma safe_any {A} (m : M A) (Q : A -> Prop) : safe m Q -> safe m any.
Proof. intros Hm. by eapply safe_weak. Qed.

(** What is read from the state comes from a state that satisfies the invariant. *)
Lemma safe_gets {A} (f : Core -> A) : safe (gets f) (fun x => exists c, ok c /\ x = f c).
Proof. intros c Hc. split; [done|]. cbn. eauto. Qed.

Lemma safe_result {A} (r : res PesParse.DemuxError A) (Q : A -> Prop) :
  match r with Ok a => Q a | Err _ => True | Panic => False end -> safe (result r) Q.
Proof. intros Hr c Hc. done. Qed.

Lemma safe_lift {A} (r : res Empty_set A) (Q : A -> Prop) : (exists a, r = Ok a /\ Q a) -> safe (lift r) Q.
Proof. intros (a & -> & Ha). by apply safe_result. Qed.

Lemma safe_modify f : (forall c, ok c -> ok (f c)) -> safe (modify f) any.
Proof. intros Hf c Hc. split; [by apply Hf|done]. Qed.

Lemma safe_when (b : bool) m : (b = true -> safe m any) -> safe (when b m) any.
Proof. destruct b; intros H; [by apply H|by apply safe_ret]. Qed.

Lemma safe_attempt {A B} (m : M A) (k : res PesParse.DemuxError A -> M B) (Q : A -> Prop) (R : B -> Prop) :
  safe m Q -> (forall r, match r with Ok a => Q a | Err _ => True | Panic => False end -> safe (k r) R) -> safe (attempt m k) R.
Proof.
  intros Hm Hk c Hc. unfold attempt. destruct (Hm c Hc) as [Hc' Hq]. destruct (m c) as [c' r]. cbn in *. by apply Hk.
Qed.

Lemma safe_for_each {A} (P : A -> Prop) (l : list A) f : Forall P l -> (forall a, P a -> safe (f a) any) -> safe (for_each l f) any.
Proof.
  intros Hl Hf. induction Hl as [|a l Ha _ IH]; cbn; [by apply safe_ret|]. by eapply safe_bind; [apply Hf|].
Qed.

Lemma safe_each {A} (l : list A) f : (forall a, safe (f a) any) -> safe (for_each l f) any.
Proof. intros Hf. apply (safe_for_each any); [by apply Forall_true|auto]. Qed.

(** An update of fields the invariant does not mention. *)
Lemma ok_frame c c' : options c' = options c -> psi_assemblers c' = psi_assemblers c -> pid_state c' = pid_state c ->
  pcr c' = pcr c -> pes c' = pes c -> au_reassembler c' = au_reassembler c -> pat_reassembler c' = pat_reassembler c ->
  ok c -> ok c'.
Proof. intros H1 H2 H3 H4 H5 H6 H7 []. split; rewrite ?H1, ?H2, ?H3, ?H4, ?H5, ?H6, ?H7; done. Qed.

(** Updates of the fields it mentions. *)
Lemma ok_set_pid_state c m : ok c -> map_Forall (fun _ => pid_ok) m -> ok (set_pid_state c m).
Proof. intros [] ?. by split. Qed.
Lemma ok_set_pcr c h : ok c -> map_Forall (fun _ => PacketTotal.pcr_range) (Timestamp.pcr_last h) -> ok (set_pcr c h).
Proof. intros [] ?. by split. Qed.
Lemma ok_set_pes c r : ok c -> pes_held cfg r -> ok (set_pes c r).
Proof. intros [] ?. by split. Qed.
Lemma ok_set_au c r : ok c -> au_held cfg r -> ok (set_au_reassembler c r).
Proof. intros [] ?. by split. Qed.
Lemma ok_set_pat c r : ok c -> PatTheorems.inv r -> ok (set_pat_reassembler c r).
Proof. intros [] ?. by split. Qed.
Lemma ok_set_assemblers c m : ok c -> map_Forall (fun _ => assembler_ok) m -> ok (set_psi_assemblers c m).
Proof. intros [] ?. by split. Qed.

Lemma pid_default_ok c pid : ok c -> pid_ok (default PidState.pid_new (pid_state c !! pid)).
Proof. intros Hc. destruct (pid_state c !! pid) as [s|] eqn:Hs; [by apply (co_pids _ _ Hc pid)|apply pid_new_ok]. Qed.

Lemma safe_pid_mut pid f : (forall s, pid_ok s -> pid_ok (f s)) -> safe (pid_state_mut pid f) any.
Proof.
  intros Hf. apply safe_modify. intros c Hc. apply ok_set_pid_state; [done|].
  apply map_Forall_insert_2; [by apply Hf, pid_default_ok|apply Hc].
Qed.

Lemma safe_pid_alter pid f : (forall s, pid_ok s -> pid_ok (f s)) -> safe (pid_state_alter pid f) any.
Proof.
  intros Hf. apply safe_modify. intros c Hc. apply ok_set_pid_state; [done|]. intros p s.
  rewrite lookup_alter. case_decide as Hp; [|by apply (co_pids _ _ Hc)]. intros (s0 & Hs & ->)%fmap_Some_1. by apply Hf, (co_pids _ _ Hc _ _ Hs).
Qed.

Lemma safe_nonconformant stream issue : safe (queue_nonconformant stream issue) any.
Proof. apply safe_modify. intros c. destruct (_ && _); by apply ok_frame. Qed.

Lemma safe_push e : safe (push_event e) any.
Proof. apply safe_modify. intros c. by apply ok_frame. Qed.

End safe.

#[export] Hint Resolve safe_nonconformant safe_push : safe.

(** An update of a PID's state that keeps its ranges. *)
Ltac pid_ok_tac :=
  first [solve [eauto with safe nocore]|idtac];
  let s := fresh "s" in intros s [? ? ? ? ?]; cbv zeta beta; repeat case_match; split; cbn; (done || (intros ? [=]; subst; auto)).

(** One step through a method: a rule for its head, or a lemma about the call. *)
Ltac safe_step :=
  match goal with
  | |- safe _ (mbind _ (gets _)) _ => eapply safe_bind; [apply safe_gets|intros ? (? & ? & ->)]
  | |- safe _ (mbind _ _) _ => eapply (safe_bind _ _ _ (fun _ => True)); [first [solve [eauto with safe]|idtac]|intros ? _]
  | |- safe _ (mret _) _ => by apply safe_ret
  | |- safe _ (fail _) _ => by apply safe_result
  | |- safe _ (for_each _ _) _ => apply safe_each; intros ?
  | |- safe _ (when _ _) _ => apply safe_when; intros ?
  | |- safe _ (pid_state_mut _ _) _ => apply safe_pid_mut; pid_ok_tac
  | |- safe _ (pid_state_alter _ _) _ => apply safe_pid_alter; pid_ok_tac
  | |- safe _ (modify _) _ => apply safe_modify; intros ?; by apply ok_frame
  | |- safe _ (match ?x with _ => _ end) _ => let E := fresh "E" in destruct x eqn:E
  | |- safe _ (let _ := _ in _) _ => cbv zeta
  | |- safe _ _ _ => solve [eauto with safe|eapply safe_any; eauto with safe]
  end.
Ltac safe_all := repeat safe_step.

End Safe.

(** * What a method leaves alone *)
Module Frame.
Import DemuxEvent Core Lookup PacketChecks.

(** The method does not change [f] of the state. *)
Definition keeps {X} (f : Core -> X) {A} (m : M A) : Prop := forall c, f (m c).1 = f c.

Create HintDb frame.

Section frame.
Context {X : Type} (f : Core -> X).
#[local] Abbreviation keeps := (keeps f).

Lemma keeps_ret {A} (a : A) : keeps (mret a).
Proof. done. Qed.
Lemma keeps_gets {A} (g : Core -> A) : keeps (gets g).
Proof. done. Qed.
Lemma keeps_result {A} (r : res PesParse.DemuxError A) : keeps (result r).
Proof. done. Qed.
Lemma keeps_lift {A} (r : res Empty_set A) : keeps (lift r).
Proof. done. Qed.
Lemma keeps_modify g : (forall c, f (g c) = f c) -> keeps (modify g).
Proof. done. Qed.
Lemma keeps_bind {A B} (m : M A) (k : A -> M B) : keeps m -> (forall a, keeps (k a)) -> keeps (m ≫= k).
Proof.
  intros Hm Hk c. unfold mbind, M_bind. specialize (Hm c). destruct (m c) as [c' [a|e|]]; cbn in *; [|done..].
  by rewrite (Hk a c').
Qed.
Lemma keeps_when b m : keeps m -> keeps (when b m).
Proof. by destruct b. Qed.
Lemma keeps_for_each {A} (l : list A) k : (forall a, keeps (k a)) -> keeps (for_each l k).
Proof. intros Hk. induction l as [|a l IH]; cbn; [done|]. apply keeps_bind; auto. Qed.
End frame.

Ltac keeps_step :=
  match goal with
  | |- keeps _ (mbind _ _) => apply keeps_bind; [|intros ?]
  | |- keeps _ (for_each _ _) => apply keeps_for_each; intros ?
  | |- keeps _ (when _ _) => apply keeps_when
  | |- keeps _ (modify _) => apply keeps_modify; intros ?; done
  | |- keeps _ (pid_state_mut _ _) => apply keeps_modify; intros ?; done
  | |- keeps _ (pid_state_alter _ _) => apply keeps_modify; intros ?; done
  | |- keeps _ (push_event _) => apply keeps_modify; intros ?; done
  | |- keeps _ (queue_nonconformant _ _) => apply keeps_modify; intros ?; destruct (_ && _); done
  | |- keeps _ (match ?x with _ => _ end) => destruct x
  | |- keeps _ (let _ := _ in _) => cbv zeta
  | |- keeps _ _ => first [done|solve [eauto with frame]]
  end.
Ltac keeps_all := repeat keeps_step.

(** The method does not raise [f] of the state. *)
Definition lowers (f : Core -> nat) {A} (m : M A) : Prop := forall c, (f (m c).1 <= f c)%nat.

Lemma keeps_lowers f {A} (m : M A) : keeps f m -> lowers f m.
Proof. intros Hm c. by rewrite Hm. Qed.

Lemma lowers_bind f {A B} (m : M A) (k : A -> M B) : lowers f m -> (forall a, lowers f (k a)) -> lowers f (m ≫= k).
Proof.
  intros Hm Hk c. unfold mbind, M_bind. specialize (Hm c). destruct (m c) as [c' [a|e|]]; cbn in *; [|done..].
  etrans; [apply Hk|exact Hm].
Qed.

Lemma lowers_for_each f {A} (l : list A) k : (forall a, lowers f (k a)) -> lowers f (for_each l k).
Proof. intros Hk. induction l as [|a l IH]; [by intros c|]. apply lowers_bind; auto. Qed.

Lemma keeps_compose {X Y} (g : X -> Y) (f : Core -> X) {A} (m : M A) : keeps f m -> keeps (fun c => g (f c)) m.
Proof. intros Hm c. by rewrite Hm. Qed.

(** Safety from the states that satisfy [P]. *)
Section from.
Context (cfg : DemuxConfig.DemuxerConfig).

Definition safe_from (P : Core -> Prop) {A} (m : M A) (Q : A -> Prop) : Prop :=
  forall c, CoreInv.core_ok cfg c -> P c ->
    CoreInv.core_ok cfg (m c).1 /\ match (m c).2 with Ok a => Q a | Err _ => True | Panic => False end.

Lemma from_safe (P : Core -> Prop) {A} (m : M A) (Q : A -> Prop) : Safe.safe cfg m Q -> safe_from P m Q.
Proof. intros Hm c Hc _. by apply Hm. Qed.

Lemma from_gets (P : Core -> Prop) {A B} (g : Core -> A) (k : A -> M B) (Q : B -> Prop) :
  (forall c, CoreInv.core_ok cfg c -> P c -> safe_from P (k (g c)) Q) -> safe_from P (gets g ≫= k) Q.
Proof. intros Hk c Hc HP. by apply (Hk c). Qed.

Lemma from_read {A B} (g : Core -> A) (k : A -> M B) (Q : B -> Prop) :
  (forall x, safe_from (fun c => g c = x) (k x) Q) -> Safe.safe cfg (gets g ≫= k) Q.
Proof. intros Hk c Hc. by apply (Hk (g c)). Qed.

(** A postcondition on the state carries over to what follows. *)
Lemma safe_then {A B} (m : M A) (k : A -> M B) (P : A -> Core -> Prop) (Q : A -> Prop) (R : B -> Prop) :
  Safe.safe cfg m Q -> (forall c a, (m c).2 = Ok a -> P a (m c).1) -> (forall a, safe_from (P a) (k a) R) ->
  Safe.safe cfg (m ≫= k) R.
Proof.
  intros Hm HP Hk c Hc. destruct (Hm c Hc) as [Hc' Hq]. specialize (HP c). unfold mbind, M_bind.
  destruct (m c) as [c' [a|e|]]; cbn in *; [|done|done]. apply Hk; [done|]. by apply HP.
Qed.

Lemma from_weak (P P' : Core -> Prop) {A} (m : M A) (Q : A -> Prop) :
  (forall c, P c -> P' c) -> safe_from P' m Q -> safe_from P m Q.
Proof. intros HP Hm c Hc Hp. apply Hm; auto. Qed.

Lemma from_bind (P : Core -> Prop) {A B} (m : M A) (k : A -> M B) (Q : A -> Prop) (R : B -> Prop) :
  safe_from P m Q -> (forall a, Q a -> Safe.safe cfg (k a) R) -> safe_from P (m ≫= k) R.
Proof.
  intros Hm Hk c Hc HP. destruct (Hm c Hc HP) as [Hc' Hq]. unfold mbind, M_bind.
  destruct (m c) as [c' [a|e|]]; cbn in *; [by apply Hk|done|done].
Qed.

Lemma from_keep {X} (f : Core -> X) (P : X -> Prop) {A B} (m : M A) (k : A -> M B) (Q : A -> Prop) (R : B -> Prop) :
  keeps f m -> Safe.safe cfg m Q -> (forall a, Q a -> safe_from (fun c => P (f c)) (k a) R) ->
  safe_from (fun c => P (f c)) (m ≫= k) R.
Proof.
  intros Hf Hm Hk c Hc HP. destruct (Hm c Hc) as [Hc' Hq]. specialize (Hf c). unfold mbind, M_bind.
  destruct (m c) as [c' [a|e|]]; cbn in *; [|done|done]. apply Hk; [done..|]. by rewrite Hf.
Qed.
End from.

End Frame.
