(* ===== verification/DemuxMethods.v ===== *)
(** Every method of the demuxer keeps the invariant of [DemuxSafe] and does not
    panic. *)
From Stdlib Require Import ZArith Lia Bool String.
From stdpp Require Import base list list_numbers gmap.
From S2P Require Import Prelude.
From S2P Require Import Common.
From S2P Require Import TsPacket.
From S2P Require Import PesDemux.
From S2P Require Import PsiParse.
From S2P Require Import PsiAssembly.
From S2P Require Import PsiWriter.
From S2P Require Import Descriptors.
From S2P Require Import AuCell.
From S2P Require Import DemuxTime.
From S2P Require Import AuReassemble.
From S2P Require Import Latm.
From S2P Require Import DemuxTypes.
From S2P Require Import DemuxState.
From S2P Require Import DemuxIngress.
From S2P Require Import DemuxPsi.
From S2P Require Import DemuxPayload.
From S2P Require Import DemuxPes.
From S2P Require Import Demuxer.
From S2P Require Import DemuxTotal.
From S2P Require Import DemuxSafe.

(** * State, clocks and continuity *)
Module PacketSafe.
Import Common TsParser DemuxEvent Strict DemuxConfig Core Lookup PacketChecks Demuxer CoreInv Safe.
#[local] Abbreviation any := (fun _ => True).

Section safe.
Context (cfg : DemuxerConfig) (Hcfg : config_ok cfg) {HO : HashOrder}.
#[local] Abbreviation safe := (safe cfg).
#[local] Abbreviation ok := (core_ok cfg).

Lemma safe_set_once pid flag set : (forall s b, pid_ok s -> pid_ok (set s b)) -> safe (set_once pid flag set) any.
Proof. intros Hs. unfold set_once. safe_step. safe_step; [apply safe_pid_mut; auto|]. by apply safe_ret. Qed.

Lemma safe_stats pid st prog f : safe (stream_stats_entry pid st prog f) any.
Proof. unfold stream_stats_entry. safe_all. Qed.

Lemma safe_item stream prog n f : safe (record_item stream prog n f) any.
Proof. apply safe_stats. Qed.

Lemma safe_discontinuity stream kind : safe (record_discontinuity stream kind) any.
Proof. unfold record_discontinuity, stream_stats_entry. safe_all. Qed.

Lemma safe_surface pid reason : safe (surface_malformed_pes pid reason) any.
Proof. unfold surface_malformed_pes. safe_all. Qed.

Lemma safe_retire_pcr : safe retire_undeclared_pcr_history any.
Proof.
  apply safe_modify. intros c Hc. apply ok_set_pcr; [done|]. cbn. intros p v Hv.
  apply map_lookup_filter_Some in Hv as [Hv _]. by apply (co_pcr _ _ Hc p).
Qed.

Lemma alter_vacate_ok f pid m : (forall s, pid_ok s -> pid_ok (f s)) -> map_Forall (fun _ => pid_ok) m ->
  map_Forall (fun _ => pid_ok) (alter_vacate f pid m).
Proof.
  intros Hf Hm. unfold alter_vacate. destruct (m !! pid) as [s|] eqn:Hs; [|done].
  destruct (PidState.is_vacant _); [by apply map_Forall_delete|]. apply map_Forall_insert_2; [|done].
  by apply Hf, (Hm pid).
Qed.

Lemma safe_vacate f pid : (forall s, pid_ok s -> pid_ok (f s)) ->
  safe (modify (fun c => set_pid_state c (alter_vacate f pid (pid_state c)))) any.
Proof. intros Hf. apply safe_modify. intros c Hc. apply ok_set_pid_state; [done|]. by apply alter_vacate_ok, Hc. Qed.

Lemma safe_remove_pes pid : safe (remove_pes pid) any.
Proof.
  apply safe_modify. intros c Hc. apply ok_set_pes; [done|]. destruct (co_pes _ _ Hc) as [Hi ? ?].
  destruct (ReassemblerInv.remove_pid_inv _ pid Hi). by eapply pes_same_caps; [apply Hc|..].
Qed.

Lemma safe_set_au r : au_held cfg r -> safe (modify (fun c => set_au_reassembler c r)) any.
Proof. intros Hr. apply safe_modify. intros c Hc. by apply ok_set_au. Qed.

Lemma reset_pid_ok r pid : au_held cfg r -> exists r', AuReassembler.reset_pid (E:=Empty_set) r pid = Ok r' /\ au_held cfg r'.
Proof.
  intros Hr. unfold AuReassembler.reset_pid.
  destruct (AuInv.drop_pid_ok (E:=Empty_set) _ pid (AuInv.inv_seqs r (delete pid (AuReassembler.last_seq r)) (ah_inv _ _ Hr)))
    as (r' & d & -> & Hi & Hs & _).
  rb. eexists. split; [done|]. by eapply au_same_caps.
Qed.

Lemma safe_reset_au pid : safe (reset_au pid) any.
Proof.
  unfold reset_au. safe_step. eapply safe_bind; [apply safe_lift, reset_pid_ok; by apply co_au|]. intros r Hr. by apply safe_set_au.
Qed.

Lemma discard_pid_ok r pid : au_held cfg r ->
  exists x, AuReassembler.discard_pid (E:=Empty_set) r pid = Ok x /\ au_held cfg x.1.
Proof.
  intros Hr. unfold AuReassembler.discard_pid.
  destruct (AuInv.drop_pid_ok (E:=Empty_set) _ pid (AuInv.inv_seqs r (delete pid (AuReassembler.last_seq r)) (ah_inv _ _ Hr)))
    as (r' & d & Hd & Hi & Hs & _).
  eexists. split; [exact Hd|]. by eapply au_same_caps.
Qed.

Lemma safe_discard pid : safe (discard_au_in_progress pid) any.
Proof.
  unfold discard_au_in_progress. safe_step. eapply safe_bind; [apply safe_lift, discard_pid_ok; by apply co_au|].
  intros d Hd. eapply safe_bind; [by apply safe_set_au|]. intros _ _. safe_all.
Qed.

#[local] Hint Resolve safe_stats safe_item safe_discontinuity safe_surface safe_retire_pcr safe_remove_pes safe_reset_au
  safe_discard : safe.

Lemma declare_ok kind program st b s : pid_ok s -> pid_ok (declare kind program st b s).
Proof. unfold declare. revert s. pid_ok_tac. Qed.
#[local] Hint Resolve declare_ok : safe.

Lemma safe_diff diff : safe (apply_topology_diff diff) any.
Proof.
  unfold apply_topology_diff. repeat (safe_step || (apply safe_vacate; pid_ok_tac)).
Qed.

Lemma safe_settle pid : safe (settle_after_pes pid) any.
Proof. unfold settle_after_pes. safe_all. Qed.

Lemma safe_flag pid kind : safe (flag_discontinuity pid kind) any.
Proof. unfold flag_discontinuity. safe_all. Qed.
#[local] Hint Resolve safe_settle safe_flag : safe.

Lemma forget_pts_ok b s : pid_ok s -> pid_ok (forget_pts b s).
Proof. unfold forget_pts. revert s. pid_ok_tac. Qed.
#[local] Hint Resolve forget_pts_ok : safe.

Lemma safe_forget_program pid : safe (forget_program_pts pid) any.
Proof. unfold forget_program_pts. safe_all. Qed.
#[local] Hint Resolve safe_forget_program : safe.

Lemma repeat_ok c pkt : ok c -> zlen (raw pkt) = 188 -> exists b, is_identical_repeat (E:=Empty_set) c pkt = Ok b.
Proof.
  intros Hc Hr. unfold is_identical_repeat. destruct (pid_state c !! pid pkt) as [s|] eqn:Hs; [|eauto].
  case_bool_decide; [|eauto]. destruct (PidState.last_pkt_raw s) as [p|] eqn:Hp; [|eauto].
  apply PacketTotal.pcr_masked_ok; [|done]. by apply (po_raw _ (co_pids _ _ Hc _ _ Hs)).
Qed.

Lemma spec_duplicate_ok c pkt : ok c -> zlen (raw pkt) = 188 -> exists b, is_spec_duplicate (E:=Empty_set) c pkt = Ok b.
Proof.
  intros Hc Hr. unfold is_spec_duplicate. destruct (_ && _); [|eauto]. destruct (repeat_ok c pkt Hc Hr) as [b ->]. rb. eauto.
Qed.

Lemma safe_set_pcr (f : Core -> Timestamp.PcrHistory) :
  (forall c, ok c -> map_Forall (fun _ => PacketTotal.pcr_range) (Timestamp.pcr_last (f c))) ->
  safe (modify (fun c => set_pcr c (f c))) any.
Proof. intros Hf. apply safe_modify. intros c Hc. apply ok_set_pcr; [done|]. by apply Hf. Qed.

Lemma safe_pcr buf pkt : PacketTotal.packet_ok buf pkt -> zlen buf = 188 -> safe (check_pcr pkt) any.
Proof.
  intros [_ _ Hpcr _ Hraw] Hl. unfold check_pcr. cbv zeta.
  assert (zlen (raw pkt) = 188) as Hr by (by rewrite Hraw).
  eapply (safe_bind _ _ _ any); [safe_all|intros _ _]. safe_step.
  eapply (safe_bind _ _ _ any); [|intros _ _].
  { destruct (_ && _); [|by apply safe_ret]. safe_step.
    eapply (safe_bind _ _ _ any); [apply safe_lift|].
    { destruct (spec_duplicate_ok _ pkt ltac:(eassumption) Hr) as [b Hb]. exists b. split; [exact Hb|done]. }
    intros dup _. apply safe_when. intros _. apply safe_set_pcr. intros c Hc. apply Hc. }
  destruct (pcr_27mhz pkt) as [now|] eqn:Hnow; [|by apply safe_ret]. destruct (negb _); [by apply safe_ret|].
  assert (safe (modify (fun c => set_pcr c (Timestamp.record (pcr c) (pid pkt) now))) any) as Hrec.
  { apply safe_set_pcr. intros c Hc. apply map_Forall_insert_2; [by apply Hpcr|apply Hc]. }
  safe_step. eapply (safe_bind _ _ _ any); [by apply (safe_set_pcr (fun _ => _)); intros; apply (co_pcr cfg x0)|intros _ _]. safe_all.
Qed.

Lemma safe_jump pid a b : safe (report_jump pid a b) any.
Proof. unfold report_jump. safe_all. Qed.
#[local] Hint Resolve safe_jump : safe.

Lemma safe_seed buf pkt j : PacketTotal.packet_ok buf pkt -> zlen buf = 188 -> safe (seed_continuity pkt j) any.
Proof.
  intros [_ Hcc _ _ Hraw] Hl. unfold seed_continuity. cbv zeta.
  eapply (safe_bind _ _ _ any); [safe_all|intros _ _].
  eapply (safe_bind _ _ _ any); [|intros _ _; by apply safe_ret].
  apply safe_pid_mut. intros s [? ? ? ? ?]. split; cbn; try done; intros ? [= <-]; [done|by rewrite Hraw].
Qed.

Lemma safe_continuity buf pkt : PacketTotal.packet_ok buf pkt -> zlen buf = 188 -> safe (check_continuity pkt) any.
Proof.
  intros Hpk Hl. assert (zlen (raw pkt) = 188) as Hr by (by rewrite (PacketTotal.pk_raw _ _ Hpk)).
  unfold check_continuity. cbv zeta. safe_step; [safe_all|]. safe_step; [safe_all|]. safe_step; [safe_all|]. safe_step.
  destruct (_ ≫= PidState.cc) as [prev|] eqn:Hprev; [|by eapply safe_seed].
  assert (0 <= prev < 16) as Hpv.
  { unfold id in Hprev. destruct (pid_state _ !! _) as [s|] eqn:Hs; cbn in Hprev; [|done].
    by apply (po_cc _ (co_pids _ _ ltac:(eassumption) _ _ Hs)). }
  eapply (safe_bind _ _ _ any); [apply safe_lift; exists (prev + 1); split; [|done]; unfold chk_u8, checked; by rewrite (proj2 (Z.leb_le _ _)), (proj2 (Z.ltb_lt _ _)) by lia|intros next _].
  eapply (safe_bind _ _ _ any); [apply safe_lift|intros rep _].
  { destruct (repeat_ok _ pkt ltac:(eassumption) Hr) as [b Hb]. exists b. split; [exact Hb|done]. }
  destruct rep; [destruct (was_dup _ _); safe_all|]. safe_step; [safe_all|]. safe_step; [safe_all|]. by eapply safe_seed.
Qed.

(** A reported jump is left for the section assembler to quote. *)
Lemma jump_recorded pid a b : forall c, last_psi_cc_jump (report_jump pid a b c).1 = Some (a, b).
Proof.
  intros c. unfold report_jump. set (k := pid_state_mut pid _ ;; _).
  assert (Frame.keeps last_psi_cc_jump k) as Hk.
  { unfold k, flag_discontinuity, record_discontinuity, stream_stats_entry. Frame.keeps_all. }
  exact (Hk (set_last_psi_cc_jump c (Some (a, b)))).
Qed.

Lemma seed_keeps pkt j : Frame.keeps last_psi_cc_jump (seed_continuity pkt j).
Proof. unfold seed_continuity, flag_discontinuity, record_discontinuity, stream_stats_entry. Frame.keeps_all. Qed.

Lemma seed_value pkt j c v : (seed_continuity pkt j c).2 = Ok v -> v.1 = j.
Proof.
  unfold seed_continuity. cbv zeta. unfold mbind, M_bind at 1. destruct (when _ _ c) as [c1 [u|e|]]; cbn; [|done..].
  by intros [= <-].
Qed.

Lemma continuity_jump pkt c v : (check_continuity pkt c).2 = Ok v -> v.1 = true ->
  last_psi_cc_jump (check_continuity pkt c).1 <> None.
Proof.
  unfold check_continuity. cbv zeta. unfold mbind, M_bind, modify, gets, mret, M_ret. set (c0 := set_last_psi_cc_jump c None).
  destruct (_ =? PID_NULL); [by intros [= <-]|]. destruct (negb _).
  { destruct (when _ _ c0) as [c1 [u|e|]]; [by intros [= <-]|done..]. }
  unfold id. destruct (option_bind _ _ PidState.cc (pid_state c0 !! pid pkt)) as [prev|].
  2:{ intros Hv Ht. apply seed_value in Hv. congruence. }
  destruct (lift (chk_u8 _) c0) as [c1 [next|e|]]; [|done..]. destruct (lift _ c1) as [c2 [rep|e|]]; [|done..].
  destruct rep.
  - destruct (was_dup c0 _); [|by intros [= <-]]. pose proof (jump_recorded (pid pkt) (Z.land next 15) (continuity_counter pkt) c2) as Hj.
    destruct (report_jump _ _ _ c2) as [c3 [u|e|]]; [|done..]. cbn in *. intros _ _. by rewrite Hj.
  - set (c3 := (pid_state_mut (pid pkt) (fun s => PidState.set_dup s false) c2).1).
    change (pid_state_mut (pid pkt) (fun s => PidState.set_dup s false) c2) with (c3, Ok (E:=PesParse.DemuxError) tt). cbv iota beta.
    destruct (negb (_ =? _) && _); cbn [when].
    + pose proof (jump_recorded (pid pkt) (Z.land next 15) (continuity_counter pkt) c3) as Hj.
      destruct (report_jump _ _ _ c3) as [c4 [u|e|]]; [|done..]. cbn in Hj. intros _ _. by rewrite (seed_keeps pkt true c4), Hj.
    + unfold mret, M_ret. intros Hv Ht. apply seed_value in Hv. congruence.
Qed.

End safe.

#[export] Hint Resolve safe_stats safe_item safe_discontinuity safe_surface safe_retire_pcr safe_remove_pes safe_reset_au
  safe_discard safe_diff safe_settle safe_flag safe_forget_program : safe.
End PacketSafe.

(** * Tables *)
Module PsiSafe.
Import Common PsiParse MuxTypes PmtClassify DemuxEvent Strict DemuxConfig Core Lookup Psi CoreInv Safe PacketSafe Frame.
#[local] Abbreviation any := (fun _ => True).

Section safe.
Context (cfg : DemuxerConfig) (Hcfg : config_ok cfg) {HO : HashOrder}.
#[local] Abbreviation safe := (safe cfg).
#[local] Abbreviation from := (safe_from cfg).
#[local] Abbreviation ok := (core_ok cfg).

Lemma from_psi_cc pid : from (fun c => last_psi_cc_jump c <> None) (queue_psi_cc_discontinuity pid) any.
Proof.
  apply from_gets. intros c0 _ Hj. apply from_safe. destruct (last_psi_cc_jump c0) as [[a b]|]; [|done]. safe_all.
Qed.

Lemma reset_assembler_ok (m : gmap Z PsiAssembler.PsiSectionAssembler) pid : map_Forall (fun _ => assembler_ok) m -> map_Forall (fun _ => assembler_ok) (alter PsiAssembler.reset pid m).
Proof.
  intros Hm p a. rewrite lookup_alter. case_decide; [|by apply Hm]. intros (a0 & Ha & ->)%fmap_Some_1.
  split; [apply PsiAssemblerTheorems.inv_empty|done].
Qed.

Lemma safe_reset_assembler pid : safe (reset_assembler pid) any.
Proof. apply safe_modify. intros c Hc. apply ok_set_assemblers; [done|]. apply reset_assembler_ok, Hc. Qed.

(** The reset, then the report of the gap. *)
Lemma from_gap pid : from (fun c => last_psi_cc_jump c <> None) (reset_assembler pid ;; queue_psi_cc_discontinuity pid) any.
Proof.
  eapply (from_keep _ last_psi_cc_jump (fun j => j <> None)); [unfold reset_assembler; keeps_all|apply safe_reset_assembler|].
  intros _ _. apply from_psi_cc.
Qed.

Lemma safe_syntax pid t s : safe (check_psi_syntax pid t s) any.
Proof. unfold check_psi_syntax. safe_all. Qed.
Lemma safe_psi_malformed pid t n : safe (queue_psi_malformed pid t n) any.
Proof. unfold queue_psi_malformed. safe_all. Qed.
#[local] Hint Resolve safe_syntax safe_psi_malformed : safe.

Lemma safe_remove_programs l : forall d, safe (remove_programs l d) any.
Proof. induction l as [|n l IH]; intros d; cbn [remove_programs]; safe_all. Qed.
#[local] Hint Resolve safe_remove_programs : safe.

Lemma safe_pat_programs es b : safe (apply_pat_programs es b) any.
Proof.
  unfold apply_pat_programs. cbv zeta. do 3 safe_step.
  eapply (safe_bind _ _ _ any); [|intros _ _].
  { apply safe_modify. intros c Hc. apply ok_set_assemblers; [done|].
    match goal with |- context [foldl _ _ ?l] => generalize l end. intros l. pose proof (co_assemblers _ _ Hc) as Hm. revert Hm.
    generalize (psi_assemblers c). induction l as [|p l IH]; intros m Hm; cbn; [done|]. by apply IH, map_Forall_delete. }
  safe_step; [safe_all|]. do 2 safe_step. safe_step; [safe_all|]. apply safe_modify. intros c Hc.
  apply ok_set_assemblers; [done|]. destruct (psi_assemblers c !! _); [apply Hc|].
  apply map_Forall_insert_2; [apply assembler_new_ok|apply Hc].
Qed.
#[local] Hint Resolve safe_pat_programs : safe.

Lemma safe_adopt_pat t v es : safe (adopt_pat t v es) any.
Proof. unfold adopt_pat. safe_all. Qed.
#[local] Hint Resolve safe_adopt_pat : safe.

Lemma safe_pat_section s : bytes s -> safe (handle_pat_section s) any.
Proof.
  intros Hb. unfold handle_pat_section. pose proof (PsiTotal.parse_pat_section_total s Hb) as Hp.
  destruct (parse_pat_section s) as [parsed|e|]; [|destruct e; safe_all|done]. safe_step. safe_step; [safe_all|].
  safe_step. eapply (safe_bind _ _ _ (fun o => PatTheorems.inv o.1)); [|intros o Ho].
  { apply safe_lift. pose proof (PatTheorems.accept_ok (E:=Empty_set) _ parsed (co_pat _ _ ltac:(eassumption))) as Ha.
    destruct (PatReassembler.accept _ parsed); [eauto|done..]. }
  eapply (safe_bind _ _ _ any); [apply safe_modify; intros c Hc; by apply ok_set_pat|intros _ _]. safe_all.
Qed.

Lemma link_ok pmt pid : exists l, extract_metadata_link_for_pid (E:=Empty_set) pmt pid = Ok l.
Proof.
  unfold extract_metadata_link_for_pid. destruct (find _ _) as [s|]; [|eauto].
  destruct (DescriptorTheorems.extract_link_ok (descriptors s)) as (l & Hl). eauto.
Qed.

Lemma safe_klv_links pmt n v l : safe (klv_links_of pmt n v l) any.
Proof.
  induction l as [|info l IH]; cbn [klv_links_of]; [by apply safe_ret|].
  eapply (safe_bind _ _ _ any); [|intros ? _; safe_all]. unfold klv_link. safe_step; [safe_all|]. cbv zeta.
  eapply (safe_bind _ _ _ any); [apply safe_lift; destruct (link_ok pmt (si_pid info)) as [x ->]; eauto|]. intros link _. safe_all.
Qed.

Lemma safe_program_map pid pmt n l : safe (build_program_map pid pmt n l) any.
Proof. unfold build_program_map. cbv zeta. eapply (safe_bind _ _ _ any); [apply safe_klv_links|]. intros ? _. by apply safe_ret. Qed.

Lemma kind_ok c pid s : exists k, get_stream_kind (E:=Empty_set) c pid s = Ok k.
Proof.
  unfold get_stream_kind. destruct (_ !! pid); [eauto|].
  destruct (DescriptorTheorems.classify_total (PsiParse.stream_type s) (descriptors s)) as (k & Hk). eauto.
Qed.

Lemma collect_streams_ok c prog ss : forall k, exists k', collect_streams (E:=Empty_set) c prog k ss = Ok k'.
Proof.
  induction ss as [|s ss IH]; intros k; cbn [collect_streams]; [eauto|].
  assert (exists k1, collect_stream (E:=Empty_set) c prog k s = Ok k1) as [k1 ->]; [|rb; apply IH].
  unfold collect_stream. cbv zeta. case_bool_decide; [case_bool_decide; eauto|].
  destruct (kind_ok c (elementary_pid s) s) as [kind ->]. rb. destruct (pid_owner c !! _); [|eauto]. destruct (negb _); eauto.
Qed.

Lemma safe_once pid kind prog flag set issue : (forall s b, pid_ok s -> pid_ok (set s b)) ->
  safe (queue_once pid kind prog flag set issue) any.
Proof.
  intros Hs. unfold queue_once. eapply (safe_bind _ _ _ any); [by apply safe_set_once|]. intros first _. safe_all.
Qed.

Lemma safe_emit_collected n k : safe (emit_collected n k) any.
Proof.
  assert (forall b s, pid_ok s -> pid_ok (PidState.set_subtitle_missing_descriptor_emitted s b)) by (intros b; pid_ok_tac).
  assert (forall b s, pid_ok s -> pid_ok (PidState.set_av1_registration_malformed_emitted s b)) by (intros b; pid_ok_tac).
  assert (forall b s, pid_ok s -> pid_ok (PidState.set_subtitle_descriptor_ambiguous_emitted s b)) by (intros b; pid_ok_tac).
  unfold emit_collected. repeat (safe_step || (apply safe_once; auto)).
Qed.

Lemma from_update_tracker pmt n l : from (fun c => programs c !! n <> None) (update_tracker pmt n l) any.
Proof.
  apply from_gets. intros c0 _ Hn. apply from_safe. destruct (programs c0 !! n) as [t|]; [|done]. safe_all.
Qed.

Lemma keeps_syntax {X} (f : Core -> X) pid t s : (forall stream i, keeps f (queue_nonconformant stream i)) ->
  keeps f (check_psi_syntax pid t s).
Proof. intros Hf. unfold check_psi_syntax. keeps_all. Qed.

Lemma keeps_emit_collected n k : keeps programs (emit_collected n k).
Proof. unfold emit_collected, queue_once, set_once. keeps_all. Qed.

Lemma keeps_klv_links pmt n v l : keeps programs (klv_links_of pmt n v l).
Proof. induction l as [|info l IH]; cbn [klv_links_of]; unfold klv_link; keeps_all. Qed.

Lemma clear_once_ok s : pid_ok s -> pid_ok (clear_once_flags s).
Proof. unfold clear_once_flags. revert s. pid_ok_tac. Qed.
#[local] Hint Resolve clear_once_ok : safe.

Lemma from_adopt_pmt pid pmt : from (fun c => programs c !! pmt_program_number pmt <> None) (adopt_pmt pid pmt) any.
Proof.
  set (P := fun ps : gmap Z ProgramTracker => ps !! pmt_program_number pmt <> None).
  change (from (fun c => P (programs c)) (adopt_pmt pid pmt) any). unfold adopt_pmt. cbv zeta.
  eapply (from_keep _ programs P _ _ any); [keeps_all|safe_all|intros _ _].
  apply from_gets. intros c0 Hc0 _. eapply (from_keep _ programs P _ _ any); [keeps_all| |intros k _].
  { apply safe_lift. destruct (collect_streams_ok (id c0) (pmt_program_number pmt) (PsiParse.streams pmt) collected_empty) as [k Hk]. eauto. }
  eapply (from_keep _ programs P _ _ any); [apply keeps_emit_collected|apply safe_emit_collected|intros _ _].
  apply from_gets. intros c1 _ _. eapply (from_keep _ programs P _ _ any).
  { unfold build_program_map. apply keeps_bind; [apply keeps_klv_links|intros; keeps_all]. }
  { apply safe_program_map. }
  intros m _. eapply (from_bind _ _ _ _ any); [apply from_update_tracker|intros _ _]. safe_all.
Qed.

Lemma safe_pmt_section pid s : bytes s -> safe (handle_pmt_section pid s) any.
Proof.
  intros Hb. unfold handle_pmt_section. safe_step. pose proof (PsiTotal.parse_pmt_total s Hb) as Hp.
  destruct (parse_pmt s) as [pmt|e|]; [|destruct e; safe_all|done]. cbv zeta.
  apply from_read. intros [t|]; [|apply from_safe; safe_all].
  apply (from_weak _ _ (fun c => programs c !! pmt_program_number pmt <> None)).
  { intros c Ht. unfold tracker_for in Ht. by destruct (programs c !! pmt_program_number pmt). }
  set (P := fun ps : gmap Z ProgramTracker => ps !! pmt_program_number pmt <> None).
  eapply (from_keep _ programs P _ _ any); [apply keeps_syntax; intros; keeps_all|apply safe_syntax|intros _ _].
  apply from_gets. intros c _ _. case_bool_decide; [by apply from_safe, safe_ret|]. apply from_adopt_pmt.
Qed.

Lemma safe_dispatch pid b r : PsiAssemblerTheorems.call_ok r -> safe (dispatch_psi_result pid b r) any.
Proof.
  intros Hr. unfold dispatch_psi_result. destruct r as [[s|]|[n|n]|]; cbn in Hr; [|safe_all..|done].
  destruct Hr as (? & ? & ? & ? & _ & Hb & _). eapply (safe_bind _ _ _ any); [|intros; by apply safe_ret].
  destruct b; [by apply safe_pat_section|by apply safe_pmt_section].
Qed.

(** A call of the assembler that keeps its invariant. *)
Definition sound_call (f : PsiAssembler.PsiSectionAssembler -> PsiAssembler.step) : Prop :=
  forall a, assembler_ok a -> assembler_ok (f a).1 /\ PsiAssemblerTheorems.call_ok (f a).2.

Lemma start_call p : bytes p -> sound_call (fun a => PsiAssembler.start_new_section a p).
Proof.
  intros Hp a [Hi Hh]. destruct (PsiAssemblerTheorems.assembler_exec_inv a (PsiAssemblerTheorems.OpStart p) Hi Hh Hp) as (? & ? & ?).
  by split; [split|].
Qed.
Lemma continue_call p : bytes p -> sound_call (fun a => PsiAssembler.append_continuation a p).
Proof.
  intros Hp a [Hi Hh]. destruct (PsiAssemblerTheorems.assembler_exec_inv a (PsiAssemblerTheorems.OpContinue p) Hi Hh Hp) as (? & ? & ?).
  by split; [split|].
Qed.
Lemma try_call : sound_call PsiAssembler.try_complete_section.
Proof.
  intros a [Hi Hh]. destruct (PsiAssemblerTheorems.assembler_exec_inv a PsiAssemblerTheorems.OpTry Hi Hh I) as (? & ? & ?).
  by split; [split|].
Qed.

Lemma safe_assemble pid b f : sound_call f -> safe (assemble pid b f) any.
Proof.
  intros Hf. unfold assemble. eapply (safe_bind _ _ _ (fun r => assembler_ok r.1 /\ PsiAssemblerTheorems.call_ok r.2)).
  - intros c Hc. split; [done|]. cbn. apply Hf. destruct (psi_assemblers c !! pid) as [a|] eqn:Ha; [|apply assembler_new_ok].
    by apply (co_assemblers _ _ Hc pid).
  - intros r [Hr Hcall]. eapply (safe_bind _ _ _ any); [|intros _ _; by apply safe_dispatch].
    apply safe_modify. intros c Hc. apply ok_set_assemblers; [done|]. apply map_Forall_insert_2; [done|apply Hc].
Qed.

(** ** The loop over the sections of a payload *)

Lemma append_split a p s : (PsiAssembler.append a p).2 = Ok (Some s) ->
  PsiAssembler.buf a ++ p = s ++ PsiAssembler.buf (PsiAssembler.append a p).1.
Proof.
  assert (forall x, (PsiAssembler.split_complete x).2 = Ok (Some s) ->
    PsiAssembler.buf x = s ++ PsiAssembler.buf (PsiAssembler.split_complete x).1) as Hsplit.
  { intros x. unfold PsiAssembler.split_complete. destruct (PsiAssembler.declared_total x) as [t|]; [|done].
    destruct (_ <=? _); [|done]. cbn. intros [= <-]. by rewrite ztake_zdrop. }
  unfold PsiAssembler.append. destruct (_ <? _); [done|]. cbn [PsiAssembler.declared_total PsiAssembler.buf].
  destruct (PsiAssembler.declared_total a) as [t|]; [by intros H%Hsplit|].
  destruct (_ <=? _); [|by intros H%Hsplit]. destruct (get _ 1); [|done]. destruct (get _ 2); [|done].
  destruct (_ <? _); [done|]. by intros H%Hsplit.
Qed.

Lemma try_shorter a s : assembler_ok a -> (PsiAssembler.try_complete_section a).2 = Ok (Some s) ->
  (length (PsiAssembler.buf (PsiAssembler.try_complete_section a).1) < length (PsiAssembler.buf a))%nat.
Proof.
  intros Ha Hs. pose proof (proj2 (try_call a Ha)) as Hcall. rewrite Hs in Hcall. apply PsiAssemblerTheorems.framed_len in Hcall.
  unfold PsiAssembler.try_complete_section in *. destruct (PsiAssembler.buf a) as [|b l] eqn:Hb; [done|].
  destruct (_ =? _); [done|]. apply append_split in Hs. rewrite Hb, app_nil_r in Hs. rewrite Hs, length_app. unfold zlen in Hcall. lia.
Qed.

Lemma keeps_pmt_section pid s : keeps psi_assemblers (handle_pmt_section pid s).
Proof.
  assert (forall pmt n v l, keeps psi_assemblers (klv_links_of pmt n v l)) as Hl.
  { intros pmt n v. induction l as [|info l IH]; cbn [klv_links_of]; unfold klv_link; keeps_all. }
  unfold handle_pmt_section, adopt_pmt, check_psi_syntax, queue_psi_malformed, emit_collected, queue_once, set_once,
    build_program_map, update_tracker, apply_topology_diff, remove_pes, reset_au, retire_undeclared_pcr_history.
  keeps_all.
Qed.

(** A measure of the assembler on one PID, least when there is none or a new one. *)
Definition least_new (g : option PsiAssembler.PsiSectionAssembler -> nat) : Prop :=
  (forall x, (g None <= g x)%nat) /\ (g (Some PsiAssembler.new) <= g None)%nat.

Lemma sections_delete g (m : gmap Z PsiAssembler.PsiSectionAssembler) pid l : least_new g ->
  (g (foldl (fun m p => delete p m) m l !! pid) <= g (m !! pid))%nat.
Proof.
  intros [Hg _]. revert m. induction l as [|p l IH]; intros m; cbn; [done|]. etrans; [apply IH|].
  rewrite lookup_delete. case_decide; [apply Hg|done].
Qed.

Lemma lowers_pat_section g pid s : least_new g -> lowers (fun c => g (psi_assemblers c !! pid)) (handle_pat_section s).
Proof.
  intros Hg. set (f := fun c => g (psi_assemblers c !! pid)).
  assert (forall A (m : M A), keeps psi_assemblers m -> lowers f m) as Hk.
  { intros A m Hm c. unfold f. by rewrite Hm. }
  assert (forall l d, keeps psi_assemblers (remove_programs l d)) as Hr.
  { induction l as [|n l IH]; intros d; cbn [remove_programs]; keeps_all. }
  assert (forall es b, lowers f (apply_pat_programs es b)) as Hpat.
  { intros es b. unfold apply_pat_programs. cbv zeta. apply lowers_bind; [by apply Hk|intros removed].
    apply lowers_bind; [by apply Hk|intros diff]. apply lowers_bind; [by apply Hk|intros gone].
    apply lowers_bind; [intros c; by apply (sections_delete g (psi_assemblers c))|intros _].
    apply lowers_bind; [apply Hk; keeps_all|intros _].
    apply lowers_bind; [apply Hk; unfold apply_topology_diff, remove_pes, reset_au, retire_undeclared_pcr_history; keeps_all|intros _].
    apply lowers_for_each. intros e. apply lowers_bind; [apply Hk; keeps_all|intros _]. intros c. unfold f. cbn.
    destruct (psi_assemblers c !! e.2) eqn:He; [done|]. rewrite lookup_insert. case_decide as Hp; [|done]. subst. rewrite He. apply Hg. }
  assert (forall t v es, lowers f (adopt_pat t v es)) as Ha.
  { intros. unfold adopt_pat. cbv zeta. apply lowers_bind; [by apply Hk|intros identity]. destruct identity as [[[? ?] ?]|];
    repeat match goal with |- lowers _ (if ?x then _ else _) => destruct x end;
    first [by apply Hk|apply lowers_bind; [apply Hpat|intros _; apply Hk; keeps_all]]. }
  unfold handle_pat_section. destruct (parse_pat_section s) as [parsed|e|]; [|apply Hk; destruct e; unfold queue_psi_malformed; keeps_all|by apply Hk].
  apply lowers_bind; [apply Hk; unfold check_psi_syntax; keeps_all|intros _]. destruct (_ =? 0); [apply Ha|].
  apply lowers_bind; [by apply Hk|intros r]. apply lowers_bind; [by apply Hk|intros o]. apply lowers_bind; [apply Hk; keeps_all|intros _].
  destruct o.2; first [apply Ha|apply Hk; keeps_all].
Qed.

(** A completed section leaves less in the assembler. *)
Lemma assemble_shorter pid b c : ok c -> (assemble pid b PsiAssembler.try_complete_section c).2 = Ok Completed ->
  (buffered (assemble pid b PsiAssembler.try_complete_section c).1 pid < buffered c pid)%nat.
Proof.
  intros Hc. unfold assemble, mbind, M_bind, gets, modify. cbv beta iota.
  set (a := default PsiAssembler.new (psi_assemblers c !! pid)). set (r := PsiAssembler.try_complete_section a).
  assert (assembler_ok a) as Ha.
  { unfold a. destruct (psi_assemblers c !! pid) as [x|] eqn:Hx; [by apply (co_assemblers _ _ Hc pid)|apply assembler_new_ok]. }
  pose proof (try_shorter a) as Hshort. fold r in Hshort.
  assert (length (PsiAssembler.buf a) = buffered c pid) as Hbuf.
  { unfold a, buffered. by destruct (psi_assemblers c !! pid). }
  unfold dispatch_psi_result. destruct r.2 as [[s|]|[n|n]|] eqn:Hr; [|done| | |done].
  2,3: unfold mbind, M_bind, gets; destruct (queue_nonconformant _ _ _) as [? [?|?|]]; done.
  set (c1 := set_psi_assemblers c _). intros Hres.
  assert (buffered c1 pid < buffered c pid)%nat as H1.
  { unfold buffered at 1, c1. cbn. rewrite lookup_insert, decide_True by done. rewrite <- Hbuf. by eapply Hshort. }
  assert (lowers (fun c => buffered c pid) ((if b then handle_pat_section s else handle_pmt_section pid s) ;; mret Completed)) as Hlow.
  { apply lowers_bind; [|by intros ? ?].
    destruct b; [apply (lowers_pat_section (fun o => match o with Some a => length (PsiAssembler.buf a) | None => 0%nat end)); split; [intros; lia|done]|]. intros c'. unfold buffered. by rewrite keeps_pmt_section. }
  exact (Nat.le_lt_trans _ _ _ (Hlow c1) H1).
Qed.

Lemma from_drain pid b fuel : from (fun c => (buffered c pid < fuel)%nat) (drain_sections fuel pid b) any.
Proof.
  induction fuel as [|fuel IH]; intros c Hc Hf; [lia|]. cbn [drain_sections].
  pose proof (safe_assemble pid b _ try_call c Hc) as [Hc' Hr]. pose proof (assemble_shorter pid b c Hc) as Hs.
  unfold mbind, M_bind. destruct (assemble pid b _ c) as [c' [step|e|]]; cbn in *; [|done|done].
  destruct step; [|done|done]. apply IH; [done|]. specialize (Hs eq_refl). lia.
Qed.

Lemma safe_after pid b step : safe (after_section pid b step) any.
Proof.
  unfold after_section. destruct step; [|by apply safe_ret|by apply safe_ret]. apply from_read. intros n.
  apply (from_weak _ _ (fun c => (buffered c pid < S n)%nat)); [intros; lia|]. apply from_drain.
Qed.

Lemma from_psi pid p u b j : bytes p -> from (fun c => j = true -> last_psi_cc_jump c <> None) (handle_psi pid p u b j) any.
Proof.
  intros Hp. unfold handle_psi. apply from_gets. intros c0 _ _. set (lenient := lenient_psi_reassembly (options c0)).
  destruct (negb u && j && negb lenient) eqn:Hg.
  { eapply from_weak; [|apply from_gap]. intros c Hj. apply Hj. by destruct u, j. }
  cbv zeta. apply from_gets. intros c1 _ _. eapply (from_bind _ _ _ _ any).
  { destruct u, j, lenient; cbn [andb negb when]; try (by apply from_safe, safe_ret).
    destruct (match psi_assemblers c1 !! pid with Some _ => _ | None => _ end); [|by apply from_safe, safe_ret].
    eapply from_weak; [|apply from_gap]. intros c Hj. by apply Hj. }
  intros _ _.
  assert (forall f, sound_call f -> safe (step ← assemble pid b f; after_section pid b step) any) as Hstep.
  { intros f Hf. eapply (safe_bind _ _ _ any); [by apply safe_assemble|]. intros step _. apply safe_after. }
  destruct u; [|by apply Hstep, continue_call]. destruct p as [|x rest]; [by apply safe_ret|].
  destruct (_ <? _); [by apply safe_ret|]. assert (bytes rest) as Hrest by (by inversion Hp).
  eapply (safe_bind _ _ _ any).
  { match goal with |- safe (if ?x then _ else _) _ => destruct x end; [|by apply safe_ret].
    apply safe_assemble, continue_call. auto with zl. }
  intros tail _. destruct tail; [| |by apply safe_ret]; apply Hstep, start_call; auto with zl.
Qed.

End safe.
End PsiSafe.
