(* ===== verification/DemuxEmit.v ===== *)
(** The methods from a completed PES to its events keep the invariant of
    [DemuxSafe] and do not panic, and with them the whole demuxer. *)
From Stdlib Require Import ZArith Lia Bool String.
From stdpp Require Import base list list_numbers gmap.
From S2P Require Import Prelude.
From S2P Require Import Common.
From S2P Require Import TsPacket.
From S2P Require Import PesDemux.
From S2P Require Import PsiParse.
From S2P Require Import PsiAssembly.
From S2P Require Import PsiWriter.
From S2P Require Import Descriptors.
From S2P Require Import AuCell.
From S2P Require Import DemuxTime.
From S2P Require Import AuReassemble.
From S2P Require Import Latm.
From S2P Require Import DemuxTypes.
From S2P Require Import DemuxState.
From S2P Require Import DemuxIngress.
From S2P Require Import DemuxPsi.
From S2P Require Import DemuxPayload.
From S2P Require Import DemuxPes.
From S2P Require Import Demuxer.
From S2P Require Import DemuxTotal.
From S2P Require Import DemuxSafe.
From S2P Require Import DemuxMethods.

(** * Access units *)
Module CellSafe.
Import AuCell AuReassembler.

(** The reassembler has seen this cell and holds nothing for its service. *)
Definition settled (r : AuCellReassembler) (pid : Z) (h : AuCellHeader) : Prop :=
  last_seq r !! pid = Some (sequence_number h) /\ per_pid r !! (pid, metadata_service_id h) = None.

(** The failures after which the demuxer processes the cell again. *)
Definition replays (reason : MultiCellAuReason) (h : AuCellHeader) : Prop :=
  reason = ConcurrentFirst \/ (reason = SequenceGap /\ opens (cell_fragment_indication h) = true).

Lemma append_reason {E} r key s p r' reason d : append_cell (E:=E) r key s p = Ok (r', inr (Failure reason d)) ->
  reason = Overflow \/ reason = OverflowTotal.
Proof.
  unfold append_cell, fail_buffer. destruct (decrement_total _ _ _) as [x| |]; rb;
  repeat match goal with |- context [if ?b then _ else _] => destruct b end; intros; simplify_eq; auto.
Qed.

Lemma open_reason r key h p r' reason d : open_buffer r key h p = (r', Failure reason d) ->
  reason = Overflow \/ reason = OverflowTotal \/ reason = TooManyPids.
Proof.
  unfold open_buffer. repeat match goal with |- context [if ?b then _ else _] => destruct b end; intros; simplify_eq; auto.
Qed.

Lemma replay_settles {E} r pid h p r' reason d : AuInv.inv r -> process_cell (E:=E) r pid h p = Ok (r', Failure reason d) ->
  replays reason h -> settled r' pid h /\ opens (cell_fragment_indication h) = true.
Proof.
  intros Hi. unfold process_cell. set (gap := match last_seq r !! pid with Some _ => _ | None => _ end).
  set (r0 := set_seqs r _). assert (AuInv.inv r0) as Hi0 by (by apply AuInv.inv_seqs).
  assert (last_seq r0 !! pid = Some (sequence_number h)) as Hseq by (cbn; by rewrite lookup_insert, decide_True).
  assert (exists r1 dr, (if gap then drop_pid_buffers (E:=E) r0 pid else Ok (r0, None)) = Ok (r1, dr) /\ AuInv.inv r1 /\
    last_seq r1 = last_seq r0 /\ (dr <> None -> per_pid r1 !! (pid, metadata_service_id h) = None)) as (r1 & dr & -> & Hi1 & Hl1 & Hp1).
  { destruct gap; [|by eexists _, _]. destruct (AuInv.drop_pid_ok (E:=E) r0 pid Hi0) as (r1 & d1 & -> & ? & _ & Hp & Hl & _).
    eexists _, _. split_and!; [done..|]. intros _. rewrite Hp. apply map_lookup_filter_None. right. by intros ? ? []. }
  rewrite <- Hl1 in Hseq. rb. destruct dr as [dr|].
  - intros [= <- <- <-] [[=] | [_ Ho]]. split; [|done]. split; [done|]. by apply Hp1.
  - destruct (per_pid r1 !! _) as [s|] eqn:Hk; destruct (cell_fragment_indication h) eqn:Hcfi.
    + destruct (append_cell r1 _ s p) as [[r2 [s2|o]]| |] eqn:Ha; rb; try done. intros [= <- ->].
      apply append_reason in Ha. intros [-> | [-> _]]; naive_solver.
    + destruct (append_cell r1 _ s p) as [[r2 [s2|o]]| |] eqn:Ha; rb; try done. intros [= <- ->].
      apply append_reason in Ha. intros [-> | [-> _]]; naive_solver.
    + destruct (AuInv.fail_buffer_ok (E:=E) r1 _ s ConcurrentFirst 0 Hi1 Hk) as [-> _]. intros [= <- <- <-] _. split; [|done].
      split; [done|]. cbn. apply lookup_delete_eq.
    + destruct (AuInv.fail_buffer_ok (E:=E) r1 _ s ConcurrentFirst 0 Hi1 Hk) as [-> _]. intros [= <- <- <-] _. split; [|done].
      split; [done|]. cbn. apply lookup_delete_eq.
    + by intros [= <- <- <-] [[=] | [[=] _]].
    + by intros [= <- <- <-] [[=] | [[=] _]].
    + intros [= Ho]. apply open_reason in Ho. intros [-> | [-> _]]; naive_solver.
    + done.
Qed.

Lemma settled_once {E} r pid h p r' reason d : settled r pid h -> opens (cell_fragment_indication h) = true ->
  process_cell (E:=E) r pid h p = Ok (r', Failure reason d) -> ~ replays reason h.
Proof.
  intros [Hs Hk] Ho. unfold process_cell. rewrite Hs, Ho, Z.eqb_refl. cbn [andb negb]. rewrite andb_false_r. rb.
  cbn [per_pid set_seqs]. rewrite Hk. destruct (cell_fragment_indication h); try done.
  intros [= H]. apply open_reason in H. intros [-> | [-> _]]; naive_solver.
Qed.

End CellSafe.

(** * Emission *)
Module EmitSafe.
Import Common PesParse MuxTypes PsiParse PmtClassify DemuxEvent Strict DemuxConfig Core Lookup PacketChecks Payload Emit CoreInv
  Safe PacketSafe PsiSafe Frame PesOutcomes CellSafe.
#[local] Abbreviation any := (fun _ => True).

Section safe.
Context (cfg : DemuxerConfig) (Hcfg : config_ok cfg) {HO : HashOrder}.
#[local] Abbreviation safe := (safe cfg).
#[local] Abbreviation from := (safe_from cfg).
#[local] Abbreviation ok := (core_ok cfg).

(** ** Timing *)

Lemma pcr_90khz_ok c n v : ok c -> program_pcr_90khz c n = Some v -> pts33 v.
Proof.
  intros Hc. unfold program_pcr_90khz. destruct (programs c !! n) as [t|]; cbn; [|done].
  destruct (pt_pcr_pid t) as [p|]; cbn; [|done]. destruct (Timestamp.last (pcr c) p) as [x|] eqn:Hx; cbn; [|done].
  intros [= <-]. pose proof (co_pcr _ _ Hc p x Hx) as Hr. unfold PacketTotal.pcr_range, PCR_WRAP in Hr. unfold pts33.
  split; [apply Z.div_pos; lia|]. apply Z.div_lt_upper_bound; lia.
Qed.

Lemma as_u64_stamp v : pts33 v -> as_u64 v = v.
Proof. unfold pts33, as_u64. intros. apply Z.mod_small. change (2 ^ 33) with 8589934592 in *. lia. Qed.

Lemma diff_stamp now last : pts33 now -> pts33 last -> exists d, pts_diff_33bit (E:=Empty_set) (as_u64 now) (as_u64 last) = Ok d /\ True.
Proof. intros Hn Hl. rewrite !as_u64_stamp by done. destruct (pts_diff_ok (E:=Empty_set) now last Hn Hl) as (d & -> & _). eauto. Qed.

Lemma state_of_ok c pid : ok c -> pid_ok (state_of c pid).
Proof. apply pid_default_ok. Qed.

Lemma safe_run pid stream : safe (time_pts_less_run pid stream) any.
Proof.
  unfold time_pts_less_run. eapply safe_bind; [apply safe_gets|]. intros now (c0 & Hc0 & ->).
  pose proof (fun v => pcr_90khz_ok c0 (sid_program_number stream) v Hc0) as Hnow.
  destruct (program_pcr_90khz c0 _) as [now|].
  all: safe_step; [safe_all|]; safe_step; pose proof (state_of_ok x pid ltac:(done)) as Hs;
    eapply (safe_bind _ _ _ any); [|intros ? _; safe_all]; destruct (PidState.pts_less_run_reported _); [by apply safe_ret|];
    destruct (PidState.pts_less_run_pcr _) as [start|] eqn:Hst.
  - eapply (safe_bind _ _ _ any); [|intros; by apply safe_ret]. apply safe_lift.
    destruct (pts_diff_ok (E:=Empty_set) now start) as (d & -> & _); [by apply Hnow|by apply (po_run _ Hs)|eauto].
  - eapply (safe_bind _ _ _ any); [|intros; by apply safe_ret]. apply safe_pid_mut. intros s [? ? ? ? ?]. split; cbn; try done.
  - by apply safe_ret.
  - eapply (safe_bind _ _ _ any); [|intros; by apply safe_ret]. apply safe_pid_mut. pid_ok_tac.
Qed.

Lemma safe_close pid stream now : pts33 now -> safe (close_pts_less_run pid stream now) any.
Proof.
  intros Hn. unfold close_pts_less_run. safe_step. pose proof (state_of_ok x pid ltac:(done)) as Hs. safe_step; [safe_all|].
  destruct (PidState.last_pts _) as [last|] eqn:Hl; [|by apply safe_ret]. destruct (_ && _); [|by apply safe_ret].
  eapply (safe_bind _ _ _ any); [by apply safe_lift, diff_stamp, (po_pts _ Hs)|intros; safe_all].
Qed.

Lemma safe_order pid stream now : pts33 now -> safe (check_pts_order pid stream now) any.
Proof.
  intros Hn. unfold check_pts_order. eapply safe_bind; [apply safe_gets|]. intros lst (c0 & Hc0 & ->).
  eapply (safe_bind _ _ _ any); [|intros _ _].
  - destruct (_ ≫= PidState.last_pts) as [last|] eqn:Hl; [|by apply safe_ret].
    eapply (safe_bind _ _ _ any); [apply safe_lift, diff_stamp; [done|]|intros; safe_all].
    destruct (pid_state c0 !! pid) as [s|] eqn:Hs; cbn in Hl; [|done]. by apply (po_pts _ (co_pids _ _ Hc0 _ _ Hs)).
  - apply safe_pid_mut. intros s [? ? ? ? ?]. split; cbn; try done. by intros ? [= <-].
Qed.

Lemma safe_timing pes stream : pes_ok pes -> safe (record_pes_timing pes stream) any.
Proof.
  intros (_ & Hpts & _). unfold record_pes_timing. cbv zeta. safe_step.
  eapply (safe_bind _ _ _ any); [|intros _ _].
  { destruct (pts_rule _ _), (pts pes) as [now|] eqn:Hp; try (by apply safe_ret); try apply safe_nonconformant; [|apply safe_run].
    apply safe_close. by apply Hpts. }
  eapply (safe_bind _ _ _ any); [|intros _ _].
  { destruct (_ && _ && _); [|by apply safe_ret]. eapply (safe_bind _ _ _ any); [apply safe_set_once|intros; safe_all].
    intros s b. revert s. pid_ok_tac. }
  eapply (safe_bind _ _ _ any); [|intros _ _].
  { destruct (pts pes) as [now|] eqn:Hp; [|by apply safe_ret]. apply safe_order. by apply Hpts. }
  eapply safe_bind; [apply safe_gets|]. intros o (c0 & Hc0 & ->). rewrite (co_options _ _ Hc0), (cf_raw_times _ Hcfg). by apply safe_ret.
Qed.

(** ** Events *)

Lemma safe_pes_event d stream e : safe (push_pes_event d stream e) any.
Proof. unfold push_pes_event. safe_all. Qed.
Lemma safe_raise stream i : safe (raise stream i) any.
Proof. unfold raise. safe_all. Qed.
Lemma safe_mismatch pid : safe (Psi.klv_mismatch_insert pid) any.
Proof. unfold Psi.klv_mismatch_insert. safe_all. Qed.
#[local] Hint Resolve safe_pes_event safe_raise safe_mismatch : safe.

Lemma codec_mut_ok k f s : pid_ok s -> pid_ok (PidState.codec_mut s k f).
Proof. unfold PidState.codec_mut. revert s. pid_ok_tac. Qed.
#[local] Hint Resolve codec_mut_ok : safe.

Lemma safe_emit_metadata stream n t k b d : safe (emit_metadata stream n t k b d) any.
Proof. unfold emit_metadata, count_klv. safe_all. Qed.
#[local] Hint Resolve safe_emit_metadata : safe.

Lemma safe_latm pes d stream : pes_ok pes -> safe (check_latm_framing pes d stream) any.
Proof.
  intros (Hb & _). unfold check_latm_framing. cbv zeta. safe_step.
  eapply (safe_bind _ _ _ (fun r => LatmTotal.latm_ok r.1)); [|intros r Hr].
  - apply safe_lift. destruct (LatmTotal.latm_check_ok (E:=Empty_set) (PidState.latm (state_of x (pid pes))) (payload pes)
      (data_alignment_indicator pes) d) as (s' & i & -> & Hs); [|done|eauto].
    by apply (po_latm _ (state_of_ok x (pid pes) ltac:(done))).
  - eapply (safe_bind _ _ _ any); [|intros _ _; unfold raise_latm_framing; safe_all].
    apply safe_pid_mut. intros s [? ? ? ? ?]. by split.
Qed.

(** ** Metadata cells *)

Lemma safe_set_cell r : au_held cfg r -> safe (set_au r) any.
Proof. apply safe_set_au. Qed.

Lemma emitted_clear r pid svc : au_held cfg r ->
  exists r', AuReassembler.clear_after_emit (E:=Empty_set) r pid svc = Ok r' /\ au_held cfg r'.
Proof.
  intros Hr. destruct (AuInv.clear_after_emit_ok (E:=Empty_set) r pid svc (ah_inv _ _ Hr)) as (r' & -> & Hi & Hs & _).
  eexists. split; [done|]. by eapply au_same_caps.
Qed.

Lemma from_lift_ok (P : Core -> Prop) {A B} (a : A) (k : A -> M B) (Q : B -> Prop) : from P (k a) Q -> from P (lift (Ok a) ≫= k) Q.
Proof. done. Qed.

Lemma from_set_cell (P : Core -> Prop) {B} r (m : M B) (Q : B -> Prop) : au_held cfg r ->
  from (fun c => au_reassembler c = r) m Q -> from P (set_au r ;; m) Q.
Proof. intros Hr Hm c Hc _. apply (Hm (set_au_reassembler c r)); [by apply ok_set_au|done]. Qed.

(** One turn of the replay loop: a failure that replays the cell must leave a
    state the next turn is safe from. *)
Lemma from_cells (P : Core -> Prop) fuel pid stream n t reset h inner d : bytes inner ->
  (forall r r' reason k, au_held cfg r -> (exists c, P c /\ au_reassembler c = r) ->
     AuReassembler.process_cell (E:=Empty_set) r pid h inner = Ok (r', AuReassembler.Failure reason k) -> replays reason h ->
     from (fun c => au_reassembler c = r') (process_cells fuel pid stream n t reset h inner d) any) ->
  from P (process_cells (S fuel) pid stream n t reset h inner d) any.
Proof.
  intros Hb Hfail. cbn [process_cells]. apply from_gets. intros c Hc HP. pose proof (co_au _ _ Hc) as Hau.
  destruct (AuInv.process_cell_ok (E:=Empty_set) (au_reassembler c) pid h inner (ah_inv _ _ Hau) Hb) as (r' & o & Ho & Hi & Hs).
  { rewrite (ah_total _ _ Hau). apply (au_total_ok _ Hcfg). }
  assert (au_held cfg r') as Hr' by (by eapply au_same_caps). rewrite Ho. apply from_lift_ok. cbn [fst snd].
  apply from_set_cell; [done|]. destruct o as [h' body count| |reason k]; [| |cbv zeta].
  - apply from_safe. eapply (safe_bind _ _ _ any); [|intros _ _; safe_all]. destruct (1 <? count); [|by apply safe_ret].
    safe_step. eapply safe_bind; [apply safe_lift, emitted_clear; by apply co_au|]. intros r Hr. by apply safe_set_cell.
  - by apply from_safe, safe_ret.
  - apply from_gets. intros c2 _ _. eapply (from_keep _ au_reassembler (fun r => r = r') _ _ any); [keeps_all| |].
    { match goal with |- safe (if ?x then _ else _) _ => destruct x end; [|by apply safe_ret].
      apply safe_lift. destruct (PayloadTotal.orphan_ok (E:=Empty_set) inner) as [b Hbb]. eauto. }
    intros tol _. destruct tol; [apply from_safe; safe_all|].
    eapply (from_keep _ au_reassembler (fun r => r = r') _ _ any); [keeps_all|apply safe_nonconformant|intros _ _].
    destruct (_ || _) eqn:Hrep; [|by apply from_safe, safe_ret]. apply (Hfail (au_reassembler c) r' reason k); [done|eauto|done|].
    unfold replays. destruct (AuCell.cell_fragment_indication h), reason; cbn in Hrep; try done; auto.
Qed.

Lemma safe_process_cell pid stream n t reset h inner d : bytes inner -> safe (process_cell pid stream n t reset h inner d) any.
Proof.
  intros Hb. unfold process_cell. intros c Hc. revert c Hc.
  assert (from any (process_cells 2 pid stream n t reset h inner d) any) as H; [|intros c Hc; by apply H].
  apply from_cells; [done|]. intros r r1 reason k Hr _ Hp Hrep.
  destruct (replay_settles _ _ _ _ _ _ _ (ah_inv _ _ Hr) Hp Hrep) as [Hset Hop].
  apply from_cells; [done|]. intros r2 r3 reason2 k2 _ (c & <- & <-) Hp2 Hrep2. exfalso.
  by eapply (settled_once (au_reassembler c)).
Qed.

Lemma safe_walk_cells pid stream n t reset cells : Forall PayloadTotal.item_ok cells ->
  forall g d, safe (walk_cells pid stream n t reset cells g d) any.
Proof.
  intros Hc. induction Hc as [|[[[h inner] e]|e] cells Hi _ IH]; intros g d; cbn [walk_cells]; [by apply safe_ret| |safe_all].
  cbv zeta. eapply (safe_bind _ _ _ any); [safe_all|intros _ _].
  eapply (safe_bind _ _ _ any); [by apply safe_process_cell|]. intros d' _. apply IH.
Qed.

Lemma begin_wrapper_ok r pid : au_held cfg r -> au_held cfg (AuReassembler.begin_wrapper r pid).
Proof. intros Hr. eapply au_same_caps; [done|apply AuInv.inv_seqs, Hr|done]. Qed.

Lemma safe_emit_klv pes kind stream n t dts gap d : pes_ok pes -> safe (emit_klv pes kind stream n t dts gap d) any.
Proof.
  intros (Hb & _). unfold emit_klv. cbv zeta.
  eapply (safe_bind _ _ _ any); [|intros shape _].
  { apply safe_lift. destruct (PayloadTotal.classify_klv_ok (E:=Empty_set) (payload pes) Hb) as (s & -> & _). eauto. }
  eapply (safe_bind _ _ _ any); [safe_all|intros _ _]. destruct shape; [|safe_all..].
  eapply (safe_bind _ _ _ any); [safe_all|intros _ _]. eapply (safe_bind _ _ _ any); [|intros _ _].
  { apply safe_modify. intros c Hc. apply ok_set_au; [done|]. by apply begin_wrapper_ok, Hc. }
  safe_step. eapply (safe_bind _ _ _ (Forall PayloadTotal.item_ok)); [|intros cells Hcells; by apply safe_walk_cells].
  apply safe_lift. destruct (PayloadTotal.iter_cells_ok (E:=Empty_set) (payload pes) Hb) as (l & -> & Hl). eauto.
Qed.

Lemma safe_emit_video pes codec stream n t dts d : safe (emit_video pes codec stream n t dts d) any.
Proof. unfold emit_video. safe_all. Qed.

Lemma safe_emit_unknown pes st stream n t dts d : safe (emit_unknown pes st stream n t dts d) any.
Proof. unfold emit_unknown. safe_all. Qed.

Lemma safe_emit_audio pes codec stream n t d : pes_ok pes -> safe (emit_audio pes codec stream n t d) any.
Proof.
  intros Hpes. unfold emit_audio. cbv zeta. eapply (safe_bind _ _ _ any); [safe_all|intros _ _].
  eapply (safe_bind _ _ _ any); [|intros rej _].
  { destruct (bool_decide _); [by apply safe_latm|by apply safe_ret]. }
  destruct rej; [by apply safe_ret|]. eapply (safe_bind _ _ _ any); [|intros frames _].
  { apply safe_lift. destruct (PayloadTotal.frames_ok (E:=Empty_set) codec (payload pes)) as [k ->]; [apply Hpes|eauto]. }
  safe_all.
Qed.

Lemma safe_surfaced pes codec stream : safe (surfaced_payload pes codec stream) any.
Proof.
  unfold surfaced_payload. cbv zeta. safe_step. destruct codec; [| |by apply safe_ret..].
  - eapply (safe_bind _ _ _ any); [|intros r _; safe_all].
    apply safe_lift. destruct (PayloadTotal.strip_ok (E:=Empty_set) (payload pes)) as [r ->]. eauto.
  - eapply (safe_bind _ _ _ any); [|intros r _; safe_all].
    match goal with |- safe (if ?x then _ else _) _ => destruct x end; [|by apply safe_ret].
    apply safe_lift. destruct (PayloadTotal.teletext_ok (E:=Empty_set) (payload pes)) as [r ->]. eauto.
Qed.
#[local] Hint Resolve safe_surfaced : safe.

Lemma subtitle_seen_ok s b : pid_ok s -> pid_ok (PidState.set_subtitle_seen s b).
Proof. revert s. pid_ok_tac. Qed.

Lemma safe_emit_subtitle pes codec stream n t d : safe (emit_subtitle pes codec stream n t d) any.
Proof.
  unfold emit_subtitle. cbv zeta. eapply (safe_bind _ _ _ any); [apply safe_set_once, subtitle_seen_ok|intros first _]. safe_all.
Qed.

Lemma safe_emit pes d g : pes_ok pes -> safe (emit_complete_pes pes d g) any.
Proof.
  intros Hpes. unfold emit_complete_pes. cbv zeta. safe_step. destruct (stream_kind _ _) as [kind|]; [|by apply safe_ret]. safe_step.
  eapply (safe_bind _ _ _ any); [safe_all|intros _ _].
  eapply (safe_bind _ _ _ any); [by apply safe_timing|intros t _].
  destruct kind; first [apply safe_emit_video|by apply safe_emit_klv|by apply safe_emit_audio|apply safe_emit_subtitle|apply safe_emit_unknown].
Qed.

Lemma safe_complete_pes pes d g : pes_ok pes -> safe (handle_complete_pes pes d g) any.
Proof.
  intros Hpes. unfold handle_complete_pes. cbv zeta. safe_step. eapply (safe_bind _ _ _ any); [safe_all|intros _ _].
  eapply (safe_bind _ _ _ any); [by apply safe_emit|intros left _]. safe_all.
Qed.

Lemma safe_drop_damaged pes : pes_ok pes -> safe (drop_damaged_pes pes) any.
Proof.
  intros Hpes. unfold drop_damaged_pes. cbv zeta. safe_step. eapply (safe_bind _ _ _ any); [|intros _ _; safe_all].
  destruct (lookup_stream _ _); [|by apply safe_ret]. eapply (safe_bind _ _ _ any); [by apply safe_timing|intros; by apply safe_ret].
Qed.

(** ** Reassembly outcomes *)

Lemma safe_set_pes r : pes_held cfg r -> safe (modify (fun c => set_pes c r)) any.
Proof. intros Hr. apply safe_modify. intros c Hc. by apply ok_set_pes. Qed.

Lemma take_gap_ok r pid : pes_held cfg r -> pes_held cfg (Reassembler.take_gap r pid).2.
Proof. intros Hr. destruct (ReassemblerInv.take_gap_inv r pid (ph_inv _ _ Hr)). by eapply pes_same_caps. Qed.

Lemma take_total_ok r : pes_held cfg r -> pes_held cfg (Reassembler.take_total_overflow_pids r).2.
Proof. intros [[] ? ?]. by split; [split|..]. Qed.

Lemma safe_complete pes k : pes_ok pes -> safe (complete_outcome pes k) any.
Proof.
  intros Hpes. unfold complete_outcome. cbv zeta. destruct (bool_decide _).
  { eapply (safe_bind _ _ _ any); [by apply safe_drop_damaged|intros; by apply safe_ret]. }
  eapply (safe_bind _ _ _ any); [|intros gap _].
  - match goal with |- safe (if ?x then _ else _) _ => destruct x end; [|by apply safe_ret]. safe_step.
    eapply (safe_bind _ _ _ any); [|intros _ _; by apply safe_ret]. apply safe_set_pes, take_gap_ok. by apply co_pes.
  - eapply (safe_bind _ _ _ any); [by apply safe_complete_pes|intros; by apply safe_ret].
Qed.

Lemma safe_lose pid kind : safe (lose_pes pid kind) any.
Proof. unfold lose_pes. safe_all. Qed.
#[local] Hint Resolve safe_lose : safe.

Lemma safe_handle_outcome pid s o k : outcome_ok o -> safe (handle_outcome pid s o k) any.
Proof.
  intros Ho. unfold handle_outcome. destruct o as [pes|p| |p sid|p reason]; [by apply safe_complete|safe_all| |safe_all|].
  - safe_step. eapply (safe_bind _ _ _ any); [apply safe_set_pes, take_total_ok; by apply co_pes|intros _ _]. safe_all.
  - safe_step. match goal with |- safe (if ?x then _ else _) _ => destruct x end; [by apply safe_ret|].
    eapply safe_attempt; [apply safe_surface|]. intros r Hr. destruct r as [u|e|]; [safe_all|safe_all|done].
Qed.

Lemma safe_outcomes pid s n os : Forall outcome_ok os -> forall i k, safe (handle_outcomes pid s n i os k) any.
Proof.
  intros Hos. induction Hos as [|o os Ho _ IH]; intros i k; cbn [handle_outcomes]; [by apply safe_ret|].
  eapply (safe_bind _ _ _ any); [safe_all|intros _ _]. eapply (safe_bind _ _ _ any); [by apply safe_handle_outcome|]. auto.
Qed.

Lemma safe_pes_packet buf pkt : PacketTotal.packet_ok buf pkt -> safe (handle_pes_packet pkt) any.
Proof.
  intros Hpk. unfold handle_pes_packet. cbv zeta. do 2 safe_step. eapply (safe_bind _ _ _ any); [safe_all|intros _ _].
  safe_step. eapply (safe_bind _ _ _ any); [safe_all|intros _ _].
  eapply safe_bind; [apply safe_gets|]. intros r (c0 & Hc0 & ->). pose proof (co_pes _ _ Hc0) as Hpes.
  eapply (safe_bind _ _ _ (fun p => pes_held cfg p.1 /\ Forall outcome_ok p.2.1)); [|intros p [Hp1 Hp2]].
  { apply safe_lift. edestruct (push_split_ok (E:=Empty_set) (pes c0)) as (r' & out & n & -> & Hi & Hk & Hout);
      [apply Hpes|apply Hpk|rewrite (ph_total _ _ Hpes); apply (pes_total_ok _ Hcfg)|rewrite (ph_cap _ _ Hpes); apply (pes_cap_ok _ Hcfg)|].
    eexists. split; [done|]. split; [by eapply pes_same_caps|done]. }
  eapply (safe_bind _ _ _ any); [by apply safe_set_pes|intros _ _].
  eapply (safe_bind _ _ _ any); [by apply safe_outcomes|intros _ _]. safe_all.
Qed.

End safe.
End EmitSafe.
