(* ===== verification/DemuxerTheorems.v ===== *)
(** What the whole demuxer promises: any bytes in any calls, without a panic and
    within the configured memory, and the strict verdict. *)
From Stdlib Require Import ZArith Lia Bool String.
From stdpp Require Import base list list_numbers gmap.
From S2P Require Import Prelude.
From S2P Require Import Common.
From S2P Require Import TsPacket.
From S2P Require Import PesDemux.
From S2P Require Import PsiParse.
From S2P Require Import PsiAssembly.
From S2P Require Import PsiWriter.
From S2P Require Import Descriptors.
From S2P Require Import Sync.
From S2P Require Import Ingress.
From S2P Require Import DemuxTime.
From S2P Require Import AuReassemble.
From S2P Require Import DemuxTypes.
From S2P Require Import DemuxState.
From S2P Require Import DemuxIngress.
From S2P Require Import DemuxPsi.
From S2P Require Import DemuxPes.
From S2P Require Import Demuxer.
From S2P Require Import DemuxLedger.
From S2P Require Import DemuxTotal.
From S2P Require Import DemuxSafe.
From S2P Require Import DemuxMethods.
From S2P Require Import DemuxEmit.

(** * Every call *)
Module DemuxerSafe.
Import Common TsParser DemuxEvent Strict DemuxConfig Core Lookup PacketChecks Demuxer DemuxApi CoreInv Safe Frame PacketSafe
  PsiSafe EmitSafe PesOutcomes.
#[local] Abbreviation any := (fun _ => True).

Section safe.
Context (cfg : DemuxerConfig) (Hcfg : config_ok cfg) {HO : HashOrder} (debug : NonConformantIssue -> string).
#[local] Abbreviation safe := (safe cfg).
#[local] Abbreviation ok := (core_ok cfg).

Lemma safe_gap pid : safe (mark_gap pid) any.
Proof.
  unfold mark_gap. safe_step. eapply (safe_bind _ _ _ any); [|intros _ _; safe_all].
  apply safe_modify. intros c Hc. apply ok_set_pes; [done|]. pose proof (co_pes _ _ Hc) as Hp.
  destruct (ReassemblerInv.mark_damaged_inv _ pid (ph_inv _ _ Hp)). by eapply pes_same_caps.
Qed.

Lemma safe_route buf pkt : PacketTotal.packet_ok buf pkt -> zlen buf = 188 -> safe (route_packet pkt) any.
Proof.
  intros Hpk Hl. pose proof (PacketTotal.pk_payload _ _ Hpk) as Hb. unfold route_packet. cbv zeta.
  apply (safe_then _ _ _ (fun v c => v.1 = true -> last_psi_cc_jump c <> None) any); [by eapply safe_continuity|apply continuity_jump|].
  intros [jump dup]. cbn [fst snd]. destruct dup; [by apply from_safe, safe_ret|]. destruct (_ =? 0); [by apply from_psi|].
  apply from_gets. intros c2 _ _. destruct (bool_decide _); [by apply from_psi|]. apply from_safe. safe_step.
  destruct (_ && _); [|by apply safe_ret]. eapply (safe_bind _ _ _ any); [apply safe_when; intros; apply safe_gap|intros _ _].
  by eapply safe_pes_packet.
Qed.

Lemma safe_process buf : bytes buf -> zlen buf = 188 -> safe (process_packet buf) any.
Proof.
  intros Hb Hl. unfold process_packet. pose proof (PacketTotal.parse_total buf Hb Hl) as Hp.
  destruct (parse_ts_packet buf) as [pkt|e|]; [|destruct e; try (by apply safe_ret)|done].
  - cbv zeta. destruct (transport_error_indicator pkt); [safe_all|].
    eapply (safe_bind _ _ _ any); [by eapply safe_pcr|intros _ _]. destruct (negb _); [safe_all|].
    eapply (safe_bind _ _ _ any); [safe_all|intros _ _]. by eapply safe_route.
  - eapply (safe_bind _ _ _ any); [apply safe_lift|intros pid _; safe_all].
    destruct (idx_ok (E:=Empty_set) buf 1) as (b1 & _ & ->); [lia|]. rb.
    destruct (idx_ok (E:=Empty_set) buf 2) as (b2 & _ & ->); [lia|]. rb. eauto.
Qed.

Lemma ok_fatal c i : ok c -> ok (set_fatal c i).
Proof. by apply ok_frame. Qed.

Lemma feed_packet_safe c buf : ok c -> bytes buf -> zlen buf = 188 ->
  ok (feed_packet debug c buf).1 /\ (feed_packet debug c buf).2 <> Panic.
Proof.
  intros Hc Hb Hl. unfold feed_packet. destruct (safe_process buf Hb Hl c Hc) as [Hc1 Hr].
  destruct (process_packet buf c) as [c1 r]. cbn in *.
  assert (safe (handle_process_packet_result r) any) as Hh.
  { unfold handle_process_packet_result. destruct r as [u|e|]; [by apply safe_result| |done].
    destruct e; try (by apply safe_result). apply safe_surface. }
  destruct (Hh c1 Hc1) as [Hc2 Hr2]. destruct (handle_process_packet_result r c1) as [c2 [u|e|]]; cbn in *; [|split; [by apply ok_fatal|done]|done].
  destruct (fatal c2); cbn; [split; [by apply ok_fatal|done]|done].
Qed.

Lemma safe_flush_outcomes os : Forall outcome_ok os -> forall k, safe (flush_outcomes os k) any.
Proof.
  intros Hos. induction Hos as [|o os Ho _ IH]; intros k; cbn [flush_outcomes]; [by apply safe_ret|].
  eapply (safe_bind _ _ _ any); [|intros k' _; apply IH]. unfold flush_outcome. destruct o; [by apply safe_complete|safe_all..].
Qed.

Lemma safe_flush : safe flush_core any.
Proof.
  unfold flush_core. eapply safe_bind; [apply safe_gets|]. intros r (c0 & Hc0 & ->). pose proof (co_pes _ _ Hc0) as Hpes.
  eapply (safe_bind _ _ _ (fun p => pes_held cfg p.1 /\ Forall outcome_ok p.2)); [|intros p [Hp1 Hp2]].
  { apply safe_lift. destruct (pes_drain_ok (E:=Empty_set) (pes c0)) as (r' & out & -> & Hi & Hk & Hout);
      [apply Hpes|rewrite (ph_total _ _ Hpes); apply (pes_total_ok _ Hcfg)|].
    eexists. split; [done|]. split; [by eapply pes_same_caps|done]. }
  eapply (safe_bind _ _ _ any); [by apply safe_set_pes|intros _ _].
  eapply (safe_bind _ _ _ any); [by apply safe_flush_outcomes|intros _ _]. safe_all.
Qed.

Lemma reset_pid_states_ok f m : (forall s, pid_ok s -> pid_ok (f s)) -> map_Forall (fun _ => pid_ok) m ->
  map_Forall (fun _ => pid_ok) (reset_pids f m).
Proof.
  intros Hf Hm p s. unfold reset_pids. rewrite lookup_omap. destruct (m !! p) as [s0|] eqn:Hs; cbn; [|done].
  destruct (PidState.is_vacant _); [done|]. intros [= <-]. by apply Hf, (Hm p).
Qed.

Lemma reset_sync_ok c : ok c -> ok (reset_sync_core c).
Proof.
  intros Hc. pose proof (co_options _ _ Hc) as Ho. pose proof (co_au _ _ Hc) as [_ H1 H2 H3].
  split; cbn; [done|apply map_Forall_singleton, assembler_new_ok| |apply map_Forall_empty| | |apply PatTheorems.inv_clear].
  - apply reset_pid_states_ok; [pid_ok_tac|apply Hc].
  - rewrite Ho. by apply pes_new_ok.
  - by apply au_empty_ok.
Qed.

Lemma reset_stats_ok c : ok c -> ok (reset_stats_core c).
Proof. intros [? ? ? ? ? ? ?]. split; cbn; try done. apply reset_pid_states_ok; [pid_ok_tac|done]. Qed.

End safe.
End DemuxerSafe.

(** * [flush] returns nothing, errors included *)
Module NoError.
Import DemuxEvent Core Lookup PacketChecks Emit Demuxer.

Definition errorless {A} (m : M A) : Prop := forall c e, (m c).2 <> Err e.

Lemma errorless_bind {A B} (m : M A) (k : A -> M B) : errorless m -> (forall a, errorless (k a)) -> errorless (m ≫= k).
Proof.
  intros Hm Hk c e. unfold mbind, M_bind. specialize (Hm c). destruct (m c) as [c' [a|e'|]]; cbn in *; [apply Hk|by destruct (Hm e')|done].
Qed.
Lemma errorless_lift {A} (r : res Empty_set A) : errorless (lift r).
Proof. intros c e. by destruct r as [|[]|]. Qed.
Lemma errorless_when b m : errorless m -> errorless (when b m).
Proof. by destruct b. Qed.
Lemma errorless_for_each {A} (l : list A) k : (forall a, errorless (k a)) -> errorless (for_each l k).
Proof. intros Hk. induction l as [|a l IH]; [by intros c e|]. apply errorless_bind; auto. Qed.

Create HintDb errorless.
#[local] Hint Resolve errorless_lift : errorless.

Ltac errorless_step :=
  match goal with
  | |- errorless (mbind _ _) => apply errorless_bind; [|intros ?]
  | |- errorless (for_each _ _) => apply errorless_for_each; intros ?
  | |- errorless (when _ _) => apply errorless_when
  | |- errorless (match ?x with _ => _ end) => destruct x
  | |- errorless (let _ := _ in _) => cbv zeta
  | |- errorless _ => first [solve [eauto with errorless]|by intros ? ?]
  end.
Ltac errorless_all := repeat errorless_step.

Section order.
Context {HO : HashOrder}.

Lemma timing_errorless pes stream : errorless (record_pes_timing pes stream).
Proof.
  unfold record_pes_timing, time_pts_less_run, close_pts_less_run, check_pts_order, unwrap_pair, unwrap_pts, set_once. errorless_all.
Qed.
Lemma discard_errorless pid : errorless (discard_au_in_progress pid).
Proof. unfold discard_au_in_progress. errorless_all. Qed.
#[local] Hint Resolve timing_errorless discard_errorless : errorless.
Lemma settle_errorless pid : errorless (settle_after_pes pid).
Proof. unfold settle_after_pes. errorless_all. Qed.
Lemma metadata_errorless stream n t k b d : errorless (emit_metadata stream n t k b d).
Proof. unfold emit_metadata, push_pes_event, record_item, stream_stats_entry, count_klv. errorless_all. Qed.
#[local] Hint Resolve settle_errorless metadata_errorless : errorless.
Lemma cells_errorless n pid stream p t r h i : forall d, errorless (process_cells n pid stream p t r h i d).
Proof. induction n; intros d; cbn [process_cells]; unfold set_au; errorless_all. Qed.
#[local] Hint Resolve cells_errorless : errorless.
Lemma walk_errorless pid stream p t r cells : forall g d, errorless (walk_cells pid stream p t r cells g d).
Proof. induction cells as [|[[[? ?] ?]|] cells IH]; intros g d; cbn [walk_cells]; unfold process_cell; errorless_all. Qed.
#[local] Hint Resolve walk_errorless : errorless.
Lemma emit_errorless pes d g : errorless (emit_complete_pes pes d g).
Proof.
  unfold emit_complete_pes, emit_video, emit_klv, emit_unknown, emit_audio, emit_subtitle, surfaced_payload, check_latm_framing,
    raise_latm_framing, raise, push_pes_event, record_item, stream_stats_entry, set_once, Psi.klv_mismatch_insert. errorless_all.
Qed.
#[local] Hint Resolve emit_errorless : errorless.
Lemma outcomes_errorless os : forall k, errorless (flush_outcomes os k).
Proof.
  induction os as [|o os IH]; intros k; cbn [flush_outcomes];
    unfold flush_outcome, complete_outcome, handle_complete_pes, drop_damaged_pes; errorless_all.
Qed.

Lemma flush_clears c e : (flush_core c).2 <> Err e /\ ((flush_core c).2 = Ok tt -> fatal (flush_core c).1 = None).
Proof.
  unfold flush_core. split.
  - pose proof outcomes_errorless. revert c e. change (errorless (r ← gets pes; p ← lift (Reassembler.drain_partial_outcomes r);
      modify (fun c => set_pes c p.1) ;; flush_outcomes p.2 no_marks ;; modify (fun c => set_fatal c None))).
    errorless_all.
  - unfold mbind, M_bind, gets. destruct (lift _ c) as [c1 [p|e1|]]; [|done..]. cbn.
    by destruct (flush_outcomes p.2 no_marks _) as [c2 [u|e1|]].
Qed.
End order.
End NoError.

(** * The demuxer as a whole *)
Module DemuxerInv.
Import Common TsSync SyncLemmas Abstract IngressLemmas DemuxEvent Strict DemuxConfig Core Demuxer DemuxApi CoreInv DemuxerSafe Ledger LedgerTheorems.

Definition sync_cap (cfg : DemuxerConfig) : Z := default Ingress.MAX_SYNC_BUF_BYTES (sync_buf_cap cfg).

(** The sync buffer: its cursor inside it, bytes, within the cap. *)
Record ingress_held (cfg : DemuxerConfig) (g : Ingress.Ingress) : Prop := {
  ih_cursor : ingress_ok g;
  ih_bytes : bytes (live (view g));
  ih_cap : zlen (Ingress.sync_buf g) <= sync_cap cfg;
}.

Record demuxer_ok (cfg : DemuxerConfig) (d : Demuxer) : Prop := {
  dk_core : core_ok cfg (core d);
  dk_ingress : ingress_held cfg (ingress d);
  dk_fatal : fatal (core d) = None;
}.

(** Bytes, and packets of their size. *)
Definition op_ok (o : op) : Prop :=
  match o with
  | OpFeed _ input => bytes input
  | OpAligned pkt => bytes pkt /\ zlen pkt = TS_PACKET_SIZE
  | _ => True
  end.

(** A state invariant of the packet handler is one of the machine. *)
Section machine.
Context {C : Type} (process : C -> list Z -> C * res PesParse.DemuxError unit) (I : C -> Prop).
Context (Hprocess : forall c p, I c -> bytes p -> zlen p = TS_PACKET_SIZE -> I (process c p).1 /\ (process c p).2 <> Panic).

Lemma run_safe : forall fuel h c, (length (live h) < fuel)%nat -> bytes (live h) -> I c ->
  I (Abstract.run process fuel h c).1.2 /\ bytes (live (Abstract.run process fuel h c).1.1) /\ (Abstract.run process fuel h c).2 <> Panic.
Proof.
  induction fuel as [|fuel IH]; intros h c Hf Hb Hi; [lia|]. cbn [Abstract.run].
  destruct (next h) as [|i s r|] eqn:Hn; [done|..].
  - pose proof (next_skip _ _ _ _ Hn) as Hr. cbv zeta. destruct (_ <? _); [cbn; split_and!; [done|by apply bytes_drop|done]|].
    apply IH; [|by apply bytes_drop|done]. cbn. unfold zdrop, zlen in *. rewrite length_drop. lia.
  - apply next_take in Hn as [Hl _]. cbv zeta. destruct (Hprocess c (ztake TS_PACKET_SIZE (live h))) as [Hi' Hp]; [done|auto with zl| |].
    { unfold TS_PACKET_SIZE in *. rewrite zlen_ztake; lia. }
    destruct (process c _) as [c' [u|e|]]; cbn in *; [|split_and!; [done|by apply bytes_drop|done]|done].
    apply IH; [|by apply bytes_drop|done]. cbn. unfold TS_PACKET_SIZE, zdrop, zlen in *. rewrite length_drop. lia.
Qed.

Lemma feed_machine cfg b g c x : config_ok cfg -> ingress_held cfg g -> bytes x -> I c ->
  let o := Ingress.feed process (sync_cap cfg) b g c x in
  I o.1.2 /\ ingress_held cfg o.1.1 /\ o.2 <> Panic.
Proof.
  intros Hcfg [Hg Hb Hcap] Hx Hi. unfold Ingress.feed. cbv zeta.
  assert (0 <= sync_cap cfg) as Hc0.
  { unfold sync_cap. pose proof (cf_sync _ Hcfg). destruct (sync_buf_cap cfg); cbn; [auto|done]. }
  set (g0 := if (0 <? Ingress.sync_consumed g) && _ then _ else g).
  assert (ingress_ok g0 /\ view g0 = view g) as [Hg0 Hv0].
  { unfold g0. destruct (_ && _); [|done]. destruct Hg as [? ?]. unfold ingress_ok, view. cbn.
    rewrite zdrop_0, zlen_zdrop by lia. repeat split; lia. }
  assert (ingress_held cfg (Ingress.exhausted g0 (zlen x) (sync_cap cfg)).1) as Hex.
  { split; cbn; [done|constructor|done]. }
  destruct (_ || _) eqn:Hor; [cbn in *; done|]. destruct (negb b); [cbn in *; done|].
  apply orb_false_iff in Hor as [_ Hfit%Z.ltb_ge]. set (g1 := Ingress.set_buf g0 _ _).
  pose proof (zlen_nonneg x). destruct Hg0 as [H1 H2].
  assert (ingress_ok g1) as Hg1 by (unfold ingress_ok, g1; cbn; rewrite zlen_app; lia).
  assert (bytes (live (view g1))) as Hb1.
  { unfold g1, view. cbn. rewrite Stream.zdrop_app_le by lia. apply bytes_app. split; [|done].
    rewrite <- Hv0 in Hb. exact Hb. }
  assert (zlen (Ingress.sync_buf g1) <= sync_cap cfg) as Hl1 by (unfold g1; cbn; rewrite zlen_app; lia).
  destruct (feed_loop_refines process (S (length (Ingress.sync_buf g1))) g1 c _ Hg1 Hl1) as (Heq & Hok & Hlen).
  destruct (run_safe (S (length (Ingress.sync_buf g1))) (view g1) c) as (R1 & R2 & R3); [|done|done|].
  { unfold view, zdrop. cbn. rewrite length_drop. lia. }
  rewrite Heq in R1, R2, R3. cbn in R1, R2, R3. by split_and!; [|split|].
Qed.

End machine.

Section api.
Context (cfg : DemuxerConfig) (Hcfg : config_ok cfg) {HO : HashOrder} (debug : NonConformantIssue -> string).

Definition ready (c : Core) : Prop := core_ok cfg c /\ fatal c = None.

Lemma packet_ready c p : ready c -> bytes p -> zlen p = TS_PACKET_SIZE ->
  ready (feed_packet debug c p).1 /\ (feed_packet debug c p).2 <> Panic.
Proof.
  intros [Hc Hf] Hb Hl. destruct (feed_packet_safe cfg Hcfg debug c p Hc Hb Hl) as [Hc' Hp].
  destruct (feed_packet_judged debug c p Hf) as [es He]. destruct (He Hp) as [Hf' _]. done.
Qed.

Lemma exec_demuxer_ok d o : demuxer_ok cfg d -> op_ok o ->
  demuxer_ok cfg (exec debug d o).1.1 /\ (exec debug d o).2 <> Panic.
Proof.
  intros [Hc Hg Hf] Ho. pose proof Hg as [Hcur Hb Hcap]. destruct o as [b x|pkt| | | |]; cbn [exec op_ok] in *.
  - unfold feed. rewrite (co_options _ _ Hc).
    destruct (feed_machine (feed_packet debug) ready packet_ready cfg b (ingress d) (core d) x Hcfg Hg Ho (conj Hc Hf)) as ([? ?] & ? & ?).
    fold (sync_cap cfg). destruct (Ingress.feed _ _ _ _ _ _) as [[g' c'] r]. done.
  - destruct Ho as [Hpb Hpl]. unfold feed_aligned.
    destruct (idx_ok (E:=PesParse.DemuxError) pkt 0) as (b0 & _ & ->); [unfold TS_PACKET_SIZE in Hpl; lia|].
    destruct (negb _); [done|]. destruct (packet_ready (core d) pkt (conj Hc Hf) Hpb Hpl) as [[Hc' Hf'] Hp].
    destruct (feed_packet debug (core d) pkt) as [c' r]. cbn in *. split; [|done]. split; [done| |done]. cbn.
    destruct (_ <? _); split; cbn; try done; [constructor|]. unfold sync_cap in *. pose proof (cf_sync _ Hcfg).
    destruct (sync_buf_cap cfg); cbn in *; [auto|done].
  - unfold next_event. destruct (queue (core d)) as [|e q]; [done|]. split; [|done]. split; [|done..]. by apply (Safe.ok_frame cfg (core d)).
  - unfold flush. pose proof (safe_flush cfg Hcfg (core d) Hc) as [Hc' Hp]. pose proof (NoError.flush_clears (core d)) as Hcl.
    destruct (flush_core (core d)) as [c' r]. cbn in *. destruct r as [[]|e|]; [|by destruct (Hcl e)|done].
    split; [|done]. split; [done|done|]. by apply (Hcl (PesParse.Unrecoverable 0)).
  - split; [|done]. split; [by apply reset_sync_ok|split; cbn; [done|constructor|]|done].
    unfold sync_cap in *. pose proof (cf_sync _ Hcfg). destruct (sync_buf_cap cfg); cbn in *; [auto|done].
  - split; [|done]. split; [by apply reset_stats_ok|done|done].
Qed.
End api.
End DemuxerInv.

(** * Results *)
Module DemuxerTheorems.
Import Common TsSync Abstract IngressLemmas Stream IngressTheorems DemuxEvent Strict DemuxConfig Core Demuxer DemuxApi CoreInv
  DemuxerInv Ledger LedgerTheorems.

(** Every buffer of the demuxer within its cap. *)
Record within_caps (cfg : DemuxerConfig) (d : Demuxer) : Prop := {
  wc_sync : zlen (Ingress.sync_buf (ingress d)) <= sync_cap cfg;
  wc_pes : forall pid p, Reassembler.by_pid (pes (core d)) !! pid = Some p -> zlen (Reassembler.buf p) <= pes_cap cfg;
  wc_pes_total : Reassembler.buffered_bytes (pes (core d)) <= pes_total cfg;
  wc_au : forall k s, AuReassembler.per_pid (au_reassembler (core d)) !! k = Some s -> zlen (AuReassembler.buf s) <= au_cap cfg;
  wc_au_total : AuReassembler.total_buffered (au_reassembler (core d)) <= au_total cfg;
  wc_au_slots : Z.of_nat (size (AuReassembler.per_pid (au_reassembler (core d)))) <= au_slots cfg;
  wc_sections : forall pid a, psi_assemblers (core d) !! pid = Some a -> zlen (PsiAssembler.buf a) <= PsiAssembler.MAX_SECTION_SIZE;
  wc_pat : PatReassembler.entry_count (pat_reassembler (core d)) <= PatReassembler.MAX_PAT_ENTRIES;
}.

Section api.
Context (cfg : DemuxerConfig) (Hcfg : config_ok cfg) {HO : HashOrder} (debug : NonConformantIssue -> string).

Lemma ok_within d : demuxer_ok cfg d -> within_caps cfg d.
Proof.
  intros [Hc [_ _ Hs] _]. destruct (co_pes _ _ Hc) as [[_ Hpt Hpp] Hcp Hct]. destruct (co_au _ _ Hc) as [[_ Hat Hab Has] Hac Hatc Hasl].
  pose proof (au_total_ok _ Hcfg). pose proof (au_slots_ok _ Hcfg). split; try done.
  - intros pid p Hp. destruct (Hpp pid p Hp) as [_ ? _]. by rewrite <- Hcp.
  - by rewrite <- Hct.
  - intros k s Hk. destruct (Hab k s Hk) as [? _ _]. by rewrite <- Hac.
  - lia.
  - lia.
  - intros pid a Ha. by destruct (co_assemblers _ _ Hc pid a Ha) as [[? _ _] _].
  - apply (co_pat _ _ Hc).
Qed.

Lemma with_config_ok : demuxer_ok cfg (with_config cfg).
Proof.
  split; [by apply fresh_ok| |done]. split; cbn; [done|constructor|]. unfold sync_cap. pose proof (cf_sync _ Hcfg).
  destruct (sync_buf_cap cfg); cbn; [auto|done].
Qed.

Lemma run_ok os : forall d, demuxer_ok cfg d -> Forall op_ok os ->
  demuxer_ok cfg (run debug d os).1.1 /\ Panic ∉ (run debug d os).2.
Proof.
  induction os as [|o os IH]; intros d Hd Ho; cbn [run]; [split; [done|apply not_elem_of_nil]|].
  apply Forall_cons in Ho as [Ho1 Ho2]. destruct (exec_demuxer_ok cfg Hcfg debug d o Hd Ho1) as [Hd1 Hp].
  destruct (exec debug d o) as [[d1 out] r]. destruct (IH d1 Hd1 Ho2) as [Hd2 Hps].
  destruct (run debug d1 os) as [[d2 outs] rs]. cbn in *. split; [done|]. apply not_elem_of_cons. by split; [congruence|].
Qed.

(** What one packet does to a reachable demuxer. *)
Lemma packet_judged c p : ready cfg c -> bytes p -> zlen p = TS_PACKET_SIZE ->
  exists es, queue (feed_packet debug c p).1 = queue c ++ es /\ judged debug (strict cfg) es (feed_packet debug c p).2.
Proof.
  intros Hr Hb Hl. destruct (packet_ready cfg Hcfg debug c p Hr Hb Hl) as [_ Hp]. destruct Hr as [Hc Hf].
  destruct (feed_packet_judged debug c p Hf) as [es He]. destruct (He Hp) as (_ & Hpo & Hj). exists es.
  split; [by apply e_queue|]. by rewrite <- (co_options _ _ Hc).
Qed.

Lemma lenient_accepts c p : strict cfg = Off -> ready cfg c -> bytes p -> zlen p = TS_PACKET_SIZE ->
  (feed_packet debug c p).2 = Ok tt.
Proof.
  intros Hoff Hr Hb Hl. destruct (packet_ready cfg Hcfg debug c p Hr Hb Hl) as [_ Hp].
  destruct (packet_judged c p Hr Hb Hl) as (es & _ & Hj). rewrite Hoff in Hj.
  assert (verdict Off es = None) as Hv by (clear; induction es as [|[] es IH]; cbn; done).
  destruct (feed_packet debug c p).2 as [[]|e|]; [done| |done]. exfalso. cbn in Hj. rewrite Hv in Hj.
  destruct Hj as [(? & [=] & _) | (? & ? & _ & [=])].
Qed.

Lemma lenient_each pkts : strict cfg = Off -> Forall (fun p => bytes p /\ packet p) pkts -> forall c, ready cfg c ->
  (each (feed_packet debug) c pkts).2 = Ok tt.
Proof.
  intros Hoff Hp. induction Hp as [|p pkts [Hb [Hl _]] _ IH]; intros c Hc; cbn [each]; [done|].
  pose proof (lenient_accepts c p Hoff Hc Hb Hl) as Ha. destruct (packet_ready cfg Hcfg debug c p Hc Hb Hl) as [Hr _].
  destruct (feed_packet debug c p) as [c1 r]. cbn in *. subst r. by apply IH.
Qed.

(** Packets one call each. *)
Lemma run_aligned pkts : Forall packet pkts -> forall d c', each (feed_packet debug) (core d) pkts = (c', Ok tt) ->
  core (run debug d (OpAligned <$> pkts)).1.1 = c' /\ Forall (fun r => r = Ok tt) (run debug d (OpAligned <$> pkts)).2.
Proof.
  intros Hp. induction Hp as [|p pkts [Hl Hg] _ IH]; intros d c'; cbn [each run fmap list_fmap]; [by intros [= <-]|].
  cbn [exec]. unfold feed_aligned. rewrite (proj2 (idx_Ok (E:=PesParse.DemuxError) p 0 TS_SYNC_BYTE)) by done.
  rewrite Z.eqb_refl. cbn [negb]. destruct (feed_packet debug (core d) p) as [c1 [[]|e|]]; [|done..]. intros He.
  match goal with |- context [run debug ?d1 _] => specialize (IH d1 c' He) end.
  destruct (run debug _ (OpAligned <$> pkts)) as [[d2 outs] rs]. cbn in *. destruct IH as [-> ?]. split; [done|]. by constructor.
Qed.

(** Chunks one call each. *)
Lemma run_chunks chunks : forall d g' c', options (core d) = cfg ->
  feeds (feed_packet debug) (sync_cap cfg) (ingress d) (core d) chunks = (g', c', Ok tt) ->
  (run debug d (OpFeed true <$> chunks)).1.1 = {| ingress := g'; core := c' |} /\
  Forall (fun r => r = Ok tt) (run debug d (OpFeed true <$> chunks)).2.
Proof.
  induction chunks as [|x chunks IH]; intros d g' c' Ho; cbn [feeds run fmap list_fmap]; [intros [= <- <-]; by destruct d|].
  cbn [exec]. unfold feed. rewrite Ho. fold (sync_cap cfg).
  pose proof (feed_books debug true d x) as [es Hes]. unfold feed in Hes. rewrite Ho in Hes. fold (sync_cap cfg) in Hes.
  destruct (Ingress.feed _ _ true _ _ x) as [[g1 c1] [[]|e|]]; [|done..]. cbn in Hes. intros He.
  destruct (IH {| ingress := g1; core := c1 |} g' c') as [H1 H2]; [cbn; by rewrite (e_options _ _ _ Hes)|done|].
  destruct (run debug _ (OpFeed true <$> chunks)) as [[d2 outs] rs]. cbn in *. split; [done|]. by constructor.
Qed.

End api.

(** C7: A demuxer that keeps raw timestamps, as it does by default, survives every
    stream. Whatever bytes are fed to it, in whatever calls and chunks, with
    reads, flushes and resets in between, no call panics, and afterwards every
    buffer is within its cap: the sync buffer, each PES in flight and their sum,
    each metadata unit, their sum and their number, each table section and the
    PAT under assembly. *)
Theorem demuxer_safe {HO : HashOrder} (debug : NonConformantIssue -> string) (cfg : DemuxerConfig) (os : list op) :
  config_ok cfg -> Forall op_ok os ->
  (Panic ∉ (run debug (with_config cfg) os).2) /\ within_caps cfg (run debug (with_config cfg) os).1.1.
Proof.
  intros Hcfg Ho. destruct (run_ok cfg Hcfg debug os (with_config cfg)) as [Hd Hp]; [by apply with_config_ok|done|].
  split; [done|]. by apply ok_within.
Qed.

(** C10: The strict verdict is exact. In any state reachable with raw timestamps a
    packet with a sync byte queues some events; it is accepted only if the mode
    rejects none of them, a rejection names the first one it rejects, and the only
    other error is a malformed PES the mode rejects. In the lenient mode every
    packet is accepted. Without the sync byte nothing changes. *)
Theorem strict_verdict {HO : HashOrder} (debug : NonConformantIssue -> string) (cfg : DemuxerConfig) (os : list op) (pkt : list Z) :
  config_ok cfg -> Forall op_ok os -> bytes pkt -> zlen pkt = TS_PACKET_SIZE ->
  let d := (run debug (with_config cfg) os).1.1 in
  let (d', r) := feed_aligned debug d pkt in
  if bool_decide (get pkt 0 = Some TS_SYNC_BYTE) then
    (strict cfg = Off -> r = Ok tt) /\
    exists es, queue (core d') = queue (core d) ++ es /\
      match r with
      | Ok _ => verdict (strict cfg) es = None
      | Err (PesParse.StrictRejection text) => exists i, verdict (strict cfg) es = Some i /\ text = debug i
      | Err (PesParse.MalformedPes pid reason) => rejects (strict cfg) (MalformedPes pid reason) = true
      | _ => False
      end
  else d' = d /\ r = Err (PesParse.Unrecoverable 0).
Proof.
  intros Hcfg Ho Hb Hl. destruct (run_ok cfg Hcfg debug os (with_config cfg)) as [[Hc _ Hf] _]; [by apply with_config_ok|done|].
  set (d := (run debug (with_config cfg) os).1.1) in *. cbv zeta. unfold feed_aligned.
  destruct (idx_ok (E:=PesParse.DemuxError) pkt 0) as (b0 & Hb0 & ->); [unfold TS_PACKET_SIZE in Hl; lia|]. rewrite Hb0.
  destruct (Z.eqb_spec b0 TS_SYNC_BYTE) as [-> |Hne]; cbn [negb]; [|by rewrite bool_decide_eq_false_2 by congruence].
  rewrite bool_decide_eq_true_2 by done. pose proof (conj Hc Hf : ready cfg (core d)) as Hr.
  pose proof (fun H => lenient_accepts cfg Hcfg debug (core d) pkt H Hr Hb Hl) as Hlen.
  destruct (packet_ready cfg Hcfg debug (core d) pkt Hr Hb Hl) as [_ Hp].
  destruct (packet_judged cfg Hcfg debug (core d) pkt Hr Hb Hl) as (es & Hq & Hj).
  destruct (feed_packet debug (core d) pkt) as [c' r]. cbn in *. split; [done|]. exists es. split; [done|].
  destruct r as [u|e|]; [done| |done]. destruct Hj as [(i & Hv & ->) | (p & reason & -> & Hv)]; [by exists i|done].
Qed.

(** C9: What a lenient demuxer that keeps raw timestamps makes of a stream does not
    depend on how the stream is cut, nor on garbage before it. Packets, seven or
    more of them when there is garbage, behind garbage that does not start with a
    sync byte, fits the search window and has no offset that passes the
    re-acquisition rule, fed in chunks that each leave 1,128 bytes of the sync cap
    free (a feed that overruns the cap is refused), leave the state (programs,
    queued events, statistics) that the packets alone leave when each is handed
    over aligned; every one of these calls succeeds either way. *)
Theorem stream_is_its_packets {HO : HashOrder} (debug : NonConformantIssue -> string) (cfg : DemuxerConfig)
    (garbage : list Z) (pkts chunks : list (list Z)) :
  config_ok cfg -> strict cfg = Off -> sync_cap cfg < u64_max ->
  get garbage 0 <> Some TS_SYNC_BYTE -> zlen garbage <= Ingress.SYNC_SEARCH_WINDOW ->
  (forall q, 0 <= q < zlen garbage -> verify Ingress.SYNC_REACQ (garbage ++ concat pkts) q = Some false) ->
  Forall (fun p => bytes p /\ packet p) pkts -> garbage = [] \/ 7 <= zlen pkts ->
  concat chunks = garbage ++ concat pkts -> Forall (fun x => zlen x <= sync_cap cfg - 1128) chunks ->
  let a := run debug (with_config cfg) (OpFeed true <$> chunks) in
  let b := run debug (with_config cfg) (OpAligned <$> pkts) in
  core a.1.1 = core b.1.1 /\ Forall (fun r => r = Ok tt) a.2 /\ Forall (fun r => r = Ok tt) b.2.
Proof.
  intros Hcfg Hoff Hcap Hg Hw Hv Hp Hn Hcat Hch.
  assert (Forall packet pkts) as Hpk by (eapply Forall_impl; [exact Hp|]; by intros p [_ ?]).
  pose proof (with_config_ok cfg Hcfg) as [Hc _ Hf].
  pose proof (lenient_each cfg Hcfg debug pkts Hoff Hp (core (with_config cfg)) (conj Hc Hf)) as He.
  destruct (each (feed_packet debug) (core (with_config cfg)) pkts) as [c' r] eqn:Hea. cbn in He. subst r.
  destruct (run_aligned debug pkts Hpk (with_config cfg) c' Hea) as [H1 H2].
  destruct (feeds_recover (feed_packet debug) (sync_cap cfg) _ c' garbage pkts chunks Hcap Hg Hw Hv Hpk Hn Hea Hcat Hch) as (g' & Hfe & _).
  destruct (run_chunks cfg debug chunks (with_config cfg) g' c' eq_refl Hfe) as [H3 H4].
  cbv zeta. rewrite H1, H3. done.
Qed.

(** ** Witnesses *)

Lemma default_config_ok : config_ok DemuxerConfig_default.
Proof. by split. Qed.

Lemma bytes_check l : forallb (fun b => (0 <=? b) && (b <? 256)) l = true -> bytes l.
Proof.
  intros Hl. apply Forall_forall. intros b Hb. rewrite forallb_forall in Hl. specialize (Hl b ltac:(by apply list_elem_of_In)).
  unfold byte. lia.
Qed.

(** Every kind of call: a chunk with a packet and a stray tail, an aligned
    packet, reads, flushes and resets. *)
Definition demo_calls : list op :=
  [OpFeed true (error_packet ++ [1; 2; 3]); OpFlush; OpAligned error_packet; OpNext; OpResetSync; OpResetStats].

Lemma demo_calls_ok : Forall op_ok demo_calls.
Proof.
  unfold demo_calls. rewrite !Forall_cons. cbn [op_ok].
  split; [apply bytes_check; by vm_compute|]. split; [done|]. split; [split; [apply bytes_check; by vm_compute|done]|]. by rewrite Forall_nil.
Qed.

Lemma demuxer_safe_witness :
  (Panic ∉ (run (HO:=key_order) no_text (with_config DemuxerConfig_default) demo_calls).2) /\
  within_caps DemuxerConfig_default (run (HO:=key_order) no_text (with_config DemuxerConfig_default) demo_calls).1.1.
Proof. exact (demuxer_safe (HO:=key_order) no_text DemuxerConfig_default demo_calls default_config_ok demo_calls_ok). Defined.

(** A packet with the error flag, in full strict mode. *)
Definition strict_config : DemuxerConfig :=
  {| strict := Full; pes_cap_per_pid := None; pes_cap_total := None; sync_buf_cap := None; klv_link_overrides := [];
     stream_kind_overrides := ∅; lenient_psi_reassembly := false; av1_carriage := av1_carriage DemuxerConfig_default;
     au_cell_cap_per_pid := None; au_cell_cap_total := None; au_cell_max_in_flight_pids := None; cfi_tolerance := false;
     unwrap_timestamps := false |}.

Lemma strict_verdict_witness :
  (feed_aligned (HO:=key_order) no_text (run (HO:=key_order) no_text (with_config strict_config) demo_calls).1.1 error_packet).2 =
    Err (PesParse.StrictRejection (no_text (TransportErrorPacket 0x30))) /\
  let (d', r) := feed_aligned (HO:=key_order) no_text (run (HO:=key_order) no_text (with_config strict_config) demo_calls).1.1 error_packet in
  if bool_decide (get error_packet 0 = Some TS_SYNC_BYTE) then
    (strict strict_config = Off -> r = Ok tt) /\
    exists es, queue (core d') = queue (core (run (HO:=key_order) no_text (with_config strict_config) demo_calls).1.1) ++ es /\
      match r with
      | Ok _ => verdict (strict strict_config) es = None
      | Err (PesParse.StrictRejection text) => exists i, verdict (strict strict_config) es = Some i /\ text = no_text i
      | Err (PesParse.MalformedPes pid reason) => rejects (strict strict_config) (MalformedPes pid reason) = true
      | _ => False
      end
  else d' = (run (HO:=key_order) no_text (with_config strict_config) demo_calls).1.1 /\ r = Err (PesParse.Unrecoverable 0).
Proof.
  split; [by vm_compute|]. apply (strict_verdict (HO:=key_order) no_text strict_config demo_calls error_packet);
    [by split|apply demo_calls_ok|apply bytes_check; by vm_compute|by vm_compute].
Defined.

Lemma stream_is_its_packets_witness :
  core (run (HO:=key_order) no_text (with_config DemuxerConfig_default)
    (OpFeed true <$> [0 :: ztake 100 null_packet; zdrop 100 null_packet ++ concat (replicate 6 null_packet)])).1.1 =
  core (run (HO:=key_order) no_text (with_config DemuxerConfig_default) (OpAligned <$> replicate 7 null_packet)).1.1.
Proof.
  eapply (stream_is_its_packets (HO:=key_order) no_text DemuxerConfig_default [0] (replicate 7 null_packet)
    [0 :: ztake 100 null_packet; zdrop 100 null_packet ++ concat (replicate 6 null_packet)]);
    [apply default_config_ok|done|by vm_compute|done|by vm_compute| | |by right|by vm_compute|repeat constructor; by vm_compute].
  - intros q Hq. assert (q = 0) as -> by (change (zlen [0]) with 1 in Hq; lia). by vm_compute.
  - apply Forall_replicate. split; [apply bytes_check; by vm_compute|done].
Defined.

End DemuxerTheorems.
