(* ===== verification/DemuxTrace.v ===== *)
(** What a method of the demuxer does to the part of the state that decides what
    is delivered: the topology, the declared PIDs, the PES in flight and the
    samples and metadata queued. Most methods leave all of it alone; a completed
    PES queues exactly one delivery. *)
From Stdlib Require Import ZArith Lia Bool String.
From stdpp Require Import base list list_numbers gmap.
From S2P Require Import Prelude.
From S2P Require Import Common.
From S2P Require Import TsPacket.
From S2P Require Import PesDemux.
From S2P Require Import PsiParse.
From S2P Require Import PsiAssembly.
From S2P Require Import PsiWriter.
From S2P Require Import Descriptors.
From S2P Require Import AuCell.
From S2P Require Import DemuxTime.
From S2P Require Import AuReassemble.
From S2P Require Import Latm.
From S2P Require Import DemuxTypes.
From S2P Require Import DemuxState.
From S2P Require Import DemuxIngress.
From S2P Require Import DemuxPsi.
From S2P Require Import DemuxPayload.
From S2P Require Import DemuxPes.
From S2P Require Import Demuxer.
From S2P Require Import DemuxTotal.
From S2P Require Import DemuxSafe.
From S2P Require Import DemuxMethods.
From S2P Require Import DemuxEmit.
From S2P Require Import DemuxerTheorems.

(** * The view *)
Module Trace.
Import PmtClassify DemuxEvent Strict DemuxConfig Core Lookup PacketChecks Emit.

(** What an application receives of the streams. *)
Definition is_delivery (e : DemuxEvent) : bool :=
  match e with EvSample _ _ _ _ | EvMetadata _ _ _ _ => true | _ => false end.
Definition deliveries (es : list DemuxEvent) : list DemuxEvent := List.filter is_delivery es.

Definition tracker_view (t : ProgramTracker) : Z * Z * option Z * option Z * list StreamInfo :=
  (pt_program_number t, pt_pmt_pid t, pt_pmt_version t, pt_pcr_pid t, pt_streams t).

Definition declared (s : PidState.PidState) : option StreamKind * option Z * option Z :=
  (PidState.stream_kind s, PidState.program s, PidState.stream_type s).
Definition pid_view (s : PidState.PidState) : option StreamKind * option Z * option Z * option Z * bool * bool :=
  (declared s, PidState.cc s, PidState.source_reset_after_pes s, PidState.source_reset_in_pes s).

Record same (c c' : Core) : Prop := {
  sm_options : options c' = options c;
  sm_programs : tracker_view <$> programs c' = tracker_view <$> programs c;
  sm_owner : pid_owner c' = pid_owner c;
  sm_pmts : pmt_pids c' = pmt_pids c;
  sm_pat : pat_identity c' = pat_identity c;
  sm_pids : forall q, pid_view (state_of c' q) = pid_view (state_of c q);
  sm_pes : pes c' = pes c;
  sm_au : AuReassembler.per_pid (au_reassembler c') = AuReassembler.per_pid (au_reassembler c);
}.

(** From [c] to [c'] the view stayed and [d] was delivered. *)
Definition traced (d : list DemuxEvent) (c c' : Core) : Prop :=
  same c c' /\ exists es, queue c' = queue c ++ es /\ deliveries es = d.

Lemma same_refl c : same c c.
Proof. by split. Qed.

Lemma same_trans a b c : same a b -> same b c -> same a c.
Proof. intros [] []. split; congruence. Qed.

Lemma deliveries_app a b : deliveries (a ++ b) = deliveries a ++ deliveries b.
Proof. apply List.filter_app. Qed.

Lemma traced_refl c : traced [] c c.
Proof. split; [apply same_refl|]. exists []. by rewrite app_nil_r. Qed.

Lemma traced_trans d d' a b c : traced d a b -> traced d' b c -> traced (d ++ d') a c.
Proof.
  intros [H1 (e1 & Hq1 & <-)] [H2 (e2 & Hq2 & <-)]. split; [by eapply same_trans|].
  exists (e1 ++ e2). by rewrite Hq2, Hq1, app_assoc, deliveries_app.
Qed.

Lemma same_traced c c' : same c c' -> queue c' = queue c -> traced [] c c'.
Proof. intros Hs Hq. split; [done|]. exists []. by rewrite app_nil_r. Qed.

(** ** Methods that deliver nothing *)

Definition quiet {A} (m : M A) : Prop := forall c, traced [] c (m c).1.

Create HintDb quiet.

Lemma quiet_ret {A} (a : A) : quiet (mret a).
Proof. intros c. apply traced_refl. Qed.
Lemma quiet_gets {A} (f : Core -> A) : quiet (gets f).
Proof. intros c. apply traced_refl. Qed.
Lemma quiet_result {A} (r : res PesParse.DemuxError A) : quiet (result r).
Proof. intros c. apply traced_refl. Qed.
Lemma quiet_lift {A} (r : res Empty_set A) : quiet (lift r).
Proof. intros c. apply traced_refl. Qed.
Lemma quiet_bind {A B} (m : M A) (k : A -> M B) : quiet m -> (forall a, quiet (k a)) -> quiet (m ≫= k).
Proof.
  intros Hm Hk c. unfold mbind, M_bind. specialize (Hm c). destruct (m c) as [c' [a|e|]]; cbn in *; [|done..].
  apply (traced_trans [] [] _ _ _ Hm). apply Hk.
Qed.
Lemma quiet_when b m : quiet m -> quiet (when b m).
Proof. destruct b; [done|]. intros _. apply quiet_ret. Qed.
Lemma quiet_for_each {A} (l : list A) f : (forall a, quiet (f a)) -> quiet (for_each l f).
Proof. intros Hf. induction l as [|a l IH]; [apply quiet_ret|]. apply quiet_bind; auto. Qed.
Lemma quiet_modify f : (forall c, same c (f c) /\ queue (f c) = queue c) -> quiet (modify f).
Proof. intros Hf c. destruct (Hf c). by apply same_traced. Qed.

Lemma state_of_mut c pid s q :
  state_of (set_pid_state c (<[pid := s]> (pid_state c))) q = if decide (pid = q) then s else state_of c q.
Proof. unfold state_of. cbn. rewrite lookup_insert. by case_decide. Qed.

Lemma quiet_pid_mut pid f : (forall s, pid_view (f s) = pid_view s) -> quiet (pid_state_mut pid f).
Proof.
  intros Hf. apply quiet_modify. intros c. split; [|done]. split; try done. intros q.
  rewrite state_of_mut. case_decide as Hq; [|done]. subst. apply Hf.
Qed.

Lemma quiet_pid_alter pid f : (forall s, pid_view (f s) = pid_view s) -> quiet (pid_state_alter pid f).
Proof.
  intros Hf. apply quiet_modify. intros c. split; [|done]. split; try done. intros q. unfold state_of. cbn.
  rewrite lookup_alter. case_decide as Hq; [|done]. subst. destruct (pid_state c !! q); cbn; [apply Hf|done].
Qed.

Lemma quiet_nonconformant stream issue : quiet (queue_nonconformant stream issue).
Proof.
  intros c. split; [by cbn; destruct (_ && _)|]. exists [EvNonConformant stream issue]. cbn. by destruct (_ && _).
Qed.

End Trace.

#[export] Hint Resolve Trace.quiet_ret Trace.quiet_gets Trace.quiet_result Trace.quiet_lift Trace.quiet_nonconformant : quiet.

(** One step through a method that delivers nothing. *)
Ltac view_tac := intros ?; cbv zeta beta; repeat case_match; reflexivity.
Ltac quiet_step :=
  match goal with
  | |- Trace.quiet (mbind _ _) => apply Trace.quiet_bind; [|intros ?]
  | |- Trace.quiet (Core.for_each _ _) => apply Trace.quiet_for_each; intros ?
  | |- Trace.quiet (Core.when _ _) => apply Trace.quiet_when
  | |- Trace.quiet (Lookup.pid_state_mut _ _) => apply Trace.quiet_pid_mut; view_tac
  | |- Trace.quiet (Lookup.pid_state_alter _ _) => apply Trace.quiet_pid_alter; view_tac
  | |- Trace.quiet (Core.modify _) => apply Trace.quiet_modify; intros ?; split; [by split|done]
  | |- Trace.quiet (match ?x with _ => _ end) => destruct x
  | |- Trace.quiet (let _ := _ in _) => cbv zeta
  | |- Trace.quiet _ => solve [eauto with quiet nocore]
  end.
Ltac quiet_all := repeat quiet_step.

(** * The methods *)
Module Quiet.
Import Common PmtClassify DemuxEvent Strict DemuxConfig Core Lookup PacketChecks Emit Trace.

Section quiet.
Context {HO : HashOrder}.

Lemma quiet_stats pid st prog f : quiet (stream_stats_entry pid st prog f).
Proof. unfold stream_stats_entry. quiet_all. Qed.
Lemma quiet_item stream prog n f : quiet (record_item stream prog n f).
Proof. apply quiet_stats. Qed.
Lemma quiet_discontinuity stream kind : quiet (record_discontinuity stream kind).
Proof.
  unfold record_discontinuity. quiet_step; [quiet_all|]. quiet_step; [apply quiet_stats|].
  intros c. split; [by split|]. by exists [EvDiscontinuity stream kind].
Qed.
Lemma quiet_flag pid kind : quiet (flag_discontinuity pid kind).
Proof. unfold flag_discontinuity. quiet_step; [quiet_all|]. case_match; [apply quiet_discontinuity|quiet_all]. Qed.
Lemma quiet_set_once pid flag set : (forall s, pid_view (set s true) = pid_view s) -> quiet (set_once pid flag set).
Proof. intros Hs. unfold set_once. quiet_step; [quiet_all|]. quiet_step; [by apply quiet_pid_mut|quiet_all]. Qed.
#[local] Hint Resolve quiet_item quiet_flag : quiet.

Lemma quiet_forget pid : quiet (forget_program_pts pid).
Proof. unfold forget_program_pts, forget_pts. quiet_all. Qed.
#[local] Hint Resolve quiet_forget : quiet.

Lemma quiet_pcr pkt : quiet (check_pcr pkt).
Proof. unfold check_pcr. quiet_all. Qed.

Lemma quiet_timing pes stream : quiet (record_pes_timing pes stream).
Proof.
  unfold record_pes_timing, time_pts_less_run, close_pts_less_run, check_pts_order, unwrap_pair, unwrap_pts, set_once. quiet_all.
Qed.

Lemma quiet_raise stream i : quiet (raise stream i).
Proof. unfold raise. quiet_all. Qed.
#[local] Hint Resolve quiet_raise : quiet.

Lemma quiet_latm pes d stream : quiet (check_latm_framing pes d stream).
Proof. unfold check_latm_framing, raise_latm_framing. quiet_all. Qed.

Lemma quiet_surfaced pes codec stream : quiet (surfaced_payload pes codec stream).
Proof. unfold surfaced_payload. quiet_all. Qed.

Lemma quiet_mismatch pid : quiet (Psi.klv_mismatch_insert pid).
Proof.
  unfold Psi.klv_mismatch_insert. intros c. unfold mbind at 1, M_bind at 1, gets. cbn [fst].
  destruct (List.find _ _) as [[n t]|] eqn:Hf; [|apply traced_refl].
  apply List.find_some in Hf as [Hin _]. apply list_elem_of_In in Hin. rewrite hash_iter_perm in Hin.
  apply elem_of_map_to_list in Hin. apply same_traced; [|done]. split; try done.
  etrans; [apply fmap_insert|]. apply insert_id. by rewrite lookup_fmap, Hin.
Qed.

Lemma quiet_syntax pid t s : quiet (Psi.check_psi_syntax pid t s).
Proof. unfold Psi.check_psi_syntax. quiet_all. Qed.

End quiet.
#[export] Hint Resolve quiet_item quiet_flag quiet_pcr quiet_timing quiet_raise quiet_latm quiet_surfaced quiet_mismatch
  quiet_syntax quiet_stats quiet_discontinuity : quiet.
End Quiet.

(** * Running a method to its end *)
Module Steps.
Import Common PmtClassify DemuxEvent Strict DemuxConfig Core Lookup PacketChecks Payload Emit CoreInv Safe NoError PesOutcomes Trace Quiet.

Section steps.
Context (cfg : DemuxerConfig) (Hcfg : config_ok cfg) {HO : HashOrder}.

(** From [c] the method returns, keeps the invariant and delivers [d]. *)
Definition steps {A} (m : M A) (c : Core) (d : list DemuxEvent) (Q : A -> Prop) : Prop :=
  exists a c', m c = (c', Ok a) /\ core_ok cfg c' /\ traced d c c' /\ Q a.

Lemma steps_intro {A} (m : M A) c c' a d (Q : A -> Prop) : m c = (c', Ok a) -> core_ok cfg c' -> traced d c c' -> Q a -> steps m c d Q.
Proof. intros. by exists a, c'. Qed.

Lemma steps_ret {A} (a : A) c (Q : A -> Prop) : core_ok cfg c -> Q a -> steps (mret a) c [] Q.
Proof. intros Hc Ha. exists a, c. split; [done|]. split; [done|]. split; [apply Trace.traced_refl|done]. Qed.

Lemma steps_bind {A B} (m : M A) (k : A -> M B) c d d' (Q : A -> Prop) (R : B -> Prop) :
  steps m c d Q -> (forall a c', Q a -> core_ok cfg c' -> traced d c c' -> steps (k a) c' d' R) -> steps (m ≫= k) c (d ++ d') R.
Proof.
  intros (a & c1 & Hm & Hc1 & Ht1 & Hq) Hk. destruct (Hk a c1 Hq Hc1 Ht1) as (b & c2 & Hb & Hc2 & Ht2 & Hr).
  exists b, c2. unfold mbind, M_bind. rewrite Hm. split_and!; [done..| |done]. by eapply traced_trans.
Qed.

(** The two ways a step delivers nothing before the rest does. *)
Lemma steps_then {A B} (m : M A) (k : A -> M B) c d (Q : A -> Prop) (R : B -> Prop) :
  steps m c [] Q -> (forall a c', Q a -> core_ok cfg c' -> traced [] c c' -> steps (k a) c' d R) -> steps (m ≫= k) c d R.
Proof. intros Hm Hk. by apply (steps_bind m k c [] d Q). Qed.

Lemma steps_gets {A B} (f : Core -> A) (k : A -> M B) c d (R : B -> Prop) : steps (k (f c)) c d R -> steps (gets f ≫= k) c d R.
Proof. done. Qed.

Lemma steps_modify {B} f (k : unit -> M B) c d (R : B -> Prop) : traced [] c (f c) -> steps (k tt) (f c) d R ->
  steps (modify f ≫= k) c d R.
Proof. intros Ht (b & c' & Hk & Hc' & Ht' & Hr). exists b, c'. split_and!; [done..| |done]. by apply (traced_trans [] d c (f c)). Qed.

Lemma steps_lift {A B} (r : res Empty_set A) a (k : A -> M B) c d (R : B -> Prop) : r = Ok a ->
  steps (k a) c d R -> steps (lift r ≫= k) c d R.
Proof. by intros ->. Qed.

Lemma steps_quiet {A} (m : M A) c (Q : A -> Prop) : core_ok cfg c -> safe cfg m Q -> errorless m -> quiet m -> steps m c [] Q.
Proof.
  intros Hc Hs He Hq. unfold steps. destruct (Hs c Hc) as [Hc' Hr]. specialize (He c). specialize (Hq c).
  destruct (m c) as [c' [a|e|]]; cbn in *; [|by destruct (He e)|done]. by exists a, c'.
Qed.

Lemma steps_weak {A} (m : M A) c d (Q R : A -> Prop) : (forall a, Q a -> R a) -> steps m c d Q -> steps m c d R.
Proof. intros HQ (a & c' & ? & ? & ? & ?). exists a, c'. split_and!; auto. Qed.

(** The event that ends the emission of an undamaged PES. *)
Lemma steps_event stream e c : core_ok cfg c -> is_delivery e = true -> steps (push_pes_event None stream e) c [e] (fun d => d = None).
Proof.
  intros Hc He. exists None, (set_queue c (queue c ++ [e])). split_and!; [done|by apply (ok_frame cfg c)| |done].
  split; [by split|]. exists [e]. split; [done|]. cbn. by rewrite He.
Qed.

End steps.
End Steps.

(** * One completed PES, one delivery *)
Module Deliver.
Import Common PsiParse MuxTypes PmtClassify DemuxEvent Strict DemuxConfig Core Lookup PacketChecks Payload Emit CoreInv Safe NoError PesOutcomes
  PacketSafe PsiSafe EmitSafe Trace Quiet Steps.
Import PesParse (PesPayload, pts, dts, payload, data_alignment_indicator, header_issues).
#[local] Abbreviation any := (fun _ => True).

Definition subtitle_text (codec : DemuxSubtitleCodec) (raw : list Z) : list Z :=
  match codec, strip_dvb_sub_envelope (E:=Empty_set) raw with
  | DemuxDvbSubtitling, Ok (Conformant s) | DemuxDvbSubtitling, Ok (NonConformantDataId _ s) => s
  | _, _ => raw
  end.

(** What a lenient demuxer makes of an undamaged PES on a PID declared with
    [kind] and [stream_type] by program [prog]; a metadata payload that is
    neither one record nor one complete cell has no entry. *)
Definition delivery (cfg : DemuxerConfig) (kind : StreamKind) (prog stream_type : Z) (p : PesPayload) : option DemuxEvent :=
  let stream := {| sid_pid := PesParse.pid p; sid_kind := kind; sid_program_number := prog |} in
  let t := default 0 (pts p) in
  match kind with
  | KVideo codec =>
      Some (EvSample stream t (dts p) (Video codec (payload p) (PesParse.random_access_indicator p)
        (if bool_decide (codec = MuxTypes.Av1) then Some (av1_carriage cfg) else None)))
  | KAudio codec => Some (EvSample stream t None (Audio codec (payload p)))
  | KSubtitle codec => Some (EvSample stream t None (Subtitle codec (subtitle_text codec (payload p))))
  | PmtClassify.Unknown s => Some (EvSample stream t (dts p) (UnknownSample (from_byte s) (payload p)))
  | KlvSync _ | KlvAsync =>
      match classify_klv (E:=Empty_set) (payload p) with
      | Ok (ShapeAsync b) => Some (EvMetadata stream t KlvAsyncKind b)
      | Ok ShapeOther => Some (EvSample stream t (dts p) (UnknownSample (from_byte stream_type) (payload p)))
      | Ok ShapeSync =>
          match iter_au_cells_with_end (E:=Empty_set) (payload p) with
          | Ok [inl (h, b, _)] =>
              if bool_decide (AuCell.cell_fragment_indication h = AuCell.Complete)
              then Some (EvMetadata stream t (cell_kind h false 1) b) else None
          | _ => None
          end
      | _ => None
      end
  end.

Section deliver.
Context (cfg : DemuxerConfig) (Hcfg : config_ok cfg) (Hoff : strict cfg = Off) {HO : HashOrder}.
#[local] Abbreviation steps := (steps cfg).

Lemma item_errorless stream prog n f : errorless (record_item stream prog n f).
Proof. by intros ? ?. Qed.
Lemma raise_errorless stream i : errorless (raise stream i).
Proof. by intros ? ?. Qed.
Lemma latm_errorless pes d stream : errorless (check_latm_framing pes d stream).
Proof. unfold check_latm_framing, raise_latm_framing. pose proof raise_errorless. pose proof @errorless_lift. errorless_all. Qed.
Lemma surfaced_errorless pes codec stream : errorless (surfaced_payload pes codec stream).
Proof. unfold surfaced_payload. pose proof raise_errorless. pose proof @errorless_lift. errorless_all. Qed.
Lemma mismatch_errorless pid : errorless (Psi.klv_mismatch_insert pid).
Proof. unfold Psi.klv_mismatch_insert. errorless_all. Qed.

#[local] Hint Resolve item_errorless raise_errorless latm_errorless surfaced_errorless mismatch_errorless timing_errorless @errorless_lift : errorless.
#[local] Hint Resolve safe_pes_event safe_raise safe_mismatch safe_item safe_latm safe_surfaced safe_timing : safe.

(** A quiet call in front of the rest. *)
Tactic Notation "quietly" "as" ident(c) ident(H) ident(T) :=
  eapply (steps_then cfg _ _ _ _ any);
  [apply steps_quiet; [assumption|first [solve [eauto with safe]|safe_all]|errorless_all|quiet_all]|intros ? c _ H T].
Tactic Notation "quietly" := let c := fresh "cq" in let H := fresh "Hq" in let T := fresh "Tq" in quietly as c H T.
Ltac rooted := match goal with H : core_ok cfg ?c |- context [options ?c] => rewrite (co_options _ _ H) end.

Lemma video_delivers pes codec stream n t d c : core_ok cfg c ->
  steps (emit_video pes codec stream n t d None) c
    [EvSample stream t d (Video codec (payload pes) (PesParse.random_access_indicator pes)
       (if bool_decide (codec = MuxTypes.Av1) then Some (av1_carriage cfg) else None))] (fun x => x = None).
Proof.
  intros Hc. unfold emit_video. cbv zeta. apply steps_gets. rooted. quietly. quietly. quietly. by apply steps_event.
Qed.

Lemma unknown_delivers pes st stream n t d c : core_ok cfg c ->
  steps (emit_unknown pes st stream n t d None) c [EvSample stream t d (UnknownSample (from_byte st) (payload pes))] (fun x => x = None).
Proof. intros Hc. unfold emit_unknown. quietly. by apply steps_event. Qed.


Lemma bind_value {A B} (m : M A) (k : A -> M B) c v (G : Prop) : quiet m ->
  (forall a c', options c' = options c -> (k a c').2 = Ok v -> G) -> ((m ≫= k) c).2 = Ok v -> G.
Proof.
  intros Hm Hk. unfold mbind, M_bind. specialize (Hm c). destruct (m c) as [c' [a|e|]]; cbn; [|done..].
  apply Hk. by destruct Hm as [[] _].
Qed.

Lemma raise_value stream i c v : strict (options c) = Off -> (raise stream i c).2 = Ok v -> v = false.
Proof. cbn. intros Ho [= <-]. by rewrite Ho. Qed.

Lemma latm_value pes d stream c v : strict (options c) = Off -> (check_latm_framing pes d stream c).2 = Ok v -> v = false.
Proof.
  intros Ho. unfold check_latm_framing. cbv zeta. apply bind_value; [quiet_all|]. intros s c1 H1. apply bind_value; [quiet_all|].
  intros r c2 H2. apply bind_value; [quiet_all|]. intros _ c3 H3. unfold raise_latm_framing.
  destruct (r.2); [apply raise_value; congruence|]. by intros [= <-].
Qed.

Lemma timing_value pes stream c v : unwrap_timestamps (options c) = false -> (record_pes_timing pes stream c).2 = Ok v ->
  v = (default 0 (pts pes), dts pes).
Proof.
  intros Hu. unfold record_pes_timing. cbv zeta. apply bind_value; [quiet_all|]. intros st c1 H1.
  apply bind_value; [unfold time_pts_less_run, close_pts_less_run; quiet_all|]. intros _ c2 H2.
  apply bind_value; [unfold set_once; quiet_all|]. intros _ c3 H3.
  apply bind_value; [unfold check_pts_order; quiet_all|]. intros _ c4 H4.
  unfold mbind at 1, M_bind at 1, gets. rewrite H4, H3, H2, H1, Hu. by intros [= <-].
Qed.

Lemma surfaced_value pes codec stream c v : strict (options c) = Off -> (surfaced_payload pes codec stream c).2 = Ok v ->
  v = Some (subtitle_text codec (payload pes)).
Proof.
  intros Ho. unfold surfaced_payload, subtitle_text. cbv zeta. apply bind_value; [quiet_all|]. intros tele c1 H1.
  destruct codec; try (by intros [= <-]).
  - destruct (strip_dvb_sub_envelope (payload pes)) as [[]|[]|]; cbn; try (by intros [= <-]); intros [= <-]; by rewrite H1, Ho.
  - apply bind_value; [quiet_all|]. intros [] c2 H2; [by intros [= <-]|]. cbn. intros [= <-]. by rewrite H2, H1, Ho.
Qed.

(** A quiet call whose value is known. *)
Lemma steps_value {A} (m : M A) c (Q : A -> Prop) : core_ok cfg c -> safe cfg m any -> errorless m -> quiet m ->
  (forall a, (m c).2 = Ok a -> Q a) -> steps m c [] Q.
Proof.
  intros Hc Hs He Hq HQ. destruct (steps_quiet cfg m c any Hc Hs He Hq) as (a & c' & Hm & ? & ? & _). exists a, c'.
  split_and!; [done..|]. apply HQ. by rewrite Hm.
Qed.

Lemma off_at c : core_ok cfg c -> strict (options c) = Off.
Proof. intros Hc. by rewrite (co_options _ _ Hc). Qed.

Lemma audio_delivers pes codec stream n t c : core_ok cfg c -> pes_ok pes ->
  steps (emit_audio pes codec stream n t None) c [EvSample stream t None (Audio codec (payload pes))] (fun x => x = None).
Proof.
  intros Hc Hp. unfold emit_audio. cbv zeta. quietly.
  eapply (steps_then cfg _ _ _ _ (fun b => b = false)); [|intros b c1 -> Hc1 _].
  { destruct (bool_decide _); [|by apply steps_ret]. apply steps_value; [done|by apply safe_latm|errorless_all|quiet_all|].
    intros b. by apply latm_value, off_at. }
  destruct (PayloadTotal.frames_ok (E:=Empty_set) codec (payload pes)) as [k Hk]; [apply Hp|].
  eapply steps_lift; [exact Hk|]. quietly.
  eapply (steps_then cfg _ _ _ _ (fun b => b = false)); [|intros b c2 -> Hc2 _; by apply steps_event].
  match goal with |- Steps.steps _ (if ?x then _ else _) _ _ _ => destruct x end; [|by apply steps_ret].
  apply steps_value; [done|apply safe_raise|errorless_all|quiet_all|]. intros b. by apply raise_value, off_at.
Qed.

Lemma subtitle_delivers pes codec stream n t c : core_ok cfg c ->
  steps (emit_subtitle pes codec stream n t None) c
    [EvSample stream t None (Subtitle codec (subtitle_text codec (payload pes)))] (fun x => x = None).
Proof.
  intros Hc. unfold emit_subtitle. cbv zeta.
  eapply (steps_then cfg _ _ _ _ any); [|intros first c1 _ Hc1 _].
  { apply steps_quiet; [done|apply safe_set_once, subtitle_seen_ok|unfold set_once; errorless_all|].
    apply quiet_set_once. by intros. }
  quietly. quietly. eapply (steps_then cfg _ _ _ _ (fun b => b = false)); [|intros b c2 -> Hc2 _].
  { match goal with |- Steps.steps _ (if ?x then _ else _) _ _ _ => destruct x end; [|by apply steps_ret].
    apply steps_value; [done|apply safe_raise|errorless_all|quiet_all|]. intros b. by apply raise_value, off_at. }
  eapply (steps_then cfg _ _ _ _ (fun b => b = Some (subtitle_text codec (payload pes)))); [|intros b c3 -> Hc3 _; by apply steps_event].
  apply steps_value; [done|apply safe_surfaced|errorless_all|quiet_all|]. intros b. by apply surfaced_value, off_at.
Qed.

(** ** Metadata *)

(** No metadata unit is in flight. *)
Definition idle (c : Core) : Prop := AuReassembler.per_pid (au_reassembler c) = ∅.

Lemma traced_idle d c c' : traced d c c' -> idle c -> idle c'.
Proof. intros [[] _] Hi. unfold idle in *. congruence. Qed.

Lemma discard_steps pid c : core_ok cfg c -> idle c -> steps (discard_au_in_progress pid) c [] any.
Proof.
  intros Hc Hi. destruct (safe_discard cfg pid c Hc) as [Hc' _]. unfold discard_au_in_progress in *.
  apply steps_gets. unfold idle in Hi. pose proof (AuInv.total_exact _ (ah_inv _ _ (co_au _ _ Hc))) as Ht. rewrite Hi in Ht.
  assert (AuReassembler.discard_pid (E:=Empty_set) (au_reassembler c) pid =
    Ok (AuReassembler.set_bufs (AuReassembler.begin_wrapper (au_reassembler c) pid) ∅ 0, None)) as Hd.
  { unfold AuReassembler.discard_pid, AuReassembler.drop_pid_buffers, AuReassembler.decrement_total. cbn. rewrite Hi.
    rewrite !map_filter_empty. rewrite decide_True by done. cbn. change (AuReassembler.buffered_len ∅) with 0 in Ht. by rewrite Ht. }
  eapply steps_lift; [exact Hd|]. cbn [fst snd]. unfold mbind, M_bind, gets, lift in Hc'. rewrite Hd in Hc'.
  eapply steps_intro; [reflexivity|exact Hc'| |done].
  by apply same_traced; [split|].
Qed.

Lemma metadata_delivers stream n t k b c : core_ok cfg c ->
  steps (emit_metadata stream n t k b None) c [EvMetadata stream t k b] (fun x => x = None).
Proof. intros Hc. unfold emit_metadata, count_klv. quietly. quietly. by apply steps_event. Qed.

Lemma wrapper_ok pid c : core_ok cfg c -> core_ok cfg (set_au_reassembler c (AuReassembler.begin_wrapper (au_reassembler c) pid)).
Proof. intros Hc. apply ok_set_au; [done|]. by apply begin_wrapper_ok, Hc. Qed.

(** A complete cell at the head of a PES is emitted as it is. *)
Lemma cell_delivers pid stream n t h b c : core_ok cfg c -> idle c -> bytes b ->
  AuReassembler.last_seq (au_reassembler c) !! pid = None -> AuCell.cell_fragment_indication h = AuCell.Complete ->
  steps (process_cell pid stream n t false h b None) c [EvMetadata stream t (cell_kind h false 1) b] (fun x => x = None).
Proof.
  intros Hc Hi Hb Hl Hcf. unfold process_cell. cbn [process_cells]. apply steps_gets.
  assert (AuReassembler.process_cell (E:=Empty_set) (au_reassembler c) pid h b =
    Ok (AuReassembler.set_seqs (au_reassembler c) (<[pid := AuCell.sequence_number h]> (AuReassembler.last_seq (au_reassembler c))),
        AuReassembler.Emit h b 1)) as Hp.
  { unfold AuReassembler.process_cell. rewrite Hl, Hcf. cbn. by rewrite Hi, lookup_empty. }
  eapply steps_lift; [exact Hp|]. cbn [fst snd]. eapply (steps_then cfg _ _ _ _ any); [|intros u c1 _ Hc1 _].
  { eapply steps_intro; [reflexivity| |by apply same_traced; [split|]|done].
    apply ok_set_au; [done|]. eapply au_same_caps; [apply Hc|apply AuInv.inv_seqs; apply Hc|done]. }
  cbn [Z.ltb Z.compare Pos.compare Pos.compare_cont andb]. eapply (steps_then cfg _ _ _ _ any); [by apply steps_ret|intros u' c2 _ Hc2 _].
  by apply metadata_delivers.
Qed.

Lemma walk_delivers pid stream n t h b e c : core_ok cfg c -> idle c -> bytes b ->
  AuReassembler.last_seq (au_reassembler c) !! pid = None -> AuCell.cell_fragment_indication h = AuCell.Complete ->
  steps (walk_cells pid stream n t false [inl (h, b, e)] None None) c [EvMetadata stream t (cell_kind h false 1) b] (fun x => x = None).
Proof.
  intros Hc Hi Hb Hl Hcf. cbn [walk_cells when]. rewrite <- (app_nil_r [EvMetadata _ _ _ _]).
  change (steps (process_cell pid stream n t false h b None ≫= mret) c ([EvMetadata stream t (cell_kind h false 1) b] ++ []) (fun x => x = None)).
  eapply steps_bind; [by apply cell_delivers|]. intros a c1 -> Hc1 _. by apply steps_ret.
Qed.

(** ** Declared PIDs *)

Definition tuned (c : Core) (pid : Z) (kind : StreamKind) (prog stream_type : Z) : Prop :=
  declared (state_of c pid) = (Some kind, Some prog, Some stream_type).

(** No source reset is pending on the PID. *)
Definition steady (c : Core) (pid : Z) : Prop :=
  PidState.source_reset_after_pes (state_of c pid) = false /\ PidState.source_reset_in_pes (state_of c pid) = false.

Lemma traced_tuned d c c' pid k n st : traced d c c' -> tuned c pid k n st -> tuned c' pid k n st.
Proof. intros [Hs _] Ht. pose proof (sm_pids _ _ Hs pid) as Hv. unfold pid_view, tuned in *. congruence. Qed.

Lemma traced_steady d c c' pid : traced d c c' -> steady c pid -> steady c' pid.
Proof. intros [Hs _] Ht. pose proof (sm_pids _ _ Hs pid) as Hv. unfold pid_view, steady in *. injection Hv as _ _ _ _ -> ->. done. Qed.

Lemma tuned_state c pid k n st : tuned c pid k n st -> exists s, pid_state c !! pid = Some s /\
  PidState.stream_kind s = Some k /\ PidState.program s = Some n /\ PidState.stream_type s = Some st.
Proof.
  unfold tuned, declared, state_of. destruct (pid_state c !! pid) as [s|]; cbn; [|done]. intros [= H1 H2 H3]. by exists s.
Qed.

Lemma tuned_kind c pid k n st : tuned c pid k n st -> stream_kind c pid = Some k /\ program_number_for_pid c pid = n /\
  (pid_state c !! pid ≫= PidState.stream_type) = Some st.
Proof.
  intros (s & Hs & Hk & Hn & Hst)%tuned_state. unfold stream_kind, program_number_for_pid, program_of. by rewrite Hs; cbn; rewrite Hk, Hn, Hst.
Qed.

Lemma settle_steps pid c : core_ok cfg c -> steady c pid -> steps (settle_after_pes pid) c [] any.
Proof.
  intros Hc Hst. destruct (safe_settle cfg pid c Hc) as [Hc' _]. unfold settle_after_pes in *. unfold steady, state_of in Hst.
  apply steps_gets. unfold mbind, M_bind, gets in Hc'. destruct (pid_state c !! pid) as [s|] eqn:Hs; [|by apply steps_ret].
  cbn in Hst, Hc'. destruct Hst as [H1 H2]. rewrite H1 in *. cbn in Hc'. eapply steps_intro; [reflexivity|exact Hc'| |done].
  apply same_traced; [|done]. split; try done. intros q. unfold state_of. cbn. rewrite lookup_alter.
  case_decide as Hq; [|done]. subst. rewrite Hs. cbn. destruct (PidState.pts_baseline_clears_after_pes s); cbn; rewrite H1;
    unfold pid_view; cbn; by rewrite H1, H2.
Qed.

Lemma klv_delivers pes kind prog st t d e c : core_ok cfg c -> pes_ok pes -> idle c -> steady c (PesParse.pid pes) ->
  tuned c (PesParse.pid pes) kind prog st -> Psi.is_klv kind = true -> t = default 0 (pts pes) -> d = dts pes ->
  delivery cfg kind prog st pes = Some e ->
  steps (emit_klv pes kind {| sid_pid := PesParse.pid pes; sid_kind := kind; sid_program_number := prog |} prog t d None None) c [e]
    (fun x => x = None).
Proof.
  intros Hc [Hb _] Hi Hst Htu Hk -> -> He. set (stream := {| sid_pid := _ |}). unfold emit_klv. cbv zeta.
  destruct (PayloadTotal.classify_klv_ok (E:=Empty_set) (payload pes) Hb) as (shape & Hsh & _).
  assert (match shape with
    | ShapeAsync b => e = EvMetadata stream (default 0 (pts pes)) KlvAsyncKind b
    | ShapeOther => e = EvSample stream (default 0 (pts pes)) (dts pes) (UnknownSample (from_byte st) (payload pes))
    | ShapeSync => exists h b x, iter_au_cells_with_end (E:=Empty_set) (payload pes) = Ok [inl (h, b, x)] /\
        AuCell.cell_fragment_indication h = AuCell.Complete /\ e = EvMetadata stream (default 0 (pts pes)) (cell_kind h false 1) b
    end) as Hcase.
  { unfold delivery in He. rewrite Hsh in He. destruct kind; try done; (destruct shape; [|by injection He as <-..]);
      destruct (iter_au_cells_with_end (E:=Empty_set) (payload pes)) as [[|[[[h b] x]|] [|]]|[]|]; try done;
      case_bool_decide; simplify_eq; eauto 10. }
  eapply steps_lift; [exact Hsh|]. clear Hsh He. destruct shape as [|b|].
  - destruct Hcase as (h & b & x & Hit & Hcf & ->). eapply (steps_then cfg _ _ _ _ any); [by apply steps_ret|intros _ c0 _ Hc0 Ht0].
    quietly as c1 Hc1 Ht1. apply steps_modify; [by apply same_traced; [split|]|]. set (c2 := set_au_reassembler _ _).
    assert (core_ok cfg c2) as Hc2 by (by apply wrapper_ok).
    pose proof (traced_trans _ _ _ _ _ Ht0 Ht1) as Ht. cbn [app] in Ht.
    pose proof (traced_idle _ _ _ Ht Hi) as Hi1. destruct (traced_steady _ _ _ _ Ht Hst) as [_ Hr].
    apply steps_gets. replace (match pid_state c2 !! _ with Some _ => _ | None => _ end) with false.
    + eapply steps_lift; [exact Hit|]. apply walk_delivers; [done|done| |cbn; apply lookup_delete_eq|done].
      destruct (PayloadTotal.iter_cells_ok (E:=Empty_set) (payload pes) Hb) as (l & Hl & Hok). rewrite Hit in Hl. injection Hl as <-.
      by apply Forall_cons in Hok as [Hok _].
    + change (pid_state c2) with (pid_state c1). unfold state_of in Hr. by destruct (pid_state c1 !! _).
  - subst e. eapply (steps_then cfg _ _ _ _ any); [by apply discard_steps|intros _ c0 _ Hc0 Ht0]. quietly. by apply metadata_delivers.
  - subst e. eapply (steps_then cfg _ _ _ _ any); [by apply discard_steps|intros _ c0 _ Hc0 Ht0]. quietly as c1 Hc1 Ht1. apply steps_gets.
    pose proof (traced_tuned _ _ _ _ _ _ _ Ht1 (traced_tuned _ _ _ _ _ _ _ Ht0 Htu)) as Htu1.
    destruct (tuned_kind _ _ _ _ _ Htu1) as (_ & _ & ->). by apply steps_event.
Qed.

(** ** A completed PES *)

Lemma emit_delivers pes kind prog st e c : core_ok cfg c -> pes_ok pes -> idle c -> steady c (PesParse.pid pes) ->
  tuned c (PesParse.pid pes) kind prog st -> delivery cfg kind prog st pes = Some e ->
  steps (emit_complete_pes pes None None) c [e] (fun x => x = None).
Proof.
  intros Hc Hp Hi Hst Htu He. unfold emit_complete_pes. cbv zeta. apply steps_gets. destruct (tuned_kind _ _ _ _ _ Htu) as (-> & Hn & _).
  apply steps_gets. rewrite Hn. quietly as c1 Hc1 Ht1.
  eapply (steps_then cfg _ _ _ _ (fun v => v = (default 0 (pts pes), dts pes))); [|intros v c2 -> Hc2 Ht2].
  { apply steps_value; [done|by apply safe_timing|errorless_all|quiet_all|]. intros v. apply timing_value.
    rewrite (co_options _ _ Hc1). apply Hcfg. }
  pose proof (traced_trans _ _ _ _ _ Ht1 Ht2) as Ht. cbn [app fst snd] in *.
  destruct kind; try (injection He as <-);
    first [by apply video_delivers|by apply audio_delivers|by apply subtitle_delivers|by apply unknown_delivers|idtac].
  all: eapply klv_delivers; try done; try (by eapply traced_idle); try (by eapply traced_steady); by eapply traced_tuned.
Qed.

Lemma complete_delivers pes kind prog st e c : core_ok cfg c -> pes_ok pes -> idle c -> steady c (PesParse.pid pes) ->
  tuned c (PesParse.pid pes) kind prog st -> delivery cfg kind prog st pes = Some e ->
  steps (complete_outcome pes no_marks) c [e] (fun k => k = no_marks).
Proof.
  intros Hc Hp Hi Hst Htu He. unfold complete_outcome. cbv zeta. cbn [no_marks drop_next_complete damage_next_complete is_some].
  rewrite bool_decide_eq_false_2 by done.
  eapply (steps_then cfg _ _ _ _ (fun g => g = None)); [by apply steps_ret|intros g c0 -> Hc0 Ht0].
  rewrite <- (app_nil_r [e]). eapply (steps_bind cfg _ _ _ _ _ any); [|intros u c1 _ Hc1 _; by apply steps_ret].
  pose proof (traced_idle _ _ _ Ht0 Hi) as Hi0. pose proof (traced_steady _ _ _ _ Ht0 Hst) as Hst0.
  pose proof (traced_tuned _ _ _ _ _ _ _ Ht0 Htu) as Htu0. unfold handle_complete_pes. cbv zeta. apply steps_gets.
  replace (match pid_state c0 !! _ with Some _ => _ | None => _ end) with false
    by (destruct Hst0 as [_ Hr]; unfold state_of in Hr; by destruct (pid_state c0 !! _)).
  eapply (steps_then cfg _ _ _ _ any); [by apply steps_ret|intros _ c1 _ Hc1 Ht1].
  rewrite <- (app_nil_r [e]). eapply steps_bind.
  { apply (emit_delivers pes kind prog st e c1); try done; [by eapply traced_idle|by eapply traced_steady|by eapply traced_tuned]. }
  intros x c2 -> Hc2 Ht2. pose proof (traced_steady _ _ _ _ Ht2 (traced_steady _ _ _ _ Ht1 Hst0)) as Hst2.
  eapply (steps_then cfg _ _ _ _ any); [by apply settle_steps|intros _ c3 _ Hc3 _].
  eapply (steps_then cfg _ _ _ _ any); [by apply steps_ret|intros _ c4 _ Hc4 _]. by apply steps_ret.
Qed.

End deliver.
End Deliver.
