(* ===== verification/DemuxReceive.v ===== *)
(** Packet by packet: what a lenient demuxer that has the tables of a stream does
    with the undamaged packets of that stream. *)
From Stdlib Require Import ZArith Lia Bool String.
From stdpp Require Import base list list_numbers gmap.
From S2P Require Import Prelude.
From S2P Require Import Common.
From S2P Require Import TsPacket.
From S2P Require Import PesDemux.
From S2P Require Import PsiParse.
From S2P Require Import PsiAssembly.
From S2P Require Import PsiWriter.
From S2P Require Import Descriptors.
From S2P Require Import WireBytes.
From S2P Require Import MuxerTheorems.
From S2P Require Import Ingress.
From S2P Require Import DemuxTime.
From S2P Require Import AuReassemble.
From S2P Require Import DemuxTypes.
From S2P Require Import DemuxState.
From S2P Require Import DemuxIngress.
From S2P Require Import DemuxPsi.
From S2P Require Import DemuxPayload.
From S2P Require Import DemuxPes.
From S2P Require Import Demuxer.
From S2P Require Import DemuxTotal.
From S2P Require Import DemuxSafe.
From S2P Require Import DemuxMethods.
From S2P Require Import DemuxEmit.
From S2P Require Import DemuxerTheorems.
From S2P Require Import DemuxTrace.

(** * What a packet may move *)
Module Moves.
Import Common TsParser PmtClassify DemuxEvent Strict DemuxConfig Core Lookup PacketChecks Emit CoreInv Safe NoError PacketSafe EmitSafe Trace Quiet Steps Deliver.
#[local] Abbreviation any := (fun _ => True).

(** The last continuity counter of a PID. *)
Definition cc_at (c : Core) (q : Z) : option Z := PidState.cc (state_of c q).

Definition stamp (f : Z -> option Z) (p v : Z) : Z -> option Z := fun q => if decide (q = p) then Some v else f q.

(** What the tables declared of a PID, and its pending resets. *)
Definition static (s : PidState.PidState) : option StreamKind * option Z * option Z * bool * bool :=
  (declared s, PidState.source_reset_after_pes s, PidState.source_reset_in_pes s).

(** From [c] to [c'] the topology stayed, [d] was delivered, the counters became
    [f] and the PES in flight [R]. *)
Record went (d : list DemuxEvent) (f : Z -> option Z) (R : Reassembler.Reassembler) (c c' : Core) : Prop := {
  wt_programs : tracker_view <$> programs c' = tracker_view <$> programs c;
  wt_owner : pid_owner c' = pid_owner c;
  wt_pmts : pmt_pids c' = pmt_pids c;
  wt_pat : pat_identity c' = pat_identity c;
  wt_pids : forall q, static (state_of c' q) = static (state_of c q);
  wt_au : AuReassembler.per_pid (au_reassembler c') = AuReassembler.per_pid (au_reassembler c);
  wt_queue : exists es, queue c' = queue c ++ es /\ deliveries es = d;
  wt_cc : forall q, cc_at c' q = f q;
  wt_pes : pes c' = R;
}.

Lemma went_refl c : went [] (cc_at c) (pes c) c c.
Proof. split; try done. exists []. by rewrite app_nil_r. Qed.

Lemma went_trans d d' f f' R R' a b c : went d f R a b -> went d' f' R' b c -> went (d ++ d') f' R' a c.
Proof.
  intros [] []. split; try congruence. destruct wt_queue0 as (e1 & Hq1 & <-), wt_queue1 as (e2 & Hq2 & <-).
  exists (e1 ++ e2). by rewrite Hq2, Hq1, app_assoc, deliveries_app.
Qed.

Lemma went_ext d f g R c c' : (forall q, f q = g q) -> went d f R c c' -> went d g R c c'.
Proof. intros Hfg []. split; try done. intros q. by rewrite wt_cc0. Qed.

Lemma traced_went d c c' : traced d c c' -> went d (cc_at c) (pes c) c c'.
Proof.
  intros [[] Hq]. split; try done; intros q; specialize (sm_pids0 q); unfold pid_view, static, cc_at in *; congruence.
Qed.

(** The same, followed by a step that delivers nothing. *)
Lemma went_then d f R a b c : went d f R a b -> traced [] b c -> went d f R a c.
Proof.
  intros H1 H2%traced_went. rewrite <- (app_nil_r d). destruct H1 as [? ? ? ? ? ? ? Hcc Hp] eqn:He. clear He.
  eapply (went_trans d [] f f R R a b c); [by split|]. subst R. by apply (went_ext _ (cc_at b)).
Qed.

Lemma then_went d f R a b c : traced [] a b -> went d f R b c -> went d f R a c.
Proof. intros H1%traced_went H2. rewrite <- (app_nil_l d). by eapply went_trans. Qed.

Lemma went_tuned d f R c c' pid k n st : went d f R c c' -> tuned c pid k n st -> tuned c' pid k n st.
Proof. intros [] Ht. specialize (wt_pids0 pid). unfold static, tuned in *. congruence. Qed.

Lemma went_steady d f R c c' pid : went d f R c c' -> steady c pid -> steady c' pid.
Proof. intros [] Ht. specialize (wt_pids0 pid). unfold static, steady in *. injection wt_pids0 as _ _ _ -> ->. done. Qed.

Lemma went_idle d f R c c' : went d f R c c' -> idle c -> idle c'.
Proof. intros [] Hi. unfold idle in *. congruence. Qed.

(** ** Continuity *)
Section continuity.
Context (cfg : DemuxerConfig) (Hcfg : config_ok cfg) {HO : HashOrder}.

(** The packet follows what was seen on its PID. *)
Definition follows (f : Z -> option Z) (p cc : Z) : Prop := forall v, f p = Some v -> cc = (v + 1) mod 16.

(** An undamaged packet. *)
Record clean (pkt : TsPacket) : Prop := {
  cl_error : transport_error_indicator pkt = false;
  cl_scrambling : transport_scrambling_control pkt = 0;
  cl_adaptation : adaptation_malformed pkt = None;
  cl_jump : discontinuity_indicator pkt = false;
}.

Lemma stamped_went c c' p v raw_ : core_ok cfg c -> traced [] c c' ->
  went [] (stamp (cc_at c) p v) (pes c) c
    (pid_state_mut p (fun s => PidState.set_last_pkt_raw (PidState.set_cc s (Some v)) raw_) c').1.
Proof.
  intros Hc Ht. eapply then_went; [exact Ht|]. apply traced_went in Ht. destruct Ht as [_ _ _ _ _ _ _ Hcc Hpes].
  unfold pid_state_mut, modify. cbn [fst].
  split; try done; [|by exists []; rewrite app_nil_r|].
  - intros q. rewrite state_of_mut. case_decide as Hq; [|done]. by subst.
  - intros q. unfold cc_at. rewrite state_of_mut. unfold stamp. destruct (decide (p = q)) as [<-|Hne].
    + by rewrite decide_True.
    + rewrite decide_False by done. apply Hcc.
Qed.

Lemma cc_lookup c p : pid_state c !! p ≫= PidState.cc = cc_at c p.
Proof. unfold cc_at, state_of. by destruct (pid_state c !! p). Qed.

(** A packet whose counter follows is no repeat. *)
Lemma no_repeat c pkt v : cc_at c (pid pkt) = Some v -> 0 <= v < 16 -> continuity_counter pkt = (v + 1) mod 16 ->
  is_identical_repeat (E:=Empty_set) c pkt = Ok false.
Proof.
  unfold is_identical_repeat. rewrite <- cc_lookup. destruct (pid_state c !! pid pkt) as [s|]; [|done]. cbn. intros Hv Hr Hcc.
  rewrite bool_decide_eq_false_2; [done|]. rewrite Hv. intros [= He]. rewrite He in Hcc. dlia.
Qed.

Lemma bind_run {A B} (m : M A) (k : A -> M B) c c1 a : m c = (c1, Ok a) -> (m ≫= k) c = k a c1.
Proof. intros Hm. unfold mbind, M_bind. by rewrite Hm. Qed.

Lemma continuity_seeds pkt c : core_ok cfg c -> clean pkt -> has_payload pkt = true -> pid pkt <> PID_NULL ->
  follows (cc_at c) (pid pkt) (continuity_counter pkt) ->
  exists c0, traced [] c c0 /\ check_continuity pkt c = seed_continuity pkt false c0.
Proof.
  intros Hc Hcl Hpay Hnull Hf. set (c1 := set_last_psi_cc_jump c None).
  assert (traced [] c c1) as Ht1 by (by apply same_traced).
  unfold check_continuity. cbv zeta. rewrite (bind_run _ _ c c1 tt) by done. rewrite (proj2 (Z.eqb_neq _ _) Hnull), Hpay. cbn [negb].
  rewrite (bind_run _ _ c1 c1 c1) by done. rewrite cc_lookup. change (cc_at c1) with (cc_at c).
  destruct (cc_at c (pid pkt)) as [v|] eqn:Hv; [|by exists c1].
  pose proof (po_cc _ (state_of_ok cfg c (pid pkt) Hc) v Hv) as Hr. pose proof (Hf v Hv) as Hcc.
  assert (chk_u8 (E:=Empty_set) (v + 1) = Ok (v + 1)) as Hchk.
  { unfold chk_u8, checked. by rewrite (proj2 (Z.leb_le _ _)), (proj2 (Z.ltb_lt _ _)) by lia. }
  rewrite Hchk, (bind_run _ _ c1 c1 (v + 1)) by done. cbv zeta.
  rewrite (no_repeat c1 pkt v), (bind_run _ _ c1 c1 false) by done.
  eexists. rewrite (bind_run _ _ c1 _ tt) by reflexivity. rewrite land_15, Hcc, Z.eqb_refl. cbn [negb andb when].
  split; [|reflexivity]. apply (traced_trans [] [] c c1); [done|].
  exact (quiet_pid_mut (pid pkt) (fun s => PidState.set_dup s false) ltac:(done) c1).
Qed.

Lemma continuity_follows buf pkt c : core_ok cfg c -> PacketTotal.packet_ok buf pkt -> zlen buf = 188 -> clean pkt ->
  has_payload pkt = true -> pid pkt <> PID_NULL -> follows (cc_at c) (pid pkt) (continuity_counter pkt) ->
  exists c', check_continuity pkt c = (c', Ok (false, false)) /\ core_ok cfg c' /\
    went [] (stamp (cc_at c) (pid pkt) (continuity_counter pkt)) (pes c) c c'.
Proof.
  intros Hc Hp Hl Hcl Hpay Hnull Hf. destruct (safe_continuity cfg buf pkt Hp Hl c Hc) as [Hc' _].
  destruct (continuity_seeds pkt c Hc Hcl Hpay Hnull Hf) as (c0 & Ht & Heq). rewrite Heq in *. revert Hc'.
  unfold seed_continuity. cbv zeta. rewrite (cl_jump _ Hcl). rewrite (bind_run _ _ c0 c0 tt) by done.
  intros Hc'. eexists. split; [reflexivity|]. split; [exact Hc'|]. by apply stamped_went.
Qed.

(** A packet without a payload moves nothing. *)
Lemma continuity_empty pkt c : core_ok cfg c -> clean pkt -> has_payload pkt = false ->
  exists c', check_continuity pkt c = (c', Ok (false, false)) /\ core_ok cfg c' /\ traced [] c c'.
Proof.
  intros Hc Hcl Hpay. exists (set_last_psi_cc_jump c None). split; [|split; [by apply (ok_frame cfg c)|by apply same_traced]].
  unfold check_continuity. cbv zeta. rewrite (bind_run _ _ c (set_last_psi_cc_jump c None) tt) by done.
  rewrite Hpay, (cl_jump _ Hcl). by destruct (_ =? _).
Qed.

(** ** The way to the router *)

Lemma process_routes buf pkt c : core_ok cfg c -> parse_ts_packet buf = Ok pkt -> PacketTotal.packet_ok buf pkt -> zlen buf = 188 ->
  clean pkt -> exists c1, core_ok cfg c1 /\ traced [] c c1 /\ Demuxer.process_packet buf c = Demuxer.route_packet pkt c1.
Proof.
  intros Hc Hp Hk Hl Hcl.
  destruct (steps_quiet cfg (check_pcr pkt) c any Hc) as ([] & c1 & Hm & Hc1 & Ht & _);
    [by eapply safe_pcr|unfold check_pcr, forget_program_pts; errorless_all; apply errorless_lift|apply quiet_pcr|].
  exists c1. split; [done|]. split; [done|]. unfold Demuxer.process_packet. rewrite Hp. cbv zeta. rewrite (cl_error _ Hcl).
  rewrite (bind_run _ _ c c1 tt) by done. rewrite (cl_scrambling _ Hcl). cbn [negb Z.eqb]. rewrite (cl_adaptation _ Hcl).
  by rewrite (bind_run _ _ c1 c1 tt).
Qed.

(** A clock packet on an elementary PID. *)
Lemma clock_passes buf pkt c : core_ok cfg c -> parse_ts_packet buf = Ok pkt -> PacketTotal.packet_ok buf pkt -> zlen buf = 188 ->
  clean pkt -> has_payload pkt = false -> pid pkt <> 0 -> pid pkt ∉ pmt_pids c ->
  exists c', Demuxer.process_packet buf c = (c', Ok tt) /\ core_ok cfg c' /\ went [] (cc_at c) (pes c) c c'.
Proof.
  intros Hc Hp Hk Hl Hcl Hpay Hz Hpmt. destruct (process_routes buf pkt c Hc Hp Hk Hl Hcl) as (c1 & Hc1 & Ht1 & ->).
  destruct (continuity_empty pkt c1 Hc1 Hcl Hpay) as (c2 & Hcc & Hc2 & Ht2).
  pose proof (traced_trans _ _ _ _ _ Ht1 Ht2) as Ht. exists c2. split; [|split; [done|by apply traced_went]].
  unfold Demuxer.route_packet. cbv zeta. rewrite (bind_run _ _ c1 c2 (false, false)) by done. cbn [snd].
  rewrite (proj2 (Z.eqb_neq _ _) Hz). rewrite (bind_run _ _ c2 c2 false); [|unfold gets; by rewrite bool_decide_eq_false_2 by (by rewrite (sm_pmts _ _ (proj1 Ht)))].
  rewrite (bind_run _ _ c2 c2 (is_some (stream_kind c2 (pid pkt)))) by done. by rewrite Hpay.
Qed.

(** ** A packet of a PES *)

Context (Hoff : strict cfg = Off).

(** [es] is what the stream's client gets of the PES [ps]. *)
Definition yields (q : Z) (kind : StreamKind) (prog st : Z) : list PesParse.PesPayload -> list DemuxEvent -> Prop :=
  Forall2 (fun p e => PesParse.pid p = q /\ delivery cfg kind prog st p = Some e).

Lemma outcomes_deliver q kind prog st settles n ps es : yields q kind prog st ps es -> Forall PesOutcomes.pes_ok ps ->
  forall i c, core_ok cfg c -> idle c -> steady c q -> tuned c q kind prog st ->
  steps cfg (handle_outcomes q settles n i (Reassembler.Complete <$> ps) no_marks) c es any.
Proof.
  induction 1 as [|p e ps es [Hq He] _ IH]; intros Hok i c Hc Hi Hs Ht; cbn [fmap list_fmap handle_outcomes]; [by apply steps_ret|].
  apply Forall_cons in Hok as [Hp Hok].
  eapply (steps_then cfg _ _ _ _ any); [|intros [] c1 _ Hc1 Ht1].
  { destruct (_ && _); [by apply settle_steps|by apply steps_ret]. }
  change (e :: es) with ([e] ++ es). subst q. eapply (steps_bind cfg).
  - cbn [handle_outcome]. eapply complete_delivers; try done; [by eapply traced_idle|by eapply traced_steady|by eapply traced_tuned].
  - intros k c2 -> Hc2 Ht2. apply IH; try done.
    + by eapply traced_idle, traced_idle.
    + by eapply traced_steady, traced_steady.
    + by eapply traced_tuned, traced_tuned.
Qed.

Definition video_kind (kind : StreamKind) : bool :=
  match kind with KVideo _ => true | PmtClassify.Unknown st => is_video_stream_type st | _ => false end.

Lemma tuned_video c q kind prog st : tuned c q kind prog st -> is_video_pid c q = video_kind kind.
Proof. intros (Hk & _)%tuned_kind. unfold is_video_pid. rewrite Hk. by destruct kind. Qed.

(** The two guarded calls ahead of the reassembler. *)
Lemma settle_first (b : bool) q c : core_ok cfg c -> steady c q -> steps cfg (when b (settle_after_pes q)) c [] any.
Proof. intros Hc Hs. destruct b; [by apply settle_steps|by apply steps_ret]. Qed.

Lemma discard_first (b : bool) q c : core_ok cfg c -> idle c -> steps cfg (when b (discard_au_in_progress q)) c [] any.
Proof. intros Hc Hi. destruct b; [by apply discard_steps|by apply steps_ret]. Qed.

Lemma pes_packet_delivers buf pkt c kind prog st R n ps es : core_ok cfg c -> PacketTotal.packet_ok buf pkt ->
  idle c -> steady c (pid pkt) -> tuned c (pid pkt) kind prog st ->
  Reassembler.push_split (E:=Empty_set) (pes c) (pid pkt) (payload pkt) (payload_unit_start pkt) (random_access_indicator pkt)
    (video_kind kind) = Ok (R, (Reassembler.Complete <$> ps, n)) ->
  yields (pid pkt) kind prog st ps es ->
  exists c', handle_pes_packet pkt c = (c', Ok tt) /\ core_ok cfg c' /\ went es (cc_at c) R c c'.
Proof.
  intros Hc Hk Hi Hs Ht Hpush Hy. unfold handle_pes_packet. cbv zeta.
  rewrite (bind_run _ _ c c (video_kind kind)) by (unfold gets; by rewrite (tuned_video _ _ _ _ _ Ht)).
  rewrite (bind_run _ _ c c (Reassembler.has_pid (pes c) (pid pkt))) by done.
  destruct (settle_first (payload_unit_start pkt && negb (Reassembler.has_pid (pes c) (pid pkt))) (pid pkt) c Hc Hs) as ([] & c1 & H1 & Hc1 & Ht1 & _).
  rewrite (bind_run _ _ c c1 tt) by done. set (short := Reassembler.has_pid (pes c1) (pid pkt) && negb (Reassembler.in_flight_holds_header (pes c1) (pid pkt))).
  rewrite (bind_run _ _ c1 c1 short) by done.
  destruct (discard_first (payload_unit_start pkt && short) (pid pkt) c1 Hc1) as ([] & c2 & H2 & Hc2 & Ht2 & _); [by eapply traced_idle|].
  rewrite (bind_run _ _ c1 c2 tt) by done. rewrite (bind_run _ _ c2 c2 (pes c2)) by done.
  pose proof (traced_trans _ _ _ _ _ Ht1 Ht2) as Ht12. assert (pes c2 = pes c) as -> by apply Ht12.
  rewrite Hpush. rewrite (bind_run _ _ c2 c2 (R, (Reassembler.Complete <$> ps, n))) by done. cbn [fst snd].
  pose proof (co_pes _ _ Hc) as Hpes.
  destruct (PesOutcomes.push_split_ok (E:=Empty_set) (pes c) (pid pkt) (payload pkt) (payload_unit_start pkt) (random_access_indicator pkt) (video_kind kind))
    as (R' & out & n' & Hpush' & Hinv & Hcaps & Hout);
    [apply Hpes|apply Hk|rewrite (ph_total _ _ Hpes); apply (pes_total_ok _ Hcfg)|rewrite (ph_cap _ _ Hpes); apply (pes_cap_ok _ Hcfg)|].
  rewrite Hpush in Hpush'. injection Hpush' as <- <- <-.
  set (c3 := set_pes c2 R). rewrite (bind_run _ _ c2 c3 tt) by done.
  assert (core_ok cfg c3) as Hc3 by (apply ok_set_pes; [done|by eapply pes_same_caps]).
  pose proof (traced_idle _ _ _ Ht12 Hi) as Hi2. pose proof (traced_steady _ _ _ _ Ht12 Hs) as Hs2. pose proof (traced_tuned _ _ _ _ _ _ _ Ht12 Ht) as Htu2.
  destruct (outcomes_deliver (pid pkt) kind prog st (payload_unit_start pkt) n ps es Hy) with (i := 0) (c := c3) as ([] & c4 & H4 & Hc4 & Ht4 & _);
    [exact (proj1 (Forall_fmap _ _ _) Hout)|done..|].
  rewrite (bind_run _ _ c3 c4 tt) by done.
  destruct (settle_first (payload_unit_start pkt) (pid pkt) c4 Hc4) as ([] & c5 & H5 & Hc5 & Ht5 & _); [by eapply traced_steady|].
  exists c5. split; [done|]. split; [done|]. eapply went_then; [|exact Ht5]. eapply then_went; [exact Ht12|].
  assert (forall q, cc_at c3 q = cc_at c q) as Hcc by (intros q; apply (wt_cc _ _ _ _ _ (traced_went _ _ _ Ht12))).
  rewrite <- (app_nil_l es). eapply (went_trans [] es (cc_at c3) (cc_at c) R R c2 c3); [|eapply went_ext; [exact Hcc|by apply traced_went]].
  split; try done. by exists []; rewrite app_nil_r.
Qed.

Lemma went_stamp d p v R a b c f : (forall q, cc_at b q = cc_at a q) -> went [] (cc_at a) (pes a) a b ->
  went d (stamp (cc_at b) p v) R b c -> (forall q, f q = stamp (cc_at a) p v q) -> went d f R a c.
Proof.
  intros Hcc H1 H2 Hf. rewrite <- (app_nil_l d). eapply went_trans; [exact H1|]. eapply went_ext; [|exact H2].
  intros q. rewrite Hf. unfold stamp. by rewrite Hcc.
Qed.

(** A packet with a payload, past the continuity check. *)
Lemma payload_routes buf pkt c : core_ok cfg c -> parse_ts_packet buf = Ok pkt -> PacketTotal.packet_ok buf pkt -> zlen buf = 188 ->
  clean pkt -> has_payload pkt = true -> pid pkt <> PID_NULL -> follows (cc_at c) (pid pkt) (continuity_counter pkt) ->
  exists c1, core_ok cfg c1 /\ went [] (stamp (cc_at c) (pid pkt) (continuity_counter pkt)) (pes c) c c1 /\
    Demuxer.process_packet buf c =
      (if pid pkt =? 0 then Psi.handle_psi (pid pkt) (payload pkt) (payload_unit_start pkt) true false
       else if bool_decide (pid pkt ∈ pmt_pids c) then Psi.handle_psi (pid pkt) (payload pkt) (payload_unit_start pkt) false false
       else if is_some (stream_kind c1 (pid pkt)) then handle_pes_packet pkt else mret tt) c1.
Proof.
  intros Hc Hp Hk Hl Hcl Hpay Hnull Hf. destruct (process_routes buf pkt c Hc Hp Hk Hl Hcl) as (c1 & Hc1 & Ht1 & ->).
  pose proof (traced_went _ _ _ Ht1) as Hw1. pose proof (wt_cc _ _ _ _ _ Hw1) as Hcc1.
  destruct (continuity_follows buf pkt c1 Hc1 Hk Hl Hcl Hpay Hnull) as (c2 & Hcc & Hc2 & Hw2); [intros v; rewrite Hcc1; apply Hf|].
  rewrite (wt_pes _ _ _ _ _ Hw1) in Hw2.
  exists c2. split; [done|]. split; [by eapply (went_stamp [] _ _ _ c c1)|].
  unfold Demuxer.route_packet. cbv zeta. rewrite (bind_run _ _ c1 c2 (false, false)) by done. cbn [fst snd].
  destruct (_ =? 0); [done|]. rewrite <- (wt_pmts _ _ _ _ _ Hw1), <- (wt_pmts _ _ _ _ _ Hw2).
  rewrite (bind_run _ _ c2 c2 (bool_decide (pid pkt ∈ pmt_pids c2))) by done. destruct (bool_decide _); [done|].
  rewrite (bind_run _ _ c2 c2 (is_some (stream_kind c2 (pid pkt)))) by done. rewrite Hpay. cbn [andb when].
  destruct (is_some _); [|done]. by rewrite (bind_run _ _ c2 c2 tt).
Qed.

Lemma pes_passes buf pkt c kind prog st R ps es : core_ok cfg c -> parse_ts_packet buf = Ok pkt ->
  PacketTotal.packet_ok buf pkt -> zlen buf = 188 -> clean pkt -> has_payload pkt = true -> pid pkt <> PID_NULL ->
  follows (cc_at c) (pid pkt) (continuity_counter pkt) -> pid pkt <> 0 -> pid pkt ∉ pmt_pids c ->
  idle c -> steady c (pid pkt) -> tuned c (pid pkt) kind prog st ->
  Reassembler.push (E:=Empty_set) (pes c) (pid pkt) (payload pkt) (payload_unit_start pkt) (random_access_indicator pkt)
    (video_kind kind) = Ok (R, Reassembler.Complete <$> ps) ->
  yields (pid pkt) kind prog st ps es ->
  exists c', Demuxer.process_packet buf c = (c', Ok tt) /\ core_ok cfg c' /\
    went es (stamp (cc_at c) (pid pkt) (continuity_counter pkt)) R c c'.
Proof.
  intros Hc Hp Hk Hl Hcl Hpay Hnull Hf Hz Hpmt Hi Hs Ht Hpush Hy.
  destruct (payload_routes buf pkt c Hc Hp Hk Hl Hcl Hpay Hnull Hf) as (c1 & Hc1 & Hw1 & ->).
  rewrite (proj2 (Z.eqb_neq _ _) Hz), bool_decide_eq_false_2 by done.
  pose proof (went_tuned _ _ _ _ _ _ _ _ _ Hw1 Ht) as Ht1. destruct (tuned_kind _ _ _ _ _ Ht1) as (-> & _). cbn [is_some].
  unfold Reassembler.push in Hpush. apply rbind_ok in Hpush as ([R' [out n]] & Hpush & [= -> ->]).
  rewrite <- (wt_pes _ _ _ _ _ Hw1) in Hpush.
  destruct (pes_packet_delivers buf pkt c1 kind prog st R n ps es Hc1 Hk) as (c2 & H2 & Hc2 & Hw2);
    [by eapply went_idle|by eapply went_steady|done|done|done|].
  exists c2. split; [done|]. split; [done|]. rewrite <- (app_nil_l es). eapply went_trans; [exact Hw1|].
  eapply went_ext; [|exact Hw2]. apply Hw1.
Qed.

End continuity.
End Moves.

(** * Whole items *)
Module Items.
Import Common TsParser PmtClassify DemuxEvent Strict DemuxConfig Core Lookup PacketChecks Emit CoreInv Safe DemuxerSafe DemuxerInv DemuxerTheorems Abstract Demuxer Trace Steps Deliver Moves.
Import Packetize Receiver.

Lemma each_app f (a b : list (list Z)) : forall c c1 : Core, each f c a = (c1, Ok tt) -> each f c (a ++ b) = each f c1 b.
Proof.
  induction a as [|p a IH]; intros c c1; cbn [each app]; [by intros [= <-]|]. destruct (f c p) as [c2 [[]|e|]]; [|done..]. apply IH.
Qed.


Section items.
Context (cfg : DemuxerConfig) (Hcfg : config_ok cfg) (Hoff : strict cfg = Off) {HO : HashOrder} (debug : NonConformantIssue -> string).

Lemma feed_processed c c' p : ready cfg c -> bytes p -> zlen p = 188 -> process_packet p c = (c', Ok tt) ->
  feed_packet debug c p = (c', Ok tt) /\ ready cfg c'.
Proof.
  intros Hr Hb Hl Hp. pose proof (lenient_accepts cfg Hcfg debug c p Hoff Hr Hb Hl) as Ha.
  destruct (packet_ready cfg Hcfg debug c p Hr Hb Hl) as [Hr' _]. revert Ha Hr'.
  unfold feed_packet. rewrite Hp. cbn. destruct (fatal c'); by cbn.
Qed.

(** The packets of one PES, as the parser sees them. *)
Definition part (q : Z) (buf : list Z) (p : TsPacket) : Prop :=
  bytes buf /\ zlen buf = 188 /\ carries q buf p /\ PacketTotal.packet_ok buf p /\ clean p.

Lemma follows_next f q v : 0 <= v < 16 -> follows (stamp f q v) q ((v + 1) mod 16).
Proof. intros Hv w. unfold stamp. rewrite decide_True by done. by intros [= <-]. Qed.

Lemma unit_passes q kind prog st pkts qs : q <> 0 -> q <> PID_NULL -> Forall2 (part q) pkts qs -> forall cc c R ps es,
  continuity_counter <$> qs = run_of cc (length qs) -> 0 <= cc < 16 ->
  ready cfg c -> follows (cc_at c) q cc -> q ∉ pmt_pids c -> idle c -> steady c q -> tuned c q kind prog st ->
  receive (E:=Empty_set) (pes c) q (video_kind kind) pkts = Ok (R, Reassembler.Complete <$> ps) -> yields cfg q kind prog st ps es ->
  exists c' f, each (feed_packet debug) c pkts = (c', Ok tt) /\ ready cfg c' /\ went es f R c c' /\
    (forall p, p <> q -> f p = cc_at c p) /\ follows f q ((cc + zlen pkts) mod 16).
Proof.
  intros Hz Hnull. induction 1 as [|pkt p pkts qs (Hb & Hl & Hcar & Hk & Hcl) _ IH]; intros cc c R ps es Hrun Hcc Hr Hf Hpmt Hi Hs Ht Hrec Hy.
  { cbn [receive] in Hrec. injection Hrec as <- Hps. symmetry in Hps. apply fmap_nil_inv in Hps as ->. inversion Hy; subst.
    exists c, (cc_at c). split_and!; [done|done|apply went_refl|done|]. by rewrite zlen_nil, Z.add_0_r, Z.mod_small. }
  cbn [fmap list_fmap length run_of] in Hrun. injection Hrun as Hpc Hrun. pose proof Hcar as [Hp Hq _ Hpay].
  rewrite (receive_cons _ _ _ _ p) in Hrec by done. apply rbind_ok in Hrec as ([R1 o1] & Hpush & Hrec).
  apply rbind_ok in Hrec as ([R2 o2] & Hrec & Heq). injection Heq as -> Hps. symmetry in Hps. apply fmap_app_inv in Hps as (ps1 & ps2 & -> & -> & ->).
  apply Forall2_app_inv_l in Hy as (es1 & es2 & Hy1 & Hy2 & ->). subst q.
  destruct (pes_passes cfg Hcfg Hoff pkt p c kind prog st R1 ps1 es1) as (c1 & Hproc & Hc1 & Hw1); try done; [apply Hr|by rewrite Hpc|].
  destruct (feed_processed c c1 pkt Hr Hb Hl Hproc) as [Hfeed Hr1]. rewrite <- (wt_pes _ _ _ _ _ Hw1) in Hrec. rewrite Hpc in Hw1.
  destruct (IH ((cc + 1) mod 16) c1 R ps2 es2) as (c' & f & Heach & Hr' & Hw' & Hother & Hfol); try done.
  - by apply Z.mod_pos_bound.
  - intros v. rewrite (wt_cc _ _ _ _ _ Hw1). by apply follows_next.
  - by rewrite (wt_pmts _ _ _ _ _ Hw1).
  - by eapply went_idle.
  - by eapply went_steady.
  - by eapply went_tuned.
  - exists c', f. cbn [each]. rewrite Hfeed. split_and!; [done|done|by eapply went_trans| |].
    + intros x Hx. rewrite Hother by done. rewrite (wt_cc _ _ _ _ _ Hw1). unfold stamp. by rewrite decide_False.
    + rewrite zlen_cons. replace ((cc + (1 + zlen pkts)) mod 16) with (((cc + 1) mod 16 + zlen pkts) mod 16); [done|]. dlia.
Qed.

(** ** A table in one packet *)

(** What is left in the assembler of the PID is stuffing. *)
Definition idle_assembler (o : option PsiAssembler.PsiSectionAssembler) : nat :=
  match o with
  | Some a => match PsiAssembler.buf a with [] => 0%nat | b :: _ => if b =? 0xFF then 0%nat else 1%nat end
  | None => 0%nat
  end.
Definition drained (c : Core) (p : Z) : Prop := idle_assembler (psi_assemblers c !! p) = 0%nat.

Lemma idle_least : PsiSafe.least_new idle_assembler.
Proof. split; [intros x; cbn; lia|done]. Qed.

Lemma drained_after p (is_pat : bool) s c : drained c p ->
  drained ((if is_pat then Psi.handle_pat_section s else Psi.handle_pmt_section p s) c).1 p.
Proof.
  intros Hd. unfold drained in *. destruct is_pat; [|by rewrite PsiSafe.keeps_pmt_section].
  pose proof (PsiSafe.lowers_pat_section idle_assembler p s idle_least c) as Hl. cbn in Hl. lia.
Qed.

Lemma drain_quiet p (is_pat : bool) fuel c : core_ok cfg c -> drained c p ->
  steps cfg (Psi.drain_sections (S fuel) p is_pat) c [] (fun _ => True).
Proof.
  intros Hc Hd. cbn [Psi.drain_sections]. unfold Psi.assemble. set (a := default PsiAssembler.new (psi_assemblers c !! p)).
  assert (assembler_ok a) as Ha.
  { unfold a. destruct (psi_assemblers c !! p) as [x|] eqn:Hx; [by apply (co_assemblers _ _ Hc p)|apply assembler_new_ok]. }
  assert (exists a', PsiAssembler.try_complete_section a = (a', Ok None)) as [a' Hr].
  { unfold drained, idle_assembler in Hd. unfold PsiAssembler.try_complete_section, a.
    destruct (psi_assemblers c !! p) as [x|]; cbn; [|by eexists]. destruct (PsiAssembler.buf x) as [|b l]; [by eexists|].
    destruct (b =? 0xFF); [by eexists|done]. }
  pose proof (proj1 (PsiSafe.try_call a Ha)) as Ha'. rewrite Hr in Ha'. cbn in Ha'.
  set (c1 := set_psi_assemblers c (<[p := a']> (psi_assemblers c))). apply (steps_intro cfg _ c c1 tt); [| |by apply same_traced|done].
  - unfold mbind, M_bind, gets. fold a. rewrite Hr. done.
  - apply ok_set_assemblers; [done|]. apply map_Forall_insert_2; [done|apply Hc].
Qed.

(** The handler of the section runs, between two quiet calls of the assembler. *)
Lemma table_handled p section (is_pat : bool) c : core_ok cfg c -> PsiAssemblerTheorems.framed section -> zlen section <= 183 ->
  exists c1, core_ok cfg c1 /\ traced [] c c1 /\
    forall c2, (if is_pat then Psi.handle_pat_section section else Psi.handle_pmt_section p section) c1 = (c2, Ok tt) -> core_ok cfg c2 ->
    exists c3, Psi.handle_psi p (PsiLayout.psi_payload section) true is_pat false c = (c3, Ok tt) /\ core_ok cfg c3 /\ traced [] c2 c3.
Proof.
  intros Hc Hf Hl. set (stuff := zrep (183 - zlen section) 0xFF).
  set (a1 := {| PsiAssembler.buf := stuff; PsiAssembler.declared_total := None |}).
  set (a := default PsiAssembler.new (psi_assemblers c !! p)).
  assert (PsiAssembler.start_new_section a (section ++ stuff) = (a1, Ok (Some section))) as Hstart.
  { rewrite (PsiAssemblerTheorems.start_holding section). apply PsiAssemblerTheorems.append_final; [done|done|].
    unfold stuff, PsiAssembler.MAX_SECTION_SIZE. rewrite zlen_zrep by lia. lia. }
  assert (assembler_ok a1) as Ha1.
  { assert (assembler_ok a) as Ha.
    { unfold a. destruct (psi_assemblers c !! p) as [x|] eqn:Hx; [by apply (co_assemblers _ _ Hc p)|apply assembler_new_ok]. }
    assert (bytes (section ++ stuff)) as Hb.
    { apply bytes_app. split; [by destruct Hf as (? & ? & ? & ? & _ & ? & _)|]. apply bytes_rep. unfold byte. lia. }
    pose proof (proj1 (PsiSafe.start_call _ Hb a Ha)) as H1. cbv beta in H1. by rewrite Hstart in H1. }
  set (c1 := set_psi_assemblers c (<[p := a1]> (psi_assemblers c))).
  assert (core_ok cfg c1) as Hc1 by (apply ok_set_assemblers; [done|]; apply map_Forall_insert_2; [done|apply Hc]).
  assert (drained c1 p) as Hd1.
  { unfold drained, c1. cbn. rewrite lookup_insert, decide_True by done. cbn. unfold stuff, zrep. by destruct (Z.to_nat _). }
  exists c1. split; [done|]. split; [by apply same_traced|]. intros c2 Hh Hc2.
  pose proof (drained_after p is_pat section c1 Hd1) as Hd2. rewrite Hh in Hd2. cbn in Hd2.
  destruct (drain_quiet p is_pat (Psi.buffered c2 p) c2 Hc2 Hd2) as ([] & c3 & H3 & Hc3 & Ht3 & _).
  exists c3. split; [|done]. unfold Psi.handle_psi, PsiLayout.psi_payload. fold stuff. cbn [app negb andb].
  rewrite (bind_run _ _ c c (lenient_psi_reassembly (options c))) by done. cbv zeta.
  rewrite (bind_run _ _ c c (match psi_assemblers c !! p with Some a => PsiAssembler.has_partial a | None => false end)) by done.
  cbn [andb when]. rewrite (bind_run _ _ c c tt) by done.
  rewrite (proj2 (Z.ltb_ge _ _)) by (rewrite zlen_cons; pose proof (zlen_nonneg (section ++ stuff)); lia).
  change (0 <? 0) with false. cbn [andb]. rewrite (bind_run _ _ c c Psi.Incomplete) by done. rewrite zdrop_0.
  rewrite (bind_run _ _ c c2 Psi.Completed).
  - unfold Psi.after_section. by rewrite (bind_run _ _ c2 c2 (Psi.buffered c2 p)).
  - unfold Psi.assemble. rewrite (bind_run _ _ c c (a1, Ok (Some section))) by (unfold gets; fold a; by rewrite Hstart).
    rewrite (bind_run _ _ c c1 tt) by done. cbn [snd Psi.dispatch_psi_result]. by rewrite (bind_run _ _ c1 c2 tt).
Qed.

(** ** The packets of the muxer, as the parser sees them *)

Lemma expected_clean p pusi a pl cc : clean (TsLayout.expected p pusi a pl cc).
Proof. by split. Qed.

Lemma layout_part p pusi a pl cc : 0 <= p <= 0x1FFF -> 0 <= cc < 16 -> pl <> [] -> bytes pl ->
  part p (TsLayout.layout p pusi a pl cc) (TsLayout.expected p pusi a pl cc).
Proof.
  intros Hp Hc Hne Hb. pose proof (TsLayout.parse_layout p pusi a pl cc Hp Hc Hne) as Hparse.
  pose proof (WireBytes.layout_bytes p pusi a pl cc Hp Hc Hb) as Hlb. pose proof (TsLayout.layout_len p pusi a pl cc) as Hl.
  split; [done|]. split; [done|]. split; [|split; [|apply expected_clean]].
  - split; [done|done| |done]. cbn [TsLayout.expected payload]. intros He. assert (0 < zlen pl) by (destruct pl; [done|rewrite zlen_cons; zlia]).
    pose proof (consumed_pos a (zlen pl)). pose proof (TsLayout.consumed_range a (zlen pl)).
    assert (Hz : zlen (ztake (TsLayout.consumed a (zlen pl)) pl) = 0) by (by rewrite He). rewrite zlen_ztake in Hz by lia. lia.
  - pose proof (PacketTotal.parse_total _ Hlb Hl) as Ht. by rewrite Hparse in Ht.
Qed.

Lemma packetize_parts p af n : forall first bs cc, 0 <= p <= 0x1FFF -> 0 <= cc < 16 -> bytes bs -> zlen bs <= Z.of_nat n ->
  exists qs, Forall2 (part p) (packetize n p first af bs cc) qs /\ continuity_counter <$> qs = run_of cc (length qs).
Proof.
  induction n as [|n IH]; intros first bs cc Hp Hc Hb Hn; cbn [packetize]; [by exists []|].
  destruct bs as [|x l] eqn:Hbs; [by exists []|]. rewrite <- Hbs in *. set (a := if first then af else TsWriter.AdaptationField_default).
  assert (0 < zlen bs) by (subst; rewrite zlen_cons; zlia).
  pose proof (consumed_pos a (zlen bs)). pose proof (TsLayout.consumed_range a (zlen bs)).
  destruct (IH false (zdrop (TsLayout.consumed a (zlen bs)) bs) ((cc + 1) mod 16)) as (qs & Hf & Hq);
    [done|by apply Z.mod_pos_bound|by apply bytes_drop|rewrite zlen_zdrop by lia; lia|].
  exists (TsLayout.expected p first a bs cc :: qs). split; [|cbn; by f_equal].
  constructor; [|done]. apply layout_part; try done. by subst.
Qed.

Lemma clock_part p v cc : 0 <= p <= 0x1FFF -> 0 <= cc < 16 -> exists pkt, parse_ts_packet (TsLayout.pcr_only_layout p v cc) = Ok pkt /\
  pid pkt = p /\ has_payload pkt = false /\ clean pkt /\ PacketTotal.packet_ok (TsLayout.pcr_only_layout p v cc) pkt /\
  bytes (TsLayout.pcr_only_layout p v cc) /\ zlen (TsLayout.pcr_only_layout p v cc) = 188.
Proof.
  intros Hp Hc. pose proof (TsLayout.parse_pcr_only p v cc Hp Hc) as Hparse. pose proof (WireBytes.pcr_only_bytes p v cc Hp Hc) as Hb.
  assert (Hl : zlen (TsLayout.pcr_only_layout p v cc) = 188).
  { unfold TsLayout.pcr_only_layout. rewrite !zlen_app, TsLayout.header_len, zlen_zrep by lia. done. }
  pose proof (PacketTotal.parse_total _ Hb Hl) as Ht. rewrite Hparse in Ht. eexists. split; [exact Hparse|]. split_and!; try done.
Qed.

(** ** Tables the demuxer already has *)

(** The tables and streams of a transport stream. *)
Record Service : Type := {
  sv_pat : list Z;
  sv_parsed : PsiParse.PatSection;
  sv_pmts : list (Z * list Z * PsiParse.Pmt);
  sv_streams : list (Z * StreamKind * Z * Z);
}.

(** Each table is one section that fits a packet and parses. *)
Record service_ok (sv : Service) : Prop := {
  so_pat : PsiAssemblerTheorems.framed (sv_pat sv) /\ zlen (sv_pat sv) <= 183 /\ PsiParse.parse_pat_section (sv_pat sv) = Ok (sv_parsed sv);
  so_single : PsiParse.ps_last_section_number (sv_parsed sv) = 0;
  so_pmts : forall p s pmt, (p, s, pmt) ∈ sv_pmts sv ->
    PsiAssemblerTheorems.framed s /\ zlen s <= 183 /\ PsiParse.parse_pmt s = Ok pmt /\ p <> 0 /\ p <> PID_NULL /\ 0 <= p <= 0x1FFF;
  so_streams : forall q k n st, (q, k, n, st) ∈ sv_streams sv -> q <> 0 /\ q <> PID_NULL /\ 0 <= q <= 0x1FFF;
}.

Definition tracker_at (c : Core) (n : Z) : option (Z * Z * option Z * option Z * list StreamInfo) := tracker_view <$> (programs c !! n).

(** The demuxer has the tables: every section of the service repeats what it
    knows, and every stream is declared. *)
Record locked (sv : Service) (c : Core) : Prop := {
  lk_pat : pat_identity c = Some (PsiParse.ps_transport_stream_id (sv_parsed sv), PsiParse.ps_version (sv_parsed sv), PsiParse.ps_programs (sv_parsed sv));
  lk_pmts : forall p s pmt, (p, s, pmt) ∈ sv_pmts sv -> p ∈ pmt_pids c /\
    exists pcr streams, tracker_at c (PsiParse.pmt_program_number pmt) = Some (PsiParse.pmt_program_number pmt, p, Some (PsiParse.pmt_version pmt), pcr, streams);
  lk_streams : forall q k n st, (q, k, n, st) ∈ sv_streams sv -> (q ∉ pmt_pids c) /\ tuned c q k n st /\ steady c q;
  lk_idle : idle c;
}.

Lemma locked_went sv d f R c c' : locked sv c -> went d f R c c' -> locked sv c'.
Proof.
  intros [Hp Hm Hs Hi] Hw. pose proof Hw as [Hpr _ Hpm Hpat _ _ _ _ _]. split.
  - congruence.
  - intros p s pmt Hin. destruct (Hm p s pmt Hin) as (H1 & pcr & streams & H2). rewrite Hpm. split; [done|]. exists pcr, streams.
    unfold tracker_at in *. by rewrite <- !lookup_fmap, Hpr, lookup_fmap in *.
  - intros q k n st Hin. destruct (Hs q k n st Hin) as (H1 & H2 & H3). rewrite Hpm. split_and!; [done|by eapply went_tuned|by eapply went_steady].
  - by eapply went_idle.
Qed.

Lemma locked_traced sv d c c' : locked sv c -> traced d c c' -> locked sv c'.
Proof. intros Hl Ht. eapply locked_went; [done|by apply traced_went]. Qed.

Lemma syntax_steps p t s c : core_ok cfg c -> steps cfg (Psi.check_psi_syntax p t s) c [] (fun _ => True).
Proof.
  intros Hc. apply steps_quiet; [done|apply PsiSafe.safe_syntax|unfold Psi.check_psi_syntax; NoError.errorless_all|apply Quiet.quiet_syntax].
Qed.

Lemma pat_repeats sv c : service_ok sv -> locked sv c -> core_ok cfg c ->
  steps cfg (Psi.handle_pat_section (sv_pat sv)) c [] (fun _ => True).
Proof.
  intros Hsv Hl Hc. unfold Psi.handle_pat_section. destruct (so_pat _ Hsv) as (_ & _ & ->).
  eapply (steps_then cfg _ _ _ _ (fun _ => True)); [by apply syntax_steps|intros [] c1 _ Hc1 Ht1].
  rewrite (so_single _ Hsv). cbn [Z.eqb]. unfold Psi.adopt_pat. apply steps_gets. cbv zeta.
  rewrite (lk_pat _ _ (locked_traced _ _ _ _ Hl Ht1)). rewrite !Z.eqb_refl, bool_decide_eq_true_2 by done. by apply steps_ret.
Qed.

Lemma pmt_repeats sv p s pmt c : service_ok sv -> (p, s, pmt) ∈ sv_pmts sv -> locked sv c -> core_ok cfg c ->
  steps cfg (Psi.handle_pmt_section p s) c [] (fun _ => True).
Proof.
  intros Hsv Hin Hl Hc. unfold Psi.handle_pmt_section. apply steps_gets. destruct (so_pmts _ Hsv p s pmt Hin) as (_ & _ & -> & _).
  cbv zeta. apply steps_gets. destruct (lk_pmts _ _ Hl p s pmt Hin) as (_ & pcr & streams & Ht).
  unfold tracker_at, Psi.tracker_for in *. destruct (programs c !! _) as [t|] eqn:Hp; [|done]. cbn in Ht. injection Ht as _ Hpid Hv _ _.
  cbn. rewrite Hpid, Z.eqb_refl.
  eapply (steps_then cfg _ _ _ _ (fun _ => True)); [by apply syntax_steps|intros [] c1 _ Hc1 Ht1].
  apply steps_gets. pose proof (locked_traced _ _ _ _ Hl Ht1) as Hl1. destruct (lk_pmts _ _ Hl1 p s pmt Hin) as (_ & pcr' & streams' & Ht').
  unfold tracker_at in Ht'. destruct (programs c1 !! _) as [t'|]; [|done]. cbn in Ht'. injection Ht' as _ _ Hv' _ _. cbn.
  rewrite Hv', bool_decide_eq_true_2 by done. by apply steps_ret.
Qed.

(** ** One table packet *)

Lemma psi_payload_bytes s : bytes s -> bytes (PsiLayout.psi_payload s).
Proof.
  intros Hs. unfold PsiLayout.psi_payload. apply bytes_app. split; [by repeat constructor|]. apply bytes_app. split; [done|].
  apply bytes_rep. unfold byte. lia.
Qed.

Lemma table_packet p section cc c : core_ok cfg c -> 0 <= p <= 0x1FFF -> p <> PID_NULL -> PsiAssemblerTheorems.framed section ->
  zlen section <= 183 -> 0 <= cc < 16 -> follows (cc_at c) p cc -> p = 0 \/ p ∈ pmt_pids c ->
  let pkt := TsLayout.layout p true TsWriter.AdaptationField_default (PsiLayout.psi_payload section) cc in
  bytes pkt /\ zlen pkt = 188 /\ exists c1, core_ok cfg c1 /\ went [] (stamp (cc_at c) p cc) (pes c) c c1 /\
    forall c2, (if p =? 0 then Psi.handle_pat_section section else Psi.handle_pmt_section p section) c1 = (c2, Ok tt) -> core_ok cfg c2 ->
    exists c3, process_packet pkt c = (c3, Ok tt) /\ core_ok cfg c3 /\ traced [] c2 c3.
Proof.
  intros Hc Hp Hnull Hf Hl Hcc Hfol Hpid pkt.
  assert (PsiLayout.psi_payload section <> []) as Hne by (unfold PsiLayout.psi_payload; done).
  assert (bytes section) as Hb by (by destruct Hf as (? & ? & ? & ? & _ & ? & _)).
  destruct (layout_part p true TsWriter.AdaptationField_default (PsiLayout.psi_payload section) cc Hp Hcc Hne (psi_payload_bytes _ Hb))
    as (Hpb & Hpl & [Hparse _ _ _] & Hok & Hcl). fold pkt in Hpb, Hpl, Hparse, Hok.
  split; [done|]. split; [done|].
  destruct (payload_routes cfg pkt _ c Hc Hparse Hok Hpl Hcl) as (c1 & Hc1 & Hw1 & Hproc); [done|done|done|].
  set (exp := TsLayout.expected _ _ _ _ _) in *. change (pid exp) with p in *. change (continuity_counter exp) with cc in *.
  assert (payload exp = PsiLayout.psi_payload section) as Hpay.
  { unfold exp. cbn [TsLayout.expected payload]. rewrite PsiLayout.zlen_psi_payload by done. apply ztake_all.
    by rewrite PsiLayout.zlen_psi_payload. }
  change (payload_unit_start exp) with true in Hproc. rewrite Hpay in Hproc.
  destruct (table_handled p section (p =? 0) c1 Hc1 Hf Hl) as (c2 & Hc2 & Ht2 & Hh).
  exists c2. split; [done|]. split; [by eapply went_then|]. intros c3 H3 Hc3. destruct (Hh c3) as (c4 & H4 & Hc4 & Ht4); [by destruct (p =? 0)|done|].
  exists c4. split; [|done]. rewrite Hproc. destruct (Z.eqb_spec p 0) as [Hz|Hz]; [done|].
  destruct Hpid as [?|Hpid]; [done|]. rewrite bool_decide_eq_true_2 by done. done.
Qed.

(** ** Table and clock items *)

(** Every counter is where the muxer left it. *)
Definition in_step (nx : Z -> Z) (c : Core) : Prop := forall q, Wire.pid_ok q -> follows (cc_at c) q (nx q).

Lemma stamp_step nx c c' i : Wire.in_range nx -> in_step nx c -> Wire.pid_ok (Wire.item_pid i) -> Wire.counted nx i = 1 ->
  (forall q, cc_at c' q = stamp (cc_at c) (Wire.item_pid i) (nx (Wire.item_pid i)) q) -> in_step (Wire.advance nx i) c'.
Proof.
  intros Hr Hs Hp Hn Hw q Hq v. rewrite Hw. unfold stamp, Wire.advance. rewrite Hn.
  case_decide as Hd; [subst; rewrite Z.eqb_refl; by intros [= <-]|]. rewrite (proj2 (Z.eqb_neq _ _) Hd). by apply Hs.
Qed.

(** The tables and clocks of the service. *)
Definition overhead_item (sv : Service) (i : Wire.item) : Prop :=
  match i with
  | Wire.Table p s => (p = 0 /\ s = sv_pat sv) \/ exists pmt, (p, s, pmt) ∈ sv_pmts sv
  | Wire.Clock p _ => exists k n st, (p, k, n, st) ∈ sv_streams sv
  | Wire.Unit _ _ _ => False
  end.

Lemma overhead_passes sv nx i c : service_ok sv -> locked sv c -> ready cfg c -> Wire.in_range nx -> in_step nx c -> overhead_item sv i ->
  exists c' f, each (feed_packet debug) c (Wire.packets nx i) = (c', Ok tt) /\ ready cfg c' /\ went [] f (pes c) c c' /\
    in_step (Wire.advance nx i) c'.
Proof.
  intros Hsv Hl Hr Hnx Hs Hi. destruct i as [p s|p v|p af pes_]; [| |done]; cbn [overhead_item Wire.packets each] in *.
  - assert (exists c', process_packet (TsLayout.layout p true TsWriter.AdaptationField_default (PsiLayout.psi_payload s) (nx p)) c = (c', Ok tt) /\
      went [] (stamp (cc_at c) p (nx p)) (pes c) c c' /\
      bytes (TsLayout.layout p true TsWriter.AdaptationField_default (PsiLayout.psi_payload s) (nx p)) /\ 0 <= p <= 0x1FFF) as (c' & Hp & Hw & Hb & Hpid).
    { assert (PsiAssemblerTheorems.framed s /\ zlen s <= 183 /\ 0 <= p <= 0x1FFF /\ p <> PID_NULL /\ (p = 0 \/ p ∈ pmt_pids c) /\
        forall c1, core_ok cfg c1 -> locked sv c1 ->
          steps cfg (if p =? 0 then Psi.handle_pat_section s else Psi.handle_pmt_section p s) c1 [] (fun _ => True))
        as (Hf & Hlen & Hpid & Hnull & Hdest & Hh).
      { destruct Hi as [[-> ->]|(pmt & Hin)].
        - destruct (so_pat _ Hsv) as (? & ? & _). split_and!; [done|done|lia|lia|done|by left|]. intros c1 Hc1 Hl1. by apply pat_repeats.
        - destruct (so_pmts _ Hsv p s pmt Hin) as (? & ? & _ & Hz & ? & ?). split_and!; [done|done|lia|lia|done|right; by apply (lk_pmts _ _ Hl p s pmt)|].
          intros c1 Hc1 Hl1. rewrite (proj2 (Z.eqb_neq _ _) Hz). by eapply pmt_repeats. }
      destruct (table_packet p s (nx p) c (proj1 Hr) Hpid Hnull Hf Hlen (Hnx p Hpid) (Hs p Hpid) Hdest) as (Hb & _ & c1 & Hc1 & Hw1 & Hgo).
      destruct (Hh c1 Hc1) as ([] & c2 & H2 & Hc2 & Ht2 & _); [by eapply locked_went|].
      destruct (Hgo c2 H2 Hc2) as (c3 & H3 & Hc3 & Ht3). exists c3. split_and!; [done| |done|lia|lia].
      eapply went_then; [|exact Ht3]. by eapply went_then. }
    destruct (feed_processed c c' _ Hr Hb (TsLayout.layout_len _ _ _ _ _) Hp) as [-> Hr'].
    exists c', (stamp (cc_at c) p (nx p)). split_and!; [done|done|done|]. apply (stamp_step nx c c' (Wire.Table p s)); try done. apply Hw.
  - destruct Hi as (k & n & st & Hin). destruct (so_streams _ Hsv _ _ _ _ Hin) as (Hz & Hnull & Hpid).
    destruct (lk_streams _ _ Hl _ _ _ _ Hin) as (Hpmt & _ & _).
    destruct (clock_part p v ((nx p - 1) mod 16) Hpid) as (pkt & Hparse & Hq & Hpay & Hcl & Hok & Hb & Hlen); [by apply Z.mod_pos_bound|].
    destruct (clock_passes cfg _ pkt c (proj1 Hr) Hparse Hok Hlen Hcl Hpay) as (c' & Hp & _ & Hw); [by rewrite Hq..|].
    destruct (feed_processed c c' _ Hr Hb Hlen Hp) as [-> Hr'].
    exists c', (cc_at c). split_and!; [done|done|done|]. intros q Hq' w. rewrite (wt_cc _ _ _ _ _ Hw).
    rewrite <- (Wire.clock_agree nx p v Hnx q Hq'). by apply Hs.
Qed.

End items.
End Items.
