(* ===== verification/DemuxAcquire.v ===== *)
(** Acquisition: what a demuxer that knows no tables makes of a PAT and of the
    PMTs it lists. *)
From Stdlib Require Import ZArith Lia Bool String.
From stdpp Require Import base list list_numbers gmap.
From S2P Require Import Prelude.
From S2P Require Import Common.
From S2P Require Import TsPacket.
From S2P Require Import PesDemux.
From S2P Require Import PsiParse.
From S2P Require Import PsiAssembly.
From S2P Require Import PsiWriter.
From S2P Require Import Descriptors.
From S2P Require Import MuxerTheorems.
From S2P Require Import Ingress.
From S2P Require Import DemuxTime.
From S2P Require Import AuReassemble.
From S2P Require Import DemuxTypes.
From S2P Require Import DemuxState.
From S2P Require Import DemuxIngress.
From S2P Require Import DemuxPsi.
From S2P Require Import DemuxPes.
From S2P Require Import Demuxer.
From S2P Require Import DemuxSafe.
From S2P Require Import DemuxMethods.
From S2P Require Import DemuxerTheorems.
From S2P Require Import DemuxTrace.
From S2P Require Import DemuxReceive.

Module Acquire.
Import Common PsiParse PmtClassify DemuxEvent Strict DemuxConfig Core Lookup Psi PacketChecks Emit CoreInv Safe NoError PacketSafe PsiSafe DemuxerInv
  DemuxerTheorems Abstract Demuxer Trace Quiet Steps Deliver Moves Items.
#[local] Abbreviation any := (fun _ => True).

(** ** The program association table *)

Lemma new_pmt_lookup es : forall m, NoDup (PsiParse.program_number <$> es) -> Forall (fun e => PsiParse.program_number e <> 0) es ->
  (forall e, e ∈ es -> new_pmt_from es m !! PsiParse.program_number e = Some (pat_pid e)) /\
  (forall n, n ∉ (PsiParse.program_number <$> es) -> new_pmt_from es m !! n = m !! n).
Proof.
  induction es as [|e es IH]; intros m Hn Hz; [by split; [intros ? ?%elem_of_nil|]|].
  rewrite fmap_cons in *. apply NoDup_cons in Hn as [He Hn]. apply Forall_cons in Hz as [Hze Hz].
  cbn [new_pmt_from]. rewrite (proj2 (Z.eqb_neq _ _) Hze). destruct (IH (<[PsiParse.program_number e := pat_pid e]> m) Hn Hz) as [H1 H2]. split.
  - intros x [-> |Hx]%elem_of_cons; [rewrite H2 by done; apply lookup_insert_eq|by apply H1].
  - intros n [Hne Hni]%not_elem_of_cons. rewrite H2 by done. by apply lookup_insert_ne.
Qed.

(** The trackers and assemblers of the listed programs. *)
Lemma trackers_made (l : list (Z * Z)) : forall c, NoDup l.*1 -> (forall n, n ∈ l.*1 -> programs c !! n = None) ->
  exists P A, for_each l (fun e =>
    modify (fun c => set_programs c (match programs c !! e.1 with Some _ => programs c | None => <[e.1 := empty_tracker e.1 e.2]> (programs c) end)) ;;
    modify (fun c => set_psi_assemblers c (match psi_assemblers c !! e.2 with Some _ => psi_assemblers c | None => <[e.2 := PsiAssembler.new]> (psi_assemblers c) end))) c
    = (set_psi_assemblers (set_programs c P) A, Ok tt) /\
    forall n, P !! n = match (list_to_map l : gmap Z Z) !! n with Some p => Some (empty_tracker n p) | None => programs c !! n end.
Proof.
  induction l as [|[n p] l IH]; intros c Hnd Hnew.
  { exists (programs c), (psi_assemblers c). split; [by destruct c|done]. }
  rewrite fmap_cons in *. apply NoDup_cons in Hnd as [Hn Hnd]. cbn [for_each fst snd] in *.
  unfold mbind at 1, M_bind at 1, mbind at 1, M_bind at 1, modify at 1 2. rewrite (Hnew n) by constructor.
  match goal with |- context [for_each l _ ?c0] => set (c1 := c0) end.
  destruct (IH c1 Hnd) as (P & A & -> & HP).
  { intros x Hx. unfold c1. cbn. rewrite lookup_insert_ne by set_solver. apply Hnew. by constructor. }
  exists P, A. split; [by destruct c|]. intros x. rewrite HP. unfold c1. cbn [set_psi_assemblers set_programs programs list_to_map foldr fst snd uncurry].
  cbn. rewrite !lookup_insert. destruct (decide (n = x)) as [<-|Hne]; [|done].
  rewrite not_elem_of_list_to_map_1 by done. done.
Qed.


(** What learning a table leaves of the rest of the state. *)
Record beside (c c' : Core) : Prop := {
  bs_resets : forall q, PidState.source_reset_after_pes (state_of c' q) = PidState.source_reset_after_pes (state_of c q) /\
    PidState.source_reset_in_pes (state_of c' q) = PidState.source_reset_in_pes (state_of c q);
  bs_cc : forall q, cc_at c' q = cc_at c q;
  bs_pes : pes c' = pes c;
  bs_au : AuReassembler.per_pid (au_reassembler c') = AuReassembler.per_pid (au_reassembler c);
  bs_queue : exists es, queue c' = queue c ++ es /\ deliveries es = [];
}.

Lemma beside_refl c : beside c c.
Proof. split; try done. exists []. by rewrite app_nil_r. Qed.

Lemma beside_trans a b c : beside a b -> beside b c -> beside a c.
Proof.
  intros [R1 ? ? ? (e1 & Hq1 & Hd1)] [R2 ? ? ? (e2 & Hq2 & Hd2)]. split; try congruence.
  - intros q. destruct (R1 q), (R2 q). split; congruence.
  - exists (e1 ++ e2). rewrite Hq2, Hq1, app_assoc, deliveries_app, Hd1, Hd2. done.
Qed.

Lemma traced_beside c c' : traced [] c c' -> beside c c'.
Proof.
  intros Ht. pose proof (traced_went _ _ _ Ht) as []. split; try done. intros q. specialize (wt_pids0 q). unfold static in *. by injection wt_pids0.
Qed.

Section pat.
Context (cfg : DemuxerConfig) (Hcfg : config_ok cfg) {HO : HashOrder}.

Record blank (c : Core) : Prop := {
  bl_programs : programs c = ∅;
  bl_owner : pid_owner c = ∅;
  bl_pmts : pmt_pids c = ∅;
  bl_pat : pat_identity c = None;
}.

Lemma fresh_blank : blank (fresh_core cfg).
Proof. by split. Qed.

Lemma traced_blank d c c' : traced d c c' -> blank c -> blank c'.
Proof.
  intros [[] _] []. split; try congruence. rewrite bl_programs0, fmap_empty in sm_programs0. by apply fmap_empty_inv in sm_programs0.
Qed.

Lemma hash_iter_empty : hash_iter (∅ : gmap Z ProgramTracker) = [].
Proof. apply Permutation_nil_r. by rewrite hash_iter_perm, map_to_list_empty. Qed.

Lemma set_iter_empty : set_iter ∅ = [].
Proof.
  unfold set_iter. rewrite gset_to_gmap_empty. assert (hash_iter (∅ : gmap Z ()) = []) as ->; [|done].
  apply Permutation_nil_r. by rewrite hash_iter_perm, map_to_list_empty.
Qed.

(** The first PAT: its programs, each without a PMT yet. *)
Lemma pat_adopted tsid version es c : core_ok cfg c -> blank c -> NoDup (PsiParse.program_number <$> es) ->
  Forall (fun e => PsiParse.program_number e <> 0) es ->
  exists c', adopt_pat tsid version es c = (c', Ok tt) /\ core_ok cfg c' /\ beside c c' /\ pid_state c' = pid_state c /\ pid_owner c' = ∅ /\
    pat_identity c' = Some (tsid, version, es) /\ (forall p, p ∈ pmt_pids c' <-> exists e, e ∈ es /\ pat_pid e = p) /\
    (forall e, e ∈ es -> programs c' !! PsiParse.program_number e = Some (empty_tracker (PsiParse.program_number e) (pat_pid e))).
Proof.
  intros Hc [Hp Ho Hm Hi] Hnd Hz. destruct (new_pmt_lookup es ∅ Hnd Hz) as [Hin Hout]. set (new := new_pmt_from es ∅) in *.
  set (pids := list_to_set (map_to_list new).*2 : gset Z).
  destruct (trackers_made (hash_iter new) (set_pmt_pids c pids)) as (P & A & Hfor & HP).
  { rewrite hash_iter_perm. apply NoDup_fst_map_to_list. }
  { intros n _. cbn. by rewrite Hp. }
  set (c2 := set_psi_assemblers (set_programs (set_pmt_pids c pids) P) A) in Hfor.
  assert (adopt_pat tsid version es c = (set_pat_identity c2 (Some (tsid, version, es)), Ok tt)) as Hrun.
  { unfold adopt_pat. rewrite (bind_run _ _ c c None) by (unfold gets; by rewrite Hi). cbv zeta.
    rewrite (bind_run _ _ c c2 tt); [done|]. unfold apply_pat_programs. fold new. cbv zeta. fold pids.
    rewrite (bind_run _ _ c c []) by (unfold gets; by rewrite Hp, hash_iter_empty). cbn [remove_programs].
    rewrite (bind_run _ _ c c {| PidState.added := []; PidState.retired := []; PidState.retired_pmt_pids := [];
      PidState.kind_changed := []; PidState.pcr_pid_changes := [] |}) by done.
    rewrite (bind_run _ _ c c []) by (unfold gets; by rewrite Hm, set_iter_empty). cbn [foldl].
    rewrite (bind_run _ _ c (set_psi_assemblers c (psi_assemblers c)) tt) by done.
    replace (set_psi_assemblers c (psi_assemblers c)) with c by (by destruct c).
    rewrite (bind_run _ _ c (set_pmt_pids c pids) tt) by done.
    rewrite (bind_run _ _ _ (set_pmt_pids c pids) tt) by done. exact Hfor. }
  exists (set_pat_identity c2 (Some (tsid, version, es))).
  pose proof (safe_adopt_pat cfg tsid version es c Hc) as [Hc' _]. rewrite Hrun in Hc'. cbn [fst] in Hc'.
  split; [done|]. split; [exact Hc'|]. split; [|split; [done|split; [done|split; [done|split]]]].
  - split; try done. exists []. by rewrite app_nil_r.
  - intros p. change (pmt_pids (set_pat_identity c2 (Some (tsid, version, es)))) with pids. unfold pids.
    rewrite elem_of_list_to_set, list_elem_of_fmap. split.
    + intros ([n x] & -> & Hx). apply elem_of_map_to_list in Hx. cbn.
      destruct (decide (n ∈ (PsiParse.program_number <$> es))) as [(e & -> & He)%list_elem_of_fmap|Hn].
      * exists e. split; [done|]. rewrite Hin in Hx by done. by injection Hx.
      * rewrite Hout in Hx by done. done.
    + intros (e & He & <-). exists (PsiParse.program_number e, pat_pid e). split; [done|]. apply elem_of_map_to_list. by apply Hin.
  - intros e He. change (programs (set_pat_identity c2 (Some (tsid, version, es)))) with P. rewrite HP.
    assert ((list_to_map (hash_iter new) : gmap Z Z) !! PsiParse.program_number e = Some (pat_pid e)) as ->; [|done].
    apply elem_of_list_to_map; rewrite hash_iter_perm; [apply NoDup_fst_map_to_list|]. apply elem_of_map_to_list. by apply Hin.
Qed.

(** ** A program map table *)

Context (Hov : stream_kind_overrides cfg = ∅).

Definition kind_of (x : PmtStream) : StreamKind :=
  match classify_pmt_stream (E:=Empty_set) (PsiParse.stream_type x) (descriptors x) with Ok k => k | _ => PmtClassify.Unknown 0 end.

Definition info_of (prog : Z) (x : PmtStream) : StreamInfo :=
  {| si_pid := elementary_pid x; si_stream_type := from_byte (PsiParse.stream_type x); si_kind := kind_of x;
     si_program_number := prog; si_raw_descriptors := descriptors x |}.

Lemma collect_clean c prog xs : core_ok cfg c -> forall k, NoDup (elementary_pid <$> xs) -> (forall x, x ∈ xs -> elementary_pid x ∉ seen k) ->
  (forall x, x ∈ xs -> pid_owner c !! elementary_pid x = None) ->
  exists k', collect_streams (E:=Empty_set) c prog k xs = Ok k' /\ stream_infos k' = stream_infos k ++ (info_of prog <$> xs).
Proof.
  intros Hc. induction xs as [|x xs IH]; intros k Hnd Hseen Hown; cbn [collect_streams fmap list_fmap].
  { exists k. by rewrite app_nil_r. }
  rewrite fmap_cons in Hnd. apply NoDup_cons in Hnd as [Hx Hnd]. unfold collect_stream.
  rewrite bool_decide_eq_false_2 by (apply Hseen; constructor). rewrite (Hown x) by constructor.
  assert (get_stream_kind (E:=Empty_set) c (elementary_pid x) x = Ok (kind_of x)) as Hk.
  { destruct (kind_ok c (elementary_pid x) x) as [kd Hkd]. rewrite Hkd. unfold get_stream_kind in Hkd. rewrite (co_options _ _ Hc), Hov, lookup_empty in Hkd.
    unfold kind_of. by rewrite Hkd. }
  rewrite Hk. rb. set (k1 := mark_pids _ _ _).
  destruct (IH (accept_stream prog x (kind_of x) k1) Hnd) as (k' & -> & Hinfos).
  - intros y Hy. cbn. rewrite not_elem_of_union, not_elem_of_singleton. split; [|apply Hseen; by constructor].
    intros He. apply Hx. rewrite <- He. by apply list_elem_of_fmap_2.
  - intros y Hy. apply Hown. by constructor.
  - exists k'. split; [done|]. rewrite Hinfos. cbn. by rewrite <- app_assoc.
Qed.

Lemma links_quiet pmt n v l : quiet (klv_links_of pmt n v l).
Proof. induction l as [|i l IH]; cbn [klv_links_of]; [quiet_all|]. unfold klv_link. quiet_all. Qed.

Lemma links_errorless pmt n v l : errorless (klv_links_of pmt n v l).
Proof. induction l as [|i l IH]; cbn [klv_links_of]; unfold klv_link; errorless_all; apply errorless_lift. Qed.

Lemma collected_quiet n k : quiet (emit_collected n k).
Proof. unfold emit_collected, queue_once, set_once. quiet_all. Qed.

Lemma collected_errorless n k : errorless (emit_collected n k).
Proof. unfold emit_collected, queue_once, set_once. errorless_all. Qed.

Definition added_of (prog : Z) (s : StreamInfo) : Z * StreamKind * Z * Z * bool :=
  (si_pid s, si_kind s, prog, as_byte (si_stream_type s), DescriptorParse.find_descriptor_tag (si_raw_descriptors s) 0x56).

Lemma declare_view k n st b s : declared (declare k n st b s) = (Some k, Some n, Some st) /\ PidState.cc (declare k n st b s) = PidState.cc s /\
  PidState.source_reset_after_pes (declare k n st b s) = PidState.source_reset_after_pes s /\
  PidState.source_reset_in_pes (declare k n st b s) = PidState.source_reset_in_pes s.
Proof. unfold declare. cbv zeta. repeat case_match; done. Qed.

Lemma declare_all prog l : forall c, NoDup (si_pid <$> l) ->
  exists S, for_each (added_of prog <$> l) (fun a => match a with (pid, kind, program, stream_type, teletext) =>
      pid_state_mut pid (declare kind program stream_type teletext) end) c = (set_pid_state c S, Ok tt) /\
    let c' := set_pid_state c S in
    (forall q, cc_at c' q = cc_at c q /\ PidState.source_reset_after_pes (state_of c' q) = PidState.source_reset_after_pes (state_of c q) /\
       PidState.source_reset_in_pes (state_of c' q) = PidState.source_reset_in_pes (state_of c q)) /\
    (forall s, s ∈ l -> tuned c' (si_pid s) (si_kind s) prog (as_byte (si_stream_type s))) /\
    (forall q, q ∉ (si_pid <$> l) -> declared (state_of c' q) = declared (state_of c q)).
Proof.
  induction l as [|s l IH]; intros c Hnd.
  { exists (pid_state c). split; [by destruct c|]. destruct c. cbv zeta. split_and!; [done|by intros ? ?%elem_of_nil|done]. }
  rewrite fmap_cons in *. apply NoDup_cons in Hnd as [Hs Hnd]. cbn [for_each].
  set (d := declare (si_kind s) prog (as_byte (si_stream_type s)) (DescriptorParse.find_descriptor_tag (si_raw_descriptors s) 0x56)). set (c1 := set_pid_state c (<[si_pid s := d (state_of c (si_pid s))]> (pid_state c))).
  rewrite (bind_run _ _ c c1 tt) by done. cbv beta.
  destruct (IH c1 Hnd) as (S & -> & Hall & Htu & Hrest). exists S. split; [done|]. cbv zeta in *. set (c2 := set_pid_state c1 S) in *.
  change (set_pid_state c S) with c2.
  assert (forall q, state_of c1 q = if decide (si_pid s = q) then d (state_of c (si_pid s)) else state_of c q) as H1 by (intros q; apply state_of_mut).
  split_and!.
  - intros q. destruct (Hall q) as (-> & -> & ->). unfold cc_at. rewrite H1. case_decide as Hq; [|done]. subst q.
    unfold d. destruct (declare_view (si_kind s) prog (as_byte (si_stream_type s)) (DescriptorParse.find_descriptor_tag (si_raw_descriptors s) 0x56)
      (state_of c (si_pid s))) as (_ & ? & ? & ?). done.
  - intros x [-> |Hx]%elem_of_cons; [|by apply Htu]. unfold tuned. rewrite Hrest by done. rewrite H1, decide_True by done.
    unfold d. apply declare_view.
  - intros q [Hq Hql]%not_elem_of_cons. rewrite Hrest by done. rewrite H1, decide_False by congruence. done.
Qed.

Lemma owner_lookup prog l : forall (m : gmap Z Z) q,
  foldl (fun m (s : StreamInfo) => <[si_pid s := prog]> m) m l !! q = if decide (q ∈ (si_pid <$> l)) then Some prog else m !! q.
Proof.
  induction l as [|s l IH]; intros m q; cbn [foldl]; [by rewrite decide_False by apply not_elem_of_nil|].
  rewrite IH, lookup_insert. cbn. destruct (decide (q ∈ (si_pid <$> l))) as [Hq|Hq].
  - by rewrite decide_True by (by right).
  - destruct (decide (si_pid s = q)) as [<-|Hne]; [by rewrite decide_True by constructor|].
    rewrite decide_False; [done|]. by apply not_elem_of_cons.
Qed.

Lemma byte_code b : as_byte (from_byte b) = b.
Proof. unfold from_byte. repeat (ifs; [b2p; by subst|]). done. Qed.

Lemma clear_quiet l : quiet (for_each l (fun s => pid_state_alter (elementary_pid s) clear_once_flags)).
Proof. unfold clear_once_flags. quiet_all. Qed.

(** A call of [adopt_pmt] up to the point where the topology changes. *)
Lemma pmt_collected p pmt t c : core_ok cfg c -> let prog := pmt_program_number pmt in programs c !! prog = Some t ->
  NoDup (elementary_pid <$> PsiParse.streams pmt) -> (forall x, x ∈ PsiParse.streams pmt -> pid_owner c !! elementary_pid x = None) ->
  let infos := info_of prog <$> PsiParse.streams pmt in
  exists c1 t1 map, core_ok cfg c1 /\ traced [] c c1 /\ programs c1 !! prog = Some t1 /\ tracker_view t1 = tracker_view t /\
    adopt_pmt p pmt c = (update_tracker pmt prog infos ;; apply_topology_diff (pmt_topology_diff c1 (PsiParse.pcr_pid pmt) prog infos) ;;
      push_event (EvProgramMap map) ;; modify (fun c => set_program_maps_seen c (as_u64 (program_maps_seen c + 1))) ;;
      modify (fun c => set_pmt_versions_seen c (as_u64 (pmt_versions_seen c + 1)))) c1.
Proof.
  intros Hc prog Ht Hnd Hown infos. unfold adopt_pmt. cbv zeta. fold prog.
  destruct (steps_quiet cfg (for_each (PsiParse.streams pmt) (fun s => pid_state_alter (elementary_pid s) clear_once_flags)) c any Hc)
    as ([] & c1 & H1 & Hc1 & Ht1 & _); [apply safe_each; intros a; apply safe_pid_alter, clear_once_ok|errorless_all|apply clear_quiet|].
  rewrite (bind_run _ _ c c1 tt) by done. rewrite (bind_run _ _ c1 c1 c1) by done.
  destruct (collect_clean c1 prog (PsiParse.streams pmt) Hc1 collected_empty Hnd) as (k & Hk & Hinfos).
  { intros x _. apply not_elem_of_empty. } { intros x Hx. rewrite (sm_owner _ _ (proj1 Ht1)). by apply Hown. }
  rewrite Hk, (bind_run _ _ c1 c1 k) by done. cbn [collected_empty stream_infos app] in Hinfos. fold infos in Hinfos. rewrite Hinfos.
  destruct (steps_quiet cfg (emit_collected prog k) c1 any Hc1) as ([] & c2 & H2 & Hc2 & Ht2 & _);
    [apply safe_emit_collected|apply collected_errorless|apply collected_quiet|].
  rewrite (bind_run _ _ c1 c2 tt) by done. rewrite (bind_run _ _ c2 c2 (pmt_topology_diff c2 (PsiParse.pcr_pid pmt) prog infos)) by done.
  destruct (steps_quiet cfg (build_program_map p pmt prog infos) c2 any Hc2) as (map & c3 & H3 & Hc3 & Ht3 & _);
    [apply safe_program_map|unfold build_program_map; apply errorless_bind; [apply links_errorless|by intros ? ? ?]
    |unfold build_program_map; apply quiet_bind; [apply links_quiet|intros; apply quiet_ret]|].
  rewrite (bind_run _ _ c2 c3 map) by done.
  pose proof (traced_trans _ _ _ _ _ (traced_trans _ _ _ _ _ Ht1 Ht2) Ht3) as Ht13. cbn [app] in Ht13.
  assert (forall a b, traced [] a b -> tracker_view <$> (programs b !! prog) = tracker_view <$> (programs a !! prog)) as Hview.
  { intros a b [[] _]. by rewrite <- !lookup_fmap, sm_programs0. }
  pose proof (Hview _ _ Ht13) as Hv3. rewrite Ht in Hv3. destruct (programs c3 !! prog) as [t3|] eqn:Hp3; [|discriminate Hv3]. cbn in Hv3. apply (inj Some) in Hv3.
  exists c3, t3, map. split; [done|]. split; [done|]. split; [done|]. split; [done|].
  assert (pmt_topology_diff c2 (PsiParse.pcr_pid pmt) prog infos = pmt_topology_diff c3 (PsiParse.pcr_pid pmt) prog infos) as ->; [|done].
  pose proof (Hview _ _ Ht3) as Hv23. unfold pmt_topology_diff. rewrite Hp3 in *.
  destruct (programs c2 !! prog) as [t2|]; [|discriminate Hv23]. cbn in Hv23. unfold tracker_view in Hv23. injection Hv23 as _ _ _ Ha Hb. by rewrite Ha, Hb.
Qed.

(** The first version of a program's PMT declares its streams. *)
Lemma pmt_adopted p pmt t c : core_ok cfg c -> let prog := pmt_program_number pmt in programs c !! prog = Some t -> pt_streams t = [] ->
  NoDup (elementary_pid <$> PsiParse.streams pmt) -> (forall x, x ∈ PsiParse.streams pmt -> pid_owner c !! elementary_pid x = None) ->
  exists c', adopt_pmt p pmt c = (c', Ok tt) /\ core_ok cfg c' /\ beside c c' /\ pmt_pids c' = pmt_pids c /\ pat_identity c' = pat_identity c /\
    (forall n, tracker_at c' n = if decide (n = prog)
       then Some (pt_program_number t, pt_pmt_pid t, Some (PsiParse.pmt_version pmt), Some (PsiParse.pcr_pid pmt), info_of prog <$> PsiParse.streams pmt)
       else tracker_at c n) /\
    (forall q, pid_owner c' !! q = if decide (q ∈ (elementary_pid <$> PsiParse.streams pmt)) then Some prog else pid_owner c !! q) /\
    (forall x, x ∈ PsiParse.streams pmt -> tuned c' (elementary_pid x) (kind_of x) prog (PsiParse.stream_type x)) /\
    (forall q, q ∉ (elementary_pid <$> PsiParse.streams pmt) -> declared (state_of c' q) = declared (state_of c q)).
Proof.
  intros Hc prog Ht Hst Hnd Hown. destruct (pmt_collected p pmt t c Hc Ht Hnd Hown) as (c1 & t1 & map & Hc1 & Ht1 & Hp1 & Hv1 & Hrun). fold prog in Hp1, Hrun.
  pose proof (from_adopt_pmt cfg p pmt c Hc) as Hsafe. cbv beta in Hsafe. fold prog in Hsafe. destruct Hsafe as [Hc' _]; [by rewrite Ht|].
  set (infos := info_of prog <$> PsiParse.streams pmt) in *.
  assert (si_pid <$> infos = elementary_pid <$> PsiParse.streams pmt) as Hpids by (unfold infos; by rewrite <- list_fmap_compose).
  unfold tracker_view in Hv1. injection Hv1 as Hn1 Hpid1 _ _ Hs1. rewrite Hst in Hs1.
  set (cA := set_programs (set_pid_owner c1 (foldl (fun m (s : StreamInfo) => <[si_pid s := prog]> m) (pid_owner c1) infos))
               (<[prog := updated_tracker t1 pmt infos]> (programs c1))).
  destruct (declare_all prog infos cA) as (S & Hdecl & Hall & Htu & Hrest); [by rewrite Hpids|]. set (cB := set_pid_state cA S) in *.
  assert (exists cC, traced [] cB cC /\ adopt_pmt p pmt c = (cC, Ok tt)) as (cC & HtC & Hrun').
  { rewrite Hrun. unfold update_tracker. 
    set (fin := push_event (EvProgramMap map) ;; modify (fun c => set_program_maps_seen c (as_u64 (program_maps_seen c + 1))) ;;
      modify (fun c => set_pmt_versions_seen c (as_u64 (pmt_versions_seen c + 1)))).
    rewrite (bind_run _ _ c1 cA tt); cycle 1.
    { rewrite (bind_run _ _ c1 c1 (Some t1)) by (unfold gets; by rewrite Hp1). rewrite Hs1. cbn [foldl].
      rewrite (bind_run _ _ c1 c1 tt) by (unfold modify; by destruct c1).
      by rewrite (bind_run _ _ c1 (set_pid_owner c1 (foldl (fun m (s : StreamInfo) => <[si_pid s := prog]> m) (pid_owner c1) infos)) tt). }
    assert (exists cD, traced [] cB cD /\ apply_topology_diff (pmt_topology_diff c1 (PsiParse.pcr_pid pmt) prog infos) cA = (cD, Ok tt)) as (cD & HtD & HD).
    { unfold pmt_topology_diff. rewrite Hp1, Hs1. unfold apply_topology_diff.
      cbn [omap list_omap PidState.retired PidState.retired_pmt_pids PidState.kind_changed PidState.added PidState.pcr_pid_changes for_each].
      do 3 (rewrite (bind_run _ _ cA cA tt) by done). rewrite (bind_run _ _ cA cB tt) by exact Hdecl.
      destruct (bool_decide (pt_pcr_pid t1 <> Some (PsiParse.pcr_pid pmt))); [|exists cB; split; [apply traced_refl|done]].
      eexists. split; [|reflexivity]. by apply same_traced; [split|]. }
    rewrite (bind_run _ _ cA cD tt) by exact HD. eexists. split; [|reflexivity].
    eapply (traced_trans [] []); [exact HtD|]. split; [by split|]. by exists [EvProgramMap map]. }
  rewrite Hrun' in Hc'. cbn [fst] in Hc'. exists cC. split; [done|]. split; [done|].
  pose proof (traced_went _ _ _ HtC) as HwC. pose proof (traced_went _ _ _ Ht1) as Hw1.
  assert (beside c1 cB) as HbB.
  { split; try done; [intros q; apply Hall|intros q; apply Hall|by exists []; rewrite app_nil_r]. }
  split; [eapply beside_trans; [by apply traced_beside|]; eapply beside_trans; [exact HbB|by apply traced_beside]|].
  split; [by rewrite (wt_pmts _ _ _ _ _ HwC), <- (wt_pmts _ _ _ _ _ Hw1)|].
  split; [by rewrite (wt_pat _ _ _ _ _ HwC), <- (wt_pat _ _ _ _ _ Hw1)|].
  split; [|split; [|split]].
  - intros n. unfold tracker_at. rewrite <- !lookup_fmap, (wt_programs _ _ _ _ _ HwC).
    change (programs cB) with (<[prog := updated_tracker t1 pmt infos]> (programs c1)). rewrite fmap_insert, lookup_insert, (wt_programs _ _ _ _ _ Hw1).
    destruct (decide (prog = n)) as [<-|Hne]; [|by rewrite decide_False by congruence]. rewrite decide_True by done.
    unfold tracker_view, updated_tracker. cbn. by rewrite Hn1, Hpid1.
  - intros q. rewrite (wt_owner _ _ _ _ _ HwC). change (pid_owner cB) with (foldl (fun m (s : StreamInfo) => <[si_pid s := prog]> m) (pid_owner c1) infos).
    by rewrite owner_lookup, Hpids, (wt_owner _ _ _ _ _ Hw1).
  - intros x Hx. eapply traced_tuned; [exact HtC|]. pose proof (Htu (info_of prog x)) as Hi. cbn in Hi. rewrite byte_code in Hi. apply Hi.
    by apply list_elem_of_fmap_2.
  - intros q Hq. rewrite <- Hpids in Hq. pose proof (wt_pids _ _ _ _ _ HwC q) as H1. pose proof (wt_pids _ _ _ _ _ Hw1 q) as H2.
    unfold static in *. injection H1 as Ha1 Ha2 Ha3 _ _. injection H2 as Hb1 Hb2 Hb3 _ _. pose proof (Hrest q Hq) as H3.
    change (state_of cA q) with (state_of c1 q) in H3. unfold declared in *. congruence.
Qed.

(** ** Tables one after the other *)

Context (sv : Service) (Hsv : service_ok sv).

Definition number_of (x : Z * list Z * Pmt) : Z := pmt_program_number x.2.
Definition pids_of (x : Z * list Z * Pmt) : list Z := elementary_pid <$> PsiParse.streams x.2.
Definition streams_of (x : Z * list Z * Pmt) : list (Z * StreamKind * Z * Z) :=
  (fun s => (elementary_pid s, kind_of s, number_of x, PsiParse.stream_type s)) <$> PsiParse.streams x.2.

(** The PAT lists every PMT, under its own number and PID, and no PID is used twice. *)
Record service_listed : Prop := {
  sl_numbers : NoDup (PsiParse.program_number <$> ps_programs (sv_parsed sv));
  sl_nonzero : Forall (fun e => PsiParse.program_number e <> 0) (ps_programs (sv_parsed sv));
  sl_listed : forall x, x ∈ sv_pmts sv -> exists e, e ∈ ps_programs (sv_parsed sv) /\ PsiParse.program_number e = number_of x /\ pat_pid e = x.1.1;
  sl_distinct : NoDup (number_of <$> sv_pmts sv);
  sl_pids : NoDup (flat_map pids_of (sv_pmts sv));
  sl_streams : sv_streams sv = flat_map streams_of (sv_pmts sv);
  sl_apart : forall q e, q ∈ flat_map pids_of (sv_pmts sv) -> e ∈ ps_programs (sv_parsed sv) -> pat_pid e <> q;
}.
Context (Hlist : service_listed).

(** The PAT is known, and of the PMTs those in [done_]. *)
Record acquired (done_ : list (Z * list Z * Pmt)) (c : Core) : Prop := {
  aq_pat : pat_identity c = Some (ps_transport_stream_id (sv_parsed sv), ps_version (sv_parsed sv), ps_programs (sv_parsed sv));
  aq_pmts : forall p, p ∈ pmt_pids c <-> exists e, e ∈ ps_programs (sv_parsed sv) /\ pat_pid e = p;
  aq_todo : forall x, x ∈ sv_pmts sv -> x ∉ done_ -> tracker_at c (number_of x) = Some (number_of x, x.1.1, None, None, []);
  aq_done : forall x, x ∈ done_ -> exists infos,
    tracker_at c (number_of x) = Some (number_of x, x.1.1, Some (PsiParse.pmt_version x.2), Some (PsiParse.pcr_pid x.2), infos);
  aq_owner : forall q, is_Some (pid_owner c !! q) -> q ∈ flat_map pids_of done_;
  aq_tuned : forall x s, x ∈ done_ -> s ∈ PsiParse.streams x.2 -> tuned c (elementary_pid s) (kind_of s) (number_of x) (PsiParse.stream_type s);
  aq_steady : forall q, steady c q;
  aq_idle : idle c;
}.

Lemma acquired_went done_ f R c c' : acquired done_ c -> went [] f R c c' -> acquired done_ c'.
Proof.
  intros [] Hw. pose proof Hw as [Hp Ho Hm Hi _ _ _ _ _].
  assert (forall n, tracker_at c' n = tracker_at c n) as Ht by (intros n; unfold tracker_at; by rewrite <- !lookup_fmap, Hp).
  split; try congruence.
  - intros p. by rewrite Hm.
  - intros x Hx Hd. rewrite Ht. by apply aq_todo0.
  - intros x Hx. rewrite Ht. by apply aq_done0.
  - intros q. rewrite Ho. apply aq_owner0.
  - intros x s Hx Hs. eapply went_tuned; [exact Hw|by apply aq_tuned0].
  - intros q. by eapply went_steady.
  - by eapply went_idle.
Qed.

Lemma number_unique x y : x ∈ sv_pmts sv -> y ∈ sv_pmts sv -> number_of x = number_of y -> x = y.
Proof.
  intros Hx Hy He. apply list_elem_of_lookup in Hx as [i Hi], Hy as [j Hj].
  assert (i = j) as -> by (eapply (NoDup_lookup _ i j (number_of x) (sl_distinct Hlist)); rewrite list_lookup_fmap, ?Hi, ?Hj; cbn; congruence).
  congruence.
Qed.

Lemma pat_learned c : core_ok cfg c -> blank c -> (forall q, steady c q) -> idle c ->
  exists c', handle_pat_section (sv_pat sv) c = (c', Ok tt) /\ core_ok cfg c' /\ beside c c' /\ acquired [] c'.
Proof.
  intros Hc Hb Hst Hi. unfold handle_pat_section. destruct (so_pat _ Hsv) as (_ & _ & ->).
  destruct (syntax_steps cfg 0 0 (sv_pat sv) c Hc) as ([] & c1 & H1 & Hc1 & Ht1 & _).
  rewrite (bind_run _ _ c c1 tt) by done. rewrite (so_single _ Hsv). cbn [Z.eqb].
  destruct (pat_adopted (ps_transport_stream_id (sv_parsed sv)) (ps_version (sv_parsed sv)) (ps_programs (sv_parsed sv)) c1 Hc1)
    as (c2 & H2 & Hc2 & Hb2 & Hps & Hown & Hpat & Hpm & Hpr); [by eapply traced_blank|apply Hlist|apply Hlist|].
  exists c2. split; [done|]. split; [done|]. split; [eapply beside_trans; [by apply traced_beside|done]|].
  split; [done|done| | | | | |].
  - intros x Hx _. destruct (sl_listed Hlist x Hx) as (e & He & Hn & Hp). unfold tracker_at. rewrite <- Hn, (Hpr e He). cbn. by rewrite Hp.
  - by intros x Hx%elem_of_nil.
  - intros q. rewrite Hown. by intros [? ?].
  - by intros x s Hx%elem_of_nil.
  - intros q. unfold steady, state_of. rewrite Hps. apply (traced_steady _ _ _ q Ht1). apply Hst.
  - unfold idle. rewrite (bs_au _ _ Hb2). by eapply traced_idle.
Qed.

Lemma pids_block x : x ∈ sv_pmts sv -> NoDup (pids_of x) /\ forall y q, y ∈ sv_pmts sv -> q ∈ pids_of x -> q ∈ pids_of y -> x = y.
Proof.
  pose proof (sl_pids Hlist) as Hnd. revert x. induction (sv_pmts sv) as [|z l IH]; intros x Hx; [by apply elem_of_nil in Hx|].
  cbn in Hnd. apply NoDup_app in Hnd as (Hz & Hsep & Hnd).
  assert (forall y q, y ∈ l -> q ∈ pids_of z -> q ∈ pids_of y -> False) as Hno.
  { intros y q Hy H1 H2. apply (Hsep q H1). apply list_elem_of_In, in_flat_map. exists y. by rewrite <- !list_elem_of_In. }
  apply elem_of_cons in Hx as [-> |Hx].
  - split; [done|]. intros y q [-> |Hy]%elem_of_cons H1 H2; [done|]. by destruct (Hno y q Hy H1 H2).
  - destruct (IH Hnd x Hx) as [H1 H2]. split; [done|]. intros y q [-> |Hy]%elem_of_cons Hq Hq'; [by destruct (Hno x q Hx Hq' Hq)|by apply (H2 y q)].
Qed.

Lemma pmt_learned done_ x c : core_ok cfg c -> acquired done_ c -> (forall y, y ∈ done_ -> y ∈ sv_pmts sv) -> x ∈ sv_pmts sv -> x ∉ done_ ->
  exists c', handle_pmt_section x.1.1 x.1.2 c = (c', Ok tt) /\ core_ok cfg c' /\ beside c c' /\ acquired (x :: done_) c'.
Proof.
  intros Hc Ha Hsub Hx Hnew. destruct x as [[p s] pmt]. destruct (pids_block _ Hx) as [Hnd Hblock]. cbn [fst snd] in *.
  unfold handle_pmt_section. rewrite (bind_run _ _ c c (first_program_on c p)) by done. destruct (so_pmts _ Hsv p s pmt Hx) as (_ & _ & -> & _). cbv zeta.
  pose proof (aq_todo _ _ Ha _ Hx Hnew) as Ht. cbn [number_of fst snd] in Ht. unfold number_of in Ht. cbn [snd] in Ht. unfold tracker_at in Ht.
  destruct (programs c !! pmt_program_number pmt) as [t|] eqn:Hp; [|discriminate Ht]. cbn in Ht. apply (inj Some) in Ht. pose proof Ht as Hview.
  unfold tracker_view in Ht. injection Ht as Htn Htp _ _ _.
  rewrite (bind_run _ _ c c (Some t)) by (unfold gets, tracker_for; rewrite Hp; cbn; by rewrite Htp, Z.eqb_refl).
  destruct (syntax_steps cfg p 2 s c Hc) as ([] & c1 & H1 & Hc1 & Ht1 & _). rewrite (bind_run _ _ c c1 tt) by done.
  pose proof (acquired_went _ _ _ _ _ Ha (traced_went _ _ _ Ht1)) as Ha1. pose proof (aq_todo _ _ Ha1 _ Hx Hnew) as Hv1.
  unfold number_of, tracker_at in Hv1. cbn [fst snd] in Hv1. destruct (programs c1 !! pmt_program_number pmt) as [t1|] eqn:Hp1; [|discriminate Hv1].
  cbn in Hv1. apply (inj Some) in Hv1. unfold tracker_view in Hv1. injection Hv1 as Hn1 Hpid1 Hver1 Hpcr1 Hs1.
  rewrite (bind_run _ _ c1 c1 None) by (unfold gets; rewrite Hp1; cbn; by rewrite Hver1). rewrite bool_decide_eq_false_2 by done.
  destruct (pmt_adopted p pmt t1 c1 Hc1 Hp1 Hs1 Hnd) as (c2 & H2 & Hc2 & Hb2 & Hpm & Hpat & Htr & Hown & Htu & Hrest).
  { intros y Hy. destruct (pid_owner c1 !! elementary_pid y) as [n|] eqn:Ho; [|done]. exfalso. apply Hnew.
    pose proof (aq_owner _ _ Ha1 (elementary_pid y)) as Hq. rewrite Ho in Hq. specialize (Hq ltac:(by eexists)).
    rewrite list_elem_of_In, in_flat_map in Hq. destruct Hq as (z & Hz%list_elem_of_In & Hq%list_elem_of_In).
    rewrite (Hblock z (elementary_pid y)); [done|by apply Hsub| |done]. by apply list_elem_of_fmap_2. }
  exists c2. split; [done|]. split; [done|]. split; [eapply beside_trans; [by apply traced_beside|done]|].
  assert (forall y, y ∈ sv_pmts sv -> number_of y = pmt_program_number pmt -> y = (p, s, pmt)) as Huniq.
  { intros y Hy Hn. by apply number_unique. }
  split.
  - rewrite Hpat. apply Ha1.
  - intros q. rewrite Hpm. apply Ha1.
  - intros y Hy [Hne Hyd]%not_elem_of_cons. rewrite Htr, decide_False; [by apply Ha1|]. intros Hn. apply Hne. by apply Huniq.
  - intros y [-> |Hy]%elem_of_cons.
    + eexists. rewrite Htr, decide_True by done. cbn. by rewrite Hn1, Hpid1.
    + rewrite Htr, decide_False; [by apply Ha1|]. intros Hn. apply Hnew. rewrite <- (Huniq y); [done|by apply Hsub|done].
  - intros q. rewrite Hown. cbn [flat_map]. rewrite elem_of_app. case_decide as Hq; [by left|]. intros Ho. right. by apply Ha1.
  - intros y z [-> |Hy]%elem_of_cons Hz; [by apply Htu|]. unfold tuned. rewrite Hrest; [by apply Ha1|]. intros Hq. apply Hnew.
    rewrite (Hblock y (elementary_pid z)); [done|by apply Hsub|done|]. by apply list_elem_of_fmap_2.
  - intros q. destruct (bs_resets _ _ Hb2 q) as [Hr1 Hr2]. unfold steady. rewrite Hr1, Hr2. apply Ha1.
  - unfold idle. rewrite (bs_au _ _ Hb2). apply Ha1.
Qed.

(** With every PMT known, the demuxer is locked on. *)
Lemma acquired_locked done_ c : acquired done_ c -> (forall x, x ∈ sv_pmts sv -> x ∈ done_) -> locked sv c.
Proof.
  intros Ha Hall. split; [apply Ha| | |apply Ha].
  - intros p s pmt Hx. destruct (sl_listed Hlist _ Hx) as (e & He & Hn & Hp). split; [apply Ha; by exists e|].
    destruct (aq_done _ _ Ha _ (Hall _ Hx)) as (infos & Ht). by eexists _, infos.
  - intros q k n st. rewrite (sl_streams Hlist). rewrite list_elem_of_In, in_flat_map. intros (x & Hx%list_elem_of_In & Hs%list_elem_of_In).
    unfold streams_of in Hs. apply list_elem_of_fmap in Hs as (y & [= -> -> -> ->] & Hy). split; [|split; [by apply (aq_tuned _ _ Ha x y (Hall x Hx))|apply Ha]].
    intros (e & He & Hp)%(aq_pmts _ _ Ha). apply (sl_apart Hlist (elementary_pid y) e); [|done|done].
    apply list_elem_of_In, in_flat_map. exists x. rewrite <- !list_elem_of_In. split; [done|]. by apply list_elem_of_fmap_2.
Qed.

(** ** The packets that carry them *)

Context (Hoff : strict cfg = Off) (debug : NonConformantIssue -> string).

Definition table_of (x : Z * list Z * Pmt) : Wire.item := Wire.Table x.1.1 x.1.2.

(** A table packet: what its handler establishes holds afterwards. *)
Lemma table_learned (P : Core -> Prop) nx p s c : ready cfg c -> Wire.in_range nx -> in_step nx c -> 0 <= p <= 0x1FFF -> p <> PID_NULL ->
  PsiAssemblerTheorems.framed s -> zlen s <= 183 -> p = 0 \/ p ∈ pmt_pids c -> (forall a b, traced [] a b -> P a -> P b) ->
  (forall f R c1, core_ok cfg c1 -> went [] f R c c1 -> exists c2, (if p =? 0 then handle_pat_section s else handle_pmt_section p s) c1 = (c2, Ok tt) /\
    core_ok cfg c2 /\ beside c1 c2 /\ P c2) ->
  exists c', each (feed_packet debug) c (Wire.packets nx (Wire.Table p s)) = (c', Ok tt) /\ ready cfg c' /\ in_step (Wire.advance nx (Wire.Table p s)) c' /\
    P c' /\ pes c' = pes c /\ exists es, queue c' = queue c ++ es /\ deliveries es = [].
Proof.
  intros Hr Hnx Hs Hp Hnull Hf Hl Hdest HP Hh.
  destruct (table_packet cfg p s (nx p) c (proj1 Hr) Hp Hnull Hf Hl (Hnx p Hp) (Hs p Hp) Hdest) as (Hb & Hlen & c1 & Hc1 & Hw1 & Hgo).
  destruct (Hh _ _ c1 Hc1 Hw1) as (c2 & H2 & Hc2 & Hb2 & HP2). destruct (Hgo c2 H2 Hc2) as (c3 & H3 & Hc3 & Ht3).
  destruct (feed_processed cfg Hcfg Hoff debug c c3 _ Hr Hb Hlen H3) as [Hfeed Hr3]. pose proof (traced_beside _ _ Ht3) as Hb3.
  exists c3. cbn [Wire.packets each]. rewrite Hfeed. split; [done|]. split; [done|]. split; [|split; [by eapply HP|split]].
  - apply (stamp_step nx c c3 (Wire.Table p s)); try done. intros q. rewrite (bs_cc _ _ Hb3), (bs_cc _ _ Hb2). apply Hw1.
  - rewrite (bs_pes _ _ Hb3), (bs_pes _ _ Hb2). apply Hw1.
  - destruct (wt_queue _ _ _ _ _ Hw1) as (e1 & Hq1 & Hd1), (bs_queue _ _ Hb2) as (e2 & Hq2 & Hd2), (bs_queue _ _ Hb3) as (e3 & Hq3 & Hd3).
    exists (e1 ++ e2 ++ e3). rewrite Hq3, Hq2, Hq1, <- !app_assoc, !deliveries_app, Hd1, Hd2, Hd3. done.
Qed.

Lemma went_blank d f R c c' : went d f R c c' -> blank c -> blank c'.
Proof.
  intros [] []. split; try congruence. rewrite bl_programs0, fmap_empty in wt_programs0. by apply fmap_empty_inv in wt_programs0.
Qed.

(** The tables arrived, nothing was delivered. *)
Definition ended (nx : Z -> Z) (c c' : Core) : Prop :=
  ready cfg c' /\ in_step nx c' /\ pes c' = pes c /\ exists es, queue c' = queue c ++ es /\ deliveries es = [].

Lemma pmts_acquired todo : forall done_ nx c, ready cfg c -> Wire.in_range nx -> in_step nx c -> acquired done_ c ->
  (forall x, x ∈ done_ \/ x ∈ todo -> x ∈ sv_pmts sv) -> NoDup todo -> (forall x, x ∈ todo -> x ∉ done_) ->
  exists c' done', each (feed_packet debug) c (Wire.render nx (table_of <$> todo)) = (c', Ok tt) /\ ended (Wire.after nx (table_of <$> todo)) c c' /\
    acquired done' c' /\ forall x, x ∈ done_ \/ x ∈ todo -> x ∈ done'.
Proof.
  induction todo as [|x todo IH]; intros done_ nx c Hr Hnx Hs Ha Hsub Hnd Hnew.
  { exists c, done_. split; [done|]. split; [by split_and!; [..|exists []; rewrite app_nil_r]|]. split; [done|]. intros x [Hx|Hx%elem_of_nil]; done. }
  apply NoDup_cons in Hnd as [Hx Hnd]. assert (x ∈ sv_pmts sv) as Hin by (apply Hsub; right; constructor).
  assert (x ∉ done_) as Hxd by (apply Hnew; constructor).
  destruct x as [[p s] pmt] eqn:Hxe. destruct (so_pmts _ Hsv p s pmt Hin) as (Hf & Hl & _ & Hz & Hnull & Hp). rewrite <- Hxe in *.
  destruct (table_learned (acquired (x :: done_)) nx p s c Hr Hnx Hs Hp Hnull Hf Hl) as (c1 & He1 & Hr1 & Hs1 & Ha1 & Hpes1 & e1 & Hq1 & Hd1).
  { right. destruct (sl_listed Hlist x Hin) as (e & He & _ & Hpe). apply (aq_pmts _ _ Ha). exists e. by rewrite Hxe in Hpe. }
  { intros a b Ht Hab. eapply acquired_went; [exact Hab|by apply traced_went]. }
  { intros f R c1 Hc1 Hw1. rewrite (proj2 (Z.eqb_neq _ _) Hz). replace p with x.1.1 by (by rewrite Hxe). replace s with x.1.2 by (by rewrite Hxe).
    apply pmt_learned; try done; [by eapply acquired_went|]. intros y Hy. apply Hsub. by left. }
  change (Wire.Table p s) with (table_of (p, s, pmt)) in *. rewrite <- Hxe in *.
  destruct (IH (x :: done_) (Wire.advance nx (table_of x)) c1) as (c2 & done' & He2 & (Hr2 & Hs2 & Hpes2 & e2 & Hq2 & Hd2) & Ha2 & Hall);
    try done; [by apply Wire.advance_range| | |].
  { intros y [[-> |Hy]%elem_of_cons|Hy]; [done|apply Hsub; by left|apply Hsub; right; by constructor]. }
  { intros y Hy [-> |Hyd]%elem_of_cons; [done|]. by apply (Hnew y); [constructor|]. }
  exists c2, done'. cbn [fmap list_fmap Wire.render Wire.after]. split; [by rewrite (each_app _ _ _ _ _ He1)|].
  split; [|split; [done|]].
  - split_and!; [done|done|congruence|]. exists (e1 ++ e2). by rewrite Hq2, Hq1, <- app_assoc, deliveries_app, Hd1, Hd2.
  - intros y [Hy|[-> |Hy]%elem_of_cons]; apply Hall; [left; by constructor|left; constructor|by right].
Qed.

(** A PAT and its PMTs lock a new demuxer. *)
Lemma service_acquired nx c : ready cfg c -> blank c -> (forall q, steady c q) -> idle c -> Wire.in_range nx -> in_step nx c -> NoDup (sv_pmts sv) ->
  let tables := Wire.Table 0 (sv_pat sv) :: (table_of <$> sv_pmts sv) in
  exists c', each (feed_packet debug) c (Wire.render nx tables) = (c', Ok tt) /\ ended (Wire.after nx tables) c c' /\ locked sv c'.
Proof.
  intros Hr Hb Hst Hi Hnx Hs Hnd tables. destruct (so_pat _ Hsv) as (Hf & Hl & _).
  destruct (table_learned (acquired []) nx 0 (sv_pat sv) c Hr Hnx Hs ltac:(lia) ltac:(done) Hf Hl (or_introl eq_refl))
    as (c1 & He1 & Hr1 & Hs1 & Ha1 & Hpes1 & e1 & Hq1 & Hd1).
  { intros a b Ht Hab. eapply acquired_went; [exact Hab|by apply traced_went]. }
  { intros f R c1 Hc1 Hw1. cbn [Z.eqb]. apply pat_learned; [done|by eapply went_blank|intros q; by eapply went_steady|by eapply went_idle]. }
  destruct (pmts_acquired (sv_pmts sv) [] (Wire.advance nx (Wire.Table 0 (sv_pat sv))) c1) as (c2 & done' & He2 & (Hr2 & Hs2 & Hpes2 & e2 & Hq2 & Hd2) & Ha2 & Hall);
    try done; [by apply Wire.advance_range|by intros x [Hx%elem_of_nil|Hx]|by intros x _ Hx%elem_of_nil|].
  exists c2. unfold tables. cbn [Wire.render Wire.after]. split; [by rewrite (each_app _ _ _ _ _ He1)|]. split.
  - split_and!; [done|done|congruence|]. exists (e1 ++ e2). by rewrite Hq2, Hq1, <- app_assoc, deliveries_app, Hd1, Hd2.
  - apply (acquired_locked done'); [done|]. intros x Hx. apply Hall. by right.
Qed.

End pat.
End Acquire.
