(* ===== verification/EndToEnd.v ===== *)
(** From the pushes of a muxer to the events of a demuxer. *)
From Stdlib Require Import ZArith Lia Bool String.
From stdpp Require Import base list list_numbers gmap sorting.
From S2P Require Import Prelude.
From S2P Require Import Common.
From S2P Require Import TsPacket.
From S2P Require Import PesWriter.
From S2P Require Import PesDemux.
From S2P Require Import PsiParse.
From S2P Require Import PsiAssembly.
From S2P Require Import PsiWriter.
From S2P Require Import Descriptors.
From S2P Require Import WireBytes.
From S2P Require Import Muxer.
From S2P Require Import MuxerTheorems.
From S2P Require Import MuxerHandlers.
From S2P Require Import MuxerSession.
From S2P Require Import Ingress.
From S2P Require Import DemuxTypes.
From S2P Require Import DemuxState.
From S2P Require Import DemuxIngress.
From S2P Require Import DemuxPayload.
From S2P Require Import DemuxPes.
From S2P Require Import Demuxer.
From S2P Require Import DemuxTotal.
From S2P Require Import DemuxSafe.
From S2P Require Import DemuxMethods.
From S2P Require Import DemuxEmit.
From S2P Require Import DemuxerTheorems.
From S2P Require Import DemuxTrace.
From S2P Require Import DemuxReceive.

(** * PES in flight *)
Module Flight.
Import Common PesParse Reassembler ReassemblerInv Chunks Packetize Receiver Handlers PmtClassify DemuxEvent Strict DemuxConfig Core Lookup Payload Emit
  CoreInv DemuxerInv DemuxerTheorems Abstract Demuxer Trace Deliver Moves Items.

(** An unbounded PES that arrived whole and waits for the next unit start, with
    what it parses to and what is delivered of it. *)
Abbreviation Open := (list Z * bool * PesPayload * DemuxEvent)%type.

Definition partial_of (o : Open) : Partial := inflight None o.1.1.1 o.1.1.2.

Definition is_video (k : StreamKind) : bool := match k with KVideo _ => true | _ => false end.

Definition delivery_pid (e : DemuxEvent) : option Z :=
  match e with EvSample s _ _ _ | EvMetadata s _ _ _ => Some (sid_pid s) | _ => None end.

(** The deliveries of one PID. *)
Definition on (q : Z) (es : list DemuxEvent) : list DemuxEvent := List.filter (fun e => bool_decide (delivery_pid e = Some q)) es.

Lemma on_app q a b : on q (a ++ b) = on q a ++ on q b.
Proof. apply List.filter_app. Qed.

Lemma on_deliveries q es : on q (deliveries es) = on q es.
Proof. unfold on, deliveries. induction es as [|[] es IH]; cbn; try done; case_bool_decide; cbn; by rewrite IH. Qed.

Section flight.
Context (cfg : DemuxerConfig) (Hcfg : config_ok cfg) (Hoff : strict cfg = Off) {HO : HashOrder} (debug : NonConformantIssue -> string).
Context (sv : Service) (Hsv : service_ok sv) (n : Z).

Definition sv_pids : list Z := map (fun s => s.1.1.1) (sv_streams sv).

(** A PES on the stream [(q, k, prog, st)] that the demuxer answers with [e]. *)
Definition answers (q : Z) (k : StreamKind) (prog st : Z) (p : PesPayload) (e : DemuxEvent) : Prop :=
  PesParse.pid p = q /\ delivery cfg k prog st p = Some e.

Lemma answers_pid q k prog st p e : answers q k prog st p e -> delivery_pid e = Some q.
Proof.
  intros [<- H]. unfold delivery in H. destruct k; try (by injection H as <-);
    (destruct (classify_klv _) as [[]|[]|]; try done; try (by injection H as <-);
     destruct (iter_au_cells_with_end _) as [[|[[[h b] x]|] [|]]|[]|]; try done; case_bool_decide; by simplify_eq).
Qed.

(** The PES in flight are the open ones of the video streams, each within [n]. *)
Record flying (R : Reassembler) (opens : gmap Z Open) : Prop := {
  fl_parts : by_pid R = partial_of <$> opens;
  fl_open : forall q pes ra p e, opens !! q = Some (pes, ra, p, e) -> parse_complete q pes ra = Ok (Some p) /\ zlen pes <= n /\
    exists k prog st, (q, k, prog, st) ∈ sv_streams sv /\ is_video k = true /\ answers q k prog st p e;
}.

(** Room for one PES of [n] bytes per stream. *)
Definition roomy : Prop := 0 <= n <= pes_cap cfg /\ n * zlen (sv_streams sv) <= pes_total cfg.

Lemma held_bound (m : gmap Z Partial) : map_Forall (fun _ p => zlen (buf p) <= n) m -> held m <= n * Z.of_nat (size m).
Proof.
  induction m as [|i p m Hm IH] using map_ind; intros Hf; [by rewrite held_empty, map_size_empty, Z.mul_0_r|].
  rewrite held_insert, delete_id, map_size_insert_None by done. apply map_Forall_insert in Hf as [Hp Hf]; [|done]. specialize (IH Hf). lia.
Qed.

Lemma dups_length (l : list Z) : (length (remove_dups l) <= length l)%nat.
Proof. induction l as [|x l IH]; cbn; [lia|]. destruct (decide_rel _ _ _); cbn; lia. Qed.

Lemma size_bound (opens : gmap Z Open) q : q ∈ sv_pids -> (forall p, is_Some (opens !! p) -> p ∈ sv_pids) ->
  (1 + size (delete q opens) <= length (sv_streams sv))%nat.
Proof.
  intros Hq Hd. rewrite <- (size_dom (D := gset Z)).
  assert (size ({[q]} ∪ dom (delete q opens) : gset Z) <= length (sv_streams sv))%nat as Hs.
  { transitivity (size (list_to_set (remove_dups sv_pids) : gset Z)).
    - apply subseteq_size. intros p. rewrite elem_of_list_to_set, elem_of_remove_dups, elem_of_union, elem_of_singleton, elem_of_dom, lookup_delete_is_Some.
      intros [->|[_ Hp]]; [done|by apply Hd].
    - rewrite size_list_to_set by apply NoDup_remove_dups. 
      transitivity (length sv_pids); [|by unfold sv_pids; rewrite length_map]. apply dups_length. }
  rewrite size_union in Hs; [by rewrite size_singleton in Hs|]. set_solver.
Qed.

Context (Huniq : NoDup sv_pids) (Hroom : roomy).

Lemma stream_unique q k prog st k' prog' st' : (q, k, prog, st) ∈ sv_streams sv -> (q, k', prog', st') ∈ sv_streams sv ->
  (k, prog, st) = (k', prog', st').
Proof.
  intros H1 H2. unfold sv_pids in Huniq. apply list_elem_of_lookup in H1 as [i Hi], H2 as [j Hj].
  assert (i = j) as -> by (eapply (NoDup_lookup _ i j q Huniq); rewrite list_lookup_fmap, ?Hi, ?Hj; done). congruence.
Qed.

(** What waits on a PID. *)
Definition pend (opens : gmap Z Open) (q : Z) : list DemuxEvent := match opens !! q with Some o => [o.2] | None => [] end.

(** A PES on a stream of the service, and its event. *)
Definition says (i : Wire.item) (o : option (Z * DemuxEvent)) : Prop :=
  match i with
  | Wire.Unit q af pes => exists k prog st p e, o = Some (q, e) /\ (q, k, prog, st) ∈ sv_streams sv /\ answers q k prog st p e /\
      bytes pes /\ zlen pes <= n /\
      (if is_video k then delivers_unbounded q pes (TsWriter.random_access af) p else delivers q pes (TsWriter.random_access af) p)
  | i => o = None /\ overhead_item sv i
  end.

Definition events_of (q : Z) (os : list (option (Z * DemuxEvent))) : list DemuxEvent :=
  omap (fun o => match o with Some (p, e) => if p =? q then Some e else None | None => None end) os.

Lemma room_left R opens q : flying R opens -> q ∈ sv_pids -> held (delete q (by_pid R)) + n <= pes_total cfg.
Proof.
  intros [Hp Ho] Hq.
  assert (forall p, is_Some (opens !! p) -> p ∈ sv_pids) as Hd.
  { intros p [[[[pes ra] x] e] Hx]. destruct (Ho _ _ _ _ _ Hx) as (_ & _ & k & prog & st & Hin & _). apply list_elem_of_fmap. by eexists (p, k, prog, st). }
  pose proof (size_bound opens q Hq Hd) as Hs. rewrite Hp, <- fmap_delete.
  assert (map_Forall (fun _ x => zlen (buf x) <= n) (partial_of <$> delete q opens)) as Hf.
  { intros p x. rewrite lookup_fmap_Some. intros ([[[pes ra] y] e] & <- & Hx). apply lookup_delete_Some in Hx as [_ Hx].
    destruct (Ho _ _ _ _ _ Hx) as (_ & Hz & _). exact Hz. }
  apply held_bound in Hf. rewrite map_size_fmap in Hf. destruct Hroom as [Hn Ht]. unfold zlen in Ht. nia.
Qed.

Lemma flying_total R opens q : flying R opens -> inv R -> 
  total_buffered R = (match opens !! q with Some o => zlen o.1.1.1 | None => 0 end) + held (delete q (by_pid R)).
Proof.
  intros [Hp _] Hi. rewrite (inv_total _ Hi). destruct (opens !! q) as [o|] eqn:Ho.
  - rewrite (held_delete (by_pid R) q (partial_of o)) by (rewrite Hp; apply lookup_fmap_Some; by exists o). done.
  - rewrite (held_delete_none (by_pid R) q); [lia|]. rewrite Hp, lookup_fmap. by rewrite Ho.
Qed.

(** The reassembler's side of one unit: nothing open is lost, what was open on
    the PID is released, a bounded PES is released at once. *)
Lemma unit_received R opens q k prog st p e af pes cc : flying R opens -> inv R -> cap_per_pid R = pes_cap cfg -> cap_total R = pes_total cfg ->
  (q, k, prog, st) ∈ sv_streams sv -> answers q k prog st p e -> zlen pes <= n -> 0 <= cc < 16 ->
  (if is_video k then delivers_unbounded q pes (TsWriter.random_access af) p else delivers q pes (TsWriter.random_access af) p) ->
  exists R' opens' ps es, receive (E:=Empty_set) R q (video_kind k) (packetize (S (length pes)) q true af pes cc) = Ok (R', Complete <$> ps) /\
    flying R' opens' /\ yields cfg q k prog st ps es /\
    forall x, on x es ++ pend opens' x = pend opens x ++ events_of x [Some (q, e)].
Proof.
  intros Hfl Hi Hcp Hct Hin Ha Hz Hcc Hd. destruct (so_streams _ Hsv _ _ _ _ Hin) as (_ & _ & Hq). destruct Hroom as [Hn _].
  assert (q ∈ sv_pids) as Hqs by (apply list_elem_of_fmap; by eexists (q, k, prog, st)).
  pose proof (room_left R opens q Hfl Hqs) as Hleft. pose proof (flying_total R opens q Hfl Hi) as Htot.
  pose proof Hfl as [Hparts Hopen]. pose proof (held_nonneg (delete q (by_pid R))) as Hh.
  assert (pes <> []) as Hne.
  { destruct (is_video k); destruct Hd as [(hi & lo & Hhi & _) _]; by destruct pes. }
  destruct (receive_packetized (E:=Empty_set) R q (video_kind k) af (S (length pes)) pes cc Hq Hcc Hne) as (first & rest & -> & Hcat & Hall);
    [unfold zlen; lia|].
  destruct (is_video k) eqn:Hk; destruct Hd as (Hann & Hparse & _).
  - replace (video_kind k) with true by (by destruct k). rewrite <- Hcat in Hann.
    set (o := (fun x : Open => x.1) <$> opens !! q).
    destruct (feed_pes_unbounded (E:=Empty_set) R q o first rest (TsWriter.random_access af)) as (R' & -> & Hb & _ & _).
    + unfold o. destruct (opens !! q) as [[[[pes0 ra0] p0] e0]|] eqn:Ho; cbn in *.
      * destruct (Hopen _ _ _ _ _ Ho) as (Hp0 & _). split_and!; [|done|lia]. by rewrite Hparts, lookup_fmap, Ho.
      * by rewrite Hparts, lookup_fmap, Ho.
    + unfold o. destruct (opens !! q) as [[[[pes0 ra0] p0] e0]|]; cbn in *; lia.
    + done.
    + rewrite Hcat. lia.
    + rewrite Hcat. unfold o. destruct (opens !! q) as [[[[pes0 ra0] p0] e0]|]; cbn in *; lia.
    + exists R', (<[q := (pes, TsWriter.random_access af, p, e)]> opens), (match o with Some x => [x.2] | None => [] end), (pend opens q).
      split; [f_equal; unfold o, pend; by destruct (opens !! q) as [[[[? ?] ?] ?]|]|]. split_and!.
      * split; [by rewrite Hb, Hcat, fmap_insert, <- Hparts|]. intros x pes' ra' p' e'. rewrite lookup_insert_Some.
        intros [(<- & [= <- <- <- <-])|(_ & Hx)]; [|by apply (Hopen x)]. split_and!; [done|done|]. by exists k, prog, st.
      * unfold yields, o, pend. destruct (opens !! q) as [[[[pes0 ra0] p0] e0]|] eqn:Ho; cbn; [|constructor].
        destruct (Hopen _ _ _ _ _ Ho) as (_ & _ & k' & prog' & st' & Hin' & _ & Ha'). pose proof (stream_unique _ _ _ _ _ _ _ Hin Hin') as [= <- <- <-].
        constructor; [exact Ha'|constructor].
      * intros x. unfold pend at 2. rewrite lookup_insert. unfold events_of. cbn. case_decide as Hx.
        -- subst x. rewrite Z.eqb_refl. unfold pend. destruct (opens !! q) as [[[[pes0 ra0] p0] e0]|] eqn:Ho; [|done].
           destruct (Hopen _ _ _ _ _ Ho) as (_ & _ & k' & prog' & st' & _ & _ & Ha'). cbn. rewrite (answers_pid _ _ _ _ _ _ Ha').
           by rewrite bool_decide_eq_true_2.
        -- rewrite (proj2 (Z.eqb_neq _ _)) by done. rewrite app_nil_r. change (match opens !! x with Some o => [o.2] | None => [] end) with (pend opens x).
           unfold pend at 1. destruct (opens !! q) as [[[[pes0 ra0] p0] e0]|] eqn:Ho; [|done].
           destruct (Hopen _ _ _ _ _ Ho) as (_ & _ & k' & prog' & st' & _ & _ & Ha'). cbn. rewrite (answers_pid _ _ _ _ _ _ Ha').
           rewrite bool_decide_eq_false_2; [done|]. by intros [= ->].
  - assert (opens !! q = None) as Ho.
    { destruct (opens !! q) as [[[[pes0 ra0] p0] e0]|] eqn:Ho; [|done]. destruct (Hopen _ _ _ _ _ Ho) as (_ & _ & k' & prog' & st' & Hin' & Hk' & _).
      pose proof (stream_unique _ _ _ _ _ _ _ Hin Hin') as [= <- <- <-]. congruence. }
    rewrite Ho in Htot. rewrite <- Hcat in Hann, Hparse, Hz.
    destruct (feed_pes_bounded (E:=Empty_set) R q first rest (TsWriter.random_access af) (video_kind k) p) as (R' & -> & Hb & _ & _);
      [by rewrite Hparts, lookup_fmap, Ho|lia|done|by apply Session.announces_any|lia|lia|done|].
    exists R', opens, [p], [e]. split; [done|]. split_and!; [by split; [rewrite Hb|]|constructor; [exact Ha|constructor]|].
    intros x. unfold on, events_of. cbn. rewrite (answers_pid _ _ _ _ _ _ Ha). unfold pend. destruct (Z.eqb_spec q x) as [<-|Hx].
    + by rewrite bool_decide_eq_true_2, Ho.
    + rewrite bool_decide_eq_false_2 by congruence. by rewrite app_nil_r.
Qed.

(** ** One item, and all of them *)

(** A demuxer in the middle of the stream. *)
Record tracking (nx : Z -> Z) (opens : gmap Z Open) (c : Core) : Prop := {
  tr_ready : ready cfg c;
  tr_locked : locked sv c;
  tr_step : in_step nx c;
  tr_flying : flying (pes c) opens;
}.

(** From [c] to [c'], every PID gained the events [os] name, some of them still
    waiting. *)
Definition gains (c c' : Core) (opens opens' : gmap Z Open) (os : list (option (Z * DemuxEvent))) : Prop :=
  exists es, queue c' = queue c ++ es /\ forall x, on x es ++ pend opens' x = pend opens x ++ events_of x os.

Lemma gains_refl c opens : gains c c opens opens [].
Proof. exists []. rewrite app_nil_r. split; [done|]. intros x. by rewrite app_nil_r. Qed.

Lemma gains_trans a b c o1 o2 o3 os os' : gains a b o1 o2 os -> gains b c o2 o3 os' -> gains a c o1 o3 (os ++ os').
Proof.
  intros (e1 & Hq1 & H1) (e2 & Hq2 & H2). exists (e1 ++ e2). split; [by rewrite Hq2, Hq1, app_assoc|]. intros x.
  unfold events_of in *. by rewrite on_app, omap_app, <- app_assoc, H2, app_assoc, H1, <- app_assoc.
Qed.

Lemma went_gains es f R c c' opens opens' os : went es f R c c' ->
  (forall x, on x es ++ pend opens' x = pend opens x ++ events_of x os) -> gains c c' opens opens' os.
Proof.
  intros Hw Hx. destruct (wt_queue _ _ _ _ _ Hw) as (l & Hq & <-). exists l. split; [done|]. intros x. by rewrite <- Hx, on_deliveries.
Qed.

Lemma unit_step nx q af pes_ c c' f R es : Wire.in_range nx -> Wire.pid_ok q -> in_step nx c -> went es f R c c' ->
  (forall p, p <> q -> f p = cc_at c p) -> follows f q ((nx q + zlen (packetize (S (length pes_)) q true af pes_ (nx q))) mod 16) ->
  in_step (Wire.advance nx (Wire.Unit q af pes_)) c'.
Proof.
  intros Hr Hq Hs Hw Ho Hf p Hp v. rewrite (wt_cc _ _ _ _ _ Hw). unfold Wire.advance. cbn [Wire.item_pid].
  destruct (Z.eqb_spec p q) as [-> |Hne]; [apply Hf|]. rewrite Ho by done. by apply Hs.
Qed.

Lemma item_passes nx i o c opens : Wire.in_range nx -> tracking nx opens c -> says i o ->
  exists c' opens', each (feed_packet debug) c (Wire.packets nx i) = (c', Ok tt) /\
    tracking (Wire.advance nx i) opens' c' /\ gains c c' opens opens' [o].
Proof.
  intros Hnx [Hr Hl Hs Hfl] Hi. destruct i as [p s|p v|q af pes_]; cbn [says] in Hi.
  1,2: destruct Hi as [-> Hi]; destruct (overhead_passes cfg Hcfg Hoff debug sv nx _ c Hsv Hl Hr Hnx Hs Hi) as (c' & f & He & Hr' & Hw & Hs');
    exists c', opens; split; [exact He|]; split;
    [split; [exact Hr'|by eapply locked_went|exact Hs'|by rewrite (wt_pes _ _ _ _ _ Hw)]
    |eapply went_gains; [exact Hw|]; intros x; cbn; by rewrite app_nil_r].
  destruct Hi as (k & prog & st & p & e & -> & Hin & Ha & Hb & Hz & Hd).
  destruct (so_streams _ Hsv _ _ _ _ Hin) as (Hq0 & Hqn & Hq). destruct (lk_streams _ _ Hl _ _ _ _ Hin) as (Hpmt & Htu & Hst).
  pose proof (co_pes _ _ (proj1 Hr)) as Hpes.
  destruct (unit_received (pes c) opens q k prog st p e af pes_ (nx q)) as (R' & opens' & ps & es & Hrec & Hfl' & Hy & Hx);
    try done; [apply Hpes|apply Hpes|apply Hpes|by apply Hnx|].
  destruct (packetize_parts q af (S (length pes_)) true pes_ (nx q)) as (qs & Hparts & Hrun); [done|by apply Hnx|done|unfold zlen; lia|].
  destruct (unit_passes cfg Hcfg Hoff debug q k prog st _ qs Hq0 Hqn Hparts (nx q) c R' ps es) as (c' & f & He & Hr' & Hw & Ho & Hf);
    try done; [by apply Hnx|by apply Hs|apply Hl|].
  exists c', opens'. split; [done|]. split; [|by eapply went_gains].
  split; [done|by eapply locked_went|by eapply unit_step|by rewrite (wt_pes _ _ _ _ _ Hw)].
Qed.

Lemma items_pass is_ os : Forall2 says is_ os -> forall nx c opens, Wire.in_range nx -> tracking nx opens c ->
  exists c' opens', each (feed_packet debug) c (Wire.render nx is_) = (c', Ok tt) /\
    tracking (Wire.after nx is_) opens' c' /\ gains c c' opens opens' os.
Proof.
  induction 1 as [|i o is_ os Hi _ IH]; intros nx c opens Hnx Ht; cbn [Wire.render Wire.after].
  { exists c, opens. split; [done|]. split; [done|apply gains_refl]. }
  destruct (item_passes nx i o c opens Hnx Ht Hi) as (c1 & opens1 & He1 & Ht1 & Hg1).
  destruct (IH _ c1 opens1 (Wire.advance_range _ i Hnx) Ht1) as (c2 & opens2 & He2 & Ht2 & Hg2).
  exists c2, opens2. split; [by rewrite (each_app _ _ _ _ _ He1)|]. split; [done|]. by apply (gains_trans c c1 c2 opens opens1 opens2 [o] os).
Qed.

(** ** The end of the stream *)

Definition entry_ok (x : Z * Open) : Prop :=
  parse_complete x.1 x.2.1.1.1 x.2.1.1.2 = Ok (Some x.2.1.2) /\
  exists k prog st, (x.1, k, prog, st) ∈ sv_streams sv /\ answers x.1 k prog st x.2.1.2 x.2.2.

Lemma finish_opens l : Forall entry_ok l -> forall r out,
  finish_all (E:=Empty_set) r (prod_map id partial_of <$> l) out = Ok (r, out ++ (Complete <$> ((fun x => x.2.1.2) <$> l))).
Proof.
  induction 1 as [|[q [[[pes_ ra] p] e]] l [Hp _] _ IH]; intros r out; cbn [fmap list_fmap finish_all]; [by rewrite app_nil_r|].
  cbn [prod_map fst snd]. unfold partial_of at 1. cbn [fst snd] in *. rewrite (finish_complete r (id q) None pes_ ra out p) by done. rb.
  rewrite IH. by rewrite <- app_assoc.
Qed.

Lemma flush_delivers l : Forall entry_ok l -> Forall PesOutcomes.pes_ok ((fun x => x.2.1.2) <$> l) -> forall c, core_ok cfg c -> locked sv c ->
  Steps.steps cfg (flush_outcomes (Complete <$> ((fun x => x.2.1.2) <$> l)) no_marks) c ((fun x => x.2.2) <$> l) (fun _ => True).
Proof.
  induction 1 as [|[q [[[pes_ ra] p] e]] l [_ (k & prog & st & Hin & [Hq He])] _ IH]; intros Hok c Hc Hl; cbn [fmap list_fmap flush_outcomes].
  { by apply Steps.steps_ret. }
  cbn [fmap list_fmap fst snd] in *. apply Forall_cons in Hok as [Hp Hok].
  change (e :: ((fun x : Z * Open => x.2.2) <$> l)) with ([e] ++ ((fun x : Z * Open => x.2.2) <$> l)). eapply Steps.steps_bind.
  - cbn [flush_outcome]. destruct (lk_streams _ _ Hl _ _ _ _ Hin) as (_ & Ht & Hs). subst q.
    eapply complete_delivers; try done. apply Hl.
  - intros m c1 -> Hc1 Ht1. apply IH; [done|done|]. by eapply locked_traced.
Qed.

Lemma pend_list (opens : gmap Z Open) l x : l ≡ₚ map_to_list opens -> Forall entry_ok l ->
  on x ((fun y : Z * Open => y.2.2) <$> l) = pend opens x.
Proof.
  intros Hl Hok. set (g := fun y : Z * Open => if y.1 =? x then Some y.2.2 else None).
  assert (on x ((fun y : Z * Open => y.2.2) <$> l) = omap g l) as ->.
  { clear Hl. unfold on, g. induction Hok as [|[q [[[pes_ ra] p] e]] l [_ (k & prog & st & _ & Ha)] _ IH]; [done|]. cbn in *.
    rewrite (answers_pid _ _ _ _ _ _ Ha), IH. destruct (Z.eqb_spec q x) as [-> |Hne]; [by rewrite bool_decide_eq_true_2|].
    by rewrite bool_decide_eq_false_2 by congruence. }
  assert (omap g l ≡ₚ pend opens x) as Hp.
  { rewrite Hl. clear. induction opens as [|q o opens Hq IH] using map_ind; [by rewrite map_to_list_empty|].
    rewrite map_to_list_insert by done. cbn. unfold g at 1, pend at 1. cbn. rewrite lookup_insert.
    destruct (Z.eqb_spec q x) as [-> |Hne].
    - rewrite decide_True by done. cbn. rewrite IH. unfold pend. by rewrite Hq.
    - by rewrite decide_False. }
  unfold pend in *. destruct (opens !! x); [by apply Permutation_singleton_r in Hp|by apply Permutation_nil_r in Hp].
Qed.

Lemma flush_passes nx opens c : tracking nx opens c ->
  exists c' es, flush_core c = (c', Ok tt) /\ core_ok cfg c' /\ queue c' = queue c ++ es /\ forall x, on x es = pend opens x.
Proof.
  intros [Hr Hl Hs [Hparts Hopen]]. pose proof (co_pes _ _ (proj1 Hr)) as Hpes.
  assert (exists l, l ≡ₚ map_to_list opens /\ merge_sort by_key (map_to_list (by_pid (pes c))) = prod_map id partial_of <$> l) as (l & Hperm & Hsort).
  { destruct (Permutation_map_inv (prod_map id partial_of) (map_to_list opens) (l1 := merge_sort by_key (map_to_list (by_pid (pes c))))) as (l & Hl1 & Hl2).
    - rewrite merge_sort_Permutation, Hparts. by rewrite map_to_list_fmap.
    - exists l. split; [done|exact Hl1]. }
  assert (Forall entry_ok l) as Hok.
  { rewrite Hperm. apply Forall_forall. intros [q [[[pes_ ra] p] e]] Hin. apply elem_of_map_to_list in Hin.
    destruct (Hopen _ _ _ _ _ Hin) as (Hp & _ & k & prog & st & Hi & _ & Ha). split; [done|]. by exists k, prog, st. }
  assert (drain_partial_outcomes (E:=Empty_set) (pes c) = Ok (set_gaps (set_parts (pes c) ∅ 0) [], Complete <$> ((fun x => x.2.1.2) <$> l))) as Hdrain.
  { unfold drain_partial_outcomes. cbv zeta. rewrite Hsort. by rewrite finish_opens. }
  destruct (PesOutcomes.pes_drain_ok (E:=Empty_set) (pes c)) as (R & outs & Hd & Hinv & Hcaps & Houts);
    [apply Hpes|rewrite (ph_total _ _ Hpes); apply (pes_total_ok _ Hcfg)|].
  rewrite Hdrain in Hd. injection Hd as <- <-. set (R := set_gaps _ _) in *. set (c1 := set_pes c R).
  assert (core_ok cfg c1) as Hc1 by (apply Safe.ok_set_pes; [apply Hr|by eapply pes_same_caps]).
  assert (locked sv c1) as Hl1 by (destruct Hl; by split).
  destruct (flush_delivers l Hok (proj1 (Forall_fmap _ _ _) Houts) c1 Hc1 Hl1) as ([] & c2 & H2 & Hc2 & (_ & es & Hq & Hes) & _).
  exists (set_fatal c2 None), es. split_and!.
  - unfold flush_core. rewrite (bind_run _ _ c c (pes c)) by done. rewrite Hdrain, (bind_run _ _ c c (R, Complete <$> ((fun x => x.2.1.2) <$> l))) by done.
    cbn [fst snd]. rewrite (bind_run _ _ c c1 tt) by done. by rewrite (bind_run _ _ c1 c2 tt).
  - by apply (Safe.ok_frame cfg c2).
  - done.
  - intros x. rewrite <- on_deliveries, Hes. by apply pend_list.
Qed.

End flight.
End Flight.
