(* ===== verification/ServiceTables.v ===== *)
(** The tables of a well-formed multiplexer as a demuxer parses them: the
    service its PAT and PMTs announce. *)
From Stdlib Require Import ZArith Lia Bool String.
From stdpp Require Import base list list_numbers gmap.
From S2P Require Import Prelude.
From S2P Require Import Common.
From S2P Require Import TsPacket.
From S2P Require Import PesDemux.
From S2P Require Import PsiParse.
From S2P Require Import PsiAssembly.
From S2P Require Import PsiWriter.
From S2P Require Import Descriptors.
From S2P Require Import Muxer.
From S2P Require Import MuxerConfig.
From S2P Require Import ConfigTheorems.
From S2P Require Import MuxerTheorems.
From S2P Require Import MuxerSession.
From S2P Require Import MuxerWf.
From S2P Require Import DemuxTypes.
From S2P Require Import DemuxReceive.
From S2P Require Import DemuxAcquire.

Module Tables.
Import Common PsiParse PsiTheorems PsiWriter PsiLayout PatRoundtrip PmtRoundtrip PsiWriterTheorems PmtClassify MuxTypes MuxState MuxHandles MuxSchedule MuxDescriptors
  ValidConfig Announced ConfigTheorems MuxInv Wire Preamble MuxWf Moves Items Acquire.

(** The caller's descriptors are well-formed and leave the format of a stream
    to the configuration. *)
Definition described (p : MuxerProgramConfig) : Prop := exists pds caller,
  MuxTypes.program_descriptors p = map encode_descriptor pds /\ Forall descriptor_ok pds /\
  MuxTypes.stream_descriptors p = map (map encode_descriptor) caller /\ Forall2 plain (MuxTypes.streams p) caller.

(** A configured stream as the demuxer files it. *)
Definition filed (p : MuxerProgramConfig) (s : StreamSpec) : Z * StreamKind * Z * Z :=
  (spec_pid s, configured_kind s, MuxTypes.program_number p, pmt_stream_type_byte s).

(** The PMT of a program, on its PID. *)
Record announces_program (p : MuxerProgramConfig) (x : Z * list Z * Pmt) : Prop := {
  an_pid : x.1.1 = MuxTypes.pmt_pid p;
  an_framed : PsiAssemblerTheorems.framed x.1.2 /\ zlen x.1.2 <= 183 /\ parse_pmt x.1.2 = Ok x.2;
  an_number : number_of x = MuxTypes.program_number p;
  an_streams : streams_of x = filed p <$> MuxTypes.streams p;
}.

Lemma pmt_table s prog : slot_wf s -> live s = Some prog -> described prog ->
  exists x, pmt_item s = Some (table_of x) /\ announces_program prog x.
Proof.
  intros Hs Hl (pds & caller & Hpd & Hpo & Hsd & Hpl). destruct (wf_program s Hs prog Hl) as [Hv Ht].
  destruct (cache_ok prog (pv_parallel prog Hv)) as (cache & Hca & Hf & Hlen). specialize (Hca Empty_set). rewrite (wf_cache s Hs prog Hl) in Hca. injection Hca as <-.
  destruct (resolve_ok prog Hv) as (pcr & Hr & Hu & _). pose proof (wf_pcr s Hs prog Hl) as Hpcr. rewrite Hr in Hpcr. injection Hpcr as ->.
  pose proof (Forall2_length _ _ _ Hpl) as Hlc. rewrite Hsd in Hf.
  pose proof (cached_entries _ _ _ (pt_streams prog Ht) (eq_sym Hlc) Hf) as Hent.
  set (xs := zip_with announced_stream (MuxTypes.streams prog) caller) in *.
  destruct (pv_size prog Hv) as (cache' & es & Hb & He & Hz). rewrite (wf_cache s Hs prog Hl) in Hb. injection Hb as <-.
  pose proof He as He'. rewrite pmt_entries_zip in He' by done. injection He' as <-. rewrite Hent in *.
  assert (Hok : pmt_ok prog (MuxState.pcr_pid s) pds xs).
  { split; [apply Ht|unfold user_pid in Hu; lia|by rewrite Hpd|done|by apply announced_ok]. }
  pose proof (wf_version s Hs) as Hver.
  set (section := sealed (pmt_body prog (MuxState.pcr_pid s) (map entry_of xs) (pmt_version s))).
  assert (parse_pmt section = Ok {| pmt_program_number := MuxTypes.program_number prog; PsiParse.pmt_version := pmt_version s mod 32;
    pmt_current_next := true; PsiParse.pcr_pid := MuxState.pcr_pid s; PsiParse.program_descriptors := pds; PsiParse.streams := xs |}) as Hp
    by (apply parse_pmt_sealed; [done|lia|lia]).
  eexists (MuxTypes.pmt_pid prog, section, _). split; [unfold pmt_item; rewrite Hl, He; reflexivity|]. split; cbn [fst snd].
  - done.
  - split; [|split; [|exact Hp]].
    + eapply well_framed_framed, pmt_checked; [exact Hok|lia|lia].
    + unfold section. rewrite zlen_sealed, zlen_pmt_body. unfold pmt_size in Hz. lia.
  - done.
  - unfold streams_of. cbn [snd PsiParse.streams]. apply list_eq. intros i. rewrite !list_lookup_fmap.
    destruct (MuxTypes.streams prog !! i) as [sp|] eqn:Hi.
    + pose proof (Forall2_lookup_l _ _ _ _ _ Hpl Hi) as (ds & Hds & Hplain).
      assert (xs !! i = Some (announced_stream sp ds)) as -> by (unfold xs; by rewrite lookup_zip_with, Hi, Hds).
      cbn [fmap option_fmap option_map]. f_equal. unfold filed, number_of. cbn [announced_stream elementary_pid PsiParse.stream_type snd pmt_program_number].
      f_equal. f_equal. f_equal. unfold kind_of. cbn [announced_stream PsiParse.stream_type descriptors]. rewrite announced_kind; [done| |].
      * pose proof (pt_streams prog Ht) as Hst. rewrite Forall_lookup in Hst. by apply (Hst i).
      * destruct sp as [| | | |pid t k]; try done. cbn [undisputed]. apply (pv_data prog Hv i pid t k ds Hi). by rewrite Hsd, list_lookup_fmap, Hds.
    + assert (xs !! i = None) as ->; [|done]. unfold xs. by rewrite lookup_zip_with, Hi.
Qed.

Lemma pmt_tables ss : Forall slot_wf ss -> Forall described (live_programs ss) ->
  exists l, omap pmt_item ss = table_of <$> l /\ Forall2 announces_program (live_programs ss) l.
Proof.
  unfold live_programs. induction 1 as [|s ss Hs _ IH]; intros Hd; [by exists []|]. cbn [omap list_omap] in *.
  destruct (live s) as [prog|] eqn:Hl.
  - apply Forall_cons in Hd as [Hp Hd]. destruct (IH Hd) as (l & Hi & Hf). destruct (pmt_table s prog Hs Hl Hp) as (x & Hx & Ha).
    exists (x :: l). rewrite Hx, Hi. split; [done|by constructor].
  - destruct (IH Hd) as (l & Hi & Hf). exists l. unfold pmt_item at 1. by rewrite Hl.
Qed.

Lemma section_of_pat s pat : parse_pat s = Ok pat -> exists ps, parse_pat_section s = Ok ps /\ ps_last_section_number ps = 0 /\
  ps_programs ps = pat_programs pat.
Proof.
  unfold parse_pat. intros (ps & Hp & H)%rbind_ok. exists ps. destruct (Z.eqb_spec (ps_last_section_number ps) 0) as [H0|H0]; [|done].
  injection H as <-. done.
Qed.

Lemma pids_streams x : pids_of x = (fun s => s.1.1.1) <$> streams_of x.
Proof. unfold pids_of, streams_of. by rewrite <- list_fmap_compose. Qed.

(** The streams of all programs, as the demuxer files them. *)
Definition filed_all (ps : list MuxerProgramConfig) : list (Z * StreamKind * Z * Z) := flat_map (fun p => filed p <$> MuxTypes.streams p) ps.

Lemma announced_lists ps l : Forall2 announces_program ps l ->
  number_of <$> l = map MuxTypes.program_number ps /\ flat_map pids_of l = flat_map stream_pids ps /\ flat_map streams_of l = filed_all ps.
Proof.
  unfold filed_all. induction 1 as [|p x ps l Hx _ (IH1 & IH2 & IH3)]; [done|]. cbn [fmap list_fmap map flat_map].
  split_and!; [by rewrite (an_number _ _ Hx), IH1| |by rewrite (an_streams _ _ Hx), IH3].
  rewrite pids_streams, (an_streams _ _ Hx), IH2. f_equal. unfold stream_pids. by rewrite <- list_fmap_compose.
Qed.

Lemma filed_pids ps : map (fun s => s.1.1.1) (filed_all ps) = flat_map stream_pids ps.
Proof.
  unfold filed_all. induction ps as [|p ps IH]; [done|]. cbn [flat_map]. rewrite map_app, IH. f_equal. unfold stream_pids.
  by rewrite map_map.
Qed.

Lemma stream_blocks ps : NoDup (flat_map program_pids ps) -> NoDup (flat_map stream_pids ps) /\
  forall p p' q, p ∈ ps -> p' ∈ ps -> q ∈ stream_pids p -> MuxTypes.pmt_pid p' <> q.
Proof.
  intros Hnd. split.
  - apply Blocks.NoDup_blocks in Hnd as [H1 H2]. apply Blocks.NoDup_blocks. split.
    + eapply Forall_impl; [exact H1|]. intros p Hp. by apply NoDup_cons in Hp as [_ Hp].
    + clear H1. induction H2 as [|p ps Hp _ IH]; constructor; [|done]. eapply Forall_impl; [exact Hp|]. intros p' Hd. unfold program_pids in Hd. set_solver.
  - intros p p' q Hp Hp' Hq He. assert (p = p') as -> by (apply (blocks_unique program_pids ps p p' q); [done|done|done|by right|rewrite <- He; constructor]).
    apply Blocks.NoDup_blocks in Hnd as [H1 _]. rewrite Forall_forall in H1. apply H1 in Hp. apply NoDup_cons in Hp as [Hp _]. congruence.
Qed.

Lemma live_valid m p : mux_wf m -> p ∈ live_programs (slots m) -> program_valid p /\ program_typed p.
Proof.
  intros Hm (s & Hs & Hl)%list_elem_of_omap. pose proof (wf_slots m Hm) as Hf. rewrite Forall_forall in Hf. by apply (wf_program s (Hf s Hs)).
Qed.

(** The service of a well-formed muxer. *)
Lemma mux_service m : mux_wf m -> Forall described (live_programs (slots m)) ->
  exists sv, psi_items m = Table 0 (sv_pat sv) :: (table_of <$> sv_pmts sv) /\ service_ok sv /\ service_listed sv /\ NoDup (sv_pmts sv) /\
    sv_streams sv = filed_all (live_programs (slots m)) /\ NoDup (map (fun s => s.1.1.1) (sv_streams sv)).
Proof.
  intros Hm Hd. pose proof (mux_wf_ok m Hm) as Hok. destruct (pmt_tables (slots m) (wf_slots m Hm) Hd) as (l & Hl & Hf).
  destruct (announced_lists _ _ Hf) as (Hnum & Hpids & Hstr). destruct (stream_blocks _ (wf_pids m Hm)) as [Hnd Hap].
  pose proof (pat_items_len m Hok) as Hz. set (section := sealed (pat_body (pat_entries m) (pat_version m))).
  destruct (section_of_pat section _ (parse_pat_sealed _ _ (proj1 (wf_pat_version m Hm)) (entries_ok m Hok) ltac:(lia))) as (ps & Hps & Hlast & Hprogs).
  cbn [pat_programs] in Hprogs. rewrite pat_entries_programs, map_map in Hprogs. cbn in Hprogs.
  assert (forall x, x ∈ l -> exists p, p ∈ live_programs (slots m) /\ announces_program p x) as Hx.
  { intros x (i & Hi)%list_elem_of_lookup. destruct (Forall2_lookup_r _ _ _ _ _ Hf Hi) as (p & Hp & Ha). exists p. split; [by eapply list_elem_of_lookup_2|done]. }
  exists {| sv_pat := section; sv_parsed := ps; sv_pmts := l; sv_streams := filed_all (live_programs (slots m)) |}.
  cbn [sv_pat sv_parsed sv_pmts sv_streams]. split; [by unfold psi_items; rewrite Hl|]. split; [|split; [|split; [|split; [done|by rewrite filed_pids]]]].
  - split; cbn [sv_pat sv_parsed sv_pmts sv_streams].
    + split; [apply pat_framed; [apply Hok|lia]|]. split; [|done]. unfold section. rewrite zlen_sealed, zlen_pat_body. lia.
    + done.
    + intros p s pmt (prog & Hp & [Hpid (H1 & H2 & H3) _ _])%Hx. cbn in *. destruct (live_valid m prog Hm Hp) as [Hv _].
      pose proof (pv_pmt prog Hv) as Hu. unfold user_pid, PID_NULL in *. subst p. split_and!; try done; lia.
    + intros q k n st. unfold filed_all. rewrite list_elem_of_In, in_flat_map. intros (p & Hp%list_elem_of_In & Hs%list_elem_of_In).
      apply list_elem_of_fmap in Hs as (sp & [= -> -> -> ->] & Hsp). destruct (live_valid m p Hm Hp) as [Hv _].
      pose proof (spec_user p sp Hv Hsp) as Hu. unfold user_pid, PID_NULL in *. split_and!; lia.
  - split; cbn [sv_pat sv_parsed sv_pmts sv_streams]; rewrite ?Hprogs.
    + rewrite <- list_fmap_compose. apply (wf_numbers m Hm).
    + apply Forall_map, Forall_forall. intros p Hp. cbn. by apply (live_valid m p Hm Hp).
    + intros x (p & Hp & Ha)%Hx. eexists. split; [by apply list_elem_of_fmap_2|]. cbn. by rewrite (an_number _ _ Ha), (an_pid _ _ Ha).
    + rewrite Hnum. apply Hm.
    + by rewrite Hpids.
    + by rewrite Hstr.
    + intros q e. rewrite Hpids, list_elem_of_In, in_flat_map. intros (p & Hp%list_elem_of_In & Hq%list_elem_of_In) He.
      apply list_elem_of_fmap in He as (p' & -> & Hp'). cbn. by apply (Hap p).
  - apply (NoDup_fmap_1 number_of). rewrite Hnum. apply Hm.
Qed.

End Tables.
