(* ===== verification/Broadcast.v ===== *)
(** What a demuxer delivers of a multiplexer's session. *)
From Stdlib Require Import ZArith Lia Bool String.
From stdpp Require Import base list list_numbers gmap.
From S2P Require Import Prelude.
From S2P Require Import Common.
From S2P Require Import TsPacket.
From S2P Require Import PesWriter.
From S2P Require Import PesDemux.
From S2P Require Import PsiParse.
From S2P Require Import PsiAssembly.
From S2P Require Import PsiWriter.
From S2P Require Import Descriptors.
From S2P Require Import AuCell.
From S2P Require Import Muxer.
From S2P Require Import MuxerConfig.
From S2P Require Import ConfigTheorems.
From S2P Require Import MuxerTheorems.
From S2P Require Import MuxerHandlers.
From S2P Require Import MuxerSession.
From S2P Require Import MuxerWf.
From S2P Require Import MuxerBuild.
From S2P Require Import MuxerLife.
From S2P Require Import Ingress.
From S2P Require Import DemuxTypes.
From S2P Require Import DemuxState.
From S2P Require Import DemuxPayload.
From S2P Require Import DemuxPes.
From S2P Require Import DemuxLedger.
From S2P Require Import Demuxer.
From S2P Require Import DemuxSafe.
From S2P Require Import DemuxerTheorems.
From S2P Require Import DemuxTrace.
From S2P Require Import DemuxReceive.
From S2P Require Import DemuxAcquire.
From S2P Require Import EndToEnd.
From S2P Require Import ServiceTables.

(** * The stream a push goes to *)
Module Addressed.
Import Common PesWriter PesParse Chunks PmtClassify MuxTypes PsiWriter MuxState MuxHandles MuxPush HandlePack ValidConfig ConfigTheorems Announced MuxInv Handlers Session MuxWf
  SlotView Payload DemuxEvent DemuxConfig Trace Deliver Flight Tables.

(** A stream a handle names is configured in a live program. *)
Lemma looked_up {A} m (streams : ProgramSlot -> list (option A)) (f : A -> StreamState) k i w a : mux_wf m ->
  (forall s, kind_vec s k = wrap f (streams s)) -> lookup_stream (slots m) streams i w = Some a ->
  exists prog spec, prog ∈ live_programs (slots m) /\ spec ∈ MuxTypes.streams prog /\ state_of spec = f a.
Proof.
  intros Hm Hk. unfold lookup_stream. destruct (get (slots m) i) as [s|] eqn:Hs; [|done].
  destruct (get (streams s) w) as [[x|]|] eqn:Hg; [|done..]. intros [= ->].
  pose proof (wf_slots m Hm) as Hf. rewrite Forall_forall in Hf. pose proof (get_elem _ _ _ Hs) as Hin.
  destruct (wf_entry s (Hf s Hin) k w (f a)) as (prog & spec & Hl & Hsp & Hst & _).
  { unfold entry. rewrite Hk, get_wrap, Hg. done. }
  exists prog, spec. split; [by eapply live_in|]. done.
Qed.

(** The format of the stream, by the operation. *)
Definition of_kind (m : Muxer) (o : push_op) (spec : StreamSpec) (p : PesPayload) : Prop :=
  match o with
  | OpVideo _ _ _ _ _ _ => exists c, configured_kind spec = KVideo c
  | OpKlv h b _ msid =>
      (configured_kind spec = KlvAsync /\ payload p = b /\ exists k,
         lookup_stream (slots m) klv (unpack h).1 (unpack h).2 = Some k /\ klv_stream_type k = PrivateData) \/
      (configured_kind spec = KlvSync None /\ payload p = AuCellTheorems.cell (klv_header msid) b)
  | OpAudio _ _ _ => exists c, configured_kind spec = KAudio c
  | OpSubtitle _ _ _ => exists c, configured_kind spec = KSubtitle c
  | OpData _ _ _ => exists t, configured_kind spec = PmtClassify.Unknown t
  end.

Lemma promised_spec m o q p : mux_wf m -> promised m o q p -> exists prog spec,
  prog ∈ live_programs (slots m) /\ spec ∈ MuxTypes.streams prog /\ spec_pid spec = q /\ PesParse.pid p = q /\ of_kind m o spec p.
Proof.
  intros Hm. destruct o as [h nal f t key form|h b t msid|h t b|h t b|h b t]; cbn [promised of_kind].
  - intros (v & body & Hl & -> & _ & ->). destruct (looked_up m video SVideo KindVideo _ _ v Hm (fun _ => eq_refl) Hl) as (prog & spec & Hp & Hs & He).
    exists prog, spec. destruct spec; try done. injection He as <-. split_and!; try done. by eexists.
  - intros (k & Hl & -> & ->). destruct (looked_up m klv SKlv KindKlv _ _ k Hm (fun _ => eq_refl) Hl) as (prog & spec & Hp & Hs & He).
    exists prog, spec. destruct spec as [|? kt ? | | |]; try done. injection He as <-. split_and!; try done. cbn. destruct kt; [left; by eauto|by right].
  - intros (a & Hl & -> & ->). destruct (looked_up m audio SAudio KindAudio _ _ a Hm (fun _ => eq_refl) Hl) as (prog & spec & Hp & Hs & He).
    exists prog, spec. destruct spec; try done. injection He as <-. split_and!; try done. by eexists.
  - intros (d & body & Hl & -> & _ & ->). destruct (looked_up m subtitle SSubtitle KindSubtitle _ _ d Hm (fun _ => eq_refl) Hl) as (prog & spec & Hp & Hs & He).
    exists prog, spec. destruct spec; try done. injection He as <-. split_and!; try done. by eexists.
  - intros (d & Hl & -> & ->). destruct (looked_up m data SData KindData _ _ d Hm (fun _ => eq_refl) Hl) as (prog & spec & Hp & Hs & He).
    exists prog, spec. destruct spec; try done. injection He as <-. split_and!; try done. by eexists.
Qed.

(** ** What is delivered of it *)

Lemma payload_room q pes ra p : bytes pes -> parse_complete q pes ra = Ok (Some p) -> zlen (payload p) + 6 <= zlen pes.
Proof.
  intros Hb. unfold parse_complete. destruct (Z.ltb_spec (zlen pes) 6) as [|Hl]; [done|].
  intros (b0 & _ & (b1 & _ & (b2 & _ & H)%rbind_ok)%rbind_ok)%rbind_ok. destruct (_ || _ || _); [done|].
  apply rbind_ok in H as (sid & _ & (oh & Hoh & (body & Hs & [= <-])%rbind_ok)%rbind_ok). cbn [payload].
  assert (6 <= oh_body_off oh) as Ho.
  { destruct (has_optional_header sid); [|by injection Hoh as <-]. unfold parse_optional_header in Hoh.
    destruct (zlen pes <? 9); [done|]. apply rbind_ok in Hoh as (b6 & _ & H). cbv zeta in H. apply rbind_ok in H as (b7 & _ & H).
    cbv zeta in H. apply rbind_ok in H as (b8 & H8 & H). cbv zeta in H. destruct (zlen pes <? 9 + b8); [done|].
    apply rbind_ok in H as ([ts is_] & _ & H). apply rbind_ok in H as ([ts' is_'] & _ & H). injection H as <-. cbn.
    apply idx_Ok in H8. pose proof (bytes_get _ _ _ Hb H8) as H9. unfold byte in H9. lia. }
  unfold slice in Hs. destruct ((0 <=? oh_body_off oh) && (oh_body_off oh <=? zlen pes) && (zlen pes <=? zlen pes)) eqn:Hc; [|done].
  b2p. injection Hs as <-. rewrite zlen_ztake by (rewrite zlen_zdrop by lia; lia). lia.
Qed.

(** A record on a private stream starts with a universal label. *)
Definition labelled (m : Muxer) (o : push_op) : Prop :=
  match o with
  | OpKlv h b _ _ => forall k, lookup_stream (slots m) klv (unpack h).1 (unpack h).2 = Some k -> klv_stream_type k = PrivateData ->
      16 <= zlen b /\ ztake 4 b = [0x06; 0x0E; 0x2B; 0x34]
  | _ => True
  end.

Lemma cell_classified msid b : zlen b <= 65535 -> let c := AuCellTheorems.cell (klv_header msid) b in
  classify_klv (E:=Empty_set) c = Ok ShapeSync /\ iter_au_cells_with_end (E:=Empty_set) c = Ok [inl (klv_header msid, b, zlen c)].
Proof.
  intros Hb c. pose proof (zlen_nonneg b) as H0.
  assert (zlen c = 5 + zlen b) as Hz by (unfold c, AuCellTheorems.cell, AuCellTheorems.header_bytes, be16; by rewrite zlen_app, !zlen_cons, zlen_app; rewrite ?zlen_cons; cbn; unfold zlen; cbn; lia).
  pose proof (AuCellTheorems.read_cell (klv_header msid) b [] Hb) as Hr. rewrite app_nil_r in Hr. fold c in Hr. split.
  - unfold classify_klv. rewrite (bool_decide_eq_false_2 (ztake 4 c = _)), andb_false_r by (unfold c; intros [=]).
    rewrite (proj2 (Z.leb_le _ _)) by lia. by rewrite Hr.
  - unfold iter_au_cells_with_end. destruct (length c) as [|fuel] eqn:Hl; [unfold zlen in Hz; lia|]. cbn [au_cells_from].
    rewrite (proj2 (Z.leb_gt _ _)) by lia. rewrite zdrop_0, Hr. cbv zeta.
    assert (au_cells_from (E:=Empty_set) fuel c (0 + (5 + zlen b)) = Ok []) as ->.
    { destruct fuel; cbn [au_cells_from]; by rewrite (proj2 (Z.leb_le _ _)) by lia. }
    rb. by rewrite Hz, Z.add_0_l.
Qed.

(** Every push has its event. *)
Lemma push_delivered cfg m o spec p prog st : of_kind m o spec p -> labelled m o -> zlen (payload p) <= 65535 ->
  exists e, delivery cfg (configured_kind spec) prog st p = Some e.
Proof.
  destruct o as [h nal f t key form|h b t msid|h t b|h t b|h b t]; cbn [of_kind labelled].
  1,3,4,5: intros (c & ->) _ _; by eexists.
  intros [(-> & Hp & k & Hk & Ht)|(-> & Hp)] Hl Hz; unfold delivery; rewrite Hp in *.
  - destruct (Hl k Hk Ht) as [H16 Hul]. unfold classify_klv. rewrite (proj2 (Z.leb_le _ _)) by lia. rewrite bool_decide_eq_true_2 by done. by eexists.
  - destruct (cell_classified msid b) as [-> ->].
    { unfold AuCellTheorems.cell in Hz. rewrite !zlen_app in Hz. pose proof (zlen_nonneg (be16 (zlen b))). 
      pose proof (zlen_nonneg (AuCellTheorems.header_bytes (klv_header msid))). lia. }
    rewrite bool_decide_eq_true_2 by done. by eexists.
Qed.

Lemma video_bounded m o spec p : of_kind m o spec p -> is_video (configured_kind spec) = negb (bounded o).
Proof.
  destruct o; cbn [of_kind bounded negb]; [by intros (c & ->)|by intros [(-> & _)|(-> & _)]|by intros (c & ->)..].
Qed.

End Addressed.

(** * From the pushes to the events *)
Module Broadcast.
Import Common TsWriter TsCounters PesWriter PesParse Chunks PmtClassify MuxTypes PsiWriter MuxState MuxHandles MuxSchedule MuxPush ValidConfig ConfigTheorems
  Announced MuxInv Wire Preamble Reserve Transmit Handlers Session MuxWf Abstract IngressTheorems Payload DemuxEvent Strict DemuxConfig Core Lookup CoreInv DemuxerInv Demuxer DemuxApi
  DemuxerTheorems Trace Deliver Moves Items Acquire Flight Tables Addressed.

(** The event of a logged push: none if it failed, else what the promised PES
    is delivered as on the stream it went to. *)
Definition heard (cfg : DemuxerConfig) (m : Muxer) (e : push_op * res MuxError unit) (ev : option (Z * DemuxEvent)) : Prop :=
  match e.2 with
  | Ok _ => exists q p prog spec d, promised m e.1 q p /\ prog ∈ live_programs (slots m) /\ spec ∈ MuxTypes.streams prog /\ spec_pid spec = q /\
      delivery cfg (configured_kind spec) (MuxTypes.program_number prog) (pmt_stream_type_byte spec) p = Some d /\ ev = Some (q, d)
  | _ => ev = None
  end.

(** An operation as the API types it, whose PES fits [n] bytes and whose
    metadata can be told from cells. *)
Definition fits (m : Muxer) (n : Z) (o : push_op) : Prop :=
  typed o /\ labelled m o /\ forall q p, promised m o q p -> bounded o = false -> 19 + zlen (payload p) <= n.

Section broadcast.
Context (cfg : DemuxerConfig) (Hcfg : config_ok cfg) (Hoff : strict cfg = Off) (Hov : stream_kind_overrides cfg = ∅) {HO : HashOrder}
  (debug : NonConformantIssue -> string).
Context (m : Muxer) (Hm : mux_wf m) (n : Z) (Hn : 65541 <= n).
Context (sv : Service) (Hsv : service_ok sv) (Hpsi : psi_items m = Table 0 (sv_pat sv) :: (table_of <$> sv_pmts sv))
  (Hstr : sv_streams sv = filed_all (live_programs (slots m))).

Lemma filed_in prog spec : prog ∈ live_programs (slots m) -> spec ∈ MuxTypes.streams prog -> filed prog spec ∈ sv_streams sv.
Proof.
  intros Hp Hs. rewrite Hstr. unfold filed_all. apply list_elem_of_In, in_flat_map. exists prog. rewrite <- !list_elem_of_In.
  split; [done|by apply list_elem_of_fmap_2].
Qed.

Lemma psi_overhead i : i ∈ psi_items m -> overhead_item sv i.
Proof.
  rewrite Hpsi. intros [-> |Hi]%elem_of_cons; [by left|]. apply list_elem_of_fmap in Hi as ([[p s] pmt] & -> & Hi). right. by exists pmt.
Qed.

Lemma clock_overhead s q v : s ∈ slots m -> q ∈ slot_pids s -> overhead_item sv (Clock (MuxState.pcr_pid s) v).
Proof.
  intros Hs Hq. pose proof (wf_slots m Hm) as Hf. rewrite Forall_forall in Hf. pose proof (Hf s Hs) as Hw.
  destruct (entry_spec s q Hw Hq) as (prog & spec & Hl & _ & _). destruct (wf_program s Hw prog Hl) as [Hv _].
  destruct (resolve_ok prog Hv) as (pcr & Hr & _ & sp & Hsp & <- & _). pose proof (wf_pcr s Hw prog Hl) as Hpcr. rewrite Hr in Hpcr. injection Hpcr as <-.
  pose proof (filed_in prog sp (live_in _ s prog Hs Hl) Hsp) as Hin. unfold filed in Hin. cbn [overhead_item]. eauto.
Qed.

Lemma overhead_says is_ : Forall (overhead_item sv) is_ -> Forall2 (says cfg sv n) is_ (replicate (length is_) None).
Proof. induction 1 as [|i is_ Hi _ IH]; [constructor|]. cbn. constructor; [|done]. by destruct i. Qed.

Lemma events_none x k : events_of x (replicate k None) = [].
Proof. induction k; [done|]. done. Qed.

Lemma events_app x a b : events_of x (a ++ b) = events_of x a ++ events_of x b.
Proof. unfold events_of. apply omap_app. Qed.

Lemma preamble_overhead s q due pre : s ∈ slots m -> q ∈ slot_pids s -> preamble m (MuxState.pcr_pid s) due pre -> Forall (overhead_item sv) pre.
Proof.
  intros Hs Hq (clocks & -> & Hc). apply Forall_app. split.
  - destruct due; [|constructor]. apply Forall_forall. apply psi_overhead.
  - eapply Forall_impl; [exact Hc|]. intros i (v & ->). by eapply clock_overhead.
Qed.

Lemma sends_says e its : sends m e its -> fits m n e.1 ->
  exists os ev, Forall2 (says cfg sv n) its os /\ heard cfg m e ev /\ forall x, events_of x os = events_of x [ev].
Proof.
  unfold sends, heard. destruct e as [o r]. cbn [fst snd]. destruct r as [u|er|].
  2,3: intros -> _; exists [], None; split; [constructor|done].
  intros (q & p & pes & pre & af & due & s & Hq & Hp & Hc & Hs & Hqs & Hpre & _ & ->) (Hty & Hlab & Hfit).
  destruct (promised_spec m o q p Hm Hp) as (prog & spec & Hprog & Hspec & Hspid & Hpid & Hkind).
  pose proof (carried_bytes m o q pes _ p Hty Hp Hc) as Hb. unfold carried in Hc.
  assert (parse_complete q pes (TsWriter.random_access af) = Ok (Some p) /\ zlen pes <= n /\ (bounded o = true -> zlen pes <= 65541)) as (Hparse & Hz & Hz').
  { destruct (bounded o) eqn:Hbd; destruct Hc as (_ & H1 & H2 & _); split_and!; try done; [lia|specialize (Hfit q p Hp eq_refl); lia]. }
  assert (exists d, delivery cfg (configured_kind spec) (MuxTypes.program_number prog) (pmt_stream_type_byte spec) p = Some d) as (d & Hd).
  { destruct (bounded o) eqn:Hbd.
    - eapply push_delivered; [exact Hkind|done|]. pose proof (payload_room q pes _ p Hb Hparse). specialize (Hz' eq_refl). lia.
    - destruct o; [|done..]. destruct Hkind as (c & ->). by eexists. }
  exists (replicate (length pre) None ++ [Some (q, d)]), (Some (q, d)). split; [|split].
  - apply Forall2_app; [apply overhead_says; by eapply preamble_overhead|]. constructor; [|constructor].
    exists (configured_kind spec), (MuxTypes.program_number prog), (pmt_stream_type_byte spec), p, d.
    split; [done|]. split; [rewrite <- Hspid; by apply filed_in|]. split; [by split|]. split; [done|]. split; [done|].
    rewrite (video_bounded m o spec p Hkind). by destruct (bounded o).
  - exists q, p, prog, spec, d. by rewrite Hspid.
  - intros x. by rewrite events_app, events_none.
Qed.

Lemma log_says log itss : Forall2 (sends m) log itss -> Forall (fun e => fits m n e.1) log ->
  exists os evs, Forall2 (says cfg sv n) (concat itss) os /\ Forall2 (heard cfg m) log evs /\ forall x, events_of x os = events_of x evs.
Proof.
  induction 1 as [|e its log itss He _ IH]; intros Hf; [exists [], []; by split_and!|]. apply Forall_cons in Hf as [Hfe Hf].
  destruct (sends_says e its He Hfe) as (o1 & ev & H1 & H2 & H3). destruct (IH Hf) as (o2 & evs & H4 & H5 & H6).
  exists (o1 ++ o2), (ev :: evs). split; [by apply Forall2_app|]. split; [by constructor|]. intros x.
  rewrite events_app, H3, H6. change (ev :: evs) with ([ev] ++ evs). by rewrite events_app.
Qed.

(** ** The whole stream through a new demuxer *)

Context (Hlist : service_listed sv) (Hnd : NoDup (sv_pmts sv)) (Huniq : NoDup (sv_pids sv)) (Hroom : roomy cfg sv n).

Lemma fresh_tracks nx : in_range nx -> let tables := psi_items m in
  exists c, each (feed_packet debug) (fresh_core cfg) (render nx tables) = (c, Ok tt) /\ tracking cfg sv n (after nx tables) ∅ c /\
    forall x, on x (queue c) = [].
Proof.
  intros Hnx tables. unfold tables. rewrite Hpsi.
  assert (ready cfg (fresh_core cfg)) as Hr by (split; [by apply fresh_ok|done]).
  destruct (service_acquired cfg Hcfg Hov sv Hsv Hlist Hoff debug nx (fresh_core cfg)) as (c & He & (Hrc & Hs & Hp & es & Hq & Hes) & Hl);
    [done|apply fresh_blank|done|done|done|done|done|].
  exists c. split; [exact He|]. split.
  - split; try done. rewrite Hp. split; [done|]. intros q pes ra p e Hx. by rewrite lookup_empty in Hx.
  - intros x. rewrite Hq. cbn [queue fresh_core app]. rewrite <- on_deliveries, Hes. done.
Qed.

Lemma says_tables is_ os : Forall (fun i => match i with Table _ _ => True | _ => False end) is_ -> Forall2 (says cfg sv n) is_ os ->
  forall x, events_of x os = [].
Proof.
  intros Ht. revert os. induction Ht as [|i is_ Hi _ IH]; intros os Hf x; inversion Hf as [|? o ? os' Ho Hf']; subst; [done|].
  destruct i; try done. destruct Ho as [-> _]. by apply (IH os').
Qed.

Lemma psi_tables : Forall (fun i => match i with Table _ _ => True | _ => False end) (psi_items m).
Proof. rewrite Hpsi. constructor; [done|]. apply Forall_map, Forall_true. done. Qed.

Lemma fresh_flush : exists c, flush_core (fresh_core cfg) = (c, Ok tt) /\ queue c = [].
Proof.
  unfold flush_core. rewrite (bind_run _ _ (fresh_core cfg) (fresh_core cfg) (pes (fresh_core cfg))) by done.
  assert (exists R, Reassembler.drain_partial_outcomes (E:=Empty_set) (pes (fresh_core cfg)) = Ok (R, [])) as [R ->].
  { unfold Reassembler.drain_partial_outcomes. cbn. rewrite map_to_list_empty. cbn. by eexists. }
  by eexists.
Qed.

Lemma stream_passes nx is_ os : in_range nx -> Forall2 (says cfg sv n) is_ os -> is_ = [] \/ (exists rest, is_ = psi_items m ++ rest) ->
  exists c c', each (feed_packet debug) (fresh_core cfg) (render nx is_) = (c, Ok tt) /\ flush_core c = (c', Ok tt) /\
    forall x, on x (queue c') = events_of x os.
Proof.
  intros Hnx Hf [-> |(rest & ->)].
  - inversion Hf; subst. destruct fresh_flush as (c & Hc & Hq). exists (fresh_core cfg), c. split; [done|]. split; [done|]. by rewrite Hq.
  - apply Forall2_app_inv_l in Hf as (o1 & o2 & H1 & H2 & ->). destruct (fresh_tracks nx Hnx) as (c & He & Ht & Hq).
    destruct (items_pass cfg Hcfg Hoff debug sv Hsv n Huniq Hroom rest o2 H2 (after nx (psi_items m)) c ∅) as (c2 & opens & He2 & Ht2 & es & Hq2 & Hx);
      [by apply after_range|done|].
    destruct (flush_passes cfg Hcfg Hoff sv n _ opens c2 Ht2) as (c3 & es3 & H3 & _ & Hq3 & Hx3).
    exists c2, c3. split; [rewrite render_app; by rewrite (each_app _ _ _ _ _ He)|]. split; [done|]. intros x.
    rewrite Hq3, Hq2, !on_app, Hq, events_app, (says_tables _ _ psi_tables H1), Hx3. exact (Hx x).
Qed.

End broadcast.

Lemma layout_packet p pusi a pl cc : packet (TsLayout.layout p pusi a pl cc).
Proof. split; [apply TsLayout.layout_len|done]. Qed.

Lemma render_packets is_ : forall f, Forall packet (render f is_).
Proof.
  induction is_ as [|i is_ IH]; intros f; cbn [render]; [constructor|]. apply Forall_app. split; [|done].
  destruct i as [p s|p v|p af pes]; cbn [packets]; [constructor; [apply layout_packet|constructor]|constructor; [|constructor]|].
  - split; [|done]. pose proof (packets_188 f (Clock p v)) as H. by apply Forall_cons in H as [H _].
  - generalize true (f p). generalize (S (length pes)). intros k. revert pes. induction k as [|k IHk]; intros pes first cc; [constructor|].
    cbn [Packetize.packetize]. destruct pes as [|b l]; [constructor|]. constructor; [apply layout_packet|apply IHk].
Qed.

Lemma run_flush {HO : HashOrder} debug os : forall d c, flush_core (core (run debug d os).1.1) = (c, Ok tt) -> Forall (fun r => r = Ok tt) (run debug d os).2 ->
  core (run debug d (os ++ [OpFlush])).1.1 = c /\ Forall (fun r => r = Ok tt) (run debug d (os ++ [OpFlush])).2.
Proof.
  induction os as [|o os IH]; intros d c; cbn [run app].
  - intros Hf _. cbn [exec]. unfold flush. cbn in Hf. rewrite Hf. cbn. split; [done|by repeat constructor].
  - destruct (exec debug d o) as [[d1 out] r]. specialize (IH d1 c). destruct (run debug d1 os) as [[d2 outs] rs].
    destruct (run debug d1 (os ++ [OpFlush])) as [[d3 outs3] rs3]. cbn in *. intros Hf Ha. apply Forall_cons in Ha as [Hr Ha].
    destruct (IH Hf Ha) as [H1 H2]. split; [done|by constructor].
Qed.

(** C1: What is pushed comes out. Take a well-formed multiplexer whose queue is
    empty and whose tables are still to be sent, whose program descriptors are
    encoded descriptors and whose KLV and subtitle streams carry no format marker
    of the caller ([described]), and any session of pushes, pulls and PSI
    requests on it, of bytes, that keeps clear of the 64-bit counters ([room]),
    in which KLV on a private stream starts with a universal label and the PES of
    every unbounded video push fits [n] bytes ([fits]). Then the session, with no
    panic, gives bytes that a new lenient demuxer without stream-kind overrides,
    whose PES caps have room for [n] bytes, 65,541 or more, on one stream and on
    every stream at once, turns into
    exactly one sample or metadata event per push that succeeded and none for a
    push that was refused, in the order of the pushes on every PID: that of the
    stream the push was addressed to, with the program, kind, timestamps, key
    flag and payload the push gave. There is no other sample and no other metadata
    record; table events are not counted here. The bytes are fed in any chunks
    that leave 1,128 bytes of the sync cap free, and flushed at the end; every one
    of these calls succeeds. *)
Theorem broadcast_delivers {HO : HashOrder} (debug : NonConformantIssue -> string) (cfg : DemuxerConfig) (m : Muxer) (os : list Session.op) (n : Z) :
  mux_wf m -> MuxState.queue m = [] -> Forall (fun s => psi_last s = None) (slots m) -> Forall described (live_programs (slots m)) ->
  0 <= buffer_packets (config m) -> room m os -> Forall (fits m n) (pushes os) ->
  config_ok cfg -> strict cfg = Off -> stream_kind_overrides cfg = ∅ -> sync_cap cfg < u64_max ->
  65541 <= n <= pes_cap cfg -> n * zlen (filed_all (live_programs (slots m))) <= pes_total cfg ->
  exists m' w log evs, session (E:=Empty_set) m os = Ok (m', w, log) /\ map fst log = pushes os /\ Forall2 (heard cfg m) log evs /\
    forall chunks, concat chunks = w ++ concat (MuxState.queue m') -> Forall (fun x => zlen x <= sync_cap cfg - 1128) chunks ->
    let r := run debug (with_config cfg) ((OpFeed true <$> chunks) ++ [OpFlush]) in
    Forall (fun x => x = Ok tt) r.2 /\ forall q, on q (Core.queue (core r.1.1)) = events_of q evs.
Proof.
  intros Hm Hq Hnone Hdesc Hbuf Hroom Hfits Hcfg Hoff Hov Hcap [Hn Hn'] Htot.
  destruct (mux_service m Hm Hdesc) as (sv & Hpsi & Hsv & Hlist & Hnd & Hstr & Huniq).
  destruct (session_items (E:=Empty_set) os m (mux_wf_ok m Hm)) as (m' & w & log & itss & Hs & _ & _ & _ & Hcat & Hf & Hlog & Hopen);
    [by rewrite Hq| |done|].
  { apply Forall_forall. intros [o| |] Ho; [|done..]. rewrite Forall_forall in Hfits. apply (Hfits o). apply list_elem_of_omap. by exists (Push o). }
  destruct (log_says cfg m Hm n Hn sv Hpsi Hstr log itss Hf) as (oss & evs & Hsays & Hheard & Hev).
  { rewrite <- Hlog in Hfits. exact (proj1 (Forall_map _ _ _) Hfits). }
  exists m', w, log, evs. split; [done|]. split; [done|]. split; [done|]. intros chunks Hchunks Hsize.
  rewrite Hq in Hcat. cbn [concat app] in Hcat. rewrite <- Hcat in Hchunks.
  destruct (stream_passes cfg Hcfg Hoff Hov debug m n sv Hsv Hpsi Hlist Hnd Huniq) with (nx := cc_of (counters m)) (is_ := concat itss) (os := oss)
    as (c & c' & He & Hfl & Hx); [unfold roomy; rewrite Hstr; lia|apply counters_range, Hm|done|by apply Hopen|].
  destruct (feeds_recover (feed_packet debug) (sync_cap cfg) (fresh_core cfg) c [] (render (cc_of (counters m)) (concat itss)) chunks)
    as (g & Hfe & _); try done; [intros q Hq'; unfold zlen in Hq'; cbn in Hq'; lia|apply render_packets|by left|].
  destruct (run_chunks cfg debug chunks (with_config cfg) g c eq_refl Hfe) as [Hr1 Hr2].
  destruct (run_flush debug (OpFeed true <$> chunks) (with_config cfg) c') as [H1 H2]; [by rewrite Hr1|done|].
  cbv zeta. split; [done|]. intros q. rewrite H1, Hx. apply Hev.
Qed.

(** C2: One PSI tick is enough to tune in. Take a well-formed multiplexer whose
    program descriptors are encoded descriptors and whose KLV and subtitle streams
    carry no format marker of the caller ([described]). Fed its PAT and PMT
    packets, at whatever continuity counters, a new lenient demuxer that keeps raw
    timestamps ([config_ok]) and has no stream-kind overrides accepts every
    packet, delivers nothing yet, and knows every configured stream of every
    program by its PID: its kind and its program. *)
Theorem new_demuxer_tunes_in {HO : HashOrder} (debug : NonConformantIssue -> string) (cfg : DemuxerConfig) (m : Muxer) (nx : Z -> Z) :
  mux_wf m -> Forall described (live_programs (slots m)) -> in_range nx ->
  config_ok cfg -> strict cfg = Off -> stream_kind_overrides cfg = ∅ ->
  exists c, each (feed_packet debug) (fresh_core cfg) (render nx (psi_items m)) = (c, Ok tt) /\ deliveries (Core.queue c) = [] /\
    forall prog spec, prog ∈ live_programs (slots m) -> spec ∈ MuxTypes.streams prog ->
      stream_kind c (spec_pid spec) = Some (configured_kind spec) /\ program_number_for_pid c (spec_pid spec) = MuxTypes.program_number prog /\
      (spec_pid spec ∉ pmt_pids c).
Proof.
  intros Hm Hdesc Hnx Hcfg Hoff Hov. destruct (mux_service m Hm Hdesc) as (sv & Hpsi & Hsv & Hlist & Hnd & Hstr & _).
  destruct (service_acquired cfg Hcfg Hov sv Hsv Hlist Hoff debug nx (fresh_core cfg)) as (c & He & (_ & _ & _ & es & Hq & Hes) & Hl);
    [split; [by apply fresh_ok|done]|apply fresh_blank|done|done|done|done|done|].
  exists c. rewrite Hpsi. split; [exact He|]. split; [by rewrite Hq|]. intros prog spec Hp Hs.
  destruct (lk_streams _ _ Hl _ _ _ _ (filed_in m sv Hstr prog spec Hp Hs)) as (Hpmt & Ht & _).
  by destruct (tuned_kind _ _ _ _ _ Ht) as (-> & -> & _).
Qed.

(** ** The demonstration muxer on the air *)

Definition demo_ops : list Session.op :=
  [Push (OpVideo 0 [0; 0; 1; 9; 0x10] (PtsOnly 9000) 9000 true Elementary); Push (OpKlv 0 [1; 2] 9000 0); Pull (zrep 400 0); RequestPsi;
   Push (OpData 0 [1; 2; 3] 9000); Push (OpVideo 0 [0; 0; 1; 9; 0x30] (PtsOnly 12000) 12000 false Elementary)].

Lemma demo_muxer : exists m, MuxNew.new LifeWitnesses.demo_config = Ok m /\ mux_wf m /\ fresh LifeWitnesses.demo_config m /\
  Forall (fun s => psi_last s = None) (slots m) /\
  MuxHandles.lookup_stream (slots m) MuxState.video 0 0 = Some {| MuxState.video_pid := 0x100; video_codec := VideoH264 |} /\
  MuxHandles.lookup_stream (slots m) MuxState.klv 0 0 = Some {| klv_pid := 0x101; klv_stream_type := SynchronousMetadata; klv_carries_pts := true |} /\
  MuxHandles.lookup_stream (slots m) MuxState.data 0 0 = Some {| data_pid := 0x104; data_stream_type := 0xF0; data_carries_pts := false |}.
Proof.
  destruct (new_wf LifeWitnesses.demo_config) as (m & Hn & Hw & Hf); [apply validate_ok; by vm_compute|apply LifeWitnesses.demo_typed|].
  exists m. do 3 (split; [done|]). clear Hw Hf. vm_compute in Hn. injection Hn as <-. split; [by constructor|done].
Qed.

Lemma demo_fits m : config m = LifeWitnesses.demo_config ->
  MuxHandles.lookup_stream (slots m) MuxState.video 0 0 = Some {| MuxState.video_pid := 0x100; video_codec := VideoH264 |} ->
  MuxHandles.lookup_stream (slots m) MuxState.klv 0 0 = Some {| klv_pid := 0x101; klv_stream_type := SynchronousMetadata; klv_carries_pts := true |} ->
  Forall (fits m 70000) (pushes demo_ops).
Proof.
  intros Hc Hv Hk. cbn [pushes demo_ops omap list_omap].
  assert (forall nal f t key form body, bytes nal -> (forall b, video_payload Mpeg2TsBinding VideoH264 form nal = Ok b -> b = body) -> 19 + zlen body <= 70000 ->
    fits m 70000 (OpVideo 0 nal f t key form)) as Hvid.
  { intros nal f t key form body Hb Hpay Hz. split; [by split|]. split; [done|]. intros q p (v & b & Hl & _ & Hvp & ->) _.
    change (HandlePack.unpack 0) with (0, 0) in Hl. cbn [fst snd] in Hl. rewrite Hv in Hl. injection Hl as <-. rewrite Hc in Hvp. apply Hpay in Hvp as ->. exact Hz. }
  constructor; [eapply Hvid; [repeat constructor; lia|intros b Hb; vm_compute in Hb; by injection Hb as <-|by vm_compute]|].
  constructor; [split; [split; [repeat constructor; lia|cbn; unfold byte; lia]|split; [|done]]|].
  { intros k Hl. change (HandlePack.unpack 0) with (0, 0) in Hl. cbn [fst snd] in Hl. rewrite Hk in Hl. by injection Hl as <-. }
  constructor; [split; [split; [repeat constructor; lia|done]|by split]|].
  constructor; [eapply Hvid; [repeat constructor; lia|intros b Hb; vm_compute in Hb; by injection Hb as <-|by vm_compute]|constructor].
Qed.

Lemma demo_described : Forall described [demo_program].
Proof.
  constructor; [|constructor].
  exists [], [[]; []; []; []; [Announced.raw 0xFF [0x41]]]. split; [done|]. split; [constructor|]. split; [done|]. repeat constructor.
Qed.

Lemma broadcast_delivers_witness : exists m m' w log, MuxNew.new LifeWitnesses.demo_config = Ok m /\ session (E:=Empty_set) m demo_ops = Ok (m', w, log) /\
  forall chunks, concat chunks = w ++ concat (MuxState.queue m') -> Forall (fun x => zlen x <= 4000000) chunks ->
  let r := run (HO:=key_order) LedgerTheorems.no_text (with_config DemuxerConfig_default) ((OpFeed true <$> chunks) ++ [OpFlush]) in
  Forall (fun x => x = Ok tt) r.2 /\ zlen (on 0x100 (Core.queue (core r.1.1))) = 2 /\
  on 0x101 (Core.queue (core r.1.1)) =
    [EvMetadata {| sid_pid := 0x101; sid_kind := KlvSync None; sid_program_number := 1 |} 9000 (Emit.cell_kind (klv_header 0) false 1) [1; 2]].
Proof.
  destruct demo_muxer as (m & Hnew & Hw & [Hc Hq Hlive (Hp & Hb & _) Hst _] & Hnone & Hv & Hk & Hd).
  destruct (broadcast_delivers (HO:=key_order) LedgerTheorems.no_text DemuxerConfig_default m demo_ops 70000) as (m' & w & log & evs & Hs & Hlog & Hh & Hgo);
    [exact Hw|exact Hq|exact Hnone|rewrite Hlive; apply demo_described|by rewrite Hc| |by apply demo_fits|apply default_config_ok|done|done
    |by vm_compute|by vm_compute|by rewrite Hlive|].
  - split; rewrite ?Hc, ?Hp, ?Hb; [|by vm_compute..]. intros pid st Hx. destruct (Hst pid st Hx) as (-> & -> & _). by vm_compute.
  - exists m, m', w, log. do 2 (split; [done|]). intros chunks Hcat Hsize. destruct (Hgo chunks Hcat) as [Hok Hx].
    { eapply Forall_impl; [exact Hsize|]. intros x Hz. cbv beta in Hz. change (sync_cap DemuxerConfig_default) with 4194304. lia. }
    assert (Hcomp : match MuxNew.new LifeWitnesses.demo_config with
      | Ok m => match session (E:=Empty_set) m demo_ops with Ok (_, _, l) => l = map (fun o => (o, Ok tt)) (pushes demo_ops) | _ => False end
      | _ => False end) by (vm_compute; reflexivity).
    rewrite Hnew, Hs in Hcomp. subst log. cbn in Hh.
    inversion Hh as [|? e1 ? l1 H1 Hh1]; subst. inversion Hh1 as [|? e2 ? l2 H2 Hh2]; subst.
    inversion Hh2 as [|? e3 ? l3 H3 Hh3]; subst. inversion Hh3 as [|? e4 ? l4 H4 Hh4]; subst. inversion Hh4; subst.
    destruct H1 as (q1 & p1 & _ & _ & d1 & (v1 & b1 & Hl1 & -> & _) & _ & _ & _ & _ & ->).
    destruct H2 as (q2 & p2 & prog & spec & d2 & (k & Hl2 & -> & ->) & Hprog & Hspec & Hpid & Hd2 & ->).
    destruct H3 as (q3 & p3 & _ & _ & d3 & (v3 & Hl3 & -> & _) & _ & _ & _ & _ & ->).
    destruct H4 as (q4 & p4 & _ & _ & d4 & (v4 & b4 & Hl4 & -> & _) & _ & _ & _ & _ & ->).
    change (HandlePack.unpack 0) with (0, 0) in *. cbn [fst snd] in *. rewrite Hv in Hl1, Hl4. rewrite Hk in Hl2. rewrite Hd in Hl3.
    injection Hl1 as <-. injection Hl4 as <-. injection Hl2 as <-. injection Hl3 as <-.
    rewrite Hlive in Hprog. apply list_elem_of_singleton in Hprog as ->. cbn in Hpid. cbn [MuxTypes.streams demo_program] in Hspec.
    assert (spec = SpecKlv 0x101 SynchronousMetadata true) as ->.
    { rewrite !elem_of_cons, elem_of_nil in Hspec. destruct Hspec as [-> |[-> |[-> |[-> |[-> |[]]]]]]; try discriminate Hpid. done. }
    vm_compute in Hd2. injection Hd2 as <-. cbv zeta. split; [exact Hok|]. by rewrite !Hx.
Defined.

Lemma new_demuxer_tunes_in_witness : exists m c, MuxNew.new LifeWitnesses.demo_config = Ok m /\
  each (feed_packet (HO:=key_order) LedgerTheorems.no_text) (fresh_core DemuxerConfig_default) (render (fun _ => 0) (psi_items m)) = (c, Ok tt) /\
  stream_kind c 0x100 = Some (KVideo VideoH264) /\ program_number_for_pid c 0x104 = 1.
Proof.
  destruct demo_muxer as (m & Hnew & Hw & [_ _ Hlive _ _ _] & _).
  destruct (new_demuxer_tunes_in (HO:=key_order) LedgerTheorems.no_text DemuxerConfig_default m (fun _ => 0)) as (c & He & _ & Hall);
    [exact Hw|rewrite Hlive; apply demo_described|by intros q _|apply default_config_ok|done|done|].
  exists m, c. split; [done|]. split; [exact He|]. split.
  - apply (Hall demo_program (SpecVideo 0x100 VideoH264)); [rewrite Hlive; by apply list_elem_of_singleton|by apply (list_elem_of_lookup_2 _ 0)].
  - apply (Hall demo_program (SpecData 0x104 0xF0 false)); [rewrite Hlive; by apply list_elem_of_singleton|by apply (list_elem_of_lookup_2 _ 4)].
Defined.

End Broadcast.
