(* ===== verification/RtpPacket.v ===== *)
(** RTP packets ([crates/tst-rtp/src/packet.rs]) and the packetizers of H.264
    ([h264/packetizer.rs], RFC 6184) and H.265 ([h265/packetizer.rs], RFC 7798). *)
From Stdlib Require Import ZArith Lia Bool.
From stdpp Require Import base list list_numbers.
From S2P Require Import Prelude.

(** * The header *)
Module RtpPacket.

Definition RTP_HEADER_LEN : Z := 12.
Definition RTP_PT_MP2T : Z := 33.
Definition RTP_VERSION : Z := 2.

Record RtpHeader : Type := { seq : Z; timestamp : Z; ssrc : Z; marker : bool; payload_type : Z }.

Definition new (seq timestamp ssrc : Z) : RtpHeader :=
  {| seq := seq; timestamp := timestamp; ssrc := ssrc; marker := false; payload_type := RTP_PT_MP2T |}.

(** The buffer after the header went into its first twelve bytes. *)
Definition encode_into {E} (h : RtpHeader) (buf : list Z) : res E (list Z) :=
  assert! RTP_HEADER_LEN <=? zlen buf in
  let! buf := put buf 0 [Z.land (as_u8 (Z.shiftl RTP_VERSION 6)) 0xC0] in
  let! buf := put buf 1 [Z.lor (as_u8 (Z.shiftl (if marker h then 1 else 0) 7)) (Z.land (payload_type h) 0x7F)] in
  let! buf := put buf 2 (be16 (seq h)) in
  let! buf := put buf 4 (be32 (timestamp h)) in
  put buf 8 (be32 (ssrc h)).

Inductive RtpParseError : Type :=
| Truncated (got need : Z)
| UnsupportedVersion (v : Z).

Record Parsed : Type := { header : RtpHeader; payload_offset : Z; payload_end : Z }.

(** The extension header, when there is one: where the payload starts. *)
Definition skip_extension (buf : list Z) (x_bit after_csrc : Z) : res RtpParseError Z :=
  if x_bit =? 1 then
    let ext_header_end := after_csrc + 4 in
    if zlen buf <? ext_header_end then Err (Truncated (zlen buf) ext_header_end)
    else
      let! a := idx buf (after_csrc + 2) in
      let! b := idx buf (after_csrc + 3) in
      let ext_len_words := from_be16 a b in
      let ext_total := 4 + ext_len_words * 4 in
      let after_ext := after_csrc + ext_total in
      if zlen buf <? after_ext then Err (Truncated (zlen buf) after_ext) else Ok after_ext
  else Ok after_csrc.

(** The padding, when there is some: where the payload ends. *)
Definition trim_padding (buf : list Z) (p_bit payload_offset : Z) : res RtpParseError Z :=
  if p_bit =? 1 then
    if zlen buf <? payload_offset + 1 then Err (Truncated (zlen buf) (payload_offset + 1))
    else
      let! last := usub (zlen buf) 1 in
      let! pad := idx buf last in
      let! room := usub (zlen buf) payload_offset in
      if (pad =? 0) || (room <? pad) then Err (Truncated room (pad + 1))
      else usub (zlen buf) pad
  else Ok (zlen buf).

Definition decode (buf : list Z) : res RtpParseError Parsed :=
  if zlen buf <? RTP_HEADER_LEN then Err (Truncated (zlen buf) RTP_HEADER_LEN)
  else
    let! b0 := idx buf 0 in
    let v := Z.land (Z.shiftr b0 6) 0x03 in
    if negb (v =? RTP_VERSION) then Err (UnsupportedVersion v)
    else
      let x_bit := Z.land (Z.shiftr b0 4) 0x01 in
      let p_bit := Z.land (Z.shiftr b0 5) 0x01 in
      let cc := Z.land b0 0x0F in
      let! b1 := idx buf 1 in
      let marker := negb (Z.land b1 0x80 =? 0) in
      let pt := Z.land b1 0x7F in
      let after_csrc := RTP_HEADER_LEN + cc * 4 in
      if zlen buf <? after_csrc then Err (Truncated (zlen buf) after_csrc)
      else
        let! payload_offset := skip_extension buf x_bit after_csrc in
        let! payload_end := trim_padding buf p_bit payload_offset in
        let! b2 := idx buf 2 in let! b3 := idx buf 3 in
        let! b4 := idx buf 4 in let! b5 := idx buf 5 in let! b6 := idx buf 6 in let! b7 := idx buf 7 in
        let! b8 := idx buf 8 in let! b9 := idx buf 9 in let! b10 := idx buf 10 in let! b11 := idx buf 11 in
        Ok {| header := {| seq := from_be16 b2 b3; timestamp := from_be32 b4 b5 b6 b7; ssrc := from_be32 b8 b9 b10 b11;
                           marker := marker; payload_type := pt |};
              payload_offset := payload_offset; payload_end := payload_end |}.

Record Chunk : Type := { payload : list Z; chunk_marker : bool }.

End RtpPacket.

(** * Packetization *)
Module RtpPacketize.
Import RtpPacket.

(** [body.chunks(n)] for [n > 0]; the fuel is the length of the slice. *)
Fixpoint chunks_of {A} (fuel : nat) (n : Z) (l : list A) : list (list A) :=
  match fuel with
  | O => []
  | S fuel => match l with [] => [] | _ => ztake n l :: chunks_of fuel n (zdrop n l) end
  end.

Definition chunks {A} (n : Z) (l : list A) : list (list A) := chunks_of (length l) n l.

Definition div_ceil (a b : Z) : Z := (a + b - 1) / b.

(** The fragments of one NAL unit: [prefix] goes in front of each FU header. *)
Fixpoint fragments (prefix : list Z) (fu_type count i : Z) (parts : list (list Z)) : list Chunk :=
  match parts with
  | [] => []
  | part :: parts =>
      let fu_header := fu_type in
      let fu_header := if i =? 0 then Z.lor fu_header 0x80 else fu_header in
      let fu_header := if i + 1 =? count then Z.lor fu_header 0x40 else fu_header in
      {| payload := prefix ++ [fu_header] ++ part; chunk_marker := false |} :: fragments prefix fu_type count (i + 1) parts
  end.

(** [out.last_mut()] gets the marker. *)
Fixpoint mark_last (out : list Chunk) : list Chunk :=
  match out with
  | [] => []
  | [c] => [{| payload := payload c; chunk_marker := true |}]
  | c :: out => c :: mark_last out
  end.

Definition H264_MIN_MAX_PAYLOAD : Z := 3.
Definition H265_MIN_MAX_PAYLOAD : Z := 4.

(** One turn of the loop, for a non-empty NAL unit. *)
Definition h264_nal {E} (max_payload : Z) (nal : list Z) : res E (list Chunk) :=
  if zlen nal <=? max_payload then Ok [{| payload := nal; chunk_marker := false |}]
  else
    let! b0 := idx nal 0 in
    let indicator := Z.lor (Z.land b0 0xE0) 28 in
    let nal_type := Z.land b0 0x1F in
    let! body := slice nal 1 (zlen nal) in
    let! fragment := usub max_payload 2 in
    let count := div_ceil (zlen body) fragment in
    Ok (fragments [indicator] nal_type count 0 (chunks fragment body)).

Definition h265_nal {E} (max_payload : Z) (nal : list Z) : res E (list Chunk) :=
  if zlen nal <=? max_payload then Ok [{| payload := nal; chunk_marker := false |}]
  else
    let! b0 := idx nal 0 in
    let! b1 := idx nal 1 in
    let payload_hdr := [Z.lor (Z.land b0 0x81) (Z.shiftl 49 1); b1] in
    let fu_type := Z.land (Z.shiftr b0 1) 0x3F in
    let! body := slice nal 2 (zlen nal) in
    let! fragment := usub max_payload 3 in
    let count := div_ceil (zlen body) fragment in
    Ok (fragments payload_hdr fu_type count 0 (chunks fragment body)).

Fixpoint each_nal {E} (one : list Z -> res E (list Chunk)) (nals : list (list Z)) : res E (list Chunk) :=
  match nals with
  | [] => Ok []
  | [] :: nals => each_nal one nals
  | nal :: nals => let! cs := one nal in let! rest := each_nal one nals in Ok (cs ++ rest)
  end.

Definition h264_packetize {E} (nals : list (list Z)) (max_payload : Z) : res E (list Chunk) :=
  assert! H264_MIN_MAX_PAYLOAD <=? max_payload in
  let! out := each_nal (h264_nal max_payload) nals in Ok (mark_last out).

Definition h265_packetize {E} (nals : list (list Z)) (max_payload : Z) : res E (list Chunk) :=
  assert! H265_MIN_MAX_PAYLOAD <=? max_payload in
  let! out := each_nal (h265_nal max_payload) nals in Ok (mark_last out).

End RtpPacketize.

(** * What the header carries *)
Module RtpTheorems.
Import RtpPacket.

Definition header_typed (h : RtpHeader) : Prop :=
  0 <= seq h < 2 ^ 16 /\ 0 <= timestamp h < 2 ^ 32 /\ 0 <= ssrc h < 2 ^ 32 /\ 0 <= payload_type h < 128.

(** The twelve bytes of a header. *)
Definition header_bytes (h : RtpHeader) : list Z :=
  [0x80; (if marker h then 0x80 else 0) + payload_type h] ++ be16 (seq h) ++ be32 (timestamp h) ++ be32 (ssrc h).

Lemma pt_bits p : 0 <= p < 128 -> Z.land p 0x7F = p /\ Z.lor 128 p = 128 + p /\
  Z.land p 0x80 = 0 /\ Z.land (128 + p) 0x80 = 128 /\ Z.land (128 + p) 0x7F = p.
Proof.
  intros Hp. assert (forall k, In k (map Z.of_nat (List.seq 0 128)) -> Z.land k 0x7F = k /\ Z.lor 128 k = 128 + k /\
    Z.land k 0x80 = 0 /\ Z.land (128 + k) 0x80 = 128 /\ Z.land (128 + k) 0x7F = k) as H.
  { apply List.Forall_forall. vm_compute. repeat constructor. }
  apply H. rewrite <- (Z2Nat.id p) by lia. apply List.in_map, List.in_seq. lia.
Qed.

Lemma encode_into_ok {E} h buf : header_typed h -> 12 <= zlen buf -> encode_into (E:=E) h buf = Ok (header_bytes h ++ zdrop 12 buf).
Proof.
  intros (_ & _ & _ & Hpt) Hl. destruct (pt_bits (payload_type h) Hpt) as (H1 & H2 & _).
  unfold encode_into. rewrite (proj2 (Z.leb_le _ _)) by done.
  set (x := Z.land _ _). set (y := Z.lor _ _).
  assert (forall l k bs i, i = zlen l -> zlen bs <= 12 - zlen l -> k = zlen l ->
    put (E:=E) (l ++ zdrop k buf) i bs = Ok ((l ++ bs) ++ zdrop (k + zlen bs) buf)) as Hput.
  { intros l k bs i Hi Hb ->. pose proof (zlen_nonneg l). pose proof (zlen_nonneg bs). rewrite put_app; [|done|rewrite zlen_zdrop; lia].
    rewrite zdrop_zdrop by lia. by rewrite <- app_assoc. }
  pose proof (Hput [] 0 [x] 0 eq_refl ltac:(done) eq_refl) as H0. rewrite zdrop_0 in H0. rewrite (H0 : put buf 0 [x] = _). rb.
  rewrite (Hput ([] ++ [x]) _ [y] 1) by done. rb.
  rewrite (Hput (([] ++ [x]) ++ [y]) _ (be16 (seq h)) 2) by done. rb. rewrite (Hput _ _ (be32 (timestamp h)) 4) by done. rb.
  rewrite (Hput _ _ (be32 (ssrc h)) 8) by done. unfold header_bytes. f_equal.
  assert (y = (if marker h then 128 else 0) + payload_type h) as -> by (unfold y; rewrite H1; by destruct (marker h)).
  done.
Qed.

Lemma skip_extension_total buf x a : bytes buf -> 12 <= a <= zlen buf ->
  match skip_extension buf x a with Ok o => a <= o <= zlen buf | Err _ => True | Panic => False end.
Proof.
  intros Hb Ha. unfold skip_extension. destruct (x =? 1); [|lia]. destruct (Z.ltb_spec (zlen buf) (a + 4)); [done|].
  destruct (idx_ok (E:=RtpParseError) buf (a + 2)) as (p & Gp & ->); [lia|]. destruct (idx_ok (E:=RtpParseError) buf (a + 3)) as (q & Gq & ->); [lia|]. rb.
  pose proof (bytes_get _ _ _ Hb Gp) as Bp. pose proof (bytes_get _ _ _ Hb Gq) as Bq. unfold byte in Bp, Bq. unfold from_be16.
  destruct (Z.ltb_spec (zlen buf) (a + (4 + (p * 256 + q) * 4))); [done|lia].
Qed.

Lemma trim_padding_total buf p o : bytes buf -> 12 <= o <= zlen buf ->
  match trim_padding buf p o with Ok e => o <= e <= zlen buf | Err _ => True | Panic => False end.
Proof.
  intros Hb Ho. unfold trim_padding. destruct (p =? 1); [|lia]. destruct (Z.ltb_spec (zlen buf) (o + 1)); [done|].
  unfold usub. rewrite (proj2 (Z.leb_le _ _)) by lia. rb. destruct (idx_ok (E:=RtpParseError) buf (zlen buf - 1)) as (x & Gx & ->); [lia|]. rb.
  rewrite (proj2 (Z.leb_le _ _)) by lia. rb. pose proof (bytes_get _ _ _ Hb Gx) as Bx. unfold byte in Bx.
  destruct (Z.eqb_spec x 0); cbn [orb]; [done|]. destruct (Z.ltb_spec (zlen buf - o) x); [done|]. rewrite (proj2 (Z.leb_le _ _)) by lia. lia.
Qed.

(** On any bytes the decoder returns, and the payload it names is inside the packet. *)
Lemma rtp_decode_total buf : bytes buf ->
  match decode buf with
  | Ok p => 12 <= payload_offset p <= payload_end p /\ payload_end p <= zlen buf /\ header_typed (header p)
  | Err _ => True
  | Panic => False
  end.
Proof.
  intros Hb. unfold decode, RTP_HEADER_LEN. destruct (Z.ltb_spec (zlen buf) 12) as [|Hl]; [done|].
  assert (forall i, 0 <= i < 12 -> exists x, idx (E:=RtpParseError) buf i = Ok x /\ byte x) as Hi.
  { intros i Hi. destruct (idx_ok (E:=RtpParseError) buf i) as (x & G & ->); [lia|]. exists x. split; [done|by eapply bytes_get]. }
  destruct (Hi 0) as (b0 & -> & B0); [lia|]. rb. destruct (negb _); [done|]. destruct (Hi 1) as (b1 & -> & B1); [lia|]. rb.
  assert (0 <= Z.land b0 15) as Hcc by (apply Z.land_nonneg; lia). set (cc := Z.land b0 15) in *.
  destruct (Z.ltb_spec (zlen buf) (12 + cc * 4)); [done|].
  pose proof (skip_extension_total buf (Z.land (Z.shiftr b0 4) 1) (12 + cc * 4) Hb) as Hx.
  destruct (skip_extension _ _ _) as [o| |]; rb; [|done|by apply Hx; lia]. specialize (Hx ltac:(lia)).
  pose proof (trim_padding_total buf (Z.land (Z.shiftr b0 5) 1) o Hb) as Hp.
  destruct (trim_padding _ _ _) as [e| |]; rb; [|done|by apply Hp; lia]. specialize (Hp ltac:(lia)).
  destruct (Hi 2) as (b2 & -> & B2); [lia|]. destruct (Hi 3) as (b3 & -> & B3); [lia|]. destruct (Hi 4) as (b4 & -> & B4); [lia|].
  destruct (Hi 5) as (b5 & -> & B5); [lia|]. destruct (Hi 6) as (b6 & -> & B6); [lia|]. destruct (Hi 7) as (b7 & -> & B7); [lia|].
  destruct (Hi 8) as (b8 & -> & B8); [lia|]. destruct (Hi 9) as (b9 & -> & B9); [lia|]. destruct (Hi 10) as (b10 & -> & B10); [lia|].
  destruct (Hi 11) as (b11 & -> & B11); [lia|]. rb. unfold header_typed, byte in *. cbn [payload_offset payload_end header seq timestamp ssrc payload_type].
  split; [lia|]. split; [lia|]. unfold from_be16, from_be32. split_and!; try lia; [apply Z.land_nonneg; lia|].
  assert (Z.land b1 127 = b1 mod 128) as -> by (apply (Z.land_ones b1 7); lia). pose proof (Z.mod_pos_bound b1 128). lia.
Qed.

(** C21: an RTP header written into a packet of any length is read back, with the
    payload right behind it and up to the end; and on any bytes at all the
    decoder returns a value or an error without a panic, and the payload range
    it names lies inside the packet, behind the fixed header. *)
Theorem rtp_header_roundtrip (h : RtpHeader) (buf : list Z) : header_typed h -> bytes buf ->
  (12 <= zlen buf -> exists pkt, encode_into (E:=Empty_set) h buf = Ok pkt /\ zdrop 12 pkt = zdrop 12 buf /\
     decode pkt = Ok {| header := h; payload_offset := 12; payload_end := zlen buf |}) /\
  match decode buf with
  | Ok p => 12 <= payload_offset p <= payload_end p /\ payload_end p <= zlen buf /\ header_typed (header p)
  | Err _ => True
  | Panic => False
  end.
Proof.
  intros Hh Hb. split; [|by apply rtp_decode_total]. intros Hl. exists (header_bytes h ++ zdrop 12 buf). split; [by apply encode_into_ok|].
  split; [by rewrite (zdrop_app (header_bytes h))|]. set (t := zdrop 12 buf).
  assert (zlen (header_bytes h ++ t) = zlen buf) as Hz by (rewrite zlen_app; unfold t; rewrite zlen_zdrop by lia; change (zlen (header_bytes h)) with 12; lia).
  destruct Hh as (Hs & Hts & Hss & Hpt). destruct (pt_bits (payload_type h) Hpt) as (E1 & E2 & E3 & E4 & E5).
  unfold decode, RTP_HEADER_LEN. rewrite Hz, (proj2 (Z.ltb_ge _ _)) by lia.
  rewrite !(idx_app_l (header_bytes h) t) by (change (zlen (header_bytes h)) with 12; lia).
  assert (idx (E:=RtpParseError) (header_bytes h) 0 = Ok 0x80) as -> by reflexivity.
  assert (idx (E:=RtpParseError) (header_bytes h) 1 = Ok ((if marker h then 0x80 else 0) + payload_type h)) as -> by reflexivity. rb.
  set (b1 := _ + payload_type h). assert (negb (Z.land b1 0x80 =? 0) = marker h /\ Z.land b1 0x7F = payload_type h) as [Hm Hp].
  { unfold b1. destruct (marker h); [by rewrite E4, E5|]. rewrite Z.add_0_l. by rewrite E1, E3. }
  change (negb (Z.land (Z.shiftr 128 6) 3 =? RTP_VERSION)) with false. change (12 + Z.land 128 15 * 4) with 12.
  change (Z.land (Z.shiftr 128 4) 1) with 0. change (Z.land (Z.shiftr 128 5) 1) with 0. cbv iota. rewrite (proj2 (Z.ltb_ge _ _)) by lia.
  unfold skip_extension, trim_padding. cbn [Z.eqb]. rb. rewrite Hz, Hm, Hp.
  pose proof (from_be16_be16 (seq h) ltac:(lia)) as Hf1. pose proof (from_be32_be32 (timestamp h) ltac:(lia)) as Hf2.
  pose proof (from_be32_be32 (ssrc h) ltac:(lia)) as Hf3.
  assert (forall i x, get (header_bytes h) i = Some x -> idx (E:=RtpParseError) (header_bytes h) i = Ok x) as Hidx by (intros i x Hg; by apply idx_Ok).
  rewrite (Hidx 2 _ eq_refl), (Hidx 3 _ eq_refl), (Hidx 4 _ eq_refl), (Hidx 5 _ eq_refl), (Hidx 6 _ eq_refl), (Hidx 7 _ eq_refl),
    (Hidx 8 _ eq_refl), (Hidx 9 _ eq_refl), (Hidx 10 _ eq_refl), (Hidx 11 _ eq_refl). rb. rewrite Hf1, Hf2, Hf3. by destruct h.
Qed.

Lemma rtp_header_roundtrip_witness : exists pkt,
  encode_into (E:=Empty_set) {| seq := 7; timestamp := 90000; ssrc := 5; marker := true; payload_type := 96 |} (zrep 16 1) = Ok pkt /\
  decode pkt = Ok {| header := {| seq := 7; timestamp := 90000; ssrc := 5; marker := true; payload_type := 96 |};
                     payload_offset := 12; payload_end := 16 |}.
Proof.
  destruct (rtp_header_roundtrip {| seq := 7; timestamp := 90000; ssrc := 5; marker := true; payload_type := 96 |} (zrep 16 1)) as [H _].
  - unfold header_typed. cbn. lia.
  - repeat constructor; lia.
  - destruct H as (pkt & H1 & _ & H2); [vm_compute; discriminate|]. exists pkt. split; [exact H1|exact H2].
Defined.

End RtpTheorems.
