(* ===== verification/RtpDepay.v ===== *)
(** RTP depacketization: the state machine of [crates/tst-rtp/src/depay/core.rs]
    with the access unit, configuration and counters of [depay/mod.rs] and the
    timestamp chain of [clock.rs], and the payload-header rules of H.264
    ([h264/depacketizer.rs]) and H.265 ([h265/depacketizer.rs]). *)
From Stdlib Require Import ZArith Lia Bool.
From stdpp Require Import base list list_numbers.
From S2P Require Import Prelude PsiWriter.
From S2P Require Import NalUnits RtpPacket.

(** * The timestamp chain *)
Module Clock.

Record Unwrap32 : Type := { last : option (Z * Z) }.
Definition default_chain : Unwrap32 := {| last := None |}.

Definition as_i32 (x : Z) : Z := let y := as_u32 x in if y <? 2 ^ 31 then y else y - 2 ^ 32.

Definition unwrap {E} (u : Unwrap32) (raw : Z) : res E (Z * Unwrap32) :=
  let! unwrapped :=
    match last u with
    | None => Ok raw
    | Some (prev_raw, prev_unwrapped) => chk_i64 (prev_unwrapped + as_i32 (raw - prev_raw))
    end in
  Ok (unwrapped, {| last := Some (raw, unwrapped) |}).

End Clock.

(** * The state machine *)
Module Depay.
Import RtpPacket Clock.

Record AccessUnit : Type := { annexb : list Z; pts : Z; key_frame : bool; rtp_timestamp : Z }.

Inductive ParameterSetInjection : Type := NoInjection | BeforeIdr.

Record DepayConfig : Type := {
  config_payload_type : Z; parameter_set_injection : ParameterSetInjection;
  initial_parameter_sets : list (list Z); max_au_bytes : Z }.

Definition DepayConfig_default : DepayConfig :=
  {| config_payload_type := 96; parameter_set_injection := BeforeIdr; initial_parameter_sets := []; max_au_bytes := 8 * 1024 * 1024 |}.

Record DepayStats : Type := {
  aus_emitted : Z; aus_dropped : Z; aus_dropped_oversize : Z; packets_discarded : Z; nalus_discarded : Z;
  seq_gaps : Z; duplicate_packets : Z; parameter_set_updates : Z; ssrc_changes : Z }.

Definition DepayStats_default : DepayStats :=
  {| aus_emitted := 0; aus_dropped := 0; aus_dropped_oversize := 0; packets_discarded := 0; nalus_discarded := 0;
     seq_gaps := 0; duplicate_packets := 0; parameter_set_updates := 0; ssrc_changes := 0 |}.

(** What a payload is, and the rules of one payload format. *)
Inductive Payload : Type := Single | Aggregation | Fragment | Poison | Reserved.

Class Format : Type := {
  PS_SLOTS : Z;
  AGG_PREFIX_LEN : Z;
  FU_PREFIX_LEN : Z;
  classify : list Z -> res Empty_set Payload;
  nal_type : list Z -> res Empty_set Z;
  is_idr : Z -> bool;
  ps_slot : Z -> option Z;
  fu_nal_header : list Z -> res Empty_set (list Z) }.

Definition MAX_PS_SLOTS : Z := 3.
Definition SSRC_RESET_PTS_STEP : Z := 3003.
Definition ANNEXB_START_CODE : list Z := [0; 0; 0; 1].

Definition ps_within_cap (nalu_len max_au_bytes : Z) : bool := zlen ANNEXB_START_CODE + nalu_len <=? max_au_bytes.

Record Core : Type := {
  config : DepayConfig; ps_cache : list (option (list Z)); stats : DepayStats;
  core_ssrc : option Z; last_seq : option Z; ts_unwrap : Unwrap32;
  au_ts_ext : Z; pts_base : option Z; last_emitted_pts : Z;
  au_ts : option Z; au_buf : list Z; fu : option (list Z); au_poisoned : bool; gap_pending : bool;
  au_has_idr : bool; au_has_ps : list bool; ready : list AccessUnit }.

(** ** Assignments *)

Definition set_stats (c : Core) (s : DepayStats) : Core :=
  {| config := config c; ps_cache := ps_cache c; stats := s; core_ssrc := core_ssrc c; last_seq := last_seq c; ts_unwrap := ts_unwrap c;
     au_ts_ext := au_ts_ext c; pts_base := pts_base c; last_emitted_pts := last_emitted_pts c; au_ts := au_ts c; au_buf := au_buf c; fu := fu c;
     au_poisoned := au_poisoned c; gap_pending := gap_pending c; au_has_idr := au_has_idr c; au_has_ps := au_has_ps c; ready := ready c |}.

(** Sequence, source and timestamp tracking. *)
Definition set_track (c : Core) (ssrc seq : option Z) (u : Unwrap32) (base : option Z) : Core :=
  {| config := config c; ps_cache := ps_cache c; stats := stats c; core_ssrc := ssrc; last_seq := seq; ts_unwrap := u;
     au_ts_ext := au_ts_ext c; pts_base := base; last_emitted_pts := last_emitted_pts c; au_ts := au_ts c; au_buf := au_buf c; fu := fu c;
     au_poisoned := au_poisoned c; gap_pending := gap_pending c; au_has_idr := au_has_idr c; au_has_ps := au_has_ps c; ready := ready c |}.

(** The accumulator of the open access unit. *)
Definition set_acc (c : Core) (buf : list Z) (open_fu : option (list Z)) (poisoned : bool) : Core :=
  {| config := config c; ps_cache := ps_cache c; stats := stats c; core_ssrc := core_ssrc c; last_seq := last_seq c; ts_unwrap := ts_unwrap c;
     au_ts_ext := au_ts_ext c; pts_base := pts_base c; last_emitted_pts := last_emitted_pts c; au_ts := au_ts c; au_buf := buf; fu := open_fu;
     au_poisoned := poisoned; gap_pending := gap_pending c; au_has_idr := au_has_idr c; au_has_ps := au_has_ps c; ready := ready c |}.

Definition set_fu (c : Core) (open_fu : option (list Z)) : Core := set_acc c (au_buf c) open_fu (au_poisoned c).
Definition set_buf (c : Core) (buf : list Z) : Core := set_acc c buf (fu c) (au_poisoned c).
Definition poison (c : Core) : Core := set_acc c (au_buf c) (fu c) true.

Definition set_gap (c : Core) (g : bool) : Core :=
  {| config := config c; ps_cache := ps_cache c; stats := stats c; core_ssrc := core_ssrc c; last_seq := last_seq c; ts_unwrap := ts_unwrap c;
     au_ts_ext := au_ts_ext c; pts_base := pts_base c; last_emitted_pts := last_emitted_pts c; au_ts := au_ts c; au_buf := au_buf c; fu := fu c;
     au_poisoned := au_poisoned c; gap_pending := g; au_has_idr := au_has_idr c; au_has_ps := au_has_ps c; ready := ready c |}.

(** Which access unit is open, and at what time. *)
Definition set_open (c : Core) (ts : option Z) (ext : Z) : Core :=
  {| config := config c; ps_cache := ps_cache c; stats := stats c; core_ssrc := core_ssrc c; last_seq := last_seq c; ts_unwrap := ts_unwrap c;
     au_ts_ext := ext; pts_base := pts_base c; last_emitted_pts := last_emitted_pts c; au_ts := ts; au_buf := au_buf c; fu := fu c;
     au_poisoned := au_poisoned c; gap_pending := gap_pending c; au_has_idr := au_has_idr c; au_has_ps := au_has_ps c; ready := ready c |}.

Definition set_base (c : Core) (base : option Z) : Core := set_track c (core_ssrc c) (last_seq c) (ts_unwrap c) base.

(** The flags of the open access unit and the parameter-set cache. *)
Definition set_flags (c : Core) (idr : bool) (has_ps : list bool) (cache : list (option (list Z))) : Core :=
  {| config := config c; ps_cache := cache; stats := stats c; core_ssrc := core_ssrc c; last_seq := last_seq c; ts_unwrap := ts_unwrap c;
     au_ts_ext := au_ts_ext c; pts_base := pts_base c; last_emitted_pts := last_emitted_pts c; au_ts := au_ts c; au_buf := au_buf c; fu := fu c;
     au_poisoned := au_poisoned c; gap_pending := gap_pending c; au_has_idr := idr; au_has_ps := has_ps; ready := ready c |}.

(** The queue and the time of the last access unit in it. *)
Definition set_ready (c : Core) (r : list AccessUnit) (emitted : Z) : Core :=
  {| config := config c; ps_cache := ps_cache c; stats := stats c; core_ssrc := core_ssrc c; last_seq := last_seq c; ts_unwrap := ts_unwrap c;
     au_ts_ext := au_ts_ext c; pts_base := pts_base c; last_emitted_pts := emitted; au_ts := au_ts c; au_buf := au_buf c; fu := fu c;
     au_poisoned := au_poisoned c; gap_pending := gap_pending c; au_has_idr := au_has_idr c; au_has_ps := au_has_ps c; ready := r |}.

(** ** Counters *)

Inductive Counter : Type :=
| AusEmitted | AusDropped | AusDroppedOversize | PacketsDiscarded | NalusDiscarded | SeqGaps | DuplicatePackets | ParameterSetUpdates | SsrcChanges.

#[global] Instance Counter_eq_dec : EqDecision Counter.
Proof. solve_decision. Defined.

Definition bump_stats (s : DepayStats) (k : Counter) : DepayStats :=
  let up (j : Counter) (x : Z) := if bool_decide (j = k) then as_u64 (x + 1) else x in
  {| aus_emitted := up AusEmitted (aus_emitted s); aus_dropped := up AusDropped (aus_dropped s);
     aus_dropped_oversize := up AusDroppedOversize (aus_dropped_oversize s); packets_discarded := up PacketsDiscarded (packets_discarded s);
     nalus_discarded := up NalusDiscarded (nalus_discarded s); seq_gaps := up SeqGaps (seq_gaps s);
     duplicate_packets := up DuplicatePackets (duplicate_packets s); parameter_set_updates := up ParameterSetUpdates (parameter_set_updates s);
     ssrc_changes := up SsrcChanges (ssrc_changes s) |}.

(** [self.stats.<k> += 1] *)
Definition bump (c : Core) (k : Counter) : Core := set_stats c (bump_stats (stats c) k).

End Depay.

(** ** Operations *)
Module DepayOps.
Import RtpPacket Clock Depay.

Section Format.
Context {F : Format}.

(** The seeds of the cache: the last set of each type that fits. *)
Fixpoint seed_cache (cap : Z) (seeds : list (list Z)) (cache : list (option (list Z))) : res Empty_set (list (option (list Z))) :=
  match seeds with
  | [] => Ok cache
  | nalu :: seeds =>
      if bool_decide (nalu = []) || negb (ps_within_cap (zlen nalu) cap) then seed_cache cap seeds cache
      else
        let! t := nal_type nalu in
        match ps_slot t with
        | Some slot => let! cache := put cache slot [Some nalu] in seed_cache cap seeds cache
        | None => seed_cache cap seeds cache
        end
  end.

Definition new_core (cfg : DepayConfig) : res Empty_set Core :=
  assert! PS_SLOTS <=? MAX_PS_SLOTS in
  let! cache := seed_cache (max_au_bytes cfg) (initial_parameter_sets cfg) [None; None; None] in
  let cfg := {| config_payload_type := config_payload_type cfg; parameter_set_injection := parameter_set_injection cfg;
                initial_parameter_sets := []; max_au_bytes := max_au_bytes cfg |} in
  Ok {| config := cfg; ps_cache := cache; stats := DepayStats_default; core_ssrc := None; last_seq := None; ts_unwrap := default_chain;
        au_ts_ext := 0; pts_base := None; last_emitted_pts := - SSRC_RESET_PTS_STEP; au_ts := None; au_buf := []; fu := None;
        au_poisoned := false; gap_pending := false; au_has_idr := false; au_has_ps := [false; false; false]; ready := [] |}.

Definition reset_au (c : Core) : Core :=
  set_flags (set_acc (set_open c None (au_ts_ext c)) [] None false) false [false; false; false] (ps_cache c).

(** The framed length of each cached set that would be injected. *)
Fixpoint inject_lens {E} (n : nat) (c : Core) (i : Z) : res E (list Z) :=
  match n with
  | O => Ok []
  | S n =>
      let! has := idx (au_has_ps c) i in
      let! slot := (if (has : bool) then Ok None else idx (ps_cache c) i) in
      let len := match slot with Some s => zlen ANNEXB_START_CODE + zlen s | None => 0 end in
      let! rest := inject_lens n c (i + 1) in
      Ok (len :: rest)
  end.

Fixpoint sum_checked {E} (l : list Z) (acc : Z) : res E Z :=
  match l with [] => Ok acc | x :: l => let! acc := chk_u64 (acc + x) in sum_checked l acc end.

Fixpoint inject_prefix {E} (lens : list Z) (cache : list (option (list Z))) (i : Z) : res E (list Z) :=
  match lens with
  | [] => Ok []
  | len :: lens =>
      let! one :=
        (if 0 <? len then
           let! s := idx cache i in
           match s with Some s => Ok (ANNEXB_START_CODE ++ s) | None => Panic end
         else Ok []) in
      let! rest := inject_prefix lens cache (i + 1) in
      Ok (one ++ rest)
  end.

(** Injection before an IDR unit: the buffer to emit, [None] over the cap. *)
Definition injected {E} (c : Core) : res E (option (list Z)) :=
  let on := match parameter_set_injection (config c) with BeforeIdr => true | NoInjection => false end in
  if au_has_idr c && on then
    let! lens := inject_lens (Z.to_nat PS_SLOTS) c 0 in
    let! inject_len := sum_checked lens 0 in
    if 0 <? inject_len then
      let total := Z.min u64_max (inject_len + zlen (au_buf c)) in
      if max_au_bytes (config c) <? total then Ok None
      else let! prefix := inject_prefix lens (ps_cache c) 0 in Ok (Some (prefix ++ au_buf c))
    else Ok (Some (au_buf c))
  else Ok (Some (au_buf c)).

Definition complete_au {E} (c : Core) : res E Core :=
  match au_ts c with
  | None => Ok c
  | Some _ =>
      let c := match fu c with Some _ => poison (bump (set_fu c None) NalusDiscarded) | None => c end in
      if bool_decide (au_buf c = []) && negb (au_poisoned c) then Ok (reset_au c)
      else if au_poisoned c then Ok (reset_au (bump c AusDropped))
      else
        let! o := injected c in
        match o with
        | None => Ok (reset_au (bump (bump c AusDroppedOversize) AusDropped))
        | Some buf =>
            let base := match pts_base c with Some b => b | None => 0 end in
            let! pts_raw := chk_i64 (au_ts_ext c - base) in
            let au := {| annexb := buf; pts := pts_raw; key_frame := au_has_idr c;
                         rtp_timestamp := match au_ts c with Some t => t | None => 0 end |} in
            let c := bump c AusEmitted in
            Ok (reset_au (set_ready c (ready c ++ [au]) pts_raw))
        end
  end.

(** The cap after an append, and whether it was exceeded. *)
Definition check_and_apply_oversize_cap (c : Core) : bool * Core :=
  let fu_len := match fu c with Some b => zlen b | None => 0 end in
  let total := Z.min u64_max (zlen (au_buf c) + fu_len) in
  if total <=? max_au_bytes (config c) then (false, c)
  else (true, bump (set_acc c [] None true) AusDroppedOversize).

(** A parameter set in the stream: the flag of its slot and the cache. *)
Definition note_parameter_set (c : Core) (t : Z) (nalu : list Z) : res Empty_set Core :=
  match ps_slot t with
  | None => Ok c
  | Some slot =>
      let! has := put (au_has_ps c) slot [true] in
      let c := set_flags c (au_has_idr c) has (ps_cache c) in
      if ps_within_cap (zlen nalu) (max_au_bytes (config c)) then
        let! cached := idx (ps_cache c) slot in
        if bool_decide (cached = Some nalu) then Ok c
        else
          let! cache := put (ps_cache c) slot [Some nalu] in
          Ok (bump (set_flags c (au_has_idr c) (au_has_ps c) cache) ParameterSetUpdates)
      else Ok c
  end.

Definition push_nalu_owned (c : Core) (nalu : list Z) : res Empty_set Core :=
  if bool_decide (nalu = []) then Ok c
  else if au_poisoned c then Ok c
  else
    let! b0 := idx nalu 0 in
    if negb (Z.land b0 0x80 =? 0) then Ok (poison (bump c NalusDiscarded))
    else
      let! t := nal_type nalu in
      let c := if is_idr t then set_flags c true (au_has_ps c) (ps_cache c) else c in
      let! c := note_parameter_set c t nalu in
      let c := set_buf c (au_buf c ++ ANNEXB_START_CODE ++ nalu) in
      Ok (snd (check_and_apply_oversize_cap c)).

Definition push_nalu (c : Core) (nalu : list Z) : res Empty_set Core :=
  assert! negb (bool_decide (nalu = [])) in
  push_nalu_owned c nalu.

(** [if self.fu.take().is_some() { nalus_discarded += 1 }] *)
Definition drop_fu (c : Core) : Core := match fu c with Some _ => bump (set_fu c None) NalusDiscarded | None => c end.

(** Close the fragmented unit on its last fragment. *)
Definition close_fu (c : Core) (e : bool) : res Empty_set Core :=
  if e then
    match fu c with
    | Some buf => push_nalu_owned (set_fu c None) buf
    | None => Panic
    end
  else Ok c.

Definition push_fragment (c : Core) (payload : list Z) : res Empty_set Core :=
  if zlen payload <? FU_PREFIX_LEN then Ok (poison (drop_fu (bump c PacketsDiscarded)))
  else
    let! ind := idx payload 0 in
    let! fh := idx payload (FU_PREFIX_LEN - 1) in
    let! fragment := slice payload FU_PREFIX_LEN (zlen payload) in
    if negb (Z.land ind 0x80 =? 0) then Ok (poison (drop_fu (bump c NalusDiscarded)))
    else
      let s := negb (Z.land fh 0x80 =? 0) in
      let e := negb (Z.land fh 0x40 =? 0) in
      if s && e then Ok (poison (drop_fu (bump c PacketsDiscarded)))
      else if s then
        let c := match fu c with Some _ => poison (drop_fu c) | None => c end in
        if au_poisoned c then Ok c
        else
          let! buf := fu_nal_header payload in
          let c := set_fu c (Some (buf ++ fragment)) in
          let (over, c) := check_and_apply_oversize_cap c in
          if over then Ok c else close_fu c e
      else if au_poisoned c then Ok c
      else
        match fu c with
        | Some buf =>
            let c := set_fu c (Some (buf ++ fragment)) in
            let (over, c) := check_and_apply_oversize_cap c in
            if over then Ok c else close_fu c e
        | None => Ok (poison (bump c NalusDiscarded))
        end.

(** [packets_discarded.saturating_add(1)] and the poison behind it. *)
Definition malformed_aggregate (c : Core) : Core :=
  let s := stats c in
  poison (set_stats c {| aus_emitted := aus_emitted s; aus_dropped := aus_dropped s; aus_dropped_oversize := aus_dropped_oversize s;
    packets_discarded := Z.min u64_max (packets_discarded s + 1); nalus_discarded := nalus_discarded s; seq_gaps := seq_gaps s;
    duplicate_packets := duplicate_packets s; parameter_set_updates := parameter_set_updates s; ssrc_changes := ssrc_changes s |}).

Fixpoint aggregation_loop (fuel : nat) (c : Core) (payload : list Z) (cursor : Z) : res Empty_set Core :=
  match fuel with
  | O => Panic
  | S fuel =>
      if cursor <? zlen payload then
        if zlen payload <? cursor + 2 then Ok (malformed_aggregate c)
        else
          let! a := idx payload cursor in
          let! b := idx payload (cursor + 1) in
          let size := from_be16 a b in
          if (size =? 0) || (zlen payload <? cursor + 2 + size) then Ok (malformed_aggregate c)
          else
            let! nalu := slice payload (cursor + 2) (cursor + 2 + size) in
            let! c := push_nalu c nalu in
            aggregation_loop fuel c payload (cursor + (2 + size))
      else Ok c
  end.

Definition push_aggregation (c : Core) (payload : list Z) : res Empty_set Core :=
  aggregation_loop (S (length payload)) c payload AGG_PREFIX_LEN.

(** Rule 1: a new source. *)
Definition check_ssrc (c : Core) (h : RtpHeader) : Core :=
  match core_ssrc c with
  | Some known =>
      if negb (ssrc h =? known) then
        let c := set_gap (reset_au c) false in
        bump (set_track c (Some (ssrc h)) None default_chain None) SsrcChanges
      else c
  | None => set_track c (Some (ssrc h)) (last_seq c) (ts_unwrap c) (pts_base c)
  end.

(** Rule 2: whether there is a gap before this packet, [None] for a duplicate. *)
Definition check_seq (c : Core) (h : RtpHeader) : option bool * Core :=
  match last_seq c with
  | None => (Some false, c)
  | Some last =>
      let delta := as_u16 (seq h - last) in
      if delta =? 0 then (None, bump c DuplicatePackets)
      else if delta =? 1 then (Some false, c)
      else
        let c := match au_ts c with Some _ => poison c | None => c end in
        (Some true, bump (drop_fu c) SeqGaps)
  end.

(** Rule 3: the open access unit ends at another timestamp, and a new one starts. *)
Definition check_boundary (c : Core) (h : RtpHeader) (is_gap : bool) : res Empty_set Core :=
  let! (ts_ext, u) := unwrap (ts_unwrap c) (timestamp h) in
  let c := set_track c (core_ssrc c) (Some (seq h)) u (pts_base c) in
  let! c := match au_ts c with
            | Some open_ts => if negb (timestamp h =? open_ts) then complete_au c else Ok c
            | None => Ok c
            end in
  let is_new_au := match au_ts c with None => true | Some _ => false end in
  let! c :=
    (if is_new_au then
       let c := set_open c (Some (timestamp h)) ts_ext in
       let! c := match pts_base c with
                 | None =>
                     let! start := chk_i64 (last_emitted_pts c + SSRC_RESET_PTS_STEP) in
                     let! base := chk_i64 (ts_ext - start) in Ok (set_base c (Some base))
                 | Some _ => Ok c
                 end in
       let c := if is_gap || gap_pending c then poison c else c in
       Ok (set_gap c false)
     else Ok c) in
  Ok (if is_gap && negb is_new_au then set_gap (poison c) true
      else if negb is_gap then set_gap c false else c).

(** Rule 6: what the payload is. *)
Definition dispatch (c : Core) (payload : list Z) : res Empty_set Core :=
  let! k := classify payload in
  match k with
  | Single => push_nalu c payload
  | Aggregation => push_aggregation c payload
  | Fragment => push_fragment c payload
  | Poison => Ok (poison (bump c PacketsDiscarded))
  | Reserved => Ok (bump c PacketsDiscarded)
  end.

Definition feed (c : Core) (h : RtpHeader) (payload : list Z) : res Empty_set Core :=
  let c := check_ssrc c h in
  match check_seq c h with
  | (None, c) => Ok c
  | (Some is_gap, c) =>
      let! c := check_boundary c h is_gap in
      if bool_decide (payload = []) then Ok (bump c PacketsDiscarded)
      else
        let! c := dispatch c payload in
        if marker h then let! c := complete_au c in Ok (set_gap c false) else Ok c
  end.

Definition next_au (c : Core) : option AccessUnit * Core :=
  match ready c with
  | [] => (None, c)
  | au :: rest => (Some au, set_ready c rest (last_emitted_pts c))
  end.

Definition flush (c : Core) : res Empty_set (option AccessUnit * Core) :=
  let! c := complete_au c in Ok (next_au c).

End Format.
End DepayOps.

(** * The two formats *)
Module Formats.
Import Depay MuxTypes.

Definition H264 : Format := {|
  PS_SLOTS := 2; AGG_PREFIX_LEN := 1; FU_PREFIX_LEN := 2;
  classify payload :=
    let! b0 := idx payload 0 in
    let t := Z.land b0 0x1F in
    Ok (if (1 <=? t) && (t <=? 23) then Single
        else if t =? 24 then Aggregation
        else if t =? 28 then Fragment
        else if (t =? 25) || (t =? 26) || (t =? 27) || (t =? 29) then Poison
        else Reserved);
  nal_type nal := let! b0 := idx nal 0 in Ok (Z.land b0 0x1F);
  is_idr t := Nal.is_idr VideoH264 t;
  ps_slot t := if t =? 7 then Some 0 else if t =? 8 then Some 1 else None;
  fu_nal_header fu :=
    let! f0 := idx fu 0 in let! f1 := idx fu 1 in Ok [Z.lor (Z.land f0 0xE0) (Z.land f1 0x1F)] |}.

Definition H265 : Format := {|
  PS_SLOTS := 3; AGG_PREFIX_LEN := 2; FU_PREFIX_LEN := 3;
  classify payload :=
    if zlen payload <? 2 then Ok Poison
    else
      let! b0 := idx payload 0 in
      let t := Z.land (Z.shiftr b0 1) 0x3F in
      Ok (if t <=? 47 then Single
          else if t =? 48 then Aggregation
          else if t =? 49 then Fragment
          else if t =? 50 then Poison
          else Reserved);
  nal_type nal := let! b0 := idx nal 0 in Ok (Z.land (Z.shiftr b0 1) 0x3F);
  is_idr t := Nal.is_idr VideoH265 t;
  ps_slot t := if t =? 32 then Some 0 else if t =? 33 then Some 1 else if t =? 34 then Some 2 else None;
  fu_nal_header fu :=
    let! f0 := idx fu 0 in let! f1 := idx fu 1 in let! f2 := idx fu 2 in
    Ok [Z.lor (Z.land f0 0x81) (Z.shiftl (Z.land f2 0x3F) 1); f1] |}.

End Formats.
