(* ===== verification/RtpBounds.v ===== *)
(** The depacketizer on arbitrary packets: it never panics and stays within its
    memory cap. *)
From Stdlib Require Import ZArith Lia Bool.
From stdpp Require Import base list list_numbers.
From S2P Require Import Prelude.
From S2P Require Import RtpPacket RtpDepay.

(** * What the state machine needs of a format *)
Module DepayLaws.
Import Depay Formats.

Class FormatLaws (F : Format) : Prop := {
  slots_range : 0 <= PS_SLOTS <= MAX_PS_SLOTS;
  agg_prefix_pos : 0 <= AGG_PREFIX_LEN;
  fu_prefix_pos : 1 <= FU_PREFIX_LEN;
  classify_total p : p <> [] -> exists k, classify p = Ok k;
  nal_type_total n : n <> [] -> exists t, nal_type n = Ok t;
  slot_range t s : ps_slot t = Some s -> 0 <= s < PS_SLOTS;
  fu_header_total p : FU_PREFIX_LEN <= zlen p -> exists h, fu_nal_header p = Ok h }.

Lemma first_byte {E} (p : list Z) : p <> [] -> exists b, idx (E:=E) p 0 = Ok b.
Proof. destruct p as [|b p]; [done|]. intros _. exists b. reflexivity. Qed.

#[global] Instance H264_laws : FormatLaws H264.
Proof.
  split; cbn.
  - unfold MAX_PS_SLOTS. lia.
  - lia.
  - lia.
  - intros p Hp. destruct (first_byte (E:=Empty_set) p Hp) as (b & ->). rb. by eexists.
  - intros n Hn. destruct (first_byte (E:=Empty_set) n Hn) as (b & ->). rb. by eexists.
  - intros t s. repeat ifs; intros [= <-]; lia.
  - intros p Hp. destruct (idx_ok (E:=Empty_set) p 0) as (f0 & _ & ->); [lia|]. destruct (idx_ok (E:=Empty_set) p 1) as (f1 & _ & ->); [lia|].
    rb. by eexists.
Qed.

#[global] Instance H265_laws : FormatLaws H265.
Proof.
  split; cbn.
  - unfold MAX_PS_SLOTS. lia.
  - lia.
  - lia.
  - intros p Hp. destruct (zlen p <? 2); [by eexists|]. destruct (first_byte (E:=Empty_set) p Hp) as (b & ->). rb. by eexists.
  - intros n Hn. destruct (first_byte (E:=Empty_set) n Hn) as (b & ->). rb. by eexists.
  - intros t s. repeat ifs; intros [= <-]; lia.
  - intros p Hp. destruct (idx_ok (E:=Empty_set) p 0) as (f0 & _ & ->); [lia|]. destruct (idx_ok (E:=Empty_set) p 1) as (f1 & _ & ->); [lia|].
    destruct (idx_ok (E:=Empty_set) p 2) as (f2 & _ & ->); [lia|]. rb. by eexists.
Qed.

End DepayLaws.

(** * The invariant *)
Module DepayInv.
Import RtpPacket Clock Depay DepayOps DepayLaws.

(** The cache and the queue. *)
Definition stored (cap : Z) (cache : list (option (list Z))) (has : list bool) (q : list AccessUnit) : Prop :=
  zlen cache = 3 /\ zlen has = 3 /\ (forall i s, get cache i = Some (Some s) -> 4 + zlen s <= cap) /\
  Forall (fun a => zlen (annexb a) <= cap) q.

Definition fu_len (f : option (list Z)) : Z := match f with Some b => zlen b | None => 0 end.

(** The buffers of the open access unit. *)
Definition sized (cap : Z) (ts : option Z) (buf : list Z) (f : option (list Z)) : Prop :=
  zlen buf + fu_len f <= cap /\ (ts = None -> buf = [] /\ f = None).

(** How far the clocks can be after [n] packets. *)
Definition pts_limit (n : Z) : Z := 2 ^ 31 * n + 3003 * (n + 1).
Definition ext_limit (n : Z) : Z := 2 ^ 32 + 2 ^ 31 * n.

Definition timed (n : Z) (u : Unwrap32) (base : option Z) (emitted : Z) (ts : option Z) (ext : Z) : Prop :=
  Z.abs emitted <= pts_limit n /\
  match last u with Some (raw, x) => 0 <= raw < 2 ^ 32 /\ Z.abs x <= ext_limit n | None => base = None end /\
  match base with
  | None => ts = None
  | Some b => exists t0 s0 n0, b = t0 - s0 /\ 0 <= n0 <= n /\ Z.abs s0 <= pts_limit n0 /\ Z.abs t0 <= ext_limit n0 /\
      (forall raw x, last u = Some (raw, x) -> Z.abs (x - t0) <= 2 ^ 31 * (n - n0)) /\
      (ts <> None -> Z.abs (ext - t0) <= 2 ^ 31 * (n - n0))
  end.

Record core_ok (cap n : Z) (c : Core) : Prop := {
  ok_cap : 0 <= max_au_bytes (config c) <= 2 ^ 62 /\ max_au_bytes (config c) = cap;
  ok_stored : stored (max_au_bytes (config c)) (ps_cache c) (au_has_ps c) (ready c);
  ok_sized : sized (max_au_bytes (config c)) (au_ts c) (au_buf c) (fu c);
  ok_timed : timed n (ts_unwrap c) (pts_base c) (last_emitted_pts c) (au_ts c) (au_ts_ext c) }.

Section Cap.
Context {cap : Z}.
#[local] Abbreviation core_ok := (core_ok cap).

(** What the payload handlers leave alone. *)
Definition same_frame (c c' : Core) : Prop :=
  config c' = config c /\ core_ssrc c' = core_ssrc c /\ last_seq c' = last_seq c /\ ts_unwrap c' = ts_unwrap c /\
  pts_base c' = pts_base c /\ last_emitted_pts c' = last_emitted_pts c /\ au_ts c' = au_ts c /\ au_ts_ext c' = au_ts_ext c /\
  gap_pending c' = gap_pending c /\ ready c' = ready c.

#[global] Instance same_frame_preorder : PreOrder same_frame.
Proof.
  split; [by intros c; repeat split|]. intros a b c (?&?&?&?&?&?&?&?&?&?) (?&?&?&?&?&?&?&?&?&?). repeat split; congruence.
Qed.

Lemma timed_weaken n u b e ts x : timed n u b e ts x -> timed n u b e None x.
Proof.
  intros (H1 & H2 & H3). split; [done|]. split; [done|]. destruct b as [b|]; [|done]. destruct H3 as (t0 & s0 & n0 & ? & ? & ? & ? & ? & _).
  by exists t0, s0, n0.
Qed.

Lemma stored_reset k cache has q : stored k cache has q -> stored k cache [false; false; false] q.
Proof. intros (? & _ & ? & ?). by split_and!. Qed.

Lemma reset_au_ok n c : core_ok n c -> core_ok n (reset_au c).
Proof.
  intros [H1 H2 H3 H4]. split; cbn; [done|by eapply stored_reset| |by eapply timed_weaken]. split; [change (zlen []) with 0; cbn; lia|done].
Qed.

Lemma bump_ok n c k : core_ok n c -> core_ok n (bump c k).
Proof. intros [H1 H2 H3 H4]. by split. Qed.

Lemma gap_ok n c g : core_ok n c -> core_ok n (set_gap c g).
Proof. intros [H1 H2 H3 H4]. by split. Qed.

Lemma poison_ok n c : core_ok n c -> core_ok n (poison c).
Proof. intros [H1 H2 H3 H4]. by split. Qed.

Lemma take_fu_ok n c : core_ok n c -> core_ok n (set_fu c None).
Proof.
  intros [H1 H2 [H3 H3'] H4]. split; cbn; try done. split; cbn; [|intros Hn; split; [by apply H3'|done]].
  assert (0 <= fu_len (fu c)) by (destruct (fu c); cbn; [apply zlen_nonneg|lia]). lia.
Qed.

Lemma drop_fu_ok n c : core_ok n c -> core_ok n (drop_fu c).
Proof. intros H. unfold drop_fu. destruct (fu c); [|done]. by apply bump_ok, take_fu_ok. Qed.

Create HintDb depay.
#[local] Hint Resolve reset_au_ok bump_ok gap_ok poison_ok take_fu_ok drop_fu_ok : depay.

Section Format.
Context {F : Format} {L : FormatLaws F}.

(** ** Completion *)

Lemma inject_lens_ok {E} c k0 has : stored k0 (ps_cache c) has (ready c) -> au_has_ps c = has -> forall k i, 0 <= i -> i + Z.of_nat k <= 3 ->
  exists lens, inject_lens (E:=E) k c i = Ok lens /\ length lens = k /\
    forall j len, get lens j = Some len -> 0 <= len /\ (0 < len -> exists s, get (ps_cache c) (i + j) = Some (Some s) /\ len = 4 + zlen s).
Proof.
  intros (Hc & Hh & _ & _) <-. induction k as [|k IH]; intros i Hi Hk; cbn [inject_lens].
  { exists []. split; [done|]. split; [done|]. intros j len Hj. apply get_Some in Hj. change (zlen []) with 0 in Hj. lia. }
  destruct (idx_ok (E:=E) (au_has_ps c) i) as (b & _ & ->); [lia|]. rb. destruct (idx_ok (E:=E) (ps_cache c) i) as (s & Gs & Is); [lia|].
  destruct (IH (i + 1)) as (lens & -> & Hl & Hlens); [lia|lia|].
  assert (exists o, (if b then Ok None else idx (E:=E) (ps_cache c) i) = Ok o /\ (forall x, o = Some x -> get (ps_cache c) i = Some (Some x))) as (o & -> & Ho).
  { destruct b; [by exists None|]. exists s. split; [done|]. by intros x ->. }
  rb. eexists. split; [done|]. split; [by cbn; f_equal|]. intros j len Hj. pose proof (get_Some _ _ _ Hj) as Hr.
  destruct (decide (j = 0)) as [-> |Hj0].
  - injection Hj as <-. rewrite Z.add_0_r. destruct o as [x|]; [|lia]. change (zlen ANNEXB_START_CODE) with 4. pose proof (zlen_nonneg x).
    split; [lia|]. intros _. exists x. split; [by apply Ho|done].
  - replace j with (1 + (j - 1)) in Hj by lia. rewrite get_cons_S in Hj by lia. destruct (Hlens (j - 1) len Hj) as [? Hs].
    split; [done|]. replace (i + j) with (i + 1 + (j - 1)) by lia. done.
Qed.

Lemma sum_checked_ok {E} lens m : Forall (fun x => 0 <= x <= m) lens -> forall acc, 0 <= acc -> acc + m * zlen lens <= u64_max ->
  exists t, sum_checked (E:=E) lens acc = Ok t /\ t = acc + foldr Z.add 0 lens /\ acc <= t.
Proof.
  induction 1 as [|x lens Hx _ IH]; intros acc Ha Hb; cbn [sum_checked foldr]; [exists acc; split_and!; [done|lia..]|].
  rewrite zlen_cons in Hb. pose proof (zlen_nonneg lens). unfold chk_u64, checked. unfold u64_max in *.
  rewrite (proj2 (Z.leb_le _ _)), (proj2 (Z.ltb_lt _ _)) by nia. rb.
  destruct (IH (acc + x)) as (t & -> & -> & ?); [lia|nia|]. eexists. split_and!; [done|lia..].
Qed.

Lemma inject_prefix_ok {E} cache : forall lens i, (forall j len, get lens j = Some len -> 0 <= len /\
    (0 < len -> exists s, get cache (i + j) = Some (Some s) /\ len = 4 + zlen s)) ->
  exists p, inject_prefix (E:=E) lens cache i = Ok p /\ zlen p = foldr Z.add 0 lens.
Proof.
  induction lens as [|len lens IH]; intros i Hl; cbn [inject_prefix foldr]; [by exists []|].
  destruct (IH (i + 1)) as (p & -> & Hp).
  { intros j x Hj. pose proof (get_Some _ _ _ Hj). destruct (Hl (1 + j) x) as [? Hs]; [by rewrite get_cons_S by lia|].
    split; [done|]. by replace (i + 1 + j) with (i + (1 + j)) by lia. }
  destruct (Hl 0 len eq_refl) as [H0 Hs]. destruct (Z.ltb_spec 0 len) as [Hpos|Hz].
  - destruct (Hs Hpos) as (s & Gs & ->). rewrite Z.add_0_r in Gs. rewrite (proj2 (idx_Ok cache i _) Gs). rb. eexists. split; [done|].
    rewrite !zlen_app. change (zlen ANNEXB_START_CODE) with 4. lia.
  - rb. eexists. split; [done|]. cbn. lia.
Qed.

Lemma injected_ok {E} n c : core_ok n c -> fu c = None -> exists o, injected (E:=E) c = Ok o /\
  match o with Some b => zlen b <= max_au_bytes (config c) | None => True end.
Proof.
  intros [[[Hc0 Hc] _] Hst [Hsz _] _] Hfu. rewrite Hfu in Hsz. cbn [fu_len] in Hsz. unfold injected.
  destruct (au_has_idr c && match parameter_set_injection (config c) with BeforeIdr => true | NoInjection => false end); cycle 1.
  { eexists. split; [done|]. cbn. lia. }
  pose proof slots_range as Hslots. unfold MAX_PS_SLOTS in Hslots.
  destruct (inject_lens_ok (E:=E) c _ _ Hst eq_refl (Z.to_nat PS_SLOTS) 0) as (lens & -> & Hl & Hlens); [lia|lia|]. rb.
  assert (Forall (fun x => 0 <= x <= max_au_bytes (config c)) lens) as Hb.
  { apply Forall_lookup. intros i x Hi. destruct (Hlens (Z.of_nat i) x) as [H0 Hs].
    { unfold get. rewrite (proj2 (Z.ltb_ge _ _)) by lia. by rewrite Nat2Z.id. }
    destruct (Z.ltb_spec 0 x) as [Hp|]; [|lia]. destruct (Hs Hp) as (s & Gs & ->). destruct Hst as (_ & _ & Hcap & _). specialize (Hcap _ _ Gs).
    pose proof (zlen_nonneg s). lia. }
  assert (zlen lens <= 3) as Hl3 by (unfold zlen; lia).
  destruct (sum_checked_ok (E:=E) lens _ Hb 0) as (t & -> & -> & Ht); [lia|pose proof (zlen_nonneg lens); unfold u64_max; nia|]. rb. rewrite Z.add_0_l in *.
  destruct (0 <? _); [|eexists; split; [done|cbn; lia]]. pose proof (zlen_nonneg (au_buf c)).
  destruct (Z.ltb_spec (max_au_bytes (config c)) (Z.min u64_max (foldr Z.add 0 lens + zlen (au_buf c)))) as [|Hle]; [by exists None|].
  destruct (inject_prefix_ok (E:=E) (ps_cache c) lens 0 Hlens) as (p & -> & Hp). rb. eexists. split; [done|]. cbn beta iota. rewrite zlen_app, Hp. unfold u64_max in *. lia.
Qed.

Lemma i64_ok {E} x : Z.abs x <= 2 ^ 62 + 2 ^ 61 -> chk_i64 (E:=E) x = Ok x.
Proof. intros H. unfold chk_i64, i64_min, i64_max. by rewrite !(proj2 (Z.leb_le _ _)) by lia. Qed.

Lemma complete_ok {E} n c : core_ok n c -> 0 <= n <= 2 ^ 30 -> exists c', complete_au (E:=E) c = Ok c' /\ core_ok n c' /\ au_ts c' = None /\
  ts_unwrap c' = ts_unwrap c /\ pts_base c' = pts_base c /\ config c' = config c /\ (au_ts c = None -> c' = c).
Proof.
  intros Hok Hn. unfold complete_au. destruct (au_ts c) as [ts|] eqn:Hts; [|exists c; by split_and!].
  set (d := match fu c with Some _ => _ | None => c end).
  assert (core_ok n d /\ fu d = None /\ au_ts d = au_ts c /\ ts_unwrap d = ts_unwrap c /\ pts_base d = pts_base c /\ config d = config c /\
    au_ts_ext d = au_ts_ext c) as (Hd & Hf & Hdt & Hdu & Hdb & Hdc & Hde).
  { unfold d. destruct (fu c) eqn:Hfu; [|done]. split; [auto with depay|]. by split_and!. }
  clearbody d. rewrite <- Hdt, <- Hdu, <- Hdb, <- Hdc in *. clear Hok.
  destruct (bool_decide _ && _); [eexists; split_and!; [done|auto with depay|done..]|].
  destruct (au_poisoned d); [eexists; split_and!; [done|auto with depay|done..]|].
  destruct (injected_ok (E:=E) n d Hd Hf) as ([b|] & -> & Hb); rb; [|eexists; split_and!; [done|auto with depay|done..]].
  pose proof Hd as [H1 H2 H3 (T1 & T2 & T3)]. rewrite Hts in T3. destruct (pts_base d) as [base|] eqn:Hbase; [|done].
  destruct T3 as (t0 & s0 & n0 & -> & Hn0 & Hs0 & Ht0 & Hch & Hx). specialize (Hx ltac:(done)).
  assert (Z.abs (au_ts_ext d - (t0 - s0)) <= pts_limit n) as Hraw by (unfold pts_limit in *; lia).
  rewrite i64_ok by (unfold pts_limit in *; lia). rb. eexists. split; [done|]. split; [|by split_and!].
  apply reset_au_ok. split; cbn; [done| |done|].
  - destruct H2 as (? & ? & ? & ?). split_and!; try done. apply Forall_app. split; [done|]. by constructor.
  - rewrite Hbase. split; [done|]. split; [done|]. exists t0, s0, n0. by split_and!; try lia.
Qed.

(** ** Payloads *)

Definition handles (n : Z) (c : Core) (r : res Empty_set Core) : Prop :=
  exists c', r = Ok c' /\ core_ok n c' /\ same_frame c c'.

Lemma handles_ok n c c' : core_ok n c' -> same_frame c c' -> handles n c (Ok c').
Proof. intros. by exists c'. Qed.

Lemma handles_bind n c r k : handles n c r -> (forall c', core_ok n c' -> same_frame c c' -> handles n c' (k c')) -> handles n c (rbind r k).
Proof.
  intros (c' & -> & Hok & Hf) Hk. cbn. destruct (Hk c' Hok Hf) as (d & Hd & Hd' & Hf'). exists d. split_and!; [done|done|by etransitivity].
Qed.

Lemma cap_ok n c : 0 <= max_au_bytes (config c) <= 2 ^ 62 /\ max_au_bytes (config c) = cap -> stored (max_au_bytes (config c)) (ps_cache c) (au_has_ps c) (ready c) ->
  timed n (ts_unwrap c) (pts_base c) (last_emitted_pts c) (au_ts c) (au_ts_ext c) -> au_ts c <> None ->
  let r := check_and_apply_oversize_cap c in core_ok n r.2 /\ same_frame c r.2 /\ (r.1 = false -> r.2 = c).
Proof.
  intros Hc Hst Ht Hts. unfold check_and_apply_oversize_cap.
  change (match fu c with Some b => zlen b | None => 0 end) with (fu_len (fu c)).
  assert (0 <= fu_len (fu c)) by (destruct (fu c); cbn; [apply zlen_nonneg|lia]). pose proof (zlen_nonneg (au_buf c)).
  destruct (Z.leb_spec (Z.min u64_max (zlen (au_buf c) + fu_len (fu c))) (max_au_bytes (config c))); cbn [fst snd].
  - split_and!; [|done|done]. split; [done|done| |done]. split; [unfold u64_max in *; lia|done].
  - split_and!; [|done|done]. apply bump_ok. split; cbn; [done|done| |done]. split; [change (zlen []) with 0; cbn; lia|done].
Qed.

Lemma note_ok n d t nalu : core_ok n d -> handles n d (note_parameter_set d t nalu).
Proof.
  intros Hd. unfold note_parameter_set, handles. destruct (ps_slot t) as [slot|] eqn:Hslot; [|by exists d]. pose proof (slot_range t slot Hslot) as Hsr. pose proof slots_range as Hslr. unfold MAX_PS_SLOTS in Hslr.
  pose proof Hd as [H1 (Hcl & Hhl & Hcap & Hq) H3 H4]. rewrite put_single by lia. rb. cbv zeta.
  set (d1 := set_flags d _ _ _). assert (core_ok n d1 /\ same_frame d d1) as [Hd1 Hf1].
  { split; [|done]. split; cbn; try done. split_and!; try done. unfold zlen. by rewrite length_insert. }
  destruct (ps_within_cap _ _) eqn:Hcp; [|by exists d1]. destruct (idx_ok (E:=Empty_set) (ps_cache d1) slot) as (o & _ & ->); [cbn; lia|]. rb.
  case_bool_decide; [by exists d1|]. rewrite put_single by (cbn; lia). rb. eexists. split; [done|]. split; [|done]. apply bump_ok.
  destruct Hd1 as [K1 (K2 & K3 & K4 & K5) K6 K7]. split; try done. cbn. split_and!; [unfold zlen; rewrite length_insert; done|done| |done].
  intros i s Hg. pose proof (get_Some _ _ _ Hg) as Hi. rewrite get_insert in Hg by lia. destruct (slot =? i); [|by eapply Hcap].
  injection Hg as <-. apply Z.leb_le in Hcp. exact Hcp.
Qed.

Lemma push_owned_ok n c nalu : core_ok n c -> au_ts c <> None -> handles n c (push_nalu_owned c nalu).
Proof.
  intros Hok Hts. unfold push_nalu_owned. case_bool_decide as Hnil; [by apply handles_ok|]. destruct (au_poisoned c); [by apply handles_ok|].
  destruct (first_byte (E:=Empty_set) nalu Hnil) as (b & ->). rb. destruct (negb _); [apply handles_ok; [auto with depay|done]|].
  destruct (nal_type_total nalu Hnil) as (t & ->). rb.
  set (d := if is_idr t then _ else c).
  assert (core_ok n d /\ same_frame c d) as [Hd Hfd] by (unfold d; destruct (is_idr t); [|done]; destruct Hok; by split).
  clearbody d. assert (au_ts d <> None) as Hdts by (destruct Hfd as (_ & _ & _ & _ & _ & _ & -> & _); done).
  destruct (note_ok n d t nalu Hd) as (e & -> & He & Hfe).
  rb. destruct He as [H1 H2 H3 H4]. assert (au_ts e <> None) as Hets by (destruct Hfe as (_ & _ & _ & _ & _ & _ & -> & _); done).
  destruct (cap_ok n (set_buf e (au_buf e ++ ANNEXB_START_CODE ++ nalu))) as (Hr & Hfr & _); try done.
  eexists. split; [done|]. split; [done|]. etransitivity; [exact Hfd|]. etransitivity; [exact Hfe|]. exact Hfr.
Qed.

Lemma push_nalu_ok n c nalu : core_ok n c -> au_ts c <> None -> nalu <> [] -> handles n c (push_nalu c nalu).
Proof. intros ? ? ?. unfold push_nalu. rewrite bool_decide_eq_false_2 by done. by apply push_owned_ok. Qed.

Lemma close_ok n c e : core_ok n c -> au_ts c <> None -> fu c <> None -> handles n c (close_fu c e).
Proof.
  intros Hok Hts Hfu. unfold close_fu. destruct e; [|by apply handles_ok]. destruct (fu c) as [b|]; [|done].
  destruct (push_owned_ok n (set_fu c None) b) as (c' & -> & ? & ?); [auto with depay|done|]. exists c'. by split_and!.
Qed.

Lemma drop_frame c k : same_frame c (poison (drop_fu (bump c k))).
Proof. unfold drop_fu. change (fu (bump c k)) with (fu c). by destruct (fu c). Qed.

Lemma grow_ok n c buf e : core_ok n c -> au_ts c <> None ->
  handles n c (let (over, d) := check_and_apply_oversize_cap (set_fu c (Some buf)) in if over then Ok d else close_fu d e).
Proof.
  intros Hok Hts. destruct Hok as [H1 H2 H3 H4]. destruct (cap_ok n (set_fu c (Some buf))) as (Hr & Hfr & Heq); try done.
  destruct (check_and_apply_oversize_cap _) as [over d]. cbn [fst snd] in *. destruct over; [by exists d|]. specialize (Heq eq_refl). subst d.
  destruct (close_ok n (set_fu c (Some buf)) e Hr Hts ltac:(done)) as (d & -> & ? & ?). exists d. by split_and!.
Qed.

Lemma push_fragment_ok n c payload : core_ok n c -> au_ts c <> None -> handles n c (push_fragment c payload).
Proof.
  intros Hok Hts. unfold push_fragment. pose proof fu_prefix_pos as Hfp.
  destruct (Z.ltb_spec (zlen payload) FU_PREFIX_LEN) as [|Hl]; [apply handles_ok; [auto with depay|apply drop_frame]|].
  destruct (idx_ok (E:=Empty_set) payload 0) as (ind & _ & ->); [lia|]. rb.
  destruct (idx_ok (E:=Empty_set) payload (FU_PREFIX_LEN - 1)) as (fh & _ & ->); [lia|]. rb. rewrite slice_ok by lia. rb.
  destruct (negb _); [apply handles_ok; [auto with depay|apply drop_frame]|].
  destruct (_ && _); [apply handles_ok; [auto with depay|apply drop_frame]|].
  destruct (negb (Z.land fh 128 =? 0)).
  - set (d := match fu c with Some _ => _ | None => c end).
    assert (core_ok n d /\ same_frame c d) as [Hd Hfd] by (unfold d, drop_fu; destruct (fu c); [|done]; split; [auto with depay|done]).
    destruct (au_poisoned d); [by apply handles_ok|]. destruct (fu_header_total payload Hl) as (h & ->). rb.
    assert (au_ts d <> None) as Hdts by (destruct Hfd as (_ & _ & _ & _ & _ & _ & -> & _); done).
    destruct (grow_ok n d (h ++ ztake (zlen payload - FU_PREFIX_LEN) (zdrop FU_PREFIX_LEN payload)) (negb (Z.land fh 64 =? 0)) Hd Hdts) as (c' & Hc' & ? & ?).
    exists c'. split; [exact Hc'|]. split; [done|by etransitivity].
  - destruct (au_poisoned c); [by apply handles_ok|]. destruct (fu c) as [b|] eqn:Hfu; [by apply grow_ok|].
    apply handles_ok; [auto with depay|done].
Qed.

Lemma aggregation_ok n payload : bytes payload -> forall fuel c cursor, 0 <= cursor -> zlen payload - cursor < Z.of_nat fuel -> (0 < fuel)%nat ->
  core_ok n c -> au_ts c <> None -> handles n c (aggregation_loop fuel c payload cursor).
Proof.
  intros Hb. induction fuel as [|fuel IH]; intros c cursor Hcu Hf H0 Hok Hts; [lia|]. cbn [aggregation_loop].
  assert (handles n c (Ok (malformed_aggregate c))) as Hmal by (apply handles_ok; [|done]; destruct Hok; by split).
  destruct (Z.ltb_spec cursor (zlen payload)) as [Hlt|]; [|by apply handles_ok]. destruct (Z.ltb_spec (zlen payload) (cursor + 2)); [done|].
  destruct (idx_ok (E:=Empty_set) payload cursor) as (a & Ga & ->); [lia|]. destruct (idx_ok (E:=Empty_set) payload (cursor + 1)) as (b & Gb & ->); [lia|]. rb.
  pose proof (bytes_get _ _ _ Hb Ga) as Ba. pose proof (bytes_get _ _ _ Hb Gb) as Bb. unfold byte in Ba, Bb. unfold from_be16. set (sz := a * 256 + b).
  destruct (Z.eqb_spec sz 0) as [|Hsz]; [done|]. cbn [orb]. destruct (Z.ltb_spec (zlen payload) (cursor + 2 + sz)); [done|].
  rewrite slice_ok by lia. rb. apply handles_bind.
  - apply push_nalu_ok; [done|done|]. intros He. apply (f_equal zlen) in He. rewrite zlen_ztake in He; [change (zlen []) with 0 in He; lia|]. rewrite zlen_zdrop; lia.
  - intros c' Hok' Hf'. apply IH; [lia|lia|lia|done|]. destruct Hf' as (_ & _ & _ & _ & _ & _ & -> & _). done.
Qed.

Lemma dispatch_ok n c payload : core_ok n c -> au_ts c <> None -> payload <> [] -> bytes payload -> handles n c (dispatch c payload).
Proof.
  intros Hok Hts Hp Hb. unfold dispatch. destruct (classify_total payload Hp) as (k & ->). rb. destruct k.
  - by apply push_nalu_ok.
  - pose proof agg_prefix_pos. apply aggregation_ok; try done; [unfold zlen; lia|lia].
  - by apply push_fragment_ok.
  - apply handles_ok; [auto with depay|done].
  - apply handles_ok; [auto with depay|done].
Qed.

(** ** Packets *)

Lemma timed_next n u b e ts x : 0 <= n -> timed n u b e ts x -> timed (n + 1) u b e ts x.
Proof.
  intros Hn (H1 & H2 & H3). unfold timed, pts_limit, ext_limit in *. split; [lia|]. split.
  - destruct (last u) as [[raw y]|]; [lia|done].
  - destruct b as [b|]; [|done]. destruct H3 as (t0 & s0 & n0 & -> & ? & ? & ? & Hc & Hx). exists t0, s0, n0.
    split_and!; try done; try lia; [intros raw y Hl; specialize (Hc raw y Hl); lia|intros Hts; specialize (Hx Hts); lia].
Qed.

Lemma check_ssrc_ok n c h : core_ok n c -> core_ok n (check_ssrc c h).
Proof.
  intros Hok. unfold check_ssrc. destruct (core_ssrc c) as [k|].
  - destruct (negb _); [|done]. apply bump_ok. destruct (reset_au_ok n c Hok) as [H1 H2 H3 (T1 & _ & _)]. by split.
  - destruct Hok as [H1 H2 H3 H4]. by split.
Qed.

Lemma check_seq_ok n c h : core_ok n c -> core_ok n (check_seq c h).2.
Proof.
  intros Hok. unfold check_seq. destruct (last_seq c); [|done]. repeat ifs; cbn [snd]; auto with depay.
Qed.

Lemma as_i32_range x : - 2 ^ 31 <= as_i32 x < 2 ^ 31.
Proof. unfold as_i32, as_u32. pose proof (Z.mod_pos_bound x (2 ^ 32)). destruct (Z.ltb_spec (x mod 2 ^ 32) (2 ^ 31)); lia. Qed.

(** The chain after one more packet. *)
Lemma unwrap_ok {E} n u b e ts x raw : 0 <= n < 2 ^ 30 -> 0 <= raw < 2 ^ 32 -> timed n u b e ts x ->
  exists y, unwrap (E:=E) u raw = Ok (y, {| last := Some (raw, y) |}) /\ timed (n + 1) {| last := Some (raw, y) |} b e ts x /\
    Z.abs y <= ext_limit (n + 1).
Proof.
  intros Hn Hr (T1 & T2 & T3). unfold unwrap. unfold ext_limit, pts_limit in *. destruct (last u) as [[r0 y0]|] eqn:Hl.
  - pose proof (as_i32_range (raw - r0)) as Hd. rewrite i64_ok by lia. rb. eexists. split; [done|]. split; [|lia]. unfold timed, ext_limit, pts_limit. cbn [last].
    split; [lia|]. split; [lia|]. destruct b as [b|]; [|done]. destruct T3 as (t0 & s0 & n0 & -> & ? & ? & ? & Hc & Hx). exists t0, s0, n0.
    specialize (Hc _ _ eq_refl). split_and!; try done; try lia; [intros ? ? [= <- <-]; lia|intros Hts; specialize (Hx Hts); lia].
  - subst b. rb. eexists. split; [done|]. split; [|lia]. unfold timed, ext_limit, pts_limit. cbn [last]. split; [lia|]. split; [lia|]. exact T3.
Qed.

Lemma check_boundary_ok n c h g : core_ok n c -> 0 <= n < 2 ^ 30 -> 0 <= timestamp h < 2 ^ 32 ->
  exists c', check_boundary c h g = Ok c' /\ core_ok (n + 1) c' /\ au_ts c' <> None.
Proof.
  intros Hok Hn Hts. unfold check_boundary. pose proof Hok as [H1 H2 H3 H4].
  destruct (unwrap_ok (E:=Empty_set) n _ _ _ _ _ (timestamp h) Hn Hts H4) as (y & -> & Ht & Hy). rb. cbn [ts_unwrap].
  set (d := set_track c _ _ _ _). assert (core_ok (n + 1) d) as Hd by (by split).
  assert (exists e, match au_ts d with Some open_ts => if negb (timestamp h =? open_ts) then complete_au d else Ok d | None => Ok d end = Ok (E:=Empty_set) e /\
    core_ok (n + 1) e /\ ts_unwrap e = {| last := Some (timestamp h, y) |} /\ pts_base e = pts_base c /\ (au_ts c = None -> e = d))
    as (e & -> & He & Heu & Hbe & Hsame).
  { destruct (au_ts d) as [t|]; [|by exists d]. destruct (negb _); [|by exists d].
    destruct (complete_ok (E:=Empty_set) (n + 1) d Hd) as (e & -> & ? & _ & Hu & Hb & _ & Hs); [lia|]. by exists e. }
  rb. destruct (au_ts e) as [t|] eqn:Hte.
  { rb. eexists. split; [done|]. split; [|by destruct (g && _); [|destruct (negb g)]; cbn; rewrite Hte].
    destruct (g && _); [auto with depay|]. destruct (negb g); auto with depay. }
  set (o := set_open e (Some (timestamp h)) y).
  assert (exists f, match pts_base o with
    | None => let! start := chk_i64 (last_emitted_pts o + SSRC_RESET_PTS_STEP) in let! base := chk_i64 (y - start) in Ok (set_base o (Some base))
    | Some _ => Ok o end = Ok (E:=Empty_set) f /\ core_ok (n + 1) f /\ au_ts f = Some (timestamp h)) as (f & -> & Hf & Hfts).
  { destruct He as [K1 K2 [K3 K3'] (T1 & T2 & T3)]. cbn [pts_base o set_open last_emitted_pts]. rewrite Heu in T2. cbn [last] in T2.
    destruct (K3' Hte) as [Kb Kf].
    assert (sized (max_au_bytes (config e)) (Some (timestamp h)) (au_buf e) (fu e)) as Ks by (split; [done|discriminate]).
    destruct (pts_base e) as [b|] eqn:Hb.
    - exists o. split; [done|]. split; [|done]. split; [done|done|done|]. cbn. rewrite Hb, Heu. destruct T3 as (t0 & s0 & n0 & -> & ? & ? & ? & Hc & _).
      split; [done|]. split; [done|]. exists t0, s0, n0. rewrite Heu in Hc. specialize (Hc _ _ eq_refl).
      split_and!; try done; try lia. by intros ? ? [= <- <-].
    - destruct H4 as (T1' & _ & T3'). rewrite <- Hbe in T3'. specialize (Hsame T3').
      assert (last_emitted_pts e = last_emitted_pts c) as Hle by (by rewrite Hsame). rewrite Hle in *.
      unfold SSRC_RESET_PTS_STEP. unfold pts_limit, ext_limit in *. rewrite i64_ok by lia. rb. rewrite i64_ok by lia. rb. eexists. split; [done|]. split; [|done].
      split; [done|done|done|]. cbn. rewrite Heu. unfold timed, pts_limit, ext_limit. cbn [last]. rewrite Hle. split; [lia|]. split; [lia|].
      exists y, (last_emitted_pts c + 3003), (n + 1). split_and!; try done; try lia. intros ? ? [= <- <-]. lia. }
  rb. assert (core_ok (n + 1) (if g || gap_pending f then poison f else f)) as Hp by (destruct (g || _); auto with depay).
  assert (au_ts (if g || gap_pending f then poison f else f) = Some (timestamp h)) as Hpt by (destruct (g || _); done).
  eexists. split; [done|]. split; [|by destruct (g && _); [|destruct (negb g)]; cbn; rewrite Hpt].
  destruct (g && _); [auto with depay|]. destruct (negb g); auto with depay.
Qed.

Lemma core_next n c : 0 <= n -> core_ok n c -> core_ok (n + 1) c.
Proof. intros Hn [H1 H2 H3 H4]. split; try done. by apply timed_next. Qed.

Lemma feed_ok n c h payload : core_ok n c -> 0 <= n < 2 ^ 30 -> 0 <= timestamp h < 2 ^ 32 -> bytes payload ->
  exists c', feed c h payload = Ok c' /\ core_ok (n + 1) c'.
Proof.
  intros Hok Hn Hts Hb. unfold feed. pose proof (check_seq_ok n _ h (check_ssrc_ok n c h Hok)) as Hs.
  destruct (check_seq _ h) as [[g|] d]; cbn [snd] in Hs; [|exists d; split; [done|apply core_next; [lia|done]]].
  destruct (check_boundary_ok n d h g Hs Hn Hts) as (e & -> & He & Hets). rb.
  case_bool_decide as Hp; [eexists; split; [done|auto with depay]|].
  destruct (dispatch_ok (n + 1) e payload He Hets Hp Hb) as (f & -> & Hf & _). rb.
  destruct (marker h); [|by exists f]. destruct (complete_ok (E:=Empty_set) (n + 1) f Hf) as (f' & -> & Hf' & _); [lia|]. rb.
  eexists. split; [done|auto with depay].
Qed.

Lemma seed_ok lim seeds : forall cache, zlen cache = 3 -> (forall i s, get cache i = Some (Some s) -> 4 + zlen s <= lim) ->
  exists cache', seed_cache lim seeds cache = Ok cache' /\ zlen cache' = 3 /\ (forall i s, get cache' i = Some (Some s) -> 4 + zlen s <= lim).
Proof.
  induction seeds as [|nalu seeds IH]; intros cache Hl Hc; cbn [seed_cache]; [by exists cache|].
  case_bool_decide as Hnil; cbn [orb]; [by apply IH|]. destruct (ps_within_cap (zlen nalu) lim) eqn:Hcap; cbn [negb]; [|by apply IH].
  destruct (nal_type_total nalu Hnil) as (t & ->). rb. destruct (ps_slot t) as [slot|] eqn:Hslot; [|by apply IH].
  pose proof (slot_range t slot Hslot) as Hsr. pose proof slots_range as Hslr. unfold MAX_PS_SLOTS in Hslr. rewrite put_single by lia. rb.
  apply IH; [unfold zlen; by rewrite length_insert|]. intros i s Hg. pose proof (get_Some _ _ _ Hg). rewrite get_insert in Hg by lia.
  destruct (slot =? i); [|by eapply Hc]. injection Hg as <-. apply Z.leb_le in Hcap. exact Hcap.
Qed.

Lemma depay_new_ok cfg : 0 <= max_au_bytes cfg <= 2 ^ 62 -> max_au_bytes cfg = cap -> exists c, new_core cfg = Ok c /\ core_ok 0 c.
Proof.
  intros Hc Heq. unfold new_core. pose proof slots_range as Hslr. rewrite (proj2 (Z.leb_le _ _)) by lia.
  destruct (seed_ok (max_au_bytes cfg) (initial_parameter_sets cfg) [None; None; None]) as (cache & -> & Hl & Hcache); [done| |].
  { intros i s Hg. pose proof (get_Some _ _ _ Hg) as Hi. change (zlen [None; None; None]) with 3 in Hi.
    assert (i = 0 \/ i = 1 \/ i = 2) as [-> |[-> | ->]] by lia; discriminate Hg. }
  rb. eexists. split; [done|]. split; cbn; [done|by split_and!| |].
  - split; [change (zlen []) with 0; cbn; lia|done].
  - unfold timed, pts_limit, SSRC_RESET_PTS_STEP. cbn. split; [lia|]. done.
Qed.

End Format.

(** ** Any use of a depacketizer *)

Inductive depay_op : Type := Feed (h : RtpHeader) (payload : list Z) | NextAu | Flush.

Definition op_typed (o : depay_op) : Prop :=
  match o with Feed h p => RtpTheorems.header_typed h /\ bytes p | _ => True end.

Definition depay_step {F : Format} (c : Core) (o : depay_op) : res Empty_set (list AccessUnit * Core) :=
  match o with
  | Feed h p => let! c := feed c h p in Ok ([], c)
  | NextAu => let (a, c) := next_au c in Ok (option_list a, c)
  | Flush => let! (a, c) := flush c in Ok (option_list a, c)
  end.

Fixpoint depay_run {F : Format} (c : Core) (os : list depay_op) : res Empty_set (list AccessUnit * Core) :=
  match os with
  | [] => Ok ([], c)
  | o :: os => let! (a, c) := depay_step c o in let! (rest, c) := depay_run c os in Ok (a ++ rest, c)
  end.

Section Run.
Context {F : Format} {L : FormatLaws F}.

Lemma next_au_ok n c : core_ok n c -> core_ok n (next_au c).2 /\ Forall (fun a => zlen (annexb a) <= cap) (option_list (next_au c).1).
Proof.
  intros Hok. pose proof Hok as [[H1 H1'] (K1 & K2 & K3 & K4) H3 H4]. unfold next_au. destruct (ready c) as [|a q] eqn:Hq; cbn [fst snd option_list]; [by split_and!|].
  apply Forall_cons in K4 as [Ka Kq]. rewrite H1' in Ka. split; [|by repeat constructor]. by split.
Qed.

Lemma step_ok n c o : core_ok n c -> 0 <= n < 2 ^ 30 -> op_typed o ->
  exists a c', depay_step c o = Ok (a, c') /\ core_ok (n + 1) c' /\ Forall (fun a => zlen (annexb a) <= cap) a.
Proof.
  intros Hok Hn Ho. destruct o as [h p| |]; cbn [depay_step op_typed] in *.
  - destruct Ho as [(_ & Hts & _) Hp]. destruct (feed_ok n c h p Hok Hn Hts Hp) as (c' & -> & Hc'). rb. by eexists _, c'.
  - destruct (next_au_ok n c Hok) as (Hc & Ha). destruct (next_au c) as [a c']. eexists _, c'. split; [done|]. split; [apply core_next; [lia|done]|done].
  - unfold flush. destruct (complete_ok (E:=Empty_set) n c Hok) as (c' & -> & Hc' & _); [lia|]. rb. destruct (next_au_ok n c' Hc') as (Hc & Ha).
    destruct (next_au c') as [a c'']. eexists _, c''. split; [done|]. split; [apply core_next; [lia|done]|done].
Qed.

Lemma depay_run_ok os : forall n c, core_ok n c -> 0 <= n -> n + zlen os <= 2 ^ 30 -> Forall op_typed os ->
  exists a c', depay_run c os = Ok (a, c') /\ core_ok (n + zlen os) c' /\ Forall (fun a => zlen (annexb a) <= cap) a.
Proof.
  induction os as [|o os IH]; intros n c Hok Hn Hl Ho; cbn [depay_run].
  - exists [], c. split; [done|]. split; [by rewrite zlen_nil, Z.add_0_r|constructor].
  - apply Forall_cons in Ho as [Ho Hos]. rewrite zlen_cons in *. pose proof (zlen_nonneg os).
    destruct (step_ok n c o Hok ltac:(lia) Ho) as (a & c1 & -> & H1 & Ha). rb.
    destruct (IH (n + 1) c1 H1) as (b & c2 & -> & H2 & Hb); [lia|lia|done|]. rb. exists (a ++ b), c2. split; [done|].
    split; [by replace (n + (1 + zlen os)) with (n + 1 + zlen os) by lia|by apply Forall_app].
Qed.

End Run.
End Cap.
End DepayInv.

(** * Results *)
Module DepayTheorems.
Import RtpPacket Depay DepayOps DepayLaws DepayInv Formats.

(** C20: whatever packets arrive, in whatever order, and however the caller
    interleaves reads and flushes, a depacketizer of either format does not
    panic over its first 2^30 calls, the bytes it holds for the open access unit
    never exceed the configured cap, no cached parameter set does with its start
    code, and no access unit it hands out is larger than the cap. *)
Theorem depacketizer_bounded (F : Format) (cfg : DepayConfig) (os : list depay_op) :
  F = H264 \/ F = H265 -> 0 <= max_au_bytes cfg <= 2 ^ 62 -> Forall op_typed os -> zlen os <= 2 ^ 30 ->
  exists c0 aus c, new_core cfg = Ok c0 /\ depay_run c0 os = Ok (aus, c) /\
    zlen (au_buf c) + match fu c with Some b => zlen b | None => 0 end <= max_au_bytes cfg /\
    (forall i s, get (ps_cache c) i = Some (Some s) -> 4 + zlen s <= max_au_bytes cfg) /\
    Forall (fun a => zlen (annexb a) <= max_au_bytes cfg) (aus ++ ready c).
Proof.
  intros HF Hc Ho Hl. assert (FormatLaws F) as L by (destruct HF as [-> | ->]; apply _). pose proof (zlen_nonneg os).
  destruct (depay_new_ok (cap:=max_au_bytes cfg) cfg Hc eq_refl) as (c0 & H0 & Hok). destruct (depay_run_ok os 0 c0 Hok) as (aus & c & Hr & [[_ Hcap] Hst [Hsz _] _] & Ha); [lia|lia|done|].
  exists c0, aus, c. rewrite Hcap in *. destruct Hst as (_ & _ & Hps & Hq). split_and!; try done. by apply Forall_app.
Qed.

(** Two packets of a fragmented unit, the second lost, and a flush. *)
Lemma depacketizer_bounded_witness :
  let h := {| seq := 5; timestamp := 90000; ssrc := 1; marker := false; payload_type := 96 |} in
  exists c0 aus c, new_core (F:=H264) DepayConfig_default = Ok c0 /\
    depay_run (F:=H264) c0 [Feed h [0x7C; 0x85; 1; 2]; NextAu; Flush] = Ok (aus, c) /\ aus = [] /\ aus_dropped (stats c) = 1.
Proof.
  intros h. destruct (depacketizer_bounded H264 DepayConfig_default [Feed h [0x7C; 0x85; 1; 2]; NextAu; Flush]) as (c0 & aus & c & H1 & H2 & _).
  - by left.
  - cbn. lia.
  - repeat constructor; cbn; lia.
  - vm_compute. discriminate.
  - exists c0, aus, c. split; [exact H1|]. split; [exact H2|]. vm_compute in H1. injection H1 as <-. vm_compute in H2. injection H2 as <- <-. split; reflexivity.
Defined.

End DepayTheorems.
