(* ===== verification/RtpCarriage.v ===== *)
(** How NAL units travel in RTP packets: the payloads that carry a unit, what
    the depacketizer makes of them, and that the packetizers of H.264 and H.265
    produce such payloads. *)
From Stdlib Require Import ZArith Lia Bool.
From stdpp Require Import base list list_numbers.
From S2P Require Import Prelude.
From S2P Require Import RtpPacket RtpDepay.

(** * How a NAL unit travels *)
Module Carriage.
Import RtpPacket Depay DepayOps.

Section Format.
Context {F : Format}.

Definition framed (ns : list (list Z)) : list Z := concat (map (fun n => ANNEXB_START_CODE ++ n) ns).

Definition idr (n : list Z) : bool := match nal_type n with Ok t => is_idr t | _ => false end.

(** A fragmentation unit with its start and end bits and the bytes it carries. *)
Record is_fragment (s e : bool) (part p : list Z) : Prop := {
  fr_class : classify p = Ok Fragment;
  fr_len : FU_PREFIX_LEN <= zlen p;
  fr_ind : exists b, idx (E:=Empty_set) p 0 = Ok b /\ Z.land b 0x80 = 0;
  fr_fh : exists fh, idx (E:=Empty_set) p (FU_PREFIX_LEN - 1) = Ok fh /\
    (Z.land fh 0x80 =? 0) = negb s /\ (Z.land fh 0x40 =? 0) = negb e;
  fr_part : slice (E:=Empty_set) p FU_PREFIX_LEN (zlen p) = Ok part }.

(** The payloads that carry one NAL unit. *)
Inductive carried (n : list Z) : list (list Z) -> Prop :=
| carried_whole : n <> [] -> classify n = Ok Single -> carried n [n]
| carried_cut hd part0 p0 mids ps partl pl :
    n <> [] -> n = hd ++ part0 ++ concat mids ++ partl -> fu_nal_header p0 = Ok hd -> is_fragment true false part0 p0 ->
    Forall2 (is_fragment false false) mids ps -> is_fragment false true partl pl -> carried n (p0 :: ps ++ [pl]).

(** The payloads still to come for a unit of which the bytes [buf] are in. *)
Inductive rest_of (n : list Z) : list Z -> list (list Z) -> Prop :=
| rest_cut buf mids ps partl pl :
    n <> [] -> n = buf ++ concat mids ++ partl -> Forall2 (is_fragment false false) mids ps -> is_fragment false true partl pl ->
    rest_of n buf (ps ++ [pl]).

(** The payloads still to come for an access unit. *)
Inductive remains : option (list Z) -> list (list Z) -> list (list Z) -> Prop :=
| remains_none ns chunks : Forall2 carried ns chunks -> remains None ns (concat chunks)
| remains_open n ns buf r chunks : rest_of n buf r -> Forall2 carried ns chunks -> remains (Some buf) (n :: ns) (r ++ concat chunks).

Lemma carried_nonempty n ps : carried n ps -> ps <> [].
Proof. by destruct 1. Qed.

Lemma remains_nil f ns : remains f ns [] -> f = None /\ ns = [].
Proof.
  inversion 1 as [ns0 chunks Hc Hf Hn He|n ns0 buf r chunks Hr Hc Hf Hn He]; subst.
  - destruct Hc as [|n ps ns' chunks Hp _]; [done|]. apply carried_nonempty in Hp. cbn in He. by destruct ps.
  - destruct Hr. by destruct ps.
Qed.

Lemma framed_app a b : framed (a ++ b) = framed a ++ framed b.
Proof. unfold framed. by rewrite map_app, concat_app. Qed.

(** ** Processing a payload *)

(** How far the open access unit is: its first units are in the buffer. *)
Definition progress (c : Core) (nals todo : list (list Z)) : Prop :=
  exists done_ ns, nals = done_ ++ ns /\ remains (fu c) ns todo /\ au_buf c = framed done_ /\ au_has_idr c = existsb idr done_.

Definition fits (c : Core) (n : Z) : Prop := n <= max_au_bytes (config c).

Lemma cap_cases c : let r := check_and_apply_oversize_cap c in
  (r.1 = false /\ r.2 = c) \/
  (r.1 = true /\ au_poisoned r.2 = true /\ ~ fits c (zlen (au_buf c) + match fu c with Some b => zlen b | None => 0 end)).
Proof.
  unfold check_and_apply_oversize_cap, fits. destruct (Z.leb_spec (Z.min u64_max (zlen (au_buf c) + match fu c with Some b => zlen b | None => 0 end))
    (max_au_bytes (config c))); [by left|]. right. split_and!; [done|done|]. cbn [fst snd] in *. lia.
Qed.

Lemma note_frame c t n c' : note_parameter_set c t n = Ok c' ->
  au_buf c' = au_buf c /\ fu c' = fu c /\ au_has_idr c' = au_has_idr c /\ au_poisoned c' = au_poisoned c /\ config c' = config c.
Proof.
  unfold note_parameter_set. destruct (ps_slot t) as [slot|]; [|by intros [= <-]]. intros (has & _ & H)%rbind_ok. cbv zeta in H.
  destruct (ps_within_cap _ _); [|by injection H as <-]. apply rbind_ok in H as (o & _ & H). case_bool_decide; [by injection H as <-|].
  apply rbind_ok in H as (cache & _ & H). by injection H as <-.
Qed.

Lemma push_progress c n c' : push_nalu_owned c n = Ok c' -> au_poisoned c = false -> n <> [] ->
  (au_poisoned c' = false /\ au_buf c' = au_buf c ++ framed [n] /\ fu c' = fu c /\ au_has_idr c' = au_has_idr c || idr n) \/
  (au_poisoned c' = true /\ ((exists b, idx (E:=Empty_set) n 0 = Ok b /\ Z.land b 0x80 <> 0) \/
     ~ fits c (zlen (au_buf c) + (4 + zlen n) + match fu c with Some b => zlen b | None => 0 end))).
Proof.
  intros H Hp Hn. unfold push_nalu_owned in H. rewrite bool_decide_eq_false_2, Hp in H by done.
  apply rbind_ok in H as (b & Hb & H). destruct (Z.eqb_spec (Z.land b 128) 0); cbn [negb] in H.
  2:{ injection H as <-. right. split; [done|]. left. by exists b. }
  apply rbind_ok in H as (t & Ht & H). apply rbind_ok in H as (d & Hd & H). cbv zeta in H.
  assert (c' = (check_and_apply_oversize_cap (set_buf d (au_buf d ++ ANNEXB_START_CODE ++ n))).2) as -> by congruence. clear H. apply note_frame in Hd as (H1 & H2 & H3 & H4 & H5).
  assert (au_has_idr d = au_has_idr c || idr n) as Hi.
  { rewrite H3. unfold idr. rewrite Ht. destruct (is_idr t); cbn; [by rewrite orb_true_r|by rewrite orb_false_r]. }
  assert (au_buf d = au_buf c /\ fu d = fu c /\ au_poisoned d = false /\ config d = config c) as (Kb & Kf & Kp & Kc) by (rewrite H1, H2, H4, H5; by destruct (is_idr t)).
  destruct (cap_cases (set_buf d (au_buf d ++ ANNEXB_START_CODE ++ n))) as [(_ & ->)|(_ & Hpo & Hf)].
  - left. cbn [set_buf set_acc au_poisoned au_buf fu au_has_idr]. rewrite Kp, Kb, Kf, Hi. split_and!; try done. unfold framed. cbn [map concat]. by rewrite app_nil_r.
  - right. split; [done|]. right. unfold fits in *. cbn [set_buf set_acc au_buf fu config] in Hf. rewrite Kb, Kf, Kc, !zlen_app in Hf.
    change (zlen ANNEXB_START_CODE) with 4 in Hf. lia.
Qed.

(** A poisoned access unit stays poisoned. *)
Lemma push_poisoned c n : au_poisoned c = true -> push_nalu_owned c n = Ok c.
Proof. intros Hp. unfold push_nalu_owned. rewrite Hp. by case_bool_decide. Qed.

Lemma fragment_poisoned c p c' : push_fragment c p = Ok c' -> au_poisoned c = true -> au_poisoned c' = true /\ ps_cache c' = ps_cache c.
Proof.
  assert (forall k, au_poisoned (poison (drop_fu (bump c k))) = true /\ ps_cache (poison (drop_fu (bump c k))) = ps_cache c) as Hd
    by (intros k; unfold drop_fu; cbn [fu bump set_stats]; by destruct (fu c)).
  intros H Hp. unfold push_fragment in H. destruct (_ <? _); [by injection H as <-|].
  apply rbind_ok in H as (ind & _ & (fh & _ & (part & _ & H)%rbind_ok)%rbind_ok). destruct (negb (Z.land ind 128 =? 0)); [by injection H as <-|].
  cbv zeta in H. destruct (_ && _); [by injection H as <-|]. destruct (negb (Z.land fh 128 =? 0)).
  - set (d := match fu c with Some _ => poison (drop_fu c) | None => c end) in *.
    assert (au_poisoned d = true /\ ps_cache d = ps_cache c) as [Hp' Hc'] by (unfold d, drop_fu; by destruct (fu c)).
    rewrite Hp' in H. by injection H as <-.
  - rewrite Hp in H. by injection H as <-.
Qed.

Lemma aggregation_poisoned p : forall fuel c cursor c', aggregation_loop fuel c p cursor = Ok c' -> au_poisoned c = true ->
  au_poisoned c' = true /\ ps_cache c' = ps_cache c.
Proof.
  induction fuel as [|fuel IH]; intros c cursor c' H Hp; [done|]. cbn [aggregation_loop] in H. destruct (_ <? _); [|by injection H as <-].
  destruct (_ <? _); [by injection H as <-|]. apply rbind_ok in H as (a & _ & (b & _ & H)%rbind_ok). cbv zeta in H.
  destruct (_ || _); [by injection H as <-|]. apply rbind_ok in H as (n & _ & (d & Hd & H)%rbind_ok). unfold push_nalu in Hd.
  destruct (negb _); [|done]. rewrite push_poisoned in Hd by done. injection Hd as <-. by eapply IH.
Qed.

Lemma dispatch_poisoned c p c' : dispatch c p = Ok c' -> au_poisoned c = true -> au_poisoned c' = true /\ ps_cache c' = ps_cache c.
Proof.
  intros H Hp. unfold dispatch in H. apply rbind_ok in H as (k & _ & H). destruct k.
  - unfold push_nalu in H. destruct (negb _); [|done]. rewrite push_poisoned in H by done. by injection H as <-.
  - by eapply aggregation_poisoned.
  - by eapply fragment_poisoned.
  - by injection H as <-.
  - by injection H as <-.
Qed.

(** Why a unit may still be lost: a set error bit, or no room. *)
Definition refused (c : Core) (nals : list (list Z)) : Prop :=
  (exists n b, n ∈ nals /\ idx (E:=Empty_set) n 0 = Ok b /\ Z.land b 0x80 <> 0) \/ ~ fits c (zlen (framed nals)).

Definition advances (c c' : Core) (nals todo : list (list Z)) : Prop :=
  (au_poisoned c' = false /\ progress c' nals todo) \/ (au_poisoned c' = true /\ refused c nals).

Lemma framed_cons n ns : framed (n :: ns) = ANNEXB_START_CODE ++ n ++ framed ns.
Proof. unfold framed. cbn [map concat]. by rewrite <- app_assoc. Qed.

Lemma framed_size done_ n ns : zlen (framed (done_ ++ n :: ns)) = zlen (framed done_) + (4 + zlen n) + zlen (framed ns).
Proof. rewrite framed_app, framed_cons, !zlen_app. change (zlen ANNEXB_START_CODE) with 4. lia. Qed.

(** A completed unit goes into the buffer. *)
Lemma push_advances c d n done_ ns chunks c' : push_nalu_owned d n = Ok c' -> au_poisoned d = false -> fu d = None -> config d = config c ->
  n <> [] -> au_buf d = framed done_ -> au_has_idr d = existsb idr done_ -> Forall2 carried ns chunks ->
  advances c c' (done_ ++ n :: ns) (concat chunks).
Proof.
  intros H Hp Hf Hcfg Hn Hb Hi Hc. pose proof (zlen_nonneg (framed ns)). destruct (push_progress d n c' H Hp Hn) as [(K1 & H2 & H3 & H4)|(K1 & Hw)].
  - left. split; [done|]. exists (done_ ++ [n]), ns. split; [by rewrite <- app_assoc|]. rewrite H3, Hf. split; [by apply remains_none|].
    split; [by rewrite H2, Hb, framed_app|]. rewrite H4, Hi, existsb_app. cbn. by rewrite orb_false_r.
  - right. split; [done|]. destruct Hw as [(b & Hb0 & Hl)|Hl].
    + left. exists n, b. split; [apply elem_of_app; right; constructor|done].
    + right. unfold fits in *. rewrite Hf, Hb, Hcfg in Hl. rewrite framed_size. lia.
Qed.

(** More of a unit is in, or all of it. *)
Lemma grow_more c d n done_ ns buf ps pl mids partl chunks c' :
  (let (over, x) := check_and_apply_oversize_cap (set_fu d (Some buf)) in if over then Ok x else close_fu x false) = Ok c' ->
  au_poisoned d = false -> config d = config c -> n <> [] -> au_buf d = framed done_ -> au_has_idr d = existsb idr done_ -> Forall2 carried ns chunks ->
  n = buf ++ concat mids ++ partl -> Forall2 (is_fragment false false) mids ps -> is_fragment false true partl pl ->
  advances c c' (done_ ++ n :: ns) ((ps ++ [pl]) ++ concat chunks).
Proof.
  intros H Hp Hcfg Hn Hb Hi Hc He Hm Hl. pose proof (zlen_nonneg (framed ns)). pose proof (zlen_nonneg (concat mids ++ partl)).
  destruct (cap_cases (set_fu d (Some buf))) as [[K1 H2]|(K1 & H2 & H3)]; destruct (check_and_apply_oversize_cap _) as [over x]; cbn [fst snd] in *; subst over.
  - subst x. injection H as <-. left. split; [done|]. exists done_, (n :: ns). split; [done|]. split; [apply (remains_open n ns buf); [by eapply rest_cut|done]|done].
  - injection H as <-. right. split; [done|]. right. unfold fits in *. cbn [set_fu set_acc au_buf fu config] in H3. rewrite Hb, Hcfg in H3.
    rewrite framed_size, He, zlen_app. lia.
Qed.

Lemma grow_last c d n done_ ns chunks c' :
  (let (over, x) := check_and_apply_oversize_cap (set_fu d (Some n)) in if over then Ok x else close_fu x true) = Ok c' ->
  au_poisoned d = false -> config d = config c -> n <> [] -> au_buf d = framed done_ -> au_has_idr d = existsb idr done_ -> Forall2 carried ns chunks ->
  advances c c' (done_ ++ n :: ns) (concat chunks).
Proof.
  intros H Hp Hcfg Hn Hb Hi Hc. pose proof (zlen_nonneg (framed ns)).
  destruct (cap_cases (set_fu d (Some n))) as [[K1 H2]|(K1 & H2 & H3)]; destruct (check_and_apply_oversize_cap _) as [over x]; cbn [fst snd] in *; subst over.
  - subst x. by apply (push_advances c _ n done_ ns chunks c' H).
  - injection H as <-. right. split; [done|]. right. unfold fits in *. cbn [set_fu set_acc au_buf fu config] in H3. rewrite Hb, Hcfg in H3.
    rewrite framed_size. lia.
Qed.

(** What [push_fragment] makes of a fragment. *)
Lemma fragment_step s e part p c : is_fragment s e part p -> au_poisoned c = false -> negb (s && e) = true ->
  push_fragment c p =
  if s then
    let c := match fu c with Some _ => poison (drop_fu c) | None => c end in
    if au_poisoned c then Ok c
    else
      let! buf := fu_nal_header p in
      let (over, c) := check_and_apply_oversize_cap (set_fu c (Some (buf ++ part))) in if over then Ok c else close_fu c e
  else
    match fu c with
    | Some buf => let (over, c) := check_and_apply_oversize_cap (set_fu c (Some (buf ++ part))) in if over then Ok c else close_fu c e
    | None => Ok (poison (bump c NalusDiscarded))
    end.
Proof.
  intros [H1 H2 (b & Hb & Hb0) (fh & Hfh & Hs & He) H5] Hp Hse. unfold push_fragment. rewrite (proj2 (Z.ltb_ge _ _)) by done.
  rewrite Hb. rb. rewrite Hfh. rb. rewrite H5. rb. rewrite Hb0. cbn [Z.eqb negb]. rewrite Hs, He, !negb_involutive. cbv zeta.
  destruct (s && e); [done|]. destruct s; [done|]. by rewrite Hp.
Qed.

Lemma dispatch_advances c p nals r c' : dispatch c p = Ok c' -> au_poisoned c = false -> progress c nals (p :: r) -> advances c c' nals r.
Proof.
  intros H Hp (done_ & ns & -> & Hr & Hb & Hi). unfold dispatch in H.
  inversion Hr as [ns0 chunks Hc Hf Hns He|n ns0 buf rr chunks Hrr Hc Hf Hns He]; subst.
  - destruct Hc as [|n ps ns chunks Hn Hc]; [done|]. cbn [concat] in He. destruct Hn as [Hne Hk|hd part0 p0 mids ps partl pl Hne Hn Hh H0 Hm Hl].
    + cbn [app] in He. injection He as -> <-. rewrite Hk in H. cbn [rbind] in H. unfold push_nalu in H. rewrite bool_decide_eq_false_2 in H by done.
      by apply (push_advances c c p done_ ns chunks c').
    + cbn [app] in He. injection He as -> <-. rewrite (fr_class _ _ _ _ H0) in H. cbn [rbind] in H.
      rewrite (fragment_step true false part0 p c H0 Hp eq_refl), <- Hf in H. cbv zeta in H. rewrite Hp, Hh in H. cbn [rbind] in H.
      eapply (grow_more c c n done_ ns (hd ++ part0) ps pl mids partl chunks c' H); try done. by rewrite Hn, <- app_assoc.
  - destruct Hrr as [buf mids ps partl pl Hne Hn Hm Hl]. destruct Hm as [|part p1 mids ps Hpart Hm]; cbn [app] in He; injection He as -> <-.
    + rewrite (fr_class _ _ _ _ Hl) in H. cbn [rbind] in H. rewrite (fragment_step false true partl p c Hl Hp eq_refl), <- Hf in H.
      cbn [concat app] in Hn. rewrite <- Hn in H. by apply (grow_last c c n done_ ns0 chunks c').
    + rewrite (fr_class _ _ _ _ Hpart) in H. cbn [rbind] in H. rewrite (fragment_step false false part p c Hpart Hp eq_refl), <- Hf in H.
      eapply (grow_more c c n done_ ns0 (buf ++ part) ps pl mids partl chunks c' H); try done. cbn [concat] in Hn. by rewrite Hn, <- !app_assoc.
Qed.

(** ** The parameter-set cache *)

Definition is_parameter_set (n : list Z) : Prop := exists t slot, nal_type n = Ok t /\ ps_slot t = Some slot.

Section Cache.
Context (K : list Z -> Prop).

(** Every cached set is one of [K]. *)
Definition cache_in (cache : list (option (list Z))) : Prop := forall n, Some n ∈ cache -> K n.

Lemma put_cache cache slot n cache' : put (E:=Empty_set) cache slot [Some n] = Ok cache' -> cache_in cache -> K n -> cache_in cache'.
Proof.
  unfold put, cache_in. destruct (_ && _); [|done]. intros [= <-] Hc Hn m. rewrite elem_of_app, elem_of_cons. intros [Hm|[Hm|Hm]].
  - apply Hc. rewrite <- (ztake_zdrop cache slot). apply elem_of_app. by left.
  - by injection Hm as ->.
  - apply Hc. rewrite <- (ztake_zdrop cache (slot + zlen [Some n])). apply elem_of_app. by right.
Qed.

Lemma note_cache c t n c' : note_parameter_set c t n = Ok c' -> cache_in (ps_cache c) -> (is_Some (ps_slot t) -> K n) -> cache_in (ps_cache c').
Proof.
  intros H Hc HK. unfold note_parameter_set in H. destruct (ps_slot t) as [slot|]; [|by injection H as <-]. specialize (HK ltac:(by eexists)).
  apply rbind_ok in H as (has & _ & H). cbv zeta in H. destruct (ps_within_cap _ _); [|by injection H as <-].
  apply rbind_ok in H as (o & _ & H). case_bool_decide; [by injection H as <-|]. apply rbind_ok in H as (cache & Hput & H).
  injection H as <-. cbn [ps_cache bump set_stats set_flags]. by eapply put_cache.
Qed.

Lemma cap_cache c : ps_cache (check_and_apply_oversize_cap c).2 = ps_cache c.
Proof. unfold check_and_apply_oversize_cap. by destruct (_ <=? _). Qed.

Lemma push_cache c n c' : push_nalu_owned c n = Ok c' -> cache_in (ps_cache c) -> (is_parameter_set n -> K n) -> cache_in (ps_cache c').
Proof.
  intros H Hc HK. unfold push_nalu_owned in H. case_bool_decide; [by injection H as <-|]. destruct (au_poisoned c); [by injection H as <-|].
  apply rbind_ok in H as (b & _ & H). destruct (negb _); [by injection H as <-|]. apply rbind_ok in H as (t & Ht & (d & Hd & H)%rbind_ok). cbv zeta in *.
  assert (c' = (check_and_apply_oversize_cap (set_buf d (au_buf d ++ ANNEXB_START_CODE ++ n))).2) as -> by congruence. rewrite cap_cache.
  apply (note_cache _ _ _ _ Hd); [by destruct (is_idr t)|]. intros [slot Hs]. apply HK. by exists t, slot.
Qed.

Lemma grow_cache d buf e c' :
  (let (over, x) := check_and_apply_oversize_cap (set_fu d (Some buf)) in if over then Ok x else close_fu x e) = Ok c' ->
  cache_in (ps_cache d) -> (e = true -> is_parameter_set buf -> K buf) -> cache_in (ps_cache c').
Proof.
  intros H Hc HK. destruct (cap_cases (set_fu d (Some buf))) as [[Hr He]|(Hr & _ & _)]; pose proof (cap_cache (set_fu d (Some buf))) as Hcc;
    destruct (check_and_apply_oversize_cap _) as [over x]; cbn [fst snd] in *; subst over.
  - subst x. unfold close_fu in H. destruct e; [|by injection H as <-]. cbn [fu set_fu set_acc] in H. apply (push_cache _ _ _ H); [done|by apply HK].
  - assert (c' = x) as -> by congruence. by rewrite Hcc.
Qed.

Lemma dispatch_cache c p nals r c' : dispatch c p = Ok c' -> au_poisoned c = false -> progress c nals (p :: r) -> cache_in (ps_cache c) ->
  (forall n, n ∈ nals -> is_parameter_set n -> K n) -> cache_in (ps_cache c').
Proof.
  intros H Hp (done_ & ns & -> & Hr & _ & _) Hc HK. unfold dispatch in H.
  inversion Hr as [ns0 chunks Hcs Hf Hns He|n ns0 buf rr chunks Hrr Hcs Hf Hns He]; subst.
  - destruct Hcs as [|n ps ns chunks Hn Hcs]; [done|]. assert (is_parameter_set n -> K n) as HKn by (apply HK; apply elem_of_app; right; constructor).
    cbn [concat] in He. destruct Hn as [Hne Hk|hd part0 p0 mids ps partl pl Hne Hn Hh H0 Hm Hl]; cbn [app] in He; injection He as -> <-.
    + rewrite Hk in H. cbn [rbind] in H. unfold push_nalu in H. rewrite bool_decide_eq_false_2 in H by done. by apply (push_cache _ _ _ H).
    + rewrite (fr_class _ _ _ _ H0) in H. cbn [rbind] in H. rewrite (fragment_step true false part0 p c H0 Hp eq_refl), <- Hf in H. cbv zeta in H.
      rewrite Hp, Hh in H. cbn [rbind] in H. by apply (grow_cache _ _ _ _ H).
  - assert (is_parameter_set n -> K n) as HKn by (apply HK; apply elem_of_app; right; constructor).
    destruct Hrr as [buf mids ps partl pl Hne Hn Hm Hl]. destruct Hm as [|part p1 mids ps Hpart Hm]; cbn [app] in He; injection He as -> <-.
    + rewrite (fr_class _ _ _ _ Hl) in H. cbn [rbind] in H. rewrite (fragment_step false true partl p c Hl Hp eq_refl), <- Hf in H.
      cbn [concat app] in Hn. rewrite <- Hn in H. by apply (grow_cache _ _ _ _ H).
    + rewrite (fr_class _ _ _ _ Hpart) in H. cbn [rbind] in H. rewrite (fragment_step false false part p c Hpart Hp eq_refl), <- Hf in H.
      by apply (grow_cache _ _ _ _ H).
Qed.

Lemma seed_in seeds cap : forall cache cache', seed_cache cap seeds cache = Ok cache' -> cache_in cache ->
  (forall n, n ∈ seeds -> is_parameter_set n -> K n) -> cache_in cache'.
Proof.
  induction seeds as [|n seeds IH]; intros cache cache' H Hc HK; cbn [seed_cache] in H; [by injection H as <-|].
  assert (forall m, m ∈ seeds -> is_parameter_set m -> K m) as HK' by (intros; apply HK; [by constructor|done]).
  destruct (_ || _); [by apply (IH cache)|]. apply rbind_ok in H as (t & Ht & H). destruct (ps_slot t) as [slot|] eqn:Hs; [|by apply (IH cache)].
  apply rbind_ok in H as (cache1 & Hput & H). apply (IH cache1); [done| |done]. apply (put_cache _ _ _ _ Hput); [done|].
  apply HK; [constructor|by exists t, slot].
Qed.

End Cache.
End Format.
End Carriage.

(** * What the packetizers promise *)
Module Sender.
Import RtpPacket RtpPacketize Depay DepayOps Formats Carriage.

(** A packet as the packetizers leave it before the last one is marked. *)
Definition chunk_good (max : Z) (c : Chunk) : Prop := chunk_marker c = false /\ payload c <> [] /\ bytes (payload c) /\ zlen (payload c) <= max.

(** The sending side of a format. *)
Class Packetizer (F : Format) : Type := {
  min_payload : Z;
  packetize : list (list Z) -> Z -> res Empty_set (list Chunk);
  sendable : list Z -> Prop }.

Class PacketizerLaws (F : Format) {P : Packetizer F} : Prop := {
  sendable_clean n : sendable n -> exists b, idx (E:=Empty_set) n 0 = Ok b /\ Z.land b 0x80 = 0;
  packetize_carries nals max : Forall sendable nals -> min_payload <= max -> exists out chunks,
    packetize nals max = Ok (mark_last out) /\ Forall2 carried nals chunks /\ map payload out = concat chunks /\ Forall (chunk_good max) out }.

#[global] Instance H264_packetizer : Packetizer H264 := {|
  min_payload := H264_MIN_MAX_PAYLOAD; packetize := h264_packetize;
  sendable n := bytes n /\ exists b, get n 0 = Some b /\ Z.land b 0x80 = 0 /\ 1 <= Z.land b 0x1F <= 23 |}.

#[global] Instance H265_packetizer : Packetizer H265 := {|
  min_payload := H265_MIN_MAX_PAYLOAD; packetize := h265_packetize;
  sendable n := bytes n /\ 2 <= zlen n /\ exists b, get n 0 = Some b /\ Z.land b 0x80 = 0 /\ Z.land (Z.shiftr b 1) 0x3F <= 47 |}.

(** ** Cutting a body *)

Lemma chunks_of_ok {A} n : 0 < n -> forall fuel (l : list A), (length l <= fuel)%nat ->
  concat (chunks_of fuel n l) = l /\ zlen (chunks_of fuel n l) = div_ceil (zlen l) n.
Proof.
  intros Hn. induction fuel as [|fuel IH]; intros l Hl.
  - destruct l; [|cbn in Hl; lia]. cbn. unfold div_ceil. change (zlen []) with 0. rewrite Z.add_0_l, Z.div_small by lia. done.
  - cbn [chunks_of]. destruct l as [|x l]; [unfold div_ceil; change (zlen []) with 0; rewrite Z.add_0_l, Z.div_small by lia; done|].
    set (m := x :: l) in *. assert (0 < zlen m) as Hpos by (unfold m; rewrite zlen_cons; pose proof (zlen_nonneg l); lia).
    destruct (IH (zdrop n m)) as [H1 H2].
    { unfold zdrop, m in *. rewrite length_drop. cbn [length] in *. lia. }
    cbn [concat]. rewrite H1, zlen_cons, H2. split; [apply ztake_zdrop|]. unfold div_ceil.
    destruct (decide (n <= zlen m)) as [Hle|Hgt].
    + rewrite zlen_zdrop by lia. replace (zlen m + n - 1) with ((zlen m - n + n - 1) + 1 * n) by lia. rewrite Z.div_add by lia. lia.
    + assert (zdrop n m = []) as -> by (apply drop_ge; unfold zlen in *; lia). change (zlen []) with 0. rewrite Z.add_0_l, (Z.div_small (n - 1)) by lia.
      assert ((zlen m + n - 1) / n = 1) as -> by (symmetry; apply (Z.div_unique _ _ 1 (zlen m - 1)); lia). lia.
Qed.

Lemma chunks_of_sizes n : 0 < n -> forall fuel l, bytes l -> Forall (fun c => bytes c /\ zlen c <= n) (chunks_of fuel n l).
Proof.
  intros Hn. induction fuel as [|fuel IH]; intros l Hl; cbn [chunks_of]; [constructor|]. destruct l as [|x l]; [constructor|].
  constructor; [|by apply IH, bytes_drop]. split; [by apply bytes_take|]. unfold ztake, zlen. rewrite length_take. lia.
Qed.

(** The chunks of a body longer than one chunk: a first, some in the middle, a last. *)
Lemma chunks_shape {A} n (l : list A) : 0 < n < zlen l -> exists first mids last_,
  chunks n l = first :: mids ++ [last_] /\ l = first ++ concat mids ++ last_ /\ zlen (chunks n l) = div_ceil (zlen l) n.
Proof.
  intros Hn. unfold chunks. destruct (chunks_of_ok n ltac:(lia) (length l) l ltac:(lia)) as [H1 H2]. rewrite H2.
  assert (exists k, chunks_of (length l) n l = ztake n l :: k) as (k & Hk).
  { destruct l as [|x l]; [change (zlen []) with 0 in Hn; lia|]. by eexists. }
  rewrite Hk in *. cbn [concat] in H1. destruct k as [|y k].
  - apply (f_equal zlen) in H1. cbn [concat] in H1. rewrite app_nil_r, zlen_ztake in H1; lia.
  - destruct (exists_last (l:=y :: k) ltac:(done)) as (mids & z & Hz). rewrite Hz in *. exists (ztake n l), mids, z. split_and!; [done| |done].
    rewrite <- H1 at 1. rewrite concat_app. cbn. by rewrite app_nil_r.
Qed.

(** ** The fragments of a unit *)

Lemma fragments_tail prefix t count mids last_ : forall i, 0 < i -> i + zlen mids + 1 = count ->
  map payload (fragments prefix t count i (mids ++ [last_])) =
  map (fun m => prefix ++ [t] ++ m) mids ++ [prefix ++ [Z.lor t 0x40] ++ last_].
Proof.
  induction mids as [|m mids IH]; intros i Hi Hc; cbn [app fragments map].
  - change (zlen []) with 0 in Hc. rewrite (proj2 (Z.eqb_neq i 0)), (proj2 (Z.eqb_eq _ _)) by lia. done.
  - rewrite zlen_cons in Hc. pose proof (zlen_nonneg mids). rewrite (proj2 (Z.eqb_neq i 0)), (proj2 (Z.eqb_neq _ _)) by lia. cbn [payload]. f_equal. apply IH; lia.
Qed.

Lemma fragments_shape prefix t count first mids last_ : zlen (first :: mids ++ [last_]) = count ->
  map payload (fragments prefix t count 0 (first :: mids ++ [last_])) =
  (prefix ++ [Z.lor t 0x80] ++ first) :: map (fun m => prefix ++ [t] ++ m) mids ++ [prefix ++ [Z.lor t 0x40] ++ last_].
Proof.
  intros Hc. rewrite zlen_cons, zlen_app in Hc. change (zlen [last_]) with 1 in Hc. pose proof (zlen_nonneg mids). cbn [fragments map].
  rewrite Z.eqb_refl, (proj2 (Z.eqb_neq _ _)) by lia. cbn [payload]. f_equal. apply fragments_tail; lia.
Qed.

Lemma fragments_good prefix t count max parts : bytes prefix -> byte t -> byte (Z.lor t 0x80) -> byte (Z.lor t 0x40) -> byte (Z.lor (Z.lor t 0x80) 0x40) ->
  Forall (fun p => bytes p /\ zlen prefix + 1 + zlen p <= max) parts -> forall i, Forall (chunk_good max) (fragments prefix t count i parts).
Proof.
  intros Hp H0 H8 H4 H84. induction 1 as [|p parts [Hb Hl] _ IH]; intros i; cbn [fragments]; constructor; [|apply IH].
  assert (forall k, byte k -> chunk_good max {| payload := prefix ++ [k] ++ p; chunk_marker := false |}) as Hk.
  { intros k Hk. split_and!; cbn [payload chunk_marker]; [done|by destruct prefix| |rewrite !zlen_app; change (zlen [k]) with 1; lia].
    apply bytes_app. split; [done|]. by constructor. }
  cbv zeta. apply Hk. by destruct (i =? 0), (i + 1 =? count).
Qed.

(** A format whose fragments carry [prefix] in front of the FU header. *)
Section Cut.
Context {F : Format} (n hd body prefix : list Z) (t frag : Z).
Hypothesis Hn : n <> [].
Hypothesis Hcut : n = hd ++ body.
Hypothesis Hfrag : 0 < frag < zlen body.
Hypothesis Hprefix : zlen prefix + 1 = FU_PREFIX_LEN.
Hypothesis Hclass : forall k part, k = t \/ k = Z.lor t 0x80 \/ k = Z.lor t 0x40 -> classify (prefix ++ [k] ++ part) = Ok Fragment.
Hypothesis Hind : exists b r, prefix = b :: r /\ Z.land b 0x80 = 0.
Hypothesis Hbits : Z.land t 0x80 = 0 /\ Z.land t 0x40 = 0.
Hypothesis Hheader : forall part, fu_nal_header (prefix ++ [Z.lor t 0x80] ++ part) = Ok hd.

Lemma is_fragment_cut s e k part : (k = t \/ k = Z.lor t 0x80 \/ k = Z.lor t 0x40) ->
  (Z.land k 0x80 =? 0) = negb s -> (Z.land k 0x40 =? 0) = negb e -> is_fragment s e part (prefix ++ [k] ++ part).
Proof.
  intros Hk Hs He. pose proof (zlen_nonneg prefix). pose proof (zlen_nonneg part). split.
  - by apply Hclass.
  - rewrite !zlen_app. change (zlen [k]) with 1. lia.
  - destruct Hind as (b & r & -> & Hb). by exists b.
  - exists k. split; [|done]. apply idx_Ok. replace (FU_PREFIX_LEN - 1) with (zlen prefix) by lia. apply get_app_len.
  - rewrite app_assoc. apply slice_end; rewrite zlen_app; change (zlen [k]) with 1; [lia|]. rewrite zlen_app. change (zlen [k]) with 1. lia.
Qed.

Lemma cut_carried : carried n (map payload (fragments prefix t (div_ceil (zlen body) frag) 0 (chunks frag body))).
Proof.
  destruct (chunks_shape frag body Hfrag) as (first & mids & last_ & Hc & Hb & Hl). rewrite Hc in Hl. rewrite Hc, fragments_shape by done.
  destruct Hbits as [H8 H4].
  assert (Z.land (Z.lor t 128) 128 = 128 /\ Z.land (Z.lor t 128) 64 = 0 /\ Z.land (Z.lor t 64) 128 = 0 /\ Z.land (Z.lor t 64) 64 = 64) as (E1 & E2 & E3 & E4).
  { rewrite !Z.land_lor_distr_l, H8, H4. done. }
  apply (carried_cut n hd first _ mids _ last_).
  - done.
  - by rewrite Hcut, Hb.
  - apply Hheader.
  - apply is_fragment_cut; [tauto|by rewrite E1|by rewrite E2].
  - assert (forall ms, Forall2 (is_fragment false false) ms (map (fun m => prefix ++ [t] ++ m) ms)) as Hms; [|apply Hms].
    induction ms as [|m ms IH]; cbn [map]; constructor; [|done]. apply is_fragment_cut; [tauto|by rewrite H8|by rewrite H4].
  - apply is_fragment_cut; [tauto|by rewrite E3|by rewrite E4].
Qed.

End Cut.

(** ** The two packetizers *)

(** A fact about every byte, by looking at all of them. *)
Lemma every_byte (P : Z -> bool) b : forallb P (map Z.of_nat (List.seq 0 256)) = true -> byte b -> P b = true.
Proof.
  intros H Hb. eapply List.forallb_forall; [exact H|]. unfold byte in Hb. rewrite <- (Z2Nat.id b) by lia. apply List.in_map, List.in_seq. lia.
Qed.

(** One unit, cut or whole. *)
Definition unit_sent (F : Format) (max : Z) (n : list Z) (r : res Empty_set (list Chunk)) : Prop :=
  exists cs, r = Ok cs /\ carried (F:=F) n (map payload cs) /\ Forall (chunk_good max) cs.

Lemma whole_sent (F : Format) max n : bytes n -> n <> [] -> classify n = Ok Single -> zlen n <= max ->
  unit_sent F max n (Ok [{| payload := n; chunk_marker := false |}]).
Proof. intros. eexists. split; [done|]. split; [by apply carried_whole|by repeat constructor]. Qed.

Lemma each_nal_sent (F : Format) max one nals : Forall (fun n => n <> [] /\ unit_sent F max n (one n)) nals ->
  exists out chunks, each_nal one nals = Ok out /\ Forall2 (carried (F:=F)) nals chunks /\ map payload out = concat chunks /\ Forall (chunk_good max) out.
Proof.
  induction 1 as [|n nals [Hn (cs & Hcs & Hc & Hg)] _ (out & chunks & Ho & H2 & H3 & H4)]; [by exists [], []|].
  exists (cs ++ out), (map payload cs :: chunks). split.
  - destruct n; [done|]. cbn [each_nal]. rewrite Hcs, Ho. done.
  - split; [by constructor|]. split; [by rewrite map_app, H3|by apply Forall_app].
Qed.

Definition h264_byte (b : Z) : bool :=
  negb (Z.land b 0x80 =? 0) ||
  (let t := Z.land b 0x1F in let ind := Z.lor (Z.land b 0xE0) 28 in
   (Z.land ind 0x1F =? 28) && (Z.land ind 0x80 =? 0) && (Z.land t 0x80 =? 0) && (Z.land t 0x40 =? 0) &&
   (Z.lor (Z.land ind 0xE0) (Z.land (Z.lor t 0x80) 0x1F) =? b) && byteb ind && byteb t && byteb (Z.lor t 0x80) && byteb (Z.lor t 0x40) &&
   byteb (Z.lor (Z.lor t 0x80) 0x40)).

Lemma byteb_byte b : byteb b = true -> byte b.
Proof. unfold byteb, byte. intros H. b2p. lia. Qed.

Lemma h264_nal_sent max n : sendable (F:=H264) n -> 3 <= max -> unit_sent H264 max n (h264_nal max n).
Proof.
  intros (Hb & b & Hg & Hf & Ht) Hm. destruct n as [|b0 body]; [done|]. injection Hg as ->. unfold h264_nal.
  destruct (Z.leb_spec (zlen (b :: body)) max) as [Hle|Hgt].
  { apply whole_sent; try done. cbn [classify H264]. change (idx (b :: body) 0) with (@Ok Empty_set Z b). rb.
    by rewrite !(proj2 (Z.leb_le _ _)) by lia. }
  apply Forall_cons in Hb as [B0 Bb]. pose proof (every_byte h264_byte b ltac:(by vm_compute) B0) as Hall. unfold h264_byte in Hall.
  rewrite Hf in Hall. cbn [Z.eqb negb orb] in Hall. cbv zeta in Hall. b2p. change (idx (b :: body) 0) with (@Ok Empty_set Z b). rb.
  rewrite zlen_cons in *. rewrite (slice_end [b] body) by done. rb. unfold usub. rewrite (proj2 (Z.leb_le _ _)) by lia. rb.
  eexists. split; [done|]. split.
  - apply (cut_carried (F:=H264) (b :: body) [b]); try done; try lia.
    + intros k part _. cbn [classify H264 app]. change (idx (_ :: k :: part) 0) with (@Ok Empty_set Z (Z.lor (Z.land b 224) 28)). rb.
      by replace (Z.land (Z.lor (Z.land b 224) 28) 31) with 28.
    + by exists (Z.lor (Z.land b 224) 28), [].
    + intros part. cbn [fu_nal_header H264 app]. change (idx (_ :: ?k :: part) 0) with (@Ok Empty_set Z (Z.lor (Z.land b 224) 28)).
      change (idx (_ :: ?k :: part) 1) with (@Ok Empty_set Z k). rb. congruence.
  - apply fragments_good; try by apply byteb_byte.
    + constructor; [by apply byteb_byte|constructor].
    + eapply Forall_impl; [by apply (chunks_of_sizes (max - 2)); [lia|]|]. intros p [? ?]. change (zlen [_]) with 1. split; [done|lia].
Qed.

Definition h265_byte (b : Z) : bool :=
  negb (Z.land b 0x80 =? 0) ||
  (let t := Z.land (Z.shiftr b 1) 0x3F in let ind := Z.lor (Z.land b 0x81) (Z.shiftl 49 1) in
   (Z.land (Z.shiftr ind 1) 0x3F =? 49) && (Z.land ind 0x80 =? 0) && (Z.land t 0x80 =? 0) && (Z.land t 0x40 =? 0) &&
   (Z.lor (Z.land ind 0x81) (Z.shiftl (Z.land (Z.lor t 0x80) 0x3F) 1) =? b) && byteb ind && byteb t && byteb (Z.lor t 0x80) && byteb (Z.lor t 0x40) &&
   byteb (Z.lor (Z.lor t 0x80) 0x40)).

Lemma h265_nal_sent max n : sendable (F:=H265) n -> 4 <= max -> unit_sent H265 max n (h265_nal max n).
Proof.
  intros (Hb & Hlen & b & Hg & Hf & Ht) Hm. destruct n as [|b0 [|b1 body]]; [done|by vm_compute in Hlen|]. injection Hg as ->. unfold h265_nal.
  destruct (Z.leb_spec (zlen (b :: b1 :: body)) max) as [Hle|Hgt].
  { apply whole_sent; try done. cbn [classify H265]. rewrite (proj2 (Z.ltb_ge _ _)) by done. change (idx (b :: b1 :: body) 0) with (@Ok Empty_set Z b). rb.
    by rewrite !(proj2 (Z.leb_le _ _)) by lia. }
  pose proof Hb as [B0 [B1 Bb]%Forall_cons]%Forall_cons. pose proof (every_byte h265_byte b ltac:(by vm_compute) B0) as Hall. unfold h265_byte in Hall.
  rewrite Hf in Hall. cbn [Z.eqb negb orb] in Hall. cbv zeta in Hall. b2p.
  change (idx (b :: b1 :: body) 0) with (@Ok Empty_set Z b). change (idx (b :: b1 :: body) 1) with (@Ok Empty_set Z b1). rb.
  rewrite !zlen_cons in *. pose proof (zlen_nonneg body). rewrite (slice_end [b; b1] body) by (change (zlen [b; b1]) with 2; lia). rb.
  unfold usub. rewrite (proj2 (Z.leb_le _ _)) by lia. rb. set (ind := Z.lor (Z.land b 129) _) in *. set (t := Z.land (Z.shiftr b 1) 63) in *.
  eexists. split; [done|]. split.
  - apply (cut_carried (F:=H265) (b :: b1 :: body) [b; b1]); try done; try lia.
    + intros k part _. cbn [classify H265 app]. rewrite (proj2 (Z.ltb_ge _ _)) by (rewrite !zlen_cons; pose proof (zlen_nonneg part); lia).
      change (idx (ind :: _) 0) with (@Ok Empty_set Z ind). rb. by replace (Z.land (Z.shiftr ind 1) 63) with 49.
    + by exists ind, [b1].
    + intros part. cbn [fu_nal_header H265 app]. change (idx (ind :: ?r) 0) with (@Ok Empty_set Z ind).
      change (idx (_ :: b1 :: ?r) 1) with (@Ok Empty_set Z b1). change (idx (_ :: _ :: ?k :: part) 2) with (@Ok Empty_set Z k). rb. congruence.
  - apply fragments_good; try by apply byteb_byte.
    + constructor; [by apply byteb_byte|by constructor].
    + eapply Forall_impl; [by apply (chunks_of_sizes (max - 3)); [lia|]|]. intros p [? ?]. change (zlen [_; _]) with 2. split; [done|lia].
Qed.

#[global] Instance H264_packetizer_laws : PacketizerLaws H264.
Proof.
  split.
  - intros n (_ & b & Hg & Hf & _). exists b. split; [by apply idx_Ok|done].
  - intros nals max Hs Hm. cbn [min_payload H264_packetizer packetize] in *. unfold h264_packetize. rewrite (proj2 (Z.leb_le _ _)) by done.
    destruct (each_nal_sent H264 max (h264_nal max) nals) as (out & chunks & -> & Hrest); [|by exists out, chunks].
    eapply Forall_impl; [exact Hs|]. intros n Hn. split; [|by apply h264_nal_sent]. destruct Hn as (_ & b & Hg & _). by intros ->.
Qed.

#[global] Instance H265_packetizer_laws : PacketizerLaws H265.
Proof.
  split.
  - intros n (_ & _ & b & Hg & Hf & _). exists b. split; [by apply idx_Ok|done].
  - intros nals max Hs Hm. cbn [min_payload H265_packetizer packetize] in *. unfold h265_packetize. rewrite (proj2 (Z.leb_le _ _)) by done.
    destruct (each_nal_sent H265 max (h265_nal max) nals) as (out & chunks & -> & Hrest); [|by exists out, chunks].
    eapply Forall_impl; [exact Hs|]. intros n Hn. split; [|by apply h265_nal_sent]. destruct Hn as (_ & _ & b & Hg & _). by intros ->.
Qed.

End Sender.
