(* ===== verification/RtpDelivery.v ===== *)
(** From a packetizer to a depacketizer: what a receiver makes of the packets of
    a session when the network loses, repeats and reorders them. *)
From Stdlib Require Import ZArith Lia Bool.
From stdpp Require Import base list list_numbers.
From S2P Require Import Prelude.
From S2P Require Import RtpPacket RtpDepay RtpBounds RtpCarriage.

(** * The packets of a session *)
Module Session.
Import RtpPacket RtpPacketize Depay DepayOps Carriage Sender.

(** An access unit as the sender has it. *)
Record SentAu : Type := { sent_ts : Z; sent_nals : list (list Z) }.

Definition Packet : Type := RtpHeader * list Z.

(** The packets of the chunks of one access unit. *)
Fixpoint number (src ts s : Z) (cs : list Chunk) : list Packet :=
  match cs with
  | [] => []
  | c :: cs => ({| seq := as_u16 s; timestamp := ts; ssrc := src; marker := chunk_marker c; payload_type := 96 |}, payload c) :: number src ts (s + 1) cs
  end.

Section Format.
Context {F : Format} {P : Packetizer F} {PL : PacketizerLaws F}.

(** A session: every access unit packetized, its chunks numbered on from [s]. *)
Fixpoint send (src max s : Z) (aus : list SentAu) : res Empty_set (list Packet) :=
  match aus with
  | [] => Ok []
  | a :: aus =>
      let! cs := packetize (sent_nals a) max in
      let! rest := send src max (s + zlen cs) aus in
      Ok (number src (sent_ts a) s cs ++ rest)
  end.

Definition au_typed (a : SentAu) : Prop := 0 <= sent_ts a < 2 ^ 32 /\ sent_nals a <> [] /\ Forall sendable (sent_nals a).

(** ** Where a packet stands *)

(** The access unit of a packet, its payload and the payloads of the unit behind it. *)
Record Slot : Type := { slot_au : SentAu; slot_payload : list Z; slot_rest : list (list Z) }.

Definition slot_packet (src s : Z) (x : Slot) : Packet :=
  ({| seq := as_u16 s; timestamp := sent_ts (slot_au x); ssrc := src; marker := bool_decide (slot_rest x = []); payload_type := 96 |}, slot_payload x).

(** The slot opens its access unit. *)
Definition opens (x : Slot) : Prop :=
  exists chunks, Forall2 carried (sent_nals (slot_au x)) chunks /\ slot_payload x :: slot_rest x = concat chunks.

(** The slot comes after [o]. *)
Definition follows (o : option Slot) (x : Slot) : Prop :=
  match o with
  | Some p => if bool_decide (slot_rest p = []) then opens x else slot_au x = slot_au p /\ slot_rest p = slot_payload x :: slot_rest x
  | None => opens x
  end.

Fixpoint chain (o : option Slot) (l : list Slot) : Prop :=
  match l with [] => True | x :: l => follows o x /\ chain (Some x) l end.

Fixpoint slots_of (a : SentAu) (ps : list (list Z)) : list Slot :=
  match ps with [] => [] | p :: ps => {| slot_au := a; slot_payload := p; slot_rest := ps |} :: slots_of a ps end.

Fixpoint pack (src s : Z) (l : list Slot) : list Packet :=
  match l with [] => [] | x :: l => slot_packet src s x :: pack src (s + 1) l end.

Lemma pack_app src l k : forall s, pack src s (l ++ k) = pack src s l ++ pack src (s + zlen l) k.
Proof.
  induction l as [|x l IH]; intros s; cbn [app pack]; [by rewrite zlen_nil, Z.add_0_r|].
  rewrite IH, zlen_cons. by replace (s + 1 + zlen l) with (s + (1 + zlen l)) by lia.
Qed.

Lemma number_slots src a out : forall s, Forall (fun c => chunk_marker c = false) out ->
  number src (sent_ts a) s (mark_last out) = pack src s (slots_of a (map payload out)).
Proof.
  induction out as [|c out IH]; intros s Hm; [done|]. apply Forall_cons in Hm as [Hc Hm]. destruct out as [|d out]; [done|].
  specialize (IH (s + 1) Hm). cbn [mark_last] in *. cbn [map slots_of pack number] in *. rewrite IH. unfold slot_packet. cbn [slot_rest slot_au slot_payload].
  by rewrite Hc.
Qed.

Lemma zlen_mark_last out : zlen (mark_last out) = zlen out.
Proof. induction out as [|c [|d out] IH]; [done|done|]. cbn [mark_last] in *. rewrite !zlen_cons in *. lia. Qed.

Lemma zlen_slots_of a ps : zlen (slots_of a ps) = zlen ps.
Proof. induction ps as [|p ps IH]; [done|]. cbn [slots_of]. by rewrite !zlen_cons, IH. Qed.

(** The last slot closes its access unit. *)
Definition closed_end (o : option Slot) : Prop := match o with Some x => slot_rest x = [] | None => True end.

Lemma chain_inner a ps x l : slot_au x = a -> slot_rest x = ps -> (forall y, slot_rest y = [] -> chain (Some y) l) -> chain (Some x) (slots_of a ps ++ l).
Proof.
  revert x. induction ps as [|p ps IH]; intros x Ha Hr Hl; cbn [slots_of app chain]; [by apply Hl|].
  split; [|by apply IH]. unfold follows. rewrite Hr, bool_decide_eq_false_2 by done. by split.
Qed.

Lemma send_slots src max aus : Forall au_typed aus -> min_payload <= max -> forall s, exists slots,
  send src max s aus = Ok (pack src s slots) /\ (forall o, closed_end o -> chain o slots) /\
  Forall (fun x => slot_au x ∈ aus /\ slot_payload x <> [] /\ bytes (slot_payload x) /\ zlen (slot_payload x) <= max) slots /\
  exists pss, Forall2 (fun _ ps => ps <> []) aus pss /\ slots = concat (zip_with slots_of aus pss).
Proof.
  intros Ha Hmax. induction Ha as [|a aus (Hts & Hne & Hs) _ IH]; intros s; cbn [send]; [exists []; split_and!; try done; by exists []|].
  destruct (packetize_carries (sent_nals a) max Hs Hmax) as (out & chunks & -> & Hc & Hp & Hg). rb.
  destruct (IH (s + zlen (mark_last out))) as (slots & -> & Hch & Hsl & pss & Hpss & Hcat). rb. exists (slots_of a (map payload out) ++ slots). split_and!.
  - rewrite pack_app, zlen_slots_of, number_slots; [|eapply Forall_impl; [exact Hg|]; by intros c []].
    rewrite zlen_mark_last. do 2 f_equal. unfold zlen. by rewrite List.length_map.
  - intros o Ho. rewrite Hp. destruct (concat chunks) as [|p ps] eqn:Hcc; cbn [slots_of app chain]; [by apply Hch|]. split.
    + assert (opens {| slot_au := a; slot_payload := p; slot_rest := ps |}) as Hop by (exists chunks; split; [done|by rewrite Hcc]).
      destruct o as [x|]; [|done]. cbn [follows]. by rewrite bool_decide_eq_true_2.
    + apply chain_inner; [done|done|]. intros y Hy. by apply Hch.
  - apply Forall_app. split.
    + clear -Hg. induction Hg as [|c out (_ & ? & ? & ?) _ IH]; cbn [map slots_of]; constructor; [|done].
      cbn [slot_au slot_payload]. split_and!; try done. constructor.
    + eapply Forall_impl; [exact Hsl|]. intros x (? & ? & ? & ?). split_and!; try done. by constructor.
  - exists (map payload out :: pss). split; [|cbn [zip_with concat]; by rewrite Hcat]. constructor; [|done]. rewrite Hp.
    destruct Hc as [|n ps ns chunks Hn _]; [done|]. apply carried_nonempty in Hn. cbn [concat]. by destruct ps.
Qed.

Lemma chain_lookup l : forall o j y, chain o l -> l !! j = Some y ->
  match j with O => follows o y | S i => exists x, l !! i = Some x /\ follows (Some x) y end.
Proof.
  induction l as [|x l IH]; intros o j y Hc Hj; [done|]. destruct Hc as [Hf Hc]. destruct j as [|j].
  - by injection Hj as <-.
  - cbn in Hj. specialize (IH (Some x) j y Hc Hj). destruct j as [|j]; [by exists x|]. exact IH.
Qed.

Lemma pack_lookup src l : forall s j, pack src s l !! j = (fun x => slot_packet src (s + Z.of_nat j) x) <$> l !! j.
Proof.
  induction l as [|x l IH]; intros s j; [done|]. destruct j as [|j]; cbn [pack lookup list_lookup fmap option_fmap option_map].
  - by rewrite Z.add_0_r.
  - rewrite IH. by replace (s + 1 + Z.of_nat j) with (s + Z.of_nat (S j)) by lia.
Qed.

End Format.
End Session.

(** * One packet at the receiver *)
Module Receive.
Import RtpPacket Clock Depay DepayOps DepayLaws DepayInv Carriage Sender Session.

(** No access unit is open. *)
Record closed (c : Core) : Prop := {
  cl_ts : au_ts c = None; cl_buf : au_buf c = []; cl_fu : fu c = None; cl_idr : au_has_idr c = false; cl_poison : au_poisoned c = false }.

(** What completion of a lost unit, and a packet before its payload is read, leave alone. *)
Definition kept (c c' : Core) : Prop := config c' = config c /\ ps_cache c' = ps_cache c /\ ready c' = ready c.

(** The source and the sequence number of the last packet. *)
Definition tracked (c : Core) : option Z * option Z := (core_ssrc c, last_seq c).

Section Format.
Context {F : Format}.

(** ** Completion *)

Lemma complete_poisoned {E} c : au_poisoned c = true -> au_ts c <> None -> exists c', complete_au (E:=E) c = Ok c' /\
  kept c c' /\ closed c' /\ tracked c' = tracked c.
Proof.
  intros Hp Hts. unfold complete_au. destruct (au_ts c) as [ts|]; [|done]. cbv zeta.
  set (d := match fu c with Some _ => _ | None => c end).
  assert (au_poisoned d = true /\ kept c d /\ tracked d = tracked c) as (Hd & Hk & Ht) by (unfold d; by destruct (fu c)).
  rewrite Hd, andb_false_r. eexists. split; [done|]. split; [exact Hk|]. split; [done|exact Ht].
Qed.

Lemma prefix_framed {E} cache : forall lens i p, inject_prefix (E:=E) lens cache i = Ok p ->
  exists pre, p = framed pre /\ Forall (fun n => Some n ∈ cache) pre.
Proof.
  induction lens as [|len lens IH]; intros i p H; cbn [inject_prefix] in H.
  - injection H as <-. by exists [].
  - apply rbind_ok in H as (one & Ho & (rest & Hr & H)%rbind_ok). assert (p = one ++ rest) as -> by congruence. destruct (IH _ _ Hr) as (pre & -> & Hpre).
    destruct (0 <? len).
    + apply rbind_ok in Ho as ([n|] & Hn & Ho); [|done]. assert (one = ANNEXB_START_CODE ++ n) as -> by congruence. exists (n :: pre). split; [by rewrite framed_cons, <- app_assoc|].
      constructor; [|done]. apply idx_Ok in Hn. unfold get in Hn. destruct (i <? 0); [done|]. by eapply list_elem_of_lookup_2.
    + injection Ho as <-. by exists pre.
Qed.

Lemma injected_framed {E} c o : injected (E:=E) c = Ok o ->
  match o with
  | Some b => exists pre, b = framed pre ++ au_buf c /\ Forall (fun n => Some n ∈ ps_cache c) pre /\
      (parameter_set_injection (config c) = NoInjection \/ au_has_idr c = false -> pre = [])
  | None => parameter_set_injection (config c) = BeforeIdr
  end.
Proof.
  intros H. unfold injected in H. cbv zeta in H.
  assert (exists pre, au_buf c = framed pre ++ au_buf c /\ Forall (fun n => Some n ∈ ps_cache c) pre /\
      (parameter_set_injection (config c) = NoInjection \/ au_has_idr c = false -> pre = [])) as Hnone by (by exists []).
  destruct (au_has_idr c) eqn:Hidr; cbn [andb] in H; [|assert (o = Some (au_buf c)) as -> by congruence; exact Hnone].
  destruct (parameter_set_injection (config c)) eqn:Hinj; [assert (o = Some (au_buf c)) as -> by congruence; exact Hnone|].
  apply rbind_ok in H as (lens & _ & (t & _ & H)%rbind_ok). destruct (0 <? t); [|assert (o = Some (au_buf c)) as -> by congruence; exact Hnone].
  destruct (_ <? _); [by assert (o = None) as -> by congruence|]. apply rbind_ok in H as (p & Hp & H). assert (o = Some (p ++ au_buf c)) as -> by congruence.
  destruct (prefix_framed _ _ _ _ Hp) as (pre & -> & Hpre). exists pre. split; [done|]. split; [done|]. by intros [?|?].
Qed.

(** A whole access unit goes into the queue, behind injected parameter sets. *)
Lemma complete_whole {E} c nals ts c' : complete_au (E:=E) c = Ok c' -> au_ts c = Some ts -> au_poisoned c = false -> progress c nals [] -> nals <> [] ->
  closed c' /\ tracked c' = tracked c /\ config c' = config c /\ ps_cache c' = ps_cache c /\ ts_unwrap c' = ts_unwrap c /\ pts_base c' = pts_base c /\
  ((parameter_set_injection (config c) = BeforeIdr /\ ready c' = ready c) \/
   exists pre, ready c' = ready c ++ [{| annexb := framed (pre ++ nals); pts := au_ts_ext c - match pts_base c with Some b => b | None => 0 end;
       key_frame := existsb idr nals; rtp_timestamp := ts |}] /\
     Forall (fun n => Some n ∈ ps_cache c) pre /\ (parameter_set_injection (config c) = NoInjection \/ existsb idr nals = false -> pre = [])).
Proof.
  intros H Hts Hp (done_ & ns & -> & Hr & Hb & Hi) Hne. apply remains_nil in Hr as [Hf ->]. rewrite app_nil_r in *. unfold complete_au in H.
  rewrite Hts, Hf in H. cbv zeta in H. assert (au_buf c <> []) as Hbne.
  { rewrite Hb. destruct done_ as [|n ns]; [done|]. by rewrite framed_cons. }
  rewrite bool_decide_eq_false_2, Hp in H by done. cbn [andb] in H. apply rbind_ok in H as (o & Ho & H). apply injected_framed in Ho.
  destruct o as [b|].
  - apply rbind_ok in H as (x & Hx & H). unfold chk_i64 in Hx. destruct (_ && _) in Hx; [|done].
    destruct Ho as (pre & -> & Hpre & Hnil). assert (x = au_ts_ext c - match pts_base c with Some b => b | None => 0 end) as -> by congruence.
    match type of H with Ok ?y = _ => assert (c' = y) as -> by congruence end. split_and!; try done. right. exists pre. rewrite Hi in Hnil.
    split; [|by split]. cbn [ready set_ready bump set_stats reset_au set_flags set_acc set_open]. by rewrite framed_app, Hb, Hi, Hts.
  - match type of H with Ok ?y = _ => assert (c' = y) as -> by congruence end. split_and!; try done. by left.
Qed.

(** ** The boundary rules *)

Lemma boundary_same c h c' : check_boundary c h false = Ok c' -> au_ts c = Some (timestamp h) -> exists y u,
  unwrap (E:=Empty_set) (ts_unwrap c) (timestamp h) = Ok (y, u) /\ c' = set_gap (set_track c (core_ssrc c) (Some (seq h)) u (pts_base c)) false.
Proof.
  intros H Hts. unfold check_boundary in H. apply rbind_ok in H as ([y u] & Hu & H). cbv zeta in H. cbn [au_ts set_track] in H. rewrite Hts in H.
  rewrite Z.eqb_refl in H. cbn [negb rbind] in H. cbn [au_ts set_track] in H. rewrite Hts in H. cbn [negb andb rbind] in H. exists y, u. split; [done|]. congruence.
Qed.

Lemma boundary_open c h c' : check_boundary c h false = Ok c' -> closed c -> kept c c' /\ tracked c' = (core_ssrc c, Some (seq h)) /\
  au_ts c' = Some (timestamp h) /\ au_buf c' = [] /\ fu c' = None /\ au_has_idr c' = false /\ au_poisoned c' = gap_pending c /\ gap_pending c' = false /\
  exists y u, unwrap (E:=Empty_set) (ts_unwrap c) (timestamp h) = Ok (y, u) /\ ts_unwrap c' = u /\ au_ts_ext c' = y /\
    pts_base c' = Some match pts_base c with Some b => b | None => y - (last_emitted_pts c + SSRC_RESET_PTS_STEP) end.
Proof.
  intros H [H1 H2 H3 H4 H5]. unfold check_boundary in H. apply rbind_ok in H as ([y u] & Hu & H). cbv zeta in H. cbn [au_ts set_track] in H.
  rewrite H1 in H. cbn [rbind] in H. cbn [au_ts set_track] in H. rewrite H1 in H. apply rbind_ok in H as (d & Hd & H). cbn [negb andb] in H.
  apply rbind_ok in Hd as (e & He & Hd). cbn [orb] in Hd. assert (d = set_gap (if gap_pending e then poison e else e) false) as -> by congruence. clear Hd.
  assert (c' = set_gap (set_gap (if gap_pending e then poison e else e) false) false) as -> by congruence. clear H.
  cbn [pts_base set_open set_track last_emitted_pts] in He.
  assert (e = set_base (set_open (set_track c (core_ssrc c) (Some (seq h)) u (pts_base c)) (Some (timestamp h)) y)
      (Some match pts_base c with Some b => b | None => y - (last_emitted_pts c + SSRC_RESET_PTS_STEP) end)) as ->.
  { destruct (pts_base c) as [b|] eqn:Hb.
    - assert (e = set_open (set_track c (core_ssrc c) (Some (seq h)) u (Some b)) (Some (timestamp h)) y) as -> by congruence. done.
    - apply rbind_ok in He as (st & Hst & (base & Hbase & He)%rbind_ok). unfold chk_i64 in Hst, Hbase. destruct (_ && _) in Hst; [|done].
      destruct (_ && _) in Hbase; [|done]. assert (base = y - st) as -> by congruence. assert (st = last_emitted_pts c + SSRC_RESET_PTS_STEP) as -> by congruence. congruence. }
  cbn [gap_pending set_base set_track set_open]. destruct (gap_pending c); (split_and!; [by split_and!|done..|by exists y, u]).
Qed.

Lemma boundary_gap c h c' : check_boundary c h true = Ok c' -> (au_ts c <> None -> au_poisoned c = true) ->
  kept c c' /\ tracked c' = (core_ssrc c, Some (seq h)) /\ au_ts c' = Some (timestamp h) /\ au_poisoned c' = true.
Proof.
  intros H Hp. unfold check_boundary in H. apply rbind_ok in H as ([y u] & Hu & (d & Hd & (e & He & H)%rbind_ok)%rbind_ok). cbv zeta in *. cbn [au_ts set_track] in Hd.
  assert (kept c d /\ tracked d = (core_ssrc c, Some (seq h)) /\ (au_ts d <> None -> au_ts d = Some (timestamp h))) as (Kd & Td & Sd).
  { destruct (au_ts c) as [t|] eqn:Hts; [|injection Hd as <-; cbn; by rewrite Hts].
    destruct (Z.eqb_spec (timestamp h) t) as [-> |]; cbn [negb] in Hd.
    - assert (d = set_track c (core_ssrc c) (Some (seq h)) u (pts_base c)) as -> by congruence. split_and!; [done|done|]. by cbn [au_ts set_track].
    - destruct (complete_poisoned (E:=Empty_set) (set_track c (core_ssrc c) (Some (seq h)) u (pts_base c))) as (d' & Hd' & K & [C _ _ _ _] & T);
        [by apply Hp|cbn; by rewrite Hts|]. assert (d = d') as -> by congruence. split_and!; [done|done|]. by rewrite C. }
  destruct (au_ts d) as [t|] eqn:Htd; cbn [negb andb] in *.
  - assert (e = d) as -> by congruence. assert (c' = set_gap (poison d) true) as -> by congruence. split_and!; try done. cbn [au_ts set_gap poison set_acc]. rewrite Htd. by apply Sd.
  - apply rbind_ok in He as (f & Hf & He). cbn [orb] in He. assert (e = set_gap (poison f) false) as -> by congruence. cbn [negb] in H.
    assert (c' = set_gap (poison f) false) as -> by congruence. cbn [pts_base set_open] in Hf.
    assert (kept d f /\ tracked f = tracked d /\ au_ts f = Some (timestamp h)) as ((K1 & K2 & K3) & Tf & Sf).
    { destruct (pts_base d); [injection Hf as <-; done|]. apply rbind_ok in Hf as (st & _ & (ba & _ & Hf)%rbind_ok). by injection Hf as <-. }
    destruct Kd as (J1 & J2 & J3). split_and!; [split_and!; cbn; congruence| |done|done]. unfold tracked in *. cbn [core_ssrc last_seq set_gap poison set_acc]. congruence.
Qed.

End Format.
End Receive.

(** * Any network *)
Module Delivery.
Import RtpPacket Clock Depay DepayOps DepayLaws DepayInv Carriage Sender Session Receive.

(** How far a packet may be from the one that arrived before: the first one
    opens an access unit, a later one is any packet of the session, earlier or
    later, as long as its sequence number tells which one it is. *)
Definition near (pkts : list Packet) (l : option nat) (j : nat) : Prop :=
  match l with
  | Some i => Z.abs (Z.of_nat j - Z.of_nat i) < 65535
  | None => j = O \/ exists h p, pkts !! pred j = Some (h, p) /\ marker h = true
  end.

(** The last packet closed its access unit. *)
Definition at_end (pkts : list Packet) (l : option nat) : Prop :=
  match l with Some i => exists h p, pkts !! i = Some (h, p) /\ marker h = true | None => True end.

(** The uses of a depacketizer that a network allows, from packet [l] on: packets
    are lost, repeated and reordered at will, and the caller reads when it likes
    and flushes between access units. *)
Inductive delivered (pkts : list Packet) : option nat -> list depay_op -> Prop :=
| delivered_nil l : delivered pkts l []
| delivered_next l os : delivered pkts l os -> delivered pkts l (NextAu :: os)
| delivered_flush l os : at_end pkts l -> delivered pkts l os -> delivered pkts l (Flush :: os)
| delivered_feed l j h p os : pkts !! j = Some (h, p) -> near pkts l j -> delivered pkts (Some j) os -> delivered pkts l (Feed h p :: os).

Lemma seq_delta s i j : Z.abs (j - i) < 65535 ->
  let d := as_u16 (as_u16 (s + j) - as_u16 (s + i)) in (d = 0 <-> j = i) /\ (d = 1 <-> j = i + 1).
Proof.
  intros Hn d. assert (d = (j - i) mod 65536) as ->.
  { unfold d, as_u16. rewrite <- Zminus_mod. f_equal. lia. }
  destruct (decide (0 <= j - i)).
  - rewrite Z.mod_small by lia. lia.
  - assert ((j - i) mod 65536 = j - i + 65536) as -> by (symmetry; apply (Z.mod_unique _ _ (-1)); lia). lia.
Qed.

Section Format.
Context {F : Format} {P : Packetizer F}.

(** A parameter set the receiver may know. *)
Definition known (cfg : DepayConfig) (aus : list SentAu) (n : list Z) : Prop :=
  is_parameter_set n /\ (n ∈ initial_parameter_sets cfg \/ exists s, s ∈ aus /\ n ∈ sent_nals s).

(** An access unit of the sender as the receiver hands it out: complete, behind
    parameter sets that are only put in front of a key frame. *)
Definition faithful (cfg : DepayConfig) (aus : list SentAu) (a : AccessUnit) : Prop :=
  exists s pre, s ∈ aus /\ annexb a = framed (pre ++ sent_nals s) /\ key_frame a = existsb idr (sent_nals s) /\ rtp_timestamp a = sent_ts s /\
    Forall (known cfg aus) pre /\ (parameter_set_injection cfg = NoInjection \/ key_frame a = false -> pre = []).

Section Network.
Context {L : FormatLaws F}.
Context (cfg : DepayConfig) (aus : list SentAu) (src s0 max : Z) (slots : list Slot).
Hypothesis Haus : Forall au_typed aus.
Hypothesis Hchain : chain None slots.
Hypothesis Hslots : Forall (fun x => slot_au x ∈ aus /\ slot_payload x <> [] /\ bytes (slot_payload x) /\ zlen (slot_payload x) <= max) slots.

(** The open access unit: lost, or all of it is there up to this packet. *)
Definition intact (c : Core) (x : Slot) (todo : list (list Z)) : Prop :=
  au_poisoned c = true \/ (au_poisoned c = false /\ progress c (sent_nals (slot_au x)) todo).

Definition standing (l : option nat) (c : Core) : Prop :=
  (closed c /\ match l with Some j => exists x, slots !! j = Some x /\ slot_rest x = [] | None => True end) \/
  exists j x, l = Some j /\ slots !! j = Some x /\ slot_rest x <> [] /\ au_ts c = Some (sent_ts (slot_au x)) /\ intact c x (slot_rest x).

Record receiving (l : option nat) (c : Core) : Prop := {
  rc_cfg : parameter_set_injection (config c) = parameter_set_injection cfg;
  rc_track : tracked c = match l with Some j => (Some src, Some (as_u16 (s0 + Z.of_nat j))) | None => (None, None) end;
  rc_standing : standing l c;
  rc_cache : cache_in (known cfg aus) (ps_cache c);
  rc_ready : Forall (faithful cfg aus) (ready c) }.

(** A packet is being processed: these payloads of its access unit are not read yet. *)
Record reading (x : Slot) (j : nat) (todo : list (list Z)) (c : Core) : Prop := {
  rd_cfg : parameter_set_injection (config c) = parameter_set_injection cfg;
  rd_track : tracked c = (Some src, Some (as_u16 (s0 + Z.of_nat j)));
  rd_ts : au_ts c = Some (sent_ts (slot_au x));
  rd_intact : intact c x todo;
  rd_cache : cache_in (known cfg aus) (ps_cache c);
  rd_ready : Forall (faithful cfg aus) (ready c) }.

Lemma slot_facts j x : slots !! j = Some x -> slot_au x ∈ aus /\ slot_payload x <> [] /\ bytes (slot_payload x) /\ au_typed (slot_au x).
Proof.
  intros Hx. destruct (Forall_lookup_1 _ _ _ _ Hslots Hx) as (Hin & ? & ? & _). split_and!; try done.
  rewrite Forall_forall in Haus. by apply Haus.
Qed.

Lemma sent_known x n : slot_au x ∈ aus -> n ∈ sent_nals (slot_au x) -> is_parameter_set n -> known cfg aus n.
Proof. intros Hx Hn Hp. split; [done|]. right. by exists (slot_au x). Qed.

(** The payload of a packet. *)
Lemma dispatch_reading cap n x j c c' : reading x j (slot_payload x :: slot_rest x) c -> core_ok cap n c -> slots !! j = Some x ->
  dispatch c (slot_payload x) = Ok c' -> reading x j (slot_rest x) c'.
Proof.
  intros [H1 H2 H3 H4 H5 H6] Hok Hx H. destruct (slot_facts j x Hx) as (Hin & Hne & Hb & _).
  destruct (dispatch_ok n c (slot_payload x) Hok) as (c1 & Hc1 & _ & (E1 & E2 & E3 & _ & _ & _ & E7 & _ & _ & E10)); [by rewrite H3|done|done|].
  assert (c1 = c') as -> by congruence. destruct H4 as [Hp|[Hp Hg]].
  - destruct (dispatch_poisoned _ _ _ H Hp) as [Hp' Hc']. split; [congruence|unfold tracked in *; congruence|congruence|by left|by rewrite Hc'|by rewrite E10].
  - pose proof (dispatch_cache (known cfg aus) _ _ _ _ _ H Hp Hg H5 (fun m => sent_known x m Hin)) as Hc'.
    split; [congruence|unfold tracked in *; congruence|congruence| |done|by rewrite E10].
    destruct (dispatch_advances _ _ _ _ _ H Hp Hg) as [[? ?]|[? _]]; [by right|by left].
Qed.

(** The marker. *)
Lemma marker_receiving x j c c' : reading x j (slot_rest x) c -> slots !! j = Some x ->
  (if bool_decide (slot_rest x = []) then let! c := complete_au c in Ok (set_gap c false) else Ok c) = Ok (E:=Empty_set) c' -> receiving (Some j) c'.
Proof.
  intros [H1 H2 H3 H4 H5 H6] Hx H. destruct (slot_facts j x Hx) as (Hin & _ & _ & Hts & Hne & _). case_bool_decide as Hr; cycle 1.
  - injection H as <-. split; [done|done| |done|done]. right. by exists j, x.
  - apply rbind_ok in H as (d & Hd & H). assert (c' = set_gap d false) as -> by congruence. clear H. rewrite Hr in H4. destruct H4 as [Hp|[Hp Hg]].
    + destruct (complete_poisoned (E:=Empty_set) c Hp) as (d' & Hd' & (K1 & K2 & K3) & Hcl & Ht); [by rewrite H3|]. assert (d' = d) as -> by congruence.
      split; cbn [config ps_cache ready set_gap]; [congruence|exact (eq_trans Ht H2)| |by rewrite K2|by rewrite K3].
      left. split; [by destruct Hcl|by exists x].
    + destruct (complete_whole (E:=Empty_set) c _ _ d Hd H3 Hp Hg Hne) as (Hcl & Ht & K1 & K2 & _ & _ & Hready).
      split; cbn [config ps_cache ready set_gap]; [congruence|exact (eq_trans Ht H2)|left; split; [by destruct Hcl|by exists x]|by rewrite K2|].
      destruct Hready as [[_ ->]|(pre & -> & Hpre & Hnil)]; [done|]. apply Forall_app. split; [done|]. constructor; [|constructor].
      exists (slot_au x), pre. cbn [annexb key_frame rtp_timestamp]. split_and!; try done; [|by rewrite <- H1].
      eapply Forall_impl; [exact Hpre|]. intros m Hm. by apply H5.
Qed.

(** ** The packet before *)

Lemma check_ssrc_same c h : (core_ssrc c = None \/ core_ssrc c = Some (ssrc h)) ->
  check_ssrc c h = set_track c (Some (ssrc h)) (last_seq c) (ts_unwrap c) (pts_base c).
Proof.
  intros Hs. unfold check_ssrc. destruct Hs as [-> |Hs]; [done|]. rewrite Hs, Z.eqb_refl. cbn [negb]. destruct c. cbn in *. by subst.
Qed.

Lemma closed_same c c' : closed c -> au_ts c' = au_ts c -> au_buf c' = au_buf c -> fu c' = fu c -> au_has_idr c' = au_has_idr c ->
  au_poisoned c' = au_poisoned c -> closed c'.
Proof. intros [] ? ? ? ? ?. split; congruence. Qed.

(** The first packet of an access unit, in sequence. *)
Lemma opens_reading x j c c' s : closed c -> opens x -> parameter_set_injection (config c) = parameter_set_injection cfg ->
  core_ssrc c = Some src -> cache_in (known cfg aus) (ps_cache c) -> Forall (faithful cfg aus) (ready c) -> s = s0 + Z.of_nat j ->
  check_boundary c (slot_packet src s x).1 false = Ok c' -> reading x j (slot_payload x :: slot_rest x) c'.
Proof.
  intros Hcl (chunks & Hch & Hp) Hcfg Hs Hc Hr -> H. destruct (boundary_open _ _ _ H Hcl) as ((K1 & K2 & K3) & Ht & Hts & Hb & Hf & Hi & Hpo & _).
  rewrite Hs in Ht. split; [congruence|exact Ht|exact Hts| |by rewrite K2|by rewrite K3].
  destruct (au_poisoned c') eqn:Hpc; [by left|right]. split; [done|]. exists [], (sent_nals (slot_au x)). rewrite Hf, Hb, Hi, Hp. split_and!; try done. by apply remains_none.
Qed.

Definition packets : list Packet := pack src s0 slots.

Lemma packet_slot j q : packets !! j = Some q -> exists x, slots !! j = Some x /\ q = slot_packet src (s0 + Z.of_nat j) x.
Proof. unfold packets. rewrite pack_lookup. destruct (slots !! j) as [x|]; [|done]. intros [= <-]. by exists x. Qed.

Lemma after_end i j x y : slots !! i = Some y -> slot_rest y = [] -> j = S i -> slots !! j = Some x -> opens x.
Proof.
  intros Hy Hr -> Hx. destruct (chain_lookup _ _ _ _ Hchain Hx) as (z & Hz & Hf). assert (z = y) as -> by congruence.
  unfold follows in Hf. by rewrite bool_decide_eq_true_2 in Hf.
Qed.

Lemma near_opens j x : near packets None j -> slots !! j = Some x -> opens x.
Proof.
  intros [-> |(h & p & Hq & Hm)] Hx; [exact (chain_lookup _ _ _ _ Hchain Hx)|]. destruct j as [|j]; [exact (chain_lookup _ _ _ _ Hchain Hx)|].
  apply packet_slot in Hq as (y & Hy & Hq). injection Hq as -> ->. cbn [marker pred] in *. apply bool_decide_eq_true in Hm.
  by apply (after_end j (S j) x y).
Qed.

(** The rules before the payload, in and out of sequence. *)
Lemma seq_reading l j x c : receiving l c -> near packets l j -> slots !! j = Some x ->
  match check_seq (check_ssrc c (slot_packet src (s0 + Z.of_nat j) x).1) (slot_packet src (s0 + Z.of_nat j) x).1 with
  | (None, d) => receiving (Some j) d
  | (Some g, d) => forall d', check_boundary d (slot_packet src (s0 + Z.of_nat j) x).1 g = Ok d' -> reading x j (slot_payload x :: slot_rest x) d'
  end.
Proof.
  intros [H1 H2 H3 H4 H5] Hn Hx. set (h := (slot_packet src (s0 + Z.of_nat j) x).1). unfold tracked in H2.
  rewrite check_ssrc_same by (destruct l; [right|left]; cbn; congruence). set (c1 := set_track _ _ _ _ _).
  assert (closed c -> closed c1) as Hcl1 by (intros; by apply (closed_same c)).
  unfold check_seq. change (last_seq c1) with (last_seq c). destruct l as [i|]; cycle 1.
  { assert (last_seq c = None) as -> by congruence. intros d' Hd'. destruct H3 as [[Hcl _]|(? & ? & ? & _)]; [|done].
    apply (opens_reading x j c1 d' (s0 + Z.of_nat j) (Hcl1 Hcl)); try done. by apply (near_opens j). }
  assert (last_seq c = Some (as_u16 (s0 + Z.of_nat i))) as -> by congruence. cbn [near] in Hn.
  destruct (seq_delta s0 (Z.of_nat i) (Z.of_nat j) Hn) as [D0 D1]. change (seq h) with (as_u16 (s0 + Z.of_nat j)).
  set (delta := as_u16 (as_u16 (s0 + Z.of_nat j) - as_u16 (s0 + Z.of_nat i))) in *. destruct (Z.eqb_spec delta 0) as [Hd|Hd].
  { assert (j = i) as -> by lia. split; try done.
    - change (tracked (bump c1 DuplicatePackets)) with (Some src, last_seq c). f_equal. congruence.
    - destruct H3 as [[Hcl Hj]|(k & y & ? & ? & ? & ? & Hint)]; [left; split; [by apply (closed_same c)|done]|]. right. by exists k, y. }
  destruct (Z.eqb_spec delta 1) as [Hd1|Hd1]; intros d' Hd'.
  - assert (j = S i) as -> by lia. destruct (chain_lookup _ _ _ _ Hchain Hx) as (y & Hy & Hf). destruct H3 as [[Hcl (z & Hz & Hr)]|(k & z & Hk & Hz & Hr & Hts & Hint)].
    + apply (opens_reading x (S i) c1 d' (s0 + Z.of_nat (S i)) (Hcl1 Hcl)); try done. by apply (after_end i (S i) x z).
    + assert (k = i) as -> by congruence. assert (z = y) as -> by congruence. unfold follows in Hf. rewrite bool_decide_eq_false_2 in Hf by done.
      destruct Hf as [Ha Hrest]. destruct (boundary_same c1 h d' Hd') as (w & u & _ & ->); [change (au_ts c = Some (sent_ts (slot_au x))); congruence|].
      split; try done; [change (au_ts c = Some (sent_ts (slot_au x))); congruence|]. unfold intact. rewrite Ha, <- Hrest. exact Hint.
  - set (c2 := match au_ts c1 with Some _ => poison c1 | None => c1 end) in *.
    assert (kept c (bump (drop_fu c2) SeqGaps) /\ core_ssrc (bump (drop_fu c2) SeqGaps) = Some src /\
      (au_ts (bump (drop_fu c2) SeqGaps) <> None -> au_poisoned (bump (drop_fu c2) SeqGaps) = true)) as (Hk & Hs & Hpo).
    { unfold c2, drop_fu. change (au_ts c1) with (au_ts c). destruct (au_ts c) eqn:Hts; cbn [fu poison set_acc c1 set_track]; (destruct (fu c); (split; [done|split; [done|]]));
        [done|done| |]; intros Hn'; cbn in Hn'; by rewrite Hts in Hn'. }
    destruct (boundary_gap _ _ _ Hd' Hpo) as ((K1 & K2 & K3) & Ht & Hts & Hp). destruct Hk as (J1 & J2 & J3).
    split; [congruence|rewrite Ht, Hs; done|exact Hts|by left|by rewrite K2, J2|by rewrite K3, J3].
Qed.

(** One packet. *)
Lemma feed_receiving cap n l j x c c' : receiving l c -> near packets l j -> slots !! j = Some x -> core_ok cap n c -> 0 <= n < 2 ^ 30 ->
  feed c (slot_packet src (s0 + Z.of_nat j) x).1 (slot_payload x) = Ok c' -> receiving (Some j) c'.
Proof.
  intros Hr Hn Hx Hok Hlim H. pose proof (seq_reading l j x c Hr Hn Hx) as Hseq. destruct (slot_facts j x Hx) as (_ & Hne & _ & Hts & _).
  unfold feed in H. set (h := (slot_packet src (s0 + Z.of_nat j) x).1) in *. pose proof (check_seq_ok n _ h (check_ssrc_ok (cap:=cap) n c h Hok)) as Hsok.
  destruct (check_seq (check_ssrc c h) h) as [[g|] d]; cbn [snd] in Hsok; [|assert (c' = d) as -> by congruence; done].
  destruct (check_boundary_ok n d h g Hsok Hlim Hts) as (e & He & Heok & _). rewrite He in H. cbn [rbind] in H. specialize (Hseq e He).
  rewrite bool_decide_eq_false_2 in H by done. apply rbind_ok in H as (f & Hf & H). apply (marker_receiving x j f); [|done|exact H].
  by eapply dispatch_reading.
Qed.

(** Reads and flushes between access units. *)
Lemma next_receiving l c : receiving l c -> receiving l (next_au c).2 /\ Forall (faithful cfg aus) (option_list (next_au c).1).
Proof.
  intros Hc. pose proof Hc as [H1 H2 H3 H4 H5]. unfold next_au. destruct (ready c) as [|a q] eqn:Hq; cbn [fst snd option_list]; [by split|].
  apply Forall_cons in H5 as [Ha Hq']. split; [|by repeat constructor]. split; try done.
  destruct H3 as [[Hcl Hl]|(j & x & ? & ? & ? & ? & ?)]; [left; split; [by apply (closed_same c)|done]|right; by exists j, x].
Qed.

Lemma flush_end l c : receiving l c -> at_end packets l -> flush c = Ok (next_au c).
Proof.
  intros [_ _ H3 _ _] He. assert (au_ts c = None) as Hts.
  { destruct H3 as [[[] _]|(j & x & -> & Hx & Hr & _)]; [done|]. destruct He as (h & p & Hq & Hm). apply packet_slot in Hq as (y & Hy & Hq).
    injection Hq as -> ->. assert (y = x) as -> by congruence. by apply bool_decide_eq_true in Hm. }
  unfold flush, complete_au. by rewrite Hts.
Qed.

Lemma run_receiving cap os : forall l c n, delivered packets l os -> receiving l c -> core_ok cap n c -> 0 <= n -> n + zlen os <= 2 ^ 30 ->
  exists out c', depay_run c os = Ok (out, c') /\ Forall (faithful cfg aus) (out ++ ready c').
Proof.
  induction os as [|o os IH]; intros l c n Hd Hr Hok Hn Hl; cbn [depay_run]; [exists [], c; split; [done|apply Hr]|].
  rewrite zlen_cons in Hl. pose proof (zlen_nonneg os).
  assert (exists a c1 l1, depay_step c o = Ok (a, c1) /\ core_ok cap (n + 1) c1 /\ Forall (faithful cfg aus) a /\ receiving l1 c1 /\ delivered packets l1 os)
    as (a & c1 & l1 & -> & Hok1 & Ha & Hr1 & Hd1).
  { inversion Hd as [|l1 os1 Hd1|l1 os1 He Hd1|l1 j h p os1 Hq Hnear Hd1]; subst; cbn [depay_step].
    - destruct (next_receiving l c Hr) as [Hr1 Ha]. destruct (next_au_ok n c Hok) as [Hok1 _]. destruct (next_au c) as [a c1]. exists (option_list a), c1, l.
      split_and!; try done. by apply core_next.
    - destruct (next_receiving l c Hr) as [Hr1 Ha]. destruct (next_au_ok n c Hok) as [Hok1 _]. rewrite (flush_end l c Hr He). destruct (next_au c) as [a c1].
      exists (option_list a), c1, l. split_and!; try done. by apply core_next.
    - apply packet_slot in Hq as (x & Hx & Hq). destruct (slot_facts j x Hx) as (_ & _ & Hb & Hts & _).
      assert (h = (slot_packet src (s0 + Z.of_nat j) x).1) as -> by (by rewrite <- Hq). assert (p = slot_payload x) as -> by (unfold slot_packet in Hq; congruence).
      destruct (feed_ok n c (slot_packet src (s0 + Z.of_nat j) x).1 (slot_payload x) Hok) as (c1 & Hc1 & Hok1); [lia|exact Hts|exact Hb|].
      rewrite Hc1. exists [], c1, (Some j). split_and!; try done. eapply feed_receiving; [exact Hr|exact Hnear|exact Hx|exact Hok|lia|exact Hc1]. }
  rb. destruct (IH l1 c1 (n + 1) Hd1 Hr1 Hok1) as (out & c2 & -> & Ho); [lia|lia|]. rb. exists (a ++ out), c2. split; [done|].
  rewrite <- app_assoc. by apply Forall_app.
Qed.

End Network.
Lemma new_receiving cfg aus src s0 slots c : new_core cfg = Ok c -> receiving cfg aus src s0 slots None c.
Proof.
  unfold new_core. destruct (_ <=? _); [|done]. intros (cache & Hs & H)%rbind_ok.
  match type of H with Ok ?y = _ => assert (c = y) as -> by congruence end. split; cbn; [done|done| | |constructor].
  - left. by split.
  - apply (seed_in (known cfg aus) _ _ _ _ Hs); [intros m Hm; rewrite !elem_of_cons, elem_of_nil in Hm; by destruct Hm as [?|[?|[?|?]]]|]. intros m Hm Hp. split; [done|by left].
Qed.

(** C5: an H.264 or H.265 session of access units of valid NAL units is packetized
    without a panic into packets no larger than asked for. Let the network lose,
    repeat and reorder the packets, but so that the first one to arrive opens an
    access unit, and each later one is less than 65,535 packets from the one
    before it; let the caller read whenever it likes, and flush only
    before the first packet or after one that ends an access unit, in at most
    2^30 calls. Then the receiver does
    not panic and never hands out a damaged access unit: every one is an access
    unit of the sender, all its NAL units whole and in order, with its timestamp
    and key-frame flag, and at most parameter sets in front of a key frame that
    the sender sent or the caller configured. (A receiver that joins in the middle
    of an access unit hands out the rest of it.) *)
Theorem rtp_delivery_sound {L : FormatLaws F} {PL : PacketizerLaws F} (cfg : DepayConfig) (aus : list SentAu) (src max s0 : Z) :
  Forall au_typed aus -> min_payload <= max -> 0 <= max_au_bytes cfg <= 2 ^ 62 ->
  exists pkts, send src max s0 aus = Ok pkts /\ Forall (fun q => zlen q.2 <= max) pkts /\
    forall os, delivered pkts None os -> zlen os <= 2 ^ 30 ->
      exists c0 out c, new_core cfg = Ok c0 /\ depay_run c0 os = Ok (out, c) /\ Forall (faithful cfg aus) (out ++ ready c).
Proof.
  intros Ha Hm Hc. destruct (send_slots src max aus Ha Hm s0) as (slots & -> & Hch & Hsl & _). exists (pack src s0 slots). split; [done|]. split.
  { clear Hch. revert s0. induction Hsl as [|x slots (_ & _ & _ & Hx) _ IH]; intros s; cbn [pack]; constructor; [exact Hx|apply IH]. }
  intros os Hd Hl. destruct (depay_new_ok (cap:=max_au_bytes cfg) cfg Hc eq_refl) as (c0 & H0 & Hok).
  destruct (run_receiving cfg aus src s0 max slots Ha (Hch None I) Hsl (max_au_bytes cfg) os None c0 0 Hd) as (out & c & Hr & Hf); [by apply new_receiving|done|lia|lia|].
  by exists c0, out, c.
Qed.

End Format.

(** The packets of these indices, and a read at the end. *)
Definition arrivals (pkts : list Packet) (js : list nat) : list depay_op :=
  omap (fun j => (fun q : Packet => Feed q.1 q.2) <$> pkts !! j) js ++ [NextAu].

(** Two H.264 access units; a fragment of the first is lost, another packet
    arrives twice, and the second unit is all that comes out. *)
Lemma rtp_delivery_sound_witness :
  let aus := [{| sent_ts := 90000; sent_nals := [[0x67; 1]; [0x65; 1; 2; 3; 4; 5; 6; 7]] |}; {| sent_ts := 93003; sent_nals := [[0x41; 9; 9]] |}] in
  exists pkts c0 out c, send (F:=Formats.H264) 7 5 65534 aus = Ok pkts /\ length pkts = 5%nat /\
    new_core (F:=Formats.H264) DepayConfig_default = Ok c0 /\ depay_run (F:=Formats.H264) c0 (arrivals pkts [0; 1; 1; 3; 4]%nat) = Ok (out, c) /\
    Forall (faithful (F:=Formats.H264) DepayConfig_default aus) (out ++ ready c) /\ map rtp_timestamp (out ++ ready c) = [93003] /\ aus_dropped (stats c) = 1.
Proof.
  intros aus. assert (Forall (au_typed (F:=Formats.H264)) aus) as Ha.
  { repeat constructor; cbn; try lia; try done; eexists; (split; [reflexivity|vm_compute; split; [reflexivity|split; discriminate]]). }
  destruct (rtp_delivery_sound (F:=Formats.H264) DepayConfig_default aus 7 5 65534 Ha) as (pkts & Hs & _ & Hall); [vm_compute; discriminate|cbn; lia|].
  exists pkts. assert (length pkts = 5%nat /\ delivered pkts None (arrivals pkts [0; 1; 1; 3; 4]%nat) /\ zlen (arrivals pkts [0; 1; 1; 3; 4]%nat) <= 2 ^ 30) as (Hl & Hd & Hz).
  { vm_compute in Hs. injection Hs as <-. split; [reflexivity|]. split; [|vm_compute; discriminate]. unfold arrivals. cbn [omap list_omap lookup list_lookup fmap option_fmap option_map fst snd app].
    apply (delivered_feed _ _ 0); [reflexivity|by left|]. do 2 (apply (delivered_feed _ _ 1); [reflexivity|cbn; lia|]).
    apply (delivered_feed _ _ 3); [reflexivity|cbn; lia|]. apply (delivered_feed _ _ 4); [reflexivity|cbn; lia|]. apply delivered_next, delivered_nil. }
  destruct (Hall _ Hd Hz) as (c0 & out & c & H0 & Hr & Hf). exists c0, out, c. do 5 (split; [assumption|]).
  vm_compute in Hs. injection Hs as <-. vm_compute in H0. injection H0 as <-. vm_compute in Hr. injection Hr as <- <-. split; reflexivity.
Defined.

End Delivery.

(** * A network that loses nothing *)
Module Lossless.
Import RtpPacket Clock Depay DepayOps DepayLaws DepayInv Carriage Sender Session Receive.

(** The time of an access unit after one at [ts] and [t]: zero for the first,
    then the signed distance of the 32-bit timestamps is added. *)
Definition time_after (prev : option (Z * Z)) (a : SentAu) : Z :=
  match prev with None => 0 | Some (ts, t) => t + as_i32 (sent_ts a - ts) end.

Section Format.
Context {F : Format} {P : Packetizer F}.

Definition received (a : SentAu) (t : Z) : AccessUnit :=
  {| annexb := framed (sent_nals a); pts := t; key_frame := existsb idr (sent_nals a); rtp_timestamp := sent_ts a |}.

(** The access units a receiver hands out, by the sender's ... *)
Fixpoint expected (prev : option (Z * Z)) (aus : list SentAu) : list AccessUnit :=
  match aus with
  | [] => []
  | a :: aus => received a (time_after prev a) :: expected (Some (sent_ts a, time_after prev a)) aus
  end.

(** ... and by the packets it sends. *)
Fixpoint timeline (prev : option (Z * Z)) (slots : list Slot) : list AccessUnit :=
  match slots with
  | [] => []
  | x :: slots =>
      let t := time_after prev (slot_au x) in
      (if bool_decide (slot_rest x = []) then [received (slot_au x) t] else []) ++ timeline (Some (sent_ts (slot_au x), t)) slots
  end.

Lemma as_i32_0 : as_i32 0 = 0.
Proof. reflexivity. Qed.

Lemma timeline_au a l : forall ps prev, ps <> [] ->
  timeline prev (slots_of a ps ++ l) = received a (time_after prev a) :: timeline (Some (sent_ts a, time_after prev a)) l.
Proof.
  induction ps as [|p [|q ps] IH]; intros prev Hp; [done|done|]. cbn [slots_of app] in *. cbn [timeline] in *. cbn [slot_rest slot_au] in *.
  rewrite bool_decide_eq_false_2 by done. cbn [app]. specialize (IH (Some (sent_ts a, time_after prev a)) ltac:(done)). rewrite IH.
  cbn [time_after]. by rewrite Z.sub_diag, as_i32_0, Z.add_0_r.
Qed.

Context {L : FormatLaws F} {PL : PacketizerLaws F}.

(** The clock of a depacketizer whose last packet was at [prev]. *)
Definition clock (prev : option (Z * Z)) (c : Core) : Prop :=
  match prev with
  | None => last (ts_unwrap c) = None /\ pts_base c = None /\ last_emitted_pts c = - SSRC_RESET_PTS_STEP
  | Some (ts, t) => exists y b, last (ts_unwrap c) = Some (ts, y) /\ pts_base c = Some b /\ y - b = t
  end.

(** The access unit of the last packet: all of it is handed out, or all of it up to here is there. *)
Definition flows (o : option Slot) (prev : option (Z * Z)) (c : Core) : Prop :=
  match o with
  | None => closed c
  | Some x =>
      if bool_decide (slot_rest x = []) then closed c
      else au_poisoned c = false /\ progress c (sent_nals (slot_au x)) (slot_rest x) /\ au_ts c = Some (sent_ts (slot_au x)) /\
        exists t b, prev = Some (sent_ts (slot_au x), t) /\ pts_base c = Some b /\ au_ts_ext c - b = t
  end.

Record lossless (src s : Z) (o : option Slot) (prev : option (Z * Z)) (c : Core) : Prop := {
  ll_cfg : parameter_set_injection (config c) = NoInjection;
  ll_gap : gap_pending c = false;
  ll_track : tracked c = match o with Some _ => (Some src, Some (as_u16 (s - 1))) | None => (None, None) end;
  ll_clock : clock prev c;
  ll_flows : flows o prev c }.

Lemma unwrap_eq {E} u ts y u' : unwrap (E:=E) u ts = Ok (y, u') ->
  u' = {| last := Some (ts, y) |} /\ y = match last u with None => ts | Some (r, x) => x + as_i32 (ts - r) end.
Proof.
  unfold unwrap. intros (z & Hz & H)%rbind_ok. destruct (last u) as [[r x]|].
  - unfold chk_i64 in Hz. destruct (_ && _) in Hz; [|done]. assert (z = x + as_i32 (ts - r)) as -> by congruence. split; congruence.
  - split; congruence.
Qed.

(** A packet of the access unit at time [t] is being processed. *)
Record flowing (src s : Z) (x : Slot) (t : Z) (todo : list (list Z)) (c : Core) : Prop := {
  fl_cfg : parameter_set_injection (config c) = NoInjection;
  fl_gap : gap_pending c = false;
  fl_track : tracked c = (Some src, Some (as_u16 s));
  fl_poison : au_poisoned c = false;
  fl_progress : progress c (sent_nals (slot_au x)) todo;
  fl_ts : au_ts c = Some (sent_ts (slot_au x));
  fl_clock : exists y b, last (ts_unwrap c) = Some (sent_ts (slot_au x), y) /\ pts_base c = Some b /\ y - b = t /\ au_ts_ext c - b = t }.

Lemma in_sequence src s o prev c x : lossless src s o prev c ->
  check_seq (check_ssrc c (slot_packet src s x).1) (slot_packet src s x).1 =
  (Some false, set_track c (Some src) (last_seq c) (ts_unwrap c) (pts_base c)).
Proof.
  intros [_ _ Ht _ _]. unfold tracked in Ht. rewrite Delivery.check_ssrc_same by (destruct o; [right|left]; cbn; congruence).
  unfold check_seq. cbn [last_seq set_track]. destruct o as [z|]; [|by assert (last_seq c = None) as -> by congruence].
  assert (last_seq c = Some (as_u16 (s - 1))) as -> by congruence. cbn [slot_packet fst seq].
  destruct (Delivery.seq_delta s (-1) 0 ltac:(lia)) as [H0 H1]. rewrite Z.add_0_r in *. replace (s + -1) with (s - 1) in * by lia.
  cbv zeta in *. rewrite (proj2 (Z.eqb_neq _ 0)), (proj2 (Z.eqb_eq _ 1)) by lia. done.
Qed.

Lemma boundary_flowing src s o prev c x d : lossless src s o prev c -> follows o x ->
  check_boundary (set_track c (Some src) (last_seq c) (ts_unwrap c) (pts_base c)) (slot_packet src s x).1 false = Ok d ->
  flowing src s x (time_after prev (slot_au x)) (slot_payload x :: slot_rest x) d /\ ready d = ready c.
Proof.
  intros [H1 H2 H3 H4 H5] Hf H. set (c1 := set_track _ _ _ _ _) in *.
  assert (closed c -> opens x -> flowing src s x (time_after prev (slot_au x)) (slot_payload x :: slot_rest x) d /\ ready d = ready c) as Hopen.
  { intros Hcl (chunks & Hch & Hp). assert (closed c1) as Hcl1 by (by apply (Delivery.closed_same c)).
    destruct (boundary_open _ _ _ H Hcl1) as ((K1 & K2 & K3) & Ht & Hts & Hb & Hfu & Hi & Hpo & Hg & y & u & Hu & Hu' & Hext & Hbase). split; [|done].
    apply unwrap_eq in Hu as [-> Hy]. cbn [slot_packet fst timestamp ts_unwrap c1 set_track] in Hy. split; [by rewrite K1|done|exact Ht|rewrite Hpo; exact H2| |done|].
    - exists [], (sent_nals (slot_au x)). rewrite Hfu, Hb, Hi, Hp. split_and!; try done. by apply remains_none.
    - cbn [pts_base c1 set_track last_emitted_pts] in Hbase. rewrite Hu'. cbn [last]. destruct prev as [[ts t]|]; cbn [clock time_after] in *.
      + destruct H4 as (w & b & Hw & Hpb & Hwt). rewrite Hw in Hy. rewrite Hpb in Hbase. exists y, b. split_and!; [done|done|lia|lia].
      + destruct H4 as (Hw & Hpb & Hle). rewrite Hpb, Hle in Hbase. unfold SSRC_RESET_PTS_STEP in Hbase. exists y, y.
        split_and!; [done| |lia|lia]. rewrite Hbase. f_equal. lia. }
  destruct o as [z|]; cbn [follows flows] in *; [|by apply Hopen]. case_bool_decide as Hr; [by apply Hopen|].
  destruct H5 as (Hpo & Hg & Hts & t & b & -> & Hb & Ht). destruct Hf as [Ha Hrest].
  destruct (boundary_same c1 (slot_packet src s x).1 d H) as (y & u & Hu & ->); [change (au_ts c = Some (sent_ts (slot_au x))); congruence|].
  apply unwrap_eq in Hu as [-> Hy]. cbn [slot_packet fst timestamp ts_unwrap c1 set_track] in Hy. split; [|done]. rewrite <- Hrest.
  cbn [time_after]. destruct H4 as (w & b' & Hw & Hpb & Hwt). rewrite Ha, Z.sub_diag, as_i32_0, Z.add_0_r. rewrite Hw, Ha, Z.sub_diag, as_i32_0, Z.add_0_r in Hy. subst y.
  split; try done; [by rewrite Ha|change (au_ts c = Some (sent_ts (slot_au x))); congruence|]. exists w, b. split_and!; [done|done| |done]. assert (b' = b) by congruence. by subst b'.
Qed.

(** The access unit passes: no error bit, and it fits. *)
Definition passes (cap : Z) (a : SentAu) : Prop := au_typed a /\ zlen (framed (sent_nals a)) <= cap.

Lemma not_refused c cap a : passes cap a -> max_au_bytes (config c) = cap -> ~ refused c (sent_nals a).
Proof.
  intros [(_ & _ & Hs) Hf] Hcap [(n & b & Hn & Hb & Hl)|Hl]; [|unfold fits in Hl; lia]. rewrite Forall_forall in Hs.
  destruct (sendable_clean n (Hs n Hn)) as (b' & Hb' & Hl'). congruence.
Qed.

Lemma dispatch_flowing cap n src s x t c d : flowing src s x t (slot_payload x :: slot_rest x) c -> core_ok cap n c -> passes cap (slot_au x) ->
  slot_payload x <> [] -> bytes (slot_payload x) -> dispatch c (slot_payload x) = Ok d ->
  flowing src s x t (slot_rest x) d /\ ready d = ready c.
Proof.
  intros [H1 H2 H3 H4 H5 H6 H7] Hok Hpass Hne Hb H. pose proof (ok_cap _ _ _ Hok) as [_ Hcap].
  destruct (dispatch_ok n c (slot_payload x) Hok) as (d' & Hd' & _ & (E1 & E2 & E3 & E4 & E5 & _ & E7 & E8 & E9 & E10)); [by rewrite H6|done|done|].
  assert (d' = d) as -> by congruence. destruct (dispatch_advances _ _ _ _ _ H H4 H5) as [[Hp Hg]|[_ Href]]; [|by destruct (not_refused c cap _ Hpass Hcap Href)].
  split; [|done]. split; try done; [congruence|congruence|unfold tracked in *; congruence|congruence|]. by rewrite E4, E5, E8.
Qed.

Lemma marker_lossless src s x t c d : flowing src s x t (slot_rest x) c -> sent_nals (slot_au x) <> [] ->
  (if bool_decide (slot_rest x = []) then let! c := complete_au c in Ok (set_gap c false) else Ok c) = Ok (E:=Empty_set) d ->
  lossless src (s + 1) (Some x) (Some (sent_ts (slot_au x), t)) d /\
  ready d = ready c ++ (if bool_decide (slot_rest x = []) then [received (slot_au x) t] else []).
Proof.
  intros [H1 H2 H3 H4 H5 H6 (y & b & Hy & Hb & Ht & He)] Hne H.
  assert (s + 1 - 1 = s) as Hs by lia. case_bool_decide as Hr; cycle 1.
  - injection H as <-. split; [|by rewrite app_nil_r]. split; try done; [by rewrite Hs|by exists y, b|]. cbn [flows]. rewrite bool_decide_eq_false_2 by done.
    split_and!; try done. by exists t, b.
  - apply rbind_ok in H as (e & Hd & H). assert (d = set_gap e false) as -> by congruence. rewrite Hr in H5.
    destruct (complete_whole (E:=Empty_set) c _ _ e Hd H6 H4 H5 Hne) as (Hcl & Htr & K1 & K2 & K3 & K4 & Hready). rewrite H1 in Hready.
    destruct Hready as [[? _]|(pre & Hq & _ & Hnil)]; [done|]. rewrite Hnil, Hb, He in Hq by (by left). cbn [app] in Hq. split; [|exact Hq].
    split; [by cbn; rewrite K1|done| | |].
    + rewrite Hs. exact (eq_trans Htr H3).
    + exists y, b. cbn [ts_unwrap pts_base set_gap]. by rewrite K3, K4.
    + cbn [flows]. rewrite bool_decide_eq_true_2 by done. by apply (Delivery.closed_same e).
Qed.

(** The packets one after the other, and reads in between. *)
Inductive in_order : list Packet -> list depay_op -> Prop :=
| in_order_nil : in_order [] []
| in_order_feed h p pkts os : in_order pkts os -> in_order ((h, p) :: pkts) (Feed h p :: os)
| in_order_next pkts os : in_order pkts os -> in_order pkts (NextAu :: os).

Lemma in_order_feeds pkts : in_order pkts (map (fun q => Feed q.1 q.2) pkts ++ [NextAu]).
Proof. induction pkts as [|[h p] pkts IH]; cbn [map app]; repeat constructor. exact IH. Qed.

Lemma next_lossless src s o prev c : lossless src s o prev c -> lossless src s o prev (next_au c).2 /\
  option_list (next_au c).1 ++ ready (next_au c).2 = ready c.
Proof.
  intros Hc. pose proof Hc as [H1 H2 H3 H4 H5]. unfold next_au. destruct (ready c) as [|a q] eqn:Hq; cbn [fst snd option_list]; [by rewrite Hq|].
  split; [|done]. split; try done. unfold flows in *. destruct o as [x|]; [|by apply (Delivery.closed_same c)]. case_bool_decide; [by apply (Delivery.closed_same c)|done].
Qed.

Lemma feed_lossless cap n src s o prev c x : lossless src s o prev c -> follows o x -> core_ok cap n c -> 0 <= n < 2 ^ 30 -> passes cap (slot_au x) ->
  slot_payload x <> [] -> bytes (slot_payload x) -> exists c', feed c (slot_packet src s x).1 (slot_payload x) = Ok c' /\ core_ok cap (n + 1) c' /\
    let t := time_after prev (slot_au x) in lossless src (s + 1) (Some x) (Some (sent_ts (slot_au x), t)) c' /\
    ready c' = ready c ++ (if bool_decide (slot_rest x = []) then [received (slot_au x) t] else []).
Proof.
  intros Hl Hf Hok Hn Hpass Hne Hb. pose proof Hpass as [(Hts & Hnn & _) _]. destruct (feed_ok n c (slot_packet src s x).1 (slot_payload x) Hok Hn Hts Hb) as (c' & Hc' & Hok').
  exists c'. split; [done|]. split; [done|]. unfold feed in Hc'. rewrite (in_sequence src s o prev c x Hl) in Hc'. set (c1 := set_track c _ _ _ _) in *.
  assert (core_ok cap n c1) as Hok1 by (destruct Hok; by split). destruct (check_boundary_ok n c1 (slot_packet src s x).1 false Hok1 Hn Hts) as (e & He & Heok & _).
  rewrite He in Hc'. cbn [rbind] in Hc'. rewrite bool_decide_eq_false_2 in Hc' by done. apply rbind_ok in Hc' as (f & Hf' & Hc').
  destruct (boundary_flowing src s o prev c x e Hl Hf He) as [Hfl Hr1].
  destruct (dispatch_flowing cap (n + 1) src s x _ e f Hfl Heok Hpass Hne Hb Hf') as [Hfl2 Hr2].
  destruct (marker_lossless src s x _ f c' Hfl2 Hnn Hc') as [Hl' Hr3]. split; [done|]. by rewrite Hr3, Hr2, Hr1.
Qed.

Lemma run_lossless cap src os : forall slots s o prev c n, in_order (pack src s slots) os -> chain o slots ->
  Forall (fun x => passes cap (slot_au x) /\ slot_payload x <> [] /\ bytes (slot_payload x)) slots -> lossless src s o prev c ->
  core_ok cap n c -> 0 <= n -> n + zlen os <= 2 ^ 30 ->
  exists out c', depay_run c os = Ok (out, c') /\ out ++ ready c' = ready c ++ timeline prev slots.
Proof.
  induction os as [|op os IH]; intros slots s o prev c n Hio Hch Hsl Hl Hok Hn Hlim.
  - inversion Hio as [Hnil| |]; subst. destruct slots; [|done]. exists [], c. split; [done|]. by rewrite app_nil_r.
  - rewrite zlen_cons in Hlim. pose proof (zlen_nonneg os). cbn [depay_run]. inversion Hio as [|h p pkts os' Hio' Hpk|pkts os' Hio']; subst; cbn [depay_step].
    + destruct slots as [|x slots]; [done|]. cbn [pack] in Hpk. destruct Hch as [Hf Hch]. apply Forall_cons in Hsl as [(Hpass & Hne & Hb) Hsl].
      assert ((h, p) = slot_packet src s x /\ pkts = pack src (s + 1) slots) as [Hq ->] by (split; congruence).
      assert (h = (slot_packet src s x).1) as -> by (by rewrite <- Hq). assert (p = slot_payload x) as -> by (unfold slot_packet in Hq; congruence).
      destruct (feed_lossless cap n src s o prev c x Hl Hf Hok ltac:(lia) Hpass Hne Hb) as (c' & -> & Hok' & Hl' & Hr). rb.
      destruct (IH slots (s + 1) (Some x) _ c' (n + 1) Hio' Hch Hsl Hl' Hok') as (out & c2 & -> & Ho); [lia|lia|]. rb. exists out, c2. split; [done|].
      rewrite Ho, Hr, <- app_assoc. done.
    + destruct (next_lossless src s o prev c Hl) as [Hl' Hr]. destruct (next_au_ok n c Hok) as [Hok' _]. destruct (next_au c) as [a c1]. cbn [fst snd] in *. rb.
      destruct (IH slots s o prev c1 n Hio' Hch Hsl Hl' Hok') as (out & c2 & -> & Ho); [lia|lia|]. rb. exists (option_list a ++ out), c2. split; [done|].
      by rewrite <- app_assoc, Ho, app_assoc, Hr.
Qed.

Lemma timeline_expected aus : forall pss prev, Forall2 (fun _ ps => ps <> []) aus pss ->
  timeline prev (concat (zip_with slots_of aus pss)) = expected prev aus.
Proof.
  induction aus as [|a aus IH]; intros pss prev H; inversion H as [|? ps ? pss' Hps Hrest]; subst; [done|]. cbn [zip_with concat expected].
  rewrite timeline_au by done. by rewrite IH.
Qed.

Lemma new_lossless cfg src s c : new_core cfg = Ok c -> parameter_set_injection cfg = NoInjection -> lossless src s None None c.
Proof.
  unfold new_core. destruct (_ <=? _); [|done]. intros (cache & _ & H)%rbind_ok Hi. match type of H with Ok ?y = _ => assert (c = y) as -> by congruence end.
  split; cbn; [done|done|done|done|]. by split.
Qed.

(** C6: when the network loses nothing, what an H.264 or H.265 receiver without
    parameter-set injection hands out is the sender's session: for any first
    sequence number (they wrap), any packet size the packetizer accepts and any
    reads in between, every access unit, in order, with all its NAL units
    behind start codes, its key-frame flag and timestamp, the first at time zero
    and each other one at the signed distance of the 32-bit timestamps behind
    the one before. *)
Theorem rtp_session_roundtrip (cfg : DepayConfig) (aus : list SentAu) (src max s0 : Z) :
  Forall (passes (max_au_bytes cfg)) aus -> min_payload <= max -> 0 <= max_au_bytes cfg <= 2 ^ 62 -> parameter_set_injection cfg = NoInjection ->
  exists pkts c0, send src max s0 aus = Ok pkts /\ new_core cfg = Ok c0 /\
    forall os, in_order pkts os -> zlen os <= 2 ^ 30 -> exists out c, depay_run c0 os = Ok (out, c) /\ out ++ ready c = expected None aus.
Proof.
  intros Ha Hm Hc Hinj. assert (Forall au_typed aus) as Hty by (eapply Forall_impl; [exact Ha|]; by intros a []).
  destruct (send_slots src max aus Hty Hm s0) as (slots & -> & Hch & Hsl & pss & Hpss & Hcat).
  destruct (depay_new_ok (cap:=max_au_bytes cfg) cfg Hc eq_refl) as (c0 & H0 & Hok). exists (pack src s0 slots), c0. split; [done|]. split; [done|].
  intros os Hio Hl. destruct (run_lossless (max_au_bytes cfg) src os slots s0 None None c0 0 Hio (Hch None I)) as (out & c & Hr & Ho); [|by apply (new_lossless cfg)|done|lia|lia|].
  - eapply Forall_impl; [exact Hsl|]. intros x (Hx & ? & ? & _). split_and!; try done. rewrite Forall_forall in Ha. by apply Ha.
  - exists out, c. split; [done|]. rewrite Ho, Hcat, timeline_expected by done. assert (ready c0 = []) as ->; [|done].
    unfold new_core in H0. destruct (_ <=? _); [|done]. apply rbind_ok in H0 as (cache & _ & H0).
    match type of H0 with Ok ?y = _ => assert (c0 = y) as -> by congruence end. done.
Qed.

End Format.

(** Two H.265 access units, the first with a fragmented unit, over a wrap of the
    sequence numbers and of the timestamps. *)
Lemma rtp_session_roundtrip_witness :
  let cfg := {| config_payload_type := 96; parameter_set_injection := NoInjection; initial_parameter_sets := []; max_au_bytes := 100 |} in
  let aus := [{| sent_ts := 4294967290; sent_nals := [[0x40; 1; 5]; [0x26; 1; 2; 3; 4; 5; 6; 7]] |}; {| sent_ts := 2997; sent_nals := [[0x02; 1; 9]] |}] in
  exists pkts c0 out c, send (F:=Formats.H265) 7 5 65534 aus = Ok pkts /\ new_core (F:=Formats.H265) cfg = Ok c0 /\
    depay_run (F:=Formats.H265) c0 (map (fun q => Feed q.1 q.2) pkts ++ [NextAu]) = Ok (out, c) /\
    out ++ ready c = expected (F:=Formats.H265) None aus /\ map pts (out ++ ready c) = [0; 3003] /\ length pkts = 5%nat.
Proof.
  intros cfg aus. assert (Forall (passes (F:=Formats.H265) (max_au_bytes cfg)) aus) as Ha.
  { repeat constructor; cbn; try lia; try done; try (vm_compute; congruence); eexists; (split; [reflexivity|vm_compute; split; [reflexivity|discriminate]]). }
  destruct (rtp_session_roundtrip (F:=Formats.H265) cfg aus 7 5 65534 Ha) as (pkts & c0 & Hs & H0 & Hall).
  - vm_compute. discriminate.
  - cbn. lia.
  - reflexivity.
  - assert (length pkts = 5%nat) as Hlen by (vm_compute in Hs; injection Hs as <-; reflexivity).
    destruct (Hall (map (fun q => Feed q.1 q.2) pkts ++ [NextAu])) as (out & c & Hr & Ho).
    + apply in_order_feeds.
    + unfold zlen. rewrite List.length_app, List.length_map. change (Z.of_nat (length pkts + 1) <= 2 ^ 30). rewrite Hlen. vm_compute. discriminate.
    + exists pkts, c0, out, c. split; [exact Hs|]. split; [exact H0|]. split; [exact Hr|]. rewrite Ho. split; [reflexivity|]. split; [reflexivity|exact Hlen].
Defined.

End Lossless.

(** * Where the documentation promises more *)
Module RtpLimits.
Import RtpPacket Depay DepayOps DepayInv Formats.

(** A receiver that joins in the middle of an access unit, here after its
    parameter set, hands out what is left of it. *)
Lemma joining_inside_a_unit :
  exists c0 out c, new_core (F:=H264) DepayConfig_default = Ok c0 /\
    depay_run (F:=H264) c0 [Feed {| seq := 8; timestamp := 0; ssrc := 1; marker := true; payload_type := 96 |} [0x41; 2]; NextAu] = Ok (out, c) /\
    map annexb out = [[0; 0; 0; 1; 0x41; 2]] /\ aus_dropped (stats c) = 0.
Proof. eexists _, _, _. split; [vm_compute; reflexivity|]. split; [vm_compute; reflexivity|]. split; reflexivity. Qed.

(** An access unit over the cap that a change of source ends is counted as
    oversize and not as dropped. *)
Lemma oversize_not_dropped :
  let cfg := {| config_payload_type := 96; parameter_set_injection := BeforeIdr; initial_parameter_sets := []; max_au_bytes := 5 |} in
  let h src := {| seq := 8; timestamp := 0; ssrc := src; marker := false; payload_type := 96 |} in
  exists c0 out c, new_core (F:=H264) cfg = Ok c0 /\
    depay_run (F:=H264) c0 [Feed (h 1) [0x41; 2]; Feed (h 2) [0x41]; Flush] = Ok (out, c) /\
    aus_dropped_oversize (stats c) = 1 /\ aus_dropped (stats c) = 0.
Proof. eexists _, _, _. split; [vm_compute; reflexivity|]. split; [vm_compute; reflexivity|]. split; reflexivity. Qed.

End RtpLimits.
